(* ===== verification/_CoqProject ===== *)
-Q . S2P
Prelude.v
Quiet.v
Bytes.v
CString.v
Layout.v
Rand.v
Spinlock.v
ProcData.v
Proc.v
ProcSpec.v
Env.v
Original.v
ProcThms.v
Trap.v
TrapProps.v
Lottery.v
Mlfq.v
MlfqV01.v
Bcache.v
BcacheSpec.v
Ide.v
IdeSpec.v
IdeProps.v
Log.v
LogSpec.v
Recovery.v
LogThms.v
Transaction.v
Reserve.v
Fs.v
SmallDisk.v
LogProps.v
FsBlocks.v
FsContent.v
FsDirs.v
FsProps.v
Mkfs.v
MkfsSpec.v
MkfsProps.v
Kalloc.v
KallocSpec.v
Vm.v
VmSpec.v
VmUser.v
VmSpace.v
VmProps.v
Pipe.v
File.v
FileSpec.v
Grep.v
Sh.v
ShSpec.v
ShProps.v
Syscall.v
Sysfile.v
Exec.v
SysfileProps.v
SysfileInv.v
ExecSpec.v
ExecFile.v
ExecProps.v
MkfsBoot.v
Console.v
ConsoleSpec.v
ConsoleProps.v
Pmap.v
PmapSpec.v
PmapProps.v
JosBoot.v
Umalloc.v
UmallocSpec.v
UmallocFree.v
UmallocProps.v
Kdebug.v
KdebugProps.v
Printfmt.v
PrintfmtProps.v
JosString.v
JosStringProps.v
Monitor.v
