(* ===== verification/Prelude.v ===== *)
(** * A verification library for the CS-1217 operating-systems code

    The repository holds the xv6 kernel in two copies (assignment-3 and lab-2, the second
    with five versions of the scheduler), its user programs, two stages of the JOS kernel
    (lab-1 and lab-3) and small course programs.  This library models the xv6 of lab-2 and
    the memory management of JOS (lab-3) and proves what makes their parts correct.  A
    function keeps the name it has in the C code.

    ** The program's parts and the files that model them

    The base.
    - [Prelude] (this file): 32-bit integers on [Z], the outcomes of C code ([res]), the
      state monad [M], its weakest preconditions [wpx] with the tactics for them, and loops
      on fuel.  [Quiet]: programs that leave a part of the state alone.  [Bytes]: integers
      in memory, little endian.  [Layout]: the address constants of mmu.h and memlayout.h.
    - [CString]: string.c and the string instructions of x86.h.  [Rand]: rand.c.

    Processes.
    - [Spinlock]: spinlock.c with the state of a CPU.  [ProcData]: the process table of
      proc.h.  [Proc]: what the five versions of proc.c share, written once over two
      classes: [KernelEnv] is what proc.c calls in other components, [SchedPolicy] is the
      places in which the versions differ.  [Original], [Lottery], [Mlfq] and [MlfqV01]
      are the policies of proc_original.c, proc_lottery_v01.c and _v02.c,
      proc_mlfq_v02.c and proc_mlfq_v01.c, with their [scheduler].  [ProcSpec] has the laws
      of the classes and the specifications proved from them, [Env] an environment that
      obeys the laws, [ProcThms] the properties.
    - [Trap]: sysproc.c, the dispatch of syscall.c and trap.c over the process table; the
      class [TrapEnv] is what they call in other components.  [TrapProps].

    The file system, from the disk up.  Each layer's state is a field of the next one's.
    - [Bcache]: bio.c, sleeplock.c and the disk of memide.c (state [store]).  [BcacheSpec]:
      the cache as a view of the disk.
    - [Log]: log.c (in the same [store]).  [LogSpec], [Recovery], [LogThms],
      [Transaction]: commit, recovery, and transactions; a disk write is recorded in order,
      so that [boot] can start the machine from the disk after any prefix of the writes.
      [Reserve]: the calls of several processes interleaved.  [LogProps]: the properties.
    - [Ide]: ide.c over the ports of the controller (state [driver]), whose documented
      behaviour is a class.  [IdeSpec], [IdeProps]: the driver against the memory disk.
    - [Fs]: fs.c (state [fsys]: a [store], the inode cache, the current directory).
      [SmallDisk]: a file system for the concrete runs.  [FsBlocks], [FsContent],
      [FsDirs]: block allocation, file contents, directories and paths; their
      properties are in [FsProps].
    - [Mkfs]: mkfs.c over the sectors of the image (state [mkst]); [MkfsSpec]: appending to a
      file; [MkfsProps]: the image as the kernel reads it; [MkfsBoot]: the kernel started
      from it.
    - [File]: file.c over [Fs], pipes and the allocator (state [filesys]);
      [FileSpec].  [Pipe]: pipe.c.
    - [Syscall]: argint, argptr, argstr of syscall.c (state [task]: the files and the
      calling process).  [Sysfile]: sysfile.c; [SysfileProps] and [SysfileInv].
    - [Exec]: exec.c, loaduvm, and the arguments of sys_exec, over the files, the page
      tables and the fields of the process that exec sets (state [xproc]).  [ExecSpec]: the
      stack of main, and the loader against what a program file promises, the class
      [ProgramFile]; [ExecFile]: a file of the file system keeps that promise;
      [ExecProps]: exec as a whole.

    Memory.
    - [Kalloc]: kalloc.c, the free list in the pages themselves (state [machine]).
      [KallocSpec].
    - [Vm]: vm.c over [Kalloc].  [VmSpec]: page tables as maps; [VmUser]: the
      pages of a process and their contents; [VmSpace]: copyout, and whole address spaces;
      [VmProps].

    The console and user programs.
    - [Console]: console.c and the output of uart.c; [ConsoleSpec], [ConsoleProps].
    - [Grep]: grep.c and strchr of ulib.c.  [Sh]: the parser of sh.c; [ShSpec],
      [ShProps].
    - [Umalloc]: umalloc.c over the words of the process (state [heap]).  [UmallocSpec]: the
      free list and the blocks in use, and taking a block; [UmallocFree]: giving it back,
      and getting more memory; [UmallocProps]: programs that do so.

    JOS.
    - [Pmap]: the functions of lab-3/kern/pmap.c over physical memory, the table of pages and
      the TLB (state [jos]).  [PmapSpec]: an address space as a map ([space]), pages and
      tables; [PmapProps]: runs of calls, and the boot.  [JosBoot]: memory
      detection, mem_init and its checks, which are run on a small machine.
    - [Kdebug]: lab-1/jos/kern/kdebug.c over a table of stabs; [KdebugProps].
    - [Printfmt]: lab-1/jos/lib/printfmt.c over any function that takes the characters, and
      the two such functions there are, for a buffer and for the console; [PrintfmtProps]:
      formats as lists of parts, and a simulation between two takers of characters.
    - [JosString]: string.c, readline.c and the command line of the monitor over a memory of
      bytes; [JosStringProps].
    - [Monitor]: the commands of lab-3/kern/monitor.c over [Pmap], the line being read and
      the characters printed (state [mon]), with the theorem about setperm.

    ** What the theorems show

    - The log makes the updates of a call atomic under a crash at any disk write, also when
      recovery is interrupted; calls that keep to nine blocks never overflow the log in any
      interleaving, and three that use all of MAXOPBLOCKS do ([LogProps], [Reserve]).
    - The calls of a process on the buffer cache do what they do on a disk without it,
      whatever buffers are recycled; blocks are allocated and freed once; what is written to
      a file is read back; inodes are shared; directory and path lookup do what their names
      say and end ([LogProps], [FsProps]).
    - mkfs ends with an image that holds the files under their names, with the tables of the
      disk as the kernel expects them and no block in two files ([MkfsProps]); a kernel
      started from it reads a file of that name with these bytes ([MkfsBoot]).
    - File system calls keep reference counts and descriptors in step, write reaches the
      disk, pipe undoes what it did when it fails, and no argument is read outside the
      memory of the process ([SysfileInv], [SysfileProps], [Syscall]); a pipe is a first-in
      first-out queue in every interleaving ([Pipe]).
    - The allocator is a stack of pages that starts with every free page; page tables are
      maps; allocuvm, deallocuvm and copyout act on exactly the pages and bytes meant;
      copyuvm copies a process or takes nothing ([KallocSpec], [VmProps]).
    - exec fails and leaves everything as it was, with no page lost, whatever bytes the file
      has; or a new memory has exactly the pages up to the end of the last segment, with the
      bytes of the segments and zeros in the rest, main finds its arguments on the stack,
      and the old memory is free.  It does start a good program when enough pages are free
      ([ExecProps]).  The
      arguments are taken to be shorter than the two pages of the stack; exec.c does not
      check it.
    - The disk driver behaves as the memory disk that the file system theorems use, but for
      the commands that the controller reports as failed; it wakes the process of each
      request ([IdeProps]).
    - fork, exit, wait, sleep and the locks keep the process table as they should, for
      every policy that obeys the laws ([ProcThms], [Spinlock]).
    - The kernel returns to no process that has been killed, the system call fork returns
      in both processes, sleep waits for its ticks and ends, a tick wakes those who wait for
      it, and only the gate of the system calls is open to user mode ([TrapProps]).
    - The generator is MT19937, the lottery runs the process the number elects and of
      the numbers of the generator each ticket has the same share, the feedback queues run the highest level first and can
      be held by a busy lowest level ([Rand], [Lottery], [Mlfq]).
    - The line editor of the console is a queue behind a line being edited, across the
      wrap-around of its counters ([ConsoleProps]); grep's matcher decides the language of
      the pattern ([Grep]); the shell's parser ends on every line and reads back what a
      printer writes ([ShSpec], [ShProps]).
    - malloc and free of the user programs keep the blocks apart and their contents, always
      return, lose no memory and join what is freed, for requests below 2^31 - 15 bytes;
      larger ones make the sizes wrap around ([UmallocProps]).
    - An address space of JOS is a map with reference counts, whatever calls are made, and
      page_init begins with just the unused pages ([PmapProps]).
    - The search of the symbol table of JOS finds the stab that is wanted, if none has the
      address just behind the one looked for, and reads only inside the table; what it finds
      and leaves otherwise is stated too ([KdebugProps]).
    - The formatted output of JOS prints the parts of a format in order, with the padding
      and the cuts that they ask for, and a buffer gets a prefix of just this with a zero
      behind it; strtol reads back numerals with their sign and prefix, and the monitor
      splits its command line into words ([PrintfmtProps], [JosStringProps]).

    ** Conventions

    An integer is a [Z], wrapped where C wraps ([w32], [i32], [w8]).  A pointer into a
    table is an index, a pointer into memory an address or an offset.  An access that C
    leaves undefined is [Fault], the kernel's panic is [Panic], a loop that has used up its
    fuel and a wait that nobody ends is [Diverge].  The theorems that a call succeeds
    exclude all three.

    Fuel.  A loop over an array recurses on the array.  A loop that follows pointers or
    scans text has fuel, and the theorem about it shows that its fuel is enough: the length
    of the text for the parsers and matchers, the number of elements for a path, the
    number of pages or blocks of the range for the loops over them, the number of free
    pages for the free list, more rounds than there are headers in the memory for the list
    of malloc, the length of the symbol table for its search, the length of a format
    and ten rounds more (an error message is a format of its own), the number of ticks for
    sleep, the number of bytes for iappend, and for the wait in idewait the number of times
    the status has to be read, which the class of the controller bounds.  Where the code may really run for ever (the scheduler, a
    level of the feedback queue, begin_op waiting for room) the fuel is an argument and
    the theorem is for every value of it, or gives the value that is enough.

    Processes.  An operation runs as one process.  What other processes do while it sleeps
    is an argument ([others] in begin_op, the class [KernelEnv] in sleep), or the call is
    cut at the sleep and resumed (pipes, console), so that the theorems quantify over the
    interleavings.

    ** Not modelled

    - Hardware: the serial line is taken to be there; the screen is the memory and the
      cursor; the file system is on the memory disk of memide.c, and the disk driver is
      proved to behave like it.  Boot code, interrupt controllers and assembly are left
      out, and so are seginit and what switchuvm does to the task state segment.
    - The memory of the calling process is a list of bytes in [Syscall] and page tables in
      [Vm]; the two are not connected.  A pipe is a record kept beside the page that holds
      it.
    - In the shell malloc does not fail; runcmd and the loop of main are sequences of
      system calls and are left out.
    - [SysfileInv] is about the descriptors of one process.
    - The buffers and inodes a process waits for are those another process has locked; such
      a wait does not end in the model.
    - In JOS the control registers that switch paging on are left out, and the table of
      pages is kept apart from the memory that it lies in.
    - The handlers of sysfile.c are a field of [TrapEnv] where a system call is dispatched:
      the process table ([Proc]) and the calling process ([Syscall]) are states of their
      own.  The interrupt handlers of the drivers are fields as well.
    - The user's printf.c, which repeats cprintf, and the messages of mkfs.c.
      usertests.c and the small programs of the course are tests.
    - assignment-3 is the same xv6 and is not modelled a second time. *)

From Stdlib Require Export ZArith Lia.
From stdpp Require Export base list strings gmap relations.

#[global] Open Scope Z_scope.

(** ** Machine integers

    The kernels are compiled for i386: [int], [unsigned int] and
    [unsigned long] are 32 bits wide.  An integer is a [Z]; the operators
    below are the wrap-around C applies when a result is stored. *)

Definition w32 (x : Z) : Z := x mod 2 ^ 32.
Definition i32 (x : Z) : Z := (x + 2 ^ 31) mod 2 ^ 32 - 2 ^ 31.
Definition w8 (x : Z) : Z := x mod 2 ^ 8.

Definition is_w32 (x : Z) : Prop := 0 <= x < 2 ^ 32.
Definition is_i32 (x : Z) : Prop := - 2 ^ 31 <= x < 2 ^ 31.

Lemma w32_small x : 0 <= x < 2 ^ 32 -> w32 x = x.
Proof. intros. unfold w32. by apply Z.mod_small. Qed.

Lemma w32_bounds x : 0 <= w32 x < 2 ^ 32.
Proof. unfold w32. apply Z.mod_pos_bound. lia. Qed.

Lemma i32_small x : - 2 ^ 31 <= x < 2 ^ 31 -> i32 x = x.
Proof. intros. unfold i32. rewrite Z.mod_small; lia. Qed.

Lemma i32_bounds x : - 2 ^ 31 <= i32 x < 2 ^ 31.
Proof. unfold i32. pose proof (Z.mod_pos_bound (x + 2 ^ 31) (2 ^ 32)). lia. Qed.

(** ** Outcomes

    [Ok] is a normal return, [Panic] the kernel's [panic(msg)], [Fault] an
    access the C code has no defined behaviour for (an index outside an
    array, a null dereference, a division by zero) and [Diverge] a loop that
    is still running when the fuel of the model is used up, or that spins on
    a lock nobody releases. *)

Inductive res (A : Type) : Type :=
  | Ok (a : A)
  | Panic (msg : string)
  | Fault (what : string)
  | Diverge.
Arguments Ok {A} a.
Arguments Panic {A} msg.
Arguments Fault {A} what.
Arguments Diverge {A}.

#[export] Instance res_ret : MRet res := fun A a => Ok a.
#[export] Instance res_bind : MBind res := fun A B f r =>
  match r with
  | Ok a => f a
  | Panic m => Panic m
  | Fault w => Fault w
  | Diverge => Diverge
  end.

(** ** The state and outcome monad *)

Definition M (S A : Type) : Type := S -> res (A * S).

#[export] Instance M_ret S : MRet (M S) := fun A a s => Ok (a, s).
#[export] Instance M_bind S : MBind (M S) := fun A B f m s =>
  match m s with
  | Ok (a, s') => f a s'
  | Panic msg => Panic msg
  | Fault w => Fault w
  | Diverge => Diverge
  end.

Section Operations.
Context {S : Type}.

Definition get : M S S := fun s => Ok (s, s).
Definition gets {A} (f : S -> A) : M S A := fun s => Ok (f s, s).
Definition put (s' : S) : M S unit := fun _ => Ok (tt, s').
Definition modify (f : S -> S) : M S unit := fun s => Ok (tt, f s).
Definition panic {A} (msg : string) : M S A := fun _ => Panic msg.
Definition fault {A} (w : string) : M S A := fun _ => Fault w.
Definition diverge {A} : M S A := fun _ => Diverge.
Definition when (b : bool) (m : M S unit) : M S unit :=
  if b then m else mret tt.
Definition lift_opt {A} (w : string) (o : option A) : M S A :=
  match o with Some a => mret a | None => fault w end.

(** [for_each l body]: the [for] loop whose index takes the values [l]. *)
Fixpoint for_each {I} (l : list I) (body : I -> M S unit) : M S unit :=
  match l with
  | [] => mret tt
  | i :: l' => body i ;; for_each l' body
  end.

(** [find_each l body]: a loop that leaves early when [body] returns a
    value ([break], [goto found], [return]). *)
Fixpoint find_each {I A} (l : list I) (body : I -> M S (option A))
  : M S (option A) :=
  match l with
  | [] => mret None
  | i :: l' =>
      r ← body i;
      match r with Some a => mret (Some a) | None => find_each l' body end
  end.

(** [fold_each l a body]: a loop that carries a local variable. *)
Fixpoint fold_each {I A} (l : list I) (a : A) (body : A -> I -> M S A) : M S A :=
  match l with
  | [] => mret a
  | i :: l' => a' ← body a i; fold_each l' a' body
  end.
End Operations.

(** ** Weakest preconditions

    [wpx F m Q s]: run from [s], [m] returns normally and [Q] holds of its
    result and final state, or it stops in a way [F] allows.  [wp] allows none:
    it is total correctness. *)

Inductive failure := FPanic (msg : string) | FFault (w : string) | FDiverge.

Definition wpx (F : failure -> Prop) {S A} (m : M S A) (Q : A -> S -> Prop) (s : S)
    : Prop :=
  match m s with
  | Ok (a, s') => Q a s'
  | Panic msg => F (FPanic msg)
  | Fault w => F (FFault w)
  | Diverge => F FDiverge
  end.
Definition never (f : failure) : Prop := False.
Abbreviation wp := (wpx never).

Section WpRules.
Context {S : Type} {F : failure -> Prop}.
Implicit Types s : S.

Lemma wp_ret {A} (a : A) (Q : A -> S -> Prop) s : Q a s -> wpx F (mret a) Q s.
Proof. done. Qed.

Lemma wp_bind {A B} (m : M S A) (f : A -> M S B) Q s :
  wpx F m (fun a s' => wpx F (f a) Q s') s -> wpx F (m ≫= f) Q s.
Proof.
  unfold wpx, mbind, M_bind. by destruct (m s) as [[a s']| | |].
Qed.

Lemma wp_mono {A} (m : M S A) (P Q : A -> S -> Prop) s :
  (forall a s', P a s' -> Q a s') -> wpx F m P s -> wpx F m Q s.
Proof. unfold wpx. destruct (m s) as [[a s']| | |]; eauto. Qed.

Lemma wp_total {A} (m : M S A) (Q : A -> S -> Prop) s : wp m Q s -> wpx F m Q s.
Proof. unfold wpx. by destruct (m s) as [[a s']| | |]. Qed.

Lemma wp_get (Q : S -> S -> Prop) s : Q s s -> wpx F get Q s.
Proof. done. Qed.

Lemma wp_gets {A} (f : S -> A) (Q : A -> S -> Prop) s :
  Q (f s) s -> wpx F (gets f) Q s.
Proof. done. Qed.

Lemma wp_modify (f : S -> S) (Q : unit -> S -> Prop) s :
  Q tt (f s) -> wpx F (modify f) Q s.
Proof. done. Qed.

Lemma wp_put s0 (Q : unit -> S -> Prop) s : Q tt s0 -> wpx F (put s0) Q s.
Proof. done. Qed.

Lemma wp_fault {A} w (Q : A -> S -> Prop) s : F (FFault w) -> wpx F (fault w) Q s.
Proof. done. Qed.

Lemma wp_panic {A} msg (Q : A -> S -> Prop) s :
  F (FPanic msg) -> wpx F (panic msg) Q s.
Proof. done. Qed.

Lemma wp_lift_opt {A} w (o : option A) (Q : A -> S -> Prop) s a :
  o = Some a -> Q a s -> wpx F (lift_opt w o) Q s.
Proof. by intros ->. Qed.

Lemma wp_when (b : bool) (m : M S unit) (Q : unit -> S -> Prop) s :
  (b = true -> wpx F m Q s) -> (b = false -> Q tt s) -> wpx F (when b m) Q s.
Proof. destruct b; simpl; [by auto|]. intros _ H. by apply H. Qed.

Lemma wp_ok {A} (m : M S A) Q s a s' : m s = Ok (a, s') -> Q a s' -> wpx F m Q s.
Proof. unfold wpx. by intros ->. Qed.

Lemma wp_for_each {I} (Inv : list I -> S -> Prop) (l : list I)
    (body : I -> M S unit) s :
  Inv l s ->
  (forall i l' s', Inv (i :: l') s' -> wpx F (body i) (fun _ s'' => Inv l' s'') s') ->
  wpx F (for_each l body) (fun _ s' => Inv [] s') s.
Proof.
  intros H Hb. revert s H. induction l as [|i l IH]; intros s H; [done|].
  simpl. apply wp_bind. eapply wp_mono; [|by apply Hb].
  intros [] s' H'. by apply IH.
Qed.
End WpRules.

Lemma wp_inv {S A} (m : M S A) Q s :
  wp m Q s -> exists a s', m s = Ok (a, s') /\ Q a s'.
Proof. unfold wpx, never. destruct (m s) as [[a s']| | |]; naive_solver. Qed.

(** [wbind] enters the first program of a sequence. *)
Ltac wbind := apply wp_bind.

(** ** Running a program

    Equations that push a concrete state through a program; [mrun] rewrites
    with them, and [mstep H] runs one call whose result [H] gives. *)

Section RunRules.
Context {S A B : Type}.
Implicit Types (f : A -> M S B) (s : S).

Lemma bind_ok (m : M S A) f s a s' : m s = Ok (a, s') -> (m ≫= f) s = f a s'.
Proof. unfold mbind, M_bind. by intros ->. Qed.
Lemma bind_panic_ok (m : M S A) f s msg : m s = Panic msg -> (m ≫= f) s = Panic msg.
Proof. unfold mbind, M_bind. by intros ->. Qed.
Lemma bind_fault_ok (m : M S A) f s w : m s = Fault w -> (m ≫= f) s = Fault w.
Proof. unfold mbind, M_bind. by intros ->. Qed.
Lemma bind_ret (a : A) f s : (mret a ≫= f) s = f a s.
Proof. done. Qed.
Lemma bind_get (f : S -> M S B) s : (get ≫= f) s = f s s.
Proof. done. Qed.
Lemma bind_gets (g : S -> A) f s : (gets g ≫= f) s = f (g s) s.
Proof. done. Qed.
Lemma bind_put s0 (f : unit -> M S B) s : (put s0 ≫= f) s = f tt s0.
Proof. done. Qed.
Lemma bind_modify (g : S -> S) (f : unit -> M S B) s : (modify g ≫= f) s = f tt (g s).
Proof. done. Qed.
Lemma bind_panic msg f s : (panic msg ≫= f) s = Panic msg.
Proof. done. Qed.
Lemma bind_bind {C} (m : M S C) (g : C -> M S A) f s :
  ((m ≫= g) ≫= f) s = (m ≫= (fun c => g c ≫= f)) s.
Proof. unfold mbind, M_bind. by destruct (m s) as [[c s']| | |]. Qed.
Lemma bind_run (m m' : M S A) f s : m s = m' s -> (m ≫= f) s = (m' ≫= f) s.
Proof. unfold mbind, M_bind. by intros ->. Qed.
Lemma bind_moves (m m' : M S A) f s s' : m s = m' s' -> (m ≫= f) s = (m' ≫= f) s'.
Proof. unfold mbind, M_bind. by intros ->. Qed.
Lemma bind_ext (m : M S A) f g s :
  (forall a s', f a s' = g a s') -> (m ≫= f) s = (m ≫= g) s.
Proof. intros H. unfold mbind, M_bind. by destruct (m s) as [[a s']| | |]. Qed.
Lemma bind_when_false (m : M S unit) (f : unit -> M S B) s :
  (when false m ≫= f) s = f tt s.
Proof. done. Qed.
Lemma bind_when_true (m : M S unit) (f : unit -> M S B) s :
  (when true m ≫= f) s = (m ≫= f) s.
Proof. done. Qed.
Lemma ret_run (a : A) s : (mret a : M S A) s = Ok (a, s).
Proof. done. Qed.
Lemma bind_lift_Some w (a : A) f s : (lift_opt w (Some a) ≫= f) s = f a s.
Proof. done. Qed.
Lemma lift_opt_Some w (a : A) s : (lift_opt w (Some a) : M S A) s = Ok (a, s).
Proof. done. Qed.
End RunRules.

(** A loop that skips the items of [l1], for which [body] finds nothing. *)
Lemma find_each_skip {S I A} (P : list I -> S -> Prop) (body : I -> M S (option A)) l1 l2 s :
  P l1 s ->
  (forall i l s, P (i :: l) s -> exists s', body i s = Ok (None, s') /\ P l s') ->
  exists s', find_each (l1 ++ l2) body s = find_each l2 body s' /\ P [] s'.
Proof.
  revert s. induction l1 as [|i l1 IH]; intros s HP Hb; [by exists s|].
  destruct (Hb i l1 s HP) as (s1 & H1 & HP1). destruct (IH s1 HP1 Hb) as (s2 & H2 & HP2).
  exists s2. split; [|done]. cbn [app find_each]. by rewrite (bind_ok _ _ _ _ _ H1).
Qed.

Lemma find_each_here {S I A} (body : I -> M S (option A)) i l s a s' :
  body i s = Ok (Some a, s') -> find_each (i :: l) body s = Ok (Some a, s').
Proof. intros H. cbn [find_each]. by rewrite (bind_ok _ _ _ _ _ H). Qed.

Lemma Ok_inj {A S : Type} (a a' : A) (s s' : S) :
  Ok (a, s) = Ok (a', s') -> a = a' /\ s = s'.
Proof. by intros [= -> ->]. Qed.

Create HintDb mrun.
#[export] Hint Rewrite @bind_ret @bind_get @bind_gets @bind_put @bind_modify
  @bind_panic @bind_bind @bind_when_false @bind_when_true @ret_run : mrun.

Ltac mrun := repeat first
  [ progress autorewrite with mrun
  | progress cbn [andb orb negb]
  | progress cbv beta iota
  | match goal with
    | |- context [(lift_opt ?w (Some ?a) ≫= ?f) ?s] =>
        rewrite (bind_ok (lift_opt w (Some a)) f s a s eq_refl)
    end ].
Ltac mstep H := first
  [ rewrite (bind_ok _ _ _ _ _ H) | erewrite bind_ok by (eapply H; eauto) ]; mrun.

(** ** Lists *)

(** An array read and written at an [int] index; out of bounds is [None]. *)
Definition zlookup {A} (l : list A) (k : Z) : option A :=
  if k <? 0 then None else l !! Z.to_nat k.

Definition zinsert {A} (k : Z) (v : A) (l : list A) : option (list A) :=
  match zlookup l k with
  | Some _ => Some (<[Z.to_nat k := v]> l)
  | None => None
  end.

Lemma zlookup_nat {A} (l : list A) (k : nat) : zlookup l (Z.of_nat k) = l !! k.
Proof. unfold zlookup. destruct (Z.ltb_spec (Z.of_nat k) 0); [lia|]. by rewrite Nat2Z.id. Qed.

Lemma zinsert_nat {A} (l : list A) (k : nat) v :
  (k < length l)%nat -> zinsert (Z.of_nat k) v l = Some (<[k := v]> l).
Proof.
  intros Hk. unfold zinsert. rewrite zlookup_nat, Nat2Z.id.
  by destruct (lookup_lt_is_Some_2 _ _ Hk) as [x ->].
Qed.

Lemma zinsert_out {A} (l : list A) k v : zlookup l k = None -> zinsert k v l = None.
Proof. unfold zinsert. by intros ->. Qed.

Create HintDb xv6.
#[export] Hint Resolve wp_ret wp_get wp_gets wp_modify : xv6.
