(* ===== verification/Quiet.v ===== *)
(** * Programs that leave a part of their state alone *)

From S2P Require Import Prelude.

(** What a call leaves alone: [quiet view m] says that [m] does not change [view]. *)
Definition any (f : failure) : Prop := True.
Definition quiet {S V A} (view : S -> V) (m : M S A) : Prop :=
  forall s, wpx any m (fun _ s' => view s' = view s) s.

Create HintDb quiet discriminated.

Section Quiet.
Context {S V : Type} (view : S -> V).

Lemma quiet_ret {A} (a : A) : quiet view (mret a).
Proof. done. Qed.
Lemma quiet_get : quiet view get.
Proof. done. Qed.
Lemma quiet_gets {A} (f : S -> A) : quiet view (gets f).
Proof. done. Qed.
Lemma quiet_panic {A} msg : quiet view (panic msg : M S A).
Proof. done. Qed.
Lemma quiet_fault {A} msg : quiet view (fault msg : M S A).
Proof. done. Qed.
Lemma quiet_diverge {A} : quiet view (diverge : M S A).
Proof. done. Qed.
Lemma quiet_lift {A} w (o : option A) : quiet view (lift_opt w o).
Proof. by destruct o. Qed.
Lemma quiet_modify (f : S -> S) : (forall s, view (f s) = view s) -> quiet view (modify f).
Proof. intros Hf s. apply Hf. Qed.

Lemma quiet_bind {A B} (m : M S A) (f : A -> M S B) :
  quiet view m -> (forall a, quiet view (f a)) -> quiet view (m ≫= f).
Proof.
  intros Hm Hf s. wbind. eapply wp_mono; [|apply Hm]. intros a s1 H1. cbn beta in *.
  eapply wp_mono; [|apply Hf]. cbn. congruence.
Qed.

Lemma quiet_get_bind {B} (f : S -> M S B) :
  (forall s, wpx any (f s) (fun _ s' => view s' = view s) s) -> quiet view (get ≫= f).
Proof. intros Hf s. apply Hf. Qed.

Lemma quiet_when b (m : M S unit) : quiet view m -> quiet view (when b m).
Proof. by destruct b. Qed.

Lemma quiet_find_each {I A} (l : list I) (body : I -> M S (option A)) :
  (forall i, quiet view (body i)) -> quiet view (find_each l body).
Proof.
  intros Hb. induction l as [|i l IH]; [apply quiet_ret|]. cbn [find_each].
  apply quiet_bind; [apply Hb|]. intros [a|]; [apply quiet_ret|apply IH].
Qed.
End Quiet.

#[export] Hint Resolve quiet_ret quiet_get quiet_gets quiet_panic quiet_fault quiet_diverge quiet_lift
  quiet_bind quiet_when quiet_find_each : quiet.

(** What a state change has to show; a development redefines it for its own views. *)
Ltac quiet_modify_tac := fail.

Ltac quiet_tac :=
  intros; repeat first
    [ progress intros
    | solve [auto with quiet nocore]
    | apply quiet_modify; intros; (reflexivity || quiet_modify_tac)
    | apply quiet_bind
    | match goal with
      | |- quiet _ (if ?b then _ else _) => destruct b
      | |- quiet _ (match ?o with _ => _ end) => destruct o
      | |- quiet _ (when _ _) => apply quiet_when
      | |- quiet _ (find_each _ _) => apply quiet_find_each
      end ].

(** A program that returns from a state has left the view alone. *)
Lemma quiet_view {S V A} (view : S -> V) (m : M S A) s a s' : quiet view m -> m s = Ok (a, s') -> view s' = view s.
Proof. intros Hm R. specialize (Hm s). unfold wpx in Hm. by rewrite R in Hm. Qed.
