(* ===== verification/Bytes.v ===== *)
(** * Integers and structures in memory

    The kernel reads and writes the [int]s and [short]s of a structure through a
    pointer into a buffer of bytes; the machine is little endian. *)

From S2P Require Import Prelude.

Fixpoint le_bytes (w : nat) (v : Z) : list Z :=
  match w with O => [] | S w' => v mod 256 :: le_bytes w' (v / 256) end.

Fixpoint le_val (l : list Z) : Z :=
  match l with [] => 0 | b :: l' => b + 256 * le_val l' end.

(** The unsigned integer of [w] bytes at the offset [off]. *)
Definition get_le (w off : nat) (d : list Z) : option Z :=
  if (off + w <=? length d)%nat then Some (le_val (take w (drop off d))) else None.

Definition put_le (w off : nat) (v : Z) (d : list Z) : option (list Z) :=
  if (off + w <=? length d)%nat
  then Some (take off d ++ le_bytes w v ++ drop (off + w) d) else None.

(** The [int] number [k] of an array of them. *)
Definition get_int (k : nat) (d : list Z) : option Z := i32 <$> get_le 4 (4 * k) d.
Definition get_uint (k : nat) (d : list Z) : option Z := get_le 4 (4 * k) d.
Definition put_int (k : nat) (v : Z) (d : list Z) : option (list Z) := put_le 4 (4 * k) v d.

Lemma length_le_bytes w v : length (le_bytes w v) = w.
Proof. revert v. induction w as [|w IH]; intros v; [done|]. cbn. by rewrite IH. Qed.

Lemma le_val_bytes w v : le_val (le_bytes w v) = v mod 256 ^ Z.of_nat w.
Proof.
  revert v. induction w as [|w IH]; intros v; [by rewrite Z.mod_1_r|].
  cbn [le_bytes le_val]. rewrite IH.
  rewrite Nat2Z.inj_succ, Z.pow_succ_r by lia.
  rewrite Z.rem_mul_r by lia. lia.
Qed.

Lemma put_le_length w off v d d' : put_le w off v d = Some d' -> length d' = length d.
Proof.
  unfold put_le. destruct (Nat.leb_spec (off + w) (length d)) as [Hle|]; [|done].
  intros H. apply (inj Some) in H as <-.
  rewrite !length_app, length_take, length_drop, length_le_bytes. lia.
Qed.

Lemma put_le_some w off v d :
  (off + w <= length d)%nat -> is_Some (put_le w off v d).
Proof. intros H. unfold put_le. rewrite (proj2 (Nat.leb_le _ _) H). by eexists. Qed.

Lemma put_le_app w off v d :
  (off + w <= length d)%nat ->
  put_le w off v d = Some (take off d ++ le_bytes w v ++ drop (off + w) d).
Proof. intros H. unfold put_le. by rewrite (proj2 (Nat.leb_le _ _) H). Qed.

Lemma get_put_eq w off v d d' :
  put_le w off v d = Some d' -> get_le w off d' = Some (v mod 256 ^ Z.of_nat w).
Proof.
  intros H. pose proof (put_le_length _ _ _ _ _ H) as Hl. revert H.
  unfold put_le, get_le. destruct (Nat.leb_spec (off + w) (length d)) as [Hle|]; [|done].
  intros H. apply (inj Some) in H. rewrite Hl, (proj2 (Nat.leb_le _ _) Hle).
  subst d'. f_equal. rewrite drop_app_length' by (rewrite length_take; lia).
  rewrite take_app_length' by (by rewrite length_le_bytes). apply le_val_bytes.
Qed.

Lemma get_put_ne w off v d d' w' off' :
  put_le w off v d = Some d' -> (off' + w' <= off \/ off + w <= off')%nat ->
  get_le w' off' d' = get_le w' off' d.
Proof.
  intros H Hd. pose proof (put_le_length _ _ _ _ _ H) as Hl. revert H.
  unfold put_le, get_le. destruct (Nat.leb_spec (off + w) (length d)) as [Hle|]; [|done].
  intros H. apply (inj Some) in H. rewrite Hl.
  destruct (Nat.leb_spec (off' + w') (length d)) as [Hle'|]; [|done].
  do 2 f_equal. subst d'. destruct Hd as [Hd|Hd].
  - rewrite drop_app_le by (rewrite length_take; lia).
    rewrite take_app_le by (rewrite length_drop, length_take; lia).
    by rewrite skipn_firstn_comm, take_take, Nat.min_l by lia.
  - rewrite drop_app_ge by (rewrite length_take; lia).
    rewrite drop_app_ge by (rewrite length_le_bytes, length_take; lia).
    rewrite drop_drop. f_equal. f_equal. rewrite length_le_bytes, length_take. lia.
Qed.

Lemma put_int_length k v d d' : put_int k v d = Some d' -> length d' = length d.
Proof. apply put_le_length. Qed.

Lemma get_put_int_eq k v d d' :
  put_int k v d = Some d' -> is_i32 v -> get_int k d' = Some v.
Proof.
  unfold put_int, get_int. intros H Hv. rewrite (get_put_eq _ _ _ _ _ H). cbn. f_equal.
  unfold is_i32 in Hv. unfold i32. change (256 ^ _) with (2 ^ 32).
  rewrite Z.add_mod_idemp_l by lia. rewrite Z.mod_small; lia.
Qed.

Lemma get_put_int_ne k v d d' k' :
  put_int k v d = Some d' -> k <> k' -> get_int k' d' = get_int k' d.
Proof. unfold put_int, get_int. intros H Hk. by rewrite (get_put_ne _ _ _ _ _ _ _ H) by lia. Qed.
