(* ===== verification/CString.v ===== *)
(** * Memory and string routines of the xv6 kernel

    [lab-2/string.c] over a byte-addressed memory: an address is an index into
    a list of bytes, and an access outside it is a [Fault].  The string loops
    recurse on the count [n], the loops that C bounds by nothing but a NUL
    byte on fuel. *)

From S2P Require Import Prelude.

Definition load (a : nat) : M (list Z) Z :=
  m ← get; lift_opt "load" (m !! a).

Definition store (a : nat) (v : Z) : M (list Z) unit :=
  m ← get;
  if (a <? length m)%nat then put (<[a := w8 v]> m) else fault "store".

(** [rep stosb] and [rep stosl] of [x86.h]; a word is stored little-endian. *)
Fixpoint stosb (a : nat) (c : Z) (n : nat) : M (list Z) unit :=
  match n with
  | O => mret tt
  | S n' => store a c ;; stosb (a + 1) c n'
  end.

Fixpoint stosl (a : nat) (w : Z) (n : nat) : M (list Z) unit :=
  match n with
  | O => mret tt
  | S n' =>
      store a w ;; store (a + 1) (Z.shiftr w 8) ;;
      store (a + 2) (Z.shiftr w 16) ;; store (a + 3) (Z.shiftr w 24) ;;
      stosl (a + 4) w n'
  end.

Definition memset (dst : nat) (c : Z) (n : nat) : M (list Z) unit :=
  if ((dst mod 4 =? 0) && (n mod 4 =? 0))%nat%bool then
    let c := Z.land c 0xFF in
    stosl dst (w32 (Z.lor (Z.lor (Z.lor (Z.shiftl c 24) (Z.shiftl c 16))
                             (Z.shiftl c 8)) c)) (n / 4)
  else stosb dst c n.

Fixpoint memcmp (s1 s2 : nat) (n : nat) : M (list Z) Z :=
  match n with
  | O => mret 0
  | S n' =>
      c1 ← load s1; c2 ← load s2;
      if c1 =? c2 then memcmp (s1 + 1) (s2 + 1) n' else mret (c1 - c2)
  end.

Fixpoint copy_forward (d s : nat) (n : nat) : M (list Z) unit :=
  match n with
  | O => mret tt
  | S n' => c ← load s; store d c ;; copy_forward (d + 1) (s + 1) n'
  end.

(** [d] and [s] point one past the bytes still to copy. *)
Fixpoint copy_backward (d s : nat) (n : nat) : M (list Z) unit :=
  match n with
  | O => mret tt
  | S n' => c ← load (s - 1); store (d - 1) c ;; copy_backward (d - 1) (s - 1) n'
  end.

Definition memmove (dst src : nat) (n : nat) : M (list Z) unit :=
  if ((src <? dst) && (dst <? src + n))%nat%bool
  then copy_backward (dst + n) (src + n) n
  else copy_forward dst src n.

Definition memcpy (dst src : nat) (n : nat) : M (list Z) unit :=
  memmove dst src n.

Fixpoint strncmp (p q : nat) (n : nat) : M (list Z) Z :=
  match n with
  | O => mret 0
  | S n' =>
      a ← load p; b ← load q;
      if ((negb (a =? 0)) && (a =? b))%bool then strncmp (p + 1) (q + 1) n'
      else mret (a - b)
  end.

(** The first loop of [strncpy]: what is left of [n], and [s]. *)
Fixpoint strncpy_copy (s t : nat) (n : nat) : M (list Z) (nat * nat) :=
  match n with
  | O => mret (O, s)
  | S n' =>
      c ← load t; store s c ;;
      if c =? 0 then mret (n', s + 1)%nat else strncpy_copy (s + 1) (t + 1) n'
  end.

Definition strncpy (s t : nat) (n : Z) : M (list Z) unit :=
  '(rest, s') ← strncpy_copy s t (Z.to_nat n);
  stosb s' 0 rest.

(** The loop of [safestrcpy] that stops before the last byte. *)
Fixpoint safestrcpy_copy (s t : nat) (n : nat) : M (list Z) nat :=
  match n with
  | O => mret s
  | S n' =>
      c ← load t; store s c ;;
      if c =? 0 then mret (s + 1)%nat else safestrcpy_copy (s + 1) (t + 1) n'
  end.

Definition safestrcpy (s t : nat) (n : Z) : M (list Z) unit :=
  if n <=? 0 then mret tt
  else
    s' ← safestrcpy_copy s t (Z.to_nat (n - 1));
    store s' 0.

Fixpoint strlen (fuel : nat) (s : nat) : M (list Z) Z :=
  match fuel with
  | O => diverge
  | S fuel' =>
      c ← load s;
      if c =? 0 then mret 0 else n ← strlen fuel' (s + 1); mret (n + 1)
  end.

(** [safestrcpy] between two separate arrays, the form its callers use. *)
Definition safestrcpy_arr (dst src : list Z) (n : Z) : res (list Z) :=
  '(_, m) ← safestrcpy 0 (length dst) n (dst ++ src);
  mret (take (length dst) m).

(** ** What the routines compute *)

Definition bytes (m : list Z) : Prop := Forall (fun b => 0 <= b < 256) m.

(** [m] with the bytes from [a] on replaced by [l]. *)
Definition splice (a : nat) (l m : list Z) : list Z :=
  take a m ++ l ++ drop (a + length l) m.

Lemma splice_length a l m : (a + length l <= length m)%nat -> length (splice a l m) = length m.
Proof.
  intros. unfold splice. rewrite !length_app, length_take, length_drop. lia.
Qed.

Lemma splice_nil a m : splice a [] m = m.
Proof. unfold splice. simpl. rewrite Nat.add_0_r. apply take_drop. Qed.

Lemma splice_lookup_out a l m i :
  (a + length l <= length m)%nat -> (i < a \/ a + length l <= i)%nat ->
  splice a l m !! i = m !! i.
Proof.
  intros Hl Hi. unfold splice. destruct (decide (i < a)%nat).
  - rewrite lookup_app_l by (rewrite length_take; lia). by rewrite lookup_take_lt.
  - rewrite lookup_app_r by (rewrite length_take; lia). rewrite length_take.
    rewrite lookup_app_r by lia. rewrite lookup_drop. f_equal. lia.
Qed.

Lemma splice_lookup_in a l m i :
  (a + length l <= length m)%nat -> (i < length l)%nat ->
  splice a l m !! (a + i)%nat = l !! i.
Proof.
  intros Hl Hi. unfold splice.
  rewrite lookup_app_r by (rewrite length_take; lia). rewrite length_take.
  rewrite lookup_app_l by lia. f_equal. lia.
Qed.

Lemma splice_one a v m : (a < length m)%nat -> splice a [v] m = <[a := v]> m.
Proof.
  intros Ha. unfold splice. simpl. rewrite insert_take_drop by done.
  by rewrite Nat.add_1_r.
Qed.

Lemma splice_app a l1 l2 m :
  (a + length l1 + length l2 <= length m)%nat ->
  splice (a + length l1) l2 (splice a l1 m) = splice a (l1 ++ l2) m.
Proof.
  intros Hl. apply list_eq. intros i.
  destruct (decide (i < a)%nat); [|destruct (decide (i < a + length l1)%nat);
    [|destruct (decide (i < a + length l1 + length l2)%nat)]].
  - by rewrite !splice_lookup_out by (rewrite ?splice_length, ?length_app; lia).
  - rewrite splice_lookup_out by (rewrite ?splice_length; lia).
    replace i with (a + (i - a))%nat by lia.
    rewrite !splice_lookup_in by (rewrite ?length_app; lia).
    by rewrite lookup_app_l by lia.
  - replace i with (a + length l1 + (i - a - length l1))%nat by lia.
    rewrite splice_lookup_in by (rewrite ?splice_length; lia).
    replace (a + length l1 + (i - a - length l1))%nat with (a + (i - a))%nat by lia.
    rewrite splice_lookup_in by (rewrite length_app; lia).
    by rewrite lookup_app_r by lia.
  - by rewrite !splice_lookup_out by (rewrite ?splice_length, ?length_app; lia).
Qed.

Lemma wp_load a m (Q : Z -> list Z -> Prop) v : m !! a = Some v -> Q v m -> wp (load a) Q m.
Proof. intros H HQ. unfold wpx, load, mbind, M_bind, get, lift_opt. by rewrite H. Qed.

Lemma wp_store a v m (Q : unit -> list Z -> Prop) :
  (a < length m)%nat -> Q tt (splice a [w8 v] m) -> wp (store a v) Q m.
Proof.
  intros H HQ. unfold wpx, store, mbind, M_bind, get.
  rewrite (proj2 (Nat.ltb_lt _ _)) by done. unfold put. by rewrite <- splice_one.
Qed.

Lemma stosb_spec a c n m :
  (a + n <= length m)%nat ->
  wp (stosb a c n) (fun _ m' => m' = splice a (replicate n (w8 c)) m) m.
Proof.
  revert a m. induction n as [|n IH]; intros a m Hn; simpl.
  { apply wp_ret. by rewrite splice_nil. }
  apply wp_bind, wp_store; [lia|].
  eapply wp_mono; [|apply IH; rewrite splice_length; simpl; lia].
  intros _ m' ->. rewrite <- (splice_app a [w8 c] (replicate n (w8 c))); [done|].
  rewrite length_replicate. simpl. lia.
Qed.

Lemma splice_app_r a l1 l2 m :
  (a + length l1 + length l2 <= length m)%nat ->
  splice a l1 (splice (a + length l1) l2 m) = splice a (l1 ++ l2) m.
Proof.
  intros Hl. rewrite <- splice_app by done. apply list_eq. intros i.
  destruct (decide (a <= i < a + length l1)%nat).
  - replace i with (a + (i - a))%nat by lia.
    rewrite splice_lookup_in by (rewrite ?splice_length; lia).
    rewrite splice_lookup_out by (rewrite ?splice_length; lia).
    by rewrite splice_lookup_in by lia.
  - rewrite splice_lookup_out by (rewrite ?splice_length; lia).
    destruct (decide (a + length l1 <= i < a + length l1 + length l2)%nat).
    + replace i with (a + length l1 + (i - a - length l1))%nat by lia.
      by rewrite !splice_lookup_in by (rewrite ?splice_length; lia).
    + by rewrite !splice_lookup_out by (rewrite ?splice_length; lia).
Qed.

(** The [n] bytes of [m] from [a] on. *)
Definition slice (a n : nat) (m : list Z) : list Z := take n (drop a m).

Lemma slice_length a n m : (a + n <= length m)%nat -> length (slice a n m) = n.
Proof. intros. unfold slice. rewrite length_take, length_drop. lia. Qed.

Lemma slice_lookup a n m i : (i < n)%nat -> slice a n m !! i = m !! (a + i)%nat.
Proof. intros. unfold slice. by rewrite lookup_take_lt, lookup_drop by done. Qed.

Lemma slice_cons a n m c : m !! a = Some c -> slice a (S n) m = c :: slice (a + 1) n m.
Proof.
  intros H. unfold slice. rewrite (drop_S _ _ _ H). simpl. by rewrite Nat.add_1_r.
Qed.

Lemma slice_snoc a n m c :
  m !! (a + n)%nat = Some c -> slice a (S n) m = slice a n m ++ [c].
Proof. intros H. unfold slice. apply take_S_r. by rewrite lookup_drop. Qed.

Lemma slice_splice_out s n a l m :
  (a + length l <= length m)%nat -> (s + n <= a \/ a + length l <= s)%nat ->
  slice s n (splice a l m) = slice s n m.
Proof.
  intros Hl Hs. apply list_eq. intros i.
  destruct (decide (i < n)%nat).
  - rewrite !slice_lookup by done. apply splice_lookup_out; [done|lia].
  - rewrite !lookup_ge_None_2; [done|..]; unfold slice; rewrite length_take; lia.
Qed.

Lemma bytes_lookup m i c : bytes m -> m !! i = Some c -> w8 c = c.
Proof.
  intros Hb Hi. apply (Forall_lookup_1 _ _ _ _ Hb) in Hi. by apply Z.mod_small.
Qed.

Lemma w8_bounds x : 0 <= w8 x < 256.
Proof. apply Z.mod_pos_bound. lia. Qed.

Lemma bytes_splice a l m : bytes l -> bytes m -> bytes (splice a l m).
Proof. intros. unfold splice. apply Forall_app_2, Forall_app_2; auto using Forall_take, Forall_drop. Qed.

Lemma bytes_slice a n m : bytes m -> bytes (slice a n m).
Proof. intros. by apply Forall_take, Forall_drop. Qed.

Lemma copy_forward_spec d s n m :
  bytes m -> (s + n <= length m)%nat -> (d + n <= length m)%nat ->
  (d <= s \/ s + n <= d)%nat ->
  wp (copy_forward d s n) (fun _ m' => m' = splice d (slice s n m) m) m.
Proof.
  revert d s m. induction n as [|n IH]; intros d s m Hb Hs Hd Ho; simpl.
  { apply wp_ret. by rewrite splice_nil. }
  destruct (lookup_lt_is_Some_2 m s) as [c Hc]; [lia|].
  apply wp_bind, (wp_load _ _ _ c Hc), wp_bind, wp_store; [lia|].
  rewrite (bytes_lookup _ _ _ Hb Hc).
  assert (Hbc : bytes [c]).
  { constructor; [|done]. rewrite <- (bytes_lookup _ _ _ Hb Hc). apply w8_bounds. }
  eapply wp_mono; [|apply IH].
  - intros _ m' ->. rewrite slice_splice_out by (simpl; lia).
    rewrite (slice_cons _ _ _ _ Hc).
    apply (splice_app d [c]). rewrite slice_length; simpl; lia.
  - by apply bytes_splice.
  - rewrite splice_length; simpl; lia.
  - rewrite splice_length; simpl; lia.
  - lia.
Qed.

Lemma copy_backward_spec d s n m :
  bytes m -> (s < d)%nat -> (d + n <= length m)%nat ->
  wp (copy_backward (d + n) (s + n) n) (fun _ m' => m' = splice d (slice s n m) m) m.
Proof.
  revert m. induction n as [|n IH]; intros m Hb Hs Hd; cbn [copy_backward].
  { apply wp_ret. by rewrite splice_nil. }
  replace (s + S n - 1)%nat with (s + n)%nat by lia.
  replace (d + S n - 1)%nat with (d + n)%nat by lia.
  destruct (lookup_lt_is_Some_2 m (s + n)) as [c Hc]; [lia|].
  apply wp_bind, (wp_load _ _ _ c Hc), wp_bind, wp_store; [lia|].
  rewrite (bytes_lookup _ _ _ Hb Hc).
  assert (Hbc : bytes [c]).
  { constructor; [|done]. rewrite <- (bytes_lookup _ _ _ Hb Hc). apply w8_bounds. }
  eapply wp_mono; [|apply IH].
  - intros _ m' ->. rewrite slice_splice_out by (simpl; lia).
    rewrite (slice_snoc _ _ _ _ Hc). rewrite <- splice_app_r; rewrite slice_length;
      simpl; first [done | lia].
  - by apply bytes_splice.
  - done.
  - rewrite splice_length; simpl; lia.
Qed.

(** [memmove] copies as if through a temporary buffer: whether the two areas
    overlap and in which direction, the [n] bytes at [dst] become the [n] bytes
    [src] held before the call, no other byte changes, and it always returns. *)
Theorem memmove_spec (dst src n : nat) (m : list Z) :
  bytes m -> (src + n <= length m)%nat -> (dst + n <= length m)%nat ->
  memmove dst src n m = Ok (tt, splice dst (slice src n m) m).
Proof.
  intros Hb Hs Hd.
  assert (wp (memmove dst src n) (fun _ m' => m' = splice dst (slice src n m) m) m) as H.
  { unfold memmove.
    destruct (Nat.ltb_spec src dst), (Nat.ltb_spec dst (src + n)); simpl;
      [by apply copy_backward_spec|apply copy_forward_spec; lia || done..]. }
  by apply wp_inv in H as ([] & m' & -> & ->).
Qed.

(** ** Strings *)

(** The characters of the C string at the head of [l]. *)
Fixpoint cstr (l : list Z) : list Z :=
  match l with
  | [] => []
  | c :: l' => if c =? 0 then [] else c :: cstr l'
  end.

Lemma cstr_up_to_zero a b : Forall (fun c => c <> 0) a -> cstr (a ++ 0 :: b) = a.
Proof.
  induction a as [|c a IH]; intros Ha; [done|]. apply Forall_cons in Ha as [Hc Ha]. cbn.
  by rewrite (proj2 (Z.eqb_neq _ _) Hc), IH.
Qed.

Lemma strlen_spec fuel s m str :
  slice s (S (length str)) m = str ++ [0] -> (s + length str < length m)%nat ->
  Forall (fun c => c <> 0) str -> (length str < fuel)%nat ->
  strlen fuel s m = Ok (Z.of_nat (length str), m).
Proof.
  revert s fuel. induction str as [|c str IH]; intros s fuel Hs Hl Hn Hf;
    (destruct fuel as [|fuel]; [simpl in Hf; lia|]); cbn [length app] in *.
  - destruct (lookup_lt_is_Some_2 m s) as [c Hc]; [lia|].
    rewrite (slice_cons _ _ _ _ Hc) in Hs. injection Hs as ->.
    cbn [strlen]. unfold load, mbind, M_bind, get, lift_opt. rewrite Hc. done.
  - destruct (lookup_lt_is_Some_2 m s) as [c' Hc]; [lia|].
    rewrite (slice_cons _ _ _ _ Hc) in Hs. injection Hs as -> Hs.
    apply Forall_cons in Hn as [H0 Hn].
    cbn [strlen]. unfold load, mbind, M_bind, get, lift_opt. rewrite Hc.
    cbn [mret M_ret]. rewrite (proj2 (Z.eqb_neq c 0)) by done.
    rewrite (IH (s + 1)%nat fuel) by (auto; lia). by rewrite Nat2Z.inj_succ.
Qed.

(** ** Filling *)

Definition fill_word (c : Z) : Z :=
  w32 (Z.lor (Z.lor (Z.lor (Z.shiftl c 24) (Z.shiftl c 16)) (Z.shiftl c 8)) c).

Definition word_bytes (w : Z) : list Z :=
  [w8 w; w8 (Z.shiftr w 8); w8 (Z.shiftr w 16); w8 (Z.shiftr w 24)].

Lemma fill_word_bytes c : 0 <= c < 256 -> word_bytes (fill_word c) = replicate 4 c.
Proof.
  intros Hc.
  assert (forallb (fun c => bool_decide (word_bytes (fill_word (Z.of_nat c)) =
            replicate 4 (Z.of_nat c))) (seq 0 256) = true) as H by (vm_compute; done).
  rewrite forallb_forall in H. specialize (H (Z.to_nat c)).
  rewrite Z2Nat.id in H by lia. eapply bool_decide_eq_true_1, H.
  apply in_seq. lia.
Qed.

Lemma stosl_spec a w n m :
  (a + 4 * n <= length m)%nat ->
  wp (stosl a w n) (fun _ m' => m' = splice a (concat (replicate n (word_bytes w))) m) m.
Proof.
  revert a m. induction n as [|n IH]; intros a m Hn; cbn [stosl].
  { apply wp_ret. simpl. by rewrite splice_nil. }
  do 4 (apply wp_bind, wp_store; [rewrite ?splice_length; simpl; rewrite ?splice_length; simpl;
    rewrite ?splice_length; simpl; lia|]).
  rewrite (splice_app a [w8 w] [_]) by (simpl; lia).
  rewrite (splice_app a [w8 w; w8 (Z.shiftr w 8)] [_]) by (simpl; lia).
  rewrite (splice_app a [w8 w; w8 (Z.shiftr w 8); w8 (Z.shiftr w 16)] [_]) by (simpl; lia).
  change (_ ++ [w8 (Z.shiftr w 24)]) with (word_bytes w).
  assert (length (concat (replicate n (word_bytes w))) = (4 * n)%nat) as HL.
  { clear. induction n; simpl; [done|]. rewrite IHn. lia. }
  eapply wp_mono; [|apply IH; rewrite splice_length; simpl; lia].
  intros [] m' ->. apply (splice_app a (word_bytes w)). rewrite HL. simpl. lia.
Qed.

(** [memset] sets exactly the [n] bytes at [dst] to the low byte of [c], on the
    word-wise path taken for an aligned area as on the byte-wise one. *)
Theorem memset_spec (dst : nat) (c : Z) (n : nat) (m : list Z) :
  (dst + n <= length m)%nat ->
  memset dst c n m = Ok (tt, splice dst (replicate n (w8 c)) m).
Proof.
  intros Hn.
  assert (wp (memset dst c n) (fun _ m' => m' = splice dst (replicate n (w8 c)) m) m) as H.
  2:{ by apply wp_inv in H as ([] & m' & -> & ->). }
  unfold memset. destruct (Nat.eqb_spec (dst mod 4) 0); cbn [andb]; [|by apply stosb_spec].
  destruct (Nat.eqb_spec (n mod 4) 0) as [Hm|]; cbn [andb]; [|by apply stosb_spec].
  pose proof (Nat.div_mod_eq n 4) as Hd.
  eapply wp_mono; [|apply stosl_spec; lia].
  intros [] m' ->. f_equal. change 255 with (Z.ones 8). rewrite Z.land_ones by lia.
  change (c mod 2 ^ 8) with (w8 c). fold (fill_word (w8 c)).
  rewrite fill_word_bytes by apply w8_bounds.
  replace n with (n / 4 * 4)%nat at 2 by lia.
  generalize (n / 4)%nat as k. clear. intros k.
  induction k as [|k IH]; [done|].
  change (S k * 4)%nat with (4 + k * 4)%nat. by rewrite replicate_add, <- IH.
Qed.

(** ** Bounded copies *)

(** The bytes [strncpy] leaves at its destination: the string, padded with NUL
    bytes to [n]. *)
Definition strncpy_bytes (l : list Z) (n : nat) : list Z :=
  take n (cstr (take n l) ++ replicate n 0).

Lemma cstr_app l : (length (cstr l) <= length l)%nat.
Proof. induction l as [|c l IH]; simpl; [done|]. destruct (c =? 0); simpl; lia. Qed.

(** [safestrcpy] always leaves a NUL-terminated string of fewer than [n]
    characters: at most the first [n - 1] characters of the source. *)
Lemma safestrcpy_copy_spec s t n m :
  bytes m -> (s + n < length m)%nat -> (t + n <= length m)%nat ->
  ((s + n < t)%nat \/ (t + n <= s)%nat) ->
  wp (safestrcpy_copy s t n) (fun s' m' =>
      let str := cstr (slice t n m) in
      exists tail, (length tail <= 1)%nat /\ Forall (eq 0) tail /\
      s' = (s + length str + length tail)%nat /\ (s' <= s + n)%nat /\
      m' = splice s (str ++ tail) m) m.
Proof.
  revert s t m. induction n as [|n IH]; intros s t m Hb Hs Ht Ho.
  { apply wp_ret. exists []. unfold slice. rewrite take_0.
    cbn [cstr app length]. rewrite splice_nil.
    split_and!; [lia|done|lia|lia|done]. }
  cbn [safestrcpy_copy].
  destruct (lookup_lt_is_Some_2 m t) as [c Hc]; [lia|].
  apply wp_bind, (wp_load _ _ _ c Hc), wp_bind, wp_store; [lia|].
  rewrite (bytes_lookup _ _ _ Hb Hc), (slice_cons _ _ _ _ Hc). cbn [cstr].
  destruct (Z.eqb_spec c 0) as [->|Hne].
  - apply wp_ret. exists [0]. simpl.
    split_and!; [lia|by repeat constructor|lia|lia|done].
  - assert (Hbc : bytes [c]).
    { constructor; [|done]. rewrite <- (bytes_lookup _ _ _ Hb Hc). apply w8_bounds. }
    eapply wp_mono; [|apply IH].
    2: by apply bytes_splice.
    2-3: rewrite splice_length; simpl; lia.
    2: lia.
    cbn zeta. intros s' m' (tail & H1 & H2 & -> & H4 & ->).
    rewrite slice_splice_out in * by (simpl; lia).
    exists tail. pose proof (cstr_app (slice (t + 1) n m)) as Hl.
    rewrite slice_length in Hl by lia.
    split_and!; auto; simpl; try lia.
    apply (splice_app s [c]). rewrite length_app. simpl. lia.
Qed.

(** [safestrcpy] leaves a NUL-terminated string: with [n > 0] and separate
    areas, the destination begins with the first [n - 1] characters (or fewer,
    if the source ends earlier) followed by a NUL byte, and no byte outside the
    [n] bytes of the destination changes. *)
Theorem safestrcpy_spec (s t : nat) (n : Z) (m : list Z) :
  bytes m -> 0 < n -> (s + Z.to_nat n <= length m)%nat ->
  (t + Z.to_nat n <= length m)%nat ->
  ((s + Z.to_nat n <= t)%nat \/ (t + Z.to_nat n <= s)%nat) ->
  exists zeros, let str := cstr (slice t (Z.to_nat (n - 1)) m) in
    Forall (eq 0) zeros /\ (1 <= length zeros)%nat /\
    (length str + length zeros <= Z.to_nat n)%nat /\
    safestrcpy s t n m = Ok (tt, splice s (str ++ zeros) m).
Proof.
  intros Hb Hn Hs Ht Ho. unfold safestrcpy.
  destruct (Z.leb_spec n 0); [lia|].
  pose proof (safestrcpy_copy_spec s t (Z.to_nat (n - 1)) m Hb
    ltac:(lia) ltac:(lia) ltac:(lia)) as Hc.
  apply wp_inv in Hc as (s' & m' & Hrun & tail & H1 & H2 & -> & H4 & ->).
  set (str := cstr _) in *. exists (tail ++ [0]). cbn zeta.
  rewrite !length_app. cbn [length].
  split_and!; [by apply Forall_app_2; [|repeat constructor]|lia|lia|].
  unfold mbind, M_bind. rewrite Hrun. unfold store, get, mbind, M_bind.
  rewrite splice_length by (rewrite length_app; lia).
  rewrite (proj2 (Nat.ltb_lt _ _)) by lia. unfold put. change (w8 0) with 0.
  rewrite <- splice_one by (rewrite splice_length; rewrite ?length_app; lia).
  rewrite app_assoc.
  rewrite <- (splice_app s (str ++ tail) [0]) by (rewrite length_app; simpl; lia).
  rewrite length_app. by rewrite Nat.add_assoc.
Qed.

(** ** Instances *)

Lemma memmove_spec_witness :
  memmove 1 0 3 [1; 2; 3; 4; 5] = Ok (tt, splice 1 (slice 0 3 [1; 2; 3; 4; 5]) [1; 2; 3; 4; 5]).
Proof. apply (memmove_spec 1 0 3); [by repeat constructor|simpl; lia..]. Defined.

Lemma memset_spec_witness :
  memset 0 257 4 [1; 2; 3; 4; 5] = Ok (tt, splice 0 (replicate 4 (w8 257)) [1; 2; 3; 4; 5]).
Proof. apply (memset_spec 0 257 4). simpl. lia. Defined.

Lemma safestrcpy_spec_witness :
  let m := [9; 9; 9; 9; 97; 98; 99; 100; 0] in
  exists zeros, let str := cstr (slice 4 (Z.to_nat (4 - 1)) m) in
    Forall (eq 0) zeros /\ (1 <= length zeros)%nat /\
    (length str + length zeros <= Z.to_nat 4)%nat /\
    safestrcpy 0 4 4 m = Ok (tt, splice 0 (str ++ zeros) m).
Proof.
  cbv zeta. apply (safestrcpy_spec 0 4 4); [by repeat constructor|done|simpl; lia..].
Defined.
