(* ===== verification/Layout.v ===== *)
(** * The address space

    The constants and macros of [lab-2/memlayout.h] and [lab-2/mmu.h]: addresses, page
    directory and page table indices, entries and their flags. *)

From S2P Require Import Prelude.

Definition KERNBASE : Z := 0x80000000.
Definition EXTMEM : Z := 0x100000.
Definition PHYSTOP : Z := 0xE000000.
Definition DEVSPACE : Z := 0xFE000000.
Definition KERNLINK : Z := KERNBASE + EXTMEM.
Definition PGSIZE : Z := 4096.
Definition NPDENTRIES : Z := 1024.

Definition V2P (a : Z) : Z := w32 (a - KERNBASE).
Definition P2V (a : Z) : Z := w32 (a + KERNBASE).

Definition PDX (va : Z) : Z := Z.land (Z.shiftr va 22) 0x3FF.
Definition PTX (va : Z) : Z := Z.land (Z.shiftr va 12) 0x3FF.
Definition PGADDR (d t o : Z) : Z := w32 (Z.lor (Z.lor (Z.shiftl d 22) (Z.shiftl t 12)) o).
Definition PGROUNDUP (sz : Z) : Z := Z.land (w32 (sz + PGSIZE - 1)) (w32 (Z.lnot (PGSIZE - 1))).
Definition PGROUNDDOWN (a : Z) : Z := Z.land a (w32 (Z.lnot (PGSIZE - 1))).

Definition PTE_P : Z := 0x001.
Definition PTE_W : Z := 0x002.
Definition PTE_U : Z := 0x004.
Definition PTE_ADDR (pte : Z) : Z := Z.land pte (w32 (Z.lnot 0xFFF)).
Definition PTE_FLAGS (pte : Z) : Z := Z.land pte 0xFFF.

(** [lia] with the page size. *)
Ltac plia := unfold PGSIZE in *; lia.

(** ** The macros as arithmetic *)

Lemma land_page x : 0 <= x < 2 ^ 32 -> Z.land x (w32 (Z.lnot 0xFFF)) = PGSIZE * (x / PGSIZE).
Proof.
  intros Hx. unfold w32. rewrite <- Z.land_ones by lia.
  rewrite (Z.land_comm (Z.lnot _)), Z.land_assoc, (Z.land_ones x 32), (Z.mod_small x) by lia.
  rewrite <- Z.ldiff_land. change 0xFFF with (Z.ones 12). rewrite Z.ldiff_ones_r by lia.
  rewrite Z.shiftl_mul_pow2, Z.shiftr_div_pow2 by lia. apply Z.mul_comm.
Qed.

Lemma PGROUNDDOWN_div x : 0 <= x < 2 ^ 32 -> PGROUNDDOWN x = PGSIZE * (x / PGSIZE).
Proof. apply land_page. Qed.

Lemma PTE_ADDR_div x : 0 <= x < 2 ^ 32 -> PTE_ADDR x = PGSIZE * (x / PGSIZE).
Proof. apply land_page. Qed.

Lemma PGROUNDUP_div x :
  0 <= x -> x + PGSIZE - 1 < 2 ^ 32 -> PGROUNDUP x = PGSIZE * ((x + PGSIZE - 1) / PGSIZE).
Proof.
  intros Hx Hlt. unfold PGROUNDUP. rewrite w32_small by (unfold PGSIZE in *; lia).
  apply land_page. unfold PGSIZE in *. lia.
Qed.

(** Rounding up gives the least multiple of the page size that is not below. *)
Lemma PGROUNDUP_spec x :
  0 <= x -> x + PGSIZE - 1 < 2 ^ 32 ->
  PGROUNDUP x mod PGSIZE = 0 /\ x <= PGROUNDUP x < x + PGSIZE.
Proof.
  intros Hx Hlt. rewrite PGROUNDUP_div by done. unfold PGSIZE in *.
  rewrite Z.mul_comm, Z.mod_mul by lia.
  pose proof (Z.div_mod (x + 4096 - 1) 4096 ltac:(lia)).
  pose proof (Z.mod_pos_bound (x + 4096 - 1) 4096 ltac:(lia)). lia.
Qed.

Lemma PDX_div va : 0 <= va < 2 ^ 32 -> PDX va = va / 2 ^ 22.
Proof.
  intros H. unfold PDX. change 0x3FF with (Z.ones 10).
  rewrite Z.land_ones, Z.shiftr_div_pow2 by lia. apply Z.mod_small.
  split; [apply Z.div_pos; lia|]. apply Z.div_lt_upper_bound; lia.
Qed.

Lemma PTX_div va : 0 <= va < 2 ^ 32 -> PTX va = (va / 2 ^ 12) mod 2 ^ 10.
Proof.
  intros H. unfold PTX. change 0x3FF with (Z.ones 10).
  by rewrite Z.land_ones, Z.shiftr_div_pow2 by lia.
Qed.

Lemma page_multiple v : v mod PGSIZE = 0 -> exists b, v = 4096 * b.
Proof. intros H. exists (v / 4096). by apply Z.div_exact. Qed.

(** ** Entries *)

(** A page and flags below the page size. *)
Lemma lor_flags pa f : pa mod PGSIZE = 0 -> 0 <= f < PGSIZE -> Z.lor pa f = pa + f.
Proof.
  intros Hpa Hf. symmetry. apply Z.add_nocarry_lor.
  destruct (page_multiple pa Hpa) as [b ->]. unfold PGSIZE in Hf.
  replace (4096 * b) with (Z.shiftl b 12) by (rewrite Z.shiftl_mul_pow2; lia).
  rewrite <- (Z.mod_small f (2 ^ 12)), <- Z.land_ones by lia.
  apply Z.bits_inj_0. intros n. destruct (Z.ltb_spec n 0); [by rewrite Z.testbit_neg_r|].
  rewrite !Z.land_spec. destruct (Z.ltb_spec n 12).
  - by rewrite Z.shiftl_spec_low.
  - by rewrite Z.ones_spec_high, !andb_false_r by lia.
Qed.

Lemma lor_flags_bound x y : 0 <= x < PGSIZE -> 0 <= y < PGSIZE -> 0 <= Z.lor x y < PGSIZE.
Proof.
  intros Hx Hy. assert (0 <= Z.lor x y) by (apply Z.lor_nonneg; lia). split; [done|].
  change PGSIZE with (2 ^ 12) in *. destruct (Z.eq_dec (Z.lor x y) 0) as [->|Hne]; [done|].
  apply Z.log2_lt_pow2; [lia|]. rewrite Z.log2_lor by lia.
  destruct (Z.eq_dec x 0) as [->|Hx0], (Z.eq_dec y 0) as [->|Hy0]; try done.
  - apply Z.max_lub_lt; [done|]. apply Z.log2_lt_pow2; lia.
  - apply Z.max_lub_lt; [|done]. apply Z.log2_lt_pow2; lia.
  - apply Z.max_lub_lt; apply Z.log2_lt_pow2; lia.
Qed.

Section Entry.
Context (pa f : Z).
Hypothesis Hpa : pa mod PGSIZE = 0.
Hypothesis Hrange : 0 <= pa < 2 ^ 32.
Hypothesis Hf : 0 <= f < PGSIZE.

Lemma entry_range : 0 <= Z.lor pa f < 2 ^ 32.
Proof using All.
  rewrite lor_flags by done. destruct (page_multiple pa Hpa) as [b ->]. unfold PGSIZE in *. lia.
Qed.

Lemma entry_ADDR : PTE_ADDR (Z.lor pa f) = pa.
Proof using All.
  rewrite PTE_ADDR_div by apply entry_range. rewrite lor_flags by done.
  destruct (page_multiple pa Hpa) as [b ->]. unfold PGSIZE in *. Z.div_mod_to_equations. lia.
Qed.

Lemma entry_FLAGS : PTE_FLAGS (Z.lor pa f) = f.
Proof using All.
  unfold PTE_FLAGS. change 0xFFF with (Z.ones 12). rewrite Z.land_ones, lor_flags by done.
  destruct (page_multiple pa Hpa) as [b ->]. unfold PGSIZE in *. change (2 ^ 12) with 4096.
  Z.div_mod_to_equations. lia.
Qed.

(** A flag bit of an entry. *)
Lemma entry_bit k : 0 <= k < 12 -> Z.land (Z.lor pa f) (2 ^ k) = Z.land f (2 ^ k).
Proof using All.
  intros Hk. rewrite Z.land_lor_distr_l.
  assert (Z.land pa (2 ^ k) = 0) as ->; [|done].
  destruct (page_multiple pa Hpa) as [b ->].
  replace (4096 * b) with (Z.shiftl b 12) by (rewrite Z.shiftl_mul_pow2; lia).
  apply Z.bits_inj_0. intros n. destruct (Z.ltb_spec n 0); [by rewrite Z.testbit_neg_r|].
  rewrite Z.land_spec, Z.pow2_bits_eqb by lia. destruct (Z.eqb_spec k n) as [->|]; [|apply andb_false_r].
  by rewrite Z.shiftl_spec_low by lia.
Qed.
End Entry.
