(* ===== verification/Rand.v ===== *)
(** * The pseudo-random generator of the lottery scheduler

    [lab-2/rand.c]: MT19937 with its 624-word state array, and
    [random_at_most], the rejection sampler the lottery draws with. *)

From S2P Require Import Prelude.

Definition N : nat := 624.
Definition M_ : nat := 397.
Definition MATRIX_A : Z := 0x9908b0df.
Definition UPPER_MASK : Z := 0x80000000.
Definition LOWER_MASK : Z := 0x7fffffff.
Definition TEMPERING_MASK_B : Z := 0x9d2c5680.
Definition TEMPERING_MASK_C : Z := 0xefc60000.
Definition RAND_MAX : Z := 0x7fffffff.

Definition TEMPERING_SHIFT_U (y : Z) : Z := Z.shiftr y 11.
Definition TEMPERING_SHIFT_S (y : Z) : Z := w32 (Z.shiftl y 7).
Definition TEMPERING_SHIFT_T (y : Z) : Z := w32 (Z.shiftl y 15).
Definition TEMPERING_SHIFT_L (y : Z) : Z := Z.shiftr y 18.

(** The two static variables: the state vector and the position in it;
    [mti = N + 1] means that the vector was never seeded. *)
Record rand := Rand { mt : list Z; mti : nat }.

Definition rand_static : rand := Rand (replicate N 0) (N + 1).

Definition sgenrand (seed : Z) (r : rand) : rand :=
  let mt0 := <[0%nat := Z.land seed 0xffffffff]> (mt r) in
  Rand (foldl (fun a i =>
          <[i := Z.land (w32 (69069 * (a !!! (i - 1)%nat))) 0xffffffff]> a)
        mt0 (seq 1 (N - 1))) N.

Definition mag01 (b : Z) : Z := if b =? 0 then 0x0 else MATRIX_A.

(** The generator's recurrence: the word that replaces [u], from [u], the word
    [v] after it and the word [m] that is [M_] further. *)
Definition mt_word (u v m : Z) : Z :=
  let y := Z.lor (Z.land u UPPER_MASK) (Z.land v LOWER_MASK) in
  Z.lxor (Z.lxor m (Z.shiftr y 1)) (mag01 (Z.land y 0x1)).

(** One assignment of the generator's loops: word [kk] from the words [kk],
    [next] and [mid] of the vector as it is now. *)
Definition twist (a : list Z) (kk next mid : nat) : list Z :=
  <[kk := mt_word (a !!! kk) (a !!! next) (a !!! mid)]> a.

Definition regenerate (a : list Z) : list Z :=
  let a1 := foldl (fun a kk => twist a kk (kk + 1) (kk + M_)) a (seq 0 (N - M_)) in
  let a2 := foldl (fun a kk => twist a kk (kk + 1) (kk + M_ - N)) a1
              (seq (N - M_) (M_ - 1)) in
  twist a2 (N - 1) 0 (M_ - 1).

Definition temper (y : Z) : Z :=
  let y := Z.lxor y (TEMPERING_SHIFT_U y) in
  let y := Z.lxor y (Z.land (TEMPERING_SHIFT_S y) TEMPERING_MASK_B) in
  let y := Z.lxor y (Z.land (TEMPERING_SHIFT_T y) TEMPERING_MASK_C) in
  Z.lxor y (TEMPERING_SHIFT_L y).

Definition genrand (r : rand) : Z * rand :=
  let r1 :=
    if (N <=? mti r)%nat then
      let r0 := if (mti r =? N + 1)%nat then sgenrand 4357 r else r in
      Rand (regenerate (mt r0)) 0
    else r in
  let y := mt r1 !!! mti r1 in
  (Z.land (temper y) RAND_MAX, Rand (mt r1) (mti r1 + 1)).

(** The first output of the generator for its default seed, as published with
    the MT19937 reference code (3510405877, without the uppermost bit). *)
Example genrand_default_seed : fst (genrand rand_static) = 3510405877 - 2 ^ 31.
Proof. vm_compute. reflexivity. Qed.

Definition genrandM : M rand Z := fun r => Ok (genrand r).

Section Sampling.
Variable bound bin_size : Z.

(** The [do ... while] of [random_at_most]. *)
Fixpoint draw_loop (fuel : nat) : M rand Z :=
  match fuel with
  | O => diverge
  | S fuel' =>
      x ← genrandM;
      if bound <=? w32 x then draw_loop fuel' else mret x
  end.
End Sampling.

Definition num_bins (max : Z) : Z := w32 (w32 max + 1).
Definition num_rand : Z := w32 (w32 RAND_MAX + 1).
Definition bin_size (max : Z) : Z := num_rand / num_bins max.
Definition defect (max : Z) : Z := num_rand mod num_bins max.

Definition random_at_most (fuel : nat) (max : Z) : M rand Z :=
  if num_bins max =? 0 then fault "division by zero"
  else
    x ← draw_loop (w32 (num_rand - defect max)) fuel;
    mret (w32 x / bin_size max).

(** ** Reference definition of the sequence

    The generator without its state vector: the seeded words by their linear
    congruence, then every later word by the recurrence. *)

Fixpoint lcg (seed : Z) (i : nat) : Z :=
  match i with
  | O => Z.land seed 0xffffffff
  | S i' => Z.land (w32 (69069 * lcg seed i')) 0xffffffff
  end.

Fixpoint mt_words (init : list Z) (n : nat) : list Z :=
  match n with
  | O => init
  | S n' =>
      let l := mt_words init n' in
      l ++ [mt_word (l !!! n') (l !!! (n' + 1)%nat) (l !!! (n' + M_)%nat)]
  end.

Definition mt_ref (seed : Z) (k : nat) : Z :=
  mt_words (map (lcg seed) (seq 0 N)) k !!! k.

Fixpoint draws (n : nat) (r : rand) : list Z :=
  match n with
  | O => []
  | S n' => let '(x, r') := genrand r in x :: draws n' r'
  end.

Lemma sizes : N = 624%nat /\ M_ = 397%nat.
Proof. done. Qed.

(** The generator after [n] more numbers. *)
Fixpoint advance (n : nat) (r : rand) : rand :=
  match n with
  | O => r
  | S n' => advance n' (snd (genrand r))
  end.

(** ** The in-place loops compute the recurrence *)

Section Recurrence.
Variable f : nat -> Z.
Hypothesis f_rec : forall k,
  f (N + k)%nat = mt_word (f k) (f (k + 1)%nat) (f (k + M_)%nat).

(** The vector after the words below [kk] were replaced. *)
Definition window (base kk : nat) : list Z :=
  map (fun i => if (i <? kk)%nat then f (base + N + i)%nat else f (base + i)%nat)
      (seq 0 N).

Lemma window_length base kk : length (window base kk) = N.
Proof. unfold window. by rewrite length_map, length_seq. Qed.

Lemma window_lookup_Some base kk i :
  (i < N)%nat ->
  window base kk !! i =
  Some (if (i <? kk)%nat then f (base + N + i)%nat else f (base + i)%nat).
Proof.
  intros Hi. unfold window. by rewrite list_lookup_fmap, lookup_seq_lt.
Qed.

Lemma window_lookup base kk i :
  (i < N)%nat ->
  window base kk !!! i =
  if (i <? kk)%nat then f (base + N + i)%nat else f (base + i)%nat.
Proof.
  intros Hi. by apply list_lookup_total_correct, window_lookup_Some.
Qed.

Lemma window_twist base kk next mid :
  (kk < N)%nat -> (next < N)%nat -> (mid < N)%nat ->
  window base kk !!! next = f (base + kk + 1)%nat ->
  window base kk !!! mid = f (base + kk + M_)%nat ->
  twist (window base kk) kk next mid = window base (kk + 1).
Proof.
  intros Hk Hn Hm En Em. unfold twist. rewrite En, Em.
  rewrite window_lookup by done. rewrite (proj2 (Nat.ltb_ge kk kk)) by lia.
  rewrite <- f_rec. apply list_eq. intros i.
  destruct (decide (i < N)%nat) as [Hi|Hi].
  2:{ rewrite !lookup_ge_None_2; rewrite ?length_insert, ?window_length; try lia.
      done. }
  destruct (decide (i = kk)) as [->|Hne].
  - rewrite list_lookup_insert_eq by (rewrite window_length; done).
    rewrite window_lookup_Some by done.
    rewrite (proj2 (Nat.ltb_lt kk (kk + 1))) by lia.
    by replace (N + (base + kk))%nat with (base + N + kk)%nat by lia.
  - rewrite list_lookup_insert_ne by done.
    rewrite !window_lookup_Some by done.
    destruct (Nat.ltb_spec i kk), (Nat.ltb_spec i (kk + 1)); try done; lia.
Qed.

Lemma window_loop base (mid : nat -> nat) start n :
  (start + n < N)%nat ->
  (forall kk, (start <= kk < start + n)%nat ->
     (mid kk < N)%nat /\ window base kk !!! mid kk = f (base + kk + M_)%nat) ->
  foldl (fun a kk => twist a kk (kk + 1) (mid kk)) (window base start) (seq start n)
  = window base (start + n).
Proof.
  revert start. induction n as [|n IH]; intros start Hs Hm; simpl.
  { f_equal. lia. }
  destruct (Hm start) as [Hm1 Hm2]; [lia|].
  rewrite window_twist; try done; try lia.
  - replace (start + 1)%nat with (S start) by lia.
    rewrite IH by (intros; try apply Hm; lia). f_equal. lia.
  - rewrite window_lookup by lia.
    rewrite (proj2 (Nat.ltb_ge _ _)) by lia. f_equal. lia.
Qed.

Lemma regenerate_window base :
  regenerate (window base 0) = window base N.
Proof.
  pose proof sizes as HNM.
  unfold regenerate.
  rewrite (window_loop base (fun kk => kk + M_)%nat 0 (N - M_)); [|lia|].
  2:{ intros kk Hk. split; [lia|]. rewrite window_lookup by lia.
      rewrite (proj2 (Nat.ltb_ge _ _)) by lia. f_equal; lia. }
  rewrite Nat.add_0_l.
  rewrite (window_loop base (fun kk => kk + M_ - N)%nat (N - M_) (M_ - 1)); [|lia|].
  2:{ intros kk Hk. split; [lia|]. rewrite window_lookup by lia.
      rewrite (proj2 (Nat.ltb_lt _ _)) by lia. f_equal. lia. }
  replace (N - M_ + (M_ - 1))%nat with (N - 1)%nat by lia.
  rewrite window_twist; try lia.
  - by replace (N - 1 + 1)%nat with N by lia.
  - rewrite window_lookup by lia.
    rewrite (proj2 (Nat.ltb_lt _ _)) by lia. f_equal. lia.
  - rewrite window_lookup by lia.
    rewrite (proj2 (Nat.ltb_lt _ _)) by lia. f_equal. lia.
Qed.

Lemma window_shift base : window base N = window (base + N) 0.
Proof.
  apply list_eq_same_length with N; [by rewrite window_length..|].
  intros i x y Hi Hx Hy.
  apply list_lookup_total_correct in Hx, Hy. rewrite <- Hx, <- Hy.
  rewrite !window_lookup by done.
  by rewrite (proj2 (Nat.ltb_lt _ _)), (proj2 (Nat.ltb_ge _ _)) by lia.
Qed.
End Recurrence.

(** ** Seeding *)

Lemma lcg_step seed i :
  lcg seed (S i) = Z.land (w32 (69069 * lcg seed i)) 0xffffffff.
Proof. done. Qed.

Definition lcg_filled (seed : Z) (j : nat) (a : list Z) : Prop :=
  length a = N /\ forall i, (i < j)%nat -> a !!! i = lcg seed i.

Lemma sgenrand_filled seed (a : list Z) start n :
  lcg_filled seed start a -> (0 < start)%nat -> (start + n <= N)%nat ->
  lcg_filled seed (start + n)
    (foldl (fun a i =>
       <[i := Z.land (w32 (69069 * (a !!! (i - 1)%nat))) 0xffffffff]> a)
       a (seq start n)).
Proof.
  revert a start. induction n as [|n IH]; intros a start [Hl Hf] H0 Hn.
  { by rewrite Nat.add_0_r. }
  cbn [seq foldl]. replace (start + S n)%nat with (S start + n)%nat by lia.
  apply IH; [split|lia|lia]; [by rewrite length_insert|].
  intros i Hi. destruct (decide (i = start)) as [->|Hne].
  - rewrite list_lookup_total_insert_eq by lia. rewrite Hf by lia.
    destruct start; [lia|]. by rewrite Nat.sub_succ, Nat.sub_0_r.
  - rewrite list_lookup_total_insert_ne by done. apply Hf. lia.
Qed.

Lemma sgenrand_words seed r :
  length (mt r) = N ->
  sgenrand seed r = Rand (map (lcg seed) (seq 0 N)) N.
Proof.
  intros Hl. unfold sgenrand. f_equal. pose proof sizes as HNM.
  destruct (sgenrand_filled seed (<[0%nat := Z.land seed 0xffffffff]> (mt r)) 1 (N - 1))
    as [Hl' Hf]; [split|lia|lia|].
  - by rewrite length_insert.
  - intros i Hi. assert (i = 0)%nat as -> by lia.
    rewrite list_lookup_total_insert_eq by lia. done.
  - apply list_eq_same_length with N; [by rewrite length_map, length_seq|done|].
    intros i x y Hi Hx Hy. apply list_lookup_total_correct in Hx.
    rewrite Hf in Hx by lia.
    rewrite list_lookup_fmap, lookup_seq_lt in Hy by done.
    injection Hy as <-. by rewrite <- Hx.
Qed.

(** ** The reference sequence obeys the recurrence *)

Lemma mt_words_length init n : length (mt_words init n) = (length init + n)%nat.
Proof.
  induction n as [|n IH]; simpl; [lia|]. rewrite length_app, IH. simpl. lia.
Qed.

Lemma mt_words_prefix init n m i :
  (i < length init + n)%nat ->
  mt_words init (n + m) !!! i = mt_words init n !!! i.
Proof.
  intros Hi. induction m as [|m IH]; [by rewrite Nat.add_0_r|].
  rewrite Nat.add_succ_r. cbn [mt_words].
  rewrite lookup_total_app_l by (rewrite mt_words_length; lia). done.
Qed.

Lemma mt_words_at init n k :
  length init = N -> (k < N + n)%nat ->
  mt_words init n !!! k = mt_words init k !!! k.
Proof.
  intros Hl Hk. destruct (decide (k <= n)%nat) as [Hle|Hle].
  - replace n with (k + (n - k))%nat by lia.
    apply mt_words_prefix. pose proof sizes. lia.
  - replace k with (n + (k - n))%nat at 3 by lia.
    symmetry. apply mt_words_prefix. lia.
Qed.

Lemma mt_ref_init seed k : (k < N)%nat -> mt_ref seed k = lcg seed k.
Proof.
  intros Hk. unfold mt_ref. pose proof sizes as HNM.
  rewrite <- (mt_words_at _ 0) by (rewrite ?length_map, ?length_seq; lia).
  cbn [mt_words]. apply list_lookup_total_correct.
  by rewrite list_lookup_fmap, lookup_seq_lt.
Qed.

Lemma mt_ref_rec seed k :
  mt_ref seed (N + k) =
  mt_word (mt_ref seed k) (mt_ref seed (k + 1)) (mt_ref seed (k + M_)).
Proof.
  unfold mt_ref. set (init := map (lcg seed) (seq 0 N)).
  assert (Hl : length init = N) by (unfold init; by rewrite length_map, length_seq).
  pose proof sizes as HNM.
  rewrite <- (mt_words_at init (S k) (N + k)) by lia.
  cbn [mt_words].
  rewrite lookup_total_app_r by (rewrite mt_words_length; lia).
  rewrite mt_words_length, Hl. replace (N + k - (N + k))%nat with 0%nat by lia.
  rewrite (mt_words_at init k (k + 1)), (mt_words_at init k (k + M_)) by lia. done.
Qed.

(** ** The output stream *)

(** [k] numbers were drawn since seeding: the vector holds the [N] words of the
    sequence from [base] on, and the next word to hand out is word [N + k]. *)
Definition drawn (seed : Z) (k : nat) (r : rand) : Prop :=
  exists base, mt r = window (mt_ref seed) base 0 /\
    (mti r <= N)%nat /\ (k + N = base + mti r)%nat.

Definition output (seed : Z) (k : nat) : Z :=
  Z.land (temper (mt_ref seed (N + k))) RAND_MAX.

Lemma drawn_seeded seed r : length (mt r) = N -> drawn seed 0 (sgenrand seed r).
Proof.
  intros Hl. rewrite sgenrand_words by done. exists 0%nat. cbn [mt mti].
  split; [|lia]. apply list_eq_same_length with N;
    [apply window_length|by rewrite length_map, length_seq|].
  intros i x y Hi Hx Hy. rewrite window_lookup_Some in Hy by done.
  rewrite list_lookup_fmap, lookup_seq_lt in Hx by done.
  injection Hx as <-. injection Hy as <-.
  symmetry. by apply mt_ref_init.
Qed.

Lemma genrand_drawn seed k r :
  drawn seed k r ->
  fst (genrand r) = output seed k /\ drawn seed (S k) (snd (genrand r)).
Proof.
  pose proof sizes as HNM. intros (base & Hmt & Hle & Hk). unfold genrand, output.
  destruct (Nat.leb_spec N (mti r)) as [HN|HN].
  - assert (mti r = N) as Hi by lia.
    rewrite (proj2 (Nat.eqb_neq (mti r) (N + 1))) by lia. cbn [mt mti fst snd].
    rewrite Hmt, (regenerate_window _ (mt_ref_rec seed)), window_shift.
    rewrite window_lookup by lia. rewrite (proj2 (Nat.ltb_ge 0 0)) by lia.
    split; [do 3 f_equal; lia|].
    exists (base + N)%nat. cbn [mt mti]. split; [done|lia].
  - cbn [mt mti fst snd]. rewrite Hmt, window_lookup by lia.
    rewrite (proj2 (Nat.ltb_ge (mti r) 0)) by lia.
    split; [do 3 f_equal; lia|]. exists base. cbn [mt mti]. split; [done|lia].
Qed.

Lemma draws_drawn seed n k r :
  drawn seed k r -> draws n r = map (output seed) (seq k n).
Proof.
  revert k r. induction n as [|n IH]; intros k r Hd; [done|].
  cbn [draws seq map]. destruct (genrand_drawn seed k r Hd) as [Hx Hd'].
  destruct (genrand r) as [x r'] eqn:E. simpl in Hx, Hd'. subst x.
  f_equal. by apply IH.
Qed.

Lemma output_bounds seed k : 0 <= output seed k < 2 ^ 31.
Proof.
  unfold output. change RAND_MAX with (Z.ones 31).
  rewrite Z.land_ones by lia. apply Z.mod_pos_bound. lia.
Qed.

Lemma genrand_bounds r : 0 <= fst (genrand r) < 2 ^ 31.
Proof.
  unfold genrand. destruct (N <=? mti r)%nat; cbn [fst];
    change RAND_MAX with (Z.ones 31); rewrite Z.land_ones by lia;
    apply Z.mod_pos_bound; lia.
Qed.

(** ** [random_at_most] *)

Section RandomAtMost.
Variable max : Z.
Hypothesis max_ok : 0 <= max <= RAND_MAX.

Lemma num_bins_val : num_bins max = max + 1.
Proof. unfold num_bins, RAND_MAX in *. rewrite (w32_small max), w32_small; lia. Qed.

Lemma num_rand_val : num_rand = 2 ^ 31.
Proof. done. Qed.

Lemma defect_bounds : 0 <= defect max < max + 1.
Proof.
  unfold defect. rewrite num_bins_val.
  apply Z.mod_pos_bound. unfold RAND_MAX in *. lia.
Qed.

Lemma accepted_val :
  w32 (num_rand - defect max) = (max + 1) * bin_size max.
Proof.
  pose proof defect_bounds. unfold bin_size, defect in *.
  rewrite num_bins_val in *. rewrite num_rand_val in *.
  unfold RAND_MAX in *. pose proof (Z.div_mod (2 ^ 31) (max + 1) ltac:(lia)).
  rewrite w32_small; lia.
Qed.

Lemma bin_size_pos : 1 <= bin_size max.
Proof.
  unfold bin_size. rewrite num_bins_val, num_rand_val. unfold RAND_MAX in *.
  apply Z.div_le_lower_bound; lia.
Qed.

(** More than half of the generator's numbers are accepted. *)
Lemma acceptance_more_than_half : 2 ^ 31 < 2 * ((max + 1) * bin_size max).
Proof.
  pose proof defect_bounds as Hd. pose proof bin_size_pos as Hb.
  unfold bin_size, defect in *. rewrite num_bins_val, num_rand_val in *.
  pose proof (Z.div_mod (2 ^ 31) (max + 1) ltac:(lia)). nia.
Qed.

(** One turn of the loop: a number below the largest multiple of [max + 1] is divided by the
    size of the bins, another one is dropped. *)
Lemma random_at_most_step fuel r x r' : genrand r = (x, r') ->
  random_at_most (S fuel) max r =
  if (max + 1) * bin_size max <=? x then random_at_most fuel max r' else Ok (x / bin_size max, r').
Proof.
  intros E. pose proof (genrand_bounds r) as Hx. rewrite E in Hx. cbn [fst] in Hx.
  unfold random_at_most. rewrite num_bins_val. destruct (Z.eqb_spec (max + 1) 0); [lia|].
  cbn [draw_loop]. unfold genrandM, mbind, M_bind. rewrite E, accepted_val.
  rewrite (w32_small x) by (unfold RAND_MAX in *; lia). destruct (_ <=? x); [done|].
  unfold mret, M_ret. by rewrite (w32_small x) by (unfold RAND_MAX in *; lia).
Qed.

Definition accepted (x : Z) : bool := x <? (max + 1) * bin_size max.

Lemma draw_loop_draws fuel seed k r :
  drawn seed k r ->
  draw_loop (w32 (num_rand - defect max)) fuel r =
  match list_find (fun x => accepted x = true)
          (map (output seed) (seq k fuel)) with
  | Some (n, x) => Ok (x, advance (S n) r)
  | None => Diverge
  end.
Proof using max_ok.
  revert k r. induction fuel as [|fuel IH]; intros k r Hd; [done|].
  destruct (genrand_drawn _ _ _ Hd) as [Hx Hd'].
  cbn [draw_loop seq map list_find advance]. unfold genrandM, mbind, M_bind.
  destruct (genrand r) as [x r'] eqn:E. cbn [fst snd] in *. subst x.
  pose proof (output_bounds seed k) as Hb.
  rewrite (w32_small (output seed k)) by lia. rewrite accepted_val.
  destruct (Z.leb_spec ((max + 1) * bin_size max) (output seed k)) as [Hle|Hlt].
  - rewrite decide_False by (unfold accepted; rewrite Z.ltb_lt; lia).
    rewrite <- accepted_val, (IH (S k) r' Hd').
    by destruct (list_find _ _) as [[n x]|].
  - by rewrite decide_True by (unfold accepted; rewrite Z.ltb_lt; lia).
Qed.
End RandomAtMost.

(** [random_at_most max] draws until a number falls below the largest multiple
    of [max + 1] the generator's range holds, and returns the number of the bin
    it falls in, which is between 0 and [max]; if one of the next [fuel] numbers
    of the stream is accepted, it returns. *)
Lemma random_at_most_accepted (seed : Z) (k : nat) (r : rand) (fuel : nat)
    (max : Z) (n : nat) (x : Z) :
  0 <= max <= RAND_MAX -> drawn seed k r ->
  list_find (fun x => accepted max x = true) (map (output seed) (seq k fuel)) = Some (n, x) ->
  random_at_most fuel max r = Ok (x / bin_size max, advance (S n) r) /\
  0 <= x / bin_size max <= max.
Proof.
  intros Hmax Hd Hf.
  pose proof (proj1 (list_find_Some _ _ _ _) Hf) as (Hx & Ha & _).
  rewrite list_lookup_fmap in Hx.
  destruct (seq k fuel !! n) as [j|]; [|done].
  change (Some (output seed j) = Some x) in Hx. apply (inj Some) in Hx.
  pose proof (output_bounds seed j) as Hb. rewrite Hx in Hb.
  unfold accepted in Ha. apply Z.ltb_lt in Ha.
  pose proof (bin_size_pos max Hmax) as Hbin.
  split.
  - unfold random_at_most. rewrite num_bins_val by done.
    destruct (Z.eqb_spec (max + 1) 0); [lia|].
    unfold mbind, M_bind. rewrite (draw_loop_draws max Hmax fuel seed k r Hd), Hf.
    by rewrite w32_small by lia.
  - split; [apply Z.div_pos; lia|].
    apply Z.lt_succ_r, Z.div_lt_upper_bound; lia.
Qed.

(** Every result has the same number of accepted numbers: the numbers of the
    generator's range that are accepted and map to [j] are the [bin_size]
    numbers from [j * bin_size] on. *)
Lemma accepted_bin (max j x : Z) :
  0 <= max <= RAND_MAX -> 0 <= j <= max ->
  accepted max x = true /\ x / bin_size max = j <->
  j * bin_size max <= x < (j + 1) * bin_size max.
Proof.
  intros Hmax Hj. pose proof (bin_size_pos max Hmax) as Hb.
  unfold accepted. rewrite Z.ltb_lt. split.
  - intros [Ha <-]. pose proof (Z.div_mod x (bin_size max) ltac:(lia)).
    pose proof (Z.mod_pos_bound x (bin_size max) ltac:(lia)). nia.
  - intros [H1 H2]. split; [nia|].
    symmetry. apply Z.div_unique with (x - j * bin_size max); lia.
Qed.

(** C28. The generator is MT19937: after [sgenrand seed], the numbers [genrand]
    returns are the tempered words of the reference sequence, however many are
    drawn and whatever the vector held before. *)
Theorem genrand_stream (seed : Z) (n : nat) (r : rand) :
  length (mt r) = N ->
  draws n (sgenrand seed r) = map (output seed) (seq 0 n).
Proof. intros Hl. by apply draws_drawn, drawn_seeded. Qed.

(** ** Instances *)

Lemma genrand_stream_witness :
  draws 3 (sgenrand 42 rand_static) = map (output 42) (seq 0 3).
Proof. apply (genrand_stream 42 3 rand_static). apply length_replicate. Defined.
