(* ===== verification/Spinlock.v ===== *)
(** * Per-CPU state and spin locks

    [lab-2/spinlock.c] with [mycpu], [cpuid] and [myproc] of
    [lab-2/proc_original.c].  The state is the CPU table and the registers of
    the CPU that executes: its local APIC id and its interrupt flag.  A CPU and
    a process are their index in [cpus] and in [ptable.proc]; the call stack a
    lock records for debugging ([pcs]) is not modelled. *)

From S2P Require Import Prelude Layout.

Record cpu := Cpu {
  apicid : Z;
  ncli : Z;
  intena : bool;
  cproc : option nat
}.

Record mach := Mach {
  cpus : list cpu;
  lapicid : Z;
  eflags_IF : bool
}.

Record spinlock := Spinlock {
  locked : bool;
  lname : string;
  lcpu : option nat
}.

Definition set_ncli (v : Z) (c : cpu) := Cpu (apicid c) v (intena c) (cproc c).
Definition set_intena (v : bool) (c : cpu) := Cpu (apicid c) (ncli c) v (cproc c).
Definition set_cproc (v : option nat) (c : cpu) := Cpu (apicid c) (ncli c) (intena c) v.
Definition set_IF (v : bool) (m : mach) := Mach (cpus m) (lapicid m) v.
Definition upd_cpu (i : nat) (f : cpu -> cpu) (m : mach) :=
  Mach (alter f i (cpus m)) (lapicid m) (eflags_IF m).

Definition cli : M mach unit := modify (set_IF false).
Definition sti : M mach unit := modify (set_IF true).

Definition find_cpu (m : mach) : option nat :=
  fst <$> list_find (fun c => apicid c = lapicid m) (cpus m).

Definition mycpu : M mach nat :=
  fl ← gets eflags_IF;
  if (fl : bool) then panic "mycpu called with interrupts enabled"
  else
    i ← gets find_cpu;
    match i with
    | Some i => mret i
    | None => panic "unknown apicid"
    end.

Definition getcpu (i : nat) : M mach cpu :=
  m ← get; lift_opt "cpu" (cpus m !! i).

Definition pushcli : M mach unit :=
  eflags ← gets eflags_IF;
  cli ;;
  i ← mycpu; c ← getcpu i;
  when (ncli c =? 0) (modify (upd_cpu i (set_intena eflags))) ;;
  i ← mycpu;
  modify (upd_cpu i (fun c => set_ncli (i32 (ncli c + 1)) c)).

Definition popcli : M mach unit :=
  fl ← gets eflags_IF;
  if (fl : bool) then panic "popcli - interruptible"
  else
    i ← mycpu;
    modify (upd_cpu i (fun c => set_ncli (i32 (ncli c - 1)) c)) ;;
    c ← getcpu i;
    if ncli c <? 0 then panic "popcli"
    else when ((ncli c =? 0) && intena c) sti.

Definition initlock (name : string) : spinlock := Spinlock false name None.

Definition holding (lk : spinlock) : M mach bool :=
  pushcli ;;
  r ← (if locked lk then i ← mycpu; mret (bool_decide (lcpu lk = Some i))
       else mret false);
  popcli ;;
  mret r.

(** [acquire]: the lock after the call.  A lock another CPU holds is spun on;
    with that CPU at rest the loop never ends. *)
Definition acquire (lk : spinlock) : M mach spinlock :=
  pushcli ;;
  h ← holding lk;
  if (h : bool) then panic "acquire"
  else if locked lk then diverge
  else i ← mycpu; mret (Spinlock true (lname lk) (Some i)).

Definition release (lk : spinlock) : M mach spinlock :=
  h ← holding lk;
  if (h : bool) then popcli ;; mret (Spinlock false (lname lk) None)
  else panic "release".

(** [myproc] and [cpuid]. *)
Definition myproc : M mach (option nat) :=
  pushcli ;;
  i ← mycpu; c ← getcpu i;
  popcli ;;
  mret (cproc c).

Definition cpuid : M mach nat := mycpu.

(** [getcallerpcs]: follows the saved frame pointers in memory, at most ten
    frames, and fills the rest with zeros. *)

Fixpoint getcallerpcs (mem : Z -> Z) (ebp : Z) (n : nat) : list Z :=
  match n with
  | O => []
  | S n' =>
      if ((ebp =? 0) || (ebp <? KERNBASE) || (ebp =? 0xffffffff))%bool
      then replicate n 0
      else mem (w32 (ebp + 4)) :: getcallerpcs mem (mem ebp) n'
  end.

(** ** The executing CPU

    [running i m]: the executing CPU is entry [i] of the table and its nesting
    count is in the range the counter can hold. *)

Definition running (i : nat) (m : mach) : Prop :=
  find_cpu m = Some i /\ exists c, cpus m !! i = Some c /\ 0 <= ncli c < 2 ^ 31 - 4.

Lemma find_cpu_lt m i : find_cpu m = Some i -> (i < length (cpus m))%nat.
Proof.
  unfold find_cpu. intros H. apply fmap_Some in H as ([j c] & H & ->).
  apply list_find_Some in H as [H _]. by eapply lookup_lt_Some.
Qed.

Lemma find_cpu_alter m i j f :
  (forall c, apicid (f c) = apicid c) ->
  find_cpu m = Some i -> find_cpu (upd_cpu j f m) = Some i.
Proof.
  intros Hf H. unfold find_cpu in *. apply fmap_Some in H as ([k c] & H & ->).
  apply list_find_Some in H as (Hk & Hid & Hmin). cbn in *.
  apply fmap_Some. exists (k, if decide (j = k) then f c else c). split; [|done].
  apply list_find_Some. split_and!.
  - destruct (decide (j = k)) as [->|]; [by rewrite list_lookup_alter_eq, Hk|].
    by rewrite list_lookup_alter_ne.
  - by destruct (decide (j = k)); rewrite ?Hf.
  - intros k' c' Hk' Hlt. destruct (decide (j = k')) as [->|].
    + rewrite list_lookup_alter_eq in Hk'. apply fmap_Some in Hk' as (c0 & Hc0 & ->).
      rewrite Hf. by apply (Hmin k').
    + rewrite list_lookup_alter_ne in Hk' by done. by apply (Hmin k').
Qed.

Lemma find_cpu_set_IF b m : find_cpu (set_IF b m) = find_cpu m.
Proof. done. Qed.

(** [pushcli] and [popcli] as functions of the executing CPU's entry. *)
Definition pushed (fl : bool) (c : cpu) : cpu :=
  Cpu (apicid c) (ncli c + 1) (if ncli c =? 0 then fl else intena c) (cproc c).

Definition popped (c : cpu) : cpu := set_ncli (ncli c - 1) c.

Lemma mycpu_spec i m :
  find_cpu m = Some i -> eflags_IF m = false -> mycpu m = Ok (i, m).
Proof. intros Hf HI. unfold mycpu. mrun. rewrite HI. mrun. by rewrite Hf. Qed.

Lemma getcpu_spec i c m : cpus m !! i = Some c -> getcpu i m = Ok (c, m).
Proof. intros Hc. unfold getcpu. mrun. by rewrite Hc. Qed.

Lemma upd_cpu_same i c m f : cpus m !! i = Some c -> cpus (upd_cpu i f m) !! i = Some (f c).
Proof. intros Hc. simpl. by rewrite list_lookup_alter_eq, Hc. Qed.

Lemma upd_cpu_twice i c m f g h :
  cpus m !! i = Some c -> g (f c) = h c ->
  upd_cpu i g (upd_cpu i f m) = upd_cpu i h m.
Proof.
  intros Hc He. unfold upd_cpu. simpl. f_equal. apply list_eq. intros j.
  destruct (decide (i = j)) as [<-|].
  - rewrite !list_lookup_alter_eq, Hc. simpl. by rewrite He.
  - by rewrite !list_lookup_alter_ne.
Qed.

Lemma upd_cpu_ext i c m f g :
  cpus m !! i = Some c -> f c = g c -> upd_cpu i f m = upd_cpu i g m.
Proof.
  intros Hc He. unfold upd_cpu. f_equal. apply list_eq. intros j.
  destruct (decide (i = j)) as [<-|].
  - rewrite !list_lookup_alter_eq, Hc. simpl. by rewrite He.
  - by rewrite !list_lookup_alter_ne.
Qed.

Lemma pushcli_spec i m :
  running i m ->
  pushcli m = Ok (tt, upd_cpu i (pushed (eflags_IF m)) (set_IF false m)).
Proof.
  intros (Hf & c & Hc & Hn). unfold pushcli, cli. mrun.
  mstep (mycpu_spec i (set_IF false m) Hf eq_refl).
  mstep (getcpu_spec i c (set_IF false m) Hc).
  destruct (Z.eqb_spec (ncli c) 0) as [Hz|Hz]; mrun.
  - erewrite bind_ok by (apply mycpu_spec; [by apply find_cpu_alter|done]).
    unfold modify. do 2 f_equal. eapply upd_cpu_twice; [done|].
    unfold pushed, set_ncli, set_intena. simpl.
    rewrite i32_small by lia. by rewrite Hz.
  - mstep (mycpu_spec i (set_IF false m) Hf eq_refl).
    unfold modify. do 2 f_equal. eapply upd_cpu_ext; [done|].
    unfold pushed, set_ncli. rewrite i32_small by lia.
    by rewrite (proj2 (Z.eqb_neq _ _)).
Qed.

Lemma popcli_spec i m c :
  find_cpu m = Some i -> cpus m !! i = Some c -> 0 < ncli c < 2 ^ 31 ->
  eflags_IF m = false ->
  popcli m = Ok (tt, set_IF ((ncli c =? 1) && intena c) (upd_cpu i popped m)).
Proof.
  intros Hf Hc Hn HI. unfold popcli. mrun. rewrite HI. mrun.
  mstep (mycpu_spec i m Hf HI).
  erewrite bind_ok by (eapply getcpu_spec, upd_cpu_same; done).
  assert (i32 (ncli c - 1) = ncli c - 1) as Hi by (apply i32_small; lia).
  assert (upd_cpu i (fun c => set_ncli (i32 (ncli c - 1)) c) m = upd_cpu i popped m) as ->.
  { eapply upd_cpu_ext; [done|]. unfold popped. by rewrite Hi. }
  simpl. rewrite Hi. destruct (Z.ltb_spec (ncli c - 1) 0); [lia|].
  replace (ncli c - 1 =? 0) with (ncli c =? 1) by
    (destruct (Z.eqb_spec (ncli c) 1), (Z.eqb_spec (ncli c - 1) 0); done || lia).
  destruct (ncli c =? 1), (intena c); simpl; try done;
    rewrite <- HI; by destruct m.
Qed.

(** The effect of a matched pair on the entry: only [intena] may change, and
    only at nesting depth 0. *)
Definition settle (fl : bool) (c : cpu) : cpu :=
  if ncli c =? 0 then set_intena fl c else c.

Lemma upd_cpu_id i c m f : cpus m !! i = Some c -> f c = c -> upd_cpu i f m = m.
Proof.
  intros Hc He. destruct m as [cs l fl]. unfold upd_cpu. simpl in *. f_equal.
  apply list_eq. intros j. destruct (decide (i = j)) as [<-|].
  - by rewrite list_lookup_alter_eq, Hc; simpl; rewrite He.
  - by rewrite list_lookup_alter_ne.
Qed.

Lemma upd_cpu_set_IF i f b m : upd_cpu i f (set_IF b m) = set_IF b (upd_cpu i f m).
Proof. done. Qed.

Lemma set_IF_same m b : eflags_IF m = b -> set_IF b m = m.
Proof. intros <-. by destruct m. Qed.

(** [entry i c m]: the executing CPU is entry [i], which holds [c], with its
    nesting count in range and interrupts off while it is positive. *)
Record entry (i : nat) (c : cpu) (m : mach) : Prop := Entry {
  entry_find : find_cpu m = Some i;
  entry_cpu : cpus m !! i = Some c;
  entry_ncli : 0 <= ncli c < 2 ^ 31 - 4;
  entry_IF : 0 < ncli c -> eflags_IF m = false
}.

Lemma entry_running i c m : entry i c m -> running i m.
Proof. intros []. split; eauto. Qed.

Lemma find_cpu_pushed i m fl :
  find_cpu m = Some i -> find_cpu (upd_cpu i (pushed fl) (set_IF false m)) = Some i.
Proof. intros. by apply find_cpu_alter. Qed.

Lemma push_pop_spec i c m :
  entry i c m ->
  popcli (upd_cpu i (pushed (eflags_IF m)) (set_IF false m)) =
  Ok (tt, upd_cpu i (settle (eflags_IF m)) m).
Proof.
  intros [Hf Hc Hn HI].
  rewrite (popcli_spec i _ (pushed (eflags_IF m) c));
    [|by apply find_cpu_pushed|by apply upd_cpu_same|simpl; lia|done].
  do 2 f_equal.
  rewrite (upd_cpu_twice i c _ (pushed (eflags_IF m)) popped (settle (eflags_IF m))); [|done|].
  - rewrite upd_cpu_set_IF. unfold set_IF at 1. simpl. unfold set_IF, upd_cpu. simpl. f_equal.
    destruct (Z.eqb_spec (ncli c) 0) as [Hz|Hz].
    + rewrite Hz. by destruct (eflags_IF m).
    + rewrite (proj2 (Z.eqb_neq _ _)) by lia. simpl. symmetry. apply HI. lia.
  - unfold popped, pushed, settle, set_ncli, set_intena. simpl.
    replace (ncli c + 1 - 1) with (ncli c) by lia.
    destruct (ncli c =? 0); by destruct c.
Qed.

Lemma entry_settle i c m :
  entry i c m -> entry i (settle (eflags_IF m) c) (upd_cpu i (settle (eflags_IF m)) m).
Proof.
  intros [Hf Hc Hn HI]. split.
  - apply find_cpu_alter; [|done]. intros c'. unfold settle. by destruct (ncli c' =? 0).
  - by apply upd_cpu_same.
  - unfold settle. by destruct (ncli c =? 0).
  - unfold settle. by destruct (ncli c =? 0).
Qed.

Lemma entry_pushed i c m :
  entry i c m -> ncli c < 2 ^ 31 - 5 ->
  entry i (pushed (eflags_IF m) c) (upd_cpu i (pushed (eflags_IF m)) (set_IF false m)).
Proof.
  intros [Hf Hc Hn HI] Hb. split; [by apply find_cpu_pushed|by apply upd_cpu_same| |done].
  simpl. lia.
Qed.

Lemma holding_spec i c m lk :
  entry i c m ->
  holding lk m =
  Ok (locked lk && bool_decide (lcpu lk = Some i), upd_cpu i (settle (eflags_IF m)) m).
Proof.
  intros He. unfold holding. mstep (pushcli_spec i m (entry_running _ _ _ He)).
  assert (find_cpu (upd_cpu i (pushed (eflags_IF m)) (set_IF false m)) = Some i) as Hf
    by (apply find_cpu_pushed, He).
  destruct (locked lk); mrun.
  - mstep (mycpu_spec i _ Hf eq_refl). by mstep (push_pop_spec i c m He).
  - by mstep (push_pop_spec i c m He).
Qed.

Lemma holding_nested i c m lk :
  entry i c m -> 0 < ncli c ->
  holding lk m = Ok (locked lk && bool_decide (lcpu lk = Some i), m).
Proof.
  intros He Hn. rewrite (holding_spec i c) by done. do 2 f_equal.
  apply (upd_cpu_id i c); [apply He|]. unfold settle.
  by rewrite (proj2 (Z.eqb_neq _ _)) by lia.
Qed.

(** [acquire] on a free lock takes it, turns interrupts off and raises the
    nesting count of the executing CPU by one. *)
Lemma acquire_spec i c m lk :
  entry i c m -> ncli c < 2 ^ 31 - 5 -> locked lk = false ->
  acquire lk m =
  Ok (Spinlock true (lname lk) (Some i),
      upd_cpu i (pushed (eflags_IF m)) (set_IF false m)).
Proof.
  intros He Hb Hl. unfold acquire. mstep (pushcli_spec i m (entry_running _ _ _ He)).
  pose proof (entry_pushed i c m He Hb) as He'.
  assert (0 < ncli (pushed (eflags_IF m) c)) as Hp by (destruct He; simpl; lia).
  mstep (holding_nested _ _ _ lk He' Hp). rewrite Hl. mrun.
  erewrite bind_ok by (apply mycpu_spec; [apply He'|done]). done.
Qed.

Lemma acquire_held (i : nat) (c : cpu) (m : mach) (lk : spinlock) :
  entry i c m -> ncli c < 2 ^ 31 - 5 -> locked lk = true -> lcpu lk = Some i ->
  acquire lk m = Panic "acquire".
Proof.
  intros He Hb Hl Hi. unfold acquire. mstep (pushcli_spec i m (entry_running _ _ _ He)).
  pose proof (entry_pushed i c m He Hb) as He'.
  assert (0 < ncli (pushed (eflags_IF m) c)) as Hp by (destruct He; simpl; lia).
  mstep (holding_nested _ _ _ lk He' Hp). rewrite Hl, Hi.
  by rewrite bool_decide_true.
Qed.

(** [acquire] on a lock the executing CPU already holds panics instead of
    deadlocking, whatever the nesting depth. *)
Theorem acquire_held_panics (i : nat) (c : cpu) (m : mach) (lk : spinlock) :
  entry i c m -> ncli c < 2 ^ 31 - 5 -> locked lk = true -> lcpu lk = Some i ->
  acquire lk m = Panic "acquire".
Proof. apply acquire_held. Qed.

Lemma release_spec i c m lk :
  entry i c m -> 0 < ncli c -> locked lk = true -> lcpu lk = Some i ->
  release lk m =
  Ok (Spinlock false (lname lk) None,
      set_IF ((ncli c =? 1) && intena c) (upd_cpu i popped m)).
Proof.
  intros He Hn Hl Hi. unfold release. mstep (holding_nested _ _ _ lk He Hn).
  rewrite Hl, Hi, bool_decide_true by done. cbn [andb].
  destruct He as [Hf Hc Hb HI].
  erewrite bind_ok by (apply (popcli_spec i _ c); auto; lia). done.
Qed.

(** [acquire] then [release] leaves the lock free and restores the interrupt
    flag and the nesting count, at every nesting depth. *)
Theorem acquire_release (i : nat) (c : cpu) (m : mach) (lk : spinlock) :
  entry i c m -> ncli c < 2 ^ 31 - 5 -> locked lk = false ->
  (lk' ← acquire lk; release lk') m =
  Ok (Spinlock false (lname lk) None, upd_cpu i (settle (eflags_IF m)) m).
Proof.
  intros He Hb Hl. rewrite (bind_ok _ _ _ _ _ (acquire_spec i c m lk He Hb Hl)).
  pose proof (entry_pushed i c m He Hb) as He'.
  rewrite (release_spec i _ _ _ He'); [|destruct He; simpl; lia|done|done].
  pose proof (push_pop_spec i c m He) as Hpp.
  rewrite (popcli_spec i _ (pushed (eflags_IF m) c)) in Hpp;
    [|apply He'|apply He'|destruct He; simpl; lia|done].
  apply Ok_inj in Hpp as [_ Hpp]. by rewrite Hpp.
Qed.

(** ** The view clients use

    [cpu_at i n o b m]: CPU [i] executes, [n] [pushcli]s are open, it runs the
    process [o], and its interrupt flag at depth 0 is [b]. *)

Record cpu_at (i : nat) (n : Z) (o : option nat) (b : bool) (m : mach) : Prop := CpuAt {
  at_find : find_cpu m = Some i;
  at_cpu : exists c, cpus m !! i = Some c /\ ncli c = n /\ cproc c = o /\
                     (0 < n -> intena c = b);
  at_IF : eflags_IF m = if n =? 0 then b else false
}.

(** Only the entry of CPU [i] and the flag may differ. *)
Definition other_cpus (i : nat) (m m' : mach) : Prop :=
  lapicid m' = lapicid m /\ forall j, j <> i -> cpus m' !! j = cpus m !! j.

#[export] Instance other_cpus_preorder i : PreOrder (other_cpus i).
Proof.
  split; [by split|]. intros m1 m2 m3 [H1 H2] [H3 H4]. split; [congruence|].
  intros j Hj. by rewrite H4, H2.
Qed.

Lemma other_cpus_upd i f b m : other_cpus i m (set_IF b (upd_cpu i f m)).
Proof. split; [done|]. intros j Hj. simpl. by rewrite list_lookup_alter_ne. Qed.

Lemma cpu_at_entry i n o b m :
  cpu_at i n o b m -> 0 <= n < 2 ^ 31 - 4 ->
  exists c, entry i c m /\ ncli c = n /\ cproc c = o /\ (0 < n -> intena c = b).
Proof.
  intros [Hf (c & Hc & Hn & Ho & Hb) HI] Hr. exists c. split; [|done].
  split; [done|done|lia|]. intros. rewrite HI.
  by rewrite (proj2 (Z.eqb_neq _ _)) by lia.
Qed.

Lemma find_cpu_set_upd i j f b m :
  (forall c, apicid (f c) = apicid c) -> find_cpu m = Some i ->
  find_cpu (set_IF b (upd_cpu j f m)) = Some i.
Proof. intros. by apply (find_cpu_alter m). Qed.

Lemma mycpu_at i n o b m :
  cpu_at i n o b m -> n <> 0 -> mycpu m = Ok (i, m).
Proof.
  intros [Hf _ HI] Hn. apply mycpu_spec; [done|]. rewrite HI.
  by rewrite (proj2 (Z.eqb_neq _ _)).
Qed.

Lemma cpu_at_settle i n o b m :
  cpu_at i n o b m -> 0 <= n < 2 ^ 31 - 4 ->
  cpu_at i n o b (upd_cpu i (settle (eflags_IF m)) m).
Proof.
  intros Ha Hr. destruct (cpu_at_entry _ _ _ _ _ Ha Hr) as (c & He & Hn & Ho & Hb).
  pose proof (entry_settle i c m He) as [Hf' Hc' Hn' _]. split; [done| |apply Ha].
  eexists. split; [done|]. unfold settle.
  destruct (Z.eqb_spec (ncli c) 0) as [Hz|]; simpl; [|done].
  split_and!; try done. lia.
Qed.

Lemma myproc_at i n o b m :
  cpu_at i n o b m -> 0 <= n < 2 ^ 31 - 5 ->
  exists m', myproc m = Ok (o, m') /\ cpu_at i n o b m' /\ other_cpus i m m'.
Proof.
  intros Ha Hr. destruct (cpu_at_entry _ _ _ _ _ Ha ltac:(lia)) as (c & He & Hn & Ho & Hb).
  eexists. split_and!; [|by apply (cpu_at_settle _ _ _ _ _ Ha); lia|].
  - unfold myproc. mstep (pushcli_spec i m (entry_running _ _ _ He)).
    pose proof (entry_pushed i c m He ltac:(lia)) as He'.
    erewrite bind_ok by (apply mycpu_spec; [apply He'|done]). mrun.
    erewrite bind_ok by (eapply getcpu_spec, He'). mrun.
    rewrite (bind_ok _ _ _ _ _ (push_pop_spec i c m He)). mrun. simpl. by rewrite Ho.
  - split; [done|]. intros j Hj. simpl. by rewrite list_lookup_alter_ne.
Qed.

Lemma holding_at i n o b m lk :
  cpu_at i n o b m -> 0 <= n < 2 ^ 31 - 4 ->
  exists m', holding lk m = Ok (locked lk && bool_decide (lcpu lk = Some i), m') /\
    cpu_at i n o b m' /\ other_cpus i m m'.
Proof.
  intros Ha Hr. destruct (cpu_at_entry _ _ _ _ _ Ha Hr) as (c & He & Hn & Ho & Hb).
  eexists. split_and!; [by apply (holding_spec i c)|by apply (cpu_at_settle _ _ _ _ _ Ha)|].
  split; [done|]. intros j Hj. simpl. by rewrite list_lookup_alter_ne.
Qed.

Lemma acquire_at i n o b m lk :
  cpu_at i n o b m -> 0 <= n < 2 ^ 31 - 5 -> locked lk = false ->
  exists m', acquire lk m = Ok (Spinlock true (lname lk) (Some i), m') /\
    cpu_at i (n + 1) o b m' /\ other_cpus i m m'.
Proof.
  intros Ha Hr Hl. destruct (cpu_at_entry _ _ _ _ _ Ha ltac:(lia)) as (c & He & Hn & Ho & Hb).
  eexists. split_and!; [apply (acquire_spec i c); auto; lia| |].
  - pose proof (entry_pushed i c m He ltac:(lia)) as [Hf' Hc' Hn' HI'].
    split; [done| |by rewrite (proj2 (Z.eqb_neq (n + 1) 0)) by lia].
    eexists. split; [done|]. simpl. split_and!; [lia|done|]. intros _.
    destruct (Z.eqb_spec (ncli c) 0) as [Hz|Hz]; [|apply Hb; lia].
    destruct Ha as [_ _ ->]. by rewrite (proj2 (Z.eqb_eq n 0)) by lia.
  - split; [done|]. intros j Hj. simpl. by rewrite list_lookup_alter_ne.
Qed.

Lemma release_at i n o b m lk :
  cpu_at i (n + 1) o b m -> 0 <= n < 2 ^ 31 - 5 -> locked lk = true ->
  lcpu lk = Some i ->
  exists m', release lk m = Ok (Spinlock false (lname lk) None, m') /\
    cpu_at i n o b m' /\ other_cpus i m m'.
Proof.
  intros Ha Hr Hl Hi. destruct (cpu_at_entry _ _ _ _ _ Ha ltac:(lia)) as (c & He & Hn & Ho & Hb).
  eexists. split_and!; [apply (release_spec i c); auto; lia| |apply other_cpus_upd].
  destruct He as [Hf Hc _ _]. split.
  - by apply find_cpu_set_upd.
  - exists (popped c). split; [by apply upd_cpu_same|]. simpl.
    split_and!; [lia|done|]. intros. apply Hb. lia.
  - simpl. rewrite Hn, Hb by lia. destruct (Z.eqb_spec (n + 1) 1), (Z.eqb_spec n 0);
      simpl; done || lia.
Qed.

(** ** Instances *)

Definition cpu0 (n : Z) (b : bool) : cpu := Cpu 0 n b None.

Lemma acquire_held_panics_witness :
  acquire (Spinlock true "ptable" (Some 0%nat)) (Mach [cpu0 1 true; Cpu 1 0 false None] 0 false)
  = Panic "acquire".
Proof. apply (acquire_held_panics 0 (cpu0 1 true)); [by split|reflexivity..]. Defined.

Lemma acquire_release_witness :
  let m := Mach [cpu0 0 false; Cpu 1 0 false None] 0 true in
  (lk' ← acquire (initlock "ptable"); release lk') m =
  Ok (Spinlock false "ptable" None, upd_cpu 0 (settle (eflags_IF m)) m).
Proof. apply (acquire_release 0 (cpu0 0 false)); [by split|reflexivity..]. Defined.
