(* ===== verification/ProcData.v ===== *)
(** * The process table

    [lab-2/proc.h], [lab-2/param.h] and the trap frame of [lab-2/x86.h]: the
    data every process-management component works on.  A [struct proc] pointer
    is the index of its slot in [ptable.proc]; [0] is [None].  A kernel stack is
    represented by its page address and by the two structures the kernel keeps
    at its top, the trap frame ([tf]) and the saved context ([context]). *)

From S2P Require Import Prelude Layout.

Definition NPROC : nat := 64.
Definition NOFILE : nat := 16.
Definition KSTACKSIZE : Z := 4096.
Definition DEFAULT_BUDGET : Z := 5.
Definition MAXPRIORITY : Z := 2.
Definition TICKS_TO_PROMOTE : Z := 20.
Definition MAXTICKET : Z := 15.

Inductive procstate := UNUSED | EMBRYO | SLEEPING | RUNNABLE | RUNNING | ZOMBIE.

#[export] Instance procstate_eq_dec : EqDecision procstate.
Proof. solve_decision. Defined.

(** Addresses a process can sleep on: null, a process slot, or another kernel
    address. *)
Inductive ptr := Null | PProc (i : nat) | PAddr (a : Z).

#[export] Instance ptr_eq_dec : EqDecision ptr.
Proof. solve_decision. Defined.

Definition proc_ptr (o : option nat) : ptr :=
  match o with Some i => PProc i | None => Null end.

Record trapframe := Trapframe {
  tf_edi : Z;
  tf_esi : Z;
  tf_ebp : Z;
  tf_oesp : Z;
  tf_ebx : Z;
  tf_edx : Z;
  tf_ecx : Z;
  tf_eax : Z;
  tf_gs : Z;
  tf_fs : Z;
  tf_es : Z;
  tf_ds : Z;
  tf_trapno : Z;
  tf_err : Z;
  tf_eip : Z;
  tf_cs : Z;
  tf_eflags : Z;
  tf_esp : Z;
  tf_ss : Z
}.

Definition tf_zero : trapframe :=
  Trapframe 0 0 0 0 0 0 0 0 0 0 0 0 0 0 0 0 0 0 0.

Definition set_tf_eax (v : Z) (t : trapframe) : trapframe :=
  Trapframe (tf_edi t) (tf_esi t) (tf_ebp t) (tf_oesp t) (tf_ebx t) (tf_edx t) (tf_ecx t) v (tf_gs t) (tf_fs t) (tf_es t) (tf_ds t) (tf_trapno t) (tf_err t) (tf_eip t) (tf_cs t) (tf_eflags t) (tf_esp t) (tf_ss t).

(** The register context [swtch] saves, with the word above it on the kernel
    stack, where [forkret] returns to. *)
Record kcontext := Kcontext {
  c_edi : Z; c_esi : Z; c_ebx : Z; c_ebp : Z; c_eip : Z;
  c_ret : Z
}.

Record proc := Proc {
  sz : Z;
  pgdir : Z;
  kstack : Z;
  state : procstate;
  pid : Z;
  parent : option nat;
  tf : option trapframe;
  context : option kcontext;
  chan : ptr;
  killed : bool;
  ofile : list (option nat);
  cwd : option nat;
  name : list Z;
  priority : Z;
  budget : Z;
  original_priority : Z;
  tickets : Z;
  inuse : Z;
  ticks : Z
}.

Definition set_sz (v : Z) (p : proc) : proc :=
  Proc v (pgdir p) (kstack p) (state p) (pid p) (parent p) (tf p) (context p)
    (chan p) (killed p) (ofile p) (cwd p) (name p) (priority p) (budget p)
    (original_priority p) (tickets p) (inuse p) (ticks p).
Definition set_pgdir (v : Z) (p : proc) : proc :=
  Proc (sz p) v (kstack p) (state p) (pid p) (parent p) (tf p) (context p) (chan p)
    (killed p) (ofile p) (cwd p) (name p) (priority p) (budget p)
    (original_priority p) (tickets p) (inuse p) (ticks p).
Definition set_kstack (v : Z) (p : proc) : proc :=
  Proc (sz p) (pgdir p) v (state p) (pid p) (parent p) (tf p) (context p) (chan p)
    (killed p) (ofile p) (cwd p) (name p) (priority p) (budget p)
    (original_priority p) (tickets p) (inuse p) (ticks p).
Definition set_state (v : procstate) (p : proc) : proc :=
  Proc (sz p) (pgdir p) (kstack p) v (pid p) (parent p) (tf p) (context p) (chan p)
    (killed p) (ofile p) (cwd p) (name p) (priority p) (budget p)
    (original_priority p) (tickets p) (inuse p) (ticks p).
Definition set_pid (v : Z) (p : proc) : proc :=
  Proc (sz p) (pgdir p) (kstack p) (state p) v (parent p) (tf p) (context p)
    (chan p) (killed p) (ofile p) (cwd p) (name p) (priority p) (budget p)
    (original_priority p) (tickets p) (inuse p) (ticks p).
Definition set_parent (v : option nat) (p : proc) : proc :=
  Proc (sz p) (pgdir p) (kstack p) (state p) (pid p) v (tf p) (context p) (chan p)
    (killed p) (ofile p) (cwd p) (name p) (priority p) (budget p)
    (original_priority p) (tickets p) (inuse p) (ticks p).
Definition set_tf (v : option trapframe) (p : proc) : proc :=
  Proc (sz p) (pgdir p) (kstack p) (state p) (pid p) (parent p) v (context p)
    (chan p) (killed p) (ofile p) (cwd p) (name p) (priority p) (budget p)
    (original_priority p) (tickets p) (inuse p) (ticks p).
Definition set_context (v : option kcontext) (p : proc) : proc :=
  Proc (sz p) (pgdir p) (kstack p) (state p) (pid p) (parent p) (tf p) v (chan p)
    (killed p) (ofile p) (cwd p) (name p) (priority p) (budget p)
    (original_priority p) (tickets p) (inuse p) (ticks p).
Definition set_chan (v : ptr) (p : proc) : proc :=
  Proc (sz p) (pgdir p) (kstack p) (state p) (pid p) (parent p) (tf p) (context p)
    v (killed p) (ofile p) (cwd p) (name p) (priority p) (budget p)
    (original_priority p) (tickets p) (inuse p) (ticks p).
Definition set_killed (v : bool) (p : proc) : proc :=
  Proc (sz p) (pgdir p) (kstack p) (state p) (pid p) (parent p) (tf p) (context p)
    (chan p) v (ofile p) (cwd p) (name p) (priority p) (budget p)
    (original_priority p) (tickets p) (inuse p) (ticks p).
Definition set_ofile (v : list (option nat)) (p : proc) : proc :=
  Proc (sz p) (pgdir p) (kstack p) (state p) (pid p) (parent p) (tf p) (context p)
    (chan p) (killed p) v (cwd p) (name p) (priority p) (budget p)
    (original_priority p) (tickets p) (inuse p) (ticks p).
Definition set_cwd (v : option nat) (p : proc) : proc :=
  Proc (sz p) (pgdir p) (kstack p) (state p) (pid p) (parent p) (tf p) (context p)
    (chan p) (killed p) (ofile p) v (name p) (priority p) (budget p)
    (original_priority p) (tickets p) (inuse p) (ticks p).
Definition set_name (v : list Z) (p : proc) : proc :=
  Proc (sz p) (pgdir p) (kstack p) (state p) (pid p) (parent p) (tf p) (context p)
    (chan p) (killed p) (ofile p) (cwd p) v (priority p) (budget p)
    (original_priority p) (tickets p) (inuse p) (ticks p).
Definition set_priority (v : Z) (p : proc) : proc :=
  Proc (sz p) (pgdir p) (kstack p) (state p) (pid p) (parent p) (tf p) (context p)
    (chan p) (killed p) (ofile p) (cwd p) (name p) v (budget p)
    (original_priority p) (tickets p) (inuse p) (ticks p).
Definition set_budget (v : Z) (p : proc) : proc :=
  Proc (sz p) (pgdir p) (kstack p) (state p) (pid p) (parent p) (tf p) (context p)
    (chan p) (killed p) (ofile p) (cwd p) (name p) (priority p) v
    (original_priority p) (tickets p) (inuse p) (ticks p).
Definition set_original_priority (v : Z) (p : proc) : proc :=
  Proc (sz p) (pgdir p) (kstack p) (state p) (pid p) (parent p) (tf p) (context p)
    (chan p) (killed p) (ofile p) (cwd p) (name p) (priority p) (budget p) v
    (tickets p) (inuse p) (ticks p).
Definition set_tickets (v : Z) (p : proc) : proc :=
  Proc (sz p) (pgdir p) (kstack p) (state p) (pid p) (parent p) (tf p) (context p)
    (chan p) (killed p) (ofile p) (cwd p) (name p) (priority p) (budget p)
    (original_priority p) v (inuse p) (ticks p).
Definition set_inuse (v : Z) (p : proc) : proc :=
  Proc (sz p) (pgdir p) (kstack p) (state p) (pid p) (parent p) (tf p) (context p)
    (chan p) (killed p) (ofile p) (cwd p) (name p) (priority p) (budget p)
    (original_priority p) (tickets p) v (ticks p).
Definition set_ticks (v : Z) (p : proc) : proc :=
  Proc (sz p) (pgdir p) (kstack p) (state p) (pid p) (parent p) (tf p) (context p)
    (chan p) (killed p) (ofile p) (cwd p) (name p) (priority p) (budget p)
    (original_priority p) (tickets p) (inuse p) v.

(** A slot of the zero-initialised table. *)
Definition proc_zero : proc :=
  Proc 0 0 0 UNUSED 0 None None None Null false (replicate NOFILE None) None
    (replicate 16 0) 0 0 0 0 0 0.

#[export] Instance proc_inhabited : Inhabited proc := populate proc_zero.
