(* ===== verification/Proc.v ===== *)
(** * Processes

    The process management that the five versions of [proc.c] under [lab-2]
    share: allocation, [fork], [exit], [wait], [sleep]/[wakeup], [kill],
    [yield], [sched] and the system calls the course added.  The versions
    differ in what they do at a few places; these are the operations of
    [SchedPolicy].  What [proc.c] calls in other components is the interface
    [KernelEnv]. *)

From S2P Require Import Prelude CString Layout Spinlock ProcData.

(** An argument of [cprintf]. *)
Inductive arg := AInt (z : Z) | AStr (l : list Z) | ALit (s : string).

(** The kernel state: the executing CPU ([mac]), the spin locks by address,
    [ptable.proc], the static variables of [proc.c], the [ticks] counter, the
    console output, the state [env] of the other components and the state [pol]
    of the scheduling policy. *)
Record kst (E Q : Type) := Kst {
  mac : mach;
  locks : gmap nat spinlock;
  ptable : list proc;
  nextpid : Z;
  initproc : option nat;
  first : bool;
  kticks : Z;
  console : list (string * list arg);
  env : E;
  pol : Q
}.
Arguments Kst {E Q}.
Arguments mac {E Q}.
Arguments locks {E Q}.
Arguments ptable {E Q}.
Arguments nextpid {E Q}.
Arguments initproc {E Q}.
Arguments first {E Q}.
Arguments kticks {E Q}.
Arguments console {E Q}.
Arguments env {E Q}.
Arguments pol {E Q}.

(** The address of [ptable.lock]. *)
Definition ptable_lock : nat := 0.

Section State.
Context {E Q : Type}.
Implicit Types s : kst E Q.

Definition set_mac v s : kst E Q :=
  Kst v (locks s) (ptable s) (nextpid s) (initproc s) (first s) (kticks s)
    (console s) (env s) (pol s).
Definition set_locks v s : kst E Q :=
  Kst (mac s) v (ptable s) (nextpid s) (initproc s) (first s) (kticks s)
    (console s) (env s) (pol s).
Definition set_ptable v s : kst E Q :=
  Kst (mac s) (locks s) v (nextpid s) (initproc s) (first s) (kticks s)
    (console s) (env s) (pol s).
Definition set_nextpid v s : kst E Q :=
  Kst (mac s) (locks s) (ptable s) v (initproc s) (first s) (kticks s)
    (console s) (env s) (pol s).
Definition set_initproc v s : kst E Q :=
  Kst (mac s) (locks s) (ptable s) (nextpid s) v (first s) (kticks s)
    (console s) (env s) (pol s).
Definition set_first v s : kst E Q :=
  Kst (mac s) (locks s) (ptable s) (nextpid s) (initproc s) v (kticks s)
    (console s) (env s) (pol s).
Definition set_kticks v s : kst E Q :=
  Kst (mac s) (locks s) (ptable s) (nextpid s) (initproc s) (first s) v
    (console s) (env s) (pol s).
Definition set_console v s : kst E Q :=
  Kst (mac s) (locks s) (ptable s) (nextpid s) (initproc s) (first s) (kticks s)
    v (env s) (pol s).
Definition set_env v s : kst E Q :=
  Kst (mac s) (locks s) (ptable s) (nextpid s) (initproc s) (first s) (kticks s)
    (console s) v (pol s).
Definition set_pol v s : kst E Q :=
  Kst (mac s) (locks s) (ptable s) (nextpid s) (initproc s) (first s) (kticks s)
    (console s) (env s) v.

(** A call on the executing CPU. *)
Definition on_mac {A} (m : M mach A) : M (kst E Q) A := fun s =>
  match m (mac s) with
  | Ok (a, v) => Ok (a, set_mac v s)
  | Panic msg => Panic msg
  | Fault w => Fault w
  | Diverge => Diverge
  end.

Definition getp (i : nat) : M (kst E Q) proc :=
  s ← get; lift_opt "ptable.proc" (ptable s !! i).

Definition updp (i : nat) (f : proc -> proc) : M (kst E Q) unit :=
  modify (fun s => set_ptable (alter f i (ptable s)) s).

Definition cprintf (fmt : string) (args : list arg) : M (kst E Q) unit :=
  modify (fun s => set_console (console s ++ [(fmt, args)]) s).

Definition acquire_lk (l : nat) : M (kst E Q) unit :=
  s ← get;
  lk ← lift_opt "lock" (locks s !! l);
  lk' ← on_mac (acquire lk);
  modify (fun s => set_locks (<[l := lk']> (locks s)) s).

Definition release_lk (l : nat) : M (kst E Q) unit :=
  s ← get;
  lk ← lift_opt "lock" (locks s !! l);
  lk' ← on_mac (release lk);
  modify (fun s => set_locks (<[l := lk']> (locks s)) s).

Definition holding_lk (l : nat) : M (kst E Q) bool :=
  s ← get;
  lk ← lift_opt "lock" (locks s !! l);
  on_mac (holding lk).

(** The running process, which the callers dereference. *)
Definition curproc : M (kst E Q) nat :=
  o ← on_mac myproc; lift_opt "myproc" o.
End State.

(** ** Interfaces *)

(** What [proc.c] calls elsewhere.  [swtch] is the context switch of [swtch.S]
    seen from the process: it returns when the process is resumed.  [resume p] is
    the same switch seen from the scheduler: it runs the process [p] until [p]
    gives up the CPU.  [page_tf k]
    is what the page [k] holds where the trap frame goes, [kernel_word] the
    kernel's memory as [getcallerpcs] reads it, and the two addresses are those
    of [forkret] and [trapret]. *)
Class KernelEnv (E Q : Type) := {
  kalloc : M (kst E Q) (option Z);
  kfree : Z -> M (kst E Q) unit;
  setupkvm : M (kst E Q) (option Z);
  inituvm : Z -> M (kst E Q) unit;
  allocuvm : Z -> Z -> Z -> M (kst E Q) Z;
  deallocuvm : Z -> Z -> Z -> M (kst E Q) Z;
  freevm : Z -> M (kst E Q) unit;
  copyuvm : Z -> Z -> M (kst E Q) (option Z);
  switchuvm : nat -> M (kst E Q) unit;
  switchkvm : M (kst E Q) unit;
  filedup : nat -> M (kst E Q) nat;
  fileclose : nat -> M (kst E Q) unit;
  idup : option nat -> M (kst E Q) (option nat);
  iput : option nat -> M (kst E Q) unit;
  namei_root : M (kst E Q) (option nat);
  begin_op : M (kst E Q) unit;
  end_op : M (kst E Q) unit;
  iinit : Z -> M (kst E Q) unit;
  initlog : Z -> M (kst E Q) unit;
  swtch : M (kst E Q) unit;
  resume : nat -> M (kst E Q) unit;
  page_tf : Z -> trapframe;
  kernel_word : Z -> Z;
  forkret_addr : Z;
  trapret_addr : Z
}.

(** What a scheduling policy adds: to a slot [allocproc] found, to the start of
    the first process, to the copy [fork] makes of the parent [i] in the child
    [j], to the child that became runnable, to the process that exits, and to a
    process that [wakeup1] made runnable. *)
Class SchedPolicy (E Q : Type) := {
  alloc_hook : nat -> M (kst E Q) unit;
  init_hook : M (kst E Q) unit;
  copy_hook : nat -> nat -> M (kst E Q) unit;
  ready_hook : nat -> M (kst E Q) unit;
  exit_hook : nat -> M (kst E Q) unit;
  wake_hook : nat -> M (kst E Q) unit;
  tickets_valid : Z -> bool
}.

(** [lab-2/pstat.h]. *)
Record pstat := Pstat {
  ps_inuse : list Z;
  ps_tickets : list Z;
  ps_pid : list Z;
  ps_ticks : list Z
}.

Definition SEG_UCODE : Z := 3.
Definition SEG_UDATA : Z := 4.
Definition DPL_USER : Z := 3.
Definition FL_IF : Z := 0x200.
Definition ROOTDEV : Z := 1.

Definition initcode_name : list Z := [105; 110; 105; 116; 99; 111; 100; 101; 0].

Section Operations.
Context {E Q : Type} `{KE : KernelEnv E Q} `{SP : SchedPolicy E Q}.
Abbreviation K := (M (kst E Q)).

Definition slots : list nat := seq 0 NPROC.

Definition find_slot (f : proc -> bool) : K (option nat) :=
  find_each slots (fun i => p ← getp i; mret (if f p then Some i else None)).

Definition is_state (st : procstate) (p : proc) : bool :=
  bool_decide (state p = st).

Definition allocproc : K (option nat) :=
  acquire_lk ptable_lock ;;
  f ← find_slot (is_state UNUSED);
  match f with
  | None => release_lk ptable_lock ;; mret None
  | Some i =>
      updp i (set_state EMBRYO) ;;
      n ← gets nextpid;
      updp i (set_pid n) ;;
      modify (set_nextpid (i32 (n + 1))) ;;
      alloc_hook i ;;
      release_lk ptable_lock ;;
      k ← kalloc;
      match k with
      | None => updp i (set_kstack 0) ;; updp i (set_state UNUSED) ;; mret None
      | Some k =>
          updp i (set_kstack k) ;;
          updp i (set_tf (Some (page_tf k))) ;;
          updp i (set_context (Some (Kcontext 0 0 0 0 forkret_addr trapret_addr))) ;;
          mret (Some i)
      end
  end.

(** The trap frame [userinit] builds. *)
Definition initial_tf : trapframe :=
  let cs := Z.lor (Z.shiftl SEG_UCODE 3) DPL_USER in
  let ds := Z.lor (Z.shiftl SEG_UDATA 3) DPL_USER in
  Trapframe 0 0 0 0 0 0 0 0 0 0 ds ds 0 0 0 cs FL_IF PGSIZE ds.

Definition safestrcpy_name (i : nat) (src : list Z) : K unit :=
  p ← getp i;
  match safestrcpy_arr (name p) src 16 with
  | Ok l => updp i (set_name l)
  | _ => fault "safestrcpy"
  end.

Definition userinit : K unit :=
  np ← allocproc;
  modify (set_initproc np) ;;
  pg ← setupkvm;
  i ← lift_opt "userinit" np;
  match pg with
  | None => updp i (set_pgdir 0) ;; panic "userinit: out of memory?"
  | Some pg =>
      updp i (set_pgdir pg) ;;
      inituvm pg ;;
      updp i (set_sz PGSIZE) ;;
      updp i (set_tf (Some initial_tf)) ;;
      safestrcpy_name i initcode_name ;;
      d ← namei_root;
      updp i (set_cwd d) ;;
      acquire_lk ptable_lock ;;
      updp i (set_state RUNNABLE) ;;
      init_hook ;;
      release_lk ptable_lock
  end.

Definition growproc (n : Z) : K Z :=
  c ← curproc;
  p ← getp c;
  let finish (sz : Z) : K Z :=
    updp c (set_sz sz) ;; switchuvm c ;; mret 0 in
  if 0 <? n then
    sz ← allocuvm (pgdir p) (sz p) (w32 (sz p + n));
    if sz =? 0 then mret (-1) else finish sz
  else if n <? 0 then
    sz ← deallocuvm (pgdir p) (sz p) (w32 (sz p + n));
    if sz =? 0 then mret (-1) else finish sz
  else finish (sz p).

(** The body of [fork]'s loop over the open files. *)
Definition fork_file (c i fd : nat) : K unit :=
  p ← getp c;
  match ofile p !! fd with
  | Some (Some f) =>
      g ← filedup f;
      updp i (fun q => set_ofile (<[fd := Some g]> (ofile q)) q)
  | Some None => mret tt
  | None => fault "ofile"
  end.

Definition fork : K Z :=
  c ← curproc;
  np ← allocproc;
  match np with
  | None => mret (-1)
  | Some i =>
      p ← getp c;
      pg ← copyuvm (pgdir p) (sz p);
      match pg with
      | None =>
          q ← getp i;
          updp i (set_pgdir 0) ;;
          kfree (kstack q) ;;
          updp i (set_kstack 0) ;;
          updp i (set_state UNUSED) ;;
          mret (-1)
      | Some pg =>
          updp i (set_pgdir pg) ;;
          p ← getp c;
          updp i (set_sz (sz p)) ;;
          updp i (set_parent (Some c)) ;;
          copy_hook c i ;;
          t ← lift_opt "tf" (tf p);
          updp i (set_tf (Some t)) ;;
          updp i (set_tf (Some (set_tf_eax 0 t))) ;;
          for_each (seq 0 NOFILE) (fork_file c i) ;;
          d ← idup (cwd p);
          updp i (set_cwd d) ;;
          safestrcpy_name i (name p) ;;
          q ← getp i;
          acquire_lk ptable_lock ;;
          updp i (set_state RUNNABLE) ;;
          ready_hook i ;;
          release_lk ptable_lock ;;
          mret (pid q)
      end
  end.

(** [sched]: leaves the CPU to the scheduler; what follows the call runs when
    the process is resumed. *)
Definition sched : K unit :=
  c ← curproc;
  h ← holding_lk ptable_lock;
  if negb h then panic "sched ptable.lock"
  else
    i ← on_mac mycpu; cp ← on_mac (getcpu i);
    if negb (ncli cp =? 1) then panic "sched locks"
    else
      p ← getp c;
      if bool_decide (state p = RUNNING) then panic "sched running"
      else
        fl ← gets (fun s => eflags_IF (mac s));
        if (fl : bool) then panic "sched interruptible"
        else
          i ← on_mac mycpu; cp ← on_mac (getcpu i);
          swtch ;;
          i ← on_mac mycpu;
          on_mac (modify (upd_cpu i (set_intena (intena cp)))).

(** What every scheduler does with the process [j] it chose, on CPU [i]; the
    policy's bookkeeping [after] runs before [c->proc] is cleared. *)
Definition run_slot (i j : nat) (after : K unit) : K unit :=
  on_mac (modify (upd_cpu i (set_cproc (Some j)))) ;;
  switchuvm j ;;
  updp j (set_state RUNNING) ;;
  resume j ;;
  switchkvm ;;
  after ;;
  on_mac (modify (upd_cpu i (set_cproc None))).

Definition yield : K unit :=
  acquire_lk ptable_lock ;;
  c ← curproc;
  updp c (set_state RUNNABLE) ;;
  sched ;;
  release_lk ptable_lock.

Definition forkret : K unit :=
  release_lk ptable_lock ;;
  f ← gets first;
  when f (modify (set_first false) ;; iinit ROOTDEV ;; initlog ROOTDEV).

Definition sleep (ch : ptr) (lk : option nat) : K unit :=
  p ← on_mac myproc;
  match p with
  | None => panic "sleep"
  | Some c =>
      match lk with
      | None => panic "sleep without lk"
      | Some l =>
          when (negb (l =? ptable_lock)%nat)
            (acquire_lk ptable_lock ;; release_lk l) ;;
          updp c (set_chan ch) ;;
          updp c (set_state SLEEPING) ;;
          sched ;;
          updp c (set_chan Null) ;;
          when (negb (l =? ptable_lock)%nat)
            (release_lk ptable_lock ;; acquire_lk l)
      end
  end.

Definition wake_slot (ch : ptr) (i : nat) : K unit :=
  p ← getp i;
  when (is_state SLEEPING p && bool_decide (chan p = ch))
    (updp i (set_state RUNNABLE) ;; wake_hook i).

Definition wakeup1 (ch : ptr) : K unit := for_each slots (wake_slot ch).

Definition wakeup (ch : ptr) : K unit :=
  acquire_lk ptable_lock ;; wakeup1 ch ;; release_lk ptable_lock.

Definition close_file (c fd : nat) : K unit :=
  p ← getp c;
  match ofile p !! fd with
  | Some (Some f) =>
      fileclose f ;; updp c (fun q => set_ofile (<[fd := None]> (ofile q)) q)
  | Some None => mret tt
  | None => fault "ofile"
  end.

Definition reparent_slot (c i : nat) : K unit :=
  p ← getp i;
  when (bool_decide (parent p = Some c))
    (ip ← gets initproc;
     updp i (set_parent ip) ;;
     p ← getp i;
     when (is_state ZOMBIE p) (wakeup1 (proc_ptr ip))).

(** [exit] up to the point where it holds [ptable.lock] and is a zombie. *)
Definition exit_locked (c : nat) : K unit :=
  p ← getp c;
  wakeup1 (proc_ptr (parent p)) ;;
  for_each slots (reparent_slot c) ;;
  updp c (set_state ZOMBIE) ;;
  exit_hook c.

Definition exit : K unit :=
  c ← curproc;
  ip ← gets initproc;
  if bool_decide (ip = Some c) then panic "init exiting"
  else
    for_each (seq 0 NOFILE) (close_file c) ;;
    begin_op ;;
    p ← getp c;
    iput (cwd p) ;;
    end_op ;;
    updp c (set_cwd None) ;;
    acquire_lk ptable_lock ;;
    exit_locked c ;;
    sched ;;
    panic "zombie exit".

(** [wait]'s reaping of the zombie [i]. *)
Definition reap (i : nat) : K Z :=
  p ← getp i;
  kfree (kstack p) ;;
  updp i (set_kstack 0) ;;
  freevm (pgdir p) ;;
  updp i (set_pid 0) ;;
  updp i (set_parent None) ;;
  updp i (fun q => set_name (<[0%nat := 0]> (name q)) q) ;;
  updp i (set_killed false) ;;
  updp i (set_state UNUSED) ;;
  mret (pid p).

(** One scan of the table: the pid of a reaped child, or whether there are
    children. *)
Fixpoint wait_scan (c : nat) (l : list nat) (havekids : bool)
  : K (option Z * bool) :=
  match l with
  | [] => mret (None, havekids)
  | i :: l' =>
      p ← getp i;
      if negb (bool_decide (parent p = Some c)) then wait_scan c l' havekids
      else if is_state ZOMBIE p then
        n ← reap i; release_lk ptable_lock ;; mret (Some n, true)
      else wait_scan c l' true
  end.

Fixpoint wait_loop (fuel : nat) (c : nat) : K Z :=
  match fuel with
  | O => diverge
  | S fuel' =>
      r ← wait_scan c slots false;
      match r with
      | (Some n, _) => mret n
      | (None, havekids) =>
          p ← getp c;
          if (negb havekids || killed p)%bool then
            release_lk ptable_lock ;; mret (-1)
          else sleep (PProc c) (Some ptable_lock) ;; wait_loop fuel' c
      end
  end.

Definition wait (fuel : nat) : K Z :=
  c ← curproc; acquire_lk ptable_lock ;; wait_loop fuel c.

Definition kill (n : Z) : K Z :=
  acquire_lk ptable_lock ;;
  f ← find_slot (fun p => pid p =? n);
  match f with
  | Some i =>
      updp i (set_killed true) ;;
      p ← getp i;
      when (is_state SLEEPING p) (updp i (set_state RUNNABLE)) ;;
      release_lk ptable_lock ;; mret 0
  | None => release_lk ptable_lock ;; mret (-1)
  end.

Definition state_name (st : procstate) : string :=
  match st with
  | UNUSED => "unused" | EMBRYO => "embryo" | SLEEPING => "sleep "
  | RUNNABLE => "runble" | RUNNING => "run   " | ZOMBIE => "zombie"
  end.

(** The call stack [procdump] prints: up to the first zero. *)
Fixpoint print_pcs (l : list Z) : K unit :=
  match l with
  | [] => mret tt
  | a :: l' =>
      if a =? 0 then mret tt else cprintf " %p" [AInt a] ;; print_pcs l'
  end.

Definition dump_slot (i : nat) : K unit :=
  p ← getp i;
  if is_state UNUSED p then mret tt
  else
    cprintf "%d %s %s" [AInt (pid p); ALit (state_name (state p)); AStr (cstr (name p))] ;;
    when (is_state SLEEPING p)
      (c ← lift_opt "context" (context p);
       print_pcs (getcallerpcs kernel_word (c_ebp c) 10)) ;;
    cprintf "\n" [].

Definition procdump : K unit := for_each slots dump_slot.

(** ** The system calls of the course *)

Definition setpriority (n prio : Z) : K Z :=
  if (prio <? 0) || (MAXPRIORITY <? prio) then
    cprintf "Invalid priority value detected" [] ;; mret (-1)
  else
    f ← find_slot (fun p => pid p =? n);
    match f with
    | Some i =>
        updp i (set_priority prio) ;; updp i (set_budget DEFAULT_BUDGET) ;; mret 0
    | None => cprintf "Invalid pid value detected" [] ;; mret (-1)
    end.

Definition getpriority (n : Z) : K Z :=
  f ← find_slot (fun p => pid p =? n);
  match f with
  | Some i =>
      p ← getp i;
      if is_state UNUSED p then
        cprintf "Process with pid %d is in UNUSED state" [AInt n] ;; mret (-1)
      else
        when (priority p =? -1) (cprintf "Invalid pid value detected" []) ;;
        mret (priority p)
  | None => cprintf "Invalid pid value detected" [] ;; mret (-1)
  end.

Definition settickets (n : Z) : K Z :=
  o ← on_mac myproc;
  if negb (tickets_valid n) then
    cprintf "Invalid numTickets value detected" [] ;; mret (-1)
  else
    acquire_lk ptable_lock ;;
    c ← lift_opt "settickets" o;
    updp c (set_tickets n) ;;
    release_lk ptable_lock ;;
    mret 0.

(** [getpinfo]: fills the caller's structure with one entry per used slot, in
    table order; [None] is the null pointer. *)
Definition info_slot (acc : nat * pstat) (i : nat) : K (nat * pstat) :=
  p ← getp i;
  let '(n, ps) := acc in
  if is_state UNUSED p then mret (n, ps)
  else mret (S n, Pstat (<[n := inuse p]> (ps_inuse ps))
                    (<[n := tickets p]> (ps_tickets ps))
                    (<[n := pid p]> (ps_pid ps)) (<[n := ticks p]> (ps_ticks ps))).

Definition getpinfo (procstate : option pstat) : K (Z * option pstat) :=
  acquire_lk ptable_lock ;;
  match procstate with
  | None =>
      cprintf "Invalid procstate value detected" [] ;; mret (-1, None)
  | Some ps =>
      acc ← fold_each slots (O, ps) info_slot;
      release_lk ptable_lock ;;
      mret (0, Some (snd acc))
  end.
End Operations.
