(* ===== verification/ProcSpec.v ===== *)
(** * What the process operations do

    Functional specifications of the operations of [Proc], for every policy and
    environment that obey the laws below. *)

From S2P Require Import Prelude CString Spinlock ProcData Proc.

(** ** The process table without the policy's fields *)

(** [strip] clears the fields only a policy writes; two slots are the same
    process when they are equal up to these fields. *)
Definition strip (p : proc) : proc :=
  set_priority 0 (set_budget 0 (set_original_priority 0 (set_tickets 0
    (set_ticks 0 p)))).

Definition core_eq (l l' : list proc) : Prop := map strip l = map strip l'.

#[export] Instance core_eq_equiv : Equivalence core_eq.
Proof. split; unfold core_eq; [by intros ?|by intros ??|by intros ??? -> ->]. Qed.

#[export] Instance core_eq_length : Proper (core_eq ==> eq) (@length proc).
Proof.
  intros l l' H. apply (f_equal length) in H. by rewrite !length_map in H.
Qed.

Lemma core_eq_lookup l l' i p :
  core_eq l l' -> l !! i = Some p -> exists p', l' !! i = Some p' /\ strip p = strip p'.
Proof.
  intros H Hi. apply (f_equal (lookup i)) in H. rewrite !list_lookup_fmap, Hi in H.
  destruct (l' !! i) as [p'|]; [|done]. exists p'. split; [done|].
  by apply (inj Some (strip p) (strip p')) in H.
Qed.

(** A change of a slot that touches no policy field. *)
Class CoreUpd (f : proc -> proc) := core_upd p : strip (f p) = f (strip p).
#[export] Hint Extern 0 (CoreUpd _) => intros ?; reflexivity : typeclass_instances.

#[export] Instance core_eq_alter f i :
  CoreUpd f -> Proper (core_eq ==> core_eq) (alter f i).
Proof.
  intros Hf l l' H. unfold core_eq in *. apply list_eq. intros j.
  rewrite !list_lookup_fmap. apply (f_equal (lookup j)) in H.
  rewrite !list_lookup_fmap in H.
  destruct (decide (i = j)) as [<-|]; [|by rewrite !list_lookup_alter_ne].
  rewrite !list_lookup_alter_eq.
  destruct (l !! i) as [p|], (l' !! i) as [p'|]; try done.
  apply (inj Some (strip p) (strip p')) in H.
  change (Some (strip (f p)) = Some (strip (f p'))). by rewrite !core_upd, H.
Qed.

(** The arrays of a slot have their sizes, and the name holds bytes. *)
Record wf_proc (p : proc) : Prop := WfProc {
  wf_ofile : length (ofile p) = NOFILE;
  wf_name : length (name p) = 16%nat;
  wf_bytes : bytes (name p)
}.

Lemma cstr_zeros str zs rest :
  Forall (fun c => c <> 0) str -> (1 <= length zs)%nat -> Forall (eq 0) zs ->
  cstr (str ++ zs ++ rest) = str.
Proof.
  intros Hs Hz H0. induction Hs as [|c str Hc Hs IH]; simpl.
  - destruct zs; [simpl in Hz; lia|]. by apply Forall_cons in H0 as [<- _].
  - rewrite (proj2 (Z.eqb_neq c 0)) by done. by rewrite IH.
Qed.

Lemma cstr_nonzero l : Forall (fun c => c <> 0) (cstr l).
Proof.
  induction l as [|c l IH]; simpl; [done|].
  destruct (Z.eqb_spec c 0); [done|]. by constructor.
Qed.

Lemma bytes_cstr l : bytes l -> bytes (cstr l).
Proof.
  unfold bytes. induction 1 as [|c l Hc Hl IH]; simpl; [by constructor|].
  destruct (c =? 0); by constructor.
Qed.

(** Copying a name: the result is a name, the same C string cut after 15
    characters. *)
Lemma safestrcpy_name_ok (d src : list Z) :
  length d = 16%nat -> length src = 16%nat -> bytes d -> bytes src ->
  exists l, safestrcpy_arr d src 16 = Ok l /\ length l = 16%nat /\ bytes l /\
    cstr l = cstr (take 15 src).
Proof.
  intros Hd Hs Bd Bs. unfold safestrcpy_arr.
  destruct (safestrcpy_spec 0 (length d) 16 (d ++ src)) as (zs & Hz & Hz1 & Hl & Hrun).
  { by apply Forall_app. }
  { done. }
  { rewrite length_app. lia. }
  { rewrite length_app. change (Z.to_nat 16) with 16%nat. lia. }
  { left. change (Z.to_nat 16) with 16%nat. lia. }
  change (Z.to_nat (16 - 1)) with 15%nat in *. change (Z.to_nat 16) with 16%nat in *.
  assert (slice (length d) 15 (d ++ src) = take 15 src) as Hsl.
  { unfold slice. by rewrite drop_app_length. }
  rewrite Hsl in *. set (str := cstr (take 15 src)) in *.
  rewrite Hrun. unfold mbind, res_bind. eexists. split; [done|].
  assert (take (length d) (splice 0 (str ++ zs) (d ++ src)) =
          str ++ zs ++ drop (length str + length zs) d) as Heq.
  { unfold splice. rewrite take_0, app_nil_l, Nat.add_0_l, length_app.
    rewrite drop_app_le by lia. rewrite <- !app_assoc.
    rewrite (app_assoc zs), (app_assoc str).
    replace (length d) with (length (str ++ zs ++ drop (length str + length zs) d)).
    - by rewrite take_app_length.
    - rewrite !length_app, length_drop. lia. }
  rewrite Heq. split_and!.
  - rewrite !length_app, length_drop. lia.
  - apply Forall_app_2; [apply bytes_cstr; by apply Forall_take|].
    apply Forall_app_2; [|by apply Forall_drop].
    eapply Forall_impl; [exact Hz|]. intros x <-. lia.
  - apply cstr_zeros; [apply cstr_nonzero|done|done].
Qed.

(** ** Kernel states *)

Section State.
Context {E Q : Type}.
Implicit Types s : kst E Q.

(** CPU [i] executes at nesting depth [n], runs the process [o], has the
    interrupt flag [b] at depth 0, and holds [ptable.lock] iff [hd]; if it
    does not, the lock is free. *)
Record kctx (i : nat) (n : Z) (o : option nat) (b hd : bool) s : Prop := Kctx {
  kc_at : cpu_at i n o b (mac s);
  kc_lock : exists lk, locks s !! ptable_lock = Some lk /\ locked lk = hd /\
                       (hd = true -> lcpu lk = Some i)
}.

(** The same kernel state up to the policy's fields, the console, the state of
    the other components and the entry of the executing CPU. *)
Record keq (i : nat) s s' : Prop := Keq {
  ke_ptable : core_eq (ptable s) (ptable s');
  ke_nextpid : nextpid s' = nextpid s;
  ke_initproc : initproc s' = initproc s;
  ke_first : first s' = first s;
  ke_kticks : kticks s' = kticks s;
  ke_cpus : other_cpus i (mac s) (mac s');
  ke_locks : forall l, l <> ptable_lock -> locks s' !! l = locks s !! l
}.

#[export] Instance keq_preorder i : PreOrder (keq i).
Proof.
  split; [by split|].
  intros s1 s2 s3 [H1 H2 H3 H4 H5 H6 H7] [G1 G2 G3 G4 G5 G6 G7].
  split; [by etrans|congruence..|by etrans|].
  intros l Hl. by rewrite G7, H7.
Qed.

(** An assignment to a slot. *)
Definition upd_slot (j : nat) (f : proc -> proc) s : kst E Q :=
  set_ptable (alter f j (ptable s)) s.

#[export] Instance keq_upd_slot i j f `{!CoreUpd f} :
  Proper (keq i ==> keq i) (upd_slot j f).
Proof. intros s s' [H1 H2 H3 H4 H5 H6 H7]. split; try done. by apply core_eq_alter. Qed.

#[export] Instance keq_set_nextpid i v : Proper (keq i ==> keq i) (set_nextpid v).
Proof. intros s s' []. by split. Qed.

Lemma kctx_upd i n o b hd j f s : kctx i n o b hd s -> kctx i n o b hd (upd_slot j f s).
Proof. by intros []. Qed.

Lemma kctx_nextpid i n o b hd v s :
  kctx i n o b hd s -> kctx i n o b hd (set_nextpid v s).
Proof. by intros []. Qed.

Lemma keq_length i s s' : keq i s s' -> length (ptable s') = length (ptable s).
Proof. intros []. symmetry. by apply core_eq_length. Qed.

Lemma keq_slot i s s' j p :
  keq i s s' -> ptable s !! j = Some p ->
  exists p', ptable s' !! j = Some p' /\ strip p = strip p'.
Proof. intros []. by apply core_eq_lookup. Qed.

Lemma upd_slot_length j f s : length (ptable (upd_slot j f s)) = length (ptable s).
Proof. apply length_alter. Qed.

Lemma upd_slot_eq j f s p :
  ptable s !! j = Some p -> ptable (upd_slot j f s) !! j = Some (f p).
Proof. intros H. simpl. by rewrite list_lookup_alter_eq, H. Qed.

Lemma upd_slot_ne j k f s : j <> k -> ptable (upd_slot j f s) !! k = ptable s !! k.
Proof. intros H. simpl. by rewrite list_lookup_alter_ne. Qed.

(** *** Rules *)

Context (F : failure -> Prop).

Lemma wp_getp j p (Qp : proc -> kst E Q -> Prop) s :
  ptable s !! j = Some p -> Qp p s -> wpx F (getp j) Qp s.
Proof. intros H HQ. unfold getp. wbind. apply wp_get. by rewrite H. Qed.

Lemma getp_run j p s : ptable s !! j = Some p -> getp j s = Ok (p, s).
Proof. intros H. unfold getp. mrun. by rewrite H. Qed.

Lemma wp_updp j f (Qp : unit -> kst E Q -> Prop) s :
  Qp tt (upd_slot j f s) -> wpx F (updp j f) Qp s.
Proof. done. Qed.

Lemma on_mac_ok {A} (m : M mach A) s a v :
  m (mac s) = Ok (a, v) -> on_mac m s = Ok (a, set_mac v s).
Proof. unfold on_mac. by intros ->. Qed.

Lemma keq_mac i s v : other_cpus i (mac s) v -> keq i s (set_mac v s).
Proof. intros. by split. Qed.

Lemma wp_myproc i n o b hd (Qp : option nat -> kst E Q -> Prop) s :
  kctx i n o b hd s -> 0 <= n < 2 ^ 31 - 5 ->
  (forall v, kctx i n o b hd (set_mac v s) -> keq i s (set_mac v s) ->
     Qp o (set_mac v s)) ->
  wpx F (on_mac myproc) Qp s.
Proof.
  intros [Ha Hl] Hn HQ. destruct (myproc_at _ _ _ _ _ Ha Hn) as (v & Hm & Ha' & Ho).
  eapply wp_ok; [by apply on_mac_ok|]. apply HQ; [by split|by apply keq_mac].
Qed.

Lemma wp_curproc i n c b hd (Qp : nat -> kst E Q -> Prop) s :
  kctx i n (Some c) b hd s -> 0 <= n < 2 ^ 31 - 5 ->
  (forall v, kctx i n (Some c) b hd (set_mac v s) -> keq i s (set_mac v s) ->
     Qp c (set_mac v s)) ->
  wpx F curproc Qp s.
Proof.
  intros Hk Hn HQ. unfold curproc. wbind. eapply wp_myproc; [done..|].
  intros v Hk' He. eapply wp_lift_opt; [done|]. by apply HQ.
Qed.

Lemma wp_acquire i n o b (Qp : unit -> kst E Q -> Prop) s :
  kctx i n o b false s -> 0 <= n < 2 ^ 31 - 5 ->
  (forall v L, let s' := set_locks L (set_mac v s) in
     kctx i (n + 1) o b true s' -> keq i s s' -> Qp tt s') ->
  wpx F (acquire_lk ptable_lock) Qp s.
Proof.
  intros [Ha (lk & Hl & Hf & _)] Hn HQ.
  destruct (acquire_at _ _ _ _ _ lk Ha Hn Hf) as (v & Hm & Ha' & Ho).
  unfold acquire_lk. wbind. apply wp_get. wbind. rewrite Hl. apply wp_ret.
  wbind. eapply wp_ok; [by apply on_mac_ok|]. apply wp_modify.
  apply (HQ v (<[ptable_lock := Spinlock true (lname lk) (Some i)]> (locks s))).
  - split; [done|]. eexists. split; [apply lookup_insert_eq|done].
  - split; try done. intros l Hne. by apply lookup_insert_ne.
Qed.

Lemma wp_release i n o b (Qp : unit -> kst E Q -> Prop) s :
  kctx i (n + 1) o b true s -> 0 <= n < 2 ^ 31 - 5 ->
  (forall v L, let s' := set_locks L (set_mac v s) in
     kctx i n o b false s' -> keq i s s' -> Qp tt s') ->
  wpx F (release_lk ptable_lock) Qp s.
Proof.
  intros [Ha (lk & Hl & Hf & Hi)] Hn HQ.
  destruct (release_at _ _ _ _ _ lk Ha Hn Hf (Hi eq_refl)) as (v & Hm & Ha' & Ho).
  unfold release_lk. wbind. apply wp_get. wbind. rewrite Hl. apply wp_ret.
  wbind. eapply wp_ok; [by apply on_mac_ok|]. apply wp_modify.
  apply (HQ v (<[ptable_lock := Spinlock false (lname lk) None]> (locks s))).
  - split; [done|]. eexists. split; [apply lookup_insert_eq|done].
  - split; try done. intros l Hne. by apply lookup_insert_ne.
Qed.

Lemma wp_holding i n o b hd (Qp : bool -> kst E Q -> Prop) s :
  kctx i n o b hd s -> 0 <= n < 2 ^ 31 - 4 ->
  (forall v, kctx i n o b hd (set_mac v s) -> keq i s (set_mac v s) ->
     Qp hd (set_mac v s)) ->
  wpx F (holding_lk ptable_lock) Qp s.
Proof.
  intros [Ha (lk & Hl & Hf & Hi)] Hn HQ.
  destruct (holding_at _ _ _ _ _ lk Ha Hn) as (v & Hm & Ha' & Ho).
  unfold holding_lk. wbind. apply wp_get. wbind. rewrite Hl. apply wp_ret.
  eapply wp_ok; [by apply on_mac_ok|].
  replace (locked lk && bool_decide (lcpu lk = Some i)) with hd.
  - apply HQ; [split; [done|by exists lk]|by apply keq_mac].
  - rewrite Hf. destruct hd; [|done]. by rewrite bool_decide_true by auto.
Qed.

Lemma wp_cprintf fmt args (Qp : unit -> kst E Q -> Prop) s :
  Qp tt (set_console (console s ++ [(fmt, args)]) s) ->
  wpx F (cprintf fmt args) Qp s.
Proof. done. Qed.

(** The first slot that satisfies a test. *)
Definition first_slot (f : proc -> bool) (l : list proc) : option nat :=
  fst <$> list_find (fun p => f p = true) l.

Lemma find_each_slots (f : proc -> bool) (l : list proc) k s :
  drop k (ptable s) = l ->
  find_each (seq k (length l)) (fun i => p ← getp i; mret (if f p then Some i else None)) s
  = Ok ((fun j => k + j)%nat <$> first_slot f l, s).
Proof.
  revert k. induction l as [|p l IH]; intros k Hl; [done|].
  cbn [length seq find_each].
  assert (ptable s !! k = Some p) as Hk.
  { rewrite <- (Nat.add_0_r k), <- lookup_drop, Hl. done. }
  mrun. mstep (getp_run k p s Hk).
  unfold first_slot. cbn [list_find].
  destruct (f p) eqn:Hf.
  - rewrite decide_True by done. mrun. simpl. by rewrite Nat.add_0_r.
  - rewrite decide_False by done. mrun. rewrite IH.
    2:{ replace (S k) with (k + 1)%nat by lia. by rewrite <- drop_drop, Hl. }
    unfold first_slot. destruct (list_find _ l) as [[j q]|]; [|done].
    simpl. do 3 f_equal. lia.
Qed.

Lemma find_slot_spec (f : proc -> bool) s :
  length (ptable s) = NPROC -> find_slot f s = Ok (first_slot f (ptable s), s).
Proof.
  intros Hl. unfold find_slot, slots. rewrite <- Hl.
  rewrite (find_each_slots f (ptable s) 0 s) by done.
  by destruct (first_slot f (ptable s)).
Qed.

Lemma wp_find_slot (f : proc -> bool) (Qp : option nat -> kst E Q -> Prop) s :
  length (ptable s) = NPROC -> Qp (first_slot f (ptable s)) s ->
  wpx F (find_slot f) Qp s.
Proof. intros Hl HQ. eapply wp_ok; [by apply find_slot_spec|done]. Qed.

Lemma setpriority_run n prio j s :
  0 <= prio <= MAXPRIORITY -> length (ptable s) = NPROC ->
  first_slot (fun p => pid p =? n) (ptable s) = Some j ->
  setpriority n prio s =
  Ok (0, upd_slot j (set_budget DEFAULT_BUDGET) (upd_slot j (set_priority prio) s)).
Proof.
  intros Hp Hl Hf. unfold setpriority. destruct (Z.ltb_spec prio 0); [lia|].
  destruct (Z.ltb_spec MAXPRIORITY prio); [lia|]. cbn [orb].
  by rewrite (bind_ok _ _ _ _ _ (find_slot_spec _ s Hl)), Hf.
Qed.

Lemma first_slot_Some f l j :
  first_slot f l = Some j -> exists p, l !! j = Some p /\ f p = true.
Proof.
  intros H. apply fmap_Some in H as ([k p] & H & ->).
  apply list_find_Some in H as (? & ? & _). eauto.
Qed.

Lemma first_slot_strip f l :
  (forall p, f (strip p) = f p) -> first_slot f (map strip l) = first_slot f l.
Proof.
  intros Hf. unfold first_slot. induction l as [|p l IH]; [done|].
  cbn [map list_find]. rewrite Hf. case_decide; [done|].
  destruct (list_find _ (map strip l)) as [[]|], (list_find _ l) as [[]|]; simpl in *;
    by simplify_eq.
Qed.

Lemma first_slot_core f l l' :
  (forall p, f (strip p) = f p) -> core_eq l l' -> first_slot f l = first_slot f l'.
Proof. intros Hf H. by rewrite <- (first_slot_strip f l), <- (first_slot_strip f l'), H. Qed.

Lemma first_slot_None f l : existsb f l = false <-> first_slot f l = None.
Proof.
  unfold first_slot. induction l as [|p l IH]; [done|]. cbn [existsb list_find].
  destruct (f p) eqn:Hp; [by rewrite decide_True by done|].
  rewrite decide_False by congruence. rewrite orb_false_l, IH.
  by destruct (list_find _ l) as [[]|].
Qed.

Lemma first_slot_cons f p l :
  first_slot f (p :: l) = if f p then Some 0%nat else S <$> first_slot f l.
Proof.
  unfold first_slot. cbn [list_find]. destruct (f p) eqn:Hp.
  - by rewrite decide_True.
  - rewrite decide_False by congruence. by destruct (list_find _ l) as [[]|].
Qed.

Lemma first_slot_alter f g l j :
  (forall p, f (g p) = f p) -> first_slot f (alter g j l) = first_slot f l.
Proof.
  intros Hg. revert j. induction l as [|p l IH]; intros j; [done|].
  destruct j as [|j].
  - change (alter g 0%nat (p :: l)) with (g p :: l). by rewrite !first_slot_cons, Hg.
  - change (alter g (S j) (p :: l)) with (p :: alter g j l).
    by rewrite !first_slot_cons, IH.
Qed.

Lemma wf_proc_strip p p' : strip p = strip p' -> wf_proc p -> wf_proc p'.
Proof.
  intros He [H1 H2 H3]. pose proof (f_equal name He : name p = name p') as Hn.
  pose proof (f_equal ofile He : ofile p = ofile p') as Ho.
  split; by rewrite <- ?Hn, <- ?Ho.
Qed.

Lemma wf_keq i s s' : keq i s s' -> Forall wf_proc (ptable s) -> Forall wf_proc (ptable s').
Proof.
  intros [Hc _ _ _ _ _ _] Hwf. apply Forall_lookup. intros j p' Hj.
  destruct (core_eq_lookup _ _ j p' (symmetry Hc) Hj) as (p & Hp & He).
  eapply wf_proc_strip; [by symmetry|]. by eapply Forall_lookup_1.
Qed.
End State.

(** ** Laws of the interfaces *)

(** [neutral F m]: [m] changes the kernel state only up to [keq], or stops in a
    way [F] allows. *)
Definition neutral (F : failure -> Prop) {E Q A} (m : M (kst E Q) A) : Prop :=
  forall i n o b hd s, kctx i n o b hd s -> 0 <= n < 2 ^ 31 - 8 ->
    wpx F m (fun _ s' => kctx i n o b hd s' /\ keq i s s') s.

(** Fields that only a policy writes. *)
Lemma neutral_updp {E Q} F j (f : proc -> proc) :
  (forall p, strip (f p) = strip p) -> neutral F (updp j f : M (kst E Q) unit).
Proof.
  intros Hf i n o b hd s Hk Hn. split; [by destruct Hk|]. split; try done.
  apply list_eq. intros k. rewrite !list_lookup_fmap. simpl.
  destruct (decide (j = k)) as [<-|]; [|by rewrite list_lookup_alter_ne].
  rewrite list_lookup_alter_eq. destruct (ptable s !! j) as [p|]; [|done]. simpl. by rewrite Hf.
Qed.

(** The same of a call about a slot [j], which exists. *)
Definition neutral_at (F : failure -> Prop) {E Q A} (j : nat) (m : M (kst E Q) A) : Prop :=
  forall i n o b hd s, kctx i n o b hd s -> 0 <= n < 2 ^ 31 - 8 ->
    (j < length (ptable s))%nat ->
    wpx F m (fun _ s' => kctx i n o b hd s' /\ keq i s s') s.

Class PolicyOk (F : failure -> Prop) (E Q : Type) `{SchedPolicy E Q} : Prop := {
  alloc_hook_ok j : neutral_at F j (alloc_hook j);
  init_hook_ok : neutral F init_hook;
  copy_hook_ok i j : neutral_at F i (copy_hook i j);
  ready_hook_ok j : neutral_at F j (ready_hook j);
  exit_hook_ok j : neutral_at F j (exit_hook j);
  wake_hook_ok j : neutral_at F j (wake_hook j)
}.

Class EnvOk (F : failure -> Prop) (E Q : Type) `{KernelEnv E Q} : Prop := {
  kalloc_ok : neutral F kalloc;
  kfree_ok k : neutral F (kfree k);
  copyuvm_ok pg sz : neutral F (copyuvm pg sz);
  freevm_ok pg : neutral F (freevm pg);
  filedup_ok f : neutral F (filedup f);
  filedup_same f s a s' : filedup f s = Ok (a, s') -> a = f;
  idup_ok d : neutral F (idup d);
  idup_same d s a s' : idup d s = Ok (a, s') -> a = d;
  allocuvm_ok pg a b : neutral F (allocuvm pg a b);
  deallocuvm_ok pg a b : neutral F (deallocuvm pg a b);
  switchuvm_ok c : neutral F (switchuvm c)
}.

Section Specs.
Context {E Q : Type} `{KE : KernelEnv E Q} `{SP : SchedPolicy E Q}.
Context (F : failure -> Prop) `{!EnvOk F E Q} `{!PolicyOk F E Q}.
Implicit Types s : kst E Q.

Lemma wp_neutral {A} (m : M (kst E Q) A) i n o b hd (Qp : A -> kst E Q -> Prop) s :
  neutral F m -> kctx i n o b hd s -> 0 <= n < 2 ^ 31 - 8 ->
  (forall a s', kctx i n o b hd s' -> keq i s s' -> Qp a s') ->
  wpx F m Qp s.
Proof.
  intros Hm Hk Hn HQ. eapply wp_mono; [|by eapply Hm].
  intros a s' [? ?]. by apply HQ.
Qed.

Lemma wp_hook {A} j (m : M (kst E Q) A) i n o b hd (Qp : A -> kst E Q -> Prop) s :
  neutral_at F j m -> kctx i n o b hd s -> 0 <= n < 2 ^ 31 - 8 ->
  (j < length (ptable s))%nat ->
  (forall a s', kctx i n o b hd s' -> keq i s s' -> Qp a s') ->
  wpx F m Qp s.
Proof.
  intros Hm Hk Hn Hj HQ. eapply wp_mono; [|by eapply Hm].
  intros a s' [? ?]. by apply HQ.
Qed.

Lemma wp_neutral_eq {A} (m : M (kst E Q) A) i n o b hd (Qp : A -> kst E Q -> Prop) s :
  neutral F m -> kctx i n o b hd s -> 0 <= n < 2 ^ 31 - 8 ->
  (forall a s', m s = Ok (a, s') -> kctx i n o b hd s' -> keq i s s' -> Qp a s') ->
  wpx F m Qp s.
Proof.
  intros Hm Hk Hn HQ. specialize (Hm _ _ _ _ _ _ Hk Hn). unfold wpx in *.
  destruct (m s) as [[a s']| | |]; try done. destruct Hm. by apply HQ.
Qed.

Lemma neutral_ret {A} (a : A) : neutral F (mret a : M (kst E Q) A).
Proof. intros i n o b hd s Hk Hn. by apply wp_ret. Qed.

(** *** Loops over the table *)

Lemma core_eq_take k l l' : core_eq l l' -> core_eq (take k l) (take k l').
Proof. unfold core_eq. intros H. by rewrite <- !firstn_map, H. Qed.

Lemma core_eq_drop k l l' : core_eq l l' -> core_eq (drop k l) (drop k l').
Proof. unfold core_eq. intros H. by rewrite <- !skipn_map, H. Qed.

Lemma core_eq_app l1 l1' l2 l2' :
  core_eq l1 l1' -> core_eq l2 l2' -> core_eq (l1 ++ l2) (l1' ++ l2').
Proof. unfold core_eq. intros H1 H2. by rewrite !map_app, H1, H2. Qed.

Lemma core_eq_map g `{Hg : !CoreUpd g} l l' : core_eq l l' -> core_eq (map g l) (map g l').
Proof.
  unfold core_eq. intros H. rewrite !map_map.
  rewrite !(map_ext _ (fun p => g (strip p)) (fun p => Hg p)).
  rewrite <- !(map_map strip g). by rewrite H.
Qed.

Lemma take_map_alter (g : proc -> proc) k l :
  (k < length l)%nat ->
  take (S k) (alter g k l) ++ map g (drop (S k) (alter g k l)) =
  take k l ++ map g (drop k l).
Proof.
  intros Hk. destruct (lookup_lt_is_Some_2 l k Hk) as [p Hp].
  rewrite (take_S_r _ _ (g p)) by (by rewrite list_lookup_alter_eq, Hp).
  rewrite (drop_S l p k Hp), <- app_assoc. f_equal.
  - by rewrite take_alter_ge by lia.
  - by rewrite drop_alter_lt by lia.
Qed.

(** A loop over the slots whose body updates each slot by [g]. *)
Lemma for_slots (body : nat -> M (kst E Q) unit) (g : proc -> proc) `{!CoreUpd g}
    i n o b hd s :
  kctx i n o b hd s -> length (ptable s) = NPROC ->
  (forall j p s', kctx i n o b hd s' -> initproc s' = initproc s ->
     ptable s' !! j = Some p ->
     wpx F (body j) (fun _ s'' => kctx i n o b hd s'' /\
                                  keq i (upd_slot j g s') s'') s') ->
  wpx F (for_each slots body)
    (fun _ s' => kctx i n o b hd s' /\
                 keq i (set_ptable (map g (ptable s)) s) s') s.
Proof.
  intros Hk Hl Hb.
  assert (forall m k s0, kctx i n o b hd s0 -> initproc s0 = initproc s ->
    length (ptable s0) = (k + m)%nat ->
    wpx F (for_each (seq k m) body) (fun _ s' => kctx i n o b hd s' /\
      keq i (set_ptable (take k (ptable s0) ++ map g (drop k (ptable s0))) s0) s') s0)
    as Hgen.
  { induction m as [|m IH]; intros k s0 Hk0 Hi0 Hl0; cbn [seq for_each].
    - apply wp_ret. split; [done|]. rewrite drop_ge, take_ge by lia. simpl.
      rewrite app_nil_r. by destruct s0.
    - destruct (lookup_lt_is_Some_2 (ptable s0) k) as [p Hp]; [lia|].
      wbind. eapply wp_mono; [|apply (Hb k p s0 Hk0)]; [|done|done].
      cbn beta. intros [] s1 [Hk1 H1].
      eapply wp_mono; [|apply (IH (S k) s1 Hk1)].
      + cbn beta. intros [] s2 [Hk2 H2]. split; [done|]. etrans; [|exact H2].
        destruct H1 as [C1 G1 G2 G3 G4 G5 G6]. split; try done. simpl in *.
        rewrite <- take_map_alter by lia.
        apply core_eq_app; [by apply core_eq_take|].
        by apply core_eq_map, core_eq_drop.
      + destruct H1. simpl in *. congruence.
      + rewrite (keq_length _ _ _ H1), upd_slot_length. lia. }
  unfold slots. rewrite <- Hl.
  eapply wp_mono; [|apply (Hgen (length (ptable s)) 0%nat s Hk eq_refl)]; [|done].
  cbn beta. by rewrite take_0, drop_0.
Qed.

(** *** [wakeup1], [wakeup], [kill] *)

Definition wake (ch : ptr) (p : proc) : proc :=
  if is_state SLEEPING p && bool_decide (chan p = ch)
  then set_state RUNNABLE p else p.

#[local] Instance wake_core ch : CoreUpd (wake ch).
Proof.
  intros p. unfold wake, is_state. simpl.
  by destruct (bool_decide (state p = SLEEPING)), (bool_decide (chan p = ch)).
Qed.

Lemma upd_slot_id j g s p :
  ptable s !! j = Some p -> g p = p -> upd_slot j g s = s.
Proof.
  intros Hp Hg. unfold upd_slot. rewrite (list_alter_ext _ id (ptable s) (ptable s)).
  - rewrite list_alter_id by done. by destruct s.
  - intros p' Hp'. by simplify_eq.
  - done.
Qed.
Lemma wakeup1_spec ch i n o b s :
  kctx i n o b true s -> 0 <= n < 2 ^ 31 - 8 -> length (ptable s) = NPROC ->
  wpx F (wakeup1 ch) (fun _ s' => kctx i n o b true s' /\
    keq i (set_ptable (map (wake ch) (ptable s)) s) s') s.
Proof using All.
  intros Hk Hn Hl. apply for_slots; [apply _|done|done|].
  intros j p s1 Hk1 _ Hp. unfold wake_slot. wbind. apply (wp_getp _ _ _ _ _ Hp).
  assert (wake ch p = if is_state SLEEPING p && bool_decide (chan p = ch)
    then set_state RUNNABLE p else p) as Hw by done.
  apply wp_when; intros Hc; rewrite Hc in Hw.
  - wbind. apply wp_updp. eapply wp_hook; [apply wake_hook_ok|by apply kctx_upd|done| |].
    { rewrite upd_slot_length. by eapply lookup_lt_Some. }
    intros _ s2 Hk2 H2. split; [done|]. etrans; [|exact H2].
    unfold upd_slot. erewrite list_alter_ext; [reflexivity| |done].
    intros q Hq. by simplify_eq.
  - split; [done|]. by rewrite (upd_slot_id _ _ _ _ Hp Hw).
Qed.

Lemma set_ptable_keq i l s s' :
  keq i s s' -> core_eq l (ptable s') -> keq i (set_ptable l s) s'.
Proof. by intros [] ?. Qed.

Lemma keq_set_ptable i (g : list proc -> list proc) s s' :
  (forall l l', core_eq l l' -> core_eq (g l) (g l')) -> keq i s s' ->
  keq i (set_ptable (g (ptable s)) s) (set_ptable (g (ptable s')) s').
Proof. intros Hg []. split; try done. by apply Hg. Qed.

(** [wakeup] makes runnable exactly the processes that sleep on the channel. *)
Lemma wakeup_spec ch i n o b s :
  kctx i n o b false s -> 0 <= n < 2 ^ 31 - 9 -> length (ptable s) = NPROC ->
  wpx F (wakeup ch) (fun _ s' => kctx i n o b false s' /\
    keq i (set_ptable (map (wake ch) (ptable s)) s) s') s.
Proof using All.
  intros Hk Hn Hl. unfold wakeup. wbind. eapply wp_acquire; [done|lia|].
  intros v L s1 Hk1 H1. wbind.
  eapply wp_mono; [|apply (wakeup1_spec ch _ _ _ _ s1 Hk1); [lia|done]].
  cbn beta. intros [] s2 [Hk2 H2]. eapply wp_release; [done|lia|].
  intros v' L' s3 Hk3 H3. split; [done|].
  etrans; [|exact H3]. etrans; [|exact H2].
  apply (keq_set_ptable i (map (wake ch)) s s1); [|done]. intros l l' Hll; by apply (core_eq_map (wake ch)).
Qed.

Definition killp (p : proc) : proc :=
  if is_state SLEEPING p then set_state RUNNABLE (set_killed true p)
  else set_killed true p.

#[local] Instance killp_core : CoreUpd killp.
Proof.
  intros p. unfold killp, is_state. simpl. by destruct (bool_decide _).
Qed.

Lemma upd_slot_upd j f g s : upd_slot j g (upd_slot j f s) = upd_slot j (g ∘ f) s.
Proof. unfold upd_slot. simpl. by rewrite list_alter_alter_eq. Qed.

Lemma upd_slot_ext j f g s p :
  ptable s !! j = Some p -> f p = g p -> upd_slot j f s = upd_slot j g s.
Proof.
  intros Hp He. unfold upd_slot. f_equal. apply list_alter_ext; [|done].
  intros q Hq. by simplify_eq.
Qed.

(** [kill n] marks the first slot whose pid is [n] and wakes it if it sleeps;
    it fails iff there is none. *)
Lemma kill_spec pd i n o b s :
  kctx i n o b false s -> 0 <= n < 2 ^ 31 - 9 -> length (ptable s) = NPROC ->
  wpx F (kill pd) (fun r s' => kctx i n o b false s' /\
    match first_slot (fun p => pid p =? pd) (ptable s) with
    | Some j => r = 0 /\ keq i (upd_slot j killp s) s'
    | None => r = -1 /\ keq i s s'
    end) s.
Proof using All.
  intros Hk Hn Hl. unfold kill. wbind. eapply wp_acquire; [done|lia|].
  intros v L s1 Hk1 H1. wbind. apply wp_find_slot; [done|]. simpl ptable.
  destruct (first_slot _ _) as [j|] eqn:Hf.
  - destruct (first_slot_Some _ _ _ Hf) as (p & Hp & _).
    wbind. apply wp_updp. wbind. eapply wp_getp; [by apply (upd_slot_eq j)|].
    wbind. assert (forall s2, s2 = upd_slot j killp s1 -> kctx i (n + 1) o b true s2 ->
      wpx F (release_lk ptable_lock ;; mret 0) (fun r s' => kctx i n o b false s' /\
        r = 0 /\ keq i (upd_slot j killp s) s') s2) as Hrel.
    { intros s2 -> Hk2. wbind. eapply wp_release; [done|lia|].
      intros v' L' s3 Hk3 H3. apply wp_ret. split_and!; [done|done|].
      etrans; [|exact H3]. by apply (keq_upd_slot i j killp). }
    apply wp_when; intros Hs.
    + apply wp_updp. apply Hrel; [|by do 2 apply kctx_upd].
      rewrite upd_slot_upd. apply (upd_slot_ext j _ _ s1 p Hp).
      unfold killp. change (is_state SLEEPING p = true) in Hs. by rewrite Hs.
    + apply Hrel; [|by apply kctx_upd]. apply (upd_slot_ext j _ _ s1 p Hp).
      unfold killp. change (is_state SLEEPING p = false) in Hs. by rewrite Hs.
  - wbind. eapply wp_release; [done|lia|]. intros v' L' s2 Hk2 H2.
    apply wp_ret. split_and!; [done|done|by etrans].
Qed.

(** *** [allocproc] *)

Lemma keq_slot_step i j f g s s' `{!CoreUpd f} :
  keq i (upd_slot j g s) s' -> keq i (upd_slot j (f ∘ g) s) (upd_slot j f s').
Proof. intros H. rewrite <- upd_slot_upd. by apply (keq_upd_slot i j f). Qed.

Ltac slot_step f H :=
  let H' := fresh in
  pose proof (keq_slot_step _ _ f _ _ _ H) as H'; clear H; rename H' into H.

(** The slot [allocproc] returns, and the slot it leaves when there is no page
    for the kernel stack. *)
Definition allocated (n k : Z) (p : proc) : proc :=
  set_context (Some (Kcontext 0 0 0 0 forkret_addr trapret_addr))
    (set_tf (Some (page_tf k)) (set_kstack k (set_pid n (set_state EMBRYO p)))).

Definition alloc_failed (n : Z) (p : proc) : proc :=
  set_state UNUSED (set_kstack 0 (set_pid n (set_state EMBRYO p))).

Lemma allocproc_spec i n o b s :
  kctx i n o b false s -> 0 <= n < 2 ^ 31 - 9 -> length (ptable s) = NPROC ->
  wpx F allocproc (fun r s' => kctx i n o b false s' /\
    match first_slot (is_state UNUSED) (ptable s) with
    | None => r = None /\ keq i s s'
    | Some j =>
        let s0 := set_nextpid (i32 (nextpid s + 1)) s in
        (r = None /\ keq i (upd_slot j (alloc_failed (nextpid s)) s0) s') \/
        (r = Some j /\ exists k,
           keq i (upd_slot j (allocated (nextpid s) k) s0) s')
    end) s.
Proof using All.
  intros Hk Hn Hl. unfold allocproc. wbind. eapply wp_acquire; [done|lia|].
  intros v L s1 Hk1 H1. wbind. apply wp_find_slot; [done|]. simpl ptable.
  destruct (first_slot _ _) as [j|] eqn:Hf.
  2:{ wbind. eapply wp_release; [done|lia|]. intros v' L' s2 Hk2 H2.
      apply wp_ret. split_and!; [done|done|by etrans]. }
  wbind. apply wp_updp. wbind. apply wp_gets. wbind. apply wp_updp.
  wbind. apply wp_modify. wbind.
  set (s0 := set_nextpid (i32 (nextpid s + 1)) s).
  eapply (wp_hook j _ i (n + 1) o b true); [apply alloc_hook_ok|by destruct Hk1|lia| |].
  { simpl. rewrite !length_alter. destruct (first_slot_Some _ _ _ Hf) as (q & Hq & _).
    by eapply lookup_lt_Some. }
  intros _ s2 Hk2 H2. wbind. eapply wp_release; [done|lia|].
  intros v' L' s3 Hk3 H3. wbind.
  eapply wp_neutral; [apply kalloc_ok|done|lia|]. intros k s4 Hk4 H4.
  assert (keq i (upd_slot j (set_pid (nextpid s) ∘ set_state EMBRYO) s0) s4) as Hc.
  { etrans; [|exact H4]. etrans; [|exact H3]. etrans; [|exact H2].
    rewrite <- upd_slot_upd.
    apply (keq_upd_slot i j (set_pid (nextpid s)) _
      (upd_slot j (set_state EMBRYO) (set_nextpid (i32 (nextpid s + 1)) s1))).
    by apply (keq_upd_slot i j), (keq_set_nextpid i). }
  destruct k as [k|]; do 2 (wbind; apply wp_updp).
  - wbind. apply wp_updp. apply wp_ret. split; [by destruct Hk4|]. right.
    split; [done|]. exists k. slot_step (set_kstack k) Hc.
    slot_step (set_tf (Some (page_tf k))) Hc.
    by slot_step (set_context (Some (Kcontext 0 0 0 0 forkret_addr trapret_addr))) Hc.
  - apply wp_ret. split; [by destruct Hk4|]. left. split; [done|].
    slot_step (set_kstack 0) Hc. by slot_step (set_state UNUSED) Hc.
Qed.

(** *** [fork] *)

Lemma keq_own i j g s s' q :
  keq i (upd_slot j g s) s' -> ptable s !! j = Some q ->
  exists q', ptable s' !! j = Some q' /\ strip (g q) = strip q'.
Proof. intros H Hq. eapply keq_slot; [done|]. by apply upd_slot_eq. Qed.

Lemma keq_other i j k g s s' q :
  keq i (upd_slot j g s) s' -> j <> k -> ptable s !! k = Some q ->
  exists q', ptable s' !! k = Some q' /\ strip q = strip q'.
Proof. intros H Hne Hq. eapply keq_slot; [done|]. by rewrite upd_slot_ne. Qed.

Lemma keq_const i j g s s' q :
  keq i (upd_slot j g s) s' -> ptable s !! j = Some q ->
  keq i (upd_slot j (fun _ => g q) s) s'.
Proof.
  intros H Hq. etrans; [|exact H]. by rewrite (upd_slot_ext j _ g s q).
Qed.

(** The files of the child: the parent's open files over what the slot held. *)
Definition copied (pf : list (option nat)) (q : list (option nat)) (fds : list nat) :=
  foldl (fun l fd => match pf !! fd with
                     | Some (Some f) => <[fd := Some f]> l
                     | _ => l
                     end) q fds.

Lemma fork_files_spec c j i n o b g s0 pc :
  j <> c -> ptable s0 !! c = Some pc -> length (ofile pc) = NOFILE ->
  0 <= n < 2 ^ 31 - 9 ->
  forall m k s1, kctx i n o b false s1 -> (k + m = NOFILE)%nat ->
  keq i (upd_slot j g s0) s1 ->
  wpx F (for_each (seq k m) (fork_file c j)) (fun _ s' =>
    kctx i n o b false s' /\
    keq i (upd_slot j ((fun q => set_ofile (copied (ofile pc) (ofile q) (seq k m)) q)
                         ∘ g) s0) s') s1.
Proof using All.
  intros Hne Hc Hof Hn m. revert g. induction m as [|m IH]; intros g k s1 Hk1 Hkm H1.
  { apply wp_ret. split; [done|]. etrans; [|exact H1].
    unfold upd_slot. erewrite list_alter_ext; [reflexivity| |done].
    intros q Hq. unfold compose. simpl. by destruct (g q). }
  cbn [seq for_each]. wbind. unfold fork_file at 1. wbind.
  destruct (keq_other _ _ _ _ _ _ _ H1 Hne Hc) as (pc' & Hc' & Hst).
  eapply wp_getp; [done|]. pose proof (f_equal ofile Hst) as Ho. simpl in Ho.
  rewrite <- Ho. destruct (lookup_lt_is_Some_2 (ofile pc) k) as [[f|] Hf]; [lia|..];
    rewrite Hf.
  - wbind. eapply wp_neutral_eq; [apply filedup_ok|done|lia|].
    intros a s2 Hd Hk2 H2. rewrite (filedup_same _ _ _ _ Hd). apply wp_updp.
    eapply wp_mono; [|apply (IH ((fun q => set_ofile (<[k := Some f]> (ofile q)) q) ∘ g));
      [by apply kctx_upd|lia|]].
    + cbn beta. intros [] s3 [Hk3 H3]. split; [done|]. etrans; [|exact H3].
      unfold upd_slot. erewrite list_alter_ext; [reflexivity| |done].
      intros q Hq. unfold compose, copied. simpl. by rewrite Hf.
    + apply keq_slot_step; [done|]. by etrans.
  - apply wp_ret.
    eapply wp_mono; [|apply (IH g); [done|lia|done]].
    cbn beta. intros [] s3 [Hk3 H3]. split; [done|]. etrans; [|exact H3].
    unfold upd_slot. erewrite list_alter_ext; [reflexivity| |done].
    intros q Hq. unfold compose, copied. simpl. by rewrite Hf.
Qed.

(** What [fork] makes of the slot [q] for a child of the process [pc] in slot
    [c] with trap frame [t]. *)
Record forked (pc : proc) (t : trapframe) (c : nat) (n : Z) (q child : proc)
    : Prop := Forked {
  fk_state : state child = RUNNABLE;
  fk_pid : pid child = n;
  fk_parent : parent child = Some c;
  fk_sz : sz child = sz pc;
  fk_tf : tf child = Some (set_tf_eax 0 t);
  fk_ofile : ofile child = copied (ofile pc) (ofile q) (seq 0 NOFILE);
  fk_cwd : cwd child = cwd pc;
  fk_name : cstr (name child) = cstr (take 15 (name pc));
  fk_wf : length (name child) = 16%nat /\ bytes (name child);
  fk_killed : killed child = killed q
}.

(** The code of [fork] after the page table was copied. *)
Definition fork_finish (c j : nat) (pg : Z) : M (kst E Q) Z :=
  updp j (set_pgdir pg) ;;
  p ← getp c;
  updp j (set_sz (sz p)) ;;
  updp j (set_parent (Some c)) ;;
  copy_hook c j ;;
  t ← lift_opt "tf" (tf p);
  updp j (set_tf (Some t)) ;;
  updp j (set_tf (Some (set_tf_eax 0 t))) ;;
  for_each (seq 0 NOFILE) (fork_file c j) ;;
  d ← idup (cwd p);
  updp j (set_cwd d) ;;
  safestrcpy_name j (name p) ;;
  q ← getp j;
  acquire_lk ptable_lock ;;
  updp j (set_state RUNNABLE) ;;
  ready_hook j ;;
  release_lk ptable_lock ;;
  mret (pid q).

Lemma wp_safestrcpy_name j src q (Qp : unit -> kst E Q -> Prop) s :
  ptable s !! j = Some q -> length (name q) = 16%nat -> bytes (name q) ->
  length src = 16%nat -> bytes src ->
  (forall l, length l = 16%nat -> bytes l -> cstr l = cstr (take 15 src) ->
     Qp tt (upd_slot j (set_name l) s)) ->
  wpx F (safestrcpy_name j src) Qp s.
Proof.
  intros Hq Hl Hb Hs Hbs HQ. unfold safestrcpy_name. wbind.
  apply (wp_getp _ _ _ _ _ Hq).
  destruct (safestrcpy_name_ok _ _ Hl Hs Hb Hbs) as (l & -> & H1 & H2 & H3).
  apply wp_updp. by apply HQ.
Qed.

Lemma fork_finish_spec c j pg i n b g s0 s1 pc q t :
  kctx i n (Some c) b false s1 -> 0 <= n < 2 ^ 31 - 9 ->
  keq i (upd_slot j g s0) s1 -> j <> c ->
  ptable s0 !! c = Some pc -> wf_proc pc -> tf pc = Some t ->
  ptable s0 !! j = Some q -> length (name (g q)) = 16%nat -> bytes (name (g q)) ->
  wpx F (fork_finish c j pg) (fun r s' => kctx i n (Some c) b false s' /\
    r = pid (g q) /\ exists child,
      keq i (upd_slot j (fun _ => child) s0) s' /\
      forked pc t c (pid (g q)) (g q) child) s1.
Proof using All.
  intros Hk Hn H1 Hne Hc Hwf Ht Hq Hnm Hby. destruct Hwf as [Hw1 Hw2 Hw3].
  unfold fork_finish. wbind. apply wp_updp. slot_step (set_pgdir pg) H1.
  wbind. destruct (keq_other _ _ _ _ _ _ _ H1 Hne Hc) as (pc' & Hc' & Hst).
  eapply wp_getp; [exact Hc'|].
  rewrite <- (f_equal sz Hst : sz pc = sz pc').
  rewrite <- (f_equal tf Hst : tf pc = tf pc'), Ht.
  rewrite <- (f_equal cwd Hst : cwd pc = cwd pc').
  rewrite <- (f_equal name Hst : name pc = name pc').
  wbind. apply wp_updp. slot_step (set_sz (sz pc)) H1.
  wbind. apply wp_updp. slot_step (set_parent (Some c)) H1.
  wbind. eapply wp_hook; [apply copy_hook_ok|by do 3 apply kctx_upd|lia| |].
  { do 2 rewrite upd_slot_length. by eapply lookup_lt_Some. }
  intros _ s2 Hk2 H2. assert (H3 := transitivity H1 H2). clear H1 H2 Hc' Hst pc'.
  wbind. eapply wp_lift_opt; [done|].
  wbind. apply wp_updp. slot_step (set_tf (Some t)) H3.
  wbind. apply wp_updp. slot_step (set_tf (Some (set_tf_eax 0 t))) H3.
  wbind. eapply wp_mono; [|eapply (fork_files_spec c j i n _ b _ s0 pc Hne Hc Hw1);
    [lia|by do 2 apply kctx_upd|done|exact H3]].
  cbn beta. intros [] s4 [Hk4 H4]. clear H3.
  wbind. eapply wp_neutral_eq; [apply idup_ok|done|lia|].
  intros d s5 Hd Hk5 H5. rewrite (idup_same _ _ _ _ Hd).
  assert (H6 := transitivity H4 H5). clear H4 H5 Hd.
  wbind. apply wp_updp. slot_step (set_cwd (cwd pc)) H6.
  destruct (keq_own _ _ _ _ _ _ H6 Hq) as (q6 & Hq6 & Hst).
  pose proof (f_equal name Hst : name (g q) = name q6) as Hn6.
  wbind. eapply wp_safestrcpy_name; [exact Hq6|by rewrite <- Hn6..|done|done|].
  intros l Hl1 Hl2 Hl3. slot_step (set_name l) H6.
  destruct (keq_own _ _ _ _ _ _ H6 Hq) as (q7 & Hq7 & Hst7).
  wbind. eapply wp_getp; [exact Hq7|].
  rewrite <- (f_equal pid Hst7 : pid (g q) = pid q7).
  wbind. eapply wp_acquire; [by do 2 apply kctx_upd|lia|].
  intros v L s8 Hk8 H8. assert (H9 := transitivity H6 H8). clear H6 H8.
  wbind. apply wp_updp. slot_step (set_state RUNNABLE) H9.
  wbind. eapply wp_hook; [apply ready_hook_ok|by apply kctx_upd|lia| |].
  { rewrite (keq_length _ _ _ H9), upd_slot_length. by eapply lookup_lt_Some. }
  intros _ s10 Hk10 H10. wbind. eapply wp_release; [done|lia|].
  intros v' L' s11 Hk11 H11. apply wp_ret. split_and!; [done|done|].
  eexists. split.
  - eapply keq_const; [|done]. etrans; [exact H9|]. by etrans.
  - by split.
Qed.

Lemma forked_allocated pc t c n k q child :
  forked pc t c (pid (allocated n k q)) (allocated n k q) child ->
  forked pc t c n q child.
Proof. intros []. by split. Qed.

Lemma first_slot_ne f l j k p :
  first_slot f l = Some j -> l !! k = Some p -> f p = false -> j <> k.
Proof.
  intros Hf Hk Hp ->. destruct (first_slot_Some _ _ _ Hf) as (p' & Hp' & Hft).
  simplify_eq. congruence.
Qed.

(** [fork]: in the first unused slot, a runnable copy of the parent with the
    next pid, whose system call returns 0; or -1, and then the slot is unused
    again and no other slot has changed. *)
Lemma fork_spec i n c b s pc t :
  kctx i n (Some c) b false s -> 0 <= n < 2 ^ 31 - 9 ->
  length (ptable s) = NPROC -> Forall wf_proc (ptable s) ->
  ptable s !! c = Some pc -> state pc <> UNUSED -> tf pc = Some t ->
  wpx F fork (fun r s' => kctx i n (Some c) b false s' /\
    match first_slot (is_state UNUSED) (ptable s) with
    | None => r = -1 /\ keq i s s'
    | Some j =>
        let s0 := set_nextpid (i32 (nextpid s + 1)) s in
        (r = -1 /\ exists q, state q = UNUSED /\ kstack q = 0 /\
           keq i (upd_slot j (fun _ => q) s0) s') \/
        (r = nextpid s /\ exists q child, ptable s !! j = Some q /\
           keq i (upd_slot j (fun _ => child) s0) s' /\
           forked pc t c (nextpid s) q child)
    end) s.
Proof using All.
  intros Hk Hn Hl Hwf Hc Hst Ht. unfold fork. wbind.
  eapply wp_curproc; [done|lia|]. intros v Hk0 H0. wbind.
  eapply wp_mono; [|apply (allocproc_spec i n _ b _ Hk0); [lia|done]].
  cbn beta. simpl ptable. intros np s1 [Hk1 H1].
  destruct (first_slot _ _) as [j|] eqn:Hf.
  2:{ destruct H1 as [-> H1]. apply wp_ret. split_and!; [done|done|by etrans]. }
  set (s0 := set_nextpid (i32 (nextpid s + 1)) s).
  assert (Hj : exists q, ptable s !! j = Some q).
  { destruct (first_slot_Some _ _ _ Hf) as (q & Hq & _). by exists q. }
  destruct Hj as [q Hq].
  assert (keq i s0 (set_nextpid (i32 (nextpid s + 1)) (set_mac v s))) as Hs0
    by (by apply keq_set_nextpid).
  cbn zeta in H1. destruct H1 as [[-> H1]|[-> [k H1]]].
  { apply wp_ret. split; [done|]. left. split; [done|].
    exists (alloc_failed (nextpid s) q). split; [done|]. split; [done|].
    apply (keq_const i j (alloc_failed (nextpid s))); [|done]. etrans; [|exact H1].
    by apply (keq_upd_slot i j (alloc_failed (nextpid s))). }
  assert (H2 : keq i (upd_slot j (allocated (nextpid s) k) s0) s1).
  { etrans; [|exact H1]. by apply (keq_upd_slot i j (allocated (nextpid s) k)). }
  assert (Hne : j <> c).
  { eapply first_slot_ne; [done..|]. unfold is_state. by rewrite bool_decide_false. }
  destruct (keq_other _ _ _ _ _ _ _ H2 Hne (Hc : ptable s0 !! c = Some pc))
    as (pc' & Hc' & _).
  assert (wf_proc pc /\ wf_proc q) as [Hwp Hwq]
    by (split; eapply Forall_lookup_1; eauto).
  wbind. eapply wp_getp; [exact Hc'|]. wbind.
  eapply wp_neutral; [apply copyuvm_ok|done|lia|]. intros pg s3 Hk3 H3.
  assert (H4 := transitivity H2 H3).
  destruct pg as [pg|].
  - change (wpx F (fork_finish c j pg) (fun r s' => kctx i n (Some c) b false s' /\
      ((r = -1 /\ exists q, state q = UNUSED /\ kstack q = 0 /\
           keq i (upd_slot j (fun _ => q) s0) s') \/
        (r = nextpid s /\ exists q child, ptable s !! j = Some q /\
           keq i (upd_slot j (fun _ => child) s0) s' /\
           forked pc t c (nextpid s) q child))) s3).
    eapply wp_mono; [|eapply (fork_finish_spec c j pg i n b
      (allocated (nextpid s) k) s0 s3 pc q t); eauto; apply Hwq].
    cbn beta. intros r s5 (Hk5 & -> & child & H5 & Hfk). split; [done|]. right.
    split; [done|]. exists q, child. split_and!; [done|done|].
    by apply forked_allocated in Hfk.
  - wbind. destruct (keq_own _ _ _ _ _ _ H4 (Hq : ptable s0 !! j = Some q)) as (q4 & Hq4 & _).
    eapply wp_getp; [exact Hq4|]. wbind. apply wp_updp. slot_step (set_pgdir 0) H4.
    wbind. eapply wp_neutral; [apply kfree_ok|by apply kctx_upd|lia|].
    intros _ s5 Hk5 H5. assert (H6 := transitivity H4 H5).
    wbind. apply wp_updp. slot_step (set_kstack 0) H6.
    wbind. apply wp_updp. slot_step (set_state UNUSED) H6.
    apply wp_ret. split; [by do 2 apply kctx_upd|]. left. split; [done|].
    eexists. split; [|split; [|by eapply (keq_const i j _ s0 _ q H6)]]; done.
Qed.

Lemma forked_strip pc t c n q child child' :
  strip child = strip child' -> forked pc t c n q child -> forked pc t c n q child'.
Proof.
  intros He [H1 H2 H3 H4 H5 H6 H7 H8 H9 H10].
  pose proof (f_equal name He : name child = name child') as Hn. split.
  - by rewrite <- (f_equal state He : state child = state child').
  - by rewrite <- (f_equal pid He : pid child = pid child').
  - by rewrite <- (f_equal parent He : parent child = parent child').
  - by rewrite <- (f_equal sz He : sz child = sz child').
  - by rewrite <- (f_equal tf He : tf child = tf child').
  - by rewrite <- (f_equal ofile He : ofile child = ofile child').
  - by rewrite <- (f_equal cwd He : cwd child = cwd child').
  - by rewrite <- Hn.
  - by rewrite <- Hn.
  - by rewrite <- (f_equal killed He : killed child = killed child').
Qed.

(** A slot after a [fork] that failed: as before, or the first unused one, unused again and
    without a kernel stack. *)
Definition kept_or_unused (l : list proc) (k : nat) (p p' : proc) : Prop :=
  strip p' = strip p \/
  first_slot (is_state UNUSED) l = Some k /\ state p' = UNUSED /\ kstack p' = 0.

(** [fork] as a change of the table. *)
Lemma fork_outcome i n c b s pc t :
  kctx i n (Some c) b false s -> 0 <= n < 2 ^ 31 - 9 ->
  length (ptable s) = NPROC -> Forall wf_proc (ptable s) ->
  ptable s !! c = Some pc -> state pc <> UNUSED -> tf pc = Some t ->
  wpx F fork (fun r s' => kctx i n (Some c) b false s' /\
    ((r = -1 /\ forall k p, ptable s !! k = Some p ->
        exists p', ptable s' !! k = Some p' /\ kept_or_unused (ptable s) k p p') \/
     (r = nextpid s /\ exists j q child,
        first_slot (is_state UNUSED) (ptable s) = Some j /\
        ptable s !! j = Some q /\ ptable s' !! j = Some child /\
        forked pc t c (nextpid s) q child /\
        forall k p, k <> j -> ptable s !! k = Some p ->
          exists p', ptable s' !! k = Some p' /\ strip p' = strip p))) s.
Proof using All.
  intros Hk Hn Hl Hwf Hc Hst Ht.
  eapply wp_mono; [|by apply (fork_spec i n c b s pc t)]. cbn beta zeta.
  intros r s' [Hk' Hr]. split; [done|].
  assert (Hsame : forall j g, keq i (upd_slot j g (set_nextpid (i32 (nextpid s + 1)) s)) s' ->
    forall k p, k <> j -> ptable s !! k = Some p ->
      exists p', ptable s' !! k = Some p' /\ strip p' = strip p).
  { intros j g H k p Hkj Hp.
    destruct (keq_other _ _ k _ _ _ p H) as (p' & Hp' & He); [done|done|]. by exists p'. }
  destruct (first_slot _ _) as [j|] eqn:Hf.
  - destruct Hr as [(-> & q & Hqu & Hqk & H)|(-> & q & child & Hq & H & Hfk)].
    + left. split; [done|]. intros k p Hp. destruct (decide (k = j)) as [->|Hkj].
      * destruct (keq_own _ _ _ _ _ _ H (Hp : ptable (set_nextpid _ s) !! j = Some p)) as (p' & Hp' & He).
        exists p'. split; [done|]. right. split; [done|].
        by rewrite <- (f_equal state He : state q = state p'), <- (f_equal kstack He : kstack q = kstack p').
      * destruct (Hsame _ _ H k p Hkj Hp) as (p' & Hp' & He). exists p'. split; [done|by left].
    + right. split; [done|].
      destruct (keq_own _ _ _ _ _ _ H (Hq : ptable (set_nextpid _ s) !! j = Some q))
        as (ch' & Hch & He).
      exists j, q, ch'. split_and!; [done|done|done| |by eapply Hsame].
      by apply (forked_strip _ _ _ _ _ _ _ He).
  - destruct Hr as [-> H]. left. split; [done|]. intros k p Hp.
    destruct (keq_slot _ _ _ _ _ H Hp) as (p' & Hp' & He). exists p'. split; [done|by left].
Qed.

(** *** [exit] *)

(** A child of [c] given to [ip]; a zombie child of [c]. *)
Definition reparent (c : nat) (ip : option nat) (p : proc) : proc :=
  if bool_decide (parent p = Some c) then set_parent ip p else p.

Definition zombie_child (c : nat) (p : proc) : bool :=
  bool_decide (parent p = Some c) && is_state ZOMBIE p.

Definition wake_if (z : bool) (ch : ptr) (p : proc) : proc :=
  if z then wake ch p else p.

#[local] Instance reparent_core c ip : CoreUpd (reparent c ip).
Proof. intros p. unfold reparent. simpl. by destruct (bool_decide _). Qed.

#[local] Instance wake_if_core z ch : CoreUpd (wake_if z ch).
Proof. intros p. destruct z; [apply wake_core|done]. Qed.

Lemma wake_parent ch p : parent (wake ch p) = parent p.
Proof. unfold wake. by destruct (_ && _). Qed.

Lemma wake_zombie ch p : is_state ZOMBIE (wake ch p) = is_state ZOMBIE p.
Proof.
  unfold wake, is_state. destruct (decide (state p = SLEEPING)) as [Es|Es].
  - destruct (_ && _); [|done]. by rewrite Es.
  - by rewrite (bool_decide_false (state p = SLEEPING)) by done.
Qed.

Lemma wake_twice ch p : wake ch (wake ch p) = wake ch p.
Proof.
  unfold wake. destruct (is_state SLEEPING p && bool_decide (chan p = ch)) eqn:Ec;
    [done|by rewrite Ec].
Qed.

Lemma wake_if_parent z ch p : parent (wake_if z ch p) = parent p.
Proof. destruct z; [apply wake_parent|done]. Qed.

Lemma wake_reparent ch c ip p :
  wake ch (reparent c ip p) = reparent c ip (wake ch p).
Proof.
  unfold reparent. rewrite wake_parent. destruct (bool_decide (parent p = Some c)); [|done].
  unfold wake. change (is_state SLEEPING (set_parent ip p)) with (is_state SLEEPING p).
  change (chan (set_parent ip p)) with (chan p). by destruct (_ && _).
Qed.

(** The table after the first [k] turns of [exit]'s loop. *)
Definition passed (c : nat) (ip : option nat) (T : list proc) (k : nat) : list proc :=
  map (wake_if (existsb (zombie_child c) (take k T)) (proc_ptr ip))
      (map (reparent c ip) (take k T) ++ drop k T).

Lemma passed_length c ip T k : length (passed c ip T k) = length T.
Proof.
  unfold passed. rewrite length_map, length_app, length_map, <- length_app.
  by rewrite take_drop.
Qed.

Lemma passed_lookup c ip T k j p :
  T !! j = Some p ->
  passed c ip T k !! j =
  Some (wake_if (existsb (zombie_child c) (take k T)) (proc_ptr ip)
          (if (j <? k)%nat then reparent c ip p else p)).
Proof.
  intros Hj. pose proof (lookup_lt_Some _ _ _ Hj) as Hlt.
  unfold passed. rewrite list_lookup_fmap.
  destruct (Nat.ltb_spec j k) as [Hk|Hk].
  - rewrite lookup_app_l by (rewrite length_map, length_take; lia).
    by rewrite list_lookup_fmap, lookup_take_lt, Hj by done.
  - rewrite lookup_app_r by (rewrite length_map, length_take; lia).
    rewrite length_map, length_take, lookup_drop.
    replace (k + (j - (k `min` length T)))%nat with j by lia. by rewrite Hj.
Qed.

Lemma existsb_take_S {A} (f : A -> bool) (l : list A) k x :
  l !! k = Some x -> existsb f (take (S k) l) = existsb f (take k l) || f x.
Proof. intros H. by rewrite (take_S_r _ _ x H), existsb_app; simpl; rewrite orb_false_r. Qed.

Lemma wake_if_or z1 z2 ch p : wake_if (z1 || z2) ch p = wake_if z2 ch (wake_if z1 ch p).
Proof. destruct z1, z2; simpl; try done. by rewrite wake_twice. Qed.

Lemma wake_if_reparent z ch c ip p :
  wake_if z ch (reparent c ip p) = reparent c ip (wake_if z ch p).
Proof. destruct z; [apply wake_reparent|done]. Qed.

Lemma passed_S c ip T k p :
  T !! k = Some p ->
  passed c ip T (S k) =
  map (wake_if (zombie_child c p) (proc_ptr ip))
      (alter (reparent c ip) k (passed c ip T k)).
Proof.
  intros Hp. apply list_eq. intros j. rewrite list_lookup_fmap.
  destruct (T !! j) as [q|] eqn:Hq.
  2:{ apply lookup_ge_None in Hq. rewrite !lookup_ge_None_2; [done|..];
      rewrite ?length_alter, ?passed_length; done. }
  rewrite (passed_lookup _ _ _ _ _ _ Hq), (existsb_take_S _ _ _ _ Hp), wake_if_or.
  destruct (decide (k = j)) as [<-|Hne].
  - rewrite list_lookup_alter_eq, (passed_lookup _ _ _ _ _ _ Hq).
    rewrite (proj2 (Nat.ltb_lt k (S k))), (proj2 (Nat.ltb_ge k k)) by lia.
    simpl. by rewrite wake_if_reparent.
  - rewrite list_lookup_alter_ne, (passed_lookup _ _ _ _ _ _ Hq) by done.
    destruct (Nat.ltb_spec j (S k)), (Nat.ltb_spec j k); try lia; done.
Qed.

Lemma reparent_slot_spec c k i n o b s p :
  kctx i n o b true s -> 0 <= n < 2 ^ 31 - 9 -> length (ptable s) = NPROC ->
  ptable s !! k = Some p ->
  wpx F (reparent_slot c k) (fun _ s' => kctx i n o b true s' /\
    keq i (set_ptable (map (wake_if (zombie_child c p) (proc_ptr (initproc s)))
             (alter (reparent c (initproc s)) k (ptable s))) s) s') s.
Proof using All.
  intros Hk Hn Hl Hp. unfold reparent_slot. wbind. apply (wp_getp _ _ _ _ _ Hp).
  unfold zombie_child. apply wp_when; intros Hc; rewrite Hc; cbn [andb].
  - assert (alter (reparent c (initproc s)) k (ptable s) =
            alter (set_parent (initproc s)) k (ptable s)) as ->.
    { apply list_alter_ext; [|done]. intros q Hq. simplify_eq. unfold reparent.
      by rewrite Hc. }
    wbind. apply wp_gets. wbind. apply wp_updp. wbind.
    eapply wp_getp; [by apply upd_slot_eq|].
    change (is_state ZOMBIE (set_parent (initproc s) p)) with (is_state ZOMBIE p).
    apply wp_when; intros Hz; rewrite Hz.
    + eapply wp_mono; [|apply wakeup1_spec; [by apply kctx_upd|lia|
        by rewrite upd_slot_length]].
      cbn beta. intros [] s2 [Hk2 H2]. by split.
    + split; [by apply kctx_upd|]. cbn [wake_if]. rewrite map_id. reflexivity.
  - split; [done|]. cbn [wake_if]. rewrite map_id.
    rewrite (list_alter_ext _ id (ptable s) (ptable s)), list_alter_id; [by destruct s|done| |done].
    intros q Hq. simplify_eq. unfold reparent. by rewrite Hc.
Qed.

Lemma exit_loop_spec c i n o b s :
  kctx i n o b true s -> 0 <= n < 2 ^ 31 - 9 -> length (ptable s) = NPROC ->
  wpx F (for_each slots (reparent_slot c)) (fun _ s' => kctx i n o b true s' /\
    keq i (set_ptable (passed c (initproc s) (ptable s) NPROC) s) s') s.
Proof using All.
  intros Hk Hn Hl. set (T := ptable s) in *. set (ip := initproc s).
  assert (forall m k s1, kctx i n o b true s1 -> (k + m = NPROC)%nat ->
    keq i (set_ptable (passed c ip T k) s) s1 ->
    wpx F (for_each (seq k m) (reparent_slot c)) (fun _ s' => kctx i n o b true s' /\
      keq i (set_ptable (passed c ip T (k + m)) s) s') s1) as Hgen.
  { induction m as [|m IH]; intros k s1 Hk1 Hkm H1; cbn [seq for_each].
    { apply wp_ret. by rewrite Nat.add_0_r. }
    destruct (lookup_lt_is_Some_2 T k) as [p Hp]; [lia|].
    pose proof (passed_lookup c ip T k k p Hp) as Hpk.
    rewrite (proj2 (Nat.ltb_ge k k)) in Hpk by lia.
    destruct (keq_slot _ _ _ _ _ H1 Hpk) as (p1 & Hp1 & Hst).
    assert (zombie_child c p1 = zombie_child c p) as Hz.
    { unfold zombie_child, is_state.
      rewrite <- (f_equal parent Hst : parent (wake_if _ _ p) = parent p1).
      rewrite <- (f_equal state Hst : state (wake_if _ _ p) = state p1).
      rewrite wake_if_parent. f_equal.
      destruct (existsb _ _); [apply wake_zombie|done]. }
    wbind. eapply wp_mono; [|apply (reparent_slot_spec c k i n o b s1 p1 Hk1);
      [lia| |done]].
    2:{ rewrite (keq_length _ _ _ H1). simpl. by rewrite passed_length. }
    cbn beta. intros [] s2 [Hk2 H2]. rewrite Nat.add_succ_r.
    apply (IH (S k)); [done|lia|]. etrans; [|exact H2].
    rewrite (passed_S _ _ _ _ _ Hp), Hz, (ke_initproc _ _ _ H1).
    apply (keq_set_ptable i (fun l => map (wake_if (zombie_child c p) (proc_ptr ip))
      (alter (reparent c ip) k l)) (set_ptable (passed c ip T k) s)); [|done].
    intros l l' Hll. apply (core_eq_map (wake_if _ _)).
    by apply (core_eq_alter (reparent c ip) k _). }
  unfold slots. apply (Hgen NPROC 0%nat); [done|done|].
  unfold passed. rewrite take_0. simpl. rewrite drop_0, map_id. by destruct s.
Qed.

Lemma existsb_strip c l : existsb (zombie_child c) (map strip l) = existsb (zombie_child c) l.
Proof. induction l as [|p l IH]; [done|]. simpl. by rewrite IH. Qed.

Lemma existsb_wake c ch l :
  existsb (zombie_child c) (map (wake ch) l) = existsb (zombie_child c) l.
Proof.
  induction l as [|p l IH]; [done|]. simpl. rewrite IH. f_equal.
  unfold zombie_child. by rewrite wake_parent, wake_zombie.
Qed.

Lemma set_ptable_keq2 i l l' l0 s s1 :
  keq i (set_ptable l0 s) s1 -> core_eq l l' -> keq i (set_ptable l s) (set_ptable l' s1).
Proof. by intros [] ?. Qed.

(** The table [exit] leaves: the sleeping parent [pp] woken, the children of
    [c] given to [ip], [ip] woken if one of them is a zombie, and [c] itself a
    zombie. *)
Definition exit_slot (c : nat) (ip pp : option nat) (z : bool) (p : proc) : proc :=
  wake_if z (proc_ptr ip) (reparent c ip (wake (proc_ptr pp) p)).

Lemma exit_locked_spec c i n o b s pc :
  kctx i n o b true s -> 0 <= n < 2 ^ 31 - 9 -> length (ptable s) = NPROC ->
  ptable s !! c = Some pc ->
  let z := existsb (zombie_child c) (ptable s) in
  wpx F (exit_locked c) (fun _ s' => kctx i n o b true s' /\
    keq i (upd_slot c (set_state ZOMBIE)
      (set_ptable (map (exit_slot c (initproc s) (parent pc) z) (ptable s)) s)) s') s.
Proof using All.
  intros Hk Hn Hl Hc z. unfold exit_locked. wbind. apply (wp_getp _ _ _ _ _ Hc).
  wbind. eapply wp_mono; [|apply (wakeup1_spec _ _ _ _ _ _ Hk); [lia|done]].
  cbn beta. intros [] s1 [Hk1 H1]. set (ch := proc_ptr (parent pc)) in *.
  wbind. eapply wp_mono; [|apply (exit_loop_spec c _ _ _ _ _ Hk1); [lia|]].
  2:{ rewrite (keq_length _ _ _ H1). simpl. by rewrite length_map. }
  cbn beta. intros [] s2 [Hk2 H2]. wbind. apply wp_updp.
  eapply wp_hook; [apply exit_hook_ok|by apply kctx_upd|lia| |].
  { rewrite upd_slot_length, (keq_length _ _ _ H2). simpl. rewrite passed_length, (keq_length _ _ _ H1).
    simpl. rewrite length_map. apply lookup_lt_Some in Hc. lia. }
  intros _ s3 Hk3 H3. split; [done|]. etrans; [|exact H3].
  apply (keq_upd_slot i c (set_state ZOMBIE)). etrans; [|exact H2].
  rewrite (ke_initproc _ _ _ H1). change (initproc (set_ptable _ s)) with (initproc s).
  assert (core_eq (map (exit_slot c (initproc s) (parent pc) z) (ptable s))
    (passed c (initproc s) (ptable s1) NPROC)) as Hce.
  { pose proof (keq_length _ _ _ H1) as Hl1. simpl in Hl1. rewrite length_map, Hl in Hl1.
    unfold passed. rewrite take_ge, drop_ge, app_nil_r by lia.
    assert (existsb (zombie_child c) (ptable s1) = z) as ->.
    { unfold z. destruct H1 as [Hc1 _ _ _ _ _ _]. simpl in Hc1.
      unfold core_eq in Hc1. rewrite <- (existsb_strip c (ptable s1)), <- Hc1.
      by rewrite existsb_strip, existsb_wake. }
    etrans; [|apply (core_eq_map (wake_if z _)), (core_eq_map (reparent c _)), (ke_ptable _ _ _ H1)].
    simpl. by rewrite !map_map. }
  by eapply set_ptable_keq2.
Qed.

Lemma exit_slot_wakes c ip pp z p :
  state p = SLEEPING ->
  (chan p = proc_ptr pp \/ (z = true /\ chan p = proc_ptr ip)) ->
  state (exit_slot c ip pp z p) = RUNNABLE.
Proof.
  intros Hs Hch. unfold exit_slot. rewrite wake_if_reparent.
  assert (state (wake_if z (proc_ptr ip) (wake (proc_ptr pp) p)) = RUNNABLE) as Hw.
  { destruct (decide (chan p = proc_ptr pp)) as [Hp|Hp].
    - assert (wake (proc_ptr pp) p = set_state RUNNABLE p) as ->.
      { unfold wake, is_state. by rewrite Hs, Hp, !bool_decide_true. }
      by destruct z.
    - destruct Hch as [|[-> Hi]]; [done|].
      assert (wake (proc_ptr pp) p = p) as ->.
      { unfold wake. by rewrite (bool_decide_false _ Hp), andb_false_r. }
      unfold wake_if, wake, is_state. by rewrite Hs, Hi, !bool_decide_true. }
  unfold reparent. by destruct (bool_decide _).
Qed.

(** *** [wait] *)

Definition reaped (p : proc) : proc :=
  set_state UNUSED (set_killed false (set_name (<[0%nat := 0]> (name p))
    (set_parent None (set_pid 0 (set_kstack 0 p))))).

Lemma reap_spec j i n o b s p :
  kctx i n o b true s -> 0 <= n < 2 ^ 31 - 9 -> ptable s !! j = Some p ->
  wpx F (reap j) (fun r s' => kctx i n o b true s' /\ r = pid p /\
    keq i (upd_slot j reaped s) s') s.
Proof using All.
  intros Hk Hn Hp. unfold reap. wbind. apply (wp_getp _ _ _ _ _ Hp).
  wbind. eapply wp_neutral; [apply kfree_ok|done|lia|]. intros _ s1 Hk1 H1.
  assert (keq i (upd_slot j id s) s1) as H2.
  { by rewrite (upd_slot_id _ _ _ _ Hp). }
  wbind. apply wp_updp. slot_step (set_kstack 0) H2.
  wbind. eapply wp_neutral; [apply freevm_ok|by apply kctx_upd|lia|].
  intros _ s2 Hk2 H3. assert (H4 := transitivity H2 H3).
  wbind. apply wp_updp. slot_step (set_pid 0) H4.
  wbind. apply wp_updp. slot_step (set_parent None) H4.
  wbind. apply wp_updp.
  slot_step (fun q => set_name (<[0%nat := 0]> (name q)) q) H4.
  wbind. apply wp_updp. slot_step (set_killed false) H4.
  wbind. apply wp_updp. slot_step (set_state UNUSED) H4.
  apply wp_ret. split_and!; [by do 5 apply kctx_upd|done|].
  etrans; [|exact H4]. erewrite (upd_slot_ext j reaped _ s p Hp); [reflexivity|].
  by destruct p.
Qed.

Definition is_child (c : nat) (p : proc) : bool := bool_decide (parent p = Some c).

Lemma wait_scan_spec c i n o b s :
  kctx i (n + 1) o b true s -> 0 <= n < 2 ^ 31 - 10 ->
  forall m k kids, (k + m = length (ptable s))%nat ->
  wpx F (wait_scan c (seq k m) kids) (fun r s' =>
    match first_slot (zombie_child c) (drop k (ptable s)) with
    | Some j => exists p, ptable s !! (k + j)%nat = Some p /\
        r = (Some (pid p), true) /\ kctx i n o b false s' /\
        keq i (upd_slot (k + j) reaped s) s'
    | None => r = (None, kids || existsb (is_child c) (drop k (ptable s))) /\ s' = s
    end) s.
Proof using All.
  intros Hk Hn m. induction m as [|m IH]; intros k kids Hkm; cbn [seq wait_scan].
  { apply wp_ret. rewrite drop_ge by lia. simpl. by rewrite orb_false_r. }
  destruct (lookup_lt_is_Some_2 (ptable s) k) as [p Hp]; [lia|].
  wbind. apply (wp_getp _ _ _ _ _ Hp). rewrite (drop_S _ _ _ Hp).
  unfold first_slot. cbn [list_find existsb].
  assert (zombie_child c p = bool_decide (parent p = Some c) && is_state ZOMBIE p)
    as Hz by done.
  destruct (bool_decide (parent p = Some c)) eqn:Hpc; cbn [negb andb] in *;
    [destruct (is_state ZOMBIE p) eqn:Hzz|].
  - rewrite decide_True by done. simpl. rewrite Nat.add_0_r.
    wbind. eapply wp_mono; [|apply (reap_spec k _ _ _ _ _ p Hk); [lia|done]].
    cbn beta. intros r s1 (Hk1 & -> & H1). wbind.
    eapply wp_release; [done|lia|]. intros v L s2 Hk2 H2. apply wp_ret.
    exists p. split_and!; [done|done|done|by etrans].
  - rewrite decide_False by congruence. eapply wp_mono; [|apply (IH (S k) true); lia].
    cbn beta. intros r s' Hr. unfold first_slot in Hr.
    destruct (list_find _ (drop (S k) _)) as [[j q]|]; simpl in *.
    + rewrite Nat.add_succ_r. exact Hr.
    + destruct Hr as [-> ->]. unfold is_child at 1. rewrite Hpc. by destruct kids.
  - rewrite decide_False by congruence. eapply wp_mono; [|apply (IH (S k) kids); lia].
    cbn beta. intros r s' Hr. unfold first_slot in Hr.
    destruct (list_find _ (drop (S k) _)) as [[j q]|]; simpl in *.
    + rewrite Nat.add_succ_r. exact Hr.
    + destruct Hr as [-> ->]. unfold is_child at 2. by rewrite Hpc.
Qed.

(** *** [sched], [yield], [sleep] *)

(** [sched] reaches the context switch without a panic when the process holds
    [ptable.lock] and nothing else and is no longer running; when it is
    resumed, on whatever CPU, it has the interrupt flag it had before. *)
Lemma sched_spec i c b s p (Qp : unit -> kst E Q -> Prop) :
  kctx i 1 (Some c) b true s -> ptable s !! c = Some p -> state p <> RUNNING ->
  (forall s1, kctx i 1 (Some c) b true s1 -> keq i s s1 ->
    wpx F swtch (fun _ s2 => exists j b', kctx j 1 (Some c) b' true s2 /\
      forall s3, kctx j 1 (Some c) b true s3 -> keq j s2 s3 -> Qp tt s3) s1) ->
  wpx F sched Qp s.
Proof using All.
  intros Hk Hp Hst HQ. unfold sched. wbind.
  eapply wp_curproc; [done|lia|]. intros v Hk1 H1. wbind.
  eapply wp_holding; [done|lia|]. intros v' Hk2 H2. cbn [negb].
  set (s2 := set_mac v' _) in *.
  assert (mycpu v' = Ok (i, v')) as Hcpu by (by eapply mycpu_at; [apply Hk2|]).
  wbind. eapply wp_ok; [by apply on_mac_ok|].
  destruct Hk2 as [Hat Hlk]. pose proof Hat as [Hf (cp & Hcp & Hn & Ho & Hb) HIF].
  wbind. eapply wp_ok; [by apply on_mac_ok, getcpu_spec|].
  rewrite Hn. cbn [Z.eqb negb Pos.eqb]. wbind. eapply wp_getp; [exact Hp|].
  rewrite bool_decide_false by done. wbind. apply wp_gets.
  change (mac (set_mac _ _)) with v'. rewrite (HIF : eflags_IF v' = false).
  wbind. eapply wp_ok; [by apply on_mac_ok|].
  wbind. eapply wp_ok; [by apply on_mac_ok, getcpu_spec|].
  wbind. eapply wp_mono; [|apply HQ; [by split|by etrans]].
  cbn beta. intros [] s3 (j & b' & [Hat3 Hlk3] & HQ3).
  assert (mycpu (mac s3) = Ok (j, mac s3)) as Hcpu3 by (by eapply mycpu_at).
  wbind. eapply wp_ok; [by apply on_mac_ok|].
  eapply wp_ok; [by apply on_mac_ok|]. change (mac (set_mac (mac s3) s3)) with (mac s3).
  destruct Hat3 as [Hf3 (cp3 & Hcp3 & Hn3 & Ho3 & Hb3) HIF3].
  apply HQ3.
  - split; [|done]. split; [by apply find_cpu_alter| |done].
    exists (set_intena (intena cp) cp3). split; [by apply (upd_cpu_same j cp3)|].
    split_and!; [done|done|]. intros _. apply Hb. lia.
  - split; try done. split; [done|]. intros l Hl. simpl.
    by rewrite list_lookup_alter_ne.
Qed.

(** What a context switch guarantees to the process that made it: it returns
    on some CPU that runs the process and holds only [ptable.lock]; [R] is what
    the rest of the system may have done meanwhile. *)
Definition switches (R : nat -> kst E Q -> kst E Q -> Prop) : Prop :=
  forall i c b s p, kctx i 1 (Some c) b true s -> ptable s !! c = Some p ->
    state p <> RUNNING ->
    wpx F swtch (fun _ s' => R c s s' /\
      exists j b', kctx j 1 (Some c) b' true s') s.

(** [yield] offers the CPU with the process runnable, and returns with the
    lock free and the interrupt flag it had. *)
Lemma yield_spec R i c b s p :
  switches R -> kctx i 0 (Some c) b false s -> ptable s !! c = Some p ->
  wpx F yield (fun _ s' => exists s1 s2 j,
    keq i (upd_slot c (set_state RUNNABLE) s) s1 /\ R c s1 s2 /\
    keq j s2 s' /\ kctx j 0 (Some c) b false s') s.
Proof using All.
  intros HR Hk Hp. unfold yield. wbind. eapply wp_acquire; [done|lia|].
  intros v L s1 Hk1 H1. wbind. eapply wp_curproc; [done|lia|].
  intros v' Hk2 H2. wbind. apply wp_updp. wbind.
  eapply sched_spec; [by apply kctx_upd|by apply upd_slot_eq|done|].
  intros s3 Hk3 H3. destruct (keq_own _ _ _ _ _ _ H3 (Hp : ptable (set_mac v' s1) !! c = Some p))
    as (p3 & Hp3 & Hst3).
  eapply wp_mono; [|apply (HR _ _ _ _ _ Hk3 Hp3)].
  2:{ by rewrite <- (f_equal state Hst3 : _ = state p3). }
  cbn beta. intros [] s4 (HR4 & j & b' & Hk4). exists j, b'. split; [done|].
  intros s5 Hk5 H5. eapply (wp_release F j 0); [done|lia|]. intros v6 L6 s6 Hk6 H6.
  exists s3, s4, j. split_and!; [|done|by etrans|done].
  etrans; [|exact H3]. apply (keq_upd_slot i c (set_state RUNNABLE)). by etrans.
Qed.

(** [sleep] on [ptable.lock]: the process goes to sleep on the channel with the
    lock held until the switch, and returns holding it, off every channel. *)
Lemma sleep_spec R ch i c b s p :
  switches R -> kctx i 1 (Some c) b true s -> ptable s !! c = Some p ->
  wpx F (sleep ch (Some ptable_lock)) (fun _ s' => exists s1 s2 j,
    keq i (upd_slot c (set_state SLEEPING ∘ set_chan ch) s) s1 /\ R c s1 s2 /\
    keq j (upd_slot c (set_chan Null) s2) s' /\ kctx j 1 (Some c) b true s') s.
Proof using All.
  intros HR Hk Hp. unfold sleep. wbind. eapply wp_myproc; [done|lia|].
  intros v Hk1 H1. cbn [negb]. rewrite (Nat.eqb_refl ptable_lock). cbn [negb when].
  wbind. apply wp_ret. wbind. apply wp_updp. wbind. apply wp_updp. wbind.
  rewrite upd_slot_upd.
  eapply sched_spec; [by apply kctx_upd|by apply upd_slot_eq|done|].
  intros s3 Hk3 H3. destruct (keq_own _ _ _ _ _ _ H3 (Hp : ptable (set_mac v s) !! c = Some p))
    as (p3 & Hp3 & Hst3).
  eapply wp_mono; [|apply (HR _ _ _ _ _ Hk3 Hp3)].
  2:{ by rewrite <- (f_equal state Hst3 : _ = state p3). }
  cbn beta. intros [] s4 (HR4 & j & b' & Hk4). exists j, b'. split; [done|].
  intros s5 Hk5 H5. wbind. apply wp_updp. apply wp_ret.
  exists s3, s4, j. split_and!; [|done|by apply (keq_upd_slot j c (set_chan Null))|
    by apply kctx_upd].
  etrans; [|exact H3]. by apply (keq_upd_slot i c (set_state SLEEPING ∘ set_chan ch)).
Qed.
End Specs.

(** ** Dispatching a process *)

(** [quiet F m]: [m] leaves the process table and the policy as they are. *)
Definition quiet (F : failure -> Prop) {E Q A} (m : M (kst E Q) A) : Prop :=
  forall i n o b hd s, kctx i n o b hd s -> 0 <= n < 2 ^ 31 - 8 ->
    wpx F m (fun _ s' => kctx i n o b hd s' /\ keq i s s' /\
                         ptable s' = ptable s /\ pol s' = pol s) s.

(** Loading a page table touches neither. *)
Class SwitchOk (F : failure -> Prop) (E Q : Type) `{KernelEnv E Q} : Prop := {
  switchuvm_quiet j : quiet F (switchuvm j);
  switchkvm_quiet : quiet F switchkvm
}.

Section Dispatch.
Context {E Q : Type} `{KE : KernelEnv E Q}.
Context (F : failure -> Prop) `{!SwitchOk F E Q}.
Implicit Types s : kst E Q.

(** What the switch to a process guarantees to the scheduler: the process
    comes back on the same CPU, in [sched], which lets it go only when it holds
    [ptable.lock] alone and is no longer [RUNNING]; [R] is what the process and
    the other CPUs may have done meanwhile. *)
Definition resumes (R : nat -> kst E Q -> kst E Q -> Prop) : Prop :=
  forall i j b s p, kctx i 1 (Some j) b true s -> ptable s !! j = Some p ->
    state p = RUNNING ->
    wpx F (resume j) (fun _ s' => R j s s' /\
      (exists b', kctx i 1 (Some j) b' true s') /\
      exists p', ptable s' !! j = Some p' /\ state p' <> RUNNING) s.

Lemma kctx_set_cproc i n o o' b hd s :
  kctx i n o b hd s ->
  kctx i n o' b hd (set_mac (upd_cpu i (set_cproc o') (mac s)) s).
Proof.
  intros [[Hf (c & Hc & Hn & Ho & Hb) HI] Hl]. split; [|done]. split.
  - by apply (find_cpu_alter (mac s)).
  - exists (set_cproc o' c). split; [by apply upd_cpu_same|]. by split_and!.
  - done.
Qed.

Lemma keq_set_cproc i o s : keq i s (set_mac (upd_cpu i (set_cproc o) (mac s)) s).
Proof.
  apply keq_mac. split; [done|]. intros j Hj. simpl. by rewrite list_lookup_alter_ne.
Qed.

Lemma wp_set_cproc i o n o' b hd (Qp : unit -> kst E Q -> Prop) s :
  kctx i n o b hd s ->
  (forall v, kctx i n o' b hd (set_mac v s) -> keq i s (set_mac v s) ->
     Qp tt (set_mac v s)) ->
  wpx F (on_mac (modify (upd_cpu i (set_cproc o')))) Qp s.
Proof.
  intros Hk HQ. unfold wpx, on_mac, modify. apply HQ;
    [by eapply kctx_set_cproc|apply keq_set_cproc].
Qed.

Lemma wp_sti i o b (Qp : unit -> kst E Q -> Prop) s :
  kctx i 0 o b false s ->
  (forall v, kctx i 0 o true false (set_mac v s) -> keq i s (set_mac v s) ->
     Qp tt (set_mac v s)) ->
  wpx F (on_mac sti) Qp s.
Proof.
  intros [[Hf (c & Hc & Hn & Ho & Hb) HI] Hl] HQ. unfold wpx, on_mac, sti, modify.
  apply HQ; [|by apply keq_mac].
  split; [|done]. split; [done| |done]. exists c. split_and!; done || lia.
Qed.

Lemma wp_quiet {A} (m : M (kst E Q) A) i n o b hd (Qp : A -> kst E Q -> Prop) s :
  quiet F m -> kctx i n o b hd s -> 0 <= n < 2 ^ 31 - 8 ->
  (forall a s', kctx i n o b hd s' -> keq i s s' -> ptable s' = ptable s ->
     pol s' = pol s -> Qp a s') ->
  wpx F m Qp s.
Proof.
  intros Hm Hk Hn HQ. eapply wp_mono; [|by eapply Hm].
  intros a s' (? & ? & ? & ?). by apply HQ.
Qed.

(** A dispatch: the process runs from a state in which it alone has changed, to
    [RUNNING], and comes back in a state from which [after] starts. *)
Lemma run_slot_spec R i j after b s p (Qp : unit -> kst E Q -> Prop) :
  resumes R -> kctx i 1 None b true s -> ptable s !! j = Some p ->
  (forall s1 s2 s3 p2 b',
     keq i (upd_slot j (set_state RUNNING) s) s1 ->
     ptable s1 = ptable (upd_slot j (set_state RUNNING) s) -> pol s1 = pol s ->
     R j s1 s2 -> ptable s2 !! j = Some p2 -> state p2 <> RUNNING ->
     kctx i 1 (Some j) b' true s3 -> keq i s2 s3 ->
     ptable s3 = ptable s2 -> pol s3 = pol s2 ->
     wpx F after (fun _ s4 => kctx i 1 (Some j) b' true s4 /\
       forall v, kctx i 1 None b' true (set_mac v s4) -> keq i s4 (set_mac v s4) ->
         Qp tt (set_mac v s4)) s3) ->
  wpx F (run_slot i j after) Qp s.
Proof using All.
  intros HR Hk Hp HQ. unfold run_slot. wbind.
  eapply wp_set_cproc; [done|]. intros v Hk1 H1. wbind.
  eapply wp_quiet; [apply switchuvm_quiet|done|lia|]. intros [] s1 Hk2 H2 Hpt Hpo.
  wbind. apply wp_updp. wbind.
  set (s1' := upd_slot j (set_state RUNNING) s1).
  assert (ptable s1' !! j = Some (set_state RUNNING p)) as Hp1.
  { apply upd_slot_eq. by rewrite Hpt. }
  eapply wp_mono; [|apply (HR i j b s1' _ ltac:(by apply kctx_upd) Hp1 eq_refl)].
  cbn beta. intros [] s2 (HR2 & (b' & Hk3) & p2 & Hp2 & Hst2). wbind.
  eapply wp_quiet; [apply switchkvm_quiet|done|lia|]. intros [] s3 Hk4 H4 Hpt4 Hpo4.
  wbind. eapply wp_mono; [|apply (HQ s1' s2 s3 p2 b'); try done].
  - cbn beta. intros [] s4 [Hk5 HQ5]. eapply wp_set_cproc; [done|done].
  - apply (keq_upd_slot i j (set_state RUNNING)). by etrans.
  - simpl. by rewrite Hpt.
Qed.
End Dispatch.
