(* ===== verification/Env.v ===== *)
(** * A concrete environment

    An instance of the interface [KernelEnv] that computes: it hands out pages
    from a list, never runs out of other resources, and resumes a process at
    once.  It obeys the laws of [EnvOk], so the specifications of [ProcSpec] can
    be applied to it; the examples of the policies run on it. *)

From S2P Require Import Prelude CString Spinlock ProcData Proc ProcSpec.

(** The free pages. *)
Definition pages : Type := list Z.

Section Env.
Context {Q : Type}.

Definition take_page : M (kst pages Q) (option Z) := fun s =>
  match env s with
  | [] => Ok (None, s)
  | k :: l => Ok (Some k, set_env l s)
  end.

Definition give_page (k : Z) : M (kst pages Q) unit :=
  modify (fun s => set_env (k :: env s) s).

(** [sw] is what happens while a process that called [sched] is off the CPU. *)
Definition page_env_with (sw : M (kst pages Q) unit) : KernelEnv pages Q := {|
  kalloc := take_page;
  kfree := give_page;
  setupkvm := take_page;
  inituvm := fun _ => mret tt;
  allocuvm := fun _ _ b => mret b;
  deallocuvm := fun _ _ b => mret b;
  freevm := give_page;
  copyuvm := fun _ _ => take_page;
  switchuvm := fun _ => mret tt;
  switchkvm := mret tt;
  filedup := fun f => mret f;
  fileclose := fun _ => mret tt;
  idup := fun d => mret d;
  iput := fun _ => mret tt;
  namei_root := mret (Some 1%nat);
  begin_op := mret tt;
  end_op := mret tt;
  iinit := fun _ => mret tt;
  initlog := fun _ => mret tt;
  swtch := sw;
  resume := fun j => updp j (set_state RUNNABLE);
  page_tf := fun _ => tf_zero;
  kernel_word := fun _ => 0;
  forkret_addr := 0x80104000;
  trapret_addr := 0x80105000
|}.

#[export] Instance page_env : KernelEnv pages Q := page_env_with (mret tt).

Lemma neutral_take F : neutral F take_page.
Proof.
  intros i n o b hd s Hk Hn. unfold wpx, take_page.
  destruct (env s); [by split|]. split; [by destruct Hk|by split].
Qed.

Lemma neutral_give F k : neutral F (give_page k).
Proof. intros i n o b hd s Hk Hn. split; [by destruct Hk|by split]. Qed.

Lemma neutral_mret F {A} (a : A) : neutral F (mret a : M (kst pages Q) A).
Proof. intros i n o b hd s Hk Hn. by split. Qed.

Lemma page_env_with_ok F sw : EnvOk F pages Q (H := page_env_with sw).
Proof.
  split; intros; simpl in *;
    first [apply neutral_take|apply neutral_give|apply neutral_mret|idtac].
  - by apply Ok_inj in H as [-> _].
  - by apply Ok_inj in H as [-> _].
Qed.

#[export] Instance page_env_ok F : EnvOk F pages Q.
Proof. apply page_env_with_ok. Qed.

#[export] Instance page_env_switch F : SwitchOk F pages Q.
Proof. split; intros; intros i n o b hd s Hk Hn; by split. Qed.

(** A process that runs for a turn and yields. *)
Lemma page_env_resumes F :
  resumes F (fun j s s' => s' = upd_slot (E := pages) (Q := Q) j (set_state RUNNABLE) s).
Proof.
  intros i j b s p Hk Hp _. split; [done|]. split; [exists b; by destruct Hk|].
  eexists. split; [by apply upd_slot_eq|done].
Qed.
End Env.

(** One CPU, inside process 0 if [o = Some 0], with interrupts on; [ptable.lock]
    is free. *)
Definition one_cpu (o : option nat) : mach := Mach [Cpu 0 0 false o] 0 true.

Definition kstate {Q} (o : option nat) (T : list proc) (n : Z) (q : Q)
    : kst pages Q :=
  Kst (one_cpu o) {[ptable_lock := initlock "ptable"]} T n (Some 0%nat) false 0 []
    (map (fun i => Z.of_nat i * 4096) (seq 1024 200)) q.

Lemma kstate_kctx {Q} o T n (q : Q) : kctx 0 0 o true false (kstate o T n q).
Proof.
  split; [|by exists (initlock "ptable")].
  split; [done| |done]. exists (Cpu 0 0 false o). split_and!; done || lia.
Qed.

(** The same CPU inside [ptable.lock]. *)
Definition kstate_locked {Q} (o : option nat) (T : list proc) (n : Z) (q : Q)
    : kst pages Q :=
  set_mac (Mach [Cpu 0 1 true o] 0 false)
    (set_locks {[ptable_lock := Spinlock true "ptable" (Some 0%nat)]} (kstate o T n q)).

Lemma kstate_locked_kctx {Q} o T n (q : Q) : kctx 0 1 o true true (kstate_locked o T n q).
Proof.
  split; [|by eexists]. split; [done| |done]. eexists. by split_and!.
Qed.

(** A table with the given first slots, the others unused. *)
Definition table (l : list proc) : list proc := l ++ replicate (NPROC - length l) proc_zero.

(** A process with the fields the examples need. *)
Definition mkproc (st : procstate) (n : Z) (pa : option nat) (ch : ptr) : proc :=
  Proc 4096 0x400000 0x401000 st n pa (Some tf_zero) None ch false
    (replicate NOFILE None) (Some 1%nat) (replicate 16 0) 0 0 0 1 0 0.

Definition pstat_zero : pstat :=
  Pstat (replicate NPROC 0) (replicate NPROC 0) (replicate NPROC 0) (replicate NPROC 0).
