(* ===== verification/Original.v ===== *)
(** * The round-robin kernel

    [lab-2/proc_original.c]: the process management without a policy, and its
    scheduler. *)

From S2P Require Import Prelude CString Spinlock ProcData Proc ProcSpec Env.

#[export] Instance no_policy {E} : SchedPolicy E unit := {|
  alloc_hook := fun _ => mret tt;
  init_hook := mret tt;
  copy_hook := fun _ _ => mret tt;
  ready_hook := fun _ => mret tt;
  exit_hook := fun _ => mret tt;
  wake_hook := fun _ => mret tt;
  tickets_valid := fun n => 0 <=? n
|}.

#[export] Instance no_policy_ok {E} F : PolicyOk F E unit.
Proof. split; intros; intros i' n o b hd s Hk Hn; try intros _; by split. Qed.

Section Scheduler.
Context {E : Type} `{KE : KernelEnv E unit}.

(** One turn of the scheduler's endless loop, on CPU [i]. *)
Definition scheduler_round (i : nat) : M (kst E unit) unit :=
  on_mac sti ;;
  acquire_lk ptable_lock ;;
  for_each slots (fun j =>
    p ← getp j;
    when (is_state RUNNABLE p) (run_slot i j (mret tt))) ;;
  release_lk ptable_lock.
End Scheduler.
