(* ===== verification/ProcThms.v ===== *)
(** * Properties of the process operations

    The theorems of the process component, for every policy and environment
    that obey their laws, each with an instance on the round-robin kernel. *)

From S2P Require Import Prelude CString Spinlock ProcData Proc ProcSpec Env Original.

Section Theorems.
Context {E Q : Type} `{KE : KernelEnv E Q} `{SP : SchedPolicy E Q}.
Context (F : failure -> Prop) `{!EnvOk F E Q} `{!PolicyOk F E Q}.
Implicit Types s : kst E Q.

(** [fork] either fails with -1, and then every slot is as it was, but that the
    first unused one, which it had taken, is unused again and has no kernel stack;
    or it creates a runnable child in the first unused slot: the child has the next
    pid, which [fork] returns, the caller as its parent, the caller's memory
    size, directory, open files and name (cut to 15 characters), and a copy of
    the caller's trap frame in which the system call returns 0.  No other slot
    changes, the lock is free again and the interrupt state is what it was. *)
Theorem fork_creates_child i n c b s pc t :
  kctx i n (Some c) b false s -> 0 <= n < 2 ^ 31 - 9 ->
  length (ptable s) = NPROC -> Forall wf_proc (ptable s) ->
  ptable s !! c = Some pc -> state pc <> UNUSED -> tf pc = Some t ->
  wpx F fork (fun r s' => kctx i n (Some c) b false s' /\
    ((r = -1 /\ forall k p, ptable s !! k = Some p ->
        exists p', ptable s' !! k = Some p' /\ kept_or_unused (ptable s) k p p') \/
     (r = nextpid s /\ exists j q child,
        first_slot (is_state UNUSED) (ptable s) = Some j /\
        ptable s !! j = Some q /\ ptable s' !! j = Some child /\
        forked pc t c (nextpid s) q child /\
        forall k p, k <> j -> ptable s !! k = Some p ->
          exists p', ptable s' !! k = Some p' /\ strip p' = strip p))) s.
Proof using All. intros. by eapply (fork_outcome F i n c b s pc t). Qed.

(** C32. When a process exits, it becomes a zombie, no process is left whose parent
    it is: its children are given to the first process; its parent, if it
    sleeps in [wait], is woken; and the first process is woken from [wait] if it
    is given a zombie. *)
Theorem exit_hands_over c i n o b s pc :
  kctx i n o b true s -> 0 <= n < 2 ^ 31 - 9 -> length (ptable s) = NPROC ->
  ptable s !! c = Some pc -> state pc = RUNNING -> initproc s <> Some c ->
  parent pc <> Some c ->
  wpx F (exit_locked c) (fun _ s' => kctx i n o b true s' /\
    (exists q, ptable s' !! c = Some q /\ state q = ZOMBIE) /\
    (forall j q, ptable s' !! j = Some q -> parent q <> Some c) /\
    (forall j p, ptable s !! j = Some p -> parent p = Some c ->
       exists q, ptable s' !! j = Some q /\ parent q = initproc s) /\
    (forall j p, parent pc = Some j -> ptable s !! j = Some p ->
       state p = SLEEPING -> chan p = PProc j ->
       exists q, ptable s' !! j = Some q /\ state q = RUNNABLE) /\
    (forall j p k z, initproc s = Some j -> ptable s !! j = Some p ->
       state p = SLEEPING -> chan p = PProc j ->
       ptable s !! k = Some z -> parent z = Some c -> state z = ZOMBIE ->
       exists q, ptable s' !! j = Some q /\ state q = RUNNABLE)) s.
Proof using All.
  intros Hk Hn Hl Hc Hrun Hip Hpp.
  eapply wp_mono; [|by apply (exit_locked_spec F c i n o b s pc)].
  cbn beta. set (z := existsb _ _). set (h := exit_slot c (initproc s) (parent pc) z).
  intros [] s' [Hk' H]. split; [done|].
  assert (forall j p, ptable s !! j = Some p -> exists q, ptable s' !! j = Some q /\
    strip ((if decide (c = j) then set_state ZOMBIE else id) (h p)) = strip q) as Hat.
  { intros j p Hp. eapply keq_slot; [done|]. simpl.
    destruct (decide (c = j)) as [->|].
    - by rewrite list_lookup_alter_eq, list_lookup_fmap, Hp.
    - by rewrite list_lookup_alter_ne, list_lookup_fmap, Hp. }
  assert (forall p, parent (h p) = parent (reparent c (initproc s) p)) as Hpar.
  { intros p. unfold h, exit_slot. rewrite wake_if_parent. unfold reparent.
    rewrite wake_parent. destruct (bool_decide _); [done|apply wake_parent]. }
  assert (forall j p, ptable s !! j = Some p -> exists q, ptable s' !! j = Some q /\
    parent q = parent (reparent c (initproc s) p)) as Hq.
  { intros j p Hp. destruct (Hat j p Hp) as (q & Hq & He). exists q. split; [done|].
    rewrite <- (f_equal parent He : _ = parent q), <- Hpar.
    by destruct (decide (c = j)). }
  assert (forall j p, ptable s !! j = Some p -> c <> j -> state p = SLEEPING ->
    (chan p = proc_ptr (parent pc) \/ (z = true /\ chan p = proc_ptr (initproc s))) ->
    exists q, ptable s' !! j = Some q /\ state q = RUNNABLE) as Hwake.
  { intros j p Hp Hne Hs Hch. destruct (Hat j p Hp) as (q & Hqj & He).
    exists q. split; [done|]. rewrite decide_False in He by done.
    rewrite <- (f_equal state He : state (h p) = state q). clear He.
    by apply exit_slot_wakes. }
  split_and!.
  - destruct (Hat c pc Hc) as (q & Hqc & He). rewrite decide_True in He by done.
    exists q. split; [done|]. by rewrite <- (f_equal state He : ZOMBIE = state q).
  - intros j q Hj. assert (exists p, ptable s !! j = Some p) as [p Hp].
    { apply lookup_lt_is_Some_2. rewrite Hl.
      apply lookup_lt_Some in Hj. rewrite (keq_length _ _ _ H), upd_slot_length in Hj.
      simpl in Hj. rewrite length_map in Hj. lia. }
    destruct (Hq j p Hp) as (q' & Hq' & He). assert (q' = q) as -> by congruence. rewrite He.
    unfold reparent. by case_bool_decide.
  - intros j p Hp Hpc. destruct (Hq j p Hp) as (q & Hqj & Hqp). exists q.
    split; [done|]. rewrite Hqp. unfold reparent. by rewrite bool_decide_true.
  - intros j p Hj Hp Hs Hch. apply (Hwake j p Hp); [congruence|done|].
    left. by rewrite Hj, Hch.
  - intros j p k zp Hj Hp Hs Hch Hz Hzp Hzs. apply (Hwake j p Hp); [congruence|done|].
    right. split; [|by rewrite Hj, Hch]. apply existsb_exists. exists zp.
    split; [by apply list_elem_of_In, (list_elem_of_lookup_2 _ k)|].
    unfold zombie_child, is_state. by rewrite !bool_decide_true.
Qed.

(** [wait] with a zombie child, without children, or called by a killed process
    without zombies, does not sleep: it reaps the first zombie child, whose
    slot becomes unused with no pid and no parent, and returns its pid, or it
    returns -1 and changes nothing. *)
Theorem wait_returns_at_once fuel i n c b s pc :
  kctx i n (Some c) b false s -> 0 <= n < 2 ^ 31 - 10 ->
  length (ptable s) = NPROC -> ptable s !! c = Some pc ->
  existsb (zombie_child c) (ptable s) || negb (existsb (is_child c) (ptable s))
    || killed pc = true ->
  wpx F (wait (S fuel)) (fun r s' => kctx i n (Some c) b false s' /\
    match first_slot (zombie_child c) (ptable s) with
    | Some j => exists p, ptable s !! j = Some p /\ r = pid p /\
                          keq i (upd_slot j reaped s) s'
    | None => r = -1 /\ keq i s s'
    end) s.
Proof using All.
  intros Hk Hn Hl Hc Hnow. unfold wait. wbind. eapply wp_curproc; [done|lia|].
  intros v Hk1 H1. wbind. eapply wp_acquire; [done|lia|]. intros v2 L2 s2 Hk2 H2.
  assert (H12 := transitivity H1 H2). cbn [wait_loop]. wbind.
  unfold slots. rewrite <- Hl.
  eapply wp_mono; [|apply (wait_scan_spec F c i n _ b s2 Hk2 ltac:(lia)
    (length (ptable s)) 0%nat false eq_refl)].
  cbn beta. rewrite drop_0. change (ptable s2) with (ptable s).
  destruct (first_slot (zombie_child c) (ptable s)) as [j|] eqn:Hf.
  - intros r s3 (p & Hp & -> & Hk3 & H3). apply wp_ret. split; [done|].
    exists p. split_and!; [done|done|]. etrans; [|exact H3].
    by apply (keq_upd_slot i j reaped).
  - intros r s3 [-> ->]. cbn [orb]. wbind. eapply wp_getp; [exact Hc|].
    assert (existsb (zombie_child c) (ptable s) = false) as Hz
      by (by apply first_slot_None).
    rewrite Hz in Hnow. cbn [orb] in Hnow. rewrite Hnow.
    wbind. eapply wp_release; [done|lia|]. intros v4 L4 s4 Hk4 H4. apply wp_ret.
    split_and!; [done|done|by etrans].
Qed.

(** The pids are those from before the caller's channel was cleared. *)
Lemma keq_pid k c ch s s' j p :
  keq k (upd_slot c (set_chan ch) s) s' -> ptable s' !! j = Some p ->
  exists p0, ptable s !! j = Some p0 /\ pid p = pid p0.
Proof using Type.
  intros H Hp. destruct (core_eq_lookup _ _ j p (symmetry (ke_ptable _ _ _ H)) Hp) as (p1 & Hp1 & He).
  assert (pid p = pid p1) as -> by exact (f_equal pid He). simpl in Hp1.
  destruct (decide (c = j)) as [->|Hne].
  - rewrite list_lookup_alter_eq in Hp1. apply fmap_Some in Hp1 as (p0 & Hp0 & ->). by exists p0.
  - rewrite list_lookup_alter_ne in Hp1 by done. by exists p1.
Qed.

(** C33. A process that waits for children of which none has exited gives up the CPU, in
    [s1], asleep on its own slot.  In the state [s2] in which it is resumed a child has become a
    zombie; it returns the pid that the first such child has in [s2], and that slot is then
    unused, with no pid and no parent; of the rest of the table only the channel of the caller,
    which is cleared, and fields that only a policy writes have changed since [s2]. *)
Theorem wait_sleeps_then_reaps R fuel i c b s pc :
  switches F R -> kctx i 0 (Some c) b false s ->
  length (ptable s) = NPROC -> ptable s !! c = Some pc ->
  existsb (zombie_child c) (ptable s) = false ->
  existsb (is_child c) (ptable s) = true -> killed pc = false ->
  (forall s1 s2, keq i (upd_slot c (set_state SLEEPING ∘ set_chan (PProc c)) s) s1 ->
     R c s1 s2 -> length (ptable s2) = NPROC /\
     is_Some (first_slot (zombie_child c) (ptable s2))) ->
  wpx F (wait (S (S fuel))) (fun r s' => exists s1 s2 j k p,
    keq i (upd_slot c (set_state SLEEPING ∘ set_chan (PProc c)) s) s1 /\ R c s1 s2 /\
    first_slot (zombie_child c) (ptable s2) = Some j /\
    ptable s2 !! j = Some p /\ r = pid p /\
    keq k (upd_slot j reaped (upd_slot c (set_chan Null) s2)) s' /\
    kctx k 0 (Some c) b false s') s.
Proof using All.
  intros HR Hk Hl Hc Hz Hch Hkl Hafter. unfold wait. wbind.
  eapply wp_curproc; [done|lia|]. intros v Hk1 H1. wbind.
  eapply wp_acquire; [done|lia|]. intros v2 L2 s2 Hk2 H2.
  assert (H12 := transitivity H1 H2). cbn [wait_loop]. wbind.
  unfold slots at 1. rewrite <- Hl.
  eapply wp_mono; [|apply (wait_scan_spec F c i 0 _ b s2 Hk2 ltac:(lia)
    (length (ptable s)) 0%nat false eq_refl)].
  cbn beta. rewrite drop_0. change (ptable s2) with (ptable s).
  rewrite (proj1 (first_slot_None _ _) Hz), Hch. intros r s3 [-> ->].
  wbind. eapply wp_getp; [exact Hc|]. rewrite Hkl. cbn [orb negb]. wbind.
  eapply wp_mono; [|eapply (sleep_spec F R (PProc c) i c b s2 pc HR Hk2 Hc)].
  cbn beta. intros [] s5 (s3 & s4 & k & H3 & HR4 & H5 & Hk5).
  assert (keq i (upd_slot c (set_state SLEEPING ∘ set_chan (PProc c)) s) s3) as H03.
  { etrans; [|exact H3]. by apply (keq_upd_slot i c (set_state SLEEPING ∘ set_chan (PProc c))). }
  destruct (Hafter s3 s4 H03 HR4) as [Hl4 [j Hj]]. pose proof Hj as Hj4.
  rewrite <- (first_slot_alter (zombie_child c) (set_chan Null) (ptable s4) c) in Hj by done.
  assert (length (ptable s5) = NPROC) as Hl5
    by (rewrite (keq_length _ _ _ H5), upd_slot_length; done).
  change (alter _ c (ptable s4)) with (ptable (upd_slot c (set_chan Null) s4)) in Hj.
  rewrite (first_slot_core (zombie_child c) _ _ (fun p => eq_refl) (ke_ptable _ _ _ H5)) in Hj.
  wbind. unfold slots. rewrite <- Hl5.
  eapply wp_mono; [|apply (wait_scan_spec F c k 0 _ b s5 Hk5 ltac:(lia)
    (length (ptable s5)) 0%nat false eq_refl)].
  cbn beta. rewrite drop_0, Hj. intros r s6 (p & Hp & -> & Hk6 & H6).
  apply wp_ret. destruct (keq_pid k c Null s4 s5 j p H5 Hp) as (p0 & Hp0 & ->).
  exists s3, s4, j, k, p0. split_and!; [done..| |done].
  etrans; [|exact H6]. by apply (keq_upd_slot k j reaped).
Qed.

(** [kill 0] succeeds: it marks the first unused slot, whose pid is 0, and the
    next process created is born killed. *)
Theorem kill_zero_kills_next_child i n c b s pc t j q :
  kctx i n (Some c) b false s -> 0 <= n < 2 ^ 31 - 10 ->
  length (ptable s) = NPROC -> Forall wf_proc (ptable s) ->
  ptable s !! c = Some pc -> state pc <> UNUSED -> tf pc = Some t ->
  first_slot (fun p => pid p =? 0) (ptable s) = Some j ->
  first_slot (is_state UNUSED) (ptable s) = Some j ->
  ptable s !! j = Some q ->
  wpx F (kill 0 ≫= fun k => fork ≫= fun r => mret (k, r)) (fun kr s' =>
    fst kr = 0 /\ (snd kr = -1 \/ exists child, ptable s' !! j = Some child /\
      pid child = snd kr /\ state child = RUNNABLE /\ killed child = true)) s.
Proof using All.
  intros Hk Hn Hl Hwf Hc Hst Ht Hpid Hun Hq. wbind.
  eapply wp_mono; [|apply (kill_spec F 0 i n _ b s Hk); [lia|done]].
  cbn beta. rewrite Hpid. intros k s1 (Hk1 & -> & H1).
  assert (state q = UNUSED) as Hqu.
  { destruct (first_slot_Some _ _ _ Hun) as (q' & Hq' & Hs'). simplify_eq.
    by apply bool_decide_eq_true_1 in Hs'. }
  assert (killp q = set_killed true q) as Hkq.
  { unfold killp, is_state. by rewrite Hqu. }
  assert (j <> c) as Hne.
  { eapply first_slot_ne; [exact Hun|done|]. unfold is_state. by rewrite bool_decide_false. }
  destruct (keq_other _ _ _ _ _ _ _ H1 Hne Hc) as (pc1 & Hc1 & Hec).
  destruct (keq_own _ _ _ _ _ _ H1 Hq) as (q1 & Hq1 & Heq1). rewrite Hkq in Heq1.
  wbind. eapply wp_mono; [|apply (fork_spec F i n c b s1 pc1 t Hk1 ltac:(lia))].
  - cbn beta zeta.
    assert (first_slot (is_state UNUSED) (ptable s1) = Some j) as ->.
    { rewrite <- (first_slot_core (is_state UNUSED) _ _ (fun p => eq_refl)
        (ke_ptable _ _ _ H1)).
      rewrite <- Hun. apply first_slot_alter. intros p.
      unfold killp, is_state. destruct (state p) eqn:Es; simpl; by rewrite ?Es. }
    intros r s2 [Hk2 Hr]. apply wp_ret. simpl. split; [done|].
    destruct Hr as [[-> _]|(-> & q' & child & Hq' & H2 & Hfk)]; [by left|right].
    assert (q' = q1) as -> by congruence.
    destruct (keq_own _ _ _ _ _ _ H2 (Hq1 : ptable (set_nextpid _ s1) !! j = Some q1))
      as (ch' & Hch & He).
    destruct (forked_strip _ _ _ _ _ _ _ He Hfk). exists ch'. split_and!; try done.
    rewrite fk_killed. by rewrite <- (f_equal killed Heq1 : _ = killed q1).
  - rewrite (keq_length _ _ _ H1), upd_slot_length. done.
  - eapply wf_keq; [exact H1|]. apply Forall_alter; [done|].
    intros p Hp [W1 W2 W3]. unfold killp. destruct (is_state SLEEPING p); by split.
  - done.
  - by rewrite <- (f_equal state Hec : state pc = state pc1).
  - by rewrite <- (f_equal tf Hec : tf pc = tf pc1).
Qed.

(** *** The system calls of the course *)

(** A priority that was set is the priority that is read: for a valid priority
    and the pid of a used slot, [setpriority] succeeds, resets the budget, writes
    no other slot, and [getpriority] then returns it. *)
Theorem set_then_get_priority n prio j p s :
  0 <= prio <= MAXPRIORITY -> length (ptable s) = NPROC ->
  first_slot (fun p => pid p =? n) (ptable s) = Some j ->
  ptable s !! j = Some p -> state p <> UNUSED ->
  exists s', setpriority n prio s = Ok (0, s') /\
    getpriority n s' = Ok (prio, s') /\
    ptable s' = <[j := set_budget DEFAULT_BUDGET (set_priority prio p)]> (ptable s).
Proof using Type.
  intros Hp Hl Hf Hj Hu.
  set (s' := upd_slot j (set_budget DEFAULT_BUDGET) (upd_slot j (set_priority prio) s)).
  assert (Hs' : ptable s' = <[j := set_budget DEFAULT_BUDGET (set_priority prio p)]> (ptable s)).
  { unfold s'. rewrite upd_slot_upd. simpl. apply list_eq. intros k.
    destruct (decide (j = k)) as [<-|Hne].
    - rewrite list_lookup_alter_eq, Hj, list_lookup_insert_eq;
        [done|by eapply lookup_lt_Some].
    - by rewrite list_lookup_alter_ne, list_lookup_insert_ne. }
  exists s'. split_and!; [| |done].
  - by apply setpriority_run.
  - unfold getpriority.
    assert (length (ptable s') = NPROC) as Hl' by (by rewrite Hs', length_insert).
    rewrite (bind_ok _ _ _ _ _ (find_slot_spec _ s' Hl')).
    assert (first_slot (fun p => pid p =? n) (ptable s') = Some j) as ->.
    { unfold s'. simpl. by rewrite !first_slot_alter. }
    rewrite (bind_ok _ _ _ _ _ (getp_run j _ s' (upd_slot_eq j _ _ _
      (upd_slot_eq j _ _ _ Hj)))).
    unfold is_state. simpl. rewrite bool_decide_false by done.
    by rewrite (proj2 (Z.eqb_neq prio (-1))) by lia.
Qed.

(** [setpriority] rejects a priority outside the three levels, and a pid that no
    slot has, with -1, and then no process changes. *)
Theorem setpriority_rejects n prio s :
  length (ptable s) = NPROC ->
  prio < 0 \/ MAXPRIORITY < prio \/
    first_slot (fun p => pid p =? n) (ptable s) = None ->
  exists s', setpriority n prio s = Ok (-1, s') /\ ptable s' = ptable s.
Proof using Type.
  intros Hl Hbad. unfold setpriority.
  destruct (Z.ltb_spec prio 0), (Z.ltb_spec MAXPRIORITY prio); cbn [orb];
    try (eexists; split; [reflexivity|done]).
  rewrite (bind_ok _ _ _ _ _ (find_slot_spec _ s Hl)).
  destruct Hbad as [?|[?| ->]]; [lia|lia|]. eexists. by split.
Qed.

(** *** [getpinfo] *)

Definition used (T : list proc) : list proc :=
  filter (fun p => is_state UNUSED p = false) T.

(** The structure [getpinfo] returns for a table. *)
Definition info (T : list proc) (ps : pstat) : pstat :=
  Pstat (splice 0 (map inuse (used T)) (ps_inuse ps))
        (splice 0 (map tickets (used T)) (ps_tickets ps))
        (splice 0 (map pid (used T)) (ps_pid ps))
        (splice 0 (map ticks (used T)) (ps_ticks ps)).

Definition sized (ps : pstat) : Prop :=
  length (ps_inuse ps) = NPROC /\ length (ps_tickets ps) = NPROC /\
  length (ps_pid ps) = NPROC /\ length (ps_ticks ps) = NPROC.

Lemma insert_splice l v a :
  (length l < length a)%nat -> <[length l := v]> (splice 0 l a) = splice 0 (l ++ [v]) a.
Proof using Type.
  intros Hl. rewrite <- splice_one by (rewrite splice_length; lia).
  apply (splice_app 0 l [v]). simpl. lia.
Qed.

Lemma used_snoc T p : used (T ++ [p]) = used T ++ (if is_state UNUSED p then [] else [p]).
Proof using Type.
  unfold used. rewrite filter_app. f_equal.
  destruct (is_state UNUSED p) eqn:Hp.
  - by rewrite filter_cons_False by congruence.
  - by rewrite filter_cons_True by done.
Qed.

Lemma used_length T : (length (used T) <= length T)%nat.
Proof using Type. apply length_filter. Qed.

Lemma info_slot_run n ps k p s :
  ptable s !! k = Some p ->
  info_slot (n, ps) k s = Ok (if is_state UNUSED p then (n, ps) else
    (S n, Pstat (<[n := inuse p]> (ps_inuse ps)) (<[n := tickets p]> (ps_tickets ps))
                (<[n := pid p]> (ps_pid ps)) (<[n := ticks p]> (ps_ticks ps))), s).
Proof using Type.
  intros Hp. unfold info_slot. mstep (getp_run k p s Hp). by destruct (is_state UNUSED p).
Qed.

Lemma info_loop ps s :
  sized ps -> length (ptable s) = NPROC ->
  forall m k, (k + m = NPROC)%nat ->
  fold_each (seq k m) (length (used (take k (ptable s))), info (take k (ptable s)) ps)
    info_slot s =
  Ok ((length (used (ptable s)), info (ptable s) ps), s).
Proof using Type.
  intros (S1 & S2 & S3 & S4) Hl m. induction m as [|m IH]; intros k Hkm; cbn [seq fold_each].
  { rewrite take_ge by lia. done. }
  destruct (lookup_lt_is_Some_2 (ptable s) k) as [p Hp]; [lia|].
  etrans; [|apply (IH (S k)); lia].
  rewrite (bind_ok _ _ _ _ _ (info_slot_run _ _ k p s Hp)). f_equal.
  rewrite (take_S_r _ _ p Hp). unfold info. rewrite used_snoc.
  pose proof (used_length (take k (ptable s))) as Hu. rewrite length_take in Hu.
  destruct (is_state UNUSED p); mrun.
  - by rewrite app_nil_r.
  - rewrite !map_app, length_app. simpl. rewrite Nat.add_1_r.
    rewrite <- !insert_splice by (rewrite length_map; lia).
    by rewrite !length_map.
Qed.

(** [getpinfo] returns 0 and one entry per used slot, in table order, in the
    first positions of the caller's four arrays; the rest of the arrays and the
    table are as they were, and the lock is free. *)
Theorem getpinfo_reports ps i n o b s :
  kctx i n o b false s -> 0 <= n < 2 ^ 31 - 9 -> length (ptable s) = NPROC ->
  sized ps ->
  wpx F (getpinfo (Some ps)) (fun r s' => kctx i n o b false s' /\
    ptable s' = ptable s /\ r = (0, Some (info (ptable s) ps))) s.
Proof using Type.
  intros Hk Hn Hl Hs. unfold getpinfo. wbind. eapply wp_acquire; [done|lia|].
  intros v L s1 Hk1 H1. wbind.
  pose proof (info_loop ps s1 Hs Hl NPROC 0%nat eq_refl) as Hloop.
  rewrite take_0 in Hloop. unfold info at 1, used at 1 in Hloop.
  assert (Pstat (splice 0 (map inuse (used [])) (ps_inuse ps))
    (splice 0 (map tickets (used [])) (ps_tickets ps))
    (splice 0 (map pid (used [])) (ps_pid ps))
    (splice 0 (map ticks (used [])) (ps_ticks ps)) = ps) as Hps.
  { unfold used. simpl. rewrite !splice_nil. by destruct ps. }
  rewrite Hps in Hloop. eapply wp_ok; [exact Hloop|].
  wbind. eapply wp_release; [done|lia|]. intros v2 L2 s2 Hk2 H2. by apply wp_ret.
Qed.

(** Given the null pointer, [getpinfo] returns -1 with [ptable.lock] still held:
    the next [acquire] of it on this CPU panics. *)
Theorem getpinfo_null_keeps_the_lock i n o b s :
  kctx i n o b false s -> 0 <= n < 2 ^ 31 - 10 ->
  exists s', getpinfo None s = Ok ((-1, None), s') /\ kctx i (n + 1) o b true s' /\
    acquire_lk ptable_lock s' = Panic "acquire".
Proof using Type.
  intros Hk Hn.
  assert (wp (getpinfo None) (fun r s' => r = (-1, None) /\ kctx i (n + 1) o b true s') s)
    as H.
  { unfold getpinfo. wbind. eapply wp_acquire; [done|lia|]. intros v L s1 Hk1 H1.
    wbind. apply wp_cprintf. apply wp_ret. split; [done|]. by destruct Hk1. }
  apply wp_inv in H as (r & s' & Hrun & -> & Hk'). exists s'. split_and!; [done|done|].
  destruct Hk' as [Ha (lk & Hlk & Hl & Hi)].
  destruct (cpu_at_entry _ _ _ _ _ Ha ltac:(lia)) as (c & He & Hc & _).
  unfold acquire_lk. mrun. rewrite Hlk. mrun. apply bind_panic_ok.
  unfold on_mac. by rewrite (acquire_held i c) by (done || lia || auto).
Qed.
End Theorems.

(** ** Instances

    On the round-robin kernel: process 0 is the first process, process 1 its
    child, process 2 a child of process 1. *)

Definition family (st0 st1 st2 : procstate) (ch0 ch1 : ptr) : list proc :=
  table [mkproc st0 1 None ch0; mkproc st1 2 (Some 0%nat) ch1;
         mkproc st2 3 (Some 1%nat) Null].

Lemma family_wf st0 st1 st2 ch0 ch1 : Forall wf_proc (family st0 st1 st2 ch0 ch1).
Proof.
  apply Forall_app. split; [|apply Forall_replicate; split; [done|done|by repeat constructor]].
  repeat (apply Forall_cons; split; [split; [done|done|by repeat constructor]|]). done.
Qed.

Lemma fork_creates_child_witness :
  let T := family SLEEPING RUNNING ZOMBIE (PProc 0) Null in
  let s := kstate (Some 1%nat) T 4 tt in
  wp fork (fun r s' => kctx 0 0 (Some 1%nat) true false s' /\
    ((r = -1 /\ forall k p, T !! k = Some p ->
        exists p', ptable s' !! k = Some p' /\ kept_or_unused T k p p') \/
     (r = 4 /\ exists j q child,
        first_slot (is_state UNUSED) T = Some j /\
        T !! j = Some q /\ ptable s' !! j = Some child /\
        forked (mkproc RUNNING 2 (Some 0%nat) Null) tf_zero 1 4 q child /\
        forall k p, k <> j -> T !! k = Some p ->
          exists p', ptable s' !! k = Some p' /\ strip p' = strip p))) s.
Proof.
  apply (fork_creates_child never 0 0 1 true
    (kstate (Some 1%nat) (family SLEEPING RUNNING ZOMBIE (PProc 0) Null) 4 tt));
    [apply kstate_kctx|done|done|apply family_wf|done..].
Defined.

Lemma wait_returns_at_once_witness :
  let T := family SLEEPING RUNNING ZOMBIE (PProc 0) Null in
  let s := kstate (Some 1%nat) T 4 tt in
  wp (wait 1) (fun r s' => kctx 0 0 (Some 1%nat) true false s' /\
    match first_slot (zombie_child 1) T with
    | Some j => exists p, T !! j = Some p /\ r = pid p /\ keq 0 (upd_slot j reaped s) s'
    | None => r = -1 /\ keq 0 s s'
    end) s.
Proof.
  apply (wait_returns_at_once never 0 0 0 1 true
    (kstate (Some 1%nat) (family SLEEPING RUNNING ZOMBIE (PProc 0) Null) 4 tt)
    (mkproc RUNNING 2 (Some 0%nat) Null)); [apply kstate_kctx|done..].
Defined.

Lemma kill_zero_kills_next_child_witness :
  let s := kstate (Some 1%nat) (family SLEEPING RUNNING ZOMBIE (PProc 0) Null) 4 tt in
  wp (kill 0 ≫= fun k => fork ≫= fun r => mret (k, r)) (fun kr s' =>
    fst kr = 0 /\ (snd kr = -1 \/ exists child, ptable s' !! 3%nat = Some child /\
      pid child = snd kr /\ state child = RUNNABLE /\ killed child = true)) s.
Proof.
  apply (kill_zero_kills_next_child never 0 0 1 true
    (kstate (Some 1%nat) (family SLEEPING RUNNING ZOMBIE (PProc 0) Null) 4 tt)
    (mkproc RUNNING 2 (Some 0%nat) Null) tf_zero 3 proc_zero);
    [apply kstate_kctx|done|done|apply family_wf|done..].
Defined.

Lemma set_then_get_priority_witness :
  let s := kstate (Some 1%nat) (family SLEEPING RUNNING ZOMBIE (PProc 0) Null) 4 tt in
  exists s', setpriority 2 1 s = Ok (0, s') /\ getpriority 2 s' = Ok (1, s') /\
    ptable s' = <[1%nat := set_budget DEFAULT_BUDGET
      (set_priority 1 (mkproc RUNNING 2 (Some 0%nat) Null))]> (ptable s).
Proof.
  apply (set_then_get_priority 2 1 1 (mkproc RUNNING 2 (Some 0%nat) Null)
    (kstate (Some 1%nat) (family SLEEPING RUNNING ZOMBIE (PProc 0) Null) 4 tt)); done.
Defined.

Lemma setpriority_rejects_witness :
  let s := kstate (Some 1%nat) (family SLEEPING RUNNING ZOMBIE (PProc 0) Null) 4 tt in
  exists s', setpriority 9 1 s = Ok (-1, s') /\ ptable s' = ptable s.
Proof.
  apply (setpriority_rejects 9 1
    (kstate (Some 1%nat) (family SLEEPING RUNNING ZOMBIE (PProc 0) Null) 4 tt));
    [done|by right; right].
Defined.

Lemma getpinfo_reports_witness :
  let s := kstate (Some 1%nat) (family SLEEPING RUNNING ZOMBIE (PProc 0) Null) 4 tt in
  wp (getpinfo (Some pstat_zero)) (fun r s' => kctx 0 0 (Some 1%nat) true false s' /\
    ptable s' = ptable s /\ r = (0, Some (info (ptable s) pstat_zero))) s.
Proof.
  apply (getpinfo_reports never pstat_zero 0 0 (Some 1%nat) true
    (kstate (Some 1%nat) (family SLEEPING RUNNING ZOMBIE (PProc 0) Null) 4 tt));
    [apply kstate_kctx|done..].
Defined.

Lemma getpinfo_null_keeps_the_lock_witness :
  let s := kstate (Some 1%nat) (family SLEEPING RUNNING ZOMBIE (PProc 0) Null) 4 tt in
  exists s', getpinfo None s = Ok ((-1, None), s') /\
    kctx 0 1 (Some 1%nat) true true s' /\ acquire_lk ptable_lock s' = Panic "acquire".
Proof.
  apply (getpinfo_null_keeps_the_lock 0 0 (Some 1%nat) true
    (kstate (Some 1%nat) (family SLEEPING RUNNING ZOMBIE (PProc 0) Null) 4 tt));
    [apply kstate_kctx|done].
Defined.

Lemma exit_hands_over_witness :
  let pc := mkproc RUNNING 2 (Some 0%nat) Null in
  let s := kstate_locked (Some 1%nat)
    (family SLEEPING RUNNING ZOMBIE (PProc 0) Null) 4 tt in
  wp (exit_locked 1) (fun _ s' => kctx 0 1 (Some 1%nat) true true s' /\
    (exists q, ptable s' !! 1%nat = Some q /\ state q = ZOMBIE) /\
    (forall j q, ptable s' !! j = Some q -> parent q <> Some 1%nat) /\
    (forall j p, ptable s !! j = Some p -> parent p = Some 1%nat ->
       exists q, ptable s' !! j = Some q /\ parent q = initproc s) /\
    (forall j p, parent pc = Some j -> ptable s !! j = Some p ->
       state p = SLEEPING -> chan p = PProc j ->
       exists q, ptable s' !! j = Some q /\ state q = RUNNABLE) /\
    (forall j p k z, initproc s = Some j -> ptable s !! j = Some p ->
       state p = SLEEPING -> chan p = PProc j ->
       ptable s !! k = Some z -> parent z = Some 1%nat -> state z = ZOMBIE ->
       exists q, ptable s' !! j = Some q /\ state q = RUNNABLE)) s.
Proof.
  apply (exit_hands_over never 1 0 1 (Some 1%nat) true
    (kstate_locked (Some 1%nat) (family SLEEPING RUNNING ZOMBIE (PProc 0) Null) 4 tt)
    (mkproc RUNNING 2 (Some 0%nat) Null)); [apply kstate_locked_kctx|done..].
Defined.

(** While process 1 sleeps in [wait], its child, process 2, exits. *)
Definition child_exits : M (kst pages unit) unit :=
  modify (set_ptable (family SLEEPING RUNNING ZOMBIE (PProc 0) Null)).

Lemma child_exits_switches :
  switches (KE := page_env_with child_exits) never
    (fun _ _ s' => ptable s' = family SLEEPING RUNNING ZOMBIE (PProc 0) Null).
Proof.
  intros i c b s p [Ha Hl] _ _. split; [done|]. exists i, b. split; done.
Qed.

Lemma wait_sleeps_then_reaps_witness :
  let s := kstate (Some 1%nat) (family SLEEPING RUNNING RUNNABLE (PProc 0) Null) 4 tt in
  wp (wait (KE := page_env_with child_exits) 2) (fun r s' => r = 3 /\
    exists q, ptable s' !! 2%nat = Some q /\ state q = UNUSED /\ pid q = 0 /\ parent q = None) s.
Proof.
  pose proof (page_env_with_ok (Q := unit) never child_exits) as Hok.
  eapply wp_mono; [|apply (wait_sleeps_then_reaps (KE := page_env_with child_exits) never
    (fun _ _ s' => ptable s' = family SLEEPING RUNNING ZOMBIE (PProc 0) Null) 0 0 1 true
    (kstate (Some 1%nat) (family SLEEPING RUNNING RUNNABLE (PProc 0) Null) 4 tt)
    (mkproc RUNNING 2 (Some 0%nat) Null) child_exits_switches);
    [apply kstate_kctx|done..|]].
  - cbn beta. intros r s' (s1 & s2 & j & k & p & _ & Hs2 & Hj & Hp & -> & H & _).
    rewrite Hs2 in Hj, Hp. assert (j = 2%nat) as -> by (cbv in Hj; congruence).
    assert (p = mkproc ZOMBIE 3 (Some 1%nat) Null) as -> by (cbv in Hp |- *; congruence). split; [done|].
    destruct (keq_own k 2%nat reaped (upd_slot 1 (set_chan Null) s2) s'
      (mkproc ZOMBIE 3 (Some 1%nat) Null) H) as (q & Hq & He).
    { rewrite upd_slot_ne by done. by rewrite Hs2. }
    exists q. split; [done|]. rewrite <- (f_equal state He : _ = state q),
      <- (f_equal pid He : _ = pid q), <- (f_equal parent He : _ = parent q). done.
  - intros s1 s2 _ Hs2. cbn beta in Hs2. rewrite Hs2. split; [done|by eexists].
Defined.
