(* ===== verification/Trap.v ===== *)
(** * System calls and traps

    [lab-2/sysproc.c], the dispatch of [lab-2/syscall.c] and [lab-2/trap.c] over the process
    table.  What they call in other components, and the registers of the interrupt
    controller, are the interface [TrapEnv]. *)

From S2P Require Import Prelude CString Layout Spinlock ProcData Proc.

(** [user_word a] loads the integer at the address [a] of the calling process, [load_pstat]
    and [store_pstat] a [struct pstat]; [sys_file num] is the handler of [sysfile.c] with
    this number. *)
Class TrapEnv (E Q : Type) := {
  user_word : Z -> M (kst E Q) Z;
  load_pstat : Z -> M (kst E Q) pstat;
  store_pstat : Z -> pstat -> M (kst E Q) unit;
  sys_file : Z -> M (kst E Q) Z;
  ideintr : M (kst E Q) unit;
  kbdintr : M (kst E Q) unit;
  uartintr : M (kst E Q) unit;
  lapiceoi : M (kst E Q) unit;
  rcr2 : M (kst E Q) Z;
  ticks_addr : Z
}.

(** The address of [tickslock]. *)
Definition tickslock : nat := 1.

(** [sizeof(struct pstat)]. *)
Definition PSTAT_SIZE : Z := 4 * 4 * Z.of_nat NPROC.

(** ** syscall.h *)

Definition SYS_fork : Z := 1.
Definition SYS_exit : Z := 2.
Definition SYS_wait : Z := 3.
Definition SYS_pipe : Z := 4.
Definition SYS_read : Z := 5.
Definition SYS_kill : Z := 6.
Definition SYS_exec : Z := 7.
Definition SYS_fstat : Z := 8.
Definition SYS_chdir : Z := 9.
Definition SYS_dup : Z := 10.
Definition SYS_getpid : Z := 11.
Definition SYS_sbrk : Z := 12.
Definition SYS_sleep : Z := 13.
Definition SYS_uptime : Z := 14.
Definition SYS_open : Z := 15.
Definition SYS_write : Z := 16.
Definition SYS_mknod : Z := 17.
Definition SYS_unlink : Z := 18.
Definition SYS_link : Z := 19.
Definition SYS_mkdir : Z := 20.
Definition SYS_close : Z := 21.
Definition SYS_setpriority : Z := 22.
Definition SYS_getpriority : Z := 23.
Definition SYS_settickets : Z := 24.
Definition SYS_getpinfo : Z := 25.

(** ** traps.h *)

Definition T_SYSCALL : Z := 64.
Definition T_IRQ0 : Z := 32.
Definition IRQ_TIMER : Z := 0.
Definition IRQ_KBD : Z := 1.
Definition IRQ_COM1 : Z := 4.
Definition IRQ_IDE : Z := 14.
Definition IRQ_SPURIOUS : Z := 31.

(** ** The gates of trap.c *)

Definition SEG_KCODE : Z := 1.
Definition STS_IG32 : Z := 0xE.
Definition STS_TG32 : Z := 0xF.

Record gatedesc := Gatedesc {
  off_15_0 : Z; gate_cs : Z; gate_args : Z; gate_rsv1 : Z; gate_type : Z; gate_s : Z;
  gate_dpl : Z; gate_p : Z; off_31_16 : Z
}.

Definition SETGATE (istrap : bool) (sel off d : Z) : gatedesc :=
  Gatedesc (Z.land (w32 off) 0xffff) (sel mod 2 ^ 16) 0 0 (if istrap then STS_TG32 else STS_IG32) 0
    (d mod 2 ^ 2) 1 (Z.shiftr (w32 off) 16).

(** The table [tvinit] writes from the 256 [vectors]. *)
Definition tvinit (vectors : nat -> Z) : list gatedesc :=
  <[Z.to_nat T_SYSCALL := SETGATE true (Z.shiftl SEG_KCODE 3) (vectors (Z.to_nat T_SYSCALL)) DPL_USER]>
    (map (fun i => SETGATE false (Z.shiftl SEG_KCODE 3) (vectors i) 0) (seq 0 256)).

Section Traps.
Context {E Q : Type} `{KE : KernelEnv E Q} `{SP : SchedPolicy E Q} `{TE : TrapEnv E Q}.
Abbreviation K := (M (kst E Q)).

(** ** Arguments *)

(** [argint] on the process table: [None] for -1. *)
Definition proc_fetchint (addr : Z) : K (option Z) :=
  c ← curproc; p ← getp c;
  if (sz p <=? addr) || (sz p <? w32 (addr + 4)) then mret None
  else v ← user_word addr; mret (Some (i32 v)).

Definition proc_argint (n : Z) : K (option Z) :=
  c ← curproc; p ← getp c;
  t ← lift_opt "tf" (tf p);
  proc_fetchint (w32 (tf_esp t + 4 + 4 * n)).

Definition proc_argptr (n size : Z) : K (option Z) :=
  c ← curproc;
  i ← proc_argint n;
  match i with
  | None => mret None
  | Some i =>
      p ← getp c;
      if (size <? 0) || (sz p <=? w32 i) || (sz p <? w32 (w32 i + size)) then mret None
      else mret (Some (w32 i))
  end.

(** [if(argint(n, &x) < 0) return -1], and what follows. *)
Definition with_arg (n : Z) (k : Z -> K Z) : K Z :=
  x ← proc_argint n;
  match x with None => mret (-1) | Some x => k x end.

(** ** sysproc.c *)

Definition sys_fork : K Z := fork.
Definition sys_exit : K Z := exit ;; mret 0.
Definition sys_wait (fuel : nat) : K Z := wait fuel.
Definition sys_kill : K Z := with_arg 0 kill.
Definition sys_getpid : K Z := c ← curproc; p ← getp c; mret (pid p).

Definition sys_sbrk : K Z :=
  with_arg 0 (fun n =>
    c ← curproc; p ← getp c;
    let addr := i32 (sz p) in
    r ← growproc n;
    mret (if r <? 0 then -1 else addr)).

(** The loop of [sys_sleep] over the turns of waiting; [ticks - ticks0 < n] compares
    unsigned integers. *)
Fixpoint sleep_loop (fuel : nat) (ticks0 n : Z) : K Z :=
  match fuel with
  | O => diverge
  | S fuel' =>
      now ← gets kticks;
      if w32 (now - ticks0) <? w32 n then
        c ← curproc; p ← getp c;
        if killed p then release_lk tickslock ;; mret (-1)
        else sleep (PAddr ticks_addr) (Some tickslock) ;; sleep_loop fuel' ticks0 n
      else release_lk tickslock ;; mret 0
  end.

Definition sys_sleep (fuel : nat) : K Z :=
  with_arg 0 (fun n =>
    acquire_lk tickslock ;;
    ticks0 ← gets kticks;
    sleep_loop fuel ticks0 n).

Definition sys_uptime : K Z :=
  acquire_lk tickslock ;; xticks ← gets kticks; release_lk tickslock ;; mret (i32 xticks).

Definition sys_setpriority : K Z := with_arg 0 (fun pid => with_arg 1 (setpriority pid)).
Definition sys_getpriority : K Z := with_arg 0 getpriority.
Definition sys_settickets : K Z := with_arg 0 settickets.

(** [getpinfo] fills the structure at the address in place. *)
Definition sys_getpinfo : K Z :=
  a ← proc_argptr 0 PSTAT_SIZE;
  match a with
  | None => mret (-1)
  | Some a =>
      if a =? 0 then '(r, _) ← getpinfo None; mret r
      else
        ps ← load_pstat a;
        '(r, ps') ← getpinfo (Some ps);
        (match ps' with Some ps' => store_pstat a ps' | None => mret tt end) ;;
        mret r
  end.

(** ** The dispatch *)

Definition file_calls : list Z :=
  [SYS_pipe; SYS_read; SYS_exec; SYS_fstat; SYS_chdir; SYS_dup; SYS_open; SYS_write; SYS_mknod;
   SYS_unlink; SYS_link; SYS_mkdir; SYS_close].

(** The table; [fuel] bounds the turns of waiting of [wait] and [sleep]. *)
Definition syscalls (fuel : nat) (num : Z) : option (K Z) :=
  if num =? SYS_fork then Some sys_fork
  else if num =? SYS_exit then Some sys_exit
  else if num =? SYS_wait then Some (sys_wait fuel)
  else if num =? SYS_kill then Some sys_kill
  else if num =? SYS_getpid then Some sys_getpid
  else if num =? SYS_sbrk then Some sys_sbrk
  else if num =? SYS_sleep then Some (sys_sleep fuel)
  else if num =? SYS_uptime then Some sys_uptime
  else if num =? SYS_setpriority then Some sys_setpriority
  else if num =? SYS_getpriority then Some sys_getpriority
  else if num =? SYS_settickets then Some sys_settickets
  else if num =? SYS_getpinfo then Some sys_getpinfo
  else if existsb (Z.eqb num) file_calls then Some (sys_file num)
  else None.

Definition set_eax (c : nat) (v : Z) : K unit := updp c (fun p => set_tf (set_tf_eax (w32 v) <$> tf p) p).

Definition syscall (fuel : nat) : K unit :=
  c ← curproc;
  p ← getp c;
  t ← lift_opt "tf" (tf p);
  let num := i32 (tf_eax t) in
  match syscalls fuel num with
  | Some f => r ← f; set_eax c r
  | None =>
      cprintf "%d %s: unknown sys call %d\n" [AInt (pid p); AStr (cstr (name p)); AInt num] ;;
      set_eax c (-1)
  end.

(** ** trap *)

Definition exit_if_killed : K unit := c ← curproc; p ← getp c; when (killed p) exit.

(** The last checks of [trap], which need a process. *)
Definition user_exit_if_killed (t : trapframe) : K unit :=
  o ← on_mac myproc;
  match o with
  | None => mret tt
  | Some _ =>
      c ← curproc; p ← getp c;
      when (killed p && (Z.land (tf_cs t) 3 =? DPL_USER)) exit
  end.

Definition yield_on_tick (t : trapframe) : K unit :=
  o ← on_mac myproc;
  match o with
  | None => mret tt
  | Some _ =>
      c ← curproc; p ← getp c;
      when (is_state RUNNING p && (tf_trapno t =? T_IRQ0 + IRQ_TIMER)) yield
  end.

Definition timer_tick : K unit :=
  i ← on_mac cpuid;
  when (i =? 0)%nat
    (acquire_lk tickslock ;;
     modify (fun s => set_kticks (w32 (kticks s + 1)) s) ;;
     wakeup (PAddr ticks_addr) ;;
     release_lk tickslock).

(** A trap that nobody expects: the kernel's own mistake, or the process's. *)
Definition unexpected (t : trapframe) : K unit :=
  o ← on_mac myproc;
  if bool_decide (o = None) || (Z.land (tf_cs t) 3 =? 0) then
    i ← on_mac cpuid; a ← rcr2;
    cprintf "unexpected trap %d from cpu %d eip %x (cr2=0x%x)\n"
      [AInt (tf_trapno t); AInt (Z.of_nat i); AInt (tf_eip t); AInt a] ;;
    panic "trap"
  else
    c ← curproc; p ← getp c;
    i ← on_mac cpuid; a ← rcr2;
    cprintf "pid %d %s: trap %d err %d on cpu %d eip 0x%x addr 0x%x--kill proc\n"
      [AInt (pid p); AStr (cstr (name p)); AInt (tf_trapno t); AInt (tf_err t); AInt (Z.of_nat i);
       AInt (tf_eip t); AInt a] ;;
    updp c (set_killed true).

Definition dispatch (t : trapframe) : K unit :=
  let n := tf_trapno t in
  if n =? T_IRQ0 + IRQ_TIMER then timer_tick ;; lapiceoi
  else if n =? T_IRQ0 + IRQ_IDE then ideintr ;; lapiceoi
  else if n =? T_IRQ0 + IRQ_IDE + 1 then mret tt
  else if n =? T_IRQ0 + IRQ_KBD then kbdintr ;; lapiceoi
  else if n =? T_IRQ0 + IRQ_COM1 then uartintr ;; lapiceoi
  else if (n =? T_IRQ0 + 7) || (n =? T_IRQ0 + IRQ_SPURIOUS) then
    i ← on_mac cpuid;
    cprintf "cpu%d: spurious interrupt at %x:%x\n" [AInt (Z.of_nat i); AInt (tf_cs t); AInt (tf_eip t)] ;;
    lapiceoi
  else unexpected t.

Definition trap (fuel : nat) (t : trapframe) : K unit :=
  if tf_trapno t =? T_SYSCALL then
    exit_if_killed ;;
    c ← curproc;
    updp c (set_tf (Some t)) ;;
    syscall fuel ;;
    exit_if_killed
  else
    dispatch t ;;
    user_exit_if_killed t ;;
    yield_on_tick t ;;
    user_exit_if_killed t.
End Traps.
