(* ===== verification/TrapProps.v ===== *)
(** * Properties of system calls and traps

    What a process can rely on when the kernel has been entered: nobody returns to a killed
    process, [fork] returns in both processes, [sleep] waits for its ticks and ends, and a
    tick of the clock wakes those who wait for it. *)

From S2P Require Import Prelude CString Layout Spinlock ProcData Proc ProcSpec Env Original Trap.

(** ** The running process *)

(** What [myproc] returns. *)
Definition cur (m : mach) : option nat := i ← find_cpu m; c ← cpus m !! i; cproc c.

Lemma bind_inv {S A B} (m : M S A) (f : A -> M S B) s b s' :
  (m ≫= f) s = Ok (b, s') -> exists a s1, m s = Ok (a, s1) /\ f a s1 = Ok (b, s').
Proof. unfold mbind, M_bind. destruct (m s) as [[a s1]| | |]; [by exists a, s1|done..]. Qed.

(** Takes a sequence that returned apart. *)
Ltac binv H :=
  let a := fresh "a" in let s := fresh "s" in let E := fresh "E" in
  apply bind_inv in H as (a & s & E & H).

Lemma cur_upd i f m : (forall c, apicid (f c) = apicid c) -> (forall c, cproc (f c) = cproc c) ->
  cur (upd_cpu i f m) = cur m.
Proof.
  intros Ha Hc. unfold cur. destruct (find_cpu m) as [j|] eqn:Hf.
  - rewrite (find_cpu_alter m j i f Ha Hf). cbn. destruct (decide (i = j)) as [->|Hne].
    + rewrite list_lookup_alter_eq. destruct (cpus m !! j); [|done]. cbn. apply Hc.
    + by rewrite list_lookup_alter_ne.
  - assert (find_cpu (upd_cpu i f m) = None) as ->; [|done].
    unfold find_cpu in *. apply fmap_None, list_find_None, Forall_lookup. apply fmap_None, list_find_None in Hf.
    intros k c. cbn. destruct (decide (i = k)) as [->|Hne].
    + rewrite list_lookup_alter_eq. intros (c0 & Hc0 & ->)%fmap_Some. rewrite Ha.
      by apply (Forall_lookup_1 _ _ _ _ Hf Hc0).
    + rewrite list_lookup_alter_ne by done. apply (Forall_lookup_1 _ _ _ _ Hf).
Qed.

Lemma mycpu_inv m i m' : mycpu m = Ok (i, m') -> m' = m /\ find_cpu m = Some i.
Proof.
  unfold mycpu. intros H. binv H. injection E as <- <-. destruct (eflags_IF m); [done|].
  binv H. injection E as <- <-. destruct (find_cpu m); [|done]. by injection H as <- <-.
Qed.

Lemma getcpu_inv i m c m' : getcpu i m = Ok (c, m') -> m' = m /\ cpus m !! i = Some c.
Proof.
  unfold getcpu. intros H. binv H. injection E as <- <-. destruct (cpus m !! i); [|done]. by injection H as <- <-.
Qed.

Lemma pushcli_cur m m' : pushcli m = Ok (tt, m') -> cur m' = cur m.
Proof.
  unfold pushcli. intros H. binv H. injection E as <- <-. binv H. injection E as _ <-.
  binv H. apply mycpu_inv in E as [-> _]. binv H. apply getcpu_inv in E as [-> _].
  binv H. binv H. apply mycpu_inv in E0 as [-> _]. injection H as <-.
  rewrite cur_upd by done. destruct (ncli _ =? 0); injection E as <- <-; by rewrite ?cur_upd.
Qed.

Lemma popcli_cur m m' : popcli m = Ok (tt, m') -> cur m' = cur m.
Proof.
  unfold popcli. intros H. binv H. injection E as <- <-. destruct (eflags_IF m); [done|].
  binv H. apply mycpu_inv in E as [-> _]. binv H. injection E as <- <-.
  binv H. apply getcpu_inv in E as [-> _]. destruct (_ <? 0); [done|].
  transitivity (cur (upd_cpu a (fun c => set_ncli (i32 (ncli c - 1)) c) m)); [|by rewrite cur_upd].
  destruct (_ && _); by injection H as <-.
Qed.

Lemma myproc_inv m o m' : myproc m = Ok (o, m') -> o = cur m' /\ cur m' = cur m.
Proof.
  unfold myproc. intros H. binv H. destruct a. apply pushcli_cur in E.
  binv H. apply mycpu_inv in E0 as [-> Hi]. binv H. apply getcpu_inv in E0 as [-> Hc].
  binv H. destruct a1. apply popcli_cur in E0. injection H as <- <-. rewrite E0.
  split; [|done]. unfold cur. rewrite Hi. cbn. by rewrite Hc.
Qed.

Section Alive.
Context {E Q : Type} `{KE : KernelEnv E Q} `{SP : SchedPolicy E Q} `{TE : TrapEnv E Q}.
Implicit Types s : kst E Q.

(** The running process, if there is one, has not been killed. *)
Definition alive s : Prop :=
  forall c, cur (mac s) = Some c -> exists p, ptable s !! c = Some p /\ killed p = false.

Lemma on_mac_inv {A} (m : M mach A) s a s' : on_mac m s = Ok (a, s') ->
  exists v, m (mac s) = Ok (a, v) /\ s' = set_mac v s.
Proof. unfold on_mac. destruct (m (mac s)) as [[x v]| | |]; [|done..]. intros [= <- <-]. by exists v. Qed.

Lemma curproc_inv s c s' : curproc s = Ok (c, s') -> cur (mac s') = Some c /\ ptable s' = ptable s.
Proof.
  unfold curproc. intros H. binv H. apply on_mac_inv in E0 as (v & Hm & ->). apply myproc_inv in Hm as [-> _].
  destruct (cur v) eqn:Hv; [|done]. by injection H as <- <-.
Qed.

Lemma getp_inv j s p s' : getp j s = Ok (p, s') -> s' = s /\ ptable s !! j = Some p.
Proof.
  unfold getp. intros H. binv H. injection E0 as <- <-. destruct (ptable s !! j); [|done]. by injection H as <- <-.
Qed.

Lemma exit_never_returns s x : exit s <> Ok x.
Proof.
  intros H. destruct x as [[] s']. unfold exit in H. binv H. binv H. case_bool_decide; [done|].
  do 9 binv H. done.
Qed.

Lemma exit_if_killed_alive s s' : exit_if_killed s = Ok (tt, s') -> alive s'.
Proof.
  unfold exit_if_killed. intros H. binv H. apply curproc_inv in E0 as [Hc _]. binv H.
  apply getp_inv in E0 as [-> Hp]. destruct (killed a0) eqn:Hk; cbn [when] in H.
  - by apply exit_never_returns in H.
  - injection H as <-. intros c Hc'. rewrite Hc in Hc'. injection Hc' as <-. by exists a0.
Qed.

Lemma user_exit_if_killed_alive t s s' : Z.land (tf_cs t) 3 = DPL_USER ->
  user_exit_if_killed t s = Ok (tt, s') -> alive s'.
Proof.
  intros Ht. unfold user_exit_if_killed. rewrite Ht. intros H. binv H.
  apply on_mac_inv in E0 as (v & Hm & ->). apply myproc_inv in Hm as [-> _].
  destruct (cur v) eqn:Hv.
  - apply (exit_if_killed_alive (set_mac v s)). unfold exit_if_killed. rewrite <- H.
    apply bind_ext. intros c s1. apply bind_ext. intros p s2. by rewrite Z.eqb_refl, andb_true_r.
  - injection H as <-. intros c. cbn. by rewrite Hv.
Qed.

(** C29. [trap] returns to no process that has been killed: when it returns from a system call,
    or to user mode, the process that runs then is not marked, whatever the handlers, the
    scheduler and the other processes did in between. *)
Theorem killed_process_never_returns fuel t s s' :
  trap fuel t s = Ok (tt, s') -> tf_trapno t = T_SYSCALL \/ Z.land (tf_cs t) 3 = DPL_USER -> alive s'.
Proof.
  unfold trap. intros H Ht. destruct (Z.eqb_spec (tf_trapno t) T_SYSCALL) as [He|Hne].
  - do 4 binv H. by eapply exit_if_killed_alive.
  - destruct Ht as [Ht|Ht]; [done|]. do 3 binv H. by eapply user_exit_if_killed_alive.
Qed.
End Alive.

(** ** Other locks than that of the table *)

Section Locks.
Context {E Q : Type}.
Context (F : failure -> Prop).
Implicit Types s : kst E Q.

Lemma wp_acquire_other l i n o b hd nm lc (Qp : unit -> kst E Q -> Prop) s :
  l <> ptable_lock -> kctx i n o b hd s -> 0 <= n < 2 ^ 31 - 5 -> locks s !! l = Some (Spinlock false nm lc) ->
  (forall v, let s' := set_locks (<[l := Spinlock true nm (Some i)]> (locks s)) (set_mac v s) in
     kctx i (n + 1) o b hd s' -> other_cpus i (mac s) v -> Qp tt s') ->
  wpx F (acquire_lk l) Qp s.
Proof.
  intros Hne [Ha (lk & Hl & Hf & Hi)] Hn Hlk HQ.
  destruct (acquire_at _ _ _ _ _ _ Ha Hn (eq_refl : locked (Spinlock false nm lc) = false)) as (v & Hm & Ha' & Ho).
  unfold acquire_lk. wbind. apply wp_get. wbind. rewrite Hlk. apply wp_ret.
  wbind. eapply wp_ok; [by apply on_mac_ok|]. apply wp_modify. apply HQ; [|done].
  split; [done|]. exists lk. cbn. by rewrite lookup_insert_ne.
Qed.

Lemma wp_release_other l i n o b hd nm (Qp : unit -> kst E Q -> Prop) s :
  l <> ptable_lock -> kctx i (n + 1) o b hd s -> 0 <= n < 2 ^ 31 - 5 ->
  locks s !! l = Some (Spinlock true nm (Some i)) ->
  (forall v, let s' := set_locks (<[l := Spinlock false nm None]> (locks s)) (set_mac v s) in
     kctx i n o b hd s' -> other_cpus i (mac s) v -> Qp tt s') ->
  wpx F (release_lk l) Qp s.
Proof.
  intros Hne [Ha (lk & Hl & Hf & Hi)] Hn Hlk HQ.
  destruct (release_at _ _ _ _ _ _ Ha Hn (eq_refl : locked (Spinlock true nm (Some i)) = true) eq_refl) as (v & Hm & Ha' & Ho).
  unfold release_lk. wbind. apply wp_get. wbind. rewrite Hlk. apply wp_ret.
  wbind. eapply wp_ok; [by apply on_mac_ok|]. apply wp_modify. apply HQ; [|done].
  split; [done|]. exists lk. cbn. by rewrite lookup_insert_ne.
Qed.

(** The lock [l] is not held. *)
Definition lock_free (l : nat) s : Prop := exists nm, locks s !! l = Some (Spinlock false nm None).

Lemma keq_lock i l s s' : keq i s s' -> l <> ptable_lock -> locks s' !! l = locks s !! l.
Proof. intros [] Hl. auto. Qed.
End Locks.

(** ** What the interface promises *)

Class TrapOk (F : failure -> Prop) (E Q : Type) `{TrapEnv E Q} : Prop := {
  user_word_ok a : neutral F (user_word a);
  lapiceoi_ok : neutral F lapiceoi
}.

Section Calls.
Context {E Q : Type} `{KE : KernelEnv E Q} `{SP : SchedPolicy E Q} `{TE : TrapEnv E Q}.
Context (F : failure -> Prop) `{!EnvOk F E Q} `{!PolicyOk F E Q} `{!TrapOk F E Q}.
Implicit Types s : kst E Q.

(** *** Arguments *)

(** The word at the address [a] of the running process is [v]. *)
Definition user_has (i : nat) (a v : Z) s : Prop :=
  forall s1, keq i s s1 -> match user_word a s1 with Ok (w, _) => w = v | _ => True end.

(** The argument [n] of the call is the integer [x]. *)
Definition arg_is (i c : nat) (n x : Z) s : Prop := exists p t w,
  ptable s !! c = Some p /\ tf p = Some t /\ w32 (tf_esp t + 4 + 4 * n) + 4 <= sz p < 2 ^ 32 /\
  user_has i (w32 (tf_esp t + 4 + 4 * n)) w s /\ x = i32 w.

Lemma user_has_keq i a v s s1 : user_has i a v s -> keq i s s1 -> user_has i a v s1.
Proof. intros Hu H s2 H2. apply Hu. by etrans. Qed.

Lemma wp_argint i m c b hd n x (Qp : option Z -> kst E Q -> Prop) s :
  kctx i m (Some c) b hd s -> 0 <= m < 2 ^ 31 - 8 -> arg_is i c n x s ->
  (forall s', kctx i m (Some c) b hd s' -> keq i s s' -> Qp (Some x) s') ->
  wpx F (proc_argint n) Qp s.
Proof using All.
  intros Hk Hm (p & t & w & Hp & Ht & Hfit & Hu & ->) HQ. unfold proc_argint. wbind. eapply wp_curproc; [done|lia|].
  intros v Hk1 H1. wbind. eapply wp_getp; [exact Hp|]. rewrite Ht. wbind. eapply wp_lift_opt; [done|].
  set (a := w32 (tf_esp t + 4 + 4 * n)) in *. unfold proc_fetchint. wbind. eapply wp_curproc; [done|lia|].
  intros v' Hk2 H2. wbind. eapply wp_getp; [exact Hp|].
  pose proof (w32_bounds (tf_esp t + 4 + 4 * n)) as Ha. fold a in Ha.
  rewrite (proj2 (Z.leb_gt _ _)), (w32_small (a + 4)), (proj2 (Z.ltb_ge _ _)) by lia. cbn [orb].
  wbind. eapply wp_neutral_eq; [apply user_word_ok|done|lia|]. intros r s3 Hr Hk3 H3. apply wp_ret.
  specialize (Hu _ (transitivity H1 H2)). rewrite Hr in Hu. subst r.
  apply HQ; [done|]. etrans; [exact H1|]. by etrans.
Qed.

(** *** sleep *)

(** [sleep] on another lock than that of the table: the lock is given back only when the
    table is locked, and taken again when the process has been resumed. *)
Lemma sleep_other_spec R ch l nm i c b s p (Qp : unit -> kst E Q -> Prop) :
  switches F R -> l <> ptable_lock -> kctx i 1 (Some c) b false s -> ptable s !! c = Some p ->
  locks s !! l = Some (Spinlock true nm (Some i)) ->
  (forall s1 s2, keq i (upd_slot c (set_state SLEEPING ∘ set_chan ch)
       (set_locks (<[l := Spinlock false nm None]> (locks s)) s)) s1 -> R c s1 s2 ->
     lock_free l s2 /\
     forall s3 j nm', kctx j 1 (Some c) b false s3 -> locks s3 !! l = Some (Spinlock true nm' (Some j)) ->
       kticks s3 = kticks s2 -> core_eq (alter (set_chan Null) c (ptable s2)) (ptable s3) -> Qp tt s3) ->
  wpx F (sleep ch (Some l)) Qp s.
Proof using All.
  intros HR Hne Hk Hp Hl HQ. unfold sleep. wbind. eapply wp_myproc; [done|lia|].
  intros v Hk1 H1. rewrite (proj2 (Nat.eqb_neq l ptable_lock) Hne). cbn [negb when].
  wbind. wbind. eapply wp_acquire; [done|lia|]. intros v2 L2 s2 Hk2 H2.
  assert (H12 := transitivity H1 H2).
  eapply (wp_release_other F l i 1); [done|exact Hk2|lia|by rewrite (keq_lock i l _ _ H12 Hne)|].
  intros v3 s3 Hk3 Ho3. wbind. apply wp_updp. wbind. apply wp_updp. wbind. rewrite upd_slot_upd.
  assert (keq i (set_locks (<[l := Spinlock false nm None]> (locks s)) s) s3) as H3.
  { destruct H12 as [C1 G1 G2 G3 G4 G5 G6]. split; try done; cbn.
    - etrans; [exact G5|exact Ho3].
    - intros k Hk'. destruct (decide (l = k)) as [->|Hlk]; [by rewrite !lookup_insert_eq|].
      rewrite !lookup_insert_ne by done. by apply G6. }
  destruct (keq_slot _ _ _ _ _ H3 (Hp : ptable (set_locks _ s) !! c = Some p)) as (p3 & Hp3 & _).
  eapply (sched_spec F i c b); [by apply kctx_upd|by apply upd_slot_eq|done|].
  intros s4 Hk4 H4. destruct (keq_own _ _ _ _ _ _ H4 Hp3) as (p4 & Hp4 & Hst4).
  eapply wp_mono; [|apply (HR _ _ _ _ _ Hk4 Hp4)].
  2:{ by rewrite <- (f_equal state Hst4 : _ = state p4). }
  cbn beta. intros [] s5 (HR5 & j & b' & Hk5). exists j, b'. split; [done|].
  destruct (HQ s4 s5) as [[nm' Hfr] HQ5]; [|done|].
  { etrans; [|exact H4]. by apply (keq_upd_slot i c (set_state SLEEPING ∘ set_chan ch)). }
  intros s6 Hk6 H6. wbind. apply wp_updp. wbind.
  eapply (wp_release F j 0); [by apply kctx_upd|lia|]. intros v7 L7 s7 Hk7 H7.
  assert (keq j (upd_slot c (set_chan Null) s5) s7) as H57.
  { etrans; [|exact H7]. by apply (keq_upd_slot j c (set_chan Null)). }
  eapply (wp_acquire_other F l j 0); [done|exact Hk7|lia| |].
  { rewrite (keq_lock j l _ _ H57 Hne). exact Hfr. }
  intros v8 s8 Hk8 Ho8. eapply (HQ5 s8 j nm'); [done|cbn; by rewrite lookup_insert_eq| |apply H57].
  exact (ke_kticks _ _ _ H57).
Qed.
Lemma wp_with_arg i m c b hd n x k (Qp : Z -> kst E Q -> Prop) s :
  kctx i m (Some c) b hd s -> 0 <= m < 2 ^ 31 - 8 -> arg_is i c n x s ->
  (forall s', kctx i m (Some c) b hd s' -> keq i s s' -> wpx F (k x) Qp s') ->
  wpx F (with_arg n k) Qp s.
Proof using All. intros Hk Hm Ha HQ. unfold with_arg. wbind. by eapply wp_argint. Qed.

(** A process that slept is resumed when the clock has ticked, at most [D] times, or when
    it has been killed; the lock of the clock is free then. *)
Definition ticking (D : Z) (R : nat -> kst E Q -> kst E Q -> Prop) : Prop := forall c s1 s2 p,
  lock_free tickslock s1 -> ptable s1 !! c = Some p -> R c s1 s2 -> lock_free tickslock s2 /\
  exists p2 d, ptable s2 !! c = Some p2 /\ 0 <= d <= D /\ kticks s2 = w32 (kticks s1 + d) /\
    (d = 0 -> killed p2 = true).

Lemma elapsed_step t k t0 d : t = w32 (k + d) -> w32 (t - t0) = w32 (w32 (k - t0) + d).
Proof. intros ->. unfold w32. rewrite Zminus_mod_idemp_l, Zplus_mod_idemp_l. f_equal. lia. Qed.

Lemma sleep_loop_spec R D c b t0 n fuel : switches F R -> ticking D R -> w32 n + D <= 2 ^ 32 ->
  forall i s p nm, kctx i 1 (Some c) b false s -> ptable s !! c = Some p ->
  locks s !! tickslock = Some (Spinlock true nm (Some i)) -> w32 (kticks s - t0) < w32 n + D ->
  (0 < fuel)%nat -> killed p = true \/ w32 n - w32 (kticks s - t0) < Z.of_nat fuel ->
  wpx F (sleep_loop fuel t0 n) (fun r s' => exists j, kctx j 0 (Some c) b false s' /\ lock_free tickslock s' /\
    ((r = 0 /\ w32 n <= w32 (kticks s' - t0) < w32 n + D) \/
     (r = -1 /\ exists p', ptable s' !! c = Some p' /\ killed p' = true))) s.
Proof using All.
  intros HR Ht HD. induction fuel as [|fuel IH]; intros i s p nm Hk Hp Hl He Hf Hd; [lia|].
  pose proof (w32_bounds (kticks s - t0)) as Hb. cbn [sleep_loop]. wbind. apply wp_gets.
  destruct (Z.ltb_spec (w32 (kticks s - t0)) (w32 n)) as [Hlt|Hge].
  2:{ wbind. eapply (wp_release_other F tickslock i 0); [done|exact Hk|lia|exact Hl|].
      intros v s1 Hk1 _. apply wp_ret. exists i. split_and!; [done|exists nm; apply lookup_insert_eq|].
      left. cbn. lia. }
  wbind. eapply wp_curproc; [done|lia|]. intros v Hk1 H1. wbind. eapply wp_getp; [exact Hp|].
  destruct (killed p) eqn:Hkl.
  { wbind. eapply (wp_release_other F tickslock i 0); [done|exact Hk1|lia|exact Hl|].
    intros v' s1 Hk2 _. apply wp_ret. exists i. split_and!; [done|exists nm; apply lookup_insert_eq|].
    right. split; [done|]. by exists p. }
  destruct Hd as [|Hd]; [done|]. wbind.
  eapply (sleep_other_spec R _ tickslock nm i c b _ p); [done|done|exact Hk1|exact Hp|exact Hl|].
  intros s2 s3 H2 HR3.
  destruct (keq_slot _ _ _ _ _ H2 (upd_slot_eq c _ (set_locks _ (set_mac v s)) p Hp)) as (p2 & Hp2 & _).
  destruct (Ht c s2 s3 p2) as [Hfr (p3 & d & Hp3 & Hd3 & Ht3 & Hk3)]; [|done|done|].
  { exists nm. rewrite (keq_lock i tickslock _ _ H2) by done. apply lookup_insert_eq. }
  split; [done|]. intros s4 j nm' Hk4 Hl4 Ht4 Hc4.
  assert (w32 (kticks s4 - t0) = w32 (kticks s - t0) + d) as Hel.
  { rewrite (elapsed_step (kticks s4) (kticks s) t0 d).
    - apply w32_small. lia.
    - by rewrite Ht4, Ht3, (ke_kticks _ _ _ H2). }
  destruct (core_eq_lookup _ _ c (set_chan Null p3) Hc4) as (p4 & Hp4 & Hs4).
  { by rewrite list_lookup_alter_eq, Hp3. }
  eapply (IH j s4 p4 nm'); [done..|lia|lia|]. rewrite Hel.
  destruct (decide (d = 0)) as [Hz|]; [left|right; lia].
  rewrite <- (f_equal killed Hs4 : killed (set_chan Null p3) = killed p4). by apply Hk3.
Qed.

(** C31. [sleep(n)] waits for [n] ticks of the clock and ends: it returns 0 when at least [n]
    ticks have passed and not [D] more than that, if the scheduler resumes it within [D]
    ticks, or -1 when the process has been killed; it holds no lock then.  A negative [n]
    counts as an unsigned number. *)
Theorem sleep_waits_for_its_ticks R D fuel i c b s n :
  switches F R -> ticking D R -> 1 <= D -> w32 n + D <= 2 ^ 32 -> w32 n < Z.of_nat fuel ->
  kctx i 0 (Some c) b false s -> lock_free tickslock s -> arg_is i c 0 n s ->
  wpx F (sys_sleep fuel) (fun r s' => exists j, kctx j 0 (Some c) b false s' /\ lock_free tickslock s' /\
    ((r = 0 /\ w32 n <= w32 (kticks s' - kticks s) < w32 n + D) \/
     (r = -1 /\ exists p', ptable s' !! c = Some p' /\ killed p' = true))) s.
Proof using All.
  intros HR Ht HD1 HD Hf Hk [nm Hl] Ha. unfold sys_sleep.
  eapply (wp_with_arg i 0 c b false 0 n); [done|lia|done|]. intros s1 Hk1 H1.
  destruct Ha as (p & t & w & Hp & _). destruct (keq_slot _ _ _ _ _ H1 Hp) as (p1 & Hp1 & _).
  wbind. eapply (wp_acquire_other F tickslock i 0); [done|exact Hk1|lia| |].
  { rewrite (keq_lock i tickslock _ _ H1) by done. exact Hl. }
  intros v s2 Hk2 _. wbind. apply wp_gets. cbn. rewrite (ke_kticks _ _ _ H1).
  pose proof (w32_bounds n).
  assert (w32 (kticks s2 - kticks s) = 0) as Hz.
  { change (kticks s2) with (kticks s1). by rewrite (ke_kticks _ _ _ H1), Z.sub_diag. }
  eapply (sleep_loop_spec R D c b (kticks s) n fuel HR Ht HD i s2 p1 nm Hk2 Hp1); [apply lookup_insert_eq|..]; lia.
Qed.
(** *** fork *)

Lemma exit_if_killed_spec i n c b hd p (Qp : unit -> kst E Q -> Prop) s :
  kctx i n (Some c) b hd s -> 0 <= n < 2 ^ 31 - 8 -> ptable s !! c = Some p -> killed p = false ->
  (forall s', kctx i n (Some c) b hd s' -> keq i s s' -> Qp tt s') -> wpx F exit_if_killed Qp s.
Proof using All.
  intros Hk Hn Hp Hkl HQ. unfold exit_if_killed. wbind. eapply wp_curproc; [done|lia|].
  intros v Hk1 H1. wbind. eapply wp_getp; [exact Hp|]. rewrite Hkl. cbn [when]. apply wp_ret. by apply HQ.
Qed.

(** What [fork] by the process [pc] in slot [c] makes of the other slots: on failure the
    first unused slot is unused again, without a kernel stack, and all others are as before. *)
Definition after_fork (c : nat) (pc : proc) (t : trapframe) s (r : Z) s' : Prop :=
  (r = -1 /\ forall k p, k <> c -> ptable s !! k = Some p ->
     exists p', ptable s' !! k = Some p' /\ kept_or_unused (ptable s) k p p') \/
  (r = nextpid s /\ exists j q child, j <> c /\ first_slot (is_state UNUSED) (ptable s) = Some j /\
     ptable s !! j = Some q /\ ptable s' !! j = Some child /\ forked pc t c (nextpid s) q child /\
     forall k p, k <> c -> k <> j -> ptable s !! k = Some p -> exists p', ptable s' !! k = Some p' /\ strip p' = strip p).

Lemma fork_at i c b s pc t :
  kctx i 0 (Some c) b false s -> length (ptable s) = NPROC -> Forall wf_proc (ptable s) ->
  ptable s !! c = Some pc -> state pc <> UNUSED -> tf pc = Some t ->
  wpx F fork (fun r s' => kctx i 0 (Some c) b false s' /\ after_fork c pc t s r s' /\
    exists pc', ptable s' !! c = Some pc' /\ strip pc' = strip pc) s.
Proof using All.
  intros Hk Hl Hwf Hc Hst Ht. eapply wp_mono; [|by apply (fork_outcome F i 0 c b s pc t)]. cbn beta.
  assert (forall j, first_slot (is_state UNUSED) (ptable s) = Some j -> j <> c) as Hfirst.
  { intros j Hf. eapply first_slot_ne; [done..|]. unfold is_state. by rewrite bool_decide_false. }
  intros r s' [Hk' [[-> Hs]|(-> & j & q & child & Hf & Hq & Hch & Hfk & Hs)]]; (split; [done|]).
  - split; [left; split; [done|]; intros k p _; apply Hs|].
    destruct (Hs c pc Hc) as (pc' & Hpc' & [He|[Hf _]]); [by exists pc'|by destruct (Hfirst c)].
  - pose proof (Hfirst j Hf) as Hne. split; [|by apply Hs]. right. split; [done|]. exists j, q, child. split_and!; [done..|]. intros k p _ Hkj Hkp. by apply Hs.
Qed.
Lemma forked_of pc pc' t c n q q' child :
  strip pc = strip pc' -> strip q = strip q' -> forked pc t c n q child -> forked pc' t c n q' child.
Proof.
  intros Hp Hq [H1 H2 H3 H4 H5 H6 H7 H8 H9 H10].
  split; rewrite <- ?(f_equal sz Hp : sz pc = sz pc'), <- ?(f_equal ofile Hp : ofile pc = ofile pc'),
    <- ?(f_equal ofile Hq : ofile q = ofile q'), <- ?(f_equal cwd Hp : cwd pc = cwd pc'),
    <- ?(f_equal name Hp : name pc = name pc'), <- ?(f_equal killed Hq : killed q = killed q'); done.
Qed.

(** [s'] is [s] but for the fields of slot [c] and those that only a policy writes. *)
Definition beside (c : nat) s s' : Prop :=
  forall k p, k <> c -> ptable s !! k = Some p -> exists p', ptable s' !! k = Some p' /\ strip p' = strip p.

Lemma beside_upd i c g s s' : keq i (upd_slot c g s) s' -> beside c s s'.
Proof.
  intros H k p Hk Hp. destruct (keq_other _ _ k _ _ _ p H) as (p' & Hp' & He); [done|done|]. by exists p'.
Qed.

Lemma beside_back i c g s s' k p' : keq i (upd_slot c g s) s' -> k <> c -> ptable s' !! k = Some p' ->
  exists p, ptable s !! k = Some p /\ strip p' = strip p.
Proof.
  intros H Hk Hp'. destruct (core_eq_lookup _ _ k p' (symmetry (ke_ptable _ _ _ H)) Hp') as (p & Hp & He).
  rewrite upd_slot_ne in Hp by done. by exists p.
Qed.

(** The other slots after [fork], seen from states that differ only in the caller's slot. *)
Lemma after_fork_beside i j c pc pc' t g h s s1 s2 s' r :
  keq i (upd_slot c g s) s1 -> nextpid s1 = nextpid s -> (forall p, is_state UNUSED (g p) = is_state UNUSED p) ->
  strip pc = strip pc' -> keq j (upd_slot c h s2) s' ->
  after_fork c pc t s1 r s2 -> after_fork c pc' t s r s'.
Proof.
  intros H1 Hn Hg Hpc H2.
  assert (first_slot (is_state UNUSED) (ptable s1) = first_slot (is_state UNUSED) (ptable s)) as Hfs.
  { erewrite <- (first_slot_core (is_state UNUSED) _ (ptable s1)); [|done|apply H1].
    by apply first_slot_alter. }
  intros [[-> Hs]|(-> & k & q & child & Hk & Hf & Hq & Hch & Hfk & Hs)].
  - left. split; [done|]. intros k p Hk Hp. destruct (beside_upd _ _ _ _ _ H1 k p Hk Hp) as (p1 & Hp1 & He1).
    destruct (Hs k p1 Hk Hp1) as (p2 & Hp2 & Hko).
    destruct (beside_upd _ _ _ _ _ H2 k p2 Hk Hp2) as (p3 & Hp3 & He3). exists p3. split; [done|].
    destruct Hko as [He2|(Hf & Hu & Hks)]; [left; congruence|right]. rewrite <- Hfs. split; [done|].
    by rewrite (f_equal state He3 : state p3 = state p2), (f_equal kstack He3 : kstack p3 = kstack p2).
  - right. split; [done|]. destruct (beside_back _ _ _ _ _ k q H1 Hk Hq) as (q0 & Hq0 & Heq).
    destruct (beside_upd _ _ _ _ _ H2 k child Hk Hch) as (ch & Hch' & Hech).
    exists k, q0, ch. split_and!; [done|by rewrite <- Hfs|done|done| |].
    + rewrite <- Hn. eapply forked_strip; [by symmetry|]. exact (forked_of _ _ _ _ _ _ _ _ Hpc Heq Hfk).
    + intros m p Hm Hmk Hp. destruct (beside_upd _ _ _ _ _ H1 m p Hm Hp) as (p1 & Hp1 & He1).
      destruct (Hs m p1 Hm Hmk Hp1) as (p2 & Hp2 & He2).
      destruct (beside_upd _ _ _ _ _ H2 m p2 Hm Hp2) as (p3 & Hp3 & He3). exists p3. split; [done|]. congruence.
Qed.

(** C30. The system call [fork] returns twice: the caller goes on with its own trap frame in
    which only [eax] has changed, to the pid of the child, and the child has the same frame
    with 0 in [eax], and the caller's memory, files and directory; or [eax] is -1 and there
    is no child: the first unused slot is unused again, without a kernel stack.  No other
    slot changes, but for the fields that only a policy writes. *)
Theorem fork_call_returns_twice fuel i c b s pc t :
  kctx i 0 (Some c) b false s -> length (ptable s) = NPROC -> Forall wf_proc (ptable s) ->
  ptable s !! c = Some pc -> state pc <> UNUSED -> killed pc = false ->
  tf_trapno t = T_SYSCALL -> tf_eax t = SYS_fork ->
  wpx F (trap fuel t) (fun _ s' => kctx i 0 (Some c) b false s' /\ exists r p',
    ptable s' !! c = Some p' /\ tf p' = Some (set_tf_eax (w32 r) t) /\
    strip (set_tf (Some t) p') = strip (set_tf (Some t) pc) /\
    after_fork c (set_tf (Some t) pc) t s r s') s.
Proof using All.
  intros Hk Hl Hwf Hc Hst Hkl Hno Hax. unfold trap. rewrite Hno. cbn [T_SYSCALL Z.eqb Pos.eqb]. wbind.
  eapply exit_if_killed_spec; [exact Hk|lia|exact Hc|done|]. intros s1 Hk1 H1. wbind.
  eapply wp_curproc; [done|lia|]. intros v Hk2 H2. wbind. apply wp_updp.
  set (s2 := upd_slot c (set_tf (Some t)) (set_mac v s1)) in *.
  assert (keq i (upd_slot c (set_tf (Some t)) s) s2) as H02.
  { apply (keq_upd_slot i c (set_tf (Some t))). by etrans. }
  destruct (keq_slot _ _ _ _ _ H1 Hc) as (p1 & Hp1 & He1).
  wbind. unfold syscall. wbind. eapply wp_curproc; [by apply kctx_upd|lia|]. intros v3 Hk3 H3.
  set (s3 := set_mac v3 s2) in *. assert (H03 := transitivity H02 H3). wbind.
  assert (ptable s3 !! c = Some (set_tf (Some t) p1)) as Hp3 by (apply (upd_slot_eq c _ (set_mac v s1)); exact Hp1).
  eapply wp_getp; [exact Hp3|]. cbn [tf set_tf]. wbind. eapply wp_lift_opt; [done|]. rewrite Hax.
  change (syscalls fuel (i32 SYS_fork)) with (Some (sys_fork : M (kst E Q) Z)). cbv iota. wbind.
  assert (strip (set_tf (Some t) p1) = strip (set_tf (Some t) pc)) as Hs3.
  { exact (f_equal (set_tf (Some t)) (eq_sym He1)). }
  assert (length (ptable s3) = NPROC) as Hl3 by (by rewrite (keq_length _ _ _ H03), upd_slot_length).
  eapply wp_mono; [|apply (fork_at i c b s3 (set_tf (Some t) p1) t Hk3 Hl3); [|exact Hp3| |done]].
  2:{ eapply (wf_keq _ (upd_slot c (set_tf (Some t)) s)); [exact H03|]. cbn.
      apply Forall_alter; [done|]. intros p _ []. by split. }
  2:{ cbn. by rewrite <- (f_equal state He1 : state pc = state p1). }
  cbn beta. intros r s4 (Hk4 & Haf & p4 & Hp4 & He4). unfold set_eax. apply wp_updp.
  set (g := fun p => set_tf (set_tf_eax (w32 r) <$> tf p) p).
  assert (ptable (upd_slot c g s4) !! c = Some (g p4)) as Hp5 by (by apply upd_slot_eq).
  assert (strip p4 = strip (set_tf (Some t) pc)) as He5 by congruence.
  eapply exit_if_killed_spec; [by apply kctx_upd|lia|exact Hp5| |].
  { unfold g. cbn. by rewrite (f_equal killed He5 : killed p4 = killed pc). }
  intros s6 Hk6 H6. split; [done|]. destruct (keq_slot _ _ _ _ _ H6 Hp5) as (p6 & Hp6 & He6).
  exists r, p6. split_and!; [done| | |].
  - rewrite <- (f_equal tf He6 : tf (g p4) = tf p6). unfold g. cbn. by rewrite (f_equal tf He5 : tf p4 = Some t).
  - transitivity (set_tf (Some t) (strip p4)); [exact (f_equal (set_tf (Some t)) (eq_sym He6))|]. by rewrite He5.
  - eapply (after_fork_beside i i c _ _ t (set_tf (Some t)) g s s3 s4 s6); [exact H03|apply H03|done|exact Hs3|exact H6|done].
Qed.
(** *** The clock *)

Lemma wp_cpuid i o hd (Qp : nat -> kst E Q -> Prop) s :
  kctx i 0 o false hd s -> Qp i s -> wpx F (on_mac cpuid) Qp s.
Proof.
  intros [[Hf _ HI] _] HQ. eapply wp_ok; [by apply on_mac_ok, (mycpu_spec i)|].
  by destruct s.
Qed.

Lemma wp_running_checks i c b t p (Qp : unit -> kst E Q -> Prop) s :
  kctx i 0 (Some c) b false s -> ptable s !! c = Some p -> killed p = false ->
  (forall s', kctx i 0 (Some c) b false s' -> keq i s s' -> Qp tt s') -> wpx F (user_exit_if_killed t) Qp s.
Proof using All.
  intros Hk Hp Hkl HQ. unfold user_exit_if_killed. wbind. eapply wp_myproc; [done|lia|]. intros v Hk1 H1.
  wbind. eapply wp_curproc; [done|lia|]. intros v2 Hk2 H2. wbind. eapply wp_getp; [exact Hp|].
  rewrite Hkl. cbn [andb when]. apply wp_ret. apply HQ; [done|by etrans].
Qed.

Lemma timer_tick_spec o s :
  kctx 0 0 o false false s -> lock_free tickslock s -> length (ptable s) = NPROC ->
  wpx F timer_tick (fun _ s' => kctx 0 0 o false false s' /\
    keq 0 (set_ptable (map (wake (PAddr ticks_addr)) (ptable s)) (set_kticks (w32 (kticks s + 1)) s)) s') s.
Proof using All.
  intros Hk [nm Hl] Hlen. unfold timer_tick. wbind. eapply wp_cpuid; [done|]. cbn [Nat.eqb when].
  wbind. eapply (wp_acquire_other F tickslock 0 0); [done|exact Hk|lia|exact Hl|]. intros v s1 Hk1 Ho1.
  wbind. apply wp_modify. wbind. set (s2 := set_kticks _ s1).
  eapply wp_mono; [|apply (wakeup_spec F (PAddr ticks_addr) 0 1 o false s2); [by destruct Hk1|lia|done]].
  cbn beta. intros [] s3 [Hk3 H3].
  eapply (wp_release_other F tickslock 0 0); [done|exact Hk3|lia| |].
  { rewrite (keq_lock 0 tickslock _ _ H3) by done. apply lookup_insert_eq. }
  intros v4 s4 Hk4 Ho4. split; [done|]. destruct H3 as [C G1 G2 G3 G4 G5 G6].
  split; [exact C|exact G1|exact G2|exact G3|exact G4| |].
  - etrans; [exact Ho1|]. etrans; [exact G5|exact Ho4].
  - intros l Hne. cbn. destruct (decide (l = tickslock)) as [->|Hne']; [by rewrite lookup_insert_eq|].
    rewrite lookup_insert_ne by done. etrans; [exact (G6 l Hne)|]. cbn. by rewrite lookup_insert_ne.
Qed.

(** An interrupt of the clock on the first CPU: the count of ticks is one more, every
    process that sleeps on it, and no other, becomes runnable, and the running process
    offers the CPU, runnable, before it goes on. *)
Theorem tick_wakes_and_yields R fuel c s p t :
  switches F R -> kctx 0 0 (Some c) false false s -> lock_free tickslock s -> length (ptable s) = NPROC ->
  ptable s !! c = Some p -> state p = RUNNING -> killed p = false -> tf_trapno t = T_IRQ0 + IRQ_TIMER ->
  (forall s1 s2 p1, ptable s1 !! c = Some p1 -> killed p1 = false -> R c s1 s2 ->
     exists p2, ptable s2 !! c = Some p2 /\ killed p2 = false) ->
  wpx F (trap fuel t) (fun _ s' => exists s1 s2 j,
    keq 0 (upd_slot c (set_state RUNNABLE) (set_ptable (map (wake (PAddr ticks_addr)) (ptable s))
      (set_kticks (w32 (kticks s + 1)) s))) s1 /\ R c s1 s2 /\
    keq j s2 s' /\ kctx j 0 (Some c) false false s') s.
Proof using All.
  intros HR Hk Hl Hlen Hp Hst Hkl Hno HRk. unfold trap, dispatch. rewrite Hno.
  cbn [T_SYSCALL T_IRQ0 IRQ_TIMER Z.add Z.eqb Pos.eqb]. wbind. wbind.
  eapply wp_mono; [|by apply timer_tick_spec]. cbn beta. intros [] s1 [Hk1 H1].
  eapply wp_neutral; [apply lapiceoi_ok|done|lia|]. intros _ s2 Hk2 H2. assert (H3 := transitivity H1 H2).
  assert (ptable (set_ptable (map (wake (PAddr ticks_addr)) (ptable s)) (set_kticks (w32 (kticks s + 1)) s)) !! c =
    Some p) as Hc.
  { cbn. rewrite list_lookup_fmap, Hp. cbn. unfold wake, is_state. by rewrite Hst. }
  destruct (keq_slot _ _ _ _ _ H3 Hc) as (p2 & Hp2 & He2).
  assert (killed p2 = false) as Hkl2 by (by rewrite <- (f_equal killed He2 : killed p = killed p2)).
  wbind. eapply (wp_running_checks 0 c false t p2); [done..|]. intros s4 Hk4 H4. assert (H5 := transitivity H3 H4).
  destruct (keq_slot _ _ _ _ _ H5 Hc) as (p4 & Hp4 & He4). wbind. unfold yield_on_tick. wbind.
  eapply wp_myproc; [done|lia|]. intros v Hk5 H6. wbind. eapply wp_curproc; [done|lia|]. intros v6 Hk6 H7.
  wbind. eapply wp_getp; [exact Hp4|]. rewrite Hno, Z.eqb_refl. unfold is_state.
  rewrite <- (f_equal state He4 : state p = state p4), Hst. cbn [bool_decide decide_rel andb when].
  eapply wp_mono; [|eapply (yield_spec F R 0 c false _ p4 HR Hk6 Hp4)].
  cbn beta. intros [] s7 (s8 & s9 & j & H8 & HR9 & H9 & Hk9).
  destruct (keq_own _ _ _ _ _ _ H8 (Hp4 : ptable (set_mac v6 _) !! c = Some p4)) as (p8 & Hp8 & He8).
  destruct (HRk s8 s9 p8 Hp8) as (p9 & Hp9 & Hkl9); [|done|].
  { by rewrite <- (f_equal killed He8 : killed p4 = killed p8), <- (f_equal killed He4 : killed p = killed p4). } destruct (keq_slot _ _ _ _ _ H9 Hp9) as (p7 & Hp7 & He7).
  eapply (wp_running_checks j c false t p7); [done..| |].
  { by rewrite <- (f_equal killed He7 : killed p9 = killed p7). }
  intros s10 Hk10 H10. exists s8, s9, j. split_and!; [|done|by etrans|done].
  etrans; [|exact H8]. apply (keq_upd_slot 0 c (set_state RUNNABLE)).
  etrans; [exact H5|]. etrans; [exact H6|exact H7].
Qed.
End Calls.

(** ** Tables *)

Lemma setgate_offset istrap sel off d :
  off_15_0 (SETGATE istrap sel off d) + 2 ^ 16 * off_31_16 (SETGATE istrap sel off d) = w32 off.
Proof.
  cbn [SETGATE off_15_0 off_31_16]. change 0xffff with (Z.ones 16).
  rewrite Z.land_ones, Z.shiftr_div_pow2 by lia. pose proof (Z.div_mod (w32 off) (2 ^ 16)). lia.
Qed.

(** Each gate leads to the vector of its number, and only that of the system calls can be
    used from user mode. *)
Lemma gates_enter_the_vectors vectors i : (i < 256)%nat -> exists g, tvinit vectors !! i = Some g /\
  off_15_0 g + 2 ^ 16 * off_31_16 g = w32 (vectors i) /\ (gate_dpl g = DPL_USER <-> i = Z.to_nat T_SYSCALL).
Proof.
  intros Hi. unfold tvinit. set (l := map _ _).
  assert (length l = 256%nat) as Hl by (unfold l; by rewrite length_map, length_seq).
  destruct (decide (i = Z.to_nat T_SYSCALL)) as [->|Hne].
  - rewrite list_lookup_insert_eq by (rewrite Hl; done). eexists. split; [done|]. by rewrite setgate_offset.
  - rewrite list_lookup_insert_ne by done. unfold l. rewrite list_lookup_fmap, lookup_seq_lt by done.
    eexists. split; [done|]. by rewrite setgate_offset.
Qed.

(** The table has a handler for just the numbers 1 to 25. *)
Lemma syscalls_defined {E Q} `{KE : KernelEnv E Q} `{SP : SchedPolicy E Q} `{TE : TrapEnv E Q} fuel num :
  is_Some (syscalls fuel num) <-> 1 <= num <= 25.
Proof.
  destruct (decide (1 <= num <= 25)) as [H|H].
  - split; [done|]. intros _. assert (exists n, num = Z.of_nat n /\ (1 <= n <= 25)%nat) as (n & -> & Hn).
    { exists (Z.to_nat num). lia. }
    do 26 (destruct n as [|n]; [try (exfalso; lia); by eexists|]). exfalso; lia.
  - split; [|done]. unfold syscalls, file_calls. cbn [existsb].
    repeat match goal with |- context [num =? ?k] => rewrite (proj2 (Z.eqb_neq num k)) by (cbv; lia) end.
    by intros [].
Qed.

(** ** Instances *)

(** User memory holds [mem], the handlers of other components do nothing, and while a
    process is off the CPU the clock ticks once. *)
Definition trap_env (mem : Z -> Z) : TrapEnv pages unit := {|
  user_word := fun a => mret (mem a);
  load_pstat := fun _ => mret pstat_zero;
  store_pstat := fun _ _ => mret tt;
  sys_file := fun _ => mret 0;
  ideintr := mret tt;
  kbdintr := mret tt;
  uartintr := mret tt;
  lapiceoi := mret tt;
  rcr2 := mret 0;
  ticks_addr := 0x80115000
|}.

Lemma trap_env_ok F mem : TrapOk F pages unit (H := trap_env mem).
Proof. split; intros; apply neutral_mret. Qed.

Definition tick (s : kst pages unit) : kst pages unit := set_kticks (w32 (kticks s + 1)) s.
Definition ticking_env : KernelEnv pages unit := page_env_with (modify tick).

Lemma tick_switches : switches never (KE := ticking_env) (fun _ s s' => s' = tick s).
Proof. intros i c b s p Hk Hp _. split; [done|]. exists i, b. by destruct Hk. Qed.

Lemma tick_ticking : ticking 1 (fun _ s s' => s' = tick s).
Proof.
  intros c s1 s2 p Hl Hp ->. split; [done|]. exists p, 1. split_and!; [done|lia|lia|done|done].
Qed.

(** A system call with this number and a stack at 4000, from user mode. *)
Definition call_tf (num : Z) : trapframe := Trapframe 0 0 0 0 0 0 0 num 0 0 0 0 T_SYSCALL 0 0 3 0 4000 0.
Definition timer_tf : trapframe := Trapframe 0 0 0 0 0 0 0 0 0 0 0 0 (T_IRQ0 + IRQ_TIMER) 0 0 3 0 4000 0.

(** Process 1 runs; process 2 sleeps on the ticks. *)
Definition three_procs : list proc :=
  table [mkproc RUNNABLE 1 None Null; set_tf (Some (call_tf 0)) (mkproc RUNNING 2 (Some 0%nat) Null);
         mkproc SLEEPING 3 (Some 0%nat) (PAddr 0x80115000)].
Definition trap_state (b : bool) : kst pages unit :=
  set_mac (Mach [Cpu 0 0 false (Some 1%nat)] 0 b)
    (set_locks (<[tickslock := initlock "time"]> {[ptable_lock := initlock "ptable"]}) (kstate (Some 1%nat) three_procs 4 tt)).

Lemma trap_state_kctx b : kctx 0 0 (Some 1%nat) b false (trap_state b).
Proof.
  split; [|by exists (initlock "ptable")].
  split; [done| |done]. exists (Cpu 0 0 false (Some 1%nat)). split_and!; done || lia.
Qed.

Lemma killed_process_never_returns_witness :
  exists s', trap (TE := trap_env (fun _ => 0)) 1 (call_tf SYS_getpid) (trap_state true) = Ok (tt, s') /\ alive s'.
Proof.
  eexists. split; [vm_compute; reflexivity|].
  refine (killed_process_never_returns (TE := trap_env (fun _ => 0)) 1 (call_tf SYS_getpid) (trap_state true) _ _ _).
  - vm_compute; reflexivity.
  - by left.
Defined.

Lemma sleep_waits_for_its_ticks_witness :
  wp (sys_sleep (KE := ticking_env) (TE := trap_env (fun _ => 3)) 4) (fun r s' => exists j,
    kctx j 0 (Some 1%nat) true false s' /\ lock_free tickslock s' /\
    ((r = 0 /\ w32 3 <= w32 (kticks s' - 0) < w32 3 + 1) \/
     (r = -1 /\ exists p', ptable s' !! 1%nat = Some p' /\ killed p' = true))) (trap_state true).
Proof.
  apply (sleep_waits_for_its_ticks (KE := ticking_env) (TE := trap_env (fun _ => 3)) never
    (EnvOk0 := page_env_with_ok never (modify tick)) (TrapOk0 := trap_env_ok never (fun _ => 3))
    _ 1 4 0 1 true (trap_state true) 3 tick_switches tick_ticking);
    [lia|vm_compute; congruence|vm_compute; congruence|apply trap_state_kctx|by eexists|].
  do 3 eexists. split; [reflexivity|]. split; [reflexivity|]. split; [vm_compute; split; congruence|].
  split; [|instantiate (1 := 3); reflexivity]. by intros s1 _.
Defined.

Lemma fork_call_returns_twice_witness :
  wp (trap (TE := trap_env (fun _ => 0)) 1 (call_tf SYS_fork)) (fun _ s' => kctx 0 0 (Some 1%nat) true false s' /\
    exists r p', ptable s' !! 1%nat = Some p' /\ tf p' = Some (set_tf_eax (w32 r) (call_tf SYS_fork)) /\
      strip (set_tf (Some (call_tf SYS_fork)) p') =
        strip (set_tf (Some (call_tf SYS_fork)) (set_tf (Some (call_tf 0)) (mkproc RUNNING 2 (Some 0%nat) Null))) /\
      after_fork 1 (set_tf (Some (call_tf SYS_fork)) (set_tf (Some (call_tf 0)) (mkproc RUNNING 2 (Some 0%nat) Null)))
        (call_tf SYS_fork) (trap_state true) r s') (trap_state true).
Proof.
  apply (fork_call_returns_twice (TE := trap_env (fun _ => 0)) never (TrapOk0 := trap_env_ok never (fun _ => 0)));
    [apply trap_state_kctx|reflexivity| |done..].
  repeat (apply Forall_cons; split; [split; [done|done|repeat constructor; lia]|]). by apply Forall_nil.
Defined.

Lemma tick_wakes_and_yields_witness :
  wp (trap (KE := ticking_env) (TE := trap_env (fun _ => 0)) 1 timer_tf) (fun _ s' => exists s1 s2 j,
    keq 0 (upd_slot 1 (set_state RUNNABLE) (set_ptable (map (wake (PAddr 0x80115000)) three_procs)
      (set_kticks 1 (trap_state false)))) s1 /\ s2 = tick s1 /\
    keq j s2 s' /\ kctx j 0 (Some 1%nat) false false s') (trap_state false).
Proof.
  apply (tick_wakes_and_yields (KE := ticking_env) (TE := trap_env (fun _ => 0)) never
    (EnvOk0 := page_env_with_ok never (modify tick)) (TrapOk0 := trap_env_ok never (fun _ => 0))
    (fun _ s s' => s' = tick s) 1 1%nat (trap_state false)
    (set_tf (Some (call_tf 0)) (mkproc RUNNING 2 (Some 0%nat) Null)) timer_tf tick_switches);
    [apply trap_state_kctx|by eexists|reflexivity..|].
  intros s1 s2 p1 Hp Hk ->. by exists p1.
Defined.
