(* ===== verification/Lottery.v ===== *)
(** * The lottery schedulers

    [lab-2/proc_lottery_v01.c] and [lab-2/proc_lottery_v02.c]: every process has
    tickets, a child as many as its parent; each round draws a number and runs
    the process that holds it. *)

From S2P Require Import Prelude CString Rand Spinlock ProcData Proc ProcSpec Env.

(** The state of the policy: the variable [seed], the generator of [rand.c], and
    the structure [pstat] the second version fills. *)
Record lottery := Lottery { seed : Z; rng : rand; lpstat : pstat }.

Definition seed_init : Z := 2310.

Definition tickets_in_range (n : Z) : bool := (0 <=? n) && (n <=? MAXTICKET).

Section Scheduler.
Context {E : Type} `{KE : KernelEnv E lottery}.
Abbreviation K := (M (kst E lottery)).

Definition set_rng (r : rand) (q : lottery) : lottery := Lottery (seed q) r (lpstat q).
Definition set_seed (n : Z) (q : lottery) : lottery := Lottery n (rng q) (lpstat q).
Definition set_lpstat (ps : pstat) (q : lottery) : lottery := Lottery (seed q) (rng q) ps.

Definition upd_pol (f : lottery -> lottery) : K unit :=
  modify (fun s => set_pol (f (pol s)) s).

(** A call of [rand.c]. *)
Definition on_rng {A} (m : M rand A) : K A := fun s =>
  match m (rng (pol s)) with
  | Ok (a, r) => Ok (a, set_pol (set_rng r (pol s)) s)
  | Panic msg => Panic msg
  | Fault w => Fault w
  | Diverge => Diverge
  end.

(** The sum of the tickets of the runnable processes, an [uint]. *)
Definition sum_slot (sum : Z) (j : nat) : K Z :=
  p ← getp j;
  if is_state RUNNABLE p then mret (w32 (sum + tickets p)) else mret sum.

Section Round.
Variable after : nat -> K unit.

(** The loop that counts tickets up to the lottery number, and runs the
    process at which the count reaches it. *)
Fixpoint lottery_loop (i : nat) (lotteryNumber : Z) (l : list nat) (count : Z)
    : K unit :=
  match l with
  | [] => mret tt
  | j :: l' =>
      p ← getp j;
      if negb (is_state RUNNABLE p) then lottery_loop i lotteryNumber l' count
      else
        let count := w32 (count + tickets p) in
        if count <? lotteryNumber then lottery_loop i lotteryNumber l' count
        else run_slot i j (after j)
  end.
End Round.

(** The second version fills [pstat]; its index [i] stays 0. *)
Definition fill_slot (j : nat) : K unit :=
  p ← getp j;
  upd_pol (fun q => set_lpstat (Pstat
    (<[0%nat := if is_state UNUSED p then 0 else 1]> (ps_inuse (lpstat q)))
    (<[0%nat := tickets p]> (ps_tickets (lpstat q)))
    (<[0%nat := pid p]> (ps_pid (lpstat q)))
    (<[0%nat := ticks p]> (ps_ticks (lpstat q)))) q).

(** The ticket a process earns by its turn, if it is in the state [st]. *)
Definition bonus (st : procstate) (j : nat) : K unit :=
  p ← getp j;
  when (is_state st p && (tickets p <? MAXTICKET))
    (updp j (set_tickets (tickets p + 1))).

Definition scheduler_round_v01 (fuel i : nat) : K unit :=
  on_mac sti ;;
  acquire_lk ptable_lock ;;
  ticketSum ← fold_each slots 0 sum_slot;
  upd_pol (fun q => set_seed (w32 (seed q + 1)) q) ;;
  n ← gets (fun s => seed (pol s));
  on_rng (modify (sgenrand n)) ;;
  lotteryNumber ← on_rng (random_at_most fuel (i32 ticketSum));
  lottery_loop (bonus RUNNING) i (w32 lotteryNumber) slots 0 ;;
  release_lk ptable_lock.

Definition scheduler_round_v02 (fuel i : nat) : K unit :=
  on_mac sti ;;
  acquire_lk ptable_lock ;;
  for_each slots fill_slot ;;
  ticketSum ← fold_each slots 0 sum_slot;
  n ← gets (fun s => seed (pol s));
  upd_pol (fun q => set_seed (w32 (seed q + 1)) q) ;;
  on_rng (modify (sgenrand n)) ;;
  lotteryNumber ← on_rng (random_at_most fuel (i32 ticketSum));
  lottery_loop (bonus RUNNABLE) i (w32 lotteryNumber) slots 0 ;;
  release_lk ptable_lock.

Definition copy_tickets (i j : nat) : K unit :=
  p ← getp i; updp j (set_tickets (tickets p)).
End Scheduler.

Definition lottery_v01 {E} : SchedPolicy E lottery := {|
  alloc_hook := fun j => updp j (set_tickets 1);
  init_hook := mret tt;
  copy_hook := copy_tickets;
  ready_hook := fun _ => mret tt;
  exit_hook := fun _ => mret tt;
  wake_hook := fun _ => mret tt;
  tickets_valid := tickets_in_range
|}.

Definition lottery_v02 {E} : SchedPolicy E lottery := {|
  alloc_hook := fun j => updp j (set_tickets 1) ;; updp j (set_ticks 0);
  init_hook := mret tt;
  copy_hook := copy_tickets;
  ready_hook := fun _ => mret tt;
  exit_hook := fun _ => mret tt;
  wake_hook := fun _ => mret tt;
  tickets_valid := tickets_in_range
|}.

(** Tickets are a field of the policy: the specifications of [ProcSpec] hold of
    both versions. *)
Lemma copy_tickets_ok {E} F i j : neutral_at F i (copy_tickets (E := E) i j).
Proof.
  intros k n o b hd s Hk Hn Hj. apply lookup_lt_is_Some_2 in Hj as [p Hp].
  unfold copy_tickets. wbind. eapply wp_getp; [exact Hp|].
  by apply (neutral_updp F j (set_tickets (tickets p))).
Qed.

#[export] Instance lottery_v01_ok {E} F : PolicyOk F E lottery (H := lottery_v01).
Proof.
  split; intros; try (intros i' n o b hd s Hk Hn; by split);
    try (intros i' n o b hd s Hk Hn _; by split).
  - intros i' n o b hd s Hk Hn _. by apply neutral_updp.
  - apply copy_tickets_ok.
Qed.

#[export] Instance lottery_v02_ok {E} F : PolicyOk F E lottery (H := lottery_v02).
Proof.
  split; intros; try (intros i' n o b hd s Hk Hn; by split);
    try (intros i' n o b hd s Hk Hn _; by split).
  - intros i' n o b hd s Hk Hn _. wbind.
    eapply wp_mono; [|by apply (neutral_updp F j (set_tickets 1))].
    intros [] s1 [Hk1 H1]. eapply wp_mono; [|by apply (neutral_updp F j (set_ticks 0))].
    intros [] s2 [Hk2 H2]. split; [done|by etrans].
  - apply copy_tickets_ok.
Qed.

(** ** The draw *)

(** The tickets a slot takes part with. *)
Definition weight (p : proc) : Z := if is_state RUNNABLE p then tickets p else 0.

Fixpoint total (T : list proc) : Z :=
  match T with [] => 0 | p :: T' => weight p + total T' end.

(** The slot that wins with number [n]: the first runnable one up to which
    there are at least [n] tickets. *)
Fixpoint winner_from (count n : Z) (T : list proc) : option nat :=
  match T with
  | [] => None
  | p :: T' =>
      if negb (is_state RUNNABLE p) then S <$> winner_from count n T'
      else if count + tickets p <? n then S <$> winner_from (count + tickets p) n T'
      else Some 0%nat
  end.

Definition winner (n : Z) (T : list proc) : option nat := winner_from 0 n T.

(** Tickets as [settickets] and the bonus leave them. *)
Definition valid_tickets (p : proc) : Prop := 0 <= tickets p <= MAXTICKET.

Lemma weight_bounds p : valid_tickets p -> 0 <= weight p <= MAXTICKET.
Proof. unfold valid_tickets, weight. unfold MAXTICKET. destruct (is_state _ p); lia. Qed.

Lemma total_bounds T :
  Forall valid_tickets T -> 0 <= total T <= MAXTICKET * Z.of_nat (length T).
Proof.
  induction 1 as [|p T Hp _ IH]; [done|]. pose proof (weight_bounds p Hp).
  cbn [total length]. lia.
Qed.

Lemma total_app T1 T2 : total (T1 ++ T2) = total T1 + total T2.
Proof. induction T1; cbn [total app]; lia. Qed.

(** The first number that elects slot [j], and the first that no longer does. *)
Definition low (T : list proc) (j : nat) : Z :=
  if existsb (is_state RUNNABLE) (take j T) then total (take j T) + 1 else 0.
Definition high (T : list proc) (j : nat) : Z := total (take (S j) T) + 1.

Lemma total_idle T : existsb (is_state RUNNABLE) T = false -> total T = 0.
Proof.
  induction T as [|p T IH]; [done|]. cbn [existsb total]. unfold weight.
  destruct (is_state RUNNABLE p); [done|]. intros H. rewrite IH by done. lia.
Qed.

Lemma winner_from_spec count n T j p :
  Forall valid_tickets T -> T !! j = Some p -> state p = RUNNABLE ->
  winner_from count n T = Some j <->
  (existsb (is_state RUNNABLE) (take j T) = true -> count + total (take j T) < n) /\
  n <= count + total (take (S j) T).
Proof.
  intros HT. revert count j. induction HT as [|q T Hq HT IH]; intros count j Hj Hp; [done|].
  cbn [winner_from]. destruct j as [|j].
  - injection Hj as ->. cbn [take existsb total]. unfold weight.
    assert (is_state RUNNABLE p = true) as -> by (by apply bool_decide_true).
    cbn [negb]. rewrite take_0. cbn [total].
    destruct (Z.ltb_spec (count + tickets p) n); [|split; [intros _; split; [done|lia]|done]].
    split; [|lia]. by destruct (winner_from _ _ _).
  - cbn [take existsb total]. pose proof (weight_bounds q Hq) as Hw. unfold weight in *.
    assert (forall o : option nat, S <$> o = Some (S j) <-> o = Some j) as HS.
    { intros [k|]; simpl; [|done]. split; [by intros [= ->]|by intros [= ->]]. }
    destruct (is_state RUNNABLE q) eqn:Eq; cbn [negb orb].
    + pose proof (total_bounds (take j T) ltac:(by apply Forall_take)) as Hb.
      pose proof (total_bounds (take (S j) T) ltac:(by apply Forall_take)) as Hb'.
      destruct (Z.ltb_spec (count + tickets q) n) as [Hlt|Hge].
      * rewrite HS, (IH (count + tickets q) j Hj Hp).
        destruct (existsb _ (take j T)) eqn:Ee.
        -- split; (intros [H1 H2]; split; [intros _; specialize (H1 eq_refl); lia|lia]).
        -- rewrite (total_idle _ Ee). split; (intros [H1 H2]; split; [intros ?; done || lia|lia]).
      * split; [done|]. intros [H1 _]. specialize (H1 eq_refl). lia.
    + rewrite HS, (IH count j Hj Hp), !Z.add_0_l. done.
Qed.

Lemma winner_interval n T j p :
  Forall valid_tickets T -> T !! j = Some p -> state p = RUNNABLE -> 0 <= n ->
  winner n T = Some j <-> low T j <= n < high T j.
Proof.
  intros HT Hj Hp Hn. unfold winner, low, high.
  rewrite (winner_from_spec 0 n T j p) by done.
  pose proof (total_bounds (take j T) ltac:(by apply Forall_take)).
  destruct (existsb _ _).
  - split; [intros [H1 H2]; specialize (H1 eq_refl); lia|intros; split; [intros _|]; lia].
  - split; [intros [_ H2]; lia|intros; split; [done|lia]].
Qed.

Lemma winner_from_runnable count n T j :
  winner_from count n T = Some j ->
  exists p, T !! j = Some p /\ state p = RUNNABLE.
Proof.
  revert count j. induction T as [|q T IH]; intros count j; [done|]. cbn [winner_from].
  destruct (is_state RUNNABLE q) eqn:Hq; cbn [negb].
  - destruct (_ <? n).
    + destruct (winner_from _ _ _) as [k|] eqn:Hw; [|done]. intros [= <-].
      apply (IH _ _ Hw).
    + intros [= <-]. exists q. split; [done|]. by apply bool_decide_eq_true_1 in Hq.
  - destruct (winner_from _ _ _) as [k|] eqn:Hw; [|done]. intros [= <-]. apply (IH _ _ Hw).
Qed.

Lemma winner_from_exists count n T :
  Forall valid_tickets T -> existsb (is_state RUNNABLE) T = true ->
  n <= count + total T -> is_Some (winner_from count n T).
Proof.
  intros HT. revert count. induction HT as [|q T Hq HT IH]; intros count He Hn; [done|].
  cbn [winner_from existsb total] in *. unfold weight in Hn.
  destruct (is_state RUNNABLE q); cbn [negb orb] in *.
  - destruct (Z.ltb_spec (count + tickets q) n); [|done].
    destruct (existsb (is_state RUNNABLE) T) eqn:Ee.
    + apply fmap_is_Some, IH; [done|lia].
    + rewrite (total_idle _ Ee) in Hn. lia.
  - apply fmap_is_Some, IH; [done|lia].
Qed.

(** ** The rounds *)

(** The ticket a slot earns if it is in the state [st]. *)
Definition earn (st : procstate) (p : proc) : proc :=
  if is_state st p && (tickets p <? MAXTICKET) then set_tickets (tickets p + 1) p else p.

Section Rounds.
Context {E : Type} `{KE : KernelEnv E lottery}.
Context (F : failure -> Prop) `{!SwitchOk F E lottery}.
Implicit Types s : kst E lottery.

Lemma bonus_run st j p s :
  ptable s !! j = Some p -> bonus st j s = Ok (tt, upd_slot j (earn st) s).
Proof using Type.
  intros Hp. unfold bonus. mstep (getp_run j p s Hp). unfold earn.
  destruct (is_state st p && (tickets p <? MAXTICKET)) eqn:Hb; simpl.
  - unfold updp, modify. do 2 f_equal. apply (upd_slot_ext j _ _ s p Hp). by rewrite Hb.
  - unfold mret, M_ret. do 2 f_equal. symmetry. apply (upd_slot_id j _ s p); [done|by rewrite Hb].
Qed.

Lemma total_small T :
  (length T <= NPROC)%nat -> Forall valid_tickets T -> 0 <= total T <= 960.
Proof using Type.
  intros Hl HT. pose proof (total_bounds T HT). unfold MAXTICKET, NPROC in *. lia.
Qed.

Lemma sum_slot_run sum k p s :
  ptable s !! k = Some p -> 0 <= sum -> 0 <= sum + weight p < 2 ^ 32 ->
  sum_slot sum k s = Ok (sum + weight p, s).
Proof using Type.
  intros Hp Hs Hw. unfold sum_slot. mstep (getp_run k p s Hp). unfold weight in *.
  destruct (is_state RUNNABLE p); mrun; [by rewrite w32_small|by rewrite Z.add_0_r].
Qed.

Lemma sum_loop s :
  length (ptable s) = NPROC -> Forall valid_tickets (ptable s) ->
  forall m k, (k + m = NPROC)%nat ->
  fold_each (seq k m) (total (take k (ptable s))) sum_slot s = Ok (total (ptable s), s).
Proof using Type.
  intros Hl HT m. induction m as [|m IH]; intros k Hk; cbn [seq fold_each].
  { by rewrite take_ge by lia. }
  destruct (lookup_lt_is_Some_2 (ptable s) k) as [p Hp]; [lia|].
  assert (total (take (S k) (ptable s)) = total (take k (ptable s)) + weight p) as Ht.
  { rewrite (take_S_r _ _ p Hp), total_app. cbn [total]. lia. }
  pose proof (total_small (take k (ptable s))
    ltac:(rewrite length_take; lia) ltac:(by apply Forall_take)).
  pose proof (total_small (take (S k) (ptable s))
    ltac:(rewrite length_take; lia) ltac:(by apply Forall_take)).
  rewrite (bind_ok _ _ _ _ _ (sum_slot_run (total (take k (ptable s)))
    k p s Hp ltac:(lia) ltac:(lia))).
  rewrite <- Ht. apply IH. lia.
Qed.

Lemma loop_winner after i n s :
  length (ptable s) = NPROC -> Forall valid_tickets (ptable s) ->
  forall m k, (k + m = NPROC)%nat ->
  lottery_loop after i n (seq k m) (total (take k (ptable s))) s =
  match winner_from (total (take k (ptable s))) n (drop k (ptable s)) with
  | Some j => run_slot i (k + j) (after (k + j)%nat) s
  | None => Ok (tt, s)
  end.
Proof using Type.
  intros Hl HT m. induction m as [|m IH]; intros k Hk; cbn [seq lottery_loop].
  { by rewrite drop_ge by lia. }
  destruct (lookup_lt_is_Some_2 (ptable s) k) as [p Hp]; [lia|].
  rewrite (drop_S _ p k Hp). cbn [winner_from]. mstep (getp_run k p s Hp).
  assert (total (take (S k) (ptable s)) = total (take k (ptable s)) + weight p) as Ht.
  { rewrite (take_S_r _ _ p Hp), total_app. cbn [total]. lia. }
  pose proof (total_small (take (S k) (ptable s))
    ltac:(rewrite length_take; lia) ltac:(by apply Forall_take)) as Hb.
  specialize (IH (S k) ltac:(lia)). rewrite Ht in *. unfold weight in *.
  destruct (is_state RUNNABLE p); cbn [negb].
  - rewrite w32_small by lia. destruct (_ <? n).
    + rewrite IH. destruct (winner_from _ _ _) as [j|]; simpl; [|done].
      by rewrite Nat.add_succ_r.
    + by rewrite Nat.add_0_r.
  - rewrite Z.add_0_r in IH. rewrite IH.
    destruct (winner_from _ _ _) as [j|]; simpl; [|done]. by rewrite Nat.add_succ_r.
Qed.

Lemma lottery_loop_spec after i n s :
  length (ptable s) = NPROC -> Forall valid_tickets (ptable s) ->
  lottery_loop after i n slots 0 s =
  match winner n (ptable s) with
  | Some j => run_slot i j (after j) s
  | None => Ok (tt, s)
  end.
Proof using Type.
  intros Hl HT. apply (loop_winner after i n s Hl HT NPROC 0%nat eq_refl).
Qed.

(** The number the round that starts with the generator seeded with [sd] draws. *)
Definition drawn_number (fuel : nat) (sd tot n : Z) : Prop :=
  exists k x, n = x / bin_size tot /\
    list_find (fun x => accepted tot x = true) (map (output sd) (seq 0 fuel)) = Some (k, x).

Lemma draw_spec fuel sd tot n (r : rand) :
  0 <= tot <= 960 -> length (mt r) = N -> drawn_number fuel sd tot n ->
  0 <= n <= tot /\
  exists r', random_at_most fuel (i32 tot) (sgenrand sd r) = Ok (n, r').
Proof using Type.
  intros Ht Hr (k & x & -> & Hf).
  destruct (random_at_most_accepted sd 0 (sgenrand sd r) fuel tot k x) as [H1 H2];
    [unfold RAND_MAX; lia|by apply drawn_seeded|done|].
  rewrite i32_small by lia. split; [done|by eexists].
Qed.
Lemma wp_on_rng {A} (m : M rand A) a r (Qp : A -> kst E lottery -> Prop) s :
  m (rng (pol s)) = Ok (a, r) -> Qp a (set_pol (set_rng r (pol s)) s) ->
  wpx F (on_rng m) Qp s.
Proof using Type. unfold wpx, on_rng. by intros ->. Qed.

(** What a round leaves: the process [o] it chose ran from [s1] to [s2] and
    earned its ticket, or nothing was runnable. *)
Definition turn (R : nat -> kst E lottery -> kst E lottery -> Prop) (st : procstate)
    (i : nat) (sd : Z) (o : option nat) s s' : Prop :=
  match o with
  | Some j => exists s1 s2,
      keq i (upd_slot j (set_state RUNNING) s) s1 /\
      ptable s1 = alter (set_state RUNNING) j (ptable s) /\ seed (pol s1) = sd /\
      R j s1 s2 /\ (exists p2, ptable s2 !! j = Some p2 /\ state p2 <> RUNNING) /\
      ptable s' = alter (earn st) j (ptable s2)
  | None => ptable s' = ptable s
  end.

Definition draw_and_run st fuel i n tot : M (kst E lottery) unit :=
  on_rng (modify (sgenrand n)) ;;
  lotteryNumber ← on_rng (random_at_most fuel (i32 tot));
  lottery_loop (bonus st) i (w32 lotteryNumber) slots 0 ;;
  release_lk ptable_lock.

Lemma draw_and_run_spec R st fuel i b s sd n :
  resumes F R ->
  kctx i 1 None b true s -> length (ptable s) = NPROC ->
  Forall valid_tickets (ptable s) -> length (mt (rng (pol s))) = N ->
  drawn_number fuel sd (total (ptable s)) n ->
  wpx F (draw_and_run st fuel i sd (total (ptable s))) (fun _ s' =>
    (exists b', kctx i 0 None b' false s') /\
    turn R st i (seed (pol s)) (winner n (ptable s)) s s') s.
Proof using All.
  intros HR Hk Hl HT Hr Hd.
  pose proof (total_small (ptable s) ltac:(lia) HT) as Ht.
  destruct (draw_spec fuel sd _ n (rng (pol s)) Ht Hr Hd) as [Hn [r' Hrun]].
  unfold draw_and_run. wbind. eapply wp_on_rng; [reflexivity|].
  wbind. eapply wp_on_rng; [exact Hrun|]. rewrite w32_small by lia.
  set (s1 := set_pol _ _). assert (kctx i 1 None b true s1) as Hk1 by (by destruct Hk).
  assert (keq i s s1) as H1 by (by split).
  wbind. unfold wpx at 1. rewrite lottery_loop_spec by done.
  change (ptable s1) with (ptable s).
  destruct (winner n (ptable s)) as [j|] eqn:Hw; simpl.
  - destruct (winner_from_runnable _ _ _ _ Hw) as (p & Hp & _).
    change (wpx F (run_slot i j (bonus st j)) (fun _ s' => wpx F (release_lk ptable_lock)
      (fun _ s' => (exists b', kctx i 0 None b' false s') /\
         turn R st i (seed (pol s)) (Some j) s s') s') s1).
    eapply (run_slot_spec F R i j _ b s1 p); [done|done|done|].
    intros s2 s3 s4 p3 b' H2 Hpt2 Hpo2 HR2 Hp3 Hst3 Hk4 H4 Hpt4 Hpo4.
    assert (ptable s4 !! j = Some p3) as Hp4 by (by rewrite Hpt4).
    eapply wp_ok; [by apply (bonus_run st j p3)|]. split; [by apply kctx_upd|]. intros v Hk5 H5.
    eapply (wp_release F i 0); [done|lia|]. intros v6 L6 s6 Hk6 H6.
    split; [by exists b'|]. exists s2, s3. split_and!; [|done|by rewrite Hpo2|done|by exists p3|].
    + etrans; [|exact H2]. by apply (keq_upd_slot i j (set_state RUNNING)).
    + simpl. by rewrite Hpt4.
  - eapply (wp_release F i 0); [done|lia|]. intros v6 L6 s6 Hk6 H6.
    split; [by exists b|done].
Qed.

Lemma round_start (m : M (kst E lottery) unit) i b (Qp : unit -> kst E lottery -> Prop) s :
  kctx i 0 None b false s ->
  (forall v L, let s' := set_locks L (set_mac v s) in
     kctx i 1 None true true s' -> keq i s s' -> wpx F m Qp s') ->
  wpx F (on_mac sti ;; acquire_lk ptable_lock ;; m) Qp s.
Proof using Type.
  intros Hk Hm. wbind. eapply wp_sti; [done|]. intros v Hk1 H1. wbind.
  eapply wp_acquire; [done|lia|]. intros v2 L s2 Hk2 H2.
  apply (Hm v2 L); [done|by etrans].
Qed.

Lemma turn_start R st i sd o s s1 s' :
  keq i s s1 -> ptable s1 = ptable s -> turn R st i sd o s1 s' -> turn R st i sd o s s'.
Proof using Type.
  intros H Hp. unfold turn. destruct o as [j|]; [|by rewrite Hp].
  intros (s2 & s3 & H2 & Hpt & H'). exists s2, s3. rewrite <- Hp. split_and!; [|done|apply H'..].
  etrans; [|exact H2]. by apply (keq_upd_slot i j (set_state RUNNING)).
Qed.

Lemma round_v01_spec R fuel i b s n :
  resumes F R -> kctx i 0 None b false s -> length (ptable s) = NPROC ->
  Forall valid_tickets (ptable s) -> length (mt (rng (pol s))) = N ->
  drawn_number fuel (w32 (seed (pol s) + 1)) (total (ptable s)) n ->
  wpx F (scheduler_round_v01 fuel i) (fun _ s' =>
    (exists b', kctx i 0 None b' false s') /\
    turn R RUNNING i (w32 (seed (pol s) + 1)) (winner n (ptable s)) s s') s.
Proof using All.
  intros HR Hk Hl HT Hr Hd. unfold scheduler_round_v01. eapply round_start; [done|].
  intros v L s1 Hk1 H1. wbind.
  eapply wp_ok; [apply (sum_loop s1 Hl HT NPROC 0%nat eq_refl)|].
  wbind. apply wp_modify. wbind. apply wp_gets. cbn [pol set_pol seed set_seed].
  set (s2 := set_pol _ s1).
  eapply wp_mono; [|apply (draw_and_run_spec R RUNNING fuel i true s2
    (w32 (seed (pol s) + 1)) n HR); [by destruct Hk1|exact Hl|exact HT|exact Hr|exact Hd]].
  - intros _ s' [Hk' Ht]. split; [done|]. apply (turn_start _ _ _ _ _ s s2); [|done|done].
    etrans; [exact H1|]. by split.
Qed.

(** What the second version's loop leaves in the policy's state. *)
Definition fill (q : lottery) (p : proc) : lottery :=
  set_lpstat (Pstat
    (<[0%nat := if is_state UNUSED p then 0 else 1]> (ps_inuse (lpstat q)))
    (<[0%nat := tickets p]> (ps_tickets (lpstat q)))
    (<[0%nat := pid p]> (ps_pid (lpstat q)))
    (<[0%nat := ticks p]> (ps_ticks (lpstat q)))) q.

Lemma fill_loop T s k :
  drop k (ptable s) = T ->
  for_each (seq k (length T)) fill_slot s = Ok (tt, set_pol (foldl fill (pol s) T) s).
Proof using Type.
  revert s k. induction T as [|p T IH]; intros s k Hd; cbn [length seq for_each foldl].
  { by destruct s. }
  assert (ptable s !! k = Some p) as Hp.
  { rewrite <- (Nat.add_0_r k), <- lookup_drop, Hd. done. }
  assert (fill_slot k s = Ok (tt, set_pol (fill (pol s) p) s)) as Hf.
  { unfold fill_slot. by mstep (getp_run k p s Hp). }
  rewrite (bind_ok _ _ _ _ _ Hf), IH; [done|].
  change (drop (S k) (ptable s) = T).
  replace (S k) with (k + 1)%nat by lia. by rewrite <- drop_drop, Hd.
Qed.

Lemma fill_keeps T q :
  seed (foldl fill q T) = seed q /\ rng (foldl fill q T) = rng q.
Proof using Type. revert q. induction T as [|p T IH]; intros q; [done|]. cbn [foldl]. destruct (IH (fill q p)) as [H1 H2]. by rewrite H1, H2. Qed.

(** C34. A round of the second version, with interrupts on or off at its start,
    draws the number its seed gives and runs the process that number elects,
    alone [RUNNING] in the table the round found; if the process comes back
    runnable with fewer than 15 tickets, it earns one.  If no number elects a
    process, no process changes.  The lock is free at the end, the CPU runs no
    process, and the seed is one more. *)
Theorem lottery_runs_the_winner R fuel i b s n :
  resumes F R -> kctx i 0 None b false s -> length (ptable s) = NPROC ->
  Forall valid_tickets (ptable s) -> length (mt (rng (pol s))) = N ->
  drawn_number fuel (seed (pol s)) (total (ptable s)) n ->
  wpx F (scheduler_round_v02 fuel i) (fun _ s' =>
    (exists b', kctx i 0 None b' false s') /\
    turn R RUNNABLE i (w32 (seed (pol s) + 1)) (winner n (ptable s)) s s') s.
Proof using All.
  intros HR Hk Hl HT Hr Hd. unfold scheduler_round_v02. eapply round_start; [done|].
  intros v L s1 Hk1 H1. wbind. pose proof (fill_loop (ptable s1) s1 0 eq_refl) as Hf.
  replace (length (ptable s1)) with NPROC in Hf by (symmetry; exact Hl).
  eapply wp_ok; [exact Hf|]. change (ptable s1) with (ptable s).
  destruct (fill_keeps (ptable s) (pol s)) as [Hfs Hfr]. wbind.
  set (s2 := set_pol _ s1).
  eapply wp_ok; [apply (sum_loop s2 Hl HT NPROC 0%nat eq_refl)|].
  wbind. apply wp_gets. wbind. apply wp_modify.
  change (seed (pol s2)) with (seed (foldl fill (pol s) (ptable s))). rewrite Hfs.
  set (s3 := set_pol _ s2).
  eapply wp_mono; [|apply (draw_and_run_spec R RUNNABLE fuel i true s3 (seed (pol s)) n HR);
    [by destruct Hk1|exact Hl|exact HT| |exact Hd]].
  - intros _ s' [Hk' Ht]. split; [done|]. apply (turn_start _ _ _ _ _ s s3); [|done|done]. etrans; [exact H1|]. by split.
  - change (length (mt (rng (foldl fill (pol s) (ptable s)))) = N). by rewrite Hfr.
Qed.
End Rounds.

(** ** Properties *)

Section Properties.
Context {E : Type} `{KE : KernelEnv E lottery}.
Context (F : failure -> Prop) `{!SwitchOk F E lottery}.
Implicit Types s : kst E lottery.

(** The first version draws with the incremented seed and pays its ticket only
    to a process that comes back [RUNNING]: none does, so the table after the
    round is the table the process left. *)
Theorem lottery_v01_pays_no_ticket R fuel i b s n j :
  resumes F R -> kctx i 0 None b false s -> length (ptable s) = NPROC ->
  Forall valid_tickets (ptable s) -> length (mt (rng (pol s))) = N ->
  drawn_number fuel (w32 (seed (pol s) + 1)) (total (ptable s)) n ->
  winner n (ptable s) = Some j ->
  wpx F (scheduler_round_v01 fuel i) (fun _ s' =>
    (exists b', kctx i 0 None b' false s') /\
    exists s1 s2, keq i (upd_slot j (set_state RUNNING) s) s1 /\ R j s1 s2 /\
      ptable s' = ptable s2) s.
Proof using All.
  intros HR Hk Hl HT Hr Hd Hw.
  eapply wp_mono; [|by apply (round_v01_spec F R fuel i b s n)].
  cbn beta. rewrite Hw. intros _ s' [Hk' (s1 & s2 & H1 & _ & _ & HR2 & (p2 & Hp2 & Hst) & ->)].
  split; [done|]. exists s1, s2. split_and!; [done|done|].
  apply list_eq. intros k. destruct (decide (j = k)) as [<-|Hne];
    [|by rewrite list_lookup_alter_ne].
  rewrite list_lookup_alter_eq, Hp2. simpl. unfold earn, is_state.
  by rewrite bool_decide_false.
Qed.
End Properties.

(** If a process is runnable, every number the generator can return elects one. *)
Theorem every_number_elects T n :
  Forall valid_tickets T -> existsb (is_state RUNNABLE) T = true -> 0 <= n <= total T ->
  exists j p, winner n T = Some j /\ T !! j = Some p /\ state p = RUNNABLE.
Proof.
  intros HT He Hn. destruct (winner_from_exists 0 n T HT He ltac:(lia)) as [j Hj].
  destruct (winner_from_runnable _ _ _ _ Hj) as (p & Hp & Hs). by exists j, p.
Qed.

(** The numbers that elect a runnable process, and how many bins they are. *)
Lemma tickets_of_interval T j p :
  T !! j = Some p -> state p = RUNNABLE ->
  high T j - low T j = tickets p + (if existsb (is_state RUNNABLE) (take j T) then 0 else 1).
Proof.
  intros Hj Hp.
  assert (high T j = total (take j T) + tickets p + 1) as ->.
  { unfold high. rewrite (take_S_r _ _ p Hj), total_app. cbn [total]. unfold weight.
    unfold is_state. rewrite bool_decide_true by done. lia. }
  unfold low. destruct (existsb _ _) eqn:Ee; [lia|]. rewrite (total_idle _ Ee). lia.
Qed.

Lemma winner_bins T j p x :
  (length T <= NPROC)%nat -> Forall valid_tickets T -> T !! j = Some p ->
  state p = RUNNABLE -> 0 <= x ->
  high T j <= total T + 1 /\
  (winner (x / bin_size (total T)) T = Some j <->
   low T j * bin_size (total T) <= x < high T j * bin_size (total T)).
Proof.
  intros Hl HT Hj Hp Hx. pose proof (total_small T Hl HT) as Ht.
  assert (0 <= total T <= RAND_MAX) as Htot by (unfold RAND_MAX; lia).
  pose proof (bin_size_pos (total T) Htot) as Hb. split.
  - unfold high. rewrite <- (take_drop (S j) T) at 2. rewrite total_app.
    pose proof (total_bounds (drop (S j) T) ltac:(by apply Forall_drop)). lia.
  - rewrite (winner_interval _ T j p HT Hj Hp) by (apply Z.div_pos; lia).
    assert (forall m, m <= x / bin_size (total T) <-> m * bin_size (total T) <= x) as Hdiv.
    { intros m. split; intros H.
      - pose proof (Z.mul_div_le x (bin_size (total T)) ltac:(lia)). nia.
      - apply Z.div_le_lower_bound; lia. }
    pose proof (Hdiv (high T j)). pose proof (Hdiv (low T j)). lia.
Qed.

(** The steps of a round that choose the process: the sum of the tickets, the number, the loop.
    The seeding, which the rounds do between the first two, is left to the state. *)
Definition draw_winner {E} `{KE : KernelEnv E lottery} (fuel i : nat)
    (after : nat -> M (kst E lottery) unit) : M (kst E lottery) unit :=
  ticketSum ← fold_each slots 0 sum_slot;
  lotteryNumber ← on_rng (random_at_most fuel (i32 ticketSum));
  lottery_loop after i (w32 lotteryNumber) slots 0.

Section Share.
Context {E : Type} `{KE : KernelEnv E lottery}.
Implicit Types s : kst E lottery.

(** The state after the generator gave a number and became [r]. *)
Definition next_rng (r : rand) s : kst E lottery := set_pol (set_rng r (pol s)) s.

Lemma draw_winner_step after fuel i s x r :
  length (ptable s) = NPROC -> Forall valid_tickets (ptable s) -> genrand (rng (pol s)) = (x, r) ->
  let b := bin_size (total (ptable s)) in
  draw_winner (S fuel) i after s =
  if (total (ptable s) + 1) * b <=? x then draw_winner fuel i after (next_rng r s)
  else match winner (x / b) (ptable s) with
       | Some j => run_slot i j (after j) (next_rng r s)
       | None => Ok (tt, next_rng r s)
       end.
Proof using Type.
  intros Hl HT Hg b. pose proof (total_small (ptable s) ltac:(lia) HT) as Ht.
  assert (0 <= total (ptable s) <= RAND_MAX) as Htot by (unfold RAND_MAX; lia).
  pose proof (bin_size_pos _ Htot) as Hb. pose proof (genrand_bounds (rng (pol s))) as Hx.
  rewrite Hg in Hx. cbn [fst] in Hx.
  unfold draw_winner. rewrite (bind_ok _ _ _ _ _ (sum_loop s Hl HT NPROC 0%nat eq_refl)).
  rewrite (bind_ok _ _ _ _ _ (sum_loop (next_rng r s) Hl HT NPROC 0%nat eq_refl)).
  change (ptable (next_rng r s)) with (ptable s).
  rewrite i32_small by lia. unfold on_rng at 1, mbind, M_bind.
  rewrite (random_at_most_step _ Htot fuel (rng (pol s)) x r Hg). fold b.
  destruct (Z.leb_spec ((total (ptable s) + 1) * b) x) as [Hle|Hlt].
  - unfold on_rng. change (rng (pol (next_rng r s))) with r.
    by destruct (random_at_most fuel (total (ptable s)) r) as [[n r']| | |].
  - rewrite w32_small, lottery_loop_spec; [done|done|done|].
    split; [apply Z.div_pos; lia|]. apply Z.div_lt_upper_bound; nia.
Qed.
End Share.

(** C35. The lottery is proportional.  With [x] the next number of the generator and [b] the
    size of a bin: the numbers on which the round runs the runnable process of slot [j] are an
    interval of [b] numbers for each of its tickets, and [b] more if it is the first runnable
    process of the table; the numbers from [b] times the sum of the tickets and one on are
    dropped, and it draws again; every other number runs just one process. *)
Theorem lottery_share {E} `{KE : KernelEnv E lottery} after fuel i (s : kst E lottery) x r :
  length (ptable s) = NPROC -> Forall valid_tickets (ptable s) -> genrand (rng (pol s)) = (x, r) ->
  let T := ptable s in let b := bin_size (total T) in
  ((total T + 1) * b <= x -> draw_winner (S fuel) i after s = draw_winner fuel i after (next_rng r s)) /\
  (forall j p, T !! j = Some p -> state p = RUNNABLE ->
     high T j - low T j = tickets p + (if existsb (is_state RUNNABLE) (take j T) then 0 else 1) /\
     (low T j * b <= x < high T j * b ->
        draw_winner (S fuel) i after s = run_slot i j (after j) (next_rng r s))) /\
  (x < (total T + 1) * b -> existsb (is_state RUNNABLE) T = true ->
     exists j p, T !! j = Some p /\ state p = RUNNABLE /\ low T j * b <= x < high T j * b /\
       forall k q, T !! k = Some q -> state q = RUNNABLE -> low T k * b <= x < high T k * b -> k = j).
Proof.
  intros Hl HT Hg T b. rewrite (draw_winner_step after fuel i s x r Hl HT Hg). fold T b.
  assert (length T <= NPROC)%nat as HlT by (unfold T; lia). pose proof (total_small T HlT HT) as Ht.
  assert (1 <= b) as Hb by (apply bin_size_pos; unfold RAND_MAX; lia).
  pose proof (genrand_bounds (rng (pol s))) as Hx. rewrite Hg in Hx. cbn [fst] in Hx.
  assert (forall j p, T !! j = Some p -> state p = RUNNABLE ->
    high T j <= total T + 1 /\ (winner (x / b) T = Some j <-> low T j * b <= x < high T j * b)) as Hw.
  { intros j p Hj Hp. apply (winner_bins T j p x); [done..|lia]. }
  split; [|split].
  - intros Hle. by rewrite (proj2 (Z.leb_le _ _)).
  - intros j p Hj Hp. split; [by apply tickets_of_interval|]. intros Hin.
    destruct (Hw j p Hj Hp) as [Hhi Hwin]. apply Hwin in Hin as Hwj. rewrite Hwj.
    rewrite (proj2 (Z.leb_gt _ _)); [done|nia].
  - intros Hlt He. destruct (winner_from_exists 0 (x / b) T HT He) as [j Hj].
    { assert (x / b < total T + 1); [|lia].
        apply Z.div_lt_upper_bound; lia. }
    destruct (winner_from_runnable _ _ _ _ Hj) as (p & Hp & Hs). exists j, p.
    split_and!; [done|done|by apply (Hw j p Hp Hs)|by apply (Hw j p Hp Hs)|].
    intros k q Hq Hqs Hin. apply (Hw k q Hq Hqs) in Hin. unfold winner in Hin. congruence.
Qed.

(** A runnable process without tickets, which [settickets 0] makes of any
    process, is never elected while another stands before it in the table. *)
Theorem no_ticket_no_turn T j p n :
  Forall valid_tickets T -> T !! j = Some p -> state p = RUNNABLE -> tickets p = 0 ->
  existsb (is_state RUNNABLE) (take j T) = true -> 0 <= n ->
  winner n T <> Some j.
Proof.
  intros HT Hj Hp H0 He Hn Hw. apply (winner_interval n T j p HT Hj Hp Hn) in Hw.
  unfold low, high in Hw. rewrite He, (take_S_r _ _ p Hj), total_app in Hw.
  cbn [total] in Hw. unfold weight, is_state in Hw.
  rewrite bool_decide_true in Hw by done. lia.
Qed.

(** The second version's copy of the table for [pstat] keeps the last slot only:
    after the loop, entry 0 of the arrays is the last slot's, and every other entry
    is what it was. *)
Theorem pstat_keeps_last_slot {E} `{KE : KernelEnv E lottery} (s : kst E lottery) T p :
  length (ptable s) = NPROC -> ptable s = T ++ [p] ->
  exists q, for_each slots fill_slot s = Ok (tt, set_pol q s) /\
    ps_pid (lpstat q) = <[0%nat := pid p]> (ps_pid (lpstat (pol s))) /\
    ps_tickets (lpstat q) = <[0%nat := tickets p]> (ps_tickets (lpstat (pol s))).
Proof.
  intros Hl HT. pose proof (fill_loop (ptable s) s 0 eq_refl) as Hf.
  rewrite Hl in Hf. eexists. split; [exact Hf|]. rewrite HT, foldl_app. cbn [foldl].
  generalize (pol s) as q. clear. induction T as [|p' T IH]; intros q; [done|].
  cbn [foldl]. destruct (IH (fill q p')) as [H1 H2]. cbn [fill set_lpstat lpstat ps_pid ps_tickets] in *.
  by rewrite H1, H2, !list_insert_insert_eq.
Qed.

(** ** Instances *)

(** Two runnable processes with one and two tickets, and one that sleeps. *)
Definition players : list proc :=
  table [mkproc RUNNABLE 1 None Null; set_tickets 2 (mkproc RUNNABLE 2 (Some 0%nat) Null);
         mkproc SLEEPING 3 (Some 0%nat) (PProc 2)].

Definition lottery_state (n : Z) : kst pages lottery :=
  kstate None players 4 (Lottery n rand_static pstat_zero).

Lemma players_valid : Forall valid_tickets players.
Proof.
  unfold valid_tickets. apply Forall_app. split; [|by apply Forall_replicate].
  by repeat constructor.
Qed.

Lemma first_output sd v :
  fst (genrand (sgenrand sd rand_static)) = v -> output sd 0 = v.
Proof.
  intros <-. symmetry. by apply genrand_drawn, drawn_seeded.
Qed.

Lemma draws_first sd v n :
  fst (genrand (sgenrand sd rand_static)) = v -> accepted 3 v = true ->
  v / bin_size 3 = n -> drawn_number 1 sd 3 n.
Proof.
  intros Hv Ha Hn. exists 0%nat, v. split; [done|].
  cbn [seq map list_find]. rewrite (first_output sd v Hv). by rewrite decide_True.
Qed.

(** Seed 2310 draws number 2, which process 1 holds. *)
Lemma lottery_runs_the_winner_witness :
  wp (scheduler_round_v02 1 0) (fun _ s' =>
    (exists b', kctx 0 0 None b' false s') /\
    turn (fun j s1 s2 => s2 = upd_slot j (set_state RUNNABLE) s1) RUNNABLE 0 2311
      (winner 2 players) (lottery_state 2310) s') (lottery_state 2310).
Proof.
  apply (lottery_runs_the_winner never
    (fun j s1 s2 => s2 = upd_slot j (set_state RUNNABLE) s1) 1 0 true (lottery_state 2310) 2);
    [apply page_env_resumes|apply kstate_kctx|done|apply players_valid
    |apply length_replicate|].
  apply (draws_first 2310 1264837741 2); [vm_compute|..]; reflexivity.
Defined.

Lemma lottery_v01_pays_no_ticket_witness :
  wp (scheduler_round_v01 1 0) (fun _ s' =>
    (exists b', kctx 0 0 None b' false s') /\
    exists s1 s2, keq 0 (upd_slot 1 (set_state RUNNING) (lottery_state 2310)) s1 /\
      s2 = upd_slot 1 (set_state RUNNABLE) s1 /\ ptable s' = ptable s2)
    (lottery_state 2310).
Proof.
  apply (lottery_v01_pays_no_ticket never
    (fun j s1 s2 => s2 = upd_slot j (set_state RUNNABLE) s1) 1 0 true
    (lottery_state 2310) 2 1);
    [apply page_env_resumes|apply kstate_kctx|done|apply players_valid
    |apply length_replicate| |reflexivity].
  apply (draws_first 2311 1509726915 2); [vm_compute|..]; reflexivity.
Defined.

Lemma every_number_elects_witness :
  exists j p, winner 2 players = Some j /\ players !! j = Some p /\ state p = RUNNABLE.
Proof. apply every_number_elects; [apply players_valid|done|done]. Defined.

(** The generator seeded with 2310 gives 1264837741, with which process 2, of slot 1, runs: it
    holds two of the four bins of [2 ^ 29] numbers. *)
Lemma lottery_share_witness :
  let s := set_pol (set_rng (sgenrand 2310 rand_static) (pol (lottery_state 2310))) (lottery_state 2310) in
  draw_winner 1 0 (bonus RUNNABLE) s =
    run_slot 0 1 (bonus RUNNABLE 1) (next_rng (snd (genrand (sgenrand 2310 rand_static))) s) /\
  high players 1 - low players 1 = 2 /\ bin_size (total players) = 2 ^ 29.
Proof.
  destruct (lottery_share (bonus RUNNABLE) 0 0
    (set_pol (set_rng (sgenrand 2310 rand_static) (pol (lottery_state 2310))) (lottery_state 2310))
    1264837741 (snd (genrand (sgenrand 2310 rand_static)))) as (_ & Hj & _);
    [done|apply players_valid| |].
  { change (genrand (sgenrand 2310 rand_static) = (1264837741, snd (genrand (sgenrand 2310 rand_static)))).
    rewrite (surjective_pairing (genrand (sgenrand 2310 rand_static))) at 1. f_equal. }
  destruct (Hj 1%nat (set_tickets 2 (mkproc RUNNABLE 2 (Some 0%nat) Null)) eq_refl eq_refl) as [Hs Hr].
  split; [|split; [exact Hs|by vm_compute]]. apply Hr. vm_compute. split; congruence.
Defined.

Lemma no_ticket_no_turn_witness :
  winner 1 (table [mkproc RUNNABLE 1 None Null;
                   set_tickets 0 (mkproc RUNNABLE 2 None Null)]) <> Some 1%nat.
Proof.
  apply (no_ticket_no_turn _ 1 (set_tickets 0 (mkproc RUNNABLE 2 None Null)));
    [|done..].
  unfold valid_tickets. apply Forall_app. split; [|by apply Forall_replicate].
  by repeat constructor.
Defined.

Lemma pstat_keeps_last_slot_witness :
  exists q, for_each slots fill_slot (lottery_state 2310)
              = Ok (tt, set_pol q (lottery_state 2310)) /\
    ps_pid (lpstat q) = <[0%nat := 0]> (ps_pid pstat_zero) /\
    ps_tickets (lpstat q) = <[0%nat := 0]> (ps_tickets pstat_zero).
Proof.
  apply (pstat_keeps_last_slot (lottery_state 2310) (removelast players) proc_zero); done.
Defined.
