(* ===== verification/Mlfq.v ===== *)
(** * The multi-level feedback queue

    [lab-2/proc_mlfq_v02.c]: three levels of queues of processes, a budget of
    ticks after which a process is demoted, and a periodic promotion. *)

From S2P Require Import Prelude CString Spinlock ProcData Proc ProcSpec Env.

(** [mlfq_queue], three rows of [2*NPROC] pointers to processes; the index of the
    last entry of each row, -1 for an empty queue; [ptable.PromoteAtTime]. *)
Record mlfq := Mlfq {
  mlfq_queue : list (list (option nat));
  mlfq_queue_size : list Z;
  promote_at : Z
}.

Definition QLEN : nat := 2 * NPROC.
Lemma QLEN_large : (2 < QLEN)%nat.
Proof. unfold QLEN, NPROC. lia. Qed.

Definition mlfq_init : mlfq := Mlfq (replicate 3 (replicate QLEN None)) [-1; -1; -1] 0.

Section Queues.
Context {E : Type}.
Abbreviation K := (M (kst E mlfq)).

Definition qsize (lvl : Z) : K Z :=
  q ← gets pol; lift_opt "mlfq_queue_size" (zlookup (mlfq_queue_size q) lvl).

Definition set_qsize (lvl n : Z) : K unit :=
  q ← gets pol;
  l ← lift_opt "mlfq_queue_size" (zinsert lvl n (mlfq_queue_size q));
  modify (set_pol (Mlfq (mlfq_queue q) l (promote_at q))).

Definition qread (lvl k : Z) : K (option nat) :=
  q ← gets pol;
  r ← lift_opt "mlfq_queue" (zlookup (mlfq_queue q) lvl);
  lift_opt "mlfq_queue" (zlookup r k).

Definition qwrite (lvl k : Z) (e : option nat) : K unit :=
  q ← gets pol;
  r ← lift_opt "mlfq_queue" (zlookup (mlfq_queue q) lvl);
  r' ← lift_opt "mlfq_queue" (zinsert k e r);
  rows ← lift_opt "mlfq_queue" (zinsert lvl r' (mlfq_queue q));
  modify (set_pol (Mlfq rows (mlfq_queue_size q) (promote_at q))).

(** The code's two lines that add a process to a queue. *)
Definition enqueue (lvl : Z) (p : nat) : K unit :=
  n ← qsize lvl;
  set_qsize lvl (n + 1) ;;
  n ← qsize lvl;
  qwrite lvl n (Some p).

(** [n] steps of the loop that moves the entries after [k] down by one. *)
Fixpoint shift_down (lvl k : Z) (n : nat) : K unit :=
  match n with
  | O => mret tt
  | S n' => e ← qread lvl (k + 1); qwrite lvl k e ;; shift_down lvl (k + 1) n'
  end.

Definition remove_entry (lvl k : Z) : K unit :=
  n ← qsize lvl;
  shift_down lvl k (Z.to_nat (n - k)) ;;
  n ← qsize lvl;
  set_qsize lvl (n - 1).

(** The first of the [n] entries from [k] on that is the process [p]. *)
Fixpoint find_entry (lvl : Z) (p : nat) (k : Z) (n : nat) : K (option Z) :=
  match n with
  | O => mret None
  | S n' =>
      e ← qread lvl k;
      if bool_decide (e = Some p) then mret (Some k) else find_entry lvl p (k + 1) n'
  end.
End Queues.

Section Scheduler.
Context {E : Type} `{KE : KernelEnv E mlfq}.
Abbreviation K := (M (kst E mlfq)).

(** The child [j] that [fork] made runnable. *)
Definition mlfq_ready (j : nat) : K unit :=
  updp j (set_priority MAXPRIORITY) ;;
  updp j (set_original_priority MAXPRIORITY) ;;
  updp j (set_budget DEFAULT_BUDGET) ;;
  enqueue MAXPRIORITY j.

(** A process [j] that [wakeup1] made runnable; the search stops before the last
    entry. *)
Definition mlfq_wake (j : nat) : K unit :=
  p ← getp j;
  n ← qsize (priority p);
  f ← find_entry (priority p) j 0 (Z.to_nat n);
  match f with
  | Some _ => mret tt
  | None => enqueue (priority p) j
  end.

Definition mlfq_start : K unit :=
  s ← get;
  modify (set_pol (Mlfq (mlfq_queue (pol s)) (mlfq_queue_size (pol s))
    (w32 (kticks s + TICKS_TO_PROMOTE)))).

Definition mlfq_policy : SchedPolicy E mlfq := {|
  alloc_hook := fun _ => mret tt;
  init_hook := mlfq_start;
  copy_hook := fun _ _ => mret tt;
  ready_hook := mlfq_ready;
  exit_hook := fun _ => mret tt;
  wake_hook := mlfq_wake;
  tickets_valid := fun n => 0 <=? n
|}.

Definition promote_slot (j : nat) : K unit :=
  p ← getp j;
  when (negb (is_state ZOMBIE p) && (priority p <? MAXPRIORITY))
    (n ← qsize (priority p);
     f ← find_entry (priority p) j 0 (Z.to_nat (n + 1));
     match f with
     | Some k => remove_entry (priority p) k
     | None => mret tt
     end ;;
     setpriority (pid p) (priority p + 1) ;;
     updp j (set_budget DEFAULT_BUDGET) ;;
     p ← getp j;
     enqueue (priority p) j).

Definition promote : K unit :=
  s ← get;
  when (promote_at (pol s) <=? kticks s)
    (for_each slots promote_slot ;; mlfq_start).

(** The turn of the process [j] at the entry [k] of a queue, on CPU [i]. *)
Definition requeue (j : nat) : K unit :=
  p ← getp j;
  if budget p <=? 0 then
    if 0 <? priority p then
      setpriority (pid p) (priority p - 1) ;;
      p ← getp j;
      updp j (set_original_priority (priority p)) ;;
      enqueue (priority p) j
    else enqueue (priority p) j
  else enqueue (priority p) j.

Definition run_entry (i : nat) (lvl k : Z) (j : nat) : K unit :=
  remove_entry lvl k ;;
  start_time ← gets kticks;
  run_slot i j (mret tt) ;;
  end_time ← gets kticks;
  p ← getp j;
  updp j (set_budget (i32 (budget p - i32 (i32 end_time - i32 start_time)))) ;;
  requeue j.

(** The loop over the entries of a queue; [check] tells whether one ran. *)
Fixpoint scan (fuel i : nat) (lvl k : Z) (check : bool) : K bool :=
  match fuel with
  | O => diverge
  | S fuel' =>
      n ← qsize lvl;
      if n <? k then mret check
      else
        e ← qread lvl k;
        j ← lift_opt "mlfq_queue entry" e;
        p ← getp j;
        if negb (is_state RUNNABLE p) && (k =? n) then mret check
        else if negb (is_state RUNNABLE p) then scan fuel' i lvl (k + 1) check
        else run_entry i lvl k j ;; scan fuel' i lvl (k + 1) true
  end.

(** The [while] loop of one level: until a scan runs nothing.  A scan looks at
    each of the [QLEN] positions once. *)
Fixpoint level_loop (fuel i : nat) (lvl : Z) : K unit :=
  match fuel with
  | O => diverge
  | S fuel' =>
      n ← qsize lvl;
      if n <? 0 then mret tt
      else
        check ← scan (S QLEN) i lvl 0 false;
        if (check : bool) then level_loop fuel' i lvl else mret tt
  end.

Definition scheduler_round (fuel i : nat) : K unit :=
  on_mac sti ;;
  h ← holding_lk ptable_lock;
  when h (release_lk ptable_lock) ;;
  acquire_lk ptable_lock ;;
  promote ;;
  for_each [2; 1; 0] (level_loop fuel i) ;;
  release_lk ptable_lock.
End Scheduler.

(** ** The queues as lists *)

(** Row [r] with size variable [n] holds the processes [L]. *)
Definition row_holds (r : list (option nat)) (n : Z) (L : list nat) : Prop :=
  length r = QLEN /\ n = Z.of_nat (length L) - 1 /\ take (length L) r = map Some L.

(** The queues of the state [q] are the lists [LL], lowest level first. *)
Record holds (q : mlfq) (LL : list (list nat)) : Prop := Holds {
  h_rows : length (mlfq_queue q) = 3%nat;
  h_sizes : length (mlfq_queue_size q) = 3%nat;
  h_levels : length LL = 3%nat;
  h_row lvl r n L : mlfq_queue q !! lvl = Some r -> mlfq_queue_size q !! lvl = Some n ->
    LL !! lvl = Some L -> row_holds r n L
}.

Lemma holds_init : holds mlfq_init [[]; []; []].
Proof.
  split; [done..|]. intros lvl r n L.
  destruct lvl as [|[|[|lvl]]]; [..|done]; simpl; intros [= <-] [= <-] [= <-]; by split_and!.
Qed.

Section Lists.
Context {E : Type}.
Implicit Types s : kst E mlfq.

Lemma holds_level q LL lvl L :
  holds q LL -> LL !! lvl = Some L ->
  exists r, mlfq_queue q !! lvl = Some r /\
    mlfq_queue_size q !! lvl = Some (Z.of_nat (length L) - 1) /\
    length r = QLEN /\ take (length L) r = map Some L /\ (lvl < 3)%nat.
Proof.
  intros [H1 H2 H3 H4] HL. assert (lvl < 3)%nat as Hl by (rewrite <- H3; by eapply lookup_lt_Some).
  destruct (lookup_lt_is_Some_2 (mlfq_queue q) lvl) as [r Hr]; [lia|].
  destruct (lookup_lt_is_Some_2 (mlfq_queue_size q) lvl) as [n Hn]; [lia|].
  destruct (H4 _ _ _ _ Hr Hn HL) as (Hlen & -> & Ht). by exists r.
Qed.

Lemma holds_length q LL lvl L :
  holds q LL -> LL !! lvl = Some L -> (length L <= QLEN)%nat.
Proof.
  intros H HL. destruct (holds_level _ _ _ _ H HL) as (r & _ & _ & Hr & Ht & _).
  apply (f_equal length) in Ht. rewrite length_take, length_map in Ht. lia.
Qed.

Lemma holds_unique q LL LL' : holds q LL -> holds q LL' -> LL = LL'.
Proof.
  intros H H'. apply list_eq_same_length with 3%nat; [apply H'|apply H|].
  intros i L L' _ HL HL'.
  destruct (holds_level _ _ _ _ H HL) as (r & Hr & Hn & _ & Ht & _).
  destruct (holds_level _ _ _ _ H' HL') as (r' & Hr' & Hn' & _ & Ht' & _).
  assert (length L = length L') as He by (assert (Some (Z.of_nat (length L) - 1)
    = Some (Z.of_nat (length L') - 1)) as [=] by congruence; lia).
  assert (r' = r) as -> by congruence. rewrite <- He, Ht in Ht'.
  by apply (inj (map Some)).
Qed.

Lemma holds_update q LL lvl r n L :
  holds q LL -> row_holds r n L ->
  holds (Mlfq (<[lvl := r]> (mlfq_queue q)) (<[lvl := n]> (mlfq_queue_size q))
           (promote_at q)) (<[lvl := L]> LL).
Proof.
  intros [H1 H2 H3 H4] Hr. split; simpl; rewrite ?length_insert; [done..|].
  intros lvl' r' n' L'. destruct (decide (lvl = lvl')) as [<-|Hne].
  - intros G1 G2 G3.
    apply list_lookup_insert_Some in G1 as [(_ & <- & _)|[? _]]; [|done].
    apply list_lookup_insert_Some in G2 as [(_ & <- & _)|[? _]]; [|done].
    by apply list_lookup_insert_Some in G3 as [(_ & <- & _)|[? _]].
  - rewrite !list_lookup_insert_ne by done. apply H4.
Qed.

Lemma qsize_run s lvl n :
  mlfq_queue_size (pol s) !! lvl = Some n -> qsize (Z.of_nat lvl) s = Ok (n, s).
Proof. intros H. unfold qsize. mrun. by rewrite zlookup_nat, H. Qed.

Lemma set_qsize_run s lvl n :
  (lvl < length (mlfq_queue_size (pol s)))%nat ->
  set_qsize (Z.of_nat lvl) n s = Ok (tt, set_pol (Mlfq (mlfq_queue (pol s))
    (<[lvl := n]> (mlfq_queue_size (pol s))) (promote_at (pol s))) s).
Proof. intros H. unfold set_qsize. mrun. rewrite zinsert_nat by done. by mrun. Qed.

Lemma qread_run s lvl k r :
  mlfq_queue (pol s) !! lvl = Some r -> 
  qread (Z.of_nat lvl) k s = match zlookup r k with
                             | Some e => Ok (e, s) | None => Fault "mlfq_queue" end.
Proof.
  intros H. unfold qread. mrun. rewrite zlookup_nat, H. mrun.
  by destruct (zlookup r k).
Qed.

Lemma qwrite_run s lvl k r e :
  mlfq_queue (pol s) !! lvl = Some r ->
  qwrite (Z.of_nat lvl) k e s = match zinsert k e r with
    | Some r' => Ok (tt, set_pol (Mlfq (<[lvl := r']> (mlfq_queue (pol s)))
                   (mlfq_queue_size (pol s)) (promote_at (pol s))) s)
    | None => Fault "mlfq_queue" end.
Proof.
  intros H. unfold qwrite. mrun. rewrite zlookup_nat, H. mrun.
  destruct (zinsert k e r) as [r'|]; [|done]. mrun.
  rewrite zinsert_nat by (by eapply lookup_lt_Some). by mrun.
Qed.

(** [enqueue] appends, as long as the row has room. *)
Lemma enqueue_spec s LL lvl L p :
  holds (pol s) LL -> LL !! lvl = Some L -> (length L < QLEN)%nat ->
  exists q, enqueue (Z.of_nat lvl) p s = Ok (tt, set_pol q s) /\
    holds q (<[lvl := L ++ [p]]> LL) /\ promote_at q = promote_at (pol s).
Proof.
  intros H HL Hlen.
  destruct (holds_level _ _ _ _ H HL) as (r & Hr & Hn & Hlr & Ht & Hlvl).
  unfold enqueue. rewrite (bind_ok _ _ _ _ _ (qsize_run _ _ _ Hn)).
  rewrite (bind_ok _ _ _ _ _ (set_qsize_run s lvl _ ltac:(by eapply lookup_lt_Some))).
  set (s1 := set_pol _ s).
  assert (mlfq_queue_size (pol s1) !! lvl = Some (Z.of_nat (length L) - 1 + 1)) as Hn1.
  { apply list_lookup_insert_eq. by eapply lookup_lt_Some. }
  rewrite (bind_ok _ _ _ _ _ (qsize_run s1 _ _ Hn1)).
  rewrite (qwrite_run s1 lvl _ r _ Hr).
  replace (Z.of_nat (length L) - 1 + 1) with (Z.of_nat (length L)) by lia.
  rewrite zinsert_nat by lia. eexists. split; [reflexivity|]. split; [|done].
  apply (holds_update (pol s) LL lvl); [done|]. split_and!.
  - by rewrite length_insert.
  - rewrite length_app. simpl. lia.
  - rewrite length_app, map_app, <- Ht. simpl. rewrite Nat.add_1_r.
    rewrite (take_S_r _ _ (Some p)) by (apply list_lookup_insert_eq; lia).
    by rewrite take_insert_ge by lia.
Qed.

(** With [QLEN] processes in the row, it writes past the end of the row. *)
Lemma enqueue_full s LL lvl L p :
  holds (pol s) LL -> LL !! lvl = Some L -> length L = QLEN ->
  enqueue (Z.of_nat lvl) p s = Fault "mlfq_queue".
Proof.
  intros H HL Hlen.
  destruct (holds_level _ _ _ _ H HL) as (r & Hr & Hn & Hlr & Ht & Hlvl).
  unfold enqueue. rewrite (bind_ok _ _ _ _ _ (qsize_run _ _ _ Hn)).
  rewrite (bind_ok _ _ _ _ _ (set_qsize_run s lvl _ ltac:(by eapply lookup_lt_Some))).
  set (s1 := set_pol _ s).
  assert (mlfq_queue_size (pol s1) !! lvl = Some (Z.of_nat (length L) - 1 + 1)) as Hn1.
  { apply list_lookup_insert_eq. by eapply lookup_lt_Some. }
  rewrite (bind_ok _ _ _ _ _ (qsize_run s1 _ _ Hn1)).
  rewrite (qwrite_run s1 lvl _ r _ Hr), zinsert_out; [done|].
  replace (Z.of_nat (length L) - 1 + 1) with (Z.of_nat (length L)) by lia.
  rewrite zlookup_nat. apply lookup_ge_None_2. lia.
Qed.

(** The shifting loop on the row itself. *)
Fixpoint shifted (r : list (option nat)) (k n : nat) : list (option nat) :=
  match n with
  | O => r
  | S n' => match r !! S k with
            | Some e => shifted (<[k := e]> r) (S k) n'
            | None => r
            end
  end.

Lemma shift_down_run n s lvl k r :
  mlfq_queue (pol s) !! lvl = Some r -> (k + n < length r)%nat ->
  shift_down (Z.of_nat lvl) (Z.of_nat k) n s =
  Ok (tt, set_pol (Mlfq (<[lvl := shifted r k n]> (mlfq_queue (pol s)))
            (mlfq_queue_size (pol s)) (promote_at (pol s))) s).
Proof.
  revert s k r. induction n as [|n IH]; intros s k r Hr Hk; cbn [shift_down shifted].
  { rewrite list_insert_id by done. destruct s as [???????? ? []]; done. }
  destruct (lookup_lt_is_Some_2 r (S k)) as [e He]; [lia|].
  replace (Z.of_nat k + 1) with (Z.of_nat (S k)) by lia.
  rewrite He. assert (qread (Z.of_nat lvl) (Z.of_nat (S k)) s = Ok (e, s)) as Hq.
  { rewrite (qread_run _ _ _ _ Hr), zlookup_nat. by rewrite He. }
  rewrite (bind_ok _ _ _ _ _ Hq). clear Hq.
  assert (forall s', qwrite (Z.of_nat lvl) (Z.of_nat k) e s = Ok (tt, s') ->
    shift_down (Z.of_nat lvl) (Z.of_nat (S k)) n s' =
    Ok (tt, set_pol (Mlfq (<[lvl:=shifted (<[k:=e]> r) (S k) n]> (mlfq_queue (pol s)))
           (mlfq_queue_size (pol s)) (promote_at (pol s))) s)) as Hstep.
  { intros s'. rewrite (qwrite_run _ _ _ _ _ Hr), zinsert_nat by lia. intros [= <-].
    rewrite (IH _ (S k) (<[k:=e]> r)).
    - simpl. by rewrite list_insert_insert_eq.
    - simpl. apply list_lookup_insert_eq. by eapply lookup_lt_Some.
    - rewrite length_insert. lia. }
  destruct (qwrite (Z.of_nat lvl) (Z.of_nat k) e s) as [[[] s']| | |] eqn:Hw.
  - rewrite (bind_ok _ _ _ _ _ Hw). by apply Hstep.
  - by rewrite (qwrite_run _ _ _ _ _ Hr), zinsert_nat in Hw by lia.
  - by rewrite (qwrite_run _ _ _ _ _ Hr), zinsert_nat in Hw by lia.
  - by rewrite (qwrite_run _ _ _ _ _ Hr), zinsert_nat in Hw by lia.
Qed.

Lemma shifted_length r k n : length (shifted r k n) = length r.
Proof.
  revert r k. induction n as [|n IH]; intros r k; [done|]. cbn [shifted].
  destruct (r !! S k); [|done]. by rewrite IH, length_insert.
Qed.

(** After the loop the entry [k] is gone from the first [k + n + 1]. *)
Lemma shifted_take r k n :
  (k + n < length r)%nat -> take (k + n) (shifted r k n) = delete k (take (S (k + n)) r).
Proof.
  revert r k. induction n as [|n IH]; intros r k Hk; cbn [shifted].
  - rewrite Nat.add_0_r in *. destruct (lookup_lt_is_Some_2 r k) as [x Hx]; [lia|].
    rewrite (take_S_r _ _ x Hx), delete_take_drop.
    rewrite take_app_le by (rewrite length_take; lia). rewrite take_take, Nat.min_id.
    rewrite drop_ge by (rewrite length_app, length_take; simpl; lia). by rewrite app_nil_r.
  - destruct (lookup_lt_is_Some_2 r (S k)) as [e He]; [lia|]. rewrite He.
    replace (k + S n)%nat with (S k + n)%nat by lia.
    rewrite IH by (rewrite length_insert; lia).
    rewrite !delete_take_drop, !take_take, !Nat.min_l by lia.
    replace (drop (S (S k)) (take (S (S k + n)) (<[k:=e]> r)))
      with (take n (drop (S (S k)) r)).
    2:{ replace (S (S k + n)) with (S (S k) + n)%nat by lia.
        by rewrite <- take_drop_commute, drop_insert_lt by lia. }
    replace (drop (S k) (take (S (S k + n)) r)) with (take (S n) (drop (S k) r)).
    2:{ replace (S (S k + n)) with (S k + S n)%nat by lia. by rewrite take_drop_commute. }
    rewrite (take_S_r _ _ e) by (apply list_lookup_insert_eq; lia).
    rewrite take_insert_ge, <- app_assoc by lia. f_equal.
    by rewrite (drop_S _ e (S k) He).
Qed.

(** [remove_entry] deletes. *)
Lemma remove_entry_spec s LL lvl L k :
  holds (pol s) LL -> LL !! lvl = Some L -> (k < length L)%nat ->
  exists q, remove_entry (Z.of_nat lvl) (Z.of_nat k) s = Ok (tt, set_pol q s) /\
    holds q (<[lvl := delete k L]> LL) /\ promote_at q = promote_at (pol s).
Proof.
  intros H HL Hk.
  destruct (holds_level _ _ _ _ H HL) as (r & Hr & Hn & Hlr & Ht & Hlvl).
  pose proof (holds_length _ _ _ _ H HL) as HLl.
  set (m := (length L - 1 - k)%nat).
  unfold remove_entry. rewrite (bind_ok _ _ _ _ _ (qsize_run _ _ _ Hn)).
  replace (Z.to_nat (Z.of_nat (length L) - 1 - Z.of_nat k)) with m by lia.
  rewrite (bind_ok _ _ _ _ _ (shift_down_run m s lvl k r Hr ltac:(lia))).
  set (s1 := set_pol _ s).
  rewrite (bind_ok _ _ _ _ _ (qsize_run s1 _ _ Hn)).
  rewrite (set_qsize_run s1 lvl) by (by eapply lookup_lt_Some).
  eexists. split; [reflexivity|]. split; [|done].
  assert (S (length (delete k L)) = length L) as Hd.
  { rewrite length_delete by (by apply lookup_lt_is_Some_2). lia. }
  apply (holds_update (pol s) LL lvl); [done|]. split_and!.
  - by rewrite shifted_length.
  - lia.
  - replace (length (delete k L)) with (k + m)%nat by lia.
    rewrite shifted_take by lia. replace (S (k + m)) with (length L) by lia.
    rewrite Ht. by rewrite list_fmap_delete.
Qed.

Lemma qread_entry s LL lvl L k x :
  holds (pol s) LL -> LL !! lvl = Some L -> L !! k = Some x ->
  qread (Z.of_nat lvl) (Z.of_nat k) s = Ok (Some x, s).
Proof.
  intros H HL Hx. destruct (holds_level _ _ _ _ H HL) as (r & Hr & Hn & Hlr & Ht & Hlvl).
  rewrite (qread_run _ _ _ _ Hr), zlookup_nat.
  rewrite <- (lookup_take_lt r (length L)) by (by eapply lookup_lt_Some).
  by rewrite Ht, list_lookup_fmap, Hx.
Qed.

(** The first entry that is the process [p], among those from [k] on. *)
Lemma find_entry_spec s LL lvl L p n k :
  holds (pol s) LL -> LL !! lvl = Some L -> (k + n <= length L)%nat ->
  find_entry (Z.of_nat lvl) p (Z.of_nat k) n s =
  Ok ((fun j => Z.of_nat (k + j)) <$> (fst <$> list_find (fun x => x = p) (take n (drop k L))), s).
Proof.
  intros H HL. destruct (holds_level _ _ _ _ H HL) as (r & Hr & Hn & Hlr & Ht & Hlvl).
  revert k. induction n as [|n IH]; intros k Hk; [done|]. cbn [find_entry].
  destruct (lookup_lt_is_Some_2 L k) as [x Hx]; [lia|].
  rewrite (drop_S _ x k Hx). cbn [take list_find].
  rewrite (bind_ok _ _ _ _ _ (qread_entry s LL lvl L k x H HL Hx)). case_decide as Hxp.
  - subst. rewrite bool_decide_true by done. simpl. by rewrite Nat.add_0_r.
  - rewrite bool_decide_false by congruence.
    replace (Z.of_nat k + 1) with (Z.of_nat (S k)) by lia.
    rewrite IH by lia. destruct (list_find _ _) as [[j y]|]; [|done]. simpl.
    do 3 f_equal. lia.
Qed.
End Lists.

(** ** A turn *)

(** What a turn does to a process whose budget was charged: with no budget left
    it goes down a level and gets a new budget, except on the lowest level. *)
Definition exhausted (p : proc) : bool := (budget p <=? 0) && (0 <? priority p).

Definition after_turn (p : proc) : proc :=
  if exhausted p then
    set_original_priority (priority p - 1)
      (set_budget DEFAULT_BUDGET (set_priority (priority p - 1) p))
  else p.

Definition lvl_of (p : proc) : nat := Z.to_nat (priority p).

Section Turn.
Context {E : Type} `{KE : KernelEnv E mlfq}.
Context (F : failure -> Prop) `{!SwitchOk F E mlfq}.
Implicit Types s : kst E mlfq.

Lemma requeue_spec s LL j p L :
  holds (pol s) LL -> ptable s !! j = Some p -> length (ptable s) = NPROC ->
  first_slot (fun x => pid x =? pid p) (ptable s) = Some j ->
  0 <= priority p <= MAXPRIORITY ->
  LL !! lvl_of (after_turn p) = Some L -> (length L < QLEN)%nat ->
  exists q, requeue j s = Ok (tt, set_pol q (upd_slot j after_turn s)) /\
    holds q (<[lvl_of (after_turn p) := L ++ [j]]> LL) /\ promote_at q = promote_at (pol s).
Proof using Type.
  intros H Hj Hl Hpid Hpr HL Hlen. unfold requeue. mstep (getp_run j p s Hj).
  assert (exhausted p = false -> exists q, enqueue (priority p) j s =
    Ok (tt, set_pol q (upd_slot j after_turn s)) /\
    holds q (<[lvl_of (after_turn p) := L ++ [j]]> LL) /\ promote_at q = promote_at (pol s)) as Hno.
  { intros He. assert (after_turn p = p) as Ha by (unfold after_turn; by rewrite He).
    rewrite (upd_slot_id j after_turn s p Hj Ha). rewrite Ha in *.
    replace (priority p) with (Z.of_nat (lvl_of p)) by (unfold lvl_of; lia).
    by apply (enqueue_spec s LL). }
  unfold exhausted in Hno. destruct (budget p <=? 0) eqn:Hb; [|by apply Hno].
  destruct (Z.ltb_spec 0 (priority p)) as [Hpos|]; [|by apply Hno]. clear Hno.
  assert (after_turn p = set_original_priority (priority p - 1)
    (set_budget DEFAULT_BUDGET (set_priority (priority p - 1) p))) as Ha.
  { unfold after_turn, exhausted. by rewrite Hb, (proj2 (Z.ltb_lt _ _)). }
  mstep (setpriority_run (pid p) (priority p - 1) j s ltac:(lia) Hl Hpid).
  rewrite upd_slot_upd. mstep (getp_run j _ _ (upd_slot_eq j
    (set_budget DEFAULT_BUDGET ∘ set_priority (priority p - 1)) s p Hj)).
  unfold updp. mrun.
  set (s2 := set_ptable _ _).
  assert (s2 = upd_slot j after_turn s) as Hs2.
  { unfold s2. change (upd_slot j (set_original_priority (priority p - 1))
      (upd_slot j (set_budget DEFAULT_BUDGET ∘ set_priority (priority p - 1)) s)
      = upd_slot j after_turn s).
    rewrite upd_slot_upd. by apply (upd_slot_ext j _ _ s p). }
  rewrite Hs2. cbn [priority set_priority set_budget compose].
  replace (priority p - 1) with (Z.of_nat (lvl_of (after_turn p)))
    by (rewrite Ha; unfold lvl_of; simpl; lia).
  by apply (enqueue_spec (upd_slot j after_turn s) LL).
Qed.

(** What a process may find and leave when it runs: the queues are well formed
    with room in every row, no two slots share its pid, and its priority is one
    of the three levels. *)
Definition roomy (j : nat) s : Prop :=
  length (ptable s) = NPROC /\
  (exists LL, holds (pol s) LL /\ forall lvl L, LL !! lvl = Some L -> (length L < QLEN)%nat) /\
  (forall p, ptable s !! j = Some p -> 0 <= priority p <= MAXPRIORITY /\
     first_slot (fun x => pid x =? pid p) (ptable s) = Some j).

(** The budget of [p] after it ran from tick [a] to tick [b]. *)
Definition charge (a b : Z) (p : proc) : proc :=
  set_budget (i32 (budget p - i32 (i32 b - i32 a))) p.

(** The state in which the entry [k] of level [lvl], the process [j], is dispatched. *)
Record dispatched (i lvl k j : nat) (LL : list (list nat)) (L : list nat) s s1 : Prop :=
  Dispatched {
    d_keq : keq i (upd_slot j (set_state RUNNING) s) s1;
    d_ptable : ptable s1 = alter (set_state RUNNING) j (ptable s);
    d_queues : holds (pol s1) (<[lvl := delete k L]> LL)
  }.

(** The turn of [j]: the entry at [k] of level [lvl] is removed, the process runs
    from [s1] to [s2], and goes with its new budget to the tail of its level. *)
Record turn (R : nat -> kst E mlfq -> kst E mlfq -> Prop) (i lvl k j : nat)
    (LL : list (list nat)) (L : list nat) s s' : Prop := Turn {
  turn_run : exists s1 s2 p2 LL2 L2,
    dispatched i lvl k j LL L s s1 /\
    R j s1 s2 /\ ptable s2 !! j = Some p2 /\ state p2 <> RUNNING /\
    holds (pol s2) LL2 /\
    let p' := after_turn (charge (kticks s1) (kticks s2) p2) in
    LL2 !! lvl_of p' = Some L2 /\
    ptable s' = <[j := p']> (ptable s2) /\
    holds (pol s') (<[lvl_of p' := L2 ++ [j]]> LL2) /\
    promote_at (pol s') = promote_at (pol s2)
}.

Lemma run_entry_spec R i lvl k j b s p LL L :
  resumes F R ->
  (forall s1 s2, dispatched i lvl k j LL L s s1 -> R j s1 s2 -> roomy j s2) ->
  kctx i 1 None b true s -> holds (pol s) LL -> LL !! lvl = Some L -> L !! k = Some j ->
  ptable s !! j = Some p ->
  wpx F (run_entry i (Z.of_nat lvl) (Z.of_nat k) j) (fun _ s' =>
    (exists b', kctx i 1 None b' true s') /\ turn R i lvl k j LL L s s') s.
Proof using All.
  intros HR Hroom Hk H HL Hkj Hp. unfold run_entry.
  destruct (remove_entry_spec s LL lvl L k H HL) as (q & Hrun & Hq & _);
    [by eapply lookup_lt_Some|].
  wbind. eapply wp_ok; [exact Hrun|]. wbind. apply wp_gets. wbind.
  set (s0 := set_pol q s). assert (kctx i 1 None b true s0) as Hk0 by (by destruct Hk).
  assert (keq i s s0) as H0 by (by split).
  eapply (run_slot_spec F R i j _ b s0 p); [done|done|done|].
  intros s1 s2 s3 p2 b' H1 Hpt1 Hpo1 HR2 Hp2 Hst2 Hk3 H3 Hpt3 Hpo3.
  apply wp_ret. split; [done|]. intros v Hk4 H4. wbind. apply wp_gets. wbind.
  assert (ptable (set_mac v s3) !! j = Some p2) as Hp4 by (by simpl; rewrite Hpt3).
  eapply wp_getp; [exact Hp4|]. wbind. apply wp_updp.
  assert (dispatched i lvl k j LL L s s1) as Hd.
  { split; [|done|by rewrite Hpo1]. etrans; [|exact H1].
    by apply (keq_upd_slot i j (set_state RUNNING)). }
  destruct (Hroom _ _ Hd HR2) as (Hl2 & (LL2 & HLL2 & Hlen2) & Hpr2).
  destruct (Hpr2 p2 Hp2) as [Hpr Hpid].
  set (f := set_budget _).
  assert (f p2 = charge (kticks s1) (kticks s2) p2) as Hf.
  { unfold f, charge. simpl. rewrite (ke_kticks _ _ _ H1), (ke_kticks _ _ _ H3). done. }
  set (s5 := upd_slot j f (set_mac v s3)).
  assert (ptable s5 !! j = Some (f p2)) as Hp5 by (by apply upd_slot_eq).
  assert (0 <= priority (after_turn (f p2)) <= MAXPRIORITY) as Hpr'.
  { unfold after_turn, exhausted. change (priority (f p2)) with (priority p2).
    destruct (Z.ltb_spec 0 (priority p2)), (budget (f p2) <=? 0); simpl; lia. }
  assert (exists L2, LL2 !! lvl_of (after_turn (f p2)) = Some L2) as [L2 HL2].
  { apply lookup_lt_is_Some_2. rewrite (h_levels _ _ HLL2).
    unfold lvl_of, MAXPRIORITY in *. lia. }
  destruct (requeue_spec s5 LL2 j (f p2) L2) as (q5 & Hrq & Hq5 & Hpa5).
  - unfold s5. simpl. by rewrite Hpo3.
  - done.
  - unfold s5. rewrite upd_slot_length. simpl. by rewrite Hpt3.
  - unfold s5. rewrite <- Hpid, <- Hpt3. simpl. by apply first_slot_alter.
  - done.
  - done.
  - by eapply Hlen2.
  - eapply wp_ok; [exact Hrq|]. split; [exists b'; destruct Hk4; by split|].
    split. exists s1, s2, p2, LL2, L2. cbv zeta. rewrite <- Hf. split_and!; try done.
    + unfold s5. simpl. rewrite Hpt3. apply list_eq. intros m.
      destruct (decide (j = m)) as [<-|Hne].
      * rewrite !list_lookup_alter_eq, Hp2. simpl. symmetry.
        apply list_lookup_insert_eq. by eapply lookup_lt_Some.
      * by rewrite !list_lookup_alter_ne, list_lookup_insert_ne by done.
    + simpl. rewrite Hpa5. simpl. by rewrite Hpo3.
Qed.

(** *** What a scan finds *)

(** Every entry of the queue [L] is a slot of the table. *)
Definition valid (T : list proc) (L : list nat) : Prop :=
  Forall (fun x => (x < length T)%nat) L.

Definition runnable (T : list proc) (x : nat) : Prop :=
  exists p, T !! x = Some p /\ state p = RUNNABLE.

#[local] Instance runnable_dec T x : Decision (runnable T x).
Proof.
  destruct (T !! x) as [p|] eqn:Hp; [destruct (decide (state p = RUNNABLE))|].
  - left. by exists p.
  - right. intros (p' & Hp' & Hs). congruence.
  - right. intros (p' & Hp' & Hs). congruence.
Defined.

Lemma scan_spec i lvl fuel k check s LL L :
  holds (pol s) LL -> LL !! lvl = Some L -> valid (ptable s) L ->
  (length L < k + fuel)%nat -> (k <= length L)%nat ->
  scan fuel i (Z.of_nat lvl) (Z.of_nat k) check s =
  match list_find (runnable (ptable s)) (drop k L) with
  | None => Ok (check, s)
  | Some (m, j) =>
      (run_entry i (Z.of_nat lvl) (Z.of_nat (k + m)) j ;;
       scan (fuel - S m) i (Z.of_nat lvl) (Z.of_nat (k + m) + 1) true) s
  end.
Proof using Type.
  intros H HL Hv. destruct (holds_level _ _ _ _ H HL) as (_ & _ & Hn & _).
  revert k check. induction fuel as [|fuel IH]; intros k check Hf Hk; [lia|].
  cbn [scan]. mstep (qsize_run _ _ _ Hn).
  destruct (decide (k = length L)) as [->|Hne].
  { rewrite drop_ge by done. simpl. by rewrite (proj2 (Z.ltb_lt _ _)) by lia. }
  destruct (lookup_lt_is_Some_2 L k) as [j Hj]; [lia|].
  rewrite (proj2 (Z.ltb_ge _ _)) by lia.
  mstep (qread_entry s LL lvl L k j H HL Hj).
  destruct (lookup_lt_is_Some_2 (ptable s) j) as [p Hp]; [by eapply Forall_lookup_1 in Hv|].
  mstep (getp_run j p s Hp). rewrite (drop_S _ j k Hj). cbn [list_find].
  case_decide as Hr.
  - destruct Hr as (p' & Hp' & Hs). assert (is_state RUNNABLE p = true) as ->.
    { apply bool_decide_true. congruence. }
    cbn [negb andb]. rewrite Nat.add_0_r. simpl. by rewrite Nat.sub_0_r.
  - assert (is_state RUNNABLE p = false) as ->.
    { apply bool_decide_false. intros Hs. apply Hr. by exists p. }
    cbn [negb andb]. destruct (Z.eqb_spec (Z.of_nat k) (Z.of_nat (length L) - 1)).
    + rewrite drop_ge by lia. done.
    + replace (Z.of_nat k + 1) with (Z.of_nat (S k)) by lia. rewrite IH by lia.
      destruct (list_find _ _) as [[m x]|]; [|done]. simpl.
      by rewrite Nat.add_succ_r.
Qed.

Definition idle (T : list proc) (L : list nat) : Prop := list_find (runnable T) L = None.

Lemma level_idle i lvl fuel s LL L :
  holds (pol s) LL -> LL !! lvl = Some L -> valid (ptable s) L -> idle (ptable s) L ->
  level_loop (S fuel) i (Z.of_nat lvl) s = Ok (tt, s).
Proof using Type.
  intros H HL Hv Hi. destruct (holds_level _ _ _ _ H HL) as (_ & _ & Hn & _).
  pose proof (holds_length _ _ _ _ H HL) as Hlen.
  cbn [level_loop]. mstep (qsize_run _ _ _ Hn).
  destruct (Z.ltb_spec (Z.of_nat (length L) - 1) 0); [done|].
  pose proof (scan_spec i lvl (S QLEN) 0 false s LL L H HL Hv ltac:(lia) ltac:(lia)) as Hs.
  change (Z.of_nat 0) with 0 in Hs. rewrite drop_0 in Hs. unfold idle in Hi. rewrite Hi in Hs.
  rewrite (bind_ok _ _ _ _ _ Hs). done.
Qed.

Lemma level_runs i lvl fuel s LL L k j :
  holds (pol s) LL -> LL !! lvl = Some L -> valid (ptable s) L ->
  list_find (runnable (ptable s)) L = Some (k, j) ->
  level_loop (S fuel) i (Z.of_nat lvl) s =
  (run_entry i (Z.of_nat lvl) (Z.of_nat k) j ;;
   check ← scan (QLEN - k) i (Z.of_nat lvl) (Z.of_nat k + 1) true;
   if (check : bool) then level_loop fuel i (Z.of_nat lvl) else mret tt) s.
Proof using Type.
  intros H HL Hv Hf. destruct (holds_level _ _ _ _ H HL) as (_ & _ & Hn & _).
  pose proof (holds_length _ _ _ _ H HL) as Hlen.
  cbn [level_loop]. mstep (qsize_run _ _ _ Hn).
  destruct (Z.ltb_spec (Z.of_nat (length L) - 1) 0).
  { by destruct L; [|simpl in *; lia]. }
  pose proof (scan_spec i lvl (S QLEN) 0 false s LL L H HL Hv ltac:(lia) ltac:(lia)) as Hs.
  change (Z.of_nat 0) with 0 in Hs. rewrite drop_0, Hf, Nat.add_0_l in Hs.
  unfold mbind at 1, M_bind at 1. rewrite Hs. unfold mbind, M_bind.
  by destruct (run_entry _ _ _ _ s) as [[[] s1]| | |].
Qed.

(** What follows the first turn of a round, at the entry [k] of level [lvl]. *)
Definition rest_of_round (fuel i lvl k : nat) : M (kst E mlfq) unit :=
  check ← scan (QLEN - k) i (Z.of_nat lvl) (Z.of_nat k + 1) true;
  (if (check : bool) then level_loop fuel i (Z.of_nat lvl) else mret tt) ;;
  for_each (map Z.of_nat (rev (seq 0 lvl))) (level_loop (S fuel) i).

Lemma levels_pick i fuel s LL lvl L k j :
  holds (pol s) LL -> Forall (valid (ptable s)) LL -> LL !! lvl = Some L ->
  list_find (runnable (ptable s)) L = Some (k, j) ->
  (forall lvl' L', (lvl < lvl')%nat -> LL !! lvl' = Some L' -> idle (ptable s) L') ->
  forall n, (lvl < n <= 3)%nat ->
  for_each (map Z.of_nat (rev (seq 0 n))) (level_loop (S fuel) i) s =
  (run_entry i (Z.of_nat lvl) (Z.of_nat k) j ;; rest_of_round fuel i lvl k) s.
Proof using Type.
  intros H Hv HL Hf Hi n. induction n as [|n IH]; intros Hn; [lia|].
  rewrite seq_S, rev_app_distr. cbn [rev app map for_each Nat.add].
  destruct (decide (n = lvl)) as [->|Hne].
  - rewrite (bind_run _ _ _ _ (level_runs i lvl fuel s LL L k j H HL
      ltac:(by eapply Forall_lookup_1) Hf)), bind_bind. apply bind_ext. intros [] s1.
    unfold rest_of_round. rewrite bind_bind. apply bind_ext. by intros [] s2.
  - destruct (lookup_lt_is_Some_2 LL n) as [L' HL']; [rewrite (h_levels _ _ H); lia|].
    rewrite (bind_ok _ _ _ _ _ (level_idle i n fuel s LL L' H HL'
      ltac:(by eapply Forall_lookup_1) (Hi n L' ltac:(lia) HL'))).
    apply IH. lia.
Qed.

(** C36. A pass over the levels runs first the first runnable entry of the highest
    level that has one: nothing runs before it, and no queue or process changes
    before it.  That process leaves the queue, runs, is charged the ticks it ran,
    and goes to the tail of the queue of its level; with no budget left, that is
    the level below, with a new budget.  [rest_of_round] follows. *)
Theorem mlfq_picks_highest R i fuel b s LL lvl L k j :
  resumes F R ->
  (forall s1 s2, dispatched i lvl k j LL L s s1 -> R j s1 s2 -> roomy j s2) ->
  kctx i 1 None b true s -> holds (pol s) LL -> Forall (valid (ptable s)) LL ->
  LL !! lvl = Some L -> list_find (runnable (ptable s)) L = Some (k, j) ->
  (forall lvl' L', (lvl < lvl')%nat -> LL !! lvl' = Some L' -> idle (ptable s) L') ->
  let pass := for_each [2; 1; 0] (level_loop (S fuel) i) in
  (exists b' s1, kctx i 1 None b' true s1 /\ turn R i lvl k j LL L s s1 /\
     pass s = rest_of_round fuel i lvl k s1) \/
  wpx F pass (fun _ _ => False) s.
Proof using All.
  intros HR Hroom Hk H Hv HL Hf Hi.
  destruct (holds_level _ _ _ _ H HL) as (r & _ & _ & _ & _ & Hl).
  destruct (proj1 (list_find_Some _ _ _ _) Hf) as (Hkj & (p & Hp & _) & _). cbv zeta.
  pose proof (levels_pick i fuel s LL lvl L k j H Hv HL Hf Hi 3 ltac:(lia)) as Hpass.
  change (map Z.of_nat (rev (seq 0 3))) with [2; 1; 0] in Hpass.
  pose proof (run_entry_spec R i lvl k j b s p LL L HR Hroom Hk H HL Hkj Hp) as Hrun.
  unfold wpx in *. rewrite Hpass. unfold mbind, M_bind.
  destruct (run_entry _ _ _ _ s) as [[[] s1]| | |]; [left|by right..].
  destruct Hrun as [[b' Hk1] H1]. by exists b', s1.
Qed.

(** The lowest level holds [L], the process [j] belongs to it, and every row has
    room. *)
Record lowest (j : nat) (L : list nat) s : Prop := Lowest {
  lo_len : length (ptable s) = NPROC;
  lo_queues : exists LL, holds (pol s) LL /\ LL !! 0%nat = Some L /\
    forall lvl L', LL !! lvl = Some L' -> (length L' < QLEN)%nat;
  lo_proc : exists p, ptable s !! j = Some p /\ priority p = 0 /\
    first_slot (fun x => pid x =? pid p) (ptable s) = Some j
}.

(** A process [j] that, left alone on the lowest level, comes back to it
    runnable. *)
Definition hog (R : nat -> kst E mlfq -> kst E mlfq -> Prop) (j : nat) : Prop :=
  forall s1 s2, lowest j [] s1 -> R j s1 s2 ->
    lowest j [] s2 /\ exists p, ptable s2 !! j = Some p /\ state p = RUNNABLE.

Lemma lowest_roomy j L s : lowest j L s -> roomy j s.
Proof using Type.
  intros [Hl (LL & H & _ & Hroom) (p & Hp & Hpr & Hf)]. split; [done|]. split; [by exists LL|].
  intros p' Hp'. assert (p' = p) as -> by congruence.
  split; [unfold MAXPRIORITY; lia|done].
Qed.

Lemma lowest_dispatched i j s s1 LL :
  lowest j [j] s -> holds (pol s) LL -> LL !! 0%nat = Some [j] ->
  (forall lvl L', LL !! lvl = Some L' -> (length L' < QLEN)%nat) ->
  dispatched i 0 0 j LL [j] s s1 -> lowest j [] s1.
Proof using Type.
  intros [Hl _ (p & Hp & Hpr & Hf)] H HL Hroom [_ Hpt Hq]. split.
  - by rewrite Hpt, length_alter.
  - eexists. split; [exact Hq|]. split.
    + apply list_lookup_insert_eq. by eapply lookup_lt_Some.
    + intros lvl L' HL'. apply list_lookup_insert_Some in HL' as [(_ & <- & _)|[_ HL']].
      * pose proof QLEN_large. simpl. lia.
      * by eapply Hroom.
  - exists (set_state RUNNING p). split_and!; [by rewrite Hpt, list_lookup_alter_eq, Hp|done|].
    rewrite Hpt. rewrite <- Hf. by apply first_slot_alter.
Qed.

Lemma hog_turn R i b s j :
  resumes F R -> hog R j -> kctx i 1 None b true s -> lowest j [j] s ->
  wpx F (run_entry i 0 0 j) (fun _ s' => exists b' p', kctx i 1 None b' true s' /\
    lowest j [j] s' /\ ptable s' !! j = Some p' /\ state p' = RUNNABLE) s.
Proof using All.
  intros HR Hhog Hk Hlo. change 0 with (Z.of_nat 0).
  pose proof Hlo as [Hl (LL & H & HL & Hroom) (p & Hp & Hpr & Hf)].
  assert (forall s1 s2, dispatched i 0 0 j LL [j] s s1 -> R j s1 s2 ->
    lowest j [] s2 /\ exists p, ptable s2 !! j = Some p /\ state p = RUNNABLE) as Hback.
  { intros s1 s2 Hd HR2. apply (Hhog s1 s2); [|done]. by eapply lowest_dispatched. }
  eapply wp_mono; [|apply (run_entry_spec R i 0 0 j b s p LL [j]); try done].
  2:{ intros s1 s2 Hd HR2. eapply lowest_roomy, (Hback s1 s2); done. }
  intros [] s' [[b' Hk'] [(s1 & s2 & p2 & LL2 & L2 & Hd & HR2 & Hp2 & _ & H2 & Hx)]].
  cbv zeta in Hx. destruct Hx as (HL2 & Hpt & H' & _).
  destruct (Hback _ _ Hd HR2) as [[Hl2 (LL2' & H2' & HL2' & Hroom2) (q & Hq & Hqpr & Hqf)]
    (q' & Hq' & Hs')].
  assert (q' = p2 /\ q = p2) as [-> ->] by (split; congruence).
  set (p' := charge _ _ p2) in *. assert (after_turn p' = p') as Ha.
  { unfold after_turn, exhausted. change (priority p') with (priority p2).
    by rewrite Hqpr, andb_false_r. }
  assert (lvl_of p' = 0%nat) as Hl0.
  { unfold lvl_of. change (priority p') with (priority p2). by rewrite Hqpr. }
  rewrite Ha, Hl0 in *. exists b', p'.
  assert (ptable s' !! j = Some p') as Hp'.
  { rewrite Hpt. apply list_lookup_insert_eq. by eapply lookup_lt_Some. }
  split_and!; [done| |done|done].
  pose proof (holds_unique _ _ _ H2 H2') as ->. rewrite HL2 in HL2'. injection HL2' as ->.
  split.
  - by rewrite Hpt, length_insert.
  - eexists. split; [exact H'|]. split.
    + apply list_lookup_insert_eq. by eapply lookup_lt_Some.
    + intros lvl L' HL'. apply list_lookup_insert_Some in HL' as [(_ & <- & _)|[_ HL']].
      * pose proof QLEN_large. simpl. lia.
      * by eapply Hroom2.
  - exists p'. split_and!; [done|done|]. rewrite Hpt.
    assert (<[j := p']> (ptable s2) = alter (charge (kticks s1) (kticks s2)) j (ptable s2)) as ->.
    { apply list_eq. intros m. destruct (decide (j = m)) as [<-|Hne].
      - rewrite list_lookup_alter_eq, Hp2. simpl. apply list_lookup_insert_eq.
        by eapply lookup_lt_Some.
      - by rewrite list_lookup_alter_ne, list_lookup_insert_ne. }
    rewrite <- Hqf. by apply first_slot_alter.
Qed.

(** The loop of the lowest level does not end while such a process is in its
    queue, so the levels above are not looked at again and no promotion comes. *)
Theorem lowest_level_is_never_left R i fuel b s j p :
  (forall f, F f -> f = FDiverge) -> resumes F R -> hog R j ->
  kctx i 1 None b true s -> lowest j [j] s ->
  ptable s !! j = Some p -> state p = RUNNABLE ->
  level_loop fuel i 0 s = Diverge.
Proof using All.
  intros HF HR Hhog. revert b s p.
  induction fuel as [|fuel IH]; intros b s p Hk Hlo Hp Hs; [done|].
  pose proof Hlo as [_ (LL & H & HL & _) _].
  assert (forall s p, ptable s !! j = Some p -> valid (ptable s) [j]) as Hv.
  { intros s1 p1 Hp1. constructor; [|done]. by eapply lookup_lt_Some. }
  assert (list_find (runnable (ptable s)) [j] = Some (0%nat, j)) as Hf.
  { simpl. rewrite decide_True; [done|]. by exists p. }
  change 0 with (Z.of_nat 0).
  rewrite (level_runs i 0 fuel s LL [j] 0 j H HL ltac:(by eapply Hv) Hf).
  pose proof (hog_turn R i b s j HR Hhog Hk Hlo) as Hw. unfold wpx in Hw.
  unfold mbind, M_bind. change (Z.of_nat 0) with 0.
  destruct (run_entry i 0 0 j s) as [[[] s']|msg|w|]; [|by apply HF in Hw..|done].
  destruct Hw as (b' & p' & Hk' & Hlo' & Hp' & Hs').
  pose proof Hlo' as [_ (LL' & H' & HL' & _) _].
  pose proof (scan_spec i 0 QLEN 1 true s' LL' [j] H' HL' ltac:(by eapply Hv)
    ltac:(pose proof QLEN_large; cbn [length]; lia) ltac:(cbn [length]; lia)) as Hsc.
  cbn [drop list_find] in Hsc.
  rewrite Nat.sub_0_r. change (scan QLEN i 0 (0 + 1) true s' = Ok (true, s')) in Hsc.
  rewrite Hsc. by eapply IH.
Qed.

Lemma levels_idle i fuel s LL :
  holds (pol s) LL -> Forall (valid (ptable s)) LL -> Forall (idle (ptable s)) LL ->
  for_each [2; 1; 0] (level_loop (S fuel) i) s = Ok (tt, s).
Proof using Type.
  intros H Hv Hi. cbn [for_each].
  assert (forall n, (n < 3)%nat -> level_loop (S fuel) i (Z.of_nat n) s = Ok (tt, s)) as Hl.
  { intros n Hn. destruct (lookup_lt_is_Some_2 LL n) as [L HL];
      [rewrite (h_levels _ _ H); lia|].
    apply (level_idle i n fuel s LL L); [done|done|by eapply Forall_lookup_1..]. }
  mstep (Hl 2%nat). mstep (Hl 1%nat). by mstep (Hl 0%nat).
Qed.

(** Until the first promotion, [TICKS_TO_PROMOTE] ticks after [userinit], a
    scheduler whose queues are empty runs nothing, whatever processes are
    runnable: [userinit] puts the first process in no queue. *)
Theorem empty_queues_run_nothing fuel i b s :
  kctx i 0 None b false s -> holds (pol s) [[]; []; []] -> kticks s < promote_at (pol s) ->
  wpx F (scheduler_round (S fuel) i) (fun _ s' =>
    kctx i 0 None true false s' /\ ptable s' = ptable s /\ pol s' = pol s) s.
Proof using Type.
  intros Hk H Ht. unfold scheduler_round. wbind. eapply wp_sti; [done|]. intros v Hk1 H1.
  wbind. eapply wp_holding; [done|lia|]. intros v2 Hk2 H2. cbn [when].
  wbind. apply wp_ret. wbind. eapply wp_acquire; [done|lia|]. intros v3 L3 s3 Hk3 H3.
  wbind. unfold promote. wbind. apply wp_get.
  assert ((promote_at (pol s3) <=? kticks s3) = false) as -> by (by apply Z.leb_gt).
  apply wp_ret. wbind.
  eapply wp_ok; [apply (levels_idle i fuel s3 [[]; []; []]); [done|by repeat constructor..]|].
  eapply (wp_release F i 0); [done|lia|]. intros v4 L4 s4 Hk4 H4. done.
Qed.
End Turn.

(** ** The queues of the whole kernel *)

(** A turn removes one entry and adds one, and a process that sleeps or exits
    keeps its entry, so the entries grow with every [fork].  When the top row is
    full, the child that [fork] makes runnable is stored past its end. *)
Theorem ready_overflows {E} (s : kst E mlfq) LL L j :
  holds (pol s) LL -> LL !! 2%nat = Some L -> length L = QLEN ->
  mlfq_ready j s = Fault "mlfq_queue".
Proof.
  intros H HL Hlen. unfold mlfq_ready, updp. mrun.
  by apply (enqueue_full _ LL 2 L j).
Qed.

(** With room left, the child goes to the tail of the top queue, with the top
    priority and a full budget. *)
Theorem ready_enqueues {E} (s : kst E mlfq) LL L j :
  holds (pol s) LL -> LL !! 2%nat = Some L -> (length L < QLEN)%nat ->
  exists q, mlfq_ready j s = Ok (tt, set_pol q (upd_slot j
      (set_budget DEFAULT_BUDGET ∘ set_original_priority MAXPRIORITY ∘
       set_priority MAXPRIORITY) s)) /\
    holds q (<[2%nat := L ++ [j]]> LL).
Proof.
  intros H HL Hlen. unfold mlfq_ready, updp. mrun.
  match goal with |- context [enqueue _ _ ?s1] => set (s' := s1) end.
  destruct (enqueue_spec s' LL 2 L j H HL Hlen) as (q & Hq & Hh & _).
  change MAXPRIORITY with (Z.of_nat 2). exists q. rewrite Hq. split; [|done].
  do 3 f_equal. unfold s'. rewrite <- !upd_slot_upd. done.
Qed.

(** The search of [wakeup1] stops before the last entry: a process that is
    already at the tail of its queue is enqueued again. *)
Theorem wakeup_duplicates_the_tail {E} (s : kst E mlfq) LL L j p :
  holds (pol s) LL -> ptable s !! j = Some p -> 0 <= priority p ->
  LL !! lvl_of p = Some (L ++ [j]) -> j ∉ L -> (length L + 1 < QLEN)%nat ->
  exists q, mlfq_wake j s = Ok (tt, set_pol q s) /\
    holds q (<[lvl_of p := L ++ [j; j]]> LL).
Proof.
  intros H Hj Hpr HL Hin Hlen. unfold mlfq_wake. mstep (getp_run j p s Hj).
  destruct (holds_level _ _ _ _ H HL) as (r & _ & Hn & _). rewrite length_app in Hn.
  replace (priority p) with (Z.of_nat (lvl_of p)) by (unfold lvl_of; lia).
  mstep (qsize_run _ _ _ Hn). cbn [length].
  replace (Z.to_nat _) with (length L) by lia.
  mstep (find_entry_spec s LL _ _ j (length L) 0 H HL ltac:(rewrite length_app; lia)).
  rewrite drop_0, take_app_length.
  assert (list_find (fun x => x = j) L = None) as ->.
  { apply list_find_None, Forall_forall. intros x Hx ->. done. }
  cbn [fmap option_fmap option_map].
  destruct (enqueue_spec s LL _ _ j H HL ltac:(rewrite length_app; simpl; lia))
    as (q & Hq & Hh & _).
  exists q. rewrite Hq. by rewrite <- app_assoc in Hh.
Qed.

(** *** The laws of a policy

    A call on the queues changes nothing but the policy's state, or stops where
    it would leave the arrays. *)

Definition out_of_bounds (f : failure) : Prop :=
  f = FFault "mlfq_queue" \/ f = FFault "mlfq_queue_size".

Create HintDb pol_only.

Section PolicyLaws.
Context {E : Type} (F : failure -> Prop) (HF : forall f, out_of_bounds f -> F f).
Implicit Types s : kst E mlfq.

Definition pol_only {A} (m : M (kst E mlfq) A) : Prop :=
  forall s, wpx F m (fun _ s' => exists q, s' = set_pol q s) s.

Lemma pol_only_bind {A B} (m : M (kst E mlfq) A) (f : A -> M (kst E mlfq) B) :
  pol_only m -> (forall a, pol_only (f a)) -> pol_only (m ≫= f).
Proof using Type.
  intros Hm Hf s. wbind. eapply wp_mono; [|apply Hm]. intros a s1 [q1 ->].
  eapply wp_mono; [|apply Hf]. intros b s2 [q2 ->]. by exists q2.
Qed.

Lemma pol_only_same {A} (m : M (kst E mlfq) A) :
  (forall s a s', m s = Ok (a, s') -> s' = s) -> (forall s, wpx F m (fun _ _ => True) s) ->
  pol_only m.
Proof using Type.
  intros Hm Hs s. specialize (Hm s). specialize (Hs s). unfold wpx in *.
  destruct (m s) as [[a s']| | |]; try done. rewrite (Hm _ _ eq_refl).
  exists (pol s). by destruct s.
Qed.

Lemma pol_only_ret {A} (a : A) : pol_only (mret a).
Proof using Type. intros s. exists (pol s). by destruct s. Qed.

Lemma pol_only_gets {A} (f : kst E mlfq -> A) : pol_only (gets f).
Proof using Type. intros s. exists (pol s). by destruct s. Qed.

Lemma pol_only_set (f : kst E mlfq -> mlfq) : pol_only (modify (fun s => set_pol (f s) s)).
Proof using Type. intros s. by exists (f s). Qed.

Lemma pol_only_lift {A} w (o : option A) : out_of_bounds (FFault w) -> pol_only (lift_opt w o).
Proof using HF.
  intros Hw. destruct o as [a|]; [apply pol_only_ret|]. intros s. by apply HF.
Qed.

#[local] Hint Resolve pol_only_bind pol_only_ret pol_only_gets pol_only_set : pol_only.
#[local] Hint Extern 1 (pol_only (lift_opt "mlfq_queue" _)) =>
  apply pol_only_lift; by left : pol_only.
#[local] Hint Extern 1 (pol_only (lift_opt "mlfq_queue_size" _)) =>
  apply pol_only_lift; by right : pol_only.

Lemma pol_only_enqueue lvl j : pol_only (enqueue lvl j).
Proof using HF.
  unfold enqueue, qsize, set_qsize, qwrite.
  repeat (apply pol_only_bind; [|intros ?]); auto with pol_only;
    try apply (pol_only_set (fun _ => _)).
Qed.

Lemma pol_only_find lvl j k n : pol_only (find_entry lvl j k n).
Proof using HF.
  revert k. induction n as [|n IH]; intros k; cbn [find_entry]; [apply pol_only_ret|].
  unfold qread. repeat (apply pol_only_bind; [|intros ?]); auto with pol_only.
  case_bool_decide; auto with pol_only.
Qed.

Lemma neutral_pol_only {A} (m : M (kst E mlfq) A) : pol_only m -> neutral F m.
Proof using Type.
  intros Hm i n o b hd s Hk Hn. eapply wp_mono; [|apply Hm].
  intros a s' [q ->]. split; [by destruct Hk|by split].
Qed.

Lemma neutral_then {A B} (m : M (kst E mlfq) A) (f : A -> M (kst E mlfq) B) :
  neutral F m -> (forall a, neutral F (f a)) -> neutral F (m ≫= f).
Proof using Type.
  intros Hm Hf i n o b hd s Hk Hn. wbind. eapply wp_mono; [|by apply Hm].
  intros a s1 [Hk1 H1]. eapply wp_mono; [|by apply Hf]. intros c s2 [Hk2 H2].
  split; [done|by etrans].
Qed.

#[export] Instance mlfq_policy_ok : PolicyOk F E mlfq (H := mlfq_policy).
Proof using HF.
  split; intros; try (intros i' n o b hd s Hk Hn; by split);
    try (intros i' n o b hd s Hk Hn _; by split).
  - intros i' n o b hd s Hk Hn. split; [by destruct Hk|by split].
  - intros i' n o b hd s Hk Hn _. revert i' n o b hd s Hk Hn.
    repeat (apply neutral_then; [by apply neutral_updp|intros []]).
    apply neutral_pol_only, pol_only_enqueue.
  - intros i' n o b hd s Hk Hn [p Hp]%lookup_lt_is_Some_2. simpl. unfold mlfq_wake.
    wbind. eapply wp_getp; [exact Hp|].
    apply neutral_pol_only; [|done|done].
    unfold qsize. repeat (apply pol_only_bind; [|intros ?]);
      auto using pol_only_find, pol_only_enqueue with pol_only.
    destruct a0; auto using pol_only_enqueue with pol_only.
Qed.
End PolicyLaws.

(** ** Instances

    Process 0 sleeps on the top level, process 1 is runnable on the middle level,
    and process 2 on the lowest one. *)

Definition set_levels (a b c : list nat) (t : Z) : mlfq :=
  let row l := map Some l ++ replicate (QLEN - length l) None in
  let size (l : list nat) := Z.of_nat (length l) - 1 in
  Mlfq [row a; row b; row c] [size a; size b; size c] t.

Lemma set_levels_holds a b c t :
  (length a <= QLEN)%nat -> (length b <= QLEN)%nat -> (length c <= QLEN)%nat ->
  holds (set_levels a b c t) [a; b; c].
Proof.
  intros Ha Hb Hc. split; [done..|].
  assert (forall l, (length l <= QLEN)%nat ->
    row_holds (map Some l ++ replicate (QLEN - length l) None) (Z.of_nat (length l) - 1) l) as Hl.
  { intros l Hl. split_and!; [rewrite length_app, length_map, length_replicate; lia|done|].
    rewrite take_app_le by (rewrite length_map; lia).
    apply take_ge. by rewrite length_map. }
  intros lvl r n L. destruct lvl as [|[|[|lvl]]]; [..|done];
    intros [= <-] [= <-] [= <-]; by apply Hl.
Qed.

Definition tasks : list proc :=
  table [set_priority 2 (mkproc SLEEPING 1 None (PProc 0));
         set_budget 5 (set_priority 1 (mkproc RUNNABLE 2 (Some 0%nat) Null));
         set_budget 5 (set_priority 0 (mkproc RUNNABLE 3 (Some 0%nat) Null))].

Definition mlfq_state : kst pages mlfq :=
  kstate_locked None tasks 4 (set_levels [2%nat] [1%nat] [0%nat] 20).

Lemma mlfq_state_holds : holds (pol mlfq_state) [[2%nat]; [1%nat]; [0%nat]].
Proof. pose proof QLEN_large. apply set_levels_holds; simpl; lia. Qed.

(** A process that yields at once. *)
Definition yields (j : nat) (s s' : kst pages mlfq) : Prop :=
  s' = upd_slot j (set_state RUNNABLE) s.

Lemma yields_resumes : resumes never yields.
Proof. apply page_env_resumes. Qed.

(** With distinct pids and room in the queues, a process that yields leaves both. *)
Lemma yields_roomy i lvl k j LL L s s1 s2 :
  holds (pol s) LL -> (forall lvl L, LL !! lvl = Some L -> (length L < QLEN)%nat) ->
  LL !! lvl = Some L -> (k < length L)%nat ->
  length (ptable s) = NPROC ->
  (forall p, ptable s !! j = Some p -> 0 <= priority p <= MAXPRIORITY /\
     first_slot (fun x => pid x =? pid p) (ptable s) = Some j) ->
  dispatched i lvl k j LL L s s1 -> yields j s1 s2 -> roomy j s2.
Proof.
  intros H Hroom HL Hk Hl Hp [_ Hpt Hq] ->. split; [|split].
  - by rewrite upd_slot_length, Hpt, length_alter.
  - eexists. split; [exact Hq|]. intros lvl' L' HL'.
    apply list_lookup_insert_Some in HL' as [(_ & <- & _)|[_ HL']]; [|by eapply Hroom].
    specialize (Hroom _ _ HL). rewrite length_delete by (by apply lookup_lt_is_Some_2). lia.
  - intros q. simpl. rewrite Hpt. rewrite !list_lookup_alter_eq.
    destruct (ptable s !! j) as [p|] eqn:Hj; [|done]. intros [= <-].
    destruct (Hp p eq_refl) as [Hpr Hf]. split; [done|]. by rewrite !first_slot_alter.
Qed.

Lemma mlfq_picks_highest_witness :
  let pass := for_each [2; 1; 0] (level_loop 1 0) in
  (exists b' s1, kctx 0 1 None b' true s1 /\
     turn yields 0 1 0 1 [[2%nat]; [1%nat]; [0%nat]] [1%nat] mlfq_state s1 /\
     pass mlfq_state = rest_of_round 0 0 1 0 s1) \/
  wp pass (fun _ _ => False) mlfq_state.
Proof.
  apply (mlfq_picks_highest never yields 0 0 true mlfq_state [[2%nat]; [1%nat]; [0%nat]] 1
    [1%nat] 0 1).
  - apply yields_resumes.
  - intros s1 s2. apply yields_roomy; [apply mlfq_state_holds| |done|simpl; lia|done|].
    + pose proof QLEN_large. intros [|[|[|lvl]]] L; [..|done]; intros [= <-]; simpl; lia.
    + intros p [= <-]. split; [unfold MAXPRIORITY; simpl; lia|done].
  - apply kstate_locked_kctx.
  - apply mlfq_state_holds.
  - by repeat constructor; apply Nat.ltb_lt.
  - done.
  - reflexivity.
  - intros [|[|[|lvl]]] L Hlt HL; try lia; [|done]. injection HL as <-. reflexivity.
Defined.

Lemma empty_queues_run_nothing_witness :
  let s := kstate None tasks 4 (set_levels [] [] [] 20) in
  wp (scheduler_round 1 0) (fun _ s' =>
    kctx 0 0 None true false s' /\ ptable s' = ptable s /\ pol s' = pol s) s.
Proof.
  apply (empty_queues_run_nothing never 0 0 true (kstate None tasks 4 (set_levels [] [] [] 20)));
    [apply kstate_kctx|apply set_levels_holds; simpl; lia|done].
Defined.

Lemma lowest_level_is_never_left_witness :
  level_loop 100 0 0 (kstate_locked None tasks 4 (set_levels [2%nat] [] [] 20)) = Diverge.
Proof.
  apply (lowest_level_is_never_left never yields 0 100 true
    (kstate_locked None tasks 4 (set_levels [2%nat] [] [] 20)) 2
    (set_budget 5 (set_priority 0 (mkproc RUNNABLE 3 (Some 0%nat) Null)))).
  - done.
  - apply yields_resumes.
  - intros s1 s2 [Hl Hq (p & Hp & Hpr & Hf)] ->. split.
    + split; [by rewrite upd_slot_length|done|]. exists (set_state RUNNABLE p).
      split_and!; [by apply upd_slot_eq|done|]. rewrite <- Hf. by apply first_slot_alter.
    + eexists. split; [by apply upd_slot_eq|done].
  - apply kstate_locked_kctx.
  - split; [done| |by eexists].
    exists [[2%nat]; []; []]. pose proof QLEN_large.
    split; [apply set_levels_holds; simpl; lia|]. split; [done|].
    intros [|[|[|lvl]]] L; [..|done]; intros [= <-]; simpl; lia.
  - done.
  - done.
Defined.

Lemma ready_overflows_witness :
  mlfq_ready 5 (kstate None tasks 4 (set_levels [] [] (replicate QLEN 2%nat) 20))
  = Fault "mlfq_queue".
Proof.
  apply (ready_overflows _ [[]; []; replicate QLEN 2%nat] (replicate QLEN 2%nat));
    [apply set_levels_holds; rewrite ?length_replicate; simpl; lia|done|apply length_replicate].
Defined.

Lemma ready_enqueues_witness :
  let s := kstate None tasks 4 (set_levels [] [] [1%nat] 20) in
  exists q, mlfq_ready 5 s = Ok (tt, set_pol q (upd_slot 5
      (set_budget DEFAULT_BUDGET ∘ set_original_priority MAXPRIORITY ∘
       set_priority MAXPRIORITY) s)) /\
    holds q [[]; []; [1%nat; 5%nat]].
Proof.
  pose proof QLEN_large.
  apply (ready_enqueues (kstate None tasks 4 (set_levels [] [] [1%nat] 20)) [[]; []; [1%nat]]
    [1%nat] 5); [apply set_levels_holds; simpl; lia|done|simpl; lia].
Defined.

Lemma wakeup_duplicates_the_tail_witness :
  let s := kstate None tasks 4 (set_levels [] [] [1%nat; 0%nat] 20) in
  exists q, mlfq_wake 0 s = Ok (tt, set_pol q s) /\
    holds q [[]; []; [1%nat; 0%nat; 0%nat]].
Proof.
  pose proof QLEN_large.
  apply (wakeup_duplicates_the_tail (kstate None tasks 4 (set_levels [] [] [1%nat; 0%nat] 20))
    [[]; []; [1%nat; 0%nat]] [1%nat] 0 (set_priority 2 (mkproc SLEEPING 1 None (PProc 0))));
    [apply set_levels_holds; simpl; lia|done|done|done|set_solver|simpl; lia].
Defined.
