(* ===== verification/MlfqV01.v ===== *)
(** * The first version of the multi-level feedback queue

    [lab-2/proc_mlfq_v01.c]: queues of [NPROC] entries with a count, filled by
    [allocproc], emptied by [exit] and by the scheduler. *)

From S2P Require Import Prelude CString Spinlock ProcData Proc ProcSpec Env Mlfq.

(** The arrays of [Mlfq], with [NPROC] entries a row and counts from 0. *)
Definition mlfq_init_v01 : mlfq := Mlfq (replicate 3 (replicate NPROC None)) [0; 0; 0] 0.

(** The address of [tickslock]. *)
Definition tickslock : nat := 1.

Section Scheduler.
Context {E : Type} `{KE : KernelEnv E mlfq}.
Abbreviation K := (M (kst E mlfq)).

Definition enqueue_v01 (lvl : Z) (p : nat) : K unit :=
  n ← qsize lvl;
  qwrite lvl n (Some p) ;;
  n ← qsize lvl;
  set_qsize lvl (n + 1).

Definition remove_entry_v01 (lvl k : Z) : K unit :=
  n ← qsize lvl;
  shift_down lvl k (Z.to_nat (n - 1 - k)) ;;
  n ← qsize lvl;
  set_qsize lvl (n - 1).

(** Removes the process [j] from the queue of its level, if it is there. *)
Definition remove_proc_v01 (j : nat) : K unit :=
  p ← getp j;
  n ← qsize (priority p);
  f ← find_entry (priority p) j 0 (Z.to_nat n);
  match f with
  | Some k => remove_entry_v01 (priority p) k
  | None => mret tt
  end.

Definition alloc_v01 (j : nat) : K unit :=
  updp j (set_priority MAXPRIORITY) ;;
  updp j (set_original_priority MAXPRIORITY) ;;
  updp j (set_budget DEFAULT_BUDGET) ;;
  p ← getp j;
  enqueue_v01 (priority p) j.

Definition wake_v01 (j : nat) : K unit :=
  p ← getp j; enqueue_v01 (original_priority p) j.

Definition mlfq_policy_v01 : SchedPolicy E mlfq := {|
  alloc_hook := alloc_v01;
  init_hook := mlfq_start;
  copy_hook := fun _ _ => mret tt;
  ready_hook := fun _ => mret tt;
  exit_hook := remove_proc_v01;
  wake_hook := wake_v01;
  tickets_valid := fun n => (0 <=? n) && (n <=? MAXTICKET)
|}.

Definition uptime : K Z :=
  acquire_lk tickslock ;;
  xticks ← gets kticks;
  release_lk tickslock ;;
  mret xticks.

Definition promote_slot_v01 (j : nat) : K unit :=
  p ← getp j;
  when (negb (is_state ZOMBIE p) && (priority p <? MAXPRIORITY))
    (remove_proc_v01 j ;;
     p ← getp j;
     updp j (set_original_priority (priority p)) ;;
     updp j (set_priority (priority p + 1)) ;;
     updp j (set_budget DEFAULT_BUDGET) ;;
     p ← getp j;
     enqueue_v01 (priority p) j).

Definition promote_v01 : K unit :=
  s ← get;
  when (promote_at (pol s) <=? kticks s)
    (for_each slots promote_slot_v01 ;; mlfq_start).

(** What follows a turn: the process [j], taken from its queue before it ran,
    is searched in the queue of its level again. *)
Definition requeue_v01 (j : nat) : K unit :=
  p ← getp j;
  if budget p <=? 0 then
    remove_proc_v01 j ;;
    p ← getp j;
    when (0 <? priority p)
      (updp j (set_priority (priority p - 1)) ;;
       updp j (set_budget DEFAULT_BUDGET) ;;
       updp j (set_original_priority (priority p - 1))) ;;
    p ← getp j;
    enqueue_v01 (priority p) j ;;
    updp j (set_state RUNNABLE)
  else
    n ← qsize (priority p);
    f ← find_entry (priority p) j 0 (Z.to_nat n);
    match f with
    | Some k =>
        shift_down (priority p) k (Z.to_nat (n - 1 - k)) ;;
        n ← qsize (priority p);
        qwrite (priority p) n (Some j) ;;
        cprintf "Process %d is at the end of the queue\n" [AInt (pid p)]
    | None => mret tt
    end ;;
    updp j (set_state RUNNABLE).

Definition run_v01 (i j : nat) : K unit :=
  p ← getp j;
  cprintf "RUNNALE process %d is running with priority %d\n"
    [AInt (pid p); AInt (priority p)] ;;
  start_time ← uptime;
  run_slot i j (mret tt) ;;
  end_time ← uptime;
  p ← getp j;
  updp j (set_budget (i32 (budget p - i32 (i32 end_time - i32 start_time)))) ;;
  p ← getp j;
  cprintf "Process %d has budget %d\n\n" [AInt (pid p); AInt (budget p)] ;;
  requeue_v01 j.

Fixpoint level_loop_v01 (fuel i : nat) (lvl : Z) : K unit :=
  match fuel with
  | O => diverge
  | S fuel' =>
      n ← qsize lvl;
      if n <=? 0 then mret tt
      else
        e ← qread lvl 0;
        remove_entry_v01 lvl 0 ;;
        j ← lift_opt "mlfq_queue entry" e;
        p ← getp j;
        when (is_state RUNNABLE p) (run_v01 i j) ;;
        level_loop_v01 fuel' i lvl
  end.

Definition scheduler_round_v01 (fuel i : nat) : K unit :=
  on_mac sti ;;
  acquire_lk ptable_lock ;;
  promote_v01 ;;
  for_each [2; 1; 0] (level_loop_v01 fuel i) ;;
  release_lk ptable_lock.

Lemma find_entry_none lvl (s : kst E mlfq) r j n k :
  mlfq_queue (pol s) !! lvl = Some r -> (k + n <= length r)%nat ->
  (forall m, (k <= m < k + n)%nat -> r !! m <> Some (Some j)) ->
  find_entry (Z.of_nat lvl) j (Z.of_nat k) n s = Ok (None, s).
Proof using Type.
  intros Hr. revert k. induction n as [|n IH]; intros k Hk Hno; [done|]. cbn [find_entry].
  destruct (lookup_lt_is_Some_2 r k) as [e He]; [lia|].
  assert (qread (Z.of_nat lvl) (Z.of_nat k) s = Ok (e, s)) as Hq.
  { by rewrite (qread_run _ _ _ _ Hr), zlookup_nat, He. }
  rewrite (bind_ok _ _ _ _ _ Hq). rewrite bool_decide_false.
  - replace (Z.of_nat k + 1) with (Z.of_nat (S k)) by lia.
    apply IH; [lia|]. intros m Hm. apply Hno. lia.
  - intros ->. apply (Hno k); [lia|done].
Qed.

(** A process that comes back with budget left, and that has no second entry in
    the queue of its level, is put in no queue, and is made runnable whatever it
    was: one that sleeps or that has exited is runnable again, and one that
    yielded is not found by the scheduler any more. *)
Theorem turn_v01_loses_the_process j p r n (s : kst E mlfq) :
  ptable s !! j = Some p -> 0 < budget p -> 0 <= priority p ->
  mlfq_queue (pol s) !! lvl_of p = Some r ->
  mlfq_queue_size (pol s) !! lvl_of p = Some n -> n <= Z.of_nat (length r) ->
  (forall m, (m < Z.to_nat n)%nat -> r !! m <> Some (Some j)) ->
  requeue_v01 j s = Ok (tt, upd_slot j (set_state RUNNABLE) s).
Proof using Type.
  intros Hj Hb Hpr Hr Hn Hle Hno. unfold requeue_v01. mstep (getp_run j p s Hj).
  rewrite (proj2 (Z.leb_gt _ _)) by lia.
  replace (priority p) with (Z.of_nat (lvl_of p)) by (unfold lvl_of; lia).
  mstep (qsize_run _ _ _ Hn).
  mstep (find_entry_none (lvl_of p) s r j (Z.to_nat n) 0 Hr ltac:(lia)
    ltac:(intros m Hm; apply Hno; lia)).
  done.
Qed.
End Scheduler.

Definition zombie_back : kst pages mlfq :=
  kstate None (table [mkproc SLEEPING 1 None (PProc 0);
    set_priority 2 (set_budget 4 (mkproc ZOMBIE 2 (Some 0%nat) Null))]) 3 mlfq_init_v01.

Lemma turn_v01_loses_the_process_witness :
  requeue_v01 1 zombie_back = Ok (tt, upd_slot 1 (set_state RUNNABLE) zombie_back).
Proof.
  apply (turn_v01_loses_the_process 1
    (set_priority 2 (set_budget 4 (mkproc ZOMBIE 2 (Some 0%nat) Null)))
    (replicate NPROC None) 0 zombie_back); try done.
  simpl. intros m Hm. lia.
Defined.
