(* ===== verification/Bcache.v ===== *)
(** * The buffer cache

    [lab-2/bio.c], the sleep locks of its buffers ([lab-2/sleeplock.c]) and the
    disk of [lab-2/memide.c], as one process [me] sees them: a buffer that another
    process has locked is waited for without end. *)

From S2P Require Import Prelude.

Definition NBUF : nat := 30.
Definition BSIZE : nat := 512.
Definition MAXOPBLOCKS : Z := 10.
Definition LOGSIZE : nat := 30.

Definition B_VALID : Z := 0x2.
Definition B_DIRTY : Z := 0x4.

(** The contents of a disk block. *)
Abbreviation block := (list Z).

(** [struct buf]; [lock] is the process that holds the sleep lock, and a pointer to
    a buffer is its index in [bcache.buf], [NBUF] for [bcache.head]. *)
Record buf := Buf {
  flags : Z;
  dev : Z;
  blockno : nat;
  lock : option Z;
  refcnt : Z;
  prev : nat;
  next : nat;
  data : block
}.

Definition set_flags v b := Buf v (dev b) (blockno b) (lock b) (refcnt b) (prev b) (next b) (data b).
Definition set_dev v b := Buf (flags b) v (blockno b) (lock b) (refcnt b) (prev b) (next b) (data b).
Definition set_blockno v b := Buf (flags b) (dev b) v (lock b) (refcnt b) (prev b) (next b) (data b).
Definition set_lock v b := Buf (flags b) (dev b) (blockno b) v (refcnt b) (prev b) (next b) (data b).
Definition set_refcnt v b := Buf (flags b) (dev b) (blockno b) (lock b) v (prev b) (next b) (data b).
Definition set_prev v b := Buf (flags b) (dev b) (blockno b) (lock b) (refcnt b) v (next b) (data b).
Definition set_next v b := Buf (flags b) (dev b) (blockno b) (lock b) (refcnt b) (prev b) v (data b).
Definition set_data v b := Buf (flags b) (dev b) (blockno b) (lock b) (refcnt b) (prev b) (next b) v.

Definition buf_zero : buf := Buf 0 0 0 None 0 0 0 (replicate BSIZE 0).

(** [struct log] without its spin lock, which is [log_lock] below. *)
Record log := Log {
  log_start : nat;
  log_size : Z;
  log_dev : Z;
  outstanding : Z;
  committing : bool;
  lh_n : Z;
  lh_block : list Z
}.

Definition set_outstanding v g := Log (log_start g) (log_size g) (log_dev g) v (committing g) (lh_n g) (lh_block g).
Definition set_committing v g := Log (log_start g) (log_size g) (log_dev g) (outstanding g) v (lh_n g) (lh_block g).
Definition set_lh_n v g := Log (log_start g) (log_size g) (log_dev g) (outstanding g) (committing g) v (lh_block g).
Definition set_lh_block v g := Log (log_start g) (log_size g) (log_dev g) (outstanding g) (committing g) (lh_n g) v.
Definition set_place st sz d g := Log st sz d (outstanding g) (committing g) (lh_n g) (lh_block g).

(** The storage below the file system: the process that runs, the disk and the
    writes it received, oldest first, the buffers with [bcache.head] after them,
    the log, whether this process holds the two spin locks, and how often it has
    woken the processes that sleep on the log. *)
Record store := Store {
  me : Z;
  memdisk : list block;
  writes : list (nat * block);
  bufs : list buf;
  bcache_lock : bool;
  lg : log;
  log_lock : bool;
  log_wakeups : nat
}.

Definition set_disk v w s := Store (me s) v w (bufs s) (bcache_lock s) (lg s) (log_lock s) (log_wakeups s).
Definition set_bufs v s := Store (me s) (memdisk s) (writes s) v (bcache_lock s) (lg s) (log_lock s) (log_wakeups s).
Definition set_bcache_lock v s := Store (me s) (memdisk s) (writes s) (bufs s) v (lg s) (log_lock s) (log_wakeups s).
Definition set_log v s := Store (me s) (memdisk s) (writes s) (bufs s) (bcache_lock s) v (log_lock s) (log_wakeups s).
Definition set_log_lock v s := Store (me s) (memdisk s) (writes s) (bufs s) (bcache_lock s) (lg s) v (log_wakeups s).

Definition set_log_wakeups v s := Store (me s) (memdisk s) (writes s) (bufs s) (bcache_lock s) (lg s) (log_lock s) v.

Abbreviation St := (M store).

Definition getb (i : nat) : St buf :=
  s ← get; lift_opt "buf" (bufs s !! i).

Definition updb (i : nat) (f : buf -> buf) : St unit :=
  modify (fun s => set_bufs (alter f i (bufs s)) s).

Definition acquire_bcache : St unit :=
  s ← get; if bcache_lock s then panic "acquire" else put (set_bcache_lock true s).

Definition release_bcache : St unit :=
  s ← get; if bcache_lock s then put (set_bcache_lock false s) else panic "release".

(** ** Sleep locks

    [Some p] is [locked = 1] with [pid = p], [None] is [locked = 0] with [pid = 0].  The
    spin lock inside is held only within these functions, and [sleep] waits for the
    holder, another process, to run; so a locked buffer keeps this process waiting. *)

Definition initsleeplock (i : nat) : St unit := updb i (set_lock None).

Definition acquiresleep (i : nat) : St unit :=
  b ← getb i;
  match lock b with
  | Some _ => diverge
  | None => p ← gets me; updb i (set_lock (Some p))
  end.

Definition releasesleep (i : nat) : St unit := updb i (set_lock None).

Definition holdingsleep (i : nat) : St bool :=
  b ← getb i; p ← gets me; mret (bool_decide (lock b = Some p)).

(** ** The disk *)

Definition iderw (i : nat) : St unit :=
  h ← holdingsleep i;
  if negb h then panic "iderw: buf not locked"
  else
    b ← getb i;
    if Z.land (flags b) (Z.lor B_VALID B_DIRTY) =? B_VALID then panic "iderw: nothing to do"
    else if negb (dev b =? 1) then panic "iderw: request not for disk 1"
    else
      s ← get;
      match memdisk s !! blockno b with
      | None => panic "iderw: block out of range"
      | Some p =>
          (if negb (Z.land (flags b) B_DIRTY =? 0) then
             updb i (set_flags (Z.land (flags b) (Z.lnot B_DIRTY))) ;;
             modify (fun s => set_disk (<[blockno b := data b]> (memdisk s))
                                (writes s ++ [(blockno b, data b)]) s)
           else updb i (set_data p)) ;;
          updb i (fun b => set_flags (Z.lor (flags b) B_VALID) b)
      end.

(** ** bio.c *)

(** Inserts the buffer [i] at the head of the list. *)
Definition link_front (i : nat) : St unit :=
  h ← getb NBUF;
  updb i (set_next (next h)) ;;
  updb i (set_prev NBUF) ;;
  h ← getb NBUF;
  updb (next h) (set_prev i) ;;
  updb NBUF (set_next i).

Definition binit : St unit :=
  modify (set_bcache_lock false) ;;
  updb NBUF (set_prev NBUF) ;;
  updb NBUF (set_next NBUF) ;;
  for_each (seq 0 NBUF) (fun i => initsleeplock i ;; link_front i).

(** The walk from [bcache.head.next] for the block; a list of [NBUF] buffers
    returns to the head within [NBUF + 1] steps. *)
Fixpoint find_cached (fuel : nat) (b : nat) (d : Z) (bn : nat) : St (option nat) :=
  match fuel with
  | O => diverge
  | S fuel' =>
      if (b =? NBUF)%nat then mret None
      else
        x ← getb b;
        if (dev x =? d) && (blockno x =? bn)%nat then mret (Some b)
        else find_cached fuel' (next x) d bn
  end.

(** The walk from [bcache.head.prev] for a buffer to recycle. *)
Fixpoint find_unused (fuel : nat) (b : nat) : St (option nat) :=
  match fuel with
  | O => diverge
  | S fuel' =>
      if (b =? NBUF)%nat then mret None
      else
        x ← getb b;
        if (refcnt x =? 0) && (Z.land (flags x) B_DIRTY =? 0) then mret (Some b)
        else find_unused fuel' (prev x)
  end.

Definition bget (d : Z) (bn : nat) : St nat :=
  acquire_bcache ;;
  h ← getb NBUF;
  f ← find_cached (S NBUF) (next h) d bn;
  match f with
  | Some b =>
      updb b (fun x => set_refcnt (w32 (refcnt x + 1)) x) ;;
      release_bcache ;;
      acquiresleep b ;;
      mret b
  | None =>
      h ← getb NBUF;
      f ← find_unused (S NBUF) (prev h);
      match f with
      | Some b =>
          updb b (set_dev d) ;;
          updb b (set_blockno bn) ;;
          updb b (set_flags 0) ;;
          updb b (set_refcnt 1) ;;
          release_bcache ;;
          acquiresleep b ;;
          mret b
      | None => panic "bget: no buffers"
      end
  end.

Definition bread (d : Z) (bn : nat) : St nat :=
  b ← bget d bn;
  x ← getb b;
  when (Z.land (flags x) B_VALID =? 0) (iderw b) ;;
  mret b.

Definition bwrite (b : nat) : St unit :=
  h ← holdingsleep b;
  if negb h then panic "bwrite"
  else
    updb b (fun x => set_flags (Z.lor (flags x) B_DIRTY) x) ;;
    iderw b.

Definition brelse (b : nat) : St unit :=
  h ← holdingsleep b;
  if negb h then panic "brelse"
  else
    releasesleep b ;;
    acquire_bcache ;;
    updb b (fun x => set_refcnt (w32 (refcnt x - 1)) x) ;;
    x ← getb b;
    when (refcnt x =? 0)
      (updb (next x) (set_prev (prev x)) ;;
       updb (prev x) (set_next (next x)) ;;
       link_front b) ;;
    release_bcache.
