(* ===== verification/BcacheSpec.v ===== *)
(** * What the buffer cache promises

    The doubly linked list of the buffers as a list in order of use, and the cache
    as a view of the disk: [bread] returns a locked buffer that holds the current
    contents of its block, [bwrite] puts them on the disk, and a dirty buffer keeps
    them until it is written. *)

From S2P Require Import Prelude Bcache.

(** ** The list of buffers *)

Section Ring.
Variable nx pv : nat -> nat.

(** From [x] through the nodes [l] to [y], both ways. *)
Fixpoint seg (x : nat) (l : list nat) (y : nat) : Prop :=
  match l with
  | [] => nx x = y /\ pv y = x
  | z :: l' => nx x = z /\ pv z = x /\ seg z l' y
  end.

Lemma seg_app x l1 z l2 y : seg x (l1 ++ z :: l2) y <-> seg x l1 z /\ seg z l2 y.
Proof.
  revert x. induction l1 as [|w l1 IH]; intros x; cbn [app seg]; [tauto|].
  rewrite IH. tauto.
Qed.
End Ring.

Lemma seg_ext nx pv nx' pv' x l y :
  (forall z, z ∈ x :: l -> nx' z = nx z) -> (forall z, z ∈ l ++ [y] -> pv' z = pv z) ->
  seg nx pv x l y -> seg nx' pv' x l y.
Proof.
  revert x. induction l as [|w l IH]; intros x Hn Hp; cbn [seg].
  - intros [H1 H2]. rewrite Hn, Hp by apply list_elem_of_here. done.
  - intros (H1 & H2 & H3).
    rewrite Hn by apply list_elem_of_here. rewrite Hp by apply list_elem_of_here.
    split_and!; [done..|]. apply IH; [| |done]; intros z Hz.
    + apply Hn. by apply list_elem_of_further.
    + apply Hp. by apply list_elem_of_further.
Qed.

(** The ends of a segment, and the pointers that lead there. *)
Definition last_of (x : nat) (l : list nat) : nat := List.last l x.
Definition first_of (l : list nat) (y : nat) : nat := hd y l.

Lemma seg_ends nx pv x l y :
  seg nx pv x l y -> nx x = first_of l y /\ pv y = last_of x l.
Proof.
  revert x. induction l as [|w l IH]; intros x; cbn [seg]; [done|].
  intros (H1 & H2 & H3). split; [done|]. destruct (IH w H3) as [_ ->].
  unfold last_of. destruct l as [|v l]; [done|]. cbn [List.last]. 
  clear. revert w v. induction l as [|u l IH]; intros w v; [done|]. apply IH.
Qed.

Definition fupd (f : nat -> nat) (k v : nat) : nat -> nat :=
  fun x => if decide (x = k) then v else f x.

Lemma fupd_eq f k v : fupd f k v k = v.
Proof. unfold fupd. by rewrite decide_True. Qed.
Lemma fupd_ne f k v x : x <> k -> fupd f k v x = f x.
Proof. intros. unfold fupd. by rewrite decide_False. Qed.

Lemma fupd_ext f g k v x : f x = g x -> fupd f k v x = fupd g k v x.
Proof. unfold fupd. by intros ->. Qed.

(** Taking the node [i] out of a ring with the head [h]. *)
Lemma ring_unlink nx pv h l1 i l2 :
  NoDup (h :: l1 ++ i :: l2) -> seg nx pv h (l1 ++ i :: l2) h ->
  seg (fupd nx (pv i) (nx i)) (fupd pv (nx i) (pv i)) h (l1 ++ l2) h.
Proof.
  intros Hnd H. apply seg_app in H as [H1 H2].
  pose proof (seg_ends _ _ _ _ _ H1) as [_ Hp]. pose proof (seg_ends _ _ _ _ _ H2) as [Hn _].
  rewrite Hp, Hn. clear Hp Hn.
  assert (forall z, z ∈ l1 -> z <> h /\ (z ∉ l2) /\ z <> i) as Hd.
  { intros z Hz. apply NoDup_cons in Hnd as [Hh Hnd]. apply NoDup_app in Hnd as (_ & Hd & _).
    specialize (Hd z Hz). split_and!; set_solver. }
  assert ((h ∉ l2) /\ NoDup l2 /\ NoDup l1) as (Hh & Hn2 & Hn1).
  { apply NoDup_cons in Hnd as [Hh Hnd]. apply NoDup_app in Hnd as (? & _ & Hnd).
    apply NoDup_cons in Hnd as [_ ?]. split_and!; [set_solver|done|done]. }
  assert (seg (fupd nx (last_of h l1) (first_of l2 h))
    (fupd pv (first_of l2 h) (last_of h l1)) (last_of h l1) l2 h) as H2'.
  { destruct l2 as [|n l2]; cbn [seg first_of hd] in *; [by rewrite !fupd_eq|].
    rewrite !fupd_eq. split_and!; [done..|]. destruct H2 as (_ & _ & H2).
    apply NoDup_cons in Hn2 as [Hn2 _].
    apply (seg_ext nx pv); [| |done]; intros z Hz; apply fupd_ne; intros ->.
    - destruct (list_eq_nil_dec l1) as [->|Hl1]; [by apply Hh|].
      destruct l1 as [|w l1] using rev_ind; [done|]. unfold last_of in Hz. 
      rewrite last_last in Hz. destruct (Hd w) as (_ & Hw & _); [set_solver|done].
    - apply elem_of_app in Hz as [Hz|Hz]; [done|]. set_solver. }
  destruct l1 as [|p l1 _] using rev_ind; [done|].
  unfold last_of in *. rewrite last_last in *.
  rewrite <- app_assoc. cbn [app]. apply seg_app. split; [|done].
  apply seg_app in H1 as [H1 _]. apply NoDup_app in Hn1 as (_ & Hn1 & _).
  apply (seg_ext nx pv); [| |done]; intros z Hz; apply fupd_ne; intros ->.
  - apply elem_of_cons in Hz as [->|Hz]; [|by eapply Hn1; [|apply list_elem_of_here]].
    by destruct (Hd h) as [? _]; [set_solver|].
  - destruct (Hd _ Hz) as (Hzh & Hz2 & _). destruct l2 as [|n l2]; [done|].
    by apply Hz2, list_elem_of_here.
Qed.

(** Putting a node [i] behind the head. *)
Lemma ring_front nx pv h l i :
  NoDup (h :: i :: l) -> seg nx pv h l h ->
  seg (fupd (fupd nx i (nx h)) h i) (fupd (fupd pv i h) (nx h) i) h (i :: l) h.
Proof.
  intros Hnd H. apply NoDup_cons in Hnd as [Hh Hnd]. apply NoDup_cons in Hnd as [Hi Hnd].
  assert (i <> h) as Hih by set_solver.
  pose proof (seg_ends _ _ _ _ _ H) as [Hn _]. rewrite Hn.
  assert (i <> first_of l h) as Hin by (destruct l; simpl; set_solver).
  cbn [seg]. rewrite fupd_eq, (fupd_ne _ (first_of l h) i i Hin), fupd_eq.
  split_and!; [done..|].
  destruct l as [|n l]; cbn [seg first_of hd] in *.
  - by rewrite (fupd_ne _ h i i Hih), !fupd_eq.
  - rewrite (fupd_ne _ h i i Hih), !fupd_eq. split_and!; [done..|].
    destruct H as (_ & _ & H). apply NoDup_cons in Hnd as [Hnl Hnd].
    apply (seg_ext nx pv); [| |done]; intros z Hz.
    + rewrite !fupd_ne; [done| |]; set_solver.
    + rewrite !fupd_ne; [done| |]; [set_solver|]. intros ->. set_solver.
Qed.

(** ** The pointers of the buffers *)

Definition nxf (L : list buf) (i : nat) : nat :=
  match L !! i with Some b => next b | None => 0%nat end.
Definition pvf (L : list buf) (i : nat) : nat :=
  match L !! i with Some b => prev b | None => 0%nat end.

(** A buffer without its pointers. *)
Definition bcore (b : buf) : buf := set_prev 0 (set_next 0 b).

Definition ring (L : list buf) (l : list nat) : Prop := seg (nxf L) (pvf L) NBUF l NBUF.

Lemma nxf_set_next L i v j :
  (i < length L)%nat -> nxf (alter (set_next v) i L) j = fupd (nxf L) i v j.
Proof.
  intros Hi. unfold nxf, fupd. case_decide as Hj.
  - subst. rewrite list_lookup_alter_eq.
    by destruct (lookup_lt_is_Some_2 _ _ Hi) as [b ->].
  - by rewrite list_lookup_alter_ne.
Qed.

Lemma pvf_set_prev L i v j :
  (i < length L)%nat -> pvf (alter (set_prev v) i L) j = fupd (pvf L) i v j.
Proof.
  intros Hi. unfold pvf, fupd. case_decide as Hj.
  - subst. rewrite list_lookup_alter_eq.
    by destruct (lookup_lt_is_Some_2 _ _ Hi) as [b ->].
  - by rewrite list_lookup_alter_ne.
Qed.

Lemma nxf_keep L f i j : (forall b, next (f b) = next b) -> nxf (alter f i L) j = nxf L j.
Proof.
  intros Hf. unfold nxf. destruct (decide (i = j)) as [->|].
  - rewrite list_lookup_alter_eq. by destruct (L !! j); simpl.
  - by rewrite list_lookup_alter_ne.
Qed.

Lemma pvf_keep L f i j : (forall b, prev (f b) = prev b) -> pvf (alter f i L) j = pvf L j.
Proof.
  intros Hf. unfold pvf. destruct (decide (i = j)) as [->|].
  - rewrite list_lookup_alter_eq. by destruct (L !! j); simpl.
  - by rewrite list_lookup_alter_ne.
Qed.

Lemma bcore_alter (f : buf -> buf) i L :
  (forall b, bcore (f b) = bcore b) -> map bcore (alter f i L) = map bcore L.
Proof.
  intros Hf. apply list_eq. intros j. rewrite !list_lookup_fmap.
  destruct (decide (i = j)) as [->|].
  - rewrite list_lookup_alter_eq. destruct (L !! j); simpl; [by rewrite Hf|done].
  - by rewrite list_lookup_alter_ne.
Qed.

Lemma bcore_lookup L L' i b :
  map bcore L = map bcore L' -> L !! i = Some b ->
  exists b', L' !! i = Some b' /\ bcore b = bcore b'.
Proof.
  intros H Hi. apply (f_equal (lookup i)) in H. rewrite !list_lookup_fmap, Hi in H.
  destruct (L' !! i) as [b'|]; [|done]. exists b'. split; [done|].
  by apply (inj Some (bcore b) (bcore b')) in H.
Qed.

(** ** The walks *)

Definition match_at (L : list buf) (d : Z) (bn : nat) (i : nat) : bool :=
  match L !! i with
  | Some b => (dev b =? d) && (blockno b =? bn)%nat
  | None => false
  end.

Definition free_at (L : list buf) (i : nat) : bool :=
  match L !! i with
  | Some b => (refcnt b =? 0) && (Z.land (flags b) B_DIRTY =? 0)
  | None => false
  end.

Lemma getb_run i b s : bufs s !! i = Some b -> getb i s = Ok (b, s).
Proof. intros H. unfold getb. mrun. by rewrite H. Qed.

Lemma find_cached_spec s d bn l x fuel :
  length (bufs s) = S NBUF -> Forall (fun z => z < NBUF)%nat l ->
  seg (nxf (bufs s)) (pvf (bufs s)) x l NBUF -> (length l < fuel)%nat ->
  find_cached fuel (nxf (bufs s) x) d bn s = Ok (find (match_at (bufs s) d bn) l, s).
Proof.
  intros Hl. revert x fuel. induction l as [|z l IH]; intros x fuel HF Hs Hf; cbn [seg find] in *;
    (destruct fuel as [|fuel]; [simpl in Hf; lia|]); cbn [find_cached].
  - destruct Hs as [-> _]. by rewrite Nat.eqb_refl.
  - destruct Hs as (-> & _ & Hs). apply Forall_cons in HF as [Hz HF].
    rewrite (proj2 (Nat.eqb_neq z NBUF)) by lia.
    destruct (lookup_lt_is_Some_2 (bufs s) z) as [b Hb]; [lia|].
    mstep (getb_run z b s Hb). unfold match_at at 1. rewrite Hb.
    destruct ((dev b =? d) && (blockno b =? bn)%nat); [done|].
    assert (next b = nxf (bufs s) z) as -> by (unfold nxf; by rewrite Hb).
    apply IH; [done|done|simpl in Hf; lia].
Qed.

Lemma seg_snoc nx pv x l z y :
  seg nx pv x (l ++ [z]) y <-> seg nx pv x l z /\ nx z = y /\ pv y = z.
Proof. rewrite seg_app. done. Qed.

Lemma find_unused_spec s l y fuel :
  length (bufs s) = S NBUF -> Forall (fun z => z < NBUF)%nat l ->
  seg (nxf (bufs s)) (pvf (bufs s)) NBUF l y -> (length l < fuel)%nat ->
  find_unused fuel (pvf (bufs s) y) s = Ok (find (free_at (bufs s)) (rev l), s).
Proof.
  intros Hl. revert y fuel. induction l as [|z l IH] using rev_ind; intros y fuel HF Hs Hf;
    rewrite ?length_app in Hf; (destruct fuel as [|fuel]; [simpl in Hf; lia|]);
    cbn [find_unused].
  - destruct Hs as [_ ->]. by rewrite Nat.eqb_refl.
  - apply seg_snoc in Hs as (Hs & _ & ->). apply Forall_app in HF as [HF Hz].
    apply Forall_cons in Hz as [Hz _]. rewrite rev_app_distr. cbn [rev app find].
    rewrite (proj2 (Nat.eqb_neq z NBUF)) by lia.
    destruct (lookup_lt_is_Some_2 (bufs s) z) as [b Hb]; [lia|].
    mstep (getb_run z b s Hb). unfold free_at at 1. rewrite Hb.
    destruct ((refcnt b =? 0) && (Z.land (flags b) B_DIRTY =? 0)); [done|].
    assert (prev b = pvf (bufs s) z) as -> by (unfold pvf; by rewrite Hb).
    apply IH; [done|done|simpl in Hf; lia].
Qed.

(** [link_front] and the unlinking of [brelse] on the pointers. *)
Lemma link_front_spec s i l :
  length (bufs s) = S NBUF -> NoDup (NBUF :: i :: l) -> (i < NBUF)%nat ->
  Forall (fun z => z < NBUF)%nat l -> ring (bufs s) l ->
  exists L, link_front i s = Ok (tt, set_bufs L s) /\ ring L (i :: l) /\
    map bcore L = map bcore (bufs s).
Proof.
  intros Hl Hnd Hi HF Hr.
  assert (nxf (bufs s) NBUF <= NBUF)%nat as Hn.
  { pose proof (seg_ends _ _ _ _ _ Hr) as [-> _]. destruct l as [|z l]; [done|].
    apply Forall_cons in HF as [Hz _]. simpl. lia. }
  destruct (lookup_lt_is_Some_2 (bufs s) NBUF) as [h Hh]; [lia|].
  assert (next h = nxf (bufs s) NBUF) as Hnh by (unfold nxf; by rewrite Hh).
  set (L1 := alter (set_next (next h)) i (bufs s)).
  set (L2 := alter (set_prev NBUF) i L1).
  assert (L2 !! NBUF = Some h) as Hh2.
  { unfold L2, L1. by rewrite !list_lookup_alter_ne by lia. }
  exists (alter (set_next i) NBUF (alter (set_prev i) (next h) L2)). split_and!.
  - unfold link_front. mstep (getb_run NBUF h s Hh). unfold updb. mrun.
    match goal with |- (_ ≫= _) ?x = _ => mstep (getb_run NBUF h x Hh2) end. done.
  - pose proof (ring_front _ _ _ _ _ Hnd Hr) as Hf. unfold ring.
    eapply seg_ext; [| |exact Hf]; intros z Hz.
    + rewrite nxf_set_next by (unfold L2, L1; rewrite !length_alter; lia).
      apply fupd_ext. rewrite nxf_keep by done. unfold L2. rewrite nxf_keep by done.
      unfold L1. rewrite nxf_set_next by lia. by rewrite Hnh.
    + rewrite pvf_keep by done.
      rewrite pvf_set_prev by (unfold L2, L1; rewrite !length_alter; lia).
      rewrite Hnh. apply fupd_ext. unfold L2.
      rewrite pvf_set_prev by (unfold L1; rewrite length_alter; lia).
      apply fupd_ext. unfold L1. by rewrite pvf_keep.
  - unfold L2, L1. by rewrite !bcore_alter.
Qed.

(** ** The cache as a view of the disk

    [cache s l V H D]: the list of the buffers is [l], most recently used first;
    the block [bn] has the contents [V !! bn] for who reads it; the process holds
    the buffer [i] of block [bn] when [H !! bn = Some i]; the blocks of [D] are
    dirty, the other unheld ones are on the disk as [V] has them. *)

Definition flags_of (D : gset nat) (bn : nat) : Z := if decide (bn ∈ D) then 6 else 2.

(** A buffer that was never used, or the buffer of a block. *)
Definition buf_ok (p : Z) (V : list block) (H : gmap nat nat) (D : gset nat) (i : nat) (b : buf)
    : Prop :=
  (dev b = 0 /\ lock b = None /\ refcnt b = 0 /\ flags b = 0) \/
  (dev b = 1 /\ V !! blockno b = Some (data b) /\ flags b = flags_of D (blockno b) /\
   if decide (H !! blockno b = Some i) then lock b = Some p /\ refcnt b = 1
   else lock b = None /\ refcnt b = 0).

Definition caches (s : store) (bn i : nat) : Prop :=
  (i < NBUF)%nat /\ exists b, bufs s !! i = Some b /\ dev b = 1 /\ blockno b = bn.

Record cache (s : store) (l : list nat) (V : list block) (H : gmap nat nat) (D : gset nat)
    : Prop := Cache {
  c_len : length (bufs s) = S NBUF;
  c_ring : ring (bufs s) l;
  c_nodup : NoDup l;
  c_all : forall i, i ∈ l <-> (i < NBUF)%nat;
  c_lock : bcache_lock s = false;
  c_view : length V = length (memdisk s);
  c_buf : forall i b, (i < NBUF)%nat -> bufs s !! i = Some b -> buf_ok (me s) V H D i b;
  c_uniq : forall bn i j, caches s bn i -> caches s bn j -> i = j;
  c_held : forall bn i, H !! bn = Some i -> caches s bn i;
  c_dirty : forall bn, bn ∈ D -> exists i, caches s bn i;
  c_clean : forall bn, bn ∉ D -> H !! bn = None -> V !! bn = memdisk s !! bn
}.

(** What the pointers do not decide. *)
Lemma cache_pointers s s' l l' V H D :
  cache s l V H D -> map bcore (bufs s') = map bcore (bufs s) -> ring (bufs s') l' ->
  l' ≡ₚ l -> me s' = me s -> memdisk s' = memdisk s -> bcache_lock s' = false ->
  cache s' l' V H D.
Proof.
  intros [] Hc Hr Hp Hm Hd Hl.
  assert (forall bn i, caches s' bn i <-> caches s bn i) as Hcs.
  { intros bn i. unfold caches. split; intros (Hi & b & Hb & H1 & H2); split; try done.
    - destruct (bcore_lookup _ _ _ _ Hc Hb) as (b' & Hb' & He). exists b'.
      rewrite <- (f_equal dev He : dev b = dev b').
      by rewrite <- (f_equal blockno He : blockno b = blockno b').
    - destruct (bcore_lookup _ _ _ _ (eq_sym Hc) Hb) as (b' & Hb' & He). exists b'.
      rewrite <- (f_equal dev He : dev b = dev b').
      by rewrite <- (f_equal blockno He : blockno b = blockno b'). }
  split; try done.
  - rewrite <- c_len0. apply (f_equal length) in Hc. by rewrite !length_map in Hc.
  - by rewrite Hp.
  - intros i. by rewrite Hp.
  - by rewrite Hd.
  - intros i b Hi Hb. destruct (bcore_lookup _ _ _ _ Hc Hb) as (b' & Hb' & He).
    specialize (c_buf0 i b' Hi Hb'). unfold buf_ok in *. rewrite Hm.
    rewrite (f_equal dev He : dev b = dev b'), (f_equal blockno He : blockno b = blockno b'),
      (f_equal lock He : lock b = lock b'), (f_equal refcnt He : refcnt b = refcnt b'),
      (f_equal flags He : flags b = flags b'), (f_equal data He : data b = data b'). done.
  - intros bn i j. rewrite !Hcs. apply c_uniq0.
  - intros bn i. rewrite Hcs. apply c_held0.
  - intros bn Hbn. destruct (c_dirty0 bn Hbn) as [i Hi]. exists i. by rewrite Hcs.
  - by rewrite Hd.
Qed.

(** A buffer found by number. *)
Lemma caches_match s bn i :
  caches s bn i <-> (i < NBUF)%nat /\ match_at (bufs s) 1 bn i = true.
Proof.
  unfold caches, match_at. split.
  - intros (Hi & b & -> & Hd & Hb). split; [done|].
    rewrite Hd, Hb, Z.eqb_refl. by rewrite Nat.eqb_refl.
  - intros [Hi H]. split; [done|]. destruct (bufs s !! i) as [b|]; [|done].
    apply andb_true_iff in H as [H1%Z.eqb_eq H2%Nat.eqb_eq]. by exists b.
Qed.

Lemma cache_find s l V H D bn i :
  cache s l V H D -> caches s bn i -> find (match_at (bufs s) 1 bn) l = Some i.
Proof.
  intros Hc Hi. destruct (find (match_at (bufs s) 1 bn) l) as [j|] eqn:Hf.
  - apply find_some in Hf as [Hj Hm]. f_equal. eapply (c_uniq _ _ _ _ _ Hc bn); [|done].
    apply caches_match. split; [|done]. apply (c_all _ _ _ _ _ Hc). by apply list_elem_of_In.
  - exfalso. apply caches_match in Hi as [Hi Hm].
    pose proof (find_none _ _ Hf i) as Hn. rewrite Hm in Hn. discriminate Hn.
    apply list_elem_of_In. by apply (c_all _ _ _ _ _ Hc).
Qed.

Lemma cache_find_none s l V H D bn :
  cache s l V H D -> (forall i, ~ caches s bn i) -> find (match_at (bufs s) 1 bn) l = None.
Proof.
  intros Hc Hn. destruct (find (match_at (bufs s) 1 bn) l) as [j|] eqn:Hf; [|done].
  apply find_some in Hf as [Hj Hm]. exfalso. apply (Hn j), caches_match. split; [|done].
  apply (c_all _ _ _ _ _ Hc). by apply list_elem_of_In.
Qed.

Lemma caches_dec s bn : (exists i, caches s bn i) \/ (forall i, ~ caches s bn i).
Proof.
  destruct (existsb (match_at (bufs s) 1 bn) (seq 0 NBUF)) eqn:He.
  - left. apply existsb_exists in He as (i & Hi & Hm). exists i. apply caches_match.
    split; [|done]. apply in_seq in Hi. lia.
  - right. intros i [Hi Hm]%caches_match.
    assert (existsb (match_at (bufs s) 1 bn) (seq 0 NBUF) = true) as Ht.
    { apply existsb_exists. exists i. split; [apply in_seq; lia|done]. }
    congruence.
Qed.

(** Fewer held and dirty blocks than buffers leave a buffer to recycle. *)
Lemma cache_free s l V H D :
  cache s l V H D -> (size (dom H ∪ D) < NBUF)%nat ->
  exists i, find (free_at (bufs s)) (rev l) = Some i.
Proof.
  intros Hc Hsz. destruct (find (free_at (bufs s)) (rev l)) as [i|] eqn:Hf; [by exists i|].
  exfalso. assert (forall i, (i < NBUF)%nat -> free_at (bufs s) i = false) as Hno.
  { intros i Hi. apply (find_none _ _ Hf). rewrite <- in_rev. apply list_elem_of_In.
    by apply (c_all _ _ _ _ _ Hc). }
  set (bn i := match bufs s !! i with Some b => blockno b | None => 0%nat end).
  assert (forall i, (i < NBUF)%nat -> caches s (bn i) i /\ bn i ∈ dom H ∪ D) as Hbusy.
  { intros i Hi. destruct (lookup_lt_is_Some_2 (bufs s) i) as [b Hb];
      [rewrite (c_len _ _ _ _ _ Hc); lia|].
    specialize (Hno i Hi). unfold free_at in Hno. unfold bn. rewrite Hb in *.
    destruct (c_buf _ _ _ _ _ Hc i b Hi Hb) as [(_ & _ & Hr & Hfl)|(Hd & _ & Hfl & Hlk)].
    { by rewrite Hr, Hfl in Hno. }
    split; [split; [done|by exists b]|]. unfold flags_of in Hfl.
    destruct (decide (blockno b ∈ D)) as [HD|HD]; [by apply elem_of_union_r|].
    apply elem_of_union_l, elem_of_dom. case_decide as Hh; [by exists i|].
    destruct Hlk as [_ Hr]. by rewrite Hr, Hfl in Hno. }
  assert (NoDup (map bn (seq 0 NBUF))) as Hnd.
  { apply NoDup_fmap_2_strong; [|apply NoDup_seq]. intros i j Hi Hj Hij.
    apply elem_of_seq in Hi, Hj. destruct (Hbusy i) as [Hci _]; [lia|].
    destruct (Hbusy j) as [Hcj _]; [lia|]. rewrite <- Hij in Hcj.
    by eapply (c_uniq _ _ _ _ _ Hc). }
  pose proof (size_list_to_set (C := gset nat) _ Hnd) as Hsize.
  rewrite length_map, length_seq in Hsize.
  assert (size (list_to_set (C := gset nat) (map bn (seq 0 NBUF))) <= size (dom H ∪ D))%nat.
  { apply subseteq_size. intros x Hx%elem_of_list_to_set.
    apply list_elem_of_fmap in Hx as (i & -> & Hi). apply elem_of_seq in Hi.
    apply Hbusy. lia. }
  lia.
Qed.

(** ** Changing one buffer *)

Definition free_buf (b : buf) : Prop :=
  lock b = None /\ refcnt b = 0 /\ Z.land (flags b) B_DIRTY = 0.

Lemma ring_same L L' l :
  (forall j, nxf L' j = nxf L j) -> (forall j, pvf L' j = pvf L j) -> ring L l -> ring L' l.
Proof. intros Hn Hp H. eapply seg_ext; [| |exact H]; intros z _; done. Qed.

Lemma insert_ptr L i b b' :
  L !! i = Some b -> next b' = next b -> prev b' = prev b ->
  (forall j, nxf (<[i := b']> L) j = nxf L j) /\ (forall j, pvf (<[i := b']> L) j = pvf L j).
Proof.
  intros Hb Hn Hp. assert (i < length L)%nat as Hi by (by eapply lookup_lt_Some).
  split; intros j; unfold nxf, pvf; destruct (decide (i = j)) as [<-|];
    rewrite ?list_lookup_insert_eq, ?list_lookup_insert_ne, ?Hb by done; done.
Qed.

Section Change.
Variables (s s' : store) (l : list nat) (V V' : list block) (H H' : gmap nat nat)
  (D D' : gset nat) (i : nat) (b b' : buf).

(** The buffer [b] at [i] becomes [b'], of block [bn]: the same block, or a block
    that was not cached when [b] was free.  Nothing changes for other blocks. *)
Record change : Prop := Change {
  ch_i : (i < NBUF)%nat;
  ch_b : bufs s !! i = Some b;
  ch_bufs : bufs s' = <[i := b']> (bufs s);
  ch_next : next b' = next b;
  ch_prev : prev b' = prev b;
  ch_me : me s' = me s;
  ch_lock : bcache_lock s' = false;
  ch_view : length V' = length (memdisk s');
  ch_dev : dev b' = 1;
  ch_ok : buf_ok (me s) V' H' D' i b';
  ch_old : dev b = 1 /\ blockno b = blockno b' \/
           free_buf b /\ forall j, ~ caches s (blockno b') j;
  ch_other : forall k, k <> blockno b' -> V' !! k = V !! k /\ H' !! k = H !! k /\
               (k ∈ D' <-> k ∈ D) /\ memdisk s' !! k = memdisk s !! k;
  ch_held : forall j, H' !! blockno b' = Some j -> j = i;
  ch_clean : blockno b' ∉ D' -> H' !! blockno b' = None ->
             V' !! blockno b' = memdisk s' !! blockno b'
}.

Lemma change_caches k j :
  change -> caches s' k j <-> if decide (j = i) then k = blockno b' else caches s k j.
Proof using Type.
  intros Hch. unfold caches. rewrite (ch_bufs Hch). pose proof (ch_i Hch) as Hi.
  pose proof (lookup_lt_Some _ _ _ (ch_b Hch)) as Hlt. case_decide as Hj.
  - subst j. rewrite list_lookup_insert_eq by done. split.
    + intros (_ & x & Hx & _ & Hk). congruence.
    + intros ->. split; [done|]. exists b'. split_and!; [done|apply Hch|done].
  - by rewrite list_lookup_insert_ne.
Qed.

(** The block [b] was the buffer of, if it is not that of [b'], was neither held
    nor dirty. *)
Lemma change_old_free k :
  cache s l V H D -> change -> caches s k i -> k <> blockno b' -> H !! k <> Some i /\ k ∉ D.
Proof using Type.
  intros Hc Hch (_ & x & Hx & Hd & <-) Hk.
  assert (x = b) as -> by (pose proof (ch_b Hch); congruence).
  destruct (ch_old Hch) as [[_ He]|[(Hl & Hr & Hf) _]]; [done|].
  destruct (c_buf _ _ _ _ _ Hc i b (ch_i Hch) (ch_b Hch)) as [(Hd' & _)|(_ & _ & Hfl & Hlk)];
    [congruence|]. split.
  - intros Hh. rewrite decide_True in Hlk by done. destruct Hlk. congruence.
  - intros HD. unfold flags_of in Hfl. rewrite decide_True in Hfl by done.
    by rewrite Hfl in Hf.
Qed.

Lemma cache_change : cache s l V H D -> change -> cache s' l V' H' D'.
Proof using Type.
  intros Hc Hch. pose proof (fun k j => change_caches k j Hch) as Hcs.
  pose proof (lookup_lt_Some _ _ _ (ch_b Hch)) as Hlt.
  destruct (insert_ptr (bufs s) i b b' (ch_b Hch) (ch_next Hch) (ch_prev Hch)) as [Hnx Hpv].
  rewrite <- (ch_bufs Hch) in Hnx, Hpv.
  assert (forall k j, caches s k j -> j <> i -> k <> blockno b') as Hne.
  { intros k j Hk Hj ->. destruct (ch_old Hch) as [[Hd He]|[_ Hno]]; [|by apply (Hno j)].
    apply Hj. eapply (c_uniq _ _ _ _ _ Hc); [done|]. split; [apply Hch|].
    exists b. split_and!; [apply Hch|done|done]. }
  split.
  - rewrite (ch_bufs Hch), length_insert. apply Hc.
  - eapply ring_same; [exact Hnx|exact Hpv|apply Hc].
  - apply Hc.
  - apply Hc.
  - apply Hch.
  - apply Hch.
  - intros j x Hj Hx. rewrite (ch_me Hch). rewrite (ch_bufs Hch) in Hx.
    destruct (decide (i = j)) as [<-|Hij].
    + rewrite list_lookup_insert_eq in Hx by done. injection Hx as <-. apply Hch.
    + rewrite list_lookup_insert_ne in Hx by done.
      destruct (c_buf _ _ _ _ _ Hc j x Hj Hx) as [?|(Hd & HV & Hf & Hl)]; [by left|right].
      assert (blockno x <> blockno b') as Hb.
      { apply (Hne _ j); [|done]. split; [done|by exists x]. }
      destruct (ch_other Hch _ Hb) as (-> & -> & HDD & _). split_and!; [done|done| |done].
      rewrite Hf. unfold flags_of. by destruct (decide (blockno x ∈ D)) as [HD|HD],
        (decide (blockno x ∈ D')) as [HD'|HD']; try done; exfalso; tauto.
  - intros k j1 j2 H1 H2. rewrite Hcs in H1, H2.
    destruct (decide (j1 = i)) as [->|Hj1], (decide (j2 = i)) as [->|Hj2]; try done.
    + by destruct (Hne _ _ H2 Hj2).
    + by destruct (Hne _ _ H1 Hj1).
    + by eapply (c_uniq _ _ _ _ _ Hc).
  - intros k j Hh. rewrite Hcs. destruct (decide (k = blockno b')) as [->|Hk].
    + apply (ch_held Hch) in Hh as ->. by rewrite decide_True.
    + destruct (ch_other Hch k Hk) as (_ & Hhk & _). rewrite Hhk in Hh.
      pose proof (c_held _ _ _ _ _ Hc _ _ Hh) as Hkj. rewrite decide_False; [done|].
      intros ->. by destruct (change_old_free k Hc Hch Hkj Hk).
  - intros k Hk. destruct (decide (k = blockno b')) as [->|Hkb].
    + exists i. rewrite Hcs. by rewrite decide_True.
    + destruct (ch_other Hch k Hkb) as (_ & _ & HDk & _). apply HDk in Hk.
      destruct (c_dirty _ _ _ _ _ Hc k Hk) as [j Hj]. exists j. rewrite Hcs.
      rewrite decide_False; [done|]. intros ->. by destruct (change_old_free k Hc Hch Hj Hkb).
  - intros k Hk Hh. destruct (decide (k = blockno b')) as [->|Hkb]; [by apply Hch|].
    destruct (ch_other Hch k Hkb) as (-> & Hhk & HDk & ->).
    apply (c_clean _ _ _ _ _ Hc); [tauto|congruence].
Qed.
End Change.

(** ** The operations *)

Definition setb (i : nat) (b : buf) (s : store) : store := set_bufs (<[i := b]> (bufs s)) s.

Lemma setb_setb i b b' s : setb i b' (setb i b s) = setb i b' s.
Proof. unfold setb. simpl. by rewrite list_insert_insert_eq. Qed.

Lemma setb_at i b b0 s : bufs s !! i = Some b0 -> bufs (setb i b s) !! i = Some b.
Proof. intros H. apply list_lookup_insert_eq. by eapply lookup_lt_Some. Qed.

Lemma updb_at i f b s : bufs s !! i = Some b -> updb i f s = Ok (tt, setb i (f b) s).
Proof.
  intros H. unfold updb, modify, setb. do 2 f_equal. f_equal. apply list_eq. intros j.
  destruct (decide (i = j)) as [<-|Hj].
  - rewrite list_lookup_alter_eq, H. symmetry.
    apply list_lookup_insert_eq. by eapply lookup_lt_Some.
  - by rewrite list_lookup_alter_ne, list_lookup_insert_ne.
Qed.

Lemma holdingsleep_run i b s :
  bufs s !! i = Some b -> holdingsleep i s = Ok (bool_decide (lock b = Some (me s)), s).
Proof. intros H. unfold holdingsleep. mstep (getb_run i b s H). done. Qed.

Lemma acquiresleep_run i b s :
  bufs s !! i = Some b -> lock b = None ->
  acquiresleep i s = Ok (tt, setb i (set_lock (Some (me s)) b) s).
Proof.
  intros H Hl. unfold acquiresleep. mstep (getb_run i b s H). rewrite Hl. mrun.
  by apply updb_at.
Qed.

Lemma release_run s :
  bcache_lock s = true -> release_bcache s = Ok (tt, set_bcache_lock false s).
Proof. intros H. unfold release_bcache. mrun. by rewrite H. Qed.

Lemma acquire_run s :
  bcache_lock s = false -> acquire_bcache s = Ok (tt, set_bcache_lock true s).
Proof. intros H. unfold acquire_bcache. mrun. by rewrite H. Qed.

Section Ops.
Context (l : list nat).
Implicit Types (s : store) (V : list block) (H : gmap nat nat) (D : gset nat).

Lemma cache_ring_all s V H D :
  cache s l V H D -> Forall (fun z => z < NBUF)%nat l /\ (length l < S NBUF)%nat.
Proof.
  intros Hc. assert (Forall (fun z => z < NBUF)%nat l) as HF.
  { apply Forall_forall. intros x Hx. by apply (c_all _ _ _ _ _ Hc). }
  split; [done|]. pose proof (submseteq_length l (seq 0 NBUF)) as Hl.
  rewrite length_seq in Hl. apply Nat.lt_succ_r, Hl, NoDup_submseteq; [apply Hc|].
  intros x Hx. apply elem_of_seq. rewrite Forall_forall in HF. specialize (HF x Hx). lia.
Qed.

(** [bget] of a cached block locks its buffer. *)
Lemma bget_hit s V H D bn i b :
  cache s l V H D -> caches s bn i -> bufs s !! i = Some b -> lock b = None -> refcnt b = 0 ->
  bget 1 bn s = Ok (i, setb i (set_lock (Some (me s)) (set_refcnt 1 b)) s).
Proof using Type.
  intros Hc Hi Hb Hl Hr. pose proof (cache_ring_all _ _ _ _ Hc) as [HF Hlen].
  unfold bget. rewrite (bind_ok _ _ _ _ _ (acquire_run s (c_lock _ _ _ _ _ Hc))).
  set (s1 := set_bcache_lock true s).
  destruct (lookup_lt_is_Some_2 (bufs s) NBUF) as [h Hh]; [rewrite (c_len _ _ _ _ _ Hc); lia|].
  rewrite (bind_ok _ _ _ _ _ (getb_run NBUF h s1 Hh)).
  assert (next h = nxf (bufs s1) NBUF) as -> by (unfold nxf; simpl; by rewrite Hh).
  rewrite (bind_ok _ _ _ _ _ (find_cached_spec s1 1 bn l NBUF (S NBUF) (c_len _ _ _ _ _ Hc) HF
    (c_ring _ _ _ _ _ Hc) Hlen)).
  change (bufs s1) with (bufs s).
  rewrite (cache_find s l V H D bn i Hc Hi).
  rewrite (bind_ok _ _ _ _ _ (updb_at i _ b s1 Hb)).
  rewrite (bind_ok _ _ _ _ _ (release_run (setb i _ s1) eq_refl)).
  set (s2 := set_bcache_lock false _).
  assert (bufs s2 !! i = Some (set_refcnt (w32 (refcnt b + 1)) b)) as Hb2
    by (by apply (setb_at i _ b s)).
  rewrite (bind_ok _ _ _ _ _ (acquiresleep_run i _ s2 Hb2 Hl)). mrun.
  rewrite Hr. change (w32 (0 + 1)) with 1. do 2 f_equal.
  unfold s2, setb, s1. simpl. rewrite list_insert_insert_eq.
  pose proof (c_lock _ _ _ _ _ Hc) as Hlk. destruct s; simpl in *. by rewrite Hlk.
Qed.

(** [bget] of another block recycles the least recently used free buffer. *)
Lemma bget_miss s V H D bn i b :
  cache s l V H D -> (forall j, ~ caches s bn j) ->
  find (free_at (bufs s)) (rev l) = Some i -> bufs s !! i = Some b -> lock b = None ->
  bget 1 bn s = Ok (i, setb i (set_lock (Some (me s)) (set_refcnt 1 (set_flags 0
    (set_blockno bn (set_dev 1 b))))) s).
Proof using Type.
  intros Hc Hno Hf Hb Hl. pose proof (cache_ring_all _ _ _ _ Hc) as [HF Hlen].
  unfold bget. rewrite (bind_ok _ _ _ _ _ (acquire_run s (c_lock _ _ _ _ _ Hc))).
  set (s1 := set_bcache_lock true s).
  destruct (lookup_lt_is_Some_2 (bufs s) NBUF) as [h Hh]; [rewrite (c_len _ _ _ _ _ Hc); lia|].
  rewrite (bind_ok _ _ _ _ _ (getb_run NBUF h s1 Hh)).
  assert (next h = nxf (bufs s1) NBUF) as -> by (unfold nxf; simpl; by rewrite Hh).
  rewrite (bind_ok _ _ _ _ _ (find_cached_spec s1 1 bn l NBUF (S NBUF) (c_len _ _ _ _ _ Hc) HF
    (c_ring _ _ _ _ _ Hc) Hlen)).
  change (bufs s1) with (bufs s).
  rewrite (cache_find_none s l V H D bn Hc Hno).
  rewrite (bind_ok _ _ _ _ _ (getb_run NBUF h s1 Hh)).
  assert (prev h = pvf (bufs s1) NBUF) as -> by (unfold pvf; simpl; by rewrite Hh).
  rewrite (bind_ok _ _ _ _ _ (find_unused_spec s1 l NBUF (S NBUF) (c_len _ _ _ _ _ Hc) HF
    (c_ring _ _ _ _ _ Hc) Hlen)).
  change (bufs s1) with (bufs s). rewrite Hf.
  rewrite (bind_ok _ _ _ _ _ (updb_at i _ b s1 Hb)).
  rewrite (bind_ok _ _ _ _ _ (updb_at i _ _ _ (setb_at i _ b s1 Hb))), setb_setb.
  rewrite (bind_ok _ _ _ _ _ (updb_at i _ _ _ (setb_at i _ b s1 Hb))), setb_setb.
  rewrite (bind_ok _ _ _ _ _ (updb_at i _ _ _ (setb_at i _ b s1 Hb))), setb_setb.
  rewrite (bind_ok _ _ _ _ _ (release_run (setb i _ s1) eq_refl)).
  set (s2 := set_bcache_lock false _).
  assert (bufs s2 !! i = Some (set_refcnt 1 (set_flags 0 (set_blockno bn (set_dev 1 b))))) as Hb2
    by (by apply (setb_at i _ b s)).
  rewrite (bind_ok _ _ _ _ _ (acquiresleep_run i _ s2 Hb2 Hl)). mrun.
  do 2 f_equal. unfold s2, setb, s1. simpl. rewrite list_insert_insert_eq.
  pose proof (c_lock _ _ _ _ _ Hc) as Hlk. destruct s; simpl in *. by rewrite Hlk.
Qed.

Lemma iderw_read s i b p :
  bufs s !! i = Some b -> lock b = Some (me s) -> flags b = 0 -> dev b = 1 ->
  memdisk s !! blockno b = Some p ->
  iderw i s = Ok (tt, setb i (set_flags 2 (set_data p b)) s).
Proof using Type.
  intros Hb Hl Hf Hd Hp. unfold iderw. mstep (holdingsleep_run i b s Hb).
  rewrite bool_decide_true by done. cbn [negb]. mstep (getb_run i b s Hb).
  rewrite Hf, Hd. change (Z.land 0 _ =? B_VALID) with false. cbn [Z.eqb Pos.eqb negb]. mrun.
  rewrite Hp. change (Z.land 0 B_DIRTY =? 0) with true. cbn [negb].
  rewrite (bind_ok _ _ _ _ _ (updb_at i _ b s Hb)).
  rewrite (updb_at i _ _ _ (setb_at i _ b s Hb)), setb_setb. simpl. by rewrite Hf.
Qed.

Lemma iderw_write s i b p :
  bufs s !! i = Some b -> lock b = Some (me s) -> flags b = 6 -> dev b = 1 ->
  memdisk s !! blockno b = Some p ->
  iderw i s = Ok (tt, set_disk (<[blockno b := data b]> (memdisk s))
    (writes s ++ [(blockno b, data b)]) (setb i (set_flags 2 b) s)).
Proof using Type.
  intros Hb Hl Hf Hd Hp. unfold iderw. mstep (holdingsleep_run i b s Hb).
  rewrite bool_decide_true by done. cbn [negb]. mstep (getb_run i b s Hb).
  rewrite Hf, Hd. change (Z.land 6 (Z.lor B_VALID B_DIRTY) =? B_VALID) with false.
  cbn [Z.eqb Pos.eqb negb]. mrun.
  rewrite Hp. change (Z.land 6 B_DIRTY =? 0) with false. cbn [negb]. mrun.
  rewrite (bind_ok _ _ _ _ _ (updb_at i _ b s Hb)). mrun.
  set (s1 := set_disk _ _ _).
  assert (bufs s1 !! i = Some (set_flags (Z.land 6 (Z.lnot B_DIRTY)) b)) as Hb1
    by (by apply (setb_at i _ b s)).
  rewrite (updb_at i _ _ s1 Hb1). unfold s1, setb. simpl.
  by rewrite list_insert_insert_eq.
Qed.

Lemma caches_at s V H D bn i :
  cache s l V H D -> caches s bn i ->
  exists b, bufs s !! i = Some b /\ dev b = 1 /\ blockno b = bn /\ (i < NBUF)%nat /\
    V !! bn = Some (data b) /\ flags b = flags_of D bn /\
    if decide (H !! bn = Some i) then lock b = Some (me s) /\ refcnt b = 1
    else lock b = None /\ refcnt b = 0.
Proof using Type.
  intros Hc (Hi & b & Hb & Hd & <-). exists b.
  destruct (c_buf _ _ _ _ _ Hc i b Hi Hb) as [(Hd' & _)|(_ & HV & Hf & Hl)]; [congruence|].
  by split_and!.
Qed.

(** Reading a block locks its buffer, which holds the block's contents. *)
Lemma bread_spec s V H D bn v :
  cache s l V H D -> V !! bn = Some v -> H !! bn = None ->
  (bn ∈ D) \/ (size (dom H ∪ D) < NBUF)%nat ->
  exists i L, bread 1 bn s = Ok (i, set_bufs L s) /\
    cache (set_bufs L s) l V (<[bn := i]> H) D.
Proof using Type.
  intros Hc HV HH Hroom. unfold bread.
  destruct (caches_dec s bn) as [[i Hi]|Hno].
  - destruct (caches_at _ _ _ _ _ _ Hc Hi) as (b & Hb & Hd & Hbn & Hlt & HVb & Hf & Hl).
    rewrite decide_False in Hl by congruence. destruct Hl as [Hl Hr].
    exists i, (<[i := set_lock (Some (me s)) (set_refcnt 1 b)]> (bufs s)). split.
    + rewrite (bind_ok _ _ _ _ _ (bget_hit s V H D bn i b Hc Hi Hb Hl Hr)).
      rewrite (bind_ok _ _ _ _ _ (getb_run i _ _ (setb_at i _ b s Hb))). simpl. rewrite Hf.
      unfold flags_of. by destruct (decide (bn ∈ D)).
    + eapply cache_change; [exact Hc|].
      apply (Change _ _ _ _ _ _ _ _ i b (set_lock (Some (me s)) (set_refcnt 1 b)));
        simpl; rewrite ?Hbn; try done.
      * apply Hc.
      * apply Hc.
      * right. simpl. rewrite Hbn. split_and!; [done|done|done|].
        by rewrite decide_True by apply lookup_insert_eq.
      * by left.
      * intros k Hk. by rewrite lookup_insert_ne.
      * intros j. rewrite lookup_insert_eq. by intros [= ->].
      * by rewrite lookup_insert_eq.
  - assert (bn ∉ D) as HD.
    { intros HD. destruct (c_dirty _ _ _ _ _ Hc bn HD) as [i Hi]. by apply (Hno i). }
    destruct Hroom as [?|Hroom]; [done|].
    destruct (cache_free _ _ _ _ _ Hc Hroom) as [i Hf].
    pose proof (find_some _ _ Hf) as [Hin Hfree].
    rewrite <- in_rev in Hin. apply list_elem_of_In, (c_all _ _ _ _ _ Hc) in Hin as Hlt.
    unfold free_at in Hfree. destruct (bufs s !! i) as [b|] eqn:Hb; [|done].
    apply andb_true_iff in Hfree as [Hr%Z.eqb_eq Hfl%Z.eqb_eq].
    assert (lock b = None) as Hl.
    { destruct (c_buf _ _ _ _ _ Hc i b Hlt Hb) as [(_ & ? & _)|(_ & _ & _ & Hl)]; [done|].
      case_decide; destruct Hl as [? Hr']; [by rewrite Hr in Hr'|done]. }
    assert (memdisk s !! bn = Some v) as Hp.
    { by rewrite <- (c_clean _ _ _ _ _ Hc bn HD HH). }
    set (b1 := set_lock (Some (me s)) (set_refcnt 1 (set_flags 0
      (set_blockno bn (set_dev 1 b))))).
    set (b2 := set_flags 2 (set_data v b1)).
    exists i, (<[i := b2]> (bufs s)). split.
    + rewrite (bind_ok _ _ _ _ _ (bget_miss s V H D bn i b Hc Hno Hf Hb Hl)).
      pose proof (setb_at i b1 b s Hb) as Hb1.
      rewrite (bind_ok _ _ _ _ _ (getb_run i _ _ Hb1)). cbn -[iderw].
      rewrite (bind_ok _ _ _ _ _ (iderw_read (setb i b1 s) i b1 v Hb1 eq_refl eq_refl eq_refl Hp)).
      by rewrite setb_setb.
    + eapply cache_change; [exact Hc|].
      apply (Change _ _ _ _ _ _ _ _ i b b2); simpl; try done.
      * apply Hc.
      * apply Hc.
      * right. simpl. split_and!; [done|done| |].
        -- unfold flags_of. by rewrite decide_False.
        -- by rewrite decide_True by apply lookup_insert_eq.
      * right. split; [done|exact Hno].
      * intros k Hk. by rewrite lookup_insert_ne.
      * intros j. rewrite lookup_insert_eq. by intros [= ->].
      * by rewrite lookup_insert_eq.
Qed.

(** Changing the contents of a held buffer changes the view. *)
Lemma write_data_spec s V H D bn i v :
  cache s l V H D -> H !! bn = Some i -> (bn < length V)%nat ->
  exists L, updb i (set_data v) s = Ok (tt, set_bufs L s) /\
    cache (set_bufs L s) l (<[bn := v]> V) H D.
Proof using Type.
  intros Hc HH Hlt. pose proof (c_held _ _ _ _ _ Hc _ _ HH) as Hi.
  destruct (caches_at _ _ _ _ _ _ Hc Hi) as (b & Hb & Hd & Hbn & Hilt & HVb & Hf & Hl).
  exists (<[i := set_data v b]> (bufs s)). split; [by apply updb_at|].
  eapply cache_change; [exact Hc|].
  apply (Change _ _ _ _ _ _ _ _ i b (set_data v b)); simpl; rewrite ?Hbn; try done.
  - apply Hc.
  - rewrite length_insert. apply Hc.
  - right. simpl. rewrite Hbn. split_and!; [done|by apply list_lookup_insert_eq|done|done].
  - by left.
  - intros k Hk. by rewrite list_lookup_insert_ne by done.
  - intros j. rewrite HH. by intros [= ->].
  - by rewrite HH.
Qed.

(** [b->flags |= B_DIRTY] keeps the block in the cache. *)
Lemma mark_dirty_spec s V H D bn i :
  cache s l V H D -> H !! bn = Some i ->
  exists L, updb i (fun x => set_flags (Z.lor (flags x) B_DIRTY) x) s = Ok (tt, set_bufs L s) /\
    cache (set_bufs L s) l V H ({[bn]} ∪ D).
Proof using Type.
  intros Hc HH. pose proof (c_held _ _ _ _ _ Hc _ _ HH) as Hi.
  destruct (caches_at _ _ _ _ _ _ Hc Hi) as (b & Hb & Hd & Hbn & Hilt & HVb & Hf & Hl).
  assert (Z.lor (flags b) B_DIRTY = 6) as Hfl.
  { rewrite Hf. unfold flags_of. by destruct (decide (bn ∈ D)). }
  exists (<[i := set_flags 6 b]> (bufs s)). split; [rewrite (updb_at i _ b s Hb); by rewrite Hfl|].
  eapply cache_change; [exact Hc|].
  apply (Change _ _ _ _ _ _ _ _ i b (set_flags 6 b)); simpl; rewrite ?Hbn; try done.
  - apply Hc.
  - apply Hc.
  - right. simpl. rewrite Hbn. split_and!; [done|done| |done].
    unfold flags_of. by rewrite decide_True by set_solver.
  - by left.
  - intros k Hk. split_and!; [done|done|set_solver|done].
  - intros j. rewrite HH. by intros [= ->].
  - by rewrite HH.
Qed.

(** Writing a held buffer puts its contents on the disk and makes it clean. *)
Lemma bwrite_spec s V H D bn i v :
  cache s l V H D -> H !! bn = Some i -> V !! bn = Some v ->
  exists L, bwrite i s = Ok (tt, set_disk (<[bn := v]> (memdisk s)) (writes s ++ [(bn, v)])
                                 (set_bufs L s)) /\
    cache (set_disk (<[bn := v]> (memdisk s)) (writes s ++ [(bn, v)]) (set_bufs L s))
      l V H (D ∖ {[bn]}).
Proof using Type.
  intros Hc HH HV. pose proof (c_held _ _ _ _ _ Hc _ _ HH) as Hi.
  destruct (caches_at _ _ _ _ _ _ Hc Hi) as (b & Hb & Hd & Hbn & Hilt & HVb & Hf & Hl).
  assert (data b = v) as Hv by congruence.
  rewrite decide_True in Hl by done. destruct Hl as [Hl Hr].
  assert (bn < length (memdisk s))%nat as Hlt.
  { rewrite <- (c_view _ _ _ _ _ Hc). by eapply lookup_lt_Some. }
  destruct (lookup_lt_is_Some_2 (memdisk s) bn Hlt) as [p Hp].
  assert (Z.lor (flags b) B_DIRTY = 6) as Hfl.
  { rewrite Hf. unfold flags_of. by destruct (decide (bn ∈ D)). }
  set (b' := set_flags 2 b). exists (<[i := b']> (bufs s)). split.
  - unfold bwrite. rewrite (bind_ok _ _ _ _ _ (holdingsleep_run i b s Hb)).
    rewrite bool_decide_true by done. cbn [negb].
    rewrite (bind_ok _ _ _ _ _ (updb_at i _ b s Hb)). rewrite Hfl.
    set (b1 := set_flags 6 b). set (s1 := setb i b1 s).
    assert (memdisk s1 !! blockno b1 = Some p) as Hp1 by (simpl; by rewrite Hbn).
    rewrite (iderw_write s1 i b1 p (setb_at i b1 b s Hb) Hl eq_refl Hd Hp1).
    unfold s1. rewrite setb_setb. simpl. by rewrite Hbn, Hv.
  - eapply cache_change; [exact Hc|].
    apply (Change _ _ _ _ _ _ _ _ i b b'); simpl; rewrite ?Hbn; try done.
    + apply Hc.
    + rewrite length_insert. apply Hc.
    + right. simpl. rewrite Hbn. split_and!; [done|done| |by rewrite decide_True].
      unfold flags_of. by rewrite decide_False by set_solver.
    + by left.
    + intros k Hk. rewrite list_lookup_insert_ne by done. split_and!; [done|done|set_solver|done].
    + intros j. rewrite HH. by intros [= ->].
    + by rewrite HH.
Qed.

(** The unlinking in [brelse]. *)
Lemma unlink_ring L l1 i l2 b :
  length L = S NBUF -> NoDup (NBUF :: l1 ++ i :: l2) -> Forall (fun z => z < NBUF)%nat (l1 ++ i :: l2) ->
  ring L (l1 ++ i :: l2) -> L !! i = Some b ->
  let L' := alter (set_next (next b)) (prev b) (alter (set_prev (prev b)) (next b) L) in
  ring L' (l1 ++ l2) /\ map bcore L' = map bcore L.
Proof using Type.
  intros Hl Hnd HF Hr Hb L'.
  assert (next b = nxf L i /\ prev b = pvf L i) as [Hn Hp] by (unfold nxf, pvf; by rewrite Hb).
  pose proof Hr as [H1 H2]%seg_app.
  pose proof (seg_ends _ _ _ _ _ H1) as [_ Hp1]. pose proof (seg_ends _ _ _ _ _ H2) as [Hn2 _].
  apply Forall_app in HF as [HF1 HF2]. apply Forall_cons in HF2 as [_ HF2].
  assert (next b < length L)%nat as Hnl.
  { rewrite Hn, Hn2, Hl. destruct l2 as [|z l2]; simpl; [lia|].
    apply Forall_cons in HF2 as [Hz _]. lia. }
  assert (prev b < length L)%nat as Hpl.
  { rewrite Hp, Hp1, Hl. unfold last_of. destruct l1 as [|z l1 _] using rev_ind; simpl; [lia|].
    rewrite last_last. apply Forall_app in HF1 as [_ HF1].
    apply Forall_cons in HF1 as [Hz _]. lia. }
  split; [|unfold L'; by rewrite !bcore_alter].
  pose proof (ring_unlink _ _ _ _ _ _ Hnd Hr) as Hu.
  eapply seg_ext; [| |exact Hu]; intros z _; unfold L'.
  - rewrite nxf_set_next by (by rewrite length_alter). rewrite Hn, Hp.
    apply fupd_ext. by rewrite nxf_keep.
  - rewrite pvf_keep by done. rewrite pvf_set_prev by done. by rewrite Hn, Hp.
Qed.

(** Releasing a held buffer, whose contents are dirty or on the disk, makes it the
    most recently used one. *)
Lemma brelse_spec s V H D bn i :
  cache s l V H D -> H !! bn = Some i -> (bn ∈ D) \/ V !! bn = memdisk s !! bn ->
  exists L l', brelse i s = Ok (tt, set_bufs L s) /\ l' ≡ₚ l /\ head l' = Some i /\
    cache (set_bufs L s) l' V (delete bn H) D.
Proof using Type.
  intros Hc HH Hclean. pose proof (c_held _ _ _ _ _ Hc _ _ HH) as Hi.
  destruct (caches_at _ _ _ _ _ _ Hc Hi) as (b & Hb & Hd & Hbn & Hilt & HVb & Hf & Hl).
  rewrite decide_True in Hl by done. destruct Hl as [Hl Hr].
  pose proof (cache_ring_all _ _ _ _ Hc) as [HF _].
  set (b' := set_refcnt 0 (set_lock None b)). set (s1 := setb i b' s).
  assert (cache s1 l V (delete bn H) D) as Hc1.
  { eapply cache_change; [exact Hc|].
    apply (Change _ _ _ _ _ _ _ _ i b b'); simpl; rewrite ?Hbn; try done.
    - apply Hc.
    - apply Hc.
    - right. simpl. rewrite Hbn. split_and!; [done|done|done|].
      rewrite decide_False; [done|]. by rewrite lookup_delete_eq.
    - by left.
    - intros k Hk. by rewrite lookup_delete_ne.
    - intros j. by rewrite lookup_delete_eq.
    - intros HD _. by destruct Hclean. }
  assert (bufs s1 !! i = Some b') as Hb1 by (by apply (setb_at i b' b s)).
  apply (c_all _ _ _ _ _ Hc) in Hilt as Hin.
  apply list_elem_of_split in Hin as (l1 & l2 & Hsplit).
  assert (NoDup (NBUF :: l1 ++ i :: l2)) as Hnd.
  { rewrite <- Hsplit. apply NoDup_cons. split; [|apply Hc].
    intros Hx%(c_all _ _ _ _ _ Hc). lia. }
  pose proof (c_ring _ _ _ _ _ Hc1) as Hr1. rewrite Hsplit in Hr1.
  pose proof HF as HF1. rewrite Hsplit in HF1.
  destruct (unlink_ring (bufs s1) l1 i l2 b' (c_len _ _ _ _ _ Hc1) Hnd HF1 Hr1 Hb1)
    as [Hr2 Hcore2].
  set (L2 := alter (set_next (next b')) (prev b') (alter (set_prev (prev b')) (next b') (bufs s1))) in *.
  set (s2 := set_bufs L2 (set_bcache_lock true s)).
  destruct (link_front_spec s2 i (l1 ++ l2)) as (L3 & Hrun & Hr3 & Hcore3).
  - apply (f_equal length) in Hcore2. rewrite !length_map in Hcore2.
    change (length L2 = S NBUF). rewrite Hcore2. apply Hc1.
  - apply NoDup_cons in Hnd as [Hh Hnd]. apply NoDup_cons. split.
    + intros Hx. apply Hh. set_solver.
    + apply (NoDup_Permutation_proper (l1 ++ i :: l2)); [solve_Permutation|done].
  - done.
  - apply Forall_app in HF1 as [? HF2]. apply Forall_cons in HF2 as [_ ?]. by apply Forall_app.
  - exact Hr2.
  - exists L3, (i :: l1 ++ l2). split_and!.
    + unfold brelse. rewrite (bind_ok _ _ _ _ _ (holdingsleep_run i b s Hb)).
      rewrite bool_decide_true by done. cbn [negb]. unfold releasesleep.
      rewrite (bind_ok _ _ _ _ _ (updb_at i _ b s Hb)).
      rewrite (bind_ok _ _ _ _ _ (acquire_run (setb i _ s) (c_lock _ _ _ _ _ Hc))).
      set (s0 := set_bcache_lock true _).
      assert (bufs s0 !! i = Some (set_lock None b)) as Hb0 by (by apply (setb_at i _ b s)).
      rewrite (bind_ok _ _ _ _ _ (updb_at i _ _ s0 Hb0)).
      change (refcnt (set_lock None b)) with (refcnt b). rewrite Hr. change (w32 (1 - 1)) with 0.
      change (set_refcnt 0 (set_lock None b)) with b'.
      rewrite (bind_ok _ _ _ _ _ (getb_run i _ _ (setb_at i b' _ s0 Hb0))).
      cbn [refcnt b' set_refcnt]. rewrite Z.eqb_refl. cbn [when]. unfold updb. mrun.
      assert (set_bufs (alter (set_next (prev b')) (prev b') (bufs s0)) s0 = s0 -> True) as _ by done.
      match goal with |- (link_front i ≫= _) ?x = _ => assert (x = s2) as -> end.
      { unfold s2, L2, s1, setb, s0. simpl. by rewrite list_insert_insert_eq. }
      rewrite (bind_ok _ _ _ _ _ Hrun). rewrite release_run by done.
      do 2 f_equal. unfold s2. pose proof (c_lock _ _ _ _ _ Hc) as Hlk.
      destruct s; simpl in *. by rewrite Hlk.
    + rewrite Hsplit. solve_Permutation.
    + done.
    + apply (cache_pointers s1 _ l _ _ _ _ Hc1); simpl; try done.
      * by rewrite Hcore3.
      * rewrite Hsplit. solve_Permutation.
      * apply Hc.
Qed.
End Ops.
