(* ===== verification/Ide.v ===== *)
(** * The disk driver

    [lab-2/ide.c] over the ports of the controller.  The buffers are those of [Bcache] with the
    field [qnext] beside them.  A call of [iderw] is cut where it sleeps: [iderw_call] goes up
    to the first sleep, [iderw_resume] is what the process does each time it is woken. *)

From S2P Require Import Prelude Bcache.

Definition SECTOR_SIZE : Z := 512.
Definition IDE_BSY : Z := 0x80.
Definition IDE_DRDY : Z := 0x40.
Definition IDE_DF : Z := 0x20.
Definition IDE_ERR : Z := 0x01.
Definition IDE_CMD_READ : Z := 0x20.
Definition IDE_CMD_WRITE : Z := 0x30.
Definition IDE_CMD_RDMUL : Z := 0xc4.
Definition IDE_CMD_WRMUL : Z := 0xc5.
Definition FSSIZE : nat := 1000.

(** The controller behind the ports; [patience] bounds how often its status has to be read
    until it is ready. *)
Class Controller := {
  device : Type;
  inb : Z -> device -> Z * device;
  outb : Z -> Z -> device -> device;
  insl : Z -> nat -> device -> block * device;
  outsl : Z -> block -> device -> device;
  patience : device -> nat
}.

Section Driver.
Context `{Controller}.

(** The buffers, the list of requests through [qnext], the static variables of the driver,
    the channels on which it woke processes, and the controller. *)
Record driver := Driver {
  dbufs : list buf;
  qnext : list (option nat);
  idequeue : option nat;
  havedisk1 : bool;
  idelock : bool;
  woken : list nat;
  ctl : device
}.

Definition set_dbufs v s := Driver v (qnext s) (idequeue s) (havedisk1 s) (idelock s) (woken s) (ctl s).
Definition set_qnext v s := Driver (dbufs s) v (idequeue s) (havedisk1 s) (idelock s) (woken s) (ctl s).
Definition set_idequeue v s := Driver (dbufs s) (qnext s) v (havedisk1 s) (idelock s) (woken s) (ctl s).
Definition set_havedisk1 v s := Driver (dbufs s) (qnext s) (idequeue s) v (idelock s) (woken s) (ctl s).
Definition set_idelock v s := Driver (dbufs s) (qnext s) (idequeue s) (havedisk1 s) v (woken s) (ctl s).
Definition set_woken v s := Driver (dbufs s) (qnext s) (idequeue s) (havedisk1 s) (idelock s) v (ctl s).
Definition set_ctl v s := Driver (dbufs s) (qnext s) (idequeue s) (havedisk1 s) (idelock s) (woken s) v.

Abbreviation Dm := (M driver).

Definition buf_at (i : nat) : Dm buf := s ← get; lift_opt "buf" (dbufs s !! i).
Definition upd_buf (i : nat) (f : buf -> buf) : Dm unit := modify (fun s => set_dbufs (alter f i (dbufs s)) s).

Definition acquire_ide : Dm unit := s ← get; if idelock s then panic "acquire" else put (set_idelock true s).
Definition release_ide : Dm unit := s ← get; if idelock s then put (set_idelock false s) else panic "release".

Definition in_port (p : Z) : Dm Z := s ← get; let '(x, d) := inb p (ctl s) in modify (set_ctl d) ;; mret x.
Definition out_port (p x : Z) : Dm unit := modify (fun s => set_ctl (outb p x (ctl s)) s).

Fixpoint wait_ready (fuel : nat) : Dm Z :=
  match fuel with
  | O => diverge
  | S fuel' =>
      r ← in_port 0x1f7;
      if negb (Z.land r (Z.lor IDE_BSY IDE_DRDY) =? IDE_DRDY) then wait_ready fuel' else mret r
  end.

Definition idewait (checkerr : bool) : Dm Z :=
  s ← get;
  r ← wait_ready (S (patience (ctl s)));
  if checkerr && negb (Z.land r (Z.lor IDE_DF IDE_ERR) =? 0) then mret (-1) else mret 0.

(** The controller of the second disk answers when there is one. *)
Fixpoint probe (n : nat) : Dm unit :=
  match n with
  | O => mret tt
  | S n' => r ← in_port 0x1f7; if negb (r =? 0) then modify (set_havedisk1 true) else probe n'
  end.

Definition ideinit : Dm unit :=
  modify (set_idelock false) ;;
  idewait false ;;
  out_port 0x1f6 (Z.lor 0xe0 (Z.shiftl 1 4)) ;;
  probe 1000 ;;
  out_port 0x1f6 (Z.lor 0xe0 (Z.shiftl 0 4)).

Definition idestart (b : option nat) : Dm unit :=
  match b with
  | None => panic "idestart"
  | Some i =>
      x ← buf_at i;
      if (FSSIZE <=? blockno x)%nat then panic "incorrect blockno"
      else
        let sector_per_block := Z.of_nat BSIZE / SECTOR_SIZE in
        let sector := i32 (Z.of_nat (blockno x) * sector_per_block) in
        let read_cmd := if sector_per_block =? 1 then IDE_CMD_READ else IDE_CMD_RDMUL in
        let write_cmd := if sector_per_block =? 1 then IDE_CMD_WRITE else IDE_CMD_WRMUL in
        if 7 <? sector_per_block then panic "idestart"
        else
          idewait false ;;
          out_port 0x3f6 0 ;;
          out_port 0x1f2 sector_per_block ;;
          out_port 0x1f3 (Z.land sector 0xff) ;;
          out_port 0x1f4 (Z.land (Z.shiftr sector 8) 0xff) ;;
          out_port 0x1f5 (Z.land (Z.shiftr sector 16) 0xff) ;;
          out_port 0x1f6 (Z.lor (Z.lor 0xe0 (Z.shiftl (Z.land (dev x) 1) 4)) (Z.land (Z.shiftr sector 24) 0x0f)) ;;
          if negb (Z.land (flags x) B_DIRTY =? 0) then
            out_port 0x1f7 write_cmd ;;
            modify (fun s => set_ctl (outsl 0x1f0 (data x) (ctl s)) s)
          else out_port 0x1f7 read_cmd
  end.

Definition ideintr : Dm unit :=
  acquire_ide ;;
  s ← get;
  match idequeue s with
  | None => release_ide
  | Some i =>
      q ← lift_opt "buf" (qnext s !! i);
      modify (set_idequeue q) ;;
      x ← buf_at i;
      (if Z.land (flags x) B_DIRTY =? 0 then
         r ← idewait true;
         when (0 <=? r)
           (s ← get; let '(w, d) := insl 0x1f0 (BSIZE / 4) (ctl s) in
            modify (set_ctl d) ;; upd_buf i (set_data w))
       else mret tt) ;;
      upd_buf i (fun x => set_flags (Z.lor (flags x) B_VALID) x) ;;
      upd_buf i (fun x => set_flags (Z.land (flags x) (Z.lnot B_DIRTY)) x) ;;
      modify (fun s => set_woken (woken s ++ [i]) s) ;;
      q ← gets idequeue;
      when (bool_decide (q <> None)) (idestart q) ;;
      release_ide
  end.

(** The walk of the pointer [pp] to the end of the list: the last buffer of the list, whose
    [qnext] is where the new one goes, or [None] for [idequeue] itself. *)
Fixpoint find_end (fuel : nat) (pp : option nat) (x : option nat) : Dm (option nat) :=
  match fuel, x with
  | O, _ => diverge
  | _, None => mret pp
  | S fuel', Some i => s ← get; q ← lift_opt "buf" (qnext s !! i); find_end fuel' (Some i) q
  end.

(** The request is not finished. *)
Definition waiting (x : buf) : bool := negb (Z.land (flags x) (Z.lor B_VALID B_DIRTY) =? B_VALID).

(** [iderw] up to its first sleep, which gives the lock back. *)
Definition iderw_call (p : Z) (i : nat) : Dm unit :=
  x ← buf_at i;
  if negb (bool_decide (lock x = Some p)) then panic "iderw: buf not locked"
  else if Z.land (flags x) (Z.lor B_VALID B_DIRTY) =? B_VALID then panic "iderw: nothing to do"
  else
    s ← get;
    if negb (dev x =? 0) && negb (havedisk1 s) then panic "iderw: ide disk 1 not present"
    else
      acquire_ide ;;
      modify (fun s => set_qnext (<[i := None]> (qnext s)) s) ;;
      s ← get;
      pp ← find_end (S (length (dbufs s))) None (idequeue s);
      (match pp with
       | None => modify (set_idequeue (Some i))
       | Some j => modify (fun s => set_qnext (<[j := Some i]> (qnext s)) s)
       end) ;;
      q ← gets idequeue;
      when (bool_decide (q = Some i)) (idestart (Some i)) ;;
      release_ide.

(** After a wake-up: the call is over, or it sleeps again. *)
Definition iderw_resume (i : nat) : Dm bool :=
  acquire_ide ;;
  x ← buf_at i;
  release_ide ;;
  mret (negb (waiting x)).
End Driver.
