(* ===== verification/IdeSpec.v ===== *)
(** * What the disk driver relies on and what it promises

    The controller as its documentation describes it, and requests that are served one after
    the other, each as the disk in memory serves it. *)

From S2P Require Import Prelude Bcache Ide.

(** ** The controller *)

(** It waits for a command, has the data of a sector to give, or waits for the data of one. *)
Inductive phase := Ready | Reading (drive n : Z) | Wanting (drive n : Z).

(** The drive and the sector that the registers choose. *)
Definition drive_of (r : Z -> Z) : Z := Z.land (Z.shiftr (r 0x1f6) 4) 1.
Definition sector_of (r : Z -> Z) : Z :=
  Z.lor (Z.lor (r 0x1f3) (Z.shiftl (r 0x1f4) 8))
    (Z.lor (Z.shiftl (r 0x1f5) 16) (Z.shiftl (Z.land (r 0x1f6) 0x0f) 24)).

(** The status that lets the driver go on, and the one that tells of an error. *)
Definition is_ready (st : Z) : bool := Z.land st (Z.lor IDE_BSY IDE_DRDY) =? IDE_DRDY.
Definition reports (st : Z) : bool := negb (Z.land st (Z.lor IDE_DF IDE_ERR) =? 0).

(** A command to read that ends with an error has no data to give. *)
Definition settled (failed : bool) (ph : phase) : phase :=
  match ph with Reading _ _ => if failed then Ready else ph | _ => ph end.

(** The registers, the disks and the phase that the ports show.  After a command the controller
    is busy, until its status says otherwise; it becomes ready in the end and then reports
    whether its last command failed.  Any command may fail: then a read has no data, and a
    write leaves the disk as it is.  The driver writes the data of a block without asking. *)
Class ControllerLaws (C : Controller) := {
  phase_of : device -> phase;
  ready : device -> Prop;
  failed : device -> bool;
  reg : device -> Z -> Z;
  sector : device -> Z -> Z -> block;
  status_law d st d' : inb 0x1f7 d = (st, d') ->
    failed d' = failed d /\ (forall k n, sector d' k n = sector d k n) /\
    (if is_ready st then ready d' /\ reports st = failed d /\ phase_of d' = settled (failed d) (phase_of d)
     else (patience d' < patience d)%nat /\ phase_of d' = phase_of d);
  register_law d p x : phase_of d = Ready -> ready d -> p ∈ [0x3f6; 0x1f2; 0x1f3; 0x1f4; 0x1f5; 0x1f6] ->
    phase_of (outb p x d) = Ready /\ ready (outb p x d) /\
    (forall k n, sector (outb p x d) k n = sector d k n) /\
    (forall p', reg (outb p x d) p' = if p' =? p then x else reg d p');
  read_law d : phase_of d = Ready -> ready d -> reg d 0x1f2 = 1 ->
    phase_of (outb 0x1f7 IDE_CMD_READ d) = Reading (drive_of (reg d)) (sector_of (reg d)) /\
    (forall k n, sector (outb 0x1f7 IDE_CMD_READ d) k n = sector d k n);
  write_law d : phase_of d = Ready -> ready d -> reg d 0x1f2 = 1 ->
    phase_of (outb 0x1f7 IDE_CMD_WRITE d) = Wanting (drive_of (reg d)) (sector_of (reg d)) /\
    (forall k n, sector (outb 0x1f7 IDE_CMD_WRITE d) k n = sector d k n);
  insl_law d k n w d' : phase_of d = Reading k n -> ready d -> failed d = false -> insl 0x1f0 (BSIZE / 4) d = (w, d') ->
    w = sector d k n /\ phase_of d' = Ready /\ (forall k' n', sector d' k' n' = sector d k' n');
  outsl_law d k n w : phase_of d = Wanting k n -> length w = BSIZE ->
    phase_of (outsl 0x1f0 w d) = Ready /\ failed (outsl 0x1f0 w d) = failed d /\
    (forall k' n', sector (outsl 0x1f0 w d) k' n' =
       if negb (failed d) && ((k' =? k) && (n' =? n)) then w else sector d k' n')
}.

(** ** Requests *)

(** The calls and the interrupts in the order in which they happen; in between the processes
    that hold other buffers change them. *)
Inductive event :=
  | Request (p : Z) (i : nat)
  | Interrupt
  | Resume (i : nat)
  | Change (i : nat) (x : buf).

Definition with_me (p : Z) (st : store) : store :=
  Store p (memdisk st) (writes st) (bufs st) (bcache_lock st) (lg st) (log_lock st) (log_wakeups st).

(** The requests that wait, in order, those that are served but whose process has not gone on,
    the channels on which processes were woken, in order, and the disk in memory. *)
Record requests := Requests { waiting_for : list nat; finished : list nat; roused : list nat; rs_store : store }.

(** A buffer that may be given to the driver. *)
Record good_request (p : Z) (x : buf) : Prop := GoodRequest {
  gr_lock : lock x = Some p;
  gr_waiting : waiting x = true;
  gr_dev : dev x = 1;
  gr_block : (blockno x < FSSIZE)%nat;
  gr_data : length (data x) = BSIZE
}.

(** What is left of a request that the controller could not serve: the buffer passes for read or
    written, and neither its data nor the disk changed. *)
Definition spoiled (i : nat) (st : store) : store :=
  set_bufs (alter (fun x => set_flags (Z.land (Z.lor (flags x) B_VALID) (Z.lnot B_DIRTY)) x) i (bufs st)) st.

(** The events with what is seen of them: whether the controller did what it was asked for, and
    whether a process that was woken goes on. *)
Inductive spec_step : event -> option bool -> requests -> requests -> Prop :=
| spec_request p i q d c st x : bufs st !! i = Some x -> good_request p x -> i ∉ q -> i ∉ d ->
    spec_step (Request p i) None (Requests q d c st) (Requests (q ++ [i]) d c st)
| spec_idle d c st : spec_step Interrupt None (Requests [] d c st) (Requests [] d c st)
| spec_serve i q d c st st' x p : bufs st !! i = Some x -> lock x = Some p ->
    Bcache.iderw i (with_me p st) = Ok (tt, st') ->
    spec_step Interrupt (Some true) (Requests (i :: q) d c st) (Requests q (i :: d) (c ++ [i]) st')
| spec_spoil i q d c st :
    spec_step Interrupt (Some false) (Requests (i :: q) d c st) (Requests q (i :: d) (c ++ [i]) (spoiled i st))
| spec_goes_on i q d1 d2 c st :
    spec_step (Resume i) (Some true) (Requests q (d1 ++ i :: d2) c st) (Requests q (d1 ++ d2) c st)
| spec_waits i q d c st : i ∈ q -> spec_step (Resume i) (Some false) (Requests q d c st) (Requests q d c st)
| spec_change i x q d c st : i ∉ q -> i ∉ d -> (i < length (bufs st))%nat ->
    spec_step (Change i x) None (Requests q d c st) (Requests q d c (set_bufs (<[i := x]> (bufs st)) st)).

Inductive spec_steps : list event -> list (option bool) -> requests -> requests -> Prop :=
| spec_done r : spec_steps [] [] r r
| spec_more e o es os r1 r2 r3 : spec_step e o r1 r2 -> spec_steps es os r2 r3 ->
    spec_steps (e :: es) (o :: os) r1 r3.

(** What may happen next: a process calls with a buffer that it holds, or is woken in its call,
    or changes a buffer that the driver does not have; interrupts come at any time. *)
Definition may_happen (e : event) (r : requests) : Prop :=
  match e with
  | Request p i => (exists x, bufs (rs_store r) !! i = Some x /\ good_request p x) /\
      (i ∉ waiting_for r) /\ (i ∉ finished r)
  | Interrupt => True
  | Resume i => (i ∈ waiting_for r) \/ (i ∈ finished r)
  | Change i _ => (i ∉ waiting_for r) /\ (i ∉ finished r) /\ (i < length (bufs (rs_store r)))%nat
  end.

(** Events that may happen one after the other, whatever the controller does. *)
Inductive possible : list event -> requests -> Prop :=
| possible_done r : possible [] r
| possible_more e es r : may_happen e r -> (forall o r', spec_step e o r r' -> possible es r') ->
    possible (e :: es) r.

Section Spec.
Context `{L : ControllerLaws}.

Definition run_event (e : event) : M driver (option bool) :=
  match e with
  | Request p i => iderw_call p i ;; mret None
  | Interrupt =>
      s ← get;
      ideintr ;;
      mret (match idequeue s with Some _ => Some (negb (failed (ctl s))) | None => None end)
  | Resume i => b ← iderw_resume i; mret (Some b)
  | Change i x => upd_buf i (fun _ => x) ;; mret None
  end.

Fixpoint run_events (es : list event) : M driver (list (option bool)) :=
  match es with
  | [] => mret []
  | e :: es' => o ← run_event e; os ← run_events es'; mret (o :: os)
  end.

(** The requests of the driver's list. *)
Fixpoint queue (qn : list (option nat)) (x : option nat) (q : list nat) : Prop :=
  match q with
  | [] => x = None
  | i :: q' => x = Some i /\ exists y, qn !! i = Some y /\ queue qn y q'
  end.

Definition dirty (x : buf) : bool := negb (Z.land (flags x) B_DIRTY =? 0).

(** The second disk has the blocks of the disk in memory. *)
Definition shows (d : device) (blocks : list block) : Prop :=
  forall n, (n < FSSIZE)%nat -> blocks !! n = Some (sector d 1 (Z.of_nat n)).

(** The controller works for the first request: what is to be written it has already, unless it
    fails. *)
Definition serving (d : device) (st : store) (q : list nat) : Prop :=
  match q with
  | [] => phase_of d = Ready /\ shows d (memdisk st)
  | i :: _ => exists x, bufs st !! i = Some x /\
      if dirty x then phase_of d = Ready /\
        shows d (if failed d then memdisk st else <[blockno x := data x]> (memdisk st))
      else phase_of d = Reading 1 (Z.of_nat (blockno x)) /\ shows d (memdisk st)
  end.

Record refines (s : driver) (r : requests) : Prop := Refines {
  rf_bufs : dbufs s = bufs (rs_store r);
  rf_queue : queue (qnext s) (idequeue s) (waiting_for r);
  rf_nodup : NoDup (waiting_for r ++ finished r);
  rf_length : length (qnext s) = length (dbufs s);
  rf_lock : idelock s = false;
  rf_disk1 : havedisk1 s = true;
  rf_waiting : forall i, i ∈ waiting_for r -> exists x p, dbufs s !! i = Some x /\ good_request p x;
  rf_finished : forall i, i ∈ finished r -> exists x, dbufs s !! i = Some x /\ waiting x = false;
  rf_size : length (memdisk (rs_store r)) = FSSIZE;
  rf_woken : woken s = roused r;
  rf_ctl : serving (ctl s) (rs_store r) (waiting_for r)
}.
End Spec.
