(* ===== verification/IdeProps.v ===== *)
(** * The disk driver: its properties *)

From S2P Require Import Prelude Bcache Ide IdeSpec.

Section Props.
Context `{L : ControllerLaws}.

(** ** The ports *)

Lemma wait_ready_run s fuel : (patience (ctl s) < fuel)%nat ->
  exists st d, wait_ready fuel s = Ok (st, set_ctl d s) /\ reports st = failed (ctl s) /\ failed d = failed (ctl s) /\
    phase_of d = settled (failed (ctl s)) (phase_of (ctl s)) /\ ready d /\
    (forall k n, sector d k n = sector (ctl s) k n).
Proof.
  revert s. induction fuel as [|fuel IH]; intros s Hf; [lia|]. cbn [wait_ready].
  destruct (inb 0x1f7 (ctl s)) as [st d] eqn:Hin. destruct (status_law _ _ _ Hin) as (He & Hs & Hr).
  assert (in_port 0x1f7 s = Ok (st, set_ctl d s)) as R.
  { unfold in_port. rewrite bind_get, Hin. done. }
  mstep R. fold (is_ready st). destruct (is_ready st); cbn [negb].
  - exists st, d. destruct Hr as (? & ? & ?). done.
  - destruct Hr as [Hr Hp]. destruct (IH (set_ctl d s) ltac:(cbn; lia)) as (st' & d' & R' & Hre & He' & Hp' & Hr' & Hs').
    cbn in *. exists st', d'. split; [exact R'|]. rewrite <- He, <- Hp. split; [congruence|]. split; [congruence|]. split; [congruence|]. split; [done|].
    intros k n. by rewrite Hs', Hs.
Qed.

Lemma idewait_run b s : exists d, idewait b s = Ok (if b && failed (ctl s) then -1 else 0, set_ctl d s) /\
  failed d = failed (ctl s) /\ phase_of d = settled (failed (ctl s)) (phase_of (ctl s)) /\ ready d /\
  (forall k n, sector d k n = sector (ctl s) k n).
Proof.
  unfold idewait. rewrite bind_get.
  destruct (wait_ready_run s (S (patience (ctl s))) ltac:(lia)) as (st & d & R & He & Hf).
  mstep R. fold (reports st). rewrite He. exists d. by destruct (b && failed (ctl s)).
Qed.

(** The registers that [idestart] writes choose the sector: all of them are tried. *)
Definition drive_reg (b n : Z) : Z := Z.lor (Z.lor 0xe0 (Z.shiftl b 4)) (Z.land (Z.shiftr n 24) 0x0f).

Definition lba_ok (b n : Z) : bool :=
  (Z.land (Z.shiftr (drive_reg b n) 4) 1 =? b) &&
  (Z.lor (Z.lor (Z.land n 0xff) (Z.shiftl (Z.land (Z.shiftr n 8) 0xff) 8))
     (Z.lor (Z.shiftl (Z.land (Z.shiftr n 16) 0xff) 16) (Z.shiftl (Z.land (drive_reg b n) 0x0f) 24)) =? n).

Lemma lba_all : forallb (fun b => forallb (fun n => lba_ok (Z.of_nat b) (Z.of_nat n)) (seq 0 FSSIZE)) (seq 0 2) = true.
Proof using Type. by vm_compute. Qed.

Lemma chosen_sector (n : nat) dv r : (n < FSSIZE)%nat -> let b := Z.land dv 1 in let sec := Z.of_nat n in
  r 0x1f3 = Z.land sec 0xff -> r 0x1f4 = Z.land (Z.shiftr sec 8) 0xff -> r 0x1f5 = Z.land (Z.shiftr sec 16) 0xff ->
  r 0x1f6 = drive_reg b sec -> drive_of r = b /\ sector_of r = sec.
Proof using Type.
  intros Hn b sec H3 H4 H5 H6. unfold drive_of, sector_of. rewrite H3, H4, H5, H6.
  assert (exists c, (c < 2)%nat /\ b = Z.of_nat c) as (c & Hc & Hb).
  { exists (Z.to_nat b). unfold b. change 1 with (Z.ones 1). rewrite Z.land_ones by lia.
    pose proof (Z.mod_pos_bound dv (2 ^ 1)). lia. }
  pose proof lba_all as Hall. rewrite forallb_forall in Hall.
  specialize (Hall c ltac:(apply in_seq; lia)). rewrite forallb_forall in Hall.
  specialize (Hall n ltac:(apply in_seq; lia)). rewrite <- Hb in Hall. fold sec in Hall.
  unfold lba_ok in Hall. apply andb_true_iff in Hall as [?%Z.eqb_eq ?%Z.eqb_eq]. done.
Qed.

(** Writing a register of a controller that is ready. *)
Lemma out_port_run {A} p x s d (f : unit -> M driver A) :
  phase_of d = Ready -> ready d -> p ∈ [0x3f6; 0x1f2; 0x1f3; 0x1f4; 0x1f5; 0x1f6] ->
  exists d', (out_port p x ≫= f) (set_ctl d s) = f tt (set_ctl d' s) /\ phase_of d' = Ready /\ ready d' /\
    (forall k n, sector d' k n = sector d k n) /\ (forall p', reg d' p' = if p' =? p then x else reg d p').
Proof.
  intros Hp Hr Hin. destruct (register_law d p x Hp Hr Hin) as (? & ? & ? & ?). by exists (outb p x d).
Qed.

(** Steps over the next write to a register. *)
Ltac write_reg d Hp Hr Hs Hg :=
  match goal with
  | |- context [(out_port ?p ?v ≫= ?f) (set_ctl ?d0 ?s)] =>
      destruct (out_port_run p v s d0 f) as (d & -> & Hp & Hr & Hs & Hg);
        [done|done|repeat first [by left|right]|]
  end.

(** [idestart] gives the request to the controller. *)
Lemma idestart_run i s x : dbufs s !! i = Some x -> (blockno x < FSSIZE)%nat -> length (data x) = BSIZE ->
  phase_of (ctl s) = Ready -> exists d, idestart (Some i) s = Ok (tt, set_ctl d s) /\
    let k := Z.land (dev x) 1 in let n := Z.of_nat (blockno x) in
    if dirty x then phase_of d = Ready /\
      (forall k' n', sector d k' n' =
         if negb (failed d) && ((k' =? k) && (n' =? n)) then data x else sector (ctl s) k' n')
    else phase_of d = Reading k n /\ (forall k' n', sector d k' n' = sector (ctl s) k' n').
Proof.
  intros Hx Hb Hd Hp. unfold idestart, buf_at. rewrite !bind_bind, bind_get, Hx. mrun.
  destruct (Nat.leb_spec FSSIZE (blockno x)); [lia|]. change (Z.of_nat BSIZE / SECTOR_SIZE) with 1. cbv zeta.
  rewrite Z.mul_1_r, i32_small by (unfold FSSIZE in Hb; lia). cbn [Z.ltb Z.compare Pos.compare Pos.compare_cont].
  destruct (idewait_run false s) as (d0 & R & _ & Hp0 & Hr0 & Hs0). mstep R. rewrite Hp in Hp0. cbn in Hp0. clear R.
  set (n := Z.of_nat (blockno x)). change (Z.lor (Z.lor 224 _) _) with (drive_reg (Z.land (dev x) 1) n).
  write_reg d1 Hp1 Hr1 Hs1 Hg1. write_reg d2 Hp2 Hr2 Hs2 Hg2. write_reg d3 Hp3 Hr3 Hs3 Hg3.
  write_reg d4 Hp4 Hr4 Hs4 Hg4. write_reg d5 Hp5 Hr5 Hs5 Hg5. write_reg d6 Hp6 Hr6 Hs6 Hg6.
  assert (reg d6 0x1f2 = 1) as H2 by by rewrite Hg6, Hg5, Hg4, Hg3, Hg2.
  destruct (chosen_sector (blockno x) (dev x) (reg d6) Hb) as [Hk Hn];
    [by rewrite Hg6, Hg5, Hg4, Hg3|by rewrite Hg6, Hg5, Hg4|by rewrite Hg6, Hg5|by rewrite Hg6|].
  assert (forall k' n', sector d6 k' n' = sector (ctl s) k' n') as Hs by (intros; congruence).
  fold (dirty x). destruct (dirty x).
  - destruct (write_law d6 Hp6 Hr6 H2) as [Hp7 Hs7]. rewrite Hk, Hn in Hp7. fold n in Hp7.
    destruct (outsl_law _ _ _ _ Hp7 Hd) as (Hp8 & Hf8 & Hs8).
    exists (outsl 0x1f0 (data x) (outb 0x1f7 IDE_CMD_WRITE d6)). split; [reflexivity|]. split; [done|].
    intros k' n'. by rewrite Hf8, Hs8, Hs7, Hs.
  - destruct (read_law d6 Hp6 Hr6 H2) as [Hp7 Hs7]. rewrite Hk, Hn in Hp7.
    eexists. split; [reflexivity|]. split; [done|]. intros k' n'. by rewrite Hs7, Hs.
Qed.

(** ** The list of requests *)

Lemma queue_frame qn qn' x q : (forall i, i ∈ q -> qn' !! i = qn !! i) -> queue qn x q -> queue qn' x q.
Proof.
  revert x. induction q as [|i q IH]; intros x Hq; cbn; [done|]. intros (-> & y & Hy & Hr). split; [done|].
  exists y. split; [rewrite Hq; [done|by left]|]. apply IH; [|done]. intros j Hj. apply Hq. by right.
Qed.

Lemma find_end_run s x pp q fuel : queue (qnext s) x q -> (length q < fuel)%nat ->
  find_end fuel pp x s = Ok (match last q with Some j => Some j | None => pp end, s).
Proof.
  revert x pp q. induction fuel as [|fuel IH]; intros x pp q Hq Hf; [lia|].
  destruct q as [|i q]; [by rewrite Hq|]. destruct Hq as (-> & y & Hy & Hq). cbn [find_end].
  rewrite bind_get, Hy. mrun. rewrite (IH y (Some i) q) by (done || cbn in Hf; lia). rewrite last_cons.
  by destruct (last q).
Qed.

(** What a new request at the end makes of the list. *)
Lemma queue_snoc qn x q i : queue qn x q -> i ∉ q -> NoDup q -> (i < length qn)%nat ->
  match last q with
  | None => queue (<[i := None]> qn) (Some i) (q ++ [i])
  | Some j => queue (<[j := Some i]> (<[i := None]> qn)) x (q ++ [i])
  end.
Proof.
  intros Hq Hi Hnd Hlen. revert x Hq. induction q as [|a q IH]; intros x Hq; cbn.
  - split; [done|]. exists None. by rewrite list_lookup_insert_eq.
  - destruct Hq as (-> & y & Hy & Hq). apply NoDup_cons in Hnd as [Ha Hnd]. apply not_elem_of_cons in Hi as [Hia Hi].
    specialize (IH Hi Hnd y Hq). change (last (a :: q)) with (last ([a] ++ q)). cbn [app].
    rewrite last_cons. destruct (last q) as [j|] eqn:Hj.
    + split; [done|]. exists y. split; [|done]. apply last_Some_elem_of in Hj.
      rewrite !list_lookup_insert_ne by (by intros ->). done.
    + apply last_None in Hj as ->. split; [done|]. exists (Some i). split.
      { rewrite list_lookup_insert_eq; [done|]. rewrite length_insert. by eapply lookup_lt_Some. }
      split; [done|]. exists None. split; [|done]. rewrite list_lookup_insert_ne by congruence.
      by rewrite list_lookup_insert_eq.
Qed.

Lemma nodup_bound q n : NoDup q -> (forall i, i ∈ q -> (i < n)%nat) -> (length q <= n)%nat.
Proof.
  intros Hnd Hq. rewrite <- (length_seq n 0). apply submseteq_length, NoDup_submseteq; [done|].
  intros i Hi. apply elem_of_seq. specialize (Hq i Hi). lia.
Qed.

Lemma alter_known {B} (f : B -> B) (l : list B) i x : l !! i = Some x -> alter f i l = <[i := f x]> l.
Proof.
  intros Hx. apply list_eq. intros j. destruct (decide (i = j)) as [->|Hne].
  - rewrite list_lookup_alter_eq, Hx, list_lookup_insert_eq; [done|]. by eapply lookup_lt_Some.
  - by rewrite list_lookup_alter_ne, list_lookup_insert_ne.
Qed.

Lemma alter_written {B} (f : B -> B) (l : list B) i x : (i < length l)%nat -> alter f i (<[i := x]> l) = <[i := f x]> l.
Proof. intros Hi. rewrite (alter_known f _ i x); [by rewrite list_insert_insert_eq|by apply list_lookup_insert_eq]. Qed.

(** ** The calls *)

(** The controller after [idestart] of the first request. *)
Lemma start_serving s st i q x p : dbufs s = bufs st -> dbufs s !! i = Some x -> good_request p x ->
  phase_of (ctl s) = Ready -> shows (ctl s) (memdisk st) ->
  exists d, idestart (Some i) s = Ok (tt, set_ctl d s) /\ serving d st (i :: q).
Proof.
  intros Hb Hx [_ _ Hdev Hblk Hdat] Hp Hsh. destruct (idestart_run i s x Hx Hblk Hdat Hp) as (d & R & Hd).
  exists d. split; [exact R|]. exists x. rewrite <- Hb. split; [done|]. rewrite Hdev in Hd.
  change (Z.land 1 1) with 1 in Hd. destruct (dirty x); destruct Hd as [Hph Hs]; (split; [done|]).
  - intros n Hn. rewrite Hs. destruct (failed d); [by apply Hsh|]. cbn. destruct (Z.eqb_spec (Z.of_nat n) (Z.of_nat (blockno x))) as [He|He].
    + apply Nat2Z.inj in He as ->. rewrite list_lookup_insert_eq; [done|].
      apply lookup_lt_is_Some. specialize (Hsh _ Hblk). by eexists.
    + rewrite list_lookup_insert_ne by lia. by apply Hsh.
  - intros n Hn. rewrite Hs. by apply Hsh.
Qed.

Lemma request_step s q d c st p i x : refines s (Requests q d c st) -> bufs st !! i = Some x ->
  good_request p x -> i ∉ q -> i ∉ d ->
  exists s', iderw_call p i s = Ok (tt, s') /\ refines s' (Requests (q ++ [i]) d c st).
Proof.
  intros [Hb Hq Hnd Hlen Hlk Hd1 Hw Hfin Hsz Hwk Hc] Hx Hg Hiq Hid. cbn [waiting_for finished roused rs_store] in *.
  rewrite <- Hb in Hx. pose proof Hnd as (Hndq & Hqd & _)%NoDup_app.
  pose proof (lookup_lt_Some _ _ _ Hx) as Hlt. rewrite <- Hlen in Hlt.
  unfold iderw_call, buf_at. rewrite !bind_bind, bind_get, Hx. mrun.
  rewrite bool_decide_true by apply (gr_lock _ _ Hg). cbn [negb].
  pose proof (gr_waiting _ _ Hg) as Hwx. unfold waiting in Hwx. apply negb_true_iff in Hwx. rewrite Hwx. mrun.
  rewrite Hd1, andb_false_r. unfold acquire_ide. rewrite bind_bind, bind_get, Hlk, bind_put, bind_modify, bind_get.
  assert (queue (qnext s) (idequeue s) q) as Hq0 by done. apply (queue_frame _ (<[i := None]> (qnext s))) in Hq0.
  2:{ intros j Hj. apply list_lookup_insert_ne. by intros ->. }
  set (s1 := set_qnext (<[i := None]> (qnext s)) (set_idelock true s)).
  assert (length q < S (length (dbufs s)))%nat as Hfuel.
  { apply Nat.lt_succ_r, nodup_bound; [done|]. intros j Hj. destruct (Hw j Hj) as (y & _ & Hy & _).
    by eapply lookup_lt_Some. }
  change (set_qnext _ (set_idelock true s)) with s1. change (dbufs s1) with (dbufs s).
  mstep (find_end_run s1 (idequeue s1) None q (S (length (dbufs s))) Hq0 Hfuel).
  pose proof (queue_snoc _ _ _ i Hq Hiq Hndq Hlt) as Hsn.
  assert (NoDup ((q ++ [i]) ++ d)) as Hnd'.
  { rewrite <- app_assoc, (Permutation_app_comm [i]), app_assoc. apply NoDup_app. split; [done|].
    split; [|apply NoDup_singleton]. intros j Hj ->%list_elem_of_singleton. set_solver. }
  assert (forall j, j ∈ q ++ [i] -> exists y k, dbufs s !! j = Some y /\ good_request k y) as Hw'.
  { intros j [Hj| ->%list_elem_of_singleton]%elem_of_app; [by apply Hw|by exists x, p]. }
  destruct q as [|h q]; cbn [last] in *.
  - rewrite bind_modify, bind_gets. rewrite bool_decide_true by done. rewrite bind_when_true.
    destruct (start_serving (set_idequeue (Some i) s1) st i [] x p Hb Hx Hg) as (d' & R & Hsv); [apply Hc|apply Hc|].
    mstep R. eexists. split; [reflexivity|]. split; cbn; try done. by rewrite length_insert.
  - destruct Hq as (Hh & y & Hy & Hq). destruct (last (h :: q)) as [j|] eqn:Hj; [|by apply last_None in Hj].
    rewrite bind_modify, bind_gets. cbn [idequeue set_qnext s1 set_idelock]. rewrite Hh.
    rewrite bool_decide_false by set_solver. rewrite bind_when_false. eexists. split; [reflexivity|].
    split; cbn; try done. by rewrite !length_insert.
Qed.

(** ** The interrupt *)

(** The buffer after it is served, with the block of the disk. *)
Definition done_buf (x : buf) (w : block) : buf :=
  let y := if dirty x then x else set_data w x in
  set_flags (Z.land (Z.lor (flags y) B_VALID) (Z.lnot B_DIRTY)) y.

Lemma done_flags f : Z.land (Z.lor f B_VALID) (Z.lnot B_DIRTY) = Z.lor (Z.land f (Z.lnot B_DIRTY)) B_VALID.
Proof using Type. by rewrite Z.land_lor_distr_l. Qed.

Lemma clean_flags f : Z.land f B_DIRTY = 0 -> Z.land f (Z.lnot B_DIRTY) = f.
Proof using Type.
  intros H. rewrite <- Z.ldiff_land. apply Z.bits_inj'. intros k Hk. rewrite Z.ldiff_spec.
  pose proof (f_equal (fun z => Z.testbit z k) H) as Hb. cbn in Hb. rewrite Z.land_spec, Z.bits_0 in Hb.
  destruct (Z.testbit f k), (Z.testbit B_DIRTY k); done.
Qed.

Lemma done_not_waiting x w : waiting (done_buf x w) = false.
Proof using Type.
  unfold waiting, done_buf. cbn [flags set_flags]. rewrite done_flags. apply negb_false_iff, Z.eqb_eq.
  set (f := flags _). change (Z.lor B_VALID B_DIRTY) with 6. apply Z.bits_inj'. intros k Hk.
  rewrite Z.land_spec, Z.lor_spec, Z.land_spec, Z.lnot_spec by done. unfold B_VALID, B_DIRTY.
  destruct (decide (k < 4)) as [Hlt|Hge].
  - assert (k = 0 \/ k = 1 \/ k = 2 \/ k = 3) as [->|[->|[->| ->]]] by lia; cbn; by rewrite ?andb_false_r, ?orb_true_r.
  - rewrite !(Z.bits_above_log2 2), !(Z.bits_above_log2 6) by (cbn; lia). by rewrite andb_false_r.
Qed.

(** The disk in memory serves the request. *)
Lemma memory_serves st i x p w : bufs st !! i = Some x -> good_request p x -> memdisk st !! blockno x = Some w ->
  Bcache.iderw i (with_me p st) =
    Ok (tt, set_bufs (<[i := done_buf x w]> (bufs st))
              (if dirty x then set_disk (<[blockno x := data x]> (memdisk st)) (writes st ++ [(blockno x, data x)])
                                 (with_me p st)
               else with_me p st)).
Proof using Type.
  intros Hx [Hl Hw Hd Hb Hdat] Hm. unfold Bcache.iderw, holdingsleep, getb.
  rewrite !bind_bind, bind_get. cbn [bufs with_me]. rewrite Hx. mrun. cbn [me with_me].
  rewrite Hl, bool_decide_true by done. cbn [negb]. rewrite !bind_bind, bind_get. cbn [bufs with_me]. rewrite Hx. mrun.
  unfold waiting in Hw. apply negb_true_iff in Hw. rewrite Hw, Hd. cbn [Z.eqb Pos.eqb negb]. mrun.
  cbn [memdisk with_me]. rewrite Hm. unfold done_buf. fold (dirty x). destruct (dirty x) eqn:Hdx; mrun.
  - unfold updb. mrun. unfold modify. do 2 f_equal. unfold set_bufs, set_disk, with_me. cbn. f_equal.
    rewrite (alter_known _ _ _ _ Hx), alter_written by (by eapply lookup_lt_Some). cbn. by rewrite done_flags.
  - unfold updb. mrun. unfold modify. do 2 f_equal. unfold set_bufs, with_me. cbn. f_equal.
    rewrite (alter_known _ _ _ _ Hx), alter_written by (by eapply lookup_lt_Some). cbn. rewrite done_flags. unfold dirty in Hdx. apply negb_false_iff, Z.eqb_eq in Hdx.
    by rewrite clean_flags.
Qed.

(** The buffer after the interrupt, and the disk. *)
Definition ended_buf (fails : bool) (x : buf) (w : block) : buf :=
  if fails then set_flags (Z.land (Z.lor (flags x) B_VALID) (Z.lnot B_DIRTY)) x else done_buf x w.

Lemma ended_not_waiting f x w : waiting (ended_buf f x w) = false.
Proof using Type.
  destruct f; [|apply done_not_waiting]. rewrite <- (done_not_waiting x w). unfold ended_buf, done_buf. by destruct (dirty x).
Qed.

(** The part of the handler that finishes the first request. *)
Lemma finish_run s st i q x : dbufs s = bufs st -> dbufs s !! i = Some x -> (blockno x < FSSIZE)%nat ->
  serving (ctl s) st (i :: q) ->
  exists w d, memdisk st !! blockno x = Some w /\ phase_of d = Ready /\
    shows d (if negb (failed (ctl s)) && dirty x then <[blockno x := data x]> (memdisk st) else memdisk st) /\
    forall (f : M driver unit),
    ((if Z.land (flags x) B_DIRTY =? 0 then
        r ← idewait true;
        when (0 <=? r)
          (s ← get; let '(w, d) := insl 0x1f0 (BSIZE / 4) (ctl s) in
           modify (set_ctl d) ;; upd_buf i (set_data w))
      else mret tt) ;;
     upd_buf i (fun x => set_flags (Z.lor (flags x) B_VALID) x) ;;
     upd_buf i (fun x => set_flags (Z.land (flags x) (Z.lnot B_DIRTY)) x) ;;
     f) s = f (set_dbufs (<[i := ended_buf (failed (ctl s)) x w]> (dbufs s)) (set_ctl d s)).
Proof.
  intros Hb Hx Hlt (x0 & Hx0 & Hc). rewrite <- Hb, Hx in Hx0. injection Hx0 as <-.
  pose proof (lookup_lt_Some _ _ _ Hx) as Hi. unfold ended_buf, done_buf. unfold dirty in *.
  destruct (Z.eqb_spec (Z.land (flags x) B_DIRTY) 0) as [Hd|Hd]; cbn [negb] in *; destruct Hc as [Hp Hs].
  - rewrite andb_false_r. pose proof (Hs _ Hlt) as Hw. set (w := sector (ctl s) 1 (Z.of_nat (blockno x))) in *.
    destruct (idewait_run true s) as (d0 & R & Hf0 & Hp0 & Hr0 & Hs0). rewrite Hp in Hp0. cbn [andb settled] in *.
    exists w. destruct (failed (ctl s)) eqn:Hf.
    + exists d0. split; [done|]. split; [done|]. split; [intros n Hn; rewrite Hs0; by apply Hs|].
      intros f. rewrite bind_bind. mstep R. unfold upd_buf. mrun. f_equal. unfold set_dbufs, set_ctl. cbn. f_equal.
      rewrite (alter_known _ _ _ _ Hx). by rewrite !alter_written by done.
    + destruct (insl 0x1f0 (BSIZE / 4) d0) as [w' d] eqn:Hin.
      destruct (insl_law _ _ _ _ _ Hp0 Hr0 Hf0 Hin) as (-> & Hp1 & Hs1).
      exists d. split; [done|]. split; [done|]. split.
      { intros n Hn. rewrite Hs1, Hs0. by apply Hs. }
      intros f. rewrite bind_bind. mstep R. unfold upd_buf. mrun. cbn [ctl set_ctl]. rewrite Hin. mrun.
      f_equal. unfold set_dbufs, set_ctl. cbn. f_equal. rewrite (alter_known _ _ _ _ Hx).
      rewrite !alter_written by done. cbn. by rewrite Hs0.
  - rewrite andb_true_r. pose proof (Hs (blockno x) Hlt) as Hw. assert (is_Some (memdisk st !! blockno x)) as [w Hw'].
    { apply lookup_lt_is_Some. apply lookup_lt_Some in Hw. destruct (failed (ctl s)); [done|]. by rewrite length_insert in Hw. }
    exists w, (ctl s). split; [done|]. split; [done|]. split; [by destruct (failed (ctl s))|]. intros f. unfold upd_buf. mrun.
    f_equal. destruct s. unfold set_dbufs, set_ctl. cbn in *. f_equal. rewrite (alter_known _ _ _ _ Hx).
    rewrite !alter_written by done. by destruct (failed _).
Qed.

(** What the interrupt makes of the disk in memory. *)
Lemma request_ends st i x p w q d c (fails : bool) : bufs st !! i = Some x -> good_request p x ->
  memdisk st !! blockno x = Some w ->
  exists st', spec_step Interrupt (Some (negb fails)) (Requests (i :: q) d c st) (Requests q (i :: d) (c ++ [i]) st') /\
    bufs st' = <[i := ended_buf fails x w]> (bufs st) /\
    memdisk st' = if negb fails && dirty x then <[blockno x := data x]> (memdisk st) else memdisk st.
Proof using Type.
  intros Hx Hg Hm. destruct fails; cbn [negb andb].
  - exists (spoiled i st). split; [apply spec_spoil|]. split; [|done]. cbn. by rewrite (alter_known _ _ _ _ Hx).
  - pose proof (memory_serves st i x p w Hx Hg Hm) as R. eexists. split.
    { apply (spec_serve i q d c st _ x p); [done|apply Hg|exact R]. }
    cbn. by destruct (dirty x).
Qed.

Lemma interrupt_step s i q d c st : refines s (Requests (i :: q) d c st) ->
  exists s' st', ideintr s = Ok (tt, s') /\
    spec_step Interrupt (Some (negb (failed (ctl s)))) (Requests (i :: q) d c st) (Requests q (i :: d) (c ++ [i]) st') /\
    refines s' (Requests q (i :: d) (c ++ [i]) st').
Proof.
  intros [Hb Hq Hnd Hlen Hlk Hd1 Hw Hfin Hsz Hwk Hc]. cbn [waiting_for finished roused rs_store] in *.
  destruct Hq as (Hh & y & Hy & Hq). destruct (Hw i) as (x & p & Hx & Hg); [by left|].
  pose proof (lookup_lt_Some _ _ _ Hx) as Hi.
  unfold ideintr, acquire_ide. rewrite bind_bind, bind_get, Hlk, bind_put, bind_get.
  cbn [idequeue set_idelock]. rewrite Hh. cbn [qnext set_idelock]. rewrite Hy. mrun.
  set (s1 := set_idequeue y (set_idelock true s)).
  unfold buf_at at 1. rewrite bind_bind, bind_get. change (dbufs s1) with (dbufs s). rewrite Hx. mrun.
  destruct (finish_run s1 st i q x Hb Hx (gr_block _ _ Hg) Hc) as (w & dv & Hmw & Hp & Hs & Hrun).
  rewrite Hrun. clear Hrun. mrun. change (ctl s1) with (ctl s) in *.
  set (s2 := set_woken _ _).
  destruct (request_ends st i x p w q d c (failed (ctl s)) ltac:(by rewrite <- Hb) Hg Hmw) as (st' & Hstep & Hb' & Hm').
  exists (set_idelock false (match q with [] => s2 | j :: _ =>
    match idestart (Some j) s2 with Ok (_, s3) => s3 | _ => s2 end end)), st'.
  assert (NoDup (q ++ i :: d)) as Hnd' by by rewrite <- (Permutation_middle q).
  assert (forall j, j ∈ q -> j <> i) as Hne by (intros j Hj ->; apply NoDup_cons in Hnd; set_solver).
  assert (forall j, j ∈ d -> j <> i) as Hne' by (intros j Hj ->; apply NoDup_cons in Hnd; set_solver).
  assert (dbufs s2 = bufs st') as Hb2 by (rewrite Hb', <- Hb; done).
  assert (shows (ctl s2) (memdisk st')) as Hsh by (rewrite Hm'; exact Hs).
  assert (length (memdisk st') = FSSIZE) as Hsz'.
  { rewrite Hm'. destruct (negb _ && dirty x); by rewrite ?length_insert. }
  assert (forall j, j <> i -> dbufs s2 !! j = dbufs s !! j) as Hfr.
  { intros j Hj. unfold s2. cbn. by rewrite list_lookup_insert_ne. }
  assert (forall j, j ∈ q -> exists y k, dbufs s2 !! j = Some y /\ good_request k y) as Hw'.
  { intros j Hj. rewrite Hfr by by apply Hne. apply Hw. by right. }
  assert (forall j, j ∈ i :: d -> exists y, dbufs s2 !! j = Some y /\ waiting y = false) as Hfin'.
  { intros j [->|Hj]%elem_of_cons.
    - exists (ended_buf (failed (ctl s)) x w). split; [|apply ended_not_waiting]. unfold s2. cbn. by rewrite list_lookup_insert_eq.
    - rewrite Hfr by by apply Hne'. by apply Hfin. }
  assert (woken s2 = c ++ [i]) as Hwk' by (rewrite <- Hwk; done).
  destruct q as [|j q].
  - cbn in Hq. subst y. rewrite bool_decide_false by (intros Hn; by apply Hn). rewrite bind_when_false.
    split; [reflexivity|]. split; [done|]. split; cbn [waiting_for finished roused rs_store]; try done.
    cbn. by rewrite length_insert.
  - destruct Hq as (-> & z & Hz & Hq). rewrite bool_decide_true by done. rewrite bind_when_true.
    destruct (Hw' j) as (u & k & Hu & Hgu); [by left|].
    destruct (start_serving s2 st' j q u k Hb2 Hu Hgu Hp Hsh) as (d2 & R & Hsv2). rewrite (bind_ok _ _ _ _ _ R), R.
    split; [reflexivity|]. split; [done|]. split; cbn [waiting_for finished roused rs_store]; try done.
    + cbn. split; [done|]. by exists z.
    + cbn. by rewrite length_insert.
Qed.

(** ** Runs *)

Lemma resume_run i s x : idelock s = false -> dbufs s !! i = Some x -> iderw_resume i s = Ok (negb (waiting x), s).
Proof.
  intros Hl Hx. unfold iderw_resume, acquire_ide, buf_at, release_ide. mrun. rewrite Hl. mrun.
  cbn [dbufs set_idelock]. rewrite Hx. mrun. destruct s. cbn in *. by subst.
Qed.

Lemma resume_step s i r : may_happen (Resume i) r -> refines s r ->
  exists b r', iderw_resume i s = Ok (b, s) /\ spec_step (Resume i) (Some b) r r' /\ refines s r'.
Proof.
  destruct r as [q d c st]. intros [Hi|Hi] Hr; cbn in Hi.
  - destruct (rf_waiting _ _ Hr i Hi) as (x & p & Hx & Hg). pose proof (resume_run i s x (rf_lock _ _ Hr) Hx) as R.
    rewrite (gr_waiting _ _ Hg) in R. exists false, (Requests q d c st). split; [exact R|]. split; [by apply spec_waits|done].
  - destruct (rf_finished _ _ Hr i Hi) as (x & Hx & Hw). pose proof (resume_run i s x (rf_lock _ _ Hr) Hx) as R.
    rewrite Hw in R. apply list_elem_of_split in Hi as (d1 & d2 & ->). exists true, (Requests q (d1 ++ d2) c st).
    split; [exact R|]. split; [apply spec_goes_on|]. destruct Hr. split; try done; cbn in *.
    + rewrite app_assoc in rf_nodup |- *. apply NoDup_app in rf_nodup as (? & Hd & [? ?]%NoDup_cons).
      apply NoDup_app. split; [done|]. split; [|done]. intros j Hj Hj2. apply (Hd j Hj). by right.
    + intros j Hj. apply rf_finished. set_solver.
Qed.

Lemma change_step s i x q d c st : may_happen (Change i x) (Requests q d c st) -> refines s (Requests q d c st) ->
  exists s', upd_buf i (fun _ => x) s = Ok (tt, s') /\
    refines s' (Requests q d c (set_bufs (<[i := x]> (bufs st)) st)).
Proof.
  intros (Hq & Hd & Hi) Hr. cbn in Hq, Hd, Hi. eexists. split; [reflexivity|]. destruct Hr. cbn in *. rewrite rf_bufs in *.
  assert (alter (fun _ => x) i (bufs st) = <[i := x]> (bufs st)) as Ha by by rewrite list_insert_alter.
  split; cbn; rewrite ?rf_bufs, ?Ha, ?length_insert; try done.
  - intros j Hj. rewrite list_lookup_insert_ne by (intros ->; contradiction). by apply rf_waiting.
  - intros j Hj. rewrite list_lookup_insert_ne by (intros ->; contradiction). by apply rf_finished.
  - destruct q as [|h q]; [done|]. destruct rf_ctl as (y & Hy & Hc). exists y.
    cbn. rewrite list_lookup_insert_ne by (intros ->; apply Hq; by left). done.
Qed.

Lemma driver_event_run e r s : may_happen e r -> refines s r ->
  exists o s' r', run_event e s = Ok (o, s') /\ spec_step e o r r' /\ refines s' r'.
Proof.
  intros He Hr. destruct r as [q d c st]. destruct e as [p i| |i|i x]; cbn [run_event].
  - destruct He as ((x & Hx & Hg) & Hq & Hd). cbn in Hx, Hq, Hd.
    destruct (request_step s q d c st p i x Hr Hx Hg Hq Hd) as (s' & R & Hr').
    exists None, s', (Requests (q ++ [i]) d c st). split; [by mstep R|]. split; [by eapply spec_request|done].
  - rewrite bind_get. destruct q as [|i q].
    + exists None, s, (Requests [] d c st). split; [|split; [constructor|done]].
      destruct Hr as [_ Hq _ _ Hl _ _ _ _ _ _]. cbn in Hq. rewrite Hq.
      unfold ideintr, acquire_ide, release_ide. mrun. rewrite Hl. mrun. cbn [idequeue set_idelock]. rewrite Hq. mrun.
      destruct s. cbn in *. by subst.
    + destruct (interrupt_step s i q d c st Hr) as (s' & st' & R & Hstep & Hr').
      pose proof (rf_queue _ _ Hr) as (Hh & _). rewrite Hh.
      exists (Some (negb (failed (ctl s)))), s', (Requests q (i :: d) (c ++ [i]) st'). by mstep R.
  - destruct (resume_step s i _ He Hr) as (b & r' & R & Hstep & Hr'). exists (Some b), s, r'. by mstep R.
  - destruct (change_step s i x q d c st He Hr) as (s' & R & Hr'). destruct He as (Hq & Hd & Hi).
    exists None, s', (Requests q d c (set_bufs (<[i := x]> (bufs st)) st)). split; [by mstep R|]. split; [by constructor|done].
Qed.

Lemma interrupts_serve r s : refines s r ->
  exists os s' r', run_events (repeat Interrupt (length (waiting_for r))) s = Ok (os, s') /\
    spec_steps (repeat Interrupt (length (waiting_for r))) os r r' /\ refines s' r' /\
    waiting_for r' = [] /\ woken s' = woken s ++ waiting_for r.
Proof.
  destruct r as [q d c st]. cbn [waiting_for]. revert d c st s. induction q as [|i q IH]; intros d c st s Hr; cbn [repeat length].
  - exists [], s, (Requests [] d c st). split; [done|]. split; [constructor|]. by rewrite app_nil_r.
  - destruct (interrupt_step s i q d c st Hr) as (s1 & st1 & R & Hstep & Hr1).
    destruct (IH _ _ _ _ Hr1) as (os & s' & r' & R' & Hsteps & Hr' & Hq & Hw).
    exists (Some (negb (failed (ctl s))) :: os), s', r'. split.
    { cbn [run_events run_event]. rewrite bind_bind, bind_get. pose proof (rf_queue _ _ Hr) as (Hh & _). rewrite Hh.
      rewrite bind_bind. mstep R. by mstep R'. }
    split; [by eapply spec_more|]. split; [done|]. split; [done|]. rewrite Hw.
    pose proof (rf_woken _ _ Hr1) as ->. pose proof (rf_woken _ _ Hr) as ->. cbn. by rewrite <- app_assoc.
Qed.

(** C26. The driver with its interrupts does what the disk in memory does: whatever requests,
    interrupts and wake-ups come in whatever order, the requests are served one by one in the
    order of the calls, each with the effect that iderw of memide.c has on the buffer and the
    disk, unless the controller fails: then the disk and the data of the buffer stay as they
    are, though the buffer passes for read or written.  The interrupt that ends a request wakes
    its process, a process goes on just when its request is over, and as many interrupts as
    there are requests end them all and wake their processes in order. *)
Theorem driver_is_the_memory_disk es r s : possible es r -> refines s r ->
  exists os s' r', run_events es s = Ok (os, s') /\ spec_steps es os r r' /\ refines s' r' /\
    exists os2 s2 r2, let n := length (waiting_for r') in
      run_events (repeat Interrupt n) s' = Ok (os2, s2) /\ spec_steps (repeat Interrupt n) os2 r' r2 /\
      refines s2 r2 /\ waiting_for r2 = [] /\ woken s2 = woken s' ++ waiting_for r'.
Proof.
  intros Hp. revert s. induction Hp as [r|e es r He _ IH]; intros s Hr.
  - exists [], s, r. split; [done|]. split; [constructor|]. split; [done|]. by apply interrupts_serve.
  - destruct (driver_event_run e r s He Hr) as (o & s1 & r1 & R1 & Hst & Hr1).
    destruct (IH o r1 Hst s1 Hr1) as (os & s2 & r2 & R2 & Hst2 & Hr2).
    exists (o :: os), s2, r2. split; [cbn; mstep R1; by mstep R2|]. split; [by eapply spec_more|done].
Qed.
End Props.

(** ** A controller *)

Module Example.
(** Two disks; the status says once that the controller is busy after each command, and sector 6
    of the second disk is bad. *)
Record card := Card { regs : Z -> Z; disks : Z -> Z -> block; doing : phase; busy : bool; bad : bool }.

Definition card_in (c : card) : Z * card :=
  if busy c then (IDE_BSY, Card (regs c) (disks c) (doing c) false (bad c))
  else (Z.lor IDE_DRDY (if bad c then IDE_ERR else 0), Card (regs c) (disks c) (settled (bad c) (doing c)) false (bad c)).

Definition card_out (p x : Z) (c : card) : card :=
  if p =? 0x1f7 then
    let k := drive_of (regs c) in let n := sector_of (regs c) in
    Card (regs c) (disks c) (if x =? IDE_CMD_READ then Reading k n else Wanting k n) true ((k =? 1) && (n =? 6))
  else Card (fun p' => if p' =? p then x else regs c p') (disks c) (doing c) (busy c) (bad c).

Definition card_put (w : block) (c : card) : card :=
  match doing c with
  | Wanting k n =>
      Card (regs c) (fun k' n' => if negb (bad c) && ((k' =? k) && (n' =? n)) then w else disks c k' n') Ready true (bad c)
  | _ => c
  end.

Definition card_get (c : card) : block * card :=
  match doing c with
  | Reading k n => (disks c k n, Card (regs c) (disks c) Ready (busy c) (bad c))
  | _ => ([], c)
  end.

#[local] Instance controller : Controller := {
  device := card;
  inb _ := card_in;
  outb := card_out;
  insl _ _ := card_get;
  outsl _ := card_put;
  patience c := if busy c then 1%nat else 0%nat
}.

#[local] Instance laws : ControllerLaws controller.
Proof.
  refine {| phase_of := doing : device -> phase; ready := fun c : device => busy c = false;
            failed := bad : device -> bool;
            reg := regs : device -> Z -> Z; sector := disks : device -> Z -> Z -> block |}.
  - intros [r ds ph bz bd] st d' Hin. cbn in Hin. unfold card_in in Hin. destruct bz, bd; injection Hin as <- <-;
      (split; [done|]; split; [done|]); cbn; (split; [first [done|exact Nat.lt_0_1]|done]).
  - intros d p x Hp Hr Hin. cbn. unfold card_out.
    assert ((p =? 0x1f7) = false) as ->; [|done].
    repeat (apply elem_of_cons in Hin as [->|Hin]; [done|]). by apply elem_of_nil in Hin.
  - done.
  - done.
  - intros d k n w d' Hp Hr Hf Hin. cbn in Hin, Hp. unfold card_get in Hin. rewrite Hp in Hin. by injection Hin as <- <-.
  - intros d k n w Hp Hw. cbn in *. unfold card_put. by rewrite Hp.
Defined.

Definition full (x : Z) : block := replicate BSIZE x.
Definition initial (n : Z) : block := if n =? 3 then full 3 else if n =? 6 then full 6 else [].

(** Buffers to be read from block 3, to be written to block 5 and to be read from block 6. *)
Definition three_bufs : list buf :=
  [Buf 0 1 3 (Some 7) 1 0 0 (full 0); Buf B_DIRTY 1 5 (Some 8) 1 0 0 (full 9); Buf 0 1 6 (Some 9) 1 0 0 (full 0)].
Definition start : driver :=
  Driver three_bufs [None; None; None] None true false [] (Card (fun _ => 0) (fun _ => initial) Ready false false : device).
Definition blocks : list block := (fun n => initial (Z.of_nat n)) <$> seq 0 FSSIZE.
Definition st0 : store := Store 0 blocks [] three_bufs false (Log 0 0 0 0 false 0 []) false 0.

Lemma start_refines : refines start (Requests [] [] [] st0).
Proof.
  split; [done|done|by apply NoDup_nil|done|done|done| | | |done|].
  - intros i Hi. by apply elem_of_nil in Hi.
  - intros i Hi. by apply elem_of_nil in Hi.
  - cbn [rs_store memdisk st0]. unfold blocks. by rewrite length_fmap, length_seq.
  - split; [done|]. intros n Hn. change (blocks !! n = Some (initial (Z.of_nat n))). unfold blocks. by rewrite list_lookup_fmap, lookup_seq_lt.
Qed.

Lemma possible_request p i q d c st es : (exists x, bufs st !! i = Some x /\ good_request p x) ->
  i ∉ q -> i ∉ d -> possible es (Requests (q ++ [i]) d c st) -> possible (Request p i :: es) (Requests q d c st).
Proof. intros Hx Hq Hd He. apply possible_more; [done|]. intros o r Hst. by inversion Hst; subst. Qed.

Lemma possible_interrupt i q d c st es : (forall st', possible es (Requests q (i :: d) (c ++ [i]) st')) ->
  possible (Interrupt :: es) (Requests (i :: q) d c st).
Proof. intros He. apply possible_more; [done|]. intros o r Hst. by inversion Hst; subst. Qed.

Lemma possible_waiting i q d c st es : i ∈ q -> i ∉ d -> possible es (Requests q d c st) ->
  possible (Resume i :: es) (Requests q d c st).
Proof.
  intros Hq Hd He. apply possible_more; [by left|]. intros o r Hst. inversion Hst; subst; [|done]. set_solver.
Qed.

Lemma calls : possible [Request 7 0; Request 8 1; Request 9 2; Interrupt; Resume 1; Resume 0] (Requests [] [] [] st0).
Proof.
  apply possible_request; [|set_solver|set_solver|].
  { eexists. split; [done|]. split; [done|done|done|by vm_compute; lia|done]. }
  apply possible_request; [|set_solver|set_solver|].
  { eexists. split; [done|]. split; [done|done|done|by vm_compute; lia|done]. }
  apply possible_request; [|set_solver|set_solver|].
  { eexists. split; [done|]. split; [done|done|done|by vm_compute; lia|done]. }
  apply possible_interrupt. intros st. apply possible_waiting; [set_solver|set_solver|].
  apply possible_more; [right; set_solver|]. intros o r _. apply possible_done.
Qed.
End Example.

Lemma driver_is_the_memory_disk_witness :
  (exists os s', run_events (L := Example.laws)
     [Request 7 0; Request 8 1; Request 9 2; Interrupt; Resume 1; Resume 0] Example.start = Ok (os, s') /\
     os = [None; None; None; Some true; Some false; Some true]) /\
  (exists s', run_events (L := Example.laws)
     [Request 7 0; Request 8 1; Request 9 2; Interrupt; Interrupt; Interrupt; Resume 2] Example.start =
     Ok ([None; None; None; Some true; Some true; Some false; Some true], s') /\
     (data <$> dbufs s') = [Example.full 3; Example.full 9; Example.full 0] /\
     (flags <$> dbufs s') = [B_VALID; B_VALID; B_VALID] /\
     Example.disks (ctl s') 1 5 = Example.full 9 /\ woken s' = [0; 1; 2]%nat).
Proof.
  split.
  - destruct (driver_is_the_memory_disk _ _ Example.start Example.calls Example.start_refines) as (os & s' & r' & R & _).
    exists os, s'. split; [exact R|]. vm_compute in R. by injection R as <- _.
  - eexists. split; [by vm_compute|]. by vm_compute.
Defined.
