(* ===== verification/Log.v ===== *)
(** * The log

    [lab-2/log.c]: transactions that group the block writes of the file system
    calls, their commit, and the recovery at boot; with [readsb] of [lab-2/fs.c],
    which tells where the log is. *)

From S2P Require Import Prelude Bytes Bcache.

(** ** Buffers as structures *)

(** [((int * )b->data)[k]], read and written. *)
Definition data_int (b : nat) (k : nat) : St Z :=
  x ← getb b; lift_opt "data" (get_int k (data x)).
Definition set_data_int (b : nat) (k : nat) (v : Z) : St unit :=
  x ← getb b;
  d ← lift_opt "data" (put_int k v (data x));
  updb b (set_data d).

(** [memmove(to->data, from->data, BSIZE)]. *)
Definition copy_data (to from : nat) : St unit :=
  x ← getb from; updb to (set_data (data x)).

(** The [uint] block number that [bread] receives for an [int]. *)
Definition block_of (v : Z) : nat := Z.to_nat (w32 v).

(** ** The super block *)

Record superblock := Superblock {
  sb_size : Z;
  sb_nblocks : Z;
  sb_ninodes : Z;
  sb_nlog : Z;
  sb_logstart : Z;
  sb_inodestart : Z;
  sb_bmapstart : Z
}.

Definition read_sb (d : block) : option superblock :=
  size ← get_uint 0 d;
  nblocks ← get_uint 1 d;
  ninodes ← get_uint 2 d;
  nlog ← get_uint 3 d;
  logstart ← get_uint 4 d;
  inodestart ← get_uint 5 d;
  bmapstart ← get_uint 6 d;
  mret (Superblock size nblocks ninodes nlog logstart inodestart bmapstart).

Definition readsb (d : Z) : St superblock :=
  bp ← bread d 1;
  x ← getb bp;
  sb ← lift_opt "sb" (read_sb (data x));
  brelse bp ;;
  mret sb.

(** ** The log in memory and on the disk *)

Definition set_lg (f : log -> log) : St unit := modify (fun s => set_log (f (lg s)) s).

Definition acquire_log : St unit :=
  s ← get; if log_lock s then panic "acquire" else put (set_log_lock true s).
Definition release_log : St unit :=
  s ← get; if log_lock s then put (set_log_lock false s) else panic "release".

(** [log.lh.block[i]]. *)
Definition logged (i : nat) : St Z :=
  g ← gets lg; lift_opt "log.lh.block" (lh_block g !! i).
Definition set_logged (i : nat) (v : Z) : St unit :=
  g ← gets lg;
  l ← lift_opt "log.lh.block" (zinsert (Z.of_nat i) v (lh_block g));
  set_lg (set_lh_block l).

(** Writes the block [log.start+tail+1] to the block [log.lh.block[tail]]. *)
Definition install_block (tail : nat) : St unit :=
  g ← gets lg;
  lbuf ← bread (log_dev g) (log_start g + tail + 1);
  home ← logged tail;
  dbuf ← bread (log_dev g) (block_of home);
  copy_data dbuf lbuf ;;
  bwrite dbuf ;;
  brelse lbuf ;;
  brelse dbuf.

Definition install_trans : St unit :=
  g ← gets lg;
  for_each (seq 0 (Z.to_nat (lh_n g))) install_block.

Definition read_head : St unit :=
  g ← gets lg;
  b ← bread (log_dev g) (log_start g);
  n ← data_int b 0;
  set_lg (set_lh_n n) ;;
  for_each (seq 0 (Z.to_nat n)) (fun i => v ← data_int b (S i); set_logged i v) ;;
  brelse b.

Definition write_head : St unit :=
  g ← gets lg;
  b ← bread (log_dev g) (log_start g);
  set_data_int b 0 (lh_n g) ;;
  for_each (seq 0 (Z.to_nat (lh_n g))) (fun i => v ← logged i; set_data_int b (S i) v) ;;
  bwrite b ;;
  brelse b.

Definition recover_from_log : St unit :=
  read_head ;;
  install_trans ;;
  set_lg (set_lh_n 0) ;;
  write_head.

(** [sizeof(struct logheader)] is below [BSIZE]: the test of [initlog] fails. *)
Definition initlog (d : Z) : St unit :=
  modify (set_log_lock false) ;;
  sb ← readsb d;
  set_lg (set_place (Z.to_nat (sb_logstart sb)) (i32 (sb_nlog sb)) d) ;;
  recover_from_log.

(** ** Transactions *)

(** [others] is what the other processes do while this one sleeps on the log; they
    run when it has released the lock, and it takes the lock again. *)
Definition sleep_log (others : store -> store) : St unit :=
  release_log ;; modify others ;; acquire_log.

Definition wakeup_log : St unit :=
  modify (fun s => set_log_wakeups (S (log_wakeups s)) s).

(** The loop of [begin_op]; [fuel] bounds how often it sleeps. *)
Fixpoint begin_loop (fuel : nat) (others : store -> store) : St unit :=
  g ← gets lg;
  let again :=
    match fuel with
    | O => diverge
    | S fuel' => sleep_log others ;; begin_loop fuel' others
    end in
  if committing g then again
  else if Z.of_nat LOGSIZE <? lh_n g + (outstanding g + 1) * MAXOPBLOCKS then again
  else
    set_lg (set_outstanding (i32 (outstanding g + 1))) ;;
    release_log.

Definition begin_op (fuel : nat) (others : store -> store) : St unit :=
  acquire_log ;; begin_loop fuel others.

(** Writes the block [log.lh.block[tail]] of the cache to [log.start+tail+1]. *)
Definition log_block (tail : nat) : St unit :=
  g ← gets lg;
  to ← bread (log_dev g) (log_start g + tail + 1);
  home ← logged tail;
  from ← bread (log_dev g) (block_of home);
  copy_data to from ;;
  bwrite to ;;
  brelse from ;;
  brelse to.

Definition write_log : St unit :=
  g ← gets lg;
  for_each (seq 0 (Z.to_nat (lh_n g))) log_block.

Definition commit : St unit :=
  g ← gets lg;
  if 0 <? lh_n g then
    write_log ;;
    write_head ;;
    install_trans ;;
    set_lg (set_lh_n 0) ;;
    write_head
  else mret tt.

Definition end_op : St unit :=
  acquire_log ;;
  set_lg (fun g => set_outstanding (i32 (outstanding g - 1)) g) ;;
  g ← gets lg;
  if committing g then panic "log.committing"
  else
    let do_commit := outstanding g =? 0 in
    (if do_commit then set_lg (set_committing true) else wakeup_log) ;;
    release_log ;;
    when do_commit
      (commit ;;
       acquire_log ;;
       set_lg (set_committing false) ;;
       wakeup_log ;;
       release_log).

(** The index of [b] among the [n] logged blocks, or [n]. *)
Fixpoint absorb (n : nat) (i : nat) (b : Z) : St nat :=
  match n with
  | O => mret i
  | S n' =>
      v ← logged i;
      if w32 v =? b then mret i else absorb n' (S i) b
  end.

Definition log_write (b : nat) : St unit :=
  g ← gets lg;
  if (Z.of_nat LOGSIZE <=? lh_n g) || (log_size g - 1 <=? lh_n g) then
    panic "too big a transaction"
  else if outstanding g <? 1 then panic "log_write outside of trans"
  else
    acquire_log ;;
    g ← gets lg;
    x ← getb b;
    i ← absorb (Z.to_nat (lh_n g)) 0 (Z.of_nat (blockno x));
    set_logged i (i32 (Z.of_nat (blockno x))) ;;
    when (Z.of_nat i =? lh_n g) (set_lg (set_lh_n (i32 (lh_n g + 1)))) ;;
    updb b (fun x => set_flags (Z.lor (flags x) B_DIRTY) x) ;;
    release_log.

(** ** Starting up *)

(** The memory at boot, with the disk [d]; [boot] is [binit] of main and [initlog] of
    the first [forkret]. *)
Definition power_on (p : Z) (d : list block) : store :=
  Store p d [] (replicate (S NBUF) buf_zero) false
    (Log 0 0 0 0 false 0 (replicate LOGSIZE 0)) false 0.

Definition boot : St unit := binit ;; initlog 1.
