(* ===== verification/LogSpec.v ===== *)
(** * What the log promises

    A commit is all or nothing: whatever write of it the machine stops after, the
    recovery at boot leaves either every block of the transaction or none on its
    place.  The recovery itself can be interrupted as well. *)

From S2P Require Import Prelude Bytes Bcache BcacheSpec Log.

(** ** Loops with a counter *)

Lemma for_each_seq_run {S} (P : nat -> S -> Prop) (body : nat -> M S unit) k n s :
  P k s ->
  (forall i s, (k <= i < k + n)%nat -> P i s -> exists s', body i s = Ok (tt, s') /\ P (Datatypes.S i) s') ->
  exists s', for_each (seq k n) body s = Ok (tt, s') /\ P (k + n)%nat s'.
Proof.
  revert k s. induction n as [|n IH]; intros k s HP Hb.
  - exists s. by rewrite Nat.add_0_r.
  - destruct (Hb k s) as (s1 & H1 & HP1); [lia|done|].
    destruct (IH (Datatypes.S k) s1 HP1) as (s2 & H2 & HP2).
    { intros i s' Hi. apply Hb. lia. }
    exists s2. cbn [seq for_each]. rewrite (bind_ok _ _ _ _ _ H1).
    split; [done|]. by replace (k + Datatypes.S n)%nat with (Datatypes.S k + n)%nat by lia.
Qed.

Lemma bind_set_lg {A} (f : log -> log) (k : unit -> St A) s :
  (set_lg f ≫= k) s = k tt (set_log (f (lg s)) s).
Proof. done. Qed.

Lemma acquire_log_run s : log_lock s = false -> acquire_log s = Ok (tt, set_log_lock true s).
Proof. intros H. unfold acquire_log. mrun. by rewrite H. Qed.

Lemma release_log_run s : log_lock s = true -> release_log s = Ok (tt, set_log_lock false s).
Proof. intros H. unfold release_log. mrun. by rewrite H. Qed.

Lemma bind_release_log {A} (k : unit -> St A) s :
  log_lock s = true -> (release_log ≫= k) s = k tt (set_log_lock false s).
Proof. intros H. by rewrite (bind_ok _ _ _ _ _ (release_log_run s H)). Qed.

Lemma acquire_log_held s : log_lock s = true -> acquire_log s = Panic "acquire".
Proof. intros H. unfold acquire_log. mrun. by rewrite H. Qed.

(** ** Sequences of disk writes *)

Definition dput (d : list block) (w : nat * block) : list block := <[w.1 := w.2]> d.
Definition apply_writes (d : list block) (ws : list (nat * block)) : list block :=
  foldl dput d ws.

Lemma apply_writes_app d ws ws' :
  apply_writes d (ws ++ ws') = apply_writes (apply_writes d ws) ws'.
Proof. apply foldl_app. Qed.

Lemma apply_writes_length d ws : length (apply_writes d ws) = length d.
Proof.
  revert d. induction ws as [|w ws IH]; intros d; [done|]. cbn. rewrite IH.
  apply length_insert.
Qed.

Lemma apply_writes_ne d ws bn : (bn ∉ ws.*1) -> apply_writes d ws !! bn = d !! bn.
Proof.
  revert d. induction ws as [|w ws IH]; intros d Hbn; [done|]. cbn in *.
  apply not_elem_of_cons in Hbn as [Hw Hbn]. rewrite IH by done. unfold dput.
  by rewrite list_lookup_insert_ne by done.
Qed.

Lemma apply_writes_eq d ws bn v :
  NoDup ws.*1 -> (bn, v) ∈ ws -> (bn < length d)%nat -> apply_writes d ws !! bn = Some v.
Proof.
  revert d. induction ws as [|w ws IH]; intros d Hnd Hin Hlt; [set_solver|]. cbn in *.
  apply NoDup_cons in Hnd as [Hw Hnd]. apply elem_of_cons in Hin as [<-|Hin].
  - rewrite apply_writes_ne by done. by apply list_lookup_insert_eq.
  - apply IH; [done|done|]. unfold dput. by rewrite length_insert.
Qed.

(** Writes of contents that are there already, or that a later part repeats. *)
Lemma apply_writes_same d ws :
  (forall bn v, (bn, v) ∈ ws -> d !! bn = Some v) -> apply_writes d ws = d.
Proof.
  induction ws as [|[bn v] ws IH]; intros Hs; [done|]. cbn. unfold dput. cbn.
  rewrite list_insert_id; [|apply Hs, list_elem_of_here].
  apply IH. intros. by apply Hs, list_elem_of_further.
Qed.

(** ** Runs that change buffers and the disk only *)

(** From [s] the blocks [ws] are written in this order; the log is [g] afterwards. *)
Record evolves (s : store) (ws : list (nat * block)) (g : log) (s' : store) : Prop := Evolves {
  e_me : me s' = me s;
  e_disk : memdisk s' = apply_writes (memdisk s) ws;
  e_writes : writes s' = writes s ++ ws;
  e_log : lg s' = g;
  e_lock : log_lock s' = log_lock s;
  e_wake : log_wakeups s' = log_wakeups s
}.

Lemma evolves_refl s : evolves s [] (lg s) s.
Proof. split; try done. by rewrite app_nil_r. Qed.

Lemma evolves_bufs s L : evolves s [] (lg s) (set_bufs L s).
Proof. split; try done. cbn. by rewrite app_nil_r. Qed.

Lemma evolves_trans s1 ws1 g1 s2 ws2 g2 s3 :
  evolves s1 ws1 g1 s2 -> evolves s2 ws2 g2 s3 -> evolves s1 (ws1 ++ ws2) g2 s3.
Proof.
  intros [] []. split; try congruence.
  - rewrite apply_writes_app. congruence.
  - rewrite e_writes1, e_writes0. by rewrite app_assoc.
Qed.

(** The cache with an order of its buffers. *)
Definition view (s : store) (V : list block) (H : gmap nat nat) (D : gset nat) : Prop :=
  exists l, cache s l V H D.

Lemma cache_log s l V H D s' :
  cache s l V H D -> bufs s' = bufs s -> memdisk s' = memdisk s -> me s' = me s ->
  bcache_lock s' = bcache_lock s -> cache s' l V H D.
Proof.
  destruct s, s'; cbn. intros [] -> -> -> ->. split; assumption.
Qed.

Lemma view_log s V H D s' :
  view s V H D -> bufs s' = bufs s -> memdisk s' = memdisk s -> me s' = me s ->
  bcache_lock s' = bcache_lock s -> view s' V H D.
Proof. intros [l Hc] ????. exists l. by eapply cache_log. Qed.

Section Runs.
Context (s : store) (V : list block) (H : gmap nat nat) (D : gset nat).
Implicit Types (bn i : nat) (v : block).

Lemma view_length : view s V H D -> length V = length (memdisk s).
Proof using Type. intros [l Hc]. apply Hc. Qed.

Lemma held_data bn i v :
  view s V H D -> H !! bn = Some i -> V !! bn = Some v ->
  exists b, bufs s !! i = Some b /\ data b = v /\ blockno b = bn.
Proof using Type.
  intros [l Hc] HH HV. pose proof (c_held _ _ _ _ _ Hc _ _ HH) as Hi.
  destruct (caches_at _ _ _ _ _ _ _ Hc Hi) as (b & Hb & Hd & Hbn & _ & HVb & _).
  exists b. split_and!; [done| |done]. congruence.
Qed.

Lemma bread_view bn v :
  view s V H D -> V !! bn = Some v -> H !! bn = None ->
  (bn ∈ D) \/ (size (dom H ∪ D) < NBUF)%nat ->
  exists i s', bread 1 bn s = Ok (i, s') /\ evolves s [] (lg s) s' /\
    view s' V (<[bn := i]> H) D.
Proof using Type.
  intros [l Hc] HV HH Hr. destruct (bread_spec _ _ _ _ _ _ _ Hc HV HH Hr) as (i & L & Hrun & Hc').
  exists i, (set_bufs L s). split_and!; [done|apply evolves_bufs|by exists l].
Qed.

Lemma set_data_view bn i v :
  view s V H D -> H !! bn = Some i -> (bn < length V)%nat ->
  exists s', updb i (set_data v) s = Ok (tt, s') /\ evolves s [] (lg s) s' /\
    view s' (<[bn := v]> V) H D.
Proof using Type.
  intros [l Hc] HH Hlt. destruct (write_data_spec _ _ _ _ _ _ _ v Hc HH Hlt) as (L & Hrun & Hc').
  exists (set_bufs L s). split_and!; [done|apply evolves_bufs|by exists l].
Qed.

Lemma mark_dirty_view bn i :
  view s V H D -> H !! bn = Some i ->
  exists s', updb i (fun x => set_flags (Z.lor (flags x) B_DIRTY) x) s = Ok (tt, s') /\
    evolves s [] (lg s) s' /\ view s' V H ({[bn]} ∪ D).
Proof using Type.
  intros [l Hc] HH. destruct (mark_dirty_spec _ _ _ _ _ _ _ Hc HH) as (L & Hrun & Hc').
  exists (set_bufs L s). split_and!; [done|apply evolves_bufs|by exists l].
Qed.

Lemma bwrite_view bn i v :
  view s V H D -> H !! bn = Some i -> V !! bn = Some v ->
  exists s', bwrite i s = Ok (tt, s') /\ evolves s [(bn, v)] (lg s) s' /\
    view s' V H (D ∖ {[bn]}).
Proof using Type.
  intros [l Hc] HH HV. destruct (bwrite_spec _ _ _ _ _ _ _ _ Hc HH HV) as (L & Hrun & Hc').
  eexists. split_and!; [done|by split|by exists l].
Qed.

Lemma brelse_view bn i :
  view s V H D -> H !! bn = Some i -> (bn ∈ D) \/ V !! bn = memdisk s !! bn ->
  exists s', brelse i s = Ok (tt, s') /\ evolves s [] (lg s) s' /\ view s' V (delete bn H) D.
Proof using Type.
  intros [l Hc] HH Hcl.
  destruct (brelse_spec _ _ _ _ _ _ _ Hc HH Hcl) as (L & l' & Hrun & _ & _ & Hc').
  exists (set_bufs L s). split_and!; [done|apply evolves_bufs|by exists l'].
Qed.
End Runs.

(** ** Copying one block *)

Lemma copy_data_view s V H D bn i j bn' v :
  view s V H D -> H !! bn = Some i -> (bn < length V)%nat ->
  H !! bn' = Some j -> V !! bn' = Some v ->
  exists s', copy_data i j s = Ok (tt, s') /\ evolves s [] (lg s) s' /\
    view s' (<[bn := v]> V) H D.
Proof.
  intros Hv HH Hlt HH' HV'.
  destruct (held_data _ _ _ _ _ _ _ Hv HH' HV') as (b & Hb & Hd & _).
  destruct (set_data_view _ _ _ _ _ _ v Hv HH Hlt) as (s' & Hrun & Hs').
  exists s'. split; [|done]. unfold copy_data.
  rewrite (bind_ok _ _ _ _ _ (getb_run j b s Hb)), Hd. exact Hrun.
Qed.

Lemma logged_run i v s : lh_block (lg s) !! i = Some v -> logged i s = Ok (v, s).
Proof. intros H. unfold logged. mrun. by rewrite H. Qed.

Lemma block_of_nat b : Z.of_nat b < 2 ^ 32 -> block_of (Z.of_nat b) = b.
Proof. intros H. unfold block_of. rewrite w32_small by lia. apply Nat2Z.id. Qed.

Lemma room_empty (D : gset nat) :
  (size D < NBUF)%nat -> (size (dom (∅ : gmap nat nat) ∪ D) < NBUF)%nat.
Proof. intros. by rewrite dom_empty_L, union_empty_l_L. Qed.

Lemma room_one (D : gset nat) (bn i : nat) :
  (size D + 1 < NBUF)%nat -> (size (dom (<[bn := i]> (∅ : gmap nat nat)) ∪ D) < NBUF)%nat.
Proof.
  intros Hs. rewrite dom_insert_L, dom_empty_L, union_empty_r_L.
  rewrite size_union_alt, size_singleton.
  assert (size (D ∖ {[bn]}) <= size D)%nat by (apply subseteq_size, subseteq_difference_l; done). lia.
Qed.

Ltac evolve := repeat first
  [ eassumption | eapply evolves_trans; [eassumption|] | apply evolves_refl ].

Lemma log_block_run s V D i b v :
  let a := (log_start (lg s) + i + 1)%nat in
  view s V ∅ D -> log_dev (lg s) = 1 -> lh_block (lg s) !! i = Some (Z.of_nat b) ->
  Z.of_nat b < 2 ^ 32 -> (a ∉ D) -> b ∈ D -> V !! b = Some v -> (a < length V)%nat ->
  (size D < NBUF)%nat ->
  exists s', log_block i s = Ok (tt, s') /\ evolves s [(a, v)] (lg s) s' /\
    view s' (<[a := v]> V) ∅ D.
Proof.
  intros a Hv Hdev Hlh Hb Ha HbD HV Halt Hroom.
  assert (a <> b) as Hab by (intros ->; done).
  destruct (lookup_lt_is_Some_2 V a Halt) as [va Hva].
  unfold log_block. rewrite bind_gets. rewrite Hdev.
  destruct (bread_view s V ∅ D a va Hv Hva (lookup_empty _)) as (i1 & s1 & R1 & E1 & V1).
  { right. by apply room_empty. }
  fold a. rewrite (bind_ok _ _ _ _ _ R1).
  rewrite <- (e_log _ _ _ _ E1) in Hlh. rewrite (bind_ok _ _ _ _ _ (logged_run _ _ _ Hlh)).
  rewrite block_of_nat by done.
  destruct (bread_view s1 V _ D b v V1 HV) as (i2 & s2 & R2 & E2 & V2).
  { by rewrite lookup_insert_ne. } { by left. }
  rewrite (bind_ok _ _ _ _ _ R2).
  destruct (copy_data_view s2 V _ D a i1 i2 b v V2) as (s3 & R3 & E3 & V3).
  { rewrite lookup_insert_ne by done. by rewrite lookup_insert_eq. } { done. }
  { by rewrite lookup_insert_eq. } { done. }
  rewrite (bind_ok _ _ _ _ _ R3).
  destruct (bwrite_view s3 _ _ D a i1 v V3) as (s4 & R4 & E4 & V4).
  { rewrite lookup_insert_ne by done. by rewrite lookup_insert_eq. }
  { by apply list_lookup_insert_eq. }
  rewrite (bind_ok _ _ _ _ _ R4).
  assert (D ∖ {[a]} = D) as HD by set_solver. rewrite HD in V4.
  destruct (brelse_view s4 _ _ D b i2 V4) as (s5 & R5 & E5 & V5).
  { by rewrite lookup_insert_eq. } { by left. }
  rewrite (bind_ok _ _ _ _ _ R5).
  rewrite delete_insert_id in V5 by (by rewrite lookup_insert_ne).
  destruct (brelse_view s5 _ _ D a i1 V5) as (s6 & R6 & E6 & V6).
  { by rewrite lookup_insert_eq. }
  { right. rewrite list_lookup_insert_eq by done.
    rewrite (e_disk _ _ _ _ E5), (e_disk _ _ _ _ E4). cbn. unfold dput. cbn.
    rewrite list_lookup_insert_eq; [done|]. rewrite <- (view_length _ _ _ _ V3).
    by rewrite length_insert. }
  exists s6. split_and!; [exact R6| |].
  - rewrite (e_log _ _ _ _ E1) in E2. rewrite (e_log _ _ _ _ E2) in E3.
    rewrite (e_log _ _ _ _ E3) in E4. rewrite (e_log _ _ _ _ E4) in E5.
    rewrite (e_log _ _ _ _ E5) in E6.
    change [(a, v)] with ([] ++ [] ++ [] ++ [(a, v)] ++ [] ++ []). evolve.
  - by rewrite delete_insert_id in V6 by apply lookup_empty.
Qed.

Lemma install_block_run s V D i b v :
  let a := (log_start (lg s) + i + 1)%nat in
  view s V ∅ D -> log_dev (lg s) = 1 -> lh_block (lg s) !! i = Some (Z.of_nat b) ->
  Z.of_nat b < 2 ^ 32 -> (a ∉ D) -> (b ∈ D \/ D = ∅) -> a <> b -> V !! a = Some v ->
  (b < length V)%nat -> (size D < NBUF)%nat ->
  exists s', install_block i s = Ok (tt, s') /\ evolves s [(b, v)] (lg s) s' /\
    view s' (<[b := v]> V) ∅ (D ∖ {[b]}).
Proof.
  intros a Hv Hdev Hlh Hb Ha HbD Hab HV Hblt Hroom.
  destruct (lookup_lt_is_Some_2 V b Hblt) as [vb Hvb].
  unfold install_block. rewrite bind_gets. rewrite Hdev.
  destruct (bread_view s V ∅ D a v Hv HV (lookup_empty _)) as (i1 & s1 & R1 & E1 & V1).
  { right. by apply room_empty. }
  fold a. rewrite (bind_ok _ _ _ _ _ R1).
  rewrite <- (e_log _ _ _ _ E1) in Hlh. rewrite (bind_ok _ _ _ _ _ (logged_run _ _ _ Hlh)).
  rewrite block_of_nat by done.
  destruct (bread_view s1 V _ D b vb V1 Hvb) as (i2 & s2 & R2 & E2 & V2).
  { by rewrite lookup_insert_ne. }
  { destruct HbD as [?| ->]; [by left|right]. apply room_one. rewrite size_empty. unfold NBUF. lia. }
  rewrite (bind_ok _ _ _ _ _ R2).
  destruct (copy_data_view s2 V _ D b i2 i1 a v V2) as (s3 & R3 & E3 & V3).
  { by rewrite lookup_insert_eq. } { done. }
  { rewrite lookup_insert_ne by done. by rewrite lookup_insert_eq. } { done. }
  rewrite (bind_ok _ _ _ _ _ R3).
  destruct (bwrite_view s3 _ _ D b i2 v V3) as (s4 & R4 & E4 & V4).
  { by rewrite lookup_insert_eq. } { by apply list_lookup_insert_eq. }
  rewrite (bind_ok _ _ _ _ _ R4).
  assert (length V = length (memdisk s3)) as Hl3.
  { rewrite <- (view_length _ _ _ _ V3). by rewrite length_insert. }
  destruct (brelse_view s4 _ _ (D ∖ {[b]}) a i1 V4) as (s5 & R5 & E5 & V5).
  { rewrite lookup_insert_ne by done. by rewrite lookup_insert_eq. }
  { right. rewrite list_lookup_insert_ne by done.
    rewrite (e_disk _ _ _ _ E4). cbn. unfold dput. cbn. rewrite list_lookup_insert_ne by done.
    destruct V1 as [l1 C1]. destruct Hv as [l Hc].
    rewrite (c_clean _ _ _ _ _ Hc a Ha (lookup_empty _)).
    by rewrite (e_disk _ _ _ _ E3), (e_disk _ _ _ _ E2), (e_disk _ _ _ _ E1). }
  rewrite (bind_ok _ _ _ _ _ R5).
  rewrite delete_insert_ne, delete_insert_id in V5 by (done || apply lookup_empty).
  destruct (brelse_view s5 _ _ (D ∖ {[b]}) b i2 V5) as (s6 & R6 & E6 & V6).
  { by rewrite lookup_insert_eq. }
  { right. rewrite list_lookup_insert_eq by done.
    rewrite (e_disk _ _ _ _ E5), (e_disk _ _ _ _ E4). cbn. unfold dput. cbn.
    rewrite list_lookup_insert_eq; [done|]. by rewrite <- Hl3. }
  exists s6. split_and!; [exact R6| |].
  - rewrite (e_log _ _ _ _ E1) in E2. rewrite (e_log _ _ _ _ E2) in E3.
    rewrite (e_log _ _ _ _ E3) in E4. rewrite (e_log _ _ _ _ E4) in E5.
    rewrite (e_log _ _ _ _ E5) in E6.
    change [(b, v)] with ([] ++ [] ++ [] ++ [(b, v)] ++ [] ++ []). evolve.
  - by rewrite delete_insert_id in V6 by apply lookup_empty.
Qed.

(** ** Where the log is and what it holds *)

(** The log of the super block on a disk of [n] blocks; the blocks 0 and 1 are
    before it. *)
Record layout (g : log) (n : nat) : Prop := Layout {
  l_dev : log_dev g = 1;
  l_size : 0 < log_size g <= Z.of_nat LOGSIZE;
  l_end : Z.of_nat (log_start g) + log_size g <= Z.of_nat n;
  l_disk : Z.of_nat n < 2 ^ 31;
  l_start : (1 < log_start g)%nat
}.

Definition in_log (g : log) (bn : nat) : Prop :=
  (log_start g <= bn)%nat /\ Z.of_nat bn < Z.of_nat (log_start g) + log_size g.

(** The log in memory lists the blocks [Bs]. *)
Record logs (g : log) (Bs : list nat) : Prop := Logs {
  lh_count : lh_n g = Z.of_nat (length Bs);
  lh_len : length (lh_block g) = LOGSIZE;
  lh_at : forall i b, Bs !! i = Some b -> lh_block g !! i = Some (Z.of_nat b)
}.

(** Blocks of a transaction: distinct, outside of the log, and room for them. *)
Record homes (g : log) (n : nat) (Bs : list nat) : Prop := Homes {
  h_nodup : NoDup Bs;
  h_home : forall b, b ∈ Bs -> (b < n)%nat /\ ~ in_log g b /\ b <> 1%nat;
  h_room : Z.of_nat (length Bs) < log_size g
}.

Lemma layout_ext g g' n :
  log_dev g' = 1 -> log_start g' = log_start g -> log_size g' = log_size g ->
  layout g n -> layout g' n.
Proof. intros H1 H2 H3 []. split; rewrite ?H1, ?H2, ?H3; assumption || reflexivity. Qed.

Lemma homes_ext g g' n Bs :
  log_start g' = log_start g -> log_size g' = log_size g -> homes g n Bs -> homes g' n Bs.
Proof.
  intros H2 H3 []. split; unfold in_log in *; rewrite ?H2, ?H3; assumption.
Qed.

Definition log_writes (start : nat) (V : list block) (Bs : list nat) (n : nat)
    : list (nat * block) :=
  (fun j => ((start + j + 1)%nat, V !!! (Bs !!! j))) <$> seq 0 n.

Definition install_writes (start : nat) (V : list block) (Bs : list nat) (n : nat)
    : list (nat * block) :=
  (fun j => (Bs !!! j, V !!! (start + j + 1)%nat)) <$> seq 0 n.

Lemma log_writes_S start V Bs n :
  log_writes start V Bs (S n) = log_writes start V Bs n ++ [((start + n + 1)%nat, V !!! (Bs !!! n))].
Proof. unfold log_writes. by rewrite seq_S, fmap_app. Qed.

Lemma install_writes_S start V Bs n :
  install_writes start V Bs (S n) =
    install_writes start V Bs n ++ [(Bs !!! n, V !!! (start + n + 1)%nat)].
Proof. unfold install_writes. by rewrite seq_S, fmap_app. Qed.

Lemma log_writes_fst start V Bs n bn :
  bn ∈ (log_writes start V Bs n).*1 -> (start < bn <= start + n)%nat.
Proof.
  unfold log_writes. rewrite <- list_fmap_compose. intros (j & -> & Hj)%list_elem_of_fmap.
  apply elem_of_seq in Hj. cbn. lia.
Qed.

Lemma log_writes_nodup start V Bs n : NoDup (log_writes start V Bs n).*1.
Proof.
  unfold log_writes. rewrite <- list_fmap_compose.
  apply NoDup_fmap_2_strong; [|apply NoDup_seq]. cbn. intros. lia.
Qed.

Lemma install_writes_fst start V Bs n :
  (n <= length Bs)%nat -> (install_writes start V Bs n).*1 = take n Bs.
Proof.
  unfold install_writes. rewrite <- list_fmap_compose. intros Hn.
  apply list_eq. intros i. rewrite list_lookup_fmap. destruct (decide (i < n)%nat).
  - rewrite lookup_seq_lt by done. rewrite lookup_take_lt by done. cbn.
    symmetry. apply list_lookup_lookup_total_lt. lia.
  - rewrite lookup_seq_ge by lia. by rewrite lookup_take_ge by lia.
Qed.

Lemma install_writes_in start V Bs n bn v :
  (bn, v) ∈ install_writes start V Bs n ->
  exists j, (j < n)%nat /\ bn = Bs !!! j /\ v = V !!! (start + j + 1)%nat.
Proof.
  unfold install_writes. intros (j & [= -> ->] & Hj)%list_elem_of_fmap.
  apply elem_of_seq in Hj. exists j. split_and!; [lia|done..].
Qed.

Section Layout.
Context (g : log) (n : nat) (Bs : list nat).
Hypothesis Hlay : layout g n.
Hypothesis Hhome : homes g n Bs.

Lemma homes_at j : (j < length Bs)%nat -> exists b, Bs !! j = Some b /\ Bs !!! j = b /\
  b ∈ Bs /\ (b < n)%nat /\ ~ in_log g b /\ Z.of_nat b < 2 ^ 32.
Proof using Hlay Hhome.
  intros Hj. destruct (lookup_lt_is_Some_2 Bs j Hj) as [b Hb]. exists b.
  pose proof (list_elem_of_lookup_2 _ _ _ Hb) as Hin.
  destruct (h_home _ _ _ Hhome b Hin) as (? & ? & _). pose proof (l_disk _ _ Hlay).
  split_and!; [done|by apply list_lookup_total_correct|done..|lia].
Qed.

Lemma in_log_at j : (j < length Bs)%nat -> in_log g (log_start g + j + 1)%nat.
Proof using Hlay Hhome. pose proof (h_room _ _ _ Hhome). unfold in_log. lia. Qed.

Lemma in_log_start : in_log g (log_start g).
Proof using Hlay. pose proof (l_size _ _ Hlay). unfold in_log. lia. Qed.

Lemma in_log_lt bn : in_log g bn -> (bn < n)%nat.
Proof using Hlay. pose proof (l_end _ _ Hlay). unfold in_log. lia. Qed.

Lemma homes_log bn : bn ∈ Bs -> ~ in_log g bn.
Proof using Hhome. intros Hb. by apply (h_home _ _ _ Hhome). Qed.

Lemma homes_room : (length Bs < NBUF)%nat.
Proof using Hlay Hhome.
  pose proof (h_room _ _ _ Hhome). pose proof (l_size _ _ Hlay). unfold LOGSIZE, NBUF in *. lia.
Qed.

Lemma homes_size : (size (list_to_set Bs : gset nat) < NBUF)%nat.
Proof using Hlay Hhome.
  rewrite size_list_to_set by apply Hhome. apply homes_room.
Qed.
End Layout.

Section WriteLog.
Context (s : store) (V : list block) (Bs : list nat).
Hypothesis Hv : view s V ∅ (list_to_set Bs).
Hypothesis Hlay : layout (lg s) (length V).
Hypothesis Hlogs : logs (lg s) Bs.
Hypothesis Hhome : homes (lg s) (length V) Bs.

Lemma write_log_run :
  let ws := log_writes (log_start (lg s)) V Bs (length Bs) in
  exists s', write_log s = Ok (tt, s') /\ evolves s ws (lg s) s' /\
    view s' (apply_writes V ws) ∅ (list_to_set Bs).
Proof using All.
  intros ws. unfold write_log. rewrite bind_gets. rewrite (lh_count _ _ Hlogs), Nat2Z.id.
  set (P i s' := evolves s (log_writes (log_start (lg s)) V Bs i) (lg s) s' /\
    view s' (apply_writes V (log_writes (log_start (lg s)) V Bs i)) ∅ (list_to_set Bs)).
  destruct (for_each_seq_run P log_block 0 (length Bs) s) as (s' & Hrun & HP).
  - split; [apply evolves_refl|exact Hv].
  - intros i s' Hi [He Hv'].
    destruct (homes_at _ _ _ Hlay Hhome i) as (b & Hb & Hbt & HbB & Hbn & Hbl & Hb32); [lia|].
    pose proof (in_log_at _ _ _ Hlay Hhome i ltac:(lia)) as Hin.
    pose proof (in_log_lt _ _ Hlay _ Hin) as Hlt.
    destruct (lookup_lt_is_Some_2 V b Hbn) as [v Hvb].
    pose proof (e_log _ _ _ _ He) as Hg.
    destruct (log_block_run s' _ _ i b v Hv') as (s2 & R2 & E2 & V2); rewrite ?Hg in *.
    + apply Hlay.
    + by apply Hlogs.
    + done.
    + intros Hx%elem_of_list_to_set. by apply (homes_log _ _ _ Hhome _ Hx).
    + by apply elem_of_list_to_set.
    + rewrite apply_writes_ne; [done|]. intros Hx%log_writes_fst.
      apply Hbl. unfold in_log in *. lia.
    + by rewrite apply_writes_length.
    + by apply (homes_size _ _ _ Hlay Hhome).
    + exists s2. split; [done|]. unfold P. rewrite log_writes_S, Hbt.
      rewrite (list_lookup_total_correct _ _ _ Hvb). split; [evolve|].
      by rewrite apply_writes_app.
  - exists s'. by split.
Qed.
End WriteLog.

Section InstallTrans.
Context (s : store) (V : list block) (Bs : list nat) (D : gset nat).
Hypothesis Hv : view s V ∅ D.
Hypothesis HD : D = list_to_set Bs \/ D = ∅.
Hypothesis Hlay : layout (lg s) (length V).
Hypothesis Hlogs : logs (lg s) Bs.
Hypothesis Hhome : homes (lg s) (length V) Bs.

Lemma install_trans_run :
  let ws := install_writes (log_start (lg s)) V Bs (length Bs) in
  exists s', install_trans s = Ok (tt, s') /\ evolves s ws (lg s) s' /\
    view s' (apply_writes V ws) ∅ ∅.
Proof using All.
  intros ws. unfold install_trans. rewrite bind_gets. rewrite (lh_count _ _ Hlogs), Nat2Z.id.
  set (P i s' := evolves s (install_writes (log_start (lg s)) V Bs i) (lg s) s' /\
    view s' (apply_writes V (install_writes (log_start (lg s)) V Bs i)) ∅
      (D ∖ list_to_set (take i Bs))).
  destruct (for_each_seq_run P install_block 0 (length Bs) s) as (s' & Hrun & HP).
  - split; [apply evolves_refl|]. rewrite take_0. cbn. by rewrite difference_empty_L.
  - intros i s' Hi [He Hv'].
    destruct (homes_at _ _ _ Hlay Hhome i) as (b & Hb & Hbt & HbB & Hbn & Hbl & Hb32); [lia|].
    pose proof (in_log_at _ _ _ Hlay Hhome i ltac:(lia)) as Hin.
    pose proof (in_log_lt _ _ Hlay _ Hin) as Hlt.
    destruct (lookup_lt_is_Some_2 V _ Hlt) as [v Hvb].
    pose proof (e_log _ _ _ _ He) as Hg.
    assert (b ∉ take i Bs) as Hnew.
    { pose proof (h_nodup _ _ _ Hhome) as Hnd. rewrite <- (take_drop_middle _ _ _ Hb) in Hnd.
      apply NoDup_app in Hnd as (_ & Hnd & _). intros Hx. by apply (Hnd b), list_elem_of_here. }
    destruct (install_block_run s' _ _ i b v Hv') as (s2 & R2 & E2 & V2); rewrite ?Hg in *.
    + apply Hlay.
    + by apply Hlogs.
    + done.
    + intros [Hx _]%elem_of_difference. destruct HD as [-> | ->]; [|set_solver].
      apply elem_of_list_to_set in Hx. by apply (homes_log _ _ _ Hhome _ Hx).
    + destruct HD as [-> | ->]; [left|right; set_solver].
      apply elem_of_difference. by rewrite !elem_of_list_to_set.
    + intros <-. done.
    + rewrite apply_writes_ne; [done|]. rewrite install_writes_fst by lia.
      intros Hx%elem_of_take. destruct Hx as (j & Hx & _).
      apply list_elem_of_lookup_2 in Hx. by apply (homes_log _ _ _ Hhome _ Hx).
    + by rewrite apply_writes_length.
    + eapply Nat.le_lt_trans; [apply (subseteq_size _ D), subseteq_difference_l; done|].
      destruct HD as [-> | ->]; [apply (homes_size _ _ _ Hlay Hhome)|].
      rewrite size_empty. unfold NBUF. lia.
    + exists s2. split; [done|]. unfold P. rewrite install_writes_S, Hbt.
      rewrite (list_lookup_total_correct _ _ _ Hvb). split; [evolve|].
      rewrite apply_writes_app. cbn. rewrite (take_S_r _ _ _ Hb), list_to_set_app_L. cbn.
      rewrite union_empty_r_L. by rewrite <- difference_difference_l_L.
  - exists s'. destruct HP as [HP1 HP2]. split_and!; [done|done|].
    rewrite Nat.add_0_l in HP2. rewrite firstn_all in HP2.
    assert (D ∖ list_to_set Bs = ∅) as HE by (destruct HD as [-> | ->]; set_solver).
    by rewrite HE in HP2.
Qed.
End InstallTrans.

(** ** The header block *)

(** The header block [hd] lists the blocks [Bs]. *)
Definition holds_head (hd : block) (Bs : list nat) : Prop :=
  length hd = BSIZE /\ get_int 0 hd = Some (Z.of_nat (length Bs)) /\
  forall i b, Bs !! i = Some b -> get_int (S i) hd = Some (Z.of_nat b).

Lemma evolves_set_lg s f : evolves s [] (f (lg s)) (set_log (f (lg s)) s).
Proof. split; try done. cbn. by rewrite app_nil_r. Qed.

Lemma data_int_run s V H D bn i v k x :
  view s V H D -> H !! bn = Some i -> V !! bn = Some v -> get_int k v = Some x ->
  data_int i k s = Ok (x, s).
Proof.
  intros Hv HH HV Hk. destruct (held_data _ _ _ _ _ _ _ Hv HH HV) as (b & Hb & Hd & _).
  unfold data_int. rewrite (bind_ok _ _ _ _ _ (getb_run i b s Hb)). by rewrite Hd, Hk.
Qed.

Lemma set_data_int_run s V H D bn i v k x :
  view s V H D -> H !! bn = Some i -> V !! bn = Some v -> (4 * k + 4 <= length v)%nat ->
  is_i32 x ->
  exists v' s', set_data_int i k x s = Ok (tt, s') /\ evolves s [] (lg s) s' /\
    view s' (<[bn := v']> V) H D /\ length v' = length v /\ get_int k v' = Some x /\
    forall j, j <> k -> get_int j v' = get_int j v.
Proof.
  intros Hv HH HV Hk Hx. destruct (held_data _ _ _ _ _ _ _ Hv HH HV) as (b & Hb & Hd & _).
  destruct (put_le_some 4 (4 * k) x v Hk) as [v' Hv'].
  destruct (set_data_view _ _ _ _ _ _ v' Hv HH ltac:(by eapply lookup_lt_Some))
    as (s' & R & E & Vs).
  exists v', s'. split_and!; [|done|done|by eapply put_int_length|by eapply get_put_int_eq|].
  - unfold set_data_int. rewrite (bind_ok _ _ _ _ _ (getb_run i b s Hb)). rewrite Hd.
    unfold put_int. by rewrite Hv'.
  - intros j Hj. by eapply get_put_int_ne.
Qed.

Section WriteHead.
Context (s : store) (V : list block) (Bs : list nat) (D : gset nat).
Hypothesis Hv : view s V ∅ D.
Hypothesis Hroom : (size D < NBUF)%nat.
Hypothesis Hlay : layout (lg s) (length V).
Hypothesis Hlogs : logs (lg s) Bs.
Hypothesis Hhome : homes (lg s) (length V) Bs.
Hypothesis Hclean : log_start (lg s) ∉ D.
Hypothesis Hhd : length (V !!! log_start (lg s)) = BSIZE.

Lemma write_head_run :
  exists hd s', write_head s = Ok (tt, s') /\ holds_head hd Bs /\
    evolves s [(log_start (lg s), hd)] (lg s) s' /\
    view s' (<[log_start (lg s) := hd]> V) ∅ D.
Proof using All.
  set (st := log_start (lg s)) in *.
  assert (st < length V)%nat as Hlt by (apply (in_log_lt _ _ Hlay), (in_log_start _ _ Hlay)).
  destruct (lookup_lt_is_Some_2 V st Hlt) as [v HV].
  rewrite (list_lookup_total_correct _ _ _ HV) in Hhd.
  pose proof (homes_room _ _ _ Hlay Hhome) as Hn. unfold NBUF in Hn.
  unfold write_head. rewrite bind_gets. rewrite (l_dev _ _ Hlay). fold st.
  destruct (bread_view s V ∅ D st v Hv HV (lookup_empty _)) as (b & s1 & R1 & E1 & V1).
  { right. by apply room_empty. }
  rewrite (bind_ok _ _ _ _ _ R1). rewrite (lh_count _ _ Hlogs), Nat2Z.id.
  destruct (set_data_int_run s1 V _ D st b v 0 (Z.of_nat (length Bs)) V1)
    as (v2 & s2 & R2 & E2 & V2 & L2 & G2 & _).
  { by rewrite lookup_insert_eq. } { done. } { rewrite Hhd. unfold BSIZE. lia. }
  { unfold is_i32. lia. }
  rewrite (bind_ok _ _ _ _ _ R2).
  set (P i s' := exists v', evolves s2 [] (lg s) s' /\ view s' (<[st := v']> V) (<[st := b]> ∅) D /\
    length v' = BSIZE /\ get_int 0 v' = Some (Z.of_nat (length Bs)) /\
    forall j x, (j < i)%nat -> Bs !! j = Some x -> get_int (S j) v' = Some (Z.of_nat x)).
  pose proof (e_log _ _ _ _ E1) as G1. pose proof (e_log _ _ _ _ E2) as Glg2.
  destruct (for_each_seq_run P (fun i => v ← logged i; set_data_int b (S i) v) 0 (length Bs) s2)
    as (s3 & R3 & v3 & E3 & V3 & L3 & G3 & F3).
  - exists v2. split_and!; [|done|congruence|done|].
    + rewrite <- G1, <- Glg2. apply evolves_refl.
    + intros j x Hj. lia.
  - intros i s' Hi (v' & E' & V' & L' & G' & F').
    destruct (homes_at _ _ _ Hlay Hhome i) as (x & Hx & _ & _ & Hxn & _ & _); [lia|].
    pose proof (l_disk _ _ Hlay) as Hd31.
    rewrite (bind_ok _ _ _ _ _ (logged_run i (Z.of_nat x) s'
      ltac:(rewrite (e_log _ _ _ _ E'); by apply Hlogs))).
    destruct (set_data_int_run s' _ _ D st b v' (S i) (Z.of_nat x) V')
      as (v4 & s4 & R4 & E4 & V4 & L4 & G4 & F4).
    { by rewrite lookup_insert_eq. } { by apply list_lookup_insert_eq. }
    { rewrite L'. unfold BSIZE. lia. } { unfold is_i32. lia. }
    exists s4. split; [done|]. exists v4. rewrite list_insert_insert_eq in V4. split_and!.
    + rewrite (e_log _ _ _ _ E') in E4. change ([] : list (nat * block)) with ([] ++ [] : list (nat * block)).
      evolve.
    + done.
    + congruence.
    + by rewrite F4 by lia.
    + intros j y Hj Hy. destruct (decide (j = i)) as [->|Hji].
      * congruence.
      * rewrite F4 by lia. apply F'; [lia|done].
  - rewrite (bind_ok _ _ _ _ _ R3).
    destruct (bwrite_view s3 _ _ D st b v3 V3) as (s4 & R4 & E4 & V4).
    { by rewrite lookup_insert_eq. } { by apply list_lookup_insert_eq. }
    rewrite (bind_ok _ _ _ _ _ R4).
    assert (D ∖ {[st]} = D) as HD by set_solver. rewrite HD in V4.
    destruct (brelse_view s4 _ _ D st b V4) as (s5 & R5 & E5 & V5).
    { by rewrite lookup_insert_eq. }
    { right. rewrite list_lookup_insert_eq by done.
      rewrite (e_disk _ _ _ _ E4). cbn. unfold dput. cbn.
      rewrite list_lookup_insert_eq; [done|]. rewrite <- (view_length _ _ _ _ V3).
      by rewrite length_insert. }
    exists v3, s5. split_and!; [exact R5|split_and!; [done..|]| |].
    + intros i x Hx. apply F3; [|done]. apply lookup_lt_Some in Hx. lia.
    + rewrite G1 in E2. rewrite (e_log _ _ _ _ E3) in E4. rewrite (e_log _ _ _ _ E4) in E5.
      change [(st, v3)] with ([] ++ [] ++ [] ++ [(st, v3)] ++ []). evolve.
    + by rewrite delete_insert_id in V5 by apply lookup_empty.
Qed.
End WriteHead.

Section ReadHead.
Context (s : store) (V : list block) (Bs : list nat).
Hypothesis Hv : view s V ∅ ∅.
Hypothesis Hlay : layout (lg s) (length V).
Hypothesis Hhome : homes (lg s) (length V) Bs.
Hypothesis Hlen : length (lh_block (lg s)) = LOGSIZE.
Hypothesis Hhead : holds_head (V !!! log_start (lg s)) Bs.

Lemma read_head_run :
  exists l s', let g' := set_lh_n (Z.of_nat (length Bs)) (set_lh_block l (lg s)) in
    read_head s = Ok (tt, s') /\ evolves s [] g' s' /\ logs g' Bs /\ view s' V ∅ ∅.
Proof using All.
  set (st := log_start (lg s)) in *.
  assert (st < length V)%nat as Hlt by (apply (in_log_lt _ _ Hlay), (in_log_start _ _ Hlay)).
  destruct (lookup_lt_is_Some_2 V st Hlt) as [v HV].
  rewrite (list_lookup_total_correct _ _ _ HV) in Hhead. destruct Hhead as (Lv & Gv & Fv).
  pose proof (homes_room _ _ _ Hlay Hhome) as Hn. unfold NBUF in Hn.
  unfold read_head. rewrite bind_gets. rewrite (l_dev _ _ Hlay). fold st.
  destruct (bread_view s V ∅ ∅ st v Hv HV (lookup_empty _)) as (b & s1 & R1 & E1 & V1).
  { right. apply room_empty. rewrite size_empty. unfold NBUF. lia. }
  rewrite (bind_ok _ _ _ _ _ R1).
  assert ((<[st := b]> (∅ : gmap nat nat)) !! st = Some b) as HHb by apply lookup_insert_eq.
  rewrite (bind_ok _ _ _ _ _ (data_int_run s1 _ _ _ st b v 0 _ V1 HHb HV Gv)).
  rewrite Nat2Z.id. unfold set_lg at 1. rewrite bind_modify.
  set (N := Z.of_nat (length Bs)).
  set (s2 := set_log (set_lh_n N (lg s1)) s1).
  assert (evolves s1 [] (set_lh_n N (lg s1)) s2) as E2 by apply (evolves_set_lg s1 (set_lh_n N)).
  assert (view s2 V (<[st := b]> ∅) ∅) as V2 by (by eapply view_log).
  rewrite (e_log _ _ _ _ E1) in E2.
  set (P i s' := exists l, evolves s2 [] (set_lh_n N (set_lh_block l (lg s))) s' /\
    view s' V (<[st := b]> ∅) ∅ /\ length l = LOGSIZE /\
    forall j x, (j < i)%nat -> Bs !! j = Some x -> l !! j = Some (Z.of_nat x)).
  destruct (for_each_seq_run P (fun i => v ← data_int b (S i); set_logged i v) 0 (length Bs) s2)
    as (s3 & R3 & l & E3 & V3 & L3 & F3).
  - exists (lh_block (lg s)). split_and!; [|done|done|intros j x Hj; lia].
    assert (set_lh_block (lh_block (lg s)) (lg s) = lg s) as -> by (by destruct (lg s)).
    pose proof (evolves_refl s2) as Hr. by rewrite (e_log _ _ _ _ E2) in Hr.
  - intros i s' Hi (l & E' & V' & L' & F').
    destruct (homes_at _ _ _ Hlay Hhome i) as (x & Hx & _); [lia|].
    rewrite (bind_ok _ _ _ _ _ (data_int_run s' _ _ _ st b v (S i) _ V' HHb HV (Fv i x Hx))).
    assert (zinsert (Z.of_nat i) (Z.of_nat x) l = Some (<[i := Z.of_nat x]> l)) as Hz.
    { apply zinsert_nat. rewrite L'. unfold LOGSIZE. lia. }
    exists (set_log (set_lh_block (<[i := Z.of_nat x]> l) (lg s')) s'). split.
    { unfold set_logged. rewrite bind_gets.
      assert (lh_block (lg s') = l) as -> by (by rewrite (e_log _ _ _ _ E')). by rewrite Hz. }
    exists (<[i := Z.of_nat x]> l). split_and!.
    + pose proof (evolves_set_lg s' (set_lh_block (<[i := Z.of_nat x]> l))) as E4.
      rewrite (e_log _ _ _ _ E') in E4.
      rewrite (e_log _ _ _ _ E').
      change ([] : list (nat * block)) with ([] ++ [] : list (nat * block)). evolve.
    + by eapply view_log.
    + by rewrite length_insert.
    + intros j y Hj Hy. destruct (decide (j = i)) as [->|Hji].
      * rewrite list_lookup_insert_eq by (rewrite L'; unfold LOGSIZE; lia). congruence.
      * rewrite list_lookup_insert_ne by done. apply F'; [lia|done].
  - rewrite (bind_ok _ _ _ _ _ R3).
    destruct (brelse_view s3 _ _ ∅ st b V3 HHb) as (s4 & R4 & E4 & V4).
    { right. rewrite (e_disk _ _ _ _ E3), (e_disk _ _ _ _ E2), (e_disk _ _ _ _ E1).
      destruct Hv as [l0 Hc]. cbn.
      apply (c_clean _ _ _ _ _ Hc); [apply not_elem_of_empty|apply lookup_empty]. }
    exists l, s4. cbn zeta. split_and!; [exact R4| | |].
    + rewrite (e_log _ _ _ _ E3) in E4.
      change ([] : list (nat * block)) with ([] ++ [] ++ [] ++ [] : list (nat * block)). evolve.
    + split; [done|done|]. intros i x Hx. apply F3; [|done]. apply lookup_lt_Some in Hx. lia.
    + by rewrite delete_insert_id in V4 by apply lookup_empty.
Qed.
End ReadHead.
