(* ===== verification/Recovery.v ===== *)
(** * Commit and recovery

    [commit] and [recover_from_log] as wholes: the writes they make, the boot of the
    machine from a disk, and what recovery makes of a disk that a crash left. *)

From S2P Require Import Prelude Bytes Bcache BcacheSpec Log LogSpec.

Section Recover.
Context (s : store) (V : list block) (Bs : list nat).
Hypothesis Hv : view s V ∅ ∅.
Hypothesis Hlay : layout (lg s) (length V).
Hypothesis Hhome : homes (lg s) (length V) Bs.
Hypothesis Hlen : length (lh_block (lg s)) = LOGSIZE.
Hypothesis Hhead : holds_head (V !!! log_start (lg s)) Bs.

Lemma recover_run :
  let st := log_start (lg s) in
  let ws := install_writes st V Bs (length Bs) in
  exists l hd s', recover_from_log s = Ok (tt, s') /\ holds_head hd [] /\
    length l = LOGSIZE /\
    evolves s (ws ++ [(st, hd)]) (set_lh_n 0 (set_lh_block l (lg s))) s' /\
    view s' (<[st := hd]> (apply_writes V ws)) ∅ ∅.
Proof using All.
  intros st ws.
  destruct (read_head_run s V Bs Hv Hlay Hhome Hlen Hhead) as (l & s1 & R1 & E1 & L1 & V1).
  set (g1 := set_lh_n (Z.of_nat (length Bs)) (set_lh_block l (lg s))) in *.
  pose proof (e_log _ _ _ _ E1) as G1.
  assert (layout g1 (length V)) as Hlay1 by (by destruct Hlay).
  assert (homes g1 (length V) Bs) as Hhome1 by (by destruct Hhome).
  destruct (install_trans_run s1 V Bs ∅ V1) as (s2 & R2 & E2 & V2); rewrite ?G1 in *;
    [by right|done..|].
  change (log_start g1) with st in *. fold ws in E2, V2.
  set (s3 := set_log (set_lh_n 0 (lg s2)) s2).
  pose proof (evolves_set_lg s2 (set_lh_n 0)) as E3. fold s3 in E3.
  assert (view s3 (apply_writes V ws) ∅ ∅) as V3 by (by eapply view_log).
  assert (lg s3 = set_lh_n 0 (set_lh_block l (lg s))) as G3.
  { rewrite (e_log _ _ _ _ E3), (e_log _ _ _ _ E2). done. }
  destruct (write_head_run s3 (apply_writes V ws) [] ∅ V3) as (hd & s4 & R4 & H4 & E4 & V4);
    rewrite ?G3, ?apply_writes_length.
  - rewrite size_empty. unfold NBUF. lia.
  - by destruct Hlay.
  - split; [done|apply L1|done].
  - destruct Hhome. split; [constructor|by intros b ?%elem_of_nil|]. cbn.
    destruct Hlay. cbn in *. lia.
  - apply not_elem_of_empty.
  - change (length (apply_writes V ws !!! st) = BSIZE).
    assert (st ∉ ws.*1) as Hst.
    { unfold ws. rewrite install_writes_fst by done. rewrite firstn_all. intros Hx.
      apply (homes_log _ _ _ Hhome _ Hx). apply (in_log_start _ _ Hlay). }
    rewrite list_lookup_total_alt, apply_writes_ne by done.
    rewrite <- list_lookup_total_alt. apply Hhead.
  - exists l, hd, s4. split_and!; [|done|apply L1| |].
    + unfold recover_from_log. rewrite (bind_ok _ _ _ _ _ R1), (bind_ok _ _ _ _ _ R2).
      unfold set_lg. rewrite bind_modify. exact R4.
    + rewrite <- G3.
      rewrite (e_log _ _ _ _ E2) in E3. rewrite G3 in E4 at 1.
      change (ws ++ [(st, hd)]) with ([] ++ ws ++ [] ++ [(st, hd)]).
      eapply evolves_trans; [exact E1|]. eapply evolves_trans; [exact E2|].
      eapply evolves_trans; [exact E3|exact E4].
    + rewrite G3 in V4. exact V4.
Qed.
End Recover.

(** The home writes of a transaction. *)
Definition home_writes (V : list block) (Bs : list nat) : list (nat * block) :=
  (fun b => (b, V !!! b)) <$> Bs.

Lemma home_writes_fst V Bs : (home_writes V Bs).*1 = Bs.
Proof. unfold home_writes. rewrite <- list_fmap_compose. apply list_fmap_id. Qed.

Lemma home_writes_in V Bs b v : (b, v) ∈ home_writes V Bs -> b ∈ Bs /\ v = V !!! b.
Proof. unfold home_writes. intros (b' & [= -> ->] & Hb)%list_elem_of_fmap. done. Qed.

Lemma install_writes_home st V1 V Bs :
  (forall j, (j < length Bs)%nat -> V1 !!! (st + j + 1)%nat = V !!! (Bs !!! j)) ->
  install_writes st V1 Bs (length Bs) = home_writes V Bs.
Proof.
  intros Hj. unfold install_writes, home_writes. apply list_eq. intros i.
  rewrite !list_lookup_fmap. destruct (decide (i < length Bs)%nat) as [Hi|Hi].
  - rewrite lookup_seq_lt by done. cbn. rewrite Hj by done.
    destruct (lookup_lt_is_Some_2 Bs i Hi) as [b Hb].
    by rewrite Hb, (list_lookup_total_correct _ _ _ Hb).
  - rewrite lookup_seq_ge by lia. by rewrite lookup_ge_None_2 by lia.
Qed.

(** The log blocks after they are written. *)
Lemma log_writes_at st (W V : list block) Bs j :
  (j < length Bs)%nat -> (st + length Bs < length W)%nat ->
  apply_writes W (log_writes st V Bs (length Bs)) !! (st + j + 1)%nat = Some (V !!! (Bs !!! j)).
Proof.
  intros Hj Hlt. apply apply_writes_eq; [apply log_writes_nodup| |lia].
  apply list_elem_of_fmap. exists j. split; [done|]. apply elem_of_seq. lia.
Qed.

Section Commit.
Context (s : store) (V : list block) (Bs : list nat).
Hypothesis Hv : view s V ∅ (list_to_set Bs).
Hypothesis Hlay : layout (lg s) (length V).
Hypothesis Hlogs : logs (lg s) Bs.
Hypothesis Hhome : homes (lg s) (length V) Bs.

Local Abbreviation st := (log_start (lg s)).
Local Abbreviation w1 := (log_writes st V Bs (length Bs)).

Lemma st_not_home : st ∉ Bs.
Proof using Hlay Hhome.
  intros Hx. apply (homes_log _ _ _ Hhome _ Hx), (in_log_start _ _ Hlay).
Qed.

Lemma st_not_w1 : st ∉ w1.*1.
Proof using Type. intros Hx%log_writes_fst. lia. Qed.

Lemma log_end : (st + length Bs < length V)%nat.
Proof using Hlay Hhome. destruct Hlay, Hhome. lia. Qed.

Lemma home_not_w1 b : ~ in_log (lg s) b -> b ∉ w1.*1.
Proof using Hlay Hhome.
  intros Hb Hx%log_writes_fst. apply Hb. pose proof (h_room _ _ _ Hhome). unfold in_log. lia.
Qed.

Lemma w1_at (W : list block) hd j : length W = length V -> (j < length Bs)%nat ->
  <[st := hd]> (apply_writes W w1) !! (st + j + 1)%nat = Some (V !!! (Bs !!! j)).
Proof using Hlay Hhome.
  intros HW Hj. rewrite list_lookup_insert_ne by lia. apply log_writes_at; [done|].
  rewrite HW. apply log_end.
Qed.

Hypothesis Hhd : length (V !!! log_start (lg s)) = BSIZE.
Hypothesis Hsome : Bs <> [].

Lemma commit_run :
  exists hd1 hd0 s', commit s = Ok (tt, s') /\ holds_head hd1 Bs /\ holds_head hd0 [] /\
    evolves s (w1 ++ [(st, hd1)] ++ home_writes V Bs ++ [(st, hd0)]) (set_lh_n 0 (lg s)) s' /\
    view s' (<[st := hd0]> (<[st := hd1]> (apply_writes V w1))) ∅ ∅.
Proof using All.
  destruct (write_log_run s V Bs Hv Hlay Hlogs Hhome) as (s1 & R1 & E1 & V1).
  pose proof (e_log _ _ _ _ E1) as G1.
  assert (st ∉ (list_to_set Bs : gset nat)) as Hclean.
  { rewrite elem_of_list_to_set. apply st_not_home. }
  destruct (write_head_run s1 _ Bs _ V1) as (hd1 & s2 & R2 & H2 & E2 & V2);
    rewrite ?G1, ?apply_writes_length in *; try done.
  { apply (homes_size _ _ _ Hlay Hhome). }
  { rewrite list_lookup_total_alt, apply_writes_ne by apply st_not_w1.
    by rewrite <- list_lookup_total_alt. }
  pose proof (e_log _ _ _ _ E2) as G2.
  set (V' := <[st := hd1]> (apply_writes V w1)) in *.
  assert (length V' = length V) as LV' by (unfold V'; by rewrite length_insert, apply_writes_length).
  destruct (install_trans_run s2 V' Bs _ V2) as (s3 & R3 & E3 & V3);
    rewrite ?G2, ?LV'; [by left|done..|].
  rewrite G2 in E3, V3.
  rewrite (install_writes_home _ V' V) in E3, V3 by
    (intros j Hj; apply list_lookup_total_correct; unfold V'; by apply w1_at).
  rewrite apply_writes_same in V3.
  2:{ intros b v [Hb ->]%home_writes_in. destruct (h_home _ _ _ Hhome b Hb) as (Hlt & Hnl & _).
      unfold V'. rewrite list_lookup_insert_ne by (intros <-; by apply st_not_home).
      rewrite apply_writes_ne by (by apply home_not_w1).
      by apply list_lookup_lookup_total_lt. }
  set (s4 := set_log (set_lh_n 0 (lg s3)) s3).
  pose proof (evolves_set_lg s3 (set_lh_n 0)) as E4. fold s4 in E4.
  rewrite (e_log _ _ _ _ E3) in E4. pose proof (e_log _ _ _ _ E4) as G4.
  assert (view s4 V' ∅ ∅) as V4 by (by eapply view_log).
  destruct (write_head_run s4 V' [] ∅ V4) as (hd0 & s5 & R5 & H5 & E5 & V5);
    rewrite ?G4, ?LV'.
  { rewrite size_empty. unfold NBUF. lia. }
  { by destruct Hlay. }
  { split; [done|apply Hlogs|done]. }
  { destruct Hlay. split; [constructor|by intros b ?%elem_of_nil|]. cbn. lia. }
  { apply not_elem_of_empty. }
  { change (length (V' !!! st) = BSIZE). unfold V'.
    rewrite list_lookup_total_insert_eq; [apply H2|]. rewrite apply_writes_length.
    pose proof log_end. lia. }
  exists hd1, hd0, s5. split_and!; [|done|done| |].
  - unfold commit. rewrite bind_gets. rewrite (lh_count _ _ Hlogs).
    destruct Bs as [|b Bs'] eqn:HB; [done|]. change (0 <? Z.of_nat (length (b :: Bs'))) with true.
    cbv iota.
    rewrite (bind_ok _ _ _ _ _ R1), (bind_ok _ _ _ _ _ R2), (bind_ok _ _ _ _ _ R3).
    unfold set_lg. rewrite bind_modify. exact R5.
  - rewrite G4 in E5. eapply evolves_trans; [exact E1|]. eapply evolves_trans; [exact E2|].
    eapply evolves_trans; [exact E3|]. change [(st, hd0)] with ([] ++ [(st, hd0)]).
    eapply evolves_trans; [exact E4|exact E5].
  - rewrite G4 in V5. exact V5.
Qed.
End Commit.

(** ** Boot *)

(** The buffers that [binit] leaves: an unused buffer each, linked in one ring. *)
Definition binit_bufs : list buf :=
  match binit (power_on 0 []) with Ok (_, s) => bufs s | _ => [] end.

Lemma binit_run p d : binit (power_on p d) = Ok (tt, set_bufs binit_bufs (power_on p d)).
Proof. vm_compute. reflexivity. Qed.

Definition unused (b : buf) : bool :=
  (dev b =? 0) && match lock b with None => true | _ => false end && (refcnt b =? 0) && (flags b =? 0).

Lemma unused_true b : unused b = true -> dev b = 0 /\ lock b = None /\ refcnt b = 0 /\ flags b = 0.
Proof.
  unfold unused. destruct (lock b); [by rewrite andb_false_r|]. rewrite andb_true_r.
  intros [[H1%Z.eqb_eq H2%Z.eqb_eq]%andb_true_iff H3%Z.eqb_eq]%andb_true_iff. done.
Qed.

Lemma binit_unused : forallb unused (take NBUF binit_bufs) = true.
Proof. vm_compute. reflexivity. Qed.

Lemma binit_ring : ring binit_bufs (rev (seq 0 NBUF)).
Proof. vm_compute. repeat split. Qed.

Lemma binit_length : length binit_bufs = S NBUF.
Proof. vm_compute. reflexivity. Qed.

#[local] Opaque binit_bufs.

(** A new cache agrees with every disk. *)
Lemma binit_view p d : view (set_bufs binit_bufs (power_on p d)) d ∅ ∅.
Proof.
  exists (rev (seq 0 NBUF)).
  assert (forall i b, (i < NBUF)%nat -> binit_bufs !! i = Some b ->
    dev b = 0 /\ lock b = None /\ refcnt b = 0 /\ flags b = 0) as Hu.
  { intros i b Hi Hb. pose proof binit_unused as Hf. rewrite forallb_forall in Hf.
    assert (In b (take NBUF binit_bufs)) as Hin.
    { apply list_elem_of_In, (list_elem_of_lookup_2 _ i). by rewrite lookup_take_lt. }
    exact (unused_true b (Hf b Hin)). }
  assert (forall bn i, ~ caches (set_bufs binit_bufs (power_on p d)) bn i) as Hno.
  { intros bn i (Hi & b & Hb & Hd & _). destruct (Hu i b Hi Hb) as [H0 _]. by rewrite H0 in Hd. }
  split.
  - exact binit_length.
  - exact binit_ring.
  - apply NoDup_ListNoDup, NoDup_rev, NoDup_ListNoDup, NoDup_seq.
  - intros i.
    rewrite list_elem_of_In, <- in_rev, in_seq. clear. lia.
  - reflexivity.
  - reflexivity.
  - intros i b Hi Hb. left. exact (Hu i b Hi Hb).
  - intros bn i j Hi. by apply Hno in Hi.
  - intros bn i Hi. by rewrite lookup_empty in Hi.
  - intros bn Hbn. by apply not_elem_of_empty in Hbn.
  - intros bn _ _. reflexivity.
Qed.

(** The super block of the disk [d] places the log where [g] has it. *)
Definition super_of (d : list block) (g : log) : Prop :=
  exists v sb, d !! 1%nat = Some v /\ read_sb v = Some sb /\
    Z.to_nat (sb_logstart sb) = log_start g /\ i32 (sb_nlog sb) = log_size g.

Section Boot.
Context (p : Z) (d : list block) (g : log) (Bs : list nat).
Hypothesis Hlay : layout g (length d).
Hypothesis Hhome : homes g (length d) Bs.
Hypothesis Hsup : super_of d g.
Hypothesis Hhead : holds_head (d !!! log_start g) Bs.

Lemma boot_run :
  let ws := install_writes (log_start g) d Bs (length Bs) in
  exists hd s', boot (power_on p d) = Ok (tt, s') /\ holds_head hd [] /\
    memdisk s' = apply_writes d (ws ++ [(log_start g, hd)]) /\
    writes s' = ws ++ [(log_start g, hd)] /\
    view s' (memdisk s') ∅ ∅ /\ log_lock s' = false /\
    exists l, length l = LOGSIZE /\ lg s' = Log (log_start g) (log_size g) 1 0 false 0 l.
Proof using All.
  intros ws. unfold boot. rewrite (bind_ok _ _ _ _ _ (binit_run p d)).
  set (s0 := set_bufs binit_bufs (power_on p d)).
  pose proof (binit_view p d) as V0. fold s0 in V0.
  destruct Hsup as (v & sb & Hv1 & Hsb & Hst & Hsz).
  unfold initlog. rewrite bind_modify.
  set (s1 := set_log_lock false s0).
  assert (view s1 d ∅ ∅) as V1 by (by eapply view_log).
  destruct (bread_view s1 d ∅ ∅ 1%nat v V1 Hv1 (lookup_empty _)) as (b & s2 & R2 & E2 & V2).
  { right. apply room_empty. rewrite size_empty. unfold NBUF. lia. }
  assert ((<[1%nat := b]> (∅ : gmap nat nat)) !! 1%nat = Some b) as HHb by apply lookup_insert_eq.
  destruct (held_data _ _ _ _ _ _ _ V2 HHb Hv1) as (x & Hx & Hdx & _).
  destruct (brelse_view s2 d _ ∅ 1%nat b V2 HHb) as (s3 & R3 & E3 & V3).
  { right. by rewrite (e_disk _ _ _ _ E2). }
  rewrite delete_insert_id in V3 by apply lookup_empty.
  assert (readsb 1 s1 = Ok (sb, s3)) as Rsb.
  { unfold readsb. rewrite (bind_ok _ _ _ _ _ R2), (bind_ok _ _ _ _ _ (getb_run b x s2 Hx)).
    rewrite Hdx, Hsb. mrun. rewrite (bind_ok _ _ _ _ _ R3). done. }
  rewrite (bind_ok _ _ _ _ _ Rsb). unfold set_lg at 1. rewrite bind_modify.
  rewrite Hst, Hsz. set (s4 := set_log _ s3).
  assert (view s4 d ∅ ∅) as V4 by (by eapply view_log).
  assert (lg s3 = Log 0 0 0 0 false 0 (replicate LOGSIZE 0)) as G3.
  { rewrite (e_log _ _ _ _ E3), (e_log _ _ _ _ E2). done. }
  assert (lg s4 = Log (log_start g) (log_size g) 1 0 false 0 (replicate LOGSIZE 0)) as G4.
  { unfold s4. cbn. by rewrite G3. }
  destruct (recover_run s4 d Bs V4) as (l & hd & s5 & R5 & H5 & L5 & E5 & V5); rewrite ?G4.
  - by apply (layout_ext g).
  - by apply (homes_ext g).
  - apply length_replicate.
  - done.
  - rewrite G4 in E5, V5. cbn [log_start] in *. fold ws in E5, V5.
    assert (memdisk s4 = d) as D4.
    { unfold s4. cbn. by rewrite (e_disk _ _ _ _ E3), (e_disk _ _ _ _ E2). }
    assert (writes s4 = []) as W4.
    { unfold s4. cbn. by rewrite (e_writes _ _ _ _ E3), (e_writes _ _ _ _ E2). }
    exists hd, s5. split_and!; [done|done| | | | |].
    + by rewrite (e_disk _ _ _ _ E5), D4.
    + by rewrite (e_writes _ _ _ _ E5), W4.
    + rewrite (e_disk _ _ _ _ E5), D4, apply_writes_app. exact V5.
    + rewrite (e_lock _ _ _ _ E5). unfold s4. cbn.
      rewrite (e_lock _ _ _ _ E3), (e_lock _ _ _ _ E2). reflexivity.
    + exists l. split; [exact L5|]. rewrite (e_log _ _ _ _ E5). reflexivity.
Qed.
End Boot.
