(* ===== verification/LogThms.v ===== *)
(** * Crash safety of the log

    The properties of [lab-2/log.c]: atomic commit, recovery that can be
    interrupted, absorption, and the reservation that keeps a transaction below
    the size of the log. *)

From S2P Require Import Prelude Bytes Bcache BcacheSpec Log LogSpec Recovery.

#[local] Opaque boot.

(** The disks agree outside of the log. *)
Definition same_home (g : log) (d d' : list block) : Prop :=
  forall bn, ~ in_log g bn -> d !! bn = d' !! bn.

(** The file system between two transactions: nothing is held or dirty, the log is
    empty in memory and on the disk. *)
Record idle (s : store) : Prop := Idle {
  i_view : view s (memdisk s) ∅ ∅;
  i_layout : layout (lg s) (length (memdisk s));
  i_count : lh_n (lg s) = 0;
  i_len : length (lh_block (lg s)) = LOGSIZE;
  i_out : outstanding (lg s) = 0;
  i_committing : committing (lg s) = false;
  i_lock : log_lock s = false;
  i_super : super_of (memdisk s) (lg s);
  i_empty : holds_head (memdisk s !!! log_start (lg s)) []
}.

Lemma super_ext d d' g g' :
  d' !! 1%nat = d !! 1%nat -> log_start g' = log_start g -> log_size g' = log_size g ->
  super_of d g -> super_of d' g'.
Proof.
  intros H1 H2 H3 (v & sb & Hv & Hsb & ? & ?). exists v, sb. rewrite H1, H2, H3. done.
Qed.

(** ** A disk that a crash left *)

(** Recovery leads to an idle system. *)
Lemma boot_idle p d g Bs :
  layout g (length d) -> homes g (length d) Bs -> super_of d g ->
  holds_head (d !!! log_start g) Bs ->
  let ws := install_writes (log_start g) d Bs (length Bs) in
  exists hd r, boot (power_on p d) = Ok (tt, r) /\ holds_head hd [] /\ idle r /\
    memdisk r = apply_writes d (ws ++ [(log_start g, hd)]) /\
    writes r = ws ++ [(log_start g, hd)] /\
    log_start (lg r) = log_start g /\ log_size (lg r) = log_size g.
Proof.
  intros Hl Hh Hs Hd ws.
  destruct (boot_run p d g Bs Hl Hh Hs Hd) as (hd & r & Hr & H0 & Hm & Hw & Hv & Hlk & l & Hll & Hg).
  fold ws in Hm, Hw. exists hd, r. split; [exact Hr|]. clear Hr. split_and!; [done| |done|done|by rewrite Hg..].
  assert (length (memdisk r) = length d) as Hlen by (by rewrite Hm, apply_writes_length).
  assert (log_start g < length d)%nat as Hst by (apply (in_log_lt _ _ Hl), (in_log_start _ _ Hl)).
  split; rewrite ?Hg, ?Hlen; try done.
  - by apply (layout_ext g).
  - apply (super_ext d _ g); try done. rewrite Hm. apply apply_writes_ne.
    unfold ws. rewrite fmap_app, install_writes_fst, firstn_all by done. cbn.
    intros [Hx|Hx%list_elem_of_singleton]%elem_of_app.
    + by apply (h_home _ _ _ Hh) in Hx as (_ & _ & ?).
    + pose proof (l_start _ _ Hl). lia.
  - rewrite Hm, apply_writes_app. cbn. unfold dput. cbn.
    by rewrite list_lookup_total_insert_eq by (by rewrite apply_writes_length).
Qed.

Section Crash.
Context (d V : list block) (g : log) (Bs : list nat) (hd1 : block).
Hypothesis Hlay : layout g (length d).
Hypothesis Hhome : homes g (length d) Bs.
Hypothesis Hsup : super_of d g.

Local Abbreviation st := (log_start g).
Local Abbreviation w1 := (log_writes st V Bs (length Bs)).

Lemma super_apply ws :
  (1%nat ∉ ws.*1) -> super_of (apply_writes d ws) g.
Proof using Hsup.
  intros Hws. destruct Hsup as (v & sb & Hv & ?). exists v, sb.
  by rewrite apply_writes_ne.
Qed.

Lemma one_not_log : ~ in_log g 1%nat.
Proof using Hlay. pose proof (l_start _ _ Hlay). unfold in_log. lia. Qed.

Lemma w1_in_log bn : bn ∈ w1.*1 -> in_log g bn.
Proof using Hhome. intros Hx%log_writes_fst. pose proof (h_room _ _ _ Hhome). unfold in_log. lia. Qed.

(** A disk whose header is empty keeps its blocks. *)
Lemma boot_old p dk :
  length dk = length d -> super_of dk g -> holds_head (dk !!! st) [] ->
  exists r, boot (power_on p dk) = Ok (tt, r) /\ idle r /\ same_home g (memdisk r) dk.
Proof using Hlay.
  intros Hl Hs Hh.
  assert (homes g (length d) []) as Hno.
  { split; [constructor|by intros b ?%elem_of_nil|]. pose proof (l_size _ _ Hlay). cbn. lia. }
  rewrite <- Hl in Hlay, Hno.
  destruct (boot_idle p dk g [] Hlay Hno Hs Hh) as (hd & r & Hr & _ & Hi & Hm & _).
  exists r. split; [exact Hr|]. clear Hr. split; [exact Hi|]. intros bn Hbn. rewrite Hm. cbn. unfold dput. cbn.
  rewrite list_lookup_insert_ne; [done|]. intros <-. by apply Hbn, in_log_start with (length dk).
Qed.

(** The disk after the header write and some of the home writes. *)
Definition half_installed (m : nat) : list block :=
  apply_writes (<[st := hd1]> (apply_writes d w1)) (take m (home_writes V Bs)).

Lemma half_length m : length (half_installed m) = length d.
Proof using Type.
  unfold half_installed. by rewrite apply_writes_length, length_insert, apply_writes_length.
Qed.

Lemma half_other m bn : bn ∉ Bs -> half_installed m !! bn = <[st := hd1]> (apply_writes d w1) !! bn.
Proof using Type.
  intros Hbn. unfold half_installed. apply apply_writes_ne.
  rewrite fmap_take, home_writes_fst. intros (i & Hx%list_elem_of_lookup_2 & _)%elem_of_take.
  by apply Hbn.
Qed.

Lemma half_header m : half_installed m !! st = Some hd1.
Proof using Hlay Hhome.
  rewrite half_other by (intros Hx; apply (homes_log _ _ _ Hhome _ Hx), (in_log_start _ _ Hlay)).
  apply list_lookup_insert_eq. rewrite apply_writes_length.
  apply (in_log_lt _ _ Hlay), (in_log_start _ _ Hlay).
Qed.

Lemma half_log m j : (j < length Bs)%nat ->
  half_installed m !! (st + j + 1)%nat = Some (V !!! (Bs !!! j)).
Proof using Hlay Hhome.
  intros Hj. pose proof (in_log_at _ _ _ Hlay Hhome j Hj) as Hin.
  rewrite half_other by (intros Hx; by apply (homes_log _ _ _ Hhome _ Hx)).
  rewrite list_lookup_insert_ne by lia. apply log_writes_at; [done|].
  destruct Hlay, Hhome. lia.
Qed.

Lemma half_home m bn : ~ in_log g bn -> bn ∉ Bs -> half_installed m !! bn = d !! bn.
Proof using Hlay Hhome.
  intros Hbn HB. rewrite half_other by done.
  rewrite list_lookup_insert_ne by (intros <-; by apply Hbn, in_log_start with (length d)).
  apply apply_writes_ne. intros Hx. by apply Hbn, w1_in_log.
Qed.

Hypothesis Hlen : length V = length d.

(** Recovery completes such a disk. *)
Lemma boot_new p m :
  holds_head hd1 Bs -> (forall bn, bn ∉ Bs -> V !! bn = d !! bn \/ in_log g bn) ->
  exists r, boot (power_on p (half_installed m)) = Ok (tt, r) /\ idle r /\ same_home g (memdisk r) V.
Proof using All.
  intros Hh HV.
  assert (1%nat ∉ Bs) as H1 by (intros Hx; by apply (h_home _ _ _ Hhome) in Hx as (_ & _ & ?)).
  destruct (boot_idle p (half_installed m) g Bs) as (hd & r & Hr & _ & Hi & Hm & _).
  - by rewrite half_length.
  - by rewrite half_length.
  - destruct Hsup as (v & sb & Hv & ?). exists v, sb. by rewrite half_home by (done || apply one_not_log).
  - by rewrite (list_lookup_total_correct _ _ _ (half_header m)).
  - exists r. split; [exact Hr|]. clear Hr. split; [exact Hi|]. intros bn Hbn. rewrite Hm, apply_writes_app. cbn. unfold dput. cbn.
    rewrite list_lookup_insert_ne by (intros <-; by apply Hbn, in_log_start with (length d)).
    rewrite (install_writes_home _ _ V) by
      (intros j Hj; apply list_lookup_total_correct; by apply half_log).
    destruct (decide (bn ∈ Bs)) as [HB|HB].
    + destruct (h_home _ _ _ Hhome bn HB) as (Hlt & _ & _).
      rewrite (list_lookup_lookup_total_lt V) by (by rewrite Hlen). apply apply_writes_eq.
      * rewrite home_writes_fst. apply Hhome.
      * apply list_elem_of_fmap. by exists bn.
      * by rewrite half_length.
    + rewrite apply_writes_ne by (by rewrite home_writes_fst).
      rewrite half_home by done. by destruct (HV bn HB).
Qed.
End Crash.

(** ** Atomic commit *)

(** A transaction that is ready to commit: the log lists its blocks [Bs], which are
    the dirty ones; the header on the disk is empty. *)
Record ready_to_commit (s : store) (V : list block) (Bs : list nat) : Prop := Ready {
  r_view : view s V ∅ (list_to_set Bs);
  r_layout : layout (lg s) (length V);
  r_logs : logs (lg s) Bs;
  r_homes : homes (lg s) (length V) Bs;
  r_super : super_of (memdisk s) (lg s);
  r_empty : holds_head (memdisk s !!! log_start (lg s)) []
}.

Lemma take_after {A} (l1 l2 : list A) k : (length l1 <= k)%nat ->
  take k (l1 ++ l2) = l1 ++ take (k - length l1) l2.
Proof. intros Hk. rewrite take_app. by rewrite take_ge by done. Qed.

Section CommitCrash.
Context (s : store) (V : list block) (Bs : list nat) (hd1 hd0 : block) (p : Z).
Hypothesis Hready : ready_to_commit s V Bs.
Hypothesis Hh1 : holds_head hd1 Bs.
Hypothesis Hh0 : holds_head hd0 [].

Local Abbreviation d := (memdisk s).
Local Abbreviation st := (log_start (lg s)).
Local Abbreviation w1 := (log_writes st V Bs (length Bs)).

(** The writes of the commit. *)
Local Abbreviation ws := (w1 ++ [(st, hd1)] ++ home_writes V Bs ++ [(st, hd0)]).

Lemma ready_length : length V = length d.
Proof using Hready. apply (view_length _ _ _ _ (r_view _ _ _ Hready)). Qed.

Lemma ready_layout : layout (lg s) (length d).
Proof using Hready. rewrite <- ready_length. apply Hready. Qed.

Lemma ready_homes : homes (lg s) (length d) Bs.
Proof using Hready. rewrite <- ready_length. apply Hready. Qed.

Lemma w1_length : length w1 = length Bs.
Proof using Type. unfold log_writes. by rewrite length_fmap, length_seq. Qed.

Lemma ready_clean bn : bn ∉ Bs -> V !! bn = d !! bn.
Proof using Hready.
  intros HB. destruct (r_view _ _ _ Hready) as [l Hc].
  apply (c_clean _ _ _ _ _ Hc); [|apply lookup_empty]. by rewrite elem_of_list_to_set.
Qed.

Lemma not_start bn : ~ in_log (lg s) bn -> st <> bn.
Proof using Hready. intros Hb <-. apply Hb, (in_log_start _ _ ready_layout). Qed.

Lemma home_take bn : bn ∈ Bs -> apply_writes (<[st := hd1]> (apply_writes d w1))
  (home_writes V Bs) !! bn = V !! bn.
Proof using Hready.
  intros HB. destruct (h_home _ _ _ ready_homes bn HB) as (Hlt & _ & _).
  rewrite (list_lookup_lookup_total_lt V) by (by rewrite ready_length).
  apply apply_writes_eq.
  - rewrite home_writes_fst. apply ready_homes.
  - apply list_elem_of_fmap. by exists bn.
  - by rewrite length_insert, apply_writes_length.
Qed.

(** Before the header is written. *)
Lemma crash_before k : (k <= length Bs)%nat ->
  exists r, boot (power_on p (apply_writes d (take k ws))) = Ok (tt, r) /\ idle r /\
    same_home (lg s) (memdisk r) d.
Proof using Hready.
  intros Hk. rewrite take_app_le by (by rewrite w1_length).
  assert (forall bn, ~ in_log (lg s) bn \/ bn = st ->
    apply_writes d (take k w1) !! bn = d !! bn) as Hsame.
  { intros bn Hbn. apply apply_writes_ne. rewrite fmap_take.
    intros (i & Hx%list_elem_of_lookup_2 & _)%elem_of_take.
    destruct Hbn as [Hbn | ->]; [by apply Hbn, (w1_in_log d V _ _ ready_homes)|].
    apply log_writes_fst in Hx. lia. }
  destruct (boot_old d (lg s) ready_layout p (apply_writes d (take k w1))) as (r & Hr & Hi & Hsm).
  - apply apply_writes_length.
  - destruct (r_super _ _ _ Hready) as (v & sb & Hv & Hsb). exists v, sb.
    rewrite Hsame; [done|]. left. apply (one_not_log d), ready_layout.
  - rewrite list_lookup_total_alt, Hsame by (by right).
    rewrite <- list_lookup_total_alt. apply Hready.
  - exists r. split; [exact Hr|]. clear Hr. split; [exact Hi|]. intros bn Hbn. rewrite Hsm by done. apply Hsame. by left.
Qed.

(** After some of the home writes. *)
Lemma crash_during k : (length Bs < k <= length Bs + 1 + length Bs)%nat ->
  exists r, boot (power_on p (apply_writes d (take k ws))) = Ok (tt, r) /\ idle r /\
    same_home (lg s) (memdisk r) V.
Proof using All.
  intros Hk.
  assert (apply_writes d (take k ws) =
    half_installed d V (lg s) Bs hd1 (k - length Bs - 1)) as ->.
  { rewrite take_after by (rewrite w1_length; lia). rewrite w1_length, apply_writes_app.
    destruct (k - length Bs)%nat as [|m] eqn:Hm; [lia|].
    cbn [take app]. replace (S m - 1)%nat with m by lia.
    rewrite take_app_le; [done|]. unfold home_writes. rewrite length_fmap. lia. }
  apply boot_new; try done.
  - apply ready_layout.
  - apply ready_homes.
  - apply Hready.
  - apply ready_length.
  - intros bn HB. left. by apply ready_clean.
Qed.

(** After all writes. *)
Lemma crash_after :
  exists r, boot (power_on p (apply_writes d ws)) = Ok (tt, r) /\ idle r /\
    same_home (lg s) (memdisk r) V.
Proof using All.
  pose proof ready_homes as Rh. pose proof ready_layout as Rl.
  set (dk := half_installed d V (lg s) Bs hd1 (length Bs)).
  assert (apply_writes d ws = <[st := hd0]> dk) as ->.
  { unfold dk, half_installed. rewrite !apply_writes_app. cbn. unfold dput. cbn. do 2 f_equal.
    by rewrite take_ge by (unfold home_writes; by rewrite length_fmap). }
  destruct (boot_old d (lg s) Rl p (<[st := hd0]> dk)) as (r & Hr & Hi & Hsm).
  - unfold dk. by rewrite length_insert, half_length.
  - destruct (r_super _ _ _ Hready) as (v & sb & Hv & Hsb). exists v, sb.
    pose proof (one_not_log _ _ Rl) as H1.
    rewrite list_lookup_insert_ne by (by apply not_start). unfold dk.
    rewrite (half_home _ _ _ _ _ Rl Rh); [done|done|].
    intros Hx. by apply (h_home _ _ _ Rh) in Hx as (_ & _ & ?).
  - rewrite list_lookup_total_insert_eq; [done|]. unfold dk. rewrite half_length.
    apply (in_log_lt _ _ Rl), (in_log_start _ _ Rl).
  - exists r. split; [exact Hr|]. clear Hr. split; [exact Hi|]. intros bn Hbn. rewrite Hsm by done.
    rewrite list_lookup_insert_ne by (by apply not_start).
    destruct (decide (bn ∈ Bs)) as [HB|HB].
    + unfold dk, half_installed. rewrite take_ge by (unfold home_writes; by rewrite length_fmap).
      by apply home_take.
    + unfold dk. rewrite (half_home _ _ _ _ _ Rl Rh) by done. symmetry. by apply ready_clean.
Qed.

Lemma commit_crash k :
  exists r, boot (power_on p (apply_writes d (take k ws))) = Ok (tt, r) /\ idle r /\
    same_home (lg s) (memdisk r) (if (k <=? length Bs)%nat then d else V).
Proof using All.
  destruct (Nat.leb_spec k (length Bs)) as [Hk|Hk]; [by apply crash_before|].
  destruct (decide (k <= length Bs + 1 + length Bs)%nat) as [Hk2|Hk2]; [by apply crash_during|].
  rewrite take_ge; [apply crash_after|].
  rewrite !length_app, w1_length. unfold home_writes. rewrite length_fmap. cbn. lia.
Qed.
End CommitCrash.
