(* ===== verification/Transaction.v ===== *)
(** * Transactions

    A file system call as [lab-2/log.c] means it: [begin_op], block updates that end
    in [log_write], [end_op].  Its updates reach the disk together or not at all. *)

From S2P Require Import Prelude Bytes Bcache BcacheSpec Log LogSpec Recovery LogThms.

#[local] Opaque boot.

(** ** log_write *)

(** The blocks of the log after [bn] is logged. *)
Definition absorbed (Bs : list nat) (bn : nat) : list nat :=
  if decide (bn ∈ Bs) then Bs else Bs ++ [bn].

(** The search of [log_write] among the logged blocks. *)
Lemma absorb_run s Bs bn n i :
  logs (lg s) Bs -> (forall b, b ∈ Bs -> Z.of_nat b < 2 ^ 31) -> Z.of_nat bn < 2 ^ 31 ->
  (i + n = length Bs)%nat ->
  exists j, absorb n i (Z.of_nat bn) s = Ok (j, s) /\
    ((Bs !! j = Some bn) \/ (j = length Bs /\ bn ∉ drop i Bs)).
Proof.
  intros Hg HB Hbn. revert i. induction n as [|n IH]; intros i Hi.
  - exists i. split; [done|]. right. split; [lia|]. rewrite drop_ge by lia. apply not_elem_of_nil.
  - destruct (lookup_lt_is_Some_2 Bs i ltac:(lia)) as [b Hb].
    cbn [absorb]. rewrite (bind_ok _ _ _ _ _ (logged_run i _ s (lh_at _ _ Hg i b Hb))).
    pose proof (HB b (list_elem_of_lookup_2 _ _ _ Hb)).
    rewrite w32_small by lia. destruct (Z.eqb_spec (Z.of_nat b) (Z.of_nat bn)) as [He|He].
    + exists i. split; [done|]. left. rewrite Hb. f_equal. lia.
    + destruct (IH (S i) ltac:(lia)) as (j & Hr & Hj). exists j. split; [done|].
      destruct Hj as [Hj|[Hj1 Hj2]]; [by left|right]. split; [done|].
      rewrite (drop_S _ _ _ Hb). intros [?|?]%elem_of_cons; [lia|done].
Qed.

Lemma logs_absorb g Bs bn j :
  logs g Bs -> (length Bs < LOGSIZE)%nat ->
  (Bs !! j = Some bn) \/ (j = length Bs /\ bn ∉ Bs) ->
  logs (set_lh_n (Z.of_nat (length (absorbed Bs bn)))
    (set_lh_block (<[j := Z.of_nat bn]> (lh_block g)) g)) (absorbed Bs bn) /\
  length (absorbed Bs bn) = (if (j =? length Bs)%nat then S (length Bs) else length Bs).
Proof.
  intros [H1 H2 H3] Hlt Hj. unfold absorbed. destruct Hj as [Hj|[-> Hnot]].
  - rewrite decide_True by (by eapply list_elem_of_lookup_2).
    pose proof (lookup_lt_Some _ _ _ Hj). rewrite (proj2 (Nat.eqb_neq _ _)) by lia.
    split; [|done]. split; cbn; [done|by rewrite length_insert|].
    intros i b Hi. rewrite list_insert_id; [by apply H3|]. by apply H3.
  - rewrite decide_False by done. rewrite Nat.eqb_refl, length_app. cbn.
    split; [|lia]. split; cbn; [by rewrite length_app|by rewrite length_insert|].
    intros i b [Hi|[Hi1 Hi2]]%lookup_app_Some.
    + pose proof (lookup_lt_Some _ _ _ Hi). rewrite list_lookup_insert_ne by lia. by apply H3.
    + apply list_lookup_singleton_Some in Hi2 as [Hi2 <-].
      assert (i = length Bs) as -> by lia. apply list_lookup_insert_eq. by rewrite H2.
Qed.

Section LogWrite.
Context (s : store) (V : list block) (H : gmap nat nat) (D : gset nat) (Bs : list nat).
Hypothesis Hv : view s V H D.
Hypothesis Hg : logs (lg s) Bs.
Hypothesis HB : forall b, b ∈ Bs -> Z.of_nat b < 2 ^ 31.
Hypothesis Hsz : log_size (lg s) <= Z.of_nat LOGSIZE.
Hypothesis Hroom : Z.of_nat (length Bs) < log_size (lg s) - 1.
Hypothesis Hout : 1 <= outstanding (lg s).
Hypothesis Hlock : log_lock s = false.

Lemma log_write_run bn i v :
  H !! bn = Some i -> V !! bn = Some v -> Z.of_nat bn < 2 ^ 31 ->
  exists l s', let g' := set_lh_n (Z.of_nat (length (absorbed Bs bn))) (set_lh_block l (lg s)) in
    log_write i s = Ok (tt, s') /\ evolves s [] g' s' /\ logs g' (absorbed Bs bn) /\
    view s' V H ({[bn]} ∪ D).
Proof using All.
  intros HH HV Hbn. pose proof (lh_count _ _ Hg) as Hn.
  assert (length Bs < LOGSIZE)%nat as Hlt by lia.
  unfold log_write. rewrite bind_gets. rewrite Hn.
  rewrite (proj2 (Z.leb_gt _ _)) by lia. rewrite (proj2 (Z.leb_gt _ _)) by lia.
  rewrite (proj2 (Z.ltb_ge _ _)) by lia. cbn [orb].
  rewrite (bind_ok _ _ _ _ _ (acquire_log_run s Hlock)). rewrite bind_gets.
  set (s1 := set_log_lock true s).
  assert (view s1 V H D) as V1 by (by eapply view_log).
  destruct (held_data _ _ _ _ _ _ _ V1 HH HV) as (x & Hx & Hdx & Hbx).
  rewrite (bind_ok _ _ _ _ _ (getb_run i x s1 Hx)). rewrite Hbx.
  change (lg s1) with (lg s). rewrite Hn, Nat2Z.id.
  destruct (absorb_run s1 Bs bn (length Bs) 0 Hg HB Hbn eq_refl) as (j & Rj & Hj).
  rewrite (bind_ok _ _ _ _ _ Rj). rewrite drop_0 in Hj.
  destruct (logs_absorb (lg s) Bs bn j Hg Hlt Hj) as [Hg' Hlen].
  assert (j <= length Bs)%nat as Hjlt.
  { destruct Hj as [Hj|[-> _]]; [|done]. apply lookup_lt_Some in Hj. lia. }
  rewrite (i32_small (Z.of_nat bn)) by lia.
  set (l := <[j := Z.of_nat bn]> (lh_block (lg s))) in *.
  set (s2 := set_log (set_lh_block l (lg s)) s1).
  assert (set_logged j (Z.of_nat bn) s1 = Ok (tt, s2)) as R2.
  { unfold set_logged. rewrite bind_gets. change (lg s1) with (lg s).
    rewrite zinsert_nat by (rewrite (lh_len _ _ Hg); lia). done. }
  rewrite (bind_ok _ _ _ _ _ R2).
  set (g' := set_lh_n (Z.of_nat (length (absorbed Bs bn))) (set_lh_block l (lg s))) in *.
  set (s3 := set_log g' s2).
  assert (when (Z.of_nat j =? Z.of_nat (length Bs)) (set_lg (set_lh_n (i32 (Z.of_nat (length Bs) + 1)))) s2
    = Ok (tt, s3)) as R3.
  { unfold s3, g'. rewrite Hlen. rewrite i32_small by (unfold LOGSIZE in Hlt; lia).
    destruct (Nat.eqb_spec j (length Bs)) as [->|Hjn].
    - rewrite Z.eqb_refl. unfold when, set_lg, modify, s2. cbn. do 4 f_equal. lia.
    - rewrite (proj2 (Z.eqb_neq _ _)) by lia. cbn [when]. rewrite <- Hn.
      unfold s2. cbn. by destruct (lg s). }
  rewrite (bind_ok _ _ _ _ _ R3).
  assert (view s3 V H D) as V3 by (by eapply view_log).
  destruct (mark_dirty_view s3 V H D bn i V3 HH) as (s4 & R4 & E4 & V4).
  rewrite (bind_ok _ _ _ _ _ R4).
  assert (log_lock s4 = true) as L4 by (by rewrite (e_lock _ _ _ _ E4)).
  exists l, (set_log_lock false s4). cbn zeta. fold g'. split_and!.
  - by apply release_log_run.
  - destruct E4. split; cbn; done.
  - exact Hg'.
  - by eapply view_log.
Qed.
End LogWrite.

(** ** Inside a transaction *)

(** What the steps of a transaction leave alone: the disk, and where the log is. *)
Record stays (s s' : store) : Prop := Stays {
  sy_me : me s' = me s;
  sy_disk : memdisk s' = memdisk s;
  sy_writes : writes s' = writes s;
  sy_start : log_start (lg s') = log_start (lg s);
  sy_size : log_size (lg s') = log_size (lg s);
  sy_out : outstanding (lg s') = outstanding (lg s)
}.

#[export] Instance stays_preorder : PreOrder stays.
Proof. split; [done|]. intros s1 s2 s3 [] []. split; congruence. Qed.

Lemma evolves_stays s s' : evolves s [] (lg s) s' -> stays s s'.
Proof. intros []. rewrite app_nil_r in *. by split; rewrite ?e_log. Qed.

(** The state between [begin_op] and [end_op]: blocks read as [V], the process holds
    the buffers of [H], and the log lists the changed blocks [Bs]. *)
Record txn (s : store) (V : list block) (H : gmap nat nat) (Bs : list nat) : Prop := Txn {
  t_view : view s V H (list_to_set Bs);
  t_layout : layout (lg s) (length V);
  t_logs : logs (lg s) Bs;
  t_homes : homes (lg s) (length V) Bs;
  t_out : 1 <= outstanding (lg s);
  t_committing : committing (lg s) = false;
  t_lock : log_lock s = false
}.

(** The blocks a transaction may change. *)
Definition home (g : log) (n bn : nat) : Prop := (bn < n)%nat /\ ~ in_log g bn /\ bn <> 1%nat.

Lemma txn_view s V H Bs s' V' H' :
  txn s V H Bs -> evolves s [] (lg s) s' -> length V' = length V ->
  view s' V' H' (list_to_set Bs) -> txn s' V' H' Bs.
Proof.
  intros [] [] HV Hv. by split; rewrite ?e_log, ?e_lock, ?HV.
Qed.

Lemma room_txn (H : gmap nat nat) (Bs : list nat) :
  (size H + length Bs < NBUF)%nat -> (size (dom H ∪ (list_to_set Bs : gset nat)) < NBUF)%nat.
Proof.
  intros Hlt. rewrite size_union_alt, size_dom.
  assert (size ((list_to_set Bs : gset nat) ∖ dom H) <= size (list_to_set Bs : gset nat))%nat
    by (apply subseteq_size, subseteq_difference_l; done).
  assert (size (list_to_set Bs : gset nat) <= length Bs)%nat.
  { clear. induction Bs as [|b Bs IH]; cbn; [by rewrite size_empty|].
    rewrite size_union_alt, size_singleton.
    assert (size ((list_to_set Bs : gset nat) ∖ {[b]}) <= size (list_to_set Bs : gset nat))%nat
      by (apply subseteq_size, subseteq_difference_l; done). lia. }
  lia.
Qed.

Lemma absorbed_to_set Bs bn :
  (list_to_set (absorbed Bs bn) : gset nat) = {[bn]} ∪ list_to_set Bs.
Proof.
  unfold absorbed. case_decide as Hb.
  - apply (elem_of_list_to_set (C := gset nat)) in Hb. set_solver.
  - rewrite list_to_set_app_L. cbn. set_solver.
Qed.

Section Steps.
Context (s : store) (V : list block) (H : gmap nat nat) (Bs : list nat).
Hypothesis Ht : txn s V H Bs.

(** A block nobody holds is dirty or as on the disk. *)
Lemma txn_settled bn : H !! bn = None -> bn ∈ Bs \/ V !! bn = memdisk s !! bn.
Proof using Ht.
  intros HH. destruct (decide (bn ∈ Bs)) as [HB|HB]; [by left|right].
  destruct (t_view _ _ _ _ Ht) as [l Hc]. apply (c_clean _ _ _ _ _ Hc); [|done].
  by rewrite elem_of_list_to_set.
Qed.

Lemma txn_bread bn v :
  V !! bn = Some v -> H !! bn = None -> (size H + length Bs < NBUF)%nat ->
  exists i s', bread 1 bn s = Ok (i, s') /\ stays s s' /\ txn s' V (<[bn := i]> H) Bs.
Proof using Ht.
  intros HV HH Hr.
  destruct (bread_view s V H _ bn v (t_view _ _ _ _ Ht) HV HH) as (i & s' & R & E & Vs).
  { right. by apply room_txn. }
  exists i, s'. split_and!; [done|by apply evolves_stays|by eapply txn_view].
Qed.

Lemma txn_data bn i v :
  H !! bn = Some i -> V !! bn = Some v ->
  exists b, getb i s = Ok (b, s) /\ data b = v /\ blockno b = bn.
Proof using Ht.
  intros HH HV. destruct (held_data _ _ _ _ _ _ _ (t_view _ _ _ _ Ht) HH HV) as (b & Hb & ? & ?).
  exists b. split_and!; [by apply getb_run|done..].
Qed.

Lemma txn_set_data bn i v :
  H !! bn = Some i -> (bn < length V)%nat ->
  exists s', updb i (set_data v) s = Ok (tt, s') /\ stays s s' /\ txn s' (<[bn := v]> V) H Bs.
Proof using Ht.
  intros HH Hlt.
  destruct (set_data_view s V H _ bn i v (t_view _ _ _ _ Ht) HH Hlt) as (s' & R & E & Vs).
  exists s'. split_and!; [done|by apply evolves_stays|].
  eapply txn_view; [exact Ht|done|by rewrite length_insert|done].
Qed.

Lemma txn_log_write bn i :
  H !! bn = Some i -> home (lg s) (length V) bn ->
  Z.of_nat (length Bs) + 1 < log_size (lg s) ->
  exists s', log_write i s = Ok (tt, s') /\ stays s s' /\ txn s' V H (absorbed Bs bn).
Proof using Ht.
  intros HH (Hlt & Hnl & H1) Hroom. destruct Ht as [Tv Tl Tg Th To Tc Tk].
  pose proof (l_disk _ _ Tl) as Hd31. pose proof (l_size _ _ Tl) as [_ Hsz].
  destruct (lookup_lt_is_Some_2 V bn Hlt) as [v HV].
  destruct (log_write_run s V H _ Bs Tv Tg) with (bn := bn) (i := i) (v := v)
    as (l & s' & R & E & G & Vs); try done; [|lia|lia|].
  { intros b Hb. destruct (h_home _ _ _ Th b Hb) as [? _]. lia. }
  exists s'. split; [done|]. destruct E. rewrite app_nil_r in *. split; [by split; rewrite ?e_log|].
  split; rewrite ?e_log; try done.
  - by rewrite absorbed_to_set.
  - by apply (layout_ext (lg s)); try apply Tl.
  - apply (homes_ext (lg s)); [done..|]. unfold absorbed. case_decide as Hb; [done|].
    destruct Th as [Hn Hh Hr]. split.
    + apply NoDup_app. split_and!; [done| |apply NoDup_singleton].
      intros x Hx Hxb%list_elem_of_singleton. by subst.
    + intros b [?|Hbb%list_elem_of_singleton]%elem_of_app; [by apply Hh|by subst].
    + rewrite length_app. cbn. lia.
  - by rewrite e_lock.
Qed.

Lemma txn_brelse bn i :
  H !! bn = Some i -> (bn ∈ Bs) \/ V !! bn = memdisk s !! bn ->
  exists s', brelse i s = Ok (tt, s') /\ stays s s' /\ txn s' V (delete bn H) Bs.
Proof using Ht.
  intros HH Hcl.
  destruct (brelse_view s V H _ bn i (t_view _ _ _ _ Ht) HH) as (s' & R & E & Vs).
  { destruct Hcl; [left|by right]. by apply elem_of_list_to_set. }
  exists s'. split_and!; [done|by apply evolves_stays|by eapply txn_view].
Qed.
End Steps.

(** ** One block update *)

(** The typical use of [log_write] that log.c describes. *)
Definition update (bn : nat) (v : block) : St unit :=
  bp ← bread 1 bn;
  updb bp (set_data v) ;;
  log_write bp ;;
  brelse bp.

Lemma update_run s V H Bs bn v :
  txn s V H Bs -> H !! bn = None -> home (lg s) (length V) bn ->
  (size H + length Bs < NBUF)%nat -> Z.of_nat (length Bs) + 1 < log_size (lg s) ->
  exists s', update bn v s = Ok (tt, s') /\ stays s s' /\
    txn s' (<[bn := v]> V) H (absorbed Bs bn).
Proof.
  intros Ht HH Hh Hr Hroom. pose proof Hh as (Hlt & _).
  destruct (lookup_lt_is_Some_2 V bn Hlt) as [w HV].
  destruct (txn_bread s V H Bs Ht bn w HV HH Hr) as (i & s1 & R1 & S1 & T1).
  assert (<[bn := i]> H !! bn = Some i) as HHi by apply lookup_insert_eq.
  destruct (txn_set_data s1 V _ Bs T1 bn i v HHi Hlt) as (s2 & R2 & S2 & T2).
  destruct (txn_log_write s2 _ _ Bs T2 bn i HHi) as (s3 & R3 & S3 & T3).
  { rewrite length_insert. unfold home, in_log in *.
    by rewrite (sy_start _ _ S2), (sy_start _ _ S1), (sy_size _ _ S2), (sy_size _ _ S1). }
  { by rewrite (sy_size _ _ S2), (sy_size _ _ S1). }
  destruct (txn_brelse s3 _ _ _ T3 bn i HHi) as (s4 & R4 & S4 & T4).
  { left. unfold absorbed. case_decide; [done|]. apply elem_of_app. right. by apply list_elem_of_singleton. }
  exists s4. split_and!.
  - unfold update. by rewrite (bind_ok _ _ _ _ _ R1), (bind_ok _ _ _ _ _ R2), (bind_ok _ _ _ _ _ R3).
  - by rewrite S1, S2, S3.
  - by rewrite delete_insert_id in T4.
Qed.

(** ** The whole call *)

Lemma begin_op_run fuel others s :
  idle s ->
  exists s', begin_op fuel others s = Ok (tt, s') /\ txn s' (memdisk s) ∅ [] /\
    memdisk s' = memdisk s /\ writes s' = writes s /\ outstanding (lg s') = 1 /\
    log_start (lg s') = log_start (lg s) /\ log_size (lg s') = log_size (lg s).
Proof.
  intros []. unfold begin_op. rewrite (bind_ok _ _ _ _ _ (acquire_log_run s i_lock)).
  set (s1 := set_log_lock true s). set (g := set_outstanding 1 (lg s)).
  exists (set_log_lock false (set_log g s1)). split.
  - assert (forall f o, begin_loop f o s1 = Ok (tt, set_log_lock false (set_log g s1))) as Hb.
    { intros f o. destruct f; cbn [begin_loop]; rewrite bind_gets; change (lg s1) with (lg s);
        rewrite i_committing, i_count, i_out; cbn; reflexivity. }
    apply Hb.
  - split_and!; try done. split; cbn; try done.
    + by eapply view_log.
    + by apply (layout_ext (lg s)); try apply i_layout.
    + split; [constructor|by intros b ?%elem_of_nil|]. destruct i_layout. cbn. lia.
Qed.

(** [commit] of any number of blocks, none included. *)
Lemma commit_all s V Bs :
  ready_to_commit s V Bs ->
  exists s' ws, commit s = Ok (tt, s') /\ view s' (memdisk s') ∅ ∅ /\
    evolves s ws (set_lh_n 0 (lg s)) s' /\ holds_head (memdisk s' !!! log_start (lg s)) [] /\
    same_home (lg s) (memdisk s') V /\
    forall k p, exists r, boot (power_on p (apply_writes (memdisk s) (take k ws))) = Ok (tt, r) /\
      idle r /\ same_home (lg s) (memdisk r) (if (k <=? length Bs)%nat then memdisk s else V).
Proof.
  intros Hready. pose proof Hready as [Rv Rl Rg Rh Rs Re].
  pose proof (ready_layout _ _ _ Hready) as Rl'. pose proof (ready_homes _ _ _ Hready) as Rh'.
  assert (log_start (lg s) < length (memdisk s))%nat as Hst
    by (apply (in_log_lt _ _ Rl'), (in_log_start _ _ Rl')).
  pose proof (ready_length _ _ _ Hready) as HlV.
  destruct (list_eq_nil_dec Bs) as [->|Hne].
  - assert (V = memdisk s) as ->.
    { apply list_eq. intros bn. apply (ready_clean _ _ _ Hready), not_elem_of_nil. }
    exists s, []. split_and!; try done.
    + unfold commit. rewrite bind_gets. by rewrite (lh_count _ _ Rg).
    + split; try done; [by rewrite app_nil_r|]. pose proof (lh_count _ _ Rg) as Hn.
      destruct (lg s). cbn in *. by rewrite Hn.
    + intros k p. rewrite take_nil.
      destruct (boot_old (memdisk s) (lg s) Rl' p (memdisk s) eq_refl Rs Re) as (r & Hr & Hi & Hm).
      exists r. split; [exact Hr|]. split; [exact Hi|]. by destruct (k <=? length [])%nat.
  - assert (length (V !!! log_start (lg s)) = BSIZE) as Hhd.
    { rewrite list_lookup_total_alt, (ready_clean _ _ _ Hready) by (by apply (st_not_home s V)).
      rewrite <- list_lookup_total_alt. apply Re. }
    destruct (commit_run s V Bs Rv Rl Rg Rh Hhd Hne) as (hd1 & hd0 & s' & R & H1 & H0 & E & Vs).
    assert (memdisk s' = <[log_start (lg s) := hd0]> (<[log_start (lg s) := hd1]>
      (apply_writes V (log_writes (log_start (lg s)) V Bs (length Bs))))) as Hm.
    { apply list_eq. intros bn. destruct Vs as [l Hc]. symmetry.
      apply (c_clean _ _ _ _ _ Hc); [apply not_elem_of_empty|apply lookup_empty]. }
    eexists s', _. split_and!; [exact R|by rewrite Hm|exact E| | |].
    + rewrite Hm, list_lookup_total_insert_eq; [done|].
      by rewrite length_insert, apply_writes_length, HlV.
    + intros bn Hbn. rewrite Hm, !list_lookup_insert_ne by (by apply (not_start s V Bs)).
      apply apply_writes_ne. by apply (home_not_w1 s V Bs Rl Rh).
    + intros k p. by apply commit_crash.
Qed.

Lemma end_op_run s V Bs :
  txn s V ∅ Bs -> outstanding (lg s) = 1 -> super_of (memdisk s) (lg s) ->
  holds_head (memdisk s !!! log_start (lg s)) [] ->
  exists s' ws, end_op s = Ok (tt, s') /\ idle s' /\ writes s' = writes s ++ ws /\
    log_start (lg s') = log_start (lg s) /\ log_size (lg s') = log_size (lg s) /\
    same_home (lg s) (memdisk s') V /\
    forall k p, exists r, boot (power_on p (apply_writes (memdisk s) (take k ws))) = Ok (tt, r) /\
      idle r /\ same_home (lg s) (memdisk r) (if (k <=? length Bs)%nat then memdisk s else V).
Proof.
  intros [Tv Tl Tg Th To Tc Tk] Hout Hs He.
  set (g1 := set_committing true (set_outstanding 0 (lg s))).
  set (s1 := set_log_lock false (set_log g1 (set_log_lock true s))).
  assert (ready_to_commit s1 V Bs) as Hready.
  { split; cbn; try done; [by eapply view_log|by destruct Tl|by destruct Tg|by destruct Th]. }
  destruct (commit_all s1 V Bs Hready) as (s2 & ws & R & Vs & E & H0 & Hsame & Hcrash).
  pose proof (e_log _ _ _ _ E) as G2. cbn in G2.
  set (g3 := set_committing false (lg s2)).
  set (s3 := set_log_lock false (set_log_wakeups (S (log_wakeups s2))
    (set_log g3 (set_log_lock true s2)))).
  assert (log_lock s2 = false) as K2 by (by rewrite (e_lock _ _ _ _ E)).
  exists s3, ws. split_and!; try done.
  - unfold end_op. rewrite (bind_ok _ _ _ _ _ (acquire_log_run s Tk)).
    rewrite bind_set_lg, bind_gets. cbn [lg set_log_lock set_log committing set_outstanding].
    rewrite Tc, Hout. change (outstanding _ =? 0) with true. cbv iota.
    rewrite bind_set_lg.
    rewrite (bind_ok _ _ _ tt s1) by (by rewrite release_log_run). cbn [when].
    rewrite (bind_ok _ _ _ _ _ R), (bind_ok _ _ _ _ _ (acquire_log_run s2 K2)). reflexivity.
  - assert (length (memdisk s2) = length V) as Hl2.
    { rewrite (e_disk _ _ _ _ E), apply_writes_length. symmetry. by apply (ready_length s1 V Bs). }
    split; cbn; unfold g3; rewrite ?G2; try done.
    + by eapply view_log.
    + rewrite Hl2. by apply (layout_ext (lg s)); try apply Tl.
    + by destruct Tg.
    + apply (super_ext V _ (lg s)); try done.
      * apply Hsame. exact (one_not_log V (lg s) Tl).
      * destruct Hs as (v & sb & Hv & Hsb). exists v, sb. split; [|done].
        rewrite (ready_clean _ _ _ Hready); [done|].
        intros Hx. by apply (h_home _ _ _ Th) in Hx as (_ & _ & ?).
  - apply (e_writes _ _ _ _ E).
  - cbn. by rewrite G2.
  - cbn. by rewrite G2.
Qed.

(** The updates of a call, between [begin_op] and [end_op]. *)
Definition transaction (fuel : nat) (others : store -> store) (upds : list (nat * block)) : St unit :=
  begin_op fuel others ;;
  for_each upds (fun w => update w.1 w.2) ;;
  end_op.

Lemma absorbed_length Bs bn : (length (absorbed Bs bn) <= length Bs + 1)%nat.
Proof. unfold absorbed. case_decide; [lia|]. rewrite length_app. cbn. lia. Qed.

Lemma updates_run s V Bs upds :
  txn s V ∅ Bs -> (forall w, w ∈ upds -> home (lg s) (length V) w.1) ->
  Z.of_nat (length Bs + length upds) < log_size (lg s) ->
  exists s' Bs', for_each upds (fun w => update w.1 w.2) s = Ok (tt, s') /\ stays s s' /\
    txn s' (apply_writes V upds) ∅ Bs' /\ (length Bs' <= length Bs + length upds)%nat.
Proof.
  revert s V Bs. induction upds as [|[bn v] upds IH]; intros s V Bs Ht Hh Hlen.
  - exists s, Bs. split_and!; [done|done|done|lia].
  - cbn [length] in Hlen. pose proof (l_size _ _ (t_layout _ _ _ _ Ht)) as [_ Hsz].
    destruct (update_run s V ∅ Bs bn v Ht (lookup_empty _)) as (s1 & R1 & S1 & T1).
    { apply (Hh (bn, v)), list_elem_of_here. }
    { rewrite map_size_empty. unfold NBUF, LOGSIZE in *. lia. }
    { lia. }
    pose proof (absorbed_length Bs bn) as Ha.
    destruct (IH s1 _ _ T1) as (s2 & Bs' & R2 & S2 & T2 & L2).
    { intros w Hw. rewrite length_insert. destruct (Hh w) as (? & Hn & ?); [by apply list_elem_of_further|].
      split_and!; [done| |done]. unfold in_log in *. by rewrite (sy_start _ _ S1), (sy_size _ _ S1). }
    { rewrite (sy_size _ _ S1). lia. }
    exists s2, Bs'. split_and!; [|by rewrite S1|done|cbn [length]; lia].
    cbn [for_each]. cbn [fst snd]. by rewrite (bind_ok _ _ _ _ _ R1).
Qed.
