(* ===== verification/Reserve.v ===== *)
(** * The reservation of log space

    The calls of several processes interleave: [begin_op] admits a call when the log
    has room for [MAXOPBLOCKS] blocks of every call that is running. *)

From S2P Require Import Prelude Bytes Bcache Log LogSpec.

(** ** Code that leaves the log alone *)

Definition keeps {A} (m : St A) : Prop :=
  forall s a s', m s = Ok (a, s') -> lg s' = lg s /\ log_lock s' = log_lock s.

Create HintDb keeps.

Lemma keeps_ret {A} (a : A) : keeps (mret a).
Proof. intros s a' s' [= <- <-]. done. Qed.

Lemma keeps_bind {A B} (m : St A) (f : A -> St B) :
  keeps m -> (forall a, keeps (f a)) -> keeps (m ≫= f).
Proof.
  intros Hm Hf s b s'. unfold mbind, M_bind.
  destruct (m s) as [[a s1]| | |] eqn:E1; try done. intros E2.
  destruct (Hm _ _ _ E1) as [H1 H2]. destruct (Hf _ _ _ _ E2) as [H3 H4]. split; congruence.
Qed.

Lemma keeps_get : keeps get.
Proof. intros s a s' [= <- <-]. done. Qed.
Lemma keeps_gets {A} (f : store -> A) : keeps (gets f).
Proof. intros s a s' [= <- <-]. done. Qed.
Lemma keeps_panic {A} msg : keeps (@panic store A msg).
Proof. done. Qed.
Lemma keeps_diverge {A} : keeps (@diverge store A).
Proof. done. Qed.
Lemma keeps_lift_opt {A} w (o : option A) : keeps (lift_opt w o).
Proof. destruct o; [apply keeps_ret|done]. Qed.
Lemma keeps_if {A} (b : bool) (m m' : St A) :
  keeps m -> keeps m' -> keeps (if b then m else m').
Proof. by destruct b. Qed.
Lemma keeps_when b m : keeps m -> keeps (when b m).
Proof. destruct b; [done|]. intros _. apply keeps_ret. Qed.
Lemma keeps_modify (f : store -> store) :
  (forall s, lg (f s) = lg s /\ log_lock (f s) = log_lock s) -> keeps (modify f).
Proof. intros Hf s a s' [= <- <-]. apply Hf. Qed.
Lemma keeps_for_each {I} (l : list I) body :
  (forall i, keeps (body i)) -> keeps (for_each l body).
Proof.
  intros Hb. induction l as [|i l IH]; [apply keeps_ret|]. by apply keeps_bind.
Qed.
Lemma keeps_updb i f : keeps (updb i f).
Proof. by apply keeps_modify. Qed.

#[export] Hint Resolve keeps_ret keeps_bind keeps_get keeps_gets keeps_panic keeps_diverge
  keeps_lift_opt keeps_if keeps_when keeps_for_each keeps_updb : keeps.

(** Closes [keeps m] for a program [m] put together from such code. *)
Ltac keeps :=
  repeat first
    [ progress intros
    | solve [eauto with keeps]
    | apply keeps_bind
    | apply keeps_if
    | apply keeps_when
    | apply keeps_for_each
    | match goal with |- context [match ?x with _ => _ end] => destruct x end ].

Lemma keeps_acquire_bcache : keeps acquire_bcache.
Proof.
  intros s a s'. unfold acquire_bcache. rewrite bind_get.
  destruct (bcache_lock s); [done|]. by intros [= <- <-].
Qed.
Lemma keeps_release_bcache : keeps release_bcache.
Proof.
  intros s a s'. unfold release_bcache. rewrite bind_get.
  destruct (bcache_lock s); [|done]. by intros [= <- <-].
Qed.
#[export] Hint Resolve keeps_acquire_bcache keeps_release_bcache : keeps.

Lemma keeps_getb i : keeps (getb i).
Proof. unfold getb. keeps. Qed.
#[export] Hint Resolve keeps_getb : keeps.

Lemma keeps_holdingsleep i : keeps (holdingsleep i).
Proof. unfold holdingsleep. keeps. Qed.
Lemma keeps_acquiresleep i : keeps (acquiresleep i).
Proof. unfold acquiresleep. keeps. Qed.
Lemma keeps_releasesleep i : keeps (releasesleep i).
Proof. unfold releasesleep. keeps. Qed.
#[export] Hint Resolve keeps_holdingsleep keeps_acquiresleep keeps_releasesleep : keeps.

Lemma keeps_iderw i : keeps (iderw i).
Proof. unfold iderw. keeps; by apply keeps_modify. Qed.
Lemma keeps_find_cached n b d bn : keeps (find_cached n b d bn).
Proof. revert b. induction n; intros b; cbn [find_cached]; keeps. Qed.
Lemma keeps_find_unused n b : keeps (find_unused n b).
Proof. revert b. induction n; intros b; cbn [find_unused]; keeps. Qed.
Lemma keeps_link_front i : keeps (link_front i).
Proof. unfold link_front. keeps. Qed.
#[export] Hint Resolve keeps_iderw keeps_find_cached keeps_find_unused keeps_link_front : keeps.

Lemma keeps_bget d bn : keeps (bget d bn).
Proof. unfold bget. keeps. Qed.
#[export] Hint Resolve keeps_bget : keeps.
Lemma keeps_bread d bn : keeps (bread d bn).
Proof. unfold bread. keeps. Qed.
Lemma keeps_bwrite b : keeps (bwrite b).
Proof. unfold bwrite. keeps. Qed.
Lemma keeps_brelse b : keeps (brelse b).
Proof. unfold brelse. keeps. Qed.
#[export] Hint Resolve keeps_bread keeps_bwrite keeps_brelse : keeps.

Lemma keeps_logged i : keeps (logged i).
Proof. unfold logged. keeps. Qed.
Lemma keeps_copy_data i j : keeps (copy_data i j).
Proof. unfold copy_data. keeps. Qed.
Lemma keeps_set_data_int b k v : keeps (set_data_int b k v).
Proof. unfold set_data_int. keeps. Qed.
#[export] Hint Resolve keeps_logged keeps_copy_data keeps_set_data_int : keeps.

Lemma keeps_write_log : keeps write_log.
Proof. unfold write_log, log_block. keeps. Qed.
Lemma keeps_install_trans : keeps install_trans.
Proof. unfold install_trans, install_block. keeps. Qed.
Lemma keeps_write_head : keeps write_head.
Proof. unfold write_head. keeps. Qed.

(** ** What the calls do to the log *)

Lemma commit_log s a s' : commit s = Ok (a, s') ->
  lg s' = (if 0 <? lh_n (lg s) then set_lh_n 0 (lg s) else lg s) /\ log_lock s' = log_lock s.
Proof.
  unfold commit. rewrite bind_gets. destruct (0 <? lh_n (lg s)); [|by intros [= <- <-]].
  unfold mbind, M_bind at 1. destruct (write_log s) as [[[] s1]| | |] eqn:E1; try done.
  unfold M_bind at 1. destruct (write_head s1) as [[[] s2]| | |] eqn:E2; try done.
  unfold M_bind at 1. destruct (install_trans s2) as [[[] s3]| | |] eqn:E3; try done.
  unfold M_bind. cbn [set_lg modify]. intros E4.
  destruct (keeps_write_log _ _ _ E1), (keeps_write_head _ _ _ E2).
  destruct (keeps_install_trans _ _ _ E3), (keeps_write_head _ _ _ E4).
  cbn in *. split; congruence.
Qed.

Lemma begin_op_log others s a s' : begin_op 0 others s = Ok (a, s') ->
  lh_n (lg s) + (outstanding (lg s) + 1) * MAXOPBLOCKS <= Z.of_nat LOGSIZE /\
  committing (lg s) = false /\
  lg s' = set_outstanding (i32 (outstanding (lg s) + 1)) (lg s) /\ log_lock s' = false.
Proof.
  unfold begin_op. destruct (log_lock s) eqn:Hl.
  { by rewrite (bind_panic_ok _ _ _ _ (acquire_log_held s Hl)). }
  rewrite (bind_ok _ _ _ _ _ (acquire_log_run s Hl)). cbn [begin_loop]. rewrite bind_gets.
  change (lg (set_log_lock true s)) with (lg s).
  destruct (committing (lg s)) eqn:Hc; [done|].
  destruct (Z.ltb_spec (Z.of_nat LOGSIZE) (lh_n (lg s) + (outstanding (lg s) + 1) * MAXOPBLOCKS));
    [done|].
  rewrite bind_set_lg. unfold release_log. rewrite bind_get. cbn. by intros [= <- <-].
Qed.

Lemma absorb_total s b n i :
  length (lh_block (lg s)) = LOGSIZE -> (i + n <= LOGSIZE)%nat ->
  exists j, absorb n i b s = Ok (j, s) /\ (i <= j <= i + n)%nat.
Proof.
  intros Hl. revert i. induction n as [|n IH]; intros i Hi.
  - exists i. split; [done|lia].
  - destruct (lookup_lt_is_Some_2 (lh_block (lg s)) i ltac:(lia)) as [v Hv].
    cbn [absorb]. rewrite (bind_ok _ _ _ _ _ (logged_run i v s Hv)).
    destruct (w32 v =? b); [exists i; split; [done|lia]|].
    destruct (IH (S i) ltac:(lia)) as (j & Hj & ?). exists j. split; [done|lia].
Qed.

(** [log_write] with room in the log logs the block and counts it at most once. *)
Lemma log_write_room s b x :
  bufs s !! b = Some x -> 0 <= lh_n (lg s) < Z.of_nat LOGSIZE ->
  lh_n (lg s) < log_size (lg s) - 1 -> 1 <= outstanding (lg s) -> log_lock s = false ->
  length (lh_block (lg s)) = LOGSIZE ->
  exists n l s', log_write b s = Ok (tt, s') /\ lg s' = set_lh_n n (set_lh_block l (lg s)) /\
    log_lock s' = false /\ length l = LOGSIZE /\ lh_n (lg s) <= n <= lh_n (lg s) + 1.
Proof.
  intros Hx Hn Hsz Ho Hk Hl. unfold log_write. rewrite bind_gets.
  rewrite !(proj2 (Z.leb_gt _ _)) by lia. rewrite (proj2 (Z.ltb_ge _ _)) by lia. cbn [orb].
  rewrite (bind_ok _ _ _ _ _ (acquire_log_run s Hk)), bind_gets.
  change (lg (set_log_lock true s)) with (lg s).
  unfold getb. rewrite bind_bind, bind_get. change (bufs (set_log_lock true s)) with (bufs s).
  rewrite Hx. change (lift_opt "buf" (Some x)) with (mret x : St buf). rewrite bind_ret.
  destruct (absorb_total (set_log_lock true s) (Z.of_nat (blockno x)) (Z.to_nat (lh_n (lg s))) 0
    Hl ltac:(lia)) as (j & Rj & Hj).
  rewrite (bind_ok _ _ _ _ _ Rj). unfold set_logged. rewrite bind_bind, bind_gets, bind_bind.
  change (lg (set_log_lock true s)) with (lg s). rewrite zinsert_nat by lia.
  set (l := <[j := i32 (Z.of_nat (blockno x))]> (lh_block (lg s))).
  change (lift_opt _ (Some l)) with (mret l : St (list Z)). rewrite bind_ret, bind_set_lg.
  change (lg (set_log_lock true s)) with (lg s).
  assert (length l = LOGSIZE) as Hll by (unfold l; by rewrite length_insert).
  assert (i32 (lh_n (lg s) + 1) = lh_n (lg s) + 1) as H1.
  { apply i32_small. unfold LOGSIZE in Hn. lia. }
  destruct (Z.of_nat j =? lh_n (lg s)).
  - rewrite bind_when_true, bind_set_lg, H1. unfold updb. rewrite bind_modify.
    eexists (lh_n (lg s) + 1), l, _. split; [reflexivity|]. split_and!; try done; lia.
  - rewrite bind_when_false. unfold updb. rewrite bind_modify.
    eexists (lh_n (lg s)), l, _. split; [reflexivity|]. split_and!; try done; lia.
Qed.

Lemma end_op_log s a s' : end_op s = Ok (a, s') ->
  log_lock s' = false /\
  let g := set_outstanding (i32 (outstanding (lg s) - 1)) (lg s) in
  lg s' = (if outstanding g =? 0 then
             set_committing false (if 0 <? lh_n g then set_lh_n 0 (set_committing true g) else g)
           else g).
Proof.
  unfold end_op. destruct (log_lock s) eqn:Hk.
  { by rewrite (bind_panic_ok _ _ _ _ (acquire_log_held s Hk)). }
  rewrite (bind_ok _ _ _ _ _ (acquire_log_run s Hk)), bind_set_lg, bind_gets.
  change (lg (set_log_lock true s)) with (lg s). cbn zeta.
  set (g := set_outstanding (i32 (outstanding (lg s) - 1)) (lg s)).
  cbn [lg set_log set_log_lock]. destruct (committing g) eqn:Hc; [done|].
  destruct (outstanding g =? 0).
  - rewrite bind_set_lg. rewrite bind_release_log by done. cbn [when].
    set (s1 := set_log_lock false _).
    unfold mbind at 1, M_bind at 1. destruct (commit s1) as [[[] s2]| | |] eqn:E1; try done.
    apply commit_log in E1 as [E1 E2]. change (lg s1) with (set_committing true g) in E1.
    change (log_lock s1) with false in E2.
    rewrite (bind_ok _ _ _ _ _ (acquire_log_run s2 E2)), bind_set_lg. unfold wakeup_log. rewrite bind_modify.
    unfold release_log. rewrite bind_get. cbn. intros [= <- <-]. cbn. split; [done|].
    rewrite E1. cbn. destruct (0 <? lh_n (lg s)); [done|]. cbn in Hc. destruct (lg s). by cbn in *; subst.
  - unfold wakeup_log. rewrite bind_modify. unfold release_log. rewrite bind_bind, bind_get. cbn.
    by intros [= <- <-].
Qed.

(** ** Interleaved calls *)

Lemma calls_pos (ops : gmap Z nat) p k : ops !! p = Some k -> (0 < size ops)%nat.
Proof.
  intros Hp. destruct (size ops) eqn:Hz; [|lia].
  apply map_size_empty_inv in Hz. by rewrite Hz, lookup_empty in Hp.
Qed.



(** The calls that run, by process, with the blocks each has logged; a call logs at
    most [quota] blocks. *)
Section Calls.
Context (quota : nat).

Inductive call_step : store * gmap Z nat -> store * gmap Z nat -> Prop :=
  | step_begin p s s' ops :
      ops !! p = None -> begin_op 0 id s = Ok (tt, s') ->
      call_step (s, ops) (s', <[p := 0%nat]> ops)
  | step_write p k b s s' ops :
      ops !! p = Some k -> (k < quota)%nat -> log_write b s = Ok (tt, s') ->
      call_step (s, ops) (s', <[p := S k]> ops)
  | step_end p k s s' ops :
      ops !! p = Some k -> end_op s = Ok (tt, s') ->
      call_step (s, ops) (s', delete p ops)
  | step_other s s' ops :
      lg s' = lg s -> log_lock s' = log_lock s -> call_step (s, ops) (s', ops).

(** The blocks the running calls may still log. *)
Definition reserved (ops : gmap Z nat) : Z :=
  map_fold (fun _ k r => MAXOPBLOCKS - Z.of_nat k + r) 0 ops.

Lemma reserved_insert p k ops :
  ops !! p = None -> reserved (<[p := k]> ops) = MAXOPBLOCKS - Z.of_nat k + reserved ops.
Proof using Type.
  intros Hp.
  apply (map_fold_insert_L (fun _ k r => MAXOPBLOCKS - Z.of_nat k + r) 0 p k ops); [|done].
  intros. lia.
Qed.

Lemma reserved_delete p k ops :
  ops !! p = Some k -> reserved ops = MAXOPBLOCKS - Z.of_nat k + reserved (delete p ops).
Proof using Type.
  intros Hp. rewrite <- (insert_delete_id ops p k Hp) at 1.
  apply reserved_insert, lookup_delete_eq.
Qed.

Record reserves (c : store * gmap Z nat) : Prop := Reserves {
  rs_committing : committing (lg c.1) = false;
  rs_lock : log_lock c.1 = false;
  rs_size : log_size (lg c.1) = Z.of_nat LOGSIZE;
  rs_len : length (lh_block (lg c.1)) = LOGSIZE;
  rs_count : 0 <= lh_n (lg c.1);
  rs_out : outstanding (lg c.1) = Z.of_nat (size c.2);
  rs_calls : (size c.2 <= 3)%nat;
  rs_quota : forall p k, c.2 !! p = Some k -> (k <= quota)%nat;
  rs_room : lh_n (lg c.1) + reserved c.2 <= Z.of_nat LOGSIZE
}.

Hypothesis Hquota : (quota <= 10)%nat.

Lemma reserved_bounds ops :
  (forall p k, ops !! p = Some k -> (k <= quota)%nat) ->
  0 <= reserved ops <= Z.of_nat (size ops) * MAXOPBLOCKS.
Proof using Hquota.
  induction ops as [|p k ops Hp IH] using map_ind; intros Hk.
  - rewrite map_size_empty. unfold reserved. rewrite map_fold_empty. lia.
  - rewrite reserved_insert, map_size_insert_None by done.
    pose proof (Hk p k ltac:(apply lookup_insert_eq)).
    assert (0 <= reserved ops <= Z.of_nat (size ops) * MAXOPBLOCKS).
    { apply IH. intros q k' Hq. apply (Hk q). rewrite lookup_insert_ne; [done|].
      intros ->. congruence. }
    unfold MAXOPBLOCKS in *. lia.
Qed.

Lemma quota_insert (ops : gmap Z nat) p k :
  (forall p k, ops !! p = Some k -> (k <= quota)%nat) -> (k <= quota)%nat ->
  forall q k', <[p := k]> ops !! q = Some k' -> (k' <= quota)%nat.
Proof using Type.
  intros Ho Hk q k'. destruct (decide (p = q)) as [->|Hne].
  - rewrite lookup_insert_eq. by intros [= ->].
  - rewrite lookup_insert_ne by done. apply Ho.
Qed.

Lemma reserved_rest p k ops :
  (forall p k, ops !! p = Some k -> (k <= quota)%nat) -> ops !! p = Some k ->
  (forall q k', delete p ops !! q = Some k' -> (k' <= quota)%nat) /\
  reserved ops = MAXOPBLOCKS - Z.of_nat k + reserved (delete p ops) /\
  0 <= reserved (delete p ops) <= Z.of_nat (size (delete p ops)) * MAXOPBLOCKS /\
  (k <= quota)%nat /\ (0 < size ops)%nat /\ size (delete p ops) = Nat.pred (size ops).
Proof using Hquota.
  intros Hq Hp.
  assert (forall q k', delete p ops !! q = Some k' -> (k' <= quota)%nat) as Hq'.
  { intros q k' [_ Hk]%lookup_delete_Some. by apply (Hq q). }
  split_and!; [done|by apply reserved_delete|by apply reserved_bounds..|by apply (Hq p)| |].
  - by eapply calls_pos.
  - apply map_size_delete_Some. by exists k.
Qed.

Lemma reserves_begin p s s' ops :
  reserves (s, ops) -> ops !! p = None -> begin_op 0 id s = Ok (tt, s') ->
  reserves (s', <[p := 0%nat]> ops).
Proof using Hquota.
  intros [Rc Rk Rs Rl Rn Ro R3 Rq Rr] Hp Hrun. cbn [fst snd] in *.
  pose proof (reserved_bounds _ Rq) as Hb.
  destruct (begin_op_log _ _ _ _ Hrun) as (Hle & _ & Hg & Hlk).
  unfold MAXOPBLOCKS, LOGSIZE in *. rewrite i32_small in Hg by lia.
  split; cbn [fst snd]; rewrite ?Hg; cbn; try done.
  - rewrite map_size_insert_None by done. lia.
  - rewrite map_size_insert_None by done. lia.
  - apply quota_insert; [done|lia].
  - rewrite reserved_insert by done. unfold MAXOPBLOCKS, LOGSIZE. lia.
Qed.

Lemma log_write_ok s b s' : log_lock s = false -> log_write b s = Ok (tt, s') ->
  lh_n (lg s) < log_size (lg s) - 1 /\ lh_n (lg s) < Z.of_nat LOGSIZE /\
  is_Some (bufs s !! b).
Proof using Type.
  intros Rk. unfold log_write. rewrite bind_gets.
  destruct (Z.leb_spec (Z.of_nat LOGSIZE) (lh_n (lg s))); [done|].
  destruct (Z.leb_spec (log_size (lg s) - 1) (lh_n (lg s))); [done|]. cbn [orb].
  destruct (_ <? _); [done|].
  rewrite (bind_ok _ _ _ _ _ (acquire_log_run s Rk)), bind_gets.
  unfold getb. rewrite bind_bind, bind_get.
  change (bufs (set_log_lock true s)) with (bufs s).
  destruct (bufs s !! b); [by eauto|done].
Qed.

Lemma reserves_write p k b s s' ops :
  reserves (s, ops) -> ops !! p = Some k -> (k < quota)%nat -> log_write b s = Ok (tt, s') ->
  reserves (s', <[p := S k]> ops).
Proof using Hquota.
  intros [Rc Rk Rs Rl Rn Ro R3 Rq Rr] Hp Hk Hrun. cbn [fst snd] in *.
  destruct (reserved_rest p k ops Rq Hp) as (Rq' & Hd & Hdb & Hkq & Hpos & Hsz).
  destruct (log_write_ok s b s' Rk Hrun) as (Hroom & Hlt & x & Hx).
  destruct (log_write_room s b x Hx) as (n & l & s2 & Hrun2 & Hg & Hlk & Hll & Hn);
    [lia|lia|lia|done|done|].
  assert (s2 = s') as -> by congruence.
  split; cbn [fst snd]; rewrite ?Hg; cbn; try done; try lia.
  - by rewrite map_size_insert_Some by (by exists k).
  - by rewrite map_size_insert_Some by (by exists k).
  - apply quota_insert; [done|lia].
  - rewrite <- insert_delete_eq, reserved_insert by apply lookup_delete_eq.
    unfold MAXOPBLOCKS, LOGSIZE in *. lia.
Qed.

Lemma reserves_end p k s s' ops :
  reserves (s, ops) -> ops !! p = Some k -> end_op s = Ok (tt, s') -> reserves (s', delete p ops).
Proof using Hquota.
  intros [Rc Rk Rs Rl Rn Ro R3 Rq Rr] Hp Hrun. cbn [fst snd] in *.
  destruct (reserved_rest p k ops Rq Hp) as (Rq' & Hd & Hdb & Hkq & Hpos & Hsz).
  pose proof (reserved_bounds _ Rq) as Hb.
  destruct (end_op_log _ _ _ Hrun) as [Hlk Hg]. cbn zeta in Hg. unfold MAXOPBLOCKS, LOGSIZE in *.
  rewrite i32_small in Hg by lia. cbn [outstanding set_outstanding lh_n] in Hg.
  destruct (Z.eqb_spec (outstanding (lg s) - 1) 0) as [Hz|Hz].
  - destruct (Z.ltb_spec 0 (lh_n (lg s))); split; cbn [fst snd]; rewrite ?Hg; cbn; try done;
      unfold LOGSIZE; lia.
  - split; cbn [fst snd]; rewrite ?Hg; cbn; try done; unfold LOGSIZE; lia.
Qed.

Lemma reserves_step c c' : reserves c -> call_step c c' -> reserves c'.
Proof using Hquota.
  intros Hr Hs. revert Hr.
  destruct Hs as [p s s' ops Hp Hrun|p k b s s' ops Hp Hk Hrun|p k s s' ops Hp Hrun|s s' ops Hg Hk];
    intros Hr.
  - exact (reserves_begin p s s' ops Hr Hp Hrun).
  - exact (reserves_write p k b s s' ops Hr Hp Hk Hrun).
  - exact (reserves_end p k s s' ops Hr Hp Hrun).
  - destruct Hr. cbn [fst snd] in *. split; cbn [fst snd]; by rewrite ?Hg, ?Hk.
Qed.

Lemma reserves_reach c c' : reserves c -> rtc call_step c c' -> reserves c'.
Proof using Hquota.
  intros H1 Hr. revert H1. induction Hr as [|c1 c2 c3 Hs _ IH]; [done|].
  intros H1. eapply IH, reserves_step; done.
Qed.
End Calls.

(** A log with thirty blocks that no call uses. *)
Record idle_log (s : store) : Prop := IdleLog {
  il_committing : committing (lg s) = false;
  il_lock : log_lock s = false;
  il_size : log_size (lg s) = Z.of_nat LOGSIZE;
  il_len : length (lh_block (lg s)) = LOGSIZE;
  il_count : lh_n (lg s) = 0;
  il_out : outstanding (lg s) = 0
}.

Lemma idle_reserves quota s : idle_log s -> reserves quota (s, ∅).
Proof.
  intros []. split; cbn [fst snd]; rewrite ?map_size_empty, ?il_count; try done; try lia.
Qed.

(** C3. Calls that log at most nine blocks each never exhaust the log: in every state that
    their interleaving reaches, the next [log_write] of a call below its quota succeeds,
    whatever the other calls did. *)
Theorem reservation_suffices s0 s ops p k b x :
  idle_log s0 -> rtc (call_step 9) (s0, ∅) (s, ops) ->
  ops !! p = Some k -> (k < 9)%nat -> bufs s !! b = Some x ->
  exists s', log_write b s = Ok (tt, s').
Proof.
  intros H0 Hreach Hp Hk Hx.
  assert (reserves 9 (s, ops)) as [Rc Rk Rs Rl Rn Ro R3 Rq Rr].
  { eapply reserves_reach; [|by apply idle_reserves|exact Hreach]. lia. }
  cbn [fst snd] in *.
  destruct (reserved_rest 9 ltac:(lia) p k ops Rq Hp) as (_ & Hd & Hdb & _ & Hpos & _).
  unfold MAXOPBLOCKS, LOGSIZE in *.
  destruct (log_write_room s b x Hx) as (n & l & s' & Hrun & _);
    unfold LOGSIZE; [lia|lia|lia|done|done|by exists s'].
Qed.

(** Runs of calls as data. *)
Inductive call_act := ABegin (p : Z) | AWrite (p : Z) (b : nat).

Definition do_act (quota : nat) (a : call_act) (c : store * gmap Z nat)
    : option (store * gmap Z nat) :=
  match a with
  | ABegin p =>
      match c.2 !! p, begin_op 0 id c.1 with
      | None, Ok (_, s') => Some (s', <[p := 0%nat]> c.2)
      | _, _ => None
      end
  | AWrite p b =>
      match c.2 !! p, log_write b c.1 with
      | Some k, Ok (_, s') => if (k <? quota)%nat then Some (s', <[p := S k]> c.2) else None
      | _, _ => None
      end
  end.

Fixpoint do_acts (quota : nat) (l : list call_act) (c : store * gmap Z nat)
    : option (store * gmap Z nat) :=
  match l with
  | [] => Some c
  | a :: l' => c' ← do_act quota a c; do_acts quota l' c'
  end.

Lemma do_act_step quota a c c' : do_act quota a c = Some c' -> call_step quota c c'.
Proof.
  destruct c as [s ops], a as [p|p b]; cbn [do_act fst snd].
  - destruct (ops !! p) eqn:Hp; [done|].
    destruct (begin_op 0 id s) as [[[] s']| | |] eqn:Hb; try done.
    intros H. apply (inj Some) in H as <-. by apply step_begin.
  - destruct (ops !! p) as [k|] eqn:Hp; [|done].
    destruct (log_write b s) as [[[] s']| | |] eqn:Hb; try done.
    destruct (Nat.ltb_spec k quota); [|done].
    intros H'. apply (inj Some) in H' as <-. by eapply step_write.
Qed.

Lemma do_acts_reach quota l c c' : do_acts quota l c = Some c' -> rtc (call_step quota) c c'.
Proof.
  revert c. induction l as [|a l IH]; intros c; cbn [do_acts].
  - intros H. by apply (inj Some) in H as ->.
  - destruct (do_act quota a c) as [c1|] eqn:Ha; [|done]. intros H.
    eapply rtc_l; [by eapply do_act_step|by apply IH].
Qed.

(** Thirty cached blocks and an idle log of thirty. *)
Definition busy_store : store :=
  Store 1 [] [] (map (fun i => set_blockno (100 + i) buf_zero) (seq 0 31)) false
    (Log 2 30 1 0 false 0 (replicate LOGSIZE 0)) false 0.

Definition busy_calls : list call_act :=
  [ABegin 1; ABegin 2; ABegin 3] ++ map (AWrite 1) (seq 0 10) ++
  map (AWrite 2) (seq 10 10) ++ map (AWrite 3) (seq 20 9).

Definition busy_end : store * gmap Z nat :=
  default (busy_store, ∅) (do_acts 10 busy_calls (busy_store, ∅)).

(** The reservation counts one block too many: three calls that [begin_op] admits and
    that log [MAXOPBLOCKS] blocks each lead to the panic of [log_write], since a log of
    [LOGSIZE] blocks has one for the header. *)
Theorem full_quotas_panic :
  exists s0 s ops p k b, idle_log s0 /\ rtc (call_step 10) (s0, ∅) (s, ops) /\
    ops !! p = Some k /\ (Z.of_nat k < MAXOPBLOCKS) /\ is_Some (bufs s !! b) /\
    log_write b s = Panic "too big a transaction".
Proof.
  exists busy_store, busy_end.1, busy_end.2, 3, 9%nat, 29%nat. split_and!.
  - by split.
  - apply (do_acts_reach 10 busy_calls). vm_compute. reflexivity.
  - vm_compute. reflexivity.
  - done.
  - vm_compute. by eexists.
  - vm_compute. reflexivity.
Qed.

Lemma reservation_suffices_witness :
  idle_log busy_store /\ exists s', log_write 5 (default (busy_store, ∅)
    (do_acts 9 [ABegin 1; ABegin 2; AWrite 2 7; AWrite 1 5] (busy_store, ∅))).1 = Ok (tt, s').
Proof.
  split; [by split|].
  apply (reservation_suffices busy_store _ (<[1 := 1%nat]> (<[2 := 1%nat]> ∅)) 1 1 5
    (set_flags B_DIRTY (set_blockno 105 buf_zero))).
  - by split.
  - apply (do_acts_reach 9 [ABegin 1; ABegin 2; AWrite 2 7; AWrite 1 5]). vm_compute. reflexivity.
  - reflexivity.
  - lia.
  - vm_compute. reflexivity.
Defined.
