(* ===== verification/Fs.v ===== *)
(** * The file system

    [lab-2/fs.c]: the block allocator, inodes and their content, directories and
    paths, on top of the cache and the log.  The inode cache, the super block and the
    current directory extend the state of the storage below. *)

From S2P Require Import Prelude CString Bytes Bcache Log.

Definition NINODE : nat := 50.
Definition NDEV : Z := 10.
Definition ROOTDEV : Z := 1.
Definition ROOTINO : Z := 1.
Definition NDIRECT : nat := 12.
Definition NINDIRECT : nat := 128.
Definition MAXFILE : Z := Z.of_nat (NDIRECT + NINDIRECT).
Definition DIRSIZ : nat := 14.
Definition T_DIR : Z := 1.
Definition T_FILE : Z := 2.
Definition T_DEV : Z := 3.

Definition i16 (x : Z) : Z := (x + 2 ^ 15) mod 2 ^ 16 - 2 ^ 15.

(** ** Inodes *)

(** [struct dinode], 64 bytes. *)
Record dinode := Dinode {
  d_type : Z;
  d_major : Z;
  d_minor : Z;
  d_nlink : Z;
  d_size : Z;
  d_addrs : list Z
}.

(** [struct inode]; the sleep lock as in the buffers. *)
Record inode := Inode {
  i_dev : Z;
  i_inum : Z;
  i_ref : Z;
  i_lock : option Z;
  i_valid : bool;
  i_type : Z;
  i_major : Z;
  i_minor : Z;
  i_nlink : Z;
  i_size : Z;
  i_addrs : list Z
}.

Definition set_ref v ip := Inode (i_dev ip) (i_inum ip) v (i_lock ip) (i_valid ip) (i_type ip)
  (i_major ip) (i_minor ip) (i_nlink ip) (i_size ip) (i_addrs ip).
Definition set_ilock v ip := Inode (i_dev ip) (i_inum ip) (i_ref ip) v (i_valid ip) (i_type ip)
  (i_major ip) (i_minor ip) (i_nlink ip) (i_size ip) (i_addrs ip).
Definition set_valid v ip := Inode (i_dev ip) (i_inum ip) (i_ref ip) (i_lock ip) v (i_type ip)
  (i_major ip) (i_minor ip) (i_nlink ip) (i_size ip) (i_addrs ip).
Definition set_type v ip := Inode (i_dev ip) (i_inum ip) (i_ref ip) (i_lock ip) (i_valid ip) v
  (i_major ip) (i_minor ip) (i_nlink ip) (i_size ip) (i_addrs ip).
Definition set_nlink v ip := Inode (i_dev ip) (i_inum ip) (i_ref ip) (i_lock ip) (i_valid ip)
  (i_type ip) (i_major ip) (i_minor ip) v (i_size ip) (i_addrs ip).
Definition set_numbers mj mn ip := Inode (i_dev ip) (i_inum ip) (i_ref ip) (i_lock ip)
  (i_valid ip) (i_type ip) mj mn (i_nlink ip) (i_size ip) (i_addrs ip).
Definition set_size v ip := Inode (i_dev ip) (i_inum ip) (i_ref ip) (i_lock ip) (i_valid ip)
  (i_type ip) (i_major ip) (i_minor ip) (i_nlink ip) v (i_addrs ip).
Definition set_addrs v ip := Inode (i_dev ip) (i_inum ip) (i_ref ip) (i_lock ip) (i_valid ip)
  (i_type ip) (i_major ip) (i_minor ip) (i_nlink ip) (i_size ip) v.

Definition inode_zero : inode := Inode 0 0 0 None false 0 0 0 0 0 (replicate 13 0).

(** [(struct dinode* )data + k], read and written. *)
Definition get_dinode (k : nat) (d : block) : option dinode :=
  let o := (64 * k)%nat in
  ty ← get_le 2 o d;
  mj ← get_le 2 (o + 2) d;
  mn ← get_le 2 (o + 4) d;
  nl ← get_le 2 (o + 6) d;
  sz ← get_le 4 (o + 8) d;
  ad ← mapM (fun j => get_le 4 (o + 12 + 4 * j) d) (seq 0 13);
  mret (Dinode (i16 ty) (i16 mj) (i16 mn) (i16 nl) sz ad).

Fixpoint put_words (off : nat) (vs : list Z) (d : block) : option block :=
  match vs with
  | [] => Some d
  | v :: vs' => d' ← put_le 4 off v d; put_words (off + 4) vs' d'
  end.

Definition put_dinode (k : nat) (x : dinode) (d : block) : option block :=
  let o := (64 * k)%nat in
  d ← put_le 2 o (d_type x) d;
  d ← put_le 2 (o + 2) (d_major x) d;
  d ← put_le 2 (o + 4) (d_minor x) d;
  d ← put_le 2 (o + 6) (d_nlink x) d;
  d ← put_le 4 (o + 8) (d_size x) d;
  put_words (o + 12) (d_addrs x) d.

(** ** The state *)

Record fsys := Fsys {
  st : store;
  sb : superblock;
  icache_lock : bool;
  icache : list inode;
  cwd : nat
}.

Definition set_st v f := Fsys v (sb f) (icache_lock f) (icache f) (cwd f).
Definition set_sb v f := Fsys (st f) v (icache_lock f) (icache f) (cwd f).
Definition set_icache_lock v f := Fsys (st f) (sb f) v (icache f) (cwd f).
Definition set_icache v f := Fsys (st f) (sb f) (icache_lock f) v (cwd f).
Definition set_cwd v f := Fsys (st f) (sb f) (icache_lock f) (icache f) v.

Abbreviation Fs := (M fsys).

(** A call of the layer below. *)
Definition disk {A} (m : St A) : Fs A := fun f =>
  match m (st f) with
  | Ok (a, s') => Ok (a, set_st s' f)
  | Panic msg => Panic msg
  | Fault w => Fault w
  | Diverge => Diverge
  end.

Definition geti (i : nat) : Fs inode :=
  f ← get; lift_opt "icache.inode" (icache f !! i).
Definition updi (i : nat) (g : inode -> inode) : Fs unit :=
  modify (fun f => set_icache (alter g i (icache f)) f).

Definition acquire_icache : Fs unit :=
  f ← get; if icache_lock f then panic "acquire" else put (set_icache_lock true f).
Definition release_icache : Fs unit :=
  f ← get; if icache_lock f then put (set_icache_lock false f) else panic "release".

(** The bytes of a buffer, read and replaced. *)
Definition bdata (b : nat) : Fs block := x ← disk (getb b); mret (data x).
Definition set_bdata (b : nat) (d : block) : Fs unit := disk (updb b (set_data d)).

(** ** Blocks *)

Definition BPB : Z := 4096.
Definition IPB : Z := 8.
Definition BBLOCK (b : Z) (sb : superblock) : nat := block_of (b / BPB + sb_bmapstart sb).
Definition IBLOCK (i : Z) (sb : superblock) : nat := block_of (i / IPB + sb_inodestart sb).

Definition bzero (d : Z) (bno : Z) : Fs unit :=
  bp ← disk (bread d (block_of bno));
  set_bdata bp (replicate BSIZE 0) ;;
  disk (log_write bp) ;;
  disk (brelse bp).

(** The bit [bi] of a bitmap block. *)
Definition bit (d : block) (bi : Z) : option Z :=
  v ← zlookup d (bi / 8); mret (Z.land v (Z.shiftl 1 (bi mod 8))).

Definition set_bit (d : block) (bi : Z) : option block :=
  v ← zlookup d (bi / 8); zinsert (bi / 8) (w8 (Z.lor v (Z.shiftl 1 (bi mod 8)))) d.

Definition clear_bit (d : block) (bi : Z) : option block :=
  v ← zlookup d (bi / 8);
  zinsert (bi / 8) (w8 (Z.land v (Z.lnot (Z.shiftl 1 (bi mod 8))))) d.

(** The body of the inner loop of [balloc]. *)
Definition try_bit (d : Z) (bp : nat) (b bi : Z) : Fs (option Z) :=
  x ← bdata bp;
  v ← lift_opt "bp->data" (bit x bi);
  if v =? 0 then
    x' ← lift_opt "bp->data" (set_bit x bi);
    set_bdata bp x' ;;
    disk (log_write bp) ;;
    disk (brelse bp) ;;
    bzero d (b + bi) ;;
    mret (Some (b + bi))
  else mret None.

(** The integers [0, s, 2*s, ...] below [n]. *)
Definition steps (s n : Z) : list Z :=
  map (fun k => s * Z.of_nat k) (seq 0 (Z.to_nat ((n + s - 1) / s))).

Definition balloc (d : Z) : Fs Z :=
  sb ← gets sb;
  r ← find_each (steps BPB (sb_size sb)) (fun b =>
        bp ← disk (bread d (BBLOCK b sb));
        r ← find_each (steps 1 (Z.min BPB (sb_size sb - b))) (try_bit d bp b);
        match r with
        | Some a => mret (Some a)
        | None => disk (brelse bp) ;; mret None
        end);
  match r with
  | Some a => mret a
  | None => panic "balloc: out of blocks"
  end.

Definition bfree (d : Z) (b : Z) : Fs unit :=
  sb ← gets sb;
  bp ← disk (bread d (BBLOCK b sb));
  let bi := b mod BPB in
  x ← bdata bp;
  v ← lift_opt "bp->data" (bit x bi);
  if v =? 0 then panic "freeing free block"
  else
    x' ← lift_opt "bp->data" (clear_bit x bi);
    set_bdata bp x' ;;
    disk (log_write bp) ;;
    disk (brelse bp).

(** ** Inodes *)

Definition iinit (d : Z) : Fs unit :=
  modify (set_icache_lock false) ;;
  for_each (seq 0 NINODE) (fun i => updi i (set_ilock None)) ;;
  sb ← disk (readsb d);
  modify (set_sb sb).

(** The search of [iget]: the cached inode, or the first unused entry. *)
Fixpoint iget_scan (l : list inode) (i : nat) (d inum : Z) (empty : option nat)
    : nat + option nat :=
  match l with
  | [] => inr empty
  | ip :: l' =>
      if (0 <? i_ref ip) && (i_dev ip =? d) && (i_inum ip =? inum) then inl i
      else iget_scan l' (S i) d inum
             (match empty with
              | None => if i_ref ip =? 0 then Some i else None
              | Some _ => empty
              end)
  end.

Definition iget (d inum : Z) : Fs nat :=
  acquire_icache ;;
  l ← gets icache;
  match iget_scan l 0 d inum None with
  | inl i => updi i (fun ip => set_ref (i32 (i_ref ip + 1)) ip) ;; release_icache ;; mret i
  | inr None => panic "iget: no inodes"
  | inr (Some i) =>
      updi i (fun ip => Inode d inum 1 (i_lock ip) false (i_type ip) (i_major ip) (i_minor ip)
                          (i_nlink ip) (i_size ip) (i_addrs ip)) ;;
      release_icache ;;
      mret i
  end.

Definition idup (i : nat) : Fs nat :=
  acquire_icache ;;
  updi i (fun ip => set_ref (i32 (i_ref ip + 1)) ip) ;;
  release_icache ;;
  mret i.

(** [dip] of the inode [inum] in the buffer [bp]. *)
Definition dip (bp : nat) (inum : Z) : Fs dinode :=
  x ← bdata bp; lift_opt "dip" (get_dinode (Z.to_nat (inum mod IPB)) x).
Definition set_dip (bp : nat) (inum : Z) (v : dinode) : Fs unit :=
  x ← bdata bp;
  x' ← lift_opt "dip" (put_dinode (Z.to_nat (inum mod IPB)) v x);
  set_bdata bp x'.

Definition ialloc (d : Z) (ty : Z) : Fs nat :=
  sb ← gets sb;
  r ← find_each (tail (steps 1 (sb_ninodes sb))) (fun inum =>
        bp ← disk (bread d (IBLOCK inum sb));
        x ← dip bp inum;
        if d_type x =? 0 then
          set_dip bp inum (Dinode ty 0 0 0 0 (replicate 13 0)) ;;
          disk (log_write bp) ;;
          disk (brelse bp) ;;
          i ← iget d inum;
          mret (Some i)
        else
          disk (brelse bp) ;; mret None);
  match r with
  | Some i => mret i
  | None => panic "ialloc: no inodes"
  end.

Definition iupdate (i : nat) : Fs unit :=
  sb ← gets sb;
  ip ← geti i;
  bp ← disk (bread (i_dev ip) (IBLOCK (i_inum ip) sb));
  set_dip bp (i_inum ip)
    (Dinode (i_type ip) (i_major ip) (i_minor ip) (i_nlink ip) (i_size ip) (i_addrs ip)) ;;
  disk (log_write bp) ;;
  disk (brelse bp).

(** [ilock] of the entry [i]; [None] is a null pointer. *)
Definition acquiresleep_inode (i : nat) : Fs unit :=
  ip ← geti i;
  match i_lock ip with
  | Some _ => diverge
  | None => p ← gets (fun f => me (st f)); updi i (set_ilock (Some p))
  end.

Definition ilock (o : option nat) : Fs unit :=
  match o with
  | None => panic "ilock"
  | Some i =>
      ip ← geti i;
      if i_ref ip <? 1 then panic "ilock"
      else
        acquiresleep_inode i ;;
        ip ← geti i;
        when (negb (i_valid ip))
          (sb ← gets sb;
           bp ← disk (bread (i_dev ip) (IBLOCK (i_inum ip) sb));
           x ← dip bp (i_inum ip);
           updi i (fun ip => Inode (i_dev ip) (i_inum ip) (i_ref ip) (i_lock ip) (i_valid ip)
                     (d_type x) (d_major x) (d_minor x) (d_nlink x) (d_size x) (d_addrs x)) ;;
           disk (brelse bp) ;;
           updi i (set_valid true) ;;
           ip ← geti i;
           if i_type ip =? 0 then panic "ilock: no type" else mret tt)
  end.

Definition holdingsleep_inode (i : nat) : Fs bool :=
  ip ← geti i; p ← gets (fun f => me (st f)); mret (bool_decide (i_lock ip = Some p)).

Definition iunlock (o : option nat) : Fs unit :=
  match o with
  | None => panic "iunlock"
  | Some i =>
      h ← holdingsleep_inode i;
      ip ← geti i;
      if negb h || (i_ref ip <? 1) then panic "iunlock"
      else updi i (set_ilock None)
  end.

(** ** Inode content *)

(** [((uint* )bp->data)[k]], read and written. *)
Definition word (bp : nat) (k : nat) : Fs Z :=
  x ← bdata bp; lift_opt "a" (get_uint k x).
Definition set_word (bp : nat) (k : nat) (v : Z) : Fs unit :=
  x ← bdata bp; x' ← lift_opt "a" (put_int k v x); set_bdata bp x'.

Definition addr (i : nat) (k : nat) : Fs Z :=
  ip ← geti i; lift_opt "addrs" (i_addrs ip !! k).
Definition set_addr (i : nat) (k : nat) (v : Z) : Fs unit :=
  updi i (fun ip => set_addrs (<[k := v]> (i_addrs ip)) ip).

Definition bmap (i : nat) (bn : Z) : Fs Z :=
  ip ← geti i;
  if bn <? Z.of_nat NDIRECT then
    let k := Z.to_nat bn in
    a ← addr i k;
    if a =? 0 then
      a ← balloc (i_dev ip);
      set_addr i k a ;;
      mret a
    else mret a
  else
    let bn := bn - Z.of_nat NDIRECT in
    if bn <? Z.of_nat NINDIRECT then
      a ← addr i NDIRECT;
      a ← (if a =? 0 then a ← balloc (i_dev ip); set_addr i NDIRECT a ;; mret a else mret a);
      bp ← disk (bread (i_dev ip) (block_of a));
      v ← word bp (Z.to_nat bn);
      v ← (if v =? 0 then
             v ← balloc (i_dev ip);
             set_word bp (Z.to_nat bn) v ;;
             disk (log_write bp) ;;
             mret v
           else mret v);
      disk (brelse bp) ;;
      mret v
    else panic "bmap: out of range".

Definition itrunc (i : nat) : Fs unit :=
  ip ← geti i;
  for_each (seq 0 NDIRECT) (fun k =>
    a ← addr i k;
    when (negb (a =? 0)) (bfree (i_dev ip) a ;; set_addr i k 0)) ;;
  a ← addr i NDIRECT;
  when (negb (a =? 0))
    (bp ← disk (bread (i_dev ip) (block_of a));
     for_each (seq 0 NINDIRECT) (fun j =>
       v ← word bp j;
       when (negb (v =? 0)) (bfree (i_dev ip) v)) ;;
     disk (brelse bp) ;;
     bfree (i_dev ip) a ;;
     set_addr i NDIRECT 0) ;;
  updi i (set_size 0) ;;
  iupdate i.

Definition iput (i : nat) : Fs unit :=
  acquiresleep_inode i ;;
  ip ← geti i;
  when (i_valid ip && (i_nlink ip =? 0))
    (acquire_icache ;;
     ip ← geti i;
     let r := i_ref ip in
     release_icache ;;
     when (r =? 1)
       (itrunc i ;;
        updi i (set_type 0) ;;
        iupdate i ;;
        updi i (set_valid false))) ;;
  updi i (set_ilock None) ;;
  acquire_icache ;;
  updi i (fun ip => set_ref (i32 (i_ref ip - 1)) ip) ;;
  release_icache.

Definition iunlockput (i : nat) : Fs unit := iunlock (Some i) ;; iput i.

(** [struct stat]. *)
Record stat := Stat {
  st_type : Z;
  st_dev : Z;
  st_ino : Z;
  st_nlink : Z;
  st_size : Z
}.

Definition stati (i : nat) : Fs stat :=
  ip ← geti i;
  mret (Stat (i_type ip) (i_dev ip) (i_inum ip) (i_nlink ip) (i_size ip)).

(** The device switch table, [devsw], which the drivers fill in: for a major number
    the functions to read and to write, where there are any. *)
Class Devices := {
  dev_read : Z -> option (nat -> Z -> Fs (Z * list Z));
  dev_write : Z -> option (nat -> list Z -> Z -> Fs Z)
}.

(** The bytes of a block from [o] on. *)
Definition bytes_at (d : block) (o m : Z) : option (list Z) :=
  if o + m <=? Z.of_nat (length d) then Some (slice (Z.to_nat o) (Z.to_nat m) d) else None.

(** The loop of [readi]; each round but the last reaches the end of a block, so that
    [n / BSIZE + 2] rounds are enough. *)
Fixpoint readi_loop (fuel : nat) (i : nat) (off n tot : Z) (dst : list Z) : Fs (list Z) :=
  match fuel with
  | O => diverge
  | S fuel' =>
      if tot <? n then
        ip ← geti i;
        a ← bmap i (off / 512);
        bp ← disk (bread (i_dev ip) (block_of a));
        let m := Z.min (n - tot) (512 - off mod 512) in
        x ← bdata bp;
        l ← lift_opt "bp->data" (bytes_at x (off mod 512) m);
        disk (brelse bp) ;;
        readi_loop fuel' i (off + m) n (tot + m) (dst ++ l)
      else mret dst
  end.

(** [readi] returns its result and the bytes it puts at [dst]. *)
Definition readi `{Devices} (i : nat) (off n : Z) : Fs (Z * list Z) :=
  ip ← geti i;
  if i_type ip =? T_DEV then
    if (i_major ip <? 0) || (NDEV <=? i_major ip) then mret (-1, [])
    else
      match dev_read (i_major ip) with
      | None => mret (-1, [])
      | Some r => r i n
      end
  else if (i_size ip <? off) || (w32 (off + n) <? off) then mret (-1, [])
  else
    let n := if i_size ip <? w32 (off + n) then i_size ip - off else n in
    dst ← readi_loop (Z.to_nat (n / 512) + 3) i off n 0 [];
    mret (i32 n, dst).

(** The loop of [writei]; returns the final [off]. *)
Fixpoint writei_loop (fuel : nat) (i : nat) (src : list Z) (off n tot : Z) : Fs Z :=
  match fuel with
  | O => diverge
  | S fuel' =>
      if tot <? n then
        ip ← geti i;
        a ← bmap i (off / 512);
        bp ← disk (bread (i_dev ip) (block_of a));
        let m := Z.min (n - tot) (512 - off mod 512) in
        l ← lift_opt "src" (bytes_at src tot m);
        x ← bdata bp;
        set_bdata bp (splice (Z.to_nat (off mod 512)) l x) ;;
        disk (log_write bp) ;;
        disk (brelse bp) ;;
        writei_loop fuel' i src (off + m) n (tot + m)
      else mret off
  end.

Definition writei `{Devices} (i : nat) (src : list Z) (off n : Z) : Fs Z :=
  ip ← geti i;
  if i_type ip =? T_DEV then
    if (i_major ip <? 0) || (NDEV <=? i_major ip) then mret (-1)
    else
      match dev_write (i_major ip) with
      | None => mret (-1)
      | Some w => w i src n
      end
  else if (i_size ip <? off) || (w32 (off + n) <? off) then mret (-1)
  else if MAXFILE * 512 <? w32 (off + n) then mret (-1)
  else
    off ← writei_loop (Z.to_nat (n / 512) + 3) i src off n 0;
    ip ← geti i;
    when ((0 <? n) && (i_size ip <? off))
      (updi i (set_size off) ;;
       iupdate i) ;;
    mret (i32 n).

(** ** Directories *)

(** [struct dirent] in 16 bytes. *)
Record dirent := Dirent { de_inum : Z; de_name : list Z }.

Definition read_dirent (l : list Z) : option dirent :=
  i ← get_le 2 0 l; mret (Dirent i (drop 2 l)).
Definition dirent_bytes (e : dirent) : list Z := le_bytes 2 (de_inum e) ++ de_name e.

(** The string functions on two arrays of their own. *)
Definition namecmp (s t : list Z) : Fs Z := fun f =>
  match strncmp 0 (length s) DIRSIZ (s ++ t) with
  | Ok (v, _) => Ok (v, f)
  | Panic m => Panic m
  | Fault w => Fault w
  | Diverge => Diverge
  end.

Definition strncpy_name (dst src : list Z) : Fs (list Z) := fun f =>
  match strncpy 0 (length dst) (Z.of_nat DIRSIZ) (dst ++ src) with
  | Ok (_, m) => Ok (take (length dst) m, f)
  | Panic m => Panic m
  | Fault w => Fault w
  | Diverge => Diverge
  end.

(** The entry at [off]. *)
Definition read_entry `{Devices} (msg : string) (dp : nat) (off : Z) : Fs dirent :=
  '(r, l) ← readi dp off 16;
  if negb (r =? 16) then panic msg else lift_opt "de" (read_dirent l).

(** Returns the inode and the offset of the entry. *)
Definition dirlookup `{Devices} (dp : nat) (name : list Z) : Fs (option (nat * Z)) :=
  ip ← geti dp;
  if negb (i_type ip =? T_DIR) then panic "dirlookup not DIR"
  else
    find_each (steps 16 (i_size ip)) (fun off =>
      de ← read_entry "dirlookup read" dp off;
      if de_inum de =? 0 then mret None
      else
        c ← namecmp name (de_name de);
        if c =? 0 then
          ip ← geti dp;
          i ← iget (i_dev ip) (de_inum de);
          mret (Some (i, off))
        else mret None).

Definition dirlink `{Devices} (dp : nat) (name : list Z) (inum : Z) : Fs Z :=
  r ← dirlookup dp name;
  match r with
  | Some (i, _) => iput i ;; mret (-1)
  | None =>
      ip ← geti dp;
      r ← find_each (steps 16 (i_size ip)) (fun off =>
            de ← read_entry "dirlink read" dp off;
            mret (if de_inum de =? 0 then Some (off, de) else None));
      (* without an empty entry the loop leaves in [off] the first multiple of 16 from
         the size on; strncpy writes all of [de.name] *)
      let off := match r with
                 | Some (off, _) => off
                 | None => 16 * ((i_size ip + 15) / 16)
                 end in
      nm ← strncpy_name (replicate DIRSIZ 0) name;
      n ← writei dp (dirent_bytes (Dirent (inum mod 2 ^ 16) nm)) off 16;
      if negb (n =? 16) then panic "dirlink" else mret 0
  end.

(** ** Paths

    A path is its bytes from the pointer on, the terminating 0 included. *)

Definition slash : Z := 47.

Fixpoint skip_slashes (path : list Z) : res (list Z) :=
  match path with
  | [] => Fault "path"
  | c :: path' => if c =? slash then skip_slashes path' else Ok path
  end.

(** The bytes up to the next slash or the end, and the rest. *)
Fixpoint take_elem (path : list Z) : res (list Z * list Z) :=
  match path with
  | [] => Fault "path"
  | c :: path' =>
      if (c =? slash) || (c =? 0) then Ok ([], path)
      else '(s, r) ← take_elem path'; mret (c :: s, r)
  end.

(** The rest of the path, if there is an element, and the new [name]. *)
Definition skipelem (path name : list Z) : res (option (list Z) * list Z) :=
  path ← skip_slashes path;
  if bool_decide (head path = Some 0) then mret (None, name)
  else
    '(s, path) ← take_elem path;
    let name :=
      if (DIRSIZ <=? length s)%nat then splice 0 (take DIRSIZ s) name
      else splice 0 (s ++ [0]) name in
    path ← skip_slashes path;
    mret (Some path, name).

Definition lift_res {A} (r : res A) : Fs A := fun f =>
  match r with
  | Ok a => Ok (a, f)
  | Panic m => Panic m
  | Fault w => Fault w
  | Diverge => Diverge
  end.

(** The loop of [namex]; every round shortens the path. *)
Fixpoint namex_loop `{Devices} (fuel : nat) (path : list Z) (parent : bool) (name : list Z)
    (ip : nat) : Fs (option nat * list Z) :=
  match fuel with
  | O => diverge
  | S fuel' =>
      '(r, name) ← lift_res (skipelem path name);
      match r with
      | None => if parent then iput ip ;; mret (None, name) else mret (Some ip, name)
      | Some path =>
          ilock (Some ip) ;;
          n ← geti ip;
          if negb (i_type n =? T_DIR) then iunlockput ip ;; mret (None, name)
          else if parent && bool_decide (head path = Some 0) then
            iunlock (Some ip) ;; mret (Some ip, name)
          else
            next ← dirlookup ip name;
            match next with
            | None => iunlockput ip ;; mret (None, name)
            | Some (next, _) => iunlockput ip ;; namex_loop fuel' path parent name next
            end
      end
  end.

Definition namex `{Devices} (path : list Z) (parent : bool) (name : list Z)
    : Fs (option nat * list Z) :=
  c ← lift_opt "path" (head path);
  ip ← (if c =? slash then iget ROOTDEV ROOTINO else c ← gets cwd; idup c);
  namex_loop (S (length path)) path parent name ip.

Definition namei `{Devices} (path : list Z) : Fs (option nat) :=
  '(r, _) ← namex path false (replicate DIRSIZ 0); mret r.

Definition nameiparent `{Devices} (path name : list Z) : Fs (option nat * list Z) :=
  namex path true name.
