(* ===== verification/SmallDisk.v ===== *)
(** * A small disk

    A file system of forty blocks for the concrete runs: the super block places a log
    of thirty blocks at block 2, the bitmap at block 32 and the inodes at block 33; the
    root directory has its entries in block 34, and a file of five bytes is in block 35. *)

From S2P Require Import Prelude CString Bytes Bcache Log LogSpec Recovery LogThms Transaction Fs.

#[local] Opaque boot.

Fixpoint put_ints (k : nat) (vs : list Z) (d : block) : block :=
  match vs with
  | [] => d
  | v :: vs' => put_ints (S k) vs' (default d (put_int k v d))
  end.

Definition zero_block : block := replicate BSIZE 0.

Definition small_sb : superblock := Superblock 40 4 8 30 2 33 32.

Definition name_of (l : list Z) : list Z := take DIRSIZ (l ++ replicate DIRSIZ 0).

(** The entries ".", ".." and "f". *)
Definition small_root : list dirent :=
  [Dirent 1 (name_of [46]); Dirent 1 (name_of [46; 46]); Dirent 2 (name_of [102])].

Definition root_dinode : dinode := Dinode 1 0 0 1 48 (34 :: replicate 12 0).
Definition file_dinode : dinode := Dinode 2 0 0 1 5 (35 :: replicate 12 0).

Definition small_bitmap : block := splice 0 [255; 255; 255; 255; 15] zero_block.
Definition small_inodes : block :=
  default zero_block (x ← put_dinode 1 root_dinode zero_block; put_dinode 2 file_dinode x).

Definition small_disk (hd : list Z) : list block :=
  <[1%nat := put_ints 0 [40; 4; 8; 30; 2; 33; 32] zero_block]>
    (<[2%nat := put_ints 0 hd zero_block]>
    (<[32%nat := small_bitmap]>
    (<[33%nat := small_inodes]>
    (<[34%nat := splice 0 (concat (map dirent_bytes small_root)) zero_block]>
    (<[35%nat := splice 0 [104; 101; 108; 108; 111] zero_block]>
       (replicate 40 zero_block)))))).

Definition small_log : log := Log 2 30 1 0 false 0 [].

Lemma small_length hd : length (small_disk hd) = 40%nat.
Proof. unfold small_disk. by rewrite !length_insert, length_replicate. Qed.

Lemma small_layout hd : layout small_log (length (small_disk hd)).
Proof. rewrite small_length. split; cbn; unfold LOGSIZE; lia. Qed.

Lemma small_super hd : super_of (small_disk hd) small_log.
Proof. eexists _, small_sb. split; [reflexivity|]. split; [vm_compute; reflexivity|]. by split. Qed.

Lemma small_none : homes small_log (length (small_disk [])) [].
Proof. split; [constructor|by intros b ?%elem_of_nil|done]. Qed.

Lemma small_idle p :
  exists s hd, boot (power_on p (small_disk [])) = Ok (tt, s) /\ idle s /\
    memdisk s = <[2%nat := hd]> (small_disk []) /\
    log_start (lg s) = 2%nat /\ log_size (lg s) = 30.
Proof.
  destruct (boot_idle p (small_disk []) small_log [] (small_layout []) small_none
    (small_super [])) as (hd & s & Hr & _ & Hi & Hm & _ & Hst & Hsz).
  { split; [vm_compute; reflexivity|]. split; [vm_compute; reflexivity|by intros i b ?]. }
  exists s, hd. split; [exact Hr|]. split; [exact Hi|]. by split_and!.
Qed.

(** A transaction on this disk. *)
Lemma small_txn :
  exists s hd, txn s (<[2%nat := hd]> (small_disk [])) ∅ [] /\
    memdisk s = <[2%nat := hd]> (small_disk []) /\
    log_start (lg s) = 2%nat /\ log_size (lg s) = 30.
Proof.
  destruct (small_idle 7) as (s & hd & _ & Hi & Hm & Hst & Hsz).
  destruct (begin_op_run 0 id s Hi) as (s1 & _ & T & D & _ & _ & St1 & Sz1).
  exists s1, hd. rewrite <- Hm, <- Hst, <- Hsz. by split_and!.
Qed.

(** Its blocks past the log. *)
Lemma small_block hd bn d :
  small_disk [] !! bn = Some d -> bn <> 2%nat -> <[2%nat := hd]> (small_disk []) !! bn = Some d.
Proof. intros Hd Hbn. by rewrite list_lookup_insert_ne. Qed.

Lemma small_home s bn :
  log_start (lg s) = 2%nat -> log_size (lg s) = 30 -> (32 <= bn < 40)%nat ->
  home (lg s) 40 bn.
Proof. intros Hst Hsz Hbn. unfold home, in_log. rewrite Hst, Hsz. lia. Qed.
