(* ===== verification/LogProps.v ===== *)
(** * Properties of the cache, the log and the recovery *)

From S2P Require Import Prelude Bytes Bcache BcacheSpec Log LogSpec Recovery LogThms Transaction SmallDisk.

#[local] Opaque boot.

(** ** The cache *)

(** The calls of a process that uses the cache; it changes the data of buffers that it holds. *)
Inductive cache_op :=
  | Bread (bn : nat)
  | Change (bn : nat) (v : block)
  | Bwrite (bn : nat)
  | Brelse (bn : nat).

(** A call, with the buffers that the process holds, by their blocks; for [bread] the result is
    the block, the lock and the data of the buffer. *)
Definition cache_call (o : cache_op) (H : gmap nat nat) : St (gmap nat nat * option (nat * option Z * block)) :=
  match o with
  | Bread bn => i ← bread 1 bn; b ← getb i; mret (<[bn := i]> H, Some (blockno b, lock b, data b))
  | Change bn v => i ← lift_opt "held" (H !! bn); updb i (set_data v) ;; mret (H, None)
  | Bwrite bn => i ← lift_opt "held" (H !! bn); bwrite i ;; mret (H, None)
  | Brelse bn => i ← lift_opt "held" (H !! bn); brelse i ;; mret (delete bn H, None)
  end.

Fixpoint cache_calls (os : list cache_op) (H : gmap nat nat)
    : St (gmap nat nat * list (option (nat * option Z * block))) :=
  match os with
  | [] => mret (H, [])
  | o :: os' =>
      '(H1, r) ← cache_call o H;
      '(H2, rs) ← cache_calls os' H1;
      mret (H2, r :: rs)
  end.

(** The same calls on a disk without a cache and the data [B] that the process holds; [None] for
    a call that a process does not make: it holds at most [NBUF] blocks, each once, and
    releases none that it has changed and not written. *)
Definition disk_call (p : Z) (o : cache_op) (d : list block) (B : gmap nat block)
    : option (list block * gmap nat block * option (nat * option Z * block)) :=
  match o with
  | Bread bn =>
      match B !! bn, d !! bn with
      | None, Some v =>
          if (size B <? NBUF)%nat then Some (d, <[bn := v]> B, Some (bn, Some p, v)) else None
      | _, _ => None
      end
  | Change bn v => match B !! bn with Some _ => Some (d, <[bn := v]> B, None) | None => None end
  | Bwrite bn => match B !! bn with Some v => Some (<[bn := v]> d, B, None) | None => None end
  | Brelse bn =>
      match B !! bn with
      | Some v => if decide (d !! bn = Some v) then Some (d, delete bn B, None) else None
      | None => None
      end
  end.

Fixpoint disk_calls (p : Z) (os : list cache_op) (d : list block) (B : gmap nat block)
    : option (list block * gmap nat block * list (option (nat * option Z * block))) :=
  match os with
  | [] => Some (d, B, [])
  | o :: os' =>
      '(d1, B1, r) ← disk_call p o d B;
      '(d2, B2, rs) ← disk_calls p os' d1 B1;
      mret (d2, B2, r :: rs)
  end.

(** The cache shows the data that is held, and the disk for the other blocks. *)
Record coherent (s : store) (d : list block) (B : gmap nat block) (H : gmap nat nat) : Prop := Coherent {
  co_disk : memdisk s = d;
  co_dom : dom H = dom B;
  co_view : exists V, view s V H ∅ /\ (forall bn v, B !! bn = Some v -> V !! bn = Some v) /\
    forall bn, B !! bn = None -> V !! bn = d !! bn
}.

Lemma coherent_held s d B H bn v : coherent s d B H -> B !! bn = Some v -> exists i, H !! bn = Some i.
Proof.
  intros [_ Hdom _] Hb. assert (bn ∈ dom H) as [i Hi]%elem_of_dom by (rewrite Hdom; by eapply elem_of_dom_2).
  by exists i.
Qed.

Lemma cache_call_run s d B H o d' B' r :
  coherent s d B H -> disk_call (me s) o d B = Some (d', B', r) ->
  exists s' H', cache_call o H s = Ok ((H', r), s') /\ coherent s' d' B' H' /\ me s' = me s.
Proof.
  intros Hco. pose proof Hco as [Hd Hdom (V & Hv & HB & HV)]. destruct o as [bn|bn v|bn|bn]; cbn [disk_call cache_call].
  - destruct (B !! bn) as [?|] eqn:Hb; [done|]. destruct (d !! bn) as [v|] eqn:Hdv; [|done].
    destruct (Nat.ltb_spec (size B) NBUF) as [Hsz|]; [|done]. intros [= <- <- <-].
    assert (H !! bn = None) as Hn by (apply not_elem_of_dom; rewrite Hdom; by apply not_elem_of_dom).
    assert (V !! bn = Some v) as HVb by (by rewrite HV).
    destruct (bread_view s V H ∅ bn v Hv HVb Hn) as (i & s1 & R & E & V1).
    { right. by rewrite union_empty_r_L, Hdom, size_dom. }
    destruct V1 as [l C]. assert (<[bn := i]> H !! bn = Some i) as Hi by apply lookup_insert_eq.
    destruct (caches_at l _ _ _ _ _ _ C (c_held _ _ _ _ _ C _ _ Hi)) as (b & Hbi & _ & Hbn & _ & HVd & _ & Hl).
    rewrite decide_True in Hl by done. destruct Hl as [Hl _]. exists s1, (<[bn := i]> H). split; [|split].
    + rewrite (bind_ok _ _ _ _ _ R), (bind_ok _ _ _ _ _ (getb_run i b s1 Hbi)), Hl, Hbn, (e_me _ _ _ _ E).
      assert (data b = v) as -> by congruence. done.
    + split; [by rewrite (e_disk _ _ _ _ E)|by rewrite !dom_insert_L, Hdom|]. exists V. split; [by exists l|]. split.
      * intros bn' v' [[<- <-]|[_ Hb']]%lookup_insert_Some; [done|by apply HB].
      * intros bn' [Hb' _]%lookup_insert_None. by apply HV.
    + apply (e_me _ _ _ _ E).
  - destruct (B !! bn) as [w|] eqn:Hb; [|done]. intros [= <- <- <-]. destruct (coherent_held _ _ _ _ _ _ Hco Hb) as [i Hi].
    rewrite Hi, bind_lift_Some. assert (bn < length V)%nat as Hlt by (eapply lookup_lt_Some; by apply HB).
    destruct (set_data_view s V H ∅ bn i v Hv Hi Hlt) as (s1 & R & E & V1). exists s1, H. split; [|split].
    + by rewrite (bind_ok _ _ _ _ _ R).
    + split; [by rewrite (e_disk _ _ _ _ E)|by rewrite dom_insert_lookup_L by by exists w|].
      exists (<[bn := v]> V). split; [done|]. split.
      * intros bn' v' [[<- <-]|[Hne Hb']]%lookup_insert_Some; [by apply list_lookup_insert_eq|].
        rewrite list_lookup_insert_ne by done. by apply HB.
      * intros bn' [Hb' Hne]%lookup_insert_None. rewrite list_lookup_insert_ne by done. by apply HV.
    + apply (e_me _ _ _ _ E).
  - destruct (B !! bn) as [w|] eqn:Hb; [|done]. intros [= <- <- <-]. destruct (coherent_held _ _ _ _ _ _ Hco Hb) as [i Hi].
    rewrite Hi, bind_lift_Some. destruct (bwrite_view s V H ∅ bn i w Hv Hi (HB _ _ Hb)) as (s1 & R & E & V1).
    exists s1, H. split; [|split].
    + by rewrite (bind_ok _ _ _ _ _ R).
    + split; [by rewrite (e_disk _ _ _ _ E), <- Hd|done|]. exists V.
      assert (∅ ∖ {[bn]} = (∅ : gset nat)) as HD by set_solver. rewrite HD in V1. split; [done|].
      split; [done|]. intros bn' Hb'. rewrite list_lookup_insert_ne by congruence. by apply HV.
    + apply (e_me _ _ _ _ E).
  - destruct (B !! bn) as [w|] eqn:Hb; [|done]. case_decide as Hdw; [|done]. intros [= <- <- <-].
    destruct (coherent_held _ _ _ _ _ _ Hco Hb) as [i Hi]. rewrite Hi, bind_lift_Some.
    destruct (brelse_view s V H ∅ bn i Hv Hi) as (s1 & R & E & V1).
    { right. rewrite Hd, Hdw. by apply HB. }
    exists s1, (delete bn H). split; [|split].
    + by rewrite (bind_ok _ _ _ _ _ R).
    + split; [by rewrite (e_disk _ _ _ _ E)|by rewrite !dom_delete_L, Hdom|]. exists V. split; [done|]. split.
      * intros bn' v' [_ Hb']%lookup_delete_Some. by apply HB.
      * intros bn' Hb'. destruct (decide (bn = bn')) as [<-|Hne]; [by rewrite Hdw; apply HB|].
        rewrite lookup_delete_ne in Hb' by done. by apply HV.
    + apply (e_me _ _ _ _ E).
Qed.

(** C27. The calls of a process on the cache do what they do on a disk without one, whatever
    buffers they make the cache recycle: every [bread] gives a buffer of the block that this
    process has locked, with the data of the last [bwrite] to the block; the disk has what
    was written, and after the calls the cache is again in a state where this holds. *)
Theorem cache_is_coherent s d B H os d' B' rs :
  coherent s d B H -> disk_calls (me s) os d B = Some (d', B', rs) ->
  exists s' H', cache_calls os H s = Ok ((H', rs), s') /\ memdisk s' = d' /\ coherent s' d' B' H'.
Proof.
  revert s d B H rs. induction os as [|o os IH]; intros s d B H rs Hco; cbn [disk_calls cache_calls].
  - intros [= <- <- <-]. exists s, H. split; [done|]. split; [apply Hco|done].
  - destruct (disk_call (me s) o d B) as [[[d1 B1] r]|] eqn:Ho; [|done]. cbn [mbind option_bind].
    destruct (disk_calls (me s) os d1 B1) as [[[d2 B2] rs1]|] eqn:Hos; [|done]. cbn [mbind option_bind].
    intros [= <- <- <-]. destruct (cache_call_run s d B H o d1 B1 r Hco Ho) as (s1 & H1 & R1 & Hco1 & Hme).
    rewrite <- Hme in Hos. destruct (IH s1 d1 B1 H1 rs1 Hco1 Hos) as (s2 & H2 & R2 & Hd2 & Hco2).
    exists s2, H2. rewrite (bind_ok _ _ _ _ _ R1), (bind_ok _ _ _ _ _ R2). done.
Qed.

(** Forty blocks are read through thirty buffers, and the one that was written comes back. *)
Definition many_reads : list cache_op :=
  [Bread 35; Change 35 zero_block; Bwrite 35; Brelse 35] ++
  concat (map (fun bn => [Bread bn; Brelse bn]) (seq 0 35)) ++ [Bread 36; Bread 35].

Lemma cache_is_coherent_witness :
  exists s, coherent s (small_disk []) ∅ ∅ /\ me s = 7 /\
    exists s' H' rs, cache_calls many_reads ∅ s = Ok ((H', rs), s') /\
      memdisk s' = <[35%nat := zero_block]> (small_disk []) /\
      last rs = Some (Some (35%nat, Some 7, zero_block)).
Proof.
  exists (set_bufs binit_bufs (power_on 7 (small_disk []))).
  assert (coherent (set_bufs binit_bufs (power_on 7 (small_disk []))) (small_disk []) ∅ ∅) as Hco.
  { split; [done|done|]. exists (small_disk []). split; [apply binit_view|]. split; [intros bn v Hb; by rewrite lookup_empty in Hb|done]. }
  split; [exact Hco|]. split; [done|].
  assert (match disk_calls 7 many_reads (small_disk []) ∅ with
    | Some (d', _, rs) => bool_decide (d' = <[35%nat := zero_block]> (small_disk []) /\
        last rs = Some (Some (35%nat, Some 7, zero_block)))
    | None => false
    end = true) as Hr by (vm_compute; reflexivity).
  destruct (disk_calls 7 many_reads (small_disk []) ∅) as [[[d' B'] rs]|] eqn:Hc; [|done].
  apply bool_decide_eq_true in Hr as [-> Hl].
  destruct (cache_is_coherent _ _ _ _ many_reads _ B' rs Hco Hc) as (s' & H' & R & Hd & _).
  exists s', H', rs. split; [exact R|]. by split.
Defined.

(** ** Transactions and crashes *)

(** C1. A call that updates blocks between [begin_op] and [end_op] succeeds, leaves the
    file system idle with the updates on the disk, and is atomic: if the machine stops
    after any number of the disk writes, the next boot recovers an idle file system
    where either all updates are in place or none. *)
Theorem transaction_is_atomic s upds fuel others :
  idle s -> (forall w, w ∈ upds -> home (lg s) (length (memdisk s)) w.1) ->
  Z.of_nat (length upds) < log_size (lg s) ->
  exists s' ws, transaction fuel others upds s = Ok (tt, s') /\ idle s' /\
    writes s' = writes s ++ ws /\ same_home (lg s) (memdisk s') (apply_writes (memdisk s) upds) /\
    exists c, forall k p, exists r,
      boot (power_on p (apply_writes (memdisk s) (take k ws))) = Ok (tt, r) /\ idle r /\
      same_home (lg s) (memdisk r)
        (if (k <=? c)%nat then memdisk s else apply_writes (memdisk s) upds).
Proof.
  intros Hi Hh Hlen.
  destruct (begin_op_run fuel others s Hi) as (s1 & R1 & T1 & D1 & W1 & O1 & St1 & Sz1).
  destruct (updates_run s1 _ [] upds T1) as (s2 & Bs & R2 & S2 & T2 & L2).
  { intros w Hw. destruct (Hh w Hw) as (? & ? & ?). unfold home, in_log in *. by rewrite St1, Sz1. }
  { rewrite Sz1. cbn. lia. }
  assert (forall d d', same_home (lg s2) d d' -> same_home (lg s) d d') as Hsm.
  { intros d d' Hd bn Hbn. apply Hd. unfold in_log in *.
    by rewrite (sy_start _ _ S2), (sy_size _ _ S2), St1, Sz1. }
  assert (memdisk s2 = memdisk s) as D2 by (by rewrite (sy_disk _ _ S2)).
  destruct (end_op_run s2 _ _ T2) as (s3 & ws & R3 & I3 & W3 & _ & _ & H3 & C3).
  { by rewrite (sy_out _ _ S2). }
  { apply (super_ext (memdisk s) _ (lg s)).
    - by rewrite D2.
    - by rewrite (sy_start _ _ S2).
    - by rewrite (sy_size _ _ S2).
    - apply Hi. }
  { rewrite D2, (sy_start _ _ S2), St1. apply Hi. }
  exists s3, ws. split_and!; [|done| |by apply Hsm|].
  - unfold transaction. by rewrite (bind_ok _ _ _ _ _ R1), (bind_ok _ _ _ _ _ R2).
  - by rewrite W3, (sy_writes _ _ S2), W1.
  - exists (length Bs). intros k p. destruct (C3 k p) as (r & Hr & Ir & Hm).
    rewrite D2 in Hr, Hm. exists r. split; [exact Hr|]. split; [exact Ir|]. apply Hsm.
    by destruct (k <=? length Bs)%nat.
Qed.

Lemma transaction_is_atomic_witness :
  exists s, idle s /\ exists s' ws,
    transaction 0 id [(36%nat, zero_block); (37%nat, [1]); (36%nat, [2])] s = Ok (tt, s') /\
    idle s' /\ writes s' = writes s ++ ws /\
    same_home (lg s) (memdisk s')
      (apply_writes (memdisk s) [(36%nat, zero_block); (37%nat, [1]); (36%nat, [2])]) /\
    exists c, forall k p, exists r,
      boot (power_on p (apply_writes (memdisk s) (take k ws))) = Ok (tt, r) /\ idle r /\
      same_home (lg s) (memdisk r)
        (if (k <=? c)%nat then memdisk s
         else apply_writes (memdisk s) [(36%nat, zero_block); (37%nat, [1]); (36%nat, [2])]).
Proof.
  destruct (small_idle 7) as (s & hd & _ & Hi & Hm & Hst & Hsz). exists s. split; [exact Hi|].
  assert (length (memdisk s) = 40%nat) as Hl by (by rewrite Hm, length_insert, small_length).
  apply transaction_is_atomic; [exact Hi| |rewrite Hsz; cbn; lia].
  intros w Hw. unfold home, in_log. rewrite Hl, Hst, Hsz.
  repeat (apply elem_of_cons in Hw as [->|Hw]; [cbn; lia|]). by apply not_elem_of_nil in Hw.
Defined.

(** Repeating writes after a part of them changes nothing. *)
Lemma apply_writes_again d ws k :
  NoDup ws.*1 -> apply_writes (apply_writes d (take k ws)) ws = apply_writes d ws.
Proof.
  intros Hnd. apply list_eq. intros bn. destruct (decide (bn ∈ ws.*1)) as [Hin|Hout].
  - apply list_elem_of_fmap in Hin as ([bn' v] & -> & Hin). cbn.
    destruct (decide (bn' < length d)%nat) as [Hlt|Hge].
    + rewrite !(apply_writes_eq _ ws bn' v) by (rewrite ?apply_writes_length; done). done.
    + rewrite !lookup_ge_None_2; [done|..]; rewrite ?apply_writes_length; lia.
  - rewrite !(apply_writes_ne _ ws) by done. apply apply_writes_ne. rewrite fmap_take.
    intros (i & Hx%list_elem_of_lookup_2 & _)%elem_of_take. done.
Qed.

Lemma install_writes_ext st V V' Bs n :
  (forall j, (j < n)%nat -> V' !! (st + j + 1)%nat = V !! (st + j + 1)%nat) ->
  install_writes st V' Bs n = install_writes st V Bs n.
Proof.
  intros Hj. apply list_fmap_ext. intros i j [-> Hi]%lookup_seq. cbn. f_equal.
  by rewrite !list_lookup_total_alt, Hj by lia.
Qed.

(** C2. Recovery may itself be interrupted: after any number of its disk writes the next
    boot ends with the same blocks on their places. *)
Theorem recovery_can_be_interrupted p q d g Bs k :
  layout g (length d) -> homes g (length d) Bs -> super_of d g ->
  holds_head (d !!! log_start g) Bs ->
  exists r, boot (power_on p d) = Ok (tt, r) /\ idle r /\
    exists r', boot (power_on q (apply_writes d (take k (writes r)))) = Ok (tt, r') /\ idle r' /\
      same_home g (memdisk r') (memdisk r).
Proof.
  intros Hl Hh Hs Hd. set (st := log_start g) in *.
  set (iw := install_writes st d Bs (length Bs)).
  assert (iw.*1 = Bs) as Hfst by (unfold iw; by rewrite install_writes_fst, firstn_all).
  destruct (boot_idle p d g Bs Hl Hh Hs Hd) as (hd & r & Hr & H0 & Hi & Hm & Hw & _).
  fold st iw in Hm, Hw. exists r. split; [exact Hr|]. split; [exact Hi|]. clear Hr.
  assert (forall bn, bn ∈ Bs -> ~ in_log g bn) as HB by apply (homes_log _ _ _ Hh).
  destruct (decide (k <= length Bs)%nat) as [Hk|Hk].
  - assert (length iw = length Bs) as Liw by (by rewrite <- Hfst, length_fmap).
    rewrite Hw, take_app_le by lia. set (dk := apply_writes d (take k iw)).
    assert (length dk = length d) as Ldk by apply apply_writes_length.
    assert (forall bn, bn ∉ Bs -> dk !! bn = d !! bn) as Hsame.
    { intros bn Hbn. apply apply_writes_ne. rewrite fmap_take, Hfst.
      intros (i & Hx%list_elem_of_lookup_2 & _)%elem_of_take. done. }
    destruct (boot_idle q dk g Bs) as (hd' & r' & Hr' & _ & Hi' & Hm' & _).
    { by rewrite Ldk. } { by rewrite Ldk. }
    { apply (super_ext d _ g); try done. apply Hsame. intros Hx.
      by apply (h_home _ _ _ Hh) in Hx as (_ & _ & ?). }
    { rewrite list_lookup_total_alt, Hsame; [by rewrite <- list_lookup_total_alt|].
      intros Hx. apply (HB _ Hx), (in_log_start _ _ Hl). }
    exists r'. split; [exact Hr'|]. split; [exact Hi'|]. clear Hr'. intros bn Hbn.
    fold st in Hm'. rewrite (install_writes_ext st d) in Hm'.
    2:{ intros j Hj. apply Hsame. intros Hx. by apply (HB _ Hx), (in_log_at _ _ _ Hl Hh). }
    fold iw in Hm'. rewrite Hm, Hm', !apply_writes_app. cbn. unfold dput. cbn.
    rewrite !list_lookup_insert_ne by (intros <-; by apply Hbn, in_log_start with (length d)).
    unfold dk. rewrite apply_writes_again; [done|]. rewrite Hfst. apply Hh.
  - rewrite take_ge by (rewrite Hw, length_app, <- Hfst, length_fmap in *; cbn; lia).
    rewrite Hw, <- Hm.
    assert (length (memdisk r) = length d) as Hlm by (by rewrite Hm, apply_writes_length).
    destruct (boot_old d g Hl q (memdisk r) Hlm) as (r' & Hr' & Hi' & Hm').
    { apply (super_ext d _ g); try done. rewrite Hm. apply apply_writes_ne.
      rewrite fmap_app, Hfst. cbn. intros [Hx|Hx%list_elem_of_singleton]%elem_of_app.
      - by apply (h_home _ _ _ Hh) in Hx as (_ & _ & ?).
      - pose proof (l_start _ _ Hl). fold st in Hx. unfold st in Hx. lia. }
    { rewrite Hm, apply_writes_app. cbn. unfold dput. cbn.
      rewrite list_lookup_total_insert_eq; [done|]. rewrite apply_writes_length.
      apply (in_log_lt _ _ Hl), (in_log_start _ _ Hl). }
    exists r'. split; [exact Hr'|]. by split.
Qed.

Lemma recovery_can_be_interrupted_witness :
  holds_head (small_disk [2; 36; 38] !!! 2%nat) [36%nat; 38%nat] /\
  exists r, boot (power_on 1 (small_disk [2; 36; 38])) = Ok (tt, r) /\ idle r /\
    exists r', boot (power_on 2 (apply_writes (small_disk [2; 36; 38]) (take 1 (writes r)))) =
        Ok (tt, r') /\ idle r' /\
      same_home small_log (memdisk r') (memdisk r).
Proof.
  assert (holds_head (small_disk [2; 36; 38] !!! 2%nat) [36%nat; 38%nat]) as Hh.
  { split; [vm_compute; reflexivity|]. split; [vm_compute; reflexivity|].
    intros [|[|[|i]]] b Hb; try done; apply (inj Some) in Hb as <-; vm_compute; reflexivity. }
  split; [exact Hh|].
  apply (recovery_can_be_interrupted 1 2 (small_disk [2; 36; 38]) small_log [36%nat; 38%nat] 1).
  - apply small_layout.
  - split; [|intros b Hb; unfold in_log|vm_compute; congruence].
    + by apply (bool_decide_unpack (NoDup [36%nat; 38%nat])).
    + rewrite small_length. repeat (apply elem_of_cons in Hb as [->|Hb]; [cbn; lia|]).
      by apply not_elem_of_nil in Hb.
  - apply small_super.
  - exact Hh.
Defined.
