(* ===== verification/FsBlocks.v ===== *)
(** * The block allocator

    [balloc] and [bfree] within a transaction, on the blocks as they read. *)

From S2P Require Import Prelude CString Bytes Bcache BcacheSpec Log LogSpec Recovery LogThms Transaction Fs.

(** ** Calls of the storage *)

Lemma bind_disk {A B} (m : St A) (k : A -> Fs B) f a s' :
  m (st f) = Ok (a, s') -> (disk m ≫= k) f = k a (set_st s' f).
Proof. intros H. unfold mbind, M_bind, disk. by rewrite H. Qed.

Lemma disk_run {A} (m : St A) f a s' :
  m (st f) = Ok (a, s') -> disk m f = Ok (a, set_st s' f).
Proof. intros H. unfold disk. by rewrite H. Qed.

(** A change of the storage only, that leaves the disk alone. *)
Record quiet_fs (f f' : fsys) : Prop := QuietFs {
  q_stays : stays (st f) (st f');
  q_sb : sb f' = sb f;
  q_lock : icache_lock f' = icache_lock f;
  q_icache : icache f' = icache f;
  q_cwd : cwd f' = cwd f
}.

#[export] Instance quiet_preorder : PreOrder quiet_fs.
Proof.
  split; [by intros f; split|]. intros f1 f2 f3 [] []. split; try congruence. by etransitivity.
Qed.

Lemma quiet_st f s' : stays (st f) s' -> quiet_fs f (set_st s' f).
Proof. by split. Qed.

Lemma home_stays s s' n bn : stays s s' -> home (lg s) n bn -> home (lg s') n bn.
Proof.
  intros Hs (? & Hn & ?). split_and!; [done| |done].
  unfold in_log in *. by rewrite (sy_start _ _ Hs), (sy_size _ _ Hs).
Qed.

(** Whether the log takes [n] more blocks while [H] is held, and [m] more buffers. *)
Definition log_room (s : store) (H : gmap nat nat) (Bs : list nat) (n m : nat) : Prop :=
  Z.of_nat (length Bs + n) < log_size (lg s) /\ (size H + length Bs + n + m <= NBUF)%nat.

Lemma log_room_absorb s s' H Bs bn n m :
  stays s s' -> log_room s H Bs (S n) m -> log_room s' H (absorbed Bs bn) n m.
Proof.
  intros Hs [H1 H2]. pose proof (absorbed_length Bs bn). unfold log_room.
  rewrite (sy_size _ _ Hs). lia.
Qed.

Lemma log_room_stays s s' H Bs n m : stays s s' -> log_room s H Bs n m -> log_room s' H Bs n m.
Proof. intros Hs. unfold log_room. by rewrite (sy_size _ _ Hs). Qed.

Section Calls.
Context (f : fsys) (V : list block) (H : gmap nat nat) (Bs : list nat).
Hypothesis Ht : txn (st f) V H Bs.

Lemma fs_bread bn v :
  V !! bn = Some v -> H !! bn = None -> (size H + length Bs < NBUF)%nat ->
  exists i f', disk (bread 1 bn) f = Ok (i, f') /\ quiet_fs f f' /\
    txn (st f') V (<[bn := i]> H) Bs.
Proof using Ht.
  intros HV HH Hr. destruct (txn_bread _ _ _ _ Ht bn v HV HH Hr) as (i & s' & R & S1 & T1).
  exists i, (set_st s' f). split_and!; [by apply disk_run|by apply quiet_st|done].
Qed.

Lemma fs_bdata bn i v : H !! bn = Some i -> V !! bn = Some v -> bdata i f = Ok (v, f).
Proof using Ht.
  intros HH HV. destruct (txn_data _ _ _ _ Ht bn i v HH HV) as (b & Hb & Hd & _).
  unfold bdata. rewrite (bind_disk _ _ _ _ _ Hb). subst v. by destruct f.
Qed.

Lemma fs_set_bdata bn i v :
  H !! bn = Some i -> (bn < length V)%nat ->
  exists f', set_bdata i v f = Ok (tt, f') /\ quiet_fs f f' /\
    txn (st f') (<[bn := v]> V) H Bs.
Proof using Ht.
  intros HH Hlt. destruct (txn_set_data _ _ _ _ Ht bn i v HH Hlt) as (s' & R & S1 & T1).
  exists (set_st s' f). split_and!; [by apply disk_run|by apply quiet_st|done].
Qed.

Lemma fs_log_write bn i :
  H !! bn = Some i -> home (lg (st f)) (length V) bn ->
  Z.of_nat (length Bs) + 1 < log_size (lg (st f)) ->
  exists f', disk (log_write i) f = Ok (tt, f') /\ quiet_fs f f' /\
    txn (st f') V H (absorbed Bs bn).
Proof using Ht.
  intros HH Hh Hr. destruct (txn_log_write _ _ _ _ Ht bn i HH Hh Hr) as (s' & R & S1 & T1).
  exists (set_st s' f). split_and!; [by apply disk_run|by apply quiet_st|done].
Qed.

Lemma fs_brelse bn i :
  H !! bn = Some i -> (bn ∈ Bs) \/ V !! bn = memdisk (st f) !! bn ->
  exists f', disk (brelse i) f = Ok (tt, f') /\ quiet_fs f f' /\ txn (st f') V (delete bn H) Bs.
Proof using Ht.
  intros HH Hc. destruct (txn_brelse _ _ _ _ Ht bn i HH Hc) as (s' & R & S1 & T1).
  exists (set_st s' f). split_and!; [by apply disk_run|by apply quiet_st|done].
Qed.
End Calls.

(** ** A block read, and a block changed *)

Lemma absorbed_in Bs bn : bn ∈ absorbed Bs bn.
Proof.
  unfold absorbed. case_decide; [done|]. apply elem_of_app. right. by apply list_elem_of_singleton.
Qed.

Section Brackets.
Context (f : fsys) (V : list block) (H : gmap nat nat) (Bs : list nat).
Hypothesis Ht : txn (st f) V H Bs.

(** [bread], a reader of the bytes, [brelse]. *)
Lemma read_bracket {B} bn v (k : nat -> Fs B) (body : nat -> Fs B) :
  V !! bn = Some v -> H !! bn = None -> (size H + length Bs < NBUF)%nat ->
  (forall i f1, bdata i f1 = Ok (v, f1) -> body i f1 = (disk (brelse i) ;; k i) f1) ->
  exists i f', (bp ← disk (bread 1 bn); body bp) f = k i f' /\ quiet_fs f f' /\ txn (st f') V H Bs.
Proof using Ht.
  intros HV HH Hr Hbody. destruct (fs_bread f V H Bs Ht bn v HV HH Hr) as (i & f1 & R1 & Q1 & T1).
  assert (<[bn := i]> H !! bn = Some i) as HHi by apply lookup_insert_eq.
  destruct (fs_brelse f1 V _ Bs T1 bn i HHi) as (f2 & R2 & Q2 & T2).
  { rewrite (sy_disk _ _ (q_stays _ _ Q1)). by eapply txn_settled. }
  rewrite delete_insert_id in T2 by done.
  exists i, f2. split_and!; [|by etransitivity|done].
  rewrite (bind_ok _ _ _ _ _ R1), (Hbody i f1) by (by eapply fs_bdata).
  by rewrite (bind_ok _ _ _ _ _ R2).
Qed.

(** [bread], a change of the bytes, [log_write], [brelse]. *)
Lemma write_bracket {B} bn v v' (k : Fs B) (body : nat -> Fs B) :
  V !! bn = Some v -> H !! bn = None -> home (lg (st f)) (length V) bn ->
  log_room (st f) H Bs 1 0 ->
  (forall i f1, bdata i f1 = Ok (v, f1) ->
     body i f1 = (set_bdata i v' ;; disk (log_write i) ;; disk (brelse i) ;; k) f1) ->
  exists f', (bp ← disk (bread 1 bn); body bp) f = k f' /\ quiet_fs f f' /\
    txn (st f') (<[bn := v']> V) H (absorbed Bs bn).
Proof using Ht.
  intros HV HH Hhome [Hr1 Hr2] Hbody. pose proof Hhome as (Hlt & _ & _).
  destruct (fs_bread f V H Bs Ht bn v HV HH) as (i & f1 & R1 & Q1 & T1); [lia|].
  assert (<[bn := i]> H !! bn = Some i) as HHi by apply lookup_insert_eq.
  destruct (fs_set_bdata f1 V _ Bs T1 bn i v' HHi Hlt) as (f2 & R2 & Q2 & T2).
  destruct (fs_log_write f2 _ _ Bs T2 bn i HHi) as (f3 & R3 & Q3 & T3).
  { rewrite length_insert. eapply home_stays; [apply Q2|]. eapply home_stays; [apply Q1|done]. }
  { rewrite (sy_size _ _ (q_stays _ _ Q2)), (sy_size _ _ (q_stays _ _ Q1)). lia. }
  destruct (fs_brelse f3 _ _ _ T3 bn i HHi) as (f4 & R4 & Q4 & T4).
  { left. apply absorbed_in. }
  rewrite delete_insert_id in T4 by done.
  exists f4. split_and!; [|by rewrite Q1, Q2, Q3|done].
  rewrite (bind_ok _ _ _ _ _ R1), (Hbody i f1) by (by eapply fs_bdata; [exact T1|exact HHi|]).
  by rewrite (bind_ok _ _ _ _ _ R2), (bind_ok _ _ _ _ _ R3), (bind_ok _ _ _ _ _ R4).
Qed.
End Brackets.

(** ** Bits *)

Lemma land_bit v k : 0 <= k -> Z.land v (Z.shiftl 1 k) = if Z.testbit v k then 2 ^ k else 0.
Proof.
  intros Hk. rewrite Z.shiftl_1_l. apply Z.bits_inj'. intros n Hn. rewrite Z.land_spec.
  rewrite Z.pow2_bits_eqb by done. destruct (Z.eqb_spec k n) as [->|Hne].
  - rewrite andb_true_r. destruct (Z.testbit v n); [|by rewrite Z.bits_0].
    by rewrite Z.pow2_bits_true.
  - rewrite andb_false_r. destruct (Z.testbit v k); [|by rewrite Z.bits_0].
    by rewrite Z.pow2_bits_false.
Qed.

Lemma land_bit_zero v k : 0 <= k -> (Z.land v (Z.shiftl 1 k) =? 0) = negb (Z.testbit v k).
Proof.
  intros Hk. rewrite land_bit by done. destruct (Z.testbit v k); [|done].
  pose proof (Z.pow_pos_nonneg 2 k). apply Z.eqb_neq. lia.
Qed.

Lemma w8_testbit x n : 0 <= n -> Z.testbit (w8 x) n = (n <? 8) && Z.testbit x n.
Proof.
  intros Hn. unfold w8. destruct (Z.ltb_spec n 8).
  - by rewrite Z.mod_pow2_bits_low.
  - by rewrite Z.mod_pow2_bits_high by lia.
Qed.

(** Whether the bit [bi] of a bitmap block is set. *)
Definition used (d : block) (bi : Z) : bool :=
  match zlookup d (bi / 8) with Some v => Z.testbit v (bi mod 8) | None => false end.

Lemma zlookup_nonneg {A} (l : list A) k : 0 <= k -> zlookup l k = l !! Z.to_nat k.
Proof. intros Hk. unfold zlookup. by rewrite (proj2 (Z.ltb_ge _ _)). Qed.

Lemma bit_index (d : block) bi :
  0 <= bi < 8 * Z.of_nat (length d) ->
  exists v, zlookup d (bi / 8) = Some v /\ 0 <= bi mod 8 < 8 /\ 0 <= bi / 8.
Proof.
  intros Hb. pose proof (Z.mod_pos_bound bi 8). pose proof (Z.div_pos bi 8).
  assert (bi / 8 < Z.of_nat (length d)) by (apply Z.div_lt_upper_bound; lia).
  rewrite zlookup_nonneg by lia.
  destruct (lookup_lt_is_Some_2 d (Z.to_nat (bi / 8))) as [v Hv]; [lia|].
  exists v. split_and!; lia || done.
Qed.

Lemma bit_used d bi :
  0 <= bi < 8 * Z.of_nat (length d) -> exists v, bit d bi = Some v /\ (v =? 0) = negb (used d bi).
Proof.
  intros Hb. destruct (bit_index d bi Hb) as (v & Hv & Hm & _).
  unfold bit, used. rewrite Hv. eexists. split; [done|]. apply land_bit_zero. lia.
Qed.

(** Replacing the byte of the bit [bi]. *)
Lemma zinsert_byte (d : block) bi v w :
  zlookup d (bi / 8) = Some v -> 0 <= bi / 8 ->
  zinsert (bi / 8) w d = Some (<[Z.to_nat (bi / 8) := w]> d).
Proof. intros Hv Hb. unfold zinsert. by rewrite Hv. Qed.

Lemma used_insert (d : block) bi v w bj :
  zlookup d (bi / 8) = Some v -> 0 <= bi / 8 -> 0 <= bj ->
  used (<[Z.to_nat (bi / 8) := w]> d) bj =
    if bj / 8 =? bi / 8 then Z.testbit w (bj mod 8) else used d bj.
Proof.
  intros Hv Hb Hj. unfold used. pose proof (Z.div_pos bj 8 Hj ltac:(lia)).
  rewrite zlookup_nonneg in Hv by done. rewrite !zlookup_nonneg by done.
  destruct (Z.eqb_spec (bj / 8) (bi / 8)) as [->|Hne].
  - rewrite list_lookup_insert_eq; [done|]. by eapply lookup_lt_Some.
  - rewrite list_lookup_insert_ne; [done|]. lia.
Qed.

Lemma set_bit_spec d bi :
  0 <= bi < 8 * Z.of_nat (length d) ->
  exists d', set_bit d bi = Some d' /\ length d' = length d /\
    forall bj, 0 <= bj -> used d' bj = if bj =? bi then true else used d bj.
Proof.
  intros Hb. destruct (bit_index d bi Hb) as (v & Hv & Hm & Hd).
  unfold set_bit. rewrite Hv. cbn [mbind option_bind]. rewrite (zinsert_byte d bi v) by done.
  eexists. split_and!; [done|apply length_insert|]. intros bj Hj.
  rewrite (used_insert d bi v) by done. pose proof (Z.mod_pos_bound bj 8 ltac:(lia)) as Hmj.
  destruct (Z.eqb_spec (bj / 8) (bi / 8)) as [He|Hne].
  - rewrite w8_testbit, Z.lor_spec, Z.shiftl_1_l, Z.pow2_bits_eqb by lia.
    rewrite (proj2 (Z.ltb_lt _ _)) by lia. cbn [andb].
    destruct (Z.eqb_spec bj bi) as [->|Hji]; [by rewrite Z.eqb_refl, orb_true_r|].
    destruct (Z.eqb_spec (bi mod 8) (bj mod 8)) as [Hmm|_].
    + exfalso. apply Hji. rewrite (Z.div_mod bj 8), (Z.div_mod bi 8) by lia. lia.
    + rewrite orb_false_r. unfold used. by rewrite He, Hv.
  - destruct (Z.eqb_spec bj bi) as [->|_]; [done|done].
Qed.

(** Clearing a bit that was set undoes it. *)
Lemma clear_set_bit d bi d' :
  bytes d -> 0 <= bi < 8 * Z.of_nat (length d) -> used d bi = false -> set_bit d bi = Some d' ->
  clear_bit d' bi = Some d.
Proof.
  intros Hby Hb Hu Hs. destruct (bit_index d bi Hb) as (v & Hv & Hm & Hd).
  unfold set_bit in Hs. rewrite Hv in Hs. cbn [mbind option_bind] in Hs.
  rewrite (zinsert_byte d bi v) in Hs by done. apply (inj Some) in Hs. subst d'.
  unfold used in Hu. rewrite Hv in Hu. rewrite zlookup_nonneg in Hv by done.
  pose proof (lookup_lt_Some _ _ _ Hv) as Hlt.
  unfold clear_bit. rewrite zlookup_nonneg, list_lookup_insert_eq by done.
  cbn [mbind option_bind]. unfold zinsert. rewrite zlookup_nonneg, list_lookup_insert_eq by done.
  f_equal. rewrite list_insert_insert_eq. apply list_insert_id. rewrite Hv. f_equal.
  assert (0 <= v < 256) as Hv8 by (eapply Forall_lookup_1 in Hby; [exact Hby|done]).
  apply Z.bits_inj'. intros n Hn.
  rewrite w8_testbit, Z.land_spec, Z.lnot_spec, w8_testbit, Z.lor_spec by done.
  rewrite Z.shiftl_1_l, Z.pow2_bits_eqb by lia.
  destruct (Z.ltb_spec n 8) as [H8|H8].
  - cbn [andb]. destruct (Z.eqb_spec (bi mod 8) n) as [<-|Hne].
    + by rewrite Hu.
    + by rewrite orb_false_r, andb_true_r.
  - rewrite andb_false_l. apply Z.bits_above_log2; [lia|].
    destruct (decide (v = 0)) as [->|Hnz]; [cbn; lia|].
    apply Z.log2_lt_pow2; [lia|]. assert (2 ^ 8 <= 2 ^ n) by (apply Z.pow_le_mono_r; lia). lia.
Qed.

(** ** balloc and bfree *)

(** The bitmap of the super block [sb] covers the blocks below its size. *)
Record bitmap_ok (s : store) (V : list block) (H : gmap nat nat) (sb : superblock) : Prop := Bitmap {
  bm_size : 0 <= sb_size sb;
  bm_start : 0 <= sb_bmapstart sb /\ sb_size sb + sb_bmapstart sb < 2 ^ 32;
  bm_home : forall b, 0 <= b < sb_size sb -> home (lg s) (length V) (BBLOCK b sb);
  bm_free : forall b, 0 <= b < sb_size sb -> H !! BBLOCK b sb = None;
  bm_data : forall b, 0 <= b < sb_size sb ->
    exists d, V !! BBLOCK b sb = Some d /\ length d = BSIZE /\ bytes d
}.

(** Whether the block [b] is marked as in use. *)
Definition block_used (V : list block) (sb : superblock) (b : Z) : bool :=
  used (V !!! BBLOCK b sb) (b mod BPB).

Lemma bitmap_stays s s' V H sb : stays s s' -> bitmap_ok s V H sb -> bitmap_ok s' V H sb.
Proof. intros Hs []. split; try done. intros b Hb. eapply home_stays; eauto. Qed.

Lemma bitmap_bit b : 0 <= b mod BPB < 8 * Z.of_nat BSIZE.
Proof. unfold BPB, BSIZE. pose proof (Z.mod_pos_bound b 4096). lia. Qed.

(** [b + bi] with [b] a multiple of [BPB] and [bi] below. *)
Lemma split_block b : 0 <= b -> exists k, b = BPB * Z.of_nat k + b mod BPB /\ k = Z.to_nat (b / BPB).
Proof.
  intros Hb. exists (Z.to_nat (b / BPB)). split; [|done].
  rewrite Z2Nat.id by (apply Z.div_pos; unfold BPB; lia).
  rewrite (Z.div_mod b BPB) at 1 by (unfold BPB; lia). lia.
Qed.

Lemma BBLOCK_same b k bi sb :
  b = BPB * Z.of_nat k -> 0 <= bi < BPB -> BBLOCK (b + bi) sb = BBLOCK b sb /\ (b + bi) mod BPB = bi.
Proof.
  intros -> Hbi. unfold BBLOCK. unfold BPB in *.
  rewrite (Z.add_comm (4096 * _)), (Z.mul_comm 4096), Z.div_add, Z.mod_add by lia.
  rewrite Z.div_small, Z.mod_small by lia. by rewrite Z.div_mul by lia.
Qed.

(** The numbers below [n] around [k]. *)
Lemma steps_split (s n : Z) (k : nat) :
  0 < s -> s * Z.of_nat k < n ->
  exists rest, steps s n = map (fun j => s * Z.of_nat j) (seq 0 k) ++ (s * Z.of_nat k) :: rest.
Proof.
  intros Hs Hk. unfold steps. set (m := Z.to_nat ((n + s - 1) / s)).
  assert (k < m)%nat as Hkm.
  { unfold m. assert (Z.of_nat k + 1 <= (n + s - 1) / s); [|lia].
    apply Z.div_le_lower_bound; lia. }
  replace m with (k + S (m - k - 1))%nat by lia. rewrite seq_app, map_app. cbn [seq map].
  by eexists.
Qed.

Lemma steps_in s n x : 0 < s -> x ∈ steps s n -> exists j, x = s * Z.of_nat j /\ x < n.
Proof.
  intros Hs Hx. unfold steps in Hx. apply list_elem_of_In, in_map_iff in Hx as (j & <- & Hj).
  apply in_seq in Hj. exists j. split; [done|].
  assert (s * ((n + s - 1) / s) <= n + s - 1) by (apply Z.mul_div_le; lia). nia.
Qed.

Section Bzero.
Context (f : fsys) (V : list block) (H : gmap nat nat) (Bs : list nat).
Hypothesis Ht : txn (st f) V H Bs.

Lemma bzero_run b :
  home (lg (st f)) (length V) (block_of b) -> H !! block_of b = None ->
  log_room (st f) H Bs 1 0 ->
  exists f', bzero 1 b f = Ok (tt, f') /\ quiet_fs f f' /\
    txn (st f') (<[block_of b := replicate BSIZE 0]> V) H (absorbed Bs (block_of b)).
Proof using Ht.
  intros Hh HH Hr. pose proof Hh as (Hlt & _). destruct (lookup_lt_is_Some_2 V _ Hlt) as [v HV].
  destruct (write_bracket f V H Bs Ht (block_of b) v (replicate BSIZE 0) (mret tt)
    (fun bp => set_bdata bp (replicate BSIZE 0) ;; disk (log_write bp) ;; disk (brelse bp)))
    as (f' & R & Q & T); try done.
  - intros i f1 _. apply bind_ext. intros [] f2. apply bind_ext. intros [] f3.
    unfold mbind, M_bind. by destruct (disk (brelse i) f3) as [[[] ?]| | |].
  - by exists f'.
Qed.

Lemma try_bit_used bp bn d b bi :
  H !! bn = Some bp -> V !! bn = Some d -> 0 <= bi < 8 * Z.of_nat (length d) ->
  used d bi = true -> try_bit 1 bp b bi f = Ok (None, f).
Proof using Ht.
  intros HH HV Hb Hu. unfold try_bit.
  rewrite (bind_ok _ _ _ _ _ (fs_bdata f V H Bs Ht bn bp d HH HV)).
  destruct (bit_used d bi Hb) as (v & -> & Hv). rewrite Hu in Hv. mrun. by rewrite Hv.
Qed.
End Bzero.

Section TryBit.
Context (f : fsys) (V : list block) (H : gmap nat nat) (Bs : list nat).

(** A free bit is set, the bitmap block logged and released, the block zeroed. *)
Lemma try_bit_free bp bn d d' b bi :
  txn (st f) V (<[bn := bp]> H) Bs -> H !! bn = None -> V !! bn = Some d ->
  0 <= bi < 8 * Z.of_nat (length d) -> used d bi = false -> set_bit d bi = Some d' ->
  home (lg (st f)) (length V) bn -> home (lg (st f)) (length V) (block_of (b + bi)) ->
  H !! block_of (b + bi) = None -> log_room (st f) H Bs 2 0 ->
  exists f', try_bit 1 bp b bi f = Ok (Some (b + bi), f') /\ quiet_fs f f' /\
    txn (st f') (<[block_of (b + bi) := replicate BSIZE 0]> (<[bn := d']> V)) H
      (absorbed (absorbed Bs bn) (block_of (b + bi))).
Proof using Type.
  intros Ht HH HV Hb Hu Hd' Hhome Hhome' HH' Hroom.
  assert (<[bn := bp]> H !! bn = Some bp) as HHi by apply lookup_insert_eq.
  unfold try_bit. rewrite (bind_ok _ _ _ _ _ (fs_bdata f V _ Bs Ht bn bp d HHi HV)).
  destruct (bit_used d bi Hb) as (v & -> & Hv). rewrite Hu in Hv. mrun. rewrite Hv. cbn [negb].
  rewrite Hd'. mrun. pose proof Hhome as (Hlt & _).
  destruct (fs_set_bdata f V _ Bs Ht bn bp d' HHi Hlt) as (f2 & R2 & Q2 & T2).
  rewrite (bind_ok _ _ _ _ _ R2).
  destruct (fs_log_write f2 _ _ Bs T2 bn bp HHi) as (f3 & R3 & Q3 & T3).
  { rewrite length_insert. eapply home_stays; [apply Q2|done]. }
  { rewrite (sy_size _ _ (q_stays _ _ Q2)). destruct Hroom. lia. }
  rewrite (bind_ok _ _ _ _ _ R3).
  destruct (fs_brelse f3 _ _ _ T3 bn bp HHi) as (f4 & R4 & Q4 & T4).
  { left. apply absorbed_in. }
  rewrite (bind_ok _ _ _ _ _ R4). rewrite delete_insert_id in T4 by done.
  assert (quiet_fs f f4) as Q by (by rewrite Q2, Q3).
  destruct (bzero_run f4 _ _ _ T4 (b + bi)) as (f5 & R5 & Q5 & T5).
  { rewrite length_insert. eapply home_stays; [apply Q|done]. } { done. }
  { eapply log_room_absorb; [apply Q|done]. }
  rewrite (bind_ok _ _ _ _ _ R5). exists f5. split_and!; [done|by etransitivity|done].
Qed.
End TryBit.

(** The search of a bitmap block passes over the bits below [n] that are used. *)
Lemma scan_used f V H Bs bp bn d b n rest :
  txn (st f) V H Bs -> H !! bn = Some bp -> V !! bn = Some d ->
  Z.of_nat n <= 8 * Z.of_nat (length d) ->
  (forall i, 0 <= i < Z.of_nat n -> used d i = true) ->
  find_each (map (fun j => 1 * Z.of_nat j) (seq 0 n) ++ rest) (try_bit 1 bp b) f =
    find_each rest (try_bit 1 bp b) f.
Proof.
  intros Ht HH HV Hlen Hu.
  destruct (find_each_skip (fun l f' => f' = f /\ forall x, x ∈ l -> 0 <= x < Z.of_nat n)
    (try_bit 1 bp b) (map (fun j => 1 * Z.of_nat j) (seq 0 n)) rest f) as (f' & R & -> & _).
  - split; [done|]. intros x Hx.
    apply list_elem_of_In, in_map_iff in Hx as (j & <- & Hj%in_seq). lia.
  - intros i l f' [-> Hin]. exists f. pose proof (Hin i (list_elem_of_here _ _)) as Hi.
    split; [|split; [done|intros x Hx; by apply Hin, list_elem_of_further]].
    apply (try_bit_used f V H Bs Ht bp bn d); [done|done|lia|by apply Hu].
  - exact R.
Qed.

(** The body of the outer loop of [balloc]. *)
Definition balloc_round (sb : superblock) (b : Z) : Fs (option Z) :=
  bp ← disk (bread 1 (BBLOCK b sb));
  r ← find_each (steps 1 (Z.min BPB (sb_size sb - b))) (try_bit 1 bp b);
  match r with
  | Some a => mret (Some a)
  | None => disk (brelse bp) ;; mret None
  end.

Section Balloc.
Context (f : fsys) (V : list block) (H : gmap nat nat) (Bs : list nat).
Hypothesis Ht : txn (st f) V H Bs.
Hypothesis Hm : bitmap_ok (st f) V H (sb f).

Local Abbreviation S_ := (sb f).

(** A bitmap block without a free bit is read and released. *)
Lemma balloc_round_used k :
  let b := BPB * Z.of_nat k in
  b < sb_size S_ -> (size H + length Bs < NBUF)%nat ->
  (forall x, b <= x < b + BPB -> x < sb_size S_ -> block_used V S_ x = true) ->
  exists f', balloc_round S_ b f = Ok (None, f') /\ quiet_fs f f' /\ txn (st f') V H Bs.
Proof using Ht Hm.
  intros b Hb Hroom Hu. assert (0 <= b) as Hb0 by (unfold b, BPB; lia).
  destruct (bm_data _ _ _ _ Hm b ltac:(lia)) as (d & HV & Hld & _).
  pose proof (bm_free _ _ _ _ Hm b ltac:(lia)) as HH.
  destruct (fs_bread f V H Bs Ht _ d HV HH Hroom) as (bp & f1 & R1 & Q1 & T1).
  assert (<[BBLOCK b S_ := bp]> H !! BBLOCK b S_ = Some bp) as HHi by apply lookup_insert_eq.
  unfold balloc_round. rewrite (bind_ok _ _ _ _ _ R1).
  assert (forall j, (j < Z.to_nat (Z.min BPB (sb_size S_ - b)))%nat ->
    used d (Z.of_nat j) = true) as Hud.
  { intros j Hj. destruct (BBLOCK_same b k (Z.of_nat j) S_ eq_refl ltac:(lia)) as [HB Hmod].
    specialize (Hu (b + Z.of_nat j) ltac:(lia) ltac:(lia)). unfold block_used in Hu.
    rewrite HB, Hmod in Hu. by rewrite (list_lookup_total_correct _ _ _ HV) in Hu. }
  assert (find_each (steps 1 (Z.min BPB (sb_size S_ - b))) (try_bit 1 bp b) f1 = Ok (None, f1))
    as R2.
  { unfold steps. rewrite Z.add_simpl_r, Z.div_1_r. rewrite <- (app_nil_r (map _ _)).
    rewrite (scan_used f1 V _ Bs bp _ d b _ [] T1 HHi HV); [done|unfold BSIZE, BPB in *; lia|].
    intros i Hi. rewrite <- (Z2Nat.id i) by lia. apply Hud. lia. }
  rewrite (bind_ok _ _ _ _ _ R2).
  destruct (fs_brelse f1 V _ Bs T1 _ bp HHi) as (f3 & R3 & Q3 & T3).
  { rewrite (sy_disk _ _ (q_stays _ _ Q1)). by eapply txn_settled. }
  rewrite (bind_ok _ _ _ _ _ R3). rewrite delete_insert_id in T3 by done.
  exists f3. split_and!; [done|by etransitivity|done].
Qed.
End Balloc.

Section BallocRun.
Context (f : fsys) (V : list block) (H : gmap nat nat) (Bs : list nat).
Hypothesis Ht : txn (st f) V H Bs.
Hypothesis Hm : bitmap_ok (st f) V H (sb f).

(** The rounds before the block [BPB * k], when all bits there are used. *)
Lemma balloc_skip k rest :
  (forall j, (j < k)%nat -> BPB * Z.of_nat j < sb_size (sb f)) ->
  (size H + length Bs < NBUF)%nat ->
  (forall x, 0 <= x < BPB * Z.of_nat k -> x < sb_size (sb f) -> block_used V (sb f) x = true) ->
  exists f', quiet_fs f f' /\ txn (st f') V H Bs /\
    find_each (map (fun j => BPB * Z.of_nat j) (seq 0 k) ++ rest) (balloc_round (sb f)) f =
      find_each rest (balloc_round (sb f)) f'.
Proof using Ht Hm.
  intros Hlt Hroom Hu.
  destruct (find_each_skip (fun l f' => quiet_fs f f' /\ txn (st f') V H Bs /\
    forall x, x ∈ l -> exists j, x = BPB * Z.of_nat j /\ (j < k)%nat)
    (balloc_round (sb f)) (map (fun j => BPB * Z.of_nat j) (seq 0 k)) rest f)
    as (f' & R & Q & T & _).
  - split; [done|]. split; [done|]. intros x Hx.
    apply list_elem_of_In, in_map_iff in Hx as (j & <- & Hj%in_seq). exists j. split; [done|lia].
  - intros i l f' (Q & T & Hin). destruct (Hin i (list_elem_of_here _ _)) as (j & -> & Hj).
    pose proof (bitmap_stays _ _ _ _ _ (q_stays _ _ Q) Hm) as Hm'.
    rewrite <- (q_sb _ _ Q) in *.
    destruct (balloc_round_used f' V H Bs T Hm' j) as (f2 & R2 & Q2 & T2).
    + apply Hlt. done.
    + done.
    + intros x Hx Hxs. apply Hu; [|done]. unfold BPB in *. lia.
    + exists f2. split; [done|]. split; [by etransitivity|]. split; [done|].
      intros x Hx. by apply Hin, list_elem_of_further.
  - by exists f'.
Qed.

Lemma balloc_run b0 :
  0 <= b0 < sb_size (sb f) -> block_used V (sb f) b0 = false ->
  (forall b, 0 <= b < b0 -> block_used V (sb f) b = true) ->
  home (lg (st f)) (length V) (block_of b0) -> H !! block_of b0 = None ->
  log_room (st f) H Bs 2 0 ->
  exists d' f', set_bit (V !!! BBLOCK b0 (sb f)) (b0 mod BPB) = Some d' /\
    balloc 1 f = Ok (b0, f') /\ quiet_fs f f' /\
    txn (st f') (<[block_of b0 := replicate BSIZE 0]> (<[BBLOCK b0 (sb f) := d']> V)) H
      (absorbed (absorbed Bs (BBLOCK b0 (sb f))) (block_of b0)).
Proof using Ht Hm.
  intros Hb0 Hfree Hused Hhome HH Hroom. set (S_ := sb f) in *.
  destruct (split_block b0 ltac:(lia)) as (k & Hbk & Hk). set (bi := b0 mod BPB) in *.
  assert (0 <= bi < BPB) as Hbi by (apply Z.mod_pos_bound; done).
  set (b := BPB * Z.of_nat k) in *.
  destruct (BBLOCK_same b k bi S_ eq_refl Hbi) as [HB Hmod]. rewrite <- Hbk in HB, Hmod.
  assert (0 <= b < sb_size S_) as Hb by (unfold b, BPB in *; lia).
  destruct (bm_data _ _ _ _ Hm b Hb) as (d & HV & Hld & Hby).
  pose proof (bm_home _ _ _ _ Hm b Hb) as Hhb. pose proof (bm_free _ _ _ _ Hm b Hb) as HHb.
  rewrite HB. rewrite (list_lookup_total_correct _ _ _ HV).
  assert (0 <= bi < 8 * Z.of_nat (length d)) as Hbd by (rewrite Hld; apply bitmap_bit).
  destruct (set_bit_spec d bi Hbd) as (d' & Hd' & _ & _).
  assert (size H + length Bs < NBUF)%nat as Hr by (destruct Hroom; lia).
  destruct (steps_split BPB (sb_size S_) k ltac:(done) (proj2 Hb)) as (rest & Hsteps).
  destruct (balloc_skip k (b :: rest)) as (f1 & Q1 & T1 & R1).
  { intros j Hj. unfold b, BPB in *. fold S_. lia. } { done. }
  { intros x Hx _. apply Hused. unfold b, BPB in *. lia. }
  fold S_ in R1. destruct (fs_bread f1 V H Bs T1 _ d HV HHb Hr) as (bp & f2 & R2 & Q2 & T2).
  assert (quiet_fs f f2) as Q12 by (by etransitivity).
  assert (used d bi = false) as Hud.
  { unfold block_used in Hfree. rewrite HB in Hfree. 
    by rewrite (list_lookup_total_correct _ _ _ HV) in Hfree. }
  assert (forall i, 0 <= i < bi -> used d i = true) as Hpre.
  { intros i Hi. destruct (BBLOCK_same b k i S_ eq_refl ltac:(lia)) as [HBi Hmi].
    specialize (Hused (b + i) ltac:(lia)). unfold block_used in Hused.
    rewrite HBi, Hmi in Hused. by rewrite (list_lookup_total_correct _ _ _ HV) in Hused. }
  destruct (try_bit_free f2 V H Bs bp (BBLOCK b S_) d d' b bi T2 HHb HV Hbd Hud Hd')
    as (f3 & R3 & Q3 & T3); try (rewrite <- Hbk).
  { eapply home_stays; [apply Q12|done]. } { eapply home_stays; [apply Q12|done]. } { done. }
  { eapply log_room_stays; [apply Q12|done]. }
  rewrite <- Hbk in R3, T3. exists d', f3. split_and!; [done| |by rewrite Q12|done].
  unfold balloc. rewrite bind_gets. fold S_. fold (balloc_round S_).
  change (find_each _ _) with (find_each (steps BPB (sb_size S_)) (balloc_round S_)).
  rewrite Hsteps. rewrite (bind_run _ _ _ _ R1).
  rewrite (bind_ok _ _ _ (Some b0) f3); [done|]. apply find_each_here.
  unfold balloc_round. rewrite (bind_ok _ _ _ _ _ R2).
  assert (1 * Z.of_nat (Z.to_nat bi) = bi) as Hbin by lia.
  destruct (steps_split 1 (Z.min BPB (sb_size S_ - b)) (Z.to_nat bi) ltac:(done) ltac:(lia))
    as (rest' & ->).
  assert (<[BBLOCK b S_ := bp]> H !! BBLOCK b S_ = Some bp) as HHi by apply lookup_insert_eq.
  rewrite (bind_run _ _ _ _ (scan_used f2 V _ Bs bp _ d b (Z.to_nat bi) _ T2 HHi HV
    ltac:(lia) ltac:(intros i Hi; apply Hpre; lia))). rewrite Hbin.
  rewrite (bind_ok _ _ _ (Some b0) f3); [done|]. by apply find_each_here.
Qed.
End BallocRun.

Section Bfree.
Context (f : fsys) (V : list block) (H : gmap nat nat) (Bs : list nat).
Hypothesis Ht : txn (st f) V H Bs.
Hypothesis Hm : bitmap_ok (st f) V H (sb f).

Lemma bfree_run b x :
  0 <= b < sb_size (sb f) -> block_used V (sb f) b = true ->
  clear_bit (V !!! BBLOCK b (sb f)) (b mod BPB) = Some x -> log_room (st f) H Bs 1 0 ->
  exists f', bfree 1 b f = Ok (tt, f') /\ quiet_fs f f' /\
    txn (st f') (<[BBLOCK b (sb f) := x]> V) H (absorbed Bs (BBLOCK b (sb f))).
Proof using Ht Hm.
  intros Hb Hu Hx Hroom. destruct (bm_data _ _ _ _ Hm b Hb) as (d & HV & Hld & _).
  unfold block_used in Hu. rewrite (list_lookup_total_correct _ _ _ HV) in Hu, Hx.
  unfold bfree. rewrite bind_gets.
  destruct (write_bracket f V H Bs Ht _ d x (mret tt) (fun bp =>
    x ← bdata bp;
    v ← lift_opt "bp->data" (bit x (b mod BPB));
    if v =? 0 then panic "freeing free block"
    else
      x' ← lift_opt "bp->data" (clear_bit x (b mod BPB));
      set_bdata bp x' ;; disk (log_write bp) ;; disk (brelse bp)) HV
    (bm_free _ _ _ _ Hm b Hb) (bm_home _ _ _ _ Hm b Hb) Hroom) as (f' & R & Q & T).
  - intros i f1 R1. rewrite (bind_ok _ _ _ _ _ R1).
    destruct (bit_used d (b mod BPB)) as (v & -> & Hv); [rewrite Hld; apply bitmap_bit|].
    rewrite Hu in Hv. mrun. rewrite Hv. cbn [negb]. rewrite Hx. mrun.
    apply bind_ext. intros [] f2. apply bind_ext. intros [] f3.
    unfold mbind, M_bind. by destruct (disk (brelse i) f3) as [[[] ?]| | |].
  - by exists f'.
Qed.

(** Freeing a block that is free already panics. *)
Lemma bfree_free b :
  0 <= b < sb_size (sb f) -> block_used V (sb f) b = false -> (size H + length Bs < NBUF)%nat ->
  bfree 1 b f = Panic "freeing free block".
Proof using Ht Hm.
  intros Hb Hu Hroom. destruct (bm_data _ _ _ _ Hm b Hb) as (d & HV & Hld & _).
  unfold block_used in Hu. rewrite (list_lookup_total_correct _ _ _ HV) in Hu.
  destruct (fs_bread f V H Bs Ht _ d HV (bm_free _ _ _ _ Hm b Hb) Hroom) as (bp & f1 & R1 & Q1 & T1).
  unfold bfree. rewrite bind_gets. rewrite (bind_ok _ _ _ _ _ R1).
  rewrite (bind_ok _ _ _ _ _ (fs_bdata f1 V _ Bs T1 _ bp d (lookup_insert_eq _ _ _) HV)).
  destruct (bit_used d (b mod BPB)) as (v & -> & Hv); [rewrite Hld; apply bitmap_bit|].
  rewrite Hu in Hv. mrun. by rewrite Hv.
Qed.
End Bfree.

Lemma BBLOCK_inj s V H sb b b' :
  bitmap_ok s V H sb -> 0 <= b < sb_size sb -> 0 <= b' < sb_size sb ->
  BBLOCK b sb = BBLOCK b' sb -> b / BPB = b' / BPB.
Proof.
  intros [Hsz [Hs1 Hs2] _ _ _] Hb Hb' He. unfold BBLOCK, block_of in He.
  assert (forall x, 0 <= x < sb_size sb -> 0 <= x / BPB <= x) as Hdiv.
  { intros x Hx. split; [apply Z.div_pos; done || lia|]. apply Z.div_le_upper_bound; unfold BPB; lia. }
  pose proof (Hdiv b Hb). pose proof (Hdiv b' Hb').
  rewrite !w32_small in He by lia. lia.
Qed.

(** The bitmap after a block is allocated. *)
Lemma bitmap_set_bit V sb b0 d' H s :
  bitmap_ok s V H sb -> 0 <= b0 < sb_size sb ->
  set_bit (V !!! BBLOCK b0 sb) (b0 mod BPB) = Some d' ->
  forall b, 0 <= b < sb_size sb ->
    block_used (<[BBLOCK b0 sb := d']> V) sb b = (b =? b0) || block_used V sb b.
Proof.
  intros Hm Hb0 Hd' b Hb. unfold block_used.
  destruct (bm_data _ _ _ _ Hm b0 Hb0) as (d & HV & Hld & _).
  rewrite (list_lookup_total_correct _ _ _ HV) in Hd'.
  destruct (set_bit_spec d (b0 mod BPB)) as (d2 & Hd2 & _ & Hbits); [rewrite Hld; apply bitmap_bit|].
  assert (d2 = d') as -> by congruence. pose proof (lookup_lt_Some _ _ _ HV) as Hlt.
  assert (0 <= b mod BPB) as Hmb by (apply Z.mod_pos_bound; done).
  destruct (decide (BBLOCK b sb = BBLOCK b0 sb)) as [He|Hne].
  - rewrite He, list_lookup_total_insert_eq by done.
    rewrite (list_lookup_total_correct _ _ _ HV), Hbits by done.
    pose proof (BBLOCK_inj _ _ _ _ _ _ Hm Hb Hb0 He) as Hq.
    destruct (Z.eqb_spec b b0) as [->|Hbb]; [by rewrite Z.eqb_refl|].
    destruct (Z.eqb_spec (b mod BPB) (b0 mod BPB)) as [Hmm|_]; [|done].
    exfalso. apply Hbb. rewrite (Z.div_mod b BPB), (Z.div_mod b0 BPB) by done. congruence.
  - rewrite list_lookup_total_insert_ne by done.
    by destruct (Z.eqb_spec b b0) as [->|_].
Qed.

Lemma set_bit_bytes d bi d' : bytes d -> set_bit d bi = Some d' -> bytes d'.
Proof.
  unfold set_bit. intros Hb H. destruct (zlookup d (bi / 8)) as [v|]; [|done]. cbn in H.
  unfold zinsert in H. destruct (zlookup d (bi / 8)); [|done].
  apply (inj Some) in H as <-. apply Forall_insert; [done|].
  unfold w8. apply Z.mod_pos_bound. lia.
Qed.

(** Zeroing a block that is not part of the bitmap, and allocating one. *)
Lemma bitmap_zero s V H sb bn :
  bitmap_ok s V H sb -> (forall b, 0 <= b < sb_size sb -> BBLOCK b sb <> bn) ->
  bitmap_ok s (<[bn := replicate BSIZE 0]> V) H sb.
Proof.
  intros [] Hd. split; rewrite ?length_insert; try done.
  intros b Hb. rewrite list_lookup_insert_ne by (intros He; by apply (Hd b)). by apply bm_data0.
Qed.

Lemma bitmap_alloc s V H sb b0 d' :
  bitmap_ok s V H sb -> (forall b, 0 <= b < sb_size sb -> BBLOCK b sb <> block_of b0) ->
  0 <= b0 < sb_size sb -> set_bit (V !!! BBLOCK b0 sb) (b0 mod BPB) = Some d' ->
  bitmap_ok s (<[block_of b0 := replicate BSIZE 0]> (<[BBLOCK b0 sb := d']> V)) H sb.
Proof.
  intros Hm Hd Hb0 Hd'. apply bitmap_zero; [|done]. pose proof Hm as [H1 H2 H3 H4 H5].
  split; rewrite ?length_insert; try done. intros b Hb.
  destruct (H5 b0 Hb0) as (d & HV & Hld & Hby).
  rewrite (list_lookup_total_correct _ _ _ HV) in Hd'.
  destruct (decide (BBLOCK b sb = BBLOCK b0 sb)) as [He|Hne].
  - exists d'. rewrite He. split_and!; [by apply list_lookup_insert_eq, (lookup_lt_Some _ _ _ HV)| |].
    + destruct (set_bit_spec d (b0 mod BPB)) as (d2 & Hd2 & Hl2 & _); [rewrite Hld; apply bitmap_bit|].
      congruence.
    + by eapply set_bit_bytes.
  - rewrite list_lookup_insert_ne by done. by apply H5.
Qed.
