(* ===== verification/FsContent.v ===== *)
(** * The content of inodes

    [bmap], [readi] and [writei] on a file as a sequence of bytes. *)

From S2P Require Import Prelude CString Bytes Bcache BcacheSpec Log LogSpec Recovery LogThms Transaction Fs FsBlocks.

(** ** Files as bytes *)

(** The address of the block [k] of a file, 0 when it has none. *)
Definition addr_of (V : list block) (ip : inode) (k : Z) : Z :=
  if k <? Z.of_nat NDIRECT then default 0 (zlookup (i_addrs ip) k)
  else
    let ia := default 0 (i_addrs ip !! NDIRECT) in
    if ia =? 0 then 0 else default 0 (get_uint (Z.to_nat (k - Z.of_nat NDIRECT)) (V !!! block_of ia)).

(** The block [k] of a file, as it reads. *)
Definition block_at (V : list block) (ip : inode) (k : Z) : nat := block_of (addr_of V ip k).

Definition byte_of (V : list block) (ip : inode) (p : Z) : Z :=
  default 0 (zlookup (V !!! block_at V ip (p / 512)) (p mod 512)).

Definition file_bytes (V : list block) (ip : inode) (off n : Z) : list Z :=
  map (fun j => byte_of V ip (off + Z.of_nat j)) (seq 0 (Z.to_nat n)).

(** The blocks of the first [e] bytes are there; the indirect block is, when they need it. *)
Record file_ok (V : list block) (ip : inode) (e : Z) : Prop := FileOk {
  fo_dev : i_dev ip = 1;
  fo_type : i_type ip <> T_DEV;
  fo_addrs : length (i_addrs ip) = S NDIRECT;
  fo_max : e <= MAXFILE * 512;
  fo_block : forall k, 0 <= k -> 512 * k < e ->
    addr_of V ip k <> 0 /\ exists d, V !! block_at V ip k = Some d /\ length d = BSIZE;
  fo_indirect : 512 * Z.of_nat NDIRECT < e ->
    exists ia d, i_addrs ip !! NDIRECT = Some ia /\ ia <> 0 /\ V !! block_of ia = Some d /\
      length d = BSIZE
}.

Lemma file_ok_le V ip e e' : e' <= e -> file_ok V ip e -> file_ok V ip e'.
Proof.
  intros He []. split; try done; [lia| |].
  - intros k Hk Hke. apply fo_block0; lia.
  - intros Hi. apply fo_indirect0. lia.
Qed.

Lemma file_bytes_length V ip off n : length (file_bytes V ip off n) = Z.to_nat n.
Proof. unfold file_bytes. by rewrite length_map, length_seq. Qed.

Lemma file_bytes_app V ip off m r :
  0 <= m -> 0 <= r -> file_bytes V ip off (m + r) = file_bytes V ip off m ++ file_bytes V ip (off + m) r.
Proof.
  intros Hm Hr. unfold file_bytes. rewrite Z2Nat.inj_add, seq_app, map_app by done. f_equal.
  apply list_eq. intros j. rewrite !list_lookup_fmap.
  destruct (decide (j < Z.to_nat r)%nat) as [Hj|Hj].
  - rewrite !lookup_seq_lt by done. cbn. do 2 f_equal. lia.
  - by rewrite !lookup_seq_ge by lia.
Qed.

Lemma file_bytes_lookup V ip off n j :
  0 <= j < n -> file_bytes V ip off n !! Z.to_nat j = Some (byte_of V ip (off + j)).
Proof.
  intros Hj. unfold file_bytes. rewrite list_lookup_fmap, lookup_seq_lt by lia. cbn.
  do 2 f_equal. lia.
Qed.

(** The bytes of one block. *)
Lemma block_bytes V ip off m d :
  0 <= off -> 0 <= m -> off mod 512 + m <= 512 -> length d = BSIZE ->
  V !! block_at V ip (off / 512) = Some d ->
  bytes_at d (off mod 512) m = Some (file_bytes V ip off m).
Proof.
  intros Hoff Hm Hfit Hld HV. unfold bytes_at. rewrite Hld, (proj2 (Z.leb_le _ _)) by done.
  f_equal. pose proof (Z.mod_pos_bound off 512 ltac:(lia)) as Hmod.
  apply list_eq. intros j. destruct (decide (j < Z.to_nat m)%nat) as [Hj|Hj].
  - rewrite slice_lookup by done.
    rewrite <- (Nat2Z.id j) at 2. rewrite file_bytes_lookup by lia. unfold byte_of.
    assert ((off + Z.of_nat j) / 512 = off / 512 /\
      (off + Z.of_nat j) mod 512 = off mod 512 + Z.of_nat j) as [-> ->].
    { pose proof (Z.div_mod off 512 ltac:(lia)) as Hdm.
      split; symmetry; [apply (Z.div_unique _ _ _ (off mod 512 + Z.of_nat j))|
        apply (Z.mod_unique _ _ (off / 512))]; lia. }
    rewrite (list_lookup_total_correct _ _ _ HV), zlookup_nonneg by lia.
    replace (Z.to_nat (off mod 512 + Z.of_nat j)) with (Z.to_nat (off mod 512) + j)%nat by lia.
    destruct (lookup_lt_is_Some_2 d (Z.to_nat (off mod 512) + j)) as [v ->]; [|done].
    rewrite Hld. unfold BSIZE. lia.
  - rewrite !lookup_ge_None_2; [done| |].
    + rewrite file_bytes_length. lia.
    + rewrite slice_length; [lia|]. rewrite Hld. unfold BSIZE. lia.
Qed.

(** ** bmap of a block that is there *)

Section Bmap.
Context (f : fsys) (V : list block) (Bs : list nat) (i : nat) (ip : inode).
Hypothesis Ht : txn (st f) V ∅ Bs.
Hypothesis Hi : icache f !! i = Some ip.
Hypothesis Hroom : (length Bs < NBUF)%nat.

Lemma geti_run : geti i f = Ok (ip, f).
Proof using Hi. unfold geti. mrun. by rewrite Hi. Qed.

Lemma addr_run k a : i_addrs ip !! k = Some a -> addr i k f = Ok (a, f).
Proof using Hi. intros Ha. unfold addr. rewrite (bind_ok _ _ _ _ _ geti_run). by rewrite Ha. Qed.

Lemma bmap_mapped e k :
  file_ok V ip e -> 0 <= k -> 512 * k < e ->
  exists f', bmap i k f = Ok (addr_of V ip k, f') /\ quiet_fs f f' /\ txn (st f') V ∅ Bs.
Proof using Ht Hi Hroom.
  intros [Hdev _ Hla Hmax Hblk Hind] Hk Hke. destruct (Hblk k Hk Hke) as [Hnz _].
  unfold addr_of in Hnz |- *. unfold bmap. rewrite (bind_ok _ _ _ _ _ geti_run).
  destruct (Z.ltb_spec k (Z.of_nat NDIRECT)) as [Hd|Hd].
  - destruct (lookup_lt_is_Some_2 (i_addrs ip) (Z.to_nat k)) as [a Ha]; [lia|].
    rewrite zlookup_nonneg, Ha in Hnz |- * by done. change (default 0 (Some a)) with a in *.
    rewrite (bind_ok _ _ _ _ _ (addr_run _ _ Ha)).
    rewrite (proj2 (Z.eqb_neq _ _) Hnz). exists f. by split_and!.
  - destruct Hind as (ia & d & Hia & Hiz & HV & Hld); [lia|].
    rewrite (proj2 (Z.ltb_lt _ _)) by (unfold MAXFILE, NDIRECT, NINDIRECT in *; lia).
    rewrite (bind_ok _ _ _ _ _ (addr_run _ _ Hia)).
    rewrite (proj2 (Z.eqb_neq _ _) Hiz), bind_ret. rewrite Hia in Hnz |- *.
    change (default 0 (Some ia)) with ia in *.
    rewrite (proj2 (Z.eqb_neq _ _) Hiz) in Hnz |- *.
    rewrite (list_lookup_total_correct _ _ _ HV) in Hnz |- *. rewrite Hdev.
    destruct (get_uint (Z.to_nat (k - Z.of_nat NDIRECT)) d) as [a|] eqn:Ha; [|done].
    change (default 0 (Some a)) with a in *.
    destruct (read_bracket f V ∅ Bs Ht (block_of ia) d (fun _ => mret a) (fun bp =>
      v ← word bp (Z.to_nat (k - Z.of_nat NDIRECT));
      v ← (if v =? 0 then
             v ← balloc 1;
             set_word bp (Z.to_nat (k - Z.of_nat NDIRECT)) v ;;
             disk (log_write bp) ;;
             mret v
           else mret v);
      disk (brelse bp) ;;
      mret v) HV (lookup_empty _)) as (j & f' & R & Q & T).
    + by rewrite map_size_empty.
    + intros bp f1 R1. unfold word. rewrite bind_bind, (bind_ok _ _ _ _ _ R1), Ha. mrun.
      by rewrite (proj2 (Z.eqb_neq _ _) Hnz), bind_ret.
    + exists f'. by split_and!.
Qed.
End Bmap.

(** ** readi *)

(** How many blocks the [r] bytes from [off] on lie in. *)
Definition rounds (off r : Z) : Z := if r <=? 0 then 0 else (off + r + 511) / 512 - off / 512.

(** One round goes to the end of the block or of the range. *)
Lemma round_step off r :
  0 <= off -> 0 < r ->
  let m := Z.min r (512 - off mod 512) in
  0 < m <= r /\ off mod 512 + m <= 512 /\ rounds (off + m) (r - m) = rounds off r - 1 /\
  512 * (off / 512) < off + r.
Proof.
  intros Hoff Hr m. pose proof (Z.mod_pos_bound off 512 ltac:(lia)) as Hmod.
  pose proof (Z.div_mod off 512 ltac:(lia)) as Hdm.
  split_and!; [lia..| |lia]. unfold rounds. rewrite (proj2 (Z.leb_gt r 0)) by lia.
  destruct (Z.min_spec r (512 - off mod 512)) as [[Hlt Hm]|[Hle Hm]]; fold m in Hm.
  - rewrite (proj2 (Z.leb_le (r - m) 0)) by lia.
    assert ((off + r + 511) / 512 = off / 512 + 1); [|lia].
    symmetry. apply (Z.div_unique _ _ _ (off mod 512 + r - 1)); lia.
  - replace (off + m) with ((off / 512 + 1) * 512) by lia. rewrite Z.div_mul by lia.
    replace ((off / 512 + 1) * 512 + (r - m) + 511) with (off + r + 511) by lia.
    destruct (Z.leb_spec (r - m) 0); [|lia].
    assert ((off + r + 511) / 512 = off / 512 + 1); [|lia].
    symmetry. apply (Z.div_unique _ _ _ (off mod 512 + r - 1)); lia.
Qed.

Lemma rounds_nonneg off r : 0 <= rounds off r.
Proof.
  unfold rounds. destruct (Z.leb_spec r 0); [lia|].
  pose proof (Z.div_le_mono off (off + r + 511) 512). lia.
Qed.

Lemma rounds_bound off n : 0 <= off -> 0 <= n -> rounds off n < n / 512 + 3.
Proof.
  intros Hoff Hn. unfold rounds. pose proof (Z.div_pos n 512 Hn ltac:(lia)).
  destruct (Z.leb_spec n 0); [lia|].
  pose proof (Z.div_mod off 512 ltac:(lia)). pose proof (Z.mod_pos_bound off 512 ltac:(lia)).
  pose proof (Z.div_mod n 512 ltac:(lia)). pose proof (Z.mod_pos_bound n 512 ltac:(lia)).
  assert ((off + n + 511) / 512 < off / 512 + n / 512 + 3); [|lia].
  apply Z.div_lt_upper_bound; lia.
Qed.

Section Readi.
Context (V : list block) (Bs : list nat) (i : nat) (ip : inode) (e : Z).
Hypothesis Hok : file_ok V ip e.
Hypothesis Hroom : (length Bs < NBUF)%nat.

Lemma readi_loop_run fuel f off n tot dst :
  txn (st f) V ∅ Bs -> icache f !! i = Some ip -> 0 <= off -> off + (n - tot) <= e ->
  rounds off (n - tot) < Z.of_nat fuel ->
  exists f', readi_loop fuel i off n tot dst f = Ok (dst ++ file_bytes V ip off (n - tot), f') /\
    quiet_fs f f' /\ txn (st f') V ∅ Bs.
Proof using Hok Hroom.
  revert f off tot dst. induction fuel as [|fuel IH]; intros f off tot dst Ht Hi Hoff He Hfuel;
    pose proof (rounds_nonneg off (n - tot)); [lia|]. cbn [readi_loop].
  destruct (Z.ltb_spec tot n) as [Hlt|Hge].
  - set (r := n - tot) in *.
    destruct (round_step off r Hoff ltac:(lia)) as (Hm & Hfit & Hnext & Hblk).
    set (m := Z.min r (512 - off mod 512)) in *.
    rewrite (bind_ok _ _ _ _ _ (geti_run f i ip Hi)). rewrite (fo_dev _ _ _ Hok).
    assert (0 <= off / 512) as Hk0 by (apply Z.div_pos; lia).
    destruct (bmap_mapped f V Bs i ip Ht Hi Hroom e (off / 512) Hok Hk0) as (f1 & R1 & Q1 & T1);
      [lia|].
    rewrite (bind_ok _ _ _ _ _ R1).
    destruct (fo_block _ _ _ Hok (off / 512) Hk0 ltac:(lia)) as (Hnz & d & HV & Hld).
    destruct (fs_bread f1 V ∅ Bs T1 _ d HV (lookup_empty _)) as (bp & f2 & R2 & Q2 & T2);
      [by rewrite map_size_empty|].
    assert (<[block_at V ip (off / 512) := bp]> (∅ : gmap nat nat) !! block_at V ip (off / 512) =
      Some bp) as HHi by apply lookup_insert_eq.
    rewrite (bind_ok _ _ _ _ _ R2), (bind_ok _ _ _ _ _ (fs_bdata f2 V _ Bs T2 _ bp d HHi HV)).
    rewrite (block_bytes V ip off m d) by (done || lia). rewrite bind_lift_Some.
    destruct (fs_brelse f2 V _ Bs T2 _ bp HHi) as (f3 & R3 & Q3 & T3).
    { rewrite (sy_disk _ _ (q_stays _ _ Q2)). by eapply txn_settled. }
    rewrite (bind_ok _ _ _ _ _ R3). rewrite delete_insert_id in T3 by apply lookup_empty.
    assert (quiet_fs f f3) as Q13 by (by rewrite Q1, Q2).
    destruct (IH f3 (off + m) (tot + m) (dst ++ file_bytes V ip off m) T3)
      as (f4 & R4 & Q4 & T4).
    { by rewrite (q_icache _ _ Q13). } { lia. } { lia. }
    { replace (n - (tot + m)) with (r - m) by lia. lia. }
    exists f4. split_and!; [|by etransitivity|done].
    rewrite R4, <- app_assoc. replace (n - (tot + m)) with (r - m) by lia.
    rewrite <- file_bytes_app by lia. by replace (m + (r - m)) with r by lia.
  - exists f. split_and!; [|done|done]. unfold file_bytes.
    replace (Z.to_nat (n - tot)) with 0%nat by lia. by rewrite app_nil_r.
Qed.

End Readi.

Lemma readi_run `{Devices} V Bs i ip f off n :
  txn (st f) V ∅ Bs -> icache f !! i = Some ip -> file_ok V ip (i_size ip) ->
  (length Bs < NBUF)%nat -> 0 <= off <= i_size ip -> 0 <= n -> off + n < 2 ^ 32 ->
  let n' := Z.min n (i_size ip - off) in
  exists f', readi i off n f = Ok ((n', file_bytes V ip off n'), f') /\
    quiet_fs f f' /\ txn (st f') V ∅ Bs.
Proof.
  intros Ht Hi Hok Hroom Hoff Hn Hlt n'. pose proof (fo_max _ _ _ Hok) as Hmax.
  unfold readi. rewrite (bind_ok _ _ _ _ _ (geti_run f i ip Hi)).
  rewrite (proj2 (Z.eqb_neq _ _) (fo_type _ _ _ Hok)).
  rewrite (w32_small (off + n)) by lia.
  rewrite (proj2 (Z.ltb_ge _ _)) by lia. rewrite (proj2 (Z.ltb_ge (off + n) off)) by lia.
  cbn [orb].
  assert ((if i_size ip <? off + n then i_size ip - off else n) = n') as ->.
  { destruct (Z.ltb_spec (i_size ip) (off + n)); lia. }
  assert (0 <= n') as Hn' by lia.
  pose proof (rounds_bound off n' ltac:(lia) Hn') as Hrb.
  pose proof (Z.div_pos n' 512 Hn' ltac:(lia)).
  destruct (readi_loop_run V Bs i ip _ Hok Hroom (Z.to_nat (n' / 512) + 3) f off n' 0 [] Ht Hi)
    as (f' & R & Q & T); rewrite ?Z.sub_0_r; [lia|lia|lia|].
  rewrite (bind_ok _ _ _ _ _ R). rewrite Z.sub_0_r. exists f'. split_and!; [|done|done].
  rewrite i32_small by (unfold MAXFILE, NDIRECT, NINDIRECT in *; lia). done.
Qed.

(** ** writei within the file *)

(** The blocks of a file are its own and may be changed. *)
Record file_sep (g : log) (V : list block) (ip : inode) (e : Z) : Prop := FileSep {
  fs_home : forall k, 0 <= k -> 512 * k < e -> home g (length V) (block_at V ip k);
  fs_inj : forall k k', 0 <= k -> 512 * k < e -> 0 <= k' -> 512 * k' < e ->
    block_at V ip k = block_at V ip k' -> k = k';
  fs_indirect : 512 * Z.of_nat NDIRECT < e -> forall k, 0 <= k -> 512 * k < e ->
    block_at V ip k <> block_of (default 0 (i_addrs ip !! NDIRECT))
}.

Section SetBlock.
Context (g : log) (V : list block) (ip : inode) (e k : Z) (d' : block).
Hypothesis Hok : file_ok V ip e.
Hypothesis Hsep : file_sep g V ip e.
Hypothesis Hk : 0 <= k /\ 512 * k < e.

Local Abbreviation V' := (<[block_at V ip k := d']> V).

Lemma block_at_lt : (block_at V ip k < length V)%nat.
Proof using Hok Hk.
  destruct (fo_block _ _ _ Hok k ltac:(lia) ltac:(lia)) as (_ & d & HV & _).
  by eapply lookup_lt_Some.
Qed.

Lemma addr_set j : 0 <= j -> 512 * j < e -> addr_of V' ip j = addr_of V ip j.
Proof using Hok Hsep Hk.
  intros Hj Hje. unfold addr_of. destruct (Z.ltb_spec j (Z.of_nat NDIRECT)); [done|].
  destruct (_ =? 0); [done|]. rewrite list_lookup_total_insert_ne; [done|].
  apply (fs_indirect _ _ _ _ Hsep); lia.
Qed.

Lemma block_at_set j : 0 <= j -> 512 * j < e -> block_at V' ip j = block_at V ip j.
Proof using Hok Hsep Hk. intros. unfold block_at. by rewrite addr_set. Qed.

Lemma file_ok_set : length d' = BSIZE -> file_ok V' ip e.
Proof using Hok Hsep Hk.
  intros Hd'.
  pose proof Hok as [H1 H2 H3 H4 H5 H6]. split; try done.
  - intros j Hj Hje. rewrite addr_set, block_at_set by done.
    destruct (H5 j Hj Hje) as (Hnz & d & HV & Hd). split; [done|].
    destruct (decide (block_at V ip k = block_at V ip j)) as [He|Hne].
    + exists d'. split; [|done]. rewrite He. apply list_lookup_insert_eq.
      by eapply lookup_lt_Some.
    + exists d. by rewrite list_lookup_insert_ne.
  - intros Hi. destruct (H6 Hi) as (ia & d & Hia & Hz & HV & Hd). exists ia, d.
    split_and!; try done. rewrite list_lookup_insert_ne; [done|].
    pose proof (fs_indirect _ _ _ _ Hsep Hi k ltac:(lia) ltac:(lia)) as Hn. by rewrite Hia in Hn.
Qed.

Lemma file_sep_set : file_sep g V' ip e.
Proof using Hok Hsep Hk.
  pose proof Hsep as [H1 H2 H3]. split.
  - intros j Hj Hje. rewrite block_at_set, length_insert by done. by apply H1.
  - intros j j' Hj Hje Hj' Hje'. rewrite !block_at_set by done. by apply H2.
  - intros Hi j Hj Hje. rewrite block_at_set by done. by apply H3.
Qed.

Lemma byte_set p : 0 <= p < e ->
  byte_of V' ip p = if p / 512 =? k then default 0 (zlookup d' (p mod 512)) else byte_of V ip p.
Proof using Hok Hsep Hk.
  intros Hp. assert (0 <= p / 512 /\ 512 * (p / 512) < e) as [Hp1 Hp2].
  { pose proof (Z.div_pos p 512). pose proof (Z.mul_div_le p 512). lia. }
  unfold byte_of. rewrite block_at_set by done.
  destruct (Z.eqb_spec (p / 512) k) as [->|Hne].
  - by rewrite list_lookup_total_insert_eq by apply block_at_lt.
  - rewrite list_lookup_total_insert_ne; [done|]. intros He. apply Hne. symmetry.
    by apply (fs_inj _ _ _ _ Hsep); [lia..|].
Qed.
End SetBlock.

(** The bytes of a file after [m] bytes of [src] from [tot] on are put at [off]. *)
Definition overwritten (src : list Z) (tot off m : Z) (old : Z -> Z) (p : Z) : Z :=
  if (off <=? p) && (p <? off + m) then default 0 (src !! Z.to_nat (tot + (p - off))) else old p.

Lemma splice_byte (d src : list Z) off tot m p :
  0 <= off -> 0 < m -> off mod 512 + m <= 512 -> length d = BSIZE -> 0 <= tot ->
  tot + m <= Z.of_nat (length src) -> p / 512 = off / 512 -> 0 <= p ->
  default 0 (zlookup (splice (Z.to_nat (off mod 512)) (slice (Z.to_nat tot) (Z.to_nat m) src) d)
    (p mod 512)) =
  overwritten src tot off m (fun p => default 0 (zlookup d (p mod 512))) p.
Proof.
  intros Hoff Hm Hfit Hd Htot Hsrc Hp Hp0.
  pose proof (Z.div_mod off 512 ltac:(lia)). pose proof (Z.mod_pos_bound off 512 ltac:(lia)).
  pose proof (Z.div_mod p 512 ltac:(lia)). pose proof (Z.mod_pos_bound p 512 ltac:(lia)).
  assert (length (slice (Z.to_nat tot) (Z.to_nat m) src) = Z.to_nat m) as Hl
    by (apply slice_length; lia).
  rewrite zlookup_nonneg by lia. unfold overwritten.
  destruct (Z.leb_spec off p) as [Ha|Ha]; [destruct (Z.ltb_spec p (off + m)) as [Hb|Hb]|];
    cbn [andb].
  - replace (Z.to_nat (p mod 512)) with (Z.to_nat (off mod 512) + Z.to_nat (p - off))%nat by lia.
    rewrite splice_lookup_in by (rewrite Hl, ?Hd; unfold BSIZE; lia).
    rewrite slice_lookup by lia. do 2 f_equal. lia.
  - rewrite zlookup_nonneg by lia. by rewrite splice_lookup_out by (rewrite Hl, ?Hd; unfold BSIZE; lia).
  - rewrite zlookup_nonneg by lia. by rewrite splice_lookup_out by (rewrite Hl, ?Hd; unfold BSIZE; lia).
Qed.

Lemma overwritten_app src tot off m r old p :
  0 <= m -> 0 <= r ->
  overwritten src (tot + m) (off + m) r (overwritten src tot off m old) p =
    overwritten src tot off (m + r) old p.
Proof.
  intros Hm Hr. unfold overwritten.
  destruct (Z.leb_spec (off + m) p), (Z.ltb_spec p (off + m + r)), (Z.leb_spec off p),
    (Z.ltb_spec p (off + m)), (Z.ltb_spec p (off + (m + r))); cbn [andb]; try lia; try done.
  do 3 f_equal. lia.
Qed.

Lemma file_sep_stays s s' V ip e : stays s s' -> file_sep (lg s) V ip e -> file_sep (lg s') V ip e.
Proof. intros Hs []. split; try done. intros k Hk Hke. eapply home_stays; eauto. Qed.

Lemma log_room_le s H Bs n m n' m' :
  (n' <= n)%nat -> (n' + m' <= n + m)%nat -> log_room s H Bs n m -> log_room s H Bs n' m'.
Proof. intros Hn Hm [H1 H2]. unfold log_room. lia. Qed.

Section Writei.
Context (i : nat) (ip : inode) (src : list Z) (e : Z).

(** What a write of [r] bytes at [off] makes of the blocks. *)
Record wrote (f : fsys) (V : list block) (Bs : list nat) (tot off r : Z) (f' : fsys)
    (V' : list block) (Bs' : list nat) : Prop := Wrote {
  w_quiet : quiet_fs f f';
  w_txn : txn (st f') V' ∅ Bs';
  w_ok : file_ok V' ip e;
  w_sep : file_sep (lg (st f')) V' ip e;
  w_length : length V' = length V;
  w_map : forall k, 0 <= k -> 512 * k < e -> block_at V' ip k = block_at V ip k;
  w_other : forall bn, (forall k, 0 <= k -> 512 * k < e -> block_at V ip k <> bn) -> V' !! bn = V !! bn;
  w_count : (length Bs' <= length Bs + Z.to_nat (rounds off r))%nat;
  w_bytes : forall p, 0 <= p < e -> byte_of V' ip p = overwritten src tot off r (byte_of V ip) p
}.

(** One round of the loop. *)
Lemma write_round f V Bs off r tot (k : Fs Z) :
  txn (st f) V ∅ Bs -> icache f !! i = Some ip -> file_ok V ip e ->
  file_sep (lg (st f)) V ip e -> 0 <= off -> 0 < r -> off + r <= e -> 0 <= tot ->
  tot + r <= Z.of_nat (length src) -> log_room (st f) ∅ Bs 1 0 ->
  let m := Z.min r (512 - off mod 512) in
  exists f' V', (ip ← geti i;
      a ← bmap i (off / 512);
      bp ← disk (bread (i_dev ip) (block_of a));
      l ← lift_opt "src" (bytes_at src tot m);
      x ← bdata bp;
      set_bdata bp (splice (Z.to_nat (off mod 512)) l x) ;;
      disk (log_write bp) ;;
      disk (brelse bp) ;; k) f = k f' /\
    wrote f V Bs tot off m f' V' (absorbed Bs (block_at V ip (off / 512))).
Proof using Type.
  intros Ht Hi Hok Hsep Hoff Hr He Htot Hsrc Hroom m.
  destruct (round_step off r Hoff Hr) as (Hm & Hfit & _ & Hblk). fold m in Hm, Hfit.
  assert (0 <= off / 512) as Hk0 by (apply Z.div_pos; lia).
  assert (length Bs < NBUF)%nat as Hnb by (destruct Hroom; lia).
  rewrite (bind_ok _ _ _ _ _ (geti_run f i ip Hi)). rewrite (fo_dev _ _ _ Hok).
  destruct (bmap_mapped f V Bs i ip Ht Hi Hnb e (off / 512) Hok Hk0) as (f1 & R1 & Q1 & T1);
    [lia|].
  rewrite (bind_ok _ _ _ _ _ R1).
  destruct (fo_block _ _ _ Hok (off / 512) Hk0 ltac:(lia)) as (_ & d & HV & Hld).
  set (l := slice (Z.to_nat tot) (Z.to_nat m) src).
  assert (bytes_at src tot m = Some l) as Hl.
  { unfold bytes_at. by rewrite (proj2 (Z.leb_le _ _)) by lia. }
  rewrite Hl. fold (block_at V ip (off / 512)). set (bn := block_at V ip (off / 512)) in *.
  set (d' := splice (Z.to_nat (off mod 512)) l d).
  assert (length l = Z.to_nat m) as Hll by (apply slice_length; lia).
  assert (length d' = BSIZE) as Hld'.
  { pose proof (Z.mod_pos_bound off 512 ltac:(lia)). unfold d'. rewrite splice_length; [done|]. rewrite Hll, Hld. unfold BSIZE. lia. }
  destruct (write_bracket f1 V ∅ Bs T1 bn d d' k (fun bp =>
      l ← lift_opt "src" (Some l);
      x ← bdata bp;
      set_bdata bp (splice (Z.to_nat (off mod 512)) l x) ;;
      disk (log_write bp) ;;
      disk (brelse bp) ;; k) HV (lookup_empty _)) as (f2 & R2 & Q2 & T2).
  { eapply home_stays; [apply Q1|]. apply (fs_home _ _ _ _ Hsep); lia. }
  { eapply log_room_stays; [apply Q1|done]. }
  { intros bp f3 R3. rewrite bind_lift_Some. by rewrite (bind_ok _ _ _ _ _ R3). }
  assert (quiet_fs f f2) as Q by (by etransitivity).
  exists f2, (<[bn := d']> V). split; [exact R2|]. split; [done|done| | |by apply length_insert| | | |].
  - eapply file_ok_set; [done|exact Hsep|lia|done].
  - eapply file_sep_stays; [apply Q|]. eapply file_sep_set; [exact Hok|done|lia].
  - intros k0 Hk Hke. eapply block_at_set; [exact Hok|exact Hsep|lia|done|done].
  - intros b Hb. apply list_lookup_insert_ne. apply Hb; lia.
  - pose proof (absorbed_length Bs bn). unfold rounds. rewrite (proj2 (Z.leb_gt m 0)) by lia.
    assert (1 <= (off + m + 511) / 512 - off / 512); [|lia].
    pose proof (Z.div_mod off 512 ltac:(lia)). pose proof (Z.mod_pos_bound off 512 ltac:(lia)).
    assert (off / 512 + 1 <= (off + m + 511) / 512); [|lia]. apply Z.div_le_lower_bound; lia.
  - intros p Hp. unfold bn at 1. rewrite (byte_set _ V ip e (off / 512) d' Hok Hsep ltac:(lia) p Hp).
    destruct (Z.eqb_spec (p / 512) (off / 512)) as [Hpo|Hpo].
    + unfold d', l. rewrite splice_byte by (done || lia). unfold overwritten.
      destruct (_ && _); [done|]. unfold byte_of. rewrite Hpo. fold bn.
      by rewrite (list_lookup_total_correct _ _ _ HV).
    + unfold overwritten. destruct (Z.leb_spec off p); [|done].
      destruct (Z.ltb_spec p (off + m)); [|done]. exfalso. apply Hpo.
      pose proof (Z.div_mod off 512 ltac:(lia)). pose proof (Z.mod_pos_bound off 512 ltac:(lia)).
      symmetry. apply (Z.div_unique _ _ _ (off mod 512 + (p - off))); lia.
Qed.

Lemma writei_loop_run fuel f V Bs off n tot :
  txn (st f) V ∅ Bs -> icache f !! i = Some ip -> file_ok V ip e ->
  file_sep (lg (st f)) V ip e -> 0 <= off -> off + (n - tot) <= e -> 0 <= tot <= n ->
  n <= Z.of_nat (length src) -> rounds off (n - tot) < Z.of_nat fuel ->
  log_room (st f) ∅ Bs (Z.to_nat (rounds off (n - tot))) 0 ->
  exists f' V' Bs', writei_loop fuel i src off n tot f = Ok (off + (n - tot), f') /\
    wrote f V Bs tot off (n - tot) f' V' Bs'.
Proof using Type.
  revert f V Bs off tot. induction fuel as [|fuel IH];
    intros f V Bs off tot Ht Hi Hok Hsep Hoff He Htot Hsrc Hfuel Hroom;
    pose proof (rounds_nonneg off (n - tot)); [lia|].
  cbn [writei_loop]. destruct (Z.ltb_spec tot n) as [Hlt|Hge].
  - set (r := n - tot) in *.
    destruct (round_step off r Hoff ltac:(lia)) as (Hm & _ & Hnext & _).
    pose proof (rounds_nonneg (off + Z.min r (512 - off mod 512)) (r - Z.min r (512 - off mod 512))).
    destruct (write_round f V Bs off r tot
      (writei_loop fuel i src (off + Z.min r (512 - off mod 512)) n
         (tot + Z.min r (512 - off mod 512))) Ht Hi Hok Hsep Hoff ltac:(lia) ltac:(lia) ltac:(lia)
      ltac:(lia)) as (f1 & V1 & R1 & [Q1 T1 O1 S1 L1 M1 E1 C1 B1]).
    { eapply log_room_le; [| |exact Hroom]; lia. }
    set (m := Z.min r (512 - off mod 512)) in *.
    assert (n - (tot + m) = r - m) as Hrest by lia.
    destruct (IH f1 V1 _ (off + m) (tot + m) T1) as (f2 & V2 & Bs2 & R2 & [Q2 T2 O2 S2 L2 M2 E2 C2 B2]);
      rewrite ?Hrest; try done; try lia.
    { by rewrite (q_icache _ _ Q1). }
    { rewrite Hnext. eapply log_room_absorb; [apply Q1|].
      eapply log_room_le; [| |exact Hroom]; lia. }
    rewrite Hrest in *. exists f2, V2, Bs2. split; [|split; [by etransitivity|done|done|done|by rewrite L2| | | |]].
    + rewrite R1, R2. do 2 f_equal. lia.
    + intros k Hk Hke. by rewrite M2, M1.
    + intros bn Hbn. rewrite E2, E1; [done|done|]. intros k Hk Hke. rewrite M1 by done. by apply Hbn.
    + pose proof (absorbed_length Bs (block_at V ip (off / 512))).
      rewrite Hnext in C2. lia.
    + intros p Hp. rewrite B2 by done.
      replace r with (m + (r - m)) at 2 by lia.
      rewrite <- overwritten_app by lia. unfold overwritten at 1 2.
      destruct (_ && _); [done|]. by apply B1.
  - exists f, V, Bs. assert (n - tot = 0) as Hz by lia. rewrite Hz, Z.add_0_r.
    split; [done|]. split; try done; [lia|]. intros p Hp. unfold overwritten.
    destruct (Z.leb_spec off p), (Z.ltb_spec p (off + 0)); done || lia.
Qed.
End Writei.

(** ** Inodes in a block *)

Lemma put_words_spec vs off d :
  (off + 4 * length vs <= length d)%nat -> Forall is_w32 vs ->
  exists d', put_words off vs d = Some d' /\ length d' = length d /\
    (forall j v, vs !! j = Some v -> get_le 4 (off + 4 * j) d' = Some v) /\
    (forall w o, (o + w <= off \/ off + 4 * length vs <= o)%nat -> get_le w o d' = get_le w o d).
Proof.
  revert off d. induction vs as [|v vs IH]; intros off d Hlen Hvs; cbn [put_words length] in *.
  { exists d. by split_and!. }
  apply Forall_cons in Hvs as [Hv Hvs].
  destruct (put_le_some 4 off v d) as [d1 H1]; [lia|]. rewrite H1. cbn [mbind option_bind].
  pose proof (put_le_length _ _ _ _ _ H1) as L1.
  destruct (IH (off + 4)%nat d1) as (d' & H' & L' & Hin & Hout); [lia|done|].
  exists d'. split_and!; [done|by rewrite L'| |].
  - intros [|j] x Hj; cbn in Hj.
    + apply (inj Some) in Hj as <-. rewrite Nat.mul_0_r, Nat.add_0_r, Hout by lia.
      rewrite (get_put_eq _ _ _ _ _ H1). f_equal. change (256 ^ Z.of_nat 4) with (2 ^ 32).
      by apply Z.mod_small.
    + rewrite <- (Hin j x Hj). f_equal. lia.
  - intros w o Ho. rewrite Hout by lia. apply (get_put_ne _ _ _ _ _ _ _ H1). lia.
Qed.

Definition is_i16 (x : Z) : Prop := - 2 ^ 15 <= x < 2 ^ 15.

Record dinode_fits (x : dinode) : Prop := DinodeFits {
  df_shorts : is_i16 (d_type x) /\ is_i16 (d_major x) /\ is_i16 (d_minor x) /\ is_i16 (d_nlink x);
  df_size : is_w32 (d_size x);
  df_addrs : length (d_addrs x) = 13%nat /\ Forall is_w32 (d_addrs x)
}.

Lemma put_short off v d d' :
  put_le 2 off v d = Some d' -> is_i16 v -> i16 <$> get_le 2 off d' = Some v.
Proof.
  intros H Hv. rewrite (get_put_eq _ _ _ _ _ H). cbn [fmap option_fmap option_map]. f_equal.
  unfold i16, is_i16 in *. change (256 ^ Z.of_nat 2) with (2 ^ 16).
  rewrite Z.add_mod_idemp_l by lia. rewrite Z.mod_small; lia.
Qed.

Lemma get_dinode_ext k d d' :
  (forall w o, (64 * k <= o)%nat -> (o + w <= 64 * k + 64)%nat -> get_le w o d' = get_le w o d) ->
  get_dinode k d' = get_dinode k d.
Proof.
  intros H. unfold get_dinode. rewrite !H by lia.
  replace (mapM (fun j => get_le 4 (64 * k + 12 + 4 * j) d') (seq 0 13))
    with (mapM (fun j => get_le 4 (64 * k + 12 + 4 * j) d) (seq 0 13)); [done|].
  cbn [seq mapM].
  rewrite !H by lia. reflexivity.
Qed.

Lemma put_dinode_spec k x d :
  (64 * k + 64 <= length d)%nat -> dinode_fits x ->
  exists d', put_dinode k x d = Some d' /\ length d' = length d /\ get_dinode k d' = Some x /\
    forall k', k' <> k -> get_dinode k' d' = get_dinode k' d.
Proof.
  intros Hlen [(Hty & Hmj & Hmn & Hnl) Hsz [Had Hads]]. unfold put_dinode.
  destruct (put_le_some 2 (64 * k) (d_type x) d) as [d1 H1]; [lia|].
  pose proof (put_le_length _ _ _ _ _ H1) as L1.
  destruct (put_le_some 2 (64 * k + 2) (d_major x) d1) as [d2 H2]; [lia|].
  pose proof (put_le_length _ _ _ _ _ H2) as L2.
  destruct (put_le_some 2 (64 * k + 4) (d_minor x) d2) as [d3 H3]; [lia|].
  pose proof (put_le_length _ _ _ _ _ H3) as L3.
  destruct (put_le_some 2 (64 * k + 6) (d_nlink x) d3) as [d4 H4]; [lia|].
  pose proof (put_le_length _ _ _ _ _ H4) as L4.
  destruct (put_le_some 4 (64 * k + 8) (d_size x) d4) as [d5 H5]; [lia|].
  pose proof (put_le_length _ _ _ _ _ H5) as L5.
  destruct (put_words_spec (d_addrs x) (64 * k + 12) d5) as (d6 & H6 & L6 & Hin & Hout);
    [lia|done|].
  rewrite H1. cbn [mbind option_bind]. rewrite H2. cbn [mbind option_bind].
  rewrite H3. cbn [mbind option_bind]. rewrite H4. cbn [mbind option_bind]. rewrite H5.
  exists d6. split_and!; [done|lia| |].
  - unfold get_dinode.
    pose proof (put_short _ _ _ _ H1 Hty) as G1. pose proof (put_short _ _ _ _ H2 Hmj) as G2.
    pose proof (put_short _ _ _ _ H3 Hmn) as G3. pose proof (put_short _ _ _ _ H4 Hnl) as G4.
    pose proof (get_put_eq _ _ _ _ _ H5) as G5. rewrite Z.mod_small in G5 by (apply Hsz).
    rewrite !(Hout _ _) by lia.
    rewrite (get_put_ne _ _ _ _ _ 2 (64 * k + 6) H5), (get_put_ne _ _ _ _ _ 2 (64 * k + 4) H5),
      (get_put_ne _ _ _ _ _ 2 (64 * k + 2) H5), (get_put_ne _ _ _ _ _ 2 (64 * k) H5) by lia.
    rewrite (get_put_ne _ _ _ _ _ 2 (64 * k + 4) H4), (get_put_ne _ _ _ _ _ 2 (64 * k + 2) H4),
      (get_put_ne _ _ _ _ _ 2 (64 * k) H4) by lia.
    rewrite (get_put_ne _ _ _ _ _ 2 (64 * k + 2) H3), (get_put_ne _ _ _ _ _ 2 (64 * k) H3) by lia.
    rewrite (get_put_ne _ _ _ _ _ 2 (64 * k) H2) by lia.
    assert (mapM (fun j => get_le 4 (64 * k + 12 + 4 * j) d6) (seq 0 13) = Some (d_addrs x)) as ->.
    { apply mapM_Some_2. apply Forall2_same_length_lookup. rewrite length_seq. split; [done|].
      intros j p v [-> Hj]%lookup_seq Hv. cbn. by apply Hin. }
    rewrite G5.
    destruct (get_le 2 (64 * k) d1) as [a1|]; [|done].
    destruct (get_le 2 (64 * k + 2) d2) as [a2|]; [|done].
    destruct (get_le 2 (64 * k + 4) d3) as [a3|]; [|done].
    destruct (get_le 2 (64 * k + 6) d4) as [a4|]; [|done].
    cbn in G1, G2, G3, G4 |- *.
    apply (inj Some) in G1, G2, G3, G4. rewrite G1, G2, G3, G4. by destruct x.
  - intros k' Hk. apply get_dinode_ext. intros w o Ho Hw.
    rewrite Hout, (get_put_ne _ _ _ _ _ _ _ H5), (get_put_ne _ _ _ _ _ _ _ H4),
      (get_put_ne _ _ _ _ _ _ _ H3), (get_put_ne _ _ _ _ _ _ _ H2),
      (get_put_ne _ _ _ _ _ _ _ H1) by lia. done.
Qed.

(** ** iupdate *)

(** What [iupdate] writes for an inode. *)
Definition dinode_of (ip : inode) : dinode :=
  Dinode (i_type ip) (i_major ip) (i_minor ip) (i_nlink ip) (i_size ip) (i_addrs ip).

(** The block of an inode is there, and is none of the blocks of its file. *)
Record inode_sep (g : log) (V : list block) (ip : inode) (e : Z) (bn : nat) : Prop := InodeSep {
  is_home : home g (length V) bn;
  is_data : forall d, V !! bn = Some d -> length d = BSIZE;
  is_block : forall k, 0 <= k -> 512 * k < e -> block_at V ip k <> bn;
  is_indirect : 512 * Z.of_nat NDIRECT < e -> block_of (default 0 (i_addrs ip !! NDIRECT)) <> bn
}.

Lemma iupdate_run f V Bs i ip : let bn := IBLOCK (i_inum ip) (sb f) in
  txn (st f) V ∅ Bs -> icache f !! i = Some ip -> i_dev ip = 1 -> home (lg (st f)) (length V) bn ->
  (forall d, V !! bn = Some d -> length d = BSIZE) -> dinode_fits (dinode_of ip) -> log_room (st f) ∅ Bs 1 0 ->
  exists f' d', iupdate i f = Ok (tt, f') /\ quiet_fs f f' /\ length d' = BSIZE /\
    txn (st f') (<[bn := d']> V) ∅ (absorbed Bs bn) /\
    get_dinode (Z.to_nat (i_inum ip mod IPB)) d' = Some (dinode_of ip).
Proof.
  intros bn Ht Hi Hdev Hh Hlen Hfit Hroom. pose proof Hh as (Hlt & _).
  destruct (lookup_lt_is_Some_2 V _ Hlt) as [d HV]. pose proof (Hlen d HV) as Hld.
  pose proof (Z.mod_pos_bound (i_inum ip) IPB ltac:(done)) as Hk. unfold IPB in Hk.
  destruct (put_dinode_spec (Z.to_nat (i_inum ip mod IPB)) (dinode_of ip) d) as (d' & Hput & Hld' & Hget & _);
    [rewrite Hld; unfold IPB, BSIZE; lia|done|].
  unfold iupdate. rewrite bind_gets, (bind_ok _ _ _ _ _ (geti_run f i ip Hi)), Hdev. fold bn. fold (dinode_of ip).
  destruct (write_bracket f V ∅ Bs Ht bn d d' (mret tt) (fun bp =>
    set_dip bp (i_inum ip) (dinode_of ip) ;; disk (log_write bp) ;; disk (brelse bp)) HV (lookup_empty _) Hh Hroom)
    as (f' & R & Q & T).
  - intros j f1 R1. unfold set_dip. rewrite bind_bind, (bind_ok _ _ _ _ _ R1), Hput. mrun.
    apply bind_ext. intros [] f2. apply bind_ext. intros [] f3.
    unfold mbind, M_bind. by destruct (disk (brelse j) f3) as [[[] ?]| | |].
  - exists f', d'. split; [exact R|]. split; [done|]. split; [congruence|]. done.
Qed.

(** The file does not change with the block of its inode. *)
Section Elsewhere.
Context (g : log) (V : list block) (ip : inode) (e : Z) (bn : nat) (d' : block).
Hypothesis Hsep : inode_sep g V ip e bn.

Lemma block_at_elsewhere k : 0 <= k -> 512 * k < e -> block_at (<[bn := d']> V) ip k = block_at V ip k.
Proof using Hsep.
  intros Hk Hke. unfold block_at, addr_of. destruct (Z.ltb_spec k (Z.of_nat NDIRECT)); [done|].
  destruct (_ =? 0); [done|]. rewrite list_lookup_total_insert_ne; [done|].
  apply not_eq_sym, (is_indirect _ _ _ _ _ Hsep). lia.
Qed.

Lemma byte_of_elsewhere p : 0 <= p < e -> byte_of (<[bn := d']> V) ip p = byte_of V ip p.
Proof using Hsep.
  intros Hp. assert (0 <= p / 512 /\ 512 * (p / 512) < e) as [H1 H2].
  { pose proof (Z.div_pos p 512). pose proof (Z.mul_div_le p 512). lia. }
  unfold byte_of. rewrite block_at_elsewhere by done. rewrite list_lookup_total_insert_ne; [done|].
  apply not_eq_sym. by apply (is_block _ _ _ _ _ Hsep).
Qed.

Lemma file_ok_elsewhere : file_ok V ip e -> file_ok (<[bn := d']> V) ip e.
Proof using Hsep.
  intros [H1 H2 H3 H4 H5 H6]. split; try done.
  - intros k Hk Hke. destruct (H5 k Hk Hke) as (Hnz & d & HV & Hd).
    pose proof (is_block _ _ _ _ _ Hsep k Hk Hke) as Hne.
    assert (addr_of (<[bn := d']> V) ip k = addr_of V ip k) as Ha.
    { unfold addr_of. destruct (Z.ltb_spec k (Z.of_nat NDIRECT)); [done|]. destruct (_ =? 0); [done|].
      rewrite list_lookup_total_insert_ne; [done|]. apply not_eq_sym, (is_indirect _ _ _ _ _ Hsep). lia. }
    rewrite Ha. split; [done|]. exists d. unfold block_at in *. rewrite Ha.
    by rewrite list_lookup_insert_ne by by apply not_eq_sym.
  - intros Hi. destruct (H6 Hi) as (ia & d & Hia & Hz & HV & Hd). exists ia, d. split_and!; try done.
    pose proof (is_indirect _ _ _ _ _ Hsep Hi) as Hn. rewrite Hia in Hn.
    by rewrite list_lookup_insert_ne by by apply not_eq_sym.
Qed.
End Elsewhere.
