(* ===== verification/FsDirs.v ===== *)
(** * Directories and the inode cache

    [namecmp] on names, [dirlookup] against the entries of a directory, and [iget]
    against a cache that has an inode at most once. *)

From S2P Require Import Prelude CString Bytes Bcache BcacheSpec Log LogSpec Recovery LogThms Transaction Fs FsBlocks FsContent.

(** ** Names *)

Lemma strncmp_spec p q n m s t :
  length s = n -> length t = n ->
  (forall i, (i < n)%nat -> m !! (p + i)%nat = s !! i) ->
  (forall i, (i < n)%nat -> m !! (q + i)%nat = t !! i) ->
  exists v, strncmp p q n m = Ok (v, m) /\ (v =? 0) = bool_decide (cstr s = cstr t).
Proof.
  revert p q s t. induction n as [|n IH]; intros p q s t Hs Ht Hp Hq.
  - apply nil_length_inv in Hs, Ht. subst. by exists 0.
  - destruct s as [|a s], t as [|b t]; try done. injection Hs as Hs. injection Ht as Ht.
    pose proof (Hp O ltac:(lia)) as Ha. pose proof (Hq O ltac:(lia)) as Hb.
    rewrite Nat.add_0_r in Ha, Hb. cbn [strncmp].
    assert (load p m = Ok (a, m)) as Rp by (unfold load; mrun; by rewrite Ha).
    assert (load q m = Ok (b, m)) as Rq by (unfold load; mrun; by rewrite Hb).
    rewrite (bind_ok _ _ _ _ _ Rp), (bind_ok _ _ _ _ _ Rq). cbn [cstr].
    destruct (Z.eqb_spec a 0) as [->|Ha0]; cbn [negb andb].
    + exists (0 - b). split; [done|]. destruct (Z.eqb_spec b 0) as [->|Hb0]; [done|].
      rewrite bool_decide_false by done. apply Z.eqb_neq. lia.
    + destruct (Z.eqb_spec a b) as [<-|Hab].
      * destruct (IH (p + 1)%nat (q + 1)%nat s t Hs Ht) as (v & Hv & Hz).
        { intros i Hi. specialize (Hp (S i) ltac:(lia)). by rewrite <- Nat.add_assoc. }
        { intros i Hi. specialize (Hq (S i) ltac:(lia)). by rewrite <- Nat.add_assoc. }
        exists v. split; [done|]. rewrite Hz, (proj2 (Z.eqb_neq _ _) Ha0).
        apply bool_decide_ext. split; [congruence|by intros [= ->]].
      * exists (a - b). split; [done|]. rewrite (proj2 (Z.eqb_neq (a - b) 0)) by lia.
        symmetry. apply bool_decide_false. destruct (b =? 0); [done|congruence].
Qed.

Lemma namecmp_run s t f :
  length s = DIRSIZ -> length t = DIRSIZ ->
  exists v, namecmp s t f = Ok (v, f) /\ (v =? 0) = bool_decide (cstr s = cstr t).
Proof.
  intros Hs Ht. unfold namecmp. rewrite Hs.
  destruct (strncmp_spec 0 DIRSIZ DIRSIZ (s ++ t) s t Hs Ht) as (v & -> & Hz).
  - intros i Hi. rewrite Nat.add_0_l. apply lookup_app_l. lia.
  - intros i Hi. rewrite lookup_app_r by lia. f_equal. lia.
  - by exists v.
Qed.

(** ** The entries of a directory *)

Definition entry_bytes (V : list block) (ip : inode) (j : nat) : list Z :=
  file_bytes V ip (16 * Z.of_nat j) 16.

Definition entry_inum (V : list block) (ip : inode) (j : nat) : Z :=
  le_val (take 2 (entry_bytes V ip j)).
Definition entry_name (V : list block) (ip : inode) (j : nat) : list Z :=
  drop 2 (entry_bytes V ip j).

(** The entry [j] is in use and has this name. *)
Definition entry_is (V : list block) (ip : inode) (name : list Z) (j : nat) : bool :=
  negb (entry_inum V ip j =? 0) && bool_decide (cstr name = cstr (entry_name V ip j)).

(** A directory of [n] entries. *)
Record dir_ok (V : list block) (ip : inode) (n : nat) : Prop := DirOk {
  do_file : file_ok V ip (i_size ip);
  do_type : i_type ip = T_DIR;
  do_size : i_size ip = 16 * Z.of_nat n
}.

Lemma entry_name_length V ip j : length (entry_name V ip j) = DIRSIZ.
Proof. unfold entry_name, entry_bytes. by rewrite length_drop, file_bytes_length. Qed.

Lemma read_entry_run `{Devices} msg V Bs dp ip f n j :
  txn (st f) V ∅ Bs -> icache f !! dp = Some ip -> dir_ok V ip n -> (length Bs < NBUF)%nat ->
  (j < n)%nat ->
  exists f', read_entry msg dp (16 * Z.of_nat j) f =
      Ok (Dirent (entry_inum V ip j) (entry_name V ip j), f') /\
    quiet_fs f f' /\ txn (st f') V ∅ Bs.
Proof.
  intros Ht Hi [Hf Hty Hsz] Hroom Hj. pose proof (fo_max _ _ _ Hf) as Hmax.
  assert (MAXFILE * 512 = 71680) as HM by reflexivity.
  destruct (readi_run V Bs dp ip f (16 * Z.of_nat j) 16 Ht Hi Hf Hroom) as (f' & R & Q & T);
    [lia..|].
  rewrite Z.min_l in R by lia. exists f'. split_and!; [|done|done].
  unfold read_entry. rewrite (bind_ok _ _ _ _ _ R). fold (entry_bytes V ip j).
  change (negb (16 =? 16)) with false. cbv iota.
  unfold read_dirent, get_le.
  replace (length (entry_bytes V ip j)) with 16%nat by (unfold entry_bytes; by rewrite file_bytes_length).
  reflexivity.
Qed.

Lemma find_seq (P : nat -> bool) a n :
  match find P (seq a n) with
  | Some j => (a <= j < a + n)%nat /\ P j = true /\ (forall k, (a <= k < j)%nat -> P k = false) /\
      seq a n = seq a (j - a) ++ j :: seq (S j) (a + n - S j)
  | None => forall k, (a <= k < a + n)%nat -> P k = false
  end.
Proof.
  revert a. induction n as [|n IH]; intros a; [cbn; intros; lia|]. cbn [seq find].
  destruct (P a) eqn:Ha.
  - split_and!; [lia|lia|done|intros; lia|]. rewrite Nat.sub_diag. cbn. do 2 f_equal. lia.
  - specialize (IH (S a)). destruct (find P (seq (S a) n)) as [j|].
    + destruct IH as (Hj & HP & Hk & Hs). split_and!; [lia|lia|done| |].
      * intros k Hka. destruct (decide (k = a)) as [->|]; [done|]. apply Hk. lia.
      * rewrite Hs. replace (j - a)%nat with (S (j - S a)) by lia.
        by replace (a + S n)%nat with (S a + n)%nat by lia.
    + intros k Hk. destruct (decide (k = a)) as [->|]; [done|]. apply IH. lia.
Qed.

Lemma steps_entries n : steps 16 (16 * Z.of_nat n) = map (fun j => 16 * Z.of_nat j) (seq 0 n).
Proof.
  unfold steps. do 2 f_equal. replace (16 * Z.of_nat n + 16 - 1) with (15 + Z.of_nat n * 16) by lia.
  rewrite Z.div_add by lia. change (15 / 16) with 0. lia.
Qed.

(** A search among the first [n] entries that passes those for which [P] fails. *)
Lemma entries_skip {B} (P : nat -> bool) (body : Z -> Fs (option B)) V Bs f n rest :
  txn (st f) V ∅ Bs ->
  (forall j f', quiet_fs f f' -> txn (st f') V ∅ Bs -> (j < n)%nat -> P j = false ->
     exists f2, body (16 * Z.of_nat j) f' = Ok (None, f2) /\ quiet_fs f' f2 /\ txn (st f2) V ∅ Bs) ->
  (forall j, (j < n)%nat -> P j = false) ->
  exists f', find_each (map (fun j => 16 * Z.of_nat j) (seq 0 n) ++ rest) body f =
      find_each rest body f' /\ quiet_fs f f' /\ txn (st f') V ∅ Bs.
Proof.
  intros Ht Hb HP.
  destruct (find_each_skip (fun l f' => quiet_fs f f' /\ txn (st f') V ∅ Bs /\
    forall x, x ∈ l -> exists j, x = 16 * Z.of_nat j /\ (j < n)%nat) body
    (map (fun j => 16 * Z.of_nat j) (seq 0 n)) rest f) as (f' & R & Q & T & _).
  - split; [done|]. split; [done|]. intros x Hx.
    apply list_elem_of_In, in_map_iff in Hx as (j & <- & Hj%in_seq). exists j. split; [done|lia].
  - intros x l f' (Q & T & Hin). destruct (Hin x (list_elem_of_here _ _)) as (j & -> & Hj).
    destruct (Hb j f' Q T Hj (HP j Hj)) as (f2 & R2 & Q2 & T2). exists f2. split; [done|].
    split; [by etransitivity|]. split; [done|]. intros x Hx. by apply Hin, list_elem_of_further.
  - by exists f'.
Qed.

Section Lookup.
Context `{Devices}.
Context (V : list block) (Bs : list nat) (dp : nat) (ip : inode) (n : nat) (name : list Z).
Hypothesis Hdir : dir_ok V ip n.
Hypothesis Hroom : (length Bs < NBUF)%nat.
Hypothesis Hname : length name = DIRSIZ.

(** The body of the loop of [dirlookup]. *)
Definition lookup_at (off : Z) : Fs (option (nat * Z)) :=
  de ← read_entry "dirlookup read" dp off;
  if de_inum de =? 0 then mret None
  else
    c ← namecmp name (de_name de);
    if c =? 0 then
      ip ← geti dp;
      i ← iget (i_dev ip) (de_inum de);
      mret (Some (i, off))
    else mret None.

Lemma lookup_at_run f j :
  txn (st f) V ∅ Bs -> icache f !! dp = Some ip -> (j < n)%nat ->
  exists f', quiet_fs f f' /\ txn (st f') V ∅ Bs /\
    lookup_at (16 * Z.of_nat j) f =
      if entry_is V ip name j
      then (i ← iget 1 (entry_inum V ip j); mret (Some (i, 16 * Z.of_nat j))) f'
      else Ok (None, f').
Proof using Hdir Hroom Hname.
  intros Ht Hi Hj.
  destruct (read_entry_run "dirlookup read" V Bs dp ip f n j Ht Hi Hdir Hroom Hj)
    as (f' & R & Q & T).
  exists f'. split_and!; [done|done|]. unfold lookup_at. rewrite (bind_ok _ _ _ _ _ R).
  cbn [de_inum de_name]. unfold entry_is.
  destruct (entry_inum V ip j =? 0); [done|]. cbn [negb andb].
  destruct (namecmp_run name (entry_name V ip j) f' Hname (entry_name_length V ip j))
    as (v & Rv & Hv).
  rewrite (bind_ok _ _ _ _ _ Rv), Hv. destruct (bool_decide _); [|done].
  assert (icache f' !! dp = Some ip) as Hi' by (by rewrite (q_icache _ _ Q)).
  rewrite (bind_ok _ _ _ _ _ (geti_run f' dp ip Hi')). by rewrite (fo_dev _ _ _ (do_file _ _ _ Hdir)).
Qed.

Lemma dirlookup_run f :
  txn (st f) V ∅ Bs -> icache f !! dp = Some ip ->
  exists f', quiet_fs f f' /\ txn (st f') V ∅ Bs /\
    dirlookup dp name f =
      match find (entry_is V ip name) (seq 0 n) with
      | Some j => (i ← iget 1 (entry_inum V ip j); mret (Some (i, 16 * Z.of_nat j))) f'
      | None => Ok (None, f')
      end.
Proof using Hdir Hroom Hname.
  intros Ht Hi. unfold dirlookup. rewrite (bind_ok _ _ _ _ _ (geti_run f dp ip Hi)).
  rewrite (do_type _ _ _ Hdir). change (negb (T_DIR =? T_DIR)) with false. cbv iota.
  fold lookup_at. rewrite (do_size _ _ _ Hdir), steps_entries.
  assert (forall j f', quiet_fs f f' -> txn (st f') V ∅ Bs -> (j < n)%nat ->
    entry_is V ip name j = false -> exists f2, lookup_at (16 * Z.of_nat j) f' = Ok (None, f2) /\
      quiet_fs f' f2 /\ txn (st f2) V ∅ Bs) as Hskip.
  { intros j f' Q T Hj He. destruct (lookup_at_run f' j T) as (f2 & Q2 & T2 & R2); [|done|].
    - by rewrite (q_icache _ _ Q).
    - rewrite He in R2. by exists f2. }
  pose proof (find_seq (entry_is V ip name) 0 n) as Hfind.
  destruct (find (entry_is V ip name) (seq 0 n)) as [j|].
  - destruct Hfind as (Hj & He & Hbefore & Hseq). rewrite Nat.sub_0_r in Hseq.
    rewrite Hseq, map_app. cbn [map].
    destruct (entries_skip (entry_is V ip name) lookup_at V Bs f j
      (16 * Z.of_nat j :: map (fun j => 16 * Z.of_nat j) (seq (S j) (0 + n - S j))) Ht)
      as (f1 & R1 & Q1 & T1).
    { intros k f' Q T Hk. apply Hskip; [done|done|lia]. }
    { intros k Hk. apply Hbefore. lia. }
    destruct (lookup_at_run f1 j T1) as (f2 & Q2 & T2 & R2); [|lia|].
    { by rewrite (q_icache _ _ Q1). }
    exists f2. split_and!; [by etransitivity|done|]. rewrite R1. cbn [find_each].
    rewrite He in R2. rewrite (bind_moves _ _ _ _ _ R2), bind_bind.
    unfold mbind, M_bind. by destruct (iget 1 (entry_inum V ip j) f2) as [[i f3]| | |].
  - destruct (entries_skip (entry_is V ip name) lookup_at V Bs f n [] Ht Hskip)
      as (f1 & R1 & Q1 & T1).
    { intros k Hk. apply Hfind. lia. }
    rewrite app_nil_r in R1. exists f1. by split_and!.
Qed.
End Lookup.

(** ** The inode cache *)

Definition holds_inode (ip : inode) (d inum : Z) : bool :=
  (0 <? i_ref ip) && (i_dev ip =? d) && (i_inum ip =? inum).

(** An inode is in the cache at most once. *)
Record icache_ok (l : list inode) : Prop := IcacheOk {
  ic_len : length l = NINODE;
  ic_ref : forall i ip, l !! i = Some ip -> 0 <= i_ref ip;
  ic_once : forall i j ip jp d inum, l !! i = Some ip -> l !! j = Some jp ->
    holds_inode ip d inum = true -> holds_inode jp d inum = true -> i = j
}.

Lemma iget_scan_spec l k d inum empty :
  match iget_scan l k d inum empty with
  | inl i => exists j ip, i = (k + j)%nat /\ l !! j = Some ip /\ holds_inode ip d inum = true
  | inr e => (forall j ip, l !! j = Some ip -> holds_inode ip d inum = false) /\
      match empty, e with
      | Some x, _ => e = Some x
      | None, Some i => exists j ip, i = (k + j)%nat /\ l !! j = Some ip /\ i_ref ip = 0
      | None, None => forall j ip, l !! j = Some ip -> i_ref ip <> 0
      end
  end.
Proof.
  revert k empty. induction l as [|ip l IH]; intros k empty; cbn [iget_scan].
  - split; [done|]. by destruct empty.
  - fold (holds_inode ip d inum). destruct (holds_inode ip d inum) eqn:Hh.
    + exists O, ip. split_and!; [lia|done|done].
    + set (empty' := match empty with None => if i_ref ip =? 0 then Some k else None | _ => empty end).
      specialize (IH (S k) empty'). destruct (iget_scan l (S k) d inum empty') as [i|e].
      * destruct IH as (j & jp & -> & Hj & Hm). exists (S j), jp. split_and!; [lia|done|done].
      * destruct IH as [Hno He]. split.
        { intros [|j] jp Hj; [by injection Hj as <-|by eapply Hno]. }
        unfold empty' in He. destruct empty as [x|]; [done|].
        destruct (Z.eqb_spec (i_ref ip) 0) as [Hz|Hz].
        -- subst e. exists O, ip. split_and!; [lia|done|done].
        -- destruct e as [i|].
           ++ destruct He as (j & jp & -> & Hj & Hr). exists (S j), jp. split_and!; [lia|done|done].
           ++ intros [|j] jp Hj; [by injection Hj as <-|by eapply He].
Qed.

Lemma icache_ok_alter l i g :
  icache_ok l -> (forall ip, l !! i = Some ip -> 0 <= i_ref (g ip)) ->
  (forall ip d inum, l !! i = Some ip -> holds_inode (g ip) d inum = true ->
     holds_inode ip d inum = true \/ forall j jp, l !! j = Some jp -> holds_inode jp d inum = false) ->
  icache_ok (alter g i l).
Proof.
  intros [Hl Hr Ho] Hg Hh.
  assert (forall j jp, alter g i l !! j = Some jp ->
    (j <> i /\ l !! j = Some jp) \/ (j = i /\ exists ip, l !! i = Some ip /\ jp = g ip)) as Hcase.
  { intros j jp Hj. destruct (decide (i = j)) as [->|Hne].
    - rewrite list_lookup_alter_eq in Hj. destruct (l !! j) as [ip|]; [|done].
      right. split; [done|]. exists ip. split; [done|]. by apply (inj Some) in Hj.
    - rewrite list_lookup_alter_ne in Hj by done. left. by split. }
  split.
  - by rewrite length_alter.
  - intros j jp [[_ Hj]|(-> & ip & Hi & ->)]%Hcase; eauto.
  - intros a b ap bp d inum [[Hai Ha]|(-> & ip & Hi & ->)]%Hcase [[Hbi Hb]|(-> & jp & Hj & ->)]%Hcase
      Hma Hmb; [by eapply Ho| | |done].
    + destruct (Hh jp d inum Hj Hmb) as [Hm|Hm]; [by eapply Ho|].
      rewrite (Hm a ap Ha) in Hma. done.
    + destruct (Hh ip d inum Hi Hma) as [Hm|Hm]; [by eapply Ho|].
      rewrite (Hm b bp Hb) in Hmb. done.
Qed.

Lemma acquire_icache_run f :
  icache_lock f = false -> acquire_icache f = Ok (tt, set_icache_lock true f).
Proof. intros Hl. unfold acquire_icache. mrun. by rewrite Hl. Qed.

Lemma release_icache_run f :
  icache_lock f = true -> release_icache f = Ok (tt, set_icache_lock false f).
Proof. intros Hl. unfold release_icache. mrun. by rewrite Hl. Qed.

(** An entry changed while the cache is locked. *)
Lemma locked_updi_run f i g :
  icache_lock f = false ->
  (updi i g ;; release_icache ;; mret i) (set_icache_lock true f) =
    Ok (i, set_icache (alter g i (icache f)) f).
Proof. intros Hl. destruct f. cbn in Hl. subst. reflexivity. Qed.

Lemma alter_insert (l : list inode) (i : nat) (ip : inode) g : l !! i = Some ip -> alter g i l = <[i := g ip]> l.
Proof.
  intros Hi. apply list_eq. intros j. destruct (decide (i = j)) as [->|Hne].
  - rewrite list_lookup_alter_eq, Hi, list_lookup_insert_eq; [done|by eapply lookup_lt_Some].
  - by rewrite list_lookup_alter_ne, list_lookup_insert_ne.
Qed.

Lemma holds_inode_inj ip d inum d' inum' :
  holds_inode ip d inum = true -> holds_inode ip d' inum' = true -> d = d' /\ inum = inum'.
Proof. unfold holds_inode. intros. lia. Qed.

(** What [iget] promises. *)
Definition iget_post (f : fsys) (d inum : Z) (r : res (nat * fsys)) : Prop :=
  match r with
  | Ok (i, f') =>
      icache_ok (icache f') /\ icache_lock f' = false /\ st f' = st f /\
      exists ip ip', icache f !! i = Some ip /\ icache f' = <[i := ip']> (icache f) /\
        holds_inode ip' d inum = true /\
        if 0 <? i_ref ip then ip' = set_ref (i_ref ip + 1) ip
        else i_ref ip' = 1 /\ i_valid ip' = false
  | Panic msg => msg = "iget: no inodes" /\
      forall i ip, icache f !! i = Some ip -> 0 < i_ref ip /\ holds_inode ip d inum = false
  | _ => False
  end.

Definition refs_bounded (l : list inode) : Prop :=
  forall i ip, l !! i = Some ip -> i_ref ip < 2 ^ 31 - 1.

Lemma iget_run f d inum :
  icache_ok (icache f) -> icache_lock f = false -> refs_bounded (icache f) ->
  iget_post f d inum (iget d inum f).
Proof.
  intros Hok Hlk Hbound. unfold iget_post, iget.
  rewrite (bind_ok _ _ _ _ _ (acquire_icache_run f Hlk)), bind_gets.
  change (icache (set_icache_lock true f)) with (icache f).
  pose proof (iget_scan_spec (icache f) 0 d inum None) as Hs.
  destruct (iget_scan (icache f) 0 d inum None) as [i|[i|]].
  - destruct Hs as (j & ip & -> & Hj & Hm). cbn [Nat.add].
    set (g := fun ip => set_ref _ ip). rewrite (locked_updi_run f j g Hlk).
    assert (0 < i_ref ip) as Hpos by (unfold holds_inode in Hm; lia).
    assert (g ip = set_ref (i_ref ip + 1) ip) as Hg.
    { unfold g. rewrite i32_small; [done|]. specialize (Hbound j ip Hj). lia. }
    split_and!; [|done|done|].
    + apply icache_ok_alter; [done| |].
      all: intros jp; rewrite Hj.
      * intros <-%(inj Some). rewrite Hg. cbn. lia.
      * intros d' inum' <-%(inj Some) Hh. rewrite Hg in Hh. left. revert Hh Hm. unfold holds_inode. cbn. lia.
    + exists ip, (g ip). rewrite (proj2 (Z.ltb_lt _ _) Hpos). split_and!; [done| | |done].
      * by apply alter_insert.
      * rewrite Hg. revert Hm. unfold holds_inode. cbn. lia.
  - destruct Hs as (Hno & j & ip & -> & Hj & Hz). cbn [Nat.add].
    set (g := fun ip => Inode _ _ _ _ _ _ _ _ _ _ _). rewrite (locked_updi_run f j g Hlk).
    split_and!; [|done|done|].
    + apply icache_ok_alter; [done| |]; intros jp; rewrite Hj; [by intros <-%(inj Some)|].
      intros d' inum' <-%(inj Some) Hh. right. unfold holds_inode, g in Hh. cbn in Hh.
      assert (d = d' /\ inum = inum') as [-> ->] by lia. exact Hno.
    + exists ip, (g ip). rewrite (proj2 (Z.ltb_ge _ _)) by lia. split_and!; [done| | |done|done].
      * by apply alter_insert.
      * unfold holds_inode. cbn. by rewrite !Z.eqb_refl.
  - destruct Hs as [Hno Hz]. split; [done|]. intros i ip Hi. split; [|by eapply Hno].
    pose proof (ic_ref _ Hok i ip Hi). specialize (Hz i ip Hi). lia.
Qed.

(** ** Paths *)

(** The elements of a path: the longest runs without a slash; [cur] is the run so far. *)
Fixpoint elements_from (cur p : list Z) : list (list Z) :=
  match p with
  | [] => match cur with [] => [] | _ => [cur] end
  | c :: p' =>
      if c =? slash then
        match cur with [] => elements_from [] p' | _ => cur :: elements_from [] p' end
      else elements_from (cur ++ [c]) p'
  end.

Definition elements (p : list Z) : list (list Z) := elements_from [] p.

(** [name] after an element is copied into it. *)
Definition put_name (e name : list Z) : list Z :=
  if (DIRSIZ <=? length e)%nat then splice 0 (take DIRSIZ e) name else splice 0 (e ++ [0]) name.

(** A path without its terminating 0: no 0 inside. *)
Definition no_zero (p : list Z) : Prop := 0 ∉ p.

Lemma no_zero_cons c p : no_zero (c :: p) <-> c <> 0 /\ no_zero p.
Proof. unfold no_zero. rewrite not_elem_of_cons. naive_solver. Qed.

(** The path after its leading slashes. *)
Fixpoint drop_slashes (p : list Z) : list Z :=
  match p with
  | [] => []
  | c :: p' => if c =? slash then drop_slashes p' else p
  end.

Lemma skip_slashes_run p t : skip_slashes (p ++ 0 :: t) = Ok (drop_slashes p ++ 0 :: t).
Proof. induction p as [|c p IH]; [done|]. cbn. by destruct (c =? slash). Qed.

Lemma drop_slashes_length p : (length (drop_slashes p) <= length p)%nat.
Proof. induction p as [|c p IH]; [done|]. cbn. destruct (c =? slash); cbn; lia. Qed.

Lemma drop_slashes_no_zero p : no_zero p -> no_zero (drop_slashes p).
Proof.
  induction p as [|c p IH]; [done|]. rewrite no_zero_cons. cbn. intros [Hc Hp].
  destruct (c =? slash); [by apply IH|by apply no_zero_cons].
Qed.

Lemma drop_slashes_head p c q : drop_slashes p = c :: q -> c <> slash.
Proof.
  induction p as [|x p IH]; [done|]. cbn. destruct (Z.eqb_spec x slash); [done|].
  by intros [= <- <-].
Qed.

Lemma elements_drop p : elements (drop_slashes p) = elements p.
Proof.
  unfold elements. induction p as [|c p IH]; [done|]. cbn [drop_slashes elements_from].
  destruct (c =? slash) eqn:Hc; [exact IH|]. cbn [elements_from]. by rewrite Hc.
Qed.

(** The run at the front of a path. *)
Fixpoint first_run (p : list Z) : list Z * list Z :=
  match p with
  | [] => ([], [])
  | c :: p' => if c =? slash then ([], p) else let '(s, r) := first_run p' in (c :: s, r)
  end.

Lemma take_elem_run p t : no_zero p ->
  take_elem (p ++ 0 :: t) = Ok ((first_run p).1, (first_run p).2 ++ 0 :: t).
Proof.
  induction p as [|c p IH]; [done|]. rewrite no_zero_cons. intros [Hc Hp]. cbn [app take_elem first_run].
  rewrite (proj2 (Z.eqb_neq _ _) Hc), orb_false_r. destruct (c =? slash); [done|].
  rewrite (IH Hp). by destruct (first_run p).
Qed.

Lemma first_run_elements p cur :
  cur ++ (first_run p).1 <> [] ->
  elements_from cur p = (cur ++ (first_run p).1) :: elements (first_run p).2.
Proof.
  revert cur. induction p as [|c p IH]; intros cur; cbn [first_run elements_from].
  - cbn. rewrite app_nil_r. by destruct cur.
  - destruct (c =? slash) eqn:Hc; cbn [fst snd].
    + rewrite app_nil_r. intros Hne. destruct cur as [|x cur]; [done|].
      unfold elements. cbn [elements_from]. by rewrite Hc.
    + destruct (first_run p) as [s r] eqn:Hr. cbn [fst snd] in *. intros _.
      rewrite IH by (by destruct cur). by rewrite <- app_assoc.
Qed.

Lemma first_run_length p : (length (first_run p).1 + length (first_run p).2 = length p)%nat.
Proof.
  induction p as [|c p IH]; [done|]. cbn. destruct (c =? slash); [done|].
  destruct (first_run p). cbn in *. lia.
Qed.

Lemma first_run_no_zero p : no_zero p -> no_zero (first_run p).2.
Proof.
  induction p as [|c p IH]; [done|]. rewrite no_zero_cons. cbn. intros [Hc Hp].
  destruct (c =? slash); [by apply no_zero_cons|].
  destruct (first_run p). by apply IH.
Qed.

(** [skipelem] takes the first element off a path. *)
Lemma skipelem_run p t name :
  no_zero p ->
  match elements p with
  | [] => skipelem (p ++ 0 :: t) name = Ok (None, name)
  | e :: es =>
      exists p', skipelem (p ++ 0 :: t) name = Ok (Some (p' ++ 0 :: t), put_name e name) /\
        no_zero p' /\ elements p' = es /\ (length p' < length p)%nat /\ (p' = [] <-> es = []) /\
        head p' <> Some slash
  end.
Proof.
  intros Hp. rewrite <- elements_drop. unfold skipelem. rewrite skip_slashes_run.
  pose proof (drop_slashes_length p) as Hlen. pose proof (drop_slashes_no_zero p Hp) as Hnz.
  destruct (drop_slashes p) as [|c q] eqn:Hd; [done|].
  pose proof (drop_slashes_head _ _ _ Hd) as Hc. apply no_zero_cons in Hnz as [Hc0 Hq].
  assert (no_zero (c :: q)) as Hcq by (by apply no_zero_cons).
  assert ((first_run (c :: q)).1 = c :: (first_run q).1 /\ (first_run (c :: q)).2 = (first_run q).2)
    as [Hf1 Hf2].
  { cbn. rewrite (proj2 (Z.eqb_neq _ _) Hc). by destruct (first_run q). }
  unfold elements. rewrite first_run_elements by (by rewrite Hf1). rewrite app_nil_l, Hf1, Hf2.
  set (r := (first_run q).2) in *. set (e := c :: (first_run q).1).
  exists (drop_slashes r). split_and!.
  - cbn [mbind res_bind]. rewrite bool_decide_false by (cbn; congruence).
    rewrite take_elem_run by done. cbn [mbind res_bind]. rewrite Hf1, Hf2. fold r e.
    rewrite skip_slashes_run. reflexivity.
  - apply drop_slashes_no_zero. by apply first_run_no_zero.
  - apply elements_drop.
  - pose proof (drop_slashes_length r). pose proof (first_run_length q). unfold r in *.
    cbn [length] in Hlen. lia.
  - rewrite <- elements_drop. destruct (drop_slashes r) as [|x y] eqn:Hx; [done|].
    split; [done|]. apply drop_slashes_head in Hx. unfold elements. cbn [elements_from].
    rewrite (proj2 (Z.eqb_neq _ _) Hx). rewrite first_run_elements; [done|]. done.
  - destruct (drop_slashes r) as [|x y] eqn:Hx; [done|]. apply drop_slashes_head in Hx.
    cbn. congruence.
Qed.

(** ** namex *)

(** The walk of [namex] along the elements of a path. *)
Fixpoint walk `{Devices} (es : list (list Z)) (parent : bool) (name : list Z) (ip : nat)
    : Fs (option nat * list Z) :=
  match es with
  | [] => if parent then iput ip ;; mret (None, name) else mret (Some ip, name)
  | e :: es' =>
      let name := put_name e name in
      ilock (Some ip) ;;
      n ← geti ip;
      if negb (i_type n =? T_DIR) then iunlockput ip ;; mret (None, name)
      else if parent && bool_decide (es' = []) then
        iunlock (Some ip) ;; mret (Some ip, name)
      else
        next ← dirlookup ip name;
        match next with
        | None => iunlockput ip ;; mret (None, name)
        | Some (next, _) => iunlockput ip ;; walk es' parent name next
        end
  end.

Lemma namex_loop_run `{Devices} fuel p t parent name ip f :
  no_zero p -> (length (elements p) < fuel)%nat ->
  namex_loop fuel (p ++ 0 :: t) parent name ip f = walk (elements p) parent name ip f.
Proof.
  revert p name ip f. induction fuel as [|fuel IH]; intros p name ip f Hp Hf; [lia|].
  cbn [namex_loop]. pose proof (skipelem_run p t name Hp) as Hs.
  destruct (elements p) as [|e es] eqn:He.
  - rewrite (bind_ok _ _ _ (None, name) f) by (unfold lift_res; by rewrite Hs). reflexivity.
  - destruct Hs as (p' & Hs & Hp' & He' & _ & Hnil & _).
    rewrite (bind_ok _ _ _ (Some (p' ++ 0 :: t), put_name e name) f)
      by (unfold lift_res; by rewrite Hs).
    cbn [walk]. apply bind_ext. intros [] f1. apply bind_ext. intros n f2.
    destruct (negb _); [done|].
    assert (bool_decide (head (p' ++ 0 :: t) = Some 0) = bool_decide (es = [])) as ->.
    { apply bool_decide_ext. rewrite <- Hnil. destruct p' as [|x p']; [done|].
      apply no_zero_cons in Hp' as [Hx _]. cbn. split; [congruence|done]. }
    destruct (_ && _); [done|]. apply bind_ext. intros [[next off]|] f3; [|done].
    apply bind_ext. intros [] f4. rewrite IH; [by rewrite He'|done|]. rewrite He'. cbn in Hf. lia.
Qed.

Lemma elements_from_length cur p : (length (elements_from cur p) <= length p + length cur)%nat.
Proof.
  revert cur. induction p as [|c p IH]; intros cur; cbn [elements_from].
  - destruct cur; cbn; lia.
  - destruct (c =? slash).
    + destruct cur; [specialize (IH []); cbn in *; lia|]. specialize (IH []). cbn in *. lia.
    + specialize (IH (cur ++ [c])). rewrite length_app in IH. cbn in *. lia.
Qed.

(** ** Paths written from their elements *)

(** An element: not empty, without slashes and zeros. *)
Record good_elem (e : list Z) : Prop := GoodElem {
  ge_some : e <> [];
  ge_slash : slash ∉ e;
  ge_zero : no_zero e
}.

Lemma good_elem_dec e :
  negb (bool_decide (e = [])) && forallb (fun c => negb (c =? slash) && negb (c =? 0)) e = true ->
  good_elem e.
Proof.
  intros [He Hall]%andb_true_iff. rewrite forallb_forall in Hall. split.
  - by destruct e.
  - intros Hin%list_elem_of_In%Hall. done.
  - intros Hin%list_elem_of_In%Hall. done.
Qed.

(** Every element after at least one slash, and slashes at the end. *)
Definition write_path (l : list (nat * list Z)) (m : nat) : list Z :=
  flat_map (fun '(k, e) => replicate (S k) slash ++ e) l ++ replicate m slash.

Lemma replicate_no_zero k : no_zero (replicate k slash).
Proof. intros [? _]%elem_of_replicate. done. Qed.

Lemma write_path_no_zero l m : Forall good_elem (map snd l) -> no_zero (write_path l m).
Proof.
  unfold write_path. induction l as [|[k e] l IH]; cbn [flat_map map snd].
  - intros _. apply replicate_no_zero.
  - intros [He Hl]%Forall_cons. unfold no_zero in *. rewrite <- app_assoc, !not_elem_of_app.
    split; [split; [apply replicate_no_zero|apply He]|]. by apply not_elem_of_app, IH.
Qed.

Lemma elements_from_elem cur e r :
  slash ∉ e -> elements_from cur (e ++ r) = elements_from (cur ++ e) r.
Proof.
  revert cur. induction e as [|c e IH]; intros cur; [by rewrite app_nil_r|].
  rewrite not_elem_of_cons. intros [Hc He]. cbn [app elements_from].
  rewrite (proj2 (Z.eqb_neq _ _)) by done. by rewrite IH, <- app_assoc.
Qed.

Lemma elements_from_slashes cur k r :
  elements_from cur (replicate (S k) slash ++ r) =
    match cur with [] => elements r | _ => cur :: elements r end.
Proof.
  assert (elements (replicate k slash ++ r) = elements r) as Hk.
  { unfold elements. induction k as [|k IH]; [done|]. exact IH. }
  cbn [replicate app elements_from]. change (slash =? slash) with true. cbv iota.
  fold (elements (replicate k slash ++ r)). by rewrite Hk.
Qed.

Lemma elements_write_path cur l m :
  Forall good_elem (map snd l) ->
  elements_from cur (write_path l m) =
    match cur with [] => map snd l | _ => cur :: map snd l end.
Proof.
  unfold write_path. revert cur. induction l as [|[k e] l IH]; intros cur; cbn [flat_map map snd app].
  - intros _. destruct m as [|m]; [by destruct cur|].
    rewrite <- (app_nil_r (replicate (S m) slash)), elements_from_slashes. by destruct cur.
  - intros [He Hl]%Forall_cons. rewrite <- !app_assoc, elements_from_slashes.
    unfold elements. rewrite elements_from_elem by apply He. rewrite IH by done.
    destruct e as [|c e]; [by destruct He|]. by destruct cur.
Qed.

(** The name that an element leaves, as a C string of at most [DIRSIZ] bytes. *)
Lemma put_name_spec e name :
  length name = DIRSIZ ->
  length (put_name e name) = DIRSIZ /\ exists r, put_name e name ++ [0] = take DIRSIZ e ++ 0 :: r.
Proof.
  intros Hn. unfold put_name. destruct (Nat.leb_spec DIRSIZ (length e)) as [Hle|Hlt].
  - assert (length (take DIRSIZ e) = DIRSIZ) as Hl by (rewrite length_take; lia).
    unfold splice. rewrite take_0, Hl. cbn [app].
    rewrite drop_ge, app_nil_r by lia. split; [done|]. by exists [].
  - rewrite (take_ge e) by lia.
    split; [rewrite splice_length; [done|]; rewrite length_app; cbn; lia|].
    unfold splice. rewrite take_0, <- !app_assoc. by eexists.
Qed.
