(* ===== verification/FsProps.v ===== *)
(** * Properties of blocks, content and directories

    The block allocator, [readi] and [writei] on a disk inside a transaction. *)

From S2P Require Import Prelude CString Bytes Bcache BcacheSpec Log LogSpec Recovery LogThms Transaction Fs SmallDisk FsBlocks FsContent FsDirs.

(** ** Blocks *)

Section Allocator.
Context (f : fsys) (V : list block) (H : gmap nat nat) (Bs : list nat) (b0 : Z).
Hypothesis Ht : txn (st f) V H Bs.
Hypothesis Hm : bitmap_ok (st f) V H (sb f).
Hypothesis Hb0 : 0 <= b0 < sb_size (sb f).
Hypothesis Hfree : block_used V (sb f) b0 = false.
Hypothesis Hused : forall b, 0 <= b < b0 -> block_used V (sb f) b = true.
Hypothesis Hhome : home (lg (st f)) (length V) (block_of b0).
Hypothesis HH : H !! block_of b0 = None.
Hypothesis Hdata : forall b, 0 <= b < sb_size (sb f) -> BBLOCK b (sb f) <> block_of b0.

(** C17. [balloc] returns the first block that the bitmap has as free, now marked as in use
    and zeroed; the other blocks and the other bits stay as they are. *)
Theorem balloc_takes_the_first_free_block :
  log_room (st f) H Bs 2 0 ->
  exists f' V' Bs', balloc 1 f = Ok (b0, f') /\ quiet_fs f f' /\ txn (st f') V' H Bs' /\
    V' !! block_of b0 = Some (replicate BSIZE 0) /\
    (forall b, 0 <= b < sb_size (sb f) ->
       block_used V' (sb f) b = (b =? b0) || block_used V (sb f) b) /\
    (forall bn, bn <> block_of b0 -> bn <> BBLOCK b0 (sb f) -> V' !! bn = V !! bn).
Proof using All.
  intros Hroom.
  destruct (balloc_run f V H Bs Ht Hm b0 Hb0 Hfree Hused Hhome HH Hroom)
    as (d' & f' & Hd' & R & Q & T).
  eexists f', _, _. split_and!; [exact R|exact Q|exact T| | |].
  - apply list_lookup_insert_eq. rewrite length_insert. apply Hhome.
  - intros b Hb. unfold block_used at 1.
    rewrite list_lookup_total_insert_ne by (intros He; by apply (Hdata b)).
    by apply (bitmap_set_bit V (sb f) b0 d' H (st f)).
  - intros bn H1 H2. by rewrite !list_lookup_insert_ne by done.
Qed.

(** [bfree] of a block that [balloc] just returned gives back the bitmap of before; to
    free it once more panics. *)
Theorem bfree_undoes_balloc :
  log_room (st f) H Bs 3 0 ->
  exists f' Bs', (b ← balloc 1; bfree 1 b ;; mret b) f = Ok (b0, f') /\ quiet_fs f f' /\
    txn (st f') (<[block_of b0 := replicate BSIZE 0]> V) H Bs' /\
    ((size H + length Bs' < NBUF)%nat -> bfree 1 b0 f' = Panic "freeing free block").
Proof using All.
  intros Hroom. pose proof Hroom as [Hr1 Hr2].
  destruct (balloc_run f V H Bs Ht Hm b0 Hb0 Hfree Hused Hhome HH) as (d' & f1 & Hd' & R1 & Q1 & T1).
  { unfold log_room. lia. }
  set (V1 := <[block_of b0 := replicate BSIZE 0]> (<[BBLOCK b0 (sb f) := d']> V)) in *.
  pose proof (q_stays _ _ Q1) as S1.
  assert (bitmap_ok (st f1) V1 H (sb f1)) as Hm1.
  { rewrite (q_sb _ _ Q1). eapply bitmap_stays; [exact S1|]. by apply bitmap_alloc. }
  assert (V1 !!! BBLOCK b0 (sb f) = d') as HV1.
  { unfold V1. rewrite list_lookup_total_insert_ne by (intros He; by apply (Hdata b0)).
    apply list_lookup_total_insert_eq. apply (bm_home _ _ _ _ Hm b0 Hb0). }
  destruct (bm_data _ _ _ _ Hm b0 Hb0) as (d & HV & Hld & Hby).
  rewrite (list_lookup_total_correct _ _ _ HV) in Hd'.
  assert (used d (b0 mod BPB) = false) as Hu.
  { unfold block_used in Hfree. by rewrite (list_lookup_total_correct _ _ _ HV) in Hfree. }
  assert (0 <= b0 mod BPB < 8 * Z.of_nat (length d)) as Hbit by (rewrite Hld; apply bitmap_bit).
  destruct (set_bit_spec d (b0 mod BPB) Hbit) as (d2 & Hd2 & Ld2 & Hbits).
  assert (d2 = d') as -> by congruence.
  destruct (bfree_run f1 V1 H _ T1 Hm1 b0 d) as (f2 & R2 & Q2 & T2); rewrite ?(q_sb _ _ Q1).
  { done. }
  { unfold block_used. rewrite HV1, Hbits by lia. by rewrite Z.eqb_refl. }
  { rewrite HV1. by apply clear_set_bit. }
  { eapply log_room_absorb; [exact S1|]. by eapply log_room_absorb; [reflexivity|]. }
  assert (<[BBLOCK b0 (sb f) := d]> V1 = <[block_of b0 := replicate BSIZE 0]> V) as HV2.
  { unfold V1. rewrite list_insert_insert_ne by (by apply (Hdata b0)).
    rewrite list_insert_insert_eq. by rewrite (list_insert_id V) by done. }
  rewrite (q_sb _ _ Q1), HV2 in T2.
  eexists f2, _. split_and!; [|by etransitivity|exact T2|].
  - rewrite (bind_ok _ _ _ _ _ R1). by rewrite (bind_ok _ _ _ _ _ R2).
  - assert (sb f2 = sb f) as Hsb by (by rewrite (q_sb _ _ Q2), (q_sb _ _ Q1)).
    intros Hr. apply (bfree_free f2 _ H _ T2); rewrite ?Hsb; [|done| |done].
    + rewrite <- HV2. eapply bitmap_stays; [etransitivity; [exact S1|apply Q2]|].
      rewrite HV2. by apply bitmap_zero.
    + unfold block_used. rewrite list_lookup_total_insert_ne by (intros He; by apply (Hdata b0)).
      by rewrite (list_lookup_total_correct _ _ _ HV).
Qed.
End Allocator.

(** The storage of the small disk inside a transaction. *)
Definition small_fs (s : store) (l : list inode) : fsys := Fsys s small_sb false l 0.

Lemma small_bitmap_ok s hd :
  log_start (lg s) = 2%nat -> log_size (lg s) = 30 ->
  bitmap_ok s (<[2%nat := hd]> (small_disk [])) ∅ small_sb.
Proof.
  intros Hst Hsz.
  assert (forall b, 0 <= b < sb_size small_sb -> BBLOCK b small_sb = 32%nat) as HB.
  { intros b Hb. change (sb_size small_sb) with 40 in Hb. unfold BBLOCK.
    rewrite Z.div_small by (unfold BPB; lia). reflexivity. }
  split; [done|done| | |]; intros b Hb; rewrite (HB b Hb).
  - rewrite length_insert, small_length. apply small_home; [done..|lia].
  - apply lookup_empty.
  - exists small_bitmap. split_and!; [by apply small_block|reflexivity|].
    apply Forall_forall. intros x Hx.
    assert (forallb (fun x => (0 <=? x) && (x <? 256)) small_bitmap = true) as Hf by reflexivity.
    rewrite forallb_forall in Hf. apply list_elem_of_In in Hx. specialize (Hf x Hx). lia.
Qed.

Lemma small_used hd b :
  0 <= b < 40 -> block_used (<[2%nat := hd]> (small_disk [])) small_sb b = (b <? 36).
Proof.
  intros Hb. unfold block_used. unfold BBLOCK. rewrite Z.div_small by (unfold BPB; lia).
  change (block_of (0 + sb_bmapstart small_sb)) with 32%nat.
  rewrite (list_lookup_total_correct _ _ small_bitmap) by (by apply small_block).
  rewrite Z.mod_small by (unfold BPB; lia).
  assert (forallb (fun k => Bool.eqb (used small_bitmap (Z.of_nat k)) (Z.of_nat k <? 36))
    (seq 0 40) = true) as Hf by (vm_compute; reflexivity).
  rewrite forallb_forall in Hf. specialize (Hf (Z.to_nat b) ltac:(apply in_seq; lia)).
  rewrite Z2Nat.id in Hf by lia. by apply Bool.eqb_prop.
Qed.

Lemma balloc_takes_the_first_free_block_witness :
  exists f V, txn (st f) V ∅ [] /\ block_used V (sb f) 36 = false /\
    exists f' V' Bs', balloc 1 f = Ok (36, f') /\ quiet_fs f f' /\ txn (st f') V' ∅ Bs' /\
      V' !! block_of 36 = Some (replicate BSIZE 0) /\
      (forall b, 0 <= b < sb_size (sb f) ->
         block_used V' (sb f) b = (b =? 36) || block_used V (sb f) b) /\
      (forall bn, bn <> block_of 36 -> bn <> BBLOCK 36 (sb f) -> V' !! bn = V !! bn).
Proof.
  destruct small_txn as (s & hd & Ht & _ & Hst & Hsz).
  exists (small_fs s []), (<[2%nat := hd]> (small_disk [])).
  split; [exact Ht|]. split; [apply small_used; lia|].
  apply (balloc_takes_the_first_free_block _ _ _ []).
  - exact Ht.
  - by apply small_bitmap_ok.
  - cbn. lia.
  - apply small_used. lia.
  - intros b Hb. cbn [sb small_fs]. rewrite small_used by lia. lia.
  - rewrite length_insert, small_length. apply small_home; [done..|]. change (block_of 36) with 36%nat. lia.
  - apply lookup_empty.
  - intros b Hb. cbn [sb small_fs] in *. change (sb_size small_sb) with 40 in Hb. unfold BBLOCK.
    rewrite Z.div_small by (unfold BPB; lia). done.
  - unfold log_room. cbn [st small_fs]. rewrite Hsz, map_size_empty. cbn. unfold NBUF. lia.
Defined.

Lemma bfree_undoes_balloc_witness :
  exists f V, txn (st f) V ∅ [] /\ block_used V (sb f) 36 = false /\
    exists f' Bs', (b ← balloc 1; bfree 1 b ;; mret b) f = Ok (36, f') /\ quiet_fs f f' /\
      txn (st f') (<[block_of 36 := replicate BSIZE 0]> V) ∅ Bs' /\
      ((size (∅ : gmap nat nat) + length Bs' < NBUF)%nat ->
         bfree 1 36 f' = Panic "freeing free block").
Proof.
  destruct small_txn as (s & hd & Ht & _ & Hst & Hsz).
  exists (small_fs s []), (<[2%nat := hd]> (small_disk [])).
  split; [exact Ht|]. split; [apply small_used; lia|].
  apply (bfree_undoes_balloc _ _ _ []).
  - exact Ht.
  - by apply small_bitmap_ok.
  - cbn. lia.
  - apply small_used. lia.
  - intros b Hb. cbn [sb small_fs]. rewrite small_used by lia. lia.
  - rewrite length_insert, small_length. apply small_home; [done..|]. change (block_of 36) with 36%nat. lia.
  - apply lookup_empty.
  - intros b Hb. cbn [sb small_fs] in *. change (sb_size small_sb) with 40 in Hb. unfold BBLOCK.
    rewrite Z.div_small by (unfold BPB; lia). done.
  - unfold log_room. cbn [st small_fs]. rewrite Hsz, map_size_empty. cbn. unfold NBUF. lia.
Defined.

(** ** Content *)

(** [readi] returns the bytes of the file from [off] on, fewer than [n] only at its
    end, and -1 for an offset past the end; it changes nothing. *)
Theorem readi_reads_the_file `{Devices} V Bs i ip f off n :
  txn (st f) V ∅ Bs -> icache f !! i = Some ip -> file_ok V ip (i_size ip) ->
  (length Bs < NBUF)%nat -> 0 <= off -> 0 <= n -> off + n < 2 ^ 32 ->
  let n' := Z.min n (i_size ip - off) in
  exists f', readi i off n f =
      Ok (if off <=? i_size ip then (n', file_bytes V ip off n') else (-1, []), f') /\
    quiet_fs f f' /\ txn (st f') V ∅ Bs.
Proof.
  intros Ht Hi Hok Hroom Hoff Hn Hlt n'. destruct (Z.leb_spec off (i_size ip)) as [Hle|Hgt].
  - by apply (readi_run V Bs i ip).
  - exists f. split; [|done]. unfold readi. rewrite (bind_ok _ _ _ _ _ (geti_run f i ip Hi)).
    rewrite (proj2 (Z.eqb_neq _ _) (fo_type _ _ _ Hok)), (proj2 (Z.ltb_lt _ _) Hgt). done.
Qed.

Lemma writei_run `{Devices} V Bs i ip f src off n :
  txn (st f) V ∅ Bs -> icache f !! i = Some ip -> file_ok V ip (i_size ip) ->
  file_sep (lg (st f)) V ip (i_size ip) -> 0 <= off -> 0 <= n -> off + n <= i_size ip ->
  n <= Z.of_nat (length src) -> log_room (st f) ∅ Bs (Z.to_nat (rounds off n)) 0 ->
  exists f' V' Bs', writei i src off n f = Ok (n, f') /\
    wrote ip src (i_size ip) f V Bs 0 off n f' V' Bs'.
Proof.
  intros Ht Hi Hok Hsep Hoff Hn Hle Hsrc Hroom. pose proof (fo_max _ _ _ Hok) as Hmax.
  assert (MAXFILE * 512 = 71680) as HM by reflexivity.
  unfold writei. rewrite (bind_ok _ _ _ _ _ (geti_run f i ip Hi)).
  rewrite (proj2 (Z.eqb_neq _ _) (fo_type _ _ _ Hok)).
  rewrite (w32_small (off + n)) by lia.
  rewrite (proj2 (Z.ltb_ge _ _)) by lia. rewrite (proj2 (Z.ltb_ge (off + n) off)) by lia.
  cbn [orb]. rewrite (proj2 (Z.ltb_ge _ _)) by lia.
  pose proof (rounds_bound off n Hoff Hn). pose proof (Z.div_pos n 512 Hn ltac:(lia)).
  destruct (writei_loop_run i ip src (i_size ip) (Z.to_nat (n / 512) + 3) f V Bs off n 0 Ht Hi
    Hok Hsep) as (f' & V' & Bs' & R & W); rewrite ?Z.sub_0_r; try lia; [done|].
  rewrite Z.sub_0_r in *. rewrite (bind_ok _ _ _ _ _ R).
  assert (icache f' !! i = Some ip) as Hi' by (by rewrite (q_icache _ _ (w_quiet _ _ _ _ _ _ _ _ _ _ _ _ W))).
  rewrite (bind_ok _ _ _ _ _ (geti_run f' i ip Hi')).
  rewrite (proj2 (Z.ltb_ge (i_size ip) _)), andb_false_r by lia. rewrite bind_when_false.
  exists f', V', Bs'. split; [|exact W]. by rewrite i32_small by lia.
Qed.

(** The bytes of a range that was overwritten. *)
Lemma file_bytes_overwritten V V' ip src off n e :
  0 <= off -> 0 <= n -> off + n <= e -> n <= Z.of_nat (length src) ->
  (forall p, 0 <= p < e -> byte_of V' ip p = overwritten src 0 off n (byte_of V ip) p) ->
  file_bytes V' ip off n = take (Z.to_nat n) src.
Proof.
  intros Hoff Hn He Hsrc Hb. apply list_eq. intros j.
  destruct (decide (j < Z.to_nat n)%nat) as [Hj|Hj].
  - rewrite <- (Nat2Z.id j) at 1. rewrite file_bytes_lookup by lia.
    rewrite lookup_take_lt by done. rewrite Hb by lia. unfold overwritten.
    rewrite (proj2 (Z.leb_le _ _)), (proj2 (Z.ltb_lt _ _)) by lia. cbn [andb].
    replace (Z.to_nat (0 + (off + Z.of_nat j - off))) with j by lia.
    by destruct (lookup_lt_is_Some_2 src j ltac:(lia)) as [v ->].
  - rewrite !lookup_ge_None_2; [done| |].
    + rewrite length_take. lia.
    + rewrite file_bytes_length. lia.
Qed.

(** The end of the last block of a file: up to there no block has to be allocated. *)
Definition blocks_end (ip : inode) : Z := 512 * ((i_size ip + 511) / 512).

Lemma blocks_end_le ip k : 512 * k < blocks_end ip -> 512 * k < i_size ip.
Proof. unfold blocks_end. intros Hk. Z.div_mod_to_equations. lia. Qed.

Lemma blocks_end_ge ip : i_size ip <= blocks_end ip.
Proof. unfold blocks_end. Z.div_mod_to_equations. lia. Qed.

Lemma file_ok_blocks V ip : file_ok V ip (i_size ip) -> file_ok V ip (blocks_end ip).
Proof.
  intros [H1 H2 H3 H4 H5 H6]. split; try done.
  - unfold blocks_end, MAXFILE, NDIRECT, NINDIRECT in *. Z.div_mod_to_equations. lia.
  - intros k Hk Hke. by apply H5, blocks_end_le.
  - intros Hi. by apply H6, blocks_end_le.
Qed.

Lemma file_sep_blocks g V ip : file_sep g V ip (i_size ip) -> file_sep g V ip (blocks_end ip).
Proof.
  intros [H1 H2 H3]. split.
  - intros k Hk Hke. by apply H1, blocks_end_le.
  - intros k k' Hk Hke Hk' Hke'. apply H2; auto using blocks_end_le.
  - intros Hi k Hk Hke. apply H3; auto using blocks_end_le.
Qed.

Lemma inode_sep_blocks g V ip bn : inode_sep g V ip (i_size ip) bn -> inode_sep g V ip (blocks_end ip) bn.
Proof.
  intros [H1 H2 H3 H4]. split; try done.
  - intros k Hk Hke. by apply H3, blocks_end_le.
  - intros Hi. by apply H4, blocks_end_le.
Qed.

Lemma file_ok_size V ip e v : file_ok V ip e -> file_ok V (set_size v ip) e.
Proof. by intros []; split. Qed.

(** The file after [writei]: the inode [ip'] is in the cache and on the disk. *)
Record grown_file (i : nat) (ip ip' : inode) (src : list Z) (off n : Z) (f : fsys) (V : list block)
    (f' : fsys) (V' : list block) (Bs' : list nat) : Prop := GrownFile {
  gf_stays : stays (st f) (st f');
  gf_rest : sb f' = sb f /\ icache_lock f' = icache_lock f /\ cwd f' = cwd f;
  gf_icache : icache f' = <[i := ip']> (icache f);
  gf_txn : txn (st f') V' ∅ Bs';
  gf_ok : file_ok V' ip' (i_size ip');
  gf_bytes : forall p, 0 <= p < blocks_end ip ->
    byte_of V' ip' p = overwritten src 0 off n (byte_of V ip) p;
  gf_inode : i_size ip < off + n -> exists d, V' !! IBLOCK (i_inum ip) (sb f) = Some d /\
    get_dinode (Z.to_nat (i_inum ip mod IPB)) d = Some (dinode_of ip')
}.

(** The end of [writei]: the new size is stored. *)
Lemma store_size_run f V Bs i ip v : let bn := IBLOCK (i_inum ip) (sb f) in
  txn (st f) V ∅ Bs -> icache f !! i = Some ip -> i_dev ip = 1 -> inode_sep (lg (st f)) V ip (blocks_end ip) bn ->
  dinode_fits (dinode_of ip) -> is_w32 v -> log_room (st f) ∅ Bs 1 0 ->
  exists f' d', (updi i (set_size v) ;; iupdate i) f = Ok (tt, f') /\
    quiet_fs (set_icache (<[i := set_size v ip]> (icache f)) f) f' /\ length d' = BSIZE /\
    txn (st f') (<[bn := d']> V) ∅ (absorbed Bs bn) /\
    get_dinode (Z.to_nat (i_inum ip mod IPB)) d' = Some (dinode_of (set_size v ip)).
Proof.
  intros bn Ht Hi Hdev Hsep [H1 H2 H3] Hv Hroom. unfold updi. rewrite bind_modify, (alter_insert _ _ _ _ Hi).
  set (f1 := set_icache _ f).
  assert (icache f1 !! i = Some (set_size v ip)) as Hi1.
  { apply list_lookup_insert_eq. by eapply lookup_lt_Some. }
  destruct (iupdate_run f1 V Bs i (set_size v ip) Ht Hi1 Hdev (is_home _ _ _ _ _ Hsep) (is_data _ _ _ _ _ Hsep))
    as (f' & d' & R & Q & Hd & T & G); [by split|done|]. by exists f', d'.
Qed.

Lemma writei_blocks_run `{Devices} V Bs i ip f src off n :
  txn (st f) V ∅ Bs -> icache f !! i = Some ip -> file_ok V ip (i_size ip) ->
  file_sep (lg (st f)) V ip (i_size ip) -> inode_sep (lg (st f)) V ip (i_size ip) (IBLOCK (i_inum ip) (sb f)) ->
  dinode_fits (dinode_of ip) -> 0 <= off <= i_size ip -> 0 <= n -> off + n <= blocks_end ip ->
  n <= Z.of_nat (length src) -> log_room (st f) ∅ Bs (S (Z.to_nat (rounds off n))) 0 ->
  let ip' := set_size (Z.max (i_size ip) (off + n)) ip in
  exists f' V' Bs', writei i src off n f = Ok (n, f') /\ grown_file i ip ip' src off n f V f' V' Bs' /\
    (length Bs' <= length Bs + S (Z.to_nat (rounds off n)))%nat.
Proof.
  intros Ht Hi Hok Hsep Hisep Hfit Hoff Hn Hle Hsrc Hroom ip'. pose proof (file_ok_blocks V ip Hok) as Hokb.
  pose proof (fo_max _ _ _ Hokb) as Hmax. assert (MAXFILE * 512 = 71680) as HM by reflexivity.
  unfold writei. rewrite (bind_ok _ _ _ _ _ (geti_run f i ip Hi)).
  rewrite (proj2 (Z.eqb_neq _ _) (fo_type _ _ _ Hok)).
  rewrite (w32_small (off + n)) by lia.
  rewrite (proj2 (Z.ltb_ge _ _)) by lia. rewrite (proj2 (Z.ltb_ge (off + n) off)) by lia.
  cbn [orb]. rewrite (proj2 (Z.ltb_ge _ _)) by lia.
  pose proof (rounds_bound off n (proj1 Hoff) Hn). pose proof (Z.div_pos n 512 Hn ltac:(lia)).
  destruct (writei_loop_run i ip src (blocks_end ip) (Z.to_nat (n / 512) + 3) f V Bs off n 0 Ht Hi
    Hokb (file_sep_blocks _ _ _ Hsep)) as (f1 & V1 & Bs1 & R & W); rewrite ?Z.sub_0_r; try lia.
  { eapply log_room_le; [| |exact Hroom]; lia. }
  rewrite Z.sub_0_r in *. rewrite (bind_ok _ _ _ _ _ R). destruct W as [Q1 T1 O1 S1 L1 M1 E1 C1 B1].
  assert (icache f1 !! i = Some ip) as Hi1 by (by rewrite (q_icache _ _ Q1)).
  rewrite (bind_ok _ _ _ _ _ (geti_run f1 i ip Hi1)). rewrite i32_small by lia.
  destruct (Z.ltb_spec (i_size ip) (off + n)) as [Hgrow|Hin].
  - rewrite (proj2 (Z.ltb_lt 0 n)) by lia. cbn [andb]. rewrite bind_when_true.
    assert (ip' = set_size (off + n) ip) as -> by (unfold ip'; by rewrite Z.max_r by lia).
    pose proof (inode_sep_blocks _ _ _ _ Hisep) as Hib. set (bn := IBLOCK (i_inum ip) (sb f)) in *.
    assert (V1 !! bn = V !! bn) as HV1 by (apply E1; apply Hib).
    assert (inode_sep (lg (st f1)) V1 ip (blocks_end ip) bn) as Hib1.
    { destruct Hib as [I1 I2 I3 I4]. split; [eapply home_stays; [apply Q1|by rewrite L1]|by rewrite HV1| |done].
      intros k Hk Hke. rewrite M1 by done. by apply I3. }
    destruct (store_size_run f1 V1 Bs1 i ip (off + n) T1 Hi1 (fo_dev _ _ _ Hok)) as (f2 & d & R2 & Q2 & Hd & T2 & G2);
      rewrite ?(q_sb _ _ Q1); [exact Hib1|done|split; lia| |].
    { eapply log_room_stays; [apply Q1|]. unfold log_room in *. lia. }
    rewrite (bind_ok _ _ _ _ _ R2). rewrite (q_sb _ _ Q1) in T2. fold bn in T2.
    exists f2, (<[bn := d]> V1), (absorbed Bs1 bn). split; [done|].
    pose proof (absorbed_length Bs1 bn). split; [|lia]. split.
    + etransitivity; [apply Q1|apply (q_stays _ _ Q2)].
    + destruct Q1, Q2. cbn in *. split_and!; congruence.
    + rewrite (q_icache _ _ Q2). cbn. by rewrite (q_icache _ _ Q1).
    + exact T2.
    + apply (file_ok_le _ _ (blocks_end ip)); [cbn; lia|]. apply file_ok_size.
      eapply file_ok_elsewhere; [exact Hib1|done].
    + intros p Hp. change (byte_of ?v (set_size _ ip) p) with (byte_of v ip p).
      rewrite (byte_of_elsewhere (lg (st f1)) V1 ip (blocks_end ip) bn d Hib1 p Hp). by apply B1.
    + intros _. exists d. split; [|done]. apply list_lookup_insert_eq. apply Hib1.
  - rewrite andb_false_r, bind_when_false. exists f1, V1, Bs1. split; [done|].
    assert (ip' = ip) as -> by (unfold ip'; rewrite Z.max_l by lia; by destruct ip).
    split; [|lia]. split; [apply Q1| | |exact T1| |exact B1|lia].
    + split_and!; apply Q1.
    + rewrite (q_icache _ _ Q1). by rewrite list_insert_id.
    + eapply file_ok_le; [apply blocks_end_ge|done].
Qed.

(** C16. A [readi] after a [writei] of the same range returns the bytes written, and the
    bytes of the file outside of the range are as before.  The range may lie inside the file
    or reach past its end, as long as it ends in the last block that the file has: then the
    inode has the new size, in the cache and in its block.  A [writei] that starts past the
    end, or would make the file longer than a file can be, returns -1 and changes nothing. *)
Theorem readi_after_writei `{Devices} V Bs i ip f src off n :
  txn (st f) V ∅ Bs -> icache f !! i = Some ip -> file_ok V ip (i_size ip) ->
  file_sep (lg (st f)) V ip (i_size ip) -> inode_sep (lg (st f)) V ip (i_size ip) (IBLOCK (i_inum ip) (sb f)) ->
  dinode_fits (dinode_of ip) -> 0 <= off < 2 ^ 32 -> 0 <= n < 2 ^ 32 -> n <= Z.of_nat (length src) ->
  log_room (st f) ∅ Bs (S (Z.to_nat (rounds off n))) 1 ->
  if (i_size ip <? off) || (MAXFILE * 512 <? off + n) then writei i src off n f = Ok (-1, f)
  else off + n <= blocks_end ip ->
    let ip' := set_size (Z.max (i_size ip) (off + n)) ip in
    exists f' V' Bs', (writei i src off n ;; readi i off n) f = Ok ((n, take (Z.to_nat n) src), f') /\
      grown_file i ip ip' src off n f V f' V' Bs' /\
      forall p, 0 <= p < i_size ip -> p < off \/ off + n <= p -> byte_of V' ip' p = byte_of V ip p.
Proof.
  intros Ht Hi Hok Hsep Hisep Hfit Hoff Hn Hsrc Hroom. assert (MAXFILE * 512 = 71680) as HM by reflexivity.
  pose proof (df_size _ Hfit) as Hsz. unfold is_w32 in Hsz. cbn in Hsz.
  destruct (Z.ltb_spec (i_size ip) off) as [Hpast|Hin]; [|destruct (Z.ltb_spec (MAXFILE * 512) (off + n)) as [Hbig|Hfits]];
    cbn [orb].
  - unfold writei. rewrite (bind_ok _ _ _ _ _ (geti_run f i ip Hi)), (proj2 (Z.eqb_neq _ _) (fo_type _ _ _ Hok)).
    by rewrite (proj2 (Z.ltb_lt _ _)) by lia.
  - unfold writei. rewrite (bind_ok _ _ _ _ _ (geti_run f i ip Hi)), (proj2 (Z.eqb_neq _ _) (fo_type _ _ _ Hok)).
    rewrite (proj2 (Z.ltb_ge _ _)) by lia. cbn [orb].
    destruct (Z.ltb_spec (w32 (off + n)) off) as [|Hw]; [done|].
    assert (w32 (off + n) = off + n) as -> by (unfold w32 in *; Z.div_mod_to_equations; lia).
    by rewrite (proj2 (Z.ltb_lt _ _)) by lia.
  - cbv iota. intros Hle. set (ip' := set_size (Z.max (i_size ip) (off + n)) ip).
    destruct (writei_blocks_run V Bs i ip f src off n Ht Hi Hok Hsep Hisep Hfit ltac:(lia) ltac:(lia) Hle Hsrc)
      as (f1 & V' & Bs' & R1 & G & Hcnt). { eapply log_room_le; [| |exact Hroom]; lia. }
    fold ip' in G. assert (icache f1 !! i = Some ip') as Hi1.
    { rewrite (gf_icache _ _ _ _ _ _ _ _ _ _ _ G). apply list_lookup_insert_eq. by eapply lookup_lt_Some. }
    destruct (readi_run V' Bs' i ip' f1 off n (gf_txn _ _ _ _ _ _ _ _ _ _ _ G) Hi1 (gf_ok _ _ _ _ _ _ _ _ _ _ _ G))
      as (f2 & R2 & Q2 & T2); [destruct Hroom; lia|cbn; lia|lia|lia|].
    rewrite Z.min_l in R2 by (cbn; lia). exists f2, V', Bs'. split; [|split].
    + rewrite (bind_ok _ _ _ _ _ R1), R2. do 3 f_equal.
      apply (file_bytes_overwritten V V' ip src off n (blocks_end ip)); try lia. exact (gf_bytes _ _ _ _ _ _ _ _ _ _ _ G).
    + destruct G as [G1 (G2 & G3 & G4) G5 G6 G7 G8 G9], Q2. split; try done; [by etransitivity|split_and!; congruence|congruence].
    + intros p Hp Hout. rewrite (gf_bytes _ _ _ _ _ _ _ _ _ _ _ G) by (pose proof (blocks_end_ge ip); lia). unfold overwritten.
      destruct (Z.leb_spec off p), (Z.ltb_spec p (off + n)); done || lia.
Qed.

(** The inode of the file of the small disk. *)
Definition small_file : inode :=
  Inode 1 2 1 (Some 7) true T_FILE 0 0 1 5 (35 :: replicate 12 0).

Lemma small_file_ok hd : file_ok (<[2%nat := hd]> (small_disk [])) small_file 5.
Proof.
  split; try done.
  - intros k Hk Hke. assert (k = 0) as -> by lia. split; [done|].
    eexists. split; [apply small_block; reflexivity || done|reflexivity].
Qed.

Lemma small_file_sep s hd :
  log_start (lg s) = 2%nat -> log_size (lg s) = 30 ->
  file_sep (lg s) (<[2%nat := hd]> (small_disk [])) small_file 5.
Proof.
  intros Hst Hsz. split; [|intros; lia|done].
  intros k Hk Hke. assert (k = 0) as -> by lia. rewrite length_insert, small_length.
  apply small_home; [done..|]. change (block_at _ _ 0) with 35%nat. lia.
Qed.

#[local] Instance no_devices : Devices := {| dev_read _ := None; dev_write _ := None |}.

Lemma readi_reads_the_file_witness :
  exists f V, txn (st f) V ∅ [] /\ exists f',
    readi 0 1 10 f = Ok (if 1 <=? 5 then (4, file_bytes V small_file 1 4) else (-1, []), f') /\
    quiet_fs f f' /\ txn (st f') V ∅ [].
Proof.
  destruct small_txn as (s & hd & Ht & _ & Hst & Hsz).
  exists (small_fs s [small_file]), (<[2%nat := hd]> (small_disk [])). split; [exact Ht|].
  apply (readi_reads_the_file (<[2%nat := hd]> (small_disk [])) [] 0 small_file
    (small_fs s [small_file]) 1 10); try done; try lia.
  - apply small_file_ok.
  - cbn. unfold NBUF. lia.
Defined.

Lemma small_inode_sep s hd :
  log_start (lg s) = 2%nat -> log_size (lg s) = 30 ->
  inode_sep (lg s) (<[2%nat := hd]> (small_disk [])) small_file 5 (IBLOCK 2 small_sb).
Proof.
  intros Hst Hsz. change (IBLOCK 2 small_sb) with 33%nat. split; [| | |intros Hlt; exfalso; revert Hlt; by vm_compute].
  - rewrite length_insert, small_length. apply small_home; [done..|lia].
  - intros d Hd. rewrite list_lookup_insert_ne in Hd by done. change (Some small_inodes = Some d) in Hd.
    apply (inj Some) in Hd as <-. by vm_compute.
  - intros k Hk Hke. assert (k = 0) as -> by lia. by change (block_at _ _ 0) with 35%nat.
Qed.

(** Four bytes from the offset 3 on make the file of five bytes longer. *)
Lemma readi_after_writei_witness :
  exists f V, txn (st f) V ∅ [] /\ writei 0 [97; 98; 99; 100] 6 4 f = Ok (-1, f) /\ exists f' V' Bs',
    let ip' := set_size 7 small_file in
    (writei 0 [97; 98; 99; 100] 3 4 ;; readi 0 3 4) f = Ok ((4, [97; 98; 99; 100]), f') /\
    grown_file 0 small_file ip' [97; 98; 99; 100] 3 4 f V f' V' Bs' /\
    forall p, 0 <= p < 5 -> p < 3 \/ 3 + 4 <= p -> byte_of V' ip' p = byte_of V small_file p.
Proof.
  destruct small_txn as (s & hd & Ht & _ & Hst & Hsz).
  exists (small_fs s [small_file]), (<[2%nat := hd]> (small_disk [])). split; [exact Ht|].
  assert (dinode_fits (dinode_of small_file)) as Hfit.
  { split; [repeat split; by vm_compute|split; by vm_compute|]. split; [done|].
    repeat (apply Forall_cons_2; [split; by vm_compute|]). apply Forall_nil_2. }
  assert (forall n, (n <= 2)%nat -> log_room (st (small_fs s [small_file])) ∅ [] n 1) as Hroom.
  { intros n Hn. unfold log_room. cbn [st small_fs]. rewrite Hsz, map_size_empty. unfold NBUF. cbn. lia. }
  pose proof (fun off n H1 H2 H3 H4 => readi_after_writei (<[2%nat := hd]> (small_disk [])) [] 0 small_file
    (small_fs s [small_file]) [97; 98; 99; 100] off n Ht eq_refl (small_file_ok hd) (small_file_sep s hd Hst Hsz)
    (small_inode_sep s hd Hst Hsz) Hfit H1 H2 H3 H4) as Hrw.
  split.
  - refine (Hrw 6 4 _ _ _ _); [lia|lia|cbn; lia|]. apply Hroom. vm_compute. lia.
  - refine (Hrw 3 4 _ _ _ _ _); [lia|lia|cbn; lia| |by vm_compute]. apply Hroom. vm_compute. lia.
Defined.

(** ** The inode cache, directories and paths *)

(** ** The inode cache *)

(** [iget] returns the entry of the inode, shared with its other users when there are
    any, the first unused entry otherwise, and panics only when every entry is in use;
    an inode stays in the cache at most once, and no other entry changes. *)
Theorem iget_shares_inodes f d inum :
  icache_ok (icache f) -> icache_lock f = false ->
  refs_bounded (icache f) ->
  match iget d inum f with
  | Ok (i, f') =>
      icache_ok (icache f') /\ icache_lock f' = false /\ st f' = st f /\
      exists ip ip', icache f !! i = Some ip /\ icache f' = <[i := ip']> (icache f) /\
        holds_inode ip' d inum = true /\
        if 0 <? i_ref ip then ip' = set_ref (i_ref ip + 1) ip
        else i_ref ip' = 1 /\ i_valid ip' = false
  | Panic msg => msg = "iget: no inodes" /\
      forall i ip, icache f !! i = Some ip -> 0 < i_ref ip /\ holds_inode ip d inum = false
  | _ => False
  end.
Proof. apply iget_run. Qed.

(** A cache with the root directory and the file of the small disk, and free entries. *)
Definition small_dir : inode :=
  Inode 1 1 1 (Some 7) true T_DIR 0 0 1 48 (34 :: replicate 12 0).
Definition small_icache : list inode := small_dir :: replicate 49 inode_zero.

Lemma small_icache_lookup i ip :
  small_icache !! i = Some ip -> (i = O /\ ip = small_dir) \/ ip = inode_zero.
Proof.
  unfold small_icache. destruct i as [|i]; [intros <-%(inj Some); by left|].
  change ((small_dir :: replicate 49 inode_zero) !! S i) with (replicate 49 inode_zero !! i).
  intros [-> _]%lookup_replicate. by right.
Qed.

Lemma small_icache_ok : icache_ok small_icache.
Proof.
  split; [done| |].
  - by intros i ip [[_ ->]| ->]%small_icache_lookup.
  - intros i j ip jp d inum [[-> ->]| ->]%small_icache_lookup [[-> ->]| ->]%small_icache_lookup;
      unfold holds_inode; cbn; done || lia.
Qed.

Lemma small_refs : refs_bounded small_icache.
Proof. by intros i ip [[_ ->]| ->]%small_icache_lookup. Qed.

Lemma iget_shares_inodes_witness :
  exists f i f', icache_ok (icache f) /\ iget 1 2 f = Ok (i, f') /\ icache_ok (icache f') /\
    icache_lock f' = false.
Proof.
  set (f := Fsys (power_on 7 []) small_sb false small_icache 0).
  assert (match iget 1 2 f with Ok (1%nat, _) => True | _ => False end) as Hr
    by (vm_compute; exact I).
  assert (icache f = small_icache) as Hic by reflexivity.
  assert (icache_lock f = false) as Hlk by reflexivity.
  clearbody f.
  pose proof small_icache_ok as Hok. pose proof small_refs as Hb. rewrite <- Hic in Hok, Hb.
  pose proof (iget_shares_inodes f 1 2 Hok Hlk Hb) as Hs. clear Hb.
  destruct (iget 1 2 f) as [[i f']| | |] eqn:Hi; [|done..].
  exists f, i, f'. destruct Hs as (Hok' & Hlk' & _). by split_and!.
Defined.

(** ** Directories *)

(** [dirlookup] returns the inode of the first entry with the name, and its offset;
    without such an entry it returns nothing and changes nothing.  It panics only when
    the entry is there and the inode cache is full. *)
Theorem dirlookup_finds_the_first_entry `{Devices} V Bs dp ip n name f :
  txn (st f) V ∅ Bs -> icache f !! dp = Some ip -> dir_ok V ip n -> (length Bs < NBUF)%nat ->
  length name = DIRSIZ -> icache_ok (icache f) -> icache_lock f = false ->
  refs_bounded (icache f) ->
  match dirlookup dp name f with
  | Ok (Some (i, off), f') => txn (st f') V ∅ Bs /\ icache_ok (icache f') /\
      exists j ip', (j < n)%nat /\ off = 16 * Z.of_nat j /\ entry_is V ip name j = true /\
        (forall k, (k < j)%nat -> entry_is V ip name k = false) /\
        icache f' !! i = Some ip' /\ holds_inode ip' 1 (entry_inum V ip j) = true
  | Ok (None, f') => txn (st f') V ∅ Bs /\ quiet_fs f f' /\
      forall j, (j < n)%nat -> entry_is V ip name j = false
  | Panic msg => msg = "iget: no inodes" /\
      (exists j, (j < n)%nat /\ entry_is V ip name j = true) /\
      forall i ip, icache f !! i = Some ip -> 0 < i_ref ip
  | _ => False
  end.
Proof.
  intros Ht Hi Hd Hroom Hname Hok Hlk Hb.
  destruct (dirlookup_run V Bs dp ip n name Hd Hroom Hname f Ht Hi) as (f1 & Q1 & T1 & ->).
  pose proof (find_seq (entry_is V ip name) 0 n) as Hf.
  destruct (find (entry_is V ip name) (seq 0 n)) as [j|].
  - destruct Hf as (Hj & He & Hbefore & _).
    assert (iget_post f1 1 (entry_inum V ip j) (iget 1 (entry_inum V ip j) f1)) as Hg.
    { apply iget_run; rewrite ?(q_icache _ _ Q1), ?(q_lock _ _ Q1); done. }
    unfold mbind, M_bind. destruct (iget 1 (entry_inum V ip j) f1) as [[i f2]|msg| |];
      cbn [iget_post] in Hg; [| |done|done]; last first.
    { destruct Hg as [-> Hfull]. split; [done|]. split; [exists j; split; [lia|done]|].
      intros i jp Hjp. apply (Hfull i jp). by rewrite (q_icache _ _ Q1). }
    destruct Hg as (Hok2 & _ & Hst & jp & ip' & Hjp & Hic & Hh & _). unfold mret, M_ret.
    rewrite Hst. split; [done|]. split; [done|]. exists j, ip'.
    split_and!; [lia|done|done|intros; apply Hbefore; lia| |done].
    rewrite Hic. apply list_lookup_insert_eq. by eapply lookup_lt_Some.
  - split; [done|]. split; [done|]. intros j Hj. apply Hf. lia.
Qed.

Lemma small_dir_ok hd : dir_ok (<[2%nat := hd]> (small_disk [])) small_dir 3.
Proof.
  split; [|done|done]. split; try done.
  intros k Hk Hke. change (i_size small_dir) with 48 in *. assert (k = 0) as -> by lia.
  split; [done|]. eexists. split; [apply small_block; reflexivity || done|reflexivity].
Qed.

Lemma small_dir_bytes hd j :
  (j < 3)%nat -> entry_bytes (<[2%nat := hd]> (small_disk [])) small_dir j =
    entry_bytes (small_disk []) small_dir j.
Proof.
  intros Hj. unfold entry_bytes, file_bytes. apply map_ext_in. intros k [_ Hk]%in_seq.
  change (0 + Z.to_nat 16)%nat with 16%nat in Hk.
  set (p := 16 * Z.of_nat j + Z.of_nat k). assert (p / 512 = 0) as Hp by (apply Z.div_small; lia).
  unfold byte_of, block_at. rewrite Hp. do 2 f_equal.
Qed.

(** The name "f" is that of the entry 2 of the root directory, for inode 2. *)
Lemma small_entries hd :
  let V := <[2%nat := hd]> (small_disk []) in
  entry_inum V small_dir 2 = 2 /\
  (forall j, (j < 3)%nat -> entry_is V small_dir (name_of [102]) j = (j =? 2)%nat).
Proof.
  intros V. unfold entry_is, entry_inum, entry_name. split.
  - unfold V. rewrite small_dir_bytes by lia. vm_compute. reflexivity.
  - intros j Hj. unfold V. rewrite small_dir_bytes by done.
    destruct j as [|[|[|j]]]; [vm_compute; reflexivity..|lia].
Qed.


Lemma dirlookup_finds_the_first_entry_witness :
  exists f V i f', entry_inum V small_dir 2 = 2 /\
    dirlookup 0 (name_of [102]) f = Ok (Some (i, 32), f') /\ txn (st f') V ∅ [].
Proof.
  destruct small_txn as (s & hd & Ht & _ & Hst & Hsz).
  set (f := Fsys s small_sb false small_icache 0). set (V := <[2%nat := hd]> (small_disk [])).
  pose proof (dirlookup_finds_the_first_entry V [] 0 small_dir 3 (name_of [102]) f Ht eq_refl
    (small_dir_ok hd) ltac:(cbn; unfold NBUF; lia) eq_refl small_icache_ok eq_refl small_refs) as Hs.
  destruct (small_entries hd) as [Hi2 Hes]. fold V in Hi2, Hes.
  destruct (dirlookup 0 (name_of [102]) f) as [[[[i off]|] f']|msg| |] eqn:Hr; [| | |done|done].
  - destruct Hs as (Ht' & _ & j & ip' & Hj & -> & He & _).
    assert (j = 2%nat) as -> by (rewrite (Hes j Hj) in He; by apply Nat.eqb_eq).
    exists f, V, i, f'. split; [exact Hi2|]. split; [exact Hr|exact Ht'].
  - destruct Hs as (_ & _ & Hno). specialize (Hno 2%nat ltac:(lia)). by rewrite Hes in Hno by lia.
  - exfalso. destruct Hs as (_ & _ & Hfull). specialize (Hfull 1%nat inode_zero eq_refl).
    cbn in Hfull. lia.
Defined.

(** ** Paths *)

(** [skipelem] takes the first element of a path, whatever slashes are around it, cut to
    [DIRSIZ] bytes in [name], and returns what follows without its leading slashes; it
    returns 0 when there are only slashes. *)
Theorem skipelem_takes_the_first_element k e l m t name :
  good_elem e -> Forall good_elem (map snd l) -> length name = DIRSIZ ->
  skipelem (replicate m slash ++ 0 :: t) name = Ok (None, name) /\
  exists name' p' r,
    skipelem (replicate k slash ++ e ++ write_path l m ++ 0 :: t) name =
      Ok (Some (p' ++ 0 :: t), name') /\
    length name' = DIRSIZ /\ name' ++ [0] = take DIRSIZ e ++ 0 :: r /\
    head p' <> Some slash /\ elements p' = map snd l.
Proof.
  intros He Hl Hn. pose proof (write_path_no_zero l m Hl) as Hz. split.
  - pose proof (skipelem_run (replicate m slash) t name (replicate_no_zero m)) as Hs.
    pose proof (elements_write_path [] [] m (Forall_nil_2 _)) as Hes. unfold write_path in Hes.
    cbn [flat_map app] in Hes. unfold elements in Hs. by rewrite Hes in Hs.
  - set (p := replicate k slash ++ e ++ write_path l m).
    assert (no_zero p) as Hp.
    { unfold p, no_zero. rewrite !not_elem_of_app. split_and!; [|apply He|exact Hz].
      apply replicate_no_zero. }
    assert (elements p = e :: map snd l) as Hes.
    { unfold elements, p. destruct k as [|k].
      - cbn [replicate app]. rewrite elements_from_elem by apply He.
        rewrite elements_write_path by done. destruct He. by destruct e.
      - rewrite elements_from_slashes. unfold elements. rewrite elements_from_elem by apply He.
        rewrite elements_write_path by done. destruct He. by destruct e. }
    pose proof (skipelem_run p t name Hp) as Hs. rewrite Hes in Hs.
    destruct Hs as (p' & Hs & _ & Hes' & _ & _ & Hhd).
    destruct (put_name_spec e name Hn) as [Hln (r & Hr)].
    exists (put_name e name), p', r. split_and!; [|done|done|done|done].
    rewrite <- Hs. unfold p. by rewrite <- !app_assoc.
Qed.

Lemma skipelem_takes_the_first_element_witness :
  skipelem [47; 47; 0] (name_of []) = Ok (None, name_of []) /\
  exists name' p' r, skipelem ([47] ++ [97; 98] ++ [47; 47; 99; 47] ++ [0]) (name_of []) =
      Ok (Some (p' ++ [0]), name') /\
    length name' = DIRSIZ /\ name' ++ [0] = [97; 98; 0] ++ r /\
    head p' <> Some slash /\ elements p' = [[99]].
Proof.
  apply (skipelem_takes_the_first_element 1 [97; 98] [(1%nat, [99])] 1 [] (name_of [])).
  - apply good_elem_dec. vm_compute. reflexivity.
  - repeat constructor; apply good_elem_dec; vm_compute; reflexivity.
  - reflexivity.
Defined.

(** [namex] is a walk along the elements of the path, from the root directory when the
    path begins with a slash and from the current directory otherwise; it leaves its
    loop after at most one round for each element, so that it always returns when the
    calls of the walk do. *)
Theorem namex_walks_the_elements `{Devices} p0 l m t parent name f :
  (p0 = [] \/ good_elem p0) -> Forall good_elem (map snd l) ->
  let path := p0 ++ write_path l m in
  namex (path ++ 0 :: t) parent name f =
    (ip ← (if bool_decide (head path = Some slash) then iget ROOTDEV ROOTINO
           else c ← gets cwd; idup c);
     walk (match p0 with [] => [] | _ => [p0] end ++ map snd l) parent name ip) f.
Proof.
  intros Hp0 Hl path.
  assert (no_zero path) as Hz.
  { unfold path, no_zero. rewrite not_elem_of_app.
    split; [destruct Hp0 as [->|[]]; [apply not_elem_of_nil|done]|by apply write_path_no_zero]. }
  assert (elements path = match p0 with [] => [] | _ => [p0] end ++ map snd l) as He.
  { unfold elements, path. destruct Hp0 as [->|Hg].
    - cbn [app]. by rewrite elements_write_path.
    - rewrite elements_from_elem by apply Hg. rewrite elements_write_path by done. by destruct p0. }
  unfold namex.
  assert (forall c, head (path ++ 0 :: t) = Some c ->
    (c =? slash) = bool_decide (head path = Some slash)) as Hhd.
  { intros c. destruct path as [|x q]; cbn; intros [= <-]; [done|].
    destruct (Z.eqb_spec x slash) as [->|Hne]; [done|]. symmetry. apply bool_decide_false. congruence. }
  destruct (head (path ++ 0 :: t)) as [c|] eqn:Hc; [|by destruct path].
  rewrite bind_lift_Some, (Hhd c eq_refl). apply bind_ext. intros ip f1.
  rewrite namex_loop_run; [by rewrite He|done|].
  pose proof (elements_from_length [] path). unfold elements. rewrite length_app. cbn in *. lia.
Qed.

Lemma namex_walks_the_elements_witness :
  exists f, icache f = small_icache /\
    namex [47; 97; 47; 98; 0] false (name_of []) f =
      (ip ← iget ROOTDEV ROOTINO; walk [[97]; [98]] false (name_of []) ip) f.
Proof.
  exists (Fsys (power_on 7 []) small_sb false small_icache 0). split; [reflexivity|].
  apply (namex_walks_the_elements [] [(O, [97]); (O, [98])] 0 [] false (name_of [])).
  - by left.
  - repeat constructor; apply good_elem_dec; vm_compute; reflexivity.
Defined.
