(* ===== verification/Mkfs.v ===== *)
(** * The file system builder

    [lab-2/mkfs.c], the program that lays out the disk the kernel starts from.  The image
    is a list of sectors; a call of the host that fails, and an assertion that does, end the
    program, which is a [Panic] here.  [balloc] and [ialloc] are the builder's own, not those
    of [Fs]. *)

From S2P Require Import Prelude CString Bytes Bcache Log Ide Fs.

Definition NINODES : Z := 200.

(** The program runs on a little-endian host: an integer is stored byte by byte in the order
    of the disk, and what it reads as on the host is the result. *)
Definition xshort (x : Z) : Z := le_val [w8 x; w8 (Z.shiftr x 8)].
Definition xint (x : Z) : Z :=
  le_val [w8 x; w8 (Z.shiftr x 8); w8 (Z.shiftr x 16); w8 (Z.shiftr x 24)].

Definition nbitmap : Z := Z.of_nat FSSIZE / (Z.of_nat BSIZE * 8) + 1.
Definition ninodeblocks : Z := NINODES / IPB + 1.
Definition nlog : Z := Z.of_nat LOGSIZE.
Definition nmeta : Z := 2 + nlog + ninodeblocks + nbitmap.
Definition nblocks : Z := Z.of_nat FSSIZE - nmeta.

Definition zeroes : block := replicate BSIZE 0.

(** The host: whether the image can be created, and for a file that can be opened the
    pieces that its [read]s of a sector return, up to the end of the file.  Building the
    image does not change the other files. *)
Class Host := {
  host_create : list Z -> bool;
  host_pieces : list Z -> option (list (list Z))
}.

(** The file behind [fsfd], in sectors, and the global variables. *)
Record mkst := Mkst {
  img : list block;
  gsb : superblock;
  freeinode : Z;
  freeblock : Z
}.

Definition set_img v s := Mkst v (gsb s) (freeinode s) (freeblock s).
Definition set_gsb v s := Mkst (img s) v (freeinode s) (freeblock s).
Definition set_freeinode v s := Mkst (img s) (gsb s) v (freeblock s).
Definition set_freeblock v s := Mkst (img s) (gsb s) (freeinode s) v.

Abbreviation Mk := (M mkst).

(** ** Sectors *)

(** [sec * BSIZE] is an [uint]; [lseek] goes there, past the end of the file as well. *)
Definition sector_of (sec : Z) : nat := Z.to_nat (w32 (sec * Z.of_nat BSIZE) / Z.of_nat BSIZE).

(** A sector past the end leaves a hole that reads as zeros. *)
Definition wsect (sec : Z) (buf : block) : Mk unit :=
  modify (fun s =>
    let k := sector_of sec in
    let n := length (img s) in
    set_img (if (k <? n)%nat then <[k := buf]> (img s)
             else img s ++ replicate (k - n) zeroes ++ [buf]) s).

Definition rsect (sec : Z) : Mk block :=
  s ← get;
  match img s !! sector_of sec with
  | Some d => mret d
  | None => panic "read"
  end.

(** ** Inodes *)

Definition winode (inum : Z) (ip : dinode) : Mk unit :=
  sb ← gets gsb;
  let bn := inum / IPB + sb_inodestart sb in
  buf ← rsect bn;
  buf ← lift_opt "dip" (put_dinode (Z.to_nat (inum mod IPB)) ip buf);
  wsect bn buf.

Definition rinode (inum : Z) : Mk dinode :=
  sb ← gets gsb;
  buf ← rsect (inum / IPB + sb_inodestart sb);
  lift_opt "dip" (get_dinode (Z.to_nat (inum mod IPB)) buf).

Definition ialloc (type : Z) : Mk Z :=
  inum ← gets freeinode;
  modify (set_freeinode (w32 (inum + 1))) ;;
  winode inum (Dinode (i16 (xshort type)) 0 0 (i16 (xshort 1)) (xint 0) (replicate 13 0)) ;;
  mret inum.

(** The loop of [balloc]. *)
Fixpoint mark_bits (ks : list nat) (buf : block) : option block :=
  match ks with
  | [] => Some buf
  | i :: ks' => buf ← set_bit buf (Z.of_nat i); mark_bits ks' buf
  end.

Definition balloc (used : Z) : Mk unit :=
  if used <? Z.of_nat BSIZE * 8 then
    buf ← lift_opt "buf" (mark_bits (seq 0 (Z.to_nat used)) (replicate BSIZE 0));
    sb ← gets gsb;
    wsect (sb_bmapstart sb) buf
  else panic "assert".

(** ** Appending *)

(** [freeblock++]. *)
Definition new_block : Mk Z :=
  b ← gets freeblock; modify (set_freeblock (w32 (b + 1))) ;; mret b.

Definition din_addr (k : nat) (din : dinode) : Mk Z := lift_opt "din.addrs" (d_addrs din !! k).
Definition set_din_addr (k : nat) (v : Z) (din : dinode) : dinode :=
  Dinode (d_type din) (d_major din) (d_minor din) (d_nlink din) (d_size din)
    (<[k := v]> (d_addrs din)).
Definition set_din_size (v : Z) (din : dinode) : dinode :=
  Dinode (d_type din) (d_major din) (d_minor din) (d_nlink din) v (d_addrs din).

(** The sector of the block [fbn] of the file, and the inode with it. *)
Definition file_block (fbn : Z) (din : dinode) : Mk (dinode * Z) :=
  if fbn <? Z.of_nat NDIRECT then
    let k := Z.to_nat fbn in
    a ← din_addr k din;
    din ← (if xint a =? 0 then b ← new_block; mret (set_din_addr k (xint b) din) else mret din);
    a ← din_addr k din;
    mret (din, xint a)
  else
    a ← din_addr NDIRECT din;
    din ← (if xint a =? 0 then b ← new_block; mret (set_din_addr NDIRECT (xint b) din)
           else mret din);
    a ← din_addr NDIRECT din;
    indirect ← rsect (xint a);
    let k := Z.to_nat (fbn - Z.of_nat NDIRECT) in
    v ← lift_opt "indirect" (get_uint k indirect);
    indirect ← (if v =? 0 then
                  b ← new_block;
                  indirect ← lift_opt "indirect" (put_int k (xint b) indirect);
                  wsect (xint a) indirect ;;
                  mret indirect
                else mret indirect);
    v ← lift_opt "indirect" (get_uint k indirect);
    mret (din, xint v).

(** The loop of [iappend]; each round takes a byte at least, so that [n] and one round more
    are enough.  Returns [off] and the inode. *)
Fixpoint iappend_loop (fuel : nat) (p : list Z) (off n : Z) (din : dinode) : Mk (Z * dinode) :=
  match fuel with
  | O => diverge
  | S fuel' =>
      if 0 <? n then
        let fbn := off / 512 in
        if MAXFILE <=? fbn then panic "assert"
        else
          '(din, x) ← file_block fbn din;
          let n1 := Z.min n ((fbn + 1) * 512 - off) in
          buf ← rsect x;
          l ← lift_opt "p" (bytes_at p 0 n1);
          wsect x (splice (Z.to_nat (off - fbn * 512)) l buf) ;;
          iappend_loop fuel' (drop (Z.to_nat n1) p) (w32 (off + n1)) (n - n1) din
      else mret (off, din)
  end.

Definition iappend (inum : Z) (xp : list Z) (n : Z) : Mk unit :=
  din ← rinode inum;
  '(off, din) ← iappend_loop (S (Z.to_nat n)) xp (xint (d_size din)) n din;
  winode inum (set_din_size (xint off) din).

(** ** main *)

Definition write_super : Mk unit :=
  modify (set_gsb (Superblock (xint (Z.of_nat FSSIZE)) (xint nblocks) (xint NINODES) (xint nlog)
    (xint 2) (xint (2 + nlog)) (xint (2 + nlog + ninodeblocks)))) ;;
  modify (set_freeblock nmeta) ;;
  for_each (seq 0 FSSIZE) (fun i => wsect (Z.of_nat i) zeroes) ;;
  sb ← gets gsb;
  buf ← lift_opt "buf" (put_words 0 [sb_size sb; sb_nblocks sb; sb_ninodes sb; sb_nlog sb;
    sb_logstart sb; sb_inodestart sb; sb_bmapstart sb] (replicate BSIZE 0));
  wsect 1 buf.

(** [strcpy] and [strncpy] into the zeroed [de.name]. *)
Definition de_bytes (inum : Z) (name : list Z) : list Z :=
  dirent_bytes (Dirent (xshort inum) (strncpy_bytes name DIRSIZ)).

Definition make_root : Mk Z :=
  rootino ← ialloc T_DIR;
  if negb (rootino =? ROOTINO) then panic "assert"
  else
    iappend rootino (de_bytes rootino [46]) 16 ;;
    iappend rootino (de_bytes rootino [46; 46]) 16 ;;
    mret rootino.

(** [while((cc = read(fd, buf, sizeof(buf))) > 0)]. *)
Fixpoint append_pieces (inum : Z) (pieces : list (list Z)) : Mk unit :=
  match pieces with
  | [] => mret tt
  | buf :: pieces' =>
      let cc := Z.of_nat (length buf) in
      if 0 <? cc then iappend inum buf cc ;; append_pieces inum pieces' else mret tt
  end.

(** Without the leading underscore. *)
Definition file_name (arg : list Z) : list Z :=
  match arg with
  | c :: name => if c =? 95 then name else arg
  | [] => []
  end.

Definition add_file `{Host} (rootino : Z) (arg : list Z) : Mk unit :=
  if existsb (Z.eqb slash) arg then panic "assert"
  else
    match host_pieces arg with
    | None => panic "open"
    | Some pieces =>
        inum ← ialloc T_FILE;
        iappend rootino (de_bytes inum (file_name arg)) 16 ;;
        append_pieces inum pieces
    end.

Definition fix_root_size (rootino : Z) : Mk unit :=
  din ← rinode rootino;
  let off := xint (d_size din) in
  let off := w32 ((off / 512 + 1) * 512) in
  winode rootino (set_din_size (xint off) din).

Definition main `{Host} (argv : list (list Z)) : Mk unit :=
  match argv with
  | _ :: image :: args =>
      if negb (host_create image) then panic "open"
      else
        write_super ;;
        rootino ← make_root;
        for_each args (add_file rootino) ;;
        fix_root_size rootino ;;
        used ← gets freeblock;
        balloc (i32 used)
  | _ => panic "usage"
  end.

(** The state the program starts in. *)
Definition mk_start : mkst := Mkst [] (Superblock 0 0 0 0 0 0 0) 1 0.
