(* ===== verification/MkfsSpec.v ===== *)
(** * Appending to files, for the builder

    Sectors, and a file under construction: the list of its blocks and
    its indirect block beside its bytes ([content_ok]); [grows] is what appending to it does
    to the rest of the disk.  [iappend_loop_run] is the specification of the loop of
    iappend. *)

From S2P Require Import Prelude CString Bytes Bcache Log Ide Fs FsBlocks FsContent FsDirs Mkfs.

(** ** The sectors *)

Lemma sector_small b : 0 <= b < 1000 -> sector_of b = Z.to_nat b.
Proof.
  intros Hb. unfold sector_of, BSIZE. rewrite w32_small by lia. f_equal. apply Z.div_mul. lia.
Qed.

Lemma block_of_small b : 0 <= b < 1000 -> block_of b = Z.to_nat b.
Proof. intros Hb. unfold block_of. by rewrite w32_small by lia. Qed.

Lemma xint_small x : is_w32 x -> xint x = x.
Proof.
  intros Hx. unfold xint. change [w8 x; w8 (Z.shiftr x 8); w8 (Z.shiftr x 16); w8 (Z.shiftr x 24)]
    with (map (fun k => w8 (Z.shiftr x k)) [0; 8; 16; 24]).
  replace (map (fun k => w8 (Z.shiftr x k)) [0; 8; 16; 24]) with (le_bytes 4 x).
  - rewrite le_val_bytes. by apply Z.mod_small.
  - cbn [le_bytes map]. rewrite !Z.shiftr_div_pow2, Z.pow_0_r, Z.div_1_r, !Zdiv.Zdiv_Zdiv by lia. done.
Qed.

Lemma xshort_small x : 0 <= x < 2 ^ 16 -> xshort x = x.
Proof.
  intros Hx. unfold xshort. replace [w8 x; w8 (Z.shiftr x 8)] with (le_bytes 2 x).
  - rewrite le_val_bytes. by apply Z.mod_small.
  - cbn [le_bytes]. by rewrite Z.shiftr_div_pow2 by lia.
Qed.

(** Every sector is there, and those that have not been given away are zero. *)
Record disk_ok (V : list block) (fb : Z) : Prop := DiskOk {
  dk_len : length V = FSSIZE;
  dk_blocks : Forall (fun d => length d = BSIZE) V;
  dk_fb : nmeta <= fb <= 1000;
  dk_free : forall b, fb <= b < 1000 -> V !! Z.to_nat b = Some zeroes
}.

Lemma disk_block V fb b :
  disk_ok V fb -> 0 <= b < 1000 -> exists d, V !! Z.to_nat b = Some d /\ length d = BSIZE.
Proof.
  intros [Hl Hb _ _] Hlt. destruct (lookup_lt_is_Some_2 V (Z.to_nat b)) as [d Hd].
  { rewrite Hl. unfold FSSIZE. lia. }
  exists d. split; [done|]. exact (Forall_lookup_1 _ _ _ _ Hb Hd).
Qed.

Lemma disk_insert V fb b d :
  disk_ok V fb -> 0 <= b < fb -> length d = BSIZE -> disk_ok (<[Z.to_nat b := d]> V) fb.
Proof.
  intros [Hl Hb Hfb Hfree] Hlt Hd. split; [by rewrite length_insert|by apply Forall_insert|done|].
  intros b' Hb'. rewrite list_lookup_insert_ne by lia. by apply Hfree.
Qed.

Lemma disk_take V fb : disk_ok V fb -> fb < 1000 -> disk_ok V (fb + 1).
Proof. intros [? ? ? Hfree] Hlt. split; [done..|lia|]. intros. apply Hfree. lia. Qed.

Lemma rsect_run s b d : 0 <= b < 1000 -> img s !! Z.to_nat b = Some d -> rsect b s = Ok (d, s).
Proof. intros Hb Hd. unfold rsect. mrun. rewrite sector_small by done. by rewrite Hd. Qed.

Lemma wsect_run s fb b d :
  disk_ok (img s) fb -> 0 <= b < 1000 -> wsect b d s = Ok (tt, set_img (<[Z.to_nat b := d]> (img s)) s).
Proof.
  intros Hd Hb. unfold wsect, modify. rewrite sector_small by done.
  rewrite (proj2 (Nat.ltb_lt _ _)); [done|]. rewrite (dk_len _ _ Hd). unfold FSSIZE. lia.
Qed.

Lemma new_block_run s :
  nmeta <= freeblock s <= 1000 -> new_block s = Ok (freeblock s, set_freeblock (freeblock s + 1) s).
Proof.
  intros H. unfold new_block. mrun. rewrite w32_small; [done|]. change nmeta with 59 in H. lia.
Qed.

(** ** Files under construction *)

(** The block [k] of the bytes [c]. *)
Definition piece (c : list Z) (k : nat) : block :=
  let l := drop (BSIZE * k) c in take BSIZE l ++ replicate (BSIZE - length l) 0.

Lemma piece_length c k : length (piece c k) = BSIZE.
Proof. unfold piece. rewrite length_app, length_take, length_replicate. lia. Qed.

Lemma piece_lookup c k j :
  (j < BSIZE)%nat -> piece c k !! j = Some (default 0 (c !! (BSIZE * k + j)%nat)).
Proof.
  intros Hj. unfold piece. set (l := drop (BSIZE * k) c).
  rewrite <- lookup_drop. fold l. destruct (decide (j < length l)%nat) as [Hl|Hl].
  - rewrite lookup_app_l by (rewrite length_take; lia). rewrite lookup_take_lt by done.
    by destruct (lookup_lt_is_Some_2 l j Hl) as [x ->].
  - rewrite lookup_app_r by (rewrite length_take; lia). rewrite length_take.
    rewrite lookup_replicate_2 by lia. by rewrite (lookup_ge_None_2 l) by lia.
Qed.

(** The bytes [c] are in the blocks [bl], which the addresses and the indirect block [ia]
    name, up to the end of the last block. *)
Record content_ok (V : list block) (addrs : list Z) (c : list Z) (bl : list Z) (ia : Z) : Prop := ContentOk {
  co_length : length addrs = S NDIRECT;
  co_direct : forall k, (k < NDIRECT)%nat -> addrs !! k = Some (default 0 (bl !! k));
  co_ia : addrs !! NDIRECT = Some ia;
  co_none : ia = 0 <-> (length bl <= NDIRECT)%nat;
  co_indirect : ia <> 0 -> exists d, V !! Z.to_nat ia = Some d /\
    forall k, (k < NINDIRECT)%nat -> get_uint k d = Some (default 0 (bl !! (NDIRECT + k)%nat));
  co_block : forall k a, bl !! k = Some a -> V !! Z.to_nat a = Some (piece c k);
  co_size : (length c <= BSIZE * length bl)%nat;
  co_max : (length bl <= NDIRECT + NINDIRECT)%nat
}.

(** Its blocks on the disk. *)
Definition own (bl : list Z) (ia : Z) : list Z := bl ++ if ia =? 0 then [] else [ia].

Definition owned (fb : Z) (l : list Z) : Prop := NoDup l /\ Forall (fun b => nmeta <= b < fb) l.

Lemma content_frame V V' addrs c bl ia :
  (forall b, b ∈ own bl ia -> V' !! Z.to_nat b = V !! Z.to_nat b) ->
  content_ok V addrs c bl ia -> content_ok V' addrs c bl ia.
Proof.
  unfold own. intros HV []. split; try done.
  - intros Hia. rewrite HV; [by apply co_indirect0|].
    rewrite (proj2 (Z.eqb_neq _ _) Hia). apply elem_of_app. right. by apply list_elem_of_singleton.
  - intros k a Ha. rewrite HV; [by apply co_block0|].
    apply elem_of_app. left. by eapply list_elem_of_lookup_2.
Qed.

(** What appending to a file that owns [l] does to the disk. *)
Record grows (V : list block) (fb : Z) (l : list Z) (V' : list block) (fb' : Z) (l' : list Z)
  : Prop := Grows {
  gr_fb : fb <= fb';
  gr_own : l' ≡ₚ l ++ seqZ fb (fb' - fb);
  gr_same : forall b, 0 <= b < fb -> b ∉ l -> V' !! Z.to_nat b = V !! Z.to_nat b
}.

Lemma grows_refl V fb l : grows V fb l V fb l.
Proof. split; [lia| |done]. by rewrite Z.sub_diag, app_nil_r. Qed.

Lemma grows_trans V fb l V1 fb1 l1 V2 fb2 l2 :
  grows V fb l V1 fb1 l1 -> grows V1 fb1 l1 V2 fb2 l2 -> grows V fb l V2 fb2 l2.
Proof.
  intros [F1 O1 S1] [F2 O2 S2]. split; [lia| |].
  - rewrite O2, O1, <- app_assoc.
    replace (fb2 - fb) with ((fb1 - fb) + (fb2 - fb1)) by lia. rewrite seqZ_app by lia.
    by replace (fb + (fb1 - fb)) with fb1 by lia.
  - intros b Hb Hl. rewrite S2; [by apply S1|lia|].
    rewrite O1. intros [?|Hin%elem_of_seqZ]%elem_of_app; [done|lia].
Qed.

(** Writing to one of its own blocks, and taking the next free one. *)
Lemma grows_write V fb l b d : b ∈ l -> 0 <= b -> grows V fb l (<[Z.to_nat b := d]> V) fb l.
Proof.
  intros Hb H0. split; [lia| |].
  - by rewrite Z.sub_diag, app_nil_r.
  - intros b' Hb' Hl. rewrite list_lookup_insert_ne; [done|]. intros He.
    assert (b = b') as -> by lia. done.
Qed.

Lemma grows_take V fb l l' : l' ≡ₚ l ++ [fb] -> grows V fb l V (fb + 1) l'.
Proof. intros Hl. split; [lia| |done]. rewrite Hl. by replace (fb + 1 - fb) with 1 by lia. Qed.

Lemma grows_owned V fb l V' fb' l' : nmeta <= fb -> grows V fb l V' fb' l' -> owned fb l -> owned fb' l'.
Proof.
  intros Hfb [F O _] [Hn Hl]. split.
  - rewrite O. apply NoDup_app. split_and!; [done| |apply NoDup_seqZ].
    intros b Hb Hs%elem_of_seqZ. rewrite Forall_forall in Hl. specialize (Hl b Hb). lia.
  - rewrite O. apply Forall_app. split.
    + eapply Forall_impl; [exact Hl|]. intros b Hb. cbn in Hb. lia.
    + apply Forall_forall. intros b Hb%elem_of_seqZ. lia.
Qed.

Lemma grows_length V fb l V' fb' l' :
  grows V fb l V' fb' l' -> fb' - Z.of_nat (length l') = fb - Z.of_nat (length l).
Proof. intros [F O _]. rewrite O, length_app, length_seqZ. lia. Qed.

(** The number of blocks of a file with [m] blocks of bytes. *)
Definition bcount (m : Z) : Z := m + if 12 <? m then 1 else 0.

Lemma bcount_mono m m' : m <= m' -> bcount m <= bcount m'.
Proof. unfold bcount. destruct (Z.ltb_spec 12 m), (Z.ltb_spec 12 m'); lia. Qed.

Lemma bcount_room fb m :
  fb - bcount m + bcount (m + 1) <= 1000 -> fb < 1000 /\ (m = 12 -> fb + 1 < 1000).
Proof. unfold bcount. destruct (Z.ltb_spec 12 m), (Z.ltb_spec 12 (m + 1)); lia. Qed.

Lemma own_length V addrs c bl ia :
  content_ok V addrs c bl ia -> Z.of_nat (length (own bl ia)) = bcount (Z.of_nat (length bl)).
Proof.
  intros H. pose proof (co_none _ _ _ _ _ H) as Hn. unfold NDIRECT in Hn. unfold own, bcount.
  rewrite length_app. destruct (Z.eqb_spec ia 0), (Z.ltb_spec 12 (Z.of_nat (length bl))); cbn [length]; lia.
Qed.

Lemma own_bl V addrs c bl ia fb k a :
  content_ok V addrs c bl ia -> owned fb (own bl ia) -> bl !! k = Some a ->
  a ∈ own bl ia /\ nmeta <= a < fb.
Proof.
  intros H [_ Ho] Ha. assert (a ∈ own bl ia) as Hin.
  { apply elem_of_app. left. by eapply list_elem_of_lookup_2. }
  split; [done|]. rewrite Forall_forall in Ho. exact (Ho a Hin).
Qed.

Lemma own_ia V addrs c bl ia fb :
  content_ok V addrs c bl ia -> owned fb (own bl ia) -> ia <> 0 ->
  ia ∈ own bl ia /\ nmeta <= ia < fb.
Proof.
  intros H [_ Ho] Hia. assert (ia ∈ own bl ia) as Hin.
  { unfold own. rewrite (proj2 (Z.eqb_neq _ _) Hia). apply elem_of_app. right.
    by apply list_elem_of_singleton. }
  split; [done|]. rewrite Forall_forall in Ho. exact (Ho ia Hin).
Qed.

Lemma piece_end c k : (length c <= BSIZE * k)%nat -> piece c k = zeroes.
Proof.
  intros H. unfold piece. by rewrite drop_ge, take_nil, Nat.sub_0_r by done.
Qed.

(** A further block, among the twelve direct ones. *)
Lemma content_direct V fb addrs c bl :
  content_ok V addrs c bl 0 -> (length bl < NDIRECT)%nat -> V !! Z.to_nat fb = Some zeroes ->
  content_ok V (<[length bl := fb]> addrs) c (bl ++ [fb]) 0.
Proof.
  intros [] Hlt Hfb. unfold NDIRECT, NINDIRECT in *. split; unfold NDIRECT, NINDIRECT.
  - by rewrite length_insert.
  - intros k Hk. destruct (decide (k = length bl)) as [->|Hne].
    + rewrite list_lookup_insert_eq by lia. by rewrite list_lookup_middle.
    + rewrite list_lookup_insert_ne, co_direct0 by done.
      destruct (decide (k < length bl)%nat); [by rewrite lookup_app_l|].
      rewrite !lookup_ge_None_2; [done|rewrite length_app; cbn; lia|lia].
  - rewrite list_lookup_insert_ne by lia. done.
  - split; [|done]. intros _. rewrite length_app. cbn. lia.
  - done.
  - intros k a [Ha|[Hk Ha]]%lookup_app_Some; [by apply co_block0|].
    destruct (k - length bl)%nat as [|] eqn:Hd; [|done]. cbn in Ha. apply (inj Some) in Ha as <-.
    rewrite Hfb. f_equal. symmetry. apply piece_end. unfold BSIZE in *. lia.
  - rewrite length_app. cbn [length]. unfold BSIZE in *. lia.
  - rewrite length_app. cbn [length]. lia.
Qed.

(** One that the indirect block names. *)
Lemma content_indirect V V' fb addrs c bl ia ia' d d' :
  content_ok V addrs c bl ia -> (NDIRECT <= length bl < NDIRECT + NINDIRECT)%nat ->
  ia' <> 0 -> is_w32 fb -> V' !! Z.to_nat ia' = Some d' ->
  (forall k, (k < NINDIRECT)%nat -> get_uint k d = Some (default 0 (bl !! (NDIRECT + k)%nat))) ->
  put_int (length bl - NDIRECT) fb d = Some d' ->
  (forall k a, bl !! k = Some a -> V' !! Z.to_nat a = V !! Z.to_nat a) ->
  V' !! Z.to_nat fb = Some zeroes ->
  content_ok V' (<[NDIRECT := ia']> addrs) c (bl ++ [fb]) ia'.
Proof.
  intros [] Hlen Hia Hw HV Hd Hput HV' Hfb. unfold NDIRECT, NINDIRECT in *.
  split; unfold NDIRECT, NINDIRECT.
  - by rewrite length_insert.
  - intros k Hk. rewrite list_lookup_insert_ne by lia. rewrite co_direct0 by done.
    by rewrite lookup_app_l by lia.
  - rewrite list_lookup_insert_eq by lia. done.
  - rewrite length_app. cbn. split; [done|lia].
  - intros _. exists d'. split; [done|]. intros k Hk. specialize (Hd k Hk).
    unfold get_uint, put_int in *. destruct (decide (k = length bl - 12)%nat) as [->|Hne].
    + rewrite (get_put_eq _ _ _ _ _ Hput).
      rewrite list_lookup_middle by lia. cbn. f_equal. by apply Z.mod_small.
    + rewrite (get_put_ne _ _ _ _ _ _ _ Hput) by lia. rewrite Hd. do 2 f_equal.
      destruct (decide (12 + k < length bl)%nat); [by rewrite lookup_app_l|].
      rewrite !lookup_ge_None_2; [done|rewrite length_app; cbn; lia|lia].
  - intros k a [Ha|[Hk Ha]]%lookup_app_Some.
    { rewrite (HV' k a Ha). by apply co_block0. }
    destruct (k - length bl)%nat as [|] eqn:Hdk; [|done]. cbn in Ha. apply (inj Some) in Ha as <-.
    rewrite Hfb. f_equal. symmetry. apply piece_end. unfold BSIZE in *. lia.
  - rewrite length_app. cbn [length]. unfold BSIZE in *. lia.
  - rewrite length_app. cbn [length]. lia.
Qed.

(** A step that leaves the other globals as they are, on the file that owns [l]. *)
Record step (s : mkst) (l : list Z) (s' : mkst) (l' : list Z) : Prop := Step {
  sp_sb : gsb s' = gsb s;
  sp_inode : freeinode s' = freeinode s;
  sp_disk : disk_ok (img s') (freeblock s');
  sp_grows : grows (img s) (freeblock s) l (img s') (freeblock s') l'
}.

Lemma step_trans s l s1 l1 s2 l2 : step s l s1 l1 -> step s1 l1 s2 l2 -> step s l s2 l2.
Proof. intros [] []. split; [congruence..|done|]. by eapply grows_trans. Qed.

Lemma step_refl s l : disk_ok (img s) (freeblock s) -> step s l s l.
Proof. intros H. split; try done. apply grows_refl. Qed.

Lemma step_write s l b d :
  disk_ok (img s) (freeblock s) -> b ∈ l -> 0 <= b < freeblock s -> length d = BSIZE ->
  step s l (set_img (<[Z.to_nat b := d]> (img s)) s) l.
Proof.
  intros H Hb Hlt Hd. split; try done; cbn; [by apply disk_insert|apply grows_write; [done|lia]].
Qed.

Lemma step_take s l l' :
  disk_ok (img s) (freeblock s) -> freeblock s < 1000 -> l' ≡ₚ l ++ [freeblock s] ->
  step s l (set_freeblock (freeblock s + 1) s) l'.
Proof. intros H Hlt Hl. split; try done; cbn; [by apply disk_take|by apply grows_take]. Qed.

Section FileBlock.
Context (ty mj mn nl sz : Z) (s : mkst) (addrs c bl : list Z) (ia : Z).
Abbreviation din a := (Dinode ty mj mn nl sz a).
Hypothesis Hdisk : disk_ok (img s) (freeblock s).
Hypothesis Hco : content_ok (img s) addrs c bl ia.
Hypothesis Hown : owned (freeblock s) (own bl ia).

Lemma block_addr_small k a : bl !! k = Some a -> 0 < a < 1000 /\ is_w32 a.
Proof using All.
  intros Ha. destruct (own_bl _ _ _ _ _ _ _ _ Hco Hown Ha) as [_ H].
  pose proof (dk_fb _ _ Hdisk). change nmeta with 59 in *. unfold is_w32. lia.
Qed.

Lemma ia_small : ia <> 0 -> 0 < ia < 1000 /\ is_w32 ia.
Proof using All.
  intros Hia. destruct (own_ia _ _ _ _ _ _ Hco Hown Hia) as [_ H].
  pose proof (dk_fb _ _ Hdisk). change nmeta with 59 in *. unfold is_w32. lia.
Qed.

Lemma fb_small : 0 < freeblock s <= 1000 /\ is_w32 (freeblock s).
Proof using Hdisk. pose proof (dk_fb _ _ Hdisk). change nmeta with 59 in *. unfold is_w32. lia. Qed.

(** The block is there. *)
Lemma file_block_old k a :
  bl !! k = Some a -> file_block (Z.of_nat k) (din addrs) s = Ok ((din addrs, a), s).
Proof using All.
  intros Ha. destruct (block_addr_small k a Ha) as [Hs Hw].
  pose proof (lookup_lt_Some _ _ _ Ha) as Hk. pose proof (co_max _ _ _ _ _ Hco) as Hmax.
  unfold file_block. destruct (Z.ltb_spec (Z.of_nat k) (Z.of_nat NDIRECT)) as [Hd|Hd].
  - rewrite Nat2Z.id. unfold din_addr. cbn [d_addrs].
    rewrite (co_direct _ _ _ _ _ Hco) by lia. rewrite Ha. cbn [default from_option]. unfold id. mrun.
    rewrite !xint_small by done. rewrite (proj2 (Z.eqb_neq a 0)) by lia. mrun. cbn [d_addrs].
    rewrite (co_direct _ _ _ _ _ Hco) by lia. rewrite Ha. cbn [default from_option]. unfold id. mrun.
    by rewrite xint_small.
  - pose proof (co_none _ _ _ _ _ Hco) as Hnone. assert (ia <> 0) as Hia by lia.
    destruct (ia_small Hia) as [Hsi Hwi].
    unfold din_addr. cbn [d_addrs]. rewrite (co_ia _ _ _ _ _ Hco). mrun. rewrite xint_small by done.
    rewrite (proj2 (Z.eqb_neq ia 0)) by done. mrun. cbn [d_addrs]. rewrite (co_ia _ _ _ _ _ Hco). mrun.
    destruct (co_indirect _ _ _ _ _ Hco Hia) as (d & HV & Hwords).
    rewrite xint_small by done. rewrite (bind_ok _ _ _ _ _ (rsect_run s ia d ltac:(lia) HV)).
    rewrite Hwords by lia.
    replace (NDIRECT + Z.to_nat (Z.of_nat k - Z.of_nat NDIRECT))%nat with k by lia. rewrite Ha.
    cbn [default from_option]. unfold id. mrun. rewrite (proj2 (Z.eqb_neq a 0)) by lia. mrun.
    rewrite Hwords by lia.
    replace (NDIRECT + Z.to_nat (Z.of_nat k - Z.of_nat NDIRECT))%nat with k by lia. rewrite Ha.
    cbn [default from_option]. unfold id. mrun. by rewrite xint_small.
Qed.
(** The next one is taken, direct. *)
Lemma file_block_direct :
  (length bl < NDIRECT)%nat -> freeblock s < 1000 ->
  exists s' addrs', file_block (Z.of_nat (length bl)) (din addrs) s =
      Ok ((din addrs', freeblock s), s') /\
    step s (own bl ia) s' (own (bl ++ [freeblock s]) 0) /\
    content_ok (img s') addrs' c (bl ++ [freeblock s]) 0.
Proof using All.
  intros Hlt Hroom. pose proof fb_small as [Hs Hw].
  assert (ia = 0) as -> by (apply (co_none _ _ _ _ _ Hco); lia).
  exists (set_freeblock (freeblock s + 1) s), (<[length bl := freeblock s]> addrs).
  split_and!.
  - unfold file_block. rewrite (proj2 (Z.ltb_lt _ _)) by lia. rewrite Nat2Z.id.
    unfold din_addr. cbn [d_addrs]. rewrite (co_direct _ _ _ _ _ Hco) by lia.
    rewrite (lookup_ge_None_2 bl) by lia. cbn [default from_option]. mrun.
    rewrite (xint_small 0) by (unfold is_w32; lia). rewrite Z.eqb_refl. mrun.
    rewrite (bind_ok _ _ _ _ _ (new_block_run s (dk_fb _ _ Hdisk))). mrun. cbn [set_din_addr d_addrs].
    rewrite list_lookup_insert_eq by (rewrite (co_length _ _ _ _ _ Hco); lia).
    mrun. by rewrite !xint_small by (rewrite ?xint_small by done; done).
  - apply step_take; [done..|]. unfold own. by rewrite !app_nil_r.
  - cbn [img set_freeblock]. apply content_direct; [done..|]. apply (dk_free _ _ Hdisk). lia.
Qed.

(** The next one is taken, through the indirect block [d] at [ia'], which is there. *)
Lemma file_block_indirect s1 ia' d :
  (NDIRECT <= length bl < NDIRECT + NINDIRECT)%nat ->
  step s (own bl ia) s1 (own bl ia') -> freeblock s1 < 1000 -> ia' <> 0 ->
  img s1 !! Z.to_nat ia' = Some d -> length d = BSIZE -> ia' ∈ own bl ia' -> 0 < ia' < freeblock s1 ->
  (forall k, (k < NINDIRECT)%nat -> get_uint k d = Some (default 0 (bl !! (NDIRECT + k)%nat))) ->
  (forall k a, bl !! k = Some a -> a <> ia' /\ img s1 !! Z.to_nat a = img s !! Z.to_nat a) ->
  exists s' d', step s (own bl ia) s' (own (bl ++ [freeblock s1]) ia') /\
    content_ok (img s') (<[NDIRECT := ia']> addrs) c (bl ++ [freeblock s1]) ia' /\
    (b ← new_block;
     indirect ← lift_opt "indirect" (put_int (length bl - NDIRECT) (xint b) d);
     wsect ia' indirect ;; mret indirect) s1 = Ok (d', s') /\
    get_uint (length bl - NDIRECT) d' = Some (freeblock s1).
Proof using All.
  intros Hlen Hstep Hroom Hia Hd Hld Hin Hsi Hwords Hbl.
  pose proof (sp_disk _ _ _ _ Hstep) as Hdisk1. pose proof (dk_fb _ _ Hdisk1) as Hfb.
  assert (is_w32 (freeblock s1) /\ 0 < freeblock s1) as [Hw Hpos].
  { change nmeta with 59 in Hfb. unfold is_w32. lia. }
  destruct (put_le_some 4 (4 * (length bl - NDIRECT)) (freeblock s1) d) as [d' Hput].
  { rewrite Hld. unfold NDIRECT, NINDIRECT, BSIZE in *. lia. }
  pose proof (put_le_length _ _ _ _ _ Hput) as Ld.
  set (s2 := set_freeblock (freeblock s1 + 1) s1).
  assert (step s1 (own bl ia') s2 (own (bl ++ [freeblock s1]) ia')) as Hstep2.
  { apply step_take; [done..|]. unfold own. rewrite <- !app_assoc. by rewrite (Permutation_app_comm [_]). }
  exists (set_img (<[Z.to_nat ia' := d']> (img s2)) s2), d'. split_and!.
  - eapply step_trans; [exact Hstep|]. eapply step_trans; [exact Hstep2|].
    apply step_write; [apply Hstep2| |unfold s2; cbn; lia|by rewrite Ld].
    destruct (sp_grows _ _ _ _ Hstep2) as [_ O _]. rewrite O. apply elem_of_app. by left.
  - cbn [img set_img]. eapply content_indirect; [exact Hco|done..| |exact Hwords|exact Hput| |].
    + apply list_lookup_insert_eq. cbn. rewrite (dk_len _ _ Hdisk1). unfold FSSIZE. lia.
    + intros k a Ha. destruct (Hbl k a Ha) as [Hne HV]. rewrite <- HV.
      destruct (block_addr_small k a Ha). rewrite list_lookup_insert_ne by lia. done.
    + rewrite list_lookup_insert_ne by lia. apply (dk_free _ _ Hdisk1). lia.
  - rewrite (bind_ok _ _ _ _ _ (new_block_run s1 Hfb)). rewrite xint_small by done.
    unfold put_int. rewrite Hput. mrun.
    rewrite (bind_ok _ _ _ _ _ (wsect_run s2 (freeblock s2) ia' d' (sp_disk _ _ _ _ Hstep2)
      ltac:(lia))). done.
  - unfold get_uint. rewrite (get_put_eq _ _ _ _ _ Hput). f_equal. by apply Z.mod_small.
Qed.
Lemma zero_words k : (k < NINDIRECT)%nat -> get_uint k zeroes = Some 0.
Proof using.
  intros Hk. assert (forallb (fun k => bool_decide (get_uint k zeroes = Some 0)) (seq 0 NINDIRECT) = true)
    as Hall by (vm_compute; reflexivity).
  rewrite forallb_forall in Hall. specialize (Hall k ltac:(apply in_seq; lia)).
  by apply bool_decide_eq_true in Hall.
Qed.

(** The block after the last one through the indirect block, which is there. *)
Lemma file_block_old_indirect :
  (NDIRECT < length bl < NDIRECT + NINDIRECT)%nat -> freeblock s < 1000 ->
  exists s' addrs', file_block (Z.of_nat (length bl)) (din addrs) s =
      Ok ((din addrs', freeblock s), s') /\
    step s (own bl ia) s' (own (bl ++ [freeblock s]) ia) /\
    content_ok (img s') addrs' c (bl ++ [freeblock s]) ia.
Proof using All.
  intros Hlen Hroom. pose proof fb_small as [Hs Hw]. pose proof (co_none _ _ _ _ _ Hco) as Hnone.
  assert (ia <> 0) as Hia by lia. destruct (ia_small Hia) as [Hsi Hwi].
  destruct (co_indirect _ _ _ _ _ Hco Hia) as (d & HV & Hwords).
  destruct (own_ia _ _ _ _ _ _ Hco Hown Hia) as [Hin Hia2]. change nmeta with 59 in Hia2.
  destruct (disk_block _ _ ia Hdisk ltac:(lia)) as (d0 & HV0 & Hld). rewrite HV in HV0.
  apply (inj Some) in HV0 as <-.
  destruct (file_block_indirect s ia d) as (s' & d' & Hstep & Hc & Hrun & Hnew); try done; try lia.
  { by apply step_refl. }
  { intros k a Ha. split; [|done]. intros ->. destruct Hown as [Hnd _]. unfold own in Hnd.
    rewrite (proj2 (Z.eqb_neq _ _) Hia) in Hnd. apply NoDup_app in Hnd as (_ & Hnd & _).
    apply (Hnd ia); [by eapply list_elem_of_lookup_2|by apply list_elem_of_singleton]. }
  exists s', (<[NDIRECT := ia]> addrs). split_and!; [|done..].
  assert (<[NDIRECT := ia]> addrs = addrs) as Haddrs by (apply list_insert_id, (co_ia _ _ _ _ _ Hco)).
  rewrite Haddrs in *. unfold file_block. rewrite (proj2 (Z.ltb_ge _ _)) by lia. unfold din_addr.
  cbn [d_addrs]. rewrite (co_ia _ _ _ _ _ Hco). mrun. rewrite (xint_small ia) by done.
  rewrite (proj2 (Z.eqb_neq ia 0)) by done. mrun. cbn [d_addrs]. rewrite (co_ia _ _ _ _ _ Hco). mrun.
  rewrite (xint_small ia) by done. rewrite (bind_ok _ _ _ _ _ (rsect_run s ia d ltac:(lia) HV)).
  replace (Z.to_nat (Z.of_nat (length bl) - Z.of_nat NDIRECT)) with (length bl - NDIRECT)%nat by lia.
  rewrite Hwords by lia. rewrite (lookup_ge_None_2 bl) by lia. cbn [default from_option].
  mrun. rewrite Z.eqb_refl, (bind_ok _ _ _ _ _ Hrun). rewrite Hnew. mrun. by rewrite xint_small.
Qed.

(** The thirteenth, for which the indirect block is taken first. *)
Lemma file_block_new_indirect :
  length bl = NDIRECT -> freeblock s + 1 < 1000 ->
  exists s' addrs', file_block (Z.of_nat (length bl)) (din addrs) s =
      Ok ((din addrs', freeblock s + 1), s') /\
    step s (own bl ia) s' (own (bl ++ [freeblock s + 1]) (freeblock s)) /\
    content_ok (img s') addrs' c (bl ++ [freeblock s + 1]) (freeblock s).
Proof using All.
  intros Hlen Hroom. pose proof fb_small as [Hs Hw]. pose proof (co_none _ _ _ _ _ Hco) as Hnone.
  assert (ia = 0) as Hia by lia. set (s1 := set_freeblock (freeblock s + 1) s).
  assert (step s (own bl ia) s1 (own bl (freeblock s))) as Hstep1.
  { apply step_take; [done|lia|]. unfold own. rewrite Hia, (proj2 (Z.eqb_neq (freeblock s) 0)) by lia.
    by rewrite app_nil_r. }
  destruct (file_block_indirect s1 (freeblock s) zeroes) as (s' & d' & Hstep & Hc & Hrun & Hnew);
    unfold s1 in *; cbn [img freeblock set_freeblock]; try done; try (unfold NINDIRECT; lia).
  { apply (dk_free _ _ Hdisk). lia. }
  { unfold own. rewrite (proj2 (Z.eqb_neq (freeblock s) 0)) by lia. apply elem_of_app. right.
    by apply list_elem_of_singleton. }
  { intros k Hk. rewrite (lookup_ge_None_2 bl) by lia. by apply zero_words. }
  { intros k a Ha. split; [|done]. destruct (own_bl _ _ _ _ _ _ _ _ Hco Hown Ha) as [_ H]. lia. }
  exists s', (<[NDIRECT := freeblock s]> addrs). split_and!; [|done..].
  unfold file_block. rewrite (proj2 (Z.ltb_ge _ _)) by lia. unfold din_addr. cbn [d_addrs].
  rewrite (co_ia _ _ _ _ _ Hco). mrun. rewrite Hia. rewrite (xint_small 0) by (unfold is_w32; lia).
  rewrite Z.eqb_refl. mrun. rewrite (bind_ok _ _ _ _ _ (new_block_run s (dk_fb _ _ Hdisk))). mrun.
  cbn [set_din_addr d_addrs d_type d_major d_minor d_nlink d_size].
  rewrite list_lookup_insert_eq by (rewrite (co_length _ _ _ _ _ Hco); lia). mrun.
  rewrite !(xint_small (freeblock s)) by done.
  rewrite (bind_ok _ _ _ _ _ (rsect_run (set_freeblock (freeblock s + 1) s) (freeblock s) zeroes
    ltac:(lia) (dk_free _ _ Hdisk (freeblock s) ltac:(lia)))).
  replace (Z.to_nat (Z.of_nat (length bl) - Z.of_nat NDIRECT)) with (length bl - NDIRECT)%nat by lia.
  rewrite zero_words by (unfold NINDIRECT; lia). mrun. rewrite Z.eqb_refl, (bind_ok _ _ _ _ _ Hrun).
  rewrite Hnew. mrun. rewrite xint_small; [done|]. unfold is_w32 in *. cbn. lia.
Qed.

(** Any block up to the next one. *)
Lemma file_block_run k :
  (k <= length bl)%nat -> (k < NDIRECT + NINDIRECT)%nat ->
  freeblock s - Z.of_nat (length (own bl ia)) + bcount (Z.of_nat (S k)) <= 1000 ->
  exists s' addrs' bl' ia' x, file_block (Z.of_nat k) (din addrs) s = Ok ((din addrs', x), s') /\
    step s (own bl ia) s' (own bl' ia') /\ content_ok (img s') addrs' c bl' ia' /\
    length bl' = Nat.max (length bl) (S k) /\ bl' !! k = Some x.
Proof using All.
  intros Hk Hmax Hroom. rewrite (own_length _ _ _ _ _ Hco) in Hroom.
  destruct (decide (k < length bl)%nat) as [Hlt|Hge].
  - destruct (lookup_lt_is_Some_2 bl k Hlt) as [a Ha]. exists s, addrs, bl, ia, a.
    split_and!; [by apply file_block_old|by apply step_refl|done|lia|done].
  - assert (k = length bl) as -> by lia. rewrite Nat2Z.inj_succ in Hroom.
    apply bcount_room in Hroom as [Hr Hr12].
    destruct (decide (length bl < NDIRECT)%nat) as [Hd|Hd].
    { destruct file_block_direct as (s' & addrs' & R & Hs & Hc); [done..|].
      eexists s', addrs', _, 0, _. split_and!; [exact R|exact Hs|exact Hc| |].
      - rewrite length_app. cbn [length]. lia.
      - by rewrite list_lookup_middle. }
    destruct (decide (length bl = NDIRECT)) as [He|He].
    { destruct file_block_new_indirect as (s' & addrs' & R & Hs & Hc);
        [done|apply Hr12; unfold NDIRECT in He; lia|].
      eexists s', addrs', _, _, _. split_and!; [exact R|exact Hs|exact Hc| |].
      - rewrite length_app. cbn [length]. lia.
      - by rewrite list_lookup_middle. }
    destruct file_block_old_indirect as (s' & addrs' & R & Hs & Hc); [lia|done|].
    eexists s', addrs', _, _, _. split_and!; [exact R|exact Hs|exact Hc| |].
    + rewrite length_app. cbn [length]. lia.
    + by rewrite list_lookup_middle.
Qed.
End FileBlock.

(** ** Appending *)

Lemma piece_app_old c l k : (BSIZE * S k <= length c)%nat -> piece (c ++ l) k = piece c k.
Proof.
  intros H. apply list_eq. intros j. destruct (decide (j < BSIZE)%nat) as [Hj|Hj].
  - rewrite !piece_lookup by done. rewrite lookup_app_l by lia. done.
  - by rewrite !lookup_ge_None_2 by (rewrite piece_length; lia).
Qed.

Lemma piece_app_last c l k :
  (BSIZE * k <= length c)%nat -> (length c + length l <= BSIZE * S k)%nat ->
  piece (c ++ l) k = splice (length c - BSIZE * k) l (piece c k).
Proof.
  intros Hlo Hhi. apply list_eq. intros j.
  assert (length c - BSIZE * k + length l <= length (piece c k))%nat as Hfit.
  { rewrite piece_length. lia. }
  destruct (decide (j < BSIZE)%nat) as [Hj|Hj]; last first.
  { rewrite !lookup_ge_None_2; [done|rewrite splice_length by done; rewrite piece_length; lia|
      rewrite piece_length; lia]. }
  rewrite piece_lookup by done.
  destruct (decide (BSIZE * k + j < length c)%nat) as [Hc|Hc].
  { rewrite splice_lookup_out by lia. rewrite piece_lookup by done. by rewrite lookup_app_l by done. }
  rewrite lookup_app_r by lia.
  destruct (decide (BSIZE * k + j < length c + length l)%nat) as [Hl|Hl].
  - replace j with (length c - BSIZE * k + (BSIZE * k + j - length c))%nat at 2 by lia.
    rewrite splice_lookup_in by lia.
    by destruct (lookup_lt_is_Some_2 l (BSIZE * k + j - length c)%nat) as [x ->]; [lia|].
  - rewrite splice_lookup_out by lia. rewrite piece_lookup by done.
    rewrite !lookup_ge_None_2 by lia. done.
Qed.

Lemma content_write V addrs c bl ia k x l fb :
  content_ok V addrs c bl ia -> owned fb (own bl ia) -> length bl = S k -> bl !! k = Some x ->
  (BSIZE * k <= length c)%nat -> (length c + length l <= BSIZE * S k)%nat -> (Z.to_nat x < length V)%nat ->
  content_ok (<[Z.to_nat x := splice (length c - BSIZE * k) l (piece c k)]> V) addrs (c ++ l) bl ia.
Proof.
  intros Hco Hown Hlen Hx Hlo Hhi HxV. pose proof (own_bl _ _ _ _ _ _ _ _ Hco Hown Hx) as [_ Hxr].
  change nmeta with 59 in Hxr. pose proof (proj1 Hown) as Hnd. pose proof Hco as [].
  split; try done.
  - intros Hia. rewrite list_lookup_insert_ne; [by apply co_indirect0|].
    destruct (own_ia _ _ _ _ _ _ Hco Hown Hia) as [_ Hir]. change nmeta with 59 in Hir. intros He.
    assert (x = ia) as -> by lia. unfold own in Hnd. rewrite (proj2 (Z.eqb_neq _ _) Hia) in Hnd.
    apply NoDup_app in Hnd as (_ & Hnd & _).
    apply (Hnd ia); [by eapply list_elem_of_lookup_2|by apply list_elem_of_singleton].
  - intros j a Ha. destruct (own_bl _ _ _ _ _ _ _ _ Hco Hown Ha) as [_ Har]. change nmeta with 59 in Har.
    pose proof (lookup_lt_Some _ _ _ Ha) as Hj. destruct (decide (j = k)) as [->|Hne].
    + rewrite Hx in Ha. apply (inj Some) in Ha as <-. rewrite list_lookup_insert_eq by done.
      by rewrite piece_app_last.
    + rewrite list_lookup_insert_ne.
      * rewrite piece_app_old; [by apply co_block0|]. unfold BSIZE in *. lia.
      * intros He. assert (x = a) as -> by lia. apply Hne. symmetry.
        apply NoDup_app in Hnd as (Hnd & _). eapply NoDup_lookup; done.
  - rewrite length_app, Hlen. lia.
Qed.

(** The blocks of [n] bytes. *)
Definition nbl (n : Z) : Z := (n + 511) / 512.

Lemma nbl_mono n m : n <= m -> nbl n <= nbl m.
Proof. intros H. unfold nbl. apply Z.div_le_mono; lia. Qed.

Lemma nbl_unique n k : 512 * k < n <= 512 * (k + 1) -> nbl n = k + 1.
Proof. intros H. unfold nbl. symmetry. apply (Z.div_unique _ _ _ (n - 512 * k - 1)); lia. Qed.

Lemma nbl_next n : 0 <= n -> n / 512 <= nbl n <= n / 512 + 1.
Proof. intros H. unfold nbl. Z.div_mod_to_equations. lia. Qed.

Section Append.
Context (ty mj mn nl sz : Z).
Abbreviation din a := (Dinode ty mj mn nl sz a).

(** One round writes as much as fits into the block that [off] is in. *)
Lemma iappend_round s addrs c bl ia p :
  disk_ok (img s) (freeblock s) -> content_ok (img s) addrs c bl ia -> owned (freeblock s) (own bl ia) ->
  Z.of_nat (length bl) = nbl (Z.of_nat (length c)) -> p <> [] ->
  Z.of_nat (length c + length p) <= 512 * MAXFILE ->
  freeblock s - Z.of_nat (length (own bl ia)) + bcount (nbl (Z.of_nat (length c + length p))) <= 1000 ->
  exists m s' addrs' bl' ia', (0 < m <= length p)%nat /\
    (forall fuel, iappend_loop (S fuel) p (Z.of_nat (length c)) (Z.of_nat (length p)) (din addrs) s =
       iappend_loop fuel (drop m p) (Z.of_nat (length (c ++ take m p))) (Z.of_nat (length (drop m p)))
         (din addrs') s') /\
    step s (own bl ia) s' (own bl' ia') /\ content_ok (img s') addrs' (c ++ take m p) bl' ia' /\
    Z.of_nat (length bl') = nbl (Z.of_nat (length (c ++ take m p))).
Proof.
  intros Hdisk Hco Hown Hbl Hne Hmax Hroom. change (512 * MAXFILE) with 71680 in Hmax.
  assert (0 < length p)%nat as Hp by (destruct p; cbn; [done|lia]).
  set (n := Z.of_nat (length c)) in *. pose proof (nbl_next n ltac:(lia)) as Hnext.
  pose proof (Z.mod_pos_bound n 512 ltac:(lia)) as Hmod. pose proof (Z.div_mod n 512 ltac:(lia)) as Hdm.
  pose proof (Z.div_pos n 512 ltac:(lia) ltac:(lia)) as Hpos.
  set (k := Z.to_nat (n / 512)). assert (n / 512 = Z.of_nat k) as Hk by lia. rewrite Hk in *.
  assert (BSIZE = 512%nat) as HB by done.
  destruct (file_block_run ty mj mn nl sz s addrs c bl ia Hdisk Hco Hown k) as
    (s1 & addrs1 & bl1 & ia1 & x & R1 & S1 & C1 & L1 & Hx); [lia|unfold NDIRECT, NINDIRECT; lia| |].
  { etransitivity; [|exact Hroom]. apply Z.add_le_mono_l, bcount_mono.
    replace (Z.of_nat (S k)) with (nbl (512 * Z.of_nat k + 1))
      by (rewrite (nbl_unique _ (Z.of_nat k)); lia).
    apply nbl_mono. lia. }
  pose proof (grows_owned _ _ _ _ _ _ (proj1 (dk_fb _ _ Hdisk)) (sp_grows _ _ _ _ S1) Hown) as Hown1.
  destruct (own_bl _ _ _ _ _ _ _ _ C1 Hown1 Hx) as [Hin Hxr]. pose proof (sp_disk _ _ _ _ S1) as D1.
  pose proof (dk_fb _ _ D1) as Hfb1. change nmeta with 59 in Hxr, Hfb1.
  set (m := Nat.min (length p) (BSIZE * S k - length c)).
  assert (length (take m p) = m /\ 0 < m <= length p)%nat as [Lm Hm] by (rewrite length_take; lia).
  assert (length (piece c k) = BSIZE) as Hpl by apply piece_length.
  set (d' := splice (length c - BSIZE * k) (take m p) (piece c k)).
  assert (length d' = BSIZE) as Hd' by (unfold d'; rewrite splice_length; lia).
  exists m, (set_img (<[Z.to_nat x := d']> (img s1)) s1), addrs1, bl1, ia1. split_and!; try lia.
  - intros fuel. cbn [iappend_loop]. rewrite (proj2 (Z.ltb_lt _ _)) by lia. rewrite Hk.
    rewrite (proj2 (Z.leb_gt MAXFILE _)) by (change MAXFILE with 140; lia).
    rewrite (bind_ok _ _ _ _ _ R1). cbv zeta.
    rewrite (bind_ok _ _ _ _ _ (rsect_run s1 x (piece c k) ltac:(lia) (co_block _ _ _ _ _ C1 k x Hx))).
    replace (Z.min _ _) with (Z.of_nat m) by lia.
    unfold bytes_at. rewrite (proj2 (Z.leb_le _ _)) by lia. mrun.
    replace (Z.to_nat (n - Z.of_nat k * 512)) with (length c - BSIZE * k)%nat by lia.
    rewrite (bind_ok _ _ _ _ _ (wsect_run s1 _ x _ D1 ltac:(lia))).
    rewrite Nat2Z.id, w32_small by lia. rewrite length_app, length_drop, Lm.
    by replace (n + Z.of_nat m) with (Z.of_nat (length c + m)) by lia;
      replace (Z.of_nat (length p) - Z.of_nat m) with (Z.of_nat (length p - m)) by lia.
  - eapply step_trans; [exact S1|]. apply step_write; [done..|lia|done].
  - eapply content_write; [done..|lia|done|lia|lia|]. rewrite (dk_len _ _ D1). unfold FSSIZE. lia.
  - rewrite length_app, Lm, L1. rewrite (nbl_unique _ (Z.of_nat k)) by lia. lia.
Qed.

Lemma iappend_loop_run fuel : forall s addrs c bl ia p,
  disk_ok (img s) (freeblock s) -> content_ok (img s) addrs c bl ia -> owned (freeblock s) (own bl ia) ->
  (length p < fuel)%nat -> Z.of_nat (length bl) = nbl (Z.of_nat (length c)) ->
  Z.of_nat (length c + length p) <= 512 * MAXFILE ->
  freeblock s - Z.of_nat (length (own bl ia)) + bcount (nbl (Z.of_nat (length c + length p))) <= 1000 ->
  exists s' addrs' bl' ia',
    iappend_loop fuel p (Z.of_nat (length c)) (Z.of_nat (length p)) (din addrs) s =
      Ok ((Z.of_nat (length c + length p), din addrs'), s') /\
    step s (own bl ia) s' (own bl' ia') /\ content_ok (img s') addrs' (c ++ p) bl' ia' /\
    Z.of_nat (length bl') = nbl (Z.of_nat (length c + length p)).
Proof.
  induction fuel as [|fuel IH]; intros s addrs c bl ia p Hdisk Hco Hown Hfuel Hbl Hmax Hroom; [lia|].
  destruct (decide (p = [])) as [->|Hne].
  { cbn [length]. rewrite app_nil_r, Nat.add_0_r. exists s, addrs, bl, ia.
    split_and!; [done|by apply step_refl|done..]. }
  destruct (iappend_round s addrs c bl ia p Hdisk Hco Hown Hbl Hne Hmax Hroom) as
    (m & s1 & addrs1 & bl1 & ia1 & Hm & R1 & S1 & C1 & L1).
  assert (length (c ++ take m p) + length (drop m p) = length c + length p)%nat as Hl.
  { rewrite length_app, length_take, length_drop. lia. }
  destruct (IH s1 addrs1 (c ++ take m p) bl1 ia1 (drop m p)) as
    (s2 & addrs2 & bl2 & ia2 & R2 & S2 & C2 & L2); try done.
  { apply S1. }
  { eapply grows_owned; [apply (dk_fb _ _ Hdisk)|apply S1|done]. }
  { rewrite length_drop. lia. }
  { by rewrite Hl. }
  { by rewrite Hl, (grows_length _ _ _ _ _ _ (sp_grows _ _ _ _ S1)). }
  rewrite Hl in R2, L2. rewrite <- app_assoc, take_drop in C2.
  exists s2, addrs2, bl2, ia2. rewrite R1. split_and!; [done| |done..]. by eapply step_trans.
Qed.
End Append.
