(* ===== verification/MkfsProps.v ===== *)
(** * The disk that the builder leaves

    The invariant [image_ok] holds between the calls of main: the inodes in use, each with
    its bytes and its blocks.  At the end the disk is read with the eyes of the kernel
    ([file_bytes], [entry_name], [read_sb], [block_used]). *)

From S2P Require Import Prelude CString Bytes Bcache Log Ide Fs FsBlocks FsContent FsDirs Mkfs MkfsSpec.

(** ** The inodes on the disk *)

Definition mk_sb : superblock := Superblock 1000 941 200 30 2 32 58.

(** The inode [inum] as [ilock] finds it. *)
Definition disk_inode (V : list block) (inum : Z) : option dinode :=
  d ← V !! Z.to_nat (inum / IPB + sb_inodestart mk_sb); get_dinode (Z.to_nat (inum mod IPB)) d.

Lemma inode_block inum : 0 <= inum < 208 -> 32 <= inum / IPB + 32 < 58 /\ 0 <= inum mod IPB < 8.
Proof. intros H. unfold IPB. Z.div_mod_to_equations. lia. Qed.

Lemma disk_inode_frame V V' inum :
  (forall b, 32 <= b < 58 -> V' !! Z.to_nat b = V !! Z.to_nat b) -> 0 <= inum < 208 ->
  disk_inode V' inum = disk_inode V inum.
Proof.
  intros HV Hi. unfold disk_inode. change (sb_inodestart mk_sb) with 32.
  rewrite HV by (by apply inode_block). done.
Qed.

Lemma rinode_run s fb inum x :
  gsb s = mk_sb -> disk_ok (img s) fb -> 0 <= inum < 208 -> disk_inode (img s) inum = Some x ->
  rinode inum s = Ok (x, s).
Proof.
  intros Hsb Hd Hi Hx. pose proof (inode_block inum Hi) as [Hb Hm]. unfold rinode, disk_inode in *.
  mrun. rewrite Hsb. change (sb_inodestart mk_sb) with 32 in *.
  destruct (img s !! Z.to_nat (inum / IPB + 32)) as [d|] eqn:HV; [|done]. cbn in Hx.
  rewrite (bind_ok _ _ _ _ _ (rsect_run s (inum / IPB + 32) d ltac:(lia) HV)). by rewrite Hx.
Qed.

Lemma winode_run s fb inum x :
  gsb s = mk_sb -> disk_ok (img s) fb -> 0 <= inum < 208 -> dinode_fits x ->
  exists V', winode inum x s = Ok (tt, set_img V' s) /\ disk_ok V' fb /\
    disk_inode V' inum = Some x /\
    (forall j, 0 <= j < 208 -> j <> inum -> disk_inode V' j = disk_inode (img s) j) /\
    (forall b, 0 <= b -> b < 32 \/ 58 <= b -> V' !! Z.to_nat b = img s !! Z.to_nat b).
Proof.
  intros Hsb Hd Hi Hx. pose proof (inode_block inum Hi) as [Hb Hm]. unfold winode, disk_inode.
  mrun. rewrite Hsb. change (sb_inodestart mk_sb) with 32 in *. set (bn := inum / IPB + 32) in *.
  destruct (disk_block _ _ bn Hd ltac:(lia)) as (d & HV & Hld).
  rewrite (bind_ok _ _ _ _ _ (rsect_run s bn d ltac:(lia) HV)).
  destruct (put_dinode_spec (Z.to_nat (inum mod IPB)) x d) as (d' & Hput & Ld & Hget & Hothers);
    [rewrite Hld; unfold BSIZE; lia|done|].
  rewrite Hput. mrun. rewrite (wsect_run s fb bn d') by (done || lia).
  exists (<[Z.to_nat bn := d']> (img s)).
  assert (<[Z.to_nat bn := d']> (img s) !! Z.to_nat bn = Some d') as Hnew.
  { apply list_lookup_insert_eq. by eapply lookup_lt_Some. }
  split_and!; [done| | | |].
  - apply disk_insert; [done| |by rewrite Ld]. pose proof (dk_fb _ _ Hd). change nmeta with 59 in *. lia.
  - by rewrite Hnew.
  - intros j Hj Hne. pose proof (inode_block j Hj) as [Hbj Hmj].
    destruct (decide (j / IPB + 32 = bn)) as [Hbn|Hbn].
    + rewrite Hbn, Hnew, HV. cbn [mbind option_bind]. apply Hothers. intros He. apply Hne.
      unfold bn, IPB in *. Z.div_mod_to_equations. lia.
    + rewrite list_lookup_insert_ne; [done|]. lia.
  - intros b H0 Hout. rewrite list_lookup_insert_ne; [done|]. lia.
Qed.

Lemma content_addrs V addrs c bl ia fb :
  content_ok V addrs c bl ia -> owned fb (own bl ia) -> fb <= 1000 -> Forall is_w32 addrs.
Proof.
  intros Hco Hown Hfb. apply Forall_lookup_2. intros k a Ha.
  pose proof (lookup_lt_Some _ _ _ Ha) as Hk. rewrite (co_length _ _ _ _ _ Hco) in Hk.
  assert (nmeta = 59) as Hn by done. unfold is_w32.
  destruct (decide (k = NDIRECT)) as [->|Hne].
  - rewrite (co_ia _ _ _ _ _ Hco) in Ha. apply (inj Some) in Ha as <-.
    destruct (decide (ia = 0)) as [->|Hia]; [lia|].
    destruct (own_ia _ _ _ _ _ _ Hco Hown Hia). lia.
  - rewrite (co_direct _ _ _ _ _ Hco) in Ha by lia. apply (inj Some) in Ha as <-.
    destruct (bl !! k) as [b|] eqn:Hb; cbn; [|lia].
    destruct (own_bl _ _ _ _ _ _ _ _ Hco Hown Hb). lia.
Qed.

(** ** The invariant of main *)

(** An inode that is in use: its type, its bytes and where they are. *)
Record node := Node { n_type : Z; n_bytes : list Z; n_blocks : list Z; n_ind : Z }.

Definition n_size (g : node) : Z := Z.of_nat (length (n_bytes g)).
Definition n_own (g : node) : list Z := own (n_blocks g) (n_ind g).

Record node_ok (V : list block) (inum : Z) (g : node) : Prop := NodeOk {
  nk_type : is_i16 (n_type g);
  nk_inode : exists addrs, disk_inode V inum = Some (Dinode (n_type g) 0 0 1 (n_size g) addrs) /\
    content_ok V addrs (n_bytes g) (n_blocks g) (n_ind g);
  nk_count : Z.of_nat (length (n_blocks g)) = nbl (n_size g)
}.

Definition free_dinode : dinode := Dinode 0 0 0 0 0 (replicate 13 0).
Definition super_block : block :=
  default zeroes (put_words 0 [1000; 941; 200; 30; 2; 32; 58] zeroes).

(** The inodes from 1 on are those of [l], which share out the blocks that have been taken. *)
Record image_ok (s : mkst) (l : list node) : Prop := ImageOk {
  im_sb : gsb s = mk_sb;
  im_next : freeinode s = 1 + Z.of_nat (length l);
  im_count : (length l <= 207)%nat;
  im_disk : disk_ok (img s) (freeblock s);
  im_own : concat (map n_own l) ≡ₚ seqZ nmeta (freeblock s - nmeta);
  im_node : forall i g, l !! i = Some g -> node_ok (img s) (1 + Z.of_nat i) g;
  im_unused : forall inum, Z.of_nat (length l) < inum < 208 -> disk_inode (img s) inum = Some free_dinode;
  im_meta : forall b, 0 <= b < 32 \/ b = 58 ->
    img s !! Z.to_nat b = Some (if b =? 1 then super_block else zeroes)
}.

Definition total (l : list node) : Z := foldr (fun g n => bcount (nbl (n_size g)) + n) 0 l.

Lemma node_own_length V inum g : node_ok V inum g -> Z.of_nat (length (n_own g)) = bcount (nbl (n_size g)).
Proof. intros [_ (addrs & _ & Hco) Hc]. unfold n_own. rewrite (own_length _ _ _ _ _ Hco). by rewrite Hc. Qed.

(** No block is lost. *)
Lemma image_total s l : image_ok s l -> freeblock s = nmeta + total l.
Proof.
  intros H. pose proof (im_own _ _ H) as Ho. apply Permutation_length in Ho.
  rewrite length_seqZ in Ho. pose proof (dk_fb _ _ (im_disk _ _ H)) as Hfb.
  cut (Z.of_nat (length (concat (map n_own l))) = total l); [lia|].
  pose proof (im_node _ _ H) as Hn. clear -Hn. revert Hn.
  assert (forall k l, (forall i g, l !! i = Some g -> node_ok (img s) (1 + Z.of_nat (k + i)) g) ->
    Z.of_nat (length (concat (map n_own l))) = total l) as Hgen; [|by apply (Hgen 0%nat)].
  intros k l'. revert k. induction l' as [|g l' IH]; intros k Hn; [done|]. cbn [map concat total foldr].
  rewrite length_app. fold (total l'). rewrite <- (IH (S k)), <- (node_own_length _ _ _ (Hn 0%nat g eq_refl)).
  - lia.
  - intros i g' Hg. replace (S k + i)%nat with (k + S i)%nat by lia. by apply Hn.
Qed.

Lemma own_split (l : list node) i g :
  l !! i = Some g -> concat (map n_own l) ≡ₚ n_own g ++ concat (map n_own (delete i l)).
Proof.
  revert i. induction l as [|g0 l IH]; intros [|i] Hg; cbn in Hg; [done..| |].
  - apply (inj Some) in Hg as ->. done.
  - cbn [map concat delete list_delete]. rewrite (IH i Hg). apply Permutation_app_swap_app.
Qed.

Lemma delete_insert (l : list node) i g : delete i (<[i := g]> l) = delete i l.
Proof. revert i. induction l as [|g0 l IH]; intros [|i]; cbn; [done..|]. f_equal. apply IH. Qed.

Lemma own_insert (l : list node) i g g' x :
  l !! i = Some g -> n_own g' ≡ₚ n_own g ++ x ->
  concat (map n_own (<[i := g']> l)) ≡ₚ concat (map n_own l) ++ x.
Proof.
  intros Hg Ho. pose proof (lookup_lt_Some _ _ _ Hg) as Hi.
  rewrite (own_split (<[i := g']> l) i g') by (by apply list_lookup_insert_eq).
  rewrite delete_insert, Ho, (own_split l i g Hg), <- !app_assoc. apply Permutation_app_head.
  apply Permutation_app_comm.
Qed.

Section Image.
Context (s : mkst) (l : list node).
Hypothesis Him : image_ok s l.

Lemma image_owned i g : l !! i = Some g -> owned (freeblock s) (n_own g).
Proof using Him.
  intros Hg. pose proof (im_own _ _ Him) as Ho. rewrite (own_split l i g Hg) in Ho. split.
  - assert (NoDup (n_own g ++ concat (map n_own (delete i l)))) as Hn by (rewrite Ho; apply NoDup_seqZ).
    by apply NoDup_app in Hn as (? & _).
  - apply Forall_forall. intros b Hb.
    assert (b ∈ seqZ nmeta (freeblock s - nmeta)) as Hs%elem_of_seqZ; [|lia].
    rewrite <- Ho. apply elem_of_app. by left.
Qed.

(** No block belongs to two files. *)
Lemma image_apart i j g g' b :
  l !! i = Some g -> l !! j = Some g' -> i <> j -> b ∈ n_own g' -> b ∉ n_own g.
Proof using Him.
  intros Hg Hg' Hne Hb Hb'. pose proof (im_own _ _ Him) as Ho. rewrite (own_split l i g Hg) in Ho.
  assert (NoDup (n_own g ++ concat (map n_own (delete i l)))) as Hn by (rewrite Ho; apply NoDup_seqZ).
  apply NoDup_app in Hn as (_ & Hn & _). apply (Hn b Hb').
  apply list_elem_of_In, in_concat. exists (n_own g'). split; [|by apply list_elem_of_In].
  apply in_map. apply list_elem_of_In. apply list_elem_of_lookup.
  destruct (decide (j < i)%nat).
  - exists j. by rewrite list_lookup_delete_lt by lia.
  - exists (j - 1)%nat. rewrite list_lookup_delete_ge by lia. by replace (S (j - 1)) with j by lia.
Qed.

(** What a step on the file [i] leaves alone. *)
Lemma step_meta i g s' l' b :
  l !! i = Some g -> step s (n_own g) s' l' -> 0 <= b < nmeta -> img s' !! Z.to_nat b = img s !! Z.to_nat b.
Proof using Him.
  intros Hg Hs Hb. pose proof (dk_fb _ _ (im_disk _ _ Him)) as Hfb.
  apply (gr_same _ _ _ _ _ _ (sp_grows _ _ _ _ Hs)); [lia|]. intros Hin.
  destruct (image_owned i g Hg) as [_ Ho]. rewrite Forall_forall in Ho. specialize (Ho b Hin). lia.
Qed.

Lemma step_other i g s' l' j g' b :
  l !! i = Some g -> step s (n_own g) s' l' -> l !! j = Some g' -> i <> j -> b ∈ n_own g' ->
  img s' !! Z.to_nat b = img s !! Z.to_nat b.
Proof using Him.
  intros Hg Hs Hg' Hne Hb. destruct (image_owned j g' Hg') as [_ Ho]. rewrite Forall_forall in Ho.
  specialize (Ho b Hb). change nmeta with 59 in Ho.
  apply (gr_same _ _ _ _ _ _ (sp_grows _ _ _ _ Hs)); [lia|]. by eapply image_apart.
Qed.

(** The file [i] has grown and its inode is written. *)
Lemma image_update i g s1 g' V' :
  l !! i = Some g -> step s (n_own g) s1 (n_own g') ->
  disk_ok V' (freeblock s1) -> node_ok V' (1 + Z.of_nat i) g' ->
  (forall j, 0 <= j < 208 -> j <> 1 + Z.of_nat i -> disk_inode V' j = disk_inode (img s1) j) ->
  (forall b, 0 <= b -> b < 32 \/ 58 <= b -> V' !! Z.to_nat b = img s1 !! Z.to_nat b) ->
  image_ok (set_img V' s1) (<[i := g']> l).
Proof using Him.
  intros Hg Hs Hd Hn Hinodes Hblocks. pose proof (lookup_lt_Some _ _ _ Hg) as Hi.
  pose proof (im_count _ _ Him) as Hc. pose proof (dk_fb _ _ (im_disk _ _ Him)) as Hfb.
  assert (nmeta = 59) as Hnm by done.
  assert (forall j, 0 <= j < 208 -> j <> 1 + Z.of_nat i -> disk_inode V' j = disk_inode (img s) j) as Hold.
  { intros j Hj Hne. rewrite Hinodes by done. apply disk_inode_frame; [|done].
    intros b Hb. apply (step_meta i g s1 (n_own g')); [done..|lia]. }
  split; cbn [gsb freeinode freeblock img set_img]; rewrite ?length_insert; try done.
  - rewrite (sp_sb _ _ _ _ Hs). apply Him.
  - rewrite (sp_inode _ _ _ _ Hs). apply Him.
  - destruct (sp_grows _ _ _ _ Hs) as [Hle Ho _]. rewrite (own_insert l i g g' _ Hg Ho), (im_own _ _ Him).
    replace (freeblock s1 - nmeta) with ((freeblock s - nmeta) + (freeblock s1 - freeblock s)) by lia.
    rewrite seqZ_app by lia. by replace (nmeta + (freeblock s - nmeta)) with (freeblock s) by lia.
  - intros j g1 Hj. destruct (decide (i = j)) as [<-|Hne].
    { rewrite list_lookup_insert_eq in Hj by done. by apply (inj Some) in Hj as <-. }
    rewrite list_lookup_insert_ne in Hj by done. pose proof (lookup_lt_Some _ _ _ Hj) as Hjl.
    destruct (im_node _ _ Him j g1 Hj) as [Hty (addrs & Hino & Hco) Hcnt]. split; [done| |done].
    exists addrs. split; [rewrite Hold by lia; done|]. eapply content_frame; [|exact Hco].
    intros b Hb. fold (n_own g1) in Hb. destruct (image_owned j g1 Hj) as [_ Ho].
    rewrite Forall_forall in Ho. specialize (Ho b Hb).
    rewrite Hblocks by lia. exact (step_other i g s1 (n_own g') j g1 b Hg Hs Hj Hne Hb).
  - intros inum Hin. rewrite Hold by lia. by apply Him.
  - intros b Hb. rewrite Hblocks by lia. rewrite (step_meta i g s1 (n_own g')); [by apply Him|done..|lia].
Qed.

Lemma iappend_run i g p :
  l !! i = Some g -> n_size g + Z.of_nat (length p) <= 512 * MAXFILE ->
  freeblock s - bcount (nbl (n_size g)) + bcount (nbl (n_size g + Z.of_nat (length p))) <= 1000 ->
  exists s' g', iappend (1 + Z.of_nat i) p (Z.of_nat (length p)) s = Ok (tt, s') /\
    image_ok s' (<[i := g']> l) /\ n_type g' = n_type g /\ n_bytes g' = n_bytes g ++ p.
Proof using Him.
  intros Hg Hmax Hroom. pose proof (lookup_lt_Some _ _ _ Hg) as Hi.
  pose proof (im_count _ _ Him) as Hc. pose proof (im_disk _ _ Him) as Hd.
  pose proof (im_node _ _ Him i g Hg) as Hn. pose proof Hn as [Hty (addrs & Hino & Hco) Hcnt].
  rewrite <- (node_own_length _ _ _ Hn) in Hroom. unfold n_size in *.
  change (512 * MAXFILE) with 71680 in Hmax. rewrite <- Nat2Z.inj_add in Hroom.
  destruct (iappend_loop_run (n_type g) 0 0 1 (Z.of_nat (length (n_bytes g))) (S (length p)) s addrs
    (n_bytes g) (n_blocks g) (n_ind g) p Hd Hco (image_owned i g Hg)) as
    (s1 & addrs1 & bl1 & ia1 & R1 & S1 & C1 & L1); [lia|done|change (512 * MAXFILE) with 71680; lia|done|].
  pose proof (grows_owned _ _ _ _ _ _ (proj1 (dk_fb _ _ Hd)) (sp_grows _ _ _ _ S1) (image_owned i g Hg)) as O1.
  pose proof (sp_disk _ _ _ _ S1) as D1. pose proof (dk_fb _ _ D1) as Hfb1.
  assert (forall x : nat, Z.of_nat x <= 71680 -> is_w32 (Z.of_nat x)) as Hw32 by (unfold is_w32; lia).
  set (size := (length (n_bytes g) + length p)%nat) in *.
  destruct (winode_run s1 (freeblock s1) (1 + Z.of_nat i)
    (Dinode (n_type g) 0 0 1 (Z.of_nat size) addrs1)) as (V' & R2 & D2 & I2 & Io2 & F2).
  { rewrite (sp_sb _ _ _ _ S1). apply Him. }
  { done. }
  { lia. }
  { split; cbn; [by split_and!|apply Hw32; lia|]. split; [apply C1|].
    eapply content_addrs; [exact C1|exact O1|lia]. }
  exists (set_img V' s1), (Node (n_type g) (n_bytes g ++ p) bl1 ia1). split_and!; [| |done|done].
  - unfold iappend.
    rewrite (bind_ok _ _ _ _ _ (rinode_run s _ (1 + Z.of_nat i) _ (im_sb _ _ Him) Hd ltac:(lia) Hino)).
    cbn [d_size]. rewrite Nat2Z.id, xint_small by (apply Hw32; lia).
    rewrite (bind_ok _ _ _ _ _ R1). unfold set_din_size. cbn [d_type d_major d_minor d_nlink d_addrs].
    rewrite xint_small by (apply Hw32; lia). exact R2.
  - apply (image_update i g); [done..| |done|done]. split; cbn [n_type n_bytes n_blocks n_ind]; [done| |].
    + exists addrs1. unfold n_size. cbn [n_bytes]. rewrite length_app. split; [done|].
      eapply content_frame; [|exact C1]. intros b Hb. destruct O1 as [_ O1]. rewrite Forall_forall in O1.
      specialize (O1 b Hb). change nmeta with 59 in O1. apply F2; lia.
    + unfold n_size. cbn [n_bytes]. by rewrite length_app.
Qed.
End Image.

Lemma zero_dinodes k : (k < 8)%nat -> get_dinode k zeroes = Some free_dinode.
Proof.
  intros Hk. do 8 (destruct k as [|k]; [vm_compute; reflexivity|]). lia.
Qed.

Lemma ialloc_run s l type :
  image_ok s l -> (length l < 207)%nat -> is_i16 type -> 0 <= type ->
  exists s', ialloc type s = Ok (1 + Z.of_nat (length l), s') /\ image_ok s' (l ++ [Node type [] [] 0]).
Proof.
  intros H Hl Hty H0. unfold ialloc. mrun. rewrite (im_next _ _ H). set (n := length l) in *.
  assert (i16 (xshort type) = type) as Hsh.
  { unfold is_i16 in Hty. rewrite xshort_small by lia. unfold i16. rewrite Z.mod_small; lia. }
  rewrite Hsh, w32_small by lia. change (i16 (xshort 1)) with 1. change (xint 0) with 0.
  set (s1 := set_freeinode _ s). pose proof (dk_fb _ _ (im_disk _ _ H)) as Hfb.
  assert (nmeta = 59) as Hnm by done.
  destruct (winode_run s1 (freeblock s) (1 + Z.of_nat n) (Dinode type 0 0 1 0 (replicate 13 0)))
    as (V' & R & D & I & Io & F); [apply H|apply H|lia| |].
  { split; cbn; [by split_and!|unfold is_w32; lia|]. split; [done|].
    by repeat (constructor; [unfold is_w32; lia|]). }
  rewrite (bind_ok _ _ _ _ _ R). exists (set_img V' s1). split; [done|].
  split; cbn [gsb freeinode freeblock img set_img set_freeinode s1]; rewrite ?length_app;
    cbn [length]; fold n; [apply H|lia|lia|done| | | |].
  - rewrite map_app, concat_app. cbn. rewrite app_nil_r. apply H.
  - intros i g [Hg|[Hi Hg]]%lookup_app_Some.
    + pose proof (lookup_lt_Some _ _ _ Hg) as Hi. fold n in Hi.
      destruct (im_node _ _ H i g Hg) as [Ht (addrs & Hino & Hco) Hc]. split; [done| |done].
      exists addrs. split; [rewrite Io by lia; done|]. eapply content_frame; [|exact Hco].
      intros b Hb. destruct (image_owned s l H i g Hg) as [_ Ho]. rewrite Forall_forall in Ho.
      specialize (Ho b Hb). apply F; lia.
    + fold n in Hg, Hi. destruct (i - n)%nat as [|] eqn:Hin; [|done]. cbn in Hg.
      apply (inj Some) in Hg as <-. replace i with n by lia. split; [done| |done].
      exists (replicate 13 0). split; [done|]. cbn [n_bytes n_blocks n_ind]. split; try done.
      * intros k Hk. apply lookup_replicate_2. unfold NDIRECT in Hk. lia.
      * split; [unfold NDIRECT; cbn; lia|done].
      * cbn. lia.
  - intros inum Hin. rewrite Io by lia. apply H. fold n. lia.
  - intros b Hb. rewrite F by lia. by apply H.
Qed.

(** ** main, on types and bytes *)

(** The inodes from 1 on have these types and bytes. *)
Definition files_ok (s : mkst) (l : list (Z * list Z)) : Prop :=
  exists nodes, image_ok s nodes /\ map (fun g => (n_type g, n_bytes g)) nodes = l.

(** The blocks that the files need. *)
Definition fcount (c : list Z) : Z := bcount (nbl (Z.of_nat (length c))).
Definition ftotal (l : list (Z * list Z)) : Z := foldr (fun x n => fcount x.2 + n) 0 l.

Lemma files_total s l : files_ok s l -> freeblock s = nmeta + ftotal l.
Proof.
  intros (nodes & H & <-). rewrite (image_total _ _ H). f_equal.
  clear H. unfold total, ftotal. induction nodes as [|g nodes IH]; [done|]. cbn. by rewrite IH.
Qed.

Lemma ftotal_app l1 l2 : ftotal (l1 ++ l2) = ftotal l1 + ftotal l2.
Proof. induction l1 as [|x l1 IH]; [done|]. cbn. fold (ftotal (l1 ++ l2)) (ftotal l1). lia. Qed.

Lemma fcount_nonneg c : 0 <= fcount c.
Proof.
  unfold fcount, bcount, nbl. pose proof (Z.div_pos (Z.of_nat (length c) + 511) 512).
  destruct (12 <? _); lia.
Qed.

Lemma fcount_app c p : fcount c <= fcount (c ++ p).
Proof. unfold fcount. apply bcount_mono, nbl_mono. rewrite length_app. lia. Qed.

Lemma ftotal_nonneg l : 0 <= ftotal l.
Proof. induction l as [|x l IH]; [done|]. cbn. fold (ftotal l). pose proof (fcount_nonneg x.2). lia. Qed.

Lemma iappend_files s l1 ty c l2 p :
  files_ok s (l1 ++ (ty, c) :: l2) -> Z.of_nat (length (c ++ p)) <= 512 * MAXFILE ->
  nmeta + ftotal (l1 ++ (ty, c ++ p) :: l2) <= 1000 ->
  exists s', iappend (1 + Z.of_nat (length l1)) p (Z.of_nat (length p)) s = Ok (tt, s') /\
    files_ok s' (l1 ++ (ty, c ++ p) :: l2).
Proof.
  intros Hf Hmax Hroom. pose proof (files_total _ _ Hf) as Hfb. destruct Hf as (nodes & H & Hmap).
  assert (map (fun g => (n_type g, n_bytes g)) nodes !! length l1 = Some (ty, c)) as Hg.
  { rewrite Hmap. by apply list_lookup_middle. }
  apply list_lookup_fmap_Some in Hg as (g & Hgt & Hg). injection Hgt as -> ->.
  rewrite ftotal_app in Hfb, Hroom. cbn [ftotal foldr snd] in Hfb, Hroom.
  destruct (iappend_run s nodes H (length l1) g p Hg) as (s' & g' & R & H' & Hty & Hc).
  { unfold n_size. rewrite length_app in Hmax. lia. }
  { unfold n_size. rewrite <- Nat2Z.inj_add, <- length_app. unfold fcount in *. lia. }
  exists s'. split; [exact R|]. exists (<[length l1 := g']> nodes). split; [done|].
  rewrite list_fmap_insert. change (_ <$> nodes) with (map (fun g => (n_type g, n_bytes g)) nodes).
  rewrite Hmap, insert_app_r_alt, Nat.sub_diag by done. cbn. by rewrite Hty, Hc.
Qed.

Lemma ialloc_files s l type :
  files_ok s l -> (length l < 207)%nat -> is_i16 type -> 0 <= type ->
  exists s', ialloc type s = Ok (1 + Z.of_nat (length l), s') /\ files_ok s' (l ++ [(type, [])]).
Proof.
  intros (nodes & H & <-) Hl Hty H0. rewrite length_map in *.
  destruct (ialloc_run s nodes type H Hl Hty H0) as (s' & R & H'). exists s'. split; [done|].
  exists (nodes ++ [Node type [] [] 0]). split; [done|]. by rewrite map_app.
Qed.

Lemma zero_all s n k :
  img s = replicate k zeroes -> (k + n <= 1000)%nat ->
  for_each (seq k n) (fun i => wsect (Z.of_nat i) zeroes) s =
    Ok (tt, set_img (replicate (k + n) zeroes) s).
Proof.
  revert s k. induction n as [|n IH]; intros s k Hs Hn.
  { rewrite Nat.add_0_r, <- Hs. by destruct s. }
  cbn [seq for_each].
  assert (wsect (Z.of_nat k) zeroes s = Ok (tt, set_img (replicate (S k) zeroes) s)) as R.
  { unfold wsect, modify. rewrite sector_small, Nat2Z.id, Hs, length_replicate by lia.
    rewrite Nat.ltb_irrefl, Nat.sub_diag. change (replicate 0 zeroes ++ [zeroes]) with (replicate 1 zeroes).
    by rewrite <- replicate_add, Nat.add_comm. }
  rewrite (bind_ok _ _ _ _ _ R), IH by (done || lia).
  by replace (k + S n)%nat with (S k + n)%nat by lia.
Qed.

Lemma write_super_run : exists s, write_super mk_start = Ok (tt, s) /\ files_ok s [].
Proof.
  unfold write_super. mrun.
  change (Superblock (xint (Z.of_nat FSSIZE)) (xint nblocks) (xint NINODES) (xint nlog)
    (xint 2) (xint (2 + nlog)) (xint (2 + nlog + ninodeblocks))) with mk_sb.
  set (s0 := set_freeblock nmeta (set_gsb mk_sb mk_start)).
  rewrite (bind_ok _ _ _ _ _ (zero_all s0 1000 0 eq_refl ltac:(lia))). mrun.
  change (gsb (set_img _ s0)) with mk_sb.
  assert (put_words 0 [sb_size mk_sb; sb_nblocks mk_sb; sb_ninodes mk_sb; sb_nlog mk_sb;
    sb_logstart mk_sb; sb_inodestart mk_sb; sb_bmapstart mk_sb] (replicate BSIZE 0) = Some super_block)
    as -> by (vm_compute; reflexivity).
  mrun. assert (length super_block = BSIZE) as Hls by (vm_compute; reflexivity).
  assert (disk_ok (replicate 1000 zeroes) nmeta) as Hd.
  { split; [apply length_replicate|by apply Forall_replicate|done|].
    intros b Hb. apply lookup_replicate_2. change nmeta with 59 in Hb. lia. }
  rewrite (wsect_run _ nmeta) by (exact Hd || lia).
  eexists. split; [reflexivity|]. exists []. split; [|done].
  change (0 + 1000)%nat with 1000%nat. cbn [img set_img].
  split; cbn [gsb freeinode freeblock img set_img set_freeblock s0 set_gsb mk_start length map concat];
    try done; try lia.
  - apply disk_insert; [exact Hd|change nmeta with 59; lia|done].
  - intros inum Hin. unfold disk_inode. pose proof (inode_block inum ltac:(lia)) as [Hb Hm].
    change (sb_inodestart mk_sb) with 32. rewrite list_lookup_insert_ne by lia.
    rewrite lookup_replicate_2 by lia. cbn. apply zero_dinodes. lia.
  - intros b Hb. destruct (Z.eqb_spec b 1) as [->|Hne].
    + apply list_lookup_insert_eq. rewrite length_replicate. lia.
    + rewrite list_lookup_insert_ne by lia. apply lookup_replicate_2. lia.
Qed.

(** The entries of the root directory, an inode number and a name each. *)
Definition root_bytes (es : list (Z * list Z)) : list Z := concat (map (fun e => de_bytes e.1 e.2) es).

Fixpoint numbered (inum : Z) (args : list (list Z)) : list (Z * list Z) :=
  match args with
  | [] => []
  | a :: args' => (inum, file_name a) :: numbered (inum + 1) args'
  end.

Lemma numbered_length k args : length (numbered k args) = length args.
Proof. revert k. induction args as [|a args IH]; intros k; cbn; [done|]. by rewrite IH. Qed.

Definition dots : list (Z * list Z) := [(1, [46]); (1, [46; 46])].

Lemma de_bytes_length inum name : length (de_bytes inum name) = 16%nat.
Proof.
  unfold de_bytes, dirent_bytes, strncpy_bytes. rewrite length_app, length_le_bytes. cbn [de_name].
  rewrite length_take, length_app, length_replicate. unfold DIRSIZ. lia.
Qed.

Lemma root_bytes_length es : length (root_bytes es) = (16 * length es)%nat.
Proof.
  induction es as [|e es IH]; [done|]. unfold root_bytes in *. cbn [map concat length].
  rewrite length_app, de_bytes_length, IH. lia.
Qed.

Lemma root_bytes_snoc es e : root_bytes (es ++ [e]) = root_bytes es ++ de_bytes e.1 e.2.
Proof. unfold root_bytes. rewrite map_app, concat_app. cbn. by rewrite app_nil_r. Qed.

(** An entry is appended to the root. *)
Lemma root_entry s es fs inum name :
  files_ok s ((T_DIR, root_bytes es) :: fs) -> (length es < 4480)%nat ->
  nmeta + ftotal ((T_DIR, root_bytes (es ++ [(inum, name)])) :: fs) <= 1000 ->
  exists s', iappend 1 (de_bytes inum name) 16 s = Ok (tt, s') /\
    files_ok s' ((T_DIR, root_bytes (es ++ [(inum, name)])) :: fs).
Proof.
  intros Hf Hes Hroom. rewrite root_bytes_snoc in *. cbn [fst snd] in *.
  destruct (iappend_files s [] T_DIR (root_bytes es) fs (de_bytes inum name)) as (s' & R & H'); [done| |done|].
  { rewrite length_app, root_bytes_length, de_bytes_length. change (512 * MAXFILE) with 71680. lia. }
  rewrite de_bytes_length in R. by exists s'.
Qed.

Lemma make_root_run s :
  files_ok s [] -> exists s', make_root s = Ok (1, s') /\ files_ok s' [(T_DIR, root_bytes dots)].
Proof.
  intros H. unfold make_root.
  destruct (ialloc_files s [] T_DIR H) as (s1 & R1 & H1); [cbn; lia|done|done|].
  rewrite (bind_ok _ _ _ _ _ R1). cbn [length]. change (1 + Z.of_nat 0) with 1. cbv beta.
  change (negb (1 =? ROOTINO)) with false. cbv iota.
  destruct (root_entry s1 [] [] 1 [46] H1) as (s2 & R2 & H2); [cbn; lia|by vm_compute|].
  rewrite (bind_ok _ _ _ _ _ R2).
  destruct (root_entry s2 [(1, [46])] [] 1 [46; 46] H2) as (s3 & R3 & H3); [cbn; lia|by vm_compute|].
  rewrite (bind_ok _ _ _ _ _ R3). by exists s3.
Qed.

Lemma append_pieces_run s l1 ty c pieces :
  files_ok s (l1 ++ [(ty, c)]) -> Forall (fun p => p <> []) pieces ->
  Z.of_nat (length (c ++ concat pieces)) <= 512 * MAXFILE ->
  nmeta + ftotal (l1 ++ [(ty, c ++ concat pieces)]) <= 1000 ->
  exists s', append_pieces (1 + Z.of_nat (length l1)) pieces s = Ok (tt, s') /\
    files_ok s' (l1 ++ [(ty, c ++ concat pieces)]).
Proof.
  revert s c. induction pieces as [|p pieces IH]; intros s c H Hne Hmax Hroom.
  { rewrite app_nil_r. by exists s. }
  apply Forall_cons in Hne as [Hp Hne]. cbn [concat append_pieces] in *. rewrite app_assoc in *.
  rewrite (proj2 (Z.ltb_lt 0 _)) by (destruct p; cbn; [done|lia]).
  rewrite length_app in Hmax. rewrite ftotal_app in Hroom. cbn [ftotal foldr snd] in Hroom.
  pose proof (fcount_app (c ++ p) (concat pieces)).
  destruct (iappend_files s l1 ty c [] p H) as (s1 & R1 & H1); [lia| |].
  { rewrite ftotal_app. cbn [ftotal foldr snd]. lia. }
  rewrite (bind_ok _ _ _ _ _ R1). apply IH; [done|done|rewrite length_app; lia|].
  rewrite ftotal_app. cbn [ftotal foldr snd]. lia.
Qed.

(** [c] is what the host has in the file [arg]. *)
Definition reads_as `{Host} (arg c : list Z) : Prop :=
  existsb (Z.eqb slash) arg = false /\
  exists pieces, host_pieces arg = Some pieces /\ Forall (fun p => p <> []) pieces /\ concat pieces = c.

Section Files.
Context `{Host}.

Lemma add_file_run s es fs arg c :
  files_ok s ((T_DIR, root_bytes es) :: fs) -> reads_as arg c -> (length es < 4480)%nat ->
  (length fs < 206)%nat -> Z.of_nat (length c) <= 512 * MAXFILE ->
  let l' := (T_DIR, root_bytes (es ++ [(2 + Z.of_nat (length fs), file_name arg)])) ::
    fs ++ [(T_FILE, c)] in
  nmeta + ftotal l' <= 1000 ->
  exists s', add_file 1 arg s = Ok (tt, s') /\ files_ok s' l'.
Proof using Type.
  intros Hf (Hslash & pieces & Hread & Hne & Hc) Hes Hfs Hmax l' Hroom. unfold add_file.
  rewrite Hslash, Hread. set (name := file_name arg) in *. set (inum := 2 + Z.of_nat (length fs)) in *.
  destruct (ialloc_files s _ T_FILE Hf) as (s1 & R1 & H1); [cbn; lia|done|done|].
  rewrite (bind_ok _ _ _ _ _ R1). cbn [length].
  replace (1 + Z.of_nat (S (length fs))) with inum by lia.
  unfold l' in Hroom. cbn [ftotal foldr snd] in Hroom. fold (ftotal (fs ++ [(T_FILE, c)])) in Hroom.
  rewrite ftotal_app in Hroom. cbn [ftotal foldr snd] in Hroom.
  destruct (root_entry s1 es (fs ++ [(T_FILE, [])]) inum name H1) as (s2 & R2 & H2); [done| |].
  { cbn [ftotal foldr snd]. fold (ftotal (fs ++ [(T_FILE, [])])). rewrite ftotal_app.
    cbn [ftotal foldr snd]. pose proof (fcount_app [] c). cbn [app] in *. fold (ftotal fs) in *. lia. }
  rewrite (bind_ok _ _ _ _ _ R2).
  set (l1 := (T_DIR, root_bytes (es ++ [(inum, name)])) :: fs).
  destruct (append_pieces_run s2 l1 T_FILE [] pieces H2 Hne) as (s3 & R3 & H3); rewrite ?Hc; [done| |].
  { unfold l1. cbn [app ftotal foldr snd]. fold (ftotal (fs ++ [(T_FILE, c)])). rewrite ftotal_app.
    cbn [ftotal foldr snd]. fold (ftotal fs) in *. lia. }
  replace (1 + Z.of_nat (length l1)) with inum in R3 by (unfold l1; cbn [length]; lia).
  rewrite Hc in H3. by exists s3.
Qed.

Lemma add_files_run args contents : forall s es fs,
  files_ok s ((T_DIR, root_bytes es) :: fs) -> Forall2 reads_as args contents ->
  (length es + length args <= 4480)%nat -> (length fs + length args <= 206)%nat ->
  Forall (fun c => Z.of_nat (length c) <= 512 * MAXFILE) contents ->
  let l' := (T_DIR, root_bytes (es ++ numbered (2 + Z.of_nat (length fs)) args)) ::
    fs ++ map (pair T_FILE) contents in
  nmeta + ftotal l' <= 1000 ->
  exists s', for_each args (add_file 1) s = Ok (tt, s') /\ files_ok s' l'.
Proof using Type.
  revert contents. induction args as [|arg args IH]; intros contents s es fs Hf Hr Hes Hfs Hmax l' Hroom.
  { apply Forall2_nil_inv_l in Hr as ->. unfold l'. cbn [numbered map]. rewrite !app_nil_r. by exists s. }
  apply Forall2_cons_inv_l in Hr as (c & contents' & Hrc & Hr & ->).
  apply Forall_cons in Hmax as [Hmc Hmax]. cbn [length] in *. cbn [for_each].
  assert (l' = (T_DIR, root_bytes ((es ++ [(2 + Z.of_nat (length fs), file_name arg)]) ++
      numbered (2 + Z.of_nat (length (fs ++ [(T_FILE, c)]))) args)) ::
      (fs ++ [(T_FILE, c)]) ++ map (pair T_FILE) contents') as Hl'.
  { unfold l'. cbn [numbered map]. rewrite <- !app_assoc, length_app. cbn [app length].
    by replace (2 + Z.of_nat (length fs + 1)) with (2 + Z.of_nat (length fs) + 1) by lia. }
  rewrite Hl' in *. set (es1 := es ++ [(2 + Z.of_nat (length fs), file_name arg)]) in *.
  destruct (add_file_run s es fs arg c Hf Hrc) as (s1 & R1 & H1); [lia|lia|done| |].
  { revert Hroom. cbn [ftotal foldr snd].
    fold (ftotal ((fs ++ [(T_FILE, c)]) ++ map (pair T_FILE) contents')) (ftotal (fs ++ [(T_FILE, c)])).
    rewrite (ftotal_app (fs ++ _)). pose proof (ftotal_nonneg (map (pair T_FILE) contents')).
    assert (fcount (root_bytes es1) <= fcount (root_bytes (es1 ++
      numbered (2 + Z.of_nat (length (fs ++ [(T_FILE, c)]))) args))); [|fold es1; lia].
    unfold root_bytes. rewrite map_app, concat_app. apply fcount_app. }
  rewrite (bind_ok _ _ _ _ _ R1).
  apply (IH contents' s1 es1 (fs ++ [(T_FILE, c)]) H1 Hr); [| |done|exact Hroom];
    unfold es1; rewrite length_app; cbn [length]; lia.
Qed.
End Files.

(** ** The bitmap and the size of the root *)

Lemma mark_bits_spec n k d :
  length d = BSIZE -> (k + n <= 4096)%nat -> (forall b, 0 <= b -> used d b = (b <? Z.of_nat k)) ->
  exists d', mark_bits (seq k n) d = Some d' /\ length d' = BSIZE /\
    forall b, 0 <= b -> used d' b = (b <? Z.of_nat (k + n)).
Proof.
  revert k d. induction n as [|n IH]; intros k d Hl Hn Hu.
  { exists d. rewrite Nat.add_0_r. by split_and!. }
  cbn [seq mark_bits]. destruct (set_bit_spec d (Z.of_nat k)) as (d1 & R1 & L1 & U1).
  { rewrite Hl. unfold BSIZE. lia. }
  rewrite R1. cbn [mbind option_bind]. destruct (IH (S k) d1) as (d' & R & L & U); [congruence|lia| |].
  { intros b Hb. rewrite U1, Hu by done.
    destruct (Z.eqb_spec b (Z.of_nat k)), (Z.ltb_spec b (Z.of_nat k)), (Z.ltb_spec b (Z.of_nat (S k))); lia. }
  exists d'. split_and!; [done..|]. intros b Hb. rewrite U by done. do 2 f_equal. lia.
Qed.

Lemma used_zeroes b : 0 <= b -> used zeroes b = false.
Proof.
  intros Hb. unfold used. rewrite zlookup_nonneg by (apply Z.div_pos; lia).
  destruct (zeroes !! Z.to_nat (b / 8)) as [v|] eqn:Hv; [|done].
  apply lookup_replicate in Hv as [-> _]. apply Z.bits_0.
Qed.

(** What the end of main changes. *)
Record finished (s : mkst) (g : node) (V : list block) : Prop := Finished {
  fn_disk : disk_ok V (freeblock s);
  fn_bitmap : exists d, V !! 58%nat = Some d /\ forall b, 0 <= b -> used d b = (b <? freeblock s);
  fn_root : exists addrs,
    disk_inode (img s) 1 = Some (Dinode (n_type g) 0 0 1 (n_size g) addrs) /\
    disk_inode V 1 = Some (Dinode (n_type g) 0 0 1 (512 * (n_size g / 512 + 1)) addrs);
  fn_inodes : forall j, 1 < j < 208 -> disk_inode V j = disk_inode (img s) j;
  fn_super : V !! 1%nat = Some super_block;
  fn_same : forall b, 58 < b -> V !! Z.to_nat b = img s !! Z.to_nat b
}.

(** The head of the log is not one of these blocks: it may be written. *)
Lemma finished_log s g V hd :
  finished s g V -> length hd = BSIZE -> finished s g (<[2%nat := hd]> V).
Proof.
  intros [Hd (d & HV & Hu) (addrs & H1 & H2) Hin Hs Hsame] Hl.
  pose proof (dk_fb _ _ Hd) as Hfb. change nmeta with 59 in Hfb.
  assert (forall j, 0 <= j < 208 -> disk_inode (<[2%nat := hd]> V) j = disk_inode V j) as Hino.
  { intros j Hj. apply disk_inode_frame; [|done]. intros b Hb. rewrite list_lookup_insert_ne by lia. done. }
  split.
  - apply (disk_insert V (freeblock s) 2); [done|lia|done].
  - exists d. by rewrite list_lookup_insert_ne.
  - exists addrs. by rewrite Hino by lia.
  - intros j Hj. rewrite Hino by lia. by apply Hin.
  - by rewrite list_lookup_insert_ne.
  - intros b Hb. rewrite list_lookup_insert_ne by lia. by apply Hsame.
Qed.

Lemma fix_root_run s nodes g :
  image_ok s nodes -> nodes !! 0%nat = Some g -> n_size g <= 512 * MAXFILE ->
  exists V, (fix_root_size 1 ;; used ← gets freeblock; balloc (i32 used)) s = Ok (tt, set_img V s) /\
    finished s g V /\ V !! 2%nat = Some zeroes.
Proof.
  intros H Hg Hmax. change (512 * MAXFILE) with 71680 in Hmax. unfold n_size in *.
  pose proof (dk_fb _ _ (im_disk _ _ H)) as Hfb. assert (nmeta = 59) as Hnm by done.
  destruct (im_node _ _ H 0%nat g Hg) as [Hty (addrs & Hino & Hco) Hcnt].
  change (1 + Z.of_nat 0) with 1 in Hino. unfold n_size in *. set (sz := Z.of_nat (length (n_bytes g))) in *.
  pose proof (Z.div_mod sz 512 ltac:(lia)) as Hdm. pose proof (Z.mod_pos_bound sz 512 ltac:(lia)) as Hmod.
  assert (is_w32 sz /\ is_w32 (512 * (sz / 512 + 1))) as [Hw Hw'] by (unfold is_w32; lia).
  destruct (winode_run s (freeblock s) 1 (Dinode (n_type g) 0 0 1 (512 * (sz / 512 + 1)) addrs))
    as (V1 & R1 & D1 & I1 & Io1 & F1); [apply H..|lia| |].
  { split; cbn; [by split_and!|done|]. split; [apply Hco|]. eapply content_addrs; [exact Hco| |].
    - exact (image_owned s nodes H 0 g Hg).
    - lia. }
  destruct (mark_bits_spec (Z.to_nat (freeblock s)) 0 zeroes) as (d & Rd & Ld & Ud); [done|lia| |].
  { intros b Hb. rewrite used_zeroes by done. symmetry. apply Z.ltb_ge. lia. }
  exists (<[58%nat := d]> V1). split.
  - unfold fix_root_size. mrun.
    rewrite (bind_ok _ _ _ _ _ (rinode_run s _ 1 _ (im_sb _ _ H) (im_disk _ _ H) ltac:(lia) Hino)).
    cbn [d_size]. rewrite (xint_small sz) by done. rewrite (Z.mul_comm (_ + 1)), w32_small by done.
    unfold set_din_size. cbn [d_type d_major d_minor d_nlink d_addrs]. rewrite xint_small by done.
    rewrite (bind_ok _ _ _ _ _ R1). mrun. cbn [freeblock set_img].
    unfold balloc. rewrite i32_small by lia. rewrite (proj2 (Z.ltb_lt _ _)) by (unfold BSIZE; lia).
    fold zeroes. rewrite Rd. mrun. cbn [gsb set_img]. rewrite (im_sb _ _ H).
    change (sb_bmapstart mk_sb) with 58. rewrite (wsect_run _ (freeblock s)) by (exact D1 || lia). done.
  - assert (58 < length V1)%nat as H58 by (rewrite (dk_len _ _ D1); unfold FSSIZE; lia).
    assert (forall b, 0 <= b -> b < 32 \/ 58 < b ->
      <[58%nat := d]> V1 !! Z.to_nat b = img s !! Z.to_nat b) as F.
    { intros b H0 Hb. rewrite list_lookup_insert_ne by lia. apply F1; lia. }
    split; [split|].
    + apply (disk_insert V1 (freeblock s) 58); [done|lia|done].
    + exists d. split; [by apply list_lookup_insert_eq|]. intros b Hb. rewrite Ud by done. f_equal. lia.
    + exists addrs. split; [done|]. etransitivity; [|exact I1]. apply disk_inode_frame; [|lia].
      intros b Hb. rewrite list_lookup_insert_ne; [done|]. lia.
    + intros j Hj. rewrite <- Io1 by lia. apply disk_inode_frame; [|lia].
      intros b Hb. rewrite list_lookup_insert_ne; [done|]. lia.
    + etransitivity; [apply (F 1); lia|]. apply (im_meta _ _ H 1). lia.
    + intros b Hb. apply F; lia.
    + etransitivity; [apply (F 2); lia|]. apply (im_meta _ _ H 2). lia.
Qed.

(** ** What the kernel reads *)

Section View.
Context (V : list block) (fb : Z) (addrs c bl : list Z) (ia : Z) (ip : inode).
Hypothesis Hd : disk_ok V fb.
Hypothesis Hco : content_ok V addrs c bl ia.
Hypothesis Hown : owned fb (own bl ia).
Hypothesis Hdev : i_dev ip = 1.
Hypothesis Htype : i_type ip <> T_DEV.
Hypothesis Haddrs : i_addrs ip = addrs.

Lemma view_block k a : bl !! k = Some a -> block_of a = Z.to_nat a /\ nmeta <= a < fb.
Proof using Hd Hco Hown.
  intros Ha. destruct (own_bl _ _ _ _ _ _ _ _ Hco Hown Ha) as [_ H]. split; [|done].
  pose proof (dk_fb _ _ Hd). change nmeta with 59 in *. apply block_of_small. lia.
Qed.

Lemma view_ia : ia <> 0 -> block_of ia = Z.to_nat ia /\ nmeta <= ia < fb.
Proof using Hd Hco Hown.
  intros Hia. destruct (own_ia _ _ _ _ _ _ Hco Hown Hia) as [_ H]. split; [|done].
  pose proof (dk_fb _ _ Hd). change nmeta with 59 in *. apply block_of_small. lia.
Qed.

Lemma view_addr k : 0 <= k < MAXFILE -> addr_of V ip k = default 0 (bl !! Z.to_nat k).
Proof using Hd Hco Hown Haddrs.
  intros Hk. change MAXFILE with 140 in Hk. unfold addr_of. rewrite Haddrs.
  destruct (Z.ltb_spec k (Z.of_nat NDIRECT)) as [Hlt|Hge].
  - rewrite zlookup_nonneg, (co_direct _ _ _ _ _ Hco) by lia. done.
  - rewrite (co_ia _ _ _ _ _ Hco). cbn [default from_option]. unfold id.
    destruct (Z.eqb_spec ia 0) as [He|Hia].
    + apply (co_none _ _ _ _ _ Hco) in He. by rewrite lookup_ge_None_2 by lia.
    + rewrite (proj1 (view_ia Hia)). destruct (co_indirect _ _ _ _ _ Hco Hia) as (d & HV & Hw).
      rewrite (list_lookup_total_correct _ _ _ HV). unfold NDIRECT, NINDIRECT in *.
      rewrite Hw by lia. cbn [default from_option]. unfold id.
      by replace (12 + Z.to_nat (k - Z.of_nat 12))%nat with (Z.to_nat k) by lia.
Qed.

Lemma view_at k : 0 <= k < Z.of_nat (length bl) ->
  exists a, bl !! Z.to_nat k = Some a /\ addr_of V ip k = a /\ nmeta <= a < fb /\
    V !! block_at V ip k = Some (piece c (Z.to_nat k)).
Proof using Hd Hco Hown Haddrs.
  intros Hk. destruct (lookup_lt_is_Some_2 bl (Z.to_nat k)) as [a Ha]; [lia|].
  pose proof (co_max _ _ _ _ _ Hco) as Hmax. change (NDIRECT + NINDIRECT)%nat with 140%nat in Hmax.
  assert (addr_of V ip k = a) as Hka by (rewrite view_addr, Ha by (change MAXFILE with 140; lia); done).
  destruct (view_block _ _ Ha) as [Hb Hr]. exists a. split_and!; try done; try lia.
  unfold block_at. rewrite Hka, Hb. exact (co_block _ _ _ _ _ Hco _ _ Ha).
Qed.

Lemma view_file_ok e : e <= 512 * Z.of_nat (length bl) -> file_ok V ip e.
Proof using All.
  intros He. pose proof (co_max _ _ _ _ _ Hco) as Hmax. change (NDIRECT + NINDIRECT)%nat with 140%nat in Hmax.
  split; [done|done|by rewrite Haddrs, (co_length _ _ _ _ _ Hco)|change MAXFILE with 140; lia| |].
  - intros k H0 Hk. destruct (view_at k) as (a & _ & -> & Ha & HV); [lia|].
    change nmeta with 59 in Ha. split; [lia|]. eexists. split; [done|apply piece_length].
  - intros Hi. unfold NDIRECT in Hi. assert (ia <> 0) as Hia.
    { intros H0%(co_none _ _ _ _ _ Hco). unfold NDIRECT in H0. lia. }
    destruct (co_indirect _ _ _ _ _ Hco Hia) as (d & HV & _). exists ia, d.
    rewrite Haddrs, (proj1 (view_ia Hia)). split_and!; [apply Hco|done|done|].
    exact (Forall_lookup_1 _ _ _ _ (dk_blocks _ _ Hd) HV).
Qed.

Lemma view_byte p : 0 <= p < 512 * Z.of_nat (length bl) -> byte_of V ip p = default 0 (c !! Z.to_nat p).
Proof using Hd Hco Hown Haddrs.
  intros Hp. pose proof (Z.mod_pos_bound p 512 ltac:(lia)) as Hmod.
  pose proof (Z.div_mod p 512 ltac:(lia)) as Hdm. pose proof (Z.div_pos p 512 ltac:(lia) ltac:(lia)) as H0.
  destruct (view_at (p / 512)) as (a & _ & _ & _ & HV); [lia|].
  unfold byte_of. rewrite (list_lookup_total_correct _ _ _ HV), zlookup_nonneg by lia.
  rewrite piece_lookup by (unfold BSIZE; lia). cbn [default from_option]. unfold id. do 2 f_equal.
  unfold BSIZE. lia.
Qed.

Lemma view_bytes off n :
  0 <= off -> 0 <= n -> off + n <= Z.of_nat (length c) ->
  file_bytes V ip off n = slice (Z.to_nat off) (Z.to_nat n) c.
Proof using Hd Hco Hown Haddrs.
  intros H0 Hn Hle. pose proof (co_size _ _ _ _ _ Hco) as Hs. unfold BSIZE in Hs.
  apply list_eq. intros j. destruct (decide (j < Z.to_nat n)%nat) as [Hj|Hj].
  - rewrite <- (Nat2Z.id j) at 1. rewrite file_bytes_lookup, view_byte, slice_lookup by lia.
    destruct (lookup_lt_is_Some_2 c (Z.to_nat off + j)) as [x Hx]; [lia|].
    replace (Z.to_nat (off + Z.of_nat j)) with (Z.to_nat off + j)%nat by lia. by rewrite Hx.
  - rewrite !lookup_ge_None_2; [done|rewrite slice_length; lia|rewrite file_bytes_length; lia].
Qed.

Lemma view_end off n :
  Z.of_nat (length c) <= off -> 0 <= n -> off + n <= 512 * Z.of_nat (length bl) ->
  file_bytes V ip off n = replicate (Z.to_nat n) 0.
Proof using Hd Hco Hown Haddrs.
  intros H0 Hn Hle. apply list_eq. intros j. destruct (decide (j < Z.to_nat n)%nat) as [Hj|Hj].
  - rewrite <- (Nat2Z.id j) at 1. rewrite file_bytes_lookup, view_byte, lookup_replicate_2 by lia.
    by rewrite lookup_ge_None_2 by lia.
  - rewrite !lookup_ge_None_2; [done|rewrite length_replicate; lia|rewrite file_bytes_length; lia].
Qed.
End View.

Lemma root_slice es j e :
  es !! j = Some e -> slice (16 * j) 16 (root_bytes es) = de_bytes e.1 e.2.
Proof.
  revert j. induction es as [|e0 es IH]; intros [|j] Hj; cbn in Hj; try done.
  - apply (inj Some) in Hj as ->. unfold slice, root_bytes. cbn [map concat]. rewrite drop_0.
    by rewrite take_app_length' by (by rewrite de_bytes_length).
  - rewrite <- (IH j Hj). unfold slice, root_bytes. cbn [map concat]. f_equal.
    rewrite drop_app_ge by (rewrite de_bytes_length; lia). rewrite de_bytes_length. f_equal. lia.
Qed.

Lemma de_bytes_entry inum name :
  0 <= inum < 2 ^ 16 -> le_val (take 2 (de_bytes inum name)) = inum /\
    drop 2 (de_bytes inum name) = strncpy_bytes name DIRSIZ.
Proof.
  intros Hi. unfold de_bytes, dirent_bytes. cbn [de_inum de_name]. rewrite xshort_small by done.
  rewrite take_app_length', drop_app_length', le_val_bytes by (by rewrite length_le_bytes).
  split; [by apply Z.mod_small|done].
Qed.

(** The inode as the kernel's [ilock] fills it in from the disk. *)
Definition loaded (inum : Z) (x : dinode) : inode :=
  Inode 1 inum 1 None true (d_type x) (d_major x) (d_minor x) (d_nlink x) (d_size x) (d_addrs x).

Definition ilocked (V : list block) (sb : superblock) (inum : Z) : option inode :=
  d ← V !! IBLOCK inum sb; loaded inum <$> get_dinode (Z.to_nat (inum mod IPB)) d.

Lemma ilocked_disk V inum x :
  0 <= inum < 208 -> disk_inode V inum = Some x -> ilocked V mk_sb inum = Some (loaded inum x).
Proof.
  intros Hi Hx. pose proof (inode_block inum Hi) as [Hb _]. unfold ilocked, disk_inode, IBLOCK in *.
  change (sb_inodestart mk_sb) with 32 in *. rewrite block_of_small by lia.
  destruct (V !! _) as [d|]; [|done]. cbn [mbind option_bind] in *. by rewrite Hx.
Qed.

(** The disk [V], whose first [fb] blocks are in use, holds the files [contents] under the
    names [args]. *)
Record built (V : list block) (args contents : list (list Z)) (fb : Z) : Prop := Built {
  bt_size : length V = FSSIZE /\ Forall (fun d => length d = BSIZE) V;
  bt_super : exists d, V !! 1%nat = Some d /\ read_sb d = Some mk_sb;
  (** The log is empty. *)
  bt_log : V !! 2%nat = Some zeroes;
  bt_files : forall k c, contents !! k = Some c ->
    exists ip, ilocked V mk_sb (2 + Z.of_nat k) = Some ip /\
      i_type ip = T_FILE /\ i_nlink ip = 1 /\ i_size ip = Z.of_nat (length c) /\
      file_ok V ip (i_size ip) /\ file_bytes V ip 0 (i_size ip) = c;
  (** The size of the root is the next multiple of the block size past its entries.  Where
      these do not end with a block, the rest of the block are empty entries; where they do,
      the last block of the root does not exist. *)
  bt_root : let es := dots ++ numbered 2 args in
    let n := length es in let n' := (32 * (n / 32 + 1))%nat in
    exists ip, ilocked V mk_sb ROOTINO = Some ip /\
      i_type ip = T_DIR /\ i_nlink ip = 1 /\ i_size ip = 16 * Z.of_nat n' /\
      file_ok V ip (16 * Z.of_nat n) /\
      (forall j e, es !! j = Some e ->
         entry_inum V ip j = e.1 /\ entry_name V ip j = strncpy_bytes e.2 DIRSIZ) /\
      ((n mod 32 <> 0)%nat -> dir_ok V ip n' /\
         forall j, (n <= j < n')%nat -> entry_inum V ip j = 0) /\
      ((n mod 32 = 0)%nat -> addr_of V ip (Z.of_nat (n / 32)) = 0);
  bt_unused : forall inum, 2 + Z.of_nat (length args) <= inum < NINODES ->
    i_type <$> ilocked V mk_sb inum = Some 0;
  (** No block belongs to two files, or to one of them twice; the bitmap has the blocks
      of the files and of the tables in front of them, and no others. *)
  bt_apart : forall inum inum' ip ip' k k',
    1 <= inum < 2 + Z.of_nat (length args) -> 1 <= inum' < 2 + Z.of_nat (length args) ->
    ilocked V mk_sb inum = Some ip -> ilocked V mk_sb inum' = Some ip' ->
    0 <= k < MAXFILE -> 0 <= k' < MAXFILE -> addr_of V ip k <> 0 ->
    nmeta <= addr_of V ip k < fb /\
      (addr_of V ip k = addr_of V ip' k' -> inum = inum' /\ k = k');
  bt_bitmap : forall b, 0 <= b < sb_size mk_sb -> block_used V mk_sb b = (b <? fb);
  bt_count : fb = nmeta + ftotal ((T_DIR, root_bytes (dots ++ numbered 2 args)) :: map (pair T_FILE) contents)
}.

Lemma numbered_lookup m j (l : list (list Z)) e : numbered m l !! j = Some e -> e.1 = m + Z.of_nat j.
Proof.
  revert m j. induction l as [|a l IH]; intros m [|j] He; cbn in He; try done.
  - apply (inj Some) in He as <-. cbn. lia.
  - rewrite (IH _ _ He). lia.
Qed.

Lemma entries_length args : (length args <= 198)%nat -> (length (dots ++ numbered 2 args) <= 200)%nat.
Proof. intros H. rewrite length_app, numbered_length. cbn. lia. Qed.

Section Finished.
Context (s : mkst) (nodes : list node) (g0 : node) (V : list block).
Hypothesis Him : image_ok s nodes.
Hypothesis Hg0 : nodes !! 0%nat = Some g0.
Hypothesis Hfin : finished s g0 V.

Definition fixed_size (i : nat) (g : node) : Z :=
  match i with O => 512 * (n_size g / 512 + 1) | S _ => n_size g end.

Lemma node_loaded i g :
  nodes !! i = Some g ->
  exists addrs, ilocked V mk_sb (1 + Z.of_nat i) =
      Some (loaded (1 + Z.of_nat i) (Dinode (n_type g) 0 0 1 (fixed_size i g) addrs)) /\
    content_ok V addrs (n_bytes g) (n_blocks g) (n_ind g) /\ owned (freeblock s) (n_own g) /\
    Z.of_nat (length (n_blocks g)) = nbl (n_size g).
Proof using All.
  intros Hg. pose proof (lookup_lt_Some _ _ _ Hg) as Hi. pose proof (im_count _ _ Him) as Hc.
  pose proof (image_owned s nodes Him i g Hg) as Hown.
  destruct (im_node _ _ Him i g Hg) as [_ (addrs & Hino & Hco) Hcnt]. exists addrs.
  assert (content_ok V addrs (n_bytes g) (n_blocks g) (n_ind g)) as Hco'.
  { eapply content_frame; [|exact Hco]. intros b Hb. destruct Hown as [_ Ho].
    rewrite Forall_forall in Ho. specialize (Ho b Hb). change nmeta with 59 in Ho.
    apply (fn_same _ _ _ Hfin); lia. }
  split_and!; [|done..]. apply ilocked_disk; [lia|]. destruct i as [|i].
  - assert (g = g0) as -> by congruence. destruct (fn_root _ _ _ Hfin) as (addrs' & H1 & H2).
    change (1 + Z.of_nat 0) with 1 in *. rewrite Hino in H1. injection H1 as <-. exact H2.
  - rewrite (fn_inodes _ _ _ Hfin) by lia. exact Hino.
Qed.

Lemma nodes_apart i i' g g' k k' a :
  nodes !! i = Some g -> nodes !! i' = Some g' -> n_blocks g !! k = Some a -> n_blocks g' !! k' = Some a ->
  i = i' /\ k = k'.
Proof using All.
  intros Hg Hg' Ha Ha'. destruct (decide (i = i')) as [<-|Hne].
  - assert (g = g') as <- by congruence. split; [done|].
    destruct (image_owned s nodes Him i g Hg) as [Hnd _]. unfold n_own, own in Hnd.
    apply NoDup_app in Hnd as (Hnd & _). by eapply NoDup_lookup.
  - exfalso. apply (image_apart s nodes Him i i' g g' a Hg Hg' Hne); apply elem_of_app; left;
      by eapply list_elem_of_lookup_2.
Qed.

Lemma built_apart i i' ip ip' k k' :
  (i < length nodes)%nat -> (i' < length nodes)%nat ->
  ilocked V mk_sb (1 + Z.of_nat i) = Some ip -> ilocked V mk_sb (1 + Z.of_nat i') = Some ip' ->
  0 <= k < MAXFILE -> 0 <= k' < MAXFILE -> addr_of V ip k <> 0 ->
  nmeta <= addr_of V ip k < freeblock s /\
    (addr_of V ip k = addr_of V ip' k' -> i = i' /\ k = k').
Proof using All.
  intros Hi Hi' Hip Hip' Hk Hk' Hne.
  destruct (lookup_lt_is_Some_2 nodes i Hi) as [g Hg]. destruct (lookup_lt_is_Some_2 nodes i' Hi') as [g' Hg'].
  destruct (node_loaded i g Hg) as (addrs & R & Hco & Hown & _).
  destruct (node_loaded i' g' Hg') as (addrs' & R' & Hco' & Hown' & _).
  rewrite Hip in R. rewrite Hip' in R'. apply (inj Some) in R, R'. pose proof (fn_disk _ _ _ Hfin) as Hd.
  rewrite (view_addr V (freeblock s) addrs _ _ _ ip Hd Hco Hown) in * by (subst; done).
  rewrite (view_addr V (freeblock s) addrs' _ _ _ ip' Hd Hco' Hown') in * by (subst; done).
  destruct (n_blocks g !! Z.to_nat k) as [a|] eqn:Ha; [|done]. cbn [default from_option] in *. unfold id in *.
  split; [by apply (own_bl _ _ _ _ _ _ _ _ Hco Hown Ha)|].
  destruct (n_blocks g' !! Z.to_nat k') as [a'|] eqn:Ha'; cbn [default from_option]; [|by intros ->].
  unfold id. intros <-. destruct (nodes_apart i i' g g' _ _ a Hg Hg' Ha Ha'). split; [done|lia].
Qed.

Context (args contents : list (list Z)).
Let es := dots ++ numbered 2 args.
Hypothesis Hmap : map (fun g => (n_type g, n_bytes g)) nodes =
  (T_DIR, root_bytes es) :: map (pair T_FILE) contents.
Hypothesis Hlen : length contents = length args.
Hypothesis Hargs : (length args <= 198)%nat.

Lemma nodes_length : length nodes = S (length args).
Proof using Hmap Hlen.
  apply (f_equal length) in Hmap. rewrite length_map in Hmap. cbn in Hmap.
  by rewrite length_map, Hlen in Hmap.
Qed.

Lemma file_node k c : contents !! k = Some c ->
  exists g, nodes !! S k = Some g /\ n_type g = T_FILE /\ n_bytes g = c.
Proof using Hmap.
  intros Hc. assert (map (fun g => (n_type g, n_bytes g)) nodes !! S k = Some (T_FILE, c)) as Hg.
  { rewrite Hmap. change ((pair T_FILE <$> contents) !! k = Some (T_FILE, c)).
    by rewrite list_lookup_fmap, Hc. }
  apply list_lookup_fmap_Some in Hg as (g & Hgt & Hg). injection Hgt as -> ->. by exists g.
Qed.

Lemma root_node : n_type g0 = T_DIR /\ n_bytes g0 = root_bytes es.
Proof using Hmap Hg0.
  assert (map (fun g => (n_type g, n_bytes g)) nodes !! 0%nat = Some (T_DIR, root_bytes es)) as Hg
    by (by rewrite Hmap).
  apply list_lookup_fmap_Some in Hg as (g & Hgt & Hg). injection Hgt as -> ->.
  assert (g = g0) as -> by congruence. done.
Qed.

Lemma built_file k c : contents !! k = Some c ->
  exists ip, ilocked V mk_sb (2 + Z.of_nat k) = Some ip /\
    i_type ip = T_FILE /\ i_nlink ip = 1 /\ i_size ip = Z.of_nat (length c) /\
    file_ok V ip (i_size ip) /\ file_bytes V ip 0 (i_size ip) = c.
Proof using All.
  intros Hc. destruct (file_node k c Hc) as (g & Hg & Hty & <-).
  destruct (node_loaded (S k) g Hg) as (addrs & R & Hco & Hown & Hcnt).
  replace (1 + Z.of_nat (S k)) with (2 + Z.of_nat k) in R by lia. unfold n_size in *.
  pose proof (fn_disk _ _ _ Hfin) as Hd.
  eexists. split; [exact R|]. cbn [loaded i_type i_nlink i_size d_type d_nlink d_size fixed_size].
  split_and!; [done..| |].
  - eapply view_file_ok; [done..|cbn; by rewrite Hty|done|]. rewrite Hcnt. unfold nbl, n_size.
    Z.div_mod_to_equations. lia.
  - erewrite view_bytes by (done || unfold n_size; lia). unfold n_size, slice. rewrite Nat2Z.id, drop_0.
    by rewrite take_ge.
Qed.

Lemma entry_number j e : es !! j = Some e -> 0 <= e.1 < 2 ^ 16.
Proof using All.
  intros He. pose proof (lookup_lt_Some _ _ _ He) as Hj. unfold es in *.
  rewrite length_app, numbered_length in Hj. destruct j as [|[|j]]; cbn in He, Hj.
  - apply (inj Some) in He as <-. cbn. lia.
  - apply (inj Some) in He as <-. cbn. lia.
  - rewrite (numbered_lookup _ _ _ _ He). lia.
Qed.

Lemma built_root : let n := length es in let n' := (32 * (n / 32 + 1))%nat in
  exists ip, ilocked V mk_sb ROOTINO = Some ip /\
    i_type ip = T_DIR /\ i_nlink ip = 1 /\ i_size ip = 16 * Z.of_nat n' /\
    file_ok V ip (16 * Z.of_nat n) /\
    (forall j e, es !! j = Some e ->
       entry_inum V ip j = e.1 /\ entry_name V ip j = strncpy_bytes e.2 DIRSIZ) /\
    ((n mod 32 <> 0)%nat -> dir_ok V ip n' /\
       forall j, (n <= j < n')%nat -> entry_inum V ip j = 0) /\
    ((n mod 32 = 0)%nat -> addr_of V ip (Z.of_nat (n / 32)) = 0).
Proof using All.
  intros n n'. destruct root_node as [Hty Hb].
  pose proof (Nat.div_mod_eq n 32) as Hq. pose proof (Nat.mod_upper_bound n 32 ltac:(lia)) as Hr.
  destruct (node_loaded 0 g0 Hg0) as (addrs & R & Hco & Hown & Hcnt).
  pose proof (fn_disk _ _ _ Hfin) as Hd. unfold n_size in *. rewrite Hb, root_bytes_length in *.
  cbn [fixed_size] in R. unfold n_size in R. rewrite Hb, root_bytes_length in R. fold n in R, Hcnt.
  change (1 + Z.of_nat 0) with ROOTINO in R. set (ip := loaded ROOTINO _) in R.
  assert (i_type ip <> T_DEV) as Hdev by (unfold ip; cbn; by rewrite Hty).
  assert (i_size ip = 16 * Z.of_nat n') as Hsz.
  { unfold ip, n'. cbn [loaded i_size d_size]. Z.div_mod_to_equations. lia. }
  assert (16 * Z.of_nat n <= 512 * Z.of_nat (length (n_blocks g0))) as Hn.
  { rewrite Hcnt. unfold nbl. Z.div_mod_to_equations. lia. }
  assert (length (root_bytes es) = (16 * n)%nat) as Hlr by apply root_bytes_length.
  exists ip. split_and!; [exact R|done|done|exact Hsz|by eapply view_file_ok| | |].
  - intros j e He. pose proof (lookup_lt_Some _ _ _ He) as Hj. fold n in Hj.
    unfold entry_inum, entry_name, entry_bytes.
    erewrite (view_bytes V) by (done || lia). replace (Z.to_nat (16 * Z.of_nat j)) with (16 * j)%nat by lia.
    change (Z.to_nat 16) with 16%nat. rewrite (root_slice es j e He). apply de_bytes_entry.
    by apply (entry_number j).
  - intros Hm. assert (16 * Z.of_nat n' <= 512 * Z.of_nat (length (n_blocks g0))) as Hn'.
    { rewrite Hcnt. unfold nbl, n'. Z.div_mod_to_equations. lia. }
    split; [split; [rewrite Hsz; by eapply view_file_ok|done|done]|].
    intros j Hj. unfold entry_inum, entry_bytes. erewrite (view_end V) by (done || lia). reflexivity.
  - intros Hm. assert (Z.of_nat (n / 32) = Z.of_nat (length (n_blocks g0))) as Hk.
    { rewrite Hcnt. unfold nbl. Z.div_mod_to_equations. lia. }
    pose proof (entries_length args Hargs) as Hes. fold es n in Hes.
    erewrite (view_addr V) by (done || (change MAXFILE with 140; lia)).
    by rewrite lookup_ge_None_2 by lia.
Qed.
End Finished.

Section Main.
Context `{Host} (prog image : list Z) (args contents : list (list Z)).
Hypothesis Hcreate : host_create image = true.
Hypothesis Hreads : Forall2 reads_as args contents.
Hypothesis Hargs : (length args <= 198)%nat.
Hypothesis Hmax : Forall (fun c => Z.of_nat (length c) <= 512 * MAXFILE) contents.
Hypothesis Hroom : nmeta + ftotal ((T_DIR, root_bytes (dots ++ numbered 2 args)) ::
  map (pair T_FILE) contents) <= 1000.

Lemma main_run :
  exists s nodes g0 V, main (prog :: image :: args) mk_start = Ok (tt, set_img V s) /\
    image_ok s nodes /\ nodes !! 0%nat = Some g0 /\ finished s g0 V /\
    V !! 2%nat = Some zeroes /\
    map (fun g => (n_type g, n_bytes g)) nodes =
      (T_DIR, root_bytes (dots ++ numbered 2 args)) :: map (pair T_FILE) contents.
Proof using All.
  destruct write_super_run as (s1 & R1 & H1). destruct (make_root_run s1 H1) as (s2 & R2 & H2).
  destruct (add_files_run args contents s2 dots [] H2 Hreads) as (s3 & R3 & H3);
    [cbn; lia|cbn; lia|done|exact Hroom|].
  destruct H3 as (nodes & H3 & Hmap). destruct nodes as [|g0 nodes]; [done|].
  destruct (root_node (g0 :: nodes) g0 eq_refl args contents Hmap) as [_ Hb].
  destruct (fix_root_run s3 (g0 :: nodes) g0 H3 eq_refl) as (V & R4 & Hfin & Hlog).
  { unfold n_size. rewrite Hb, root_bytes_length, length_app, numbered_length.
    change (512 * MAXFILE) with 71680. cbn [length dots]. lia. }
  exists s3, (g0 :: nodes), g0, V. split_and!; [|done..].
  unfold main. rewrite Hcreate. cbn [negb].
  rewrite (bind_ok _ _ _ _ _ R1), (bind_ok _ _ _ _ _ R2), (bind_ok _ _ _ _ _ R3). exact R4.
Qed.

(** C15. mkfs ends with a disk that holds the files.  The kernel finds there a super block with
    an empty log, the bytes of each file under its number, a root directory with the entries
    ".", ".." and the names, cut to the length of an entry and without a leading underscore, in
    order, and unused inodes behind them; no block is in two files, and the bitmap marks
    just the blocks that are used, of which there are no more than the files need.  This is
    so for at most 198 files that are no larger than the kernel allows and together fit on
    the disk. *)
Theorem mkfs_builds_the_files :
  exists s, main (prog :: image :: args) mk_start = Ok (tt, s) /\
    built (img s) args contents (freeblock s).
Proof using All.
  destruct main_run as (s & nodes & g0 & V & R & Him & Hg0 & Hfin & Hlog & Hmap).
  exists (set_img V s). split; [exact R|]. cbn [img freeblock set_img].
  pose proof (Forall2_length _ _ _ Hreads) as Hlen. symmetry in Hlen.
  pose proof (nodes_length nodes args contents Hmap Hlen) as Hn.
  pose proof (fn_disk _ _ _ Hfin) as Hd. split.
  - split; [apply Hd|apply (dk_blocks _ _ Hd)].
  - exists super_block. split; [apply Hfin|vm_compute; reflexivity].
  - exact Hlog.
  - by apply (built_file s nodes g0 V Him Hg0 Hfin args contents).
  - by apply (built_root s nodes g0 V Him Hg0 Hfin args contents).
  - intros inum Hi. change NINODES with 200 in Hi. rewrite (ilocked_disk V inum free_dinode); [done|lia|].
    rewrite (fn_inodes _ _ _ Hfin) by lia. apply (im_unused _ _ Him). lia.
  - intros inum inum' ip ip' k k' Hi Hi' Hip Hip' Hk Hk' Hne.
    replace inum with (1 + Z.of_nat (Z.to_nat (inum - 1))) in Hip by lia.
    replace inum' with (1 + Z.of_nat (Z.to_nat (inum' - 1))) in Hip' by lia.
    destruct (built_apart s nodes g0 V Him Hg0 Hfin (Z.to_nat (inum - 1)) (Z.to_nat (inum' - 1))
      ip ip' k k' ltac:(lia) ltac:(lia) Hip Hip' Hk Hk' Hne) as [Hr He]. split; [exact Hr|].
    intros Heq. destruct (He Heq). split; [lia|done].
  - intros b Hb. change (sb_size mk_sb) with 1000 in Hb. unfold block_used, BBLOCK, BPB.
    rewrite Z.div_small, Z.mod_small by lia. change (block_of (0 + sb_bmapstart mk_sb)) with 58%nat.
    destruct (fn_bitmap _ _ _ Hfin) as (d & HV & Hu). rewrite (list_lookup_total_correct _ _ _ HV).
    apply Hu. lia.
  - apply files_total. by exists nodes.
Qed.
End Main.

(** Two files, the first of which needs its indirect block. *)
Definition two_files : Host := {|
  host_create _ := true;
  host_pieces name :=
    if bool_decide (name = [95; 97]) then Some (replicate 13 (replicate 512 7) ++ [[1; 2; 3]])
    else if bool_decide (name = [98]) then Some [[104; 105]] else None |}.

Lemma mkfs_builds_the_files_witness :
  exists s, @main two_files [[109]; [105]; [95; 97]; [98]] mk_start = Ok (tt, s) /\
    built (img s) [[95; 97]; [98]] [replicate (13 * 512) 7 ++ [1; 2; 3]; [104; 105]] (freeblock s).
Proof.
  apply (@mkfs_builds_the_files two_files [109] [105] [[95; 97]; [98]]).
  - reflexivity.
  - constructor; [|constructor; [|constructor]].
    + split; [reflexivity|]. eexists. split; [reflexivity|]. split; [|vm_compute; reflexivity].
      repeat (constructor; [done|]). constructor.
    + split; [reflexivity|]. eexists. split; [reflexivity|]. split; [|reflexivity].
      repeat (constructor; [done|]). constructor.
  - cbn. lia.
  - repeat constructor; vm_compute; discriminate.
  - vm_compute. discriminate.
Defined.
