(* ===== verification/Kalloc.v ===== *)
(** * The physical memory allocator

    Kernel addresses from [KERNBASE] on map the physical memory directly; the physical
    pages that exist are lists of 4096 bytes.  An access to a page that does not exist,
    or across the end of a page, is a fault of the model.  [lab-2/kalloc.c] keeps the
    free pages in a list that is stored in the pages themselves. *)

From S2P Require Import Prelude Bytes CString Layout.

(** ** Physical memory *)

(** The pages that exist, by their number, what [kalloc.c] keeps, the page directory of
    the kernel and the register with the one in use. *)
Record machine := Machine {
  pages : gmap Z (list Z);
  kmem_locked : bool;
  use_lock : bool;
  freelist : Z;
  kpgdir : Z;
  cr3 : Z
}.

Definition set_pages v s :=
  Machine v (kmem_locked s) (use_lock s) (freelist s) (kpgdir s) (cr3 s).
Definition set_kmem_locked v s :=
  Machine (pages s) v (use_lock s) (freelist s) (kpgdir s) (cr3 s).
Definition set_use_lock v s :=
  Machine (pages s) (kmem_locked s) v (freelist s) (kpgdir s) (cr3 s).
Definition set_freelist v s :=
  Machine (pages s) (kmem_locked s) (use_lock s) v (kpgdir s) (cr3 s).
Definition set_kpgdir v s :=
  Machine (pages s) (kmem_locked s) (use_lock s) (freelist s) v (cr3 s).
Definition set_cr3 v s :=
  Machine (pages s) (kmem_locked s) (use_lock s) (freelist s) (kpgdir s) v.

Abbreviation Mem := (M machine).

(** The page and the offset of a kernel address. *)
Definition page_of (v : Z) : Z := V2P v / PGSIZE.
Definition offset_of (v : Z) : nat := Z.to_nat (v mod PGSIZE).

Definition get_page (v : Z) : Mem (list Z) :=
  s ← get; lift_opt "page" (pages s !! page_of v).
Definition put_page (v : Z) (d : list Z) : Mem unit :=
  modify (fun s => set_pages (<[page_of v := d]> (pages s)) s).

(** [*(uint* )v], read and written. *)
Definition ld (v : Z) : Mem Z :=
  d ← get_page v; lift_opt "address" (get_le 4 (offset_of v) d).
Definition sto (v x : Z) : Mem unit :=
  d ← get_page v; d' ← lift_opt "address" (put_le 4 (offset_of v) x d); put_page v d'.

(** [n] bytes at [v], in one page. *)
Definition load_bytes (v : Z) (n : nat) : Mem (list Z) :=
  d ← get_page v;
  if (offset_of v + n <=? length d)%nat then mret (slice (offset_of v) n d)
  else fault "address".
Definition store_bytes (v : Z) (l : list Z) : Mem unit :=
  d ← get_page v;
  if (offset_of v + length l <=? length d)%nat then put_page v (splice (offset_of v) l d)
  else fault "address".

(** [memset(v, c, n)]. *)
Definition memset_page (v c : Z) (n : nat) : Mem unit := store_bytes v (replicate n (w8 c)).

(** ** kalloc.c *)

(** The addresses the linker assigns, [end] and [data] of [kernel.ld]. *)
Class Linker := { kend : Z; kdata : Z }.

Definition acquire_kmem : Mem unit :=
  s ← get; if kmem_locked s then panic "acquire" else modify (set_kmem_locked true).
Definition release_kmem : Mem unit :=
  s ← get; if kmem_locked s then modify (set_kmem_locked false) else panic "release".

Definition kfree `{Linker} (v : Z) : Mem unit :=
  if negb (v mod PGSIZE =? 0) || (v <? kend) || (PHYSTOP <=? V2P v) then panic "kfree"
  else
    memset_page v 1 (Z.to_nat PGSIZE) ;;
    u ← gets use_lock;
    when u acquire_kmem ;;
    r ← gets freelist;
    sto v r ;;
    modify (set_freelist v) ;;
    u ← gets use_lock;
    when u release_kmem.

Definition kalloc : Mem Z :=
  u ← gets use_lock;
  when u acquire_kmem ;;
  r ← gets freelist;
  when (negb (r =? 0)) (n ← ld r; modify (set_freelist n)) ;;
  u ← gets use_lock;
  when u release_kmem ;;
  mret r.

(** The loop of [freerange]; one page for each round. *)
Fixpoint free_loop `{Linker} (fuel : nat) (p vend : Z) : Mem unit :=
  match fuel with
  | O => diverge
  | S fuel' =>
      if w32 (p + PGSIZE) <=? vend then kfree p ;; free_loop fuel' (w32 (p + PGSIZE)) vend
      else mret tt
  end.

Definition freerange `{Linker} (vstart vend : Z) : Mem unit :=
  let p := PGROUNDUP vstart in
  free_loop (S (Z.to_nat ((vend - p) / PGSIZE))) p vend.

Definition kinit1 `{Linker} (vstart vend : Z) : Mem unit :=
  modify (set_kmem_locked false) ;;
  modify (set_use_lock false) ;;
  freerange vstart vend.

Definition kinit2 `{Linker} (vstart vend : Z) : Mem unit :=
  freerange vstart vend ;;
  modify (set_use_lock true).
