(* ===== verification/KallocSpec.v ===== *)
(** * The allocator as a stack of pages *)

From S2P Require Import Prelude Bytes CString Layout Kalloc.

(** ** Memory accesses *)

Lemma get_page_run s v d : pages s !! page_of v = Some d -> get_page v s = Ok (d, s).
Proof. intros H. unfold get_page. mrun. by rewrite H. Qed.

Lemma ld_run s v d x :
  pages s !! page_of v = Some d -> get_le 4 (offset_of v) d = Some x -> ld v s = Ok (x, s).
Proof. intros H Hx. unfold ld. rewrite (bind_ok _ _ _ _ _ (get_page_run s v d H)). by rewrite Hx. Qed.

Lemma sto_run s v x d d' :
  pages s !! page_of v = Some d -> put_le 4 (offset_of v) x d = Some d' ->
  sto v x s = Ok (tt, set_pages (<[page_of v := d']> (pages s)) s).
Proof.
  intros H Hx. unfold sto. rewrite (bind_ok _ _ _ _ _ (get_page_run s v d H)).
  by rewrite Hx, bind_lift_Some.
Qed.

Lemma store_bytes_run s v l d :
  pages s !! page_of v = Some d -> (offset_of v + length l <= length d)%nat ->
  store_bytes v l s = Ok (tt, set_pages (<[page_of v := splice (offset_of v) l d]> (pages s)) s).
Proof.
  intros H Hl. unfold store_bytes. rewrite (bind_ok _ _ _ _ _ (get_page_run s v d H)).
  by rewrite (proj2 (Nat.leb_le _ _) Hl).
Qed.

Lemma load_bytes_run s v n d :
  pages s !! page_of v = Some d -> (offset_of v + n <= length d)%nat ->
  load_bytes v n s = Ok (slice (offset_of v) n d, s).
Proof.
  intros H Hl. unfold load_bytes. rewrite (bind_ok _ _ _ _ _ (get_page_run s v d H)).
  by rewrite (proj2 (Nat.leb_le _ _) Hl).
Qed.

(** An aligned address in the direct map. *)
Record kpage (v : Z) : Prop := KPage {
  kp_align : v mod PGSIZE = 0;
  kp_range : KERNBASE <= v < KERNBASE + PHYSTOP
}.

Lemma kpage_V2P v : kpage v -> V2P v = v - KERNBASE.
Proof. intros [_ Hr]. apply w32_small. unfold KERNBASE, PHYSTOP in *. lia. Qed.

Lemma kpage_of v : kpage v -> page_of v = (v - KERNBASE) / PGSIZE.
Proof. intros Hv. unfold page_of. by rewrite kpage_V2P. Qed.

Lemma kpage_offset v : kpage v -> offset_of v = O.
Proof. intros [Ha _]. unfold offset_of. by rewrite Ha. Qed.

Lemma kpage_inj v v' : kpage v -> kpage v' -> page_of v = page_of v' -> v = v'.
Proof.
  intros Hv Hv'. rewrite !kpage_of by done. destruct Hv as [Ha _], Hv' as [Ha' _].
  unfold PGSIZE, KERNBASE in *. intros He.
  pose proof (Z.div_mod v 4096 ltac:(lia)). pose proof (Z.div_mod v' 4096 ltac:(lia)).
  change 0x80000000 with (524288 * 4096) in He.
  replace (v - 524288 * 4096) with (v + (-524288) * 4096) in He by lia.
  replace (v' - 524288 * 4096) with (v' + (-524288) * 4096) in He by lia.
  rewrite !Z.div_add in He by lia. lia.
Qed.

(** ** The free list *)

Section Allocator.
Context `{Linker}.

(** A page that can be freed. *)
Record page_ok (P : gmap Z (list Z)) (v : Z) : Prop := PageOk {
  po_kpage : kpage v;
  po_end : kend <= v;
  po_mem : exists d, P !! page_of v = Some d /\ length d = Z.to_nat PGSIZE
}.

(** The list of free pages from the address [a] on. *)
Fixpoint chain (P : gmap Z (list Z)) (a : Z) (l : list Z) : Prop :=
  match l with
  | [] => a = 0
  | v :: l' => a = v /\ exists d n, P !! page_of v = Some d /\ get_le 4 0 d = Some n /\ chain P n l'
  end.

Record free_list (s : machine) (l : list Z) : Prop := FreeList {
  fl_chain : chain (pages s) (freelist s) l;
  fl_pages : Forall (page_ok (pages s)) l;
  fl_nodup : NoDup l;
  fl_lock : kmem_locked s = false
}.

Lemma chain_frame P P' a l :
  (forall v, v ∈ l -> P' !! page_of v = P !! page_of v) -> chain P a l -> chain P' a l.
Proof.
  revert a. induction l as [|v l IH]; intros a HP; [done|].
  intros [-> (d & n & Hd & Hn & Hc)]. split; [done|]. exists d, n.
  rewrite HP by left. split_and!; [done|done|]. apply IH; [|done]. intros w Hw. apply HP. by right.
Qed.

Lemma page_ok_frame P P' v :
  (forall d, P !! page_of v = Some d -> exists d', P' !! page_of v = Some d' /\ length d' = length d) ->
  page_ok P v -> page_ok P' v.
Proof.
  intros HP [Hk He (d & Hd & Hl)]. split; [done|done|].
  destruct (HP d Hd) as (d' & Hd' & Hl'). exists d'. split; [done|congruence].
Qed.

Lemma page_ok_insert P v w d :
  length d = Z.to_nat PGSIZE -> page_ok P w -> page_ok (<[page_of v := d]> P) w.
Proof.
  intros Hd Hw. pose proof Hw as [_ _ (d0 & Hd0 & Hl0)]. eapply page_ok_frame; [|exact Hw].
  intros d1 Hd1. destruct (decide (page_of v = page_of w)) as [He|Hne].
  - exists d. rewrite He, lookup_insert_eq. split; [done|]. congruence.
  - exists d1. by rewrite lookup_insert_ne.
Qed.

Lemma free_list_frame s s' l :
  free_list s l -> (forall v, v ∈ l -> pages s' !! page_of v = pages s !! page_of v) ->
  freelist s' = freelist s -> kmem_locked s' = kmem_locked s -> free_list s' l.
Proof.
  intros [Hc Hp Hn Hl] HP Hf Hk. split; [| |done|by rewrite Hk].
  - rewrite Hf. by eapply chain_frame.
  - rewrite Forall_forall in Hp |- *. intros v Hv. eapply page_ok_frame; [|by apply Hp].
    intros d Hd. exists d. by rewrite HP.
Qed.

(** Taking and releasing the lock, when it is in use. *)
Lemma lock_run {A} (k : Mem A) s :
  kmem_locked s = false ->
  (u ← gets use_lock; when u acquire_kmem ;; k) s = k (set_kmem_locked (use_lock s) s).
Proof. destruct s as [P lk u r kd c]. cbn. intros ->. by destruct u. Qed.

Lemma unlock_run {A} (k : Mem A) s :
  kmem_locked s = use_lock s ->
  (u ← gets use_lock; when u release_kmem ;; k) s = k (set_kmem_locked false s).
Proof. destruct s as [P lk u r kd c]. cbn. intros ->. by destruct u. Qed.

Lemma unlock_last_run s :
  kmem_locked s = use_lock s ->
  (u ← gets use_lock; when u release_kmem) s = Ok (tt, set_kmem_locked false s).
Proof. destruct s as [P lk u r kd c]. cbn. intros ->. by destruct u. Qed.

Lemma kalloc_run s v l :
  free_list s (v :: l) ->
  exists n, kalloc s = Ok (v, set_freelist n s) /\ free_list (set_freelist n s) l.
Proof.
  intros [[Ha (d & n & Hd & Hn & Hc)] Hp Hnd Hlk]. apply Forall_cons in Hp as [Hv Hp].
  apply NoDup_cons in Hnd as [Hnin Hnd]. pose proof (po_kpage _ _ Hv) as Hk.
  exists n. split; [|by split]. unfold kalloc. rewrite lock_run by done.
  set (s1 := set_kmem_locked (use_lock s) s). rewrite bind_gets.
  change (freelist s1) with (freelist s). rewrite Ha.
  assert (v <> 0) as Hv0 by (destruct Hk; unfold KERNBASE in *; lia).
  rewrite (proj2 (Z.eqb_neq _ _) Hv0). cbn [negb]. rewrite bind_when_true, bind_bind.
  rewrite (bind_ok _ _ _ n s1); [|apply (ld_run s1 v d n Hd); by rewrite kpage_offset].
  rewrite bind_modify, unlock_run by done.
  unfold mret, M_ret. do 3 f_equal. destruct s. cbn in *. by subst.
Qed.

Lemma kalloc_empty_run s : free_list s [] -> kalloc s = Ok (0, s).
Proof.
  intros [Ha _ _ Hlk]. cbn in Ha. unfold kalloc. rewrite lock_run by done. rewrite bind_gets.
  change (freelist (set_kmem_locked (use_lock s) s)) with (freelist s). rewrite Ha.
  cbn [Z.eqb negb]. rewrite bind_when_false, unlock_run by done.
  unfold mret, M_ret. do 2 f_equal. destruct s. cbn in *. by subst.
Qed.

Lemma free_list_bound s l : free_list s l -> 0 <= freelist s < 2 ^ 32.
Proof.
  intros [Hc Hp _ _]. destruct l as [|v l]; cbn in Hc; [lia|]. destruct Hc as [-> _].
  apply Forall_cons in Hp as [[[_ Hr] _ _] _]. unfold KERNBASE, PHYSTOP in *. lia.
Qed.

(** What [kfree] leaves in a page. *)
Definition junk (d : list Z) (next : Z) : Prop :=
  put_le 4 0 next (replicate (Z.to_nat PGSIZE) 1) = Some d.

Lemma kfree_run s v l :
  free_list s l -> page_ok (pages s) v -> (v ∉ l) ->
  exists d, junk d (freelist s) /\
    let s' := set_freelist v (set_pages (<[page_of v := d]> (pages s)) s) in
    kfree v s = Ok (tt, s') /\ free_list s' (v :: l).
Proof.
  intros Hf Hv Hnin. pose proof (free_list_bound s l Hf) as Hfl.
  destruct Hf as [Hc Hp Hnd Hlk]. pose proof Hv as [Hk He (d0 & Hd0 & Hl0)].
  destruct (put_le_some 4 0 (freelist s) (replicate (Z.to_nat PGSIZE) 1)) as [d Hd].
  { rewrite length_replicate. unfold PGSIZE. lia. }
  pose proof (put_le_length _ _ _ _ _ Hd) as Hld. rewrite length_replicate in Hld.
  exists d. split; [done|]. intros s'. split.
  - unfold kfree. rewrite (kp_align _ Hk), kpage_V2P by done.
    destruct (Z.ltb_spec v kend); [lia|].
    destruct (Z.leb_spec PHYSTOP (v - KERNBASE)); [destruct Hk; lia|]. cbn [Z.eqb negb orb].
    unfold memset_page. set (ones := replicate (Z.to_nat PGSIZE) (w8 1)).
    assert (length ones = Z.to_nat PGSIZE) as Hones by apply length_replicate.
    assert (splice (offset_of v) ones d0 = ones) as Hsp.
    { rewrite kpage_offset by done. unfold splice. rewrite take_0, Hones, drop_ge by lia.
      apply app_nil_r. }
    rewrite (bind_ok _ _ _ _ _ (store_bytes_run s v ones d0 Hd0
      ltac:(rewrite kpage_offset by done; lia))), Hsp.
    set (s1 := set_pages _ s). rewrite lock_run by done.
    set (s2 := set_kmem_locked (use_lock s1) s1). rewrite bind_gets.
    change (freelist s2) with (freelist s).
    rewrite (bind_ok _ _ _ _ _ (sto_run s2 v (freelist s) ones d
      (lookup_insert_eq _ _ _) ltac:(by rewrite kpage_offset))).
    rewrite bind_modify.
    rewrite unlock_last_run by done.
    unfold s', s2, s1. destruct s. cbn in *. subst. cbn. by rewrite insert_insert_eq.
  - assert (forall w, w ∈ l -> page_of w <> page_of v) as Hne.
    { intros w Hw Heq. rewrite Forall_forall in Hp. destruct (Hp w Hw) as [Hkw _ _].
      apply Hnin. by rewrite <- (kpage_inj w v). }
    split; [|constructor| |done].
    + split; [done|]. exists d, (freelist s). split_and!.
      * apply lookup_insert_eq.
      * rewrite (get_put_eq _ _ _ _ _ Hd). f_equal. change (256 ^ _) with (2 ^ 32).
        by apply Z.mod_small.
      * eapply chain_frame; [|exact Hc]. intros w Hw. cbn [pages s' set_freelist set_pages].
        apply lookup_insert_ne. by apply not_eq_sym, Hne.
    + by apply page_ok_insert.
    + eapply Forall_impl; [exact Hp|]. intros w Hw. by apply page_ok_insert.
    + by constructor.
Qed.

(** ** Sequences of calls *)

Inductive op := Alloc | Free (v : Z).

Definition run_op (o : op) : Mem Z :=
  match o with Alloc => kalloc | Free v => kfree v ;; mret 0 end.

Fixpoint run_ops (ops : list op) : Mem (list Z) :=
  match ops with
  | [] => mret []
  | o :: ops' => r ← run_op o; rs ← run_ops ops'; mret (r :: rs)
  end.

(** The allocator as a stack of pages; a page that is on it may not be freed. *)
Definition stack_op (o : op) (l : list Z) : option (Z * list Z) :=
  match o, l with
  | Alloc, [] => Some (0, [])
  | Alloc, v :: l' => Some (v, l')
  | Free v, _ => if bool_decide (v ∈ l) then None else Some (0, v :: l)
  end.

Fixpoint stack_ops (ops : list op) (l : list Z) : option (list Z * list Z) :=
  match ops with
  | [] => Some ([], l)
  | o :: ops' =>
      '(r, l) ← stack_op o l; '(rs, l) ← stack_ops ops' l; mret (r :: rs, l)
  end.

(** The page numbers a sequence of calls may change. *)
Definition freed (ops : list op) : list Z :=
  flat_map (fun o => match o with Alloc => [] | Free v => [v] end) ops.

Lemma run_op_stack o s l r l' :
  free_list s l -> Forall (page_ok (pages s)) (freed [o]) -> stack_op o l = Some (r, l') ->
  exists s', run_op o s = Ok (r, s') /\ free_list s' l' /\
    (forall v, page_ok (pages s) v -> page_ok (pages s') v) /\
    forall p, (forall v, v ∈ freed [o] -> page_of v <> p) -> pages s' !! p = pages s !! p.
Proof.
  intros Hf Hv Hs. destruct o as [|v]; cbn [stack_op run_op] in *.
  - destruct l as [|v l]; injection Hs as <- <-.
    + exists s. split_and!; [by apply kalloc_empty_run|done|done|done].
    + destruct (kalloc_run s v l Hf) as (n & R & Hf'). by exists (set_freelist n s).
  - case_bool_decide as Hin; [done|]. injection Hs as <- <-. cbn in Hv. apply Forall_cons in Hv as [Hv _].
    destruct (kfree_run s v l Hf Hv Hin) as (d & Hd & R & Hf').
    eexists. split_and!; [by rewrite (bind_ok _ _ _ _ _ R)|exact Hf'| |].
    + intros w Hw. apply page_ok_insert; [|done]. rewrite (put_le_length _ _ _ _ _ Hd).
      apply length_replicate.
    + intros p Hp. apply lookup_insert_ne. apply Hp. by left.
Qed.

Lemma run_ops_stack ops s l rs l' :
  free_list s l -> Forall (page_ok (pages s)) (freed ops) -> stack_ops ops l = Some (rs, l') ->
  exists s', run_ops ops s = Ok (rs, s') /\ free_list s' l' /\
    forall p, (forall v, v ∈ freed ops -> page_of v <> p) -> pages s' !! p = pages s !! p.
Proof.
  revert s l rs. induction ops as [|o ops IH]; intros s l rs Hf Hv Hs.
  { cbn in Hs. injection Hs as <- <-. by exists s. }
  assert (freed (o :: ops) = freed [o] ++ freed ops) as Hfr by (unfold freed; cbn; by rewrite app_nil_r).
  rewrite Hfr in *. apply Forall_app in Hv as [Hv1 Hv2]. cbn [stack_ops] in Hs.
  destruct (stack_op o l) as [[r l1]|] eqn:Ho; [|done]. cbn in Hs.
  destruct (stack_ops ops l1) as [[rs1 l2]|] eqn:Hos; [|done]. cbn in Hs. injection Hs as <- <-.
  destruct (run_op_stack o s l r l1 Hf Hv1 Ho) as (s1 & R1 & Hf1 & Hok & Hp1).
  destruct (IH s1 l1 rs1 Hf1 (Forall_impl _ _ _ Hv2 Hok) Hos) as (s2 & R2 & Hf2 & Hp2).
  exists s2. split_and!; [|done|].
  - cbn [run_ops]. rewrite (bind_ok _ _ _ _ _ R1). by rewrite (bind_ok _ _ _ _ _ R2).
  - intros p Hp. rewrite Hp2, Hp1; [done| |]; intros v Hin; apply Hp, elem_of_app; [by left|by right].
Qed.

(** ** Initialisation *)

(** The [n] pages from [p] on. *)
Definition page_range (p : Z) (n : nat) : list Z := map (fun k => p + PGSIZE * Z.of_nat k) (seq 0 n).

Lemma page_range_S p n : page_range p (S n) = p :: page_range (p + PGSIZE) n.
Proof.
  unfold page_range. cbn [seq map]. f_equal; [lia|]. rewrite <- seq_shift, map_map.
  apply map_ext. intros k. lia.
Qed.

Lemma free_loop_run fuel p n vend s l :
  free_list s l -> Forall (page_ok (pages s)) (page_range p n) ->
  Forall (fun v => v ∉ l) (page_range p n) -> 0 <= p ->
  p + PGSIZE * Z.of_nat n <= vend < p + PGSIZE * (Z.of_nat n + 1) ->
  p + PGSIZE * (Z.of_nat n + 1) < 2 ^ 32 -> (n < fuel)%nat ->
  exists s', free_loop fuel p vend s = Ok (tt, s') /\ free_list s' (rev (page_range p n) ++ l) /\
    use_lock s' = use_lock s /\ forall v, page_ok (pages s) v -> page_ok (pages s') v.
Proof.
  revert fuel p s l. induction n as [|n IH]; intros fuel p s l Hf Hp Hl Hp0 Hend Hlt Hfuel;
    (destruct fuel as [|fuel]; [lia|]); cbn [free_loop].
  - rewrite w32_small by (unfold PGSIZE in *; lia).
    destruct (Z.leb_spec (p + PGSIZE) vend); [unfold PGSIZE in *; lia|]. by exists s.
  - rewrite w32_small by (unfold PGSIZE in *; lia).
    destruct (Z.leb_spec (p + PGSIZE) vend); [|unfold PGSIZE in *; lia].
    rewrite page_range_S in *. apply Forall_cons in Hp as [Hpv Hp], Hl as [Hpl Hl].
    destruct (kfree_run s p l Hf Hpv Hpl) as (d & Hd & R & Hf').
    rewrite (bind_ok _ _ _ _ _ R). set (s1 := set_freelist _ _) in *.
    assert (forall v, page_ok (pages s) v -> page_ok (pages s1) v) as Hok.
    { intros v Hv. apply page_ok_insert; [|done]. rewrite (put_le_length _ _ _ _ _ Hd).
      apply length_replicate. }
    destruct (IH fuel (p + PGSIZE) s1 (p :: l)) as (s2 & R2 & Hf2 & Hu2 & Hok2);
      [done|exact (Forall_impl _ _ _ Hp Hok)| |unfold PGSIZE in *; lia..|].
    { rewrite Forall_forall in Hl |- *. intros v Hv. apply not_elem_of_cons. split; [|by apply Hl].
      intros ->. unfold page_range in Hv. apply list_elem_of_In, in_map_iff in Hv as (k & He & _).
      unfold PGSIZE in He. lia. }
    exists s2. split_and!; [done| |by rewrite Hu2|auto].
    cbn [rev]. by rewrite <- app_assoc.
Qed.
End Allocator.

(** ** A small machine *)

Definition zero_page : list Z := replicate (Z.to_nat PGSIZE) 0.

Fixpoint zero_pages (n : nat) : gmap Z (list Z) :=
  match n with O => ∅ | S n' => <[Z.of_nat n' := zero_page]> (zero_pages n') end.

Lemma zero_pages_lookup n k : 0 <= k < Z.of_nat n -> zero_pages n !! k = Some zero_page.
Proof.
  induction n as [|n IH]; [lia|]. intros Hk. cbn [zero_pages].
  destruct (decide (Z.of_nat n = k)) as [<-|Hne]; [apply lookup_insert_eq|].
  rewrite lookup_insert_ne by done. apply IH. lia.
Qed.

Lemma zero_pages_none n k : Z.of_nat n <= k -> zero_pages n !! k = None.
Proof.
  induction n as [|n IH]; intros Hk; [apply lookup_empty|]. cbn [zero_pages].
  rewrite lookup_insert_ne by lia. apply IH. lia.
Qed.

#[export] Instance small_linker : Linker :=
  {| kend := KERNBASE + 0x4064; kdata := KERNLINK + 0x1000 |}.

Definition small_machine : machine := Machine (zero_pages 16) false false 0 0 0.

Lemma small_page_of v : kpage v -> v + PGSIZE <= KERNBASE + 0x10000 -> 0 <= page_of v < 16.
Proof.
  intros Hv Hle. rewrite kpage_of by done. destruct Hv as [_ [Hlo _]]. unfold PGSIZE in *.
  split; [apply Z.div_pos; lia|apply Z.div_lt_upper_bound; lia].
Qed.

Lemma small_page_ok v :
  kpage v -> kend <= v -> v + PGSIZE <= KERNBASE + 0x10000 -> page_ok (zero_pages 16) v.
Proof.
  intros Hv He Hle. split; [done|done|]. exists zero_page. split; [|apply length_replicate].
  apply zero_pages_lookup. by apply small_page_of.
Qed.

(** ** Runs of kalloc and kfree *)

(** C25. A sequence of [kalloc] and [kfree] returns what a stack of the free pages returns,
    the null pointer when it is empty, and keeps the list in memory in step with it, as
    long as no page is freed that is free; memory that is neither free nor being freed
    stays as it is. *)
Theorem allocator_is_a_stack `{Linker} ops s l rs l' :
  free_list s l -> Forall (page_ok (pages s)) (freed ops) -> stack_ops ops l = Some (rs, l') ->
  exists s', run_ops ops s = Ok (rs, s') /\ free_list s' l' /\
    forall p, (forall v, v ∈ freed ops -> page_of v <> p) -> pages s' !! p = pages s !! p.
Proof. apply run_ops_stack. Qed.

(** The aligned addresses of a range. *)
Lemma page_range_elem p n v :
  p mod PGSIZE = 0 ->
  v ∈ page_range p n <-> v mod PGSIZE = 0 /\ p <= v /\ v + PGSIZE <= p + PGSIZE * Z.of_nat n.
Proof.
  intros Hp. unfold page_range. rewrite list_elem_of_In, in_map_iff. split.
  - intros (k & <- & Hk%in_seq). unfold PGSIZE in *. rewrite Z.mul_comm, Z.mod_add by lia. lia.
  - unfold PGSIZE in *. intros (Hv & Hle & Hlt). exists (Z.to_nat ((v - p) / 4096)).
    assert ((v - p) mod 4096 = 0) as Hm by (rewrite Zminus_mod, Hv, Hp; done).
    pose proof (Z.div_mod (v - p) 4096 ltac:(lia)).
    assert (0 <= (v - p) / 4096) by (apply Z.div_pos; lia).
    split; [lia|]. apply in_seq. lia.
Qed.

Lemma freerange_run `{Linker} vstart vend s l :
  free_list s l -> kend <= vstart -> KERNBASE <= vstart ->
  vstart + PGSIZE <= vend <= KERNBASE + PHYSTOP ->
  (forall v, kpage v -> vstart <= v -> v + PGSIZE <= vend ->
     page_ok (pages s) v /\ (v ∉ l)) ->
  exists s' r, freerange vstart vend s = Ok (tt, s') /\ free_list s' (r ++ l) /\
    use_lock s' = use_lock s /\
    (forall v, v ∈ r <-> v mod PGSIZE = 0 /\ vstart <= v /\ v + PGSIZE <= vend) /\
    (forall v, page_ok (pages s) v -> page_ok (pages s') v).
Proof.
  intros Hf He Hk Hend Hok. assert (KERNBASE = 0x80000000) as HK by reflexivity.
  assert (PHYSTOP = 0xE000000) as HT by reflexivity. assert (PGSIZE = 4096) as HS by reflexivity.
  destruct (PGROUNDUP_spec vstart) as [Hm Hr]; [lia..|].
  set (p := PGROUNDUP vstart) in *. set (n := Z.to_nat ((vend - p) / PGSIZE)).
  assert (forall v, v ∈ page_range p n <-> v mod PGSIZE = 0 /\ vstart <= v /\ v + PGSIZE <= vend) as Hin.
  { intros v. rewrite page_range_elem by done.
    pose proof (Z.div_mod (vend - p) PGSIZE ltac:(lia)).
    pose proof (Z.mod_pos_bound (vend - p) PGSIZE ltac:(lia)).
    assert (0 <= (vend - p) / PGSIZE) by (apply Z.div_pos; lia). unfold n.
    destruct (page_multiple p Hm) as [a Ha].
    split; intros (Hv & Hlo & Hhi).
    - split_and!; [done|lia|lia].
    - destruct (page_multiple v Hv) as [b Hb]. split_and!; [done|lia|lia]. }
  assert (Forall (fun v => page_ok (pages s) v /\ (v ∉ l)) (page_range p n)) as Hall.
  { apply Forall_forall. intros v (Hv & Hlo & Hhi)%Hin. apply Hok; [|done|done]. split; [done|lia]. }
  apply Forall_and in Hall as [Hall1 Hall2].
  assert (p + PGSIZE * Z.of_nat n <= vend < p + PGSIZE * (Z.of_nat n + 1)) as Hn.
  { pose proof (Z.div_mod (vend - p) PGSIZE ltac:(lia)).
    pose proof (Z.mod_pos_bound (vend - p) PGSIZE ltac:(lia)).
    assert (0 <= (vend - p) / PGSIZE) by (apply Z.div_pos; lia). unfold n. lia. }
  destruct (free_loop_run (S n) p n vend s l Hf Hall1 Hall2) as (s' & R & Hf' & Hu & Hok');
    [lia|lia|lia|lia|].
  exists s', (rev (page_range p n)). unfold freerange. fold p n. split_and!; try done.
  intros v. rewrite <- Hin. rewrite !list_elem_of_In. symmetry. apply in_rev.
Qed.

(** After [kinit1] and [kinit2], as [main] calls them, every whole page from [end] on to
    the end of the memory is in the free list, exactly once, and nothing else is; and the
    lock is in use. *)
Theorem kinit_frees_every_page `{Linker} s vmid vtop :
  freelist s = 0 -> KERNBASE <= kend -> vmid mod PGSIZE = 0 ->
  kend + PGSIZE <= vmid -> vmid + PGSIZE <= vtop <= KERNBASE + PHYSTOP ->
  (forall v, kpage v -> kend <= v -> v + PGSIZE <= vtop -> page_ok (pages s) v) ->
  exists s' l, (kinit1 kend vmid ;; kinit2 vmid vtop) s = Ok (tt, s') /\ free_list s' l /\
    use_lock s' = true /\
    forall v, v ∈ l <-> v mod PGSIZE = 0 /\ kend <= v /\ v + PGSIZE <= vtop.
Proof.
  intros Hfl Hk Hmid Hlo Hhi Hok. assert (PGSIZE = 4096) as HS by reflexivity. unfold kinit1. rewrite !bind_bind, bind_modify, bind_bind, bind_modify.
  set (s0 := set_use_lock _ _).
  destruct (freerange_run kend vmid s0 []) as (s1 & r1 & R1 & Hf1 & Hu1 & Hin1 & Hok1).
  { split; [done|constructor|constructor|done]. }
  { lia. } { done. } { lia. }
  { intros v Hv Hle Hlt. split; [apply Hok; [done..|lia]|apply not_elem_of_nil]. }
  rewrite (bind_ok _ _ _ _ _ R1). unfold kinit2. rewrite app_nil_r in Hf1.
  destruct (freerange_run vmid vtop s1 r1 Hf1) as (s2 & r2 & R2 & Hf2 & Hu2 & Hin2 & Hok2); [lia..| |].
  { intros v Hv Hle Hlt. split; [apply Hok1, Hok; [done|lia|done]|]. rewrite Hin1. lia. }
  rewrite (bind_ok _ _ _ _ _ R2). eexists _, (r2 ++ r1). split; [reflexivity|]. split; [by destruct Hf2|].
  split; [done|]. intros v. rewrite elem_of_app, Hin1, Hin2. split.
  - intros [(?&?&?)|(?&?&?)]; split_and!; done || lia.
  - intros (Hv & Hlow & Htop). destruct (Z.le_gt_cases vmid v); [by left|right].
    split_and!; [done|done|].
    destruct (page_multiple v Hv) as [b Hb]. destruct (page_multiple vmid Hmid) as [a Ha].
    lia.
Qed.

Lemma kinit_frees_every_page_witness :
  exists s' l, (kinit1 kend (KERNBASE + 0x8000) ;;
      kinit2 (KERNBASE + 0x8000) (KERNBASE + 0x10000)) small_machine = Ok (tt, s') /\
    free_list s' l /\ use_lock s' = true /\
    forall v, v ∈ l <-> v mod PGSIZE = 0 /\ kend <= v /\ v + PGSIZE <= KERNBASE + 0x10000.
Proof.
  apply (kinit_frees_every_page small_machine (KERNBASE + 0x8000) (KERNBASE + 0x10000)).
  - reflexivity.
  - unfold kend, small_linker. lia.
  - reflexivity.
  - unfold kend, small_linker, PGSIZE. lia.
  - unfold PGSIZE, PHYSTOP. lia.
  - intros v Hv He Hlt. by apply small_page_ok.
Defined.

Lemma allocator_is_a_stack_witness :
  exists s', run_ops [Free (KERNBASE + 0x5000); Free (KERNBASE + 0x6000); Alloc; Alloc; Alloc]
      small_machine = Ok ([0; 0; KERNBASE + 0x6000; KERNBASE + 0x5000; 0], s') /\
    free_list s' [] /\
    forall p, (forall v, v ∈ [KERNBASE + 0x5000; KERNBASE + 0x6000] -> page_of v <> p) ->
      pages s' !! p = pages small_machine !! p.
Proof.
  apply (allocator_is_a_stack [Free (KERNBASE + 0x5000); Free (KERNBASE + 0x6000); Alloc; Alloc; Alloc]
    small_machine []).
  - split; [done|constructor|constructor|done].
  - repeat constructor; apply small_page_ok; (split; vm_compute; done) || (vm_compute; done).
  - reflexivity.
Defined.
