(* ===== verification/Vm.v ===== *)
(** * Virtual memory

    [lab-2/vm.c]: two-level page tables in the pages of the allocator.  A pointer is its
    address; 0 is the null pointer. *)

From S2P Require Import Prelude Bytes CString Layout Kalloc.

Definition walkpgdir (pgdir va : Z) (alloc : bool) : Mem Z :=
  let pde := w32 (pgdir + 4 * PDX va) in
  x ← ld pde;
  if negb (Z.land x PTE_P =? 0) then mret (w32 (P2V (PTE_ADDR x) + 4 * PTX va))
  else if negb alloc then mret 0
  else
    pgtab ← kalloc;
    if pgtab =? 0 then mret 0
    else
      memset_page pgtab 0 (Z.to_nat PGSIZE) ;;
      sto pde (Z.lor (Z.lor (Z.lor (V2P pgtab) PTE_P) PTE_W) PTE_U) ;;
      mret (w32 (pgtab + 4 * PTX va)).

(** The loop of [mappages], one page a round. *)
Fixpoint map_loop (fuel : nat) (pgdir a last pa perm : Z) : Mem Z :=
  match fuel with
  | O => diverge
  | S fuel' =>
      pte ← walkpgdir pgdir a true;
      if pte =? 0 then mret (-1)
      else
        x ← ld pte;
        if negb (Z.land x PTE_P =? 0) then panic "remap"
        else
          sto pte (Z.lor (Z.lor pa perm) PTE_P) ;;
          if a =? last then mret 0
          else map_loop fuel' pgdir (w32 (a + PGSIZE)) last (w32 (pa + PGSIZE)) perm
  end.

Definition mappages (pgdir va size pa perm : Z) : Mem Z :=
  let a := PGROUNDDOWN va in
  let last := PGROUNDDOWN (w32 (va + size - 1)) in
  map_loop (S (Z.to_nat (w32 (last - a) / PGSIZE))) pgdir a last pa perm.

(** ** Freeing *)

(** The loop of [deallocuvm]; a round passes at least one page. *)
Fixpoint dealloc_loop `{Linker} (fuel : nat) (pgdir a oldsz : Z) : Mem unit :=
  match fuel with
  | O => diverge
  | S fuel' =>
      if a <? oldsz then
        pte ← walkpgdir pgdir a false;
        if pte =? 0 then
          dealloc_loop fuel' pgdir
            (w32 (w32 (PGADDR (PDX a + 1) 0 0 - PGSIZE) + PGSIZE)) oldsz
        else
          x ← ld pte;
          when (negb (Z.land x PTE_P =? 0))
            (let pa := PTE_ADDR x in
             if pa =? 0 then panic "kfree"
             else kfree (P2V pa) ;; sto pte 0) ;;
          dealloc_loop fuel' pgdir (w32 (a + PGSIZE)) oldsz
      else mret tt
  end.

Definition deallocuvm `{Linker} (pgdir oldsz newsz : Z) : Mem Z :=
  if oldsz <=? newsz then mret oldsz
  else
    let a := PGROUNDUP newsz in
    dealloc_loop (S (Z.to_nat ((oldsz - a + PGSIZE - 1) / PGSIZE))) pgdir a oldsz ;;
    mret newsz.

Definition freevm `{Linker} (pgdir : Z) : Mem unit :=
  if pgdir =? 0 then panic "freevm: no pgdir"
  else
    deallocuvm pgdir KERNBASE 0 ;;
    for_each (seq 0 (Z.to_nat NPDENTRIES)) (fun i =>
      x ← ld (w32 (pgdir + 4 * Z.of_nat i));
      when (negb (Z.land x PTE_P =? 0)) (kfree (P2V (PTE_ADDR x)))) ;;
    kfree pgdir.

(** ** The kernel part *)

Record kmap_entry := KmapEntry { virt : Z; phys_start : Z; phys_end : Z; kperm : Z }.

Definition kmap `{Linker} : list kmap_entry :=
  [KmapEntry KERNBASE 0 EXTMEM PTE_W;
   KmapEntry KERNLINK (V2P KERNLINK) (V2P kdata) 0;
   KmapEntry kdata (V2P kdata) PHYSTOP PTE_W;
   KmapEntry DEVSPACE DEVSPACE 0 PTE_W].

Definition setupkvm `{Linker} : Mem Z :=
  pgdir ← kalloc;
  if pgdir =? 0 then mret 0
  else
    memset_page pgdir 0 (Z.to_nat PGSIZE) ;;
    if DEVSPACE <? P2V PHYSTOP then panic "PHYSTOP too high"
    else
      r ← find_each kmap (fun k =>
            m ← mappages pgdir (virt k) (w32 (phys_end k - phys_start k)) (phys_start k) (kperm k);
            if m <? 0 then freevm pgdir ;; mret (Some tt) else mret None);
      match r with
      | Some _ => mret 0
      | None => mret pgdir
      end.

Definition switchkvm : Mem unit :=
  k ← gets kpgdir; modify (set_cr3 (V2P k)).

Definition kvmalloc `{Linker} : Mem unit :=
  k ← setupkvm; modify (set_kpgdir k) ;; switchkvm.

(** ** User memory *)

Definition inituvm (pgdir : Z) (init : list Z) (sz : Z) : Mem unit :=
  if PGSIZE <=? sz then panic "inituvm: more than a page"
  else
    mem ← kalloc;
    memset_page mem 0 (Z.to_nat PGSIZE) ;;
    mappages pgdir 0 PGSIZE (V2P mem) (Z.lor PTE_W PTE_U) ;;
    store_bytes mem (take (Z.to_nat sz) init).

(** The loop of [allocuvm]; [None] when it reaches its end. *)
Fixpoint alloc_loop `{Linker} (fuel : nat) (pgdir oldsz newsz a : Z) : Mem Z :=
  match fuel with
  | O => diverge
  | S fuel' =>
      if a <? newsz then
        mem ← kalloc;
        if mem =? 0 then deallocuvm pgdir newsz oldsz ;; mret 0
        else
          memset_page mem 0 (Z.to_nat PGSIZE) ;;
          r ← mappages pgdir a PGSIZE (V2P mem) (Z.lor PTE_W PTE_U);
          if r <? 0 then deallocuvm pgdir newsz oldsz ;; kfree mem ;; mret 0
          else alloc_loop fuel' pgdir oldsz newsz (w32 (a + PGSIZE))
      else mret newsz
  end.

Definition allocuvm `{Linker} (pgdir oldsz newsz : Z) : Mem Z :=
  if KERNBASE <=? newsz then mret 0
  else if newsz <? oldsz then mret oldsz
  else
    let a := PGROUNDUP oldsz in
    alloc_loop (S (Z.to_nat ((newsz - a + PGSIZE - 1) / PGSIZE))) pgdir oldsz newsz a.

Definition clearpteu (pgdir uva : Z) : Mem unit :=
  pte ← walkpgdir pgdir uva false;
  if pte =? 0 then panic "clearpteu"
  else x ← ld pte; sto pte (Z.land x (w32 (Z.lnot PTE_U))).

Fixpoint copy_loop `{Linker} (fuel : nat) (d pgdir sz i : Z) : Mem Z :=
  match fuel with
  | O => diverge
  | S fuel' =>
      if i <? sz then
        pte ← walkpgdir pgdir i false;
        if pte =? 0 then panic "copyuvm: pte should exist"
        else
          x ← ld pte;
          if Z.land x PTE_P =? 0 then panic "copyuvm: page not present"
          else
            mem ← kalloc;
            if mem =? 0 then freevm d ;; mret 0
            else
              l ← load_bytes (P2V (PTE_ADDR x)) (Z.to_nat PGSIZE);
              store_bytes mem l ;;
              r ← mappages d i PGSIZE (V2P mem) (PTE_FLAGS x);
              if r <? 0 then kfree mem ;; freevm d ;; mret 0
              else copy_loop fuel' d pgdir sz (w32 (i + PGSIZE))
      else mret d
  end.

Definition copyuvm `{Linker} (pgdir sz : Z) : Mem Z :=
  d ← setupkvm;
  if d =? 0 then mret 0
  else copy_loop (S (Z.to_nat ((sz + PGSIZE - 1) / PGSIZE))) d pgdir sz 0.

(** There is no test of [pte]: a null pointer is read, which is a fault. *)
Definition uva2ka (pgdir uva : Z) : Mem Z :=
  pte ← walkpgdir pgdir uva false;
  x ← ld pte;
  if Z.land x PTE_P =? 0 then mret 0
  else if Z.land x PTE_U =? 0 then mret 0
  else mret (P2V (PTE_ADDR x)).

(** The loop of [copyout]; a round but the first and the last copies a page. *)
Fixpoint copyout_loop (fuel : nat) (pgdir va : Z) (buf : list Z) : Mem Z :=
  match fuel with
  | O => diverge
  | S fuel' =>
      let len := Z.of_nat (length buf) in
      if 0 <? len then
        let va0 := PGROUNDDOWN va in
        pa0 ← uva2ka pgdir va0;
        if pa0 =? 0 then mret (-1)
        else
          let n := if len <? PGSIZE - (va - va0) then len else PGSIZE - (va - va0) in
          store_bytes (w32 (pa0 + (va - va0))) (take (Z.to_nat n) buf) ;;
          copyout_loop fuel' pgdir (w32 (va0 + PGSIZE)) (drop (Z.to_nat n) buf)
      else mret 0
  end.

(** The buffer is the [len] bytes at [p]. *)
Definition copyout (pgdir va : Z) (p : list Z) : Mem Z :=
  copyout_loop (S (S (Z.to_nat (Z.of_nat (length p) / PGSIZE)) + 1)) pgdir va p.
