(* ===== verification/VmSpec.v ===== *)
(** * Page tables as maps

    The words of a page directory and of its tables, the entry of a virtual address, and
    what [walkpgdir] and [mappages] do to them. *)

From S2P Require Import Prelude Bytes CString Layout Kalloc KallocSpec Vm.

(** ** Words of memory *)

Definition word_at (P : gmap Z (list Z)) (v : Z) : option Z :=
  d ← P !! page_of v; get_le 4 (offset_of v) d.

Definition mem_page (P : gmap Z (list Z)) (v : Z) : Prop :=
  exists d, P !! page_of v = Some d /\ length d = Z.to_nat PGSIZE.

(** The word [k] of the page [t]. *)
Lemma slot_of t k : kpage t -> 0 <= k < 1024 ->
  page_of (t + 4 * k) = page_of t /\ offset_of (t + 4 * k) = Z.to_nat (4 * k) /\
  w32 (t + 4 * k) = t + 4 * k.
Proof.
  intros Ht Hk. destruct (page_multiple t (kp_align _ Ht)) as [b Hb].
  pose proof (kp_range _ Ht) as Hr. unfold KERNBASE, PHYSTOP in Hr.
  rewrite (kpage_of t Ht). unfold page_of, offset_of, V2P, PGSIZE, KERNBASE.
  rewrite !w32_small by lia. split_and!; [| |done].
  - subst t. Z.div_mod_to_equations. lia.
  - f_equal. subst t. Z.div_mod_to_equations. lia.
Qed.

Lemma word_in_page P t k x d :
  kpage t -> 0 <= k < 1024 -> P !! page_of t = Some d ->
  word_at P (t + 4 * k) = Some x <-> get_le 4 (Z.to_nat (4 * k)) d = Some x.
Proof.
  intros Ht Hk Hd. destruct (slot_of t k Ht Hk) as (Hp & Ho & _).
  unfold word_at. by rewrite Hp, Ho, Hd.
Qed.

Lemma ld_word s v x : word_at (pages s) v = Some x -> ld v s = Ok (x, s).
Proof.
  unfold word_at. destruct (pages s !! page_of v) as [d|] eqn:Hd; [|done]. cbn.
  intros Hx. by apply (ld_run s v d).
Qed.

(** [P'] is [P] with the word [k] of the page [t] replaced. *)
Record word_set (P P' : gmap Z (list Z)) (t k x : Z) : Prop := WordSet {
  ws_here : word_at P' (t + 4 * k) = Some (x mod 2 ^ 32);
  ws_else : forall t' k', kpage t' -> 0 <= k' < 1024 -> t' <> t \/ k' <> k ->
    word_at P' (t' + 4 * k') = word_at P (t' + 4 * k');
  ws_other : forall p, p <> page_of t -> P' !! p = P !! p;
  ws_size : forall v d, P !! page_of v = Some d ->
    exists d', P' !! page_of v = Some d' /\ length d' = length d
}.

Lemma sto_word s t k x :
  kpage t -> 0 <= k < 1024 -> mem_page (pages s) t ->
  exists P', sto (t + 4 * k) x s = Ok (tt, set_pages P' s) /\ word_set (pages s) P' t k x.
Proof.
  intros Ht Hk (d & Hd & Hl). destruct (slot_of t k Ht Hk) as (Hp & Ho & _).
  destruct (put_le_some 4 (Z.to_nat (4 * k)) x d) as [d' Hd'].
  { rewrite Hl. unfold PGSIZE. lia. }
  exists (<[page_of t := d']> (pages s)). split.
  { rewrite <- Hp. apply (sto_run s _ x d); rewrite ?Hp, ?Ho; done. }
  split.
  - unfold word_at. rewrite Hp, Ho, lookup_insert_eq. apply (get_put_eq _ _ _ _ _ Hd').
  - intros t' k' Ht' Hk' Hne. destruct (slot_of t' k' Ht' Hk') as (Hp' & Ho' & _).
    unfold word_at. rewrite Hp', Ho'. destruct (decide (t' = t)) as [->|Htt].
    + rewrite lookup_insert_eq, Hd. apply (get_put_ne _ _ _ _ _ _ _ Hd'). lia.
    + rewrite lookup_insert_ne; [done|]. intros He. by apply Htt, kpage_inj.
  - intros p Hne. by apply lookup_insert_ne, not_eq_sym.
  - intros v d0 Hd0. destruct (decide (page_of v = page_of t)) as [He|Hne].
    + exists d'. rewrite He, lookup_insert_eq. split; [done|].
      rewrite (put_le_length _ _ _ _ _ Hd'). congruence.
    + exists d0. by rewrite lookup_insert_ne.
Qed.

(** ** Page tables *)

(** The tables of a page directory: [T] gives for an index of the directory the address
    of the table, where there is one.  They are pages of their own. *)
Record pgdir_ok (P : gmap Z (list Z)) (pgdir : Z) (T : gmap Z Z) : Prop := PgdirOk {
  pd_kpage : kpage pgdir;
  pd_mem : mem_page P pgdir;
  pd_word : forall d, 0 <= d < 1024 -> exists x, word_at P (pgdir + 4 * d) = Some x /\
    0 <= x < 2 ^ 32 /\
    match T !! d with
    | Some t => Z.land x PTE_P <> 0 /\ P2V (PTE_ADDR x) = t
    | None => Z.land x PTE_P = 0
    end;
  pd_table : forall d t, T !! d = Some t ->
    0 <= d < 1024 /\ kpage t /\ mem_page P t /\ t <> pgdir;
  pd_inj : forall d d' t, T !! d = Some t -> T !! d' = Some t -> d = d'
}.

(** The page table entry of a virtual address. *)
Definition entry (P : gmap Z (list Z)) (T : gmap Z Z) (va : Z) : Z :=
  match T !! PDX va with
  | Some t => default 0 (word_at P (t + 4 * PTX va))
  | None => 0
  end.

Definition is_va (va : Z) : Prop := 0 <= va < 2 ^ 32.

Lemma PDX_range va : 0 <= PDX va < 1024.
Proof.
  unfold PDX. change 0x3FF with (Z.ones 10). rewrite Z.land_ones by lia.
  apply Z.mod_pos_bound. lia.
Qed.

Lemma PTX_range va : 0 <= PTX va < 1024.
Proof.
  unfold PTX. change 0x3FF with (Z.ones 10). rewrite Z.land_ones by lia.
  apply Z.mod_pos_bound. lia.
Qed.

(** Two addresses with the same indices are in the same page. *)
Lemma same_page va va' :
  is_va va -> is_va va' -> PDX va = PDX va' -> PTX va = PTX va' -> va / PGSIZE = va' / PGSIZE.
Proof.
  unfold is_va. intros H H' Hd Ht. rewrite !PDX_div in Hd by done. rewrite !PTX_div in Ht by done.
  change (2 ^ 22) with 4194304 in Hd. change (2 ^ 12) with 4096 in Ht. change (2 ^ 10) with 1024 in Ht.
  unfold PGSIZE. Z.div_mod_to_equations. lia.
Qed.

Lemma page_indices va va' :
  is_va va -> is_va va' -> va / PGSIZE = va' / PGSIZE -> PDX va = PDX va' /\ PTX va = PTX va'.
Proof.
  unfold is_va, PGSIZE. intros H H' He. rewrite !PDX_div, !PTX_div by done.
  change (2 ^ 22) with (4096 * 1024). change (2 ^ 12) with 4096. rewrite <- !Z.div_div by lia.
  by rewrite He.
Qed.

Lemma table_entry_word P pgdir T d t k :
  pgdir_ok P pgdir T -> T !! d = Some t -> 0 <= k < 1024 -> is_Some (word_at P (t + 4 * k)).
Proof.
  intros Hok Ht Hk. destruct (pd_table _ _ _ Hok d t Ht) as (_ & Hkp & (c & Hc & Hl) & _).
  destruct (slot_of t k Hkp Hk) as (Hp & Ho & _). unfold word_at. rewrite Hp, Ho, Hc. cbn.
  unfold get_le. rewrite (proj2 (Nat.leb_le _ _)); [by eexists|]. rewrite Hl. unfold PGSIZE. lia.
Qed.

(** A word set in a page that is none of the tables leaves them as they are. *)
Lemma pgdir_frame P P' pgdir T :
  pgdir_ok P pgdir T ->
  P' !! page_of pgdir = P !! page_of pgdir ->
  (forall d t, T !! d = Some t -> P' !! page_of t = P !! page_of t) ->
  pgdir_ok P' pgdir T /\ forall va, entry P' T va = entry P T va.
Proof.
  intros [Hk Hm Hw Ht Hi] Hp HT. split.
  - split; [done| | | |done].
    + unfold mem_page. by rewrite Hp.
    + intros d Hd. destruct (Hw d Hd) as (x & Hx & Hrest). exists x. split; [|done].
      unfold word_at in *. destruct (slot_of pgdir d Hk Hd) as (Hpo & _). by rewrite Hpo, Hp, <- Hpo.
    + intros d t Hd. destruct (Ht d t Hd) as (? & ? & Hmt & ?). split; [done|]. split; [done|]. split; [|done].
      unfold mem_page.
      by rewrite (HT d t Hd).
  - intros va. unfold entry. destruct (T !! PDX va) as [t|] eqn:Hd; [|done].
    destruct (Ht _ _ Hd) as (_ & Hkt & _). f_equal. unfold word_at.
    destruct (slot_of t (PTX va) Hkt (PTX_range va)) as (Hpo & _). by rewrite Hpo, (HT _ _ Hd).
Qed.

Lemma P2V_V2P v : kpage v -> P2V (V2P v) = v.
Proof.
  intros Hv. rewrite kpage_V2P by done. unfold P2V. rewrite w32_small; [lia|].
  destruct Hv as [_ Hr]. unfold KERNBASE, PHYSTOP in *. lia.
Qed.

Lemma V2P_aligned v : kpage v -> V2P v mod PGSIZE = 0 /\ 0 <= V2P v < 2 ^ 32.
Proof.
  intros Hv. rewrite kpage_V2P by done. destruct (page_multiple v (kp_align _ Hv)) as [b ->].
  destruct Hv as [_ Hr]. unfold KERNBASE, PHYSTOP, PGSIZE in *. split; [|lia].
  Z.div_mod_to_equations. lia.
Qed.

Lemma zero_word P t k : kpage t -> 0 <= k < 1024 ->
  P !! page_of t = Some (replicate (Z.to_nat PGSIZE) 0) -> word_at P (t + 4 * k) = Some 0.
Proof.
  intros Ht Hk Hd. rewrite (word_in_page _ _ _ _ _ Ht Hk Hd). unfold get_le.
  rewrite length_replicate, (proj2 (Nat.leb_le _ _)) by (unfold PGSIZE; lia).
  rewrite drop_replicate, take_replicate, Nat.min_l by (unfold PGSIZE; lia). done.
Qed.

(** All of a page is written. *)
Lemma fill_run s v c :
  kpage v -> mem_page (pages s) v -> length c = Z.to_nat PGSIZE ->
  store_bytes v c s = Ok (tt, set_pages (<[page_of v := c]> (pages s)) s).
Proof.
  intros Hv (d & Hd & Hl) Hc.
  rewrite (store_bytes_run s v c d Hd) by (rewrite kpage_offset by done; lia).
  rewrite kpage_offset by done. unfold splice. rewrite take_0, drop_ge by lia.
  by rewrite app_nil_r.
Qed.

Lemma memset_page_run s v :
  kpage v -> mem_page (pages s) v ->
  memset_page v 0 (Z.to_nat PGSIZE) s =
    Ok (tt, set_pages (<[page_of v := replicate (Z.to_nat PGSIZE) 0]> (pages s)) s).
Proof. intros Hv Hm. apply (fill_run s v _ Hv Hm). apply length_replicate. Qed.

(** ** walkpgdir *)

Section Tables.
Context `{Linker}.

(** The page directory, its tables and the free list do not share pages. *)
Record vm_ok (s : machine) (pgdir : Z) (T : gmap Z Z) (l : list Z) : Prop := VmOk {
  vo_dir : pgdir_ok (pages s) pgdir T;
  vo_free : free_list s l;
  vo_dir_used : pgdir ∉ l;
  vo_table_used : forall d t, T !! d = Some t -> (t ∉ l)
}.

Lemma walk_slot_ne P pgdir T d t k : pgdir_ok P pgdir T -> T !! d = Some t -> 0 <= k < 1024 ->
  t + 4 * k <> 0 /\ w32 (t + 4 * k) = t + 4 * k.
Proof.
  intros Hok Hd Hk. destruct (pd_table _ _ _ Hok d t Hd) as (_ & Ht & _).
  destruct (slot_of t k Ht Hk) as (_ & _ & Hw). destruct Ht as [_ Hr].
  unfold KERNBASE in Hr. split; [lia|done].
Qed.

Lemma walk_some s pgdir T va t al :
  pgdir_ok (pages s) pgdir T -> T !! PDX va = Some t ->
  walkpgdir pgdir va al s = Ok (t + 4 * PTX va, s).
Proof.
  intros Hok Ht. destruct (pd_word _ _ _ Hok (PDX va) (PDX_range va)) as (x & Hx & _ & Hm).
  rewrite Ht in Hm. destruct Hm as [Hp Ha]. unfold walkpgdir.
  destruct (slot_of pgdir (PDX va) (pd_kpage _ _ _ Hok) (PDX_range va)) as (_ & _ & ->).
  rewrite (bind_ok _ _ _ _ _ (ld_word s _ x Hx)), (proj2 (Z.eqb_neq _ _) Hp). cbn [negb].
  rewrite Ha. by destruct (walk_slot_ne _ _ _ _ _ (PTX va) Hok Ht (PTX_range va)) as [_ ->].
Qed.

Lemma walk_none s pgdir T va :
  pgdir_ok (pages s) pgdir T -> T !! PDX va = None -> walkpgdir pgdir va false s = Ok (0, s).
Proof.
  intros Hok Ht. destruct (pd_word _ _ _ Hok (PDX va) (PDX_range va)) as (x & Hx & _ & Hm).
  rewrite Ht in Hm. unfold walkpgdir.
  destruct (slot_of pgdir (PDX va) (pd_kpage _ _ _ Hok) (PDX_range va)) as (_ & _ & ->).
  by rewrite (bind_ok _ _ _ _ _ (ld_word s _ x Hx)), Hm.
Qed.

Lemma walk_full s pgdir T va :
  vm_ok s pgdir T [] -> T !! PDX va = None -> walkpgdir pgdir va true s = Ok (0, s).
Proof.
  intros [Hok Hf _ _] Ht. destruct (pd_word _ _ _ Hok (PDX va) (PDX_range va)) as (x & Hx & _ & Hm).
  rewrite Ht in Hm. unfold walkpgdir.
  destruct (slot_of pgdir (PDX va) (pd_kpage _ _ _ Hok) (PDX_range va)) as (_ & _ & ->).
  rewrite (bind_ok _ _ _ _ _ (ld_word s _ x Hx)), Hm. cbn [Z.eqb negb].
  by rewrite (bind_ok _ _ _ _ _ (kalloc_empty_run s Hf)).
Qed.

(** A fresh table in an empty slot of the directory. *)
Lemma pgdir_new_table P P1 P2 pgdir T d v x :
  pgdir_ok P pgdir T -> kpage v -> mem_page P v -> v <> pgdir ->
  (forall d' t, T !! d' = Some t -> t <> v) -> 0 <= d < 1024 -> T !! d = None ->
  P1 = <[page_of v := replicate (Z.to_nat PGSIZE) 0]> P ->
  word_set P1 P2 pgdir d x -> 0 <= x < 2 ^ 32 -> Z.land x PTE_P <> 0 -> P2V (PTE_ADDR x) = v ->
  pgdir_ok P2 pgdir (<[d := v]> T) /\ forall va, entry P2 (<[d := v]> T) va = entry P T va.
Proof.
  intros Hok Hv Hmv Hvp Hvt Hd HTd -> [Hhere Helse Hoth Hsize] Hx Hp Ha.
  set (P1 := <[page_of v := _]> P) in *.
  assert (forall t k, kpage t -> t <> v -> 0 <= k < 1024 -> word_at P1 (t + 4 * k) = word_at P (t + 4 * k))
    as H1.
  { intros t k Ht Hne Hk. destruct (slot_of t k Ht Hk) as (Hpo & _). unfold word_at, P1.
    rewrite lookup_insert_ne; [done|]. rewrite Hpo. intros He. by apply Hne, kpage_inj. }
  assert (forall t, mem_page P t -> mem_page P2 t) as Hmem.
  { intros t (c & Hc & Hl). assert (exists c1, P1 !! page_of t = Some c1 /\ length c1 = Z.to_nat PGSIZE)
      as (c1 & Hc1 & Hl1).
    { unfold P1. destruct (decide (page_of v = page_of t)) as [He|Hne].
      - rewrite He, lookup_insert_eq. eexists. split; [done|apply length_replicate].
      - rewrite lookup_insert_ne by done. by exists c. }
    destruct (Hsize t c1 Hc1) as (c2 & Hc2 & Hl2). exists c2. split; [done|congruence]. }
  split; [split|].
  - apply Hok.
  - apply Hmem, Hok.
  - intros e He. destruct (decide (d = e)) as [<-|Hne].
    + exists x. rewrite Hhere, lookup_insert_eq, Z.mod_small by done. by repeat (split; [done|]).
    + rewrite lookup_insert_ne by done.
      rewrite Helse by (try apply Hok; try lia). rewrite H1; [by apply Hok|apply Hok|done|done].
  - intros e t. destruct (decide (d = e)) as [<-|Hne].
    + rewrite lookup_insert_eq. intros [= <-]. split; [done|]. split; [done|]. split; [|done].
      by apply Hmem.
    + rewrite lookup_insert_ne by done. intros Ht.
      destruct (pd_table _ _ _ Hok e t Ht) as (? & ? & ? & ?).
      split; [done|]. split; [done|]. split; [|done]. by apply Hmem.
  - intros e e' t. destruct (decide (d = e)) as [<-|Hne], (decide (d = e')) as [<-|Hne'];
      rewrite ?lookup_insert_eq, ?lookup_insert_ne by done; try done.
    + intros [= <-] Ht. by destruct (Hvt e' v).
    + intros Ht [= <-]. by destruct (Hvt e v).
    + by apply Hok.
  - intros va. unfold entry. destruct (decide (d = PDX va)) as [->|Hne].
    + rewrite lookup_insert_eq, HTd.
      rewrite Helse; [|done|apply PTX_range|by left].
      rewrite (zero_word P1 v (PTX va)); [done|done|apply PTX_range|apply lookup_insert_eq].
    + rewrite lookup_insert_ne by done. destruct (T !! PDX va) as [t|] eqn:Ht; [|done].
      destruct (pd_table _ _ _ Hok _ t Ht) as (_ & Hkt & _ & Htp).
      rewrite Helse; [|done|apply PTX_range|by left].
      rewrite H1; [done|done|by eapply Hvt|apply PTX_range].
Qed.

Lemma page_ok_word_set P P' t k x v : word_set P P' t k x -> page_ok P v -> page_ok P' v.
Proof. intros Hw. apply page_ok_frame. apply (ws_size _ _ _ _ _ Hw). Qed.

(** The pages that are neither free nor part of the page tables. *)
Definition outside (pgdir : Z) (T : gmap Z Z) (l : list Z) (p : Z) : Prop :=
  p <> page_of pgdir /\ (forall d t, T !! d = Some t -> p <> page_of t) /\
  (forall v, v ∈ l -> p <> page_of v).

(** A change of the tables that takes new ones from the front of the free list. *)
Record vm_step (pgdir : Z) (s : machine) (T : gmap Z Z) (l : list Z)
    (s' : machine) (T' : gmap Z Z) (l' : list Z) : Prop := VmStep {
  vs_ok : vm_ok s' pgdir T' l';
  vs_mono : forall d t, T !! d = Some t -> T' !! d = Some t;
  vs_used : exists used, l = used ++ l' /\
    forall t, t ∈ used <-> exists d, T' !! d = Some t /\ T !! d = None;
  vs_frame : forall p, outside pgdir T l p -> pages s' !! p = pages s !! p;
  vs_pages : forall v, page_ok (pages s) v -> page_ok (pages s') v
}.

Lemma outside_step pgdir s T l s' T' l' p :
  vm_step pgdir s T l s' T' l' -> outside pgdir T l p -> outside pgdir T' l' p.
Proof.
  intros [_ Hmono (used & -> & HT) _ _] (H1 & H2 & H3). split; [done|]. split.
  - intros d t Ht. destruct (T !! d) as [t'|] eqn:Hd.
    + pose proof (Hmono d t' Hd) as Hm. assert (t' = t) as -> by congruence. by apply (H2 d).
    + apply H3, elem_of_app. left. apply HT. by exists d.
  - intros v Hv. apply H3, elem_of_app. by right.
Qed.

Lemma vm_step_refl pgdir s T l : vm_ok s pgdir T l -> vm_step pgdir s T l s T l.
Proof.
  intros Hok. split; [done|done| |done|done]. exists []. split; [done|]. intros t. split.
  - by intros ?%elem_of_nil.
  - intros (d & H1 & H2). congruence.
Qed.

Lemma vm_step_trans pgdir s1 T1 l1 s2 T2 l2 s3 T3 l3 :
  vm_step pgdir s1 T1 l1 s2 T2 l2 -> vm_step pgdir s2 T2 l2 s3 T3 l3 ->
  vm_step pgdir s1 T1 l1 s3 T3 l3.
Proof.
  intros H1 H2. split; [apply H2| | | |].
  - intros d t Ht. by apply H2, H1.
  - pose proof (vs_mono _ _ _ _ _ _ _ H1) as M1. pose proof (vs_mono _ _ _ _ _ _ _ H2) as M2.
    destruct H1 as [_ _ (u1 & -> & HT1) _ _], H2 as [_ _ (u2 & -> & HT2) _ _].
    exists (u1 ++ u2). rewrite <- app_assoc. split; [done|]. intros t. rewrite elem_of_app, HT1, HT2. split.
    + intros [(d & Ha & Hb)|(d & Ha & Hb)]; exists d; [by split; [apply M2|]|]. split; [done|].
      destruct (T1 !! d) as [t'|] eqn:Hd; [|done]. by rewrite (M1 d t' Hd) in Hb.
    + intros (d & Ha & Hb). destruct (T2 !! d) as [t'|] eqn:Hd; [left|right]; exists d; [|done].
      split; [|done]. rewrite (M2 d t' Hd) in Ha. congruence.
  - intros p Hp. rewrite (vs_frame _ _ _ _ _ _ _ H2); [by apply H1|by eapply outside_step].
  - intros v Hv. by apply H2, H1.
Qed.

(** The word of the directory for the new table [v]. *)
Definition pde_of (v : Z) : Z := Z.lor (Z.lor (Z.lor (V2P v) PTE_P) PTE_W) PTE_U.

Lemma pde_of_spec v : kpage v ->
  0 <= pde_of v < 2 ^ 32 /\ Z.land (pde_of v) PTE_P <> 0 /\ P2V (PTE_ADDR (pde_of v)) = v.
Proof.
  intros Hv. destruct (V2P_aligned v Hv) as [Ha Hr]. unfold pde_of. rewrite <- !Z.lor_assoc.
  change (Z.lor PTE_P (Z.lor PTE_W PTE_U)) with 7. split_and!.
  - apply entry_range; done.
  - apply entry_range; done.
  - change PTE_P with (2 ^ 0). rewrite entry_bit by done. done.
  - rewrite entry_ADDR by done. by apply P2V_V2P.
Qed.

Lemma walk_alloc s pgdir T va v l :
  vm_ok s pgdir T (v :: l) -> T !! PDX va = None ->
  exists s', walkpgdir pgdir va true s = Ok (v + 4 * PTX va, s') /\
    vm_step pgdir s T (v :: l) s' (<[PDX va := v]> T) l /\
    forall va', entry (pages s') (<[PDX va := v]> T) va' = entry (pages s) T va'.
Proof.
  intros [Hok Hf Hpu Htu] HT. destruct (pd_word _ _ _ Hok (PDX va) (PDX_range va)) as (x & Hx & _ & Hm).
  rewrite HT in Hm. pose proof (fl_pages _ _ Hf) as Hpages. apply Forall_cons in Hpages as [Hv Hpages].
  destruct Hv as [Hk _ Hmv]. apply not_elem_of_cons in Hpu as [Hpv Hpl].
  pose proof (fl_nodup _ _ Hf) as Hnd. apply NoDup_cons in Hnd as [Hvl _].
  destruct (kalloc_run s v l Hf) as (n & R & Hf1). set (s1 := set_freelist n s) in *.
  assert (mem_page (pages s1) v) as Hmv1 by exact Hmv.
  pose proof (memset_page_run s1 v Hk Hmv1) as R2. set (s2 := set_pages _ s1) in *.
  assert (mem_page (pages s2) pgdir) as Hmd.
  { destruct (pd_mem _ _ _ Hok) as (d & Hd & Hl). exists d. split; [|done]. cbn [pages s2 set_pages].
    rewrite lookup_insert_ne; [done|]. intros He. by apply Hpv, kpage_inj; [apply Hok|..]. }
  destruct (pde_of_spec v Hk) as (Hr & Hp & Ha).
  destruct (sto_word s2 pgdir (PDX va) (pde_of v) (pd_kpage _ _ _ Hok) (PDX_range va) Hmd)
    as (P3 & R3 & Hw).
  assert (forall d t, T !! d = Some t -> t <> v) as Htv.
  { intros d t Ht ->. apply (Htu d v Ht). by left. }
  destruct (pgdir_new_table (pages s) (pages s2) P3 pgdir T (PDX va) v (pde_of v) Hok Hk Hmv)
    as [Hok3 He3]; try done; [by apply PDX_range|].
  assert (forall p, p <> page_of pgdir -> p <> page_of v -> P3 !! p = pages s !! p) as Hoth.
  { intros p Hp1 Hp2. rewrite (ws_other _ _ _ _ _ Hw) by done. by apply lookup_insert_ne. }
  exists (set_pages P3 s2). split; [|split; [|exact He3]].
  - unfold walkpgdir. destruct (slot_of pgdir (PDX va) (pd_kpage _ _ _ Hok) (PDX_range va)) as (_ & _ & ->).
    rewrite (bind_ok _ _ _ _ _ (ld_word s _ x Hx)), Hm. cbn [Z.eqb negb].
    rewrite (bind_ok _ _ _ _ _ R). rewrite (proj2 (Z.eqb_neq v 0)) by (destruct Hk; unfold KERNBASE in *; lia).
    rewrite (bind_ok _ _ _ _ _ R2). fold (pde_of v). rewrite (bind_ok _ _ _ _ _ R3).
    by destruct (slot_of v (PTX va) Hk (PTX_range va)) as (_ & _ & ->).
  - split; [split| | | |].
    + exact Hok3.
    + eapply free_list_frame; [exact Hf1| |done|done]. intros w Hw'. apply Hoth.
      * intros Heq. apply Hpl. rewrite Forall_forall in Hpages. destruct (Hpages w Hw') as [Hkw _ _].
        by rewrite <- (kpage_inj w pgdir Hkw (pd_kpage _ _ _ Hok) Heq).
      * intros Heq. apply Hvl. rewrite Forall_forall in Hpages. destruct (Hpages w Hw') as [Hkw _ _].
        by rewrite <- (kpage_inj w v Hkw Hk Heq).
    + done.
    + intros d t. destruct (decide (PDX va = d)) as [<-|Hne].
      * rewrite lookup_insert_eq. by intros [= <-].
      * rewrite lookup_insert_ne by done. intros Ht Hin. apply (Htu d t Ht). by right.
    + intros d t Ht. rewrite lookup_insert_ne; [done|]. congruence.
    + exists [v]. split; [done|]. intros t. rewrite list_elem_of_singleton. split.
      * intros ->. exists (PDX va). by rewrite lookup_insert_eq.
      * intros (d & Hd & Hb). destruct (decide (PDX va = d)) as [<-|Hne].
        -- rewrite lookup_insert_eq in Hd. congruence.
        -- rewrite lookup_insert_ne in Hd by done. congruence.
    + intros p (Hp1 & _ & Hp3). apply Hoth; [done|]. apply Hp3. by left.
    + intros w Hw2. eapply page_ok_word_set; [exact Hw|]. apply page_ok_insert; [apply length_replicate|done].
Qed.

(** [walkpgdir] with [alloc]: the slot of the address, or 0 when a table is missing and
    there is no free page; no entry changes. *)
Lemma walk_run s pgdir T va l :
  vm_ok s pgdir T l ->
  (walkpgdir pgdir va true s = Ok (0, s) /\ l = [] /\ T !! PDX va = None) \/
  exists s' T' l' t, walkpgdir pgdir va true s = Ok (t + 4 * PTX va, s') /\
    vm_step pgdir s T l s' T' l' /\ T' !! PDX va = Some t /\
    (forall va', entry (pages s') T' va' = entry (pages s) T va') /\ (length l <= S (length l'))%nat.
Proof.
  intros Hok. destruct (T !! PDX va) as [t|] eqn:Ht.
  - right. exists s, T, l, t. split_and!; [|by apply vm_step_refl|done|done|lia].
    eapply walk_some; [apply Hok|done].
  - destruct l as [|v l].
    + left. split_and!; [by apply (walk_full s pgdir T)|done|done].
    + right. destruct (walk_alloc s pgdir T va v l Hok Ht) as (s' & R & Hs & He).
      exists s', (<[PDX va := v]> T), l, v. split_and!; [done|done|apply lookup_insert_eq|done|done].
Qed.

(** ** Entries *)

(** An entry set in a table. *)
Lemma sto_entry s pgdir T l va t x :
  vm_ok s pgdir T l -> T !! PDX va = Some t -> 0 <= x < 2 ^ 32 -> is_va va ->
  exists s', sto (t + 4 * PTX va) x s = Ok (tt, s') /\ vm_step pgdir s T l s' T l /\
    forall va', is_va va' -> entry (pages s') T va' =
      if va' / PGSIZE =? va / PGSIZE then x else entry (pages s) T va'.
Proof.
  intros [Hok Hf Hpu Htu] Ht Hx Hva.
  destruct (pd_table _ _ _ Hok _ t Ht) as (_ & Hkt & Hmt & Htp).
  destruct (sto_word s t (PTX va) x Hkt (PTX_range va) Hmt) as (P' & R & [Hhere Helse Hoth Hsize]).
  assert (forall v, mem_page (pages s) v -> mem_page P' v) as Hmem.
  { intros v (d & Hd & Hl). destruct (Hsize v d Hd) as (d' & Hd' & Hl'). exists d'.
    split; [done|congruence]. }
  exists (set_pages P' s). split; [exact R|]. split; [split; [split| | | |]|].
  - split; [apply Hok|apply Hmem, Hok| | |apply Hok].
    + intros d Hd. cbn [pages set_pages].
      rewrite Helse; [by apply Hok|apply Hok|done|left; by apply not_eq_sym].
    + intros d t' Ht'. destruct (pd_table _ _ _ Hok d t' Ht') as (? & ? & ? & ?).
      split; [done|]. split; [done|]. split; [by apply Hmem|done].
  - eapply free_list_frame; [exact Hf| |done|done]. intros w Hw. apply Hoth. intros Heq.
    pose proof (fl_pages _ _ Hf) as Hp. rewrite Forall_forall in Hp. destruct (Hp w Hw) as [Hkw _ _].
    apply (Htu _ _ Ht). by rewrite <- (kpage_inj w t Hkw Hkt Heq).
  - done.
  - exact Htu.
  - done.
  - exists []. split; [done|]. intros t'. split; [by intros ?%elem_of_nil|]. intros (d & H1 & H2). congruence.
  - intros p (_ & Hp & _). apply Hoth. by apply (Hp _ _ Ht).
  - intros w Hw. eapply page_ok_frame; [|exact Hw]. apply Hsize.
  - intros va' Hva'. unfold entry. cbn [pages set_pages].
    destruct (Z.eqb_spec (va' / PGSIZE) (va / PGSIZE)) as [He|Hne].
    + destruct (page_indices va' va Hva' Hva He) as [-> ->]. rewrite Ht, Hhere.
      by rewrite Z.mod_small.
    + destruct (T !! PDX va') as [t'|] eqn:Ht'; [|done].
      destruct (pd_table _ _ _ Hok _ t' Ht') as (_ & Hkt' & _ & _). f_equal.
      apply Helse; [done|apply PTX_range|]. destruct (decide (t' = t)) as [->|]; [|by left].
      right. intros Hptx. apply Hne, same_page; [done|done| |done]. by apply (pd_inj _ _ _ Hok _ _ t).
Qed.

Lemma entry_ld s pgdir T va t :
  pgdir_ok (pages s) pgdir T -> T !! PDX va = Some t ->
  ld (t + 4 * PTX va) s = Ok (entry (pages s) T va, s).
Proof.
  intros Hok Ht. apply ld_word. unfold entry. rewrite Ht.
  by destruct (table_entry_word _ _ _ _ _ (PTX va) Hok Ht (PTX_range va)) as [x ->].
Qed.

(** ** mappages *)

(** The entry that maps a page of the range from [a] on to the pages from [pa] on. *)
Definition new_entry (a pa perm va : Z) : Z :=
  Z.lor (Z.lor (pa + PGSIZE * ((va - a) / PGSIZE)) perm) PTE_P.

Definition in_range (a n va : Z) : bool := (a <=? va) && (va <? a + PGSIZE * n).

Lemma in_range_true a n va : in_range a n va = true <-> a <= va < a + PGSIZE * n.
Proof. unfold in_range. rewrite andb_true_iff, Z.leb_le, Z.ltb_lt. done. Qed.

Lemma new_entry_range a pa perm va n :
  pa mod PGSIZE = 0 -> 0 <= pa -> pa + PGSIZE * n <= 2 ^ 32 -> 0 <= perm < PGSIZE ->
  in_range a n va = true -> 0 <= new_entry a pa perm va < 2 ^ 32.
Proof.
  unfold in_range. intros Hpa Hpa0 Hle Hperm [Hlo Hhi]%andb_true_iff.
  unfold new_entry. rewrite <- Z.lor_assoc. destruct (page_multiple pa Hpa) as [b ->].
  assert (0 <= (va - a) / PGSIZE < n) as Hk.
  { unfold PGSIZE in *. Z.div_mod_to_equations. lia. }
  apply entry_range; [|unfold PGSIZE in *; lia|].
  - unfold PGSIZE. replace (4096 * b + 4096 * ((va - a) / 4096)) with ((b + (va - a) / 4096) * 4096) by lia.
    by apply Z.mod_mul.
  - apply lor_flags_bound; [done|]. unfold PTE_P, PGSIZE. lia.
Qed.

Lemma in_range_here a va : a mod PGSIZE = 0 -> in_range a 1 va = (va / PGSIZE =? a / PGSIZE).
Proof.
  intros Ha. destruct (page_multiple a Ha) as [b ->]. unfold in_range, PGSIZE.
  rewrite Z.mul_comm, Z.div_mul by lia.
  destruct (Z.leb_spec (b * 4096) va), (Z.ltb_spec va (b * 4096 + 4096 * 1)), (Z.eqb_spec (va / 4096) b);
    try done; exfalso; Z.div_mod_to_equations; lia.
Qed.

Lemma new_entry_shift a pa perm va :
  new_entry (a + PGSIZE) (pa + PGSIZE) perm va = new_entry a pa perm va.
Proof.
  unfold new_entry. do 2 f_equal. unfold PGSIZE.
  replace (va - a) with (va - (a + 4096) + 1 * 4096) by lia. rewrite Z.div_add by lia. lia.
Qed.

Lemma in_range_S a n va : 0 <= n -> in_range a (n + 1) va = in_range a 1 va || in_range (a + PGSIZE) n va.
Proof.
  intros Hn. unfold in_range, PGSIZE.
  destruct (Z.leb_spec a va), (Z.ltb_spec va (a + 4096 * (n + 1))), (Z.ltb_spec va (a + 4096 * 1)),
    (Z.leb_spec (a + 4096) va), (Z.ltb_spec va (a + 4096 + 4096 * n)); done || lia.
Qed.

(** [m] pages of a range are mapped. *)
Definition mapped (s : machine) (T : gmap Z Z) (a pa perm m : Z) (s' : machine) (T' : gmap Z Z) : Prop :=
  forall va, is_va va -> entry (pages s') T' va =
    if in_range a m va then new_entry a pa perm va else entry (pages s) T va.

(** One page. *)
Lemma map_one s pgdir T l a pa perm k :
  vm_ok s pgdir T l -> is_va a -> a mod PGSIZE = 0 -> pa mod PGSIZE = 0 -> 0 <= pa ->
  pa + PGSIZE <= 2 ^ 32 -> 0 <= perm < PGSIZE -> Z.land (entry (pages s) T a) PTE_P = 0 ->
  let body := (pte ← walkpgdir pgdir a true;
    if pte =? 0 then mret (-1)
    else
      x ← ld pte;
      if negb (Z.land x PTE_P =? 0) then panic "remap"
      else sto pte (Z.lor (Z.lor pa perm) PTE_P) ;; k) in
  (body s = Ok (-1, s) /\ l = [] /\ T !! PDX a = None) \/
  exists s' T' l', body s = k s' /\ vm_step pgdir s T l s' T' l' /\ mapped s T a pa perm 1 s' T' /\
    (length l <= S (length l'))%nat.
Proof.
  intros Hok Hva Ha Hpa Hpa0 Hpa1 Hperm Hfree body.
  destruct (walk_run s pgdir T a l Hok) as [(R & -> & HT)|(s1 & T1 & l1 & t & R & Hs1 & Ht & He1 & Hlen)].
  { left. split; [|done]. unfold body. by rewrite (bind_ok _ _ _ _ _ R). }
  right. pose proof (vs_ok _ _ _ _ _ _ _ Hs1) as Hok1.
  destruct (walk_slot_ne _ _ _ _ _ (PTX a) (vo_dir _ _ _ _ Hok1) Ht (PTX_range a)) as [Hne _].
  set (x := Z.lor (Z.lor pa perm) PTE_P).
  assert (forall va, in_range a 1 va = true -> new_entry a pa perm va = x) as Hx.
  { intros va [Hlo Hhi]%andb_true_iff. unfold new_entry. rewrite Z.div_small; [|unfold PGSIZE in *; lia].
    by rewrite Z.mul_0_r, Z.add_0_r. }
  assert (in_range a 1 a = true) as Haa.
  { unfold in_range, PGSIZE. apply andb_true_iff. lia. }
  destruct (sto_entry s1 pgdir T1 l1 a t x Hok1 Ht) as (s2 & R2 & Hs2 & He2); [|done|].
  { rewrite <- (Hx a Haa). apply (new_entry_range a pa perm a 1); done || lia. }
  exists s2, T1, l1. split; [|split; [|split; [|done]]].
  - unfold body. rewrite (bind_ok _ _ _ _ _ R), (proj2 (Z.eqb_neq _ _) Hne).
    rewrite (bind_ok _ _ _ _ _ (entry_ld s1 pgdir T1 a t (vo_dir _ _ _ _ Hok1) Ht)), He1, Hfree.
    cbn [Z.eqb negb]. by rewrite (bind_ok _ _ _ _ _ R2).
  - by eapply vm_step_trans.
  - intros va Hv. rewrite He2, He1, <- in_range_here by done.
    destruct (in_range a 1 va) eqn:Hin; [by rewrite Hx|done].
Qed.

Lemma in_range_0 a va : in_range a 0 va = false.
Proof. unfold in_range, PGSIZE. lia. Qed.

Lemma mapped_0 s T a pa perm : mapped s T a pa perm 0 s T.
Proof. intros va _. by rewrite in_range_0. Qed.

Lemma mapped_S s T a pa perm m s1 T1 s2 T2 : 0 <= m ->
  mapped s T a pa perm 1 s1 T1 -> mapped s1 T1 (a + PGSIZE) (pa + PGSIZE) perm m s2 T2 ->
  mapped s T a pa perm (m + 1) s2 T2.
Proof.
  intros Hm H1 H2 va Hva. rewrite H2, H1, new_entry_shift, (in_range_S a m) by done.
  by destruct (in_range a 1 va), (in_range (a + PGSIZE) m va).
Qed.

Lemma map_loop_run n fuel pgdir s T l a pa perm :
  vm_ok s pgdir T l -> (n < fuel)%nat -> 0 <= a -> a mod PGSIZE = 0 ->
  a + PGSIZE * (Z.of_nat n + 1) <= 2 ^ 32 -> 0 <= pa -> pa mod PGSIZE = 0 ->
  pa + PGSIZE * (Z.of_nat n + 1) <= 2 ^ 32 -> 0 <= perm < PGSIZE ->
  (forall va, in_range a (Z.of_nat n + 1) va = true -> Z.land (entry (pages s) T va) PTE_P = 0) ->
  exists r m s' T' l', map_loop fuel pgdir a (a + PGSIZE * Z.of_nat n) pa perm s = Ok (r, s') /\
    vm_step pgdir s T l s' T' l' /\ mapped s T a pa perm m s' T' /\
    (r = 0 /\ m = Z.of_nat n + 1 \/ r = -1 /\ 0 <= m <= Z.of_nat n /\ l' = []).
Proof.
  revert fuel s T l a pa. induction n as [|n IH]; intros fuel s T l a pa Hok Hfuel Ha0 Ha Hal Hpa0 Hpa Hpal
    Hperm Hfree; (destruct fuel as [|fuel]; [lia|]); cbn [map_loop];
    set (k := if _ =? _ then mret 0 else _);
    (destruct (map_one s pgdir T l a pa perm k) as [(R & -> & HT)|(s1 & T1 & l1 & R & Hs1 & Hm1 & _)];
      try done).
  all: try (unfold is_va; plia).
  all: try plia.
  all: try (apply Hfree, in_range_true; plia).
  all: try (exists (-1), 0, s, T, []; split; [exact R|]; split; [by apply vm_step_refl|];
    split; [apply mapped_0|right; split_and!; [done|lia|lia|done]]).
  - exists 0, 1, s1, T1, l1. split; [|split_and!; [done|done|by left]].
    etransitivity; [exact R|]. unfold k. rewrite (proj2 (Z.eqb_eq _ _)) by plia. done.
  - destruct (IH fuel s1 T1 l1 (a + PGSIZE) (pa + PGSIZE)) as (r & m & s2 & T2 & l2 & R2 & Hs2 & Hm2 & Hr);
      try plia; try exact (vs_ok _ _ _ _ _ _ _ Hs1).
    + destruct (page_multiple a Ha) as [b ->]. unfold PGSIZE. Z.div_mod_to_equations. lia.
    + destruct (page_multiple pa Hpa) as [b ->]. unfold PGSIZE. Z.div_mod_to_equations. lia.
    + intros va Hin. apply in_range_true in Hin. rewrite Hm1 by (unfold is_va; plia).
      destruct (in_range a 1 va) eqn:H1; [apply in_range_true in H1; plia|].
      apply Hfree, in_range_true. plia.
    + exists r, (m + 1), s2, T2, l2. split; [|split_and!].
      * etransitivity; [exact R|]. unfold k. rewrite (proj2 (Z.eqb_neq _ _)) by plia.
        rewrite !w32_small by plia. rewrite <- R2. f_equal. plia.
      * by eapply vm_step_trans.
      * eapply mapped_S; [lia|done|done].
      * destruct Hr as [[-> ->]|(-> & Hm & ->)]; [left; lia|]. right. split_and!; done || lia.
Qed.
(** All of the pages of a range, or those before the free list ran out. *)
Lemma mappages_run s pgdir T l va size pa perm :
  vm_ok s pgdir T l -> 0 <= va -> 0 < size -> va + size <= 2 ^ 32 ->
  let a := PGSIZE * (va / PGSIZE) in
  let n := (va + size - 1) / PGSIZE - va / PGSIZE + 1 in
  0 <= pa -> pa mod PGSIZE = 0 -> pa + PGSIZE * n <= 2 ^ 32 -> 0 <= perm < PGSIZE ->
  (forall va', in_range a n va' = true -> Z.land (entry (pages s) T va') PTE_P = 0) ->
  exists r m s' T' l', mappages pgdir va size pa perm s = Ok (r, s') /\
    vm_step pgdir s T l s' T' l' /\
    (forall va', is_va va' -> entry (pages s') T' va' =
       if in_range a m va' then Z.lor (Z.lor (pa + PGSIZE * ((va' - a) / PGSIZE)) perm) PTE_P
       else entry (pages s) T va') /\
    (r = 0 /\ m = n \/ r = -1 /\ 0 <= m < n /\ l' = []).
Proof.
  intros Hok Hva Hsz Hmax a n Hpa0 Hpa Hpal Hperm Hfree.
  assert (1 <= n) as Hn by (unfold n, PGSIZE; Z.div_mod_to_equations; lia).
  assert (PGSIZE * ((va + size - 1) / PGSIZE) = a + PGSIZE * Z.of_nat (Z.to_nat (n - 1))) as Hlast.
  { rewrite Z2Nat.id by lia. unfold a, n. lia. }
  assert (0 <= a) as Ha0 by (unfold a, PGSIZE; Z.div_mod_to_equations; lia).
  assert (a + PGSIZE * n <= 2 ^ 32) as Hend by (unfold a, n, PGSIZE; Z.div_mod_to_equations; lia).
  unfold mappages. rewrite (w32_small (va + size - 1)) by lia.
  rewrite !PGROUNDDOWN_div by lia. fold a. rewrite Hlast.
  assert (a + PGSIZE * Z.of_nat (Z.to_nat (n - 1)) - a = PGSIZE * (n - 1)) as -> by lia.
  rewrite (w32_small (PGSIZE * (n - 1))) by plia.
  assert (PGSIZE * (n - 1) / PGSIZE = n - 1) as -> by (rewrite Z.mul_comm; apply Z.div_mul; done).
  destruct (map_loop_run (Z.to_nat (n - 1)) (S (Z.to_nat (n - 1))) pgdir s T l a pa perm Hok)
    as (r & m & s' & T' & l' & R & Hs & Hm & Hr); rewrite ?Z2Nat.id by lia; try lia.
  - unfold a. rewrite Z.mul_comm. by apply Z.mod_mul.
  - intros va' Hin. apply Hfree. by replace n with (n - 1 + 1) by lia.
  - rewrite Z2Nat.id in R, Hr by lia. exists r, m, s', T', l'. split; [exact R|]. split; [exact Hs|]. split; [exact Hm|].
    destruct Hr as [[-> ->]|(-> & Hm' & ->)]; [left|right]; (split; [done|]); [lia|split; [lia|done]].
Qed.
End Tables.
