(* ===== verification/VmUser.v ===== *)
(** * User memory

    The pages of a process as a map from page numbers to pages of the allocator, and what
    [allocuvm], [deallocuvm] and [copyout] do to it. *)

From S2P Require Import Prelude Bytes CString Layout Kalloc KallocSpec Vm VmSpec.

Section User.
Context `{Linker}.
Hypothesis Hkend : KERNBASE < kend.
Context (pgdir : Z).

(** The number of pages below [KERNBASE]. *)
Definition NUSER : Z := KERNBASE / PGSIZE.

(** [U] gives for the number of a user page its address in the kernel.  The pages are not
    shared with each other, with the tables or with the free list. *)
Record user_ok (s : machine) (T : gmap Z Z) (l : list Z) (U : gmap Z Z) : Prop := UserOk {
  uo_page : forall n v, U !! n = Some v ->
    0 <= n < NUSER /\ page_ok (pages s) v /\ outside pgdir T l (page_of v);
  uo_entry : forall n v, U !! n = Some v -> let e := entry (pages s) T (PGSIZE * n) in
    0 <= e < 2 ^ 32 /\ Z.land e PTE_P <> 0 /\ PTE_ADDR e = V2P v;
  uo_none : forall n, 0 <= n < NUSER -> U !! n = None ->
    Z.land (entry (pages s) T (PGSIZE * n)) PTE_P = 0;
  uo_inj : forall n n' v, U !! n = Some v -> U !! n' = Some v -> n = n'
}.

Record proc_ok (s : machine) (T : gmap Z Z) (l : list Z) (U : gmap Z Z) : Prop := ProcOk {
  po_vm : vm_ok s pgdir T l;
  po_user : user_ok s T l U
}.

Lemma user_va n : 0 <= n < NUSER -> is_va (PGSIZE * n) /\ PGSIZE * n / PGSIZE = n /\ (PGSIZE * n) mod PGSIZE = 0.
Proof.
  unfold NUSER, is_va, KERNBASE, PGSIZE. intros Hn. change (0x80000000 / 4096) with 524288 in Hn.
  split; [lia|]. rewrite Z.mul_comm, Z.div_mul, Z.mod_mul by lia. done.
Qed.

Lemma user_nonzero P v : page_ok P v -> V2P v <> 0.
Proof using Hkend. intros [Hk He _]. rewrite kpage_V2P by done. lia. Qed.

(** The user part after a change outside of the user pages and the entries. *)
Lemma user_frame s T l U s' T' l' :
  user_ok s T l U ->
  (forall n v, U !! n = Some v -> pages s' !! page_of v = pages s !! page_of v) ->
  (forall n, 0 <= n < NUSER -> entry (pages s') T' (PGSIZE * n) = entry (pages s) T (PGSIZE * n)) ->
  (forall n v, U !! n = Some v -> outside pgdir T' l' (page_of v)) ->
  user_ok s' T' l' U.
Proof.
  intros [Hp He Hn Hi] HP HE HO. split; [| | |done].
  - intros n v Hv. destruct (Hp n v Hv) as (Hr & Hpv & _). split; [done|]. split; [|by eapply HO].
    eapply page_ok_frame; [|exact Hpv]. intros d Hd. exists d. by rewrite (HP n).
  - intros n v Hv. destruct (Hp n v Hv) as (Hr & _). rewrite HE by done. by apply He.
  - intros n Hr Hv. rewrite HE by done. by apply Hn.
Qed.

(** A page that belongs to nobody is freed. *)
Lemma free_page_vm s T l v :
  vm_ok s pgdir T l -> page_ok (pages s) v -> outside pgdir T l (page_of v) ->
  exists s1, kfree v s = Ok (tt, s1) /\ vm_ok s1 pgdir T (v :: l) /\
    (forall va, entry (pages s1) T va = entry (pages s) T va) /\
    (forall p, p <> page_of v -> pages s1 !! p = pages s !! p) /\
    forall w, page_ok (pages s) w -> page_ok (pages s1) w.
Proof.
  intros Hvm Hpv (Ho1 & Ho2 & Ho3).
  assert (v ∉ l) as Hvl by (intros Hin; by apply (Ho3 v Hin)).
  destruct (kfree_run s v l (vo_free _ _ _ _ Hvm) Hpv Hvl) as (d & Hd & R1 & Hf1).
  set (s1 := set_freelist v _) in *.
  assert (forall p, p <> page_of v -> pages s1 !! p = pages s !! p) as Hs1.
  { intros p Hp. by apply lookup_insert_ne, not_eq_sym. }
  destruct (pgdir_frame (pages s) (pages s1) pgdir T (vo_dir _ _ _ _ Hvm)) as [Hok1 He1].
  { apply Hs1. by apply not_eq_sym. }
  { intros e t' Ht'. apply Hs1. apply not_eq_sym. by apply (Ho2 e). }
  assert (forall w, page_ok (pages s) w -> page_ok (pages s1) w) as Hps.
  { intros w Hw. apply page_ok_insert; [|done]. rewrite (put_le_length _ _ _ _ _ Hd).
    apply length_replicate. }
  exists s1. split; [done|]. split; [|done]. split; [done|done| |].
  - apply not_elem_of_cons. split; [|apply Hvm]. intros <-. by destruct Ho1.
  - intros e t' Ht'. apply not_elem_of_cons. split; [|by eapply Hvm]. intros <-.
    by apply (Ho2 e t' Ht').
Qed.

(** A user page leaves the process: freed and its entry cleared. *)
Lemma free_user s T l U n v :
  proc_ok s T l U -> U !! n = Some v ->
  exists s1 s2 t, kfree v s = Ok (tt, s1) /\ T !! PDX (PGSIZE * n) = Some t /\
    sto (t + 4 * PTX (PGSIZE * n)) 0 s1 = Ok (tt, s2) /\
    proc_ok s2 T (v :: l) (delete n U) /\
    (forall p, p <> page_of v -> outside pgdir T l p -> pages s2 !! p = pages s !! p) /\
    (forall k, 0 <= k < NUSER -> k <> n ->
      entry (pages s2) T (PGSIZE * k) = entry (pages s) T (PGSIZE * k)) /\
    forall w, page_ok (pages s) w -> page_ok (pages s2) w.
Proof.
  intros [Hvm Hu] Hn. destruct (uo_page _ _ _ _ Hu n v Hn) as (Hr & Hpv & Hout).
  pose proof (po_kpage _ _ Hpv) as Hkv.
  destruct (user_va n Hr) as (Hva & Hdiv & Hmod).
  destruct (uo_entry _ _ _ _ Hu n v Hn) as (_ & Hpres & _).
  assert (exists t, T !! PDX (PGSIZE * n) = Some t) as [t Ht].
  { unfold entry in Hpres. destruct (T !! _) as [t|]; [by exists t|]. by destruct Hpres. }
  destruct (free_page_vm s T l v Hvm Hpv Hout) as (s1 & R1 & Hvm1 & He1 & Hs1 & Hps1).
  destruct (sto_entry s1 pgdir T (v :: l) (PGSIZE * n) t 0 Hvm1 Ht ltac:(lia) Hva)
    as (s2 & R2 & Hs2 & He2).
  assert (forall p, p <> page_of v -> outside pgdir T l p -> pages s2 !! p = pages s !! p) as Hfr.
  { intros p Hp (Hp1 & Hp2 & Hp3). rewrite (vs_frame _ _ _ _ _ _ _ Hs2); [by apply Hs1|].
    split; [done|]. split; [done|]. intros w [->|Hw]%elem_of_cons; [done|by apply Hp3]. }
  exists s1, s2, t. split; [done|]. split; [done|]. split; [done|]. split; [|split; [done|split; [|by intros w Hw; apply Hs2, Hps1]]].
  2: { intros k Hk Hne. destruct (user_va k Hk) as (Hvk & Hdk & _).
       by rewrite He2, Hdiv, Hdk, (proj2 (Z.eqb_neq _ _)), He1 by done. }
  split; [apply Hs2|]. split.
  - intros k w Hk. apply lookup_delete_Some in Hk as [Hne Hk].
    destruct (uo_page _ _ _ _ Hu k w Hk) as (Hkr & Hpw & Hw1 & Hw2 & Hw3).
    assert (page_of w <> page_of v) as Hwv.
    { intros Heq. apply Hne. apply (uo_inj _ _ _ _ Hu n k v Hn).
      by rewrite <- (kpage_inj w v (po_kpage _ _ Hpw) Hkv Heq). }
    split; [done|]. split.
    + eapply page_ok_frame; [|exact Hpw]. intros d0 Hd0. exists d0. split; [|done].
      rewrite Hfr; [done|done|by split_and!].
    + split; [done|]. split; [done|]. intros x [->|Hx]%elem_of_cons; [done|by apply Hw3].
  - intros k w Hk. apply lookup_delete_Some in Hk as [Hne Hk].
    destruct (uo_page _ _ _ _ Hu k w Hk) as (Hkr & _). destruct (user_va k Hkr) as (Hvk & Hdk & _).
    rewrite He2, Hdiv, Hdk by done. rewrite (proj2 (Z.eqb_neq _ _)) by done.
    rewrite He1. by apply Hu.
  - intros k Hkr Hk. destruct (user_va k Hkr) as (Hvk & Hdk & _).
    rewrite He2, Hdiv, Hdk by done. destruct (Z.eqb_spec k n) as [->|Hne]; [done|].
    rewrite He1. apply Hu; [done|]. by rewrite lookup_delete_ne in Hk by done.
  - intros k k' w [_ Hk]%lookup_delete_Some [_ Hk']%lookup_delete_Some. by apply (uo_inj _ _ _ _ Hu k k' w).
Qed.

(** ** deallocuvm *)

(** The process loses the pages from the number [i] up to [j]; they are free. *)
Record lost (i j : Z) (s : machine) (T : gmap Z Z) (l : list Z) (U : gmap Z Z)
    (s' : machine) (l' : list Z) (U' : gmap Z Z) : Prop := Lost {
  lo_ok : proc_ok s' T l' U';
  lo_user : forall n, U' !! n = if (i <=? n) && (n <? j) then None else U !! n;
  lo_free : forall v, v ∈ l' <-> v ∈ l \/ exists n, i <= n < j /\ U !! n = Some v;
  lo_frame : forall n v, U' !! n = Some v -> pages s' !! page_of v = pages s !! page_of v;
  lo_entry : forall n v, U' !! n = Some v ->
    entry (pages s') T (PGSIZE * n) = entry (pages s) T (PGSIZE * n);
  lo_out : forall p, outside pgdir T l p -> (forall n v, i <= n < j -> U !! n = Some v -> p <> page_of v) ->
    pages s' !! p = pages s !! p;
  lo_pages : forall v, page_ok (pages s) v -> page_ok (pages s') v
}.

Lemma lost_none i j s T l U : proc_ok s T l U ->
  (forall n, i <= n < j -> U !! n = None) -> lost i j s T l U s l U.
Proof.
  intros Hok Hn. split; [done| | |done|done|done|done].
  - intros n. destruct (Z.leb_spec i n), (Z.ltb_spec n j); cbn; try done. apply Hn. lia.
  - intros v. split; [by left|]. intros [Hv|(n & Hr & Hv)]; [done|]. by rewrite Hn in Hv.
Qed.

Lemma lost_trans i j k s1 T l1 U1 s2 l2 U2 s3 l3 U3 : i <= j <= k ->
  lost i j s1 T l1 U1 s2 l2 U2 -> lost j k s2 T l2 U2 s3 l3 U3 -> lost i k s1 T l1 U1 s3 l3 U3.
Proof.
  intros Hijk [Ho1 Hu1 Hf1 Hfr1 Hen1 Hx1 Hp1] [Ho2 Hu2 Hf2 Hfr2 Hen2 Hx2 Hp2]. split; [done| | | | | |by auto].
  - intros n. rewrite Hu2, Hu1. destruct (Z.leb_spec j n), (Z.ltb_spec n k), (Z.leb_spec i n),
      (Z.ltb_spec n j); done || lia.
  - intros v. rewrite Hf2, Hf1. split.
    + intros [[Hv|(n & Hr & Hn)]|(n & Hr & Hn)]; [by left|right..]; exists n; (split; [lia|]); [done|].
      rewrite Hu1 in Hn. by destruct (_ && _).
    + intros [Hv|(n & Hr & Hn)]; [by left; left|].
      destruct (Z.ltb_spec n j) as [Hlt|Hge]; [left; right|right]; exists n.
      * split; [lia|done].
      * split; [lia|]. rewrite Hu1, (proj2 (Z.ltb_ge n j)), andb_false_r by lia. done.
  - intros n v Hn. rewrite (Hfr2 n v Hn). apply (Hfr1 n).
    rewrite Hu2 in Hn. by destruct (_ && _).
  - intros n v Hn. rewrite (Hen2 n v Hn). apply (Hen1 n v).
    rewrite Hu2 in Hn. by destruct (_ && _).
  - intros p (Hp & HpT & Hpl) HpU. rewrite Hx2; [apply Hx1; [done|]| |].
    + intros n v Hr Hn. apply (HpU n v); [lia|done].
    + split; [done|]. split; [done|]. intros v [Hv|(n & Hn & Hv)]%Hf1; [by apply Hpl|]. apply (HpU n v); [lia|done].
    + intros n v Hr Hn. rewrite Hu1 in Hn. apply (HpU n v); [lia|]. by destruct (_ && _).
Qed.

Lemma lost_shrink i j j' s T l U s' l' U' : j' <= j -> (forall n, j' <= n < j -> U !! n = None) ->
  lost i j s T l U s' l' U' -> lost i j' s T l U s' l' U'.
Proof.
  intros Hj Hn [Ho Hu Hf Hfr Hen Hx Hp]. split; [done| | |done|done| |done].
  - intros n. rewrite Hu. destruct (Z.leb_spec i n), (Z.ltb_spec n j), (Z.ltb_spec n j'); cbn;
      try done; [|lia..]. symmetry. apply Hn. lia.
  - intros v. rewrite Hf. split; (intros [Hv|(n & Hr & Hv)]; [by left|right; exists n; (split; [|done])]).
    + destruct (Z.ltb_spec n j'); [lia|]. by rewrite Hn in Hv by lia.
    + lia.
  - intros p Hout HpU. apply Hx; [done|]. intros n v Hr Hv. destruct (Z.ltb_spec n j').
    + apply (HpU n v); [lia|done].
    + by rewrite Hn in Hv by lia.
Qed.

(** The page [n] of a process, freed. *)
Lemma lost_one s T l U n v : proc_ok s T l U -> U !! n = Some v ->
  exists s1 s2 t, kfree v s = Ok (tt, s1) /\ T !! PDX (PGSIZE * n) = Some t /\
    sto (t + 4 * PTX (PGSIZE * n)) 0 s1 = Ok (tt, s2) /\
    lost n (n + 1) s T l U s2 (v :: l) (delete n U).
Proof.
  intros Hok Hn. destruct (free_user s T l U n v Hok Hn) as (s1 & s2 & t & R1 & Ht & R2 & Hok2 & Hfr & Hen & Hps).
  exists s1, s2, t. split; [done|]. split; [done|]. split; [done|]. split; [done| | | | | |done].
  - intros k. destruct (Z.leb_spec n k), (Z.ltb_spec k (n + 1)); cbn [andb];
      (destruct (decide (k = n)) as [->|Hne]; [rewrite lookup_delete_eq|rewrite lookup_delete_ne by done]);
      done || lia.
  - intros w. rewrite elem_of_cons. split.
    + intros [->|Hw]; [right; exists n; split; [lia|done]|by left].
    + intros [Hw|(k & Hk & Hw)]; [by right|]. assert (k = n) as -> by lia. left. congruence.
  - intros k w [Hne Hk]%lookup_delete_Some.
    destruct (uo_page _ _ _ _ (po_user _ _ _ _ Hok) k w Hk) as (_ & Hpw & Hout). apply Hfr; [|done].
    intros Heq. apply Hne. apply (uo_inj _ _ _ _ (po_user _ _ _ _ Hok) n k v Hn).
    destruct (uo_page _ _ _ _ (po_user _ _ _ _ Hok) n v Hn) as (_ & Hpv & _).
    by rewrite <- (kpage_inj w v (po_kpage _ _ Hpw) (po_kpage _ _ Hpv) Heq).
  - intros k w [Hne Hk]%lookup_delete_Some. apply Hen; [|by apply not_eq_sym].
    by apply (uo_page _ _ _ _ (po_user _ _ _ _ Hok) k w Hk).
  - intros p Hp HpU. apply Hfr; [apply (HpU n v); [lia|done]|done].
Qed.

(** The first address of the next page table. *)
Lemma next_table n : 0 <= n < NUSER ->
  w32 (w32 (PGADDR (PDX (PGSIZE * n) + 1) 0 0 - PGSIZE) + PGSIZE) = PGSIZE * (1024 * (n / 1024 + 1)).
Proof.
  intros Hn. destruct (user_va n Hn) as (Hva & _). unfold is_va in Hva.
  assert (PDX (PGSIZE * n) = n / 1024) as ->.
  { rewrite PDX_div by done. change (2 ^ 22) with (4096 * 1024). unfold PGSIZE.
    rewrite <- Z.div_div by lia. f_equal. rewrite Z.mul_comm. apply Z.div_mul. lia. }
  unfold PGADDR. rewrite Z.shiftl_0_l, !Z.lor_0_r, Z.shiftl_mul_pow2 by lia.
  change (2 ^ 22) with (4096 * 1024). unfold NUSER, PGSIZE, KERNBASE in *.
  change (0x80000000 / 4096) with 524288 in Hn.
  assert (0 <= n / 1024 < 512) by (Z.div_mod_to_equations; lia).
  set (q := n / 1024) in *.
  rewrite (w32_small ((q + 1) * _)) by lia. rewrite (w32_small (_ - _)) by lia.
  rewrite w32_small by lia. lia.
Qed.

(** The same directory entry up to there. *)
Lemma same_table n k : 0 <= n -> n <= k < 1024 * (n / 1024 + 1) -> k < NUSER ->
  PDX (PGSIZE * k) = PDX (PGSIZE * n).
Proof.
  intros Hn Hk Hku. destruct (user_va n ltac:(lia)) as (Hvn & _), (user_va k ltac:(lia)) as (Hvk & _).
  rewrite !PDX_div by done. change (2 ^ 22) with (4096 * 1024). unfold PGSIZE.
  rewrite <- !Z.div_div by lia. rewrite !(Z.mul_comm 4096), !Z.div_mul by lia.
  Z.div_mod_to_equations. lia.
Qed.

Lemma no_table_none s T l U n k :
  proc_ok s T l U -> 0 <= n -> T !! PDX (PGSIZE * n) = None -> n <= k < 1024 * (n / 1024 + 1) ->
  U !! k = None.
Proof.
  intros [_ Hu] Hn HT Hk. destruct (U !! k) as [v|] eqn:Hv; [|done]. exfalso.
  destruct (uo_page _ _ _ _ Hu k v Hv) as (Hkr & _).
  destruct (uo_entry _ _ _ _ Hu k v Hv) as (_ & Hp & _). apply Hp.
  unfold entry. rewrite (same_table n k) by (done || lia). by rewrite HT.
Qed.

Definition pages_up (sz : Z) : Z := (sz + PGSIZE - 1) / PGSIZE.

Lemma pages_up_lt n sz : PGSIZE * n < sz <-> n < pages_up sz.
Proof. unfold pages_up, PGSIZE. Z.div_mod_to_equations. lia. Qed.

Lemma dealloc_loop_run fuel s T l U n oldsz :
  proc_ok s T l U -> 0 <= n -> oldsz <= KERNBASE -> (Z.to_nat (pages_up oldsz - n) < fuel)%nat ->
  exists s' l' U', dealloc_loop fuel pgdir (PGSIZE * n) oldsz s = Ok (tt, s') /\
    lost n (Z.max n (pages_up oldsz)) s T l U s' l' U'.
Proof using Hkend.
  revert s l U n. induction fuel as [|fuel IH]; intros s l U n Hok Hn Hsz Hfuel; [lia|].
  cbn [dealloc_loop]. destruct (Z.ltb_spec (PGSIZE * n) oldsz) as [Hlt|Hge].
  - assert (n < pages_up oldsz) as Hnu by by apply pages_up_lt.
    assert (n < NUSER) as Hnn.
    { unfold NUSER, KERNBASE, PGSIZE in *. change (0x80000000 / 4096) with 524288. lia. }
    destruct (user_va n (conj Hn Hnn)) as (Hva & Hdiv & Hmod).
    pose proof (po_vm _ _ _ _ Hok) as Hvm. pose proof (po_user _ _ _ _ Hok) as Hu.
    destruct (T !! PDX (PGSIZE * n)) as [t|] eqn:Ht.
    + rewrite (bind_ok _ _ _ _ _ (walk_some s pgdir T _ t false (vo_dir _ _ _ _ Hvm) Ht)).
      destruct (walk_slot_ne _ _ _ _ _ (PTX (PGSIZE * n)) (vo_dir _ _ _ _ Hvm) Ht (PTX_range _)) as [Hne _].
      rewrite (proj2 (Z.eqb_neq _ _) Hne).
      rewrite (bind_ok _ _ _ _ _ (entry_ld s pgdir T _ t (vo_dir _ _ _ _ Hvm) Ht)).
      assert (w32 (PGSIZE * n + PGSIZE) = PGSIZE * (n + 1)) as ->.
      { unfold NUSER, KERNBASE, PGSIZE in *. change (0x80000000 / 4096) with 524288 in Hnn.
        rewrite w32_small; lia. }
      destruct (U !! n) as [v|] eqn:Hv.
      * destruct (uo_entry _ _ _ _ Hu n v Hv) as (_ & Hp & Ha).
        destruct (uo_page _ _ _ _ Hu n v Hv) as (_ & Hpv & _).
        rewrite (proj2 (Z.eqb_neq _ _) Hp), Ha. cbn [negb]. rewrite bind_when_true.
        rewrite (proj2 (Z.eqb_neq _ _) (user_nonzero _ _ Hpv)), P2V_V2P by apply Hpv.
        destruct (lost_one s T l U n v Hok Hv) as (s1 & s2 & t' & R1 & Ht' & R2 & Hlo).
        assert (t' = t) as -> by congruence.
        rewrite bind_bind, (bind_ok _ _ _ _ _ R1), (bind_ok _ _ _ _ _ R2).
        destruct (IH s2 (v :: l) (delete n U) (n + 1)) as (s3 & l3 & U3 & R3 & Hlo3); [apply Hlo|lia..|].
        exists s3, l3, U3. split; [done|]. rewrite Z.max_r in Hlo3 |- * by lia.
        eapply lost_trans; [|exact Hlo|done]. lia.
      * rewrite (uo_none _ _ _ _ Hu n (conj Hn Hnn) Hv). cbn [Z.eqb negb]. rewrite bind_when_false.
        destruct (IH s l U (n + 1)) as (s3 & l3 & U3 & R3 & Hlo3); [done|lia..|].
        exists s3, l3, U3. split; [done|]. rewrite Z.max_r in Hlo3 |- * by lia.
        eapply lost_trans; [|apply (lost_none n (n + 1)); [done|]|done]; [lia|].
        intros k Hk. by assert (k = n) as -> by lia.
    + rewrite (bind_ok _ _ _ _ _ (walk_none s pgdir T _ (vo_dir _ _ _ _ Hvm) Ht)). cbn [Z.eqb].
      rewrite next_table by done. set (n' := 1024 * (n / 1024 + 1)).
      assert (n < n') as Hnn' by (unfold n'; Z.div_mod_to_equations; lia).
      destruct (IH s l U n') as (s3 & l3 & U3 & R3 & Hlo3); [done|lia..|].
      exists s3, l3, U3. split; [done|].
      assert (forall k, n <= k < n' -> U !! k = None) as Hno by (intros k Hk; by apply (no_table_none s T l U n)).
      apply (lost_shrink n (Z.max n' (pages_up oldsz))); [lia| |].
      * intros k Hk. apply Hno. lia.
      * eapply lost_trans; [|by apply (lost_none n n')|exact Hlo3]. lia.
  - exists s, l, U. split; [done|]. rewrite Z.max_l.
    + apply lost_none; [done|]. lia.
    + destruct (Z.le_gt_cases (pages_up oldsz) n) as [|Hlt]; [done|]. apply pages_up_lt in Hlt. lia.
Qed.
Lemma PGROUNDUP_pages sz : 0 <= sz < KERNBASE -> PGROUNDUP sz = PGSIZE * pages_up sz.
Proof. intros Hsz. apply PGROUNDUP_div; unfold KERNBASE in *; plia. Qed.

Lemma pages_up_mono a b : a <= b -> pages_up a <= pages_up b.
Proof. intros Hab. apply Z.div_le_mono; plia. Qed.

Lemma pages_up_nonneg a : 0 <= a -> 0 <= pages_up a.
Proof. intros Ha. apply Z.div_pos; plia. Qed.

(** The rounds of the loops from the page [n] on. *)
Lemma rounds_left sz n : (sz - PGSIZE * n + PGSIZE - 1) / PGSIZE = pages_up sz - n.
Proof.
  unfold pages_up. replace (sz - PGSIZE * n + PGSIZE - 1) with (sz + PGSIZE - 1 + - n * PGSIZE) by lia.
  rewrite Z.div_add by plia. lia.
Qed.

Lemma deallocuvm_run s T l U oldsz newsz :
  proc_ok s T l U -> 0 <= newsz < oldsz -> oldsz <= KERNBASE ->
  exists s' l' U', deallocuvm pgdir oldsz newsz s = Ok (newsz, s') /\
    lost (pages_up newsz) (pages_up oldsz) s T l U s' l' U'.
Proof using Hkend.
  intros Hok Hsz Hk. unfold deallocuvm. rewrite (proj2 (Z.leb_gt _ _)) by lia.
  rewrite PGROUNDUP_pages, rounds_left by lia.
  pose proof (pages_up_mono newsz oldsz ltac:(lia)) as Hle.
  pose proof (pages_up_nonneg newsz ltac:(lia)).
  destruct (dealloc_loop_run (S (Z.to_nat (pages_up oldsz - pages_up newsz))) s T l U (pages_up newsz) oldsz)
    as (s' & l' & U' & R & Hlo); [done|done|done|lia|].
  rewrite (bind_ok _ _ _ _ _ R). exists s', l', U'. split; [done|]. by rewrite Z.max_r in Hlo by lia.
Qed.

(** ** allocuvm *)

Lemma outside_cons T v l p : outside pgdir T (v :: l) p <-> p <> page_of v /\ outside pgdir T l p.
Proof.
  unfold outside. split.
  - intros (H1 & H2 & H3). split; [apply H3; by left|]. split; [done|]. split; [done|].
    intros w Hw. apply H3. by right.
  - intros (Hv & H1 & H2 & H3). split; [done|]. split; [done|].
    intros w [->|Hw]%elem_of_cons; [done|by apply H3].
Qed.

(** A page leaves the free list and is filled. *)
Lemma fill_page s T l U v c :
  proc_ok s T (v :: l) U -> length c = Z.to_nat PGSIZE ->
  exists s1 s2, kalloc s = Ok (v, s1) /\ pages s1 = pages s /\ store_bytes v c s1 = Ok (tt, s2) /\
    proc_ok s2 T l U /\ page_ok (pages s2) v /\ outside pgdir T l (page_of v) /\
    pages s2 !! page_of v = Some c /\
    (forall p, p <> page_of v -> pages s2 !! p = pages s !! p) /\
    (forall va, entry (pages s2) T va = entry (pages s) T va) /\
    (forall n w, U !! n = Some w -> page_of w <> page_of v) /\
    forall w, page_ok (pages s) w -> page_ok (pages s2) w.
Proof.
  intros [Hvm Hu] Hc. destruct (kalloc_run s v l (vo_free _ _ _ _ Hvm)) as (n & R & Hf1).
  pose proof (fl_pages _ _ (vo_free _ _ _ _ Hvm)) as Hps. apply Forall_cons in Hps as [Hv Hps].
  pose proof (fl_nodup _ _ (vo_free _ _ _ _ Hvm)) as Hnd. apply NoDup_cons in Hnd as [Hvl _].
  set (s1 := set_freelist n s) in *.
  pose proof (fill_run s1 v c (po_kpage _ _ Hv) (po_mem _ _ Hv) Hc) as R2.
  set (s2 := set_pages _ s1) in *.
  assert (forall p, p <> page_of v -> pages s2 !! p = pages s !! p) as Hfr.
  { intros p Hp. by apply lookup_insert_ne, not_eq_sym. }
  assert (forall w, kpage w -> w <> v -> page_of w <> page_of v) as Hkp.
  { intros w Hw Hne Heq. apply Hne. apply kpage_inj; [done|apply Hv|done]. }
  destruct (pgdir_frame (pages s) (pages s2) pgdir T (vo_dir _ _ _ _ Hvm)) as [Hok2 He2].
  { apply Hfr, Hkp; [apply Hvm|]. intros ->. apply (vo_dir_used _ _ _ _ Hvm). by left. }
  { intros d t Ht. destruct (pd_table _ _ _ (vo_dir _ _ _ _ Hvm) d t Ht) as (_ & Hkt & _).
    apply Hfr, Hkp; [done|]. intros ->. apply (vo_table_used _ _ _ _ Hvm d v Ht). by left. }
  assert (outside pgdir T l (page_of v)) as Hout.
  { split; [|split].
    - apply not_eq_sym, Hkp; [apply Hvm|]. intros ->. apply (vo_dir_used _ _ _ _ Hvm). by left.
    - intros d t Ht. destruct (pd_table _ _ _ (vo_dir _ _ _ _ Hvm) d t Ht) as (_ & Hkt & _).
      apply not_eq_sym, Hkp; [done|]. intros ->. apply (vo_table_used _ _ _ _ Hvm d v Ht). by left.
    - intros w Hw. rewrite Forall_forall in Hps. apply not_eq_sym, Hkp; [apply (Hps w Hw)|]. by intros ->. }
  assert (forall k w, U !! k = Some w -> page_of w <> page_of v) as Huv.
  { intros k w Hw. destruct (uo_page _ _ _ _ Hu k w Hw) as (_ & _ & Ho). by apply outside_cons in Ho as [? _]. }
  exists s1, s2. split; [done|]. split; [done|]. split; [done|]. split; [split|].
  - split; [done| | |].
    + eapply free_list_frame; [exact Hf1| |done|done]. intros w Hw.
      rewrite Forall_forall in Hps. apply Hfr, Hkp; [apply (Hps w Hw)|]. by intros ->.
    + intros Hin. apply (vo_dir_used _ _ _ _ Hvm). by right.
    + intros d t Ht Hin. apply (vo_table_used _ _ _ _ Hvm d t Ht). by right.
  - eapply user_frame; [exact Hu| | |].
    + intros k w Hw. by apply Hfr, (Huv k).
    + intros k _. apply He2.
    + intros k w Hw. destruct (uo_page _ _ _ _ Hu k w Hw) as (_ & _ & Ho). by apply outside_cons in Ho as [_ ?].
  - split; [by apply page_ok_insert|]. split; [done|].
    split; [apply lookup_insert_eq|]. split; [done|]. split; [done|]. split; [done|]. intros w Hw. by apply page_ok_insert.
Qed.

(** A page leaves the free list, zeroed. *)
Lemma take_page s T l U v :
  proc_ok s T (v :: l) U ->
  exists s1 s2, kalloc s = Ok (v, s1) /\ memset_page v 0 (Z.to_nat PGSIZE) s1 = Ok (tt, s2) /\
    proc_ok s2 T l U /\ page_ok (pages s2) v /\ outside pgdir T l (page_of v) /\
    pages s2 !! page_of v = Some (replicate (Z.to_nat PGSIZE) 0) /\
    (forall p, p <> page_of v -> pages s2 !! p = pages s !! p) /\
    (forall va, entry (pages s2) T va = entry (pages s) T va) /\
    (forall n w, U !! n = Some w -> page_of w <> page_of v) /\
    forall w, page_ok (pages s) w -> page_ok (pages s2) w.
Proof.
  intros Hok.
  destruct (fill_page s T l U v _ Hok (length_replicate (Z.to_nat PGSIZE) 0)) as (s1 & s2 & R1 & _ & Hrest).
  by exists s1, s2.
Qed.

(** [mappages] of one page. *)
Lemma map_page s T l n pa perm :
  vm_ok s pgdir T l -> 0 <= n < NUSER -> pa mod PGSIZE = 0 -> 0 <= pa -> pa + PGSIZE <= 2 ^ 32 ->
  0 <= perm < PGSIZE -> Z.land (entry (pages s) T (PGSIZE * n)) PTE_P = 0 ->
  (mappages pgdir (PGSIZE * n) PGSIZE pa perm s = Ok (-1, s) /\ l = []) \/
  exists s' T' l', mappages pgdir (PGSIZE * n) PGSIZE pa perm s = Ok (0, s') /\
    vm_step pgdir s T l s' T' l' /\ mapped s T (PGSIZE * n) pa perm 1 s' T' /\ (length l <= S (length l'))%nat.
Proof.
  intros Hvm Hn Hpa Hpa0 Hpa1 Hperm He. destruct (user_va n Hn) as (Hva & Hdiv & Hmod).
  assert (NUSER = 524288) as HN by reflexivity.
  assert (mappages pgdir (PGSIZE * n) PGSIZE pa perm =
    map_loop 1 pgdir (PGSIZE * n) (PGSIZE * n) pa perm) as ->.
  { unfold mappages. rewrite (w32_small (PGSIZE * n + PGSIZE - 1)) by plia.
    rewrite !PGROUNDDOWN_div, Hdiv by (unfold is_va in *; plia).
    replace ((PGSIZE * n + PGSIZE - 1) / PGSIZE) with n by (unfold PGSIZE; Z.div_mod_to_equations; lia).
    rewrite Z.sub_diag. reflexivity. }
  cbn [map_loop]. set (k := if _ =? _ then mret 0 else diverge).
  destruct (map_one s pgdir T l (PGSIZE * n) pa perm k) as [(R & -> & _)|(s' & T' & l' & R & Hs & Hm)];
    try done; [by left|].
  right. exists s', T', l'. split; [|done]. etransitivity; [exact R|]. unfold k. by rewrite Z.eqb_refl.
Qed.

(** The process gains the pages from the number [i] up to [j], zeroed, out of the free
    list; no page is lost. *)
Record gained (i j : Z) (s : machine) (T : gmap Z Z) (l : list Z) (U : gmap Z Z)
    (s' : machine) (T' : gmap Z Z) (l' : list Z) (U' : gmap Z Z) : Prop := Gained {
  ga_ok : proc_ok s' T' l' U';
  ga_mono : forall d t, T !! d = Some t -> T' !! d = Some t;
  ga_was : forall n, i <= n < j -> U !! n = None;
  ga_user : forall n, n < i \/ j <= n -> U' !! n = U !! n;
  ga_new : forall n, i <= n < j -> exists v, U' !! n = Some v /\ v ∈ l /\
    pages s' !! page_of v = Some (replicate (Z.to_nat PGSIZE) 0) /\
    Z.land (entry (pages s') T' (PGSIZE * n)) PTE_U <> 0;
  ga_old : forall n v, U !! n = Some v -> pages s' !! page_of v = pages s !! page_of v;
  ga_entry : forall n v, U !! n = Some v ->
    entry (pages s') T' (PGSIZE * n) = entry (pages s) T (PGSIZE * n);
  ga_out : forall p, outside pgdir T l p -> pages s' !! p = pages s !! p;
  ga_free : forall v, v ∈ l <-> (v ∈ l' \/ (exists d, T' !! d = Some v /\ T !! d = None) \/
    exists n, i <= n < j /\ U' !! n = Some v);
  ga_pages : forall v, page_ok (pages s) v -> page_ok (pages s') v
}.

(** One page more. *)
Lemma map_user s T l U n v perm s' T' l' :
  0 <= perm < PGSIZE -> proc_ok s T l U -> 0 <= n < NUSER -> U !! n = None -> page_ok (pages s) v ->
  outside pgdir T l (page_of v) -> (forall k, U !! k <> Some v) ->
  vm_step pgdir s T l s' T' l' -> mapped s T (PGSIZE * n) (V2P v) perm 1 s' T' ->
  proc_ok s' T' l' (<[n := v]> U).
Proof.
  intros Hperm [Hvm Hu] Hn HUn Hv Hout HUv Hs Hm. destruct (user_va n Hn) as (Hva & Hdiv & Hmod).
  destruct (V2P_aligned v (po_kpage _ _ Hv)) as [Hal Hrange].
  assert (forall k, 0 <= k < NUSER -> entry (pages s') T' (PGSIZE * k) =
    if k =? n then Z.lor (V2P v) (Z.lor perm PTE_P) else entry (pages s) T (PGSIZE * k)) as He.
  { intros k Hk. destruct (user_va k Hk) as (Hvk & Hdk & _). rewrite Hm, in_range_here, Hdiv, Hdk by done.
    destruct (Z.eqb_spec k n) as [->|]; [|done]. unfold new_entry.
    rewrite Z.sub_diag. change (0 / PGSIZE) with 0. rewrite Z.mul_0_r, Z.add_0_r, <- Z.lor_assoc. done. }
  assert (0 <= Z.lor perm PTE_P < PGSIZE) as Hpp by (apply lor_flags_bound; [done|by vm_compute]).
  assert (forall p, outside pgdir T l p -> pages s' !! p = pages s !! p) as Hfr by apply Hs.
  split; [apply Hs|]. split.
  - intros k w. destruct (decide (n = k)) as [<-|Hne].
    + rewrite lookup_insert_eq. intros [= <-]. split; [done|]. split; [|by eapply outside_step].
      eapply page_ok_frame; [|exact Hv]. intros d Hd. exists d. by rewrite Hfr.
    + rewrite lookup_insert_ne by done. intros Hk.
      destruct (uo_page _ _ _ _ Hu k w Hk) as (Hkr & Hw & Ho). split; [done|].
      split; [|by eapply outside_step].
      eapply page_ok_frame; [|exact Hw]. intros d Hd. exists d. by rewrite Hfr.
  - intros k w. destruct (decide (n = k)) as [<-|Hne].
    + rewrite lookup_insert_eq. intros [= <-]. rewrite He, Z.eqb_refl by done.
      split; [by apply entry_range|]. split; [|by apply entry_ADDR].
      change (Z.land ?x PTE_P) with (Z.land x (2 ^ 0)). rewrite entry_bit by done. change (2 ^ 0) with PTE_P.
      rewrite Z.land_lor_distr_l. change (Z.land PTE_P PTE_P) with 1. intros H0. by apply Z.lor_eq_0_iff in H0 as [_ ?].
    + rewrite lookup_insert_ne by done. intros Hk.
      destruct (uo_page _ _ _ _ Hu k w Hk) as (Hkr & _).
      rewrite He, (proj2 (Z.eqb_neq k n)) by done. by apply Hu.
  - intros k Hkr. destruct (decide (n = k)) as [<-|Hne]; [by rewrite lookup_insert_eq|].
    rewrite lookup_insert_ne by done. intros Hk.
    rewrite He, (proj2 (Z.eqb_neq k n)) by done. by apply Hu.
  - intros k k' w. destruct (decide (n = k)) as [<-|Hne], (decide (n = k')) as [<-|Hne'];
      rewrite ?lookup_insert_eq, ?lookup_insert_ne by done; try done.
    + intros [= <-] Hk'. by destruct (HUv k').
    + intros Hk [= <-]. by destruct (HUv k).
    + by apply Hu.
Qed.
Lemma gained_none i s T l U : proc_ok s T l U -> gained i i s T l U s T l U.
Proof.
  intros Hok. split; [done|done| |done| |done|done|done| |done].
  - intros n Hn. lia.
  - intros n Hn. lia.
  - intros v. split; [by left|]. intros [Hv|[(d & H1 & H2)|(n & Hn & _)]]; [done|congruence|lia].
Qed.

Lemma gained_one s T l U n v s2 s' T' l' :
  0 <= n < NUSER -> U !! n = None ->
  proc_ok s2 T l U -> page_ok (pages s2) v -> outside pgdir T l (page_of v) ->
  pages s2 !! page_of v = Some (replicate (Z.to_nat PGSIZE) 0) ->
  (forall p, p <> page_of v -> pages s2 !! p = pages s !! p) ->
  (forall va, entry (pages s2) T va = entry (pages s) T va) ->
  (forall k w, U !! k = Some w -> page_of w <> page_of v) ->
  (forall w, page_ok (pages s) w -> page_ok (pages s2) w) ->
  vm_step pgdir s2 T l s' T' l' ->
  mapped s2 T (PGSIZE * n) (V2P v) (Z.lor PTE_W PTE_U) 1 s' T' ->
  gained n (n + 1) s T (v :: l) U s' T' l' (<[n := v]> U).
Proof.
  intros Hn HUn Hok Hv Hout Hz Hfr He2 HUv Hpo Hs Hm. pose proof (vs_frame _ _ _ _ _ _ _ Hs) as Hfr2.
  destruct (user_va n Hn) as (Hva & Hdiv & Hmod). destruct (V2P_aligned v (po_kpage _ _ Hv)) as [Hal Hrg].
  split; [| apply Hs | | | | | | | |by intros w Hw; apply Hs, Hpo].
  - apply (map_user s2 T l U n v (Z.lor PTE_W PTE_U)); [by vm_compute|exact Hok|done|done|exact Hv|exact Hout| |exact Hs|exact Hm].
    intros k Hk. by apply (HUv k v).
  - intros k Hk. by assert (k = n) as -> by lia.
  - intros k Hk. apply lookup_insert_ne. lia.
  - intros k Hk. assert (k = n) as -> by lia. exists v. rewrite lookup_insert_eq.
    split; [done|]. split; [by left|]. split; [by rewrite Hfr2|].
    rewrite Hm, in_range_here, Hdiv, Z.eqb_refl by done. unfold new_entry.
    rewrite Z.sub_diag. change (0 / PGSIZE) with 0. rewrite Z.mul_0_r, Z.add_0_r, <- Z.lor_assoc.
    change PTE_U with (2 ^ 2) at 2. rewrite entry_bit; [by vm_compute|done|done|by vm_compute|done].
  - intros k w Hw. destruct (uo_page _ _ _ _ (po_user _ _ _ _ Hok) k w Hw) as (_ & _ & Ho).
    rewrite Hfr2 by done. by apply Hfr, (HUv k).
  - intros k w Hw. destruct (uo_page _ _ _ _ (po_user _ _ _ _ Hok) k w Hw) as (Hkr & _ & _).
    destruct (user_va k Hkr) as (Hvk & Hdk & _). rewrite Hm, in_range_here, Hdiv, Hdk, He2 by done.
    destruct (Z.eqb_spec k n) as [->|]; [congruence|done].
  - intros p [Hpv Hp]%outside_cons. rewrite Hfr2 by done. by apply Hfr.
  - destruct (vs_used _ _ _ _ _ _ _ Hs) as (used & -> & HT). intros w.
    rewrite elem_of_cons, elem_of_app, HT. split.
    + intros [->|[(d & H1 & H2)|Hw]]; [right; right|right; left; by exists d|by left].
      exists n. rewrite lookup_insert_eq. split; [lia|done].
    + intros [Hw|[(d & H1 & H2)|(k & Hk & Hw)]]; [by right; right|right; left; by exists d|].
      assert (k = n) as -> by lia. rewrite lookup_insert_eq in Hw. left. congruence.
Qed.

Lemma gained_trans i j k s1 T1 l1 U1 s2 T2 l2 U2 s3 T3 l3 U3 : i <= j <= k ->
  gained i j s1 T1 l1 U1 s2 T2 l2 U2 -> gained j k s2 T2 l2 U2 s3 T3 l3 U3 ->
  gained i k s1 T1 l1 U1 s3 T3 l3 U3.
Proof.
  intros Hijk G1 G2. pose proof (ga_mono _ _ _ _ _ _ _ _ _ _ G1) as M1.
  pose proof (ga_mono _ _ _ _ _ _ _ _ _ _ G2) as M2.
  destruct G1 as [O1 _ W1 U1' N1 F1 E1 X1 L1 P1], G2 as [O2 _ W2 U2' N2 F2 E2 X2 L2 P2].
  assert (forall n, i <= n < k -> U1 !! n = None) as W.
  { intros n Hn. destruct (Z.lt_ge_cases n j); [apply W1; lia|]. rewrite <- U1' by lia. apply W2. lia. }
  split; [done| |done| | | | | | |by auto].
  - intros d t Ht. by apply M2, M1.
  - intros n Hn. rewrite U2', U1' by lia. done.
  - intros n Hn. destruct (Z.lt_ge_cases n j) as [Hlt|Hge].
    + destruct (N1 n ltac:(lia)) as (v & Hv & Hin & Hz & HP). exists v. rewrite U2' by lia.
      split; [done|]. split; [done|]. rewrite (F2 n), (E2 n v) by done. done.
    + destruct (N2 n ltac:(lia)) as (v & Hv & Hin & Hz). exists v. split; [done|]. split; [|done].
      apply L1. by left.
  - intros n v Hn. destruct (decide (n < i \/ j <= n)) as [Ho|Hi].
    + rewrite (F2 n) by (by rewrite U1'). by apply (F1 n).
    + by rewrite W in Hn by lia.
  - intros n v Hn. destruct (decide (n < i \/ j <= n)) as [Ho|Hi].
    + rewrite (E2 n v) by (by rewrite U1'). by apply (E1 n v).
    + by rewrite W in Hn by lia.
  - intros p (Hp & HpT & Hpl). rewrite X2; [by apply X1|]. split; [done|]. split.
    + intros d t Ht. destruct (T1 !! d) as [t'|] eqn:Hd.
      * rewrite (M1 d t' Hd) in Ht. injection Ht as <-. by apply (HpT d).
      * apply Hpl, L1. right. left. by exists d.
    + intros v Hv. apply Hpl, L1. by left.
  - intros v. rewrite L1, L2. split.
    + intros [[Hv|[(d & H1 & H2)|(n & Hn & Hv)]]|[(d & H1 & H2)|(n & Hn & Hv)]].
      * by left.
      * right. left. exists d. split; [done|]. destruct (T1 !! d) as [t|] eqn:Hd; [|done].
        by rewrite (M1 d t Hd) in H2.
      * right. right. exists n. split; [lia|done].
      * right. left. exists d. split; [by apply M2|done].
      * right. right. exists n. rewrite U2' by lia. split; [lia|done].
    + intros [Hv|[(d & H1 & H2)|(n & Hn & Hv)]].
      * left. by left.
      * destruct (T2 !! d) as [t|] eqn:Hd.
        -- right. left. exists d. split; [|done]. rewrite (M2 d t Hd) in H1. congruence.
        -- left. right. left. by exists d.
      * destruct (Z.lt_ge_cases n j).
        -- right. right. exists n. rewrite U2' in Hv by lia. split; [lia|done].
        -- left. right. right. exists n. split; [lia|done].
Qed.

(** A process that loses what it had gained is as before. *)
Lemma gained_lost i j k s0 T0 l0 U0 s T l U s' l' U' : i <= j <= k ->
  gained i j s0 T0 l0 U0 s T l U -> lost i k s T l U s' l' U' ->
  (forall n, i <= n < k -> U0 !! n = None) -> gained i i s0 T0 l0 U0 s' T l' U'.
Proof.
  intros Hijk [O M W Us N F E X L P] [Ol Ul Ll Fl El Xl Pl] W0.
  assert (forall n, U' !! n = U0 !! n) as HU.
  { intros n. rewrite Ul. destruct (Z.leb_spec i n), (Z.ltb_spec n k); cbn; try (apply Us; lia).
    by rewrite W0. }
  assert (forall p, outside pgdir T0 l0 p -> outside pgdir T l p) as Hout.
  { intros p (Hp & HpT & Hpl). split; [done|]. split.
    - intros d t Ht. destruct (T0 !! d) as [t'|] eqn:Hd.
      + rewrite (M d t' Hd) in Ht. injection Ht as <-. by apply (HpT d).
      + apply Hpl, L. right. left. by exists d.
    - intros v Hv. apply Hpl, L. by left. }
  split; [done|done| |intros n _; by apply HU| | | | | |by auto].
  - intros n Hn. lia.
  - intros n Hn. lia.
  - intros n v Hn. rewrite (Fl n) by (by rewrite HU). by apply (F n).
  - intros n v Hn. rewrite (El n v) by (by rewrite HU). by apply (E n v).
  - intros p Hp. rewrite Xl; [by apply X|by apply Hout|]. intros n v Hr Hv.
    destruct (Z.lt_ge_cases n j) as [Hlt|].
    + destruct (N n ltac:(lia)) as (v' & Hv' & Hin & _). apply Hp. congruence.
    + by rewrite Us, W0 in Hv by lia.
  - intros v. rewrite L, Ll. split.
    + intros [Hv|[Hv|(n & Hn & Hv)]]; [by left; left|by right; left|left; right].
      exists n. split; [lia|done].
    + intros [[Hv|(n & Hn & Hv)]|[Hv|(n & Hn & _)]]; [by left| |by right; left|lia].
      right. right. exists n. split; [|done]. destruct (Z.lt_ge_cases n j); [lia|].
      rewrite Us, W0 in Hv by lia. done.
Qed.
(** The page [v] that was taken for the process goes back after the others. *)
Lemma lost_back i k s s2 T l U v s4 l4 U4 :
  proc_ok s2 T l U -> page_ok (pages s2) v -> outside pgdir T l (page_of v) ->
  (forall p, p <> page_of v -> pages s2 !! p = pages s !! p) ->
  (forall va, entry (pages s2) T va = entry (pages s) T va) ->
  (forall n w, U !! n = Some w -> page_of w <> page_of v) ->
  (forall w, page_ok (pages s) w -> page_ok (pages s2) w) ->
  lost i k s2 T l U s4 l4 U4 ->
  exists s5, kfree v s4 = Ok (tt, s5) /\ lost i k s T (v :: l) U s5 (v :: l4) U4.
Proof.
  intros Hok Hv Hout Hfr He2 HUv Hpo [Ol Ul Ll Fl El Xl Pl].
  assert (forall n w, U4 !! n = Some w -> U !! n = Some w) as Hsub.
  { intros n w Hw. rewrite Ul in Hw. by destruct (_ && _). }
  assert (outside pgdir T l4 (page_of v)) as Hout4.
  { destruct Hout as (H1 & H2 & H3). split; [done|]. split; [done|]. intros w [Hw|(n & _ & Hw)]%Ll.
    - by apply H3.
    - by apply not_eq_sym, (HUv n). }
  destruct (free_page_vm s4 T l4 v (po_vm _ _ _ _ Ol) (Pl v Hv) Hout4)
    as (s5 & R & Hvm5 & He5 & Hfr5 & Hps5).
  exists s5. split; [done|]. split; [split; [done|]|done| | | | |by auto].
  - eapply user_frame; [apply Ol| | |].
    + intros n w Hw. by apply Hfr5, (HUv n w), Hsub.
    + intros n _. apply He5.
    + intros n w Hw. apply outside_cons. split; [by apply (HUv n), Hsub|].
      by apply (uo_page _ _ _ _ (po_user _ _ _ _ Ol) n w Hw).
  - intros w. rewrite !elem_of_cons, Ll. tauto.
  - intros n w Hw. rewrite Hfr5, (Fl n w Hw) by (by apply (HUv n), Hsub).
    by apply Hfr, (HUv n), Hsub.
  - intros n w Hw. by rewrite He5, (El n w Hw), He2.
  - intros p [Hpv Hp]%outside_cons HpU. rewrite Hfr5, Xl by done. by apply Hfr.
Qed.
Section Grow.
Context (s0 : machine) (T0 : gmap Z Z) (l0 : list Z) (U0 : gmap Z Z) (oldsz newsz : Z).
Hypothesis Hsz : 0 <= oldsz <= newsz.
Hypothesis Hmax : newsz < KERNBASE.
Hypothesis Hfree : forall n, pages_up oldsz <= n < pages_up newsz -> U0 !! n = None.

(** The results of [allocuvm]. *)
Definition grown (r : Z) (s' : machine) (T' : gmap Z Z) (l' : list Z) (U' : gmap Z Z) : Prop :=
  (r = newsz /\ gained (pages_up oldsz) (pages_up newsz) s0 T0 l0 U0 s' T' l' U') \/
  (r = 0 /\ gained (pages_up oldsz) (pages_up oldsz) s0 T0 l0 U0 s' T' l' U').

(** Each new page takes at most one more for its table; only without these [allocuvm] fails. *)
Definition enough (r : Z) (l' : list Z) : Prop :=
  (r = newsz /\ Z.of_nat (length l0) <= Z.of_nat (length l') + 2 * (pages_up newsz - pages_up oldsz)) \/
  (r = 0 /\ Z.of_nat (length l0) < 2 * (pages_up newsz - pages_up oldsz)).

(** Without a page the loop frees what it had allocated. *)
Lemma alloc_fails n s T l U :
  pages_up oldsz <= n < pages_up newsz ->
  gained (pages_up oldsz) n s0 T0 l0 U0 s T l U ->
  exists s' l' U', deallocuvm pgdir newsz oldsz s = Ok (oldsz, s') /\
    lost (pages_up oldsz) (pages_up newsz) s T l U s' l' U'.
Proof using Hkend Hsz Hmax Hfree.
  intros Hn Hg. apply deallocuvm_run; [apply Hg| |lia].
  split; [lia|]. destruct (Z.eq_dec oldsz newsz) as [<-|]; lia.
Qed.

Lemma alloc_loop_run fuel s T l U n :
  gained (pages_up oldsz) n s0 T0 l0 U0 s T l U ->
  Z.of_nat (length l0) <= Z.of_nat (length l) + 2 * (n - pages_up oldsz) ->
  pages_up oldsz <= n <= pages_up newsz -> (Z.to_nat (pages_up newsz - n) < fuel)%nat ->
  exists r s' T' l' U', alloc_loop fuel pgdir oldsz newsz (PGSIZE * n) s = Ok (r, s') /\
    grown r s' T' l' U' /\ enough r l'.
Proof using Hkend Hsz Hmax Hfree.
  revert s T l U n. induction fuel as [|fuel IH]; intros s T l U n Hg Hlen Hn Hfuel; [lia|].
  cbn [alloc_loop]. pose proof (pages_up_nonneg oldsz ltac:(lia)) as Hp0.
  destruct (Z.ltb_spec (PGSIZE * n) newsz) as [Hlt|Hge].
  - assert (n < pages_up newsz) as Hnu by by apply pages_up_lt.
    assert (0 <= n < NUSER) as Hnn by (unfold NUSER, KERNBASE, PGSIZE in *;
      change (0x80000000 / 4096) with 524288; lia).
    assert (U !! n = None) as HUn.
    { rewrite (ga_user _ _ _ _ _ _ _ _ _ _ Hg) by lia. apply Hfree. lia. }
    destruct (alloc_fails n s T l U (conj (proj1 Hn) Hnu) Hg) as (sf & lf & Uf & Rf & Hlf).
    destruct l as [|v l].
    + rewrite (bind_ok _ _ _ _ _ (kalloc_empty_run s (vo_free _ _ _ _ (po_vm _ _ _ _ (ga_ok _ _ _ _ _ _ _ _ _ _ Hg))))).
      cbn [Z.eqb]. rewrite (bind_ok _ _ _ _ _ Rf). exists 0, sf, T, lf, Uf. split; [done|].
      split; [right|right; split; [done|cbn in Hlen; lia]]. split; [done|]. by eapply (gained_lost _ n (pages_up newsz)); [lia|exact Hg|exact Hlf|].
    + destruct (take_page s T l U v (ga_ok _ _ _ _ _ _ _ _ _ _ Hg))
        as (s1 & s2 & R1 & R2 & Hok2 & Hv & Hout & Hz & Hfr & He & HUv & Hps).
      rewrite (bind_ok _ _ _ _ _ R1).
      rewrite (proj2 (Z.eqb_neq v 0)) by (destruct (po_kpage _ _ Hv) as [_ Hr]; unfold KERNBASE in Hr; lia).
      rewrite (bind_ok _ _ _ _ _ R2).
      destruct (V2P_aligned v (po_kpage _ _ Hv)) as [Hal Hrg].
      destruct (map_page s2 T l n (V2P v) (Z.lor PTE_W PTE_U) (po_vm _ _ _ _ Hok2) Hnn Hal)
        as [(R3 & ->)|(s3 & T3 & l3 & R3 & Hs3 & Hm3 & Hlen3)]; [lia| | | | |].
      * destruct (page_multiple _ Hal) as [b Hb]. plia.
      * vm_compute. split; [discriminate|done].
      * by apply (uo_none _ _ _ _ (po_user _ _ _ _ Hok2)).
      * rewrite (bind_ok _ _ _ _ _ R3). change (-1 <? 0) with true. cbv iota.
        destruct (deallocuvm_run s2 T [] U newsz oldsz Hok2) as (s4 & l4 & U4 & R4 & Hl4); [|lia|].
        { split; [lia|]. destruct (Z.eq_dec oldsz newsz) as [<-|]; lia. }
        rewrite (bind_ok _ _ _ _ _ R4).
        destruct (lost_back _ _ s s2 T [] U v s4 l4 U4 Hok2 Hv Hout Hfr He HUv Hps Hl4) as (s5 & R5 & Hl5).
        rewrite (bind_ok _ _ _ _ _ R5). exists 0, s5, T, (v :: l4), U4. split; [done|].
        split; [right|right; split; [done|cbn in Hlen; lia]]. split; [done|]. by eapply (gained_lost _ n (pages_up newsz)); [lia|exact Hg|exact Hl5|].
      * rewrite (bind_ok _ _ _ _ _ R3). cbn [Z.ltb]. change (0 <? 0) with false. cbv iota.
        assert (w32 (PGSIZE * n + PGSIZE) = PGSIZE * (n + 1)) as ->.
        { unfold NUSER, KERNBASE, PGSIZE in *. change (0x80000000 / 4096) with 524288 in *.
          rewrite w32_small; lia. }
        apply (IH s3 T3 l3 (<[n := v]> U)); [|cbn [length] in Hlen; lia|lia|lia].
        eapply (gained_trans _ n); [lia|exact Hg|].
        eapply gained_one; [done|done|exact Hok2|exact Hv|exact Hout|exact Hz|exact Hfr|exact He|exact HUv|exact Hps|exact Hs3|exact Hm3].
  - exists newsz, s, T, l, U. split; [done|].
    assert (n = pages_up newsz) as ->; [|split; left; [done|split; [done|lia]]].
    destruct (Z.lt_ge_cases n (pages_up newsz)) as [Hlt|]; [apply pages_up_lt in Hlt; lia|lia].
Qed.

Lemma allocuvm_run :
  proc_ok s0 T0 l0 U0 ->
  exists r s' T' l' U', allocuvm pgdir oldsz newsz s0 = Ok (r, s') /\
    grown r s' T' l' U' /\ enough r l'.
Proof using Hkend Hsz Hmax Hfree.
  intros Hok. unfold allocuvm. rewrite (proj2 (Z.leb_gt _ _)), (proj2 (Z.ltb_ge _ _)) by lia.
  rewrite PGROUNDUP_pages, rounds_left by lia.
  apply (alloc_loop_run _ s0 T0 l0 U0 (pages_up oldsz)); [by apply gained_none|lia| |lia].
  pose proof (pages_up_mono oldsz newsz ltac:(lia)). lia.
Qed.
End Grow.
End User.
