(* ===== verification/VmSpace.v ===== *)
(** * Address spaces

    Whole address spaces: which pages one holds, and what [freevm], [setupkvm] and
    [copyuvm] do to the pages of the allocator. *)

From S2P Require Import Prelude Bytes CString Layout Kalloc KallocSpec Vm VmSpec VmUser.

(** The pages that an address space holds. *)
Definition holds (d : Z) (T U : gmap Z Z) (v : Z) : Prop :=
  v = d \/ (exists i, T !! i = Some v) \/ exists n, U !! n = Some v.

(** The pages of an address space, as a list. *)
Definition held_pages (d : Z) (T U : gmap Z Z) : list Z := d :: (map_to_list T).*2 ++ (map_to_list U).*2.

Lemma elem_of_held d T U v : v ∈ held_pages d T U <-> holds d T U v.
Proof.
  unfold held_pages, holds.
  assert (forall M : gmap Z Z, v ∈ (map_to_list M).*2 <-> exists k, M !! k = Some v) as HM.
  { intros M. rewrite list_elem_of_fmap. split.
    - intros ([k w] & -> & Hin%elem_of_map_to_list). by exists k.
    - intros (k & Hk). exists (k, v). split; [done|]. by apply elem_of_map_to_list. }
  by rewrite elem_of_cons, elem_of_app, !HM.
Qed.

(** A directory has at most 1024 tables. *)
Lemma tables_bound P d T : pgdir_ok P d T -> (size T <= 1024)%nat.
Proof.
  intros Hok. rewrite <- size_dom.
  assert (dom T ⊆ (list_to_set (seqZ 0 1024) : gset Z)) as Hsub.
  { intros i [t Ht]%elem_of_dom. apply (pd_table _ _ _ Hok) in Ht as [Hi _].
    apply elem_of_list_to_set, elem_of_seqZ. lia. }
  etransitivity; [by apply subseteq_size|]. rewrite size_list_to_set; [by rewrite length_seqZ|apply NoDup_seqZ].
Qed.

(** An address space stays when its pages do and none of them is freed. *)
Lemma space_frame `{Linker} d s T l U s' l' :
  proc_ok d s T l U -> free_list s' l' ->
  (forall v, holds d T U v -> pages s' !! page_of v = pages s !! page_of v) ->
  (forall v w, holds d T U v -> w ∈ l' -> page_of v <> page_of w) ->
  proc_ok d s' T l' U /\ forall va, entry (pages s') T va = entry (pages s) T va.
Proof.
  intros [Hvm Hu] Hf HP HO.
  destruct (pgdir_frame (pages s) (pages s') d T (vo_dir _ _ _ _ Hvm)) as [Hok He].
  { apply HP. by left. }
  { intros i t Ht. apply HP. right. left. by exists i. }
  split; [|done]. split; [split|].
  - done.
  - done.
  - intros Hin. apply (HO d d); [by left|done|done].
  - intros i t Ht Hin. apply (HO t t); [right; left; by exists i|done|done].
  - eapply user_frame; [exact Hu| |by intros n _; apply He|].
    + intros n v Hn. apply HP. right. right. by exists n.
    + intros n v Hn. destruct (uo_page _ _ _ _ _ Hu n v Hn) as (_ & _ & Ho1 & Ho2 & _).
      split; [done|]. split; [done|]. intros w Hw. apply (HO v w); [|done]. right. right. by exists n.
Qed.

Section Space.
Context `{Linker}.
Hypothesis Hkend : KERNBASE < kend.
Context (s0 : machine) (l0 : list Z).

(** The pages [l0], free in [s0], are free ([l]) or held by the address space; no other
    page has changed. *)
Record owns (d : Z) (s : machine) (T : gmap Z Z) (l : list Z) (U : gmap Z Z) : Prop := Owns {
  ow_pages : forall v, v ∈ l0 <-> v ∈ l \/ holds d T U v;
  ow_frame : forall p, (forall v, v ∈ l0 -> p <> page_of v) -> pages s !! p = pages s0 !! p;
  ow_ok : forall v, v ∈ l0 -> page_ok (pages s) v
}.

(** Apart from the pages of the user an address space takes at most this many. *)
Definition space_pages : Z := 1025.

Lemma owns_count d s T l U : NoDup l0 -> proc_ok d s T l U -> owns d s T l U ->
  Z.of_nat (length l0) <= Z.of_nat (length l) + space_pages + Z.of_nat (size U).
Proof.
  intros Hnd Hok Ho. pose proof (tables_bound _ _ _ (vo_dir _ _ _ _ (po_vm _ _ _ _ _ Hok))) as HT.
  assert (length l0 <= length (l ++ held_pages d T U))%nat as Hle.
  { apply submseteq_length, NoDup_submseteq; [done|]. intros v Hv. rewrite elem_of_app, elem_of_held.
    by apply (ow_pages _ _ _ _ _ Ho). }
  unfold held_pages in Hle. rewrite length_app in Hle. cbn [length] in Hle. rewrite length_app, !length_fmap, !length_map_to_list in Hle.
  unfold space_pages. lia.
Qed.

(** All of them are free again. *)
Record restored (s : machine) (l : list Z) : Prop := Restored {
  re_free : free_list s l;
  re_pages : forall v, v ∈ l <-> v ∈ l0;
  re_frame : forall p, (forall v, v ∈ l0 -> p <> page_of v) -> pages s !! p = pages s0 !! p
}.

Lemma owns_outside d s T l U p :
  owns d s T l U -> (forall v, v ∈ l0 -> p <> page_of v) -> outside d T l p.
Proof.
  intros [Hp _ _] Hl. split; [|split].
  - apply Hl, Hp. right. by left.
  - intros i t Ht. apply Hl, Hp. right. right. left. by exists i.
  - intros v Hv. apply Hl, Hp. by left.
Qed.

(** A step that takes tables out of the free list. *)
Lemma owns_step d s T l U s' T' l' :
  owns d s T l U -> vm_step d s T l s' T' l' -> owns d s' T' l' U.
Proof.
  intros Ho Hs. pose proof Ho as [Hp Hf Hk].
  pose proof (vs_mono _ _ _ _ _ _ _ Hs) as Hm. split.
  - intros v. rewrite Hp. destruct (vs_used _ _ _ _ _ _ _ Hs) as (used & -> & HT).
    unfold holds. rewrite elem_of_app, HT. split.
    + intros [[(i & H1 & _)|Hv]|[->|[(i & Hi)|Hu]]]; [right; right; left; by exists i|by left|
        right; by left|right; right; left; exists i; by apply Hm|right; by right; right].
    + intros [Hv|[->|[(i & Hi)|Hu]]]; [left; by right|right; by left| |right; by right; right].
      destruct (T !! i) as [t|] eqn:Ht; [|left; left; by exists i].
      right. right. left. exists i. rewrite (Hm i t Ht) in Hi. congruence.
  - intros p Hout. rewrite (vs_frame _ _ _ _ _ _ _ Hs); [by apply Hf|]. by eapply owns_outside.
  - intros v Hv. by apply Hs, Hk.
Qed.

(** User pages out of the free list. *)
Lemma owns_gained d i j s T l U s' T' l' U' :
  owns d s T l U -> gained d i j s T l U s' T' l' U' -> owns d s' T' l' U'.
Proof.
  intros Ho G. pose proof Ho as [Hp Hf Hk]. pose proof (ga_mono _ _ _ _ _ _ _ _ _ _ _ G) as Hm.
  assert (forall n v, U !! n = Some v -> U' !! n = Some v) as HmU.
  { intros n v Hv. rewrite (ga_user _ _ _ _ _ _ _ _ _ _ _ G); [done|].
    destruct (decide (n < i \/ j <= n)) as [|Hn]; [done|].
    by rewrite (ga_was _ _ _ _ _ _ _ _ _ _ _ G) in Hv by lia. }
  split.
  - intros v. rewrite Hp, (ga_free _ _ _ _ _ _ _ _ _ _ _ G). unfold holds. split.
    + intros [[Hv|[(e & He & _)|(n & _ & Hn)]]|[->|[(e & He)|(n & Hn)]]]; [by left|right..].
      * right. left. by exists e.
      * right. right. by exists n.
      * by left.
      * right. left. exists e. by apply Hm.
      * right. right. exists n. by apply HmU.
    + intros [Hv|[->|[(e & He)|(n & Hn)]]]; [by left; left|right; by left| |].
      * destruct (T !! e) as [t|] eqn:Ht; [|left; right; left; by exists e].
        right. right. left. exists e. rewrite (Hm e t Ht) in He. congruence.
      * destruct (decide (i <= n < j)) as [Hr|Hr]; [left; right; right; by exists n|].
        right. right. right. exists n. rewrite (ga_user _ _ _ _ _ _ _ _ _ _ _ G) in Hn by lia. done.
  - intros p Hout. rewrite (ga_out _ _ _ _ _ _ _ _ _ _ _ G); [by apply Hf|].
    by apply (owns_outside d s T l U).
  - intros v Hv. by apply G, Hk.
Qed.

(** ** freevm *)

(** The state of the loop over the directory when the tables below the index [i] are
    free. *)
Record tables_freed (d : Z) (s1 : machine) (T : gmap Z Z) (l1 : list Z) (i : Z)
    (s : machine) (l : list Z) : Prop := TablesFreed {
  tf_free : free_list s l;
  tf_pages : forall v, v ∈ l <-> v ∈ l1 \/ exists j, j < i /\ T !! j = Some v;
  tf_frame : forall p, (forall v, v ∈ l -> p <> page_of v) -> pages s !! p = pages s1 !! p;
  tf_ok : forall v, page_ok (pages s1) v -> page_ok (pages s) v
}.

(** A page outside of the free list is freed. *)
Lemma kfree_frame s l v : free_list s l -> page_ok (pages s) v -> (v ∉ l) ->
  exists s', kfree v s = Ok (tt, s') /\ free_list s' (v :: l) /\
    (forall p, p <> page_of v -> pages s' !! p = pages s !! p) /\
    forall w, page_ok (pages s) w -> page_ok (pages s') w.
Proof.
  intros Hf Hv Hn. destruct (kfree_run s v l Hf Hv Hn) as (c & Hc & R & Hf').
  eexists. split; [exact R|]. split; [exact Hf'|]. split.
  - intros p Hp. by apply lookup_insert_ne, not_eq_sym.
  - intros w Hw. apply page_ok_insert; [|done]. rewrite (put_le_length _ _ _ _ _ Hc).
    apply length_replicate.
Qed.

Definition free_entry (d : Z) (i : nat) : Mem unit :=
  x ← ld (w32 (d + 4 * Z.of_nat i));
  when (negb (Z.land x PTE_P =? 0)) (kfree (P2V (PTE_ADDR x))).

Lemma free_entry_run d s1 T l1 i s l :
  vm_ok s1 d T l1 -> (forall j t, T !! j = Some t -> page_ok (pages s1) t) ->
  (i < 1024)%nat -> tables_freed d s1 T l1 (Z.of_nat i) s l ->
  exists s' l', free_entry d i s = Ok (tt, s') /\ tables_freed d s1 T l1 (Z.of_nat (S i)) s' l'.
Proof.
  intros Hvm HT Hi Htf. pose proof Htf as [Hf Hl Hfr Hok]. pose proof (vo_dir _ _ _ _ Hvm) as Hd.
  assert (forall j t, T !! j = Some t -> t <> d) as Htd by (intros j t Ht; by apply (pd_table _ _ _ Hd j t Ht)).
  destruct (pd_word _ _ _ Hd (Z.of_nat i) ltac:(lia)) as (x & Hx & Hxr & Hm).
  destruct (slot_of d (Z.of_nat i) (pd_kpage _ _ _ Hd) ltac:(lia)) as (Hpo & Hoff & Hw).
  assert (word_at (pages s) (d + 4 * Z.of_nat i) = Some x) as Hx'.
  { unfold word_at in *. rewrite Hpo in *. rewrite Hfr; [done|]. intros v Hv Heq.
    pose proof (fl_pages _ _ Hf) as Hps. rewrite Forall_forall in Hps.
    assert (v = d) as -> by (apply kpage_inj; [apply (Hps v Hv)|apply Hd|done]).
    apply Hl in Hv as [Hv|(j & _ & Hv)]; [by apply (vo_dir_used _ _ _ _ Hvm)|by apply (Htd j d Hv)]. }
  unfold free_entry. rewrite Hw, (bind_ok _ _ _ _ _ (ld_word s _ x Hx')).
  destruct (T !! Z.of_nat i) as [t|] eqn:Ht.
  - destruct Hm as [Hp Ha]. rewrite (proj2 (Z.eqb_neq _ _) Hp), Ha. cbn [negb].
    assert (t ∉ l) as Hn.
    { intros [Hin|(j & Hj & Htj)]%Hl; [by apply (vo_table_used _ _ _ _ Hvm _ _ Ht)|].
      pose proof (pd_inj _ _ _ Hd _ _ _ Ht Htj). lia. }
    destruct (kfree_frame s l t Hf (Hok t (HT _ _ Ht)) Hn) as (s' & R & Hf' & Hfr' & Hok').
    exists s', (t :: l). split; [exact R|]. split; [exact Hf'| | |by auto].
    + intros v. rewrite elem_of_cons, Hl. split.
      * intros [->|[Hv|(j & Hj & Hv)]]; [right; exists (Z.of_nat i)|by left|right; exists j]; split; (done || lia).
      * intros [Hv|(j & Hj & Hv)]; [right; by left|]. destruct (decide (j = Z.of_nat i)) as [->|].
        -- left. congruence.
        -- right. right. exists j. split; [lia|done].
    + intros p Hp'. rewrite Hfr' by (apply Hp'; by left). apply Hfr. intros v Hv. apply Hp'. by right.
  - rewrite Hm. cbn [Z.eqb negb]. exists s, l. split; [done|]. split; [done| |done|done].
    intros v. rewrite Hl. split; (intros [Hv|(j & Hj & Hv)]; [by left|right; exists j]); (split; [|done]).
    + lia.
    + destruct (decide (j = Z.of_nat i)) as [->|]; [congruence|lia].
Qed.

Lemma free_entries_run d s1 T l1 m i s l :
  vm_ok s1 d T l1 -> (forall j t, T !! j = Some t -> page_ok (pages s1) t) ->
  (i + m = 1024)%nat -> tables_freed d s1 T l1 (Z.of_nat i) s l ->
  exists s' l', for_each (seq i m) (free_entry d) s = Ok (tt, s') /\
    tables_freed d s1 T l1 1024 s' l'.
Proof.
  intros Hvm HT. revert i s l. induction m as [|m IH]; intros i s l Hm Htf.
  - exists s, l. split; [done|]. by replace 1024 with (Z.of_nat i) by lia.
  - destruct (free_entry_run d s1 T l1 i s l Hvm HT ltac:(lia) Htf) as (s' & l' & R & Htf').
    cbn [seq for_each]. rewrite (bind_ok _ _ _ _ _ R). apply (IH (S i) s' l'); [lia|done].
Qed.

(** [freevm] frees every page that the address space holds. *)
Lemma freevm_run d s T l U :
  proc_ok d s T l U -> owns d s T l U ->
  exists s' l', freevm d s = Ok (tt, s') /\ restored s' l'.
Proof using Hkend.
  intros Hok [Hp Hfr Hpo].
  assert (d <> 0) as Hd0.
  { destruct (pd_kpage _ _ _ (vo_dir _ _ _ _ (po_vm _ _ _ _ _ Hok))) as [_ Hr]. unfold KERNBASE in Hr. lia. }
  unfold freevm. rewrite (proj2 (Z.eqb_neq _ _) Hd0).
  destruct (deallocuvm_run Hkend d s T l U KERNBASE 0 Hok) as (s1 & l1 & U1 & R1 & [Ok1 Hu1 Hf1 _ _ Hx1 Hps1]);
    [unfold KERNBASE; lia|lia|].
  rewrite (bind_ok _ _ _ _ _ R1). change (pages_up 0) with 0 in *. change (pages_up KERNBASE) with NUSER in *.
  pose proof (po_vm _ _ _ _ _ Ok1) as Hvm1.
  assert (forall v, v ∈ l0 <-> v ∈ l1 \/ v = d \/ exists i, T !! i = Some v) as Hl1.
  { intros v. rewrite Hp, Hf1. unfold holds. split.
    - intros [Hv|[Hv|[Hv|(n & Hn)]]]; [by left; left|by right; left|by right; right|].
      left. right. exists n. split; [|done]. by apply (uo_page _ _ _ _ _ (po_user _ _ _ _ _ Hok) n v).
    - intros [[Hv|(n & _ & Hn)]|[Hv|Hv]]; [by left|right; right; right; by exists n|by right; left|by right; right; left]. }
  assert (forall j t, T !! j = Some t -> page_ok (pages s1) t) as HT.
  { intros j t Ht. apply Hps1, Hpo, Hl1. right. right. by exists j. }
  destruct (free_entries_run d s1 T l1 1024 0 s1 l1 Hvm1 HT eq_refl) as (s2 & l2 & R2 & [Hf2 Hl2 Hfr2 Hok2]).
  { split; [apply Hvm1| |done|done]. intros v. split; [by left|]. intros [Hv|(j & Hj & Hv)]; [done|].
    apply (pd_table _ _ _ (vo_dir _ _ _ _ Hvm1)) in Hv as [? _]. lia. }
  change (fun i : nat => x ← ld (w32 (d + 4 * Z.of_nat i)); _) with (free_entry d).
  change (Z.to_nat NPDENTRIES) with 1024%nat. rewrite (bind_ok _ _ _ _ _ R2).
  assert (page_ok (pages s2) d) as Hd2 by (apply Hok2, Hps1, Hpo, Hl1; right; by left).
  destruct (kfree_frame s2 l2 d Hf2 Hd2) as (s3 & R3 & Hf3 & Hfr3 & _).
  { intros [Hin|(j & _ & Hj)]%Hl2; [by apply (vo_dir_used _ _ _ _ Hvm1)|].
    by apply (pd_table _ _ _ (vo_dir _ _ _ _ Hvm1)) in Hj as (_ & _ & _ & ?). }
  assert (forall v, v ∈ d :: l2 <-> v ∈ l0) as Hl3.
  { intros v. rewrite elem_of_cons, Hl2, Hl1. split.
    - intros [->|[Hv|(j & _ & Hj)]]; [right; by left|by left|right; right; by exists j].
    - intros [Hv|[->|(j & Hj)]]; [right; by left|by left|]. right. right. exists j. split; [|done].
      apply (pd_table _ _ _ (vo_dir _ _ _ _ Hvm1)) in Hj as [? _]. lia. }
  exists s3, (d :: l2). split; [exact R3|]. split; [done|done|].
  intros p Hout. rewrite Hfr3 by (apply Hout, Hl3; by left).
  rewrite Hfr2 by (intros v Hv; apply Hout, Hl3; by right).
  rewrite Hx1; [by apply Hfr| |].
  - by apply (owns_outside d s T l U).
  - intros n v _ Hv. apply Hout, Hp. right. right. right. by exists n.
Qed.

(** ** setupkvm *)

(** A directory of its own, without tables. *)
Lemma new_dir d l :
  free_list s0 (d :: l) -> (forall v, v ∈ l0 <-> v ∈ d :: l) ->
  exists s1 s2, kalloc s0 = Ok (d, s1) /\ memset_page d 0 (Z.to_nat PGSIZE) s1 = Ok (tt, s2) /\
    proc_ok d s2 ∅ l ∅ /\ owns d s2 ∅ l ∅.
Proof.
  intros Hf Hl0. destruct (kalloc_run s0 d l Hf) as (n & R & Hf1).
  pose proof (fl_pages _ _ Hf) as Hps. pose proof Hps as [Hd _]%Forall_cons.
  pose proof (fl_nodup _ _ Hf) as [Hdl _]%NoDup_cons.
  set (s1 := set_freelist n s0) in *.
  pose proof (memset_page_run s1 d (po_kpage _ _ Hd) (po_mem _ _ Hd)) as R2.
  set (s2 := set_pages _ s1) in *.
  assert (forall p, p <> page_of d -> pages s2 !! p = pages s0 !! p) as Hfr.
  { intros p Hp. by apply lookup_insert_ne, not_eq_sym. }
  exists s1, s2. split; [done|]. split; [done|]. split; [split; [split|]|].
  - split; [apply Hd| | |done|done].
    + eexists. split; [apply lookup_insert_eq|apply length_replicate].
    + intros i Hi. exists 0. split; [|split; [lia|by rewrite lookup_empty]].
      apply zero_word; [apply Hd|done|apply lookup_insert_eq].
  - eapply free_list_frame; [exact Hf1| |done|done]. intros w Hw. apply Hfr. intros Heq.
    rewrite Forall_forall in Hps. apply Hdl.
    rewrite <- (kpage_inj w d); [done| |apply Hd|done]. apply (Hps w). by right.
  - done.
  - done.
  - split; done.
  - split.
    + intros v. rewrite Hl0, elem_of_cons. unfold holds. split.
      * intros [->|Hv]; [right; by left|by left].
      * intros [Hv|[->|[(i & Hi)|(i & Hi)]]]; [by right|by left|done|done].
    + intros p Hp. apply Hfr, Hp, Hl0. by left.
    + intros v Hv%Hl0. rewrite Forall_forall in Hps. apply page_ok_insert; [apply length_replicate|].
      by apply Hps.
Qed.

(** The kernel part: mapping above [KERNBASE] leaves the user part. *)
Lemma kernel_proc d s T l U s' T' l' :
  proc_ok d s T l U -> vm_step d s T l s' T' l' ->
  (forall n, 0 <= n < NUSER -> entry (pages s') T' (PGSIZE * n) = entry (pages s) T (PGSIZE * n)) ->
  proc_ok d s' T' l' U.
Proof.
  intros [Hvm Hu] Hs He. split; [apply Hs|]. eapply user_frame; [exact Hu| |exact He|].
  - intros n v Hv. apply (vs_frame _ _ _ _ _ _ _ Hs). by apply (uo_page _ _ _ _ _ Hu n v).
  - intros n v Hv. eapply outside_step; [exact Hs|]. by apply (uo_page _ _ _ _ _ Hu n v).
Qed.

Definition kpages (k : kmap_entry) : Z := w32 (phys_end k - phys_start k) / PGSIZE.
Definition covers (k : kmap_entry) (va : Z) : bool := in_range (virt k) (kpages k) va.

(** The entry of an address after the regions [ks] are mapped, [e] before. *)
Fixpoint kernel_entry (ks : list kmap_entry) (e va : Z) : Z :=
  match ks with
  | [] => e
  | k :: ks' =>
      if covers k va then new_entry (virt k) (phys_start k) (kperm k) va
      else kernel_entry ks' e va
  end.

Record region_ok (k : kmap_entry) : Prop := RegionOk {
  rg_virt : virt k mod PGSIZE = 0;
  rg_kern : KERNBASE <= virt k;
  rg_size : w32 (phys_end k - phys_start k) = PGSIZE * kpages k;
  rg_pos : 0 < kpages k;
  rg_end : virt k + PGSIZE * kpages k <= 2 ^ 32;
  rg_phys : phys_start k mod PGSIZE = 0;
  rg_phys0 : 0 <= phys_start k;
  rg_phys1 : phys_start k + PGSIZE * kpages k <= 2 ^ 32;
  rg_perm : 0 <= kperm k < PGSIZE
}.

Definition apart (k k' : kmap_entry) : Prop :=
  virt k + PGSIZE * kpages k <= virt k' \/ virt k' + PGSIZE * kpages k' <= virt k.

Lemma apart_covers k k' va : apart k k' -> covers k va = true -> covers k' va = false.
Proof. unfold apart, covers, in_range. lia. Qed.

Lemma kernel_entry_apart k ks e va :
  Forall (apart k) ks -> covers k va = true -> kernel_entry ks e va = e.
Proof.
  intros Hk Hc. induction Hk as [|k' ks Hkk _ IH]; [done|]. cbn [kernel_entry].
  by rewrite (apart_covers k k' va).
Qed.

(** One region. *)
Lemma map_region d s T l U k :
  proc_ok d s T l U -> owns d s T l U -> region_ok k ->
  (forall va, covers k va = true -> Z.land (entry (pages s) T va) PTE_P = 0) ->
  exists r s' T' l',
    mappages d (virt k) (w32 (phys_end k - phys_start k)) (phys_start k) (kperm k) s = Ok (r, s') /\
    proc_ok d s' T' l' U /\ owns d s' T' l' U /\
    (r = -1 /\ l' = [] \/ r = 0 /\ forall va, is_va va -> entry (pages s') T' va =
       if covers k va then new_entry (virt k) (phys_start k) (kperm k) va else entry (pages s) T va).
Proof.
  intros Hok Ho [Hv Hk Hs Hpos He Hp Hp0 Hp1 Hperm] Hfree. destruct (page_multiple _ Hv) as [b Hb].
  assert (virt k / PGSIZE = b) as Hdiv by (rewrite Hb; unfold PGSIZE; rewrite Z.mul_comm; by apply Z.div_mul).
  assert ((virt k + PGSIZE * kpages k - 1) / PGSIZE - virt k / PGSIZE + 1 = kpages k) as Hn.
  { rewrite Hdiv, Hb. unfold PGSIZE. Z.div_mod_to_equations. lia. }
  assert (PGSIZE * (virt k / PGSIZE) = virt k) as Ha by (rewrite Hdiv, Hb; done).
  pose proof (mappages_run s d T l (virt k) (w32 (phys_end k - phys_start k)) (phys_start k) (kperm k)
    (po_vm _ _ _ _ _ Hok)) as Hrun. rewrite Hs in *. cbn zeta in Hrun. rewrite Hn, Ha in Hrun.
  destruct Hrun as (r & m & s' & T' & l' & R & Hst & Hent & Hr); try done; try plia.
  { unfold KERNBASE in Hk. lia. }
  exists r, s', T', l'. split; [exact R|]. split; [|split; [by eapply owns_step|]].
  - eapply kernel_proc; [exact Hok|exact Hst|]. intros n Hnu. destruct (user_va n Hnu) as (Hva & _).
    rewrite Hent by done. destruct (in_range (virt k) m (PGSIZE * n)) eqn:Hin; [|done].
    apply in_range_true in Hin. unfold NUSER, KERNBASE, PGSIZE in *.
    change (0x80000000 / 4096) with 524288 in Hnu. lia.
  - destruct Hr as [[-> ->]|(-> & _ & ->)]; [right|by left]. split; [done|exact Hent].
Qed.

Definition map_entry (d : Z) (k : kmap_entry) : Mem (option unit) :=
  m ← mappages d (virt k) (w32 (phys_end k - phys_start k)) (phys_start k) (kperm k);
  if m <? 0 then freevm d ;; mret (Some tt) else mret None.

Lemma map_entries_run d ks : NoDup l0 -> Forall region_ok ks -> ForallOrdPairs apart ks ->
  forall s T l U, proc_ok d s T l U -> owns d s T l U ->
  (forall k va, k ∈ ks -> covers k va = true -> is_va va -> Z.land (entry (pages s) T va) PTE_P = 0) ->
  (exists s' l', find_each ks (map_entry d) s = Ok (Some tt, s') /\ restored s' l' /\
     Z.of_nat (length l0) <= space_pages + Z.of_nat (size U)) \/
  exists s' T' l', find_each ks (map_entry d) s = Ok (None, s') /\ proc_ok d s' T' l' U /\
    owns d s' T' l' U /\
    forall va, is_va va -> entry (pages s') T' va = kernel_entry ks (entry (pages s) T va) va.
Proof using Hkend.
  intros Hnd. induction ks as [|k ks IH]; intros Hks Hord s T l U Hok Ho Hfree.
  { right. by exists s, T, l. }
  apply Forall_cons in Hks as [Hk Hks]. inversion_clear Hord as [|? ? Hkk Hord'].
  assert (forall va, covers k va = true -> is_va va) as Hcva.
  { intros va Hc%in_range_true. unfold is_va. destruct Hk. unfold KERNBASE in *. lia. }
  destruct (map_region d s T l U k Hok Ho Hk) as (r & s1 & T1 & l1 & R & Hok1 & Ho1 & Hr).
  { intros va Hc. apply (Hfree k); [by left|done|by apply Hcva]. }
  destruct Hr as [[-> ->]|[-> He1]].
  - left. destruct (freevm_run d s1 T1 [] U Hok1 Ho1) as (s2 & l2 & R2 & Hre). exists s2, l2.
    split; [|split; [done|exact (owns_count d s1 T1 [] U Hnd Hok1 Ho1)]]. apply (find_each_here (map_entry d)). unfold map_entry.
    rewrite (bind_ok _ _ _ _ _ R). change (-1 <? 0) with true. cbv iota.
    by rewrite (bind_ok _ _ _ _ _ R2).
  - assert (map_entry d k s = Ok (None, s1)) as Rk by (unfold map_entry; by rewrite (bind_ok _ _ _ _ _ R)).
    cbn [find_each]. rewrite (bind_ok _ _ _ _ _ Rk).
    destruct (IH Hks Hord' s1 T1 l1 U Hok1 Ho1) as [Hl|(s2 & T2 & l2 & R2 & Hok2 & Ho2 & He2)].
    + intros k' va Hk' Hc Hva. rewrite He1 by done. destruct (covers k va) eqn:Hck.
      * rewrite Forall_forall in Hkk. by rewrite (apart_covers k k' va) in Hc by (done || by apply Hkk).
      * apply (Hfree k'); [by right|done|done].
    + by left.
    + right. exists s2, T2, l2. split; [done|]. split; [done|]. split; [done|].
      intros va Hva. rewrite He2, He1 by done. cbn [kernel_entry].
      destruct (covers k va) eqn:Hck; [by apply kernel_entry_apart with k|done].
Qed.

Hypothesis Hfree0 : free_list s0 l0.
(** [kernel.ld] aligns the data of the kernel. *)
Hypothesis Hdata : KERNLINK < kdata < KERNBASE + PHYSTOP.
Hypothesis Hdata_page : kdata mod PGSIZE = 0.

Lemma region_intro k b c n :
  w32 (phys_end k - phys_start k) = PGSIZE * n -> 0 < n -> virt k = PGSIZE * b -> KERNBASE <= virt k ->
  virt k + PGSIZE * n <= 2 ^ 32 -> phys_start k = PGSIZE * c -> 0 <= c ->
  phys_start k + PGSIZE * n <= 2 ^ 32 -> 0 <= kperm k < PGSIZE -> region_ok k /\ kpages k = n.
Proof.
  intros Hs Hn Hv Hk He Hc Hc0 Hp Hperm. assert (kpages k = n) as Hkn.
  { unfold kpages. rewrite Hs. unfold PGSIZE. rewrite Z.mul_comm. by apply Z.div_mul. }
  split; [|done]. split; rewrite ?Hkn; try done.
  - rewrite Hv, Z.mul_comm. by apply Z.mod_mul.
  - rewrite Hc, Z.mul_comm. by apply Z.mod_mul.
  - plia.
Qed.

(** The regions of [kmap] are pages of their own. *)
Lemma kmap_ok : Forall region_ok kmap /\ ForallOrdPairs apart kmap.
Proof using Hdata Hdata_page.
  destruct (page_multiple _ Hdata_page) as [b Hb].
  unfold KERNLINK, EXTMEM, KERNBASE, PHYSTOP in Hdata.
  assert (V2P kdata = 4096 * (b - 524288)) as Hd.
  { unfold V2P, KERNBASE. rewrite w32_small by lia. lia. }
  destruct (region_intro (KmapEntry KERNBASE 0 EXTMEM PTE_W) 524288 0 256) as [H1 N1]; try done.
  destruct (region_intro (KmapEntry KERNLINK (V2P KERNLINK) (V2P kdata) 0) 524544 256 (b - 524544)) as [H2 N2];
    cbn [virt phys_start phys_end kperm]; try done; rewrite ?Hd; change (V2P KERNLINK) with 0x100000;
    change KERNLINK with 0x80100000; try (rewrite w32_small by lia); try plia.
  destruct (region_intro (KmapEntry kdata (V2P kdata) PHYSTOP PTE_W) b (b - 524288) (581632 - b)) as [H3 N3];
    cbn [virt phys_start phys_end kperm]; try done; rewrite ?Hd; change PHYSTOP with 0xE000000;
    try (rewrite w32_small by lia); try plia.
  { unfold KERNBASE. lia. }
  destruct (region_intro (KmapEntry DEVSPACE DEVSPACE 0 PTE_W) 1040384 1040384 8192) as [H4 N4]; try done.
  unfold kmap. split; [rewrite !Forall_cons; split_and!; done|].
  repeat (apply FOP_cons; [rewrite ?Forall_cons; try split_and!|]); try apply FOP_nil; try apply Forall_nil;
    unfold apart; rewrite ?N1, ?N2, ?N3, ?N4; cbn [virt];
    unfold KERNLINK, EXTMEM, KERNBASE, PHYSTOP, DEVSPACE, PGSIZE in *; lia.
Qed.

Lemma list_nil_or_cons {A} (l : list A) : l = [] \/ exists x l', l = x :: l'.
Proof. destruct l as [|x l]; [by left|]. right. by exists x, l. Qed.

(** [setupkvm]: a new address space with the kernel part, or none and no page lost. *)
Lemma setupkvm_run :
  (exists s' l', setupkvm s0 = Ok (0, s') /\ restored s' l' /\ Z.of_nat (length l0) <= space_pages) \/
  exists d s' T' l', setupkvm s0 = Ok (d, s') /\ d <> 0 /\ proc_ok d s' T' l' ∅ /\ owns d s' T' l' ∅ /\
    forall va, is_va va -> entry (pages s') T' va = kernel_entry kmap 0 va.
Proof using All.
  destruct kmap_ok as [Hreg Hord]. unfold setupkvm.
  destruct (list_nil_or_cons l0) as [El|(d & l & El)].
  { left. exists s0, []. rewrite El in Hfree0. rewrite (bind_ok _ _ _ _ _ (kalloc_empty_run s0 Hfree0)).
    split; [done|]. split; [split; [done|by rewrite El|done]|by rewrite El]. }
  pose proof Hfree0 as Hf. rewrite El in Hf.
  destruct (new_dir d l Hf) as (s1 & s2 & R1 & R2 & Hok & Ho); [by rewrite El|].
  assert (d <> 0) as Hd0.
  { destruct (pd_kpage _ _ _ (vo_dir _ _ _ _ (po_vm _ _ _ _ _ Hok))) as [_ Hr]. unfold KERNBASE in Hr. lia. }
  rewrite (bind_ok _ _ _ _ _ R1), (proj2 (Z.eqb_neq _ _) Hd0), (bind_ok _ _ _ _ _ R2).
  change (DEVSPACE <? P2V PHYSTOP) with false. cbv iota.
  change (fun k : kmap_entry => m ← mappages d (virt k) _ _ _; _) with (map_entry d).
  assert (forall va, entry (pages s2) ∅ va = 0) as He by (intros va; unfold entry; by rewrite lookup_empty).
  destruct (map_entries_run d kmap (fl_nodup _ _ Hfree0) Hreg Hord s2 ∅ l ∅ Hok Ho) as
    [(s3 & l3 & R3 & Hre & Hln)|(s3 & T3 & l3 & R3 & Hok3 & Ho3 & He3)]; [by intros k va _ _ _; rewrite He| |].
  - left. exists s3, l3. rewrite (bind_ok _ _ _ _ _ R3). split; [done|]. split; [done|]. rewrite map_size_empty in Hln. lia.
  - right. exists d, s3, T3, l3. rewrite (bind_ok _ _ _ _ _ R3). split; [done|]. split; [done|].
    split; [done|]. split; [done|]. intros va Hva. by rewrite He3, He.
Qed.

(** ** copyuvm *)

Section Copy.
Context (p : Z) (Tp Up : gmap Z Z).
Hypothesis Hparent : proc_ok p s0 Tp l0 Up.

(** The parent's pages are none of [l0]. *)
Lemma parent_pages v : holds p Tp Up v -> forall w, w ∈ l0 -> page_of v <> page_of w.
Proof using Hparent.
  destruct Hparent as [Hvm Hu]. pose proof (fl_pages _ _ (vo_free _ _ _ _ Hvm)) as Hps.
  rewrite Forall_forall in Hps. pose proof (vo_dir _ _ _ _ Hvm) as Hd.
  intros [->|[(i & Hi)|(n & Hn)]] w Hw.
  - intros Heq. apply (vo_dir_used _ _ _ _ Hvm). by rewrite (kpage_inj p w (pd_kpage _ _ _ Hd) (po_kpage _ _ (Hps w Hw)) Heq).
  - intros Heq. apply (vo_table_used _ _ _ _ Hvm i v Hi).
    destruct (pd_table _ _ _ Hd i v Hi) as (_ & Hkv & _). by rewrite (kpage_inj v w Hkv (po_kpage _ _ (Hps w Hw)) Heq).
  - destruct (uo_page _ _ _ _ _ Hu n v Hn) as (_ & _ & _ & _ & Ho). by apply Ho.
Qed.

(** What the child does leaves the parent. *)
Lemma parent_kept s l :
  (forall q, (forall v, v ∈ l0 -> q <> page_of v) -> pages s !! q = pages s0 !! q) ->
  free_list s l -> (forall v, v ∈ l -> v ∈ l0) ->
  proc_ok p s Tp l Up /\ (forall va, entry (pages s) Tp va = entry (pages s0) Tp va) /\
  forall n v, Up !! n = Some v -> pages s !! page_of v = pages s0 !! page_of v.
Proof using Hparent.
  intros Hfr Hf Hl. destruct (space_frame p s0 Tp l0 Up s l Hparent Hf) as [Hok He].
  - intros v Hv. by apply Hfr, parent_pages.
  - intros v w Hv Hw. by apply parent_pages; [|apply Hl].
  - split; [done|]. split; [done|]. intros n v Hn. apply Hfr, parent_pages. right. right. by exists n.
Qed.

(** The page [n] of the child is a copy of the parent's page, with its flags. *)
Definition copy_of (s : machine) (T U : gmap Z Z) (n : Z) : Prop :=
  exists v w, U !! n = Some v /\ Up !! n = Some w /\
    pages s !! page_of v = pages s0 !! page_of w /\
    entry (pages s) T (PGSIZE * n) = Z.lor (V2P v) (PTE_FLAGS (entry (pages s0) Tp (PGSIZE * n))).

(** The child after the pages below [n]. *)
Record copying (d n : Z) (s : machine) (T : gmap Z Z) (l : list Z) (U : gmap Z Z) : Prop := Copying {
  cp_ok : proc_ok d s T l U;
  cp_owns : owns d s T l U;
  cp_kern : forall va, is_va va -> KERNBASE <= va -> entry (pages s) T va = kernel_entry kmap 0 va;
  cp_done : forall k, 0 <= k < n -> copy_of s T U k;
  cp_rest : forall k, n <= k -> U !! k = None
}.

Lemma flags_present e : Z.land e PTE_P <> 0 -> Z.lor (PTE_FLAGS e) PTE_P = PTE_FLAGS e.
Proof.
  intros He. unfold PTE_FLAGS, PTE_P in *. change 1 with (Z.ones 1) in *. rewrite Z.land_ones in He by lia.
  change 0xFFF with (Z.ones 12). apply Z.bits_inj'. intros i Hi. rewrite Z.lor_spec, Z.land_spec.
  destruct (decide (i = 0)) as [->|Hne].
  - rewrite (Z.ones_spec_low 12), andb_true_r, Z.bit0_odd by lia.
    rewrite Zmod_odd in He. by destruct (Z.odd e).
  - by rewrite (Z.ones_spec_high 1), orb_false_r by lia.
Qed.

Lemma slice_all n (l : list Z) : length l = n -> slice 0 n l = l.
Proof. intros <-. unfold slice. rewrite drop_0. apply take_ge. lia. Qed.

(** What the child holds while a page for it is neither free nor its own. *)
Lemma owns_taken d s s2 T v l U :
  owns d s T (v :: l) U -> (forall q, q <> page_of v -> pages s2 !! q = pages s !! q) ->
  (forall w, page_ok (pages s) w -> page_ok (pages s2) w) -> owns d s2 T (v :: l) U.
Proof.
  intros [Hp Hf Hk] Hfr Hok. split; [done| |auto].
  intros q Hq. rewrite Hfr; [by apply Hf|]. apply Hq, Hp. left. by left.
Qed.

(** Without a table for it the page goes back and the child is freed. *)
Lemma copy_undo d s T v U :
  proc_ok d s T [] U -> owns d s T [v] U -> page_ok (pages s) v -> outside d T [] (page_of v) ->
  (forall n w, U !! n = Some w -> page_of w <> page_of v) ->
  exists s' l', (kfree v ;; freevm d ;; mret 0) s = Ok (0, s') /\ restored s' l'.
Proof using Hkend.
  intros Hok Ho Hv Hout HUv.
  destruct (free_page_vm d s T [] v (po_vm _ _ _ _ _ Hok) Hv Hout) as (s1 & R1 & Hvm1 & He1 & Hfr1 & Hps1).
  assert (proc_ok d s1 T [v] U) as Hok1.
  { split; [done|]. eapply user_frame; [apply Hok| | |].
    - intros n w Hw. by apply Hfr1, (HUv n w).
    - intros n _. apply He1.
    - intros n w Hw. apply outside_cons. split; [by apply (HUv n)|].
      by apply (uo_page _ _ _ _ _ (po_user _ _ _ _ _ Hok) n w Hw). }
  destruct (freevm_run d s1 T [v] U Hok1) as (s2 & l2 & R2 & Hre).
  { by apply (owns_taken d s). }
  exists s2, l2. split; [|done]. by rewrite (bind_ok _ _ _ _ _ R1), (bind_ok _ _ _ _ _ R2).
Qed.

(** The new page in the child. *)
Lemma copying_next d n s s2 T l U v w s3 T3 l3 :
  copying d n s T (v :: l) U -> 0 <= n < NUSER -> Up !! n = Some w ->
  let e := entry (pages s0) Tp (PGSIZE * n) in
  proc_ok d s2 T l U -> page_ok (pages s2) v -> outside d T l (page_of v) ->
  pages s2 !! page_of v = pages s0 !! page_of w ->
  (forall q, q <> page_of v -> pages s2 !! q = pages s !! q) ->
  (forall va, entry (pages s2) T va = entry (pages s) T va) ->
  (forall k w', U !! k = Some w' -> page_of w' <> page_of v) ->
  (forall w', page_ok (pages s) w' -> page_ok (pages s2) w') ->
  vm_step d s2 T l s3 T3 l3 -> mapped s2 T (PGSIZE * n) (V2P v) (PTE_FLAGS e) 1 s3 T3 ->
  copying d (n + 1) s3 T3 l3 (<[n := v]> U).
Proof using Hparent.
  intros [Hok Ho Hker Hdone Hrest] Hn Hw e Hok2 Hv Hout Hc Hfr He2 HUv Hps2 Hs Hm.
  destruct (user_va n Hn) as (Hva & Hdiv & Hmod).
  destruct (uo_entry _ _ _ _ _ (po_user _ _ _ _ _ Hparent) n w Hw) as (He & Hpr & _). fold e in He, Hpr.
  assert (0 <= PTE_FLAGS e < PGSIZE) as Hfl.
  { unfold PTE_FLAGS. change 0xFFF with (Z.ones 12). rewrite Z.land_ones by lia. by apply Z.mod_pos_bound. }
  pose proof (vs_frame _ _ _ _ _ _ _ Hs) as Hfr3.
  split.
  - eapply map_user; [exact Hfl|exact Hok2|done| |exact Hv|exact Hout| |exact Hs|exact Hm].
    + apply Hrest. lia.
    + intros k Hk. by apply (HUv k v).
  - pose proof (owns_taken d s s2 T v l U Ho Hfr Hps2) as [Hp2 Hf2 Hk2].
    pose proof (vs_mono _ _ _ _ _ _ _ Hs) as Hmono. split.
    + intros x. rewrite Hp2, elem_of_cons. destruct (vs_used _ _ _ _ _ _ _ Hs) as (used & -> & HT).
      rewrite elem_of_app, HT. unfold holds. split.
      * intros [[->|[(i & H1 & _)|Hx]]|[->|[(i & Hi)|(k & Hk)]]].
        -- right. right. right. exists n. apply lookup_insert_eq.
        -- right. right. left. by exists i.
        -- by left.
        -- right. by left.
        -- right. right. left. exists i. by apply Hmono.
        -- right. right. right. exists k. rewrite lookup_insert_ne; [done|]. intros <-.
           by rewrite Hrest in Hk by lia.
      * intros [Hx|[->|[(i & Hi)|(k & Hk)]]]; [left; by right; right|right; by left| |].
        -- destruct (T !! i) as [t|] eqn:Ht; [|left; right; left; by exists i].
           right. right. left. exists i. rewrite (Hmono i t Ht) in Hi. congruence.
        -- destruct (decide (n = k)) as [<-|Hne]; [rewrite lookup_insert_eq in Hk|rewrite lookup_insert_ne in Hk by done].
           ++ left. left. congruence.
           ++ right. right. right. by exists k.
    + intros q Hq. rewrite Hfr3; [by apply Hf2|]. split; [|split].
      * apply Hq, Hp2. right. by left.
      * intros i t Ht. apply Hq, Hp2. right. right. left. by exists i.
      * intros x Hx. apply Hq, Hp2. left. by right.
    + intros x Hx. by apply Hs, Hk2.
  - intros va Hva' Hk. rewrite Hm, in_range_here, Hdiv, He2 by done.
    destruct (Z.eqb_spec (va / PGSIZE) n) as [Heq|]; [|by apply Hker].
    unfold NUSER, KERNBASE, PGSIZE in *. change (0x80000000 / 4096) with 524288 in Hn.
    exfalso. Z.div_mod_to_equations. lia.
  - intros k Hk. destruct (decide (k = n)) as [->|Hne].
    + exists v, w. rewrite lookup_insert_eq. split; [done|]. split; [done|]. split.
      * by rewrite Hfr3.
      * rewrite Hm, in_range_here, Hdiv, Z.eqb_refl by done. unfold new_entry.
        rewrite Z.sub_diag. change (0 / PGSIZE) with 0. rewrite Z.mul_0_r, Z.add_0_r, <- Z.lor_assoc.
        by rewrite flags_present.
    + destruct (Hdone k ltac:(lia)) as (v' & w' & H1 & H2 & H3 & H4). exists v', w'.
      rewrite lookup_insert_ne by done. split; [done|]. split; [done|]. split.
      * destruct (uo_page _ _ _ _ _ (po_user _ _ _ _ _ Hok2) k v' H1) as (_ & _ & Ho').
        rewrite Hfr3, Hfr by (done || by apply (HUv k)). done.
      * destruct (user_va k ltac:(lia)) as (Hvk & Hdk & _).
        rewrite Hm, in_range_here, Hdiv, Hdk, (proj2 (Z.eqb_neq k n)), He2 by done. done.
  - intros k Hk. rewrite lookup_insert_ne by lia. apply Hrest. lia.
Qed.

(** The loop from the page [n] on. *)
Lemma copy_loop_run fuel d n s T l U sz :
  copying d n s T l U -> 0 <= n <= pages_up sz -> sz <= KERNBASE ->
  (forall k, 0 <= k < pages_up sz -> is_Some (Up !! k)) -> (Z.to_nat (pages_up sz - n) < fuel)%nat ->
  (exists s' l', copy_loop fuel d p sz (PGSIZE * n) s = Ok (0, s') /\ restored s' l') \/
  exists s' T' l' U', copy_loop fuel d p sz (PGSIZE * n) s = Ok (d, s') /\
    copying d (pages_up sz) s' T' l' U'.
Proof using Hkend Hparent.
  intros Hc Hn Hsz Hall. revert n s T l U Hc Hn.
  induction fuel as [|fuel IH]; intros n s T l U Hc Hn Hfuel; [lia|].
  pose proof Hc as [Hok Ho _ _ Hrest]. cbn [copy_loop].
  destruct (Z.ltb_spec (PGSIZE * n) sz) as [Hlt|Hge]; last first.
  { right. exists s, T, l, U. split; [done|]. assert (n = pages_up sz) as <-; [|done].
    destruct (Z.lt_ge_cases n (pages_up sz)) as [Hlt|]; [apply pages_up_lt in Hlt; lia|lia]. }
  assert (n < pages_up sz) as Hnu by by apply pages_up_lt.
  assert (0 <= n < NUSER) as Hnn by (unfold NUSER, KERNBASE, PGSIZE in *;
    change (0x80000000 / 4096) with 524288; lia).
  destruct (Hall n ltac:(lia)) as [w Hw].
  destruct (parent_kept s l (ow_frame _ _ _ _ _ Ho) (vo_free _ _ _ _ (po_vm _ _ _ _ _ Hok)))
    as (Hpar & Hpe & Hpp); [intros v Hv; apply (ow_pages _ _ _ _ _ Ho); by left|].
  destruct (uo_entry _ _ _ _ _ (po_user _ _ _ _ _ Hparent) n w Hw) as (He & Hpr & Hadr).
  destruct (uo_page _ _ _ _ _ (po_user _ _ _ _ _ Hparent) n w Hw) as (_ & Hwok & _).
  set (e := entry (pages s0) Tp (PGSIZE * n)) in *.
  destruct (Tp !! PDX (PGSIZE * n)) as [t|] eqn:Ht; [|destruct Hpr; unfold e, entry; by rewrite Ht].
  pose proof (vo_dir _ _ _ _ (po_vm _ _ _ _ _ Hpar)) as Hpd.
  rewrite (bind_ok _ _ _ _ _ (walk_some s p Tp _ t false Hpd Ht)).
  destruct (walk_slot_ne _ _ _ _ _ (PTX (PGSIZE * n)) Hpd Ht (PTX_range _)) as [Hne _].
  rewrite (proj2 (Z.eqb_neq _ _) Hne), (bind_ok _ _ _ _ _ (entry_ld s p Tp _ t Hpd Ht)), Hpe.
  fold e. rewrite (proj2 (Z.eqb_neq _ _) Hpr), Hadr, P2V_V2P by apply Hwok.
  destruct l as [|v l].
  { left. rewrite (bind_ok _ _ _ _ _ (kalloc_empty_run s (vo_free _ _ _ _ (po_vm _ _ _ _ _ Hok)))).
    destruct (freevm_run d s T [] U Hok Ho) as (s' & l' & R & Hre). exists s', l'. split; [|done].
    cbn [Z.eqb]. by rewrite (bind_ok _ _ _ _ _ R). }
  destruct (po_mem _ _ Hwok) as (c & Hcw & Hcl).
  destruct (fill_page d s T l U v c Hok Hcl)
    as (s1 & s2 & R1 & Hs1 & R2 & Hok2 & Hv & Hout & Hvc & Hfr & He2 & HUv & Hps).
  destruct (po_kpage _ _ Hv) as [Hval Hvr].
  rewrite (bind_ok _ _ _ _ _ R1), (proj2 (Z.eqb_neq v 0)) by (unfold KERNBASE in Hvr; lia).
  assert (load_bytes w (Z.to_nat PGSIZE) s1 = Ok (c, s1)) as R3.
  { rewrite (load_bytes_run s1 w _ c); [|by rewrite Hs1, (Hpp n)|rewrite kpage_offset by apply Hwok; lia].
    rewrite kpage_offset by apply Hwok. by rewrite slice_all. }
  rewrite (bind_ok _ _ _ _ _ R3), (bind_ok _ _ _ _ _ R2).
  destruct (V2P_aligned v (po_kpage _ _ Hv)) as [Hal Hrg].
  destruct (map_page d s2 T l n (V2P v) (PTE_FLAGS e) (po_vm _ _ _ _ _ Hok2) Hnn Hal)
    as [(R4 & ->)|(s3 & T3 & l3 & R4 & Hs3 & Hm3 & _)]; [lia| | | | |].
  - destruct (page_multiple _ Hal) as [b Hb]. plia.
  - unfold PTE_FLAGS. change 0xFFF with (Z.ones 12). rewrite Z.land_ones by lia. by apply Z.mod_pos_bound.
  - apply (uo_none _ _ _ _ _ (po_user _ _ _ _ _ Hok2)); [done|]. apply Hrest. lia.
  - left. rewrite (bind_ok _ _ _ _ _ R4). change (-1 <? 0) with true. cbv iota.
    apply (copy_undo d s2 T v U); [done|by apply (owns_taken d s)|done|done|done].
  - rewrite (bind_ok _ _ _ _ _ R4). change (0 <? 0) with false. cbv iota.
    assert (w32 (PGSIZE * n + PGSIZE) = PGSIZE * (n + 1)) as ->.
    { unfold NUSER, KERNBASE, PGSIZE in *. change (0x80000000 / 4096) with 524288 in *. rewrite w32_small; lia. }
    apply (IH (n + 1) s3 T3 l3 (<[n := v]> U)); [|lia|lia].
    eapply (copying_next d n s s2 T l U v w); try done. by rewrite Hvc.
Qed.

(** The results of [copyuvm]: no page is lost, or there is a copy. *)
Definition copy_result (sz r : Z) (s : machine) : Prop :=
  (r = 0 /\ exists l, restored s l /\ proc_ok p s Tp l Up) \/
  (r <> 0 /\ exists T l U, copying r (pages_up sz) s T l U /\ proc_ok p s Tp l Up).

Lemma copyuvm_run sz :
  0 <= sz <= KERNBASE -> (forall k, 0 <= k < pages_up sz -> is_Some (Up !! k)) ->
  exists r s, copyuvm p sz s0 = Ok (r, s) /\ copy_result sz r s /\
    (forall va, entry (pages s) Tp va = entry (pages s0) Tp va) /\
    forall n v, Up !! n = Some v -> pages s !! page_of v = pages s0 !! page_of v.
Proof using All.
  intros Hsz Hall.
  assert (forall s l, restored s l -> exists r s', Ok (0, s) = Ok (r, s') /\ copy_result sz r s' /\
    (forall va, entry (pages s') Tp va = entry (pages s0) Tp va) /\
    forall n v, Up !! n = Some v -> pages s' !! page_of v = pages s0 !! page_of v) as Hzero.
  { intros s l Hre. pose proof Hre as [Hf Hl Hfr].
    destruct (parent_kept s l Hfr Hf) as (Hp & He & Hc); [by intros v; apply Hl|].
    exists 0, s. split; [done|]. split; [|done]. left. split; [done|]. by exists l. }
  unfold copyuvm. pose proof (pages_up_nonneg sz ltac:(lia)) as Hup.
  destruct setupkvm_run as [(s' & l' & R & Hre & _)|(d & s1 & T1 & l1 & R & Hd & Hok1 & Ho1 & He1)].
  - rewrite (bind_ok _ _ _ _ _ R). by apply (Hzero s' l').
  - rewrite (bind_ok _ _ _ _ _ R), (proj2 (Z.eqb_neq _ _) Hd).
    destruct (copy_loop_run (S (Z.to_nat ((sz + PGSIZE - 1) / PGSIZE))) d 0 s1 T1 l1 ∅ sz)
      as [(s' & l' & R2 & Hre)|(s2 & T2 & l2 & U2 & R2 & Hc2)]; rewrite ?Z.mul_0_r in *; try lia; [|done|unfold pages_up in *; lia| |].
    + split; [done|done| |lia|done]. intros va Hva _. by apply He1.
    + rewrite R2. by apply (Hzero s' l').
    + rewrite R2. pose proof Hc2 as [Hok2 Ho2 _ _ _].
      destruct (parent_kept s2 l2 (ow_frame _ _ _ _ _ Ho2) (vo_free _ _ _ _ (po_vm _ _ _ _ _ Hok2)))
        as (Hpar & Hpe & Hpp); [intros v Hv; apply (ow_pages _ _ _ _ _ Ho2); by left|].
      exists d, s2. split; [done|]. split; [|done]. right. split; [done|]. by exists T2, l2, U2.
Qed.
End Copy.
End Space.

(** ** Copying into user memory *)

Section Copyout.
Context `{Linker} (pgdir : Z).

(** The byte of a process at a virtual address. *)
Definition user_byte (s : machine) (U : gmap Z Z) (va : Z) : option Z :=
  v ← U !! (va / PGSIZE); d ← pages s !! page_of v; d !! Z.to_nat (va mod PGSIZE).

(** The page [n] is there, for user code too. *)
Definition accessible (s : machine) (T : gmap Z Z) (U : gmap Z Z) (n : Z) : Prop :=
  is_Some (U !! n) /\ Z.land (entry (pages s) T (PGSIZE * n)) PTE_U <> 0.

Lemma byte_slot v o : kpage v -> 0 <= o < PGSIZE ->
  page_of (v + o) = page_of v /\ offset_of (v + o) = Z.to_nat o /\ w32 (v + o) = v + o.
Proof.
  intros Hv Ho. destruct (page_multiple v (kp_align _ Hv)) as [b Hb].
  pose proof (kp_range _ Hv) as Hr. unfold KERNBASE, PHYSTOP, PGSIZE in *.
  rewrite (kpage_of v Hv). unfold page_of, offset_of, V2P, PGSIZE, KERNBASE.
  rewrite !w32_small by lia. split_and!; [| |done]; subst v.
  - Z.div_mod_to_equations. lia.
  - f_equal. Z.div_mod_to_equations. lia.
Qed.

(** A change of the contents of user pages alone. *)
Record user_change (T U : gmap Z Z) (s s' : machine) : Prop := UserChange {
  uc_frame : forall p, (forall n v, U !! n = Some v -> p <> page_of v) -> pages s' !! p = pages s !! p;
  uc_entry : forall va, entry (pages s') T va = entry (pages s) T va;
  uc_ok : forall v, page_ok (pages s) v -> page_ok (pages s') v
}.

#[export] Instance user_change_preorder T U : PreOrder (user_change T U).
Proof.
  split; [by intros s; split|]. intros s1 s2 s3 [F1 E1 O1] [F2 E2 O2]. split; [| |by auto].
  - intros p Hp. rewrite F2 by done. by apply F1.
  - intros va. by rewrite E2.
Qed.

(** A user page with new content. *)
Lemma write_user s T l U n v d :
  proc_ok pgdir s T l U -> U !! n = Some v -> length d = Z.to_nat PGSIZE ->
  let s' := set_pages (<[page_of v := d]> (pages s)) s in
  proc_ok pgdir s' T l U /\ user_change T U s s' /\
  forall va, user_byte s' U va =
    if va / PGSIZE =? n then d !! Z.to_nat (va mod PGSIZE) else user_byte s U va.
Proof.
  intros [Hvm Hu] Hn Hd s'. destruct (uo_page _ _ _ _ _ Hu n v Hn) as (Hr & Hv & Hout).
  destruct Hout as (H1 & H2 & H3).
  assert (forall p, p <> page_of v -> pages s' !! p = pages s !! p) as Hfr.
  { intros p Hp. by apply lookup_insert_ne, not_eq_sym. }
  destruct (pgdir_frame (pages s) (pages s') pgdir T (vo_dir _ _ _ _ Hvm)) as [Hok He].
  { apply Hfr. by apply not_eq_sym. }
  { intros e t Ht. apply Hfr, not_eq_sym. by apply (H2 e). }
  assert (forall k w, U !! k = Some w -> k <> n -> page_of w <> page_of v) as Hdiff.
  { intros k w Hk Hne Heq. apply Hne. destruct (uo_page _ _ _ _ _ Hu k w Hk) as (_ & Hw & _).
    apply (uo_inj _ _ _ _ _ Hu k n v); [|done].
    by rewrite <- (kpage_inj w v (po_kpage _ _ Hw) (po_kpage _ _ Hv) Heq). }
  split; [split|split; [split; [|done|intros w Hw; by apply page_ok_insert]|]].
  3: { intros p Hp. apply Hfr. by apply (Hp n). }
  - split; [done| |apply Hvm|apply Hvm].
    eapply free_list_frame; [apply Hvm| |done|done]. intros w Hw. by apply Hfr, not_eq_sym, H3.
  - split; [| | |apply Hu].
    + intros k w Hk. destruct (uo_page _ _ _ _ _ Hu k w Hk) as (Hkr & Hw & Ho). split; [done|].
      split; [|done]. by apply page_ok_insert.
    + intros k w Hk. rewrite He. by apply Hu.
    + intros k Hk. rewrite He. by apply Hu.
  - intros va. unfold user_byte. destruct (Z.eqb_spec (va / PGSIZE) n) as [->|Hne].
    + rewrite Hn. cbn. by rewrite lookup_insert_eq.
    + destruct (U !! (va / PGSIZE)) as [w|] eqn:Hw; [|done]. cbn. rewrite Hfr; [done|].
      by apply (Hdiff (va / PGSIZE)).
Qed.

Lemma uva2ka_run s T l U n v :
  proc_ok pgdir s T l U -> U !! n = Some v ->
  Z.land (entry (pages s) T (PGSIZE * n)) PTE_U <> 0 -> uva2ka pgdir (PGSIZE * n) s = Ok (v, s).
Proof.
  intros [Hvm Hu] Hn HU. destruct (uo_entry _ _ _ _ _ Hu n v Hn) as (_ & Hp & Ha).
  destruct (uo_page _ _ _ _ _ Hu n v Hn) as (_ & Hv & _).
  unfold uva2ka. destruct (T !! PDX (PGSIZE * n)) as [t|] eqn:Ht.
  - rewrite (bind_ok _ _ _ _ _ (walk_some s pgdir T _ t false (vo_dir _ _ _ _ Hvm) Ht)).
    rewrite (bind_ok _ _ _ _ _ (entry_ld s pgdir T _ t (vo_dir _ _ _ _ Hvm) Ht)).
    rewrite (proj2 (Z.eqb_neq _ _) Hp), (proj2 (Z.eqb_neq _ _) HU), Ha.
    by rewrite P2V_V2P by apply Hv.
  - exfalso. apply Hp. unfold entry. by rewrite Ht.
Qed.

(** A page that is not for user code. *)
Lemma uva2ka_denied s T l U n v :
  proc_ok pgdir s T l U -> U !! n = Some v ->
  Z.land (entry (pages s) T (PGSIZE * n)) PTE_U = 0 -> uva2ka pgdir (PGSIZE * n) s = Ok (0, s).
Proof.
  intros [Hvm Hu] Hn HU. destruct (uo_entry _ _ _ _ _ Hu n v Hn) as (_ & Hp & _).
  unfold uva2ka. destruct (T !! PDX (PGSIZE * n)) as [t|] eqn:Ht.
  - rewrite (bind_ok _ _ _ _ _ (walk_some s pgdir T _ t false (vo_dir _ _ _ _ Hvm) Ht)).
    rewrite (bind_ok _ _ _ _ _ (entry_ld s pgdir T _ t (vo_dir _ _ _ _ Hvm) Ht)).
    by rewrite (proj2 (Z.eqb_neq _ _) Hp), HU.
  - exfalso. apply Hp. unfold entry. by rewrite Ht.
Qed.

(** The bytes of a page after a splice into it. *)
Lemma splice_page (d chunk : list Z) o n va a :
  length d = Z.to_nat PGSIZE -> o = va mod PGSIZE -> n = va / PGSIZE ->
  o + Z.of_nat (length chunk) <= PGSIZE -> a / PGSIZE = n ->
  splice (Z.to_nat o) chunk d !! Z.to_nat (a mod PGSIZE) =
    if (va <=? a) && (a <? va + Z.of_nat (length chunk)) then chunk !! Z.to_nat (a - va)
    else d !! Z.to_nat (a mod PGSIZE).
Proof.
  intros Hd Ho Hn Hle Ha.
  assert (0 <= o /\ a mod PGSIZE = o + (a - va) /\ 0 <= a mod PGSIZE) as (H0 & Hm & Hm0).
  { subst o n. unfold PGSIZE in *. Z.div_mod_to_equations. lia. }
  destruct (Z.leb_spec va a), (Z.ltb_spec a (va + Z.of_nat (length chunk))); cbn [andb].
  - replace (Z.to_nat (a mod PGSIZE)) with (Z.to_nat o + Z.to_nat (a - va))%nat by lia.
    apply splice_lookup_in; lia.
  - apply splice_lookup_out; lia.
  - apply splice_lookup_out; lia.
  - apply splice_lookup_out; lia.
Qed.

(** The copy of [buf] to [va]. *)
Definition copied (s : machine) (U : gmap Z Z) (va : Z) (buf : list Z) (s' : machine) : Prop :=
  forall a, user_byte s' U a =
    if (va <=? a) && (a <? va + Z.of_nat (length buf)) then buf !! Z.to_nat (a - va)
    else user_byte s U a.

(** Where there are pages, [copyout] ends with 0 or -1, with the latter only where one is
    not for user code. *)
Lemma copyout_loop_total fuel s T l U va buf :
  proc_ok pgdir s T l U -> 0 <= va -> va + Z.of_nat (length buf) <= KERNBASE ->
  (forall a, va <= a < va + Z.of_nat (length buf) -> is_Some (U !! (a / PGSIZE))) ->
  (Z.to_nat ((va mod PGSIZE + Z.of_nat (length buf) + PGSIZE - 1) / PGSIZE) < fuel)%nat ->
  exists r s', copyout_loop fuel pgdir va buf s = Ok (r, s') /\ proc_ok pgdir s' T l U /\
    user_change T U s s' /\
    (r = 0 /\ copied s U va buf s' \/
     r = -1 /\ exists a, va <= a < va + Z.of_nat (length buf) /\ ~ accessible s T U (a / PGSIZE)).
Proof.
  revert s va buf. induction fuel as [|fuel IH]; intros s va buf Hok Hva Hle Hacc Hfuel; [lia|].
  cbn [copyout_loop]. destruct (Z.ltb_spec 0 (Z.of_nat (length buf))) as [Hlen|Hlen].
  2: { exists 0, s. split; [done|]. split; [done|]. split; [done|]. left. split; [done|]. intros a.
       destruct (Z.leb_spec va a), (Z.ltb_spec a (va + Z.of_nat (length buf))); done || lia. }
  unfold KERNBASE in Hle. rewrite PGROUNDDOWN_div by lia. set (n := va / PGSIZE).
  destruct (Hacc va ltac:(lia)) as [v Hv]. fold n in Hv.
  destruct (decide (Z.land (entry (pages s) T (PGSIZE * n)) PTE_U = 0)) as [HU|HU].
  { exists (-1), s. rewrite (bind_ok _ _ _ _ _ (uva2ka_denied s T l U n v Hok Hv HU)). split; [done|].
    split; [done|]. split; [done|]. right. split; [done|]. exists va. split; [lia|]. by intros [_ ?]. }
  rewrite (bind_ok _ _ _ _ _ (uva2ka_run s T l U n v Hok Hv HU)).
  destruct (uo_page _ _ _ _ _ (po_user _ _ _ _ _ Hok) n v Hv) as (Hnr & Hpv & _).
  rewrite (proj2 (Z.eqb_neq v 0)) by (destruct (po_kpage _ _ Hpv) as [_ Hr]; unfold KERNBASE in Hr; lia).
  set (o := va - PGSIZE * n).
  assert (o = va mod PGSIZE /\ 0 <= o < PGSIZE) as [Ho Hor].
  { unfold o, n, PGSIZE. Z.div_mod_to_equations. lia. }
  set (len := Z.of_nat (length buf)) in *.
  assert ((if len <? PGSIZE - o then len else PGSIZE - o) = Z.min len (PGSIZE - o)) as ->.
  { destruct (Z.ltb_spec len (PGSIZE - o)); lia. }
  set (m := Z.min len (PGSIZE - o)).
  destruct (byte_slot v o (po_kpage _ _ Hpv) Hor) as (Hp1 & Hp2 & ->).
  destruct (po_mem _ _ Hpv) as (d & Hd & Hld).
  set (chunk := take (Z.to_nat m) buf).
  assert (length chunk = Z.to_nat m) as Hlc by (unfold chunk; rewrite length_take; lia).
  assert (length (splice (Z.to_nat o) chunk d) = Z.to_nat PGSIZE) as Hls.
  { rewrite splice_length; lia. }
  destruct (write_user s T l U n v _ Hok Hv Hls) as (Hok1 & Hc1 & Hb1).
  set (s1 := set_pages _ s) in *.
  assert (store_bytes (v + o) chunk s = Ok (tt, s1)) as R1.
  { rewrite (store_bytes_run s (v + o) chunk d) by (rewrite ?Hp1, ?Hp2; done || lia).
    by rewrite Hp1, Hp2. }
  rewrite (bind_ok _ _ _ _ _ R1). rewrite w32_small by (unfold n, PGSIZE in *; Z.div_mod_to_equations; lia).
  assert (m = len \/ m = PGSIZE - o /\ PGSIZE * n + PGSIZE = va + m) as Hm by lia.
  assert (Z.of_nat (length (drop (Z.to_nat m) buf)) = len - m) as Hdl by (rewrite length_drop; lia).
  destruct (IH s1 (PGSIZE * n + PGSIZE) (drop (Z.to_nat m) buf) Hok1) as (r & s' & R2 & Hok' & Hc2 & Hr); rewrite ?Hdl.
  { unfold n, PGSIZE in *. Z.div_mod_to_equations. lia. }
  { unfold KERNBASE, n, PGSIZE in *. Z.div_mod_to_equations. lia. }
  { intros a Ha. apply Hacc. lia. }
  { assert ((PGSIZE * n + PGSIZE) mod PGSIZE = 0) as ->.
    { replace (PGSIZE * n + PGSIZE) with ((n + 1) * PGSIZE) by lia. apply Z.mod_mul. done. }
    rewrite <- Ho in Hfuel. unfold PGSIZE in *. Z.div_mod_to_equations. lia. }
  exists r, s'. split; [exact R2|]. split; [done|]. split; [by etransitivity|].
  destruct Hr as [[-> Hc]|(-> & a & Ha & Hna)]; [left|right]; (split; [done|]); last first.
  { rewrite Hdl in Ha. exists a. split; [lia|]. intros [Hs Hu]. apply Hna. split; [done|].
    by rewrite (uc_entry _ _ _ _ Hc1). }
  intros a. fold len. rewrite (Hc a), Hdl, (Hb1 a).
  assert (va = PGSIZE * n + o) as Hvo by lia.
  destruct (Z.eqb_spec (a / PGSIZE) n) as [Han|Han].
  - rewrite (splice_page d chunk o n va a) by (done || lia). rewrite Hlc, Z2Nat.id by lia.
    assert (a < PGSIZE * n + PGSIZE) as Hlt by (unfold PGSIZE in *; Z.div_mod_to_equations; lia).
    rewrite (proj2 (Z.leb_gt _ _) Hlt). cbn [andb]. unfold chunk.
    destruct (Z.leb_spec va a), (Z.ltb_spec a (va + m)), (Z.ltb_spec a (va + len)); cbn [andb]; try lia.
    + apply lookup_take_lt. lia.
    + unfold user_byte. rewrite Han, Hv. cbn. by rewrite Hd.
    + unfold user_byte. rewrite Han, Hv. cbn. by rewrite Hd.
  - assert (a < PGSIZE * n \/ PGSIZE * n + PGSIZE <= a) as Hout
      by (unfold PGSIZE in *; Z.div_mod_to_equations; lia).
    destruct (Z.leb_spec (PGSIZE * n + PGSIZE) a), (Z.ltb_spec a (PGSIZE * n + PGSIZE + (len - m))),
      (Z.leb_spec va a), (Z.ltb_spec a (va + len)); cbn [andb]; try done; try lia.
    rewrite lookup_drop. f_equal. lia.
Qed.

Lemma copyout_loop_run fuel s T l U va buf :
  proc_ok pgdir s T l U -> 0 <= va -> va + Z.of_nat (length buf) <= KERNBASE ->
  (forall a, va <= a < va + Z.of_nat (length buf) -> accessible s T U (a / PGSIZE)) ->
  (Z.to_nat ((va mod PGSIZE + Z.of_nat (length buf) + PGSIZE - 1) / PGSIZE) < fuel)%nat ->
  exists s', copyout_loop fuel pgdir va buf s = Ok (0, s') /\ proc_ok pgdir s' T l U /\
    copied s U va buf s'.
Proof.
  intros Hok Hva Hle Hacc Hfuel.
  destruct (copyout_loop_total fuel s T l U va buf) as (r & s' & R & Hok' & _ & [[-> Hc]|(_ & a & Ha & Hn)]);
    try done.
  - intros a Ha. by apply Hacc.
  - by exists s'.
  - by destruct Hn; apply Hacc.
Qed.

(** The loop of [copyout] has rounds enough. *)
Lemma copyout_total s T l U va p :
  proc_ok pgdir s T l U -> 0 <= va -> va + Z.of_nat (length p) <= KERNBASE ->
  (forall a, va <= a < va + Z.of_nat (length p) -> is_Some (U !! (a / PGSIZE))) ->
  exists r s', copyout pgdir va p s = Ok (r, s') /\ proc_ok pgdir s' T l U /\ user_change T U s s' /\
    (r = 0 /\ copied s U va p s' \/
     r = -1 /\ exists a, va <= a < va + Z.of_nat (length p) /\ ~ accessible s T U (a / PGSIZE)).
Proof.
  intros Hok Hva Hle Hacc. unfold copyout. apply (copyout_loop_total _ s T l); try done.
  set (len := Z.of_nat (length p)) in *. unfold PGSIZE. Z.div_mod_to_equations. lia.
Qed.
End Copyout.
