(* ===== verification/VmProps.v ===== *)
(** * Properties of virtual memory *)

From S2P Require Import Prelude Bytes CString Layout Kalloc KallocSpec Vm VmSpec VmUser VmSpace.

(** [mappages] maps every page that the range [va, va + size) touches to the physical
    pages from [pa] on, with the permissions; no other entry changes.  It returns -1 only
    when the free list is empty; then only the pages before the one that needs a table
    are mapped. *)
Theorem mappages_maps_the_range `{Linker} s pgdir T l va size pa perm :
  vm_ok s pgdir T l -> 0 <= va -> 0 < size -> va + size <= 2 ^ 32 ->
  let a := PGSIZE * (va / PGSIZE) in
  let n := (va + size - 1) / PGSIZE - va / PGSIZE + 1 in
  0 <= pa -> pa mod PGSIZE = 0 -> pa + PGSIZE * n <= 2 ^ 32 -> 0 <= perm < PGSIZE ->
  (forall va', in_range a n va' = true -> Z.land (entry (pages s) T va') PTE_P = 0) ->
  exists r m s' T' l', mappages pgdir va size pa perm s = Ok (r, s') /\
    vm_step pgdir s T l s' T' l' /\
    (forall va', is_va va' -> entry (pages s') T' va' =
       if in_range a m va' then Z.lor (Z.lor (pa + PGSIZE * ((va' - a) / PGSIZE)) perm) PTE_P
       else entry (pages s) T va') /\
    (r = 0 /\ m = n \/ r = -1 /\ 0 <= m < n /\ l' = []).
Proof.
  apply mappages_run.
Qed.

Section User.
Context `{Linker} (pgdir : Z).
Hypothesis Hkend : KERNBASE < kend.

(** C18. [allocuvm] either grows the process by zeroed pages of its own, or returns 0 and
    leaves it as it was: its pages and their content are the same and every page is back
    in the free list, but for the page tables made on the way, which it keeps. *)
Theorem allocuvm_grows_or_undoes s T l U oldsz newsz :
  proc_ok pgdir s T l U -> 0 <= oldsz <= newsz -> newsz < KERNBASE ->
  (forall n, pages_up oldsz <= n < pages_up newsz -> U !! n = None) ->
  exists r s' T' l' U', allocuvm pgdir oldsz newsz s = Ok (r, s') /\
    (r = newsz /\ gained pgdir (pages_up oldsz) (pages_up newsz) s T l U s' T' l' U' \/
     r = 0 /\ gained pgdir (pages_up oldsz) (pages_up oldsz) s T l U s' T' l' U').
Proof using Hkend.
  intros Hok Hsz Hmax Hfree.
  destruct (allocuvm_run Hkend pgdir s T l U oldsz newsz Hsz Hmax Hfree Hok) as (r & s' & T' & l' & U' & R & Hg & _).
  by exists r, s', T', l', U'.
Qed.

(** [deallocuvm] takes from the process exactly the pages from the new size up to the old
    one, and they are in the free list afterwards; the content of the others stays. *)
Theorem deallocuvm_frees_the_pages s T l U oldsz newsz :
  proc_ok pgdir s T l U -> 0 <= newsz < oldsz -> oldsz <= KERNBASE ->
  exists s' l' U', deallocuvm pgdir oldsz newsz s = Ok (newsz, s') /\
    lost pgdir (pages_up newsz) (pages_up oldsz) s T l U s' l' U'.
Proof using Hkend. apply deallocuvm_run. exact Hkend. Qed.

(** C19. [copyuvm] either makes the child of a fork, in pages that were free: every page of
    the parent up to [sz] with the same bytes and flags in a page of its own, none above,
    and the kernel's part; or it returns 0 and every page is free again.  The parent, its
    entries and its bytes stay as they were. *)
Theorem copyuvm_copies_the_process s T l U sz :
  KERNLINK < kdata < KERNBASE + PHYSTOP -> kdata mod PGSIZE = 0 ->
  proc_ok pgdir s T l U -> 0 <= sz <= KERNBASE ->
  (forall n, 0 <= n < pages_up sz -> is_Some (U !! n)) ->
  exists r s', copyuvm pgdir sz s = Ok (r, s') /\
    (r = 0 /\ (exists l', restored s l s' l' /\ proc_ok pgdir s' T l' U) \/
     r <> 0 /\ exists T' l' U', copying s l T U r (pages_up sz) s' T' l' U' /\ proc_ok pgdir s' T l' U) /\
    (forall va, entry (pages s') T va = entry (pages s) T va) /\
    forall n v, U !! n = Some v -> pages s' !! page_of v = pages s !! page_of v.
Proof using Hkend.
  intros Hd Hdp Hok. apply copyuvm_run; try done. apply (vo_free _ _ _ _ (po_vm _ _ _ _ _ Hok)).
Qed.

(** [freevm] gives back every page that the address space of a child holds. *)
Theorem freevm_frees_the_copy s T l U n s' d T' l' U' :
  copying s l T U d n s' T' l' U' ->
  exists s2 l2, freevm d s' = Ok (tt, s2) /\ restored s l s2 l2.
Proof using Hkend. intros Hc. eapply freevm_run; [done|apply Hc|apply Hc]. Qed.

(** [copyout] to pages that user code can access writes exactly the bytes from [va] on,
    whatever pages they are in. *)
Theorem copyout_writes_user_memory s T l U va p :
  proc_ok pgdir s T l U -> 0 <= va -> va + Z.of_nat (length p) <= KERNBASE ->
  (forall a, va <= a < va + Z.of_nat (length p) -> accessible s T U (a / PGSIZE)) ->
  exists s', copyout pgdir va p s = Ok (0, s') /\ proc_ok pgdir s' T l U /\
    forall a, user_byte s' U a =
      if (va <=? a) && (a <? va + Z.of_nat (length p)) then p !! Z.to_nat (a - va)
      else user_byte s U a.
Proof.
  intros Hok Hva Hle Hacc. unfold copyout. apply copyout_loop_run; try done.
  set (len := Z.of_nat (length p)) in *. unfold PGSIZE. Z.div_mod_to_equations. lia.
Qed.

(** [copyout] to an address without a page table reads through the null pointer that
    [walkpgdir] returns, instead of failing with -1. *)
Theorem copyout_without_a_table_faults s T l U va p :
  proc_ok pgdir s T l U -> 0 <= va < 2 ^ 32 -> p <> [] -> T !! PDX (PGROUNDDOWN va) = None ->
  (pages s !! page_of 0 = None) ->
  copyout pgdir va p s = Fault "page".
Proof.
  intros Hok Hva Hp HT Hnull. unfold copyout. cbn [copyout_loop].
  destruct p as [|c p]; [done|]. cbn [length].
  rewrite (proj2 (Z.ltb_lt 0 _)) by lia. unfold uva2ka.
  assert (ld 0 s = Fault "page") as Hld.
  { unfold ld. apply bind_fault_ok. unfold get_page. mrun. by rewrite Hnull. }
  rewrite bind_bind.
  rewrite (bind_ok _ _ _ _ _ (walk_none s pgdir T _ (vo_dir _ _ _ _ (po_vm _ _ _ _ _ Hok)) HT)).
  rewrite bind_bind. by apply bind_fault_ok.
Qed.
End User.

(** ** A small process *)

Definition small_pgdir : Z := KERNBASE + 0x5000.
Definition small_free : list Z := map (fun k => KERNBASE + 0x1000 * k) [9; 8; 7; 6].

Lemma small_kend : KERNBASE < kend.
Proof. unfold kend, small_linker. lia. Qed.

Lemma small_kpage k : 5 <= k < 16 -> kpage (KERNBASE + 0x1000 * k).
Proof.
  intros Hk. split; [|unfold KERNBASE, PHYSTOP; lia].
  unfold KERNBASE, PGSIZE. Z.div_mod_to_equations. lia.
Qed.

(** A process without pages: an empty page directory and four free pages. *)
Lemma small_proc : exists s, proc_ok small_pgdir s ∅ small_free ∅ /\ pages s !! page_of 0 = None.
Proof.
  destruct (run_ops_stack (map (fun k => Free (KERNBASE + 0x1000 * k)) [6; 7; 8; 9]) small_machine []
    [0; 0; 0; 0] small_free) as (s & _ & Hf & Hfr).
  - split; [done|constructor|constructor|done].
  - apply Forall_forall. intros v Hv. cbn in Hv. apply list_elem_of_In in Hv.
    assert (exists k, 6 <= k < 10 /\ v = KERNBASE + 0x1000 * k) as (k & Hk & ->).
    { repeat destruct Hv as [<-|Hv]; [exists 6|exists 7|exists 8|exists 9|done]; done. }
    apply small_page_ok; [apply small_kpage; lia| |unfold PGSIZE; lia].
    unfold kend, small_linker. lia.
  - vm_compute. reflexivity.
  - assert (kpage small_pgdir) as Hk by (apply (small_kpage 5); lia).
    assert (pages s !! page_of small_pgdir = Some zero_page) as Hp.
    { rewrite Hfr; [apply zero_pages_lookup; vm_compute; split; (discriminate || done)|]. intros v Hv Heq. cbn in Hv.
      apply list_elem_of_In in Hv.
      repeat destruct Hv as [<-|Hv]; try done; vm_compute in Heq; discriminate. }
    assert (small_pgdir ∉ small_free) as Hnin.
    { rewrite list_elem_of_In. vm_compute. intros Hv. repeat destruct Hv as [Hv|Hv]; done. }
    assert (pages s !! page_of 0 = None) as Hnull.
    { rewrite Hfr; [apply zero_pages_none; vm_compute; discriminate|]. intros v Hv Heq. cbn in Hv.
      apply list_elem_of_In in Hv.
      repeat destruct Hv as [<-|Hv]; try done; vm_compute in Heq; discriminate. }
    exists s. split; [split; [split; [|done|done|done]|]|exact Hnull].
    + split; [exact Hk|by exists zero_page| |by intros d t Ht|by intros d d' t Ht].
      intros d Hd. exists 0. split; [by apply zero_word|]. split; [lia|]. by rewrite lookup_empty.
    + split; try done.
Qed.

(** The process with the page 0. *)
Lemma small_user : exists s T l U, proc_ok small_pgdir s T l U /\ accessible s T U 0.
Proof.
  destruct small_proc as (s & Hok & Hnull). unfold small_free in Hok. cbn [map] in Hok.
  destruct (take_page _ _ _ _ _ _ Hok) as (s1 & s2 & _ & _ & Hok2 & Hv & Hout & _ & _ & _ & HUv & _).
  set (v := KERNBASE + 0x1000 * 9) in *. destruct (V2P_aligned v (po_kpage _ _ Hv)) as [Hal Hrg].
  destruct (map_page small_pgdir s2 _ _ 0 (V2P v) (Z.lor PTE_W PTE_U) (po_vm _ _ _ _ _ Hok2))
    as [[_ Hn]|(s3 & T3 & l3 & _ & Hs3 & Hm3 & _)].
  { by vm_compute. }
  { exact Hal. }
  { apply Hrg. }
  { unfold v. vm_compute. discriminate. }
  { by vm_compute. }
  { apply (uo_none _ _ _ _ _ (po_user _ _ _ _ _ Hok2)); [by vm_compute|apply lookup_empty]. }
  { discriminate. }
  exists s3, T3, l3, (<[0 := v]> ∅). split.
  - eapply (map_user small_pgdir); [|exact Hok2|by vm_compute|apply lookup_empty|exact Hv|exact Hout| |exact Hs3|exact Hm3]; [by vm_compute|].
    intros k Hk. by rewrite lookup_empty in Hk.
  - split; [by rewrite lookup_insert_eq|].
    rewrite (Hm3 (PGSIZE * 0)) by (unfold is_va; lia).
    assert (in_range (PGSIZE * 0) 1 (PGSIZE * 0) = true) as -> by reflexivity.
    unfold v. vm_compute. discriminate.
Qed.

Lemma mappages_maps_the_range_witness :
  exists s l, vm_ok s small_pgdir ∅ l /\
    exists r m s' T' l', mappages small_pgdir 0x1200 0x1000 0x3000 PTE_W s = Ok (r, s') /\
      vm_step small_pgdir s ∅ l s' T' l' /\
      (forall va', is_va va' -> entry (pages s') T' va' =
         if in_range 0x1000 m va'
         then Z.lor (Z.lor (0x3000 + PGSIZE * ((va' - 0x1000) / PGSIZE)) PTE_W) PTE_P
         else entry (pages s) ∅ va') /\
      (r = 0 /\ m = 2 \/ r = -1 /\ 0 <= m < 2 /\ l' = []).
Proof.
  destruct small_proc as (s & Hok & Hnull). exists s, small_free. split; [apply Hok|].
  apply (mappages_maps_the_range s small_pgdir ∅ small_free 0x1200 0x1000 0x3000 PTE_W).
  - apply Hok.
  - lia.
  - lia.
  - lia.
  - lia.
  - reflexivity.
  - vm_compute. discriminate.
  - vm_compute. split; [discriminate|reflexivity].
  - intros va' _. unfold entry. by rewrite lookup_empty.
Defined.

Lemma allocuvm_grows_or_undoes_witness :
  exists s l, proc_ok small_pgdir s ∅ l ∅ /\
    exists r s' T' l' U', allocuvm small_pgdir 0 0x1234 s = Ok (r, s') /\
      (r = 0x1234 /\ gained small_pgdir (pages_up 0) (pages_up 0x1234) s ∅ l ∅ s' T' l' U' \/
       r = 0 /\ gained small_pgdir (pages_up 0) (pages_up 0) s ∅ l ∅ s' T' l' U').
Proof.
  destruct small_proc as (s & Hok & Hnull). exists s, small_free. split; [exact Hok|].
  apply (allocuvm_grows_or_undoes small_pgdir small_kend s ∅ small_free ∅ 0 0x1234).
  - exact Hok.
  - lia.
  - unfold KERNBASE. lia.
  - intros n _. apply lookup_empty.
Defined.

Lemma deallocuvm_frees_the_pages_witness :
  exists s T l U, proc_ok small_pgdir s T l U /\ accessible s T U 0 /\
    exists s' l' U', deallocuvm small_pgdir 0x1000 0 s = Ok (0, s') /\
      lost small_pgdir (pages_up 0) (pages_up 0x1000) s T l U s' l' U'.
Proof.
  destruct small_user as (s & T & l & U & Hok & Hacc). exists s, T, l, U.
  split; [exact Hok|]. split; [exact Hacc|].
  apply (deallocuvm_frees_the_pages small_pgdir small_kend s T l U 0x1000 0).
  - exact Hok.
  - lia.
  - unfold KERNBASE. lia.
Defined.

Lemma copyuvm_copies_the_process_witness :
  exists s T l U, proc_ok small_pgdir s T l U /\ accessible s T U 0 /\
    exists r s', copyuvm small_pgdir 0x1000 s = Ok (r, s') /\
      (r = 0 /\ (exists l', restored s l s' l' /\ proc_ok small_pgdir s' T l' U) \/
       r <> 0 /\ exists T' l' U', copying s l T U r (pages_up 0x1000) s' T' l' U' /\
         proc_ok small_pgdir s' T l' U) /\
      (forall va, entry (pages s') T va = entry (pages s) T va) /\
      forall n v, U !! n = Some v -> pages s' !! page_of v = pages s !! page_of v.
Proof.
  destruct small_user as (s & T & l & U & Hok & Hacc). exists s, T, l, U.
  split; [exact Hok|]. split; [exact Hacc|].
  apply (copyuvm_copies_the_process small_pgdir small_kend s T l U 0x1000).
  - vm_compute. split; reflexivity.
  - reflexivity.
  - exact Hok.
  - unfold KERNBASE. lia.
  - change (pages_up 0x1000) with 1. intros n Hn. assert (n = 0) as -> by lia. apply Hacc.
Defined.

Lemma copyout_writes_user_memory_witness :
  exists s T l U, proc_ok small_pgdir s T l U /\
    exists s', copyout small_pgdir 0x10 [1; 2; 3] s = Ok (0, s') /\ proc_ok small_pgdir s' T l U /\
      forall a, user_byte s' U a =
        if (0x10 <=? a) && (a <? 0x10 + Z.of_nat (length [1; 2; 3])) then [1; 2; 3] !! Z.to_nat (a - 0x10)
        else user_byte s U a.
Proof.
  destruct small_user as (s & T & l & U & Hok & Hacc). exists s, T, l, U. split; [exact Hok|].
  apply (copyout_writes_user_memory small_pgdir s T l U 0x10 [1; 2; 3]).
  - exact Hok.
  - lia.
  - cbn. unfold KERNBASE. lia.
  - cbn. intros a Ha. by rewrite Z.div_small by (unfold PGSIZE; lia).
Defined.

Lemma copyout_without_a_table_faults_witness :
  exists s, proc_ok small_pgdir s ∅ small_free ∅ /\ copyout small_pgdir 0x10 [1; 2; 3] s = Fault "page".
Proof.
  destruct small_proc as (s & Hok & Hnull). exists s. split; [exact Hok|].
  apply (copyout_without_a_table_faults small_pgdir s ∅ small_free ∅ 0x10 [1; 2; 3]).
  - exact Hok.
  - lia.
  - discriminate.
  - apply lookup_empty.
  - exact Hnull.
Defined.
