(* ===== verification/Pipe.v ===== *)
(** * Pipes

    [lab-2/pipe.c].  A call that sleeps is cut there: it returns what it still has to do,
and is resumed with it when it runs again, since [sleep] gives the lock back and
    takes it again, and the loop around it starts over.  What happens between two such
    points happens under the lock of the pipe. *)

From S2P Require Import Prelude.

Definition PIPESIZE : Z := 512.

(** The channels of a pipe, the addresses of its counters. *)
Inductive channel := Nread | Nwrite.
#[export] Instance channel_eq_dec : EqDecision channel.
Proof. solve_decision. Defined.

(** [struct pipe]; with it the wakeups, the last first. *)
Record pipe := Pipe {
  plock : bool;
  pdata : list Z;
  nread : Z;
  nwrite : Z;
  readopen : bool;
  writeopen : bool;
  wakeups : list channel
}.

Definition set_plock v p :=
  Pipe v (pdata p) (nread p) (nwrite p) (readopen p) (writeopen p) (wakeups p).
Definition set_pdata v p :=
  Pipe (plock p) v (nread p) (nwrite p) (readopen p) (writeopen p) (wakeups p).
Definition set_nread v p :=
  Pipe (plock p) (pdata p) v (nwrite p) (readopen p) (writeopen p) (wakeups p).
Definition set_nwrite v p :=
  Pipe (plock p) (pdata p) (nread p) v (readopen p) (writeopen p) (wakeups p).
Definition set_readopen v p :=
  Pipe (plock p) (pdata p) (nread p) (nwrite p) v (writeopen p) (wakeups p).
Definition set_writeopen v p :=
  Pipe (plock p) (pdata p) (nread p) (nwrite p) (readopen p) v (wakeups p).

Abbreviation Pi := (M pipe).

Definition acquire_pipe : Pi unit :=
  p ← get; if plock p then panic "acquire" else put (set_plock true p).
Definition release_pipe : Pi unit :=
  p ← get; if plock p then put (set_plock false p) else panic "release".

Definition wakeup_pipe (c : channel) : Pi unit :=
  modify (fun p => Pipe (plock p) (pdata p) (nread p) (nwrite p) (readopen p) (writeopen p)
                     (c :: wakeups p)).

(** The fields [pipealloc] gives a new pipe, in a page with content [d]. *)
Definition pipe_init (d : list Z) : pipe := Pipe false d 0 0 true true [].

(** [true] when both ends are closed and the page of the pipe is freed. *)
Definition pipeclose (writable : bool) : Pi bool :=
  acquire_pipe ;;
  (if writable then modify (set_writeopen false) ;; wakeup_pipe Nread
   else modify (set_readopen false) ;; wakeup_pipe Nwrite) ;;
  p ← get;
  release_pipe ;;
  mret (negb (readopen p) && negb (writeopen p)).

(** A call returns, or sleeps and is resumed with the bytes that are left. *)
Inductive wresult := WReturn (r : Z) | WSleep (left : list Z).
Inductive rresult := RReturn (r : Z) (l : list Z) | RSleep.

(** [pipewrite] from the test of the outer loop on; [n] is the length of the whole
    write. *)
Fixpoint write_loop (killed : bool) (n : Z) (addr : list Z) : Pi wresult :=
  match addr with
  | [] => wakeup_pipe Nread ;; release_pipe ;; mret (WReturn n)
  | c :: addr' =>
      p ← get;
      if nwrite p =? w32 (nread p + PIPESIZE) then
        if negb (readopen p) || killed then release_pipe ;; mret (WReturn (-1))
        else wakeup_pipe Nread ;; release_pipe ;; mret (WSleep addr)
      else
        d ← lift_opt "p->data" (zinsert (nwrite p mod PIPESIZE) c (pdata p));
        modify (set_pdata d) ;;
        modify (set_nwrite (w32 (nwrite p + 1))) ;;
        write_loop killed n addr'
  end.

(** A call with the bytes [addr], and the call resumed with the bytes left. *)
Definition pipewrite_from (killed : bool) (n : Z) (addr : list Z) : Pi wresult :=
  acquire_pipe ;; write_loop killed n addr.
Definition pipewrite (killed : bool) (addr : list Z) : Pi wresult :=
  pipewrite_from killed (Z.of_nat (length addr)) addr.

(** The copy loop of [piperead], at most [n] more bytes. *)
Fixpoint read_loop (n : nat) : Pi (list Z) :=
  match n with
  | O => mret []
  | S n' =>
      p ← get;
      if nread p =? nwrite p then mret []
      else
        c ← lift_opt "p->data" (zlookup (pdata p) (nread p mod PIPESIZE));
        modify (set_nread (w32 (nread p + 1))) ;;
        l ← read_loop n';
        mret (c :: l)
  end.

Definition piperead (killed : bool) (n : Z) : Pi rresult :=
  acquire_pipe ;;
  p ← get;
  if (nread p =? nwrite p) && writeopen p then
    if killed then release_pipe ;; mret (RReturn (-1) [])
    else release_pipe ;; mret RSleep
  else
    l ← read_loop (Z.to_nat n);
    wakeup_pipe Nwrite ;;
    release_pipe ;;
    mret (RReturn (Z.of_nat (length l)) l).

(** ** The pipe as a queue *)

(** The bytes in the pipe, the oldest first. *)
Definition count (p : pipe) : Z := w32 (nwrite p - nread p).
Definition queue_at (p : pipe) (k : nat) : Z :=
  default 0 (pdata p !! Z.to_nat ((nread p + Z.of_nat k) mod PIPESIZE)).
Definition queue (p : pipe) : list Z := map (queue_at p) (seq 0 (Z.to_nat (count p))).

(** The counters wrap around; their difference does not exceed the size of the pipe. *)
Record pipe_ok (p : pipe) : Prop := PipeOk {
  pk_data : Z.of_nat (length (pdata p)) = PIPESIZE;
  pk_nread : is_w32 (nread p);
  pk_nwrite : is_w32 (nwrite p);
  pk_count : count p <= PIPESIZE
}.

Lemma w32_mod x : w32 x mod PIPESIZE = x mod PIPESIZE.
Proof. apply Z.mod_mod_divide. by exists (2 ^ 23). Qed.

Lemma w32_sub_add a b : w32 (w32 (a + 1) - b) = w32 (a - b + 1).
Proof. unfold w32. rewrite Zminus_mod_idemp_l. f_equal. lia. Qed.

Lemma w32_sub_add_r a b : w32 (a - w32 (b + 1)) = w32 (a - b - 1).
Proof. unfold w32. rewrite Zminus_mod_idemp_r. f_equal. lia. Qed.

Lemma count_range p : 0 <= count p < 2 ^ 32.
Proof. apply w32_bounds. Qed.

Lemma queue_length p : Z.of_nat (length (queue p)) = count p.
Proof. unfold queue. rewrite length_map, length_seq. pose proof (count_range p). lia. Qed.

Lemma full_count p : is_w32 (nread p) -> is_w32 (nwrite p) ->
  (nwrite p =? w32 (nread p + PIPESIZE)) = (count p =? PIPESIZE).
Proof.
  unfold is_w32, count, w32, PIPESIZE. intros Hr Hw.
  destruct (Z.eqb_spec (nwrite p) ((nread p + 512) mod 2 ^ 32)),
    (Z.eqb_spec ((nwrite p - nread p) mod 2 ^ 32) 512); try done; exfalso;
    change (2 ^ 32) with 4294967296 in *; Z.div_mod_to_equations; lia.
Qed.

Lemma empty_count p : is_w32 (nread p) -> is_w32 (nwrite p) ->
  (nread p =? nwrite p) = (count p =? 0).
Proof.
  unfold is_w32, count, w32. intros Hr Hw.
  destruct (Z.eqb_spec (nread p) (nwrite p)), (Z.eqb_spec ((nwrite p - nread p) mod 2 ^ 32) 0);
    try done; exfalso; change (2 ^ 32) with 4294967296 in *; Z.div_mod_to_equations; lia.
Qed.

(** The slot of the next byte to write. *)
Lemma write_slot p : pipe_ok p ->
  nwrite p mod PIPESIZE = (nread p + count p) mod PIPESIZE.
Proof.
  intros _. unfold count. rewrite <- (w32_mod (nread p + _)). unfold w32.
  rewrite Zplus_mod_idemp_r. replace (nread p + (nwrite p - nread p)) with (nwrite p) by lia.
  symmetry. apply w32_mod.
Qed.

(** The same pipe with a byte more, and with a byte less. *)
Definition put_byte (c : Z) (p : pipe) : pipe :=
  set_nwrite (w32 (nwrite p + 1))
    (set_pdata (<[Z.to_nat (nwrite p mod PIPESIZE) := c]> (pdata p)) p).
Definition take_byte (p : pipe) : pipe := set_nread (w32 (nread p + 1)) p.

Lemma count_put c p : count p < PIPESIZE -> count (put_byte c p) = count p + 1.
Proof.
  intros Hc. unfold count in *. cbn. rewrite w32_sub_add. unfold w32 in *.
  pose proof (Z.mod_pos_bound (nwrite p - nread p) (2 ^ 32) ltac:(lia)).
  rewrite <- Zplus_mod_idemp_l. apply Z.mod_small. unfold PIPESIZE in Hc. lia.
Qed.

Lemma count_take p : 0 < count p -> count (take_byte p) = count p - 1.
Proof.
  intros Hc. unfold count in *. cbn. rewrite w32_sub_add_r. unfold w32 in *.
  pose proof (Z.mod_pos_bound (nwrite p - nread p) (2 ^ 32) ltac:(lia)).
  rewrite <- Zminus_mod_idemp_l. apply Z.mod_small. lia.
Qed.

Lemma put_byte_ok c p : pipe_ok p -> count p < PIPESIZE -> pipe_ok (put_byte c p).
Proof.
  intros [Hd Hr Hw _] Hc. split; [|done|apply w32_bounds|].
  - cbn. by rewrite length_insert.
  - rewrite count_put by done. lia.
Qed.

Lemma take_byte_ok p : pipe_ok p -> 0 < count p -> pipe_ok (take_byte p).
Proof.
  intros [Hd Hr Hw Hk] Hc. split; [done|apply w32_bounds|done|]. rewrite count_take by done. lia.
Qed.

Lemma slot_bound x : 0 <= x mod PIPESIZE < PIPESIZE.
Proof. by apply Z.mod_pos_bound. Qed.

Lemma queue_put c p : pipe_ok p -> count p < PIPESIZE -> queue (put_byte c p) = queue p ++ [c].
Proof.
  intros Hok Hc. pose proof (pk_data _ Hok) as Hd. pose proof (count_range p) as Hr.
  unfold queue at 1. rewrite count_put by done.
  replace (Z.to_nat (count p + 1)) with (Z.to_nat (count p) + 1)%nat by lia.
  rewrite seq_app, map_app. f_equal.
  - unfold queue. apply map_ext_in. intros k [_ Hk]%in_seq. unfold queue_at. cbn.
    rewrite list_lookup_insert_ne; [done|]. rewrite (write_slot p Hok). intros He.
    pose proof (slot_bound (nread p + count p)). pose proof (slot_bound (nread p + Z.of_nat k)).
    apply Z2Nat.inj in He; [|lia..]. unfold PIPESIZE in *. Z.div_mod_to_equations. lia.
  - cbn [seq map]. f_equal. unfold queue_at. cbn. rewrite (write_slot p Hok).
    replace (nread p + Z.of_nat (Z.to_nat (count p))) with (nread p + count p) by lia.
    pose proof (slot_bound (nread p + count p)). rewrite list_lookup_insert_eq by lia. done.
Qed.

Lemma queue_take p : pipe_ok p -> 0 < count p -> queue p = queue_at p 0 :: queue (take_byte p).
Proof.
  intros Hok Hc. unfold queue. rewrite count_take by done.
  replace (Z.to_nat (count p)) with (S (Z.to_nat (count p - 1))) by lia.
  cbn [seq map]. f_equal. rewrite <- seq_shift, map_map. apply map_ext. intros k.
  unfold queue_at. cbn [take_byte set_nread nread pdata].
  rewrite <- (Zplus_mod_idemp_l (w32 (nread p + 1))), w32_mod, Zplus_mod_idemp_l.
  do 4 f_equal. lia.
Qed.

(** ** The calls *)

Definition room (p : pipe) : nat := Z.to_nat (PIPESIZE - count p).

(** What a write of [addr] returns. *)
Definition write_result (killed : bool) (n : Z) (addr : list Z) (p : pipe) : wresult :=
  if (length addr <=? room p)%nat then WReturn n
  else if negb (readopen p) || killed then WReturn (-1)
  else WSleep (drop (room p) addr).

(** The same ends are open. *)
Definition same_ends (p p' : pipe) : Prop :=
  readopen p' = readopen p /\ writeopen p' = writeopen p.

Lemma write_loop_run killed n addr p :
  pipe_ok p -> plock p = true ->
  exists p', write_loop killed n addr p = Ok (write_result killed n addr p, p') /\
    pipe_ok p' /\ plock p' = false /\ same_ends p p' /\
    queue p' = queue p ++ take (room p) addr /\
    (write_result killed n addr p <> WReturn (-1) -> wakeups p' = Nread :: wakeups p).
Proof.
  revert p. induction addr as [|c addr IH]; intros p Hok Hlk; cbn [write_loop].
  { exists (set_plock false (Pipe (plock p) (pdata p) (nread p) (nwrite p) (readopen p) (writeopen p)
      (Nread :: wakeups p))).
    split; [|split; [by destruct Hok|]].
    - unfold wakeup_pipe. rewrite bind_modify. unfold release_pipe. mrun. cbn [plock]. by rewrite Hlk.
    - rewrite take_nil, app_nil_r. by split_and!. }
  rewrite bind_get, full_count by apply Hok. pose proof (count_range p) as Hcr.
  pose proof (pk_count _ Hok) as Hck. destruct (Z.eqb_spec (count p) PIPESIZE) as [Hf|Hf].
  - assert (room p = O) as Hroom by (unfold room; lia).
    unfold write_result. rewrite Hroom. cbn [length Nat.leb take drop]. rewrite app_nil_r.
    destruct (negb (readopen p) || killed) eqn:Hd.
    + exists (set_plock false p). split; [|split; [by destruct Hok|by split_and!]].
      unfold release_pipe. mrun. by rewrite Hlk.
    + exists (set_plock false (Pipe (plock p) (pdata p) (nread p) (nwrite p) (readopen p) (writeopen p)
        (Nread :: wakeups p))).
      split; [|split; [by destruct Hok|by split_and!]].
      unfold wakeup_pipe. rewrite bind_modify. unfold release_pipe. mrun. cbn [plock]. by rewrite Hlk.
  - assert (count p < PIPESIZE) as Hlt by lia. pose proof (slot_bound (nwrite p)) as Hsl.
    assert (zinsert (nwrite p mod PIPESIZE) c (pdata p) =
      Some (<[Z.to_nat (nwrite p mod PIPESIZE) := c]> (pdata p))) as ->.
    { rewrite <- (Z2Nat.id (nwrite p mod PIPESIZE)) at 1 by lia. apply zinsert_nat.
      pose proof (pk_data _ Hok). lia. }
    rewrite bind_lift_Some, !bind_modify. fold (put_byte c p).
    destruct (IH (put_byte c p) (put_byte_ok c p Hok Hlt) Hlk) as (p' & R & Hok' & Hlk' & He' & Hq' & Hw').
    assert (room p = S (room (put_byte c p))) as Hroom.
    { unfold room. rewrite count_put by done. lia. }
    assert (write_result killed n (c :: addr) p = write_result killed n addr (put_byte c p)) as Hres.
    { unfold write_result. rewrite Hroom. done. }
    exists p'. rewrite Hres. split; [exact R|]. split_and!; try done; try apply He'.
    rewrite Hq', queue_put, Hroom by done. cbn [take]. by rewrite <- app_assoc.
Qed.

Lemma pipewrite_run killed n addr p :
  pipe_ok p -> plock p = false ->
  exists p', pipewrite_from killed n addr p = Ok (write_result killed n addr p, p') /\
    pipe_ok p' /\ plock p' = false /\ same_ends p p' /\
    queue p' = queue p ++ take (room p) addr /\
    (write_result killed n addr p <> WReturn (-1) -> wakeups p' = Nread :: wakeups p).
Proof.
  intros Hok Hlk. unfold pipewrite_from, acquire_pipe. rewrite bind_bind, bind_get, Hlk.
  rewrite bind_put. apply (write_loop_run killed n addr (set_plock true p)); [by destruct Hok|done].
Qed.

Lemma read_loop_run n p :
  pipe_ok p -> exists p', read_loop n p = Ok (take n (queue p), p') /\ pipe_ok p' /\
    plock p' = plock p /\ same_ends p p' /\ wakeups p' = wakeups p /\ queue p' = drop n (queue p).
Proof.
  revert p. induction n as [|n IH]; intros p Hok; cbn [read_loop].
  { exists p. rewrite take_0. by split_and!. }
  rewrite bind_get, empty_count by apply Hok. pose proof (count_range p) as Hcr.
  destruct (Z.eqb_spec (count p) 0) as [He|He].
  - exists p. assert (queue p = []) as ->; [|by split_and!].
    apply nil_length_inv. pose proof (queue_length p). lia.
  - pose proof (slot_bound (nread p)) as Hsl.
    assert (exists c, pdata p !! Z.to_nat (nread p mod PIPESIZE) = Some c) as [c Hc].
    { apply lookup_lt_is_Some_2. pose proof (pk_data _ Hok). lia. }
    assert (zlookup (pdata p) (nread p mod PIPESIZE) = Some c) as ->.
    { rewrite <- (Z2Nat.id (nread p mod PIPESIZE)) by lia. by rewrite zlookup_nat. }
    rewrite bind_lift_Some, bind_modify. fold (take_byte p).
    destruct (IH (take_byte p) (take_byte_ok p Hok ltac:(lia))) as (p' & R & Hok' & Hlk' & He' & Hw' & Hq').
    rewrite (bind_ok _ _ _ _ _ R).
    assert (queue_at p 0 = c) as Hq0 by (unfold queue_at; rewrite Z.add_0_r, Hc; done).
    rewrite (queue_take p Hok) by lia. rewrite Hq0. exists p'. by split_and!.
Qed.

(** What a read of at most [n] bytes returns. *)
Definition read_result (killed : bool) (n : Z) (p : pipe) : rresult :=
  if bool_decide (queue p = []) && writeopen p then
    if killed then RReturn (-1) [] else RSleep
  else RReturn (Z.of_nat (length (take (Z.to_nat n) (queue p)))) (take (Z.to_nat n) (queue p)).

Lemma piperead_run killed n p :
  pipe_ok p -> plock p = false ->
  exists p', piperead killed n p = Ok (read_result killed n p, p') /\
    pipe_ok p' /\ plock p' = false /\ same_ends p p' /\
    match read_result killed n p with
    | RReturn _ l => queue p = l ++ queue p'
    | RSleep => p' = p
    end /\
    (forall l, l <> [] -> read_result killed n p = RReturn (Z.of_nat (length l)) l ->
       wakeups p' = Nwrite :: wakeups p).
Proof.
  intros Hok Hlk. unfold piperead, acquire_pipe. rewrite bind_bind, bind_get, Hlk, bind_put, bind_get.
  set (p1 := set_plock true p). assert (pipe_ok p1) as Hok1 by (by destruct Hok).
  assert (set_plock false p1 = p) as Hback by (destruct p; cbn in *; by subst).
  rewrite (empty_count p1) by apply Hok.
  assert ((count p1 =? 0) = bool_decide (queue p = [])) as ->.
  { change (count p1) with (count p). pose proof (queue_length p) as Hl.
    destruct (Z.eqb_spec (count p) 0) as [Hc|Hc]; symmetry.
    - apply bool_decide_true. apply nil_length_inv. lia.
    - apply bool_decide_false. intros Hq. rewrite Hq in Hl. cbn in Hl. lia. }
  unfold read_result. change (writeopen p1) with (writeopen p).
  destruct (bool_decide (queue p = []) && writeopen p) eqn:He.
  - exists p. assert (release_pipe p1 = Ok (tt, p)) as R.
    { unfold release_pipe. mrun. change (plock p1) with true. cbv iota. unfold put. by rewrite Hback. }
    apply andb_true_iff in He as [Hq%bool_decide_eq_true _].
    destruct killed; (split; [by rewrite (bind_ok _ _ _ _ _ R)|]); split_and!; try done.
    by intros l Hl [= Hlen <-].
  - destruct (read_loop_run (Z.to_nat n) p1 Hok1) as (p2 & R & Hok2 & Hlk2 & He2 & Hw2 & Hq2).
    change (queue p1) with (queue p) in *. rewrite (bind_ok _ _ _ _ _ R).
    eexists. split; [unfold wakeup_pipe; rewrite bind_modify; unfold release_pipe; mrun;
      cbn [plock]; rewrite Hlk2; reflexivity|].
    split; [by destruct Hok2|]. split; [done|]. split; [apply He2|]. split.
    + change (queue (set_plock false _)) with (queue p2). by rewrite Hq2, take_drop.
    + intros l _ _. cbn. by rewrite Hw2.
Qed.

(** ** The pipe as a queue *)

(** A writer that has to write [left], and is resumed as often as it sleeps, and a reader
    that has got [got] so far, in any order. *)
Record duplex := Duplex { du_pipe : pipe; du_left : list Z; du_got : list Z }.

Inductive duplex_step : relation duplex :=
  | step_write n p left got r p' :
      pipewrite_from false n left p = Ok (r, p') ->
      duplex_step (Duplex p left got)
        (Duplex p' (match r with WSleep l => l | WReturn _ => [] end) got)
  | step_read n p left got r p' :
      piperead false n p = Ok (r, p') ->
      duplex_step (Duplex p left got)
        (Duplex p' left (got ++ match r with RReturn _ l => l | RSleep => [] end)).

Record duplex_ok (total : list Z) (d : duplex) : Prop := DuplexOk {
  dk_pipe : pipe_ok (du_pipe d);
  dk_lock : plock (du_pipe d) = false;
  dk_open : readopen (du_pipe d) = true /\ writeopen (du_pipe d) = true;
  dk_total : du_got d ++ queue (du_pipe d) ++ du_left d = total
}.

Lemma duplex_preserved total d d' : duplex_ok total d -> duplex_step d d' -> duplex_ok total d'.
Proof.
  intros [Hok Hlk [Hr Hw] Ht] Hs. destruct Hs as [n p left got r p' R|n p left got r p' R];
    cbn [du_pipe du_left du_got] in *.
  - destruct (pipewrite_run false n left p Hok Hlk) as (p2 & R2 & Hok2 & Hlk2 & [Hr2 Hw2] & Hq2 & _).
    rewrite R in R2. apply Ok_inj in R2 as [-> ->].
    split; cbn; [done|done|by rewrite Hr2, Hw2|]. rewrite Hq2, <- Ht. f_equal. rewrite <- app_assoc.
    f_equal. unfold write_result. rewrite Hr. destruct (Nat.leb_spec (length left) (room p)); cbn.
    + rewrite app_nil_r. apply take_ge. lia.
    + apply take_drop.
  - destruct (piperead_run false n p Hok Hlk) as (p2 & R2 & Hok2 & Hlk2 & [Hr2 Hw2] & Hq2 & _).
    rewrite R in R2. apply Ok_inj in R2 as [-> ->].
    split; cbn; [done|done|by rewrite Hr2, Hw2|]. rewrite <- Ht.
    destruct (read_result false n p) as [r l|].
    + rewrite Hq2, <- !app_assoc. done.
    + by rewrite Hq2, app_nil_r.
Qed.

Lemma duplex_reachable total d d' :
  duplex_ok total d -> rtc duplex_step d d' -> duplex_ok total d'.
Proof. intros Hd Hs. induction Hs as [|d1 d2 d3 H1 _ IH]; [done|]. by eapply IH, duplex_preserved. Qed.

(** C8. However the calls of a writer and a reader are interleaved, what was read, what is in
    the pipe and what is left to write are together the bytes of the write, in order;
    at most 512 bytes are in the pipe, also when its counters wrap around; and one of the
    two can always go on: a reader finds bytes unless the pipe is empty, and then the
    writer finds room. *)
Theorem pipe_is_fifo p0 total d :
  pipe_ok p0 -> plock p0 = false -> readopen p0 = true -> writeopen p0 = true -> queue p0 = [] ->
  rtc duplex_step (Duplex p0 total []) d ->
  du_got d ++ queue (du_pipe d) ++ du_left d = total /\
  Z.of_nat (length (queue (du_pipe d))) <= PIPESIZE /\
  (forall n, 0 < n -> queue (du_pipe d) <> [] ->
     exists l p', l <> [] /\ piperead false n (du_pipe d) = Ok (RReturn (Z.of_nat (length l)) l, p')) /\
  (forall n, queue (du_pipe d) = [] -> du_left d <> [] ->
     exists r p', pipewrite_from false n (du_left d) (du_pipe d) = Ok (r, p') /\ queue p' <> []).
Proof.
  intros Hok Hlk Hr Hw Hq Hsteps.
  assert (duplex_ok total d) as [Hok' Hlk' [Hr' Hw'] Ht].
  { eapply duplex_reachable; [|exact Hsteps]. split; cbn; [done|done|done|]. by rewrite Hq. }
  split; [done|]. split; [rewrite queue_length; apply Hok'|]. split.
  - intros n Hn Hne. destruct (piperead_run false n _ Hok' Hlk') as (p' & R & _).
    unfold read_result in R. rewrite bool_decide_false in R by done. cbn [andb] in R.
    exists (take (Z.to_nat n) (queue (du_pipe d))), p'. split; [|done].
    destruct (queue (du_pipe d)); [done|]. by destruct (Z.to_nat n) eqn:Hz; [lia|].
  - intros n He Hne. destruct (pipewrite_run false n (du_left d) _ Hok' Hlk') as (p' & R & _ & _ & _ & Hq' & _).
    eexists _, p'. split; [exact R|]. rewrite Hq', He. cbn [app].
    assert (count (du_pipe d) = 0) as Hc by (rewrite <- queue_length, He; done).
    unfold room. rewrite Hc. change (Z.to_nat (PIPESIZE - 0)) with 512%nat. by destruct (du_left d).
Qed.

(** [pipewrite] fills the free part of the pipe; it returns the length of the write when
    everything fits, also when nobody can read any more, -1 when the rest will never be
    read or the process is killed, and sleeps with the rest otherwise; it has always
    woken the reader when it returns a length or sleeps. *)
Theorem pipewrite_fills_the_pipe killed addr p :
  pipe_ok p -> plock p = false ->
  let fits := (length addr <=? room p)%nat in
  exists r p', pipewrite killed addr p = Ok (r, p') /\ pipe_ok p' /\ plock p' = false /\
    queue p' = queue p ++ take (room p) addr /\
    r = (if fits then WReturn (Z.of_nat (length addr))
         else if negb (readopen p) || killed then WReturn (-1)
         else WSleep (drop (room p) addr)) /\
    (r <> WReturn (-1) -> wakeups p' = Nread :: wakeups p).
Proof.
  intros Hok Hlk fits.
  destruct (pipewrite_run killed (Z.of_nat (length addr)) addr p Hok Hlk)
    as (p' & R & Hok' & Hlk' & _ & Hq & Hw).
  exists (write_result killed (Z.of_nat (length addr)) addr p), p'.
  split; [exact R|]. split; [done|]. split; [done|]. split; [done|]. split; [done|exact Hw].
Qed.

(** A pipe with its counters just before they wrap around. *)
Definition small_pipe : pipe := Pipe false (replicate 512 0) (2 ^ 32 - 2) (2 ^ 32 - 2) true true [].

Lemma small_pipe_ok : pipe_ok small_pipe.
Proof. split; [reflexivity|unfold is_w32; cbn; lia|unfold is_w32; cbn; lia|vm_compute; discriminate]. Qed.

Lemma pipe_is_fifo_witness :
  exists d, rtc duplex_step (Duplex small_pipe [1; 2; 3; 4] []) d /\ du_got d = [1; 2; 3] /\
    du_got d ++ queue (du_pipe d) ++ du_left d = [1; 2; 3; 4].
Proof.
  eexists. split.
  - eapply rtc_l; [apply (step_write 4); vm_compute; reflexivity|].
    eapply rtc_l; [apply (step_read 3); vm_compute; reflexivity|]. apply rtc_refl.
  - split; [reflexivity|].
    apply (pipe_is_fifo small_pipe [1; 2; 3; 4]).
    + apply small_pipe_ok.
    + reflexivity.
    + reflexivity.
    + reflexivity.
    + reflexivity.
    + eapply rtc_l; [apply (step_write 4); vm_compute; reflexivity|].
      eapply rtc_l; [apply (step_read 3); vm_compute; reflexivity|]. apply rtc_refl.
Defined.

Lemma pipewrite_fills_the_pipe_witness :
  exists r p', pipewrite false [1; 2; 3] small_pipe = Ok (r, p') /\ pipe_ok p' /\ plock p' = false /\
    queue p' = queue small_pipe ++ take (room small_pipe) [1; 2; 3] /\
    r = (if (length [1; 2; 3] <=? room small_pipe)%nat then WReturn (Z.of_nat (length [1; 2; 3]))
         else if negb (readopen small_pipe) || false then WReturn (-1)
         else WSleep (drop (room small_pipe) [1; 2; 3])) /\
    (r <> WReturn (-1) -> wakeups p' = Nread :: wakeups small_pipe).
Proof.
  apply (pipewrite_fills_the_pipe false [1; 2; 3] small_pipe).
  - apply small_pipe_ok.
  - reflexivity.
Defined.
