(* ===== verification/File.v ===== *)
(** * Open files

    [lab-2/file.c] and [pipealloc] of [lab-2/pipe.c]: the table of open files over the
    file system, the log, the pipes and the allocator. *)

From S2P Require Import Prelude Layout Kalloc Bcache Log Fs Pipe.

Definition NFILE : nat := 100.

Inductive file_type := FD_NONE | FD_PIPE | FD_INODE.
#[export] Instance file_type_eq_dec : EqDecision file_type.
Proof. solve_decision. Defined.

(** [struct file]: the address of the pipe, the entry of the inode. *)
Record file := File {
  f_type : file_type;
  f_ref : Z;
  f_readable : bool;
  f_writable : bool;
  f_pipe : Z;
  f_ip : nat;
  f_off : Z
}.

Definition set_f_type v f :=
  File v (f_ref f) (f_readable f) (f_writable f) (f_pipe f) (f_ip f) (f_off f).
Definition set_f_ref v f :=
  File (f_type f) v (f_readable f) (f_writable f) (f_pipe f) (f_ip f) (f_off f).
Definition set_f_off v f :=
  File (f_type f) (f_ref f) (f_readable f) (f_writable f) (f_pipe f) (f_ip f) v.

Record filesys := Filesys {
  fsy : fsys;
  ftable_lock : bool;
  ftable : list file;
  pipes : gmap Z pipe;
  kmem : machine
}.

Definition set_fsy v s := Filesys v (ftable_lock s) (ftable s) (pipes s) (kmem s).
Definition set_ftable_lock v s := Filesys (fsy s) v (ftable s) (pipes s) (kmem s).
Definition set_ftable v s := Filesys (fsy s) (ftable_lock s) v (pipes s) (kmem s).
Definition set_pipes v s := Filesys (fsy s) (ftable_lock s) (ftable s) v (kmem s).
Definition set_kmem v s := Filesys (fsy s) (ftable_lock s) (ftable s) (pipes s) v.

Abbreviation Fm := (M filesys).

(** Calls of the components below. *)
Definition zoom {S A} (get : filesys -> S) (set : S -> filesys -> filesys) (m : M S A) : Fm A :=
  fun s =>
    match m (get s) with
    | Ok (a, t) => Ok (a, set t s)
    | Panic msg => Panic msg
    | Fault w => Fault w
    | Diverge => Diverge
    end.
Definition on_fs {A} (m : Fs A) : Fm A := zoom fsy set_fsy m.
Definition on_mem {A} (m : Mem A) : Fm A := zoom kmem set_kmem m.

Definition on_pipe {A} (p : Z) (m : Pi A) : Fm A :=
  s ← get;
  x ← lift_opt "pipe" (pipes s !! p);
  match m x with
  | Ok (a, x') => modify (set_pipes (<[p := x']> (pipes s))) ;; mret a
  | Panic msg => panic msg
  | Fault w => fault w
  | Diverge => diverge
  end.

Definition acquire_ftable : Fm unit :=
  s ← get; if ftable_lock s then panic "acquire" else put (set_ftable_lock true s).
Definition release_ftable : Fm unit :=
  s ← get; if ftable_lock s then put (set_ftable_lock false s) else panic "release".

Definition getf (f : nat) : Fm file := s ← get; lift_opt "file" (ftable s !! f).
Definition updf (f : nat) (g : file -> file) : Fm unit :=
  modify (fun s => set_ftable (alter g f (ftable s)) s).

Definition fileinit : Fm unit := modify (set_ftable_lock false).

Definition filealloc : Fm (option nat) :=
  acquire_ftable ;;
  r ← find_each (seq 0 NFILE) (fun f =>
        x ← getf f;
        if f_ref x =? 0 then updf f (set_f_ref 1) ;; mret (Some f) else mret None);
  release_ftable ;;
  mret r.

Definition filedup (f : nat) : Fm nat :=
  acquire_ftable ;;
  x ← getf f;
  if f_ref x <? 1 then panic "filedup"
  else updf f (set_f_ref (i32 (f_ref x + 1))) ;; release_ftable ;; mret f.

(** A call that sleeps in a pipe returns to be resumed there. *)
Inductive io (A B : Type) := Done (a : A) | Asleep (b : B).
Arguments Done {A B} a.
Arguments Asleep {A B} b.

Section Calls.
Context `{Devices} `{Linker}.

(** The process: whether it was killed, and what the others do while it sleeps on the
    log, at most [fuel] times. *)
Context (killed : bool) (fuel : nat) (others : store -> store).

(** A pipe that is closed for good gives its page back. *)
Definition close_pipe (p : Z) (writable : bool) : Fm unit :=
  freed ← on_pipe p (pipeclose writable);
  when freed (modify (fun s => set_pipes (delete p (pipes s)) s) ;; on_mem (kfree p)).

Definition fileclose (f : nat) : Fm unit :=
  acquire_ftable ;;
  x ← getf f;
  if f_ref x <? 1 then panic "fileclose"
  else
    updf f (set_f_ref (i32 (f_ref x - 1))) ;;
    if 0 <? i32 (f_ref x - 1) then release_ftable
    else
      ff ← getf f;
      updf f (set_f_ref 0) ;;
      updf f (set_f_type FD_NONE) ;;
      release_ftable ;;
      match f_type ff with
      | FD_PIPE => close_pipe (f_pipe ff) (f_writable ff)
      | FD_INODE =>
          on_fs (disk (begin_op fuel others)) ;;
          on_fs (iput (f_ip ff)) ;;
          on_fs (disk end_op)
      | FD_NONE => mret tt
      end.

(** [pipealloc]; the data of a new pipe is what [kfree] left in its page. *)
Definition new_pipe : pipe := pipe_init (replicate 512 1).
Definition pipealloc : Fm (option (nat * nat)) :=
  f0 ← filealloc;
  f1 ← match f0 with None => mret None | Some _ => filealloc end;
  p ← match f1 with None => mret 0 | Some _ => on_mem kalloc end;
  match f0, f1 with
  | Some a, Some b =>
      if p =? 0 then
        fileclose a ;; fileclose b ;; mret None
      else
        modify (fun s => set_pipes (<[p := new_pipe]> (pipes s)) s) ;;
        updf a (fun x => File FD_PIPE (f_ref x) true false p (f_ip x) (f_off x)) ;;
        updf b (fun x => File FD_PIPE (f_ref x) false true p (f_ip x) (f_off x)) ;;
        mret (Some (a, b))
  | Some a, None => fileclose a ;; mret None
  | None, _ => mret None
  end.

Definition filestat (f : nat) : Fm (option stat) :=
  x ← getf f;
  match f_type x with
  | FD_INODE =>
      on_fs (ilock (Some (f_ip x))) ;;
      r ← on_fs (stati (f_ip x));
      on_fs (iunlock (Some (f_ip x))) ;;
      mret (Some r)
  | _ => mret None
  end.

Definition fileread (f : nat) (n : Z) : Fm (io (Z * list Z) unit) :=
  x ← getf f;
  if negb (f_readable x) then mret (Done (-1, []))
  else
    match f_type x with
    | FD_PIPE =>
        r ← on_pipe (f_pipe x) (piperead killed n);
        mret (match r with RReturn r l => Done (r, l) | RSleep => Asleep tt end)
    | FD_INODE =>
        on_fs (ilock (Some (f_ip x))) ;;
        '(r, l) ← on_fs (readi (f_ip x) (f_off x) n);
        when (0 <? r) (updf f (set_f_off (w32 (f_off x + r)))) ;;
        on_fs (iunlock (Some (f_ip x))) ;;
        mret (Done (r, l))
    | FD_NONE => panic "fileread"
    end.

Definition MAXWRITE : Z := (MAXOPBLOCKS - 1 - 1 - 2) / 2 * 512.

(** The transaction of a round of [filewrite], which writes [n1] of the bytes from [i] on. *)
Definition filewrite_round (f : nat) (addr : list Z) (n1 i : Z) : Fm Z :=
  on_fs (disk (begin_op fuel others)) ;;
  x ← getf f;
  on_fs (ilock (Some (f_ip x))) ;;
  r ← on_fs (writei (f_ip x) (drop (Z.to_nat i) addr) (f_off x) n1);
  when (0 <? r) (updf f (set_f_off (w32 (f_off x + r)))) ;;
  on_fs (iunlock (Some (f_ip x))) ;;
  on_fs (disk end_op) ;;
  mret r.

(** The loop of [filewrite]; a round but the last writes [MAXWRITE] bytes. *)
Fixpoint filewrite_loop (rounds : nat) (f : nat) (addr : list Z) (n i : Z) : Fm Z :=
  match rounds with
  | O => diverge
  | S rounds' =>
      if i <? n then
        let n1 := if MAXWRITE <? n - i then MAXWRITE else n - i in
        r ← filewrite_round f addr n1 i;
        if r <? 0 then mret (if i =? n then n else -1)
        else if negb (r =? n1) then panic "short filewrite"
        else filewrite_loop rounds' f addr n (i + r)
      else mret (if i =? n then n else -1)
  end.

Definition filewrite (f : nat) (addr : list Z) (n : Z) : Fm (io Z (list Z)) :=
  x ← getf f;
  if negb (f_writable x) then mret (Done (-1))
  else
    match f_type x with
    | FD_PIPE =>
        r ← on_pipe (f_pipe x) (pipewrite killed (take (Z.to_nat n) addr));
        mret (match r with WReturn r => Done r | WSleep l => Asleep l end)
    | FD_INODE =>
        r ← filewrite_loop (S (Z.to_nat ((n + MAXWRITE - 1) / MAXWRITE))) f addr n 0;
        mret (Done r)
    | FD_NONE => panic "filewrite"
    end.
End Calls.
