(* ===== verification/FileSpec.v ===== *)
(** * Writing a file in transactions

    A file whose blocks are there, on the disk between two transactions, and one round of
    [filewrite]. *)

From S2P Require Import Prelude CString Bytes Layout Kalloc Bcache BcacheSpec Log LogSpec Recovery LogThms Transaction Fs FsBlocks FsContent FsProps Pipe File KallocSpec SmallDisk.

(** The inode [ip] on the blocks [D]: its blocks are there, apart from each other and
    from the log. *)
Record disk_file (g : log) (D : list block) (ip : inode) : Prop := DiskFile {
  df_ok : file_ok D ip (i_size ip);
  df_sep : file_sep g D ip (i_size ip);
  df_indirect : 512 * Z.of_nat NDIRECT < i_size ip ->
    ~ in_log g (block_of (default 0 (i_addrs ip !! NDIRECT)))
}.

Lemma same_home_length g d d' :
  layout g (length d) -> layout g (length d') -> same_home g d d' -> length d = length d'.
Proof.
  intros Hl Hl' Hs. destruct (lt_eq_lt_dec (length d) (length d')) as [[Hlt|He]|Hlt]; [|done|].
  - exfalso. destruct (lookup_lt_is_Some_2 d' (length d) Hlt) as [b Hb].
    rewrite <- (Hs (length d)), lookup_ge_None_2 in Hb; [done|lia|].
    intros Hin%(in_log_lt _ _ Hl). lia.
  - exfalso. destruct (lookup_lt_is_Some_2 d (length d') Hlt) as [b Hb].
    rewrite (Hs (length d')), lookup_ge_None_2 in Hb; [done|lia|].
    intros Hin%(in_log_lt _ _ Hl'). lia.
Qed.

Section Same.
Context (g : log) (V D : list block) (ip : inode).
Hypothesis Hs : same_home g D V.
Hypothesis Hlen : length D = length V.
Hypothesis Hf : disk_file g V ip.

Lemma same_addr k : 0 <= k -> 512 * k < i_size ip -> addr_of D ip k = addr_of V ip k.
Proof using All.
  intros Hk Hke. unfold addr_of. destruct (Z.ltb_spec k (Z.of_nat NDIRECT)); [done|].
  destruct (_ =? 0); [done|]. do 2 f_equal. rewrite !list_lookup_total_alt, Hs; [done|].
  apply (df_indirect _ _ _ Hf). lia.
Qed.

Lemma same_block k : 0 <= k -> 512 * k < i_size ip -> D !! block_at D ip k = V !! block_at V ip k.
Proof using All.
  intros Hk Hke. unfold block_at. rewrite same_addr by done. apply Hs.
  apply (fs_home _ _ _ _ (df_sep _ _ _ Hf) k Hk Hke).
Qed.

Lemma same_byte p : 0 <= p < i_size ip -> byte_of D ip p = byte_of V ip p.
Proof using All.
  intros Hp. unfold byte_of. do 2 f_equal. rewrite !list_lookup_total_alt, same_block; [done| |];
    Z.div_mod_to_equations; lia.
Qed.

Lemma same_disk_file : disk_file g D ip.
Proof using All.
  pose proof Hf as [[] [] Hi]. split; [split; try done|split|done].
  - intros k Hk Hke. rewrite same_block, same_addr by done. by apply fo_block.
  - intros He. destruct (fo_indirect He) as (ia & d & Ha & Hnz & Hd & Hl).
    exists ia, d. split_and!; try done. rewrite Hs; [done|].
    specialize (Hi He). by rewrite Ha in Hi.
  - intros k Hk Hke. unfold block_at. rewrite same_addr, Hlen by done. by apply fs_home.
  - intros k k' Hk Hke Hk' Hke'. unfold block_at. rewrite !same_addr by done. by apply fs_inj.
  - intros He k Hk Hke. unfold block_at. rewrite same_addr by done. by apply fs_indirect.
Qed.
End Same.

(** The lock of an inode does not matter for its content. *)
Lemma disk_file_lock g D ip v : disk_file g D ip <-> disk_file g D (set_ilock v ip).
Proof.
  split; (intros [[] [] ?]; split; [split|split|]; assumption).
Qed.

Lemma disk_file_ext g g' D ip :
  log_start g' = log_start g -> log_size g' = log_size g -> disk_file g D ip -> disk_file g' D ip.
Proof.
  intros H1 H2 [Ho [Hh Hi Hn] Hd]. unfold home, in_log in *. split; [done|split|]; unfold home, in_log; try done.
  - intros k Hk Hke. rewrite H1, H2. by apply Hh.
  - rewrite H1, H2. done.
Qed.

(** ** Locking an inode that was read *)

Definition holder (v : option Z) (i : nat) (f : fsys) : fsys :=
  set_icache (alter (set_ilock v) i (icache f)) f.

Lemma ilock_run f i ip :
  icache f !! i = Some ip -> 1 <= i_ref ip -> i_lock ip = None -> i_valid ip = true ->
  ilock (Some i) f = Ok (tt, holder (Some (me (st f))) i f).
Proof.
  intros Hi Hr Hl Hv. unfold ilock. rewrite (bind_ok _ _ _ _ _ (geti_run f i ip Hi)).
  rewrite (proj2 (Z.ltb_ge _ _) Hr). unfold acquiresleep_inode. rewrite bind_bind.
  rewrite (bind_ok _ _ _ _ _ (geti_run f i ip Hi)), Hl, bind_bind, bind_gets.
  unfold updi. rewrite bind_modify. fold (holder (Some (me (st f))) i f).
  assert (icache (holder (Some (me (st f))) i f) !! i = Some (set_ilock (Some (me (st f))) ip)) as Hi'.
  { cbn. by rewrite list_lookup_alter_eq, Hi. }
  rewrite (bind_ok _ _ _ _ _ (geti_run _ i _ Hi')). cbn [i_valid set_ilock]. by rewrite Hv.
Qed.

Lemma iunlock_run f i ip :
  icache f !! i = Some ip -> 1 <= i_ref ip -> i_lock ip = Some (me (st f)) ->
  iunlock (Some i) f = Ok (tt, holder None i f).
Proof.
  intros Hi Hr Hl. unfold iunlock, holdingsleep_inode. rewrite bind_bind.
  rewrite (bind_ok _ _ _ _ _ (geti_run f i ip Hi)), bind_bind, bind_gets, bind_ret.
  rewrite (bind_ok _ _ _ _ _ (geti_run f i ip Hi)).
  rewrite bool_decide_true by done. rewrite (proj2 (Z.ltb_ge _ _) Hr). done.
Qed.

(** Locked and unlocked again. *)
Lemma holder_back f i ip v l :
  icache f !! i = Some ip -> i_lock ip = None -> l = alter (set_ilock v) i (icache f) ->
  alter (set_ilock None) i l = icache f.
Proof.
  intros Hi Hl ->. apply list_eq. intros j. destruct (decide (i = j)) as [<-|Hne].
  - rewrite !list_lookup_alter_eq, Hi. cbn. f_equal. destruct ip. cbn in *. by subst.
  - by rewrite !list_lookup_alter_ne.
Qed.

(** ** A round of filewrite *)

Section Round.
Context `{Devices} (others : store -> store) (fuel : nat).

Lemma on_fs_run {A} (m : Fs A) s a f : m (fsy s) = Ok (a, f) -> on_fs m s = Ok (a, set_fsy f s).
Proof. intros Hm. unfold on_fs, zoom. by rewrite Hm. Qed.

(** The file [fd], open on the inode [ip] in the entry [i], between two transactions. *)
Record open_file (s : filesys) (fd : nat) (x : file) (i : nat) (ip : inode) : Prop := OpenFile {
  of_file : ftable s !! fd = Some x;
  of_type : f_type x = FD_INODE;
  of_entry : f_ip x = i;
  of_inode : icache (fsy s) !! i = Some ip;
  of_ref : 1 <= i_ref ip;
  of_free : i_lock ip = None;
  of_valid : i_valid ip = true;
  of_idle : idle (st (fsy s));
  of_disk : disk_file (lg (st (fsy s))) (memdisk (st (fsy s))) ip
}.

(** The bytes of the file on the disk. *)
Definition disk_byte (s : filesys) (ip : inode) (p : Z) : Z := byte_of (memdisk (st (fsy s))) ip p.

(** The end of a transaction on a locked file: [iunlock] and [end_op]. *)
Lemma close_round f s1 i ip f3 V Bs :
  idle (st f) -> memdisk s1 = memdisk (st f) -> outstanding (lg s1) = 1 ->
  log_start (lg s1) = log_start (lg (st f)) -> log_size (lg s1) = log_size (lg (st f)) ->
  stays s1 (st f3) -> icache f3 = alter (set_ilock (Some (me s1))) i (icache f) ->
  icache f !! i = Some ip -> 1 <= i_ref ip -> i_lock ip = None ->
  disk_file (lg (st f)) (memdisk (st f)) ip -> txn (st f3) V ∅ Bs ->
  file_ok V (set_ilock (Some (me s1)) ip) (i_size ip) ->
  file_sep (lg (st f3)) V (set_ilock (Some (me s1)) ip) (i_size ip) ->
  exists f4 f5, iunlock (Some i) f3 = Ok (tt, f4) /\ disk end_op f4 = Ok (tt, f5) /\
    idle (st f5) /\ icache f5 = icache f /\ log_size (lg (st f5)) = log_size (lg (st f)) /\
    disk_file (lg (st f5)) (memdisk (st f5)) ip /\
    forall q, 0 <= q < i_size ip -> byte_of (memdisk (st f5)) ip q = byte_of V ip q.
Proof.
  intros Hidle D1 O1 St1 Sz1 S3 Ic3 Hi Hr Hfree Hdf T3 Ok3 Sep3.
  assert (icache f3 !! i = Some (set_ilock (Some (me s1)) ip)) as Hi3 by (by rewrite Ic3, list_lookup_alter_eq, Hi).
  assert (i_lock (set_ilock (Some (me s1)) ip) = Some (me (st f3))) as Hl3 by (by rewrite (sy_me _ _ S3)).
  set (f4 := holder None i f3).
  assert (memdisk (st f4) = memdisk (st f)) as D4 by (etransitivity; [apply (sy_disk _ _ S3)|exact D1]).
  assert (log_start (lg (st f4)) = log_start (lg (st f))) as St4
    by (etransitivity; [apply (sy_start _ _ S3)|exact St1]).
  assert (log_size (lg (st f4)) = log_size (lg (st f))) as Sz4
    by (etransitivity; [apply (sy_size _ _ S3)|exact Sz1]).
  destruct (end_op_run (st f4) V Bs T3) as (s5 & ws & R5 & I5 & _ & St5 & Sz5 & Same & _).
  { etransitivity; [apply (sy_out _ _ S3)|exact O1]. }
  { eapply (super_ext (memdisk (st f))); [by rewrite D4|exact St4|exact Sz4|apply Hidle]. }
  { rewrite D4, St4. apply Hidle. }
  exists f4, (set_st s5 f4). split; [exact (iunlock_run f3 i _ Hi3 Hr Hl3)|].
  split; [unfold disk; by rewrite R5|]. split; [exact I5|].
  split; [by apply (holder_back f i ip (Some (me s1)))|]. split; [cbn; congruence|].
  assert (disk_file (lg (st f4)) V ip) as Hdf3.
  { apply (disk_file_lock _ _ _ (Some (me s1))). split; [exact Ok3|exact Sep3|].
    intros He Hin. apply (df_indirect _ _ _ Hdf He). unfold in_log in *. by rewrite St4, Sz4 in Hin. }
  assert (length (memdisk s5) = length V) as Hlen.
  { apply (same_home_length (lg (st f4))); [|apply T3|done].
    apply (layout_ext (lg s5)); [apply (l_dev _ _ (t_layout _ _ _ _ T3))|done|done|apply I5]. }
  split; [eapply disk_file_ext; [exact St5|exact Sz5|]; by apply (same_disk_file _ V)|].
  intros q Hq. exact (same_byte (lg (st f4)) V (memdisk s5) ip Same Hlen Hdf3 q Hq).
Qed.

Lemma on_disk_run {A} (m : St A) f a s : m (st f) = Ok (a, s) -> disk m f = Ok (a, set_st s f).
Proof. intros Hm. unfold disk. by rewrite Hm. Qed.

Lemma filewrite_round_run s fd x i ip addr n1 k :
  open_file s fd x i ip -> 0 <= f_off x -> 0 < n1 -> f_off x + n1 <= i_size ip -> 0 <= k ->
  k + n1 <= Z.of_nat (length addr) ->
  rounds (f_off x) n1 < log_size (lg (st (fsy s))) ->
  exists s', filewrite_round fuel others fd addr n1 k s = Ok (n1, s') /\
    open_file s' fd (set_f_off (f_off x + n1) x) i ip /\
    log_size (lg (st (fsy s'))) = log_size (lg (st (fsy s))) /\
    forall p, 0 <= p < i_size ip -> disk_byte s' ip p =
      overwritten addr k (f_off x) n1 (disk_byte s ip) p.
Proof.
  intros [Hfd Hty <- Hi Hr Hfree Hv Hidle Hdf] Hoff Hn1 Hle Hk Haddr Hroom.
  set (f := fsy s) in *. unfold filewrite_round.
  destruct (begin_op_run fuel others (st f) Hidle) as (s1 & R1 & T1 & D1 & W1 & O1 & St1 & Sz1).
  set (f1 := set_st s1 f).
  rewrite (bind_ok _ _ _ _ _ (on_fs_run _ s _ _ (on_disk_run _ f _ _ R1))).
  assert (getf fd (set_fsy f1 s) = Ok (x, set_fsy f1 s)) as Rf by (unfold getf; mrun; cbn; by rewrite Hfd).
  rewrite (bind_ok _ _ _ _ _ Rf).
  rewrite (bind_ok _ _ _ _ _ (on_fs_run _ (set_fsy f1 s) _ _ (ilock_run f1 (f_ip x) ip Hi Hr Hfree Hv))).
  set (f2 := holder (Some (me s1)) (f_ip x) f1). set (ip2 := set_ilock (Some (me s1)) ip).
  assert (icache f2 !! f_ip x = Some ip2) as Hi2 by (cbn; by rewrite list_lookup_alter_eq, Hi).
  assert (disk_file (lg s1) (memdisk (st f)) ip2) as Hdf2 by (apply disk_file_lock; by eapply disk_file_ext).
  assert (length (drop (Z.to_nat k) addr) = (length addr - Z.to_nat k)%nat) as Hdl by apply length_drop.
  destruct (writei_run (memdisk (st f)) [] (f_ip x) ip2 f2 (drop (Z.to_nat k) addr) (f_off x) n1 T1 Hi2
    (df_ok _ _ _ Hdf2) (df_sep _ _ _ Hdf2)) as (f3 & V3 & Bs3 & R3 & [Q3 T3 Ok3 Sep3 _ _ _ _ B3]);
    [done|lia|done|lia| |].
  { pose proof (l_size _ _ (i_layout _ Hidle)) as Hls. unfold log_room. cbn [length Nat.add].
    change (lg (st f2)) with (lg s1). rewrite Sz1, map_size_empty.
    pose proof (rounds_nonneg (f_off x) n1). unfold NBUF, LOGSIZE in *. lia. }
  rewrite (bind_ok _ _ _ _ _ (on_fs_run _ (set_fsy f2 (set_fsy f1 s)) _ _ R3)).
  rewrite (proj2 (Z.ltb_lt 0 n1) Hn1), bind_when_true. unfold updf. rewrite bind_modify.
  pose proof (fo_max _ _ _ (df_ok _ _ _ Hdf)) as Hmax. assert (MAXFILE * 512 = 71680) as HM by reflexivity.
  rewrite (w32_small (f_off x + n1)) by lia. set (s4 := set_ftable _ _).
  destruct (close_round f s1 (f_ip x) ip f3 V3 Bs3) as (f4 & f5 & R4 & R5 & I5 & Ic5 & Sz5 & Df5 & B5); try done.
  { exact (q_stays _ _ Q3). } { by rewrite (q_icache _ _ Q3). }
  rewrite (bind_ok _ _ _ _ _ (on_fs_run _ s4 _ _ R4)).
  rewrite (bind_ok _ _ _ _ _ (on_fs_run _ (set_fsy f4 s4) _ _ R5)).
  eexists. split; [reflexivity|]. split; [|split; [exact Sz5|]].
  - split; try done; cbn; [by rewrite list_lookup_alter_eq, Hfd|by rewrite Ic5].
  - intros q Hq. change (disk_byte _ ip q) with (byte_of (memdisk (st f5)) ip q).
    rewrite (B5 q Hq). change (byte_of V3 ip q) with (byte_of V3 ip2 q). rewrite B3 by done.
    unfold overwritten. destruct (Z.leb_spec (f_off x) q), (Z.ltb_spec q (f_off x + n1)); try done.
    rewrite lookup_drop. do 2 f_equal. lia.
Qed.

Lemma overwritten_S src k off m n old p :
  0 <= m -> 0 <= n -> overwritten src (k + m) (off + m) n (overwritten src k off m old) p =
    overwritten src k off (m + n) old p.
Proof.
  intros Hm Hn. unfold overwritten.
  destruct (Z.leb_spec (off + m) p), (Z.ltb_spec p (off + m + n)), (Z.leb_spec off p),
    (Z.ltb_spec p (off + m)), (Z.ltb_spec p (off + (m + n))); cbn [andb]; try done; try lia.
  do 3 f_equal. lia.
Qed.

Lemma overwritten_0 src k off old p : overwritten src k off 0 old p = old p.
Proof. unfold overwritten. destruct (Z.leb_spec off p), (Z.ltb_spec p (off + 0)); done || lia. Qed.

Lemma overwritten_ext src k off m old old' p :
  old p = old' p -> overwritten src k off m old p = overwritten src k off m old' p.
Proof. unfold overwritten. intros ->. done. Qed.

(** A transaction of [filewrite] changes at most four blocks, fewer than it reserves. *)
Lemma maxwrite_rounds off n : 0 <= off -> 0 < n <= MAXWRITE -> rounds off n <= 4.
Proof.
  intros Hoff Hn. assert (MAXWRITE = 1536) as HM by reflexivity. unfold rounds.
  destruct (Z.leb_spec n 0); [lia|]. Z.div_mod_to_equations. lia.
Qed.

Lemma filewrite_loop_run r s fd x i ip addr n k :
  open_file s fd x i ip -> 0 <= f_off x -> 0 <= k <= n -> f_off x + (n - k) <= i_size ip ->
  n <= Z.of_nat (length addr) -> 4 < log_size (lg (st (fsy s))) ->
  (Z.to_nat ((n - k + MAXWRITE - 1) / MAXWRITE) < r)%nat ->
  exists s', filewrite_loop fuel others r fd addr n k s = Ok (n, s') /\
    open_file s' fd (set_f_off (f_off x + (n - k)) x) i ip /\
    forall p, 0 <= p < i_size ip -> disk_byte s' ip p =
      overwritten addr k (f_off x) (n - k) (disk_byte s ip) p.
Proof.
  revert s x k. induction r as [|r IH]; intros s x k Ho Hoff Hk Hle Haddr Hlog Hr; [lia|].
  assert (MAXWRITE = 1536) as HM by reflexivity. cbn [filewrite_loop].
  destruct (Z.ltb_spec k n) as [Hlt|Hge].
  - set (n1 := if MAXWRITE <? n - k then MAXWRITE else n - k).
    assert (n1 = Z.min MAXWRITE (n - k)) as Hn1.
    { unfold n1. destruct (Z.ltb_spec MAXWRITE (n - k)); lia. }
    destruct (filewrite_round_run s fd x i ip addr n1 k Ho Hoff) as (s1 & R1 & Ho1 & Hl1 & Hb1);
      [lia..| |].
    { pose proof (maxwrite_rounds (f_off x) n1 Hoff). lia. }
    rewrite (bind_ok _ _ _ _ _ R1). rewrite (proj2 (Z.ltb_ge n1 0)), Z.eqb_refl by lia. cbn [negb].
    destruct (IH s1 (set_f_off (f_off x + n1) x) (k + n1) Ho1) as (s2 & R2 & Ho2 & Hb2);
      cbn [f_off set_f_off]; [lia..| |].
    { rewrite HM in *. Z.div_mod_to_equations. lia. }
    exists s2. split; [exact R2|]. split.
    + cbn [f_off set_f_off] in Ho2.
      by replace (f_off x + n1 + (n - (k + n1))) with (f_off x + (n - k)) in Ho2 by lia.
    + intros p Hp. rewrite Hb2 by done. cbn [f_off set_f_off].
      rewrite (overwritten_ext _ _ _ _ _ _ _ (Hb1 p Hp)).
      replace (n - k) with (n1 + (n - (k + n1))) by lia. apply overwritten_S; lia.
  - assert (k = n) as -> by lia. exists s. rewrite Z.eqb_refl. split; [done|]. split.
    + replace (f_off x + (n - n)) with (f_off x) by lia. by destruct x.
    + intros p _. by rewrite Z.sub_diag, overwritten_0.
Qed.

Lemma filewrite_run killed s fd x i ip addr n :
  open_file s fd x i ip -> f_writable x = true -> 0 <= f_off x -> 0 <= n ->
  f_off x + n <= i_size ip -> n <= Z.of_nat (length addr) -> 4 < log_size (lg (st (fsy s))) ->
  exists s', filewrite killed fuel others fd addr n s = Ok (Done n, s') /\
    open_file s' fd (set_f_off (f_off x + n) x) i ip /\
    forall p, 0 <= p < i_size ip -> disk_byte s' ip p =
      if (f_off x <=? p) && (p <? f_off x + n) then default 0 (addr !! Z.to_nat (p - f_off x))
      else disk_byte s ip p.
Proof.
  intros Ho Hw Hoff Hn Hle Haddr Hlog. unfold filewrite.
  assert (getf fd s = Ok (x, s)) as Rf by (unfold getf; mrun; by rewrite (of_file _ _ _ _ _ Ho)).
  rewrite (bind_ok _ _ _ _ _ Rf), Hw, (of_type _ _ _ _ _ Ho). cbn [negb].
  destruct (filewrite_loop_run (S (Z.to_nat ((n + MAXWRITE - 1) / MAXWRITE))) s fd x i ip addr n 0
    Ho Hoff) as (s' & R & Ho' & Hb); rewrite ?Z.sub_0_r; try lia.
  rewrite Z.sub_0_r in *. rewrite (bind_ok _ _ _ _ _ R). exists s'. split; [done|]. split; [done|].
  intros p Hp. rewrite Hb by done. unfold overwritten. by rewrite Z.add_0_l.
Qed.
End Round.

(** ** Reads and writes of open files *)

#[local] Opaque boot.

(** [filewrite] on an open file, of a range inside it: cut into transactions of at most
    1536 bytes, none of which fills its share of the log, it writes all the bytes, which
    are on the disk when it returns, moves the offset, and leaves the other bytes and the
    inode as they are. *)
Theorem filewrite_overwrites_the_file `{Devices} killed fuel others s fd x i ip addr n :
  open_file s fd x i ip -> f_writable x = true -> 0 <= f_off x -> 0 <= n ->
  f_off x + n <= i_size ip -> n <= Z.of_nat (length addr) -> 4 < log_size (lg (st (fsy s))) ->
  exists s', filewrite killed fuel others fd addr n s = Ok (Done n, s') /\
    open_file s' fd (set_f_off (f_off x + n) x) i ip /\
    forall p, 0 <= p < i_size ip -> disk_byte s' ip p =
      if (f_off x <=? p) && (p <? f_off x + n) then default 0 (addr !! Z.to_nat (p - f_off x))
      else disk_byte s ip p.
Proof. apply filewrite_run. Qed.

(** ** The table *)

Section Table.
Context `{Devices} `{Linker}.

Lemma getf_run s f x : ftable s !! f = Some x -> getf f s = Ok (x, s).
Proof. intros Hf. unfold getf. mrun. by rewrite Hf. Qed.

(** The first file without users. *)
Record first_free (l : list file) (f : nat) : Prop := FirstFree {
  ff_bound : (f < NFILE)%nat;
  ff_free : exists x, l !! f = Some x /\ f_ref x = 0;
  ff_used : forall g, (g < f)%nat -> exists x, l !! g = Some x /\ f_ref x <> 0
}.

Lemma filealloc_run s f :
  ftable_lock s = false -> first_free (ftable s) f ->
  filealloc s = Ok (Some f, set_ftable (alter (set_f_ref 1) f (ftable s)) s).
Proof.
  intros Hl [Hb (x & Hx & Hr) Hu]. unfold filealloc, acquire_ftable. rewrite bind_bind, bind_get, Hl, bind_put.
  set (s1 := set_ftable_lock true s).
  set (body := fun f => x ← getf f; if f_ref x =? 0 then updf f (set_f_ref 1) ;; mret (Some f) else mret None).
  replace (seq 0 NFILE) with (seq 0 f ++ seq f (NFILE - f)) by (rewrite <- seq_app; f_equal; lia).
  destruct (find_each_skip (fun l s' => s' = s1 /\ forall g, g ∈ l -> (g < f)%nat) body
    (seq 0 f) (seq f (NFILE - f)) s1) as (s2 & R & -> & _).
  - split; [done|]. intros g Hg%list_elem_of_In%in_seq. lia.
  - intros g l s' [-> Hg]. exists s1. split; [|split; [done|]; intros k Hk; apply Hg; by right].
    destruct (Hu g (Hg g ltac:(by left))) as (y & Hy & Hne). unfold body.
    rewrite (bind_ok _ _ _ _ _ (getf_run s1 g y Hy)). by rewrite (proj2 (Z.eqb_neq _ _) Hne).
  - replace (NFILE - f)%nat with (S (NFILE - f - 1)) in * by lia. cbn [seq] in *.
    rewrite (bind_ok _ _ _ (Some f) (set_ftable (alter (set_f_ref 1) f (ftable s)) s1)).
    + destruct s as [fs0 lk ft pp km]. cbn in *. subst lk. reflexivity.
    + rewrite R. apply find_each_here. unfold body.
      rewrite (bind_ok _ _ _ _ _ (getf_run s1 f x Hx)). by rewrite Hr.
Qed.

Lemma getf_alter s f g x : ftable s !! f = Some x ->
  getf f (set_ftable (alter g f (ftable s)) s) = Ok (g x, set_ftable (alter g f (ftable s)) s).
Proof. intros Hf. apply getf_run. cbn. by rewrite list_lookup_alter_eq, Hf. Qed.

(** The end of a pipe is closed. *)
Definition end_closed (writable : bool) (p : pipe) : pipe :=
  Pipe false (pdata p) (nread p) (nwrite p) (if writable then readopen p else false)
    (if writable then false else writeopen p) ((if writable then Nread else Nwrite) :: wakeups p).

Lemma pipeclose_run w p : plock p = false ->
  pipeclose w p = Ok (negb (readopen (end_closed w p)) && negb (writeopen (end_closed w p)), end_closed w p).
Proof. destruct p as [lk d nr nw ro wo wk]. cbn. intros ->. by destruct w, ro, wo. Qed.

(** The last user of the end of a pipe closes it. *)
Lemma fileclose_pipe_run fuel others s f x px :
  ftable_lock s = false -> ftable s !! f = Some x -> f_ref x = 1 -> f_type x = FD_PIPE ->
  pipes s !! f_pipe x = Some px -> plock px = false ->
  let px' := end_closed (f_writable x) px in
  fileclose fuel others f s =
    when (negb (readopen px') && negb (writeopen px'))
      (modify (fun s => set_pipes (delete (f_pipe x) (pipes s)) s) ;; on_mem (kfree (f_pipe x)))
      (set_pipes (<[f_pipe x := px']> (pipes s))
         (set_ftable (alter (set_f_type FD_NONE) f (alter (set_f_ref 0) f (alter (set_f_ref 0) f (ftable s)))) s)).
Proof.
  intros Hl Hf Hr Ht Hpx Hlk px'. unfold fileclose, acquire_ftable.
  rewrite bind_bind, bind_get, Hl, bind_put. set (s1 := set_ftable_lock true s).
  rewrite (bind_ok _ _ _ _ _ (getf_run s1 f x Hf)), Hr. change (1 <? 1) with false. cbv iota.
  change (i32 (1 - 1)) with 0. change (0 <? 0) with false. cbv iota. unfold updf.
  rewrite bind_modify. rewrite (bind_ok _ _ _ _ _ (getf_alter s1 f (set_f_ref 0) x Hf)).
  rewrite !bind_modify. cbn [f_type set_f_ref f_pipe f_writable]. rewrite Ht.
  unfold release_ftable. rewrite bind_bind, bind_get. cbn [ftable_lock set_ftable s1 set_ftable_lock].
  rewrite bind_put. unfold close_pipe.
  match goal with |- (on_pipe _ _ ≫= _) ?s2 = _ => set (s3 := s2) end.
  assert (on_pipe (f_pipe x) (pipeclose (f_writable x)) s3 =
    Ok (negb (readopen px') && negb (writeopen px'), set_pipes (<[f_pipe x := px']> (pipes s3)) s3)) as R.
  { unfold on_pipe. rewrite bind_get. change (pipes s3) with (pipes s). rewrite Hpx, bind_lift_Some.
    by rewrite pipeclose_run. }
  rewrite (bind_ok _ _ _ _ _ R). f_equal. unfold s3, s1. destruct s. cbn in *. by subst.
Qed.

Lemma first_free_lt l a b :
  first_free l a -> first_free (alter (set_f_ref 1) a l) b -> a <> b.
Proof.
  intros [_ (x & Hx & Hr) _] [_ (y & Hy & Hry) _] <-.
  rewrite list_lookup_alter_eq, Hx in Hy. apply (inj Some) in Hy as <-. done.
Qed.

Lemma alter_at (l : list file) i g x : l !! i = Some x -> alter g i l !! i = Some (g x).
Proof. intros Hi. by rewrite list_lookup_alter_eq, Hi. Qed.

(** A page of [kalloc] becomes a pipe with a file for each end. *)
Definition reading_end v (x : file) : file := File FD_PIPE 1 true false v (f_ip x) (f_off x).
Definition writing_end v (x : file) : file := File FD_PIPE 1 false true v (f_ip x) (f_off x).

Record piped (s s1 : filesys) (a b : nat) (v : Z) (l : list Z) : Prop := Piped {
  pd_free : free_list (kmem s1) l;
  pd_page : page_ok (pages (kmem s1)) v;
  pd_rest : fsy s1 = fsy s /\ ftable_lock s1 = false;
  pd_pipes : pipes s1 = <[v := new_pipe]> (pipes s);
  pd_read : exists x, ftable s !! a = Some x /\ ftable s1 !! a = Some (reading_end v x);
  pd_write : exists x, ftable s !! b = Some x /\ ftable s1 !! b = Some (writing_end v x);
  pd_others : forall g, g <> a -> g <> b -> ftable s1 !! g = ftable s !! g
}.

Lemma pipealloc_run fuel others s a b v l :
  ftable_lock s = false -> first_free (ftable s) a ->
  first_free (alter (set_f_ref 1) a (ftable s)) b -> free_list (kmem s) (v :: l) ->
  exists s1, pipealloc fuel others s = Ok (Some (a, b), s1) /\ piped s s1 a b v l.
Proof.
  intros Hl Ha Hb Hf. pose proof (first_free_lt _ _ _ Ha Hb) as Hab.
  destruct (ff_free _ _ Ha) as (xa & Hxa & _). destruct (ff_free _ _ Hb) as (xb & Hxb & _).
  rewrite list_lookup_alter_ne in Hxb by done.
  destruct (kalloc_run (kmem s) v l Hf) as (n & Rk & Hf1).
  destruct (proj1 (Forall_cons _ _ _) (fl_pages _ _ Hf)) as [Hv _].
  assert (v <> 0) as Hv0 by (destruct (po_kpage _ _ Hv); unfold KERNBASE in *; lia).
  unfold pipealloc. rewrite (bind_ok _ _ _ _ _ (filealloc_run s a Hl Ha)).
  rewrite (bind_ok _ _ _ _ _ (filealloc_run (set_ftable (alter (set_f_ref 1) a (ftable s)) s) b Hl Hb)).
  set (s2 := set_ftable _ _).
  assert (on_mem kalloc s2 = Ok (v, set_kmem (set_freelist n (kmem s)) s2)) as R.
  { unfold on_mem, zoom. change (kmem s2) with (kmem s). by rewrite Rk. }
  rewrite (bind_ok _ _ _ _ _ R), (proj2 (Z.eqb_neq _ _) Hv0), bind_modify. unfold updf.
  rewrite !bind_modify. eexists. split; [reflexivity|]. split; cbn.
  - done.
  - exact Hv.
  - done.
  - done.
  - exists xa. split; [done|]. rewrite list_lookup_alter_ne by done.
    rewrite list_lookup_alter_eq, list_lookup_alter_ne by done. by rewrite list_lookup_alter_eq, Hxa.
  - exists xb. split; [done|]. rewrite list_lookup_alter_eq, list_lookup_alter_ne by done.
    rewrite list_lookup_alter_eq, list_lookup_alter_ne by done. by rewrite Hxb.
  - intros g Hga Hgb. by rewrite !list_lookup_alter_ne by done.
Qed.

(** [fileclose] of both files of a new pipe. *)
Lemma close_both_run fuel others s s1 a b v l :
  piped s s1 a b v l -> a <> b -> v ∉ l -> pipes s !! v = None ->
  exists s2, (fileclose fuel others a ;; fileclose fuel others b) s1 = Ok (tt, s2) /\
    free_list (kmem s2) (v :: l) /\ pipes s2 = pipes s /\ fsy s2 = fsy s /\ ftable_lock s2 = false /\
    (forall g, g <> a -> g <> b -> ftable s2 !! g = ftable s !! g) /\
    (forall g, g = a \/ g = b -> exists x, ftable s2 !! g = Some x /\ f_ref x = 0 /\ f_type x = FD_NONE).
Proof.
  intros [Hf1 Hv [He1 Hl1] Hp1 Hra Hwb Ho] Hab Hvl Hnone.
  destruct Hra as (xa & _ & Hxa). destruct Hwb as (xb & _ & Hxb).
  pose proof (fileclose_pipe_run fuel others s1 a _ new_pipe Hl1 Hxa eq_refl eq_refl) as Ra.
  cbn zeta in Ra. rewrite Hp1, lookup_insert_eq in Ra. specialize (Ra eq_refl eq_refl).
  cbn [f_pipe f_writable reading_end] in Ra. cbn [negb andb readopen writeopen end_closed new_pipe pipe_init] in Ra.
  rewrite insert_insert_eq in Ra.
  match type of Ra with _ = when false _ ?t => set (s2 := t) in Ra end.
  assert (ftable s2 !! b = Some (writing_end v xb)) as Hxb2.
  { cbn. by rewrite !list_lookup_alter_ne by done. }
  pose proof (fileclose_pipe_run fuel others s2 b _ (end_closed false new_pipe) Hl1 Hxb2 eq_refl eq_refl) as Rb.
  cbn zeta in Rb. cbn [pipes s2 set_pipes] in Rb. rewrite lookup_insert_eq in Rb. specialize (Rb eq_refl eq_refl).
  cbn [f_pipe f_writable writing_end] in Rb. cbn [negb andb readopen writeopen end_closed new_pipe pipe_init] in Rb.
  unfold when in Ra, Rb. rewrite bind_modify in Rb.
  destruct (kfree_run (kmem s1) v l Hf1 Hv Hvl) as (d & _ & Rf & Hf2).
  set (m := set_freelist v _) in Rf, Hf2.
  match type of Rb with _ = on_mem _ ?t => set (s3 := t) in Rb end.
  assert (on_mem (kfree v) s3 = Ok (tt, set_kmem m s3)) as Rm.
  { unfold on_mem, zoom. change (kmem s3) with (kmem s1). by rewrite Rf. }
  rewrite Rm in Rb. exists (set_kmem m s3).
  split; [by rewrite (bind_ok _ _ _ _ _ Ra)|]. split; [exact Hf2|]. cbn.
  split; [by rewrite insert_insert_eq, delete_insert_id|]. split; [done|]. split; [done|]. split.
  - intros g Hga Hgb. rewrite !list_lookup_alter_ne by done. by apply Ho.
  - intros g [->| ->].
    + rewrite 3!(list_lookup_alter_ne _ _ b a) by done.
      rewrite (alter_at _ a _ _ (alter_at _ a _ _ (alter_at _ a _ _ Hxa))). by eexists.
    + rewrite (alter_at _ b _ _ (alter_at _ b _ _ (alter_at _ b _ _ Hxb2))). by eexists.
Qed.

Lemma free_list_head s v l : free_list s (v :: l) -> v ∉ l.
Proof. by intros [_ _ [? _]%NoDup_cons _]. Qed.

(** [pipealloc] followed by [fileclose] of both files gives back the page of the pipe and
    the two entries of the table; other files and pipes do not change. *)
Theorem closing_both_ends_frees_the_pipe fuel others s a b v l :
  ftable_lock s = false -> first_free (ftable s) a ->
  first_free (alter (set_f_ref 1) a (ftable s)) b ->
  free_list (kmem s) (v :: l) -> pipes s !! v = None ->
  exists s1 s2, pipealloc fuel others s = Ok (Some (a, b), s1) /\ free_list (kmem s1) l /\
    (fileclose fuel others a ;; fileclose fuel others b) s1 = Ok (tt, s2) /\
    free_list (kmem s2) (v :: l) /\ pipes s2 = pipes s /\ fsy s2 = fsy s /\
    (forall g, g <> a -> g <> b -> ftable s2 !! g = ftable s !! g) /\
    (forall g, g = a \/ g = b -> exists x, ftable s2 !! g = Some x /\ f_ref x = 0 /\ f_type x = FD_NONE).
Proof.
  intros Hl Ha Hb Hf Hnone.
  destruct (pipealloc_run fuel others s a b v l Hl Ha Hb Hf) as (s1 & R & Hp).
  destruct (close_both_run fuel others s s1 a b v l Hp) as (s2 & Rc & Hs2);
    [by eapply first_free_lt|by eapply free_list_head|done|].
  exists s1, s2. split; [done|]. split; [apply Hp|]. destruct Hs2 as (? & ? & ? & _ & ?). done.
Qed.
End Table.

(** ** Concrete runs *)

#[local] Instance no_devices : Devices := {| dev_read _ := None; dev_write _ := None |}.

(** The file of the small disk, open for reading and writing at its second byte. *)
Definition open_inode : inode := set_ilock None small_file.
Definition open_entry : file := File FD_INODE 1 true true 0 0 1.
Definition small_files (s : store) : filesys :=
  Filesys (small_fs s [open_inode]) false [open_entry] ∅ small_machine.

Lemma small_open s hd : idle s -> memdisk s = <[2%nat := hd]> (small_disk []) ->
  log_start (lg s) = 2%nat -> log_size (lg s) = 30 ->
  open_file (small_files s) 0 open_entry 0 open_inode.
Proof.
  intros Hi Hm Hst Hsz. split; try done. cbn. rewrite Hm. split.
  - destruct (small_file_ok hd). by split.
  - destruct (small_file_sep s hd Hst Hsz). by split.
  - intros Hlt. vm_compute in Hlt. discriminate.
Qed.

Lemma filewrite_overwrites_the_file_witness :
  exists s, open_file s 0 open_entry 0 open_inode /\ exists s',
    filewrite false 0 id 0 [97; 98; 99] 3 s = Ok (Done 3, s') /\
    open_file s' 0 (set_f_off (1 + 3) open_entry) 0 open_inode /\
    forall p, 0 <= p < 5 -> disk_byte s' open_inode p =
      if (1 <=? p) && (p <? 1 + 3) then default 0 ([97; 98; 99] !! Z.to_nat (p - 1))
      else disk_byte s open_inode p.
Proof.
  destruct (small_idle 7) as (s & hd & _ & Hi & Hm & Hst & Hsz).
  exists (small_files s). split; [by eapply small_open|].
  apply (filewrite_overwrites_the_file false 0 id (small_files s) 0 open_entry 0 open_inode
    [97; 98; 99] 3); try done.
  - by eapply small_open.
  - cbn. rewrite Hsz. lia.
Defined.

(** A table with free entries, and a page to allocate. *)
Definition idle_file : file := File FD_NONE 0 false false 0 0 0.

Lemma small_table :
  first_free (open_entry :: replicate 99 idle_file) 1 /\
  first_free (alter (set_f_ref 1) 1%nat (open_entry :: replicate 99 idle_file)) 2.
Proof.
  split; split; try (unfold NFILE; lia); try (by eexists).
  - intros g Hg. assert (g = O) as -> by lia. by eexists.
  - intros [|[|g]] Hg; [by eexists..|lia].
Qed.

Lemma small_pipe_page : exists s, free_list s [KERNBASE + 0x5000].
Proof.
  assert (page_ok (zero_pages 16) (KERNBASE + 0x5000)) as Hok.
  { apply small_page_ok; vm_compute; by split || done. }
  destruct (kfree_run small_machine (KERNBASE + 0x5000) []) as (d & _ & _ & Hf).
  - by split; [|constructor|constructor|].
  - exact Hok.
  - apply not_elem_of_nil.
  - by eexists.
Qed.

Lemma closing_both_ends_frees_the_pipe_witness :
  exists s, free_list (kmem s) [KERNBASE + 0x5000] /\
    exists s1 s2, pipealloc 0 id s = Ok (Some (1%nat, 2%nat), s1) /\ free_list (kmem s1) [] /\
    (fileclose 0 id 1 ;; fileclose 0 id 2) s1 = Ok (tt, s2) /\
    free_list (kmem s2) [KERNBASE + 0x5000] /\ pipes s2 = pipes s /\ fsy s2 = fsy s /\
    (forall g, g <> 1%nat -> g <> 2%nat -> ftable s2 !! g = ftable s !! g) /\
    (forall g, g = 1%nat \/ g = 2%nat ->
       exists x, ftable s2 !! g = Some x /\ f_ref x = 0 /\ f_type x = FD_NONE).
Proof.
  destruct small_pipe_page as (m & Hf). destruct small_table as [H1 H2].
  exists (Filesys (small_fs (power_on 7 []) []) false (open_entry :: replicate 99 idle_file) ∅ m).
  split; [exact Hf|].
  by apply (closing_both_ends_frees_the_pipe 0 id _ 1 2 (KERNBASE + 0x5000) []).
Defined.
