(* ===== verification/Grep.v ===== *)
(** * The search of lines

    [lab-2/grep.c], with [strchr] of [lab-2/ulib.c].  A string is the list of its bytes
    before the NUL; the system call [read] is an operation of the class [Reader]. *)

From S2P Require Import Prelude.

Definition STAR : Z := 42.
Definition CARET : Z := 94.
Definition DOLLAR : Z := 36.
Definition DOT : Z := 46.
Definition NEWLINE : Z := 10.

(** ** Matching *)

(** [matchstar], with the [matchhere] of the pattern behind the star. *)
Fixpoint matchstar (here : list Z -> bool) (c : Z) (text : list Z) : bool :=
  here text ||
  match text with
  | [] => false
  | t :: text' => ((t =? c) || (c =? DOT)) && matchstar here c text'
  end.

Fixpoint matchhere (re text : list Z) : bool :=
  match re with
  | [] => true
  | c :: re1 =>
      let rest :=
        if (c =? DOLLAR) && bool_decide (re1 = []) then bool_decide (text = [])
        else
          match text with
          | [] => false
          | t :: text' => ((c =? DOT) || (c =? t)) && matchhere re1 text'
          end in
      match re1 with
      | c1 :: re2 => if c1 =? STAR then matchstar (matchhere re2) c text else rest
      | [] => rest
      end
  end.

(** The loop of [match]. *)
Fixpoint match_loop (re text : list Z) : bool :=
  matchhere re text ||
  match text with [] => false | _ :: text' => match_loop re text' end.

Definition match_ (re text : list Z) : bool :=
  match re with
  | c :: re' => if c =? CARET then matchhere re' text else match_loop re text
  | [] => match_loop re text
  end.

(** ** Lines *)

(** [strchr]: the offset of the character; the list ends at a NUL in memory. *)
Fixpoint strchr (s : list Z) (c : Z) : option nat :=
  match s with
  | [] => None
  | x :: s' => if x =? 0 then None else if x =? c then Some O else S <$> strchr s' c
  end.

(** The inner loop of [grep], on the bytes from [p] to [buf + m]: what is written, and the
    bytes that are left at [p] when it ends. *)
Fixpoint line_loop (fuel : nat) (pattern p : list Z) : res (list Z * list Z) :=
  match fuel with
  | O => Diverge
  | S fuel' =>
      match strchr p NEWLINE with
      | None => mret ([], p)
      | Some q =>
          let out := if match_ pattern (take q p) then take (S q) p else [] in
          '(out', rest) ← line_loop fuel' pattern (drop (S q) p);
          mret (out ++ out', rest)
      end
  end.

(** A file descriptor that is read. *)
Class Reader (I : Type) := read_bytes : nat -> I -> list Z * I.

Definition BUFSIZE : nat := 1024.

(** The outer loop of [grep], with the first [m] bytes of [buf]. *)
Fixpoint grep_loop {I} `{Reader I} (fuel : nat) (pattern buf : list Z) (fd : I) : res (list Z * I) :=
  match fuel with
  | O => Diverge
  | S fuel' =>
      let (bytes, fd1) := read_bytes (BUFSIZE - length buf - 1) fd in
      match bytes with
      | [] => mret ([], fd1)
      | _ :: _ =>
          let buf1 := buf ++ bytes in
          '(out, rest) ← line_loop (S (length buf1)) pattern buf1;
          let left := if bool_decide (length rest = length buf1) then [] else rest in
          '(out', fd2) ← grep_loop fuel' pattern left fd1;
          mret (out ++ out', fd2)
      end
  end.

Definition grep {I} `{Reader I} (fuel : nat) (pattern : list Z) (fd : I) : res (list Z * I) :=
  grep_loop fuel pattern [] fd.

(** A regular file: its bytes from the offset on. *)
#[export] Instance file_reader : Reader (list Z) := fun n s => (take n s, drop n s).

(** ** What a pattern means *)

Inductive item := One (c : Z) | Many (c : Z).

(** The items of a pattern, and whether it ends in [$]. *)
Fixpoint items (re : list Z) : list item * bool :=
  match re with
  | [] => ([], false)
  | c :: re1 =>
      let rest :=
        if (c =? DOLLAR) && bool_decide (re1 = []) then ([], true)
        else let (l, e) := items re1 in (One c :: l, e) in
      match re1 with
      | c1 :: re2 => if c1 =? STAR then let (l, e) := items re2 in (Many c :: l, e) else rest
      | [] => rest
      end
  end.

Definition takes (c t : Z) : Prop := c = DOT \/ c = t.

Inductive denotes : list item -> list Z -> Prop :=
  | denotes_nil : denotes [] []
  | denotes_one c t l s : takes c t -> denotes l s -> denotes (One c :: l) (t :: s)
  | denotes_none c l s : denotes l s -> denotes (Many c :: l) s
  | denotes_more c t l s : takes c t -> denotes (Many c :: l) s -> denotes (Many c :: l) (t :: s).

(** The items match the beginning of the text, or the whole text before [$]. *)
Definition here_ok (p : list item * bool) (text : list Z) : Prop :=
  exists s post, text = s ++ post /\ denotes p.1 s /\ (p.2 = true -> post = []).

Lemma here_one c l e text :
  here_ok (One c :: l, e) text <->
  exists t text', text = t :: text' /\ takes c t /\ here_ok (l, e) text'.
Proof.
  split.
  - intros (s & post & -> & Hd & He). inversion Hd as [|? t ? s' Ht Hs| |]; subst.
    exists t, (s' ++ post). split; [done|]. split; [done|]. by exists s', post.
  - intros (t & text' & -> & Ht & (s & post & -> & Hd & He)).
    exists (t :: s), post. split; [done|]. split; [by constructor|done].
Qed.

Lemma here_many c l e text :
  here_ok (Many c :: l, e) text <->
  here_ok (l, e) text \/
  exists t text', text = t :: text' /\ takes c t /\ here_ok (Many c :: l, e) text'.
Proof.
  split.
  - intros (s & post & -> & Hd & He). inversion Hd as [| |? ? ? Hs|? t ? s' Ht Hs]; subst.
    + left. by exists s, post.
    + right. exists t, (s' ++ post). split; [done|]. split; [done|]. by exists s', post.
  - intros [(s & post & -> & Hd & He)|(t & text' & -> & Ht & (s & post & -> & Hd & He))].
    + exists s, post. split; [done|]. split; [by constructor|done].
    + exists (t :: s), post. split; [done|]. split; [by apply denotes_more|done].
Qed.

Lemma here_nil text : here_ok ([], false) text.
Proof. exists [], text. split; [done|]. by split; [constructor|]. Qed.

Lemma here_end text : here_ok ([], true) text <-> text = [].
Proof.
  split.
  - intros (s & post & -> & Hd & He). cbn in *. inversion Hd. by rewrite He.
  - intros ->. exists [], []. split; [done|]. by split; [constructor|].
Qed.

Lemma takes_spec c t : (c =? DOT) || (c =? t) = true <-> takes c t.
Proof. unfold takes. rewrite orb_true_iff, !Z.eqb_eq. done. Qed.

Lemma matchstar_spec here l e c text :
  (forall s, here s = true <-> here_ok (l, e) s) ->
  matchstar here c text = true <-> here_ok (Many c :: l, e) text.
Proof.
  intros Hh. induction text as [|t text IH]; cbn [matchstar]; rewrite here_many, orb_true_iff, Hh.
  - split; [intros [?|?]; [by left|done]|]. intros [?|(t & s & ? & _)]; [by left|done].
  - rewrite andb_true_iff, IH, (orb_comm (t =? c)), (Z.eqb_sym t c), takes_spec.
    split; [intros [?|[? ?]]|intros [?|(t' & s & [= <- <-] & ? & ?)]]; [by left|right|by left|by right].
    by exists t, text.
Qed.

Lemma matchhere_rest c re1 text :
  (forall s, matchhere re1 s = true <-> here_ok (items re1) s) ->
  (if (c =? DOLLAR) && bool_decide (re1 = []) then bool_decide (text = [])
   else match text with
        | [] => false
        | t :: text' => ((c =? DOT) || (c =? t)) && matchhere re1 text'
        end) = true <->
  here_ok (if (c =? DOLLAR) && bool_decide (re1 = []) then ([], true)
           else let (l, e) := items re1 in (One c :: l, e)) text.
Proof.
  intros IH. destruct ((c =? DOLLAR) && _).
  - by rewrite bool_decide_eq_true, here_end.
  - destruct (items re1) as [l e]. rewrite here_one. destruct text as [|t text].
    + split; [done|]. by intros (? & ? & ? & _).
    + rewrite andb_true_iff, IH, takes_spec. split; [intros [? ?]; by exists t, text|].
      by intros (? & ? & [= -> ->] & ? & ?).
Qed.

Lemma matchhere_spec re text : matchhere re text = true <-> here_ok (items re) text.
Proof.
  revert text. induction re as [re IH] using (well_founded_induction (Wf_nat.well_founded_ltof _ (@length Z))).
  unfold Wf_nat.ltof in IH. intros text.
  destruct re as [|c [|c1 re2]]; cbn [matchhere items].
  - split; [intros _; apply here_nil|done].
  - apply matchhere_rest. intros s. split; [intros _; apply here_nil|done].
  - destruct (c1 =? STAR).
    + destruct (items re2) as [l e] eqn:Hi. apply matchstar_spec. intros s.
      rewrite <- Hi. apply IH. cbn. lia.
    + apply (matchhere_rest c (c1 :: re2)). intros s. apply IH. cbn. lia.
Qed.

(** The text contains the pattern, at its beginning behind [^]. *)
Definition contains (re text : list Z) : Prop :=
  match re with
  | c :: re' => if c =? CARET then here_ok (items re') text
                else exists pre post, text = pre ++ post /\ here_ok (items re) post
  | [] => True
  end.

Lemma match_loop_spec re text :
  match_loop re text = true <-> exists pre post, text = pre ++ post /\ here_ok (items re) post.
Proof.
  induction text as [|t text IH]; cbn [match_loop]; rewrite orb_true_iff, matchhere_spec.
  - split; [intros [?|?]; [by exists [], []|done]|]. intros ([|] & post & [= ->] & ?). by left.
  - rewrite IH. split.
    + intros [?|(pre & post & -> & ?)]; [by exists [], (t :: text)|by exists (t :: pre), post].
    + intros ([|t' pre] & post & He & Hp).
      * left. by rewrite He.
      * right. injection He as <- ->. by exists pre, post.
Qed.

(** C11. [match] is true just when the text contains what the pattern denotes: [.] stands for
    any byte and [*] for any number of what is before it; a [$] at the end and a [^] at
    the beginning tie the match to the end and the beginning of the text. *)
Theorem match_finds_the_pattern re text : match_ re text = true <-> contains re text.
Proof.
  unfold match_, contains. destruct re as [|c re].
  - split; [done|intros _]. apply match_loop_spec. exists [], text. split; [done|apply here_nil].
  - destruct (c =? CARET); [apply matchhere_spec|apply match_loop_spec].
Qed.

(** ** What [grep] prints *)

Definition unlines (ls : list (list Z)) : list Z := concat (map (fun l => l ++ [NEWLINE]) ls).
Definition is_line (l : list Z) : Prop := (NEWLINE ∉ l) /\ (0 ∉ l).

#[export] Instance is_line_dec l : Decision (is_line l).
Proof. unfold is_line. apply _. Defined.

Lemma strchr_none s : is_line s -> strchr s NEWLINE = None.
Proof.
  induction s as [|x s IH]; [done|]. intros [Hn Hz].
  apply not_elem_of_cons in Hn as [? Hn], Hz as [? Hz]. cbn [strchr].
  rewrite !(proj2 (Z.eqb_neq _ _)) by done. by rewrite IH.
Qed.

Lemma strchr_line l s : is_line l -> strchr (l ++ NEWLINE :: s) NEWLINE = Some (length l).
Proof.
  induction l as [|x l IH]; [done|]. intros [Hn Hz].
  apply not_elem_of_cons in Hn as [? Hn], Hz as [? Hz]. cbn [strchr app].
  rewrite !(proj2 (Z.eqb_neq _ _)) by done. by rewrite IH.
Qed.

Lemma unlines_cons l ls s : unlines (l :: ls) ++ s = l ++ NEWLINE :: (unlines ls ++ s).
Proof. unfold unlines. cbn. by rewrite <- !app_assoc. Qed.

Lemma line_loop_run fuel pat ls rest :
  Forall is_line ls -> is_line rest -> (length ls < fuel)%nat ->
  line_loop fuel pat (unlines ls ++ rest) = Ok (unlines (filter (fun l => match_ pat l = true) ls), rest).
Proof.
  revert ls. induction fuel as [|fuel IH]; intros ls Hls Hr Hf; [lia|]. cbn [line_loop].
  destruct ls as [|l ls].
  - cbn [app unlines concat map]. by rewrite strchr_none.
  - apply Forall_cons in Hls as [Hl Hls]. rewrite unlines_cons, strchr_line by done.
    rewrite take_app_length. cbn [length] in Hf.
    replace (drop (S (length l)) _) with (unlines ls ++ rest)
      by (rewrite drop_app_ge by lia; by replace (S (length l) - length l)%nat with 1%nat by lia).
    rewrite IH by (done || lia). cbn [mbind res_bind]. rewrite filter_cons.
    destruct (match_ pat l); [rewrite decide_True by done|by rewrite decide_False].
    rewrite take_app_ge by lia.
    replace (S (length l) - length l)%nat with 1%nat by lia. done.
Qed.

Lemma app_inj_cut (c : Z) l l' s s' :
  c ∉ l -> c ∉ l' -> l ++ c :: s = l' ++ c :: s' -> l = l' /\ s = s'.
Proof.
  revert l'. induction l as [|x l IH]; intros [|x' l'] Hl Hl' He; cbn in He.
  - by injection He.
  - injection He as -> _. exfalso. apply Hl'. by left.
  - injection He as -> _. exfalso. apply Hl. by left.
  - injection He as -> He. apply not_elem_of_cons in Hl as [_ Hl], Hl' as [_ Hl'].
    by destruct (IH l' Hl Hl' He) as [-> ->].
Qed.

(** The same bytes cut at the newlines. *)
Lemma unlines_split ls lines rest u tail :
  Forall is_line ls -> Forall is_line lines -> is_line tail ->
  unlines lines ++ tail = (unlines ls ++ rest) ++ u ->
  exists lines', lines = ls ++ lines' /\ unlines lines' ++ tail = rest ++ u.
Proof.
  revert lines. induction ls as [|l ls IH]; intros lines Hls Hlines Ht He.
  { by exists lines. }
  apply Forall_cons in Hls as [[Hl _] Hls]. rewrite unlines_cons, <- app_assoc in He.
  destruct lines as [|l' lines].
  - exfalso. apply (proj1 Ht). cbn in He. rewrite He, elem_of_app. right. by left.
  - apply Forall_cons in Hlines as [[Hl' _] Hlines]. rewrite unlines_cons in He.
    apply app_inj_cut in He as [-> He]; [|done..].
    destruct (IH lines Hls Hlines Ht He) as (lines' & -> & Hu). by exists lines'.
Qed.

Lemma newline_in_line s pre post : is_line s -> s <> pre ++ NEWLINE :: post.
Proof. intros [Hs _] ->. apply Hs, elem_of_app. right. by left. Qed.

Lemma zero_not_in_lines lines tail : Forall is_line lines -> is_line tail -> 0 ∉ unlines lines ++ tail.
Proof.
  intros Hl Ht. induction Hl as [|l lines [_ Hl] _ IH]; [apply Ht|].
  rewrite unlines_cons, elem_of_app, elem_of_cons. by intros [?|[?|?]].
Qed.

Lemma is_line_nil : is_line [].
Proof. split; apply not_elem_of_nil. Qed.

(** Any bytes but zeros are lines and an unfinished line. *)
Lemma lines_of u : 0 ∉ u -> exists ls rest, u = unlines ls ++ rest /\ Forall is_line ls /\ is_line rest.
Proof.
  induction u as [|x u IH]; intros Hz.
  { exists [], []. split; [done|]. split; [constructor|apply is_line_nil]. }
  apply not_elem_of_cons in Hz as [Hx Hz]. destruct (IH Hz) as (ls & rest & -> & Hls & Hr).
  destruct (decide (x = NEWLINE)) as [->|Hne].
  { exists ([] :: ls), rest. split; [by rewrite unlines_cons|]. split; [|done].
    constructor; [apply is_line_nil|done]. }
  assert (forall l, is_line l -> is_line (x :: l)) as Hcons.
  { intros l [? ?]. split; by apply not_elem_of_cons. }
  destruct ls as [|l ls].
  - exists [], (x :: rest). split; [done|]. split; [constructor|by apply Hcons].
  - apply Forall_cons in Hls as [Hl Hls]. exists ((x :: l) :: ls), rest.
    split; [by rewrite !unlines_cons|]. split; [constructor; auto|done].
Qed.

Lemma is_line_app_r a b : is_line (a ++ b) -> is_line b.
Proof. intros [H1 H2]. rewrite !elem_of_app in H1, H2. split; tauto. Qed.

Lemma unlines_app a b : unlines (a ++ b) = unlines a ++ unlines b.
Proof. unfold unlines. by rewrite map_app, concat_app. Qed.

(** A full buffer has a whole line, when the lines are short enough. *)
Lemma full_buffer lines tail rest s :
  unlines lines ++ tail = rest ++ s -> is_line rest ->
  Forall (fun l => (length l < BUFSIZE - 1)%nat) lines ->
  ((0 < length s)%nat -> length rest = (BUFSIZE - 1)%nat) -> lines = [].
Proof.
  intros He Hr Hlen Hfull. destruct lines as [|l lines]; [done|]. exfalso.
  apply Forall_cons in Hlen as [Hl _]. rewrite unlines_cons in He.
  assert (length rest <= length l)%nat as Hle.
  { destruct (decide (length rest <= length l)%nat); [done|exfalso]. apply (proj1 Hr).
    assert (rest !! length l = Some NEWLINE) as Hn; [|by eapply list_elem_of_lookup_2].
    rewrite <- (lookup_app_l rest s), <- He by lia. rewrite lookup_app_r, Nat.sub_diag by lia. done. }
  assert (length s = 0)%nat as Hs by (destruct (length s); [done|]; rewrite Hfull in Hle; lia).
  apply nil_length_inv in Hs as ->. rewrite app_nil_r in He. symmetry in He.
  by apply newline_in_line in He.
Qed.

Lemma read_file n (s : list Z) : read_bytes n s = (take n s, drop n s).
Proof. done. Qed.

(** The buffer holds the beginning [buf] of what is left, which has no whole line. *)
Lemma grep_loop_run fuel pat lines tail buf s :
  Forall is_line lines -> Forall (fun l => (length l < BUFSIZE - 1)%nat) lines -> is_line tail ->
  unlines lines ++ tail = buf ++ s -> is_line buf -> (length buf < BUFSIZE - 1)%nat ->
  (length s < fuel)%nat ->
  grep_loop fuel pat buf s = Ok (unlines (filter (fun l => match_ pat l = true) lines), []).
Proof.
  revert lines tail buf s. induction fuel as [|fuel IH]; intros lines tail buf s Hl Hlen Ht He Hb Hbl Hf; [lia|].
  cbn [grep_loop]. rewrite read_file.
  set (room := (BUFSIZE - length buf - 1)%nat). assert (0 < room)%nat by (unfold room; lia).
  destruct (take room s) as [|x bytes] eqn:Htk.
  - assert (s = []) as ->.
    { apply nil_length_inv. apply (f_equal length) in Htk. rewrite length_take in Htk. cbn [length] in Htk. lia. }
    rewrite app_nil_r in He. destruct lines as [|l lines]; [by rewrite drop_nil|].
    rewrite unlines_cons in He. symmetry in He. by apply newline_in_line in He.
  - rewrite <- Htk. set (s' := drop room s). set (buf1 := buf ++ take room s).
    assert (length (take room s) <> 0%nat) as Hpos by (by rewrite Htk).
    rewrite length_take in Hpos.
    assert (unlines lines ++ tail = buf1 ++ s') as He1.
    { unfold buf1, s'. by rewrite <- app_assoc, take_drop. }
    destruct (lines_of buf1) as (ls & rest & Hb1 & Hls & Hrest).
    { intros Hin. apply (zero_not_in_lines lines tail Hl Ht). rewrite He1, elem_of_app. by left. }
    assert (length ls <= length buf1)%nat as Hfls.
    { rewrite Hb1. clear. rewrite length_app. induction ls as [|l ls IH]; [cbn; lia|].
      unfold unlines in *. cbn. rewrite !length_app. cbn. lia. }
    rewrite Hb1 in He1 |- *. rewrite <- Hb1 at 1. rewrite line_loop_run by (done || lia).
    destruct (unlines_split ls lines rest s' tail Hls Hl Ht He1) as (lines' & -> & He').
    apply Forall_app in Hl as [_ Hl], Hlen as [_ Hlen].
    cbn [mbind res_bind]. rewrite filter_app.
    assert (length buf1 = length buf + room `min` length s)%nat as Hlb.
    { unfold buf1. by rewrite length_app, length_take. }
    assert (length s' < fuel)%nat as Hfs by (unfold s'; rewrite length_drop; lia).
    match goal with |- context [grep_loop fuel pat ?b s'] => set (left := b) end.
    assert (grep_loop fuel pat left s' =
      Ok (unlines (filter (fun l => match_ pat l = true) lines'), [])) as ->; [|by rewrite unlines_app].
    unfold left. clear left.
    case_bool_decide as Hsame.
    + assert (lines' = []) as ->.
      { apply (full_buffer lines' tail rest s' He' Hrest Hlen). intros Hs'.
        rewrite Hsame, <- Hb1, Hlb. unfold s' in Hs'. rewrite length_drop in Hs'. unfold room. lia. }
      apply (IH [] s'); try done; [|apply is_line_nil|cbn; lia].
      apply (is_line_app_r rest). by rewrite <- He'.
    + apply (IH lines' tail); try done.
      rewrite <- Hb1, Hlb in Hsame. rewrite Hb1, length_app in Hlb. unfold room in *. lia.
Qed.

(** C12. [grep] ends and prints just the lines that match, in order, with their newlines, when
    every line fits into its buffer; what is behind the last newline is not searched. *)
Theorem grep_prints_the_matching_lines pat lines tail fuel :
  Forall is_line lines -> Forall (fun l => (length l < BUFSIZE - 1)%nat) lines -> is_line tail ->
  (length (unlines lines ++ tail) < fuel)%nat ->
  grep fuel pat (unlines lines ++ tail) =
    Ok (unlines (filter (fun l => match_ pat l = true) lines), []).
Proof.
  intros Hl Hlen Ht Hf. apply (grep_loop_run fuel pat lines tail); try done.
  - apply is_line_nil.
  - cbn. lia.
Qed.

(** The lines "ab", "" and "xb", searched for "^a*b$". *)
Lemma grep_prints_the_matching_lines_witness :
  grep 30 [CARET; 97; STAR; 98; DOLLAR] (unlines [[97; 98]; []; [120; 98]] ++ [97; 98]) =
    Ok (unlines [[97; 98]], []).
Proof.
  apply (grep_prints_the_matching_lines [CARET; 97; STAR; 98; DOLLAR] [[97; 98]; []; [120; 98]] [97; 98]).
  - by apply (bool_decide_unpack _).
  - by apply (bool_decide_unpack _).
  - by apply (bool_decide_unpack _).
  - vm_compute. lia.
Defined.

(** ** Pieces of a line *)

(** A pipe: a read returns what one write put there. *)
#[export] Instance pieces_reader : Reader (list (list Z)) := fun n s =>
  match s with
  | [] => ([], [])
  | c :: s' => (take n c, if bool_decide (drop n c = []) then s' else drop n c :: s')
  end.

(** The line "ab" that arrives in two pieces contains "a" and is not printed: bytes without
    a newline that begin the buffer are dropped. *)
Lemma grep_drops_a_piece :
  grep 10 [97] [[97]; [98; NEWLINE]] = Ok ([], []) /\ match_ [97] [97; 98] = true.
Proof. by vm_compute. Qed.
