(* ===== verification/Sh.v ===== *)
(** * The parser of the shell

    [parsecmd] of [lab-2/sh.c] and the functions below it.  A pointer into the command
    line is its offset; [*ps] is the state of the parser, and [panic] ends the shell.
    Memory for the commands is not exhausted. *)

From S2P Require Import Prelude CString Grep.
From Stdlib Require Import Ascii.

(** ** Commands *)

Definition MAXARGS : nat := 10.

Definition O_RDONLY : Z := 0x000.
Definition O_WRONLY : Z := 0x001.
Definition O_CREATE : Z := 0x200.

(** [struct cmd] and its kinds: an argument and a file have a begin and an end. *)
Inductive cmd :=
  | EXEC (argv : list (nat * nat))
  | REDIR (c : cmd) (file efile : nat) (mode fd : Z)
  | PIPE (left right : cmd)
  | LIST (left right : cmd)
  | BACK (c : cmd).

Definition execcmd : cmd := EXEC [].
Definition redircmd (subcmd : cmd) (file efile : nat) (mode fd : Z) : cmd :=
  REDIR subcmd file efile mode fd.
Definition pipecmd (left right : cmd) : cmd := PIPE left right.
Definition listcmd (left right : cmd) : cmd := LIST left right.
Definition backcmd (subcmd : cmd) : cmd := BACK subcmd.

(** ** Tokens *)

Definition code (c : ascii) : Z := Z.of_nat (nat_of_ascii c).
Definition codes (s : string) : list Z := map code (String.list_ascii_of_string s).

Definition whitespace : list Z := [32; 9; 13; 10; 11].
Definition symbols : list Z := codes "<|>&;()".

Definition is_in (s : list Z) (c : Z) : bool := bool_decide (is_Some (strchr s c)).

Section Parser.
Context (line : list Z).

Abbreviation Ps := (M nat).

Definition char_at (p : nat) : Ps Z := lift_opt "s" ((line ++ [0]) !! p).

(** [while(s < es && f( *s)) s++], from [p] on. *)
Fixpoint skip_while (f : Z -> bool) (n : nat) (p : nat) : nat :=
  match n with
  | O => p
  | S n' =>
      match line !! p with
      | Some c => if f c then skip_while f n' (S p) else p
      | None => p
      end
  end.
Definition skip_white (p : nat) : nat := skip_while (is_in whitespace) (length line - p) p.
Definition word_char (c : Z) : bool := negb (is_in whitespace c) && negb (is_in symbols c).
Definition skip_word (p : nat) : nat := skip_while word_char (length line - p) p.

Definition gettoken : Ps (Z * nat * nat) :=
  p ← get;
  let q := skip_white p in
  c ← char_at q;
  '(ret, s) ←
    (if c =? 0 then mret (c, q)
     else if is_in (codes "|();&<") c then mret (c, S q)
     else if c =? code ">" then
       c1 ← char_at (S q);
       mret (if c1 =? code ">" then (code "+", S (S q)) else (c, S q))
     else mret (code "a", skip_word q));
  put (skip_white s) ;;
  mret (ret, q, s).

Definition peek (toks : list Z) : Ps bool :=
  p ← get;
  let s := skip_white p in
  put s ;;
  c ← char_at s;
  mret (negb (c =? 0) && is_in toks c).

(** ** The grammar *)

Fixpoint parseredirs (fuel : nat) (c : cmd) : Ps cmd :=
  match fuel with
  | O => diverge
  | S fuel' =>
      b ← peek (codes "<>");
      if b : bool then
        '(tok, _, _) ← gettoken;
        '(t, q, eq) ← gettoken;
        if negb (t =? code "a") then panic "missing file for redirection"
        else
          parseredirs fuel'
            (if tok =? code "<" then redircmd c q eq O_RDONLY 0
             else if tok =? code ">" then redircmd c q eq (Z.lor O_WRONLY O_CREATE) 1
             else if tok =? code "+" then redircmd c q eq (Z.lor O_WRONLY O_CREATE) 1
             else c)
      else mret c
  end.

(** [cmd->argv[argc] = q] on the command below the redirections in [ret]. *)
Fixpoint add_arg (a : nat * nat) (ret : cmd) : cmd :=
  match ret with
  | EXEC argv => EXEC (argv ++ [a])
  | REDIR c file efile mode fd => REDIR (add_arg a c) file efile mode fd
  | _ => ret
  end.

(** The loop of [parseexec]. *)
Fixpoint args_loop (fuel : nat) (argc : nat) (ret : cmd) : Ps cmd :=
  match fuel with
  | O => diverge
  | S fuel' =>
      b ← peek (codes "|)&;");
      if b : bool then mret ret
      else
        '(tok, q, eq) ← gettoken;
        if tok =? 0 then mret ret
        else if negb (tok =? code "a") then panic "syntax"
        else
          let ret1 := add_arg (q, eq) ret in
          if (MAXARGS <=? S argc)%nat then panic "too many args"
          else
            ret2 ← parseredirs fuel' ret1;
            args_loop fuel' (S argc) ret2
  end.

(** The loop of [parseline]. *)
Fixpoint back_loop (fuel : nat) (c : cmd) : Ps cmd :=
  match fuel with
  | O => diverge
  | S fuel' =>
      b ← peek (codes "&");
      if b : bool then gettoken ;; back_loop fuel' (backcmd c) else mret c
  end.

Fixpoint parseline (fuel : nat) : Ps cmd :=
  match fuel with
  | O => diverge
  | S fuel' =>
      c0 ← parsepipe fuel';
      c ← back_loop fuel' c0;
      b ← peek (codes ";");
      if b : bool then
        gettoken ;;
        r ← parseline fuel';
        mret (listcmd c r)
      else mret c
  end
with parsepipe (fuel : nat) : Ps cmd :=
  match fuel with
  | O => diverge
  | S fuel' =>
      c ← parseexec fuel';
      b ← peek (codes "|");
      if b : bool then
        gettoken ;;
        r ← parsepipe fuel';
        mret (pipecmd c r)
      else mret c
  end
with parseexec (fuel : nat) : Ps cmd :=
  match fuel with
  | O => diverge
  | S fuel' =>
      b ← peek (codes "(");
      if b : bool then parseblock fuel'
      else
        ret ← parseredirs fuel' execcmd;
        args_loop fuel' 0 ret
  end
with parseblock (fuel : nat) : Ps cmd :=
  match fuel with
  | O => diverge
  | S fuel' =>
      b ← peek (codes "(");
      if negb b then panic "parseblock"
      else
        gettoken ;;
        c ← parseline fuel';
        b ← peek (codes ")");
        if negb b then panic "syntax - missing )"
        else gettoken ;; parseredirs fuel' c
  end.
End Parser.

(** ** The command line *)

(** [nulterminate] on the memory of the command line. *)
Fixpoint nulterminate (c : cmd) (m : list Z) : list Z :=
  match c with
  | EXEC argv => foldl (fun m a => <[a.2 := 0]> m) m argv
  | REDIR c _ efile _ _ => <[efile := 0]> (nulterminate c m)
  | PIPE l r | LIST l r => nulterminate r (nulterminate l m)
  | BACK c => nulterminate c m
  end.

(** Enough for every line: a round of a loop reads a byte, and between two bytes at most
    four functions are entered. *)
Definition parse_fuel (line : list Z) : nat := 4 * length line + 8.

(** The command, and the memory of the command line after it. *)
Definition parsecmd (line : list Z) : res (cmd * list Z) :=
  '(c, s) ← (c ← parseline line (parse_fuel line); peek line [] ;; mret c) O;
  if bool_decide (s <> length line) then Panic "syntax"
  else mret (c, nulterminate c (line ++ [0])).
