(* ===== verification/ShSpec.v ===== *)
(** * The parser of the shell on any line: it ends, with a command or an error *)

From Stdlib Require Import Ascii.
From S2P Require Import Prelude CString Grep Sh.

(** A parser may panic. *)
Definition may_panic (f : failure) : Prop := match f with FPanic _ => True | _ => False end.

Lemma is_in_spec s c : c <> 0 -> 0 ∉ s -> is_in s c = true <-> c ∈ s.
Proof.
  intros Hc Hz. unfold is_in. rewrite bool_decide_eq_true.
  induction s as [|x s IH]; cbn [strchr].
  - rewrite elem_of_nil. split; [by intros [? ?]|done].
  - apply not_elem_of_cons in Hz as [Hx Hz]. rewrite (proj2 (Z.eqb_neq x 0)) by done.
    rewrite elem_of_cons. destruct (Z.eqb_spec x c) as [->|Hne].
    + split; [by left|by eexists].
    + rewrite fmap_is_Some, (IH Hz). split; [by right|]. by intros [<-|?].
Qed.

Section Line.
Context (line : list Z) (Hline : 0 ∉ line).

Definition left (p : nat) : nat := length line - p.

Lemma char_lt p : (p < length line)%nat ->
  exists c, line !! p = Some c /\ (line ++ [0]) !! p = Some c /\ c <> 0.
Proof.
  intros Hp. destruct (lookup_lt_is_Some_2 line p Hp) as [c Hc]. exists c.
  split; [done|]. split; [by apply lookup_app_l_Some|]. intros ->. apply Hline. by eapply list_elem_of_lookup_2.
Qed.

Lemma char_end : (line ++ [0]) !! length line = Some 0.
Proof. rewrite lookup_app_r by done. by rewrite Nat.sub_diag. Qed.

Lemma skip_while_bounds f n p : (n <= length line - p)%nat -> (p <= length line)%nat ->
  (p <= skip_while line f n p <= length line)%nat.
Proof.
  revert p. induction n as [|n IH]; intros p Hn Hp; [cbn; lia|]. cbn [skip_while].
  destruct (line !! p) as [c|] eqn:Hc; [|lia]. apply lookup_lt_Some in Hc.
  destruct (f c); [|lia]. specialize (IH (S p)). lia.
Qed.

(** Where it stops, and that it stops there again. *)
Lemma skip_while_stop f n p : (n = length line - p)%nat -> (p <= length line)%nat ->
  let q := skip_while line f n p in
  match line !! q with Some c => f c = false | None => q = length line end.
Proof.
  revert p. induction n as [|n IH]; intros p Hn Hp; cbn [skip_while].
  - assert (p = length line) as -> by lia. by rewrite lookup_ge_None_2.
  - destruct (char_lt p) as (c & Hc & _); [lia|]. rewrite Hc. destruct (f c) eqn:Hf; [apply IH; lia|].
    by rewrite Hc.
Qed.

Lemma skip_white_bounds p : (p <= length line)%nat -> (p <= skip_white line p <= length line)%nat.
Proof. intros Hp. by apply skip_while_bounds. Qed.

Lemma skip_here f n p c : line !! p = Some c -> f c = false -> skip_while line f n p = p.
Proof. intros Hc Hf. destruct n; cbn; [done|]. by rewrite Hc, Hf. Qed.

Lemma skip_white_idem p : (p <= length line)%nat ->
  skip_white line (skip_white line p) = skip_white line p.
Proof.
  intros Hp. pose proof (skip_while_stop (is_in whitespace) (length line - p) p eq_refl Hp) as Hs.
  fold (skip_white line p) in Hs. cbn zeta in Hs. destruct (line !! skip_white line p) as [c|] eqn:Hc.
  - by eapply skip_here.
  - rewrite Hs. unfold skip_white at 1. by rewrite Nat.sub_diag.
Qed.

(** ** Tokens *)

Lemma wp_char p Q s :
  (p <= length line)%nat ->
  (forall c, (line ++ [0]) !! p = Some c -> (c = 0 <-> p = length line) -> Q c s) ->
  wpx may_panic (char_at line p) Q s.
Proof.
  intros Hp HQ. destruct (decide (p = length line)) as [->|Hne].
  - eapply wp_lift_opt; [apply char_end|]. by apply HQ; [apply char_end|].
  - destruct (char_lt p) as (c & _ & Hc & Hnz); [lia|].
    eapply wp_lift_opt; [exact Hc|]. by apply HQ.
Qed.

Lemma wp_peek toks p Q :
  (p <= length line)%nat ->
  (forall b p', (p <= p' <= length line)%nat -> skip_white line p' = p' ->
     (b = true -> (p' < length line)%nat) -> Q b p') ->
  wpx may_panic (peek line toks) Q p.
Proof.
  intros Hp HQ. pose proof (skip_white_bounds p Hp) as Hb. unfold peek.
  wbind. apply wp_get. wbind. apply wp_put. wbind. apply wp_char; [lia|]. intros c Hc Hz.
  apply wp_ret. apply HQ; [done|by apply skip_white_idem|]. intros [Hn _]%andb_true_iff.
  destruct (Z.eqb_spec c 0) as [->|Hne]; [done|].
  destruct (decide (skip_white line p = length line)) as [He|]; [tauto|lia].
Qed.

Lemma word_or_symbol c : c <> 0 -> is_in whitespace c = false ->
  is_in (codes "|();&<") c = false -> c <> code ">" -> word_char c = true.
Proof.
  intros Hc Hw Hs Hg. unfold word_char. rewrite Hw. cbn [negb andb]. apply negb_true_iff.
  apply not_true_iff_false. intros Hin. apply (is_in_spec _ _ Hc) in Hin; [|by apply (bool_decide_unpack _)].
  apply not_true_iff_false in Hs. apply Hs. apply (is_in_spec _ _ Hc); [by apply (bool_decide_unpack _)|].
  change symbols with [60; 124; 62; 38; 59; 40; 41] in Hin. change (code ">") with 62 in Hg.
  change (codes "|();&<") with [124; 40; 41; 59; 38; 60]. rewrite !elem_of_cons in *. tauto.
Qed.

Lemma wp_gettoken p Q :
  (p <= length line)%nat ->
  (forall (t : Z) (q eq p' : nat), (p <= p' <= length line)%nat ->
     (t <> 0 -> (p < p')%nat) -> (skip_white line p = length line <-> t = 0) -> Q (t, q, eq) p') ->
  wpx may_panic (gettoken line) Q p.
Proof.
  intros Hp HQ. pose proof (skip_white_bounds p Hp) as Hb. unfold gettoken.
  wbind. apply wp_get. set (q := skip_white line p) in *. wbind. apply wp_char; [lia|]. intros c Hc Hz.
  assert (forall (t : Z) (s : nat), (q <= s <= length line)%nat -> (t <> 0 -> (p < s)%nat) -> (q = length line <-> t = 0) ->
    wpx may_panic (put (skip_white line s) ;; mret (t, q, s)) Q p) as Hend.
  { intros t s Hs Hlt Ht. wbind. apply wp_put. apply wp_ret. pose proof (skip_white_bounds s) as Hbs.
    apply HQ; [lia| |done]. intros Hne%Hlt. lia. }
  wbind. destruct (Z.eqb_spec c 0) as [->|Hne].
  { apply wp_ret. apply Hend; [lia|done|]. by rewrite <- Hz. }
  assert (q < length line)%nat as Hq by (destruct (decide (q = length line)); [tauto|lia]).
  destruct (is_in (codes "|();&<") c) eqn:Hsy; [apply wp_ret; apply Hend; [lia|lia|by rewrite Hz]|].
  destruct (Z.eqb_spec c (code ">")) as [->|Hgt].
  - wbind. apply wp_char; [lia|]. intros c1 Hc1 Hz1. apply wp_ret.
    destruct (Z.eqb_spec c1 (code ">")) as [->|]; apply Hend; try lia; split; done || lia.
  - apply wp_ret. destruct (char_lt q Hq) as (c' & Hl & Hl' & _). rewrite Hc in Hl'. injection Hl' as <-.
    assert (is_in whitespace c = false) as Hws.
    { pose proof (skip_while_stop (is_in whitespace) (length line - p) p eq_refl Hp) as Hs.
      fold (skip_white line p) in Hs. cbn zeta in Hs. fold q in Hs. by rewrite Hl in Hs. }
    pose proof (word_or_symbol c Hne Hws Hsy Hgt) as Hw.
    assert (skip_word line q = skip_while line word_char (length line - S q) (S q)) as Hsk.
    { unfold skip_word. replace (length line - q)%nat with (S (length line - S q)) by lia.
      cbn [skip_while]. by rewrite Hl, Hw. }
    pose proof (skip_while_bounds word_char (length line - S q) (S q)). rewrite <- Hsk in *.
    apply Hend; [lia|lia|]. split; [lia|done].
Qed.

(** A token that is there. *)
Lemma wp_eat p Q :
  skip_white line p = p -> (p < length line)%nat ->
  (forall (t : Z) (q eq p' : nat), (p < p' <= length line)%nat -> Q (t, q, eq) p') ->
  wpx may_panic (gettoken line) Q p.
Proof.
  intros Hsk Hp HQ. apply wp_gettoken; [lia|]. intros t q eq p' Hb Hlt Ht. rewrite Hsk in Ht.
  apply HQ. assert (t <> 0) as Hne%Hlt by (intros Hz; apply Ht in Hz; lia). lia.
Qed.

(** ** The grammar *)

Definition moves {A} (p : nat) (_ : A) (p' : nat) : Prop := (p <= p' <= length line)%nat.

Lemma parseredirs_ends fuel c p :
  (p <= length line)%nat -> (length line - p < fuel)%nat ->
  wpx may_panic (parseredirs line fuel c) (moves p) p.
Proof.
  revert c p. induction fuel as [|fuel IH]; intros c p Hp Hf; [lia|]. cbn [parseredirs].
  wbind. apply wp_peek; [done|]. intros b p1 Hp1 Hsk Hb. destruct b; [|by apply wp_ret].
  specialize (Hb eq_refl). wbind. apply wp_eat; [done..|]. intros t1 q1 e1 p2 Hp2.
  wbind. apply wp_gettoken; [lia|]. intros t2 q2 e2 p3 Hp3 _ _.
  destruct (negb _); [by apply wp_panic|].
  eapply wp_mono; [|apply IH; lia]. unfold moves. lia.
Qed.

Lemma args_loop_ends fuel argc ret p :
  (p <= length line)%nat -> (length line - p < fuel)%nat ->
  wpx may_panic (args_loop line fuel argc ret) (moves p) p.
Proof.
  revert argc ret p. induction fuel as [|fuel IH]; intros argc ret p Hp Hf; [lia|]. cbn [args_loop].
  wbind. apply wp_peek; [done|]. intros b p1 Hp1 _ _. destruct b; [by apply wp_ret|].
  wbind. apply wp_gettoken; [lia|]. intros t q e p2 Hp2 Hlt _.
  destruct (Z.eqb_spec t 0) as [->|Ht]; [apply wp_ret; unfold moves; lia|]. specialize (Hlt Ht).
  destruct (negb _); [by apply wp_panic|]. destruct (MAXARGS <=? S argc)%nat; [by apply wp_panic|].
  wbind. eapply wp_mono; [|apply parseredirs_ends; lia]. intros ret2 p3 Hp3. unfold moves in Hp3.
  eapply wp_mono; [|apply IH; lia]. unfold moves. lia.
Qed.

Lemma back_loop_ends fuel c p :
  (p <= length line)%nat -> (length line - p < fuel)%nat ->
  wpx may_panic (back_loop line fuel c) (moves p) p.
Proof.
  revert c p. induction fuel as [|fuel IH]; intros c p Hp Hf; [lia|]. cbn [back_loop].
  wbind. apply wp_peek; [done|]. intros b p1 Hp1 Hsk Hb. destruct b; [|by apply wp_ret].
  specialize (Hb eq_refl). wbind. apply wp_eat; [done..|]. intros t1 q1 e1 p2 Hp2.
  eapply wp_mono; [|apply IH; lia]. unfold moves. lia.
Qed.

Lemma parser_ends n :
  (forall p, (p <= length line)%nat -> (4 * (length line - p) + 4 <= n)%nat ->
     wpx may_panic (parseline line n) (moves p) p) /\
  (forall p, (p <= length line)%nat -> (4 * (length line - p) + 3 <= n)%nat ->
     wpx may_panic (parsepipe line n) (moves p) p) /\
  (forall p, (p <= length line)%nat -> (4 * (length line - p) + 2 <= n)%nat ->
     wpx may_panic (parseexec line n) (moves p) p) /\
  (forall p, (p <= length line)%nat -> (4 * (length line - p) + 1 <= n)%nat ->
     wpx may_panic (parseblock line n) (moves p) p).
Proof.
  induction n as [|n (IHl & IHp & IHe & IHb)]; [split_and!; intros; lia|]. split_and!; intros p Hp Hn.
  - cbn [parseline]. wbind. eapply wp_mono; [|apply IHp; lia]. intros c p1 Hp1. unfold moves in Hp1.
    wbind. eapply wp_mono; [|apply back_loop_ends; lia]. intros c1 p2 Hp2. unfold moves in Hp2.
    wbind. apply wp_peek; [lia|]. intros b p3 Hp3 Hsk Hb.
    destruct b; [|apply wp_ret; unfold moves; lia]. specialize (Hb eq_refl).
    wbind. apply wp_eat; [done..|]. intros t q e p4 Hp4.
    wbind. eapply wp_mono; [|apply IHl; lia]. intros r p5 Hp5. unfold moves in *. apply wp_ret. lia.
  - cbn [parsepipe]. wbind. eapply wp_mono; [|apply IHe; lia]. intros c p1 Hp1. unfold moves in Hp1.
    wbind. apply wp_peek; [lia|]. intros b p3 Hp3 Hsk Hb.
    destruct b; [|apply wp_ret; unfold moves; lia]. specialize (Hb eq_refl).
    wbind. apply wp_eat; [done..|]. intros t q e p4 Hp4.
    wbind. eapply wp_mono; [|apply IHp; lia]. intros r p5 Hp5. unfold moves in *. apply wp_ret. lia.
  - cbn [parseexec]. wbind. apply wp_peek; [lia|]. intros b p1 Hp1 Hsk Hb. destruct b.
    + eapply wp_mono; [|apply IHb; lia]. unfold moves. lia.
    + wbind. eapply wp_mono; [|apply parseredirs_ends; lia]. intros c p2 Hp2. unfold moves in Hp2.
      eapply wp_mono; [|apply args_loop_ends; lia]. unfold moves. lia.
  - cbn [parseblock]. wbind. apply wp_peek; [lia|]. intros b p1 Hp1 Hsk Hb.
    destruct b; cbn [negb]; [|by apply wp_panic]. specialize (Hb eq_refl).
    wbind. apply wp_eat; [done..|]. intros t q e p2 Hp2.
    wbind. eapply wp_mono; [|apply IHl; lia]. intros c p3 Hp3. unfold moves in Hp3.
    wbind. apply wp_peek; [lia|]. intros b p4 Hp4 Hsk4 Hb4.
    destruct b; cbn [negb]; [|by apply wp_panic]. specialize (Hb4 eq_refl).
    wbind. apply wp_eat; [done..|]. intros t' q' e' p5 Hp5.
    eapply wp_mono; [|apply parseredirs_ends; lia]. unfold moves. lia.
Qed.
End Line.

(** C10. The parser ends on every line, and reads nothing outside it: it returns a command, or
    ends the shell with a message. *)
Theorem parsecmd_ends line :
  0 ∉ line -> match parsecmd line with Ok _ | Panic _ => True | Fault _ | Diverge => False end.
Proof.
  intros Hz. unfold parsecmd.
  assert (wpx may_panic (c ← parseline line (parse_fuel line); peek line [] ;; mret c)
    (fun _ _ => True) 0%nat) as Hw.
  { wbind. eapply wp_mono; [|apply (parser_ends line Hz); unfold parse_fuel; lia].
    intros c p Hp. wbind. apply wp_peek; [done|apply Hp|]. done. }
  unfold wpx in Hw. match type of Hw with match ?e with _ => _ end => destruct e as [[c s]| | |] end;
    cbn; [by case_bool_decide|done..].
Qed.

Lemma parsecmd_ends_witness :
  match parsecmd (codes "a | (b ; c &) > d") with Ok _ | Panic _ => True | Fault _ | Diverge => False end.
Proof. apply (parsecmd_ends (codes "a | (b ; c &) > d")). by apply (bool_decide_unpack _). Defined.

(** ** Printing a command *)

From Stdlib Require Import Ascii.

(** ** Trees *)

Inductive tree :=
  | Exec (args : list (list Z))
  | Redir (c : tree) (file : list Z) (mode fd : Z)
  | Pipe (l r : tree)
  | Seq (l r : tree)
  | Back (c : tree).

(** The tree of a command whose strings are in the memory [m]. *)
Definition str (m : list Z) (p : nat) : list Z := cstr (drop p m).
Fixpoint tree_of (m : list Z) (c : cmd) : tree :=
  match c with
  | EXEC argv => Exec (map (fun a => str m a.1) argv)
  | REDIR c file _ mode fd => Redir (tree_of m c) (str m file) mode fd
  | PIPE l r => Pipe (tree_of m l) (tree_of m r)
  | LIST l r => Seq (tree_of m l) (tree_of m r)
  | BACK c => Back (tree_of m c)
  end.

Definition good_word (w : list Z) : Prop := w <> [] /\ Forall (fun c => word_char c = true /\ c <> 0) w.
Definition good_redir (w : list Z) (mode fd : Z) : Prop :=
  good_word w /\ (mode = O_RDONLY /\ fd = 0 \/ mode = Z.lor O_WRONLY O_CREATE /\ fd = 1).

(** The trees the parser can build: with words for the names, redirections of the standard
    input and output, and fewer than [MAXARGS] arguments. *)
Fixpoint good (a : tree) : Prop :=
  match a with
  | Exec args => Forall good_word args /\ (length args < MAXARGS)%nat
  | Redir c w mode fd => good c /\ good_redir w mode fd
  | Pipe l r | Seq l r => good l /\ good r
  | Back c => good c
  end.

Definition pr_word (w : list Z) : list Z := w ++ [32].
Definition pr_args (args : list (list Z)) : list Z := concat (map pr_word args).
Definition pr_redir (w : list Z) (fd : Z) : list Z :=
  (if fd =? 0 then code "<" else code ">") :: pr_word w.
Definition paren (b : bool) (s : list Z) : list Z :=
  if b then code "(" :: s ++ [code ")"] else s.

(** The printer; the level is 0 for a line, 1 in front of [;], 2 behind [|], and 3 in front
    of it. *)
Fixpoint print (level : nat) (a : tree) : list Z :=
  match a with
  | Exec args => pr_args args
  | Redir c w _ fd => print 3 c ++ pr_redir w fd
  | Pipe l r => paren (2 <? level)%nat (print 3 l ++ code "|" :: print 2 r)
  | Back c => paren (1 <? level)%nat (print 1 c ++ [code "&"])
  | Seq l r => paren (0 <? level)%nat (print 1 l ++ code ";" :: print 0 r)
  end.

(** Redirections around a tree, the innermost first. *)
Definition redir : Type := list Z * Z * Z.
Definition wrap (a : tree) (rs : list redir) : tree :=
  foldl (fun a '(w, mode, fd) => Redir a w mode fd) a rs.
Definition pr_redirs (rs : list redir) : list Z := concat (map (fun '(w, _, fd) => pr_redir w fd) rs).
Definition good_redirs (rs : list redir) : Prop := Forall (fun '(w, mode, fd) => good_redir w mode fd) rs.

Section Line.
Context (line : list Z).

(** A word of the line between two offsets, and a space behind it. *)
Definition shows_word (q : nat * nat) (w : list Z) : Prop :=
  good_word w /\ q.2 = (q.1 + length w)%nat /\ exists s, drop q.1 line = w ++ 32 :: s.

Fixpoint shows (c : cmd) (a : tree) : Prop :=
  match c, a with
  | EXEC argv, Exec args => Forall2 shows_word argv args
  | REDIR c f e m d, Redir a w m' d' => shows c a /\ shows_word (f, e) w /\ m = m' /\ d = d'
  | PIPE l r, Pipe l' r' | LIST l r, Seq l' r' => shows l l' /\ shows r r'
  | BACK c, Back a => shows c a
  | _, _ => False
  end.

(** ** The end of the strings *)

Fixpoint ends (c : cmd) : list nat :=
  match c with
  | EXEC argv => map snd argv
  | REDIR c _ e _ _ => ends c ++ [e]
  | PIPE l r | LIST l r => ends l ++ ends r
  | BACK c => ends c
  end.

Definition put_zeros (es : list nat) (m : list Z) : list Z := foldl (fun m e => <[e := 0]> m) m es.

Lemma put_zeros_app es es' m : put_zeros (es ++ es') m = put_zeros es' (put_zeros es m).
Proof. apply foldl_app. Qed.

Lemma nulterminate_zeros c m : nulterminate c m = put_zeros (ends c) m.
Proof.
  revert m. induction c as [argv|c IH|l IHl r IHr|l IHl r IHr|c IH]; intros m; cbn [nulterminate ends];
    rewrite ?put_zeros_app; [|by rewrite IH|by rewrite IHl, IHr..|done].
  unfold put_zeros. revert m. induction argv as [|a argv IH]; intros m; [done|]. apply IH.
Qed.

Lemma put_zeros_other es m i : i ∉ es -> put_zeros es m !! i = m !! i.
Proof.
  revert m. induction es as [|e es IH]; intros m Hi; [done|]. apply not_elem_of_cons in Hi as [Hne Hi].
  cbn. unfold put_zeros in IH. rewrite IH by done. by rewrite list_lookup_insert_ne.
Qed.

Lemma put_zeros_zero es m i : is_Some (m !! i) -> i ∈ es \/ m !! i = Some 0 -> put_zeros es m !! i = Some 0.
Proof.
  revert m. induction es as [|e es IH]; intros m Hs Hi; cbn.
  - by destruct Hi as [?%elem_of_nil|?].
  - pose proof Hs as Hs'. apply lookup_lt_is_Some in Hs'. apply IH.
    + apply lookup_lt_is_Some. by rewrite length_insert.
    + destruct (decide (e = i)) as [->|Hne]; [right; by apply list_lookup_insert_eq|].
      rewrite list_lookup_insert_ne by done. rewrite elem_of_cons in Hi.
      destruct Hi as [[->|?]|?]; [done|by left|by right].
Qed.

Lemma cstr_word l w : (forall i, (i < length w)%nat -> l !! i = w !! i) -> l !! length w = Some 0 ->
  0 ∉ w -> cstr l = w.
Proof.
  revert l. induction w as [|c w IH]; intros l Hl Hz Hn.
  - destruct l as [|x l]; [done|]. by injection Hz as ->.
  - apply not_elem_of_cons in Hn as [Hc Hn]. destruct l as [|x l]; [by specialize (Hl 0%nat ltac:(cbn; lia))|].
    pose proof (Hl 0%nat ltac:(cbn; lia)) as Hx. injection Hx as ->. cbn [cstr].
    rewrite (proj2 (Z.eqb_neq _ _)) by done. f_equal. apply IH; [|done..].
    intros i Hi. apply (Hl (S i)). cbn. lia.
Qed.

Lemma drop_at q (w s : list Z) i : drop q line = w ++ s -> (i < length w)%nat -> line !! (q + i)%nat = w !! i.
Proof. intros Hd Hi. rewrite <- lookup_drop, Hd. by apply lookup_app_l. Qed.

Lemma word_end q w : shows_word q w -> line !! q.2 = Some 32.
Proof.
  intros (_ & -> & (s & Hd)). rewrite <- lookup_drop, Hd. by rewrite lookup_app_r, Nat.sub_diag.
Qed.

Lemma shows_ends c a e : shows c a -> e ∈ ends c -> line !! e = Some 32.
Proof.
  revert a. induction c as [argv|c IH f e' m d|l IHl r IHr|l IHl r IHr|c IH]; intros [] Hs He; try done; cbn in *.
  - apply list_elem_of_fmap in He as (q & -> & Hq).
    apply list_elem_of_lookup in Hq as [i Hi]. eapply Forall2_lookup_l in Hs as (w & _ & Hw); [|exact Hi].
    by eapply word_end.
  - destruct Hs as (Hs & Hw & _). apply elem_of_app in He as [He|He]; [by eapply IH|].
    apply list_elem_of_singleton in He as ->. by eapply (word_end (f, e')).
  - destruct Hs. apply elem_of_app in He as [He|He]; eauto.
  - destruct Hs. apply elem_of_app in He as [He|He]; eauto.
  - eauto.
Qed.

Lemma word_read es q w : (forall e, e ∈ es -> line !! e = Some 32) ->
  shows_word q w -> q.2 ∈ es -> str (put_zeros es (line ++ [0])) q.1 = w.
Proof.
  intros Hes Hw Hin. pose proof (word_end _ _ Hw) as Hend. destruct Hw as ([_ Hg] & He & (s & Hd)).
  assert (forall i, (i < length w)%nat -> line !! (q.1 + i)%nat = w !! i) as Hat by (intros; by eapply drop_at).
  unfold str. apply cstr_word.
  - intros i Hi. rewrite lookup_drop. destruct (lookup_lt_is_Some_2 w i Hi) as [c Hc].
    specialize (Hat i Hi). rewrite Hc in Hat |- *. rewrite put_zeros_other.
    + by apply lookup_app_l_Some.
    + intros Hi'%Hes. rewrite Hat in Hi'. injection Hi' as ->.
      by apply (Forall_lookup_1 _ _ _ _ Hg) in Hc as [? _].
  - rewrite lookup_drop, <- He. apply put_zeros_zero; [|by left].
    eexists. by apply lookup_app_l_Some.
  - intros Hz. apply list_elem_of_lookup in Hz as [i Hi].
    by apply (Forall_lookup_1 _ _ _ _ Hg) in Hi as [_ ?].
Qed.

(** The strings of the command, in the memory [nulterminate] leaves. *)
Lemma shows_tree es c a : (forall e, e ∈ es -> line !! e = Some 32) -> ends c ⊆ es -> shows c a ->
  tree_of (put_zeros es (line ++ [0])) c = a.
Proof.
  intros Hes. revert a. induction c as [argv|c IH f e' m d|l IHl r IHr|l IHl r IHr|c IH];
    intros [] Hsub Hs; try done; cbn in *.
  - f_equal. induction Hs as [|q w argv args Hq _ IH]; [done|]. cbn in *.
    rewrite (word_read es q w) by (done || set_solver). rewrite IH by set_solver. done.
  - destruct Hs as (Hs & Hw & -> & ->). f_equal.
    + apply IH; [set_solver|done].
    + apply (word_read es (f, e')); [done..|]. set_solver.
  - destruct Hs. f_equal; [apply IHl|apply IHr]; done || set_solver.
  - destruct Hs. f_equal; [apply IHl|apply IHr]; done || set_solver.
  - f_equal. by apply IH.
Qed.

Lemma shows_nulterminate c a : shows c a -> tree_of (nulterminate c (line ++ [0])) c = a.
Proof.
  intros Hs. rewrite nulterminate_zeros. apply shows_tree; [|done..].
  intros e. by eapply shows_ends.
Qed.
End Line.
