(* ===== verification/ShProps.v ===== *)
(** * The parser of the shell reads back what the printer writes *)

From S2P Require Import Prelude CString Grep Sh ShSpec.
From Stdlib Require Import Ascii.

(** Text without white space at its beginning, and text that begins with one of some
    characters or is empty. *)
Definition clean (s : list Z) : Prop :=
  match s with [] => True | c :: _ => is_in whitespace c = false /\ c <> 0 end.
Definition begins (toks s : list Z) : Prop :=
  match s with [] => True | c :: _ => is_in toks c = true end.
Definition avoids (toks s : list Z) : Prop :=
  match s with [] => True | c :: _ => is_in toks c = false end.

Lemma is_in_sub s s' c : Forall (fun x => is_in s' x = true) s -> is_in s c = true -> is_in s' c = true.
Proof.
  intros Hs. unfold is_in at 1. rewrite bool_decide_eq_true. induction Hs as [|x s Hx _ IH]; cbn [strchr].
  - by intros [].
  - destruct (x =? 0); [by intros []|]. destruct (Z.eqb_spec x c) as [->|]; [done|].
    rewrite fmap_is_Some. exact IH.
Qed.

Lemma is_in_disjoint s s' c : Forall (fun x => is_in s' x = false) s -> is_in s c = true -> is_in s' c = false.
Proof.
  intros Hs. unfold is_in at 1. rewrite bool_decide_eq_true. induction Hs as [|x s Hx _ IH]; cbn [strchr].
  - by intros [].
  - destruct (x =? 0); [by intros []|]. destruct (Z.eqb_spec x c) as [->|]; [done|].
    rewrite fmap_is_Some. exact IH.
Qed.

Ltac all_chars := repeat (apply Forall_cons_2; [reflexivity|]); apply Forall_nil_2.

Lemma begins_sub toks toks' s : Forall (fun x => is_in toks' x = true) toks -> begins toks s -> begins toks' s.
Proof. destruct s; [done|]. by apply is_in_sub. Qed.
Lemma begins_avoids toks toks' s : Forall (fun x => is_in toks' x = false) toks -> begins toks s -> avoids toks' s.
Proof. destruct s; [done|]. by apply is_in_disjoint. Qed.

Lemma is_in_nonzero toks c : is_in toks c = true -> c <> 0.
Proof.
  unfold is_in. rewrite bool_decide_eq_true. intros Hs ->. induction toks as [|x s IH]; cbn [strchr] in Hs.
  - by destruct Hs.
  - destruct (Z.eqb_spec x 0); [by destruct Hs|]. rewrite fmap_is_Some in Hs. by apply IH.
Qed.

Lemma begins_clean toks s : Forall (fun x => is_in whitespace x = false) toks -> begins toks s -> clean s.
Proof.
  destruct s as [|c s]; [done|]. intros Ht Hb. split; [by eapply is_in_disjoint|by eapply is_in_nonzero].
Qed.

Lemma word_char_symbol c : word_char c = true -> is_in whitespace c = false /\ is_in symbols c = false.
Proof. unfold word_char. by rewrite andb_true_iff, !negb_true_iff. Qed.

Lemma good_word_cons w : good_word w -> exists c w', w = c :: w' /\ word_char c = true /\ c <> 0.
Proof. intros [Hne Hw]. destruct w as [|c w]; [done|]. apply Forall_cons in Hw as [[? ?] _]. by exists c, w. Qed.

Lemma word_clean w s : good_word w -> clean (w ++ s).
Proof. intros (c & w' & -> & Hc & Hz)%good_word_cons. cbn. split; [by apply word_char_symbol|done]. Qed.

Lemma word_avoids toks w s :
  Forall (fun x => is_in symbols x = true) toks -> good_word w -> avoids toks (w ++ s).
Proof.
  intros Ht (c & w' & -> & Hc & Hz)%good_word_cons. cbn. apply not_true_iff_false. intros Hin.
  apply (is_in_sub _ _ _ Ht) in Hin. apply word_char_symbol in Hc as [_ Hc]. congruence.
Qed.

Section Line.
Context (line : list Z).

(** The rest of the line from an offset on. *)
Definition at_ (p : nat) (s : list Z) : Prop := drop p line = s /\ (p <= length line)%nat.

Lemma at_cons p c s : at_ p (c :: s) -> line !! p = Some c /\ at_ (S p) s.
Proof.
  intros [Hd Hp]. assert (line !! p = Some c) as Hc.
  { rewrite <- (Nat.add_0_r p), <- lookup_drop, Hd. done. }
  split; [done|]. split; [|by apply lookup_lt_Some in Hc].
  rewrite <- Nat.add_1_r, <- drop_drop, Hd. done.
Qed.

Lemma at_nil p : at_ p [] -> p = length line.
Proof. intros [Hd Hp]. apply (f_equal length) in Hd. rewrite length_drop in Hd. cbn in Hd. lia. Qed.

Lemma at_app p s s' : at_ p (s ++ s') -> at_ (p + length s) s'.
Proof.
  intros [Hd Hp]. pose proof (f_equal length Hd) as Hl. rewrite length_drop, length_app in Hl.
  split; [|lia]. rewrite <- drop_drop, Hd. apply drop_app_length.
Qed.

Lemma at_length p s : at_ p s -> (length line = p + length s)%nat.
Proof. intros [Hd Hp]. apply (f_equal length) in Hd. rewrite length_drop in Hd. lia. Qed.

(** The character at the beginning of [s], NUL at the end. *)
Lemma char_at_run st p s : at_ p s -> char_at line p st = Ok (default 0 (head s), st).
Proof.
  intros Ha. unfold char_at. destruct s as [|c s].
  - apply at_nil in Ha as ->. by rewrite char_end.
  - apply at_cons in Ha as [Hc _]. by rewrite (lookup_app_l_Some _ _ _ _ Hc).
Qed.

Lemma skip_clean p s : at_ p s -> clean s -> skip_white line p = p.
Proof.
  intros Ha Hs. destruct s as [|c s].
  - apply at_nil in Ha as ->. unfold skip_white. by rewrite Nat.sub_diag.
  - apply at_cons in Ha as [Hc _]. by apply (skip_here line (is_in whitespace) _ p c); [|apply Hs].
Qed.

Lemma skip_space p s : at_ p (32 :: s) -> clean s -> skip_white line p = S p.
Proof.
  intros Ha Hs. apply at_cons in Ha as [Hc Ha]. pose proof (lookup_lt_Some _ _ _ Hc) as Hlt.
  unfold skip_white. replace (length line - p)%nat with (S (length line - S p)) by lia.
  cbn [skip_while]. rewrite Hc. by apply (skip_clean (S p) s).
Qed.

Lemma skip_word_run p w s : at_ p (w ++ 32 :: s) -> good_word w -> skip_word line p = (p + length w)%nat.
Proof.
  intros Ha [_ Hw]. unfold skip_word. revert p Ha. induction Hw as [|c w [Hc _] _ IH]; intros p Ha.
  - apply at_cons in Ha as [Hc _]. rewrite (skip_here line word_char _ p 32) by done. cbn. lia.
  - cbn [app] in Ha. apply at_cons in Ha as [Hl Ha]. pose proof (lookup_lt_Some _ _ _ Hl) as Hlt.
    replace (length line - p)%nat with (S (length line - S p)) by lia.
    cbn [skip_while]. rewrite Hl, Hc, IH by done. cbn. lia.
Qed.

Lemma peek_run toks p s : at_ p s -> clean s ->
  peek line toks p = Ok (match s with [] => false | c :: _ => is_in toks c end, p).
Proof.
  intros Ha Hs. unfold peek. rewrite bind_get, (skip_clean p s Ha Hs), bind_put.
  rewrite (bind_ok _ _ _ _ _ (char_at_run _ p s Ha)). destruct s as [|c s]; [done|].
  cbn [head default from_option id]. by rewrite (proj2 (Z.eqb_neq _ _) (proj2 Hs)).
Qed.

Lemma peek_true toks p s : at_ p s -> clean s -> s <> [] -> begins toks s -> peek line toks p = Ok (true, p).
Proof. intros Ha Hs Hne Hb. rewrite (peek_run toks p s Ha Hs). destruct s; [done|]. by rewrite Hb. Qed.

Lemma peek_false toks p s : at_ p s -> clean s -> avoids toks s -> peek line toks p = Ok (false, p).
Proof. intros Ha Hs Hb. rewrite (peek_run toks p s Ha Hs). destruct s; [done|]. by rewrite Hb. Qed.

(** ** The tokens *)

Lemma gettoken_symbol p c s : at_ p (c :: s) -> is_in (codes "|();&<") c = true -> clean s ->
  gettoken line p = Ok ((c, p, S p), S p).
Proof.
  intros Ha Hc Hs. assert (clean (c :: s)) as Hcl by (by apply (begins_clean (codes "|();&<")); [all_chars|]).
  unfold gettoken. rewrite bind_get, (skip_clean p _ Ha Hcl), (bind_ok _ _ _ _ _ (char_at_run _ p _ Ha)).
  cbn [head default from_option id]. rewrite (proj2 (Z.eqb_neq c 0) (proj2 Hcl)), Hc.
  rewrite bind_ret, bind_put. apply at_cons in Ha as [_ Ha]. by rewrite (skip_clean (S p) s).
Qed.

Lemma gettoken_greater p s : at_ p (code ">" :: s) -> avoids (codes ">") s -> clean s ->
  gettoken line p = Ok ((code ">", p, S p), S p).
Proof.
  intros Ha Hs Hcl. unfold gettoken. rewrite bind_get, (skip_clean p _ Ha) by done.
  rewrite (bind_ok _ _ _ _ _ (char_at_run _ p _ Ha)). apply at_cons in Ha as [_ Ha].
  cbn [head default from_option id]. change (code ">" =? 0) with false. cbv iota.
  change (is_in _ (code ">")) with false. cbv iota. rewrite Z.eqb_refl, bind_bind.
  rewrite (bind_ok _ _ _ _ _ (char_at_run p (S p) s Ha)), bind_ret.
  assert ((default 0 (head s) =? code ">") = false) as ->.
  { destruct s as [|c s]; [done|]. cbn. apply Z.eqb_neq. intros ->. done. }
  rewrite bind_put. by rewrite (skip_clean (S p) s).
Qed.

Lemma gettoken_word p w s : at_ p (pr_word w ++ s) -> good_word w -> clean s ->
  gettoken line p = Ok ((code "a", p, p + length w)%nat, (p + length (pr_word w))%nat).
Proof.
  intros Ha Hw Hs. unfold pr_word in *. rewrite <- app_assoc in Ha. cbn [app] in Ha.
  pose proof (word_clean w (32 :: s) Hw) as Hcl. unfold gettoken.
  rewrite bind_get, (skip_clean p _ Ha Hcl), (bind_ok _ _ _ _ _ (char_at_run _ p _ Ha)).
  pose proof (good_word_cons w Hw) as (c & w' & He & Hc & Hz).
  replace (default 0 (head (w ++ 32 :: s))) with c by (by rewrite He).
  rewrite (proj2 (Z.eqb_neq c 0) Hz). apply word_char_symbol in Hc as [_ Hc].
  assert (forall toks, Forall (fun x => is_in symbols x = true) toks -> is_in toks c = false) as Hno.
  { intros toks Ht. apply not_true_iff_false. intros Hin. apply (is_in_sub _ _ _ Ht) in Hin. congruence. }
  rewrite Hno by all_chars. destruct (Z.eqb_spec c (code ">")) as [->|_]; [by rewrite <- Hc|].
  rewrite (skip_word_run p w s Ha Hw), bind_ret, bind_put. apply at_app in Ha.
  rewrite (skip_space _ s Ha Hs), length_app. cbn [length]. by rewrite Nat.add_1_r, Nat.add_succ_r.
Qed.

Lemma shows_at p w s : at_ p (pr_word w ++ s) -> good_word w -> shows_word line (p, (p + length w)%nat) w.
Proof.
  intros [Ha _] Hw. split; [done|]. split; [done|]. exists s. cbn. rewrite Ha. unfold pr_word. by rewrite <- app_assoc.
Qed.

(** ** Redirections and arguments *)

Lemma pr_redirs_cons r rs k :
  pr_redirs (r :: rs) ++ k = pr_redir r.1.1 r.2 ++ (pr_redirs rs ++ k).
Proof. destruct r as [[w m] d]. unfold pr_redirs. cbn. by rewrite <- app_assoc. Qed.

Lemma length_redirs_cons w m d rs :
  length (pr_redirs ((w, m, d) :: rs)) = (length (pr_redir w d) + length (pr_redirs rs))%nat.
Proof. apply (length_app (pr_redir w d) (pr_redirs rs)). Qed.

Lemma redirs_clean rs k : good_redirs rs -> clean k -> clean (pr_redirs rs ++ k).
Proof.
  intros Hr Hk. destruct rs as [|[[w m] d] rs]; [done|]. rewrite pr_redirs_cons. cbn.
  by destruct (d =? 0).
Qed.

(** A redirection and the rest of the line. *)
Lemma redir_tokens p w mode fd s :
  at_ p (pr_redir w fd ++ s) -> good_redir w mode fd -> clean s ->
  exists t, peek line (codes "<>") p = Ok (true, p) /\
    gettoken line p = Ok ((t, p, S p), S p) /\
    gettoken line (S p) = Ok ((code "a", S p, S p + length w)%nat, (p + length (pr_redir w fd))%nat) /\
    shows_word line (S p, (S p + length w)%nat) w /\
    forall c, (if t =? code "<" then redircmd c (S p) (S p + length w) O_RDONLY 0
               else if t =? code ">" then redircmd c (S p) (S p + length w) (Z.lor O_WRONLY O_CREATE) 1
               else if t =? code "+" then redircmd c (S p) (S p + length w) (Z.lor O_WRONLY O_CREATE) 1
               else c) = REDIR c (S p) (S p + length w) mode fd.
Proof.
  intros Ha [Hw Hm] Hs. unfold pr_redir in *. cbn [app length] in *.
  pose proof (at_cons _ _ _ Ha) as [_ Ha1].
  assert (clean (pr_word w ++ s)) as Hcw by (unfold pr_word; rewrite <- app_assoc; by apply word_clean).
  pose proof (gettoken_word _ _ _ Ha1 Hw Hs) as Hgw. rewrite Nat.add_succ_r, <- (Nat.add_succ_l p).
  pose proof (shows_at _ _ _ Ha1 Hw) as Hsh.
  destruct Hm as [[-> ->]|[-> ->]]; cbn [Z.eqb] in *.
  - exists (code "<"). split; [by apply (peek_true _ p _ Ha)|].
    split; [by apply (gettoken_symbol _ _ _ Ha)|]. by split.
  - exists (code ">"). split; [by apply (peek_true _ p _ Ha)|].
    split; [|by split]. apply (gettoken_greater _ _ Ha); [|done].
    unfold pr_word. rewrite <- app_assoc. apply word_avoids; [all_chars|done].
Qed.

Lemma parseredirs_run rs fuel c a p k :
  at_ p (pr_redirs rs ++ k) -> good_redirs rs -> clean k -> avoids (codes "<>") k ->
  shows line c a -> (length line - p < fuel)%nat ->
  exists c', parseredirs line fuel c p = Ok (c', (p + length (pr_redirs rs))%nat) /\ shows line c' (wrap a rs).
Proof.
  revert fuel c a p. induction rs as [|[[w mode] fd] rs IH]; intros fuel c a p Ha Hr Hk Hav Hsh Hf;
    (destruct fuel as [|fuel]; [lia|]); cbn [parseredirs].
  - exists c. rewrite (bind_ok _ _ _ _ _ (peek_false _ _ _ Ha Hk Hav)). cbn. by rewrite Nat.add_0_r.
  - apply Forall_cons in Hr as [Hg Hr]. rewrite pr_redirs_cons in Ha. cbn [fst snd] in Ha.
    destruct (redir_tokens _ _ _ _ _ Ha Hg (redirs_clean _ _ Hr Hk)) as (t & Hp & H1 & H2 & Hw & Hc).
    rewrite (bind_ok _ _ _ _ _ Hp). cbv iota. rewrite (bind_ok _ _ _ _ _ H1), (bind_ok _ _ _ _ _ H2).
    rewrite Z.eqb_refl. cbn [negb]. rewrite Hc. pose proof (at_length _ _ Ha) as Hlen.
    rewrite length_app in Hlen. apply at_app in Ha.
    destruct (IH fuel (REDIR c (S p) (S p + length w) mode fd) (Redir a w mode fd) _ Ha Hr Hk Hav)
      as (c' & R & Hs'); [done|unfold pr_redir in *; cbn [length] in *; lia|].
    exists c'. rewrite R. by rewrite length_redirs_cons, Nat.add_assoc.
Qed.

Lemma pr_args_cons w args s : pr_args (w :: args) ++ s = pr_word w ++ (pr_args args ++ s).
Proof. unfold pr_args. cbn. by rewrite <- app_assoc. Qed.

Lemma args_clean args rs k : Forall good_word args -> good_redirs rs -> clean k ->
  clean (pr_args args ++ pr_redirs rs ++ k).
Proof.
  intros Ha Hr Hk. destruct args as [|w args]; [by apply redirs_clean|]. apply Forall_cons in Ha as [Hw _].
  rewrite pr_args_cons. unfold pr_word. rewrite <- app_assoc. by apply word_clean.
Qed.

Lemma gettoken_end p : at_ p [] -> gettoken line p = Ok ((0, p, p), p).
Proof.
  intros Ha. unfold gettoken. rewrite bind_get, (skip_clean p [] Ha) by done.
  rewrite (bind_ok _ _ _ _ _ (char_at_run _ p [] Ha)). cbn [head default from_option id].
  change (0 =? 0) with true. cbv iota. by rewrite bind_ret, bind_put, (skip_clean p [] Ha).
Qed.

Lemma args_stop fuel argc ret p k :
  at_ p k -> begins (codes "|)&;") k -> args_loop line (S fuel) argc ret p = Ok (ret, p).
Proof.
  intros Ha Hk. assert (clean k) as Hk' by (by apply (begins_clean (codes "|)&;")); [all_chars|]).
  cbn [args_loop]. rewrite (bind_ok _ _ _ _ _ (peek_run _ _ _ Ha Hk')).
  destruct k as [|c k]; [|by rewrite Hk]. cbv iota. by rewrite (bind_ok _ _ _ _ _ (gettoken_end p Ha)).
Qed.

Lemma parseredirs_none fuel c p s :
  at_ p s -> clean s -> avoids (codes "<>") s -> parseredirs line (S fuel) c p = Ok (c, p).
Proof. intros Ha Hs Hav. cbn [parseredirs]. by rewrite (bind_ok _ _ _ _ _ (peek_false _ _ _ Ha Hs Hav)). Qed.

Lemma pr_word_clean w s : good_word w -> clean (pr_word w ++ s).
Proof. unfold pr_word. rewrite <- app_assoc. apply word_clean. Qed.

Lemma pr_word_avoids toks w s :
  Forall (fun x => is_in symbols x = true) toks -> good_word w -> avoids toks (pr_word w ++ s).
Proof. unfold pr_word. rewrite <- app_assoc. apply word_avoids. Qed.

(** A round of the loop that takes an argument. *)
Lemma args_loop_arg fuel argv p w s :
  at_ p (pr_word w ++ s) -> good_word w -> clean s -> (S (length argv) < MAXARGS)%nat ->
  args_loop line (S fuel) (length argv) (EXEC argv) p =
    (ret ← parseredirs line fuel (EXEC (argv ++ [(p, (p + length w)%nat)]));
     args_loop line fuel (S (length argv)) ret) (p + length (pr_word w))%nat.
Proof.
  intros Ha Hw Hs Hmax. cbn [args_loop].
  rewrite (bind_ok _ _ _ _ _ (peek_false (codes "|)&;") _ _ Ha (pr_word_clean w s Hw)
    (pr_word_avoids (codes "|)&;") w s ltac:(all_chars) Hw))). cbv iota.
  rewrite (bind_ok _ _ _ _ _ (gettoken_word _ _ _ Ha Hw Hs)).
  change (code "a" =? 0) with false. rewrite Z.eqb_refl. cbn [negb add_arg].
  by destruct (Nat.leb_spec MAXARGS (S (length argv))); [lia|].
Qed.

(** The arguments that are left behind those in [l], and the redirections. *)
Lemma args_loop_run args rs fuel argv l p k :
  at_ p (pr_args args ++ pr_redirs rs ++ k) -> Forall good_word args -> good_redirs rs ->
  begins (codes "|)&;") k -> Forall2 (shows_word line) argv l ->
  (length l + length args < MAXARGS)%nat -> (args = [] -> rs = []) -> (length line - p < fuel)%nat ->
  exists c', args_loop line fuel (length argv) (EXEC argv) p =
      Ok (c', (p + length (pr_args args) + length (pr_redirs rs))%nat) /\
    shows line c' (wrap (Exec (l ++ args)) rs).
Proof.
  revert fuel argv l p. induction args as [|w args IH]; intros fuel argv l p Ha Hg Hr Hk Hsh Hmax Hrs Hf;
    (destruct fuel as [|fuel]; [lia|]).
  - rewrite Hrs in * by done. rewrite app_nil_r. exists (EXEC argv).
    rewrite (args_stop _ _ _ p k Ha Hk). by rewrite !Nat.add_0_r.
  - apply Forall_cons in Hg as [Hw Hg]. rewrite pr_args_cons in Ha. cbn [length] in Hmax.
    assert (clean k) as Hck by (by apply (begins_clean (codes "|)&;")); [all_chars|]).
    pose proof (args_clean args rs k Hg Hr Hck) as Hcl. pose proof (Forall2_length _ _ _ Hsh) as Hl.
    rewrite (args_loop_arg _ _ _ _ _ Ha Hw Hcl) by lia.
    pose proof (shows_at _ _ _ Ha Hw) as Hsw. pose proof (at_length _ _ Ha) as Hlen.
    rewrite length_app in Hlen. apply at_app in Ha.
    assert (length (pr_word w) <> 0%nat) as Hw0 by (unfold pr_word; rewrite length_app; cbn; lia).
    assert (length (pr_args (w :: args)) = (length (pr_word w) + length (pr_args args))%nat) as ->
      by apply (length_app (pr_word w) (pr_args args)).
    set (p1 := (p + length (pr_word w))%nat) in *. set (argv1 := argv ++ [(p, (p + length w)%nat)]).
    assert (Forall2 (shows_word line) argv1 (l ++ [w])) as Hsh1 by (apply Forall2_app; [done|]; constructor; [done|constructor]).
    assert (S (length argv) = length argv1) as -> by (unfold argv1; rewrite length_app; cbn; lia).
    rewrite !Nat.add_assoc. fold p1. destruct args as [|w' args].
    + cbn [app pr_args concat map] in Ha.
      destruct (parseredirs_run rs fuel (EXEC argv1) (Exec (l ++ [w])) p1 k Ha Hr Hck) as (c' & R & Hc');
        [by apply (begins_avoids (codes "|)&;")); [all_chars|]|done|lia|].
      exists c'. rewrite (bind_ok _ _ _ _ _ R). apply at_app in Ha. destruct fuel as [|fuel]; [lia|].
      rewrite (args_stop _ _ _ _ k Ha Hk). split; [|done]. cbn [length pr_args concat map]. by rewrite Nat.add_0_r.
    + assert (avoids (codes "<>") (pr_args (w' :: args) ++ pr_redirs rs ++ k)) as Hav.
      { rewrite pr_args_cons. apply Forall_cons in Hg as [? _]. by apply pr_word_avoids; [all_chars|]. }
      destruct fuel as [|fuel]; [lia|].
      rewrite (bind_ok _ _ _ _ _ (parseredirs_none fuel (EXEC argv1) p1 _ Ha Hcl Hav)).
      destruct (IH (S fuel) argv1 (l ++ [w]) p1 Ha Hg Hr Hk Hsh1) as (c' & R & Hc');
        [rewrite length_app; cbn [length] in *; lia|done|lia|].
      exists c'. split; [exact R|]. by rewrite <- app_assoc in Hc'.
Qed.

(** ** The grammar *)

Lemma print_clean level a k : good a -> clean k -> clean (print level a ++ k).
Proof.
  revert level k. induction a as [args|c IH w m d|l IHl r IHr|l IHl r IHr|c IH]; intros level k Hg Hk;
    cbn [print good] in *; unfold paren; rewrite <- ?app_assoc.
  - apply (args_clean args [] k); [apply Hg|constructor|done].
  - apply IH; [apply Hg|]. apply (redirs_clean [(w, m, d)] k); [apply Forall_cons_2; [apply Hg|constructor]|done].
  - destruct (2 <? level)%nat; [done|]. rewrite <- app_assoc. by apply IHl; [apply Hg|].
  - destruct (0 <? level)%nat; [done|]. rewrite <- app_assoc. by apply IHl; [apply Hg|].
  - destruct (1 <? level)%nat; [done|]. rewrite <- app_assoc. by apply IH.
Qed.

(** The parser [run] reads [s] at [p] as the tree [a]. *)
Definition parses (run : M nat cmd) (p : nat) (s : list Z) (a : tree) : Prop :=
  exists c, run p = Ok (c, (p + length s)%nat) /\ shows line c a.

Definition parses3 (a : tree) : Prop := forall rs n k p,
  good_redirs rs -> at_ p (print 3 a ++ pr_redirs rs ++ k) -> begins (codes "|)&;") k ->
  (4 * (length line - p) + 2 <= n)%nat ->
  parses (parseexec line n) p (print 3 a ++ pr_redirs rs) (wrap a rs).

Definition parses2 (a : tree) : Prop := forall n k p,
  at_ p (print 2 a ++ k) -> begins (codes ")&;") k -> (4 * (length line - p) + 3 <= n)%nat ->
  parses (parsepipe line n) p (print 2 a) a.

Definition parses1 (a : tree) : Prop := forall n m k p,
  at_ p (print 1 a ++ k) -> begins (codes ")&;") k -> (4 * (length line - p) + 3 <= n)%nat ->
  (length line - p < m)%nat ->
  exists c m', let p' := (p + length (print 1 a))%nat in
    (c0 ← parsepipe line n; back_loop line m c0) p = back_loop line m' c p' /\
    shows line c a /\ (length line - p' < m')%nat.

Definition parses0 (a : tree) : Prop := forall n k p,
  at_ p (print 0 a ++ k) -> begins (codes ")") k -> (4 * (length line - p) + 4 <= n)%nat ->
  parses (parseline line n) p (print 0 a) a.

Lemma peek_begins toks toks' p k :
  at_ p k -> begins toks k -> Forall (fun x => is_in whitespace x = false) toks ->
  Forall (fun x => is_in toks' x = false) toks -> peek line toks' p = Ok (false, p).
Proof.
  intros Ha Hk Hw Ht. apply (peek_false toks' p k Ha); [by apply (begins_clean toks)|by apply (begins_avoids toks)].
Qed.

(** A separator and the text behind it. *)
Lemma symbol_run c toks p s :
  at_ p (c :: s) -> is_in (codes "|();&<") c = true -> is_in toks c = true -> clean s ->
  peek line toks p = Ok (true, p) /\ gettoken line p = Ok ((c, p, S p), S p) /\ at_ (S p) s.
Proof.
  intros Ha Hc Ht Hs. split; [|split; [by apply (gettoken_symbol _ _ s)|by apply at_cons in Ha as [_ ?]]].
  apply (peek_true toks p (c :: s) Ha); [|done|done].
  by apply (begins_clean (codes "|();&<") (c :: s)); [all_chars|].
Qed.

Lemma parses_paren a : print 3 a = paren true (print 0 a) -> good a -> parses0 a -> parses3 a.
Proof.
  intros He Hg H0 rs n k p Hr Ha Hk Hn. unfold parses. rewrite He in *. cbn [paren app length] in *.
  assert (clean k) as Hck by (by apply (begins_clean (codes "|)&;")); [all_chars|]).
  assert (clean (code ")" :: pr_redirs rs ++ k)) as Hc1 by done. rewrite <- app_assoc in Ha. cbn [app] in Ha.
  destruct n as [|[|n]]; [lia..|]. cbn [parseexec parseblock].
  destruct (symbol_run (code "(") (codes "(") p _ Ha eq_refl eq_refl (print_clean 0 a _ Hg Hc1)) as (R1 & R2 & Ha1).
  rewrite (bind_ok _ _ _ _ _ R1), (bind_ok _ _ _ _ _ R1). cbn [negb]. rewrite (bind_ok _ _ _ _ _ R2).
  pose proof (at_length _ _ Ha) as Hlen. cbn [length] in Hlen.
  destruct (H0 n _ (S p) Ha1) as (c & R & Hc); [done|lia|]. rewrite (bind_ok _ _ _ _ _ R).
  apply at_app in Ha1.
  destruct (symbol_run (code ")") (codes ")") _ _ Ha1 eq_refl eq_refl (redirs_clean rs k Hr Hck)) as (R3 & R4 & Ha2).
  rewrite (bind_ok _ _ _ _ _ R3). cbn [negb]. rewrite (bind_ok _ _ _ _ _ R4).
  destruct (parseredirs_run rs n c a _ k Ha2 Hr Hck) as (c' & R5 & Hc');
    [by apply (begins_avoids (codes "|)&;")); [all_chars|]|done|lia|].
  exists c'. rewrite R5. split; [|done]. do 2 f_equal. rewrite !length_app. cbn [length]. lia.
Qed.

Lemma parses_pipe a : print 2 a = print 3 a -> parses3 a -> parses2 a.
Proof.
  intros He H3 n k p Ha Hk Hn. unfold parses. rewrite He in *. destruct n as [|n]; [lia|]. cbn [parsepipe].
  destruct (H3 [] n k p) as (c & R & Hc);
    [constructor|done|by apply (begins_sub (codes ")&;")); [all_chars|]|lia|].
  cbn [pr_redirs concat map] in R. rewrite app_nil_r in R. exists c.
  rewrite (bind_ok _ _ _ _ _ R). apply at_app in Ha.
  by rewrite (bind_ok _ _ _ _ _ (peek_begins _ (codes "|") _ k Ha Hk ltac:(all_chars) ltac:(all_chars))).
Qed.

Lemma parses_back a : print 1 a = print 2 a -> parses2 a -> parses1 a.
Proof.
  intros He H2 n m k p Ha Hk Hn Hm. rewrite He in *. destruct (H2 n k p Ha Hk Hn) as (c & R & Hc).
  exists c, m. cbn zeta. rewrite (bind_ok _ _ _ _ _ R). split; [done|]. split; [done|lia].
Qed.

Lemma back_loop_stop m c p k : at_ p k -> begins (codes ");") k -> (length line - p < m)%nat ->
  back_loop line m c p = Ok (c, p).
Proof.
  intros Ha Hk Hm. destruct m as [|m]; [lia|]. cbn [back_loop].
  by rewrite (bind_ok _ _ _ _ _ (peek_begins _ (codes "&") _ k Ha Hk ltac:(all_chars) ltac:(all_chars))).
Qed.

Lemma parses_line a : print 0 a = print 1 a -> parses1 a -> parses0 a.
Proof.
  intros He H1 n k p Ha Hk Hn. unfold parses. rewrite He in *. destruct n as [|n]; [lia|]. cbn [parseline].
  destruct (H1 n n k p Ha) as (c & m & R & Hc & Hm);
    [by apply (begins_sub (codes ")")); [all_chars|]|lia|lia|].
  cbn zeta in *. apply at_app in Ha. rewrite (back_loop_stop m c _ k Ha) in R;
    [|by apply (begins_sub (codes ")")); [all_chars|]|done].
  exists c. rewrite <- bind_bind. rewrite (bind_ok _ _ _ _ _ R).
  by rewrite (bind_ok _ _ _ _ _ (peek_begins _ (codes ";") _ k Ha Hk ltac:(all_chars) ltac:(all_chars))).
Qed.

Lemma parses_exec args : good (Exec args) -> parses3 (Exec args).
Proof.
  intros [Hg Hmax] rs n k p Hr Ha Hk Hn. unfold parses. cbn [print] in *. destruct n as [|n]; [lia|]. cbn [parseexec].
  assert (clean k) as Hck by (by apply (begins_clean (codes "|)&;")); [all_chars|]).
  assert (avoids (codes "(") (pr_args args ++ pr_redirs rs ++ k)) as Hav.
  { destruct args as [|w args]; [|rewrite pr_args_cons; apply Forall_cons in Hg as [? _];
      by apply pr_word_avoids; [all_chars|]].
    destruct rs as [|[[w m] d] rs]; [by apply (begins_avoids (codes "|)&;")); [all_chars|]|].
    rewrite pr_redirs_cons. cbn. by destruct (d =? 0). }
  rewrite (bind_ok _ _ _ _ _ (peek_false _ _ _ Ha (args_clean args rs k Hg Hr Hck) Hav)). cbv iota.
  rewrite length_app, Nat.add_assoc. destruct n as [|n]; [lia|]. destruct args as [|w args].
  - destruct (parseredirs_run rs (S n) (EXEC []) (Exec []) p k Ha Hr Hck) as (c & R & Hc);
      [by apply (begins_avoids (codes "|)&;")); [all_chars|]|constructor|lia|].
    exists c. unfold execcmd. rewrite (bind_ok _ _ _ _ _ R). cbn [pr_args concat map length]. rewrite Nat.add_0_r.
    cbn [app pr_args concat map] in Ha. apply at_app in Ha. by rewrite (args_stop _ _ _ _ k Ha Hk).
  - assert (avoids (codes "<>") (pr_args (w :: args) ++ pr_redirs rs ++ k)) as Hav2.
    { rewrite pr_args_cons. apply Forall_cons in Hg as [? _]. by apply pr_word_avoids; [all_chars|]. }
    rewrite (bind_ok _ _ _ _ _ (parseredirs_none n execcmd p _ Ha (args_clean _ rs k Hg Hr Hck) Hav2)).
    apply (args_loop_run (w :: args) rs (S n) [] [] p k Ha Hg Hr Hk); [constructor|done|done|lia].
Qed.

Lemma parses_redir c w m d : good (Redir c w m d) -> parses3 c -> parses3 (Redir c w m d).
Proof.
  intros [_ Hg] H3 rs n k p Hr Ha Hk Hn. cbn [print] in *. rewrite <- app_assoc in Ha |- *.
  apply (H3 ((w, m, d) :: rs) n k p); [by apply Forall_cons_2| |done|done].
  by rewrite pr_redirs_cons.
Qed.

Lemma parses_bar l r : good r -> parses3 l -> parses2 r -> parses2 (Pipe l r).
Proof.
  intros Hg H3 H2 n k p Ha Hk Hn. cbn [print paren Nat.ltb Nat.leb] in *. unfold parses.
  rewrite <- app_assoc in Ha. cbn [app] in Ha.
  destruct n as [|n]; [lia|]. cbn [parsepipe]. pose proof (at_length _ _ Ha) as Hlen.
  assert (clean k) as Hck by (by apply (begins_clean (codes ")&;")); [all_chars|]).
  destruct (H3 [] n (code "|" :: print 2 r ++ k) p) as (c & R & Hc); [constructor|done|done|lia|].
  cbn [pr_redirs concat map] in R. rewrite app_nil_r in R. rewrite (bind_ok _ _ _ _ _ R).
  rewrite length_app in Hlen. cbn [length] in Hlen. apply at_app in Ha.
  destruct (symbol_run _ (codes "|") _ _ Ha eq_refl eq_refl (print_clean 2 r k Hg Hck)) as (R1 & R2 & Ha1).
  rewrite (bind_ok _ _ _ _ _ R1). cbv iota. rewrite (bind_ok _ _ _ _ _ R2).
  destruct (H2 n k _ Ha1 Hk) as (c' & R3 & Hc'); [lia|]. rewrite (bind_ok _ _ _ _ _ R3).
  exists (PIPE c c'). split; [|done]. unfold mret, M_ret, pipecmd. do 2 f_equal. rewrite length_app. cbn [length]. lia.
Qed.

Lemma parses_amp c : parses1 c -> parses1 (Back c).
Proof.
  intros H1 n m k p Ha Hk Hn Hm. cbn [print paren Nat.ltb Nat.leb] in *. rewrite <- app_assoc in Ha. cbn [app] in Ha.
  assert (clean k) as Hck by (by apply (begins_clean (codes ")&;")); [all_chars|]).
  destruct (H1 n m _ p Ha) as (cc & m' & R & Hc & Hm'); [done|lia|done|]. cbn zeta in *.
  apply at_app in Ha. destruct m' as [|m']; [lia|]. pose proof (at_length _ _ Ha) as Hlen. cbn [length] in Hlen.
  destruct (symbol_run _ (codes "&") _ _ Ha eq_refl eq_refl Hck) as (R1 & R2 & Ha1).
  exists (BACK cc), m'. rewrite R. cbn [back_loop]. rewrite (bind_ok _ _ _ _ _ R1). cbv iota.
  rewrite (bind_ok _ _ _ _ _ R2), length_app. cbn [length]. rewrite Nat.add_1_r, Nat.add_succ_r.
  split; [done|]. split; [done|lia].
Qed.

Lemma parses_semi l r : good r -> parses1 l -> parses0 r -> parses0 (Seq l r).
Proof.
  intros Hg H1 H0 n k p Ha Hk Hn. cbn [print paren Nat.ltb Nat.leb] in *. unfold parses.
  rewrite <- app_assoc in Ha. cbn [app] in Ha. destruct n as [|n]; [lia|]. cbn [parseline].
  assert (clean k) as Hck by (by apply (begins_clean (codes ")")); [all_chars|]).
  pose proof (at_length _ _ Ha) as Hlen. rewrite length_app in Hlen. cbn [length] in Hlen.
  destruct (H1 n n _ p Ha) as (c & m & R & Hc & Hm); [done|lia|lia|]. cbn zeta in *.
  apply at_app in Ha. rewrite (back_loop_stop m c _ _ Ha) in R by done.
  rewrite <- bind_bind, (bind_ok _ _ _ _ _ R).
  destruct (symbol_run _ (codes ";") _ _ Ha eq_refl eq_refl (print_clean 0 r k Hg Hck)) as (R1 & R2 & Ha1).
  rewrite (bind_ok _ _ _ _ _ R1). cbv iota. rewrite (bind_ok _ _ _ _ _ R2).
  destruct (H0 n k _ Ha1 Hk) as (c' & R3 & Hc'); [lia|]. rewrite (bind_ok _ _ _ _ _ R3).
  exists (LIST c c'). split; [|done]. unfold mret, M_ret, listcmd. do 2 f_equal. rewrite length_app. cbn [length]. lia.
Qed.

Lemma parses_all a : good a -> parses3 a /\ parses2 a /\ parses1 a /\ parses0 a.
Proof.
  induction a as [args|c IH w m d|l IHl r IHr|l IHl r IHr|c IH]; intros Hg.
  - pose proof (parses_exec args Hg). eauto 10 using parses_pipe, parses_back, parses_line.
  - destruct (IH (proj1 Hg)) as (H3 & _). pose proof (parses_redir c w m d Hg H3).
    eauto 10 using parses_pipe, parses_back, parses_line.
  - destruct (IHl (proj1 Hg)) as (H3 & _), (IHr (proj2 Hg)) as (_ & H2 & _).
    pose proof (parses_bar l r (proj2 Hg) H3 H2). assert (parses1 (Pipe l r)) by by apply parses_back.
    assert (parses0 (Pipe l r)) by by apply parses_line. by split; [apply parses_paren|].
  - destruct (IHl (proj1 Hg)) as (_ & _ & H1 & _), (IHr (proj2 Hg)) as (_ & _ & _ & H0).
    pose proof (parses_semi l r (proj2 Hg) H1 H0) as Hs. assert (parses3 (Seq l r)) by by apply parses_paren.
    eauto 10 using parses_pipe, parses_back.
  - destruct (IH Hg) as (_ & _ & H1 & _). pose proof (parses_amp c H1).
    assert (parses0 (Back c)) by by apply parses_line. assert (parses3 (Back c)) by by apply parses_paren.
    eauto 10 using parses_pipe.
Qed.
End Line.

(** C9. Every command is read back from its printed form: the strings of the parsed command,
    as [nulterminate] leaves them in the line, make up the tree that was printed. *)
Theorem parsecmd_reads_the_printed a :
  good a -> exists c m, parsecmd (print 0 a) = Ok (c, m) /\ tree_of m c = a.
Proof.
  intros Hg. destruct (parses_all (print 0 a) a Hg) as (_ & _ & _ & H0).
  assert (at_ (print 0 a) 0 (print 0 a ++ [])) as Ha by (split; [by rewrite app_nil_r|lia]).
  destruct (H0 (parse_fuel (print 0 a)) [] O Ha) as (c & R & Hc); [done|unfold parse_fuel; lia|].
  exists c, (nulterminate c (print 0 a ++ [0])). split; [|by apply shows_nulterminate].
  unfold parsecmd. apply at_app in Ha.
  rewrite (bind_ok _ _ _ _ _ R), (bind_ok _ _ _ _ _ (peek_run _ [] _ [] Ha I)). cbn [mret M_ret mbind res_bind].
  by rewrite bool_decide_false by (intros Hne; by apply Hne).
Qed.

(** The command "(a b | c > d ) & ; e < f". *)
Definition small_tree : tree :=
  Seq (Back (Pipe (Exec [[97]; [98]]) (Redir (Exec [[99]]) [100] (Z.lor O_WRONLY O_CREATE) 1)))
    (Redir (Exec [[101]]) [102] O_RDONLY 0).

Lemma parsecmd_reads_the_printed_witness :
  exists c m, parsecmd (print 0 small_tree) = Ok (c, m) /\ tree_of m c = small_tree.
Proof.
  apply (parsecmd_reads_the_printed small_tree).
  assert (forall c, word_char c = true -> c <> 0 -> good_word [c]) as Hw by (by repeat constructor).
  repeat split; repeat constructor; apply Hw || idtac; done || (right; done) || (left; done).
Defined.
