(* ===== verification/Syscall.v ===== *)
(** * Arguments of system calls

    The functions of [lab-2/syscall.c] that fetch arguments, on the memory of the process
    below its size.  A pointer to user memory is its address. *)

From S2P Require Import Prelude CString Bytes Kalloc Bcache Log Fs Pipe File.

(** The process that makes the call, over the files: its memory, the stack pointer of the
    trap frame, the open files; [cwd] is a field of the file system. *)
Record task := Task {
  files : filesys;
  umem : list Z;
  uesp : Z;
  ofile : list (option nat)
}.

Definition set_files v t := Task v (umem t) (uesp t) (ofile t).
Definition set_umem v t := Task (files t) v (uesp t) (ofile t).
Definition set_ofile v t := Task (files t) (umem t) (uesp t) v.
Definition usize (t : task) : Z := Z.of_nat (length (umem t)).

Abbreviation Tm := (M task).

Definition on_files {A} (m : Fm A) : Tm A := fun t =>
  match m (files t) with
  | Ok (a, s) => Ok (a, set_files s t)
  | Panic msg => Panic msg
  | Fault w => Fault w
  | Diverge => Diverge
  end.
Definition on_inodes {A} (m : Fs A) : Tm A := on_files (on_fs m).

(** Loads and stores of user memory. *)
Definition load_user (w : nat) (a : Z) : Tm Z :=
  t ← get; lift_opt "user memory" (get_le w (Z.to_nat a) (umem t)).
Definition store_user (w : nat) (a v : Z) : Tm unit :=
  t ← get; m ← lift_opt "user memory" (put_le w (Z.to_nat a) v (umem t)); put (set_umem m t).
Definition store_bytes_user (a : Z) (l : list Z) : Tm unit :=
  t ← get;
  if (Z.to_nat a + length l <=? length (umem t))%nat
  then put (set_umem (splice (Z.to_nat a) l (umem t)) t)
  else fault "user memory".

(** A fetched argument; [None] for -1. *)
Definition fetchint (addr : Z) : Tm (option Z) :=
  sz ← gets usize;
  if (sz <=? addr) || (sz <? w32 (addr + 4)) then mret None
  else v ← load_user 4 addr; mret (Some (i32 v)).

(** The loop of [fetchstr], [n] bytes before the end of the memory. *)
Fixpoint str_loop (n : nat) (s : Z) : Tm bool :=
  match n with
  | O => mret false
  | S n' => c ← load_user 1 s; if c =? 0 then mret true else str_loop n' (s + 1)
  end.

(** The pointer to the string. *)
Definition fetchstr (addr : Z) : Tm (option Z) :=
  sz ← gets usize;
  if sz <=? addr then mret None
  else
    found ← str_loop (Z.to_nat (sz - addr)) addr;
    mret (if found : bool then Some addr else None).

Definition argint (n : Z) : Tm (option Z) :=
  sp ← gets uesp; fetchint (w32 (sp + 4 + 4 * n)).

Definition argptr (n size : Z) : Tm (option Z) :=
  i ← argint n;
  sz ← gets usize;
  mret (match i with
        | None => None
        | Some i =>
            if (size <? 0) || (sz <=? w32 i) || (sz <? w32 (w32 i + size)) then None
            else Some (w32 i)
        end).

Definition argstr (n : Z) : Tm (option Z) :=
  addr ← argint n;
  match addr with None => mret None | Some a => fetchstr (w32 a) end.

(** ** What a fetched argument is *)

(** The size of a process leaves room below [KERNBASE]. *)
Definition task_ok (t : task) : Prop := usize t <= 2 ^ 31 /\ Forall (fun b => 0 <= b < 256) (umem t).

Lemma get_le_some w off d : (off + w <= length d)%nat -> is_Some (get_le w off d).
Proof. intros Hle. unfold get_le. rewrite (proj2 (Nat.leb_le _ _) Hle). by eexists. Qed.

Lemma get_le_byte off d c : d !! off = Some c -> get_le 1 off d = Some c.
Proof.
  intros Hc. pose proof (lookup_lt_Some _ _ _ Hc). unfold get_le. rewrite (proj2 (Nat.leb_le _ _)) by lia.
  rewrite (drop_S _ _ _ Hc). cbn [take firstn]. f_equal. rewrite take_0. cbn. lia.
Qed.

Lemma fetchint_run t addr : task_ok t -> 0 <= addr < 2 ^ 32 ->
  exists r, fetchint addr t = Ok (r, t) /\
    (r = None <-> usize t < addr + 4) /\
    (forall v, r = Some v -> exists u, get_le 4 (Z.to_nat addr) (umem t) = Some u /\ v = i32 u).
Proof.
  intros [Hsz _] Ha. unfold fetchint. rewrite bind_gets.
  destruct (Z.leb_spec (usize t) addr).
  { exists None. cbn [orb]. split; [done|]. split; [split; [lia|done]|done]. }
  rewrite (w32_small (addr + 4)) by lia.
  destruct (Z.ltb_spec (usize t) (addr + 4)).
  { exists None. cbn [orb]. split; [done|]. split; [split; [lia|done]|done]. }
  cbn [orb]. destruct (get_le_some 4 (Z.to_nat addr) (umem t)) as [u Hu]; [unfold usize in *; lia|].
  exists (Some (i32 u)). unfold load_user. rewrite bind_bind, bind_get, Hu, bind_lift_Some.
  split; [done|]. split; [split; [done|lia]|]. intros v [= <-]. by exists u.
Qed.

Lemma str_loop_run t n s : 0 <= s -> s + Z.of_nat n <= usize t ->
  str_loop n s t = Ok (bool_decide (0 ∈ take n (drop (Z.to_nat s) (umem t))), t).
Proof.
  revert s. induction n as [|n IH]; intros s Hs Hn; cbn [str_loop].
  - by rewrite take_0.
  - destruct (lookup_lt_is_Some_2 (umem t) (Z.to_nat s)) as [c Hc]; [unfold usize in Hn; lia|].
    unfold load_user. rewrite bind_bind, bind_get, (get_le_byte _ _ _ Hc), bind_lift_Some.
    rewrite (drop_S _ _ _ Hc). cbn [take]. destruct (Z.eqb_spec c 0) as [->|Hne].
    + rewrite bool_decide_true by by left. done.
    + rewrite IH by lia. do 2 f_equal. replace (Z.to_nat (s + 1)) with (S (Z.to_nat s)) by lia.
      apply bool_decide_ext. rewrite elem_of_cons. naive_solver.
Qed.

(** The string is in the memory of the process, its end included. *)
Definition user_string (t : task) (a : Z) : Prop :=
  0 <= a < usize t /\ 0 ∈ drop (Z.to_nat a) (umem t).

Lemma fetchstr_run t addr : 0 <= addr ->
  exists r, fetchstr addr t = Ok (r, t) /\ (forall a, r = Some a <-> a = addr /\ user_string t addr).
Proof.
  intros Ha. unfold fetchstr. rewrite bind_gets. destruct (Z.leb_spec (usize t) addr) as [Hle|Hlt].
  - exists None. split; [done|]. intros a. split; [done|]. intros [_ [? _]]. lia.
  - rewrite (bind_ok _ _ _ _ _ (str_loop_run t (Z.to_nat (usize t - addr)) addr Ha ltac:(lia))).
    rewrite take_ge by (rewrite length_drop; unfold usize; lia). case_bool_decide as Hin.
    + exists (Some addr). split; [done|]. intros a. split; [intros [= <-]; by split|by intros [-> _]].
    + exists None. split; [done|]. intros a. split; [done|]. by intros [_ [_ ?]].
Qed.

(** C7. [argptr] gives a block inside the memory of the process, and [argstr] a string that
    ends in it; otherwise they return -1.  Neither reads outside the memory of the process,
    wherever its stack pointer is. *)
Theorem arguments_are_in_the_process t n size :
  task_ok t ->
  (exists r, argptr n size t = Ok (r, t) /\
    forall a, r = Some a -> 0 <= a < usize t /\ 0 <= size /\ (size < 2 ^ 31 -> a + size <= usize t)) /\
  (exists r, argstr n t = Ok (r, t) /\ forall a, r = Some a -> user_string t a).
Proof.
  intros Hok. pose proof (w32_bounds (uesp t + 4 + 4 * n)) as Hw.
  assert (argint n t = fetchint (w32 (uesp t + 4 + 4 * n)) t) as Hi by done.
  destruct (fetchint_run t _ Hok Hw) as (i & R & _ & _). rewrite <- Hi in R. split.
  - unfold argptr. rewrite (bind_ok _ _ _ _ _ R), bind_gets. eexists. split; [done|].
    intros a. destruct i as [i|]; [|done]. pose proof (w32_bounds i). pose proof (w32_bounds (w32 i + size)).
    destruct (Z.ltb_spec size 0); [done|]. destruct (Z.leb_spec (usize t) (w32 i)); [done|].
    destruct (Z.ltb_spec (usize t) (w32 (w32 i + size))); [done|]. intros [= <-].
    split; [lia|]. split; [done|]. intros Hs. destruct Hok as [Hsz _].
    rewrite (w32_small (w32 i + size)) in * by lia. lia.
  - unfold argstr. rewrite (bind_ok _ _ _ _ _ R). destruct i as [i|]; [|by exists None].
    destruct (fetchstr_run t (w32 i)) as (r & Rs & Hr); [apply w32_bounds|].
    exists r. split; [exact Rs|]. by intros a [-> ?]%Hr.
Qed.

(** A process without files whose first argument is the address of a string at the end of
    its memory. *)
Definition string_task : task :=
  Task (Filesys (Fsys (power_on 0 []) (Superblock 0 0 0 0 0 0 0) false [] 0) false [] ∅
      (Machine ∅ false false 0 0 0))
    [0; 0; 0; 0; 8; 0; 0; 0; 97; 98; 0] 0 [].

Lemma arguments_are_in_the_process_witness :
  (exists r, argptr 0 3 string_task = Ok (r, string_task) /\
    forall a, r = Some a -> 0 <= a < usize string_task /\ 0 <= 3 /\
      (3 < 2 ^ 31 -> a + 3 <= usize string_task)) /\
  (exists r, argstr 0 string_task = Ok (r, string_task) /\
    forall a, r = Some a -> user_string string_task a).
Proof.
  apply (arguments_are_in_the_process string_task 0 3). split; [by vm_compute|].
  repeat (apply Forall_cons_2; [lia|]). apply Forall_nil_2.
Defined.
