(* ===== verification/Sysfile.v ===== *)
(** * File system calls

    [lab-2/sysfile.c] but [sys_exec], over [lab-2/file.c] and [lab-2/fs.c]. *)

From S2P Require Import Prelude CString Bytes Layout Kalloc ProcData Bcache Log Fs Pipe File Sh Syscall.

Definition O_RDWR : Z := 0x002.

Section Calls.
Context `{Devices} `{Linker}.
Context (killed : bool) (fuel : nat) (others : store -> store).

Definition begin_op_call : Tm unit := on_inodes (disk (begin_op fuel others)).
Definition end_op_call : Tm unit := on_inodes (disk end_op).
Definition close_call (f : nat) : Tm unit := on_files (fileclose fuel others f).

(** The string at a pointer and what is behind it in memory. *)
Definition string_at (a : Z) : Tm (list Z) := gets (fun t => drop (Z.to_nat a) (umem t)).

Definition argfd (n : Z) : Tm (option (nat * nat)) :=
  fd ← argint n;
  match fd with
  | None => mret None
  | Some fd =>
      if (fd <? 0) || (Z.of_nat NOFILE <=? fd) then mret None
      else
        fs ← gets ofile;
        f ← lift_opt "ofile" (fs !! Z.to_nat fd);
        mret (match f with None => None | Some f => Some (Z.to_nat fd, f) end)
  end.

Definition fdalloc (f : nat) : Tm Z :=
  r ← find_each (seq 0 NOFILE) (fun fd =>
        fs ← gets ofile;
        o ← lift_opt "ofile" (fs !! fd);
        match o with
        | None => modify (fun t => set_ofile (<[fd := Some f]> (ofile t)) t) ;; mret (Some fd)
        | Some _ => mret None
        end);
  mret (match r with Some fd => Z.of_nat fd | None => -1 end).

Definition sys_dup : Tm Z :=
  a ← argfd 0;
  match a with
  | None => mret (-1)
  | Some (_, f) =>
      fd ← fdalloc f;
      if fd <? 0 then mret (-1) else on_files (filedup f) ;; mret fd
  end.

(** A read that sleeps has stored nothing yet. *)
Definition sys_read : Tm (io Z unit) :=
  a ← argfd 0;
  match a with
  | None => mret (Done (-1))
  | Some (_, f) =>
      n ← argint 2;
      match n with
      | None => mret (Done (-1))
      | Some n =>
          p ← argptr 1 n;
          match p with
          | None => mret (Done (-1))
          | Some p =>
              r ← on_files (fileread killed f n);
              match r with
              | Done (r, l) => store_bytes_user p l ;; mret (Done r)
              | Asleep _ => mret (Asleep tt)
              end
          end
      end
  end.

Definition sys_write : Tm (io Z (list Z)) :=
  a ← argfd 0;
  match a with
  | None => mret (Done (-1))
  | Some (_, f) =>
      n ← argint 2;
      match n with
      | None => mret (Done (-1))
      | Some n =>
          p ← argptr 1 n;
          match p with
          | None => mret (Done (-1))
          | Some p => l ← string_at p; on_files (filewrite killed fuel others f l n)
          end
      end
  end.

Definition sys_close : Tm Z :=
  a ← argfd 0;
  match a with
  | None => mret (-1)
  | Some (fd, f) =>
      modify (fun t => set_ofile (<[fd := None]> (ofile t)) t) ;;
      close_call f ;;
      mret 0
  end.

(** The fields of [struct stat] are at 0, 4, 8, 12 and 16. *)
Definition sys_fstat : Tm Z :=
  a ← argfd 0;
  match a with
  | None => mret (-1)
  | Some (_, f) =>
      p ← argptr 1 20;
      match p with
      | None => mret (-1)
      | Some p =>
          r ← on_files (filestat f);
          match r with
          | None => mret (-1)
          | Some s =>
              store_user 4 (p + 4) (st_dev s) ;;
              store_user 4 (p + 8) (st_ino s) ;;
              store_user 2 p (st_type s) ;;
              store_user 2 (p + 12) (st_nlink s) ;;
              store_user 4 (p + 16) (st_size s) ;;
              mret 0
          end
      end
  end.

(** [ip->nlink += k] *)
Definition add_nlink (k : Z) (ip : nat) : Tm unit :=
  on_inodes (updi ip (fun x => set_nlink (i16 (i_nlink x + k)) x)).

(** The end of [sys_link] that takes the link back. *)
Definition link_bad (ip : nat) : Tm Z :=
  on_inodes (ilock (Some ip)) ;;
  add_nlink (-1) ip ;;
  on_inodes (iupdate ip) ;;
  on_inodes (iunlockput ip) ;;
  end_op_call ;;
  mret (-1).

Definition sys_link : Tm Z :=
  old ← argstr 0;
  match old with None => mret (-1) | Some old =>
  new ← argstr 1;
  match new with None => mret (-1) | Some new =>
    begin_op_call ;;
    path ← string_at old;
    r ← on_inodes (namei path);
    match r with
    | None => end_op_call ;; mret (-1)
    | Some ip =>
        on_inodes (ilock (Some ip)) ;;
        x ← on_inodes (geti ip);
        if i_type x =? T_DIR then on_inodes (iunlockput ip) ;; end_op_call ;; mret (-1)
        else
          add_nlink 1 ip ;;
          on_inodes (iupdate ip) ;;
          on_inodes (iunlock (Some ip)) ;;
          path ← string_at new;
          '(d, name) ← on_inodes (nameiparent path (replicate DIRSIZ 0));
          match d with
          | None => link_bad ip
          | Some dp =>
              on_inodes (ilock (Some dp)) ;;
              d ← on_inodes (geti dp);
              x ← on_inodes (geti ip);
              failed ← (if negb (i_dev d =? i_dev x) then mret true
                        else r ← on_inodes (dirlink dp name (i_inum x)); mret (r <? 0));
              if failed : bool then on_inodes (iunlockput dp) ;; link_bad ip
              else
                on_inodes (iunlockput dp) ;;
                on_inodes (iput ip) ;;
                end_op_call ;;
                mret 0
          end
    end
  end end.

Definition isdirempty (dp : nat) : Tm Z :=
  x ← on_inodes (geti dp);
  r ← find_each (filter (fun off => 2 * 16 <= off) (steps 16 (i_size x))) (fun off =>
        de ← on_inodes (read_entry "isdirempty: readi" dp off);
        mret (if negb (de_inum de =? 0) then Some 0 else None));
  mret (default 1 r).

Definition dot : list Z := [46; 0].
Definition dotdot : list Z := [46; 46; 0].

(** The end of [sys_unlink] that removes nothing. *)
Definition unlink_bad (dp : nat) : Tm Z :=
  on_inodes (iunlockput dp) ;; end_op_call ;; mret (-1).

Definition sys_unlink : Tm Z :=
  a ← argstr 0;
  match a with None => mret (-1) | Some a =>
    begin_op_call ;;
    path ← string_at a;
    '(d, name) ← on_inodes (nameiparent path (replicate DIRSIZ 0));
    match d with
    | None => end_op_call ;; mret (-1)
    | Some dp =>
        on_inodes (ilock (Some dp)) ;;
        c1 ← on_inodes (namecmp name dot);
        c2 ← on_inodes (namecmp name dotdot);
        if (c1 =? 0) || (c2 =? 0) then unlink_bad dp
        else
          r ← on_inodes (dirlookup dp name);
          match r with
          | None => unlink_bad dp
          | Some (ip, off) =>
              on_inodes (ilock (Some ip)) ;;
              x ← on_inodes (geti ip);
              if i_nlink x <? 1 then panic "unlink: nlink < 1"
              else
                e ← (if i_type x =? T_DIR then isdirempty ip else mret 1);
                if (i_type x =? T_DIR) && (e =? 0) then on_inodes (iunlockput ip) ;; unlink_bad dp
                else
                  n ← on_inodes (writei dp (replicate 16 0) off 16);
                  if negb (n =? 16) then panic "unlink: writei"
                  else
                    when (i_type x =? T_DIR) (add_nlink (-1) dp ;; on_inodes (iupdate dp)) ;;
                    on_inodes (iunlockput dp) ;;
                    add_nlink (-1) ip ;;
                    on_inodes (iupdate ip) ;;
                    on_inodes (iunlockput ip) ;;
                    end_op_call ;;
                    mret 0
          end
    end
  end.

Definition create (path : list Z) (type major minor : Z) : Tm (option nat) :=
  '(d, name) ← on_inodes (nameiparent path (replicate DIRSIZ 0));
  match d with
  | None => mret None
  | Some dp =>
      on_inodes (ilock (Some dp)) ;;
      r ← on_inodes (dirlookup dp name);
      match r with
      | Some (ip, _) =>
          on_inodes (iunlockput dp) ;;
          on_inodes (ilock (Some ip)) ;;
          x ← on_inodes (geti ip);
          if (type =? T_FILE) && (i_type x =? T_FILE) then mret (Some ip)
          else on_inodes (iunlockput ip) ;; mret None
      | None =>
          d ← on_inodes (geti dp);
          ip ← on_inodes (ialloc (i_dev d) type);
          on_inodes (ilock (Some ip)) ;;
          on_inodes (updi ip (fun x => set_nlink 1 (set_numbers major minor x))) ;;
          on_inodes (iupdate ip) ;;
          x ← on_inodes (geti ip);
          when (type =? T_DIR)
            (add_nlink 1 dp ;;
             on_inodes (iupdate dp) ;;
             r1 ← on_inodes (dirlink ip dot (i_inum x));
             r2 ← (if r1 <? 0 then mret 0 else on_inodes (dirlink ip dotdot (i_inum d)));
             if (r1 <? 0) || (r2 <? 0) then panic "create dots" else mret tt) ;;
          r ← on_inodes (dirlink dp name (i_inum x));
          if r <? 0 then panic "create: dirlink"
          else on_inodes (iunlockput dp) ;; mret (Some ip)
      end
  end.

(** The inode [sys_open] opens, locked. *)
Definition open_inode_of (path : list Z) (omode : Z) : Tm (option nat) :=
  if negb (Z.land omode O_CREATE =? 0) then create path T_FILE 0 0
  else
    r ← on_inodes (namei path);
    match r with
    | None => mret None
    | Some ip =>
        on_inodes (ilock (Some ip)) ;;
        x ← on_inodes (geti ip);
        if (i_type x =? T_DIR) && negb (omode =? O_RDONLY) then on_inodes (iunlockput ip) ;; mret None
        else mret (Some ip)
    end.

Definition sys_open : Tm Z :=
  a ← argstr 0;
  match a with None => mret (-1) | Some a =>
  m ← argint 1;
  match m with None => mret (-1) | Some omode =>
    begin_op_call ;;
    path ← string_at a;
    r ← open_inode_of path omode;
    match r with
    | None => end_op_call ;; mret (-1)
    | Some ip =>
        f ← on_files filealloc;
        fd ← (match f with None => mret (-1) | Some f => fdalloc f end);
        match f with
        | Some f' =>
            if fd <? 0 then
              close_call f' ;; on_inodes (iunlockput ip) ;; end_op_call ;; mret (-1)
            else
              on_inodes (iunlock (Some ip)) ;;
              end_op_call ;;
              on_files (updf f' (fun x => File FD_INODE (f_ref x) (Z.land omode O_WRONLY =? 0)
                (negb (Z.land omode O_WRONLY =? 0) || negb (Z.land omode O_RDWR =? 0)) (f_pipe x) ip 0)) ;;
              mret fd
        | None => on_inodes (iunlockput ip) ;; end_op_call ;; mret (-1)
        end
    end
  end end.

(** The common part of [sys_mkdir] and [sys_mknod]. *)
Definition make (r : option nat) : Tm Z :=
  match r with
  | None => end_op_call ;; mret (-1)
  | Some ip => on_inodes (iunlockput ip) ;; end_op_call ;; mret 0
  end.

Definition sys_mkdir : Tm Z :=
  begin_op_call ;;
  a ← argstr 0;
  r ← (match a with None => mret None | Some a => path ← string_at a; create path T_DIR 0 0 end);
  make r.

Definition sys_mknod : Tm Z :=
  begin_op_call ;;
  a ← argstr 0;
  mj ← (match a with None => mret None | Some _ => argint 1 end);
  mn ← (match mj with None => mret None | Some _ => argint 2 end);
  r ← (match a, mj, mn with
       | Some a, Some mj, Some mn => path ← string_at a; create path T_DEV (i16 mj) (i16 mn)
       | _, _, _ => mret None
       end);
  make r.

Definition sys_chdir : Tm Z :=
  begin_op_call ;;
  a ← argstr 0;
  r ← (match a with None => mret None | Some a => path ← string_at a; on_inodes (namei path) end);
  match r with
  | None => end_op_call ;; mret (-1)
  | Some ip =>
      on_inodes (ilock (Some ip)) ;;
      x ← on_inodes (geti ip);
      if negb (i_type x =? T_DIR) then on_inodes (iunlockput ip) ;; end_op_call ;; mret (-1)
      else
        on_inodes (iunlock (Some ip)) ;;
        c ← on_inodes (gets cwd);
        on_inodes (iput c) ;;
        end_op_call ;;
        on_inodes (modify (set_cwd ip)) ;;
        mret 0
  end.

Definition sys_pipe : Tm Z :=
  p ← argptr 0 8;
  match p with None => mret (-1) | Some p =>
    r ← on_files (pipealloc fuel others);
    match r with
    | None => mret (-1)
    | Some (rf, wf) =>
        fd0 ← fdalloc rf;
        fd1 ← (if fd0 <? 0 then mret (-1) else fdalloc wf);
        if (fd0 <? 0) || (fd1 <? 0) then
          when (0 <=? fd0) (modify (fun t => set_ofile (<[Z.to_nat fd0 := None]> (ofile t)) t)) ;;
          close_call rf ;;
          close_call wf ;;
          mret (-1)
        else
          store_user 4 p fd0 ;;
          store_user 4 (p + 4) fd1 ;;
          mret 0
    end
  end.
End Calls.
