(* ===== verification/Exec.v ===== *)
(** * Program execution

    [lab-2/exec.c], [loaduvm] of [lab-2/vm.c], and [sys_exec] of [lab-2/sysfile.c]: the
    file system and the memory together. *)

From S2P Require Import Prelude CString Bytes Layout Kalloc Vm Bcache Log Fs Pipe File Syscall Sysfile.

(** ** elf.h *)

Definition ELF_MAGIC : Z := 0x464C457F.
Definition ELF_PROG_LOAD : Z := 1.
Definition ELFHDR_SIZE : Z := 52.
Definition PROGHDR_SIZE : Z := 32.
Definition MAXARG : Z := 32.

Record elfhdr := Elfhdr {
  magic : Z; elf : list Z; e_type : Z; e_machine : Z; version : Z; e_entry : Z; phoff : Z; shoff : Z;
  e_flags : Z; ehsize : Z; phentsize : Z; phnum : Z; shentsize : Z; shnum : Z; shstrndx : Z
}.

Record proghdr := Proghdr {
  ph_type : Z; ph_off : Z; ph_vaddr : Z; ph_paddr : Z; ph_filesz : Z; ph_memsz : Z; ph_flags : Z;
  ph_align : Z
}.

(** The [w] bytes at the offset [off] of a structure. *)
Definition field (w off : nat) (l : list Z) : Z := le_val (take w (drop off l)).

Definition elfhdr_of (l : list Z) : elfhdr :=
  Elfhdr (field 4 0 l) (take 12 (drop 4 l)) (field 2 16 l) (field 2 18 l) (field 4 20 l) (field 4 24 l)
    (field 4 28 l) (field 4 32 l) (field 4 36 l) (field 2 40 l) (field 2 42 l) (field 2 44 l)
    (field 2 46 l) (field 2 48 l) (field 2 50 l).

Definition proghdr_of (l : list Z) : proghdr :=
  Proghdr (field 4 0 l) (field 4 4 l) (field 4 8 l) (field 4 12 l) (field 4 16 l) (field 4 20 l)
    (field 4 24 l) (field 4 28 l).

(** ** The process *)

(** What [exec] changes of a process, over the files. *)
Record image := Image { i_pgdir : Z; i_sz : Z; i_eip : Z; i_esp : Z; i_name : list Z }.
Record xproc := Xproc { x_files : filesys; x_image : image }.

Abbreviation Xm := (M xproc).

Definition set_x_files v x := Xproc v (x_image x).
Definition set_x_image v x := Xproc (x_files x) v.

Definition on_filesys {A} (m : Fm A) : Xm A := fun x =>
  match m (x_files x) with
  | Ok (a, s) => Ok (a, set_x_files s x)
  | Panic msg => Panic msg
  | Fault w => Fault w
  | Diverge => Diverge
  end.

(** What [switchuvm] does to the memory: the check of the page directory, and [lcr3].  Its
    task state segment, and the checks for a process and a kernel stack, are left out. *)
Definition switchuvm (pgdir : Z) : Mem unit :=
  if pgdir =? 0 then panic "switchuvm: no pgdir" else modify (set_cr3 (V2P pgdir)).

(** ** The stack of the new program *)

Definition string_length (s : list Z) : Mem Z :=
  match strlen (S (length s)) 0 s with Ok (n, _) => mret n | _ => fault "strlen" end.

(** The loop over [argv]: the number of arguments, the stack pointer and the addresses of
    the strings; [None] for [goto bad]. *)
Fixpoint push_args (pgdir : Z) (argv : list (list Z)) (argc sp : Z) (addrs : list Z)
    : Mem (option (Z * Z * list Z)) :=
  match argv with
  | [] => mret (Some (argc, sp, addrs))
  | s :: argv' =>
      if MAXARG <=? argc then mret None
      else
        n ← string_length s;
        let sp := Z.land (w32 (sp - (n + 1))) (w32 (Z.lnot 3)) in
        r ← copyout pgdir sp (take (Z.to_nat (n + 1)) s);
        if r <? 0 then mret None
        else push_args pgdir argv' (argc + 1) sp (addrs ++ [sp])
  end.

Definition ustack (argc sp : Z) (addrs : list Z) : list Z :=
  [0xffffffff; argc; w32 (sp - (argc + 1) * 4)] ++ addrs ++ [0].

(** From the pages of the stack on: the size and the stack pointer. *)
Definition build_stack `{Linker} (pgdir sz : Z) (argv : list (list Z)) : Mem (option (Z * Z)) :=
  let sz := PGROUNDUP sz in
  sz ← allocuvm pgdir sz (w32 (sz + 2 * PGSIZE));
  if sz =? 0 then mret None
  else
    clearpteu pgdir (w32 (sz - 2 * PGSIZE)) ;;
    r ← push_args pgdir argv 0 sz [];
    match r with
    | None => mret None
    | Some (argc, sp, addrs) =>
        let words := ustack argc sp addrs in
        let sp := w32 (sp - (3 + argc + 1) * 4) in
        r ← copyout pgdir sp (concat (map (le_bytes 4) words));
        if r <? 0 then mret None else mret (Some (sz, sp))
    end.

(** ** The loader *)

Section Exec.
Context `{Devices} `{Linker}.
Context (fuel : nat) (others : store -> store).

Fixpoint load_loop (rounds : nat) (pgdir addr : Z) (ip : nat) (offset sz i : Z) : Fm Z :=
  match rounds with
  | O => diverge
  | S rounds' =>
      if i <? sz then
        pte ← on_mem (walkpgdir pgdir (w32 (addr + i)) false);
        if pte =? 0 then panic "loaduvm: address should exist"
        else
          x ← on_mem (ld pte);
          let pa := PTE_ADDR x in
          let n := if sz - i <? PGSIZE then sz - i else PGSIZE in
          '(r, l) ← on_fs (readi ip (w32 (offset + i)) n);
          on_mem (when (negb (r <? 0)) (store_bytes (P2V pa) l)) ;;
          if negb (r =? n) then mret (-1)
          else load_loop rounds' pgdir addr ip offset sz (w32 (i + PGSIZE))
      else mret 0
  end.

Definition loaduvm (pgdir addr : Z) (ip : nat) (offset sz : Z) : Fm Z :=
  if negb (addr mod PGSIZE =? 0) then panic "loaduvm: addr must be page aligned"
  else load_loop (S (Z.to_nat ((sz + PGSIZE - 1) / PGSIZE))) pgdir addr ip offset sz 0.

(** The loop over the [n] program headers from the offset [off] on: the size of the
    process, or [None] for [goto bad]. *)
Fixpoint load_segments (n : nat) (pgdir : Z) (ip : nat) (off sz : Z) : Fm (option Z) :=
  match n with
  | O => mret (Some sz)
  | S n' =>
      '(r, l) ← on_fs (readi ip off PROGHDR_SIZE);
      if negb (r =? PROGHDR_SIZE) then mret None
      else
        let ph := proghdr_of l in
        if negb (ph_type ph =? ELF_PROG_LOAD) then
          load_segments n' pgdir ip (w32 (off + PROGHDR_SIZE)) sz
        else if ph_memsz ph <? ph_filesz ph then mret None
        else if w32 (ph_vaddr ph + ph_memsz ph) <? ph_vaddr ph then mret None
        else
          sz ← on_mem (allocuvm pgdir sz (w32 (ph_vaddr ph + ph_memsz ph)));
          if sz =? 0 then mret None
          else if negb (ph_vaddr ph mod PGSIZE =? 0) then mret None
          else
            r ← loaduvm pgdir (ph_vaddr ph) ip (ph_off ph) (ph_filesz ph);
            if r <? 0 then mret None
            else load_segments n' pgdir ip (w32 (off + PROGHDR_SIZE)) sz
  end.

(** How the new image ends: with [goto bad], and the page directory and the inode then, or
    ready to be used. *)
Inductive built :=
  | Bad (pgdir : Z) (ip : option nat)
  | Built (pgdir sz sp entry : Z).

Definition build_image (ip : nat) (argv : list (list Z)) : Fm built :=
  '(r, l) ← on_fs (readi ip 0 ELFHDR_SIZE);
  if negb (r =? ELFHDR_SIZE) then mret (Bad 0 (Some ip))
  else
    let h := elfhdr_of l in
    if negb (magic h =? ELF_MAGIC) then mret (Bad 0 (Some ip))
    else
      pgdir ← on_mem setupkvm;
      if pgdir =? 0 then mret (Bad 0 (Some ip))
      else
        sz ← load_segments (Z.to_nat (phnum h)) pgdir ip (phoff h) 0;
        match sz with
        | None => mret (Bad pgdir (Some ip))
        | Some sz =>
            on_fs (iunlockput ip) ;;
            on_fs (disk end_op) ;;
            r ← on_mem (build_stack pgdir sz argv);
            match r with
            | None => mret (Bad pgdir None)
            | Some (sz, sp) => mret (Built pgdir sz sp (e_entry h))
            end
        end.

Definition exec_bad (pgdir : Z) (ip : option nat) : Fm Z :=
  when (negb (pgdir =? 0)) (on_mem (freevm pgdir)) ;;
  match ip with
  | Some ip => on_fs (iunlockput ip) ;; on_fs (disk end_op) ;; mret (-1)
  | None => mret (-1)
  end.

(** What is behind the last slash. *)
Fixpoint after_slash (s last : list Z) : option (list Z) :=
  match s with
  | [] => None
  | c :: s' => if c =? 0 then Some last else after_slash s' (if c =? slash then s' else last)
  end.

Definition exec (path : list Z) (argv : list (list Z)) : Xm Z :=
  on_filesys (on_fs (disk (begin_op fuel others))) ;;
  r ← on_filesys (on_fs (namei path));
  match r with
  | None => on_filesys (on_fs (disk end_op)) ;; mret (-1)
  | Some ip =>
      on_filesys (on_fs (ilock (Some ip))) ;;
      b ← on_filesys (build_image ip argv);
      match b with
      | Bad pgdir ip => on_filesys (exec_bad pgdir ip)
      | Built pgdir sz sp entry =>
          last ← lift_opt "path" (after_slash path path);
          im ← gets x_image;
          name ← (match safestrcpy_arr (i_name im) last 16 with Ok l => mret l | _ => fault "safestrcpy" end);
          modify (set_x_image (Image pgdir sz entry sp name)) ;;
          on_filesys (on_mem (switchuvm pgdir)) ;;
          on_filesys (on_mem (freevm (i_pgdir im))) ;;
          mret 0
      end
  end.
End Exec.

(** ** sys_exec *)

(** The loop over the user's array of [argv]: the strings up to the null pointer. *)
Fixpoint fetch_args (n : nat) (uargv i : Z) : Tm (option (list (list Z))) :=
  match n with
  | O => mret None
  | S n' =>
      uarg ← fetchint (w32 (uargv + 4 * i));
      match uarg with
      | None => mret None
      | Some uarg =>
          if uarg =? 0 then mret (Some [])
          else
            a ← fetchstr (w32 uarg);
            match a with
            | None => mret None
            | Some a =>
                s ← string_at a;
                rest ← fetch_args n' uargv (i + 1);
                mret (match rest with None => None | Some l => Some (s :: l) end)
            end
      end
  end.

(** The arguments that [sys_exec] gives to [exec]; [None] for -1. *)
Definition sys_exec_args : Tm (option (list Z * list (list Z))) :=
  path ← argstr 0;
  match path with
  | None => mret None
  | Some path =>
      uargv ← argint 1;
      match uargv with
      | None => mret None
      | Some uargv =>
          path ← string_at path;
          argv ← fetch_args (Z.to_nat MAXARG) (w32 uargv) 0;
          mret (match argv with None => None | Some argv => Some (path, argv) end)
      end
  end.
