(* ===== verification/SysfileProps.v ===== *)
(** * Properties of file system calls *)

From S2P Require Import Prelude CString Bytes Layout Kalloc KallocSpec ProcData Bcache BcacheSpec Log LogSpec Recovery LogThms Transaction Fs SmallDisk FsBlocks FsContent FsProps Pipe File FileSpec Sh Syscall Sysfile.

#[local] Opaque boot.

(** ** Arguments *)

(** The argument [n] on the stack of the process. *)
Definition has_arg (t : task) (n v : Z) : Prop :=
  let a := w32 (uesp t + 4 + 4 * n) in
  a + 4 <= usize t /\ exists u, get_le 4 (Z.to_nat a) (umem t) = Some u /\ v = i32 u.

Lemma argint_arg t n v : task_ok t -> has_arg t n v -> argint n t = Ok (Some v, t).
Proof.
  intros Hok [Ha (u & Hu & ->)]. unfold argint. rewrite bind_gets.
  pose proof (w32_bounds (uesp t + 4 + 4 * n)) as Hw.
  destruct (fetchint_run t _ Hok Hw) as (r & R & Hn & Hs). rewrite R.
  destruct r as [v|]; [|exfalso; assert (usize t < w32 (uesp t + 4 + 4 * n) + 4) by (by apply Hn); lia].
  destruct (Hs v eq_refl) as (u' & Hu' & ->). rewrite Hu in Hu'. by injection Hu' as ->.
Qed.

Lemma argptr_arg t n p size : task_ok t -> has_arg t n p -> 0 <= size -> 0 <= p -> p + size <= usize t ->
  p < usize t -> argptr n size t = Ok (Some p, t).
Proof.
  intros Hok Ha Hs Hp Hle Hlt. destruct Hok as [Hsz Hb]. unfold argptr.
  rewrite (bind_ok _ _ _ _ _ (argint_arg t n p (conj Hsz Hb) Ha)), bind_gets.
  rewrite !w32_small by lia. destruct (Z.ltb_spec size 0), (Z.leb_spec (usize t) p),
    (Z.ltb_spec (usize t) (p + size)); done || lia.
Qed.

Section Calls.
Context `{Devices} `{Linker}.
Context (killed : bool) (fuel : nat) (others : store -> store).

(** The descriptor in the argument [n] is the file [f]. *)
Definition fd_arg (t : task) (n : Z) (fd f : nat) : Prop :=
  has_arg t n (Z.of_nat fd) /\ (fd < NOFILE)%nat /\ ofile t !! fd = Some (Some f).

Lemma argfd_run t n fd f : task_ok t -> fd_arg t n fd f -> argfd n t = Ok (Some (fd, f), t).
Proof.
  intros Hok (Ha & Hfd & Hf). unfold argfd. rewrite (bind_ok _ _ _ _ _ (argint_arg t n _ Hok Ha)).
  destruct (Z.ltb_spec (Z.of_nat fd) 0), (Z.leb_spec (Z.of_nat NOFILE) (Z.of_nat fd)); try lia.
  cbn [orb]. rewrite bind_gets, Nat2Z.id, Hf. by rewrite bind_lift_Some.
Qed.

(** ** Descriptors *)

(** The lowest descriptor that is free; no descriptor is free. *)
Definition free_fd (l : list (option nat)) (d : nat) : Prop :=
  (d < NOFILE)%nat /\ l !! d = Some None /\ forall g, (g < d)%nat -> exists f, l !! g = Some (Some f).
Definition full_fds (l : list (option nat)) : Prop :=
  forall g, (g < NOFILE)%nat -> exists f, l !! g = Some (Some f).

Definition fd_body (f fd : nat) : Tm (option nat) :=
  fs ← gets ofile;
  o ← lift_opt "ofile" (fs !! fd);
  match o with
  | None => modify (fun t => set_ofile (<[fd := Some f]> (ofile t)) t) ;; mret (Some fd)
  | Some _ => mret None
  end.

Lemma fd_skip t f l l' : (forall g, g ∈ l -> exists f', ofile t !! g = Some (Some f')) ->
  find_each (l ++ l') (fd_body f) t = find_each l' (fd_body f) t.
Proof.
  intros Hl. destruct (find_each_skip
    (fun l s => s = t /\ forall g, g ∈ l -> exists f', ofile t !! g = Some (Some f')) (fd_body f) l l' t)
    as (s & R & -> & _); [done| |exact R].
  intros g k s [-> Hk]. exists t. split; [|split; [done|]; intros j Hj; apply Hk; by right].
  destruct (Hk g ltac:(by left)) as (f' & Hf'). unfold fd_body. by rewrite bind_gets, Hf', bind_lift_Some.
Qed.

Lemma fdalloc_run t f d : free_fd (ofile t) d ->
  fdalloc f t = Ok (Z.of_nat d, set_ofile (<[d := Some f]> (ofile t)) t).
Proof.
  intros (Hd & Hfree & Hused). unfold fdalloc. fold (fd_body f).
  replace (seq 0 NOFILE) with (seq 0 d ++ seq d (NOFILE - d)) by (rewrite <- seq_app; f_equal; lia).
  replace (NOFILE - d)%nat with (S (NOFILE - d - 1)) by lia. cbn [seq].
  rewrite (bind_ok _ _ _ (Some d) (set_ofile (<[d := Some f]> (ofile t)) t)); [done|].
  change (find_each (seq 0 d ++ d :: seq (S d) (NOFILE - d - 1)) (fd_body f) t =
    Ok (Some d, set_ofile (<[d := Some f]> (ofile t)) t)).
  rewrite fd_skip; [|intros g Hg%list_elem_of_In%in_seq; apply Hused; lia].
  apply find_each_here. unfold fd_body. by rewrite bind_gets, Hfree, bind_lift_Some.
Qed.

Lemma fdalloc_full t f : full_fds (ofile t) -> fdalloc f t = Ok (-1, t).
Proof.
  intros Hfull. unfold fdalloc. rewrite (bind_ok _ _ _ None t); [done|].
  change (find_each (seq 0 NOFILE) (fd_body f) t = Ok (None, t)).
  rewrite <- (app_nil_r (seq 0 NOFILE)), fd_skip; [done|].
  intros g Hg%list_elem_of_In%in_seq. apply Hfull. lia.
Qed.

Lemma on_files_run {A} (m : Fm A) t a s : m (files t) = Ok (a, s) -> on_files m t = Ok (a, set_files s t).
Proof. intros Hm. unfold on_files. by rewrite Hm. Qed.

Lemma filedup_run s f x : ftable_lock s = false -> ftable s !! f = Some x -> 1 <= f_ref x < 2 ^ 31 - 1 ->
  filedup f s = Ok (f, set_ftable (alter (set_f_ref (f_ref x + 1)) f (ftable s)) s).
Proof.
  intros Hl Hx Hr. unfold filedup, acquire_ftable. rewrite bind_bind, bind_get, Hl, bind_put.
  rewrite (bind_ok _ _ _ _ _ (getf_run (set_ftable_lock true s) f x Hx)).
  destruct (Z.ltb_spec (f_ref x) 1); [lia|]. rewrite i32_small by lia. unfold updf. rewrite bind_modify.
  destruct s. cbn in *. by subst.
Qed.

(** [dup] makes the lowest free descriptor share the file and counts the new user; without
    a free descriptor it returns -1 and changes nothing. *)
Theorem dup_shares_the_file t fd f x :
  task_ok t -> fd_arg t 0 fd f -> ftable_lock (files t) = false ->
  ftable (files t) !! f = Some x -> 1 <= f_ref x < 2 ^ 31 - 1 ->
  (full_fds (ofile t) -> sys_dup t = Ok (-1, t)) /\
  (forall d, free_fd (ofile t) d -> exists t', sys_dup t = Ok (Z.of_nat d, t') /\
     ofile t' = <[d := Some f]> (ofile t) /\ umem t' = umem t /\
     files t' = set_ftable (alter (set_f_ref (f_ref x + 1)) f (ftable (files t))) (files t)).
Proof.
  intros Hok Hfd Hl Hx Hr. unfold sys_dup. rewrite !(bind_ok _ _ _ _ _ (argfd_run t 0 fd f Hok Hfd)). split.
  - intros Hfull. by rewrite (bind_ok _ _ _ _ _ (fdalloc_full t f Hfull)).
  - intros d Hd. rewrite (bind_ok _ _ _ _ _ (fdalloc_run t f d Hd)).
    destruct (Z.ltb_spec (Z.of_nat d) 0); [lia|]. eexists. split.
    + rewrite (bind_ok _ _ _ _ _ (on_files_run (filedup f) (set_ofile _ t) _ _ (filedup_run _ f x Hl Hx Hr))).
      reflexivity.
    + by repeat split.
Qed.

(** ** Writing *)

(** C5. [write] of a block of user memory to an open file, inside the file: the bytes are on
    the disk when it returns the length, the offset moves, and nothing else in the file
    or the process changes. *)
Theorem write_stores_user_memory t fd f x i ip p n :
  task_ok t -> fd_arg t 0 fd f -> has_arg t 1 p -> has_arg t 2 n ->
  0 <= n -> 0 <= p -> p + n <= usize t -> p < usize t ->
  open_file (files t) f x i ip -> f_writable x = true -> 0 <= f_off x -> f_off x + n <= i_size ip ->
  4 < log_size (lg (st (fsy (files t)))) ->
  exists s', sys_write killed fuel others t = Ok (Done n, set_files s' t) /\
    open_file s' f (set_f_off (f_off x + n) x) i ip /\
    forall q, 0 <= q < i_size ip -> disk_byte s' ip q =
      if (f_off x <=? q) && (q <? f_off x + n) then default 0 (umem t !! Z.to_nat (p + (q - f_off x)))
      else disk_byte (files t) ip q.
Proof.
  intros Hok Hfd Hp Hn Hn0 Hp0 Hle Hlt Ho Hw Hoff Hsz Hlog.
  destruct (filewrite_run others fuel killed (files t) f x i ip (drop (Z.to_nat p) (umem t)) n Ho Hw Hoff Hn0 Hsz)
    as (s' & R & Ho' & Hb); [rewrite length_drop; unfold usize in *; lia|done|].
  exists s'. split; [|split; [done|]].
  - unfold sys_write. rewrite (bind_ok _ _ _ _ _ (argfd_run t 0 fd f Hok Hfd)).
    rewrite (bind_ok _ _ _ _ _ (argint_arg t 2 n Hok Hn)).
    rewrite (bind_ok _ _ _ _ _ (argptr_arg t 1 p n Hok Hp Hn0 Hp0 Hle Hlt)).
    unfold string_at. rewrite bind_gets. by apply on_files_run.
  - intros q Hq. rewrite Hb by done. destruct (Z.leb_spec (f_off x) q); [|done]. cbn [andb].
    destruct (q <? f_off x + n); [|done]. rewrite lookup_drop. do 2 f_equal. lia.
Qed.

(** ** Pipes *)

Lemma close_call_run f t s : fileclose fuel others f (files t) = Ok (tt, s) ->
  close_call fuel others f t = Ok (tt, set_files s t).
Proof. apply on_files_run. Qed.

(** The descriptors are used, or all but one. *)
Definition one_fd_left (l : list (option nat)) (d : nat) : Prop :=
  free_fd l d /\ forall f, full_fds (<[d := Some f]> l).

(** C6. [pipe] without two free descriptors returns -1 and has no effect: the page of the pipe
    is free again, the descriptors, the memory, the other pipes and the file system are as
    before; in the table of files the two entries that were taken are free again, and the
    others did not change. *)
Theorem pipe_without_descriptors t p a b v l :
  task_ok t -> has_arg t 0 p -> 0 <= p -> p + 8 <= usize t ->
  ftable_lock (files t) = false -> first_free (ftable (files t)) a ->
  first_free (alter (set_f_ref 1) a (ftable (files t))) b ->
  free_list (kmem (files t)) (v :: l) -> pipes (files t) !! v = None ->
  full_fds (ofile t) \/ (exists d, one_fd_left (ofile t) d) ->
  exists t', sys_pipe fuel others t = Ok (-1, t') /\ ofile t' = ofile t /\ umem t' = umem t /\
    free_list (kmem (files t')) (v :: l) /\ pipes (files t') = pipes (files t) /\
    fsy (files t') = fsy (files t) /\ ftable_lock (files t') = false /\
    (forall g, g <> a -> g <> b -> ftable (files t') !! g = ftable (files t) !! g) /\
    (forall g, g = a \/ g = b -> exists x, ftable (files t') !! g = Some x /\ f_ref x = 0 /\ f_type x = FD_NONE).
Proof.
  intros Hok Hp Hp0 Hle Hl Ha Hb Hf Hnone Hfds.
  destruct (pipealloc_run fuel others (files t) a b v l Hl Ha Hb Hf) as (s1 & R & Hpd).
  destruct (close_both_run fuel others (files t) s1 a b v l Hpd) as (s2 & Rc & Hfl & Hpp & Hfs & Hlk & Hg & Hab);
    [by eapply first_free_lt|by eapply free_list_head|done|].
  exists (set_files s2 t). split; [|by do 7 (split; [done|])].
  unfold sys_pipe. rewrite (bind_ok _ _ _ _ _ (argptr_arg t 0 p 8 Hok Hp ltac:(lia) Hp0 Hle ltac:(lia))).
  rewrite (bind_ok _ _ _ _ _ (on_files_run _ t _ _ R)).
  unfold mbind, M_bind in Rc. destruct (fileclose fuel others a s1) as [[[] s3]| | |] eqn:R1; [|done..].
  destruct Hfds as [Hfull|(d & Hd & Hfull)].
  - rewrite (bind_ok _ _ _ _ _ (fdalloc_full (set_files s1 t) a Hfull)). cbn [Z.ltb Z.compare orb].
    rewrite bind_ret. cbn [Z.ltb Z.compare orb Z.leb]. rewrite bind_when_false.
    rewrite (bind_ok _ _ _ _ _ (close_call_run a (set_files s1 t) s3 R1)).
    by rewrite (bind_ok _ _ _ _ _ (close_call_run b (set_files s3 _) s2 Rc)).
  - rewrite (bind_ok _ _ _ _ _ (fdalloc_run (set_files s1 t) a d Hd)).
    rewrite (proj2 (Z.ltb_ge (Z.of_nat d) 0)) by lia. cbn [orb].
    set (t2 := set_ofile _ _). rewrite (bind_ok _ _ _ _ _ (fdalloc_full t2 b (Hfull a))).
    change (-1 <? 0) with true. cbv iota. rewrite (proj2 (Z.leb_le 0 (Z.of_nat d))), bind_when_true, bind_modify by lia.
    assert (set_ofile (<[Z.to_nat (Z.of_nat d) := None]> (ofile t2)) t2 = set_files s1 t) as ->.
    { unfold t2, set_ofile, set_files. cbn. f_equal. rewrite Nat2Z.id, list_insert_insert_eq.
      apply list_insert_id. apply Hd. }
    rewrite (bind_ok _ _ _ _ _ (close_call_run a (set_files s1 t) s3 R1)).
    by rewrite (bind_ok _ _ _ _ _ (close_call_run b (set_files s3 _) s2 Rc)).
Qed.
End Calls.

(** ** Concrete calls *)

#[local] Instance no_devices : Devices := {| dev_read _ := None; dev_write _ := None |}.

(** A process that calls with the arguments [0], [16] and [3], and has three bytes behind
    them. *)
Definition small_umem (a0 : Z) : list Z :=
  [0; 0; 0; 0] ++ le_bytes 4 a0 ++ le_bytes 4 16 ++ le_bytes 4 3 ++ [97; 98; 99] ++ replicate 8 0.

Definition small_task (s : filesys) (a0 : Z) (fds : list (option nat)) : task :=
  Task s (small_umem a0) 0 fds.

Lemma small_task_ok s a0 fds : task_ok (small_task s a0 fds).
Proof.
  split; [by vm_compute|]. cbn.
  repeat (apply Forall_cons_2; [first [lia|apply Z.mod_pos_bound; lia]|]). apply Forall_nil_2.
Qed.

Definition some_fds : list (option nat) := Some O :: replicate 15 None.

Lemma small_fd s : fd_arg (small_task s 0 some_fds) 0 0 0.
Proof.
  split; [split; [by vm_compute|exists 0; by vm_compute]|]. split; [unfold NOFILE; lia|done].
Qed.

Lemma dup_shares_the_file_witness :
  let s := small_files (power_on 7 []) in let t := small_task s 0 some_fds in
  exists t', sys_dup t = Ok (1, t') /\ ofile t' = <[1%nat := Some O]> some_fds /\
    umem t' = umem t /\ files t' = set_ftable (alter (set_f_ref 2) 0%nat (ftable s)) s.
Proof.
  intros s t. destruct (dup_shares_the_file t 0 0 open_entry) as [_ Hd].
  - apply small_task_ok.
  - apply small_fd.
  - reflexivity.
  - reflexivity.
  - cbn. lia.
  - apply (Hd 1%nat). split; [unfold NOFILE; lia|]. split; [done|].
    intros g Hg. assert (g = O) as -> by lia. by eexists.
Defined.

Lemma write_stores_user_memory_witness :
  exists s, let t := small_task s 0 some_fds in
    exists s', sys_write false 0 id t = Ok (Done 3, set_files s' t) /\
    open_file s' 0 (set_f_off (1 + 3) open_entry) 0 open_inode /\
    forall q, 0 <= q < 5 -> disk_byte s' open_inode q =
      if (1 <=? q) && (q <? 1 + 3) then default 0 (umem t !! Z.to_nat (16 + (q - 1)))
      else disk_byte s open_inode q.
Proof.
  destruct (small_idle 7) as (s & hd & _ & Hi & Hm & Hst & Hsz).
  exists (small_files s). cbn zeta.
  apply (write_stores_user_memory false 0 id (small_task (small_files s) 0 some_fds) 0 0 open_entry 0 open_inode 16 3);
    try done.
  - apply small_task_ok.
  - apply small_fd.
  - split; [by vm_compute|exists 16; by vm_compute].
  - split; [by vm_compute|exists 3; by vm_compute].
  - by eapply small_open.
  - cbn. rewrite Hsz. lia.
Defined.

Definition full_but_one : list (option nat) := replicate 15 (Some O) ++ [None].

Lemma small_one_left : one_fd_left full_but_one 15.
Proof.
  assert (forall g, (g < 15)%nat -> full_but_one !! g = Some (Some O)) as Hl.
  { intros g Hg. unfold full_but_one. rewrite lookup_app_l by (rewrite length_replicate; lia).
    by apply lookup_replicate_2. }
  split; [split; [unfold NOFILE; lia|split; [done|intros g Hg; eexists; by apply Hl]]|].
  intros f g Hg. destruct (decide (g = 15%nat)) as [->|Hne]; [by eexists|].
  rewrite list_lookup_insert_ne by done. eexists. apply Hl. unfold NOFILE in Hg. lia.
Qed.

Lemma pipe_without_descriptors_witness :
  exists s, let t := small_task s 0 full_but_one in
    free_list (kmem s) [KERNBASE + 0x5000] /\
    exists t', sys_pipe 0 id t = Ok (-1, t') /\ ofile t' = ofile t /\ umem t' = umem t /\
      free_list (kmem (files t')) [KERNBASE + 0x5000] /\ pipes (files t') = pipes (files t) /\
      fsy (files t') = fsy (files t) /\ ftable_lock (files t') = false /\
      (forall g, g <> 1%nat -> g <> 2%nat -> ftable (files t') !! g = ftable (files t) !! g) /\
      (forall g, g = 1%nat \/ g = 2%nat ->
         exists x, ftable (files t') !! g = Some x /\ f_ref x = 0 /\ f_type x = FD_NONE).
Proof.
  destruct small_pipe_page as (m & Hf). destruct small_table as [H1 H2].
  exists (Filesys (small_fs (power_on 7 []) []) false (open_entry :: replicate 99 idle_file) ∅ m).
  cbn zeta. split; [exact Hf|].
  apply (pipe_without_descriptors 0 id _ 0 1 2 (KERNBASE + 0x5000) []); try done.
  - apply small_task_ok.
  - split; [by vm_compute|exists 0; by vm_compute].
  - right. exists 15%nat. apply small_one_left.
Defined.
