(* ===== verification/SysfileInv.v ===== *)
(** * Descriptors and reference counts

    Every file system call keeps the reference count of a file equal to the number of
    descriptors of the process that refer to it. *)

From S2P Require Import Prelude Quiet CString Bytes Layout Kalloc ProcData Bcache Log Fs Pipe File Sh Syscall Sysfile.

(** ** The table of files *)

Definition refs (s : filesys) : list Z := map f_ref (ftable s).

Lemma refs_alter g f s : (forall x, f_ref (g x) = f_ref x) ->
  refs (set_ftable (alter g f (ftable s)) s) = refs s.
Proof.
  intros Hg. unfold refs. cbn. generalize (ftable s) as l. clear s. revert f.
  intros f l. revert f. induction l as [|x l IH]; intros [|f]; [done..| |]; cbn; [by rewrite Hg|].
  f_equal. apply IH.
Qed.

Ltac quiet_modify_tac ::= apply refs_alter; reflexivity.

Lemma quiet_zoom {S A} (view : S -> S) get_ set_ (m : M S A) :
  (forall v s, refs (set_ v s) = refs s) -> quiet refs (zoom get_ set_ m).
Proof. intros Hs s. unfold wpx, zoom. by destruct (m (get_ s)) as [[a s']| | |]. Qed.

Lemma quiet_on_fs {A} (m : Fs A) : quiet refs (on_fs m).
Proof. by apply (quiet_zoom id). Qed.
Lemma quiet_on_mem {A} (m : Mem A) : quiet refs (on_mem m).
Proof. by apply (quiet_zoom id). Qed.
Lemma quiet_on_pipe {A} p (m : Pi A) : quiet refs (on_pipe p m).
Proof.
  intros s. unfold wpx, on_pipe. rewrite bind_get. destruct (pipes s !! p) as [x|]; [|done].
  rewrite bind_lift_Some. by destruct (m x) as [[a x']| | |].
Qed.
Lemma quiet_acquire_ftable : quiet refs acquire_ftable.
Proof. intros s. unfold wpx, acquire_ftable. rewrite bind_get. by destruct (ftable_lock s). Qed.
Lemma quiet_release_ftable : quiet refs release_ftable.
Proof. intros s. unfold wpx, release_ftable. rewrite bind_get. by destruct (ftable_lock s). Qed.
Lemma quiet_getf f : quiet refs (getf f).
Proof. unfold getf. quiet_tac. Qed.
#[local] Hint Resolve quiet_on_fs quiet_on_mem quiet_on_pipe quiet_acquire_ftable quiet_release_ftable
  quiet_getf : quiet.

Section Files.
Context `{Devices} `{Linker}.
Context (killed : bool) (fuel : nat) (others : store -> store).

Lemma quiet_close_pipe p w : quiet refs (close_pipe p w).
Proof. unfold close_pipe. quiet_tac. Qed.

Lemma quiet_fileread f n : quiet refs (fileread killed f n).
Proof. unfold fileread. quiet_tac. Qed.

Lemma quiet_filestat f : quiet refs (filestat f).
Proof. unfold filestat. quiet_tac. Qed.

Lemma quiet_round f addr n1 i : quiet refs (filewrite_round fuel others f addr n1 i).
Proof. unfold filewrite_round. quiet_tac. Qed.
#[local] Hint Resolve quiet_round quiet_close_pipe : quiet.

Lemma quiet_filewrite_loop r f addr n i : quiet refs (filewrite_loop fuel others r f addr n i).
Proof. revert i. induction r as [|r IH]; intros i; cbn [filewrite_loop]; quiet_tac; apply IH. Qed.
#[local] Hint Resolve quiet_filewrite_loop : quiet.

Lemma quiet_filewrite f addr n : quiet refs (filewrite killed fuel others f addr n).
Proof. unfold filewrite. quiet_tac. Qed.

Lemma wp_refs {V A} (view : filesys -> V) (m : Fm A) Q s : quiet view m ->
  (forall a s', view s' = view s -> Q a s') -> wpx any m Q s.
Proof. intros Hm HQ. eapply wp_mono; [|apply Hm]. cbn. auto. Qed.

Lemma wp_getf f Q s : (forall x, ftable s !! f = Some x -> Q x s) -> wpx any (getf f) Q s.
Proof.
  intros HQ. unfold wpx, getf. rewrite bind_get. destruct (ftable s !! f) as [x|]; [|done].
  by apply HQ.
Qed.

Lemma refs_lookup s f x : ftable s !! f = Some x -> refs s !! f = Some (f_ref x).
Proof. intros Hx. unfold refs. by rewrite list_lookup_fmap, Hx. Qed.

Lemma refs_set_ref s f v : refs (set_ftable (alter (set_f_ref v) f (ftable s)) s) = <[f := v]> (refs s).
Proof.
  unfold refs. cbn. generalize (ftable s). clear s. intros l. revert f.
  induction l as [|x l IH]; intros [|f]; cbn; [done..|]. f_equal. apply IH.
Qed.

Lemma wp_set_ref f v (Q : unit -> filesys -> Prop) s :
  (forall s', refs s' = <[f := v]> (refs s) -> Q tt s') -> wpx any (updf f (set_f_ref v)) Q s.
Proof. intros HQ. apply HQ, refs_set_ref. Qed.

Lemma filealloc_refs s :
  wpx any filealloc (fun r s' => match r with
    | Some f => refs s !! f = Some 0 /\ refs s' = <[f := 1]> (refs s)
    | None => refs s' = refs s
    end) s.
Proof.
  unfold filealloc. wbind. eapply wp_refs; [apply quiet_acquire_ftable|]. intros _ s1 H1.
  wbind. apply (wp_mono _ (fun r s' => match r with
    | Some f => refs s !! f = Some 0 /\ refs s' = <[f := 1]> (refs s)
    | None => refs s' = refs s end)).
  - intros r s2 H2. wbind. eapply wp_refs; [apply quiet_release_ftable|]. intros _ s3 H3.
    apply wp_ret. destruct r; by rewrite H3.
  - revert s1 H1. induction (seq 0 NFILE) as [|f l IH]; intros s1 H1; [by apply wp_ret|]. cbn [find_each].
    wbind. wbind. apply wp_getf. intros x Hx. destruct (Z.eqb_spec (f_ref x) 0) as [Hz|].
    + wbind. apply wp_set_ref. intros s2 H2. apply wp_ret, wp_ret. apply refs_lookup in Hx.
      by rewrite H2, <- H1, Hx, Hz.
    + apply wp_ret. by apply IH.
Qed.

Definition in_int (n : Z) : Prop := n < 2 ^ 31 - 1.

Lemma filedup_refs f s : (forall n, refs s !! f = Some n -> in_int n) ->
  wpx any (filedup f) (fun _ s' => exists n, refs s !! f = Some n /\ refs s' = <[f := n + 1]> (refs s)) s.
Proof.
  intros Hint. unfold filedup. wbind. eapply wp_refs; [apply quiet_acquire_ftable|]. intros _ s1 H1.
  wbind. apply wp_getf. intros x Hx%refs_lookup. rewrite H1 in Hx. specialize (Hint _ Hx). unfold in_int in Hint.
  destruct (Z.ltb_spec (f_ref x) 1) as [|Hge]; [done|]. wbind. apply wp_set_ref. intros s2 H2.
  wbind. eapply wp_refs; [apply quiet_release_ftable|]. intros _ s3 H3. apply wp_ret.
  exists (f_ref x). split; [done|]. by rewrite H3, H2, H1, i32_small by lia.
Qed.

Lemma quiet_last_close (ff : file) : quiet refs
  (match f_type ff with
   | FD_PIPE => close_pipe (f_pipe ff) (f_writable ff)
   | FD_INODE =>
       on_fs (disk (begin_op fuel others)) ;; on_fs (iput (f_ip ff)) ;; on_fs (disk end_op)
   | FD_NONE => mret tt
   end).
Proof. quiet_tac. Qed.

Lemma fileclose_refs f s : (forall n, refs s !! f = Some n -> in_int n) ->
  wpx any (fileclose fuel others f)
    (fun _ s' => exists n, refs s !! f = Some n /\ 1 <= n /\ refs s' = <[f := n - 1]> (refs s)) s.
Proof.
  intros Hint. unfold fileclose. wbind. eapply wp_refs; [apply quiet_acquire_ftable|]. intros _ s1 H1.
  wbind. apply wp_getf. intros x Hx%refs_lookup. rewrite H1 in Hx. specialize (Hint _ Hx). unfold in_int in Hint.
  destruct (Z.ltb_spec (f_ref x) 1) as [|Hge]; [done|]. wbind. apply wp_set_ref. intros s2 H2.
  rewrite i32_small in * by lia. rewrite H1 in H2. destruct (Z.ltb_spec 0 (f_ref x - 1)) as [Hpos|Hlast].
  - eapply wp_refs; [apply quiet_release_ftable|]. intros _ s3 H3. exists (f_ref x).
    split; [done|]. split; [done|]. by rewrite H3.
  - wbind. apply wp_getf. intros ff _. wbind. apply wp_set_ref. intros s3 H3.
    wbind. eapply (wp_refs refs); [unfold updf; quiet_tac|]. intros _ s4 H4.
    wbind. eapply wp_refs; [apply quiet_release_ftable|]. intros _ s5 H5.
    eapply wp_refs; [apply (quiet_last_close ff)|]. intros _ s6 H6. exists (f_ref x).
    split; [done|]. split; [done|]. rewrite H6, H5, H4, H3, H2, list_insert_insert_eq. f_equal. lia.
Qed.

(** [fileclose] of a file with one user. *)
Lemma fileclose_alloc f l s : refs s = <[f := 1]> l -> l !! f = Some 0 ->
  wpx any (fileclose fuel others f) (fun _ s' => refs s' = l) s.
Proof.
  intros Hs Hf. assert (refs s !! f = Some 1) as Hf1.
  { rewrite Hs. apply list_lookup_insert_eq. by eapply lookup_lt_Some. }
  eapply wp_mono; [|apply fileclose_refs; rewrite Hf1; intros n [= <-]; unfold in_int; lia].
  intros _ s' (n & Hn & _ & ->). rewrite Hf1 in Hn. injection Hn as <-.
  rewrite Hs, list_insert_insert_eq. by apply list_insert_id.
Qed.

Lemma pipealloc_refs s :
  wpx any (pipealloc fuel others) (fun r s' => match r with
    | Some (a, b) => refs s !! a = Some 0 /\ <[a := 1]> (refs s) !! b = Some 0 /\
        refs s' = <[b := 1]> (<[a := 1]> (refs s))
    | None => refs s' = refs s
    end) s.
Proof.
  unfold pipealloc. wbind. eapply wp_mono; [|apply filealloc_refs]. intros [a|] s1 H1;
    [|wbind; apply wp_ret; wbind; by apply wp_ret].
  destruct H1 as [Ha H1]. wbind. eapply wp_mono; [|apply filealloc_refs]. intros [b|] s2 H2; wbind.
  - destruct H2 as [Hb H2]. rewrite H1 in *. eapply wp_refs; [apply quiet_on_mem|]. intros p s3 H3.
    destruct (p =? 0).
    + assert (a <> b) as Hab.
      { intros ->. rewrite list_lookup_insert_eq in Hb by (by eapply lookup_lt_Some). done. }
      wbind. eapply wp_mono; [|apply (fileclose_alloc a (<[b := 1]> (refs s)))].
      * intros [] s4 H4. wbind. eapply wp_mono; [|apply (fileclose_alloc b (refs s))]; [|done|].
        -- intros [] s5 H5. by apply wp_ret.
        -- by rewrite list_lookup_insert_ne in Hb.
      * by rewrite H3, H2, list_insert_insert_ne.
      * by rewrite list_lookup_insert_ne.
    + do 3 (wbind; eapply (wp_refs refs); [unfold updf; quiet_tac|]; intros ? ? ?).
      apply wp_ret. split; [done|]. split; [done|congruence].
  - apply wp_ret. wbind. eapply wp_mono; [|apply (fileclose_alloc a (refs s)); [by rewrite H2|done]].
    intros [] s3 H3. by apply wp_ret.
Qed.
End Files.

(** ** The calls *)

Definition tview (t : task) : list Z * list (option nat) := (refs (files t), ofile t).

Lemma quiet_on_files {A} (m : Fm A) : quiet refs m -> quiet tview (on_files m).
Proof.
  intros Hm t. specialize (Hm (files t)). unfold wpx, on_files, tview in *.
  destruct (m (files t)) as [[a s']| | |]; [|done..]. cbn. by rewrite Hm.
Qed.
Lemma quiet_on_inodes {A} (m : Fs A) : quiet tview (on_inodes m).
Proof. apply quiet_on_files, quiet_on_fs. Qed.
Lemma quiet_load_user w a : quiet tview (load_user w a).
Proof. unfold load_user. quiet_tac. Qed.
Lemma quiet_put_umem (f : task -> list Z) : quiet tview (t ← get; put (set_umem (f t) t)).
Proof. by apply quiet_get_bind. Qed.
Lemma quiet_store_user w a v : quiet tview (store_user w a v).
Proof. apply quiet_get_bind. intros t. by destruct (put_le _ _ _ _). Qed.
Lemma quiet_store_bytes a l : quiet tview (store_bytes_user a l).
Proof. apply quiet_get_bind. intros t. by destruct (_ <=? _)%nat. Qed.
#[local] Hint Resolve quiet_on_inodes quiet_load_user quiet_store_user quiet_store_bytes : quiet.

Lemma quiet_str_loop n s : quiet tview (str_loop n s).
Proof. revert s. induction n as [|n IH]; intros s; cbn [str_loop]; quiet_tac; apply IH. Qed.
#[local] Hint Resolve quiet_str_loop : quiet.
Lemma quiet_fetchint a : quiet tview (fetchint a).
Proof. unfold fetchint. quiet_tac. Qed.
Lemma quiet_fetchstr a : quiet tview (fetchstr a).
Proof. unfold fetchstr. quiet_tac. Qed.
#[local] Hint Resolve quiet_fetchint quiet_fetchstr : quiet.
Lemma quiet_argint n : quiet tview (argint n).
Proof. unfold argint. quiet_tac. Qed.
#[local] Hint Resolve quiet_argint : quiet.
Lemma quiet_argptr n s : quiet tview (argptr n s).
Proof. unfold argptr. quiet_tac. Qed.
Lemma quiet_argstr n : quiet tview (argstr n).
Proof. unfold argstr. quiet_tac. Qed.
Lemma quiet_argfd n : quiet tview (argfd n).
Proof. unfold argfd. quiet_tac. Qed.
Lemma quiet_string_at a : quiet tview (string_at a).
Proof. unfold string_at. quiet_tac. Qed.
#[local] Hint Resolve quiet_argptr quiet_argstr quiet_argfd quiet_string_at : quiet.

Section Calls.
Context `{Devices} `{Linker}.
Context (killed : bool) (fuel : nat) (others : store -> store).

Lemma quiet_begin : quiet tview (begin_op_call fuel others).
Proof. unfold begin_op_call. quiet_tac. Qed.
Lemma quiet_end : quiet tview end_op_call.
Proof. unfold end_op_call. quiet_tac. Qed.
Lemma quiet_add_nlink k ip : quiet tview (add_nlink k ip).
Proof. unfold add_nlink. quiet_tac. Qed.
#[local] Hint Resolve quiet_begin quiet_end quiet_add_nlink : quiet.

Lemma quiet_create path ty mj mn : quiet tview (create path ty mj mn).
Proof. unfold create. quiet_tac. Qed.
#[local] Hint Resolve quiet_create : quiet.
Lemma quiet_open_inode path m : quiet tview (open_inode_of path m).
Proof. unfold open_inode_of. quiet_tac. Qed.
Lemma quiet_isdirempty dp : quiet tview (isdirempty dp).
Proof. unfold isdirempty. quiet_tac. Qed.
Lemma quiet_make r : quiet tview (make r).
Proof. unfold make. quiet_tac. Qed.
Lemma quiet_link_bad ip : quiet tview (link_bad ip).
Proof. unfold link_bad. quiet_tac. Qed.
Lemma quiet_unlink_bad ip : quiet tview (unlink_bad ip).
Proof. unfold unlink_bad. quiet_tac. Qed.
#[local] Hint Resolve quiet_open_inode quiet_isdirempty quiet_make quiet_link_bad quiet_unlink_bad : quiet.

Lemma quiet_calls :
  quiet tview (sys_link fuel others) /\ quiet tview (sys_unlink fuel others) /\
  quiet tview (sys_mkdir fuel others) /\ quiet tview (sys_mknod fuel others) /\
  quiet tview (sys_chdir fuel others) /\ quiet tview sys_fstat /\
  quiet tview (sys_read killed) /\ quiet tview (sys_write killed fuel others).
Proof.
  unfold sys_link, sys_unlink, sys_mkdir, sys_mknod, sys_chdir, sys_fstat, sys_read, sys_write.
  pose proof (fun f => quiet_on_files _ (quiet_filestat f)).
  pose proof (fun f n => quiet_on_files _ (quiet_fileread killed f n)).
  pose proof (fun f a n => quiet_on_files _ (quiet_filewrite killed fuel others f a n)).
  split_and!; quiet_tac.
Qed.

(** ** Descriptors and counts *)

Definition is_fd (f : nat) (o : option nat) : Z := if decide (o = Some f) then 1 else 0.
Fixpoint uses (f : nat) (l : list (option nat)) : Z :=
  match l with [] => 0 | o :: l' => is_fd f o + uses f l' end.

(** Every descriptor refers to a file of the table, and the count of a file is the number
    of its descriptors. *)
Record counted (R : list Z) (O : list (option nat)) : Prop := Counted {
  ct_count : forall f n, R !! f = Some n -> n = uses f O;
  ct_there : forall fd f, O !! fd = Some (Some f) -> is_Some (R !! f);
  ct_fds : length O = NOFILE
}.

Lemma uses_insert f l i o o' : l !! i = Some o -> uses f (<[i := o']> l) = uses f l - is_fd f o + is_fd f o'.
Proof.
  revert i. induction l as [|x l IH]; intros [|i] Hi; [done..| |].
  - injection Hi as ->. cbn. lia.
  - change (<[S i := o']> (x :: l)) with (x :: <[i := o']> l). cbn [uses]. rewrite (IH i Hi). lia.
Qed.

Lemma uses_bounds f l : 0 <= uses f l <= Z.of_nat (length l).
Proof. induction l as [|o l IH]; cbn; [lia|]. unfold is_fd. destruct (decide _); lia. Qed.

Lemma counted_int R O f n : counted R O -> R !! f = Some n -> in_int n.
Proof.
  intros [Hc _ Hl] Hn. rewrite (Hc f n Hn). pose proof (uses_bounds f O). unfold in_int, NOFILE in *. lia.
Qed.

Lemma is_fd_same f : is_fd f (Some f) = 1.
Proof. unfold is_fd. by rewrite decide_True. Qed.
Lemma is_fd_other f g : f <> g -> is_fd f (Some g) = 0.
Proof. unfold is_fd. intros Hne. rewrite decide_False; [done|congruence]. Qed.

Lemma insert_there (R : list Z) f n g : is_Some (R !! g) -> is_Some (<[f := n]> R !! g).
Proof. rewrite !lookup_lt_is_Some, length_insert. done. Qed.

(** A descriptor more, and one less. *)
Lemma counted_share R O fd f n : counted R O -> O !! fd = Some None -> R !! f = Some n ->
  counted (<[f := n + 1]> R) (<[fd := Some f]> O).
Proof.
  intros [Hc Ht Hl] Hfd Hf. split.
  - intros g m Hg. rewrite (uses_insert g O fd None) by done. change (is_fd g None) with 0.
    destruct (decide (f = g)) as [<-|Hne].
    + rewrite list_lookup_insert_eq in Hg by (by eapply lookup_lt_Some). injection Hg as <-.
      rewrite is_fd_same, (Hc f n Hf). lia.
    + rewrite list_lookup_insert_ne in Hg by done. rewrite is_fd_other by done. rewrite (Hc g m Hg). lia.
  - intros fd' g Hg. apply insert_there. destruct (decide (fd = fd')) as [<-|Hne].
    + rewrite list_lookup_insert_eq in Hg by (by eapply lookup_lt_Some). injection Hg as <-. by eexists.
    + rewrite list_lookup_insert_ne in Hg by done. by eapply Ht.
  - by rewrite length_insert.
Qed.

Lemma counted_drop R O fd f n : counted R O -> O !! fd = Some (Some f) -> R !! f = Some n ->
  counted (<[f := n - 1]> R) (<[fd := None]> O).
Proof.
  intros [Hc Ht Hl] Hfd Hf. split.
  - intros g m Hg. rewrite (uses_insert g O fd (Some f)) by done. change (is_fd g None) with 0.
    destruct (decide (f = g)) as [<-|Hne].
    + rewrite list_lookup_insert_eq in Hg by (by eapply lookup_lt_Some). injection Hg as <-.
      rewrite is_fd_same, (Hc f n Hf). lia.
    + rewrite list_lookup_insert_ne in Hg by done. rewrite is_fd_other by done. rewrite (Hc g m Hg). lia.
  - intros fd' g Hg. apply insert_there. destruct (decide (fd = fd')) as [<-|Hne].
    + by rewrite list_lookup_insert_eq in Hg by (by eapply lookup_lt_Some).
    + rewrite list_lookup_insert_ne in Hg by done. by eapply Ht.
  - by rewrite length_insert.
Qed.

Definition counted_task (t : task) : Prop := counted (refs (files t)) (ofile t).

Lemma counted_view t t' : tview t' = tview t -> counted_task t -> counted_task t'.
Proof. unfold counted_task. by intros [= -> ->]. Qed.

Lemma wp_tquiet {A} (m : Tm A) Q t : quiet tview m ->
  (forall a t', tview t' = tview t -> Q a t') -> wpx any m Q t.
Proof. intros Hm HQ. eapply wp_mono; [|apply Hm]. cbn. auto. Qed.

Lemma wp_on_files {A} (m : Fm A) (Q : A -> task -> Prop) t :
  wpx any m (fun a s => Q a (set_files s t)) (files t) -> wpx any (on_files m) Q t.
Proof. unfold wpx, on_files. by destruct (m (files t)) as [[a s]| | |]. Qed.

Lemma wp_argfd n (Q : option (nat * nat) -> task -> Prop) t :
  (forall r t', tview t' = tview t ->
     match r with Some (fd, f) => ofile t !! fd = Some (Some f) | None => True end -> Q r t') ->
  wpx any (argfd n) Q t.
Proof.
  intros HQ. unfold argfd. wbind. eapply wp_tquiet; [auto with quiet|]. intros fd t1 H1.
  destruct fd as [fd|]; [|apply wp_ret; by apply HQ]. destruct (_ || _); [apply wp_ret; by apply HQ|].
  wbind. apply wp_gets. wbind. destruct (ofile t1 !! Z.to_nat fd) as [[f|]|] eqn:Hf; [| |done];
    (eapply wp_lift_opt; [done|]); apply wp_ret; (apply HQ; [done|]); [|done].
  unfold tview in H1. injection H1 as _ H1. by rewrite <- H1.
Qed.

Lemma wp_fdalloc f (Q : Z -> task -> Prop) t :
  (forall fd, ofile t !! fd = Some None -> Q (Z.of_nat fd) (set_ofile (<[fd := Some f]> (ofile t)) t)) ->
  Q (-1) t -> wpx any (fdalloc f) Q t.
Proof.
  intros Hok Hfull. unfold fdalloc. wbind. induction (seq 0 NOFILE) as [|fd l IH]; [by apply wp_ret, wp_ret|].
  cbn [find_each]. wbind. wbind. apply wp_gets. wbind.
  destruct (ofile t !! fd) as [[g|]|] eqn:Hfd; [| |done]; (eapply wp_lift_opt; [done|]).
  - apply wp_ret. exact IH.
  - wbind. apply wp_modify. apply wp_ret, wp_ret, wp_ret. by apply Hok.
Qed.

Lemma counted_dup t : counted_task t -> wpx any sys_dup (fun _ t' => counted_task t') t.
Proof.
  intros Hc. unfold sys_dup. wbind. apply wp_argfd. intros [[fd f]|] t1 H1 Hf; [|apply wp_ret; by eapply counted_view].
  assert (ofile t1 = ofile t) as Ho by (by injection H1). apply (counted_view t t1 H1) in Hc. rewrite <- Ho in Hf.
  clear t H1 Ho. wbind. apply wp_fdalloc.
  - intros d Hd. destruct (Z.ltb_spec (Z.of_nat d) 0); [lia|]. wbind. apply wp_on_files.
    eapply wp_mono; [|apply filedup_refs; intros n Hn; by eapply counted_int].
    intros g s (n & Hn & Hr). apply wp_ret. unfold counted_task. cbn in *. rewrite Hr. by apply counted_share.
  - by apply wp_ret.
Qed.

Lemma counted_close t : counted_task t -> wpx any (sys_close fuel others) (fun _ t' => counted_task t') t.
Proof.
  intros Hc. unfold sys_close. wbind. apply wp_argfd. intros [[fd f]|] t1 H1 Hf; [|apply wp_ret; by eapply counted_view].
  assert (ofile t1 = ofile t) as Ho by (by injection H1). apply (counted_view t t1 H1) in Hc. rewrite <- Ho in Hf.
  clear t H1 Ho. wbind. apply wp_modify. wbind. apply wp_on_files.
  eapply wp_mono; [|apply fileclose_refs; intros n Hn; by eapply counted_int].
  intros [] s (n & Hn & _ & Hr). apply wp_ret. unfold counted_task. cbn in *. rewrite Hr. by apply counted_drop.
Qed.

(** Taking back a file that was just allocated. *)
Lemma close_alloc f l t : refs (files t) = <[f := 1]> l -> l !! f = Some 0 ->
  wpx any (close_call fuel others f) (fun _ t' => tview t' = (l, ofile t)) t.
Proof.
  intros Ht Hf. apply wp_on_files. eapply wp_mono; [|by eapply fileclose_alloc].
  intros [] s Hs. unfold tview. cbn. by rewrite Hs.
Qed.

Lemma counted_open t : counted_task t -> wpx any (sys_open fuel others) (fun _ t' => counted_task t') t.
Proof.
  intros Hc. unfold sys_open.
  wbind. eapply wp_tquiet; [auto with quiet|]. intros [a|] t1 H1; [|apply wp_ret; by eapply counted_view].
  wbind. eapply wp_tquiet; [auto with quiet|]. intros [m|] t2 H2; [|apply wp_ret; eapply counted_view; [|exact Hc]; congruence].
  wbind. eapply wp_tquiet; [auto with quiet|]. intros _ t3 H3.
  wbind. eapply wp_tquiet; [auto with quiet|]. intros path t4 H4.
  wbind. eapply wp_tquiet; [auto with quiet|]. intros r t5 H5.
  apply (counted_view t t5) in Hc; [|congruence]. clear t t1 t2 t3 t4 H1 H2 H3 H4 H5.
  assert (forall {A} (m : Tm A), quiet tview m -> wpx any m (fun _ t' => counted_task t') t5) as Hq.
  { intros A m0 Hm. eapply wp_tquiet; [exact Hm|]. intros a0 t' Ht'. by eapply counted_view. }
  destruct r as [ip|]; [|apply Hq; quiet_tac].
  wbind. apply wp_on_files. eapply wp_mono; [|apply filealloc_refs]. intros [f|] s Hs; wbind.
  - destruct Hs as [Hf Hs]. apply wp_fdalloc.
    + intros fd Hfd. destruct (Z.ltb_spec (Z.of_nat fd) 0); [lia|].
      set (t6 := set_ofile _ _). assert (counted_task t6) as Hc6.
      { unfold counted_task. cbn. rewrite Hs. by apply (counted_share _ _ fd f 0). }
      eapply (wp_tquiet _ (fun _ t' => counted_task t')); [|intros ? t' Ht'; by eapply counted_view].
      quiet_tac. apply quiet_on_files. unfold updf. quiet_tac.
    + change (-1 <? 0) with true. cbv iota. wbind.
      eapply wp_mono; [|by apply (close_alloc f (refs (files t5)))]. intros [] t6 H6.
      eapply (wp_tquiet _ (fun _ t' => counted_task t')); [quiet_tac|]. intros ? t' Ht'.
      eapply counted_view; [|exact Hc]. by rewrite Ht', H6.
  - apply wp_ret. eapply (wp_tquiet _ (fun _ t' => counted_task t')); [quiet_tac|].
    intros ? t' Ht'. eapply counted_view; [|exact Hc]. rewrite Ht'. unfold tview. cbn. by rewrite Hs.
Qed.

(** What [sys_pipe] does when a descriptor is missing: both files are closed. *)
Lemma close_two a b R t :
  refs (files t) = <[b := 1]> (<[a := 1]> R) -> R !! a = Some 0 -> <[a := 1]> R !! b = Some 0 ->
  wpx any (close_call fuel others a ;; close_call fuel others b ;; mret (-1))
    (fun _ t' => tview t' = (R, ofile t)) t.
Proof.
  intros Ht Ha Hb. assert (a <> b) as Hab.
  { intros ->. rewrite list_lookup_insert_eq in Hb by (by eapply lookup_lt_Some). done. }
  rewrite list_lookup_insert_ne in Hb by done.
  wbind. eapply wp_mono; [|apply (close_alloc a (<[b := 1]> R))].
  - intros [] t1 [= H1 Ho1]. wbind. eapply wp_mono; [|apply (close_alloc b R); [exact H1|done]].
    intros [] t2 H2. apply wp_ret. by rewrite H2, Ho1.
  - by rewrite Ht, list_insert_insert_ne.
  - by rewrite list_lookup_insert_ne.
Qed.

Lemma counted_pipe t : counted_task t -> wpx any (sys_pipe fuel others) (fun _ t' => counted_task t') t.
Proof.
  intros Hc. unfold sys_pipe.
  wbind. eapply wp_tquiet; [auto with quiet|]. intros [p|] t1 H1; [|apply wp_ret; by eapply counted_view].
  apply (counted_view t t1 H1) in Hc. clear t H1. wbind. apply wp_on_files.
  eapply wp_mono; [|apply pipealloc_refs]. intros [[a b]|] s Hs; [|apply wp_ret; unfold counted_task; cbn; by rewrite Hs].
  destruct Hs as (Ha & Hb & Hs). set (t2 := set_files s t1).
  assert (forall t3 : task, tview t3 = (refs (files t1), ofile t1) -> counted_task t3) as Hback.
  { intros t3 H3. by apply (counted_view t1). }
  wbind. apply wp_fdalloc.
  - intros fd0 H0'. change (ofile t2) with (ofile t1) in *. destruct (Z.ltb_spec (Z.of_nat fd0) 0); [lia|].
    wbind. apply wp_fdalloc; cbn [orb].
    + intros fd1 Hfd1. destruct (Z.ltb_spec (Z.of_nat fd1) 0); [lia|]. set (t3 := set_ofile _ _).
      assert (counted_task t3) as Hc3.
      { unfold counted_task. change (refs (files t3)) with (refs s). rewrite Hs. cbn.
        apply (counted_share _ _ fd1 b 0); [by apply (counted_share _ _ fd0 a 0)|done..]. }
      eapply (wp_tquiet _ (fun _ t' => counted_task t')); [quiet_tac|]. intros ? t' Ht'. by eapply counted_view.
    + change (-1 <? 0) with true. cbv iota. destruct (Z.leb_spec 0 (Z.of_nat fd0)); [|lia].
      wbind. apply wp_modify. eapply wp_mono; [|eapply close_two; [exact Hs|done..]].
      intros r t3 H3. cbn beta in H3. apply Hback. rewrite H3. cbn. f_equal.
      rewrite Nat2Z.id, list_insert_insert_eq. by apply list_insert_id.
  - change (-1 <? 0) with true. cbv iota. wbind. apply wp_ret. change (-1 <? 0) with true. cbn [orb].
    change (0 <=? -1) with false. wbind. apply wp_ret.
    eapply wp_mono; [|eapply close_two; [exact Hs|done..]]. intros r t3 H3. by apply Hback.
Qed.

(** A process that makes one file system call after the other. *)
Inductive call :=
  Dup | Read | Write | Close | Fstat | Link | Unlink | Open | Mkdir | Mknod | Chdir | Mkpipe.
Definition ignore {A} (m : Tm A) : Tm unit := m ;; mret tt.
Definition run_call (c : call) : Tm unit :=
  match c with
  | Dup => ignore sys_dup
  | Read => ignore (sys_read killed)
  | Write => ignore (sys_write killed fuel others)
  | Close => ignore (sys_close fuel others)
  | Fstat => ignore sys_fstat
  | Link => ignore (sys_link fuel others)
  | Unlink => ignore (sys_unlink fuel others)
  | Open => ignore (sys_open fuel others)
  | Mkdir => ignore (sys_mkdir fuel others)
  | Mknod => ignore (sys_mknod fuel others)
  | Chdir => ignore (sys_chdir fuel others)
  | Mkpipe => ignore (sys_pipe fuel others)
  end.

(** Between two calls the process does what it likes with its memory and its stack. *)
Inductive task_step : relation task :=
  | step_call c t t' : run_call c t = Ok (tt, t') -> task_step t t'
  | step_user t m sp : task_step t (Task (files t) m sp (ofile t)).

Lemma counted_ignore {A} (m : Tm A) t :
  wpx any m (fun _ t' => counted_task t') t -> wpx any (ignore m) (fun _ t' => counted_task t') t.
Proof. intros Hm. unfold ignore. wbind. eapply wp_mono; [|exact Hm]. intros a t' Ht'. by apply wp_ret. Qed.

Lemma counted_quiet {A} (m : Tm A) t :
  quiet tview m -> counted_task t -> wpx any (ignore m) (fun _ t' => counted_task t') t.
Proof.
  intros Hm Hc. apply counted_ignore. eapply wp_tquiet; [exact Hm|]. intros a t' Ht'. by eapply counted_view.
Qed.

Lemma counted_call c t : counted_task t -> wpx any (run_call c) (fun _ t' => counted_task t') t.
Proof.
  intros Hc. destruct quiet_calls as (? & ? & ? & ? & ? & ? & ? & ?).
  destruct c; cbn [run_call]; try (by apply counted_quiet); apply counted_ignore;
    by (apply counted_dup || apply counted_close || apply counted_open || apply counted_pipe).
Qed.

Lemma counted_step t t' : counted_task t -> task_step t t' -> counted_task t'.
Proof.
  intros Hc Hs. destruct Hs as [c t t' Hr|t m sp]; [|done].
  pose proof (counted_call c t Hc) as Hw. unfold wpx in Hw. by rewrite Hr in Hw.
Qed.

(** C4. In every run of file system calls, failed ones included, every descriptor refers to a
    file of the table, and the reference count of each file is the number of its
    descriptors; so a file is closed just when its last descriptor is. *)
Theorem descriptors_are_counted t t' :
  counted_task t -> rtc task_step t t' -> counted_task t'.
Proof. intros Hc Hs. induction Hs as [|t1 t2 t3 H1 _ IH]; [done|]. by eapply IH, counted_step. Qed.
End Calls.

(** A process with one open file that duplicates its descriptor and closes the first. *)
#[local] Instance no_devices : Devices := {| dev_read _ := None; dev_write _ := None |}.
#[local] Instance no_linker : Linker := {| kend := KERNBASE; kdata := KERNBASE |}.

Definition counted_task0 : task :=
  Task (Filesys (Fsys (power_on 0 []) (Superblock 0 0 0 0 0 0 0) false [] 0) false
      [File FD_INODE 1 true true 0 0 0] ∅ (Machine ∅ false false 0 0 0))
    [0; 0; 0; 0; 0; 0; 0; 0] 0 (Some O :: replicate 15 None).

Lemma descriptors_are_counted_witness :
  exists t, rtc (task_step false 0 id) counted_task0 t /\ ofile t !! 0%nat = Some None /\
    ofile t !! 1%nat = Some (Some O) /\ counted_task t.
Proof.
  eexists. split.
  - eapply rtc_l; [apply (step_call _ _ _ Dup); vm_compute; reflexivity|].
    eapply rtc_l; [apply (step_call _ _ _ Close); vm_compute; reflexivity|]. apply rtc_refl.
  - split; [reflexivity|]. split; [reflexivity|].
    apply (descriptors_are_counted false 0 id counted_task0).
    + split.
      * intros [|f] n Hf; [by injection Hf as <-|done].
      * intros fd f Hf. destruct fd as [|fd]; [injection Hf as <-; by eexists|exfalso].
        change (replicate 15 (@None nat) !! fd = Some (Some f)) in Hf. by apply lookup_replicate in Hf as [? _].
      * reflexivity.
    + eapply rtc_l; [apply (step_call _ _ _ Dup); vm_compute; reflexivity|].
      eapply rtc_l; [apply (step_call _ _ _ Close); vm_compute; reflexivity|]. apply rtc_refl.
Defined.
