(* ===== verification/ExecSpec.v ===== *)
(** * The stack of a new program

    What [build_stack] leaves in the memory of the program that [exec] starts. *)

From S2P Require Import Prelude Bytes CString Layout Kalloc KallocSpec Vm VmSpec VmUser VmSpace Exec Bcache Log Fs Pipe File.

Section Stack.
Context `{Linker}.
Hypothesis Hkend : KERNBASE < kend.
Context (pgdir : Z).

(** ** clearpteu *)

Lemma clear_flag e : 0 <= e < 2 ^ 32 ->
  let x := Z.land e (w32 (Z.lnot PTE_U)) in
  0 <= x < 2 ^ 32 /\ PTE_ADDR x = PTE_ADDR e /\ Z.land x PTE_P = Z.land e PTE_P /\ Z.land x PTE_U = 0.
Proof.
  intros He x. unfold PTE_ADDR, x. rewrite <- !Z.land_assoc.
  change (Z.land (w32 (Z.lnot PTE_U)) (w32 (Z.lnot 0xFFF))) with (w32 (Z.lnot 0xFFF)).
  change (Z.land (w32 (Z.lnot PTE_U)) PTE_P) with PTE_P.
  change (Z.land (w32 (Z.lnot PTE_U)) PTE_U) with 0. rewrite Z.land_0_r. split; [|done].
  split; [apply Z.land_nonneg; left; lia|]. destruct (Z.eq_dec (Z.land e (w32 (Z.lnot PTE_U))) 0) as [->|Hne]; [lia|].
  assert (0 <= Z.land e (w32 (Z.lnot PTE_U))) by (apply Z.land_nonneg; left; lia).
  apply Z.log2_lt_pow2; [lia|]. eapply Z.le_lt_trans; [apply Z.log2_land; [lia|by vm_compute]|].
  apply Z.min_lt_iff. right. by vm_compute.
Qed.

(** The page [n] is closed to user code; nothing else changes. *)
Lemma clearpteu_run s T l U n v :
  proc_ok pgdir s T l U -> U !! n = Some v ->
  exists s', clearpteu pgdir (PGSIZE * n) s = Ok (tt, s') /\ proc_ok pgdir s' T l U /\
    vm_step pgdir s T l s' T l /\
    (forall k, 0 <= k < NUSER -> k <> n -> entry (pages s') T (PGSIZE * k) = entry (pages s) T (PGSIZE * k)) /\
    Z.land (entry (pages s') T (PGSIZE * n)) PTE_U = 0 /\
    forall k w, U !! k = Some w -> pages s' !! page_of w = pages s !! page_of w.
Proof.
  intros [Hvm Hu] Hn. destruct (uo_page _ _ _ _ _ Hu n v Hn) as (Hr & Hv & Hout).
  destruct (uo_entry _ _ _ _ _ Hu n v Hn) as (He & Hp & Ha). destruct (user_va n Hr) as (Hva & Hdiv & _).
  assert (exists t, T !! PDX (PGSIZE * n) = Some t) as [t Ht].
  { unfold entry in Hp. destruct (T !! _) as [t|]; [by exists t|]. by destruct Hp. }
  destruct (clear_flag _ He) as (Hx & Hxa & Hxp & Hxu). set (e := entry (pages s) T (PGSIZE * n)) in *.
  set (x := Z.land e (w32 (Z.lnot PTE_U))) in *.
  destruct (sto_entry s pgdir T l (PGSIZE * n) t x Hvm Ht Hx Hva) as (s' & R & Hs & Hen).
  assert (forall k w, U !! k = Some w -> pages s' !! page_of w = pages s !! page_of w) as HU.
  { intros k w Hk. apply Hs. by apply (uo_page _ _ _ _ _ Hu k w). }
  assert (forall k, 0 <= k < NUSER -> entry (pages s') T (PGSIZE * k) =
    if k =? n then x else entry (pages s) T (PGSIZE * k)) as Hk.
  { intros k Hk. destruct (user_va k Hk) as (Hvk & Hdk & _). by rewrite Hen, Hdiv, Hdk. }
  exists s'. split; [|split; [split; [apply Hs|]|split; [done|split; [|split; [|done]]]]].
  - unfold clearpteu. rewrite (bind_ok _ _ _ _ _ (walk_some s pgdir T _ t false (vo_dir _ _ _ _ Hvm) Ht)).
    destruct (walk_slot_ne _ _ _ _ _ (PTX (PGSIZE * n)) (vo_dir _ _ _ _ Hvm) Ht (PTX_range _)) as [Hne _].
    rewrite (proj2 (Z.eqb_neq _ _) Hne).
    by rewrite (bind_ok _ _ _ _ _ (entry_ld s pgdir T _ t (vo_dir _ _ _ _ Hvm) Ht)).
  - split; [| | |apply Hu].
    + intros k w Hw. destruct (uo_page _ _ _ _ _ Hu k w Hw) as (Hkr & Hwk & Ho). split; [done|].
      split; [|done]. by apply Hs.
    + intros k w Hw. destruct (uo_page _ _ _ _ _ Hu k w Hw) as (Hkr & _). rewrite Hk by done.
      destruct (Z.eqb_spec k n) as [->|]; [|by apply Hu]. cbn zeta. rewrite Hxp, Hxa. split; [done|].
      split; [done|]. rewrite Ha. congruence.
    + intros k Hkr Hw. rewrite Hk by done. destruct (Z.eqb_spec k n) as [->|]; [congruence|by apply Hu].
  - intros k Hkr Hne. rewrite Hk by done. by rewrite (proj2 (Z.eqb_neq k n)).
  - by rewrite Hk, Z.eqb_refl.
Qed.

(** ** Strings *)

(** The string [str] and what is behind it in memory. *)
Definition cstring (str s : list Z) : Prop :=
  Forall (fun c => c <> 0) str /\ exists junk, s = str ++ 0 :: junk.

Lemma string_length_run str s m : cstring str s -> string_length s m = Ok (Z.of_nat (length str), m).
Proof.
  intros [Hn [junk ->]]. unfold string_length.
  rewrite (strlen_spec _ 0 (str ++ 0 :: junk) str); [done| | |done|].
  - unfold slice. rewrite drop_0. change (str ++ 0 :: junk) with (str ++ [0] ++ junk). rewrite app_assoc.
    rewrite take_app_length'; [done|]. rewrite length_app. cbn. lia.
  - rewrite length_app. cbn. lia.
  - rewrite length_app. cbn. lia.
Qed.

Lemma take_cstring str s : cstring str s -> take (Z.to_nat (Z.of_nat (length str) + 1)) s = str ++ [0].
Proof.
  intros [_ [junk ->]]. change (str ++ 0 :: junk) with (str ++ [0] ++ junk). rewrite app_assoc.
  apply take_app_length'. rewrite length_app. cbn. lia.
Qed.

(** The bytes that the strings and the gaps for their alignment take at most. *)
Fixpoint strings_size (strs : list (list Z)) : Z :=
  match strs with [] => 0 | str :: strs' => Z.of_nat (length str) + 4 + strings_size strs' end.

Lemma strings_size_nonneg strs : 0 <= strings_size strs.
Proof. induction strs as [|str strs IH]; cbn; lia. Qed.

Lemma align4 x : 0 <= x < 2 ^ 32 -> Z.land x (w32 (Z.lnot 3)) = 4 * (x / 4).
Proof.
  intros Hx. unfold w32. rewrite <- Z.land_ones by lia.
  rewrite (Z.land_comm (Z.lnot _)), Z.land_assoc, (Z.land_ones x 32), (Z.mod_small x) by lia.
  rewrite <- Z.ldiff_land. change 3 with (Z.ones 2). rewrite Z.ldiff_ones_r by lia.
  rewrite Z.shiftl_mul_pow2, Z.shiftr_div_pow2 by lia. apply Z.mul_comm.
Qed.

(** The bytes [l] are in user memory from [a] on. *)
Definition user_has (s : machine) (U : gmap Z Z) (a : Z) (l : list Z) : Prop :=
  forall k, (k < length l)%nat -> user_byte s U (a + Z.of_nat k) = l !! k.

Lemma copied_has s U va buf s' : VmSpace.copied s U va buf s' -> user_has s' U va buf.
Proof.
  intros Hc k Hk. rewrite Hc, (proj2 (Z.leb_le _ _)), (proj2 (Z.ltb_lt _ _)) by lia. cbn [andb].
  f_equal. lia.
Qed.

Lemma user_has_same s s' U a l :
  (forall b, a <= b < a + Z.of_nat (length l) -> user_byte s' U b = user_byte s U b) ->
  user_has s U a l -> user_has s' U a l.
Proof. intros Hs Hh k Hk. rewrite Hs by lia. by apply Hh. Qed.

(** ** push_args *)

Section Push.
Context (T : gmap Z Z) (l : list Z) (U : gmap Z Z) (m : Z).
Hypothesis Hm : 0 <= m.
Hypothesis Hmax : m + 2 <= NUSER.
Hypothesis Hguard : is_Some (U !! m).
Hypothesis Hstack : is_Some (U !! (m + 1)).

Lemma stack_pages a len : PGSIZE * m <= a -> a + len <= PGSIZE * (m + 2) ->
  forall b, a <= b < a + len -> is_Some (U !! (b / PGSIZE)) /\ (PGSIZE * (m + 1) <= b -> b / PGSIZE = m + 1).
Proof using All.
  intros Ha Hlen b Hb. assert (b / PGSIZE = m \/ b / PGSIZE = m + 1) as Hd
    by (unfold PGSIZE in *; Z.div_mod_to_equations; lia).
  split; [by destruct Hd as [->| ->]|]. intros Hbm. unfold PGSIZE in *. Z.div_mod_to_equations. lia.
Qed.

(** A [copyout] to the two pages of the stack. *)
Lemma copyout_stack s va p :
  proc_ok pgdir s T l U -> accessible s T U (m + 1) ->
  PGSIZE * m <= va -> va + Z.of_nat (length p) <= PGSIZE * (m + 2) ->
  exists r s', copyout pgdir va p s = Ok (r, s') /\ proc_ok pgdir s' T l U /\ user_change T U s s' /\
    accessible s' T U (m + 1) /\
    (r = 0 /\ VmSpace.copied s U va p s' \/ r = -1 /\ va < PGSIZE * (m + 1)).
Proof using All.
  intros Hok Hacc Hlo Hhi. pose proof (stack_pages va _ Hlo Hhi) as Hp.
  assert (NUSER = 524288) as HN by reflexivity.
  destruct (copyout_total pgdir s T l U va p Hok) as (r & s' & R & Hok' & Hc & Hr).
  { plia. } { unfold KERNBASE. plia. } { intros a Ha. by apply Hp. }
  exists r, s'. split; [done|]. split; [done|]. split; [done|]. split.
  - destruct Hacc as [H1 H2]. split; [done|]. by rewrite (uc_entry _ _ _ _ Hc).
  - destruct Hr as [Hr|(-> & a & Ha & Hn)]; [by left|right]. split; [done|].
    destruct (Z.lt_ge_cases a (PGSIZE * (m + 1))) as [|Hge]; [lia|]. destruct Hn.
    by rewrite (proj2 (Hp a Ha) Hge).
Qed.

(** The strings [strs] are at the addresses [addrs], from [lo] up to [hi]. *)
Definition strings_at (s : machine) (lo hi : Z) (addrs : list Z) (strs : list (list Z)) : Prop :=
  Forall2 (fun a str => lo <= a /\ a + Z.of_nat (length str) + 1 <= hi /\ user_has s U a (str ++ [0])) addrs strs.

Lemma strings_at_same s s' lo hi addrs strs :
  (forall b, lo <= b < hi -> user_byte s' U b = user_byte s U b) ->
  strings_at s lo hi addrs strs -> strings_at s' lo hi addrs strs.
Proof.
  intros Hs Hat. eapply Forall2_impl; [exact Hat|]. intros a str (H1 & H2 & H3). split; [done|].
  split; [done|]. eapply user_has_same; [|exact H3]. intros b Hb. apply Hs.
  rewrite length_app in Hb. cbn in Hb. lia.
Qed.

Lemma strings_at_wider s lo lo' hi hi' addrs strs : lo' <= lo -> hi <= hi' ->
  strings_at s lo hi addrs strs -> strings_at s lo' hi' addrs strs.
Proof.
  intros H1 H2 Hat. eapply Forall2_impl; [exact Hat|]. intros a str (H3 & H4 & H5).
  split_and!; [lia|lia|done].
Qed.

(** The results of [push_args]. *)
Definition pushed (s s' : machine) (strs : list (list Z)) (argc sp : Z) (addrs : list Z)
    (r : option (Z * Z * list Z)) : Prop :=
  match r with
  | None => MAXARG < argc + Z.of_nat (length strs) \/ sp - strings_size strs < PGSIZE * (m + 1)
  | Some (argc', sp', addrs') =>
      argc' = argc + Z.of_nat (length strs) /\ sp - strings_size strs <= sp' <= sp /\
      (forall a, a < sp' \/ sp <= a -> user_byte s' U a = user_byte s U a) /\
      exists new, addrs' = addrs ++ new /\ strings_at s' sp' sp new strs
  end.

Lemma push_args_run strs argv s argc sp addrs :
  Forall2 cstring strs argv -> proc_ok pgdir s T l U -> accessible s T U (m + 1) -> 0 <= argc ->
  PGSIZE * m + strings_size strs <= sp <= PGSIZE * (m + 2) ->
  exists r s', push_args pgdir argv argc sp addrs s = Ok (r, s') /\ proc_ok pgdir s' T l U /\
    user_change T U s s' /\ accessible s' T U (m + 1) /\ pushed s s' strs argc sp addrs r.
Proof using All.
  intros Hcs. revert s argc sp addrs. induction Hcs as [|str cs strs argv Hstr _ IH]; intros s argc sp addrs Hok Hacc Hc Hsp.
  - exists (Some (argc, sp, addrs)), s. split; [done|]. split; [done|]. split; [done|]. split; [done|].
    cbn in *. split; [lia|]. split; [lia|]. split; [done|]. exists []. split; [by rewrite app_nil_r|constructor].
  - cbn [push_args]. cbn [strings_size] in Hsp. pose proof (strings_size_nonneg strs) as Hnn.
    assert (NUSER = 524288) as HN by reflexivity.
    destruct (Z.leb_spec MAXARG argc) as [Hge|Hlt].
    { exists None, s. split; [done|]. split; [done|]. split; [done|]. split; [done|]. left. cbn [length]. lia. }
    rewrite (bind_ok _ _ _ _ _ (string_length_run str cs s Hstr)).
    set (n := Z.of_nat (length str)) in *. rewrite w32_small by plia. rewrite align4 by plia.
    set (sp1 := 4 * ((sp - (n + 1)) / 4)).
    assert (sp - (n + 4) <= sp1 <= sp - (n + 1)) as Hsp1 by (unfold sp1; Z.div_mod_to_equations; lia).
    unfold n. rewrite (take_cstring str cs Hstr).
    assert (Z.of_nat (length (str ++ [0])) = n + 1) as Hl1 by (rewrite length_app; cbn; lia).
    destruct (copyout_stack s sp1 (str ++ [0]) Hok Hacc) as (r & s1 & R1 & Hok1 & Hc1 & Hacc1 & Hr); [lia|lia|].
    rewrite (bind_ok _ _ _ _ _ R1).
    destruct Hr as [[-> Hcp]|[-> Hlow]].
    + change (0 <? 0) with false. cbv iota.
      destruct (IH s1 (argc + 1) sp1 (addrs ++ [sp1]) Hok1 Hacc1) as (r & s2 & R2 & Hok2 & Hc2 & Hacc2 & Hr); [lia|lia|].
      exists r, s2. split; [exact R2|]. split; [done|]. split; [by etransitivity|]. split; [done|].
      destruct r as [[[argc' sp'] addrs']|]; cbn [pushed] in *.
      * destruct Hr as (-> & Hsp' & Hsame & new & -> & Hat). cbn [strings_size length]. fold n.
        split; [lia|]. split; [lia|]. split.
        { intros a Ha. rewrite Hsame by lia. rewrite Hcp, Hl1.
          destruct (Z.leb_spec sp1 a), (Z.ltb_spec a (sp1 + (n + 1))); cbn [andb]; done || lia. }
        exists (sp1 :: new). split; [by rewrite <- app_assoc|]. constructor.
        -- split; [lia|]. fold n. split; [lia|]. eapply user_has_same; [|eapply copied_has; exact Hcp].
           intros b Hb. apply Hsame. lia.
        -- eapply strings_at_wider; [| |exact Hat]; lia.
      * cbn [strings_size length]. fold n. destruct Hr as [Hr|Hr]; [left|right]; lia.
    + change (-1 <? 0) with true. cbv iota. exists None, s1. split; [done|]. split; [done|].
      split; [done|]. split; [done|]. right. cbn [strings_size]. fold n. lia.
Qed.
End Push.

(** ** build_stack *)

(** The stack as [main] finds it: the return address, [argc], [argv], the array of the
    arguments with a null pointer at its end, and the strings. *)
Definition main_stack (s : machine) (U : gmap Z Z) (sp top : Z) (strs : list (list Z)) : Prop :=
  exists addrs,
    user_has s U sp (concat (map (le_bytes 4)
      ([0xffffffff; Z.of_nat (length strs); sp + 12] ++ addrs ++ [0]))) /\
    strings_at U s (sp + 4 * (Z.of_nat (length strs) + 4)) top addrs strs.

(** The room that the arguments need. *)
Definition args_size (strs : list (list Z)) : Z := strings_size strs + 4 * (Z.of_nat (length strs) + 4).

Lemma words_length l : length (concat (map (le_bytes 4) l)) = (4 * length l)%nat.
Proof. induction l as [|x l IH]; [done|]. cbn [map concat]. rewrite length_app, length_le_bytes, IH. cbn. lia. Qed.

(** [build_stack] for a program whose pages end before the page [k]: the guard page [k],
    the page [k + 1] with the stack, and the rest as it was; or no stack, because the
    arguments are too many or too long, or there is no room for the two pages below
    [KERNBASE], or fewer than four pages are free: two for the stack, two for their tables. *)
Definition no_stack_pages (k : Z) (l : list Z) : Prop := KERNBASE <= PGSIZE * (k + 2) \/ (length l < 4)%nat.

Definition stack_result (k : Z) (strs : list (list Z)) (s : machine) (l : list Z) (U : gmap Z Z)
    (s' : machine) (T' U' : gmap Z Z) (r : option (Z * Z)) : Prop :=
  match r with
  | None => MAXARG < Z.of_nat (length strs) \/ PGSIZE < args_size strs \/
      no_stack_pages k l /\ forall n, U' !! n = U !! n
  | Some (sz, sp) =>
      sz = PGSIZE * (k + 2) /\ PGSIZE * k <= sp < sz /\ main_stack s' U' sp sz strs /\
      (forall a, a < PGSIZE * k -> user_byte s' U' a = user_byte s U a) /\
      (forall n, n < k \/ k + 2 <= n -> U' !! n = U !! n) /\
      is_Some (U' !! k) /\ ~ accessible s' T' U' k /\ accessible s' T' U' (k + 1)
  end.

Lemma pages_up_mult n : 0 <= n -> pages_up (PGSIZE * n) = n.
Proof. intros Hn. unfold pages_up, PGSIZE. Z.div_mod_to_equations. lia. Qed.

(** The rest of [build_stack] after the pages are there. *)
Lemma fill_stack_run s T l U k strs argv :
  proc_ok pgdir s T l U -> 0 <= k -> k + 2 <= NUSER -> is_Some (U !! k) ->
  accessible s T U (k + 1) -> Forall2 cstring strs argv -> args_size strs <= 2 * PGSIZE ->
  let sz := PGSIZE * (k + 2) in
  exists r s',
    (r ← push_args pgdir argv 0 sz [];
     match r with
     | None => mret None
     | Some (argc, sp, addrs) =>
         let words := ustack argc sp addrs in
         let sp := w32 (sp - (3 + argc + 1) * 4) in
         r ← copyout pgdir sp (concat (map (le_bytes 4) words));
         if r <? 0 then mret None else mret (Some (sz, sp))
     end) s = Ok (r, s') /\ proc_ok pgdir s' T l U /\ user_change T U s s' /\
    match r with
    | None => MAXARG < Z.of_nat (length strs) \/ PGSIZE < args_size strs
    | Some (sz', sp) => sz' = sz /\ PGSIZE * k <= sp < sz /\ main_stack s' U sp sz strs /\
        forall a, a < PGSIZE * k -> user_byte s' U a = user_byte s U a
    end.
Proof using All.
  intros Hok Hk Hmax Hg Hacc Hcs Hsize sz. assert (NUSER = 524288) as HN by reflexivity.
  pose proof (strings_size_nonneg strs) as Hnn. unfold args_size in *.
  destruct (push_args_run T l U k Hk Hmax Hg (proj1 Hacc) strs argv s 0 sz [] Hcs Hok Hacc) as
    (r & s1 & R & Hok1 & Hc1 & Hacc1 & Hr); [lia|unfold sz; plia|].
  rewrite (bind_ok _ _ _ _ _ R). destruct r as [[[argc sp] addrs]|]; cbn [pushed] in Hr; last first.
  { exists None, s1. split; [done|]. split; [done|]. split; [done|]. unfold sz in *.
    destruct Hr as [Hr|Hr]; [left|right]; plia. }
  destruct Hr as (-> & Hsp & Hsame & new & -> & Hat). cbn [app]. rewrite Z.add_0_l.
  pose proof (Forall2_length _ _ _ Hat) as Hln. set (n := Z.of_nat (length strs)) in *.
  set (sp2 := sp - 4 * (n + 4)).
  assert (w32 (sp - (3 + n + 1) * 4) = sp2) as -> by (unfold sp2; rewrite w32_small by (unfold sz in *; plia); lia).
  unfold ustack. assert (w32 (sp - (n + 1) * 4) = sp2 + 12) as ->
    by (unfold sp2; rewrite w32_small by (unfold sz in *; plia); lia).
  set (words := [0xffffffff; n; sp2 + 12] ++ new ++ [0]).
  assert (Z.of_nat (length (concat (map (le_bytes 4) words))) = 4 * (n + 4)) as Hlw.
  { rewrite words_length. unfold words. rewrite !length_app, Hln. cbn. lia. }
  destruct (copyout_stack T l U k Hk Hmax Hg (proj1 Hacc) s1 sp2 (concat (map (le_bytes 4) words)) Hok1 Hacc1)
    as (r & s2 & R2 & Hok2 & Hc2 & Hacc2 & Hr); [unfold sp2, sz in *; plia|rewrite Hlw; unfold sp2, sz in *; plia|].
  rewrite (bind_ok _ _ _ _ _ R2). destruct Hr as [[-> Hcp]|[-> Hlow]].
  - change (0 <? 0) with false. cbv iota. exists (Some (sz, sp2)), s2. split; [done|]. split; [done|].
    split; [by etransitivity|]. split; [done|]. split; [unfold sp2, sz in *; plia|]. split.
    + exists new. split; [by eapply copied_has; exact Hcp|]. fold n.
      replace (sp2 + 4 * (n + 4)) with sp by (unfold sp2; lia).
      eapply strings_at_same; [|exact Hat]. intros b Hb. rewrite Hcp, Hlw.
      destruct (Z.leb_spec sp2 b), (Z.ltb_spec b (sp2 + 4 * (n + 4))); cbn [andb]; try done. unfold sp2 in *. lia.
    + intros a Ha. rewrite Hcp, Hlw, Hsame by (left; unfold sz in *; plia).
      destruct (Z.leb_spec sp2 a), (Z.ltb_spec a (sp2 + 4 * (n + 4))); cbn [andb]; try done. unfold sp2, sz in *. plia.
  - change (-1 <? 0) with true. cbv iota. exists None, s2. split; [done|]. split; [done|].
    split; [by etransitivity|]. right. unfold sp2, sz in *. plia.
Qed.

(** A change of user pages in an address space. *)
Lemma owns_change s0 l0 s s' T l U :
  owns s0 l0 pgdir s T l U -> user_change T U s s' -> owns s0 l0 pgdir s' T l U.
Proof.
  intros [Hp Hf Hk] [Fr _ Ok']. split; [done| |auto].
  intros p Hout. rewrite Fr; [by apply Hf|]. intros n v Hv. apply Hout, Hp. right. right. right. by exists n.
Qed.

(** Growing leaves the bytes that were there. *)
Lemma gained_bytes i j s T l U s' T' l' U' a :
  gained pgdir i j s T l U s' T' l' U' -> a / PGSIZE < i -> user_byte s' U' a = user_byte s U a.
Proof.
  intros G Ha. unfold user_byte. rewrite (ga_user _ _ _ _ _ _ _ _ _ _ _ G) by (by left).
  destruct (U !! (a / PGSIZE)) as [v|] eqn:Hv; [|done]. cbn.
  by rewrite (ga_old _ _ _ _ _ _ _ _ _ _ _ G _ v Hv).
Qed.

Lemma build_stack_run s T l U sz strs argv :
  proc_ok pgdir s T l U -> 0 <= sz < KERNBASE -> let k := pages_up sz in
  (forall n, k <= n -> U !! n = None) -> Forall2 cstring strs argv -> args_size strs <= 2 * PGSIZE ->
  exists r s' T' l' U', build_stack pgdir sz argv s = Ok (r, s') /\ proc_ok pgdir s' T' l' U' /\
    (forall s0 l0, owns s0 l0 pgdir s T l U -> owns s0 l0 pgdir s' T' l' U') /\
    stack_result k strs s l U s' T' U' r.
Proof using Hkend.
  intros Hok Hsz k Hnone Hcs Hsize. assert (NUSER = 524288) as HN by reflexivity.
  assert (0 <= k /\ sz <= PGSIZE * k <= KERNBASE) as [Hk0 Hk].
  { unfold k, pages_up, KERNBASE, PGSIZE in *. split; Z.div_mod_to_equations; lia. }
  unfold build_stack. rewrite PGROUNDUP_pages by done. fold k.
  rewrite (w32_small (PGSIZE * k + 2 * PGSIZE)) by (unfold KERNBASE in *; plia).
  replace (PGSIZE * k + 2 * PGSIZE) with (PGSIZE * (k + 2)) by lia.
  destruct (Z.le_gt_cases KERNBASE (PGSIZE * (k + 2))) as [Hbig|Hsmall].
  { exists None, s, T, l, U. split; [|split; [done|split; [done|]]].
    - unfold allocuvm. rewrite (proj2 (Z.leb_le _ _)) by done. done.
    - right. right. split; [by left|done]. }
  destruct (allocuvm_run Hkend pgdir s T l U (PGSIZE * k) (PGSIZE * (k + 2))) as (r & s1 & T1 & l1 & U1 & R & Hg & Hl);
    [plia|done| |done|].
  { rewrite !pages_up_mult by lia. intros n Hn. apply Hnone. lia. }
  unfold grown, enough in *. rewrite !pages_up_mult in Hg by lia. rewrite !pages_up_mult in Hl by lia. rewrite (bind_ok _ _ _ _ _ R).
  destruct Hg as [[-> G]|[-> G]]; last first.
  { exists None, s1, T1, l1, U1. split; [done|]. split; [apply G|]. split.
    - intros s0 l0 Ho. by eapply owns_gained.
    - right. right. split; [right; plia|]. intros n. apply (ga_user _ _ _ _ _ _ _ _ _ _ _ G). lia. }
  rewrite (proj2 (Z.eqb_neq _ _)) by plia. rewrite w32_small by (unfold KERNBASE in *; plia).
  replace (PGSIZE * (k + 2) - 2 * PGSIZE) with (PGSIZE * k) by lia.
  destruct (ga_new _ _ _ _ _ _ _ _ _ _ _ G k ltac:(lia)) as (v & Hv & _).
  destruct (ga_new _ _ _ _ _ _ _ _ _ _ _ G (k + 1) ltac:(lia)) as (v1 & Hv1 & _ & _ & Hu1).
  destruct (clearpteu_run s1 T1 l1 U1 k v (ga_ok _ _ _ _ _ _ _ _ _ _ _ G) Hv)
    as (s2 & R2 & Hok2 & Hst2 & He2 & Hgu & Hc2).
  rewrite (bind_ok _ _ _ _ _ R2).
  assert (accessible s2 T1 U1 (k + 1)) as Hacc.
  { split; [by exists v1|]. rewrite He2; [done|unfold KERNBASE in *; plia|lia]. }
  destruct (fill_stack_run s2 T1 l1 U1 k strs argv Hok2) as (r & s3 & R3 & Hok3 & Hc3 & Hr); try done.
  { unfold KERNBASE in *. plia. }
  exists r, s3, T1, l1, U1. split; [exact R3|]. split; [done|]. split.
  { intros s0 l0 Ho. eapply owns_change; [|exact Hc3]. eapply owns_step; [|exact Hst2]. by eapply owns_gained. }
  destruct r as [[sz' sp]|]; cbn [stack_result].
  - destruct Hr as (-> & Hsp & Hmain & Hbelow). split; [done|]. split; [done|]. split; [done|]. split.
    { intros a Ha. rewrite Hbelow by done.
      assert (user_byte s2 U1 a = user_byte s1 U1 a) as ->.
      { unfold user_byte. destruct (U1 !! (a / PGSIZE)) as [w|] eqn:Hw; [|done]. cbn. by rewrite (Hc2 _ w Hw). }
      eapply gained_bytes; [exact G|]. unfold PGSIZE in *. Z.div_mod_to_equations. lia. }
    split; [intros n Hn; by apply (ga_user _ _ _ _ _ _ _ _ _ _ _ G)|]. split; [by exists v|]. split.
    + intros [_ Hn]. apply Hn. by rewrite (uc_entry _ _ _ _ Hc3).
    + destruct Hacc as [H1 H2]. split; [done|]. by rewrite (uc_entry _ _ _ _ Hc3).
  - destruct Hr as [Hr|Hr]; [by left|right; by left].
Qed.
End Stack.

(** ** The loader *)

(** The file at [path], if there is one, as [exec] uses it between [begin_op] and [end_op]:
    [file_size] and [content] give its bytes.  [ready] holds between transactions, [opened i] while the inode [i] of the
    file is locked. *)
Class ProgramFile `{Devices} (fuel : nat) (others : store -> store) (path : list Z) (content : Z -> Z) := {
  ready : fsys -> Prop;
  opened : nat -> fsys -> Prop;
  present : bool;
  file_size : Z;
  file_size_range : 0 <= file_size < 2 ^ 32;
  content_byte : forall p, 0 <= content p < 256;
  file_lookup : forall f, ready f -> exists f1, disk (begin_op fuel others) f = Ok (tt, f1) /\
    (present = false /\
       (exists f2 f3, namei path f1 = Ok (None, f2) /\ disk end_op f2 = Ok (tt, f3) /\ ready f3) \/
     present = true /\ exists i f2 f3, namei path f1 = Ok (Some i, f2) /\ ilock (Some i) f2 = Ok (tt, f3) /\ opened i f3);
  file_read : forall i f off n, opened i f -> 0 <= off < 2 ^ 32 -> 0 <= n <= PGSIZE ->
    exists r l f', readi i off n f = Ok ((r, l), f') /\ opened i f' /\
      r = (if file_size <? off then -1 else Z.min n (file_size - off)) /\
      (r = -1 \/ 0 <= r <= n /\ off + r <= 2 ^ 32 /\
         l = map (fun k => content (off + Z.of_nat k)) (seq 0 (Z.to_nat r)));
  file_close : forall i f, opened i f ->
    exists f1 f2, iunlockput i f = Ok (tt, f1) /\ disk end_op f1 = Ok (tt, f2) /\ ready f2
}.

Section Load.
Context `{Linker} `{ProgramFile fuel others path content}.
Hypothesis Hkend : KERNBASE < kend.

(** The bytes of the file from [off] on. *)
Definition file_part (off n : Z) : list Z := map (fun k => content (off + Z.of_nat k)) (seq 0 (Z.to_nat n)).

Lemma file_part_length off n : length (file_part off n) = Z.to_nat n.
Proof. unfold file_part. by rewrite length_map, length_seq. Qed.

Lemma file_part_lookup off n k : (k < Z.to_nat n)%nat -> file_part off n !! k = Some (content (off + Z.of_nat k)).
Proof. intros Hk. unfold file_part. rewrite list_lookup_fmap, lookup_seq_lt by done. done. Qed.

(** The open files and the pipes, which [exec] does not touch. *)
Definition same_files (s s' : filesys) : Prop :=
  ftable_lock s' = ftable_lock s /\ ftable s' = ftable s /\ pipes s' = pipes s.

#[export] Instance same_files_preorder : PreOrder same_files.
Proof.
  split; [by intros s|]. intros s1 s2 s3 (A1 & B1 & C1) (A2 & B2 & C2). unfold same_files.
  rewrite A2, B2, C2. done.
Qed.

Lemma on_fs_ok {A} (m : Fs A) s a f : m (fsy s) = Ok (a, f) ->
  on_fs m s = Ok (a, set_fsy f s) /\ same_files s (set_fsy f s).
Proof. intros Hm. unfold on_fs, zoom. by rewrite Hm. Qed.

Lemma on_mem_ok {A} (m : Mem A) s a f : m (kmem s) = Ok (a, f) ->
  on_mem m s = Ok (a, set_kmem f s) /\ same_files s (set_kmem f s).
Proof. intros Hm. unfold on_mem, zoom. by rewrite Hm. Qed.

(** ** loaduvm *)

Section Segment.
Context (d : Z) (i : nat) (T : gmap Z Z) (l : list Z) (U : gmap Z Z) (top b off sz : Z).
Hypothesis Htop : top <= NUSER.
Hypothesis Hthere : forall n, 0 <= n < top -> is_Some (U !! n).
Hypothesis Hb : 0 <= b.
Hypothesis Hsz : 0 <= sz.
Hypothesis Hend : PGSIZE * b + sz <= PGSIZE * top.

(** The part of the segment from the page [j] on is in memory. *)
Definition segment_in (j : Z) (s s' : machine) : Prop := forall a,
  user_byte s' U a =
    if (PGSIZE * (b + j) <=? a) && (a <? PGSIZE * b + sz) then Some (content (w32 (off + (a - PGSIZE * b))))
    else user_byte s U a.

(** The bytes of one page are read into it. *)
Lemma load_page s n v o r : proc_ok d s T l U -> U !! n = Some v -> 0 <= r <= PGSIZE ->
  exists s', store_bytes v (file_part o r) s = Ok (tt, s') /\ proc_ok d s' T l U /\ user_change T U s s' /\
    forall a, user_byte s' U a =
      if (PGSIZE * n <=? a) && (a <? PGSIZE * n + r) then Some (content (o + (a - PGSIZE * n)))
      else user_byte s U a.
Proof.
  intros Hok Hn Hr. destruct (uo_page _ _ _ _ _ (po_user _ _ _ _ _ Hok) n v Hn) as (_ & Hv & _).
  destruct (po_mem _ _ Hv) as (c & Hc & Hlc). pose proof (kpage_offset v (po_kpage _ _ Hv)) as Hoff.
  pose proof (file_part_length o r) as Hlp.
  assert (length (splice 0 (file_part o r) c) = Z.to_nat PGSIZE) as Hls by (rewrite splice_length; lia).
  destruct (write_user d s T l U n v _ Hok Hn Hls) as (Hok' & Hch & Hby).
  eexists. split; [|split; [exact Hok'|split; [exact Hch|]]].
  - rewrite (store_bytes_run s v _ c Hc) by (rewrite Hoff; lia). by rewrite Hoff.
  - intros a. rewrite Hby. destruct (Z.eqb_spec (a / PGSIZE) n) as [Han|Han].
    + change (splice 0 (file_part o r) c) with (splice (Z.to_nat 0) (file_part o r) c).
      rewrite (splice_page c (file_part o r) 0 n (PGSIZE * n) a); [|done| | |lia|done].
      * rewrite Hlp, Z2Nat.id by lia. destruct (Z.leb_spec (PGSIZE * n) a), (Z.ltb_spec a (PGSIZE * n + r)); cbn [andb].
        -- rewrite file_part_lookup by lia. do 2 f_equal. lia.
        -- unfold user_byte. rewrite Han, Hn. cbn. by rewrite Hc.
        -- unfold user_byte. rewrite Han, Hn. cbn. by rewrite Hc.
        -- unfold user_byte. rewrite Han, Hn. cbn. by rewrite Hc.
      * rewrite Z.mul_comm. symmetry. by apply Z.mod_mul.
      * rewrite Z.mul_comm. symmetry. by apply Z.div_mul.
    + destruct (Z.leb_spec (PGSIZE * n) a), (Z.ltb_spec a (PGSIZE * n + r)); cbn [andb]; try done.
      destruct Han. unfold PGSIZE in *. Z.div_mod_to_equations. lia.
Qed.

Lemma load_loop_run rounds j s :
  proc_ok d (kmem s) T l U -> opened i (fsy s) -> 0 <= off < 2 ^ 32 -> 0 <= j <= pages_up sz ->
  (Z.to_nat (pages_up sz - j) < rounds)%nat ->
  exists r s', load_loop rounds d (PGSIZE * b) i off sz (PGSIZE * j) s = Ok (r, s') /\
    proc_ok d (kmem s') T l U /\ opened i (fsy s') /\ same_files s s' /\
    user_change T U (kmem s) (kmem s') /\
    (r = -1 /\ file_size < off + sz \/ r = 0 /\ segment_in j (kmem s) (kmem s')).
Proof using All.
  revert j s. induction rounds as [|rounds IH]; intros j s Hok Hop Hoff Hj Hr; [lia|]. cbn [load_loop].
  assert (NUSER = 524288) as HN by reflexivity.
  destruct (Z.ltb_spec (PGSIZE * j) sz) as [Hlt|Hge]; last first.
  { exists 0, s. split; [done|]. split; [done|]. split; [done|]. split; [done|]. split; [done|]. right.
    split; [done|]. intros a. destruct (Z.leb_spec (PGSIZE * (b + j)) a), (Z.ltb_spec a (PGSIZE * b + sz));
      cbn [andb]; done || lia. }
  assert (j < pages_up sz) as Hjp by by apply pages_up_lt.
  rewrite (w32_small (PGSIZE * b + PGSIZE * j)) by plia. replace (PGSIZE * b + PGSIZE * j) with (PGSIZE * (b + j)) by lia.
  set (n := b + j) in *. assert (0 <= n < top) as Hn by (unfold n; plia).
  destruct (Hthere n Hn) as [v Hv].
  pose proof (po_vm _ _ _ _ _ Hok) as Hvm. pose proof (po_user _ _ _ _ _ Hok) as Hu.
  destruct (uo_entry _ _ _ _ _ Hu n v Hv) as (_ & Hp & Ha). destruct (uo_page _ _ _ _ _ Hu n v Hv) as (_ & Hpv & _).
  destruct (T !! PDX (PGSIZE * n)) as [t|] eqn:Ht; [|destruct Hp; unfold entry; by rewrite Ht].
  destruct (on_mem_ok _ s _ _ (walk_some (kmem s) d T _ t false (vo_dir _ _ _ _ Hvm) Ht)) as [R1 _].
  assert (set_kmem (kmem s) s = s) as Hid by by destruct s. rewrite Hid in R1. rewrite (bind_ok _ _ _ _ _ R1).
  destruct (walk_slot_ne _ _ _ _ _ (PTX (PGSIZE * n)) (vo_dir _ _ _ _ Hvm) Ht (PTX_range _)) as [Hne _].
  rewrite (proj2 (Z.eqb_neq _ _) Hne).
  destruct (on_mem_ok _ s _ _ (entry_ld (kmem s) d T _ t (vo_dir _ _ _ _ Hvm) Ht)) as [R2 _].
  rewrite Hid in R2. rewrite (bind_ok _ _ _ _ _ R2), Ha, P2V_V2P by apply Hpv.
  set (m := if sz - PGSIZE * j <? PGSIZE then sz - PGSIZE * j else PGSIZE).
  assert (m = Z.min (sz - PGSIZE * j) PGSIZE) as Hm by (unfold m; destruct (Z.ltb_spec (sz - PGSIZE * j) PGSIZE); lia).
  pose proof (w32_bounds (off + PGSIZE * j)) as Hob.
  destruct (file_read i (fsy s) (w32 (off + PGSIZE * j)) m Hop Hob) as (r & by_ & f1 & Rf & Hop1 & Hrl & Hres); [plia|].
  assert (r <> m -> file_size < off + sz) as Hshort.
  { intros Hrm. destruct (Z.lt_ge_cases file_size (off + sz)) as [|Hfit]; [done|]. destruct Hrm.
    pose proof file_size_range. rewrite w32_small in Hrl by plia.
    rewrite (proj2 (Z.ltb_ge _ _)) in Hrl by plia. rewrite Hrl. lia. }
  clear Hrl.
  destruct (on_fs_ok _ s _ _ Rf) as [R3 Hs1]. rewrite (bind_ok _ _ _ _ _ R3).
  set (s1 := set_fsy f1 s) in *.
  destruct Hres as [->|(Hr0 & Hof & ->)].
  { change (-1 <? 0) with true. cbn [negb when]. exists (-1), s1. split.
    - rewrite (bind_ok _ _ s1 tt s1) by (by destruct s). by rewrite (proj2 (Z.eqb_neq (-1) m)) by plia.
    - split; [done|]. split; [done|]. split; [done|]. split; [done|]. left. split; [done|]. apply Hshort. plia. }
  rewrite (proj2 (Z.ltb_ge r 0)) by lia. cbn [negb when].
  destruct (load_page (kmem s) n v (w32 (off + PGSIZE * j)) r Hok Hv ltac:(lia)) as (k2 & R4 & Hok2 & Hc2 & Hb2).
  destruct (on_mem_ok _ s1 _ _ R4) as [R5 Hs2]. unfold file_part in R5. rewrite (bind_ok _ _ _ _ _ R5).
  set (s2 := set_kmem k2 s1) in *.
  destruct (Z.eqb_spec r m) as [->|Hrm]; cbn [negb].
  - rewrite w32_small by plia. replace (PGSIZE * j + PGSIZE) with (PGSIZE * (j + 1)) by lia.
    destruct (IH (j + 1) s2 Hok2 Hop1 Hoff) as (r & s3 & R6 & Hok3 & Hop3 & Hs3 & Hc3 & Hr3); [lia|lia|].
    exists r, s3. split; [done|]. split; [done|]. split; [done|]. split; [by rewrite Hs1, Hs2|].
    split; [by etransitivity|]. destruct Hr3 as [[-> ?]|[-> Hin]]; [by left|right]. split; [done|].
    intros a. rewrite Hin. replace (b + (j + 1)) with (n + 1) by (unfold n; lia). fold n. rewrite Hb2.
    destruct (Z.leb_spec (PGSIZE * (n + 1)) a), (Z.ltb_spec a (PGSIZE * b + sz)), (Z.leb_spec (PGSIZE * n) a),
      (Z.ltb_spec a (PGSIZE * n + m)); cbn [andb]; try done; try (unfold n in *; plia).
    do 2 f_equal. unfold w32 in *. unfold n in *.
    replace (off + (a - PGSIZE * b)) with (off + PGSIZE * j + (a - PGSIZE * (b + j))) by lia.
    rewrite <- (Z.add_mod_idemp_l (off + PGSIZE * j)) by lia. symmetry. apply Z.mod_small. lia.
  - exists (-1), s2. split; [done|]. split; [done|]. split; [done|]. split; [by rewrite Hs1|]. split; [done|].
    left. split; [done|]. by apply Hshort.
Qed.
End Segment.

(** ** The program headers *)

Definition header (off k : Z) : proghdr := proghdr_of (file_part (w32 (off + PROGHDR_SIZE * k)) PROGHDR_SIZE).

(** What a header puts at an address, and what a list of them does; a later one wins and
    the rest is zero. *)
Definition segment_byte (h : proghdr) (a : Z) : option Z :=
  if (ph_type h =? ELF_PROG_LOAD) && (ph_vaddr h <=? a) && (a <? ph_vaddr h + ph_filesz h)
  then Some (content (w32 (ph_off h + (a - ph_vaddr h)))) else None.
Definition image_byte (hs : list proghdr) (a : Z) : Z :=
  fold_left (fun old h => default old (segment_byte h a)) hs 0.

Lemma image_byte_app hs h a : image_byte (hs ++ [h]) a = default (image_byte hs a) (segment_byte h a).
Proof. unfold image_byte. by rewrite fold_left_app. Qed.

Lemma field_bound w o off n : 0 <= field w o (file_part off n) < 256 ^ Z.of_nat w.
Proof.
  unfold field. assert (Forall (fun b => 0 <= b < 256) (file_part off n)) as Hf.
  { apply Forall_forall. intros b Hb. unfold file_part in Hb. apply list_elem_of_In, in_map_iff in Hb as (k & <- & _).
    apply content_byte. }
  apply (Forall_drop _ o) in Hf. revert Hf. generalize (drop o (file_part off n)). clear.
  induction w as [|w IH]; intros l Hl; [rewrite take_0; cbn; lia|]. destruct l as [|b l]; cbn [take firstn le_val].
  - split; [done|]. apply Z.pow_pos_nonneg; lia.
  - apply Forall_cons in Hl as [Hb Hl]. specialize (IH l Hl). rewrite Nat2Z.inj_succ, Z.pow_succ_r by lia. lia.
Qed.

Lemma header_bounds off k : let h := header off k in
  0 <= ph_off h < 2 ^ 32 /\ 0 <= ph_vaddr h < 2 ^ 32 /\ 0 <= ph_filesz h < 2 ^ 32 /\ 0 <= ph_memsz h < 2 ^ 32.
Proof. split_and!; apply field_bound. Qed.

(** Where a segment ends, and the last of them. *)
Definition segment_end (h : proghdr) : Z :=
  if ph_type h =? ELF_PROG_LOAD then ph_vaddr h + ph_memsz h else 0.
Definition image_end (hs : list proghdr) : Z := fold_left (fun e h => Z.max e (segment_end h)) hs 0.

(** What the loader demands of a header, and what is enough for it to load the segment. *)
Definition segment_ok (h : proghdr) : Prop :=
  ph_type h = ELF_PROG_LOAD -> ph_filesz h <= ph_memsz h /\ ph_vaddr h mod PGSIZE = 0.
Definition loadable (h : proghdr) : Prop :=
  ph_type h = ELF_PROG_LOAD -> ph_filesz h <= ph_memsz h /\ ph_vaddr h mod PGSIZE = 0 /\
    0 < ph_vaddr h + ph_memsz h < KERNBASE /\ ph_off h + ph_filesz h <= file_size.

Lemma image_end_app hs h : image_end (hs ++ [h]) = Z.max (image_end hs) (segment_end h).
Proof. unfold image_end. by rewrite fold_left_app. Qed.

Lemma image_end_more hs hs' : image_end hs <= image_end (hs ++ hs').
Proof.
  revert hs. induction hs' as [|h hs' IH]; intros hs; [by rewrite app_nil_r|].
  change (h :: hs') with ([h] ++ hs'). rewrite app_assoc. specialize (IH (hs ++ [h])). rewrite image_end_app in IH. lia.
Qed.

(** The program in memory after the headers [hs]: the pages below [sz] with their bytes. *)
Record loaded (d : Z) (i : nat) (hs : list proghdr) (sz : Z) (s : filesys) (T : gmap Z Z) (l : list Z)
    (U : gmap Z Z) : Prop := Loaded {
  ld_proc : proc_ok d (kmem s) T l U;
  ld_open : opened i (fsy s);
  ld_size : 0 <= sz < KERNBASE;
  ld_pages : forall n, is_Some (U !! n) <-> 0 <= n < pages_up sz;
  ld_bytes : forall a, 0 <= a < PGSIZE * pages_up sz -> user_byte (kmem s) U a = Some (image_byte hs a);
  ld_zero : forall a, PGSIZE * pages_up sz <= a -> image_byte hs a = 0
}.

(** A step of the loader: the pages it has are those it had or was given. *)
Definition keeps_pages (d : Z) (m : machine) (T : gmap Z Z) (l : list Z) (U : gmap Z Z)
    (m' : machine) (T' : gmap Z Z) (l' : list Z) (U' : gmap Z Z) : Prop :=
  forall s0 l0, owns s0 l0 d m T l U -> owns s0 l0 d m' T' l' U'.

(** [allocuvm] for a segment that ends at [newsz]. *)
Lemma alloc_segment d i hs sz s T l U newsz :
  loaded d i hs sz s T l U -> 0 <= newsz ->
  exists r s' T' l' U', on_mem (allocuvm d sz newsz) s = Ok (r, s') /\ same_files s s' /\
    proc_ok d (kmem s') T' l' U' /\ opened i (fsy s') /\ keeps_pages d (kmem s) T l U (kmem s') T' l' U' /\
    (r = 0 /\ (KERNBASE <= newsz \/ Z.of_nat (length l) < 2 * (pages_up newsz - pages_up sz)) \/
     r = Z.max sz newsz /\ loaded d i hs r s' T' l' U' /\
       Z.of_nat (length l) <= Z.of_nat (length l') + 2 * (pages_up r - pages_up sz)).
Proof using Hkend.
  intros [Hok Hop Hsz Hpg Hby Hz] Hn. destruct (Z.le_gt_cases KERNBASE newsz) as [Hbig|Hsmall].
  { destruct (on_mem_ok (allocuvm d sz newsz) s 0 (kmem s)) as [R Hs].
    { unfold allocuvm. by rewrite (proj2 (Z.leb_le _ _)). }
    eexists 0, _, T, l, U. split; [exact R|]. split; [done|]. split; [done|]. split; [done|].
    split; [by intros ???|left]. split; [done|by left]. }
  destruct (Z.lt_ge_cases newsz sz) as [Hlt|Hge].
  { destruct (on_mem_ok (allocuvm d sz newsz) s sz (kmem s)) as [R Hs].
    { unfold allocuvm. rewrite (proj2 (Z.leb_gt _ _)), (proj2 (Z.ltb_lt _ _)) by lia. done. }
    eexists sz, _, T, l, U. split; [exact R|]. split; [done|]. split; [done|]. split; [done|].
    split; [by intros ???|right]. split; [lia|]. split; [by split|lia]. }
  assert (forall n, pages_up sz <= n < pages_up newsz -> U !! n = None) as Hnone.
  { intros n Hr. apply eq_None_not_Some. rewrite Hpg. lia. }
  destruct (allocuvm_run Hkend d (kmem s) T l U sz newsz (conj (proj1 Hsz) Hge) Hsmall Hnone Hok)
    as (r & m & T' & l' & U' & Ra & Hg & Hl).
  destruct (on_mem_ok _ s _ _ Ra) as [R Hs]. exists r, (set_kmem m s), T', l', U'.
  split; [exact R|]. split; [exact Hs|].
  assert (r = newsz /\ gained d (pages_up sz) (pages_up newsz) (kmem s) T l U m T' l' U' /\
            Z.of_nat (length l) <= Z.of_nat (length l') + 2 * (pages_up newsz - pages_up sz) \/
          r = 0 /\ gained d (pages_up sz) (pages_up sz) (kmem s) T l U m T' l' U' /\
            Z.of_nat (length l) < 2 * (pages_up newsz - pages_up sz)) as Hgl.
  { destruct Hl as [[-> Hl]|[-> Hl]]; destruct Hg as [[Hn0 G]|[Hn0 G]].
    - by left.
    - left. split; [done|]. assert (sz = newsz) as <- by lia. done.
    - subst newsz. assert (sz = 0) as -> by lia. lia.
    - by right. }
  clear Hg Hl. destruct Hgl as [(-> & G & Hcnt)|(-> & G & Hcnt)]; (split; [apply G|]); (split; [done|]);
    (split; [by intros s0 l0 Ho; eapply owns_gained|]); [right|left; split; [done|by right]].
  split; [lia|]. split; [|done]. pose proof (pages_up_mono sz newsz Hge) as Hup.
  assert (0 <= pages_up sz) as Hp0 by (apply pages_up_nonneg; lia).
  split; [apply G|done|lia| | |].
  - intros n. destruct (decide (n < pages_up sz \/ pages_up newsz <= n)) as [Ho|Hi].
    + rewrite (ga_user _ _ _ _ _ _ _ _ _ _ _ G) by done. rewrite Hpg. lia.
    + destruct (ga_new _ _ _ _ _ _ _ _ _ _ _ G n ltac:(lia)) as (v & -> & _). split; [lia|by exists v].
  - intros a Ha. destruct (Z.lt_ge_cases a (PGSIZE * pages_up sz)) as [Hl|Hh].
    + rewrite <- Hby by lia. eapply gained_bytes; [exact G|]. unfold PGSIZE in *. Z.div_mod_to_equations. lia.
    + rewrite Hz by done. assert (pages_up sz <= a / PGSIZE < pages_up newsz) as Hd
        by (unfold PGSIZE in *; Z.div_mod_to_equations; lia).
      destruct (ga_new _ _ _ _ _ _ _ _ _ _ _ G _ Hd) as (v & Hv & _ & Hzero & _).
      unfold user_byte. rewrite Hv. cbn. cbn in Hzero. rewrite Hzero. cbn.
      apply lookup_replicate_2. unfold PGSIZE. Z.div_mod_to_equations. lia.
  - intros a Ha. apply Hz. plia.
Qed.

(** [loaduvm] of a segment below the end of the program. *)
Lemma load_segment d i hs sz s T l U h :
  loaded d i hs sz s T l U -> ph_type h = ELF_PROG_LOAD -> 0 <= ph_off h < 2 ^ 32 ->
  0 <= ph_vaddr h -> 0 <= ph_filesz h -> ph_vaddr h mod PGSIZE = 0 -> ph_vaddr h + ph_filesz h <= sz ->
  exists r s', loaduvm d (ph_vaddr h) i (ph_off h) (ph_filesz h) s = Ok (r, s') /\ same_files s s' /\
    proc_ok d (kmem s') T l U /\ opened i (fsy s') /\ keeps_pages d (kmem s) T l U (kmem s') T l U /\
    (r = -1 /\ file_size < ph_off h + ph_filesz h \/ r = 0 /\ loaded d i (hs ++ [h]) sz s' T l U).
Proof using Hkend.
  intros [Hok Hop Hsz Hpg Hby Hz] Hty Hoff Hva Hfs Hal Hle. destruct (page_multiple _ Hal) as [b Hb].
  assert (NUSER = 524288) as HN by reflexivity. unfold loaduvm. rewrite Hal. cbn [Z.eqb negb].
  assert (pages_up sz <= NUSER) as Htop by (unfold pages_up, KERNBASE, PGSIZE in *; Z.div_mod_to_equations; lia).
  assert (ph_vaddr h + ph_filesz h <= PGSIZE * pages_up sz) as Hend
    by (unfold pages_up, PGSIZE in *; Z.div_mod_to_equations; lia).
  assert (0 <= pages_up (ph_filesz h)) as Hp0 by (apply pages_up_nonneg; lia).
  destruct (load_loop_run d i T l U (pages_up sz) b (ph_off h) (ph_filesz h) Htop (fun n => proj2 (Hpg n)) ltac:(lia)
    Hfs ltac:(plia) (S (Z.to_nat ((ph_filesz h + PGSIZE - 1) / PGSIZE))) 0 s Hok Hop Hoff)
    as (r & s' & R & Hok' & Hop' & Hs' & Hc & Hr); [lia|unfold pages_up in *; lia|].
  rewrite Z.mul_0_r in R. change 4096 with PGSIZE in Hb. rewrite <- Hb in R.
  exists r, s'. split; [exact R|]. split; [done|]. split; [done|]. split; [done|].
  split; [intros s0 l0 Ho; by eapply owns_change|]. destruct Hr as [Hr|[-> Hin]]; [by left|right].
  split; [done|]. split; [done|done|done|done| |].
  - intros a Ha. rewrite image_byte_app, Hin, Z.add_0_r, <- Hb. unfold segment_byte.
    rewrite Hty, Z.eqb_refl. cbn [andb]. destruct (_ && _); [done|]. by apply Hby.
  - intros a Ha. rewrite image_byte_app. unfold segment_byte.
    destruct (Z.ltb_spec a (ph_vaddr h + ph_filesz h)); [lia|]. rewrite andb_false_r. by apply Hz.
Qed.

(** A header that is not to be loaded. *)
Lemma loaded_skip d i hs sz s T l U h :
  ph_type h <> ELF_PROG_LOAD -> loaded d i hs sz s T l U -> loaded d i (hs ++ [h]) sz s T l U.
Proof.
  intros Hty [Hok Hop Hsz Hpg Hby Hz].
  assert (forall a, image_byte (hs ++ [h]) a = image_byte hs a) as He.
  { intros a. rewrite image_byte_app. unfold segment_byte. by rewrite (proj2 (Z.eqb_neq _ _) Hty). }
  split; try done; intros a Ha; rewrite He; auto.
Qed.

(** The headers from the number [k] on. *)
Definition headers (off : Z) (k n : nat) : list proghdr := map (fun j => header off (Z.of_nat j)) (seq k n).

Lemma headers_app off k n m : headers off k (n + m) = headers off k n ++ headers off (k + n) m.
Proof. unfold headers. by rewrite seq_app, map_app. Qed.

(** Why the headers from the number [k] on cannot be loaded over an image of the size [sz],
    with the free pages [l]. *)
Definition unloadable (off : Z) (k n : nat) (sz : Z) (l : list Z) : Prop :=
  ~ Forall loadable (headers off k n) \/ file_size < off + PROGHDR_SIZE * Z.of_nat (k + n) \/
  Z.of_nat (length l) < 2 * (pages_up (image_end (headers off 0 (k + n))) - pages_up sz).

Lemma unloadable_later off k n sz l sz' l' :
  Z.of_nat (length l) <= Z.of_nat (length l') + 2 * (pages_up sz' - pages_up sz) ->
  unloadable off (S k) n sz' l' -> unloadable off k (S n) sz l.
Proof.
  unfold unloadable. rewrite Nat.add_succ_comm. intros Hl [Hn|[Hn|Hn]]; [left|right; by left|right; right; lia].
  intros Hall. apply Hn. change (headers off k (S n)) with (header off (Z.of_nat k) :: headers off (S k) n) in Hall.
  by apply Forall_cons in Hall as [_ ?].
Qed.

(** The image after the headers before [k]. *)
Record loaded_to (off : Z) (k : nat) (d : Z) (i : nat) (sz : Z) (s : filesys) (T : gmap Z Z) (l : list Z)
    (U : gmap Z Z) : Prop := LoadedTo {
  lt_loaded : loaded d i (headers off 0 k) sz s T l U;
  lt_end : sz = image_end (headers off 0 k);
  lt_ok : Forall segment_ok (headers off 0 k)
}.

(** The result of loading [n] more headers. *)
Definition loading (off : Z) (k n : nat) (d : Z) (i : nat) (sz : Z) (s : filesys) (T : gmap Z Z) (l : list Z)
    (U : gmap Z Z) (out : res (option Z * filesys)) : Prop :=
  exists r s' T' l' U', out = Ok (r, s') /\ same_files s s' /\ proc_ok d (kmem s') T' l' U' /\ opened i (fsy s') /\
    keeps_pages d (kmem s) T l U (kmem s') T' l' U' /\
    match r with
    | None => unloadable off k n sz l
    | Some sz' => loaded_to off (k + n) d i sz' s' T' l' U' /\
        Z.of_nat (length l) <= Z.of_nat (length l') + 2 * (pages_up sz' - pages_up sz)
    end.

Lemma loading_later off k n d i sz s T l U sz' s1 T1 l1 U1 out :
  same_files s s1 -> keeps_pages d (kmem s) T l U (kmem s1) T1 l1 U1 ->
  Z.of_nat (length l) <= Z.of_nat (length l1) + 2 * (pages_up sz' - pages_up sz) ->
  loading off (S k) n d i sz' s1 T1 l1 U1 out -> loading off k (S n) d i sz s T l U out.
Proof.
  intros Hs Hk Hl (r & s' & T' & l' & U' & R & Hs' & Hok & Hop & Hk' & Hr).
  exists r, s', T', l', U'. split; [done|]. split; [by etransitivity|]. split; [done|]. split; [done|].
  split; [intros s0 l0 Ho; by apply Hk', Hk|]. destruct r as [sz2|]; [|by eapply unloadable_later].
  rewrite <- Nat.add_succ_comm. destruct Hr as [? ?]. split; [done|lia].
Qed.

Lemma load_segments_run n k off d i sz s T l U :
  0 <= off -> loaded_to off k d i sz s T l U ->
  loading off k n d i sz s T l U (load_segments n d i (w32 (off + PROGHDR_SIZE * Z.of_nat k)) sz s).
Proof using Hkend.
  intros Hoff. revert k sz s T l U. induction n as [|n IH]; intros k sz s T l U Hlt; pose proof Hlt as [Hld Hend Hsok].
  { exists (Some sz), s, T, l, U. rewrite Nat.add_0_r. split; [done|]. split; [done|]. split; [apply Hld|].
    split; [apply Hld|]. split; [by intros ???|]. split; [done|lia]. }
  cbn [load_segments]. pose proof (w32_bounds (off + PROGHDR_SIZE * Z.of_nat k)) as Hob.
  set (h := header off (Z.of_nat k)). set (o := w32 (off + PROGHDR_SIZE * Z.of_nat k)) in *.
  assert (forall s1 T1 l1 U1, same_files s s1 -> proc_ok d (kmem s1) T1 l1 U1 -> opened i (fsy s1) ->
    keeps_pages d (kmem s) T l U (kmem s1) T1 l1 U1 ->
    (~ loadable h \/ file_size < off + PROGHDR_SIZE * Z.of_nat (k + S n) \/
     exists e, Z.of_nat (length l) < 2 * (pages_up e - pages_up sz) /\
       e <= image_end (headers off 0 (k + S n))) ->
    loading off k (S n) d i sz s T l U (Ok (None, s1))) as Hbad.
  { intros s1 T1 l1 U1 Hs Hok Hop Hk Hwhy. exists None, s1, T1, l1, U1. do 5 (split; [done|]).
    destruct Hwhy as [Hn|[Hn|(e & Hn & He)]]; [left|right; by left|right; right].
    - change (headers off k (S n)) with (h :: headers off (S k) n). by intros [? _]%Forall_cons.
    - assert (pages_up e <= pages_up (image_end (headers off 0 (k + S n)))) by (by apply pages_up_mono). lia. }
  destruct (file_read i (fsy s) o PROGHDR_SIZE (ld_open _ _ _ _ _ _ _ _ Hld) Hob)
    as (r & by_ & f1 & Rf & Hop1 & Hrl & Hres); [vm_compute; split; discriminate|].
  destruct (on_fs_ok _ s _ _ Rf) as [R1 Hs1]. rewrite (bind_ok _ _ _ _ _ R1). set (s1 := set_fsy f1 s) in *.
  pose proof file_size_range as Hfsz.
  destruct (Z.eqb_spec r PROGHDR_SIZE) as [->|Hr]; cbn [negb]; last first.
  { apply (Hbad _ T l U); [done|apply Hld|done|by intros ???|]. right. left.
    destruct (Z.lt_ge_cases file_size (off + PROGHDR_SIZE * Z.of_nat (k + S n))) as [|Hfit]; [done|]. destruct Hr.
    unfold o, PROGHDR_SIZE in *. rewrite w32_small in Hrl by lia.
    rewrite (proj2 (Z.ltb_ge _ _)) in Hrl by lia. rewrite Hrl. lia. }
  destruct Hres as [?|(_ & _ & ->)]; [done|]. fold (file_part o PROGHDR_SIZE).
  change (proghdr_of (file_part o PROGHDR_SIZE)) with h. cbn zeta.
  assert (headers off 0 (S k) = headers off 0 k ++ [h]) as Hhk.
  { unfold headers. by rewrite seq_S, map_app. }
  assert (image_end (headers off 0 (S k)) <= image_end (headers off 0 (k + S n))) as Hmono.
  { rewrite <- Nat.add_succ_comm, headers_app. apply image_end_more. }
  rewrite Hhk, image_end_app, <- Hend in Hmono.
  assert (w32 (o + PROGHDR_SIZE) = w32 (off + PROGHDR_SIZE * Z.of_nat (S k))) as Hno.
  { unfold o, w32. rewrite Z.add_mod_idemp_l by lia. f_equal. lia. }
  assert (loaded d i (headers off 0 k) sz s1 T l U) as Hld1 by (destruct Hld; by split).
  unfold segment_end in Hmono. destruct (Z.eqb_spec (ph_type h) ELF_PROG_LOAD) as [Hty|Hty]; cbn [negb]; last first.
  { rewrite Hno. apply (loading_later _ _ _ _ _ _ _ _ _ _ sz s1 T l U); [done|by intros ???|lia|]. apply IH.
    split; rewrite ?Hhk; [by apply loaded_skip| |].
    - rewrite image_end_app, <- Hend. unfold segment_end. rewrite (proj2 (Z.eqb_neq _ _) Hty).
      pose proof (ld_size _ _ _ _ _ _ _ _ Hld). lia.
    - apply Forall_app_2; [done|]. apply Forall_singleton. by intros ?. }
  destruct (header_bounds off (Z.of_nat k)) as (Bo & Bv & Bf & Bm). fold h in Bo, Bv, Bf, Bm.
  destruct (Z.ltb_spec (ph_memsz h) (ph_filesz h)) as [Hms|Hms].
  { apply (Hbad _ T l U); [done|apply Hld|done|by intros ???|]. left. intros Hl. specialize (Hl Hty). lia. }
  destruct (Z.ltb_spec (w32 (ph_vaddr h + ph_memsz h)) (ph_vaddr h)) as [Hwr|Hnw].
  { apply (Hbad _ T l U); [done|apply Hld|done|by intros ???|]. left. intros Hl. destruct (Hl Hty) as (_ & _ & Hr & _).
    rewrite w32_small in Hwr by (unfold KERNBASE in *; lia). lia. }
  assert (w32 (ph_vaddr h + ph_memsz h) = ph_vaddr h + ph_memsz h) as Hw.
  { unfold w32 in *. Z.div_mod_to_equations. lia. }
  rewrite Hw. destruct (alloc_segment d i _ sz s1 T l U (ph_vaddr h + ph_memsz h) Hld1 ltac:(lia))
    as (sz2 & s2 & T2 & l2 & U2 & R2 & Hs2 & Hok2 & Hop2 & Hk2 & Hr2).
  rewrite (bind_ok _ _ _ _ _ R2). specialize (Hbad s2 T2 l2 U2 ltac:(by rewrite Hs1) Hok2 Hop2 Hk2).
  destruct (Z.eqb_spec sz2 0) as [->|Hsz2].
  { apply Hbad. destruct Hr2 as [[_ [Hbig|Hfew]]|[Hz _]].
    - left. intros Hl. destruct (Hl Hty) as (_ & _ & Hr & _). lia.
    - right. right. exists (ph_vaddr h + ph_memsz h). split; [done|lia].
    - left. intros Hl. destruct (Hl Hty) as (_ & _ & Hr & _). lia. }
  destruct Hr2 as [[? _]|(Hsz2' & Hld2 & Hcnt)]; [done|].
  destruct (Z.eqb_spec (ph_vaddr h mod PGSIZE) 0) as [Hal|Hal]; cbn [negb].
  2:{ apply Hbad. left. intros Hl. by destruct (Hl Hty) as (_ & ? & _). }
  destruct (load_segment d i _ sz2 s2 T2 l2 U2 h Hld2 Hty Bo ltac:(lia) ltac:(lia) Hal ltac:(lia))
    as (r & s3 & R3 & Hs3 & Hok3 & Hop3 & Hk3 & Hr3).
  rewrite (bind_ok _ _ _ _ _ R3). destruct Hr3 as [[-> Hshort]|[-> Hld3]].
  - change (-1 <? 0) with true. cbv iota. clear Hbad.
    exists None, s3, T2, l2, U2. split; [done|]. split; [by rewrite Hs1, Hs2|]. split; [done|]. split; [done|].
    split; [intros s0 l0 Ho; by apply Hk3, Hk2|]. left.
    change (headers off k (S n)) with (h :: headers off (S k) n). intros [Hl _]%Forall_cons.
    destruct (Hl Hty) as (_ & _ & _ & ?). lia.
  - change (0 <? 0) with false. cbv iota. rewrite Hno.
    apply (loading_later _ _ _ _ _ _ _ _ _ _ sz2 s3 T2 l2 U2); [by rewrite Hs1, Hs2| |done|].
    { intros s0 l0 Ho. by apply Hk3, Hk2. }
    apply IH. split; rewrite ?Hhk; [done| |].
    + rewrite image_end_app, <- Hend. unfold segment_end. by rewrite (proj2 (Z.eqb_eq _ _) Hty).
    + apply Forall_app_2; [done|]. apply Forall_singleton. by intros _.
Qed.
End Load.
