(* ===== verification/ExecFile.v ===== *)
(** * A program in a file

    The file of a program in the current directory of the process: the calls of the file
    system that [exec] makes, from [begin_op] to [end_op], which give the interface
    [ProgramFile]. *)

From S2P Require Import Prelude CString Bytes Layout Kalloc Bcache BcacheSpec Log LogSpec Recovery LogThms Transaction Fs FsBlocks FsContent FsDirs FsProps FileSpec Exec ExecSpec.

(** ** An inode in the cache *)

Lemma iget_cached f d inum i ip :
  icache_ok (icache f) -> icache f !! i = Some ip -> holds_inode ip d inum = true ->
  icache_lock f = false -> i_ref ip < 2 ^ 31 - 1 ->
  iget d inum f = Ok (i, set_icache (<[i := set_ref (i_ref ip + 1) ip]> (icache f)) f).
Proof.
  intros Hok Hi Hh Hlk Hb. unfold iget. rewrite (bind_ok _ _ _ _ _ (acquire_icache_run f Hlk)), bind_gets.
  change (icache (set_icache_lock true f)) with (icache f).
  pose proof (iget_scan_spec (icache f) 0 d inum None) as Hs.
  destruct (iget_scan (icache f) 0 d inum None) as [i'|o].
  - destruct Hs as (j & jp & -> & Hj & Hm). cbn [Nat.add].
    pose proof (ic_once _ Hok j i jp ip d inum Hj Hi Hm Hh) as ->.
    rewrite (locked_updi_run f i _ Hlk). do 3 f_equal. rewrite (alter_insert _ _ _ _ Hi).
    pose proof (ic_ref _ Hok i ip Hi). by rewrite i32_small by lia.
  - destruct Hs as [Hno _]. by rewrite (Hno i ip Hi) in Hh.
Qed.

Lemma idup_cached f i ip :
  icache f !! i = Some ip -> icache_lock f = false -> 0 <= i_ref ip < 2 ^ 31 - 1 ->
  idup i f = Ok (i, set_icache (<[i := set_ref (i_ref ip + 1) ip]> (icache f)) f).
Proof.
  intros Hi Hlk Hb. unfold idup. rewrite (bind_ok _ _ _ _ _ (acquire_icache_run f Hlk)).
  rewrite (locked_updi_run f i _ Hlk). do 3 f_equal. rewrite (alter_insert _ _ _ _ Hi). by rewrite i32_small by lia.
Qed.

Lemma updi_run f i g : updi i g f = Ok (tt, set_icache (alter g i (icache f)) f).
Proof. done. Qed.

(** [iput] of an inode that has a link: only its count changes. *)
Lemma iput_linked f i ip :
  icache f !! i = Some ip -> icache_lock f = false -> i_lock ip = None -> i_nlink ip <> 0 ->
  1 <= i_ref ip < 2 ^ 31 ->
  iput i f = Ok (tt, set_icache (<[i := set_ref (i_ref ip - 1) ip]> (icache f)) f).
Proof.
  intros Hi Hlk Hfree Hn Hr. unfold iput, acquiresleep_inode. rewrite bind_bind.
  rewrite (bind_ok _ _ _ _ _ (geti_run f i ip Hi)), Hfree, bind_bind, bind_gets.
  rewrite (bind_ok _ _ _ _ _ (updi_run f i _)). set (f1 := set_icache _ f).
  assert (icache f1 !! i = Some (set_ilock (Some (me (st f))) ip)) as Hi1 by (cbn; by rewrite list_lookup_alter_eq, Hi).
  rewrite (bind_ok _ _ _ _ _ (geti_run f1 i _ Hi1)). cbn [i_valid i_nlink set_ilock].
  rewrite (proj2 (Z.eqb_neq _ _) Hn), andb_false_r, bind_when_false.
  rewrite (bind_ok _ _ _ _ _ (updi_run f1 i _)). set (f2 := set_icache _ f1).
  assert (icache f2 = icache f) as Hc2 by (by apply (holder_back f i ip (Some (me (st f))))).
  rewrite (bind_ok _ _ _ _ _ (acquire_icache_run f2 Hlk)).
  rewrite (bind_ok _ _ _ _ _ (updi_run (set_icache_lock true f2) i _)).
  rewrite release_icache_run by done. do 2 f_equal.
  change (icache (set_icache_lock true f2)) with (icache f2). rewrite Hc2, (alter_insert _ _ _ _ Hi).
  rewrite i32_small by lia. destruct f as [fs fb fl fc fw]. cbn in Hlk. by subst fl.
Qed.

(** The entry of an inode, referenced once more and locked. *)
Definition taken (p : Z) (ip : inode) : inode := set_ilock (Some p) (set_ref (i_ref ip + 1) ip).

Lemma lock_entry f i ip :
  icache f !! i = Some ip -> 1 <= i_ref ip -> i_lock ip = None -> i_valid ip = true ->
  ilock (Some i) f = Ok (tt, set_icache (<[i := set_ilock (Some (me (st f))) ip]> (icache f)) f).
Proof. intros Hi Hr Hl Hv. rewrite (ilock_run f i ip) by done. unfold holder. by rewrite (alter_insert _ _ _ _ Hi). Qed.

Lemma close_entry f i ip :
  icache f !! i = Some (taken (me (st f)) ip) -> icache_lock f = false -> i_lock ip = None -> i_nlink ip <> 0 ->
  0 <= i_ref ip < 2 ^ 31 - 1 ->
  iunlockput i f = Ok (tt, set_icache (<[i := ip]> (icache f)) f).
Proof.
  intros Hi Hlk Hl Hn Hr. unfold iunlockput.
  rewrite (bind_ok _ _ _ _ _ (iunlock_run f i _ Hi ltac:(cbn; lia) eq_refl)). set (f1 := holder None i f).
  assert (icache f1 !! i = Some (set_ref (i_ref ip + 1) ip)) as Hi1.
  { cbn. rewrite list_lookup_alter_eq, Hi. cbn. f_equal. destruct ip. cbn in Hl. by subst. }
  rewrite (iput_linked f1 i _ Hi1 Hlk Hl Hn) by (cbn [i_ref set_ref]; lia). do 2 f_equal. unfold f1, holder, set_icache. cbn -[insert alter].
  f_equal. rewrite (alter_insert _ _ _ _ Hi), list_insert_insert_eq. f_equal. destruct ip. cbn in *. subst.
  unfold set_ref. cbn. f_equal. lia.
Qed.

(** ** Between [begin_op] and [end_op] *)

Section Program.
Context `{Devices} (fuel : nat) (others : store -> store).
(** The cache between the transactions: the entry [dp] is the current directory, of [n]
    entries, the entry [fi] the file, and [e] is its name. *)
Context (cache : list inode) (dp fi n : nat) (dip fip : inode) (e junk : list Z) (content : Z -> Z)
  (found : bool).

Definition name_in : list Z := put_name e (replicate DIRSIZ 0).

(** An inode that is in the cache and has a link. *)
Record cached (i : nat) (ip : inode) : Prop := Cached {
  ca_entry : cache !! i = Some ip;
  ca_ref : 1 <= i_ref ip < 2 ^ 31 - 2;
  ca_free : i_lock ip = None;
  ca_valid : i_valid ip = true;
  ca_link : i_nlink ip <> 0
}.

(** An entry of the directory has the name. *)
Definition named (V : list block) : bool := existsb (entry_is V dip name_in) (seq 0 n).

(** What is on the disk: the two files, and an entry with the name is that of the file; [found]
    says whether there is one. *)
Record on_disk (s : store) : Prop := OnDisk {
  od_dir : disk_file (lg s) (memdisk s) dip;
  od_file : disk_file (lg s) (memdisk s) fip;
  od_entry : forall j, (j < n)%nat -> entry_is (memdisk s) dip name_in j = true ->
    entry_inum (memdisk s) dip j = i_inum fip;
  od_named : named (memdisk s) = found;
  od_content : forall p, 0 <= p < i_size fip -> byte_of (memdisk s) fip p = content p
}.

(** A transaction that has changed nothing. *)
Record in_txn (s : store) : Prop := InTxn {
  it_txn : txn s (memdisk s) ∅ [];
  it_out : outstanding (lg s) = 1;
  it_super : super_of (memdisk s) (lg s);
  it_head : holds_head (memdisk s !!! log_start (lg s)) [];
  it_disk : on_disk s
}.

Lemma on_disk_ext s s' :
  memdisk s' = memdisk s -> log_start (lg s') = log_start (lg s) -> log_size (lg s') = log_size (lg s) ->
  on_disk s -> on_disk s'.
Proof.
  intros Hm H1 H2 [Hd Hf He Hn Hc]. split; rewrite ?Hm; try done; by eapply disk_file_ext.
Qed.

Lemma in_txn_stays s s' : in_txn s -> stays s s' -> txn s' (memdisk s) ∅ [] -> in_txn s'.
Proof.
  intros [Ht Ho Hs Hh Hd] St T. pose proof (sy_disk _ _ St) as Hm. pose proof (sy_start _ _ St) as H1.
  pose proof (sy_size _ _ St) as H2. split; rewrite ?Hm, ?H1; try done.
  - by rewrite (sy_out _ _ St).
  - eapply super_ext; [|exact H1|exact H2|exact Hs]. done.
  - by eapply on_disk_ext.
Qed.

Lemma in_txn_begin s : idle s -> on_disk s ->
  exists s', begin_op fuel others s = Ok (tt, s') /\ in_txn s'.
Proof.
  intros Hi Hd. destruct (begin_op_run fuel others s Hi) as (s' & R & T & Hm & _ & O & H1 & H2).
  exists s'. split; [done|]. split; rewrite ?Hm, ?H1; try done; [|apply Hi|by eapply on_disk_ext].
  eapply super_ext; [|exact H1|exact H2|apply Hi]. done.
Qed.

(** The entries of the directory, on two disks with the same bytes in it. *)
Lemma entries_same V V' ip j : i_size ip = 16 * Z.of_nat n ->
  (forall p, 0 <= p < i_size ip -> byte_of V' ip p = byte_of V ip p) -> (j < n)%nat ->
  entry_bytes V' ip j = entry_bytes V ip j.
Proof.
  intros Hs Hb Hj. unfold entry_bytes, file_bytes. apply map_ext_in. intros k [_ Hk]%in_seq.
  change (0 + Z.to_nat 16)%nat with 16%nat in Hk. apply Hb. lia.
Qed.

Lemma in_txn_end s : i_size dip = 16 * Z.of_nat n -> in_txn s ->
  exists s', end_op s = Ok (tt, s') /\ idle s' /\ on_disk s'.
Proof.
  intros Hsz [Ht Ho Hs Hh [Hd Hf He Hn Hc]].
  destruct (end_op_run s _ [] Ht Ho Hs Hh) as (s' & ws & R & Hi & _ & H1 & H2 & Same & _).
  exists s'. split; [done|]. split; [done|].
  assert (length (memdisk s') = length (memdisk s)) as Hlen.
  { apply (same_home_length (lg s)); [|apply Ht|done].
    apply (layout_ext (lg s')); [apply (l_dev _ _ (t_layout _ _ _ _ Ht))|done|done|apply Hi]. }
  assert (forall p, 0 <= p < i_size dip -> byte_of (memdisk s') dip p = byte_of (memdisk s) dip p) as Hbd.
  { intros p Hp. exact (same_byte (lg s) (memdisk s) (memdisk s') dip Same Hlen Hd p Hp). }
  split.
  - eapply disk_file_ext; [exact H1|exact H2|]. by apply (same_disk_file _ (memdisk s)).
  - eapply disk_file_ext; [exact H1|exact H2|]. by apply (same_disk_file _ (memdisk s)).
  - intros j Hj. unfold entry_is, entry_inum, entry_name.
    rewrite (entries_same _ _ dip j Hsz Hbd Hj). by apply He.
  - assert (forall j, j ∈ seq 0 n -> entry_is (memdisk s') dip name_in j = entry_is (memdisk s) dip name_in j) as Hsame.
    { intros j Hj%elem_of_seq. unfold entry_is, entry_inum, entry_name.
      by rewrite (entries_same _ _ dip j Hsz Hbd ltac:(lia)). }
    rewrite <- Hn. unfold named. revert Hsame. generalize (seq 0 n). intros l Hsame.
    induction l as [|j l IH]; [done|]. cbn [existsb]. rewrite IH by (intros k Hk; apply Hsame; by right).
    by rewrite Hsame by by left.
  - intros p Hp. rewrite <- Hc by done. exact (same_byte (lg s) (memdisk s) (memdisk s') fip Same Hlen Hf p Hp).
Qed.

(** The state of the file system with the inodes [ic]. *)
Record files_at (ic : list inode) (f : fsys) : Prop := FilesAt {
  fa_lock : icache_lock f = false;
  fa_cache : icache f = ic;
  fa_cwd : cwd f = dp
}.

Record idle_files (f : fsys) : Prop := IdleFiles {
  if_idle : idle (st f);
  if_disk : on_disk (st f);
  if_at : files_at cache f
}.

Record locked_file (i : nat) (f : fsys) : Prop := LockedFile {
  lf_entry : i = fi;
  lf_txn : in_txn (st f);
  lf_at : files_at (<[fi := taken (me (st f)) fip]> cache) f
}.

Hypothesis Hcache : icache_ok cache.
Hypothesis Hdir : cached dp dip.
Hypothesis Hfile : cached fi fip.
Hypothesis Hne : dp <> fi.
Hypothesis Htype : i_type dip = T_DIR.
Hypothesis Hentries : i_size dip = 16 * Z.of_nat n.
Hypothesis Hname : good_elem e.

Lemma elements_one : elements e = [e].
Proof using Hname.
  unfold elements. rewrite <- (app_nil_r e) at 1. rewrite elements_from_elem by apply Hname.
  pose proof (ge_some _ Hname). by destruct e.
Qed.

(** [end_op] with the cache as it was. *)
Lemma end_files f : in_txn (st f) -> files_at cache f ->
  exists f', disk end_op f = Ok (tt, f') /\ idle_files f'.
Proof using Hentries.
  intros Ht Ha. destruct (in_txn_end _ Hentries Ht) as (s' & R & Hi & Hd). exists (set_st s' f).
  split; [by apply disk_run|]. split; [done|done|]. by destruct Ha.
Qed.

(** A change of the storage in the transaction. *)
Lemma quiet_files ic f f' : in_txn (st f) -> files_at ic f -> quiet_fs f f' -> txn (st f') (memdisk (st f)) ∅ [] ->
  in_txn (st f') /\ files_at ic f' /\ me (st f') = me (st f).
Proof.
  intros Ht [] Q T. split; [eapply in_txn_stays; [exact Ht|apply Q|done]|]. split; [|apply (sy_me _ _ (q_stays _ _ Q))].
  destruct Q. split; congruence.
Qed.

Lemma dip_ok s p : in_txn s -> dir_ok (memdisk s) (taken p dip) n.
Proof using Htype Hentries. intros Ht. destruct (df_ok _ _ _ (od_dir _ (it_disk _ Ht))) as []. split; [split; assumption|exact Htype|exact Hentries]. Qed.

(** [iget] of the file, while the directory is locked. *)
Lemma get_file p f : files_at (<[dp := taken p dip]> cache) f ->
  i_dev fip = 1 ->
  iget 1 (i_inum fip) f =
    Ok (fi, set_icache (<[fi := set_ref (i_ref fip + 1) fip]> (<[dp := taken p dip]> cache)) f).
Proof using All.
  intros [Hlk Hc _] Hd. destruct Hdir as [Hi Hr _ _ _], Hfile as [Hi' Hr' _ _ _].
  rewrite <- Hc. apply iget_cached; [| | |done|lia].
  - rewrite Hc, <- (alter_insert _ _ _ (taken p) Hi). apply icache_ok_alter; [done| |].
    + intros ip; rewrite Hi. intros [= <-]. cbn. lia.
    + intros ip d inum; rewrite Hi. intros [= <-] Hh. left. unfold holds_inode in *. cbn in Hh. lia.
  - by rewrite Hc, list_lookup_insert_ne.
  - unfold holds_inode. rewrite Hd, !Z.eqb_refl. lia.
Qed.

Lemma close_dir p f ic : files_at (<[dp := taken (me (st f)) dip]> ic) f ->
  (dp < length ic)%nat -> ic !! dp = Some dip -> p = dp ->
  iunlockput p f = Ok (tt, set_icache ic f).
Proof using All.
  intros [Hlk Hc _] Hlt Hi ->. destruct Hdir as [_ Hr Hl Hv Hn].
  assert (icache f !! dp = Some (taken (me (st f)) dip)) as Hd by (by rewrite Hc, list_lookup_insert_eq).
  rewrite (close_entry f dp dip Hd Hlk Hl Hn) by lia.
  by rewrite Hc, list_insert_insert_eq, list_insert_id.
Qed.

Lemma walk_to_file f : in_txn (st f) -> files_at (<[dp := set_ref (i_ref dip + 1) dip]> cache) f -> i_dev fip = 1 ->
  exists r f', (exists nm, walk [e] false (replicate DIRSIZ 0) dp f = Ok ((r, nm), f')) /\ in_txn (st f') /\
    (found = false /\ r = None /\ files_at cache f' \/
     found = true /\ r = Some fi /\ files_at (<[fi := set_ref (i_ref fip + 1) fip]> cache) f').
Proof using All.
  intros Ht [Hlk Hc Hcw] Hdev. pose proof Hdir as [Hi Hr Hl Hv Hn]. pose proof (lookup_lt_Some _ _ _ Hi) as Hlt.
  cbn [walk]. fold name_in.
  assert (icache f !! dp = Some (set_ref (i_ref dip + 1) dip)) as Hi1 by (by rewrite Hc, list_lookup_insert_eq).
  rewrite (bind_ok _ _ _ _ _ (lock_entry f dp _ Hi1 ltac:(cbn; lia) Hl Hv)).
  rewrite Hc, list_insert_insert_eq. fold (taken (me (st f)) dip). set (f1 := set_icache _ f).
  assert (icache f1 !! dp = Some (taken (me (st f)) dip)) as Hi2 by (cbn; by rewrite list_lookup_insert_eq).
  rewrite (bind_ok _ _ _ _ _ (geti_run f1 dp _ Hi2)). change (i_type (taken _ dip)) with (i_type dip).
  rewrite Htype. cbn [negb andb]. change (T_DIR =? T_DIR) with true. cbn [negb].
  assert (length name_in = DIRSIZ) as Hnl by (apply put_name_spec; by rewrite length_replicate).
  destruct (dirlookup_run (memdisk (st f)) [] dp _ n name_in (dip_ok _ (me (st f)) Ht) ltac:(cbn; unfold NBUF; lia) Hnl f1
    (it_txn _ Ht) Hi2) as (f2 & Q & T & R).
  assert (files_at (<[dp := taken (me (st f)) dip]> cache) f1) as Ha1 by done.
  destruct (quiet_files _ f1 f2 Ht Ha1 Q T) as (Ht2 & Ha2 & Hme).
  pose proof (find_seq (entry_is (memdisk (st f)) (taken (me (st f)) dip) name_in) 0 n) as Hf.
  pose proof (od_named _ (it_disk _ Ht)) as Hfound. unfold named in Hfound.
  destruct (find _ _) as [j|].
  - destruct Hf as (Hj & He & _).
    assert (found = true) as -> by (rewrite <- Hfound; apply existsb_exists; exists j; split; [apply in_seq; lia|exact He]). pose proof (od_entry _ (it_disk _ Ht) j ltac:(lia) He) as Hin.
    change (entry_inum (memdisk (st f)) (taken (me (st f)) dip) j) with (entry_inum (memdisk (st f)) dip j) in R.
    rewrite Hin, (bind_ok _ _ _ _ _ (get_file _ f2 Ha2 Hdev)) in R. rewrite (bind_ok _ _ _ _ _ R). cbn [mret M_ret].
    set (f3 := set_icache _ f2).
    assert (iunlockput dp f3 = Ok (tt, set_icache (<[fi := set_ref (i_ref fip + 1) fip]> cache) f3)) as R3.
    { apply (close_dir dp); [|by rewrite length_insert|by rewrite list_lookup_insert_ne|done].
      destruct Ha2. split; [done| |done]. cbn [icache f3 set_icache st]. rewrite Hme.
      by rewrite list_insert_insert_ne by done. }
    rewrite (bind_ok _ _ _ _ _ R3). eexists (Some fi), _. split; [by eexists|]. split; [done|]. right. split; [done|]. split; [done|].
    by destruct Ha2.
  - assert (found = false) as ->.
    { rewrite <- Hfound. apply not_true_is_false. intros (j & Hj & He)%existsb_exists. apply in_seq in Hj.
      pose proof (Hf j ltac:(lia)) as Hfj. change (entry_is (memdisk (st f)) dip name_in j = false) in Hfj. congruence. }
    rewrite (bind_ok _ _ _ _ _ R).
    assert (iunlockput dp f2 = Ok (tt, set_icache cache f2)) as R3.
    { apply (close_dir dp); [|done|done|done]. rewrite Hme. exact Ha2. }
    rewrite (bind_ok _ _ _ _ _ R3). eexists None, _. split; [by eexists|]. split; [done|]. left. split; [done|]. split; [done|].
    by destruct Ha2.
Qed.

Lemma namei_file f : in_txn (st f) -> files_at cache f ->
  exists r f', namei (e ++ 0 :: junk) f = Ok (r, f') /\ in_txn (st f') /\
    (found = false /\ r = None /\ files_at cache f' \/
     found = true /\ r = Some fi /\ files_at (<[fi := set_ref (i_ref fip + 1) fip]> cache) f').
Proof using All.
  intros Ht [Hlk Hc Hcw]. pose proof Hdir as [Hi Hr Hl Hv Hn].
  assert (icache f !! dp = Some dip) as Hi1 by (by rewrite Hc).
  set (f1 := set_icache (<[dp := set_ref (i_ref dip + 1) dip]> (icache f)) f).
  destruct (walk_to_file f1 Ht) as (r & f2 & (nm & R) & Ht2 & Ha2).
  { by split; cbn; rewrite ?Hc. }
  { apply (fo_dev _ _ _ (df_ok _ _ _ (od_file _ (it_disk _ Ht)))). }
  exists r, f2. split; [|done]. unfold namei.
  assert (namex (e ++ 0 :: junk) false (replicate DIRSIZ 0) f =
    walk [e] false (replicate DIRSIZ 0) dp f1) as Hw; [|rewrite R in Hw; by rewrite (bind_ok _ _ _ _ _ Hw)].
  assert (exists c, head (e ++ 0 :: junk) = Some c /\ c <> slash) as (c & Hh & Hcs).
  { pose proof (ge_some _ Hname) as Hs. pose proof (ge_slash _ Hname) as Hsl. destruct e as [|c e']; [done|].
    exists c. split; [done|]. intros ->. apply Hsl, list_elem_of_here. }
  unfold namex. rewrite Hh, bind_lift_Some, (proj2 (Z.eqb_neq _ _) Hcs), bind_bind, bind_gets, Hcw.
  rewrite (bind_ok _ _ _ _ _ (idup_cached f dp dip Hi1 Hlk ltac:(lia))).
  rewrite namex_loop_run; [by rewrite elements_one|apply (ge_zero _ Hname)|]. rewrite elements_one, length_app.
  cbn. lia.
Qed.

Lemma file_lookup_run f : idle_files f ->
  exists f1, disk (begin_op fuel others) f = Ok (tt, f1) /\
    (found = false /\
       (exists f2 f3, namei (e ++ 0 :: junk) f1 = Ok (None, f2) /\ disk end_op f2 = Ok (tt, f3) /\ idle_files f3) \/
     found = true /\ exists i f2 f3, namei (e ++ 0 :: junk) f1 = Ok (Some i, f2) /\ ilock (Some i) f2 = Ok (tt, f3) /\ locked_file i f3).
Proof using All.
  intros [Hi Hd Ha]. destruct (in_txn_begin _ Hi Hd) as (s1 & R1 & Ht). exists (set_st s1 f).
  split; [by apply disk_run|].
  destruct (namei_file (set_st s1 f) Ht) as (r & f2 & R2 & Ht2 & [(Hfd & -> & Ha2)|(Hfd & -> & [Hlk Hc Hcw])]); [by destruct Ha| |].
  - left. split; [done|]. destruct (end_files f2 Ht2 Ha2) as (f3 & R3 & Hi3). by exists f2, f3.
  - right. split; [done|]. pose proof Hfile as [Hfi Hr Hl Hv Hn]. pose proof (lookup_lt_Some _ _ _ Hfi) as Hlt.
    assert (icache f2 !! fi = Some (set_ref (i_ref fip + 1) fip)) as Hi2 by (by rewrite Hc, list_lookup_insert_eq).
    eexists fi, f2, _. split; [exact R2|]. split; [exact (lock_entry f2 fi _ Hi2 ltac:(cbn; lia) Hl Hv)|].
    split; [done|done|]. split; [done| |done]. cbn [icache set_icache st]. by rewrite Hc, list_insert_insert_eq.
Qed.

Lemma file_read_run i f off len : locked_file i f -> 0 <= off < 2 ^ 32 -> 0 <= len <= PGSIZE ->
  exists r l f', readi i off len f = Ok ((r, l), f') /\ locked_file i f' /\
    r = (if i_size fip <? off then -1 else Z.min len (i_size fip - off)) /\
    (r = -1 \/ 0 <= r <= len /\ off + r <= 2 ^ 32 /\
       l = map (fun k => content (off + Z.of_nat k)) (seq 0 (Z.to_nat r))).
Proof using All.
  intros [-> Ht Ha] Hoff Hlen. pose proof Ha as [Hlk Hc Hcw]. pose proof Hfile as [Hfi Hr Hl Hv Hn].
  pose proof (lookup_lt_Some _ _ _ Hfi) as Hlt. set (ip := taken (me (st f)) fip) in *.
  assert (icache f !! fi = Some ip) as Hi by (by rewrite Hc, list_lookup_insert_eq).
  pose proof (od_file _ (it_disk _ Ht)) as Hdf.
  assert (file_ok (memdisk (st f)) ip (i_size ip)) as Hok by (destruct (df_ok _ _ _ Hdf); split; assumption).
  pose proof (fo_max _ _ _ Hok) as Hmax. assert (MAXFILE * 512 = 71680) as HM by reflexivity.
  unfold PGSIZE in *. destruct (Z.leb_spec off (i_size fip)) as [Hle|Hgt].
  - destruct (readi_run _ [] fi ip f off len (it_txn _ Ht) Hi Hok) as (f' & R & Q & T);
      [cbn; unfold NBUF; lia|change (i_size ip) with (i_size fip); lia|lia|change (i_size ip) with (i_size fip) in Hmax; lia|].
    destruct (quiet_files _ f f' Ht Ha Q T) as (Ht' & Ha' & Hme). eexists _, _, f'. split; [exact R|].
    split; [split; [done|done|by rewrite Hme]|]. change (i_size ip) with (i_size fip) in *.
    split; [by rewrite (proj2 (Z.ltb_ge _ _)) by lia|]. right. split; [lia|]. split; [lia|].
    unfold file_bytes. apply map_ext_in. intros k [_ Hk]%in_seq.
    change (byte_of ?V ip ?p) with (byte_of V fip p). apply (od_content _ (it_disk _ Ht)). lia.
  - exists (-1), [], f. split; [|split; [by split|split; [by rewrite (proj2 (Z.ltb_lt _ _)) by lia|by left]]].
    unfold readi. rewrite (bind_ok _ _ _ _ _ (geti_run f fi ip Hi)).
    rewrite (proj2 (Z.eqb_neq _ _) (fo_type _ _ _ Hok)).
    change (i_size ip) with (i_size fip). by rewrite (proj2 (Z.ltb_lt _ _) Hgt).
Qed.

Lemma file_close_run i f : locked_file i f ->
  exists f1 f2, iunlockput i f = Ok (tt, f1) /\ disk end_op f1 = Ok (tt, f2) /\ idle_files f2.
Proof using All.
  intros [-> Ht [Hlk Hc Hcw]]. pose proof Hfile as [Hfi Hr Hl Hv Hn].
  pose proof (lookup_lt_Some _ _ _ Hfi) as Hlt.
  assert (icache f !! fi = Some (taken (me (st f)) fip)) as Hi by (by rewrite Hc, list_lookup_insert_eq).
  pose proof (close_entry f fi fip Hi Hlk Hl Hn ltac:(lia)) as R1.
  rewrite Hc, list_insert_insert_eq, (list_insert_id _ _ _ Hfi) in R1.
  destruct (end_files (set_icache cache f) Ht) as (f2 & R2 & Hi2); [by split|]. eexists _, f2. done.
Qed.

Hypothesis Hbytes : forall p, 0 <= content p < 256.
Hypothesis Hsize : 0 <= i_size fip < 2 ^ 32.

(** The file is one that [exec] can load. *)
Definition dir_program : ProgramFile fuel others (e ++ 0 :: junk) content := {|
  ready := idle_files;
  opened := locked_file;
  present := found;
  file_size := i_size fip;
  file_size_range := Hsize;
  content_byte := Hbytes;
  file_lookup := file_lookup_run;
  file_read := file_read_run;
  file_close := file_close_run
|}.
End Program.
