(* ===== verification/ExecProps.v ===== *)
(** * Properties of program execution *)

From S2P Require Import Prelude Quiet Bytes CString Layout Kalloc KallocSpec Vm VmSpec VmUser VmSpace VmProps Bcache Log LogThms SmallDisk Fs FsContent FsDirs FsProps Pipe File FileSpec Exec ExecSpec ExecFile.

(** ** The name of the program *)

(** The loop of [safestrcpy] on a string that ends inside the memory. *)
Lemma safestrcpy_copy_string s t n m :
  bytes m -> (s + n < t)%nat -> (t + length (cstr (drop t m)) < length m)%nat ->
  exists s' m', safestrcpy_copy s t n m = Ok (s', m') /\ (s' <= s + n)%nat /\
    exists tail, Forall (eq 0) tail /\ s' = (s + length (take n (cstr (drop t m))) + length tail)%nat /\
      m' = splice s (take n (cstr (drop t m)) ++ tail) m.
Proof.
  revert s t m. induction n as [|n IH]; intros s t m Hb Hs Ht.
  { exists s, m. split; [done|]. split; [lia|]. exists []. rewrite take_0. cbn. rewrite splice_nil.
    split; [done|]. split; [lia|done]. }
  destruct (lookup_lt_is_Some_2 m t) as [c Hc]; [lia|]. rewrite (drop_S _ _ _ Hc) in *. cbn [cstr] in *.
  cbn [safestrcpy_copy]. rewrite (bind_ok _ _ m c m) by (unfold load; mrun; by rewrite Hc).
  rewrite (bind_ok _ _ m tt (splice s [c] m)); last first.
  { unfold CString.store. rewrite bind_get, (proj2 (Nat.ltb_lt _ _)) by lia. rewrite (bytes_lookup _ _ _ Hb Hc).
    unfold put. by rewrite splice_one by lia. }
  destruct (Z.eqb_spec c 0) as [Hc0|Hne].
  - rewrite Hc0. exists (s + 1)%nat, (splice s [0] m). split; [done|]. split; [lia|]. exists [0]. rewrite take_nil.
    cbn. split; [by repeat constructor|]. split; [lia|done].
  - assert (bytes [c]) as Hbc.
    { constructor; [|done]. rewrite <- (bytes_lookup _ _ _ Hb Hc). apply w8_bounds. }
    assert (length (splice s [c] m) = length m) as Hl by (apply splice_length; cbn in *; lia).
    assert (drop (t + 1) (splice s [c] m) = drop (S t) m) as Hd.
    { unfold splice. rewrite app_assoc, drop_app_ge by (rewrite length_app, length_take; cbn in *; lia).
      rewrite length_app, length_take, drop_drop. cbn [length] in *. f_equal. lia. }
    cbn [length] in Ht.
    destruct (IH (s + 1)%nat (t + 1)%nat (splice s [c] m)) as (s' & m' & R & Hle & tail & Hz & -> & ->);
      rewrite ?Hd; [by apply bytes_splice|lia|lia|]. rewrite Hd in *.
    eexists _, _. split; [exact R|]. split; [lia|]. exists tail. cbn [take firstn length app] in *.
    split; [done|]. split; [lia|]. apply (splice_app s [c]). cbn. rewrite length_app. rewrite length_take in *. lia.
Qed.

(** The name of a process: at most fifteen characters. *)
Lemma name_run dst str junk :
  length dst = 16%nat -> bytes dst -> bytes (str ++ 0 :: junk) -> Forall (fun c => c <> 0) str ->
  exists l, safestrcpy_arr dst (str ++ 0 :: junk) 16 = Ok l /\ length l = 16%nat /\ cstr l = take 15 str.
Proof.
  intros Hd Hbd Hbs Hz. set (m := dst ++ str ++ 0 :: junk).
  assert (drop 16 m = str ++ 0 :: junk) as Hdr by (unfold m; rewrite <- Hd; apply drop_app_length).
  assert (length m = (16 + length str + 1 + length junk)%nat) as Hlm.
  { unfold m. rewrite !length_app, Hd. cbn [length]. lia. }
  destruct (safestrcpy_copy_string 0 16 15 m) as (s' & m' & R & Hle & tail & Ht & Hs' & ->).
  { by apply Forall_app_2. } { lia. } { rewrite Hdr, cstr_up_to_zero by done. lia. }
  rewrite Hdr, cstr_up_to_zero in * by done.
  assert (length (splice 0 (take 15 str ++ tail) m) = length m) as Hl1.
  { apply splice_length. rewrite length_app. lia. }
  set (l := take 16 (splice 0 ((take 15 str ++ tail) ++ [0]) m)).
  assert (length (take 15 str ++ tail) = s') as Hls by (rewrite length_app; lia).
  exists l. split; [|split].
  - unfold safestrcpy_arr. rewrite Hd. fold m. unfold safestrcpy. change (16 <=? 0) with false. cbv iota.
    change (Z.to_nat (16 - 1)) with 15%nat. unfold mbind, M_bind, res_bind. rewrite R.
    unfold CString.store, mbind, M_bind, get, put. rewrite (proj2 (Nat.ltb_lt _ _)) by lia.
    change (w8 0) with 0. rewrite <- splice_one by lia.
    rewrite <- Hls, <- (Nat.add_0_l (length _)), splice_app by (rewrite Hls; cbn; lia). done.
  - unfold l. rewrite length_take, splice_length by (rewrite length_app, Hls; cbn; lia). lia.
  - unfold l, splice. rewrite take_0. cbn [app]. rewrite take_app_ge by (rewrite length_app, Hls; cbn; lia).
    assert (exists b, tail ++ [0] = 0 :: b) as [b Hb].
    { destruct Ht as [|x tail <- _]; by eexists. }
    rewrite <- !app_assoc, (app_assoc tail), Hb. rewrite <- app_comm_cons. apply cstr_up_to_zero. by apply Forall_take.
Qed.

(** [after_slash] finds the last element of the path. *)
Definition last_element (p e : list Z) : Prop :=
  exists pre, p = pre ++ e /\ (slash ∉ e) /\ (pre = [] \/ exists q, pre = q ++ [slash]).

Lemma after_slash_run p q0 junk pre :
  Forall (fun c => c <> 0) p -> (slash ∉ q0) -> (pre = [] \/ exists q, pre = q ++ [slash]) ->
  exists e, after_slash (p ++ 0 :: junk) (q0 ++ p ++ 0 :: junk) = Some (e ++ 0 :: junk) /\
    last_element (pre ++ q0 ++ p) e.
Proof.
  revert q0 pre. induction p as [|c p IH]; intros q0 pre Hp Hq Hpre.
  - exists q0. cbn. split; [done|]. exists pre. by rewrite app_nil_r.
  - apply Forall_cons in Hp as [Hc Hp]. cbn [app after_slash]. rewrite (proj2 (Z.eqb_neq _ _) Hc).
    destruct (Z.eqb_spec c slash) as [Hs|Hs].
    + destruct (IH [] (pre ++ q0 ++ [c]) Hp) as (e & R & He); [by apply not_elem_of_nil|right; exists (pre ++ q0)|].
      { by rewrite Hs, app_assoc. }
      exists e. split; [exact R|]. by rewrite <- !app_assoc in He.
    + destruct (IH (q0 ++ [c]) pre Hp) as (e & R & He); [|done|].
      { rewrite not_elem_of_app, list_elem_of_singleton. by split; [|apply not_eq_sym]. }
      exists e. rewrite <- !app_assoc in R. rewrite <- !app_assoc in He. by split.
Qed.

(** ** The page directory in use *)

Section Register.
Context `{Linker}.

Lemma quiet_put_page v d : quiet cr3 (put_page v d).
Proof. by apply quiet_modify. Qed.
#[local] Hint Resolve quiet_put_page : quiet.
Lemma quiet_ld v : quiet cr3 (ld v).
Proof. unfold ld, get_page. quiet_tac. Qed.
Lemma quiet_sto v x : quiet cr3 (sto v x).
Proof. unfold sto, get_page. quiet_tac. Qed.
Lemma quiet_store_page v l : quiet cr3 (store_bytes v l).
Proof. unfold store_bytes, get_page. quiet_tac. Qed.
#[local] Hint Resolve quiet_ld quiet_sto quiet_store_page : quiet.
Lemma quiet_kfree v : quiet cr3 (kfree v).
Proof. unfold kfree, memset_page, acquire_kmem, release_kmem. quiet_tac. Qed.
#[local] Hint Resolve quiet_kfree : quiet.
Lemma quiet_walk d va : quiet cr3 (walkpgdir d va false).
Proof. unfold walkpgdir. quiet_tac. Qed.
#[local] Hint Resolve quiet_walk : quiet.
Lemma quiet_dealloc_loop fuel d a o : quiet cr3 (dealloc_loop fuel d a o).
Proof. revert a. induction fuel as [|fuel IH]; intros a; cbn [dealloc_loop]; quiet_tac; apply IH. Qed.
#[local] Hint Resolve quiet_dealloc_loop : quiet.
Lemma quiet_for_each {I} (l : list I) (body : I -> Mem unit) :
  (forall i, quiet cr3 (body i)) -> quiet cr3 (for_each l body).
Proof.
  intros Hb. induction l as [|i l IH]; [apply quiet_ret|]. cbn [for_each].
  apply quiet_bind; [apply Hb|]. intros _. apply IH.
Qed.
Lemma quiet_freevm d : quiet cr3 (freevm d).
Proof. unfold freevm, deallocuvm. quiet_tac. Qed.
End Register.

(** ** The image *)

Section Image.
Context `{Linker} `{ProgramFile fuel others path content}.
Hypothesis Hkend : KERNBASE < kend.
Hypothesis Hdata : KERNLINK < kdata < KERNBASE + PHYSTOP.
Hypothesis Hdata_page : kdata mod PGSIZE = 0.

(** The memory before [exec], and the free pages then. *)
Context (m0 : machine) (l0 : list Z).
Hypothesis Hfree0 : free_list m0 l0.

(** The state at [goto bad]: no address space, or one whose pages are known. *)
Definition bad_memory (d : Z) (m : machine) : Prop :=
  (d = 0 /\ exists l, restored m0 l0 m l) \/
  (d <> 0 /\ exists T l U, proc_ok d m T l U /\ owns m0 l0 d m T l U).

(** The file system at the end of [build_image]: an inode is still locked or none. *)
Definition file_state (ip : option nat) (f : fsys) : Prop :=
  match ip with Some i => opened i f | None => ready f end.

Definition file_header : elfhdr := elfhdr_of (file_part (content := content) 0 ELFHDR_SIZE).
Definition program_headers : list proghdr := headers (content := content) (phoff file_header) 0 (Z.to_nat (phnum file_header)).

(** The pages of the program: up to the end of its last segment in memory. *)
Definition program_pages : Z := pages_up (image_end program_headers).

(** The new image in memory: the program with zeros around it, a guard page, and the
    stack. *)
Definition program_in (strs : list (list Z)) (sz sp : Z) (m : machine) (T U : gmap Z Z) : Prop :=
  magic file_header = ELF_MAGIC /\ Forall segment_ok program_headers /\
  let k := program_pages in
    sz = PGSIZE * (k + 2) /\ PGSIZE * k <= sp < sz /\
    (forall n, is_Some (U !! n) <-> 0 <= n < k + 2) /\
    (forall a, 0 <= a < PGSIZE * k -> user_byte m U a = Some (image_byte (content := content) program_headers a)) /\
    main_stack m U sp sz strs /\ ~ accessible m T U k /\ accessible m T U (k + 1).

(** What is enough for a program to be started with the free pages [l]: a file with good
    headers and segments, arguments that fit, and pages. *)
Record runnable (strs : list (list Z)) (l : list Z) : Prop := Runnable {
  rn_present : present = true;
  rn_header : ELFHDR_SIZE <= file_size;
  rn_magic : magic file_header = ELF_MAGIC;
  rn_headers : phoff file_header + PROGHDR_SIZE * phnum file_header <= file_size;
  rn_segments : Forall loadable program_headers;
  rn_argc : Z.of_nat (length strs) <= MAXARG;
  rn_args : args_size strs <= PGSIZE;
  rn_room : PGSIZE * (program_pages + 2) < KERNBASE;
  rn_pages : space_pages + 2 * (program_pages + 2) <= Z.of_nat (length l)
}.

Record image_ok (strs : list (list Z)) (d sz sp : Z) (m : machine) (T : gmap Z Z) (l : list Z)
    (U : gmap Z Z) : Prop := ImageOk {
  im_proc : proc_ok d m T l U;
  im_owns : owns m0 l0 d m T l U;
  im_null : d <> 0;
  im_program : program_in strs sz sp m T U
}.

Definition built_ok (i : nat) (strs : list (list Z)) (b : built) (s : filesys) : Prop :=
  match b with
  | Bad d ip => bad_memory d (kmem s) /\ file_state ip (fsy s) /\ ~ runnable strs l0
  | Built d sz sp entry => ready (fsy s) /\ entry = e_entry file_header /\
      exists T l U, image_ok strs d sz sp (kmem s) T l U
  end.

Lemma build_image_run i s argv strs :
  kmem s = m0 -> opened i (fsy s) -> Forall2 cstring strs argv -> args_size strs <= 2 * PGSIZE ->
  exists b s', build_image i argv s = Ok (b, s') /\ same_files s s' /\ built_ok i strs b s'.
Proof using All.
  intros Hm Hop Hcs Hsize. unfold build_image.
  destruct (file_read i (fsy s) 0 ELFHDR_SIZE Hop) as (r & by_ & f1 & Rf & Hop1 & Hrl & Hres);
    [lia|vm_compute; split; discriminate|].
  destruct (on_fs_ok _ s _ _ Rf) as [R1 Hs1]. rewrite (bind_ok _ _ _ _ _ R1). set (s1 := set_fsy f1 s) in *.
  assert (kmem s1 = m0) as Hm1 by done.
  assert (~ runnable strs l0 ->
    exists b s', Ok (Bad 0 (Some i), s1) = Ok (b, s') /\ same_files s s' /\ built_ok i strs b s') as Hbad.
  { intros Hn. exists (Bad 0 (Some i)), s1. split; [done|]. split; [done|]. split; [|done]. left. split; [done|].
    exists l0. rewrite Hm1. by split. }
  destruct (Z.eqb_spec r ELFHDR_SIZE) as [->|Hr]; cbn [negb]; last first.
  { apply Hbad. intros Hrun. destruct Hr. pose proof (rn_header _ _ Hrun) as Hh. unfold ELFHDR_SIZE in *.
    rewrite (proj2 (Z.ltb_ge _ _)) in Hrl by lia. rewrite Hrl. lia. }
  clear Hrl.
  destruct Hres as [?|(_ & _ & ->)]; [done|]. fold (file_part (content := content) 0 ELFHDR_SIZE).
  change (elfhdr_of (file_part 0 ELFHDR_SIZE)) with file_header. cbn zeta.
  destruct (Z.eqb_spec (magic file_header) ELF_MAGIC) as [Hmag|Hmag]; cbn [negb].
  2:{ apply Hbad. intros Hrun. by apply Hmag, Hrun. }
  clear Hbad. assert (0 <= program_pages) as Hpp.
  { apply pages_up_nonneg. exact (image_end_more [] program_headers). }
  destruct (setupkvm_run Hkend m0 l0 Hfree0 Hdata Hdata_page)
    as [(m1 & l1 & R2 & Hre & Hfew)|(d & m1 & T1 & l1 & R2 & Hd & Hok1 & Ho1 & _)];
    rewrite <- Hm1 in R2; destruct (on_mem_ok _ s1 _ _ R2) as [R3 Hs2]; rewrite (bind_ok _ _ _ _ _ R3).
  { exists (Bad 0 (Some i)), (set_kmem m1 s1). split; [done|]. split; [by rewrite Hs1|].
    split; [left; split; [done|by exists l1]|]. split; [done|]. intros Hrun. pose proof (rn_pages _ _ Hrun). lia. }
  pose proof (owns_count m0 l0 d m1 T1 l1 ∅ (fl_nodup _ _ Hfree0) Hok1 Ho1) as Hcnt1.
  rewrite map_size_empty in Hcnt1.
  rewrite (proj2 (Z.eqb_neq _ _) Hd). set (s2 := set_kmem m1 s1) in *.
  assert (0 <= phoff file_header < 2 ^ 32) as Hoff by apply field_bound.
  destruct (load_segments_run Hkend (Z.to_nat (phnum file_header)) 0 (phoff file_header) d i 0 s2 T1 l1 ∅)
    as (r & s3 & T3 & l3 & U3 & R4 & Hs3 & Hok3 & Hop3 & Hk3 & Hr3); [lia| |].
  { split; [|done|done]. split; [done|done|unfold KERNBASE; lia| | |done].
    - intros n. rewrite lookup_empty. change (pages_up 0) with 0. split; [by intros []|lia].
    - change (pages_up 0) with 0. lia. }
  rewrite Nat2Z.inj_0, Z.mul_0_r, Z.add_0_r, w32_small in R4 by done. rewrite (bind_ok _ _ _ _ _ R4).
  pose proof (Hk3 m0 l0 Ho1) as Ho3.
  destruct r as [sz|]; last first.
  { exists (Bad d (Some i)), s3. split; [done|]. split; [by rewrite Hs1, Hs2|].
    split; [right; split; [done|by exists T3, l3, U3]|]. split; [done|]. intros Hrun.
    assert (0 <= phnum file_header) as Hph by apply field_bound.
    pose proof (rn_headers _ _ Hrun). pose proof (rn_pages _ _ Hrun) as Hpages. unfold program_pages in Hpages.
    unfold unloadable in Hr3. cbn [Nat.add] in Hr3. fold program_headers in Hr3. change (pages_up 0) with 0 in Hr3.
    destruct Hr3 as [Hn|[Hn|Hn]]; [by apply Hn, Hrun|rewrite Z2Nat.id in Hn by done; lia|lia]. }
  destruct Hr3 as [[[_ _ Hsz Hpg Hby _] Hszk Hsegs] Hcnt3]. cbn [Nat.add] in *. fold program_headers in *.
  change (pages_up 0) with 0 in Hcnt3.
  assert (pages_up sz = program_pages) as Hk by by rewrite Hszk.
  destruct (file_close i (fsy s3) Hop3) as (f4 & f5 & Rc & Re & Hrd).
  destruct (on_fs_ok _ s3 _ _ Rc) as [R5 Hs4]. rewrite (bind_ok _ _ _ _ _ R5). set (s4 := set_fsy f4 s3) in *.
  destruct (on_fs_ok (disk end_op) s4 _ _ Re) as [R6 Hs5]. rewrite (bind_ok _ _ _ _ _ R6). set (s5 := set_fsy f5 s4) in *.
  destruct (build_stack_run Hkend d (kmem s5) T3 l3 U3 sz strs argv Hok3 Hsz) as (r & m6 & T6 & l6 & U6 & R7 & Hok6 & Hk6 & Hr6);
    [|done|done|].
  { intros n Hn. apply eq_None_not_Some. rewrite Hpg. lia. }
  destruct (on_mem_ok _ s5 _ _ R7) as [R8 Hs6]. rewrite (bind_ok _ _ _ _ _ R8). set (s6 := set_kmem m6 s5) in *.
  assert (same_files s s6) as Hs16 by (by rewrite Hs1, Hs2, Hs3, Hs4, Hs5).
  pose proof (Hk6 m0 l0 Ho3) as Ho6. destruct r as [[sz' sp]|].
  - exists (Built d sz' sp (e_entry file_header)), s6. split; [done|]. split; [done|].
    split; [done|]. split; [done|]. exists T6, l6, U6. split; [done|done|done|]. split; [done|].
    destruct Hr6 as (-> & Hsp & Hmain & Hbelow & HU & Hg & Hna & Hacc).
    split; [done|]. rewrite <- Hk. cbv zeta. assert (0 <= pages_up sz) by (apply pages_up_nonneg; lia).
    split; [done|]. split; [done|]. split; [|split; [|done]].
    + intros n. destruct (decide (n < pages_up sz \/ pages_up sz + 2 <= n)) as [Ho|Hi].
      * rewrite HU, Hpg by done. lia.
      * assert (n = pages_up sz \/ n = pages_up sz + 1) as [->| ->] by lia; (split; [lia|intros _]);
          [done|apply Hacc].
    + intros a Ha. rewrite Hbelow by lia. rewrite Hby by done. done.
  - exists (Bad d None), s6. split; [done|]. split; [done|].
    split; [right; split; [done|by exists T6, l6, U6]|]. split; [done|]. intros Hrun.
    pose proof (rn_pages _ _ Hrun). pose proof (rn_room _ _ Hrun). pose proof (rn_argc _ _ Hrun).
    pose proof (rn_args _ _ Hrun). destruct Hr6 as [?|[?|[[?|?] _]]]; [lia|lia| |]; rewrite ?Hk in *; lia.
Qed.

(** [exec] at [goto bad]. *)
Lemma exec_bad_run d ip s : bad_memory d (kmem s) -> file_state ip (fsy s) ->
  exists s' l, exec_bad d ip s = Ok (-1, s') /\ same_files s s' /\ restored m0 l0 (kmem s') l /\ ready (fsy s').
Proof using All.
  intros Hb Hf. unfold exec_bad.
  assert (exists s1 l, when (negb (d =? 0)) (on_mem (freevm d)) s = Ok (tt, s1) /\ same_files s s1 /\
    restored m0 l0 (kmem s1) l /\ fsy s1 = fsy s) as (s1 & l & R & Hs & Hre & Hfs).
  { destruct Hb as [[-> (l & Hre)]|(Hd & T & l & U & Hok & Ho)].
    - exists s, l. split_and!; done.
    - rewrite (proj2 (Z.eqb_neq _ _) Hd). cbn [negb when].
      destruct (freevm_run Hkend m0 l0 d (kmem s) T l U Hok Ho) as (m & l' & R & Hre).
      destruct (on_mem_ok _ s _ _ R) as [R1 Hs]. exists (set_kmem m s), l'. split_and!; done. }
  rewrite (bind_ok _ _ _ _ _ R). destruct ip as [i|]; cbn [file_state] in Hf.
  - rewrite <- Hfs in Hf. destruct (file_close i (fsy s1) Hf) as (f2 & f3 & Rc & Re & Hrd).
    destruct (on_fs_ok _ s1 _ _ Rc) as [R2 Hs2]. rewrite (bind_ok _ _ _ _ _ R2).
    destruct (on_fs_ok (disk end_op) (set_fsy f2 s1) _ _ Re) as [R3 Hs3]. rewrite (bind_ok _ _ _ _ _ R3).
    eexists _, l. split; [reflexivity|]. split; [etransitivity; [exact Hs|]; etransitivity; [exact Hs2|exact Hs3]|].
    split; done.
  - exists s1, l. rewrite Hfs. split_and!; done.
Qed.

(** Where neither the bytes nor the entries change, the program stays. *)
Lemma program_in_same strs sz sp m T U m' :
  (forall a, user_byte m' U a = user_byte m U a) ->
  (forall va, entry (pages m') T va = entry (pages m) T va) ->
  program_in strs sz sp m T U -> program_in strs sz sp m' T U.
Proof.
  intros Hb He (Hmag & Hsegs & Hsz & Hsp & HU & Hby & (addrs & Hw & Hat) & Hna & Hacc). split; [done|]. split; [done|].
  assert (forall n, accessible m' T U n <-> accessible m T U n) as Ha by (intros n; unfold accessible; by rewrite He).
  cbv zeta. split; [done|]. split; [done|]. split; [done|]. split; [intros a Hr; rewrite Hb; by apply Hby|].
  split; [|by rewrite !Ha]. exists addrs. split.
  - eapply user_has_same; [|exact Hw]. intros b _. apply Hb.
  - eapply strings_at_same; [|exact Hat]. intros b _. apply Hb.
Qed.

(** The end of [exec]: the new address space is switched to, the old one freed. *)
Lemma switch_images old T0 U0 d sz sp strs m T l U :
  proc_ok old m0 T0 l0 U0 -> (forall v, holds old T0 U0 v -> page_ok (pages m0) v) ->
  image_ok strs d sz sp m T l U ->
  exists m1 m' l', switchuvm d m = Ok (tt, m1) /\ freevm old m1 = Ok (tt, m') /\ cr3 m' = V2P d /\
    proc_ok d m' T l' U /\
    (forall v, v ∈ l' \/ holds d T U v <-> v ∈ l0 \/ holds old T0 U0 v) /\ program_in strs sz sp m' T U.
Proof using All.
  intros Hold Hpok [Hok Ho Hd Hprog]. pose proof (vo_free _ _ _ _ (po_vm _ _ _ _ _ Hok)) as Hf.
  assert (forall v, v ∈ l -> v ∈ l0) as Hl by (intros v Hv; apply (ow_pages _ _ _ _ _ _ _ Ho); by left).
  destruct (parent_kept m0 l0 old T0 U0 Hold m l (ow_frame _ _ _ _ _ _ _ Ho) Hf Hl) as (Hold1 & _).
  set (m1 := set_cr3 (V2P d) m).
  assert (switchuvm d m = Ok (tt, m1)) as Rs by (unfold switchuvm; by rewrite (proj2 (Z.eqb_neq _ _) Hd)).
  assert (free_list m1 l) as Hf1 by (eapply free_list_frame; [exact Hf|done..]).
  destruct (space_frame old m T0 l U0 m1 l Hold1 Hf1) as [Hold2 _];
    [done|intros v w Hv Hw; by apply (parent_pages m l old T0 U0 Hold1)|].
  destruct (space_frame d m T l U m1 l Hok Hf1) as [Hok1 _];
    [done|intros v w Hv Hw; by apply (parent_pages m l d T U Hok)|].
  set (lx := l ++ held_pages old T0 U0).
  assert (forall v, v ∈ lx <-> v ∈ l \/ holds old T0 U0 v) as Hlx by (intros v; unfold lx; by rewrite elem_of_app, elem_of_held).
  pose proof (parent_pages m0 l0 old T0 U0 Hold) as Hap.
  assert (owns m1 lx old m1 T0 l U0) as Hown.
  { split; [done|done|]. intros v Hv. apply Hlx in Hv as [Hv|Hv].
    - pose proof (fl_pages _ _ Hf1) as Hps. rewrite Forall_forall in Hps. by apply Hps.
    - eapply page_ok_frame; [|by apply Hpok]. intros c Hc. exists c. split; [|done].
      rewrite <- Hc. apply (ow_frame _ _ _ _ _ _ _ Ho). by apply Hap. }
  destruct (freevm_run Hkend m1 lx old m1 T0 l U0 Hold2 Hown) as (m2 & l2 & R & [Hf2 Hl2 Hfr2]).
  assert (forall v w, holds d T U v -> w ∈ lx -> page_of v <> page_of w) as Hdis.
  { intros v w Hv Hw. apply Hlx in Hw as [Hw|Hw].
    - by apply (parent_pages m1 l d T U Hok1).
    - apply not_eq_sym, (Hap w Hw). apply (ow_pages _ _ _ _ _ _ _ Ho). by right. }
  destruct (space_frame d m1 T l U m2 l2 Hok1 Hf2) as [Hok2 He2].
  { intros v Hv. apply Hfr2. intros w Hw. by apply Hdis. }
  { intros v w Hv Hw. apply Hdis; [done|]. by apply Hl2. }
  exists m1, m2, l2. split; [done|]. split; [exact R|]. split; [exact (quiet_view _ _ _ _ _ (quiet_freevm old) R)|].
  split; [done|]. split.
  - intros v. rewrite Hl2, Hlx, (ow_pages _ _ _ _ _ _ _ Ho). tauto.
  - eapply program_in_same; [|exact He2|exact Hprog]. intros a. unfold user_byte.
    destruct (U !! (a / PGSIZE)) as [v|] eqn:Hv; [|done]. cbn. rewrite Hfr2; [done|].
    intros w Hw. apply Hdis; [|done]. right. right. by eexists.
Qed.
End Image.

(** ** exec *)

Section Exec.
Context `{Linker} `{ProgramFile fuel others path content}.

(** What the process was: its address space, whose pages came from the allocator, its
    file system between two transactions. *)
Record process_ok (x : xproc) (T : gmap Z Z) (l : list Z) (U : gmap Z Z) : Prop := ProcessOk {
  px_files : ready (fsy (x_files x));
  px_space : proc_ok (i_pgdir (x_image x)) (kmem (x_files x)) T l U;
  px_pages : forall v, holds (i_pgdir (x_image x)) T U v -> page_ok (pages (kmem (x_files x))) v;
  px_name : length (i_name (x_image x)) = 16%nat;
  px_bytes : bytes (i_name (x_image x))
}.

(** The call failed: nothing that the process sees has changed, and no page is lost. *)
Definition exec_failed (x x' : xproc) (T : gmap Z Z) (l : list Z) (U : gmap Z Z) : Prop :=
  x_image x' = x_image x /\ exists l', proc_ok (i_pgdir (x_image x)) (kmem (x_files x')) T l' U /\
    (forall v, v ∈ l' <-> v ∈ l) /\
    forall a, user_byte (kmem (x_files x')) U a = user_byte (kmem (x_files x)) U a.

(** The process runs the program of the file, and the pages it had are free or its own
    again. *)
Definition exec_started (x x' : xproc) (T : gmap Z Z) (l : list Z) (U : gmap Z Z) (p : list Z)
    (strs : list (list Z)) : Prop :=
  exists d sz sp name T' l' U',
    x_image x' = Image d sz (e_entry (file_header (content := content))) sp name /\
    proc_ok d (kmem (x_files x')) T' l' U' /\ cr3 (kmem (x_files x')) = V2P d /\
    (forall v, v ∈ l' \/ holds d T' U' v <-> v ∈ l \/ holds (i_pgdir (x_image x)) T U v) /\
    (exists e, last_element p e /\ cstr name = take 15 e) /\
    program_in (content := content) strs sz sp (kmem (x_files x')) T' U'.

Lemma on_filesys_ok {A} (m : Fm A) x a s : m (x_files x) = Ok (a, s) ->
  on_filesys m x = Ok (a, set_x_files s x).
Proof. intros Hm. unfold on_filesys. by rewrite Hm. Qed.

Lemma exec_failed_run x x' m l' T l U : process_ok x T l U -> kmem (x_files x) = m ->
  x_image x' = x_image x -> restored m l (kmem (x_files x')) l' -> exec_failed x x' T l U.
Proof.
  intros [_ Hok _ _ _] Hm Him [Hf Hl Hfr]. split; [done|]. exists l'. rewrite Hm in *.
  destruct (parent_kept m l _ T U Hok (kmem (x_files x')) l' Hfr Hf) as (Hok' & _ & Hp); [intros v; apply Hl|].
  split; [done|]. split; [done|]. intros a. unfold user_byte.
  destruct (U !! (a / PGSIZE)) as [v|] eqn:Hv; [|done]. cbn. by rewrite (Hp _ v Hv).
Qed.

Hypothesis Hkend : KERNBASE < kend.
Hypothesis Hdata : KERNLINK < kdata < KERNBASE + PHYSTOP.
Hypothesis Hdata_page : kdata mod PGSIZE = 0.

(** [exec] after the image is built. *)
Definition use_image (pgdir sz sp entry : Z) : Xm Z :=
  last ← lift_opt "path" (after_slash path path);
  im ← gets x_image;
  name ← (match safestrcpy_arr (i_name im) last 16 with Ok l => mret l | _ => fault "safestrcpy" end);
  modify (set_x_image (Image pgdir sz entry sp name)) ;;
  on_filesys (on_mem (switchuvm pgdir)) ;;
  on_filesys (on_mem (freevm (i_pgdir im))) ;;
  mret 0.

Lemma use_image_run x T l U p junk strs x1 d sz sp T1 l1 U1 :
  process_ok x T l U -> path = p ++ 0 :: junk -> Forall (fun c => c <> 0) p -> bytes path ->
  x_image x1 = x_image x -> ready (fsy (x_files x1)) ->
  image_ok (content := content) (kmem (x_files x)) l strs d sz sp (kmem (x_files x1)) T1 l1 U1 ->
  exists x', use_image d sz sp (e_entry (file_header (content := content))) x1 = Ok (0, x') /\
    same_files (x_files x1) (x_files x') /\ ready (fsy (x_files x')) /\ exec_started x x' T l U p strs.
Proof using Hkend Hdata Hdata_page.
  intros [Hrd Hok Hpg Hnl Hnb] Hpath Hp0 Hbp Him1 Hrd1 Him. unfold use_image.
  destruct (after_slash_run p [] junk [] Hp0 ltac:(apply not_elem_of_nil) ltac:(by left)) as (e & Ra & Hle).
  cbn [app] in Ra, Hle. rewrite <- Hpath in Ra. rewrite Ra, bind_lift_Some, bind_gets, Him1.
  pose proof Hle as (pre & Hpe & _ & _).
  assert (Forall (fun c => c <> 0) e /\ bytes (e ++ 0 :: junk)) as [He0 Heb].
  { rewrite Hpath, Hpe in *. unfold bytes in *. rewrite <- app_assoc in Hbp.
    apply Forall_app in Hp0 as [_ ?]. by apply Forall_app in Hbp as [_ ?]. }
  destruct (name_run (i_name (x_image x)) e junk Hnl Hnb Heb He0) as (nm & Rn & _ & Hcn).
  rewrite Rn, bind_ret, bind_modify. set (x2 := set_x_image _ _).
  pose proof (vo_free _ _ _ _ (po_vm _ _ _ _ _ Hok)) as Hfree.
  destruct (switch_images Hkend Hdata Hdata_page _ l Hfree _ T U d sz sp strs _ T1 l1 U1 Hok Hpg Him)
    as (m3 & m4 & l4 & R3 & R4 & Hcr & Hok4 & Hacc & Hprog).
  destruct (on_mem_ok _ (x_files x2) _ _ R3) as [R5 Hs5].
  rewrite (bind_ok _ _ _ _ _ (on_filesys_ok _ x2 _ _ R5)).
  destruct (on_mem_ok _ (set_kmem m3 (x_files x2)) _ _ R4) as [R6 Hs6].
  rewrite (bind_ok _ _ _ _ _ (on_filesys_ok _ (set_x_files (set_kmem m3 (x_files x2)) x2) _ _ R6)).
  eexists. split; [reflexivity|]. split; [by etransitivity|]. split; [done|].
  exists d, sz, sp, nm, T1, l4, U1. split; [done|]. split; [done|]. split; [done|]. split; [done|].
  split; [by exists e|done].
Qed.

(** C20. [exec] either fails with -1 and leaves the process, the files and the memory as they
    were, with no page lost, whatever the file contains; or it starts the program: the pages
    up to the end in memory of the last segment are there, with the bytes that the segments
    have in the file and zeros in the rest, [main] finds its arguments on the stack above a
    guard page, and the pages of the old program are free.  It does not fail for a file that
    is there, with headers and segments that can be loaded, and arguments that fit into a
    page, when enough pages are free. *)
Theorem exec_replaces_the_image_or_fails x T l U p strs argv junk :
  process_ok x T l U -> path = p ++ 0 :: junk -> Forall (fun c => c <> 0) p -> bytes path ->
  Forall2 cstring strs argv -> args_size strs <= 2 * PGSIZE ->
  exists r x', exec fuel others path argv x = Ok (r, x') /\ same_files (x_files x) (x_files x') /\
    ready (fsy (x_files x')) /\
    (r = -1 /\ exec_failed x x' T l U /\ ~ runnable (content := content) strs l \/
     r = 0 /\ exec_started x x' T l U p strs).
Proof using Hkend Hdata Hdata_page.
  intros Hx Hpath Hp0 Hbp Hcs Hsize. pose proof Hx as [Hrd Hok _ _ _].
  set (s := x_files x) in *. set (m0 := kmem s) in *.
  pose proof (vo_free _ _ _ _ (po_vm _ _ _ _ _ Hok)) as Hfree. unfold exec.
  destruct (file_lookup (fsy s) Hrd) as (f1 & Rb & Hlk).
  destruct (on_fs_ok (disk (begin_op fuel others)) s _ _ Rb) as [R1 Hs1].
  rewrite (bind_ok _ _ _ _ _ (on_filesys_ok _ x _ _ R1)). set (s1 := set_fsy f1 s) in *.
  destruct Hlk as [(Habs & f2 & f3 & Rn & Re & Hrd3)|(_ & i & f2 & f3 & Rn & Rl & Hop)];
    destruct (on_fs_ok (namei path) s1 _ _ Rn) as [R2 Hs2];
    rewrite (bind_ok _ _ _ _ _ (on_filesys_ok _ (set_x_files s1 x) _ _ R2)); set (s2 := set_fsy f2 s1) in *.
  - destruct (on_fs_ok (disk end_op) s2 _ _ Re) as [R3 Hs3].
    rewrite (bind_ok _ _ _ _ _ (on_filesys_ok _ (set_x_files s2 x) _ _ R3)).
    eexists (-1), _. split; [done|]. split; [etransitivity; [exact Hs1|]; etransitivity; [exact Hs2|exact Hs3]|].
    split; [done|]. left. split; [done|]. split; [by apply (exec_failed_run x _ m0 l)|].
    intros Hrun. by rewrite (rn_present _ _ Hrun) in Habs.
  - destruct (on_fs_ok (ilock (Some i)) s2 _ _ Rl) as [R3 Hs3].
    rewrite (bind_ok _ _ _ _ _ (on_filesys_ok _ (set_x_files s2 x) _ _ R3)). set (s3 := set_fsy f3 s2) in *.
    destruct (build_image_run Hkend Hdata Hdata_page m0 l Hfree i s3 argv strs eq_refl Hop Hcs Hsize)
      as (b & s4 & R4 & Hs4 & Hb).
    rewrite (bind_ok _ _ _ _ _ (on_filesys_ok _ (set_x_files s3 x) _ _ R4)).
    assert (same_files s s4) as Hs14 by (etransitivity; [exact Hs1|]; etransitivity; [exact Hs2|]; by etransitivity).
    destruct b as [d ip|d sz sp en]; cbn [built_ok] in Hb.
    + destruct Hb as (Hbm & Hfs & Hnr).
      destruct (exec_bad_run Hkend Hdata Hdata_page m0 l Hfree d ip s4 Hbm Hfs) as (s5 & l5 & R5 & Hs5 & Hre & Hrd5).
      rewrite (on_filesys_ok _ (set_x_files s4 (set_x_files s3 x)) _ _ R5). eexists (-1), _. split; [done|].
      split; [etransitivity; [exact Hs14|exact Hs5]|]. split; [done|]. left. split; [done|].
      split; [by apply (exec_failed_run x _ m0 l5)|done].
    + destruct Hb as (Hrd4 & -> & T4 & l4 & U4 & Him).
      destruct (use_image_run x T l U p junk strs (set_x_files s4 (set_x_files s3 x)) d sz sp T4 l4 U4 Hx Hpath
        Hp0 Hbp eq_refl Hrd4 Him) as (x' & R5 & Hs5 & Hrd5 & Hst).
      exists 0, x'. split; [exact R5|]. split; [etransitivity; [exact Hs14|exact Hs5]|]. split; [done|]. by right.
Qed.
End Exec.

(** C21. The arguments that [exec] gives to [main]: the strings, the array of their addresses
    with a null pointer at its end, [argc] and [argv], above a page that the program
    cannot use; the pages below are not touched.  Arguments of at most two pages are passed
    always, unless they are more than [MAXARG], do not fit into one page, the two pages of the
    stack would end above [KERNBASE], or fewer than four pages are free; in the last two
    cases the pages of the program are as before. *)
Theorem build_stack_passes_the_arguments `{Linker} pgdir s T l U sz strs argv :
  KERNBASE < kend -> proc_ok pgdir s T l U -> 0 <= sz < KERNBASE ->
  (forall n, pages_up sz <= n -> U !! n = None) -> Forall2 cstring strs argv -> args_size strs <= 2 * PGSIZE ->
  exists r s' T' l' U', build_stack pgdir sz argv s = Ok (r, s') /\ proc_ok pgdir s' T' l' U' /\
    stack_result (pages_up sz) strs s l U s' T' U' r.
Proof.
  intros Hkend Hok Hsz Hn Hcs Hsize.
  destruct (build_stack_run Hkend pgdir s T l U sz strs argv) as (r & s' & T' & l' & U' & R & Hok' & _ & Hr); try done.
  by exists r, s', T', l', U'.
Qed.

Lemma build_stack_passes_the_arguments_witness :
  exists s, proc_ok small_pgdir s ∅ small_free ∅ /\
    exists sp s' T' U', build_stack small_pgdir 0 [[108; 115; 0]; [45; 108; 0]] s = Ok (Some (PGSIZE * 2, sp), s') /\
      0 <= sp < PGSIZE * 2 /\ main_stack s' U' sp (PGSIZE * 2) [[108; 115]; [45; 108]] /\
      ~ accessible s' T' U' 0 /\ accessible s' T' U' 1.
Proof.
  destruct small_proc as (s & Hok & _). exists s. split; [exact Hok|].
  destruct (build_stack_passes_the_arguments small_pgdir s ∅ small_free ∅ 0 [[108; 115]; [45; 108]] [[108; 115; 0]; [45; 108; 0]])
    as (r & s' & T' & l' & U' & R & _ & Hr).
  - exact small_kend.
  - exact Hok.
  - split; [discriminate|reflexivity].
  - intros n _. apply lookup_empty.
  - repeat constructor; cbn; try done; by exists [].
  - vm_compute. discriminate.
  - destruct r as [[sz sp]|].
    + destruct Hr as (-> & Hsp & Hmain & _ & _ & _ & Hna & Hacc). exists sp, s', T', U'. split; [exact R|].
      split; [exact Hsp|]. by split.
    + exfalso. destruct Hr as [Hr|[Hr|[[Hr|Hr] _]]]; revert Hr; [by vm_compute|by vm_compute| |cbn; lia].
      intros Hr. by apply Hr.
Defined.

(** A process whose current directory is the root of the small disk, where the file "f"
    is. *)
#[local] Instance no_devices : Devices := {| dev_read _ := None; dev_write _ := None |}.

Definition cwd_inode : inode := set_ilock None small_dir.
Definition small_cache : list inode := cwd_inode :: open_inode :: replicate 48 inode_zero.
Definition hello (p : Z) : Z := default 0 (zlookup [104; 101; 108; 108; 111] p).

Lemma small_cache_lookup i ip : small_cache !! i = Some ip ->
  (i = 0%nat /\ ip = cwd_inode) \/ (i = 1%nat /\ ip = open_inode) \/ ip = inode_zero.
Proof.
  unfold small_cache. destruct i as [|[|i]]; [intros [= <-]; by left|intros [= <-]; by right; left|].
  change ((cwd_inode :: open_inode :: replicate 48 inode_zero) !! S (S i)) with (replicate 48 inode_zero !! i).
  intros [-> _]%lookup_replicate. by right; right.
Qed.

Lemma small_cache_ok : icache_ok small_cache.
Proof.
  split; [done| |].
  - by intros i ip [[_ ->]|[[_ ->]| ->]]%small_cache_lookup.
  - intros i j ip jp d inum [[-> ->]|[[-> ->]| ->]]%small_cache_lookup
      [[-> ->]|[[-> ->]| ->]]%small_cache_lookup; unfold holds_inode; rewrite !andb_true_iff, !Z.eqb_eq; cbn; intuition (done || lia).
Qed.

Lemma hello_bytes p : 0 <= hello p < 256.
Proof.
  unfold hello. destruct (zlookup [104; 101; 108; 108; 111] p) as [c|] eqn:Hc; [|done]. cbn.
  unfold zlookup in Hc. destruct (p <? 0); [done|]. apply list_elem_of_lookup_2, list_elem_of_In in Hc. cbn in Hc. lia.
Qed.

Lemma small_on_disk s hd : memdisk s = <[2%nat := hd]> (small_disk []) ->
  log_start (lg s) = 2%nat -> log_size (lg s) = 30 -> on_disk 3 cwd_inode open_inode [102] hello true s.
Proof.
  intros Hm Hst Hsz. split; rewrite ?Hm.
  - apply disk_file_lock. split; [exact (do_file _ _ _ (small_dir_ok hd))| |].
    + change (i_size small_dir) with 48. split; [|intros; lia|]; last first.
      { intros Hlt. exfalso. revert Hlt. apply Z.le_ngt. vm_compute. discriminate. }
      intros k Hk Hke. assert (k = 0) as -> by lia.
      rewrite length_insert, small_length. apply small_home; [done..|]. change (block_at _ _ 0) with 34%nat. lia.
    + intros Hlt. exfalso. revert Hlt. apply Z.le_ngt. vm_compute. discriminate.
  - apply disk_file_lock. split; [exact (small_file_ok hd)|exact (small_file_sep s hd Hst Hsz)|].
    intros Hlt. exfalso. revert Hlt. apply Z.le_ngt. vm_compute. discriminate.
  - intros j Hj He. destruct (small_entries hd) as [Hn Hes].
    change (name_in [102]) with (name_of [102]) in He.
    change (entry_is _ cwd_inode _ j) with (entry_is (<[2%nat := hd]> (small_disk [])) small_dir (name_of [102]) j) in He.
    rewrite Hes in He by done. apply Nat.eqb_eq in He as ->. exact Hn.
  - destruct (small_entries hd) as [_ Hes]. unfold named. apply existsb_exists. exists 2%nat.
    split; [apply in_seq; lia|]. exact (Hes 2%nat ltac:(lia)).
  - intros p Hp. cbn in Hp. unfold byte_of, hello.
    assert (p / 512 = 0 /\ p mod 512 = p) as [-> ->] by (split; [apply Z.div_small|apply Z.mod_small]; lia).
    change (block_at _ _ 0) with 35%nat. rewrite list_lookup_total_insert_ne by done.
    assert (p = 0 \/ p = 1 \/ p = 2 \/ p = 3 \/ p = 4) as [->|[->|[->|[->| ->]]]] by lia; reflexivity.
Qed.

Definition small_xproc (s : store) (m : machine) : xproc :=
  Xproc (Filesys (Fsys s small_sb false small_cache 0) false [] ∅ m) (Image small_pgdir 0 0 0 (replicate 16 0)).

(** The interface on the small disk. *)
Definition small_program : ProgramFile 0 id ([102] ++ [0]) hello.
Proof.
  apply (dir_program 0 id small_cache 0 1 3 cwd_inode open_inode [102] [] hello true); try done.
  - exact small_cache_ok.
  - by apply good_elem_dec.
  - exact hello_bytes.
Defined.

Lemma small_process s m : idle s -> on_disk 3 cwd_inode open_inode [102] hello true s -> proc_ok small_pgdir m ∅ small_free ∅ ->
  page_ok (pages m) small_pgdir -> process_ok (H1 := small_program) (small_xproc s m) ∅ small_free ∅.
Proof.
  intros Hi Hd Hok Hp. split; [by split|exact Hok| |done|].
  - by intros v [->|[(i & ?)|(k & ?)]].
  - by apply Forall_replicate.
Qed.

Lemma exec_replaces_the_image_or_fails_witness :
  exists x x', i_pgdir (x_image x) = small_pgdir /\ exec 0 id [102; 0] [[102; 0]] x = Ok (-1, x') /\
    exec_failed x x' ∅ small_free ∅.
Proof.
  destruct (small_idle 7) as (s & hd & _ & Hi & Hm & Hst & Hsz). destruct small_proc as (m & Hok & _).
  assert (page_ok (pages m) small_pgdir) as Hpg.
  { pose proof (vo_dir _ _ _ _ (po_vm _ _ _ _ _ Hok)) as []. split; [done|unfold kend, small_linker, small_pgdir; lia|done]. }
  pose proof (small_process s m Hi (small_on_disk s hd Hm Hst Hsz) Hok Hpg) as Hx.
  destruct (exec_replaces_the_image_or_fails (H1 := small_program) small_kend ltac:(split; reflexivity) eq_refl _ _ _ _
    [102] [[102]] [[102; 0]] [] Hx eq_refl) as (r & x' & R & _ & _ & Hr).
  - by repeat constructor.
  - by repeat constructor.
  - repeat constructor; [done|by exists []].
  - vm_compute. discriminate.
  - exists (small_xproc s m), x'. split; [reflexivity|].
    destruct Hr as [(-> & Hf & _)|(_ & d & sz & sp & nm & T & l & U & _ & _ & _ & _ & _ & Hmag & _)].
    + split; [exact R|exact Hf].
    + by vm_compute in Hmag.
Defined.
