(* ===== verification/MkfsBoot.v ===== *)
(** * The kernel on the disk that the builder left

    Locking an inode that has to be read from the disk, and the way from the image over the
    boot to the bytes of a file that is opened by its name. *)

From S2P Require Import Prelude CString Bytes Bcache BcacheSpec Log LogSpec Recovery LogThms Transaction Ide Fs FsBlocks FsContent FsDirs FileSpec ExecFile Mkfs MkfsSpec MkfsProps.

#[local] Opaque boot.

(** ** Locking an inode for the first time *)

Definition held (p r : Z) (jp : inode) : inode := set_ilock (Some p) (set_ref r jp).

Lemma ilock_load f V Bs i ip jp :
  txn (st f) V ∅ Bs -> (length Bs < NBUF)%nat -> icache f !! i = Some ip ->
  i_dev ip = 1 -> 1 <= i_ref ip -> i_lock ip = None -> i_valid ip = false ->
  ilocked V (sb f) (i_inum ip) = Some jp -> i_type jp <> 0 ->
  exists f', ilock (Some i) f = Ok (tt, f') /\ txn (st f') V ∅ Bs /\ stays (st f) (st f') /\
    icache f' = <[i := held (me (st f)) (i_ref ip) jp]> (icache f) /\ sb f' = sb f /\
    icache_lock f' = icache_lock f.
Proof.
  intros Ht Hroom Hi Hdev Hr Hl Hv Hjp Hty. unfold ilocked in Hjp.
  destruct (V !! IBLOCK (i_inum ip) (sb f)) as [d|] eqn:HV; [|done]. cbn [mbind option_bind] in Hjp.
  destruct (get_dinode (Z.to_nat (i_inum ip mod IPB)) d) as [x|] eqn:Hx; [|done]. cbn in Hjp.
  apply (inj Some) in Hjp as <-. unfold ilock. rewrite (bind_ok _ _ _ _ _ (geti_run f i ip Hi)).
  rewrite (proj2 (Z.ltb_ge _ _) Hr). unfold acquiresleep_inode. rewrite bind_bind.
  rewrite (bind_ok _ _ _ _ _ (geti_run f i ip Hi)), Hl, bind_bind, bind_gets.
  rewrite (bind_ok _ _ _ _ _ (updi_run f i _)). fold (holder (Some (me (st f))) i f).
  set (f1 := holder (Some (me (st f))) i f). set (ip1 := set_ilock (Some (me (st f))) ip).
  assert (icache f1 !! i = Some ip1) as Hi1 by (cbn; by rewrite list_lookup_alter_eq, Hi).
  rewrite (bind_ok _ _ _ _ _ (geti_run f1 i _ Hi1)). change (i_valid ip1) with (i_valid ip).
  rewrite Hv. cbn [negb]. unfold when. rewrite bind_gets. cbv beta. change (sb f1) with (sb f).
  change (i_dev ip1) with (i_dev ip).
  change (i_inum ip1) with (i_inum ip). rewrite Hdev. set (bn := IBLOCK (i_inum ip) (sb f)) in *.
  destruct (fs_bread f1 V ∅ Bs Ht bn d HV (lookup_empty _)) as (k & f2 & R2 & Q2 & T2).
  { rewrite map_size_empty. lia. }
  assert (<[bn := k]> (∅ : gmap nat nat) !! bn = Some k) as Hk by apply lookup_insert_eq.
  rewrite (bind_ok _ _ _ _ _ R2). unfold dip. rewrite bind_bind.
  rewrite (bind_ok _ _ _ _ _ (fs_bdata f2 V _ Bs T2 bn k d Hk HV)), Hx, bind_lift_Some.
  set (g := fun ip : inode => Inode _ _ _ _ _ _ _ _ _ _ _).
  rewrite (bind_ok _ _ _ _ _ (updi_run f2 i g)).
  set (f3 := set_icache (alter g i (icache f2)) f2).
  destruct (fs_brelse f3 V _ Bs T2 bn k Hk) as (f4 & R4 & Q4 & T4).
  { change (st f3) with (st f2). rewrite (sy_disk _ _ (q_stays _ _ Q2)). by eapply txn_settled. }
  rewrite delete_insert_id in T4 by apply lookup_empty.
  rewrite (bind_ok _ _ _ _ _ R4), (bind_ok _ _ _ _ _ (updi_run f4 i _)).
  set (f5 := set_icache _ f4).
  assert (icache f5 = <[i := held (me (st f)) (i_ref ip) (loaded (i_inum ip) x)]> (icache f)) as Hc5.
  { cbn [icache f5 set_icache]. rewrite (q_icache _ _ Q4). cbn [icache f3 set_icache].
    rewrite (q_icache _ _ Q2). cbn [icache f1 holder set_icache].
    pose proof (lookup_lt_Some _ _ _ Hi) as Hlt. rewrite (alter_insert _ _ _ _ Hi).
    erewrite (alter_insert _ i _ g), list_insert_insert_eq by (by apply list_lookup_insert_eq).
    erewrite (alter_insert _ i), list_insert_insert_eq by (by apply list_lookup_insert_eq). f_equal.
    unfold held, loaded, g. cbn. by rewrite Hdev. }
  assert (icache f5 !! i = Some (held (me (st f)) (i_ref ip) (loaded (i_inum ip) x))) as Hi5.
  { rewrite Hc5. apply list_lookup_insert_eq. by eapply lookup_lt_Some. }
  rewrite (bind_ok _ _ _ _ _ (geti_run f5 i _ Hi5)). cbn [i_type held set_ilock set_ref].
  rewrite (proj2 (Z.eqb_neq _ _) Hty). exists f5. split_and!; [done|exact T4| |exact Hc5| |].
  - change (stays (st f1) (st f4)). etransitivity; [apply Q2|apply (q_stays _ _ Q4)].
  - cbn [sb f5 set_icache]. rewrite (q_sb _ _ Q4). apply (q_sb _ _ Q2).
  - cbn [icache_lock f5 set_icache]. rewrite (q_lock _ _ Q4). apply (q_lock _ _ Q2).
Qed.

(** ** A cache with unused entries behind the used ones *)

Definition unused (n : nat) : list inode := replicate n inode_zero.

Definition fresh (d inum : Z) : inode := Inode d inum 1 None false 0 0 0 0 0 (replicate 13 0).

Lemma iget_scan_fresh l n k d inum :
  Forall (fun ip => i_ref ip <> 0 /\ holds_inode ip d inum = false) l ->
  iget_scan (l ++ unused (S n)) k d inum None = inr (Some (k + length l)%nat).
Proof.
  revert k. induction l as [|ip l IH]; intros k Hl.
  - cbn [app unused replicate iget_scan length]. change (i_ref inode_zero) with 0.
    cbn [Z.ltb andb Z.eqb Z.compare].
    rewrite Nat.add_0_r. generalize (S k) as j. induction n as [|n IH]; intros j; [done|]. apply IH.
  - apply Forall_cons in Hl as [[Hr Hh] Hl]. cbn [app iget_scan length]. fold (holds_inode ip d inum).
    rewrite Hh, (proj2 (Z.eqb_neq _ _) Hr), IH by done. do 2 f_equal. lia.
Qed.

Lemma iget_fresh f l n d inum :
  icache_lock f = false -> icache f = l ++ unused (S n) ->
  Forall (fun ip => i_ref ip <> 0 /\ holds_inode ip d inum = false) l ->
  iget d inum f = Ok (length l, set_icache (l ++ fresh d inum :: unused n) f).
Proof.
  intros Hlk Hc Hl. unfold iget. rewrite (bind_ok _ _ _ _ _ (acquire_icache_run f Hlk)), bind_gets.
  change (icache (set_icache_lock true f)) with (icache f). rewrite Hc, iget_scan_fresh by done.
  rewrite (locked_updi_run f _ _ Hlk), Hc.
  rewrite (alter_insert _ _ inode_zero) by (by apply list_lookup_middle).
  by rewrite insert_app_r_alt, Nat.sub_diag by done.
Qed.

(** ** Names *)

Lemma cstr_app_zero l : cstr (l ++ [0]) = cstr l.
Proof. induction l as [|c l IH]; [done|]. cbn. destruct (c =? 0); [done|]. by rewrite IH. Qed.

Lemma no_zero_dec l : forallb (fun c => negb (c =? 0)) l = true -> no_zero l.
Proof. rewrite forallb_forall. intros H Hin%list_elem_of_In%H. done. Qed.

Lemma no_zero_forall l : no_zero l -> Forall (fun c => c <> 0) l.
Proof. intros H. apply Forall_forall. intros c Hc ->. by apply H. Qed.

Lemma cstr_nonzeros l : no_zero l -> cstr l = l.
Proof. intros H. rewrite <- cstr_app_zero. apply (cstr_up_to_zero l []). by apply no_zero_forall. Qed.

Lemma no_zero_take n l : no_zero l -> no_zero (take n l).
Proof.
  intros H Hin. apply H. apply (elem_of_take _ _ _) in Hin as (i & Hi & _).
  by eapply list_elem_of_lookup_2.
Qed.

Lemma cstr_put_name e name : length name = DIRSIZ -> no_zero e -> cstr (put_name e name) = take DIRSIZ e.
Proof.
  intros Hn He. destruct (put_name_spec e name Hn) as [_ [r Hr]]. rewrite <- cstr_app_zero, Hr.
  apply cstr_up_to_zero, no_zero_forall. by apply no_zero_take.
Qed.

Lemma cstr_strncpy e : no_zero e -> cstr (strncpy_bytes e DIRSIZ) = take DIRSIZ e.
Proof.
  intros He. unfold strncpy_bytes. rewrite (cstr_nonzeros (take DIRSIZ e)) by (by apply no_zero_take).
  assert (length (take DIRSIZ e) <= DIRSIZ)%nat as Hl by (rewrite length_take; lia).
  rewrite take_app_ge, take_replicate by done.
  rewrite <- cstr_app_zero, <- app_assoc, Nat.min_l, <- replicate_cons_app by lia.
  apply cstr_up_to_zero, no_zero_forall. by apply no_zero_take.
Qed.

(** ** Opening a file of the root by its name *)

(** The calls that open and read make in the file system. *)
Definition read_by_name `{Devices} (e : list Z) : Fs (Z * list Z) :=
  o ← namei (slash :: e ++ [0]);
  ilock o ;;
  i ← lift_opt "ip" o;
  ip ← geti i;
  readi i 0 (i_size ip).

Section Open.
Context `{Devices} (f : fsys) (V : list block) (root file : inode) (inum : Z) (n j : nat) (e : list Z).
Hypothesis Ht : txn (st f) V ∅ [].
Hypothesis Hlk : icache_lock f = false.
Hypothesis Hcache : icache f = unused NINODE.
Hypothesis Hroot : ilocked V (sb f) ROOTINO = Some root.
Hypothesis Hlink : i_nlink root <> 0.
Hypothesis Hdir : dir_ok V root n.
Hypothesis Hj : (j < n)%nat.
Hypothesis He : good_elem e.
Hypothesis Hname : entry_is V root (put_name e (replicate DIRSIZ 0)) j = true.
Hypothesis Hfirst : forall k, (k < j)%nat -> entry_is V root (put_name e (replicate DIRSIZ 0)) k = false.
Hypothesis Hinum : entry_inum V root j = inum.
Hypothesis Hne : inum <> ROOTINO.
Hypothesis Hfile : ilocked V (sb f) inum = Some file.
Hypothesis Hok : file_ok V file (i_size file).
Hypothesis Htype : i_type file <> 0.
Hypothesis Hsize : 0 <= i_size file.

Let p : Z := me (st f).

Lemma ilocked_fields sb0 i jp : ilocked V sb0 i = Some jp ->
  i_dev jp = 1 /\ i_inum jp = i /\ i_ref jp = 1 /\ i_lock jp = None.
Proof using Type.
  unfold ilocked. destruct (V !! _) as [d|]; [|done]. cbn. destruct (get_dinode _ d); [|done].
  by intros [= <-].
Qed.

Lemma root_lookup f1 :
  txn (st f1) V ∅ [] -> icache f1 = held p 1 root :: unused (pred NINODE) -> icache_lock f1 = false ->
  exists f2, dirlookup 0 (put_name e (replicate DIRSIZ 0)) f1 = Ok (Some (1%nat, 16 * Z.of_nat j), f2) /\
    txn (st f2) V ∅ [] /\ stays (st f1) (st f2) /\ sb f2 = sb f1 /\ icache_lock f2 = false /\
    icache f2 = held p 1 root :: fresh 1 inum :: unused 48.
Proof using All.
  intros T1 C1 L1. set (R := held p 1 root) in *.
  destruct (ilocked_fields _ _ _ Hroot) as (Hrd & Hri & _).
  assert (dir_ok V R n) as HdR by (destruct Hdir as [[] ? ?]; split; [split|..]; assumption).
  assert (length (put_name e (replicate DIRSIZ 0)) = DIRSIZ) as Hnl
    by (apply put_name_spec; by rewrite length_replicate).
  destruct (dirlookup_run V [] 0 R n _ HdR ltac:(cbn; unfold NBUF; lia) Hnl f1 T1) as (f2 & Q & T2 & Hrun).
  { by rewrite C1. }
  pose proof (find_seq (entry_is V R (put_name e (replicate DIRSIZ 0))) 0 n) as Hf.
  destruct (find _ _) as [k|]; last first.
  { exfalso. specialize (Hf j ltac:(lia)). change (entry_is V R) with (entry_is V root) in Hf. congruence. }
  destruct Hf as (Hk & Hek & Hbefore & _). change (entry_is V R) with (entry_is V root) in *.
  assert (k = j) as ->.
  { destruct (Nat.lt_trichotomy k j) as [Hlt|[->|Hgt]]; [|done|].
    - rewrite (Hfirst k Hlt) in Hek. done.
    - specialize (Hbefore j ltac:(lia)). congruence. }
  change (entry_inum V R j) with (entry_inum V root j) in Hrun. rewrite Hinum in Hrun.
  rewrite (bind_ok _ _ _ _ _ (iget_fresh f2 [R] 48 1 inum ltac:(by rewrite (q_lock _ _ Q))
    ltac:(by rewrite (q_icache _ _ Q), C1)
    ltac:(constructor; [|done]; split; [done|]; unfold holds_inode, R; cbn;
      rewrite Hri, (proj2 (Z.eqb_neq ROOTINO inum)) by done; apply andb_false_r))) in Hrun.
  eexists. split; [exact Hrun|]. split_and!; [done|apply Q|apply Q|by rewrite <- L1; apply Q|done].
Qed.

Lemma root_elements : elements (slash :: e) = [e].
Proof using He.
  unfold elements. cbn [elements_from]. rewrite Z.eqb_refl. exact (elements_one e He).
Qed.

Lemma walk_root_run :
  let f1 := set_icache (fresh ROOTDEV ROOTINO :: unused 49) f in
  exists nm f', walk [e] false (replicate DIRSIZ 0) 0 f1 = Ok ((Some 1%nat, nm), f') /\ txn (st f') V ∅ [] /\
    sb f' = sb f /\ icache f' = set_ref 0 root :: fresh 1 inum :: unused 48.
Proof using All.
  intros f1. destruct (ilocked_fields _ _ _ Hroot) as (_ & _ & _ & Hrl). cbn [walk].
  destruct (ilock_load f1 V [] 0 (fresh ROOTDEV ROOTINO) root Ht ltac:(cbn; unfold NBUF; lia) eq_refl
    eq_refl ltac:(cbn; lia) eq_refl eq_refl Hroot) as (f2 & R2 & T2 & S2 & C2 & B2 & L2).
  { by rewrite (do_type _ _ _ Hdir). }
  rewrite (bind_ok _ _ _ _ _ R2). change (icache f2 = held p 1 root :: unused 49) in C2.
  assert (icache f2 !! 0%nat = Some (held p 1 root)) as H2 by (by rewrite C2).
  rewrite (bind_ok _ _ _ _ _ (geti_run f2 0 _ H2)). change (i_type (held p 1 root)) with (i_type root).
  rewrite (do_type _ _ _ Hdir). change (T_DIR =? T_DIR) with true. cbn [negb andb].
  destruct (root_lookup f2 T2 C2 ltac:(by rewrite L2)) as (f3 & R3 & T3 & S3 & B3 & L3 & C3).
  rewrite (bind_ok _ _ _ _ _ R3). cbv beta iota.
  assert (me (st f3) = p) as Hme by (by rewrite (sy_me _ _ S3), (sy_me _ _ S2)).
  assert (icache f3 !! 0%nat = Some (taken (me (st f3)) (set_ref 0 root))) as H3 by (by rewrite C3, Hme).
  rewrite (bind_ok _ _ _ _ _ (close_entry f3 0 _ H3 L3 Hrl Hlink ltac:(cbn; lia))), C3.
  eexists _, _. split; [reflexivity|]. split_and!; [exact T3| |done].
  cbn [sb set_icache]. by rewrite B3, B2.
Qed.

Lemma namei_run :
  exists f', namei (slash :: e ++ [0]) f = Ok (Some 1%nat, f') /\ txn (st f') V ∅ [] /\
    sb f' = sb f /\ icache f' = set_ref 0 root :: fresh 1 inum :: unused 48.
Proof using All.
  destruct walk_root_run as (nm & f' & R & Hf'). exists f'. split; [|exact Hf'].
  set (f1 := set_icache _ f) in R. unfold namei.
  assert (namex (slash :: e ++ [0]) false (replicate DIRSIZ 0) f = walk [e] false (replicate DIRSIZ 0) 0 f1)
    as Hw; [|rewrite R in Hw; by rewrite (bind_ok _ _ _ _ _ Hw)].
  unfold namex. cbn [head]. rewrite bind_lift_Some, Z.eqb_refl.
  rewrite (bind_ok _ _ _ _ _ (iget_fresh f [] 49 ROOTDEV ROOTINO Hlk Hcache (Forall_nil_2 _))).
  cbn [app length]. fold f1. change (slash :: e ++ [0]) with ((slash :: e) ++ 0 :: []).
  rewrite namex_loop_run; [by rewrite root_elements| |rewrite root_elements, length_app; cbn; lia].
  apply no_zero_cons. split; [done|apply He].
Qed.

(** Opened by its name, the file is read to its end. *)
Lemma open_and_read :
  exists f', read_by_name e f = Ok ((i_size file, file_bytes V file 0 (i_size file)), f').
Proof using All.
  destruct namei_run as (f1 & R1 & T1 & B1 & C1). unfold read_by_name. rewrite (bind_ok _ _ _ _ _ R1).
  assert (icache f1 !! 1%nat = Some (fresh 1 inum)) as H1 by (by rewrite C1).
  destruct (ilock_load f1 V [] 1 (fresh 1 inum) file T1 ltac:(cbn; unfold NBUF; lia) H1 eq_refl
    ltac:(cbn; lia) eq_refl eq_refl ltac:(by rewrite B1) Htype) as (f2 & R2 & T2 & S2 & C2 & _ & _).
  rewrite (bind_ok _ _ _ _ _ R2), bind_lift_Some. set (F := held _ _ file) in C2.
  assert (icache f2 !! 1%nat = Some F) as H2 by (by rewrite C2, C1).
  rewrite (bind_ok _ _ _ _ _ (geti_run f2 1 _ H2)). change (i_size F) with (i_size file).
  assert (file_ok V F (i_size F)) as HokF by (destruct Hok; split; assumption).
  pose proof (fo_max _ _ _ Hok) as Hmax. change (MAXFILE * 512) with 71680 in Hmax.
  destruct (readi_run V [] 1 F f2 0 (i_size file) T2 H2 HokF) as (f3 & R3 & _);
    [cbn; unfold NBUF; lia|change (i_size F) with (i_size file); lia|lia|lia|].
  rewrite Z.sub_0_r in R3. change (i_size F) with (i_size file) in R3. rewrite Z.min_id in R3. by exists f3.
Qed.
End Open.

(** ** From the builder to the kernel *)

Lemma image_boots s g V p fuel others :
  finished s g V -> V !! 2%nat = Some zeroes ->
  exists s1 s2 hd, boot (power_on p V) = Ok (tt, s1) /\ begin_op fuel others s1 = Ok (tt, s2) /\
    length hd = BSIZE /\ txn s2 (<[2%nat := hd]> V) ∅ [].
Proof.
  intros Hfin Hlog. pose proof (dk_len _ _ (fn_disk _ _ _ Hfin)) as Hlen.
  set (l := Log 2 30 1 0 false 0 []).
  destruct (boot_idle p V l []) as (hd & s1 & R1 & [Hl _] & Hi & Hm & _).
  - rewrite Hlen. split; cbn; unfold LOGSIZE, FSSIZE; lia.
  - split; [constructor|by intros b ?%elem_of_nil|done].
  - exists super_block, mk_sb. split; [apply Hfin|]. split; [vm_compute; reflexivity|done].
  - cbn [log_start l]. rewrite (list_lookup_total_correct _ _ _ Hlog).
    split; [done|]. split; [vm_compute; reflexivity|done].
  - destruct (begin_op_run fuel others s1 Hi) as (s2 & R2 & T2 & _).
    exists s1, s2, hd. split_and!; [done..|]. cbn in Hm. unfold dput in Hm. cbn in Hm. by rewrite <- Hm.
Qed.

Lemma entry_is_name V ip j e nm :
  no_zero e -> no_zero nm -> entry_inum V ip j <> 0 -> entry_name V ip j = strncpy_bytes nm DIRSIZ ->
  entry_is V ip (put_name e (replicate DIRSIZ 0)) j = bool_decide (take DIRSIZ e = take DIRSIZ nm).
Proof.
  intros He Hnm Hi Hn. unfold entry_is. rewrite (proj2 (Z.eqb_neq _ _) Hi), Hn.
  rewrite cstr_put_name, cstr_strncpy by (done || apply length_replicate). done.
Qed.

Section Kernel.
Context `{Host} `{Devices} (prog image : list Z) (args contents : list (list Z)).
Hypothesis Hcreate : host_create image = true.
Hypothesis Hreads : Forall2 reads_as args contents.
Hypothesis Hargs : (length args <= 198)%nat.
Hypothesis Hmax : Forall (fun c => Z.of_nat (length c) <= 512 * MAXFILE) contents.
Hypothesis Hroom : nmeta + ftotal ((T_DIR, root_bytes (dots ++ numbered 2 args)) ::
  map (pair T_FILE) contents) <= 1000.
Let es := dots ++ numbered 2 args.
Hypothesis Hblock : (length es mod 32 <> 0)%nat.
Hypothesis Hnames : Forall (fun e => no_zero e.2) es.

Context (k : nat) (e c : list Z).
Hypothesis Hentry : es !! (2 + k)%nat = Some (2 + Z.of_nat k, e).
Hypothesis Hcontent : contents !! k = Some c.
Hypothesis Hgood : good_elem e.
Hypothesis Hfirst : forall j e', (j < 2 + k)%nat -> es !! j = Some e' -> take DIRSIZ e'.2 <> take DIRSIZ e.

(** C14. A kernel that is started from the disk mkfs has built, opens a file by its name in the
    root directory and reads it to the end, gets the bytes that the file had on the host.
    The name is not that of an earlier entry, and the entries of the root do not end with a
    block, where mkfs gives the root a size that it does not have. *)
Theorem kernel_reads_what_mkfs_wrote p fuel others wd :
  exists s0 sb0 s1 s2 f', main (prog :: image :: args) mk_start = Ok (tt, s0) /\
    read_sb (img s0 !!! 1%nat) = Some sb0 /\
    boot (power_on p (img s0)) = Ok (tt, s1) /\ begin_op fuel others s1 = Ok (tt, s2) /\
    read_by_name e (Fsys s2 sb0 false (replicate NINODE inode_zero) wd) =
      Ok ((Z.of_nat (length c), c), f').
Proof using All.
  destruct (main_run prog image args contents Hcreate Hreads Hargs Hmax Hroom) as
    (s & nodes & g0 & V & R & Him & Hg0 & Hfin & Hlog & Hmap). fold es in Hmap.
  destruct (image_boots s g0 V p fuel others Hfin Hlog) as (s1 & s2 & hd & R1 & R2 & Hhd & Ht).
  pose proof (finished_log _ _ _ _ Hfin Hhd) as Hfin'. set (V' := <[2%nat := hd]> V) in *.
  pose proof (Forall2_length _ _ _ Hreads) as Hlen. symmetry in Hlen.
  destruct (built_file s nodes g0 V' Him Hg0 Hfin' args contents Hmap Hlen Hargs k c Hcontent) as
    (file & Hfile & Hty & _ & Hsz & Hok & Hbytes).
  destruct (built_root s nodes g0 V' Him Hg0 Hfin' args contents Hmap Hlen Hargs) as
    (root & Hroot & _ & Hlink & _ & _ & Hes & [Hdir _] & _); [done|]. fold es in Hes, Hdir.
  set (n' := (32 * _)%nat) in Hdir.
  assert (forall j x, es !! j = Some x -> (0 < x.1) /\ entry_is V' root (put_name e (replicate DIRSIZ 0)) j =
    bool_decide (take DIRSIZ e = take DIRSIZ x.2)) as His.
  { intros j x Hx. destruct (Hes j x Hx) as [Hi Hn].
    assert (0 < x.1) as Hpos.
    { unfold es in Hx. destruct j as [|[|j]]; cbn in Hx; [by apply (inj Some) in Hx as <-..|].
      apply numbered_lookup in Hx. lia. }
    split; [done|]. apply entry_is_name; [apply Hgood| |rewrite Hi; lia|done].
    rewrite Forall_lookup in Hnames. exact (Hnames j x Hx). }
  exists (set_img V s), mk_sb, s1, s2.
  destruct (open_and_read (Fsys s2 mk_sb false (unused NINODE) wd) V' root file (2 + Z.of_nat k) n'
    (2 + k) e) as (f' & Rf);
    [exact Ht|reflexivity|reflexivity|exact Hroot|by rewrite Hlink|exact Hdir| |exact Hgood| | | | |
     exact Hfile|exact Hok| | |].
  - apply lookup_lt_Some in Hentry. pose proof (Nat.div_mod_eq (length es) 32).
    pose proof (Nat.mod_upper_bound (length es) 32 ltac:(lia)). unfold n'. lia.
  - rewrite (proj2 (His _ _ Hentry)). by apply bool_decide_true.
  - intros j Hj. pose proof (lookup_lt_Some _ _ _ Hentry) as Hl.
    destruct (lookup_lt_is_Some_2 es j) as [x Hx]; [lia|].
    rewrite (proj2 (His j x Hx)). apply bool_decide_false. intros Heq. by apply (Hfirst j x Hj Hx).
  - apply (Hes _ _ Hentry).
  - unfold ROOTINO. lia.
  - by rewrite Hty.
  - lia.
  - exists f'. split_and!; [exact R| |exact R1|exact R2|].
    + cbn [img set_img]. rewrite (list_lookup_total_correct _ _ super_block) by apply Hfin.
      vm_compute. reflexivity.
    + rewrite Hsz in Rf. rewrite Hsz in Hbytes. rewrite Hbytes in Rf. exact Rf.
Qed.
End Kernel.

#[local] Instance no_devices : Devices := {| dev_read _ := None; dev_write _ := None |}.

Lemma kernel_reads_what_mkfs_wrote_witness :
  exists s0 sb0 s1 s2 f', @main two_files [[109]; [105]; [95; 97]; [98]] mk_start = Ok (tt, s0) /\
    read_sb (img s0 !!! 1%nat) = Some sb0 /\
    boot (power_on 7 (img s0)) = Ok (tt, s1) /\ begin_op 1 id s1 = Ok (tt, s2) /\
    read_by_name [98] (Fsys s2 sb0 false (replicate NINODE inode_zero) 0) = Ok ((2, [104; 105]), f').
Proof.
  apply (@kernel_reads_what_mkfs_wrote two_files no_devices [109] [105] [[95; 97]; [98]]
    [replicate (13 * 512) 7 ++ [1; 2; 3]; [104; 105]]) with (k := 1%nat) (c := [104; 105]).
  - reflexivity.
  - constructor; [|constructor; [|constructor]].
    + split; [reflexivity|]. eexists. split; [reflexivity|]. split; [|vm_compute; reflexivity].
      repeat (constructor; [done|]). constructor.
    + split; [reflexivity|]. eexists. split; [reflexivity|]. split; [|reflexivity].
      repeat (constructor; [done|]). constructor.
  - cbn. lia.
  - repeat constructor; vm_compute; discriminate.
  - vm_compute. discriminate.
  - vm_compute. discriminate.
  - repeat (constructor; [by apply no_zero_dec|]). constructor.
  - reflexivity.
  - reflexivity.
  - by apply good_elem_dec.
  - intros [|[|[|j]]] e' Hj He'; cbn in He'; try lia; apply (inj Some) in He' as <-; vm_compute; discriminate.
Defined.
