(* ===== verification/Console.v ===== *)
(** * The console

    [lab-2/console.c]: formatted output, the screen, and the input with its line editing.
    The serial line is there, and is the list of the bytes sent to it; the screen is the memory at
    [crt] and the cursor position the CRT ports hold. *)

From S2P Require Import Prelude.
From Stdlib Require Import Ascii.

Definition BACKSPACE : Z := 0x100.
Definition INPUT_BUF : Z := 128.
Definition ctrl (x : Z) : Z := x - 64.
Definition w16 (x : Z) : Z := x mod 2 ^ 16.

Record console := Console {
  clock : bool;
  locking : bool;
  panicked : bool;
  serial : list Z;
  crt : list Z;
  cursor : Z;
  ibuf : list Z;
  ir : Z;
  iw : Z;
  ie : Z;
  ready : nat
}.

Definition set_clock v c := Console v (locking c) (panicked c) (serial c) (crt c) (cursor c) (ibuf c)
  (ir c) (iw c) (ie c) (ready c).
Definition set_locking v c := Console (clock c) v (panicked c) (serial c) (crt c) (cursor c) (ibuf c)
  (ir c) (iw c) (ie c) (ready c).
Definition set_serial v c := Console (clock c) (locking c) (panicked c) v (crt c) (cursor c) (ibuf c)
  (ir c) (iw c) (ie c) (ready c).
Definition set_crt v c := Console (clock c) (locking c) (panicked c) (serial c) v (cursor c) (ibuf c)
  (ir c) (iw c) (ie c) (ready c).
Definition set_cursor v c := Console (clock c) (locking c) (panicked c) (serial c) (crt c) v (ibuf c)
  (ir c) (iw c) (ie c) (ready c).
Definition set_ibuf v c := Console (clock c) (locking c) (panicked c) (serial c) (crt c) (cursor c) v
  (ir c) (iw c) (ie c) (ready c).
Definition set_ir v c := Console (clock c) (locking c) (panicked c) (serial c) (crt c) (cursor c) (ibuf c)
  v (iw c) (ie c) (ready c).
Definition set_iw v c := Console (clock c) (locking c) (panicked c) (serial c) (crt c) (cursor c) (ibuf c)
  (ir c) v (ie c) (ready c).
Definition set_ie v c := Console (clock c) (locking c) (panicked c) (serial c) (crt c) (cursor c) (ibuf c)
  (ir c) (iw c) v (ready c).
(** [wakeup(&input.r)]: [ready] counts the wakeups. *)
Definition add_ready c := Console (clock c) (locking c) (panicked c) (serial c) (crt c) (cursor c) (ibuf c)
  (ir c) (iw c) (ie c) (S (ready c)).

Abbreviation Co := (M console).

Definition acquire_cons : Co unit :=
  c ← get; if clock c then panic "acquire" else put (set_clock true c).
Definition release_cons : Co unit :=
  c ← get; if clock c then put (set_clock false c) else panic "release".

(** ** Output *)

Definition uartputc (c : Z) : Co unit := modify (fun s => set_serial (serial s ++ [c mod 256]) s).

Definition set_cell (i v : Z) : Co unit :=
  s ← get; l ← lift_opt "crt" (zinsert i v (crt s)); put (set_crt l s).

(** A blank, and a character, white on black. *)
Definition cell (c : Z) : Z := Z.lor (Z.land c 0xff) 0x0700.

(** [memmove(crt, crt+80, ...)] of 23 rows and [memset] up to the end of row 24. *)
Definition scroll (pos : Z) : Co unit :=
  s ← get;
  put (set_crt (take (Z.to_nat pos) (take (23 * 80) (drop 80 (crt s)) ++ drop (23 * 80) (crt s))
    ++ replicate (24 * 80 - Z.to_nat pos) 0 ++ drop (24 * 80) (crt s)) s).

Definition cgaputc (c : Z) : Co unit :=
  pos ← gets cursor;
  pos ← (if c =? 10 then mret (pos + (80 - pos mod 80))
         else if c =? BACKSPACE then mret (if 0 <? pos then pos - 1 else pos)
         else set_cell pos (cell c) ;; mret (pos + 1));
  if (pos <? 0) || (25 * 80 <? pos) then panic "pos under/overflow"
  else
    pos ← (if 24 <=? pos / 80 then scroll (pos - 80) ;; mret (pos - 80) else mret pos);
    modify (set_cursor (w16 pos)) ;;
    set_cell pos (cell 32).

Definition consputc (c : Z) : Co unit :=
  p ← gets panicked;
  if p : bool then diverge
  else
    (if c =? BACKSPACE then uartputc 8 ;; uartputc 32 ;; uartputc 8 else uartputc c) ;;
    cgaputc c.

(** The digits of [printint], the last first. *)
Definition digit (d : Z) : Z := if d <? 10 then 48 + d else 87 + d.
Fixpoint digits_loop (fuel : nat) (x base : Z) : list Z :=
  match fuel with
  | O => []
  | S fuel' =>
      digit (x mod base) :: (if x / base =? 0 then [] else digits_loop fuel' (x / base) base)
  end.

(** [buf] has 16 bytes; a value has at most 32 digits in base 2 and 10 in base 10. *)
Definition printint (xx base : Z) (sign : bool) : Co unit :=
  let neg := sign && (xx <? 0) in
  let x := if neg then w32 (- xx) else w32 xx in
  let buf := digits_loop 32 x base ++ (if neg then [45] else []) in
  if (16 <? length buf)%nat then fault "buf" else for_each (rev buf) consputc.

Inductive arg := Aint (v : Z) | Astr (s : option (list Z)).

Definition null_string : list Z := [40; 110; 117; 108; 108; 41].

(** [cprintf] from the format [fmt] on. *)
Fixpoint format (fmt : list Z) (argp : list arg) : Co unit :=
  match fmt with
  | [] => mret tt
  | c :: fmt1 =>
      if negb (c =? 37) then consputc c ;; format fmt1 argp
      else
        match fmt1 with
        | [] => mret tt
        | c :: fmt2 =>
            if c =? 100 then
              match argp with
              | Aint v :: argp' => printint (i32 v) 10 true ;; format fmt2 argp'
              | _ => fault "argp"
              end
            else if (c =? 120) || (c =? 112) then
              match argp with
              | Aint v :: argp' => printint (i32 v) 16 false ;; format fmt2 argp'
              | _ => fault "argp"
              end
            else if c =? 115 then
              match argp with
              | Astr s :: argp' => for_each (default null_string s) consputc ;; format fmt2 argp'
              | _ => fault "argp"
              end
            else if c =? 37 then consputc 37 ;; format fmt2 argp
            else consputc 37 ;; consputc c ;; format fmt2 argp
        end
  end.

Definition cprintf (fmt : option (list Z)) (argp : list arg) : Co unit :=
  locked ← gets locking;
  when locked acquire_cons ;;
  match fmt with
  | None => panic "null fmt"
  | Some fmt => format fmt argp ;; when locked release_cons
  end.

(** ** Input *)

(** Kill line. *)
Fixpoint kill_loop (fuel : nat) : Co unit :=
  match fuel with
  | O => diverge
  | S fuel' =>
      c ← get;
      if ie c =? iw c then mret tt
      else
        x ← lift_opt "input.buf" (zlookup (ibuf c) (w32 (ie c - 1) mod INPUT_BUF));
        if x =? 10 then mret tt
        else
          modify (set_ie (w32 (ie c - 1))) ;;
          consputc BACKSPACE ;;
          kill_loop fuel'
  end.

(** One character of [consoleintr]; [true] for [doprocdump]. *)
Definition intr_char (x : Z) : Co bool :=
  if x =? ctrl 80 then mret true
  else if x =? ctrl 85 then kill_loop (S (Z.to_nat INPUT_BUF)) ;; mret false
  else if (x =? ctrl 72) || (x =? 127) then
    c ← get;
    when (negb (ie c =? iw c)) (modify (set_ie (w32 (ie c - 1))) ;; consputc BACKSPACE) ;;
    mret false
  else
    c ← get;
    when (negb (x =? 0) && (w32 (ie c - ir c) <? INPUT_BUF))
      (let x := if x =? 13 then 10 else x in
       l ← lift_opt "input.buf" (zinsert (ie c mod INPUT_BUF) x (ibuf c));
       modify (set_ibuf l) ;;
       modify (set_ie (w32 (ie c + 1))) ;;
       consputc x ;;
       c ← get;
       when ((x =? 10) || (x =? ctrl 68) || (ie c =? w32 (ir c + INPUT_BUF)))
         (modify (set_iw (ie c)) ;; modify add_ready)) ;;
    mret false.

(** The characters [getc] returns before it returns a negative value. *)
Fixpoint intr_loop (typed : list Z) (dump : bool) : Co bool :=
  match typed with
  | [] => mret dump
  | x :: typed' => d ← intr_char x; intr_loop typed' (dump || d)
  end.

(** Returns whether [procdump] is called in the end. *)
Definition consoleintr (typed : list Z) : Co bool :=
  acquire_cons ;;
  dump ← intr_loop typed false;
  release_cons ;;
  mret dump.

(** [consoleread] from the test of the outer loop on, with the bytes read so far; it
    returns, or sleeps and is resumed with them. *)
Inductive cresult := CReturn (r : Z) (l : list Z) | CSleep (l : list Z).

Fixpoint cread_loop (killed : bool) (n : nat) (l : list Z) : Co cresult :=
  match n with
  | O => release_cons ;; mret (CReturn (Z.of_nat (length l)) l)
  | S n' =>
      c ← get;
      if ir c =? iw c then
        if killed then release_cons ;; mret (CReturn (-1) l)
        else release_cons ;; mret (CSleep l)
      else
        x ← lift_opt "input.buf" (zlookup (ibuf c) (ir c mod INPUT_BUF));
        modify (set_ir (w32 (ir c + 1))) ;;
        if x =? ctrl 68 then
          when (negb (bool_decide (l = []))) (modify (fun c => set_ir (w32 (ir c - 1)) c)) ;;
          release_cons ;;
          mret (CReturn (Z.of_nat (length l)) l)
        else if x =? 10 then release_cons ;; mret (CReturn (Z.of_nat (length l) + 1) (l ++ [x]))
        else cread_loop killed n' (l ++ [x])
  end.

(** A call for [n] bytes that has [l] already; the inode is unlocked around it. *)
Definition consoleread (killed : bool) (n : Z) (l : list Z) : Co cresult :=
  acquire_cons ;; cread_loop killed (Z.to_nat n - length l) l.

Definition consolewrite (buf : list Z) : Co Z :=
  acquire_cons ;;
  for_each buf (fun c => consputc (Z.land c 0xff)) ;;
  release_cons ;;
  mret (Z.of_nat (length buf)).

Definition consoleinit : Co unit := modify (set_clock false) ;; modify (set_locking true).
