(* ===== verification/ConsoleSpec.v ===== *)
(** * The console as an editor of lines

    The input of the console is a queue of bytes that can be read and a line that is being
    edited; the screen is printed to without end. *)

From S2P Require Import Prelude Console.

(** ** The screen *)

(** The cursor is on one of the first 24 rows, and the memory of the screen goes beyond
    them. *)
Record screen_ok (c : console) : Prop := ScreenOk {
  sk_crt : (25 * 80 < length (crt c))%nat;
  sk_cursor : 0 <= cursor c < 24 * 80;
  sk_alive : panicked c = false
}.

(** The console but its output. *)
Definition same_input (c c' : console) : Prop :=
  clock c' = clock c /\ locking c' = locking c /\ ibuf c' = ibuf c /\ ir c' = ir c /\ iw c' = iw c /\
  ie c' = ie c /\ ready c' = ready c.

Lemma set_cell_run i v c : 0 <= i -> (Z.to_nat i < length (crt c))%nat ->
  set_cell i v c = Ok (tt, set_crt (<[Z.to_nat i := v]> (crt c)) c).
Proof.
  intros Hi Hl. unfold set_cell. rewrite bind_get. rewrite <- (Z2Nat.id i) at 1 by lia.
  by rewrite zinsert_nat, bind_lift_Some.
Qed.

Lemma cgaputc_run x c : screen_ok c -> exists c', cgaputc x c = Ok (tt, c') /\ screen_ok c' /\ same_input c c'.
Proof.
  intros [Hl Hc Ha]. unfold cgaputc. rewrite bind_gets.
  assert (exists pos c1, (if x =? 10 then mret (cursor c + (80 - cursor c mod 80))
         else if x =? BACKSPACE then mret (if 0 <? cursor c then cursor c - 1 else cursor c)
         else set_cell (cursor c) (cell x) ;; mret (cursor c + 1)) c = Ok (pos, c1) /\
      0 <= pos <= 24 * 80 /\ length (crt c1) = length (crt c) /\ same_input c c1 /\ panicked c1 = false)
    as (pos & c1 & R & Hp & Hl1 & Hs & Ha1).
  { destruct (x =? 10); [|destruct (x =? BACKSPACE)].
    - eexists _, c. split; [reflexivity|]. split; [Z.div_mod_to_equations; lia|by repeat split].
    - eexists _, c. split; [reflexivity|]. split; [destruct (Z.ltb_spec 0 (cursor c)); lia|by repeat split].
    - eexists _, (set_crt _ c). split; [by rewrite (bind_ok _ _ _ _ _ (set_cell_run (cursor c) (cell x) c ltac:(lia) ltac:(lia)))|].
      split; [lia|]. split; [apply length_insert|by repeat split]. }
  rewrite (bind_ok _ _ _ _ _ R). destruct (Z.ltb_spec pos 0), (Z.ltb_spec (25 * 80) pos); try lia. cbn [orb].
  assert (exists pos' c2, (if 24 <=? pos / 80 then scroll (pos - 80) ;; mret (pos - 80) else mret pos) c1 = Ok (pos', c2) /\
      0 <= pos' < 24 * 80 /\ (25 * 80 < length (crt c2))%nat /\ same_input c1 c2 /\ panicked c2 = false)
    as (pos' & c2 & R2 & Hp2 & Hl2 & Hs2 & Ha2).
  { destruct (Z.leb_spec 24 (pos / 80)) as [Hge|Hlt].
    - eexists _, (set_crt _ c1). split; [reflexivity|]. assert (pos = 24 * 80) as -> by (Z.div_mod_to_equations; lia).
      split; [lia|]. split; [|by repeat split]. cbn [crt set_crt]. rewrite !length_app, !length_take, !length_app,
        length_take, !length_drop, length_replicate. lia.
    - exists pos, c1. split; [done|]. split; [split; [lia|]; Z.div_mod_to_equations; lia|]. split; [lia|by repeat split]. }
  rewrite (bind_ok _ _ _ _ _ R2), bind_modify. unfold w16. rewrite Z.mod_small by lia.
  rewrite set_cell_run by (cbn; lia). eexists. split; [reflexivity|]. split.
  - split; cbn; [rewrite length_insert; lia|lia|done].
  - unfold same_input in *. cbn. intuition congruence.
Qed.

Lemma consputc_run x c : screen_ok c -> exists c', consputc x c = Ok (tt, c') /\ screen_ok c' /\ same_input c c'.
Proof.
  intros Hs. unfold consputc. rewrite bind_gets, (sk_alive _ Hs).
  assert (exists l, (if x =? BACKSPACE then uartputc 8 ;; uartputc 32 ;; uartputc 8 else uartputc x) c =
    Ok (tt, set_serial l c)) as [l R].
  { unfold uartputc. destruct (x =? BACKSPACE); eexists; rewrite ?bind_modify; reflexivity. }
  rewrite (bind_ok _ _ _ _ _ R).
  destruct (cgaputc_run x (set_serial l c)) as (c' & R' & Hs' & Hsame); [by destruct Hs|].
  exists c'. rewrite R'. by split.
Qed.

(** ** The input *)

Definition at_ (c : console) (k : Z) : Z := default 0 (ibuf c !! Z.to_nat (k mod INPUT_BUF)).
Definition ring (c : console) (i n : Z) : list Z := at_ c <$> seqZ i n.

(** The bytes that can be read, and the line that is being edited. *)
Definition committed (c : console) : list Z := ring c (ir c) (w32 (iw c - ir c)).
Definition editing (c : console) : list Z := ring c (iw c) (w32 (ie c - iw c)).

(** The counters wrap around; there are [a] bytes to read and [b] being edited. *)
Record input_at (c : console) (a b : Z) : Prop := InputAt {
  ia_buf : Z.of_nat (length (ibuf c)) = INPUT_BUF;
  ia_ir : is_w32 (ir c);
  ia_iw : iw c = w32 (ir c + a);
  ia_ie : ie c = w32 (ir c + a + b);
  ia_read : 0 <= a;
  ia_edit : 0 <= b;
  ia_full : a + b <= INPUT_BUF
}.
Definition input_ok (c : console) : Prop := (exists a b, input_at c a b) /\ (10 ∉ editing c).

Definition edit (q : list Z * list Z) (x : Z) : list Z * list Z :=
  let '(com, ed) := q in
  if x =? ctrl 80 then (com, ed)
  else if x =? ctrl 85 then (com, [])
  else if (x =? ctrl 72) || (x =? 127) then (com, removelast ed)
  else if negb (x =? 0) && (Z.of_nat (length com + length ed) <? INPUT_BUF) then
    let x := if x =? 13 then 10 else x in
    let ed := ed ++ [x] in
    if (x =? 10) || (x =? ctrl 68) || (Z.of_nat (length com + length ed) =? INPUT_BUF)
    then (com ++ ed, []) else (com, ed)
  else (com, ed).

Lemma w32_dist x a b : 0 <= b < 2 ^ 32 -> w32 (w32 (x + a + b) - w32 (x + a)) = b.
Proof.
  unfold w32. intros Hb. rewrite <- Zminus_mod. replace (x + a + b - (x + a)) with b by lia.
  by apply Z.mod_small.
Qed.

Lemma w32_dist_ir x a : is_w32 x -> 0 <= a < 2 ^ 32 -> w32 (w32 (x + a) - x) = a.
Proof.
  unfold is_w32, w32. intros Hx Ha. rewrite Zminus_mod_idemp_l. replace (x + a - x) with a by lia.
  by apply Z.mod_small.
Qed.

Lemma w32_mod_buf a : w32 a mod INPUT_BUF = a mod INPUT_BUF.
Proof. unfold w32. apply Z.mod_mod_divide. by exists (2 ^ 25). Qed.

Lemma at_wrap c k j : at_ c (w32 k + j) = at_ c (k + j).
Proof. unfold at_. by rewrite <- (Zplus_mod_idemp_l (w32 k)), w32_mod_buf, Zplus_mod_idemp_l. Qed.

Lemma ring_wrap c i n : ring c (w32 i) n = ring c i n.
Proof.
  unfold ring. rewrite <- (Z.add_0_r (w32 i)), <- (Z.add_0_r i), <- !(fmap_add_seqZ _ 0), <- !list_fmap_compose.
  apply list_fmap_ext. intros _ k _. cbn. rewrite at_wrap. f_equal. lia.
Qed.

Lemma ring_app c i m n : 0 <= m -> 0 <= n -> ring c i (m + n) = ring c i m ++ ring c (i + m) n.
Proof. intros Hm Hn. unfold ring. by rewrite seqZ_app, fmap_app. Qed.

Lemma ring_one c i : ring c i 1 = [at_ c i].
Proof. unfold ring. by rewrite seqZ_cons by lia. Qed.

Lemma ring_length c i n : 0 <= n -> Z.of_nat (length (ring c i n)) = n.
Proof. intros Hn. unfold ring. rewrite length_fmap, length_seqZ. lia. Qed.

Lemma ring_ext c c' i n : (forall k, i <= k < i + n -> at_ c' k = at_ c k) -> ring c' i n = ring c i n.
Proof.
  intros Hk. unfold ring. apply list_fmap_ext. intros j k Hj. apply Hk. apply lookup_seqZ in Hj. lia.
Qed.

Lemma input_committed c a b : input_at c a b -> committed c = ring c (ir c) a.
Proof. intros []. unfold committed. rewrite ia_iw0, w32_dist_ir; [done|done|unfold INPUT_BUF in *; lia]. Qed.

Lemma input_editing c a b : input_at c a b -> editing c = ring c (ir c + a) b.
Proof.
  intros []. unfold editing. rewrite ia_ie0, ia_iw0, w32_dist by (unfold INPUT_BUF in *; lia).
  apply ring_wrap.
Qed.

Lemma input_length c a b : input_at c a b ->
  Z.of_nat (length (committed c)) = a /\ Z.of_nat (length (editing c)) = b.
Proof.
  intros H. rewrite (input_committed c a b H), (input_editing c a b H). destruct H.
  by rewrite !ring_length.
Qed.

(** The same input, whatever the output. *)
Lemma same_input_at c c' a b : same_input c c' -> input_at c a b -> input_at c' a b.
Proof. intros (_ & _ & Hb & Hr & Hw & He & _) []. by split; rewrite ?Hb, ?Hr, ?Hw, ?He. Qed.

Lemma same_input_queues c c' : same_input c c' -> committed c' = committed c /\ editing c' = editing c.
Proof.
  intros (_ & _ & Hb & Hr & Hw & He & _). unfold committed, editing, ring, at_. by rewrite Hb, Hr, Hw, He.
Qed.

Lemma input_empty c a b : input_at c a b -> (ie c =? iw c) = (b =? 0).
Proof.
  intros []. rewrite ia_ie0, ia_iw0. destruct (Z.eqb_spec b 0) as [->|Hb].
  - rewrite Z.add_0_r. apply Z.eqb_refl.
  - apply Z.eqb_neq. intros He. apply Hb. rewrite <- (w32_dist (ir c) a b), He by (unfold INPUT_BUF in *; lia).
    by rewrite Z.sub_diag.
Qed.

Lemma input_none c a b : input_at c a b -> (ir c =? iw c) = (a =? 0).
Proof.
  intros []. rewrite ia_iw0. destruct (Z.eqb_spec a 0) as [->|Ha].
  - rewrite Z.add_0_r, w32_small by done. apply Z.eqb_refl.
  - apply Z.eqb_neq. intros He. apply Ha.
    rewrite <- (w32_dist_ir (ir c) a), <- He by (done || unfold INPUT_BUF in *; lia). by rewrite Z.sub_diag.
Qed.

Lemma buf_lookup c k : Z.of_nat (length (ibuf c)) = INPUT_BUF ->
  zlookup (ibuf c) (k mod INPUT_BUF) = Some (at_ c k).
Proof.
  intros Hl. pose proof (Z.mod_pos_bound k INPUT_BUF ltac:(done)) as Hk.
  rewrite <- (Z2Nat.id (k mod INPUT_BUF)) by lia. rewrite zlookup_nat. unfold at_.
  destruct (lookup_lt_is_Some_2 (ibuf c) (Z.to_nat (k mod INPUT_BUF))) as [x Hx]; [lia|]. by rewrite Hx.
Qed.

Lemma at_last c a b : input_at c a b -> at_ c (w32 (ie c - 1)) = at_ c (ir c + a + (b - 1)).
Proof.
  intros []. rewrite <- (Z.add_0_r (w32 _)), at_wrap, ia_ie0, Z.add_0_r. unfold Z.sub at 1. rewrite at_wrap.
  f_equal. lia.
Qed.

Lemma editing_snoc c a b : input_at c a b -> 0 < b ->
  editing c = ring c (ir c + a) (b - 1) ++ [at_ c (w32 (ie c - 1))].
Proof.
  intros H Hb. rewrite (input_editing c a b H), (at_last c a b H). replace b with (b - 1 + 1) at 1 by lia.
  rewrite ring_app by lia. by rewrite ring_one.
Qed.

(** The last character of the line is taken back. *)
Lemma erase_at c a b : input_at c a b -> 0 < b ->
  let c' := set_ie (w32 (ie c - 1)) c in
  input_at c' a (b - 1) /\ committed c' = committed c /\ editing c' = removelast (editing c).
Proof.
  intros H Hb c'. assert (input_at c' a (b - 1)) as H'.
  { destruct H. split; try done; cbn; [|lia|lia]. rewrite ia_ie0. unfold w32. rewrite Zminus_mod_idemp_l.
    f_equal. lia. }
  split; [done|]. rewrite (input_committed _ _ _ H'), (input_committed _ _ _ H), (input_editing _ _ _ H').
  rewrite (editing_snoc c a b H Hb), removelast_last. by split.
Qed.

(** A state of the input between two characters. *)
Record typing (c : console) (com ed : list Z) : Prop := Typing {
  ty_at : exists a b, input_at c a b;
  ty_com : committed c = com;
  ty_ed : editing c = ed;
  ty_line : 10 ∉ ed;
  ty_screen : screen_ok c
}.

Lemma typing_same c c' com ed : typing c com ed -> same_input c c' -> screen_ok c' -> typing c' com ed.
Proof.
  intros [(a & b & H) <- <- Hn _] Hs Hsc. destruct (same_input_queues c c' Hs) as [Hc He].
  split; [exists a, b; by eapply same_input_at|done|done|done|done].
Qed.

Lemma typing_echo c com ed x : typing c com ed ->
  exists c', consputc x c = Ok (tt, c') /\ typing c' com ed /\ same_input c c'.
Proof.
  intros H. destruct (consputc_run x c (ty_screen _ _ _ H)) as (c' & R & Hs & Hsame).
  exists c'. split; [done|]. split; [by eapply typing_same|done].
Qed.

Lemma typing_erase c com ed : typing c com ed -> ed <> [] ->
  typing (set_ie (w32 (ie c - 1)) c) com (removelast ed).
Proof.
  intros [(a & b & H) <- <- Hn Hsc] Hne. destruct (input_length _ _ _ H) as [_ Hb].
  assert (0 < b) as Hb0 by (destruct (editing c); [done|cbn in Hb; lia]).
  destruct (erase_at c a b H Hb0) as (H' & Hc' & He'). split; [by exists a, (b - 1)|done|done| |by destruct Hsc].
  rewrite (editing_snoc c a b H Hb0) in Hn |- *. rewrite removelast_last.
  intros Hin. apply Hn, elem_of_app. by left.
Qed.

Lemma typing_empty c com ed : typing c com ed -> (ie c =? iw c) = bool_decide (ed = []).
Proof.
  intros [(a & b & H) _ <- _ _]. rewrite (input_empty c a b H). destruct (input_length _ _ _ H) as [_ Hb].
  destruct (Z.eqb_spec b 0) as [->|Hne]; symmetry.
  - apply bool_decide_eq_true. destruct (editing c); [done|cbn in Hb; lia].
  - apply bool_decide_eq_false. intros He. rewrite He in Hb. cbn in Hb. lia.
Qed.

Definition keeps_lock (c c' : console) : Prop := clock c' = clock c.

Lemma kill_loop_run fuel c com ed : typing c com ed -> (length ed < fuel)%nat ->
  exists c', kill_loop fuel c = Ok (tt, c') /\ typing c' com [] /\ keeps_lock c c'.
Proof.
  revert c ed. induction fuel as [|fuel IH]; intros c ed H Hf; [lia|]. cbn [kill_loop].
  rewrite bind_get, (typing_empty _ _ _ H). case_bool_decide as He; [by exists c; subst|].
  pose proof H as [(a & b & Hi) _ Hed Hn _]. destruct (input_length _ _ _ Hi) as [_ Hb].
  assert (0 < b) as Hb0 by (rewrite Hed in Hb; destruct ed; [done|cbn in Hb; lia]).
  rewrite buf_lookup, bind_lift_Some by apply Hi.
  pose proof (editing_snoc c a b Hi Hb0) as Hsnoc. rewrite Hed in Hsnoc.
  rewrite (proj2 (Z.eqb_neq _ 10)).
  - rewrite bind_modify.
    destruct (typing_echo _ com (removelast ed) BACKSPACE (typing_erase c com ed H He)) as (c1 & R & H1 & Hs).
    rewrite (bind_ok _ _ _ _ _ R). destruct (IH c1 (removelast ed) H1) as (c2 & R2 & H2 & Hk).
    + rewrite Hsnoc in Hf |- *. rewrite removelast_last, length_app in *. cbn in Hf. lia.
    + exists c2. split; [done|]. split; [done|]. unfold keeps_lock in *. rewrite Hk. apply Hs.
  - intros Hx. apply Hn. rewrite Hsnoc, Hx, elem_of_app. right. by left.
Qed.

(** A character more at the end of the line. *)
Definition append (x : Z) (c : console) : console :=
  set_ie (w32 (ie c + 1)) (set_ibuf (<[Z.to_nat (ie c mod INPUT_BUF) := x]> (ibuf c)) c).

Lemma at_append x c k :
  Z.of_nat (length (ibuf c)) = INPUT_BUF ->
  at_ (append x c) k = if k mod INPUT_BUF =? ie c mod INPUT_BUF then x else at_ c k.
Proof.
  intros Hl. unfold at_, append. cbn. pose proof (Z.mod_pos_bound (ie c) INPUT_BUF ltac:(done)).
  pose proof (Z.mod_pos_bound k INPUT_BUF ltac:(done)). destruct (Z.eqb_spec (k mod INPUT_BUF) (ie c mod INPUT_BUF)) as [->|Hne].
  - by rewrite list_lookup_insert_eq by lia.
  - by rewrite list_lookup_insert_ne by lia.
Qed.

Lemma ring_other i k n : i <= k < n -> n - i < INPUT_BUF -> k mod INPUT_BUF <> n mod INPUT_BUF.
Proof. unfold INPUT_BUF. intros Hk Hn He. Z.div_mod_to_equations. lia. Qed.

Lemma append_at x c a b : input_at c a b -> a + b < INPUT_BUF ->
  let c' := append x c in
  input_at c' a (b + 1) /\ committed c' = committed c /\ editing c' = editing c ++ [x].
Proof.
  intros H Hab c'. assert (input_at c' a (b + 1)) as H'.
  { destruct H. split; try done; cbn; [by rewrite length_insert| |lia|lia]. rewrite ia_ie0. unfold w32.
    rewrite Zplus_mod_idemp_l. f_equal. lia. }
  split; [done|]. rewrite (input_committed _ _ _ H'), (input_committed _ _ _ H), (input_editing _ _ _ H'),
    (input_editing _ _ _ H). change (ir c') with (ir c). destruct H.
  assert (ie c mod INPUT_BUF = (ir c + a + b) mod INPUT_BUF) as He by (by rewrite ia_ie0, w32_mod_buf).
  assert (forall k, ir c <= k < ir c + a + b -> at_ c' k = at_ c k) as Hk.
  { intros k Hk. unfold c'. rewrite at_append by done. rewrite He. rewrite (proj2 (Z.eqb_neq _ _)); [done|].
    apply (ring_other (ir c)); lia. }
  split; [apply ring_ext; intros; apply Hk; lia|]. rewrite ring_app by lia. f_equal.
  - apply ring_ext. intros. apply Hk. lia.
  - rewrite ring_one. unfold c'. by rewrite at_append, He, Z.eqb_refl.
Qed.

(** The line is given to the readers. *)
Lemma commit_at c a b : input_at c a b ->
  let c' := add_ready (set_iw (ie c) c) in
  input_at c' (a + b) 0 /\ committed c' = committed c ++ editing c /\ editing c' = [].
Proof.
  intros H c'. assert (input_at c' (a + b) 0) as H'.
  { destruct H. split; try done; cbn; try lia; by rewrite ia_ie0, ?Z.add_0_r, ?Z.add_assoc. }
  split; [done|]. rewrite (input_committed _ _ _ H'), (input_committed _ _ _ H), (input_editing _ _ _ H'),
    (input_editing _ _ _ H). destruct H. split; [|done]. by apply (ring_app c').
Qed.

Lemma full_at c a b : input_at c a b -> w32 (ie c - ir c) = a + b.
Proof.
  intros []. rewrite ia_ie0, <- Z.add_assoc. apply w32_dist_ir; [done|]. unfold INPUT_BUF in *. lia.
Qed.

Lemma limit_at c a b : input_at c a b -> (ie c =? w32 (ir c + INPUT_BUF)) = (a + b =? INPUT_BUF).
Proof.
  intros H. pose proof (full_at c a b H) as Hf. destruct H. destruct (Z.eqb_spec (a + b) INPUT_BUF) as [He|Hne].
  - apply Z.eqb_eq. rewrite ia_ie0. f_equal. lia.
  - apply Z.eqb_neq. intros Hi. apply Hne. rewrite <- Hf, Hi. apply w32_dist_ir; [done|]. unfold INPUT_BUF. lia.
Qed.

(** A character that is no control character, when there is room. *)
Lemma insert_run x c com ed : typing c com ed -> x <> 13 ->
  Z.of_nat (length com + length ed) < INPUT_BUF ->
  let commit := (x =? 10) || (x =? ctrl 68) || (Z.of_nat (length com + length (ed ++ [x])) =? INPUT_BUF) in
  exists c', (consputc x ;;
      c ← get;
      when ((x =? 10) || (x =? ctrl 68) || (ie c =? w32 (ir c + INPUT_BUF)))
        (modify (set_iw (ie c)) ;; modify add_ready)) (append x c) = Ok (tt, c') /\
    typing c' (if commit then com ++ ed ++ [x] else com) (if commit then [] else ed ++ [x]) /\
    keeps_lock c c'.
Proof.
  intros [(a & b & H) <- <- Hn Hsc] Hx Hroom commit. pose proof (input_length c a b H) as [Hla Hlb].
  destruct (append_at x c a b H) as (H1 & Hc1 & He1); [lia|].
  destruct (consputc_run x (append x c)) as (c2 & R2 & Hsc2 & Hs2); [by destruct Hsc|].
  pose proof (same_input_at _ _ _ _ Hs2 H1) as H2. destruct (same_input_queues _ _ Hs2) as [Hc2 He2].
  rewrite (bind_ok _ _ _ _ _ R2), bind_get, (limit_at c2 a (b + 1) H2).
  assert ((x =? 10) || (x =? ctrl 68) || (a + (b + 1) =? INPUT_BUF) = commit) as ->.
  { unfold commit. do 2 f_equal. rewrite length_app. cbn [length]. f_equal. lia. }
  assert (clock c2 = clock c) as Hk by apply Hs2.
  destruct commit eqn:Hcommit.
  - destruct (commit_at c2 a (b + 1) H2) as (H3 & Hc3 & He3). eexists. split; [reflexivity|]. split; [|exact Hk].
    split; [by exists (a + (b + 1)), 0| |done|apply not_elem_of_nil|by destruct Hsc2].
    by rewrite Hc3, Hc2, He2, Hc1, He1.
  - exists c2. split; [done|]. split; [|exact Hk]. split; [by exists a, (b + 1)|congruence|congruence| |done].
    intros [Hin|Hin%list_elem_of_singleton]%elem_of_app; [by apply Hn|].
    unfold commit in Hcommit. rewrite <- Hin in Hcommit. discriminate.
Qed.

Lemma intr_char_run x c com ed : typing c com ed ->
  exists c', intr_char x c = Ok (x =? ctrl 80, c') /\
    typing c' (edit (com, ed) x).1 (edit (com, ed) x).2 /\ keeps_lock c c'.
Proof.
  intros H. unfold intr_char, edit.
  destruct (Z.eqb_spec x (ctrl 80)); [by exists c|].
  destruct (Z.eqb_spec x (ctrl 85)).
  { destruct (kill_loop_run (S (Z.to_nat INPUT_BUF)) c com ed H) as (c' & R & H' & Hk).
    - destruct H as [(a & b & Hi) <- <- _ _]. pose proof (input_length _ _ _ Hi). destruct Hi. lia.
    - exists c'. by rewrite (bind_ok _ _ _ _ _ R). }
  destruct ((x =? ctrl 72) || (x =? 127)).
  { rewrite bind_get, (typing_empty _ _ _ H). case_bool_decide as He; cbn [negb].
    - exists c. subst ed. by rewrite bind_when_false.
    - rewrite bind_when_true, bind_bind, bind_modify.
      destruct (typing_echo _ _ _ BACKSPACE (typing_erase c com ed H He)) as (c1 & R & H1 & Hs).
      exists c1. rewrite (bind_ok _ _ _ _ _ R). split; [done|]. split; [done|apply Hs]. }
  rewrite bind_get. pose proof H as [(a & b & Hi) Hcom Hed _ _]. rewrite (full_at c a b Hi).
  destruct (input_length _ _ _ Hi) as [Hla Hlb]. rewrite Hcom in Hla. rewrite Hed in Hlb.
  replace (a + b) with (Z.of_nat (length com + length ed)) by lia.
  destruct (negb (x =? 0) && (Z.of_nat (length com + length ed) <? INPUT_BUF)) eqn:Hroom;
    [|by exists c].
  apply andb_true_iff in Hroom as [_ Hroom%Z.ltb_lt].
  set (y := if x =? 13 then 10 else x). assert (y <> 13) as Hy by (unfold y; destruct (Z.eqb_spec x 13); done).
  destruct (insert_run y c com ed H Hy Hroom) as (c' & R & H' & Hk). cbn zeta in R, H'.
  exists c'. split.
  - rewrite bind_when_true. unfold zinsert. rewrite buf_lookup by apply Hi. rewrite bind_bind, bind_lift_Some.
    rewrite !bind_bind, bind_modify, !bind_bind, bind_modify.
    match goal with |- (_ ≫= _) ?s = _ => change s with (append y c) end.
    by rewrite (bind_ok _ _ _ _ _ R).
  - split; [|done]. fold y.
    by destruct ((y =? 10) || (y =? ctrl 68) || (Z.of_nat (length com + length (ed ++ [y])) =? INPUT_BUF)).
Qed.

Lemma intr_loop_run typed dump c com ed : typing c com ed ->
  exists c', intr_loop typed dump c = Ok (dump || bool_decide (ctrl 80 ∈ typed), c') /\
    typing c' (foldl edit (com, ed) typed).1 (foldl edit (com, ed) typed).2 /\ keeps_lock c c'.
Proof.
  revert dump c com ed. induction typed as [|x typed IH]; intros dump c com ed H; cbn [intr_loop foldl].
  - exists c. by rewrite orb_false_r.
  - destruct (intr_char_run x c com ed H) as (c1 & R & H1 & Hk). rewrite (bind_ok _ _ _ _ _ R).
    destruct (edit (com, ed) x) as [com1 ed1]. destruct (IH (dump || (x =? ctrl 80)) c1 com1 ed1 H1) as (c2 & R2 & H2 & Hk2).
    exists c2. rewrite R2. split; [|split; [done|unfold keeps_lock in *; congruence]]. do 2 f_equal.
    rewrite <- orb_assoc. f_equal. destruct (Z.eqb_spec x (ctrl 80)) as [->|Hne]; cbn [orb].
    + symmetry. apply bool_decide_eq_true. by left.
    + apply bool_decide_ext. rewrite elem_of_cons. naive_solver.
Qed.

Lemma typing_lock c com ed b : typing c com ed -> typing (set_clock b c) com ed.
Proof. intros [(a0 & b0 & []) <- <- ? []]. split; [by exists a0, b0|done|done|done|done]. Qed.

Lemma consoleintr_run typed c com ed : typing c com ed -> clock c = false ->
  exists c', consoleintr typed c = Ok (bool_decide (ctrl 80 ∈ typed), c') /\
    typing c' (foldl edit (com, ed) typed).1 (foldl edit (com, ed) typed).2 /\ clock c' = false.
Proof.
  intros H Hl. unfold consoleintr, acquire_cons. rewrite bind_bind, bind_get, Hl, bind_put.
  destruct (intr_loop_run typed false (set_clock true c) com ed (typing_lock _ _ _ _ H)) as (c' & R & H' & Hk).
  rewrite (bind_ok _ _ _ _ _ R). unfold release_cons. rewrite bind_bind, bind_get.
  unfold keeps_lock in Hk. cbn in Hk. rewrite Hk, bind_put. eexists. split; [reflexivity|].
  split; [by apply typing_lock|done].
Qed.

(** ** Reading *)

(** A read of at most [n] more bytes, with [l] so far: what it returns and what is left. *)
Fixpoint read_queue (n : nat) (l com : list Z) : cresult * list Z :=
  match n with
  | O => (CReturn (Z.of_nat (length l)) l, com)
  | S n' =>
      match com with
      | [] => (CSleep l, [])
      | x :: com' =>
          if x =? ctrl 68 then
            (CReturn (Z.of_nat (length l)) l, if bool_decide (l = []) then com' else com)
          else if x =? 10 then (CReturn (Z.of_nat (length l) + 1) (l ++ [x]), com')
          else read_queue n' (l ++ [x]) com'
      end
  end.

Lemma w32_add_l x y : w32 (w32 x + y) = w32 (x + y).
Proof. unfold w32. apply Zplus_mod_idemp_l. Qed.

(** A byte leaves the queue. *)
Lemma take_at c a b : input_at c a b -> 0 < a ->
  let c' := set_ir (w32 (ir c + 1)) c in
  input_at c' (a - 1) b /\ committed c = at_ c (ir c) :: committed c' /\ editing c' = editing c.
Proof.
  intros H Ha c'. assert (input_at c' (a - 1) b) as H'.
  { destruct H. split; try done; cbn; try lia.
    - apply w32_bounds.
    - rewrite ia_iw0, w32_add_l. f_equal. lia.
    - rewrite ia_ie0, <- (Z.add_assoc (w32 _)), w32_add_l. f_equal. lia. }
  split; [done|]. rewrite (input_committed _ _ _ H'), (input_committed _ _ _ H), (input_editing _ _ _ H'),
    (input_editing _ _ _ H). cbn [ir set_ir c']. rewrite ring_wrap.
  split.
  - replace a with (1 + (a - 1)) at 1 by lia. rewrite ring_app, ring_one by lia. done.
  - rewrite <- (ring_wrap _ (w32 _ + _)), w32_add_l, ring_wrap.
    by replace (ir c + 1 + (a - 1)) with (ir c + a) by lia.
Qed.

Lemma typing_take c x com ed : typing c (x :: com) ed ->
  at_ c (ir c) = x /\ typing (set_ir (w32 (ir c + 1)) c) com ed /\ (ir c =? iw c) = false.
Proof.
  intros [(a & b & H) Hc He Hn Hs]. destruct (input_length _ _ _ H) as [Ha _]. rewrite Hc in Ha. cbn in Ha.
  destruct (take_at c a b H) as (H' & Hc' & He'); [lia|]. rewrite Hc in Hc'. injection Hc' as Hx Hcom.
  split; [done|]. split; [|rewrite (input_none c a b H); by apply Z.eqb_neq; lia].
  split; [by exists (a - 1), b|done|congruence|done|by destruct Hs].
Qed.

Lemma cread_loop_run n l c com ed : typing c com ed -> clock c = true ->
  exists c', cread_loop false n l c = Ok ((read_queue n l com).1, c') /\
    typing c' (read_queue n l com).2 ed /\ clock c' = false.
Proof.
  revert l c com. induction n as [|n IH]; intros l c com H Hl; cbn [cread_loop read_queue].
  { unfold release_cons. rewrite bind_bind, bind_get, Hl. exists (set_clock false c).
    split; [done|]. split; [by apply typing_lock|done]. }
  rewrite bind_get. destruct com as [|x com].
  { pose proof H as [(a & b & Hi) Hc _ _ _]. destruct (input_length _ _ _ Hi) as [Ha _]. rewrite Hc in Ha.
    rewrite (input_none c a b Hi). rewrite (proj2 (Z.eqb_eq a 0)) by (cbn in Ha; lia).
    unfold release_cons. rewrite bind_bind, bind_get, Hl. exists (set_clock false c).
    split; [done|]. split; [by apply typing_lock|done]. }
  destruct (typing_take c x com ed H) as (Hx & H1 & Hne). rewrite Hne.
  pose proof H as [(a & b & Hi) _ _ _ _]. rewrite buf_lookup, bind_lift_Some, Hx, bind_modify by apply Hi.
  destruct (x =? ctrl 68).
  - destruct (bool_decide (l = [])); cbn [negb fst snd].
    + rewrite bind_when_false. unfold release_cons. rewrite bind_bind, bind_get. cbn [clock set_ir]. rewrite Hl.
      eexists. split; [reflexivity|]. split; [by apply typing_lock|done].
    + rewrite bind_when_true, bind_modify.
      assert (set_ir (w32 (w32 (ir c + 1) - 1)) (set_ir (w32 (ir c + 1)) c) = c) as Hback.
      { unfold Z.sub. rewrite w32_add_l. replace (ir c + 1 + - (1)) with (ir c) by lia.
        rewrite w32_small by apply Hi. by destruct c. }
      cbn [ir set_ir]. cbn [ir set_ir] in Hback. rewrite Hback. unfold release_cons.
      rewrite bind_bind, bind_get, Hl. exists (set_clock false c). split; [done|]. split; [by apply typing_lock|done].
  - destruct (x =? 10).
    + unfold release_cons. rewrite bind_bind, bind_get. cbn [clock set_ir]. rewrite Hl.
      eexists. split; [reflexivity|]. split; [by apply typing_lock|done].
    + by apply IH.
Qed.
