(* ===== verification/ConsoleProps.v ===== *)
(** * Properties of the console *)

From S2P Require Import Prelude Quiet Console ConsoleSpec.

(** ** Input *)

(** What happens to the input: characters are typed, which [consoleintr] handles, and a
    process reads at most [n] bytes, [l] of which it has already when it is resumed. *)
Inductive event := Typed (l : list Z) | Reads (n : Z) (l : list Z).
Inductive answer := Dumps (b : bool) | Gets (r : cresult).

Definition run_event (e : event) : M console answer :=
  match e with
  | Typed l => b ← consoleintr l; mret (Dumps b)
  | Reads n l => r ← consoleread false n l; mret (Gets r)
  end.
Fixpoint run_events (es : list event) : M console (list answer) :=
  match es with
  | [] => mret []
  | e :: es' => a ← run_event e; r ← run_events es'; mret (a :: r)
  end.

(** The same on a queue of bytes and a line. *)
Definition queue_event (q : list Z * list Z) (e : event) : answer * (list Z * list Z) :=
  match e with
  | Typed l => (Dumps (bool_decide (ctrl 80 ∈ l)), foldl edit q l)
  | Reads n l => let '(r, com) := read_queue (Z.to_nat n - length l) l q.1 in (Gets r, (com, q.2))
  end.
Fixpoint queue_events (q : list Z * list Z) (es : list event) : list answer * (list Z * list Z) :=
  match es with
  | [] => ([], q)
  | e :: es' =>
      let '(a, q1) := queue_event q e in
      let '(r, q2) := queue_events q1 es' in (a :: r, q2)
  end.

Lemma event_run e c com ed : typing c com ed -> clock c = false ->
  exists c', run_event e c = Ok ((queue_event (com, ed) e).1, c') /\
    typing c' (queue_event (com, ed) e).2.1 (queue_event (com, ed) e).2.2 /\ clock c' = false.
Proof.
  intros H Hl. destruct e as [l|n l]; cbn [run_event queue_event fst snd].
  - destruct (consoleintr_run l c com ed H Hl) as (c' & R & H' & Hl').
    exists c'. by rewrite (bind_ok _ _ _ _ _ R).
  - unfold consoleread, acquire_cons. rewrite !bind_bind, bind_get, Hl, bind_put.
    destruct (cread_loop_run (Z.to_nat n - length l) l (set_clock true c) com ed) as (c' & R & H' & Hl');
      [by apply typing_lock|done|].
    exists c'. rewrite (bind_ok _ _ _ _ _ R). by destruct (read_queue _ _ _).
Qed.

Lemma events_run es c com ed : typing c com ed -> clock c = false ->
  exists c', run_events es c = Ok ((queue_events (com, ed) es).1, c') /\
    typing c' (queue_events (com, ed) es).2.1 (queue_events (com, ed) es).2.2 /\ clock c' = false.
Proof.
  revert c com ed. induction es as [|e es IH]; intros c com ed H Hl; cbn [run_events queue_events]; [by exists c|].
  destruct (event_run e c com ed H Hl) as (c1 & R1 & H1 & Hl1). rewrite (bind_ok _ _ _ _ _ R1).
  destruct (queue_event (com, ed) e) as [a [com1 ed1]]. cbn [fst snd] in *.
  destruct (IH c1 com1 ed1 H1 Hl1) as (c2 & R2 & H2 & Hl2). rewrite (bind_ok _ _ _ _ _ R2).
  destruct (queue_events (com1, ed1) es) as [r q2]. by exists c2.
Qed.

(** C13. The input of the console is a queue of bytes with an editor of lines in front of it,
    whatever is typed and read in whatever order, also when its counters wrap around: the
    backspace takes back a character of the line that is not finished, control-U all of
    it, and a line is given to the readers when it ends or the buffer of 128 bytes is full. *)
Theorem console_is_a_line_editor es c :
  input_ok c -> screen_ok c -> clock c = false ->
  exists c', run_events es c = Ok ((queue_events (committed c, editing c) es).1, c') /\
    (committed c', editing c') = (queue_events (committed c, editing c) es).2 /\
    input_ok c' /\ screen_ok c' /\ clock c' = false.
Proof.
  intros [Hi Hn] Hs Hl.
  destruct (events_run es c (committed c) (editing c)) as (c' & R & [H1 H2 H3 H4 H5] & Hl'); [by split|done|].
  exists c'. split; [done|]. split; [by rewrite H2, H3; destruct (queue_events _ _).2|].
  split; [split; [done|by rewrite H3]|done].
Qed.

(** ** Numbers *)

(** The value of digits in a base, the first the most significant. *)
Definition digit_value (d : Z) : Z := if d <? 58 then d - 48 else d - 87.
Definition number (base : Z) (ds : list Z) : Z := foldl (fun v d => v * base + digit_value d) 0 ds.

Lemma digit_value_digit d : 0 <= d < 16 -> digit_value (digit d) = d.
Proof.
  intros Hd. unfold digit, digit_value. destruct (Z.ltb_spec d 10).
  - destruct (Z.ltb_spec (48 + d) 58); lia.
  - destruct (Z.ltb_spec (87 + d) 58); lia.
Qed.

Lemma number_snoc base ds d : number base (ds ++ [d]) = number base ds * base + digit_value d.
Proof. unfold number. by rewrite foldl_app. Qed.

(** Enough digits for a number below a power of the base. *)
Lemma digits_loop_run fuel x base k :
  2 <= base <= 16 -> 0 <= x < base ^ Z.of_nat k -> (0 < k <= fuel)%nat ->
  let ds := digits_loop fuel x base in
  number base (rev ds) = x /\ (length ds <= k)%nat /\
  (last ds = Some (digit 0) -> x = 0 /\ ds = [digit 0]).
Proof.
  intros Hb. revert x fuel. induction k as [|k IH]; intros x fuel Hx Hf; [lia|].
  destruct fuel as [|fuel]; [lia|]. cbn [digits_loop].
  assert (0 <= x mod base < base) as Hm by (apply Z.mod_pos_bound; lia).
  destruct (Z.eqb_spec (x / base) 0) as [Hq|Hq].
  - assert (x mod base = x) as Hxm by (pose proof (Z.div_mod x base ltac:(lia)); lia).
    cbn [rev app]. rewrite Hxm in *. split; [unfold number; cbn; apply digit_value_digit; lia|]. split; [cbn; lia|].
    cbn [last]. intros [= Hd]. assert (x = 0) as ->; [|done].
    rewrite <- (digit_value_digit x), Hd by lia. reflexivity.
  - assert (0 <= x / base < base ^ Z.of_nat k) as Hxd.
    { rewrite Nat2Z.inj_succ, Z.pow_succ_r in Hx by lia.
      split; [apply Z.div_pos; lia|apply Z.div_lt_upper_bound; lia]. }
    destruct k as [|k]; [cbn in Hxd; lia|].
    destruct (IH (x / base) fuel Hxd) as (Hv & Hl & Hz); [lia|]. cbn [rev length].
    rewrite number_snoc, Hv, digit_value_digit by lia. split; [pose proof (Z.div_mod x base ltac:(lia)); lia|].
    split; [lia|]. destruct (digits_loop fuel (x / base) base) eqn:Hd; [destruct fuel; [lia|done]|].
    intros Hlast. rewrite last_cons_cons in Hlast. by destruct (Hz Hlast).
Qed.

Lemma quiet_set_cell i v : quiet serial (set_cell i v).
Proof. apply quiet_get_bind. intros c. by destruct (zinsert i v (crt c)). Qed.
Lemma quiet_scroll p : quiet serial (scroll p).
Proof. by apply quiet_get_bind. Qed.
#[local] Hint Resolve quiet_set_cell quiet_scroll : quiet.
Lemma quiet_cgaputc x : quiet serial (cgaputc x).
Proof. unfold cgaputc. quiet_tac. Qed.

(** A character goes to the serial line and the screen. *)
Lemma consputc_serial x c : screen_ok c -> 0 <= x < 256 ->
  exists c', consputc x c = Ok (tt, c') /\ screen_ok c' /\ serial c' = serial c ++ [x].
Proof.
  intros Hs Hx. unfold consputc. rewrite bind_gets, (sk_alive _ Hs).
  destruct (Z.eqb_spec x BACKSPACE); [unfold BACKSPACE in *; lia|].
  unfold uartputc. rewrite bind_modify, Z.mod_small by done.
  destruct (cgaputc_run x (set_serial (serial c ++ [x]) c)) as (c' & R & Hs' & _); [by destruct Hs|].
  exists c'. split; [done|]. split; [done|]. by apply (quiet_view _ _ _ _ _ (quiet_cgaputc x) R).
Qed.

Lemma print_serial l c : screen_ok c -> Forall (fun x => 0 <= x < 256) l ->
  exists c', for_each l consputc c = Ok (tt, c') /\ screen_ok c' /\ serial c' = serial c ++ l.
Proof.
  intros Hs Hl. revert c Hs. induction Hl as [|x l Hx _ IH]; intros c Hs; cbn [for_each].
  { exists c. by rewrite app_nil_r. }
  destruct (consputc_serial x c Hs Hx) as (c1 & R1 & Hs1 & H1). rewrite (bind_ok _ _ _ _ _ R1).
  destruct (IH c1 Hs1) as (c2 & R2 & Hs2 & H2). exists c2. split; [done|]. split; [done|].
  by rewrite H2, H1, <- app_assoc.
Qed.

Lemma digits_bytes fuel x base : 2 <= base <= 16 ->
  Forall (fun d => 0 <= d < 256) (digits_loop fuel x base).
Proof.
  intros Hb. revert x. induction fuel as [|fuel IH]; intros x; [constructor|]. cbn [digits_loop].
  pose proof (Z.mod_pos_bound x base ltac:(lia)). apply Forall_cons_2.
  - unfold digit. destruct (Z.ltb_spec (x mod base) 10); lia.
  - destruct (x / base =? 0); [constructor|apply IH].
Qed.

(** [printint] in base 10 or 16 prints a numeral of the number: a sign when the number is
    signed and negative, and digits without a zero in front, from which the number can be
    read back, also for the least integer. *)
Theorem printint_prints_a_numeral xx base sign c :
  is_i32 xx -> base = 10 \/ base = 16 -> screen_ok c ->
  let neg := sign && (xx <? 0) in
  exists c' ds, printint xx base sign c = Ok (tt, c') /\ screen_ok c' /\
    serial c' = serial c ++ (if neg then [45] else []) ++ ds /\
    (if neg then - number base ds else number base ds) = (if sign then xx else w32 xx) /\
    (head ds = Some (digit 0) -> ds = [digit 0]) /\ ds <> [].
Proof.
  intros Hxx Hbase Hs neg. assert (2 <= base <= 16) as Hb by lia.
  set (x := if neg then w32 (- xx) else w32 xx).
  assert (0 <= x < base ^ Z.of_nat 10) as Hx.
  { assert (0 <= x < 2 ^ 32) as Hx by (unfold x; destruct neg; apply w32_bounds).
    destruct Hbase as [-> | ->]; cbn; lia. }
  destruct (digits_loop_run 32 x base 10 Hb Hx ltac:(lia)) as (Hv & Hl & Hz).
  set (ds := digits_loop 32 x base) in *.
  assert (ds <> []) as Hne by (unfold ds; by cbn).
  destruct (print_serial (rev (ds ++ (if neg then [45] else []))) c Hs) as (c' & R & Hs' & Hser).
  { apply Forall_rev, Forall_app_2; [by apply digits_bytes|]. destruct neg; [by apply Forall_cons_2|constructor]. }
  exists c', (rev ds). unfold printint. fold neg. fold x. fold ds.
  rewrite (proj2 (Nat.ltb_ge 16 _)) by (rewrite length_app; destruct neg; cbn [length]; lia).
  split; [done|]. split; [done|]. split; [rewrite Hser, rev_app_distr; by destruct neg|].
  split; [|split; [|by intros Hr%(f_equal (@rev Z)); rewrite rev_involutive in Hr]].
  - rewrite Hv. unfold x, neg, is_i32 in *. destruct sign; cbn [andb].
    + destruct (Z.ltb_spec xx 0); rewrite w32_small; lia.
    + done.
  - intros Hh. pose proof (head_reverse ds) as Hr. unfold reverse in Hr. rewrite <- rev_alt, Hh in Hr.
    destruct (Hz (eq_sym Hr)) as [_ Hd]. by rewrite Hd.
Qed.

(** ** Concrete runs *)

(** A console whose counters are about to wrap around. *)
Definition small_console : console :=
  Console false true false [] (replicate (Z.to_nat 2048) 0) 79 (replicate 128 0) (2 ^ 32 - 1) (2 ^ 32 - 1) (2 ^ 32 - 1) 0.

Lemma small_screen : screen_ok small_console.
Proof. split; [|cbn; lia|done]. unfold small_console. cbn [crt]. rewrite length_replicate. lia. Qed.

Lemma small_input : input_ok small_console.
Proof.
  split; [exists 0, 0|apply not_elem_of_nil].
  split; [reflexivity|split; cbn; lia|reflexivity|reflexivity|lia|lia|unfold INPUT_BUF; lia].
Qed.

(** "ab", a backspace, "c" and a newline are typed; two reads get "a" and "c". *)
Lemma console_is_a_line_editor_witness :
  exists c', run_events [Typed [97; 98; 8; 99; 13]; Reads 1 []; Reads 5 []] small_console =
      Ok ([Dumps false; Gets (CReturn 1 [97]); Gets (CReturn 2 [99; 10])], c') /\
    (committed c', editing c') = ([], []) /\ input_ok c' /\ screen_ok c' /\ clock c' = false.
Proof.
  apply (console_is_a_line_editor [Typed [97; 98; 8; 99; 13]; Reads 1 []; Reads 5 []] small_console).
  - apply small_input.
  - apply small_screen.
  - reflexivity.
Defined.

Lemma printint_prints_a_numeral_witness :
  exists c' ds, printint (- 2 ^ 31) 10 true small_console = Ok (tt, c') /\ screen_ok c' /\
    serial c' = [] ++ [45] ++ ds /\ - number 10 ds = - 2 ^ 31 /\
    (head ds = Some (digit 0) -> ds = [digit 0]) /\ ds <> [].
Proof.
  apply (printint_prints_a_numeral (- 2 ^ 31) 10 true small_console).
  - split; lia.
  - by left.
  - apply small_screen.
Defined.
