(* ===== verification/Pmap.v ===== *)
(** * Memory management of JOS

    [lab-3/kern/pmap.c] and [pmap.h], over the physical memory as pages of 32-bit words.
    A [struct PageInfo*] is its index in [pages], with [None] for the null pointer; other
    pointers are addresses.  An access to memory that is not there, or not to a whole word,
    is a fault of the model.  The array [pages] is kept apart from the pages that hold it. *)

From S2P Require Import Prelude Layout.

(** ** Constants *)

Definition KERNBASE : Z := 0xF0000000.
Definition IOPHYSMEM : Z := 0x0A0000.
Definition EXTPHYSMEM : Z := 0x100000.
Definition PTSIZE : Z := PGSIZE * 1024.
Definition N_PGSIZE : Z := 4194304.
Definition KSTACKTOP : Z := KERNBASE.
Definition KSTKSIZE : Z := 8 * PGSIZE.
Definition MMIOLIM : Z := KSTACKTOP - PTSIZE.
Definition MMIOBASE : Z := MMIOLIM - PTSIZE.
Definition ULIM : Z := MMIOBASE.
Definition UVPT : Z := ULIM - PTSIZE.
Definition UPAGES : Z := UVPT - PTSIZE.
Definition UENVS : Z := UPAGES - PTSIZE.
Definition UTOP : Z := UENVS.
Definition PTE_PS : Z := 0x080.
Definition E_NO_MEM : Z := 4.
Definition ALLOC_ZERO : Z := 1.
Definition CR4_PSE : Z := 0x10.

Definition PGNUM (la : Z) : Z := Z.shiftr la 12.
Definition N_PGOFF (la : Z) : Z := Z.land la 0x3FFFFF.
Definition PDE_ADDR (pde : Z) : Z := Z.land pde (w32 (Z.lnot 0xFFC00000)).
Definition ROUNDDOWN (a n : Z) : Z := a - a mod n.
Definition ROUNDUP (a n : Z) : Z := ROUNDDOWN (w32 (w32 (a + n) - 1)) n.

(** ** State *)

Record PageInfo := Page { pp_link : option nat; pp_ref : Z }.

(** The variables of pmap.c, physical memory (by page and word of the page; a word that is
    not listed is 0), and the translations the TLB holds (by page of the linear address). *)
Record jos := Jos {
  npages : Z;
  npages_basemem : Z;
  kern_pgdir : Z;
  pages : list PageInfo;
  page_free_list : option nat;
  fourMB_page_support : bool;
  nextfree : Z;
  pmem : gmap Z (gmap Z Z);
  tlb : gmap Z Z
}.

Definition set_npages v s :=
  Jos v (npages_basemem s) (kern_pgdir s) (pages s) (page_free_list s) (fourMB_page_support s)
    (nextfree s) (pmem s) (tlb s).
Definition set_npages_basemem v s :=
  Jos (npages s) v (kern_pgdir s) (pages s) (page_free_list s) (fourMB_page_support s)
    (nextfree s) (pmem s) (tlb s).
Definition set_kern_pgdir v s :=
  Jos (npages s) (npages_basemem s) v (pages s) (page_free_list s) (fourMB_page_support s)
    (nextfree s) (pmem s) (tlb s).
Definition set_pages v s :=
  Jos (npages s) (npages_basemem s) (kern_pgdir s) v (page_free_list s) (fourMB_page_support s)
    (nextfree s) (pmem s) (tlb s).
Definition set_page_free_list v s :=
  Jos (npages s) (npages_basemem s) (kern_pgdir s) (pages s) v (fourMB_page_support s)
    (nextfree s) (pmem s) (tlb s).
Definition set_fourMB v s :=
  Jos (npages s) (npages_basemem s) (kern_pgdir s) (pages s) (page_free_list s) v
    (nextfree s) (pmem s) (tlb s).
Definition set_nextfree v s :=
  Jos (npages s) (npages_basemem s) (kern_pgdir s) (pages s) (page_free_list s)
    (fourMB_page_support s) v (pmem s) (tlb s).
Definition set_pmem v s :=
  Jos (npages s) (npages_basemem s) (kern_pgdir s) (pages s) (page_free_list s)
    (fourMB_page_support s) (nextfree s) v (tlb s).
Definition set_tlb v s :=
  Jos (npages s) (npages_basemem s) (kern_pgdir s) (pages s) (page_free_list s)
    (fourMB_page_support s) (nextfree s) (pmem s) v.

Abbreviation Jm := (M jos).

(** ** Memory *)

(** The word [i] of the physical page [p]. *)
Definition pword (m : gmap Z (gmap Z Z)) (p i : Z) : Z := default 0 (default ∅ (m !! p) !! i).
Definition set_pword (p i x : Z) (m : gmap Z (gmap Z Z)) : gmap Z (gmap Z Z) :=
  <[p := <[i := x]> (default ∅ (m !! p))]> m.

(** The kernel address [v] is a word of memory. *)
Definition in_memory (s : jos) (v : Z) : bool :=
  (KERNBASE <=? v) && (v mod 4 =? 0) && ((v - KERNBASE) / PGSIZE <? npages s).

Definition page_of (v : Z) : Z := (v - KERNBASE) / PGSIZE.
Definition index_of (v : Z) : Z := (v - KERNBASE) mod PGSIZE / 4.

Definition ld (v : Z) : Jm Z :=
  s ← get; if in_memory s v then mret (pword (pmem s) (page_of v) (index_of v)) else fault "address".
Definition sto (v x : Z) : Jm unit :=
  s ← get;
  if in_memory s v then modify (set_pmem (set_pword (page_of v) (index_of v) (w32 x) (pmem s)))
  else fault "address".

(** [memset(v, c, n)] from the beginning of a page, of whole words in it. *)
Definition fill (p x : Z) (n : nat) (m : gmap Z (gmap Z Z)) : gmap Z (gmap Z Z) :=
  foldr (fun i => set_pword p (Z.of_nat i) x) m (seq 0 n).
Definition memset_page (v c n : Z) : Jm unit :=
  s ← get;
  if in_memory s v && (index_of v =? 0) && (n <=? PGSIZE) && (n mod 4 =? 0) then
    let x := w8 c * 0x01010101 in
    modify (set_pmem (if (n =? PGSIZE) && (x =? 0) then <[page_of v := ∅]> (pmem s)
                      else fill (page_of v) x (Z.to_nat (n / 4)) (pmem s)))
  else fault "address".

Definition info (pp : nat) : Jm PageInfo := s ← get; lift_opt "pages" (pages s !! pp).
Definition set_link (pp : nat) (l : option nat) : Jm unit :=
  i ← info pp; modify (fun s => set_pages (<[pp := Page l (pp_ref i)]> (pages s)) s).
Definition set_ref (pp : nat) (r : Z) : Jm unit :=
  i ← info pp; modify (fun s => set_pages (<[pp := Page (pp_link i) (r mod 2 ^ 16)]> (pages s)) s).

(** ** pmap.h *)

Definition PADDR (kva : Z) : Jm Z :=
  if kva <? KERNBASE then panic "PADDR called with invalid kva" else mret (w32 (kva - KERNBASE)).
Definition KADDR (pa : Z) : Jm Z :=
  n ← gets npages;
  if n <=? PGNUM pa then panic "KADDR called with invalid pa" else mret (w32 (pa + KERNBASE)).
Definition page2pa (pp : nat) : Z := w32 (Z.shiftl (Z.of_nat pp) 12).
Definition pa2page (pa : Z) : Jm nat :=
  n ← gets npages;
  if n <=? PGNUM pa then panic "pa2page called with invalid pa" else mret (Z.to_nat (PGNUM pa)).
Definition page2kva (pp : nat) : Jm Z := KADDR (page2pa pp).

(** ** Physical pages *)

Definition page_alloc (alloc_flags : Z) : Jm (option nat) :=
  l ← gets page_free_list;
  match l with
  | None => mret None
  | Some pp =>
      i ← info pp;
      modify (set_page_free_list (pp_link i)) ;;
      set_link pp None ;;
      when (negb (Z.land alloc_flags ALLOC_ZERO =? 0))
        (v ← page2kva pp; memset_page v 0 PGSIZE) ;;
      mret (Some pp)
  end.

Definition page_free (pp : nat) : Jm unit :=
  i ← info pp;
  if negb (pp_ref i =? 0) then panic "Page reference count is not zero"
  else if bool_decide (pp_link i <> None) then panic "Page link is not NULL"
  else
    l ← gets page_free_list;
    set_link pp l ;;
    modify (set_page_free_list (Some pp)).

Definition page_decref (pp : nat) : Jm unit :=
  i ← info pp;
  set_ref pp (pp_ref i - 1) ;;
  j ← info pp;
  when (pp_ref j =? 0) (page_free pp).

(** ** Page tables *)

Definition pgdir_walk (pgdir va : Z) (create : bool) : Jm Z :=
  let pde := w32 (pgdir + 4 * PDX va) in
  x ← ld pde;
  if negb (Z.land x PTE_P =? 0) then
    pte ← KADDR (PTE_ADDR x);
    mret (w32 (pte + 4 * PTX va))
  else if create then
    newPage ← page_alloc ALLOC_ZERO;
    match newPage with
    | None => mret 0
    | Some pp =>
        i ← info pp;
        set_ref pp (pp_ref i + 1) ;;
        sto pde (Z.lor (Z.lor (Z.lor (page2pa pp) PTE_P) PTE_W) PTE_U) ;;
        x ← ld pde;
        pte ← KADDR (PTE_ADDR x);
        mret (w32 (pte + 4 * PTX va))
    end
  else mret 0.

Definition boot_map_region (pgdir va size pa perm : Z) : Jm unit :=
  four ← gets fourMB_page_support;
  when (four && negb (Z.land perm PTE_PS =? 0))
    (for_each (seqZ 0 (size / N_PGSIZE)) (fun i =>
       let pte := w32 (pgdir + 4 * PDX (w32 (va + i * N_PGSIZE))) in
       if pte =? 0 then panic "boot_map_region: Failed to map region"
       else sto pte (Z.lor (Z.lor (w32 (pa + i * N_PGSIZE)) perm) PTE_P))) ;;
  for_each (seqZ 0 (size / PGSIZE)) (fun i =>
    pte ← pgdir_walk pgdir (w32 (va + i * PGSIZE)) true;
    if pte =? 0 then panic "boot_map_region: Failed to map region"
    else sto pte (Z.lor (Z.lor (w32 (pa + i * PGSIZE)) perm) PTE_P)).

(** The page and the address of its entry, which the caller may ask for. *)
Definition page_lookup (pgdir va : Z) : Jm (option (nat * Z)) :=
  pte ← pgdir_walk pgdir va false;
  if pte =? 0 then mret None
  else
    x ← ld pte;
    if Z.land x PTE_P =? 0 then mret None
    else pp ← pa2page (PTE_ADDR x); mret (Some (pp, pte)).

Definition tlb_invalidate (pgdir va : Z) : Jm unit :=
  modify (fun s => set_tlb (delete (PGNUM va) (tlb s)) s).

Definition page_remove (pgdir va : Z) : Jm unit :=
  checkPage ← page_lookup pgdir va;
  match checkPage with
  | Some (pp, pte) => page_decref pp ;; sto pte 0 ;; tlb_invalidate pgdir va
  | None => mret tt
  end.

Definition page_insert (pgdir : Z) (pp : nat) (va perm : Z) : Jm Z :=
  pte ← pgdir_walk pgdir va true;
  if pte =? 0 then mret (- E_NO_MEM)
  else
    i ← info pp;
    set_ref pp (pp_ref i + 1) ;;
    x ← ld pte;
    when (negb (Z.land x PTE_P =? 0)) (page_remove pgdir va) ;;
    sto pte (Z.lor (Z.lor (page2pa pp) perm) PTE_P) ;;
    let pde := w32 (pgdir + 4 * PDX va) in
    y ← ld pde;
    sto pde (Z.lor y perm) ;;
    mret 0.

(** The physical address of [va], as the checks of pmap.c compute it. *)
Definition check_va2pa (pgdir va : Z) : Jm Z :=
  x ← ld (w32 (pgdir + 4 * PDX va));
  if Z.land x PTE_P =? 0 then mret (w32 (-1))
  else if negb (Z.land x PTE_PS =? 0) then mret (Z.lor (PDE_ADDR x) (N_PGOFF va))
  else
    p ← KADDR (PTE_ADDR x);
    y ← ld (w32 (p + 4 * PTX va));
    if Z.land y PTE_P =? 0 then mret (w32 (-1)) else mret (PTE_ADDR y).

(** The processor translates an address: it uses the TLB, or walks the tables and remembers
    the entry. *)
Definition translate (va : Z) : Jm (option nat) :=
  t ← gets tlb;
  match t !! PGNUM va with
  | Some x => mret (Some (Z.to_nat (PGNUM (PTE_ADDR x))))
  | None =>
      pgdir ← gets kern_pgdir;
      o ← page_lookup pgdir va;
      match o with
      | Some (pp, pte) => x ← ld pte; modify (fun s => set_tlb (<[PGNUM va := x]> (tlb s)) s) ;; mret (Some pp)
      | None => mret None
      end
  end.

(** ** Initialisation *)

(** The addresses [end] and [bootstack] of the kernel image. *)
Class Kernel := { kernel_end : Z; bootstack : Z }.

Definition boot_alloc `{Kernel} (n : Z) : Jm Z :=
  nf ← gets nextfree;
  when (nf =? 0) (modify (set_nextfree (ROUNDUP kernel_end PGSIZE))) ;;
  result ← gets nextfree;
  when (0 <? n)
    (modify (set_nextfree (ROUNDUP (w32 (result + n)) PGSIZE)) ;;
     s ← get;
     if w32 (npages s * PGSIZE) <? w32 (nextfree s - KERNBASE)
     then panic "Panic! boot_alloc() failed! Out of memory!" else mret tt) ;;
  mret result.

Definition free_here (i : nat) : Jm unit :=
  set_ref i 0 ;;
  l ← gets page_free_list;
  set_link i l ;;
  modify (set_page_free_list (Some i)).

Definition page_init `{Kernel} : Jm unit :=
  set_ref 0 1 ;;
  n ← gets npages;
  for_each (seq 1 (Z.to_nat n - 1)) (fun i =>
    base ← gets npages_basemem;
    if Z.of_nat i <? base then free_here i
    else if (IOPHYSMEM / PGSIZE <=? Z.of_nat i) && (Z.of_nat i <? EXTPHYSMEM / PGSIZE) then set_ref i 1
    else if EXTPHYSMEM / PGSIZE <=? Z.of_nat i then
      nf ← boot_alloc 0;
      pa ← PADDR nf;
      if Z.of_nat i <? pa / PGSIZE then set_ref i 1 else free_here i
    else free_here i).
