(* ===== verification/PmapSpec.v ===== *)
(** * The memory management of JOS as maps

    What a page directory means below [UTOP]: the tables it has, and the page and the flags
    of every page of the address space; the free list as a list; reference counts as the
    number of uses. *)

From S2P Require Import Prelude Layout Pmap.

(** ** Words of memory *)

Lemma word_set_eq m p i x : pword (set_pword p i x m) p i = x.
Proof. unfold pword, set_pword. by rewrite lookup_insert_eq; cbn; rewrite lookup_insert_eq. Qed.

Lemma word_set_ne m p i x p' i' : p' <> p \/ i' <> i -> pword (set_pword p i x m) p' i' = pword m p' i'.
Proof.
  intros Hne. unfold pword, set_pword. destruct (decide (p' = p)) as [->|].
  - rewrite lookup_insert_eq. cbn. rewrite lookup_insert_ne; [done|]. destruct Hne as [?|?]; congruence.
  - by rewrite lookup_insert_ne.
Qed.

Lemma word_clear m p p' i : pword (<[p := ∅]> m) p' i = if decide (p' = p) then 0 else pword m p' i.
Proof.
  unfold pword. case_decide as Hp; [subst; by rewrite lookup_insert_eq; cbn; rewrite lookup_empty|].
  by rewrite lookup_insert_ne.
Qed.

(** The address of the word [i] of the page [t]. *)
Definition at_ (t i : Z) : Z := KERNBASE + PGSIZE * t + 4 * i.

(** The memory fits into the address space above [KERNBASE]. *)
Definition fits (s : jos) : Prop := 0 < npages s <= 65536.

Lemma at_slot s t i : fits s -> 0 <= t < npages s -> 0 <= i < 1024 ->
  in_memory s (at_ t i) = true /\ page_of (at_ t i) = t /\ index_of (at_ t i) = i /\
  w32 (at_ t i) = at_ t i /\ at_ t i <> 0.
Proof.
  unfold fits, in_memory, page_of, index_of, at_, PGSIZE, KERNBASE. intros Hf Ht Hi. split_and!.
  - rewrite !andb_true_iff. split_and!; [lia| |].
    + apply Z.eqb_eq. Z.div_mod_to_equations. lia.
    + apply Z.ltb_lt. Z.div_mod_to_equations. lia.
  - Z.div_mod_to_equations. lia.
  - Z.div_mod_to_equations. lia.
  - apply w32_small. lia.
  - lia.
Qed.

Section Access.
Context (s : jos) (t i : Z).
Hypothesis (Hf : fits s) (Ht : 0 <= t < npages s) (Hi : 0 <= i < 1024).

Lemma phys_ld_run : ld (at_ t i) s = Ok (pword (pmem s) t i, s).
Proof using All.
  destruct (at_slot s t i Hf Ht Hi) as (Hm & Hp & Hx & _). unfold ld. mrun. by rewrite Hm, Hp, Hx.
Qed.

Lemma phys_sto_run x : sto (at_ t i) x s = Ok (tt, set_pmem (set_pword t i (w32 x) (pmem s)) s).
Proof using All.
  destruct (at_slot s t i Hf Ht Hi) as (Hm & Hp & Hx & _). unfold sto. mrun. by rewrite Hm, Hp, Hx.
Qed.

Lemma memset_run : memset_page (at_ t 0) 0 PGSIZE s = Ok (tt, set_pmem (<[t := ∅]> (pmem s)) s).
Proof using Hf Ht.
  destruct (at_slot s t 0 Hf Ht ltac:(lia)) as (Hm & Hp & Hx & _). unfold memset_page. mrun.
  by rewrite Hm, Hp, Hx.
Qed.
End Access.

(** ** Addresses of pages *)

Lemma PGNUM_div a : PGNUM a = a / PGSIZE.
Proof. unfold PGNUM. by rewrite Z.shiftr_div_pow2 by lia. Qed.

Lemma PGNUM_page p : PGNUM (PGSIZE * p) = p.
Proof. rewrite PGNUM_div, Z.mul_comm, Z.div_mul; [done|]. unfold PGSIZE. lia. Qed.

Lemma page2pa_page (p : nat) : (Z.of_nat p < 65536) -> page2pa p = PGSIZE * Z.of_nat p.
Proof.
  intros Hp. unfold page2pa. rewrite Z.shiftl_mul_pow2 by lia. unfold PGSIZE.
  rewrite w32_small; lia.
Qed.

Section Pages.
Context (s : jos) (p : nat).
Hypothesis (Hf : fits s) (Hp : Z.of_nat p < npages s).

Lemma KADDR_run : KADDR (PGSIZE * Z.of_nat p) s = Ok (at_ (Z.of_nat p) 0, s).
Proof using All.
  unfold KADDR. mrun. rewrite PGNUM_page. destruct (Z.leb_spec (npages s) (Z.of_nat p)); [lia|].
  unfold mret, M_ret. do 2 f_equal. unfold at_, fits, PGSIZE, KERNBASE in *. rewrite w32_small; lia.
Qed.

Lemma pa2page_run : pa2page (PGSIZE * Z.of_nat p) s = Ok (p, s).
Proof using Hp.
  unfold pa2page. mrun. rewrite PGNUM_page. destruct (Z.leb_spec (npages s) (Z.of_nat p)); [lia|].
  unfold mret, M_ret. by rewrite Nat2Z.id.
Qed.

Lemma page2kva_run : page2kva p s = Ok (at_ (Z.of_nat p) 0, s).
Proof using All. unfold page2kva. rewrite page2pa_page by (unfold fits in Hf; lia). apply KADDR_run. Qed.
End Pages.

(** ** Page descriptors *)

Lemma info_run s pp i : pages s !! pp = Some i -> info pp s = Ok (i, s).
Proof. intros H. unfold info. mrun. by rewrite H. Qed.

Lemma set_link_run s pp i l : pages s !! pp = Some i ->
  set_link pp l s = Ok (tt, set_pages (<[pp := Page l (pp_ref i)]> (pages s)) s).
Proof. intros H. unfold set_link. mstep (info_run s pp i H). done. Qed.

Lemma set_ref_run s pp i r : pages s !! pp = Some i ->
  set_ref pp r s = Ok (tt, set_pages (<[pp := Page (pp_link i) (r mod 2 ^ 16)]> (pages s)) s).
Proof. intros H. unfold set_ref. mstep (info_run s pp i H). done. Qed.

(** ** Counting *)

(** How often [p] is a value of the map [m]. *)
Definition uses {A} `{Countable K} (f : A -> nat) (p : nat) (m : gmap K A) : Z :=
  Z.of_nat (size (filter (fun kv => f kv.2 = p) m)).

Section Uses.
Context {A : Type} `{Countable K} (f : A -> nat) (p : nat).
Lemma uses_nonneg (m : gmap K A) : 0 <= uses f p m.
Proof. unfold uses. lia. Qed.

Lemma uses_empty : uses f p (∅ : gmap K A) = 0.
Proof. unfold uses. by rewrite map_filter_empty, map_size_empty. Qed.

Lemma uses_insert_new (m : gmap K A) k a : m !! k = None ->
  uses f p (<[k := a]> m) = uses f p m + (if decide (f a = p) then 1 else 0).
Proof.
  intros Hk. unfold uses. rewrite map_filter_insert. case_decide as Hf; cbn in Hf.
  - rewrite map_size_insert_None by by rewrite map_lookup_filter_None; left. rewrite decide_True by done. lia.
  - rewrite decide_False by done. rewrite delete_id by done. lia.
Qed.

Lemma uses_delete (m : gmap K A) k a : m !! k = Some a ->
  uses f p (delete k m) = uses f p m - (if decide (f a = p) then 1 else 0).
Proof.
  intros Hk. rewrite <- (insert_delete_id m k a Hk) at 2.
  rewrite uses_insert_new by apply lookup_delete_eq. lia.
Qed.

Lemma page_uses_insert (m : gmap K A) k a : uses f p (<[k := a]> m) =
  uses f p (delete k m) + (if decide (f a = p) then 1 else 0).
Proof. rewrite <- insert_delete_eq. apply uses_insert_new, lookup_delete_eq. Qed.

Lemma uses_pos (m : gmap K A) k a : m !! k = Some a -> f a = p -> 1 <= uses f p m.
Proof.
  intros Hk Hf. rewrite <- (insert_delete_id m k a Hk), uses_insert_new by apply lookup_delete_eq.
  rewrite decide_True by done. pose proof (uses_nonneg (delete k m)). lia.
Qed.

Lemma uses_zero (m : gmap K A) : uses f p m = 0 -> forall k a, m !! k = Some a -> f a <> p.
Proof. intros Hz k a Hk Hf. pose proof (uses_pos m k a Hk Hf). lia. Qed.
End Uses.

(** ** Reference counts and the free list *)

Fixpoint chain (P : list PageInfo) (l : option nat) (L : list nat) : Prop :=
  match L with
  | [] => l = None
  | p :: L' => l = Some p /\ exists i, P !! p = Some i /\ chain P (pp_link i) L'
  end.

(** The free list is [L], and the page [p] has [r p] references. *)
Record counts_ok (P : list PageInfo) (l : option nat) (L : list nat) (r : nat -> Z) : Prop := CountsOk {
  co_chain : chain P l L;
  co_nodup : NoDup L;
  co_free : forall p, p ∈ L -> r p = 0;
  co_used : forall p i, P !! p = Some i -> p ∉ L -> pp_link i = None;
  co_ref : forall p i, P !! p = Some i -> pp_ref i = r p /\ 0 <= r p < 2 ^ 16
}.

Lemma chain_insert P l L p i : p ∉ L -> chain P l L -> chain (<[p := i]> P) l L.
Proof.
  revert l. induction L as [|q L IH]; intros l Hp; [done|]. cbn [chain].
  apply not_elem_of_cons in Hp as [Hq Hp]. intros [-> (j & Hj & Hc)]. split; [done|].
  exists j. rewrite list_lookup_insert_ne by done. auto.
Qed.

Lemma chain_lookup P l L p : chain P l L -> p ∈ L -> is_Some (P !! p).
Proof.
  revert l. induction L as [|q L IH]; intros l; [by intros _ ?%elem_of_nil|].
  intros [_ (j & Hj & Hc)] [->|Hp]%elem_of_cons; [by exists j|]. by eapply IH.
Qed.

Section Counts.
Context (P : list PageInfo) (l : option nat) (L : list nat) (r : nat -> Z).

Lemma counts_ext r' : (forall p, r' p = r p) -> counts_ok P l L r -> counts_ok P l L r'.
Proof. intros He [H1 H2 H3 H4 H5]. split; [done|done| |done|]; intros p; rewrite He; eauto. Qed.

Lemma counts_alloc p i : counts_ok P l (p :: L) r -> P !! p = Some i ->
  counts_ok (<[p := Page None (pp_ref i)]> P) (pp_link i) L r.
Proof.
  intros [[_ (j & Hj & Hc)] Hnd Hf Hu Hr] Hi. replace j with i in * by congruence.
  apply NoDup_cons in Hnd as [Hp Hnd]. split; [by apply chain_insert|done| | |].
  - intros q Hq. apply Hf. by right.
  - intros q k. rewrite list_lookup_insert_Some. intros [(-> & <- & _)|[Hq Hk]] Hn; [done|].
    apply (Hu _ _ Hk). rewrite not_elem_of_cons. naive_solver.
  - intros q k. rewrite list_lookup_insert_Some. intros [(-> & <- & _)|[Hq Hk]]; cbn; eauto.
Qed.

Lemma counts_free p i : counts_ok P l L r -> P !! p = Some i -> p ∉ L -> r p = 0 ->
  counts_ok (<[p := Page l (pp_ref i)]> P) (Some p) (p :: L) r.
Proof.
  intros [Hc Hnd Hf Hu Hr] Hi Hp Hz. split.
  - split; [done|]. exists (Page l (pp_ref i)). rewrite list_lookup_insert_eq by by eapply lookup_lt_Some.
    split; [done|]. by apply chain_insert.
  - by constructor.
  - intros q [->|Hq]%elem_of_cons; auto.
  - intros q k. rewrite not_elem_of_cons, list_lookup_insert_Some. intros [(-> & _)|[Hq Hk]] [? ?]; eauto. done.
  - intros q k. rewrite list_lookup_insert_Some. intros [(-> & <- & _)|[Hq Hk]]; cbn; eauto.
Qed.

Lemma counts_change p i r' v : counts_ok P l L r -> P !! p = Some i -> p ∉ L ->
  (forall q, r' q = if decide (q = p) then v else r q) -> 0 <= v < 2 ^ 16 ->
  counts_ok (<[p := Page (pp_link i) (v mod 2 ^ 16)]> P) l L r'.
Proof.
  intros [Hc Hnd Hf Hu Hr] Hi Hp Hr' Hv. split; [by apply chain_insert|done| | |].
  - intros q Hq. rewrite Hr', decide_False by congruence. auto.
  - intros q k. rewrite list_lookup_insert_Some. intros [(-> & <- & _)|[Hq Hk]] Hn; cbn; eauto.
  - intros q k. rewrite list_lookup_insert_Some, Hr'. intros [(-> & <- & _)|[Hq Hk]].
    + rewrite decide_True by done. cbn [pp_ref]. by rewrite Z.mod_small.
    + rewrite decide_False by congruence. eauto.
Qed.
End Counts.

(** ** Page tables *)

(** The pages of the address space below [UTOP]; 1024 of them have a table. *)
Definition NTABLES : Z := UTOP / PTSIZE.
Definition NUSER : Z := 1024 * NTABLES.

(** The entry of a page [p] with flags. *)
Definition entry_of (p : nat) (f : Z) : Z := Z.lor (Z.lor (PGSIZE * Z.of_nat p) f) PTE_P.

(** [D] is the page of the directory, [T] the tables by their index in it, and [U] the pages
    and flags of the user part of the address space. *)
Record tables_ok (np : Z) (m : gmap Z (gmap Z Z)) (tl : gmap Z Z) (D : Z)
    (T : gmap Z nat) (U : gmap Z (nat * Z)) : Prop := TablesOk {
  to_dir : 0 <= D < np;
  to_table : forall d t, T !! d = Some t -> 0 <= d < NTABLES /\ Z.of_nat t < np /\ Z.of_nat t <> D;
  to_inj : forall d d' t, T !! d = Some t -> T !! d' = Some t -> d = d';
  to_pde : forall d, 0 <= d < NTABLES ->
    match T !! d with
    | Some t => exists f, pword m D d = entry_of t f /\ 0 <= f < PGSIZE
    | None => Z.land (pword m D d) PTE_P = 0
    end;
  to_user : forall n p f, U !! n = Some (p, f) ->
    0 <= n < NUSER /\ Z.of_nat p < np /\ 0 <= f < PGSIZE /\ is_Some (T !! (n / 1024));
  to_pte : forall n t, 0 <= n < NUSER -> T !! (n / 1024) = Some t ->
    match U !! n with
    | Some (p, f) => pword m (Z.of_nat t) (n mod 1024) = entry_of p f
    | None => Z.land (pword m (Z.of_nat t) (n mod 1024)) PTE_P = 0
    end;
  to_tlb : forall n x, 0 <= n < NUSER -> tl !! n = Some x ->
    exists p f, U !! n = Some (p, f) /\ x = entry_of p f
}.

Lemma entry_flags p f : Z.of_nat p < 65536 -> 0 <= f < PGSIZE ->
  PTE_ADDR (entry_of p f) = PGSIZE * Z.of_nat p /\ Z.land (entry_of p f) PTE_P <> 0 /\
  w32 (entry_of p f) = entry_of p f.
Proof.
  intros Hp Hf. unfold entry_of. rewrite <- Z.lor_assoc.
  assert (0 <= Z.lor f PTE_P < PGSIZE) as Hl by by apply lor_flags_bound.
  assert (Hpa : PGSIZE * Z.of_nat p mod PGSIZE = 0) by (rewrite Z.mul_comm; apply Z.mod_mul; done).
  assert (0 <= PGSIZE * Z.of_nat p < 2 ^ 32) as Hr by (unfold PGSIZE; lia). split_and!.
  - by apply entry_ADDR.
  - pose proof (entry_bit _ _ Hpa Hr Hl 0 ltac:(lia)) as Hb. change (2 ^ 0) with PTE_P in Hb.
    rewrite Hb, Z.land_lor_distr_l. intros [_ H]%Z.lor_eq_0_iff. done.
  - apply w32_small. by apply entry_range.
Qed.

Lemma entry_more t f g : Z.lor (entry_of t f) g = entry_of t (Z.lor f g).
Proof.
  unfold entry_of. rewrite <- !Z.lor_assoc. do 2 f_equal. apply Z.lor_comm.
Qed.

Lemma user_index n : 0 <= n < NUSER -> 0 <= n / 1024 < NTABLES /\ 0 <= n mod 1024 < 1024.
Proof. unfold NUSER. intros Hn. Z.div_mod_to_equations. lia. Qed.

Section Tables.
Context (np : Z) (m : gmap Z (gmap Z Z)) (tl : gmap Z Z) (D : Z) (T : gmap Z nat) (U : gmap Z (nat * Z)).
Hypothesis Hok : tables_ok np m tl D T U.
Hypothesis Hnp : np <= 65536.

(** A new table, cleared. *)
Lemma tables_new d t f : T !! d = None -> 0 <= d < NTABLES -> Z.of_nat t < np -> Z.of_nat t <> D ->
  (forall d', T !! d' <> Some t) -> 0 <= f < PGSIZE ->
  tables_ok np (set_pword D d (entry_of t f) (<[Z.of_nat t := ∅]> m)) tl D (<[d := t]> T) U.
Proof using Hok.
  intros Hd Hr Ht HtD Hnew Hf. destruct Hok as [H1 H2 H3 H4 H5 H6 H7]. split; [done| | | | | |done].
  - intros d' t'. rewrite lookup_insert_Some. intros [[<- <-]|[_ ?]]; eauto.
  - intros d1 d2 t'. rewrite !lookup_insert_Some. naive_solver.
  - intros d' Hd'. destruct (decide (d' = d)) as [->|Hne].
    + rewrite lookup_insert_eq, word_set_eq. eauto.
    + rewrite lookup_insert_ne, word_set_ne, word_clear by (congruence || (by right)).
      rewrite decide_False by congruence. by apply H4.
  - intros n p g Hn. destruct (H5 n p g Hn) as (? & ? & ? & ?). do 3 (split; [done|]).
    destruct (decide (n / 1024 = d)) as [->|]; [by rewrite lookup_insert_eq|by rewrite lookup_insert_ne].
  - intros n t' Hn. rewrite lookup_insert_Some. intros [[He <-]|[Hne Ht']].
    + destruct (U !! n) as [[p g]|] eqn:HU.
      { destruct (H5 n p g HU) as (_ & _ & _ & [? ?]). congruence. }
      rewrite word_set_ne, word_clear by (by left). by rewrite decide_True.
    + destruct (H2 _ _ Ht') as (_ & _ & HD).
      rewrite word_set_ne, word_clear by (by left). rewrite decide_False; [by apply H6|].
      intros ->%Nat2Z.inj. by apply (Hnew (n / 1024)).
Qed.

(** An entry of a table, set or cleared; the TLB forgets the page. *)
Lemma tables_entry n t x o : T !! (n / 1024) = Some t -> 0 <= n < NUSER ->
  match o with
  | Some (p, f) => Z.of_nat p < np /\ 0 <= f < PGSIZE /\ x = entry_of p f
  | None => Z.land x PTE_P = 0
  end ->
  tables_ok np (set_pword (Z.of_nat t) (n mod 1024) x m) (delete n tl) D T (partial_alter (fun _ => o) n U).
Proof using Hok.
  intros Ht Hn Ho. destruct Hok as [H1 H2 H3 H4 H5 H6 H7].
  destruct (H2 _ _ Ht) as (_ & Htn & HtD). split; [done|done|done| | | |].
  - intros d Hd. rewrite word_set_ne by (left; congruence). by apply H4.
  - intros k p f. destruct (decide (k = n)) as [->|Hne].
    + rewrite lookup_partial_alter_eq. intros ->. naive_solver.
    + rewrite lookup_partial_alter_ne by done. eauto.
  - intros k t' Hk Ht'. destruct (decide (k = n)) as [->|Hne].
    + rewrite lookup_partial_alter_eq. replace t' with t by congruence. rewrite word_set_eq.
      destruct o as [[p f]|]; [|done]. apply Ho.
    + rewrite lookup_partial_alter_ne, word_set_ne; [by apply H6| |done].
      destruct (decide (t' = t)) as [->|]; [right|left; lia].
      pose proof (H3 _ _ _ Ht Ht'). intros ?. Z.div_mod_to_equations. lia.
  - intros k y Hk. rewrite lookup_delete_Some. intros [Hne Hy].
    rewrite lookup_partial_alter_ne by done. eauto.
Qed.

(** More permissions in the directory. *)
Lemma tables_perm d t f g : T !! d = Some t -> pword m D d = entry_of t f -> 0 <= f < PGSIZE ->
  0 <= g < PGSIZE -> tables_ok np (set_pword D d (entry_of t (Z.lor f g)) m) tl D T U.
Proof using Hok.
  intros Ht Hw Hf Hg. destruct Hok as [H1 H2 H3 H4 H5 H6 H7].
  split; [done|done|done| |done| |done].
  - intros d' Hd'. destruct (decide (d' = d)) as [->|].
    + rewrite Ht, word_set_eq. exists (Z.lor f g). split; [done|]. by apply lor_flags_bound.
    + rewrite word_set_ne by (by right). by apply H4.
  - intros n t' Hn Ht'. destruct (H2 _ _ Ht') as (_ & _ & HD). rewrite word_set_ne by (by left). by apply H6.
Qed.

(** A page that is not mapped is not in the TLB. *)
Lemma tables_tlb n : U !! n = None -> 0 <= n < NUSER -> delete n tl = tl.
Proof using Hok.
  intros HU Hn. apply delete_id. destruct (tl !! n) as [x|] eqn:Hx; [|done].
  destruct (to_tlb _ _ _ _ _ _ Hok n x Hn Hx) as (p & f & ? & _). congruence.
Qed.
End Tables.

(** ** Pages and tables *)

(** The free list, the tables and the pages with their flags. *)
Record space := Space {
  sp_free : list nat;
  sp_tables : gmap Z nat;
  sp_user : gmap Z (nat * Z)
}.

(** The references to a page: [held p] from outside the address space, one for every table
    and one for every place where it is mapped. *)
Definition refs (held : nat -> Z) (a : space) (p : nat) : Z :=
  held p + uses id p (sp_tables a) + uses fst p (sp_user a).

Record space_ok (s : jos) (D : Z) (held : nat -> Z) (a : space) : Prop := SpaceOk {
  sk_fits : fits s;
  sk_len : length (pages s) = Z.to_nat (npages s);
  sk_dir : kern_pgdir s = at_ D 0;
  sk_counts : counts_ok (pages s) (page_free_list s) (sp_free a) (refs held a);
  sk_tables : tables_ok (npages s) (pmem s) (tlb s) D (sp_tables a) (sp_user a);
  sk_held : forall p, 0 <= held p;
  sk_held_dir : 1 <= held (Z.to_nat D)
}.

Section Space.
Context (D : Z).

Lemma refs_nonneg held a p : (forall q, 0 <= held q) -> 0 <= refs held a p.
Proof.
  intros Hh. unfold refs. pose proof (uses_nonneg id p (sp_tables a)).
  pose proof (uses_nonneg fst p (sp_user a)). specialize (Hh p). lia.
Qed.

(** A page that is free is not in use. *)
Lemma free_unused s held a p : space_ok s D held a -> p ∈ sp_free a ->
  Z.of_nat p < npages s /\ Z.of_nat p <> D /\ (forall d, sp_tables a !! d <> Some p) /\
  held p = 0 /\ (forall n f, sp_user a !! n <> Some (p, f)).
Proof.
  intros [Hf Hl Hd Hc Ht Hh HD] Hp. pose proof (co_free _ _ _ _ Hc p Hp) as Hr. unfold refs in Hr.
  pose proof (uses_nonneg id p (sp_tables a)) as H1. pose proof (uses_nonneg fst p (sp_user a)) as H2.
  pose proof (Hh p) as H3.
  destruct (chain_lookup _ _ _ _ (co_chain _ _ _ _ Hc) Hp) as [i Hi%lookup_lt_Some]. split_and!.
  - unfold fits in Hf. lia.
  - intros <-. rewrite Nat2Z.id in HD. lia.
  - intros d Hd'. by apply (uses_zero id p (sp_tables a) ltac:(lia) d p Hd').
  - lia.
  - intros n f Hn. by apply (uses_zero fst p (sp_user a) ltac:(lia) n (p, f) Hn).
Qed.

Lemma page_info s held a p : space_ok s D held a -> Z.of_nat p < npages s ->
  exists i, pages s !! p = Some i /\ pp_ref i = refs held a p.
Proof.
  intros Hs Hp. destruct (lookup_lt_is_Some_2 (pages s) p) as [i Hi].
  { rewrite (sk_len _ _ _ _ Hs). lia. }
  exists i. split; [done|]. by apply (co_ref _ _ _ _ (sk_counts _ _ _ _ Hs)).
Qed.

(** ** Allocation *)

Lemma page_alloc_empty flags s : page_free_list s = None -> page_alloc flags s = Ok (None, s).
Proof. intros H. unfold page_alloc. mrun. by rewrite H. Qed.

(** The state after the page [p] with the descriptor [i] is taken off the list. *)
Definition taken (p : nat) (i : PageInfo) (s : jos) : jos :=
  set_pages (<[p := Page None (pp_ref i)]> (pages s)) (set_page_free_list (pp_link i) s).

Lemma page_alloc_run flags s p i :
  fits s -> Z.of_nat p < npages s -> page_free_list s = Some p -> pages s !! p = Some i ->
  page_alloc flags s = Ok (Some p,
    if Z.land flags ALLOC_ZERO =? 0 then taken p i s
    else set_pmem (<[Z.of_nat p := ∅]> (pmem s)) (taken p i s)).
Proof.
  intros Hf Hp Hl Hi. unfold page_alloc. mrun. rewrite Hl. mstep (info_run s p i Hi).
  mstep (set_link_run (set_page_free_list (pp_link i) s) p i None Hi).
  change (set_pages _ (set_page_free_list (pp_link i) s)) with (taken p i s).
  destruct (Z.land flags ALLOC_ZERO =? 0); cbn [negb]; [done|]. mrun.
  mstep (page2kva_run (taken p i s) p Hf Hp).
  by rewrite (bind_ok _ _ _ _ _ (memset_run (taken p i s) (Z.of_nat p) Hf ltac:(split; [lia|done]))).
Qed.

Lemma counts_taken s held p L T U i : space_ok s D held (Space (p :: L) T U) -> pages s !! p = Some i ->
  counts_ok (pages (taken p i s)) (pp_link i) L (refs held (Space L T U)).
Proof. intros [_ _ _ Hc _ _ _] Hi. by apply (counts_alloc _ _ _ _ p i Hc Hi). Qed.

Lemma length_taken p i s : length (pages (taken p i s)) = length (pages s).
Proof. apply length_insert. Qed.

(** A page that is taken and perhaps cleared. *)
Lemma page_alloc_ok flags s held p L T U : space_ok s D held (Space (p :: L) T U) ->
  exists s', page_alloc flags s = Ok (Some p, s') /\ space_ok s' D held (Space L T U) /\
    npages s' = npages s /\ fourMB_page_support s' = fourMB_page_support s /\ nextfree s' = nextfree s /\
    (forall q k, q <> Z.of_nat p -> pword (pmem s') q k = pword (pmem s) q k) /\
    (forall k, pword (pmem s') (Z.of_nat p) k =
       if Z.land flags ALLOC_ZERO =? 0 then pword (pmem s) (Z.of_nat p) k else 0).
Proof.
  intros Hs. pose proof Hs as [Hf Hl Hd Hc Ht Hh HD].
  destruct (free_unused s held _ p Hs) as (Hp & HpD & HpT & _); [by left|].
  pose proof (co_chain _ _ _ _ Hc) as [Hfl (i & Hi & _)].
  eexists. split; [by apply (page_alloc_run flags s p i)|].
  pose proof (counts_taken s held p L T U i Hs Hi) as Hc'.
  destruct (Z.land flags ALLOC_ZERO =? 0).
  - split; [|by split_and!]. split; try done. by rewrite length_taken.
  - split; [|do 3 (split; [done|]); split].
    + split; try done; [by rewrite <- (length_taken p i s) in Hl|]. cbn.
      destruct Ht as [H1 H2 H3 H4 H5 H6 H7]. split; try done.
      * intros d Hdd. rewrite word_clear, decide_False by congruence. by apply H4.
      * intros n t Hn Ht. rewrite word_clear, decide_False; [by apply H6|].
        intros ->%Nat2Z.inj. by apply (HpT (n / 1024)).
    + intros q k Hq. cbn. by rewrite word_clear, decide_False.
    + intros k. cbn. by rewrite word_clear, decide_True.
Qed.

(** ** Walking the tables *)

Definition user_va (va : Z) : Prop := 0 <= va < UTOP.

Lemma va_index va : user_va va ->
  0 <= va / PGSIZE < NUSER /\ PDX va = va / PGSIZE / 1024 /\ PTX va = va / PGSIZE mod 1024.
Proof.
  unfold user_va. change UTOP with 0xEEC00000. change NUSER with 977920. intros Hv.
  rewrite PDX_div, PTX_div by lia. change (2 ^ 22) with (4096 * 1024). change (2 ^ 12) with 4096.
  change (2 ^ 10) with 1024. unfold PGSIZE. rewrite Z.div_div by lia. split_and!; try done.
  - apply Z.div_pos; lia.
  - apply Z.div_lt_upper_bound; lia.
Qed.

Lemma PDE_run s held a d : space_ok s D held a -> 0 <= d < NTABLES ->
  ld (w32 (kern_pgdir s + 4 * d)) s = Ok (pword (pmem s) D d, s).
Proof.
  intros [Hf _ -> _ Ht _ _] Hd. pose proof (to_dir _ _ _ _ _ _ Ht) as HD.
  assert (0 <= d < 1024) as Hd' by (change NTABLES with 955 in Hd; lia).
  replace (at_ D 0 + 4 * d) with (at_ D d) by (unfold at_; lia).
  destruct (at_slot s D d Hf HD Hd') as (_ & _ & _ & -> & _). by apply phys_ld_run.
Qed.

Lemma at_index s t k : fits s -> 0 <= t < npages s -> 0 <= k < 1024 ->
  w32 (at_ t 0 + 4 * k) = at_ t k /\ at_ t k <> 0.
Proof.
  intros Hf Ht Hk. replace (at_ t 0 + 4 * k) with (at_ t k) by (unfold at_; lia).
  by destruct (at_slot s t k Hf Ht Hk) as (_ & _ & _ & ? & ?).
Qed.

Section Walk.
Context (s : jos) (held : nat -> Z) (a : space) (va : Z).
Hypothesis Hs : space_ok s D held a.
Hypothesis Hva : user_va va.
Let n := va / PGSIZE.

(** The table is there. *)
Lemma walk_there t create : sp_tables a !! (n / 1024) = Some t ->
  pgdir_walk (kern_pgdir s) va create s = Ok (at_ (Z.of_nat t) (n mod 1024), s).
Proof using Hs Hva.
  intros HT. destruct (va_index va Hva) as (Hn & Hd & Hx). fold n in Hn, Hd, Hx.
  destruct (user_index n Hn) as [Hdr Hxr]. pose proof (sk_tables _ _ _ _ Hs) as Ht.
  destruct (to_table _ _ _ _ _ _ Ht _ _ HT) as (_ & Htn & _).
  pose proof (to_pde _ _ _ _ _ _ Ht _ Hdr) as He. rewrite HT in He. destruct He as (f & He & Hf).
  pose proof (sk_fits _ _ _ _ Hs) as Hfit. unfold fits in Hfit.
  destruct (entry_flags t f ltac:(lia) Hf) as (Ha & Hp & _).
  unfold pgdir_walk. rewrite Hd. mstep (PDE_run s held a (n / 1024) Hs Hdr).
  rewrite He, (proj2 (Z.eqb_neq _ _) Hp), Ha. cbn [negb]. mstep (KADDR_run s t Hfit Htn).
  rewrite Hx. by rewrite (proj1 (at_index s (Z.of_nat t) (n mod 1024) Hfit ltac:(lia) Hxr)).
Qed.

Lemma walk_absent : sp_tables a !! (n / 1024) = None ->
  Z.land (pword (pmem s) D (n / 1024)) PTE_P = 0.
Proof using Hs Hva.
  intros HT. destruct (va_index va Hva) as (Hn & _). destruct (user_index n Hn) as [Hdr _].
  pose proof (to_pde _ _ _ _ _ _ (sk_tables _ _ _ _ Hs) _ Hdr) as He. fold n in He. by rewrite HT in He.
Qed.

(** It is not, and cannot be made. *)
Lemma pgdir_walk_none create : sp_tables a !! (n / 1024) = None -> create = false \/ sp_free a = [] ->
  pgdir_walk (kern_pgdir s) va create s = Ok (0, s).
Proof using Hs Hva.
  intros HT Hc. destruct (va_index va Hva) as (Hn & Hd & _). destruct (user_index n Hn) as [Hdr _].
  unfold pgdir_walk. rewrite Hd. fold n. mstep (PDE_run s held a (n / 1024) Hs Hdr).
  rewrite (walk_absent HT), Z.eqb_refl. cbn [negb]. destruct create; [|done]. destruct Hc as [|Hc]; [done|].
  pose proof (co_chain _ _ _ _ (sk_counts _ _ _ _ Hs)) as Hl. rewrite Hc in Hl.
  mstep (page_alloc_empty ALLOC_ZERO s Hl). done.
Qed.
End Walk.

(** A table is made of a free page. *)
Lemma walk_new s held t L T U va : space_ok s D held (Space (t :: L) T U) -> user_va va ->
  let n := va / PGSIZE in T !! (n / 1024) = None -> refs held (Space L T U) t + 1 < 2 ^ 16 ->
  exists s', pgdir_walk (kern_pgdir s) va true s = Ok (at_ (Z.of_nat t) (n mod 1024), s') /\
    space_ok s' D held (Space L (<[n / 1024 := t]> T) U) /\
    npages s' = npages s /\ kern_pgdir s' = kern_pgdir s /\ T !! (n / 1024) = None.
Proof.
  intros Hs Hva n HT Hb. destruct (va_index va Hva) as (Hn & Hd & Hx). fold n in Hn, Hd, Hx.
  destruct (user_index n Hn) as [Hdr Hxr]. pose proof Hs as [Hf Hl Hkd Hc Ht Hh HD].
  destruct (free_unused s held _ t Hs) as (Htn & HtD & HtT & Hth & HtU); [by left|].
  pose proof (co_chain _ _ _ _ Hc) as [Hfl (i & Hi & _)].
  pose proof (walk_absent s held _ va Hs Hva HT) as Habs. fold n in Habs.
  pose proof (counts_taken s held t L T U i Hs Hi) as Hc1.
  assert (pp_ref i = 0) as Hi0.
  { rewrite (proj1 (co_ref _ _ _ _ Hc t i Hi)). apply (co_free _ _ _ _ Hc). by left. }
  assert (refs held (Space L T U) t = 0) as Hr0 by (apply (co_free _ _ _ _ Hc); by left).
  pose proof (co_nodup _ _ _ _ Hc) as [HtL _]%NoDup_cons.
  set (s1 := set_pmem (<[Z.of_nat t := ∅]> (pmem s)) (taken t i s)).
  assert (pages s1 !! t = Some (Page None 0)) as Hi1.
  { cbn. rewrite Hi0. apply list_lookup_insert_eq. by eapply lookup_lt_Some. }
  set (s2 := set_pages (<[t := Page None ((0 + 1) mod 2 ^ 16)]> (pages s1)) s1).
  unfold pgdir_walk. rewrite Hd. mstep (PDE_run s held _ (n / 1024) Hs Hdr).
  rewrite Habs, Z.eqb_refl. cbn [negb].
  mstep (page_alloc_run ALLOC_ZERO s t i Hf Htn Hfl Hi). change (Z.land ALLOC_ZERO ALLOC_ZERO =? 0) with false.
  cbv iota. fold s1. mstep (info_run s1 t _ Hi1). cbn [pp_ref]. mstep (set_ref_run s1 t _ (0 + 1) Hi1). fold s2.
  pose proof (to_dir _ _ _ _ _ _ Ht) as HDr. assert (0 <= n / 1024 < 1024) as Hd' by (change NTABLES with 955 in Hdr; lia).
  rewrite Hkd, (proj1 (at_index s D (n / 1024) Hf HDr Hd')).
  unfold fits in Hf. rewrite page2pa_page by lia.
  set (x := Z.lor _ PTE_U).
  assert (x = entry_of t (Z.lor PTE_W PTE_U)) as Hxe.
  { unfold x, entry_of. rewrite <- !Z.lor_assoc. f_equal. }
  destruct (entry_flags t (Z.lor PTE_W PTE_U) ltac:(lia) ltac:(done)) as (HxA & HxP & Hxw).
  set (s3 := set_pmem (set_pword D (n / 1024) (w32 x) (pmem s2)) s2).
  assert (sto (at_ D (n / 1024)) x s2 = Ok (tt, s3)) as R3 by (by apply phys_sto_run).
  mstep R3. assert (ld (at_ D (n / 1024)) s3 = Ok (x, s3)) as R4.
  { rewrite (phys_ld_run s3 D (n / 1024)) by done. cbn. by rewrite word_set_eq, Hxe, Hxw. }
  mstep R4. rewrite Hxe, HxA. mstep (KADDR_run s3 t Hf Htn). rewrite Hx.
  rewrite (proj1 (at_index s3 (Z.of_nat t) (n mod 1024) Hf ltac:(cbn; lia) Hxr)).
  exists s3. split; [done|]. split; [|done]. split; try done.
  - cbn. by rewrite !length_insert.
  - eapply (counts_change (pages s1) _ _ _ t (Page None 0) _ (0 + 1)).
    + apply Hc1.
    + done.
    + done.
    + intros q. unfold refs. cbn [sp_tables sp_user]. rewrite uses_insert_new by done.
      destruct (decide (q = t)) as [->|].
      * rewrite decide_True by done. unfold refs in Hr0. cbn in Hr0. lia.
      * rewrite decide_False by (cbn; congruence). lia.
    + lia.
  - cbn. rewrite Hxe, Hxw. by apply tables_new.
Qed.

(** ** Looking up and unmapping *)

(** The entry of a page that has a table. *)
Lemma PTE_run s held a n t : space_ok s D held a -> 0 <= n < NUSER -> sp_tables a !! (n / 1024) = Some t ->
  ld (at_ (Z.of_nat t) (n mod 1024)) s = Ok (pword (pmem s) (Z.of_nat t) (n mod 1024), s).
Proof.
  intros Hs Hn HT. destruct (to_table _ _ _ _ _ _ (sk_tables _ _ _ _ Hs) _ _ HT) as (_ & Htn & _).
  apply phys_ld_run; [by apply Hs|lia|by apply user_index].
Qed.

Lemma at_nonzero t k : 0 <= t -> 0 <= k -> (at_ t k =? 0) = false.
Proof. intros. apply Z.eqb_neq. unfold at_, KERNBASE, PGSIZE. lia. Qed.

Lemma lookup_none s held a va : space_ok s D held a -> user_va va -> sp_user a !! (va / PGSIZE) = None ->
  page_lookup (kern_pgdir s) va s = Ok (None, s).
Proof.
  intros Hs Hva HU. set (n := va / PGSIZE) in *. unfold page_lookup.
  destruct (va_index va Hva) as (Hn & _). fold n in Hn.
  destruct (sp_tables a !! (n / 1024)) as [t|] eqn:HT.
  - mstep (walk_there s held a va Hs Hva t false HT). fold n.
    rewrite at_nonzero by (pose proof (user_index n Hn); lia). mstep (PTE_run s held a n t Hs Hn HT).
    pose proof (to_pte _ _ _ _ _ _ (sk_tables _ _ _ _ Hs) n t Hn HT) as He. rewrite HU in He. by rewrite He.
  - by mstep (pgdir_walk_none s held a va Hs Hva false HT (or_introl eq_refl)).
Qed.

Lemma lookup_some s held a va p f : space_ok s D held a -> user_va va ->
  sp_user a !! (va / PGSIZE) = Some (p, f) ->
  exists t, sp_tables a !! (va / PGSIZE / 1024) = Some t /\
    page_lookup (kern_pgdir s) va s = Ok (Some (p, at_ (Z.of_nat t) (va / PGSIZE mod 1024)), s).
Proof.
  intros Hs Hva HU. set (n := va / PGSIZE) in *. pose proof (sk_tables _ _ _ _ Hs) as Ht.
  destruct (to_user _ _ _ _ _ _ Ht n p f HU) as (Hn & Hp & Hf & [t HT]). exists t. split; [done|].
  pose proof (to_pte _ _ _ _ _ _ Ht n t Hn HT) as He. rewrite HU in He.
  pose proof (sk_fits _ _ _ _ Hs) as Hfit. unfold fits in Hfit.
  destruct (entry_flags p f ltac:(lia) Hf) as (HA & HP & _).
  unfold page_lookup. mstep (walk_there s held a va Hs Hva t false HT). fold n.
  rewrite at_nonzero by (pose proof (user_index n Hn); lia). mstep (PTE_run s held a n t Hs Hn HT).
  rewrite He, (proj2 (Z.eqb_neq _ _) HP), HA. by mstep (pa2page_run s p Hp).
Qed.

(** A page goes to the free list when its last use ends. *)
Definition give_back (p : nat) (held : nat -> Z) (a : space) : space :=
  if refs held a p =? 0 then Space (p :: sp_free a) (sp_tables a) (sp_user a) else a.

Lemma refs_give_back p held a q : refs held (give_back p held a) q = refs held a q.
Proof. unfold give_back. by destruct (refs held a p =? 0). Qed.

(** One reference less. *)
Lemma page_decref_run s held a a' p : space_ok s D held a -> Z.of_nat p < npages s -> sp_free a' = sp_free a ->
  (forall q, refs held a' q = refs held a q - (if decide (q = p) then 1 else 0)) ->
  exists P l, page_decref p s = Ok (tt, set_pages P (set_page_free_list l s)) /\
    length P = length (pages s) /\ counts_ok P l (sp_free (give_back p held a')) (refs held a').
Proof.
  intros Hs Hp HL Hr. pose proof Hs as [Hf Hl Hd Hc Ht Hh HD].
  destruct (page_info s held a p Hs Hp) as (i & Hi & Hri).
  pose proof (refs_nonneg held a' p Hh) as Hnn. pose proof (Hr p) as Hrp. rewrite decide_True in Hrp by done.
  destruct (co_ref _ _ _ _ Hc p i Hi) as [_ Hb].
  assert (p ∉ sp_free a) as Hpf by (intros Hin%(co_free _ _ _ _ Hc); lia).
  assert (counts_ok (<[p := Page (pp_link i) ((pp_ref i - 1) mod 2 ^ 16)]> (pages s)) (page_free_list s)
            (sp_free a) (refs held a')) as Hc1.
  { apply (counts_change _ _ _ (refs held a)); [done|done|done| |lia]. intros q. rewrite Hr.
    destruct (decide (q = p)) as [->|]; lia. }
  set (P1 := <[p := _]> (pages s)) in *.
  assert (P1 !! p = Some (Page (pp_link i) (refs held a' p))) as Hi1.
  { unfold P1. rewrite list_lookup_insert_eq by by eapply lookup_lt_Some. do 2 f_equal.
    rewrite Z.mod_small; lia. }
  unfold page_decref. mstep (info_run s p i Hi). mstep (set_ref_run s p i (pp_ref i - 1) Hi). fold P1.
  mstep (info_run (set_pages P1 s) p _ Hi1). cbn [pp_ref]. unfold give_back. rewrite HL.
  destruct (Z.eqb_spec (refs held a' p) 0) as [Hz|Hz]; cbn [when].
  - pose proof (co_used _ _ _ _ Hc1 p _ Hi1 Hpf) as Hnl. cbn in Hnl.
    unfold page_free. mstep (info_run (set_pages P1 s) p _ Hi1). cbn [pp_ref pp_link]. rewrite Hz, Hnl.
    cbn [negb Z.eqb bool_decide]. rewrite bool_decide_false by (by intros []). mrun.
    change (page_free_list (set_pages P1 s)) with (page_free_list s).
    rewrite (bind_ok _ _ _ _ _ (set_link_run (set_pages P1 s) p _ (page_free_list s) Hi1)).
    eexists _, _. split; [done|]. split; [etrans; apply length_insert|].
    by apply (counts_free P1 _ _ _ p _ Hc1 Hi1).
  - exists P1, (page_free_list s). split; [by destruct s|]. split; [apply length_insert|by rewrite HL].
Qed.

(** The address space without the page [n]. *)
Definition unmap (held : nat -> Z) (n : Z) (a : space) : space :=
  match sp_user a !! n with
  | Some (p, _) => give_back p held (Space (sp_free a) (sp_tables a) (delete n (sp_user a)))
  | None => a
  end.

Lemma unmap_maps held n a : sp_tables (unmap held n a) = sp_tables a /\
  sp_user (unmap held n a) = delete n (sp_user a).
Proof.
  unfold unmap. destruct (sp_user a !! n) as [[p f]|] eqn:HU; [|by rewrite delete_id].
  unfold give_back. by destruct (_ =? 0).
Qed.

Lemma delete_alter n (U : gmap Z (nat * Z)) : partial_alter (fun _ => None) n U = delete n U.
Proof. done. Qed.

Lemma page_remove_run s held a va : space_ok s D held a -> user_va va ->
  exists s', page_remove (kern_pgdir s) va s = Ok (tt, s') /\
    space_ok s' D held (unmap held (va / PGSIZE) a) /\ npages s' = npages s /\ kern_pgdir s' = kern_pgdir s.
Proof.
  intros Hs Hva. pose proof (unmap_maps held (va / PGSIZE) a) as HM. set (n := va / PGSIZE) in *.
  unfold page_remove, unmap in *.
  destruct (sp_user a !! n) as [[p f]|] eqn:HU.
  2:{ exists s. split; [|done]. by mstep (lookup_none s held a va Hs Hva HU). }
  destruct (lookup_some s held a va p f Hs Hva HU) as (t & HT & R). fold n in HT, R. mstep R.
  pose proof Hs as [Hf Hl Hd Hc Ht Hh HD]. destruct (to_user _ _ _ _ _ _ Ht n p f HU) as (Hn & Hp & _ & _).
  destruct (to_table _ _ _ _ _ _ Ht _ _ HT) as (_ & Htn & _).
  set (a' := Space (sp_free a) (sp_tables a) (delete n (sp_user a))) in *.
  destruct (page_decref_run s held a a' p Hs Hp eq_refl) as (P & l & R1 & HlP & HcP).
  { intros q. unfold refs, a'. cbn [sp_tables sp_user]. rewrite (uses_delete fst q _ n (p, f) HU). cbn [fst].
    destruct (decide (q = p)), (decide (p = q)); (congruence || lia). }
  mstep R1. set (s1 := set_pages P (set_page_free_list l s)) in *.
  destruct (user_index n Hn) as [_ Hx].
  mstep (phys_sto_run s1 (Z.of_nat t) (n mod 1024) Hf ltac:(cbn; lia) Hx 0).
  unfold tlb_invalidate. eexists. split; [done|]. split; [|done]. rewrite PGNUM_div. fold n.
  destruct HM as [HM1 HM2]. split; try done.
  - cbn. by rewrite HlP.
  - cbn. eapply counts_ext; [|exact HcP]. intros q. apply refs_give_back.
  - rewrite HM1, HM2, <- delete_alter. cbn. by apply (tables_entry _ _ _ _ _ _ Ht n t).
Qed.

(** ** Mapping *)

(** The address space with a table for the page [n]. *)
Definition with_table (n : Z) (a : space) : option space :=
  match sp_tables a !! (n / 1024), sp_free a with
  | Some _, _ => Some a
  | None, t :: L => Some (Space L (<[n / 1024 := t]> (sp_tables a)) (sp_user a))
  | None, [] => None
  end.

(** The address space with the page [p] at [n]. *)
Definition map_page (held : nat -> Z) (n : Z) (p : nat) (f : Z) (a : space) : space :=
  let a' := Space (sp_free a) (sp_tables a) (<[n := (p, f)]> (sp_user a)) in
  match sp_user a !! n with
  | Some (q, _) => give_back q held a'
  | None => a'
  end.

Lemma with_table_some n a a1 : with_table n a = Some a1 ->
  is_Some (sp_tables a1 !! (n / 1024)) /\ sp_user a1 = sp_user a /\
  (forall p, p ∉ sp_free a -> p ∉ sp_free a1) /\
  (forall held p, p ∉ sp_free a -> refs held a1 p = refs held a p).
Proof.
  unfold with_table. destruct (sp_tables a !! (n / 1024)) as [t|] eqn:HT; [intros [= <-]; by rewrite HT|].
  destruct (sp_free a) as [|t L]; [done|]. intros [= <-]. cbn. rewrite lookup_insert_eq.
  split_and!; [done|done| |]; intros *; rewrite not_elem_of_cons; [naive_solver|].
  intros [Hpt _]. unfold refs. cbn. rewrite uses_insert_new by done.
  rewrite decide_False by (cbn; congruence). lia.
Qed.

Lemma walk_create s held a va a1 : space_ok s D held a -> user_va va -> with_table (va / PGSIZE) a = Some a1 ->
  exists t s1, pgdir_walk (kern_pgdir s) va true s = Ok (at_ (Z.of_nat t) (va / PGSIZE mod 1024), s1) /\
    sp_tables a1 !! (va / PGSIZE / 1024) = Some t /\ space_ok s1 D held a1 /\
    npages s1 = npages s /\ kern_pgdir s1 = kern_pgdir s.
Proof.
  intros Hs Hva. set (n := va / PGSIZE). unfold with_table.
  destruct (sp_tables a !! (n / 1024)) as [t|] eqn:HT.
  { intros [= <-]. exists t, s. split; [by apply walk_there with (held := held) (a := a)|done]. }
  destruct a as [[|t L] T U]; [done|]. cbn in HT |- *. intros [= <-].
  assert (refs held (Space L T U) t = 0) as Hz.
  { apply (co_free _ _ _ _ (sk_counts _ _ _ _ Hs) t). by left. }
  destruct (walk_new s held t L T U va Hs Hva HT) as (s' & R & Hs' & Hn & Hk & _); [lia|].
  exists t, s'. split; [done|]. split; [|done]. apply lookup_insert_eq.
Qed.

(** One reference more, from outside the address space. *)
Definition hold (p : nat) (held : nat -> Z) (q : nat) : Z := held q + (if decide (q = p) then 1 else 0).

Lemma set_ref_ok s held a p i : space_ok s D held a -> pages s !! p = Some i -> p ∉ sp_free a ->
  refs held a p + 1 < 2 ^ 16 ->
  space_ok (set_pages (<[p := Page (pp_link i) ((pp_ref i + 1) mod 2 ^ 16)]> (pages s)) s) D (hold p held) a.
Proof.
  intros [Hf Hl Hd Hc Ht Hh HD] Hi Hp Hb. pose proof (refs_nonneg held a p Hh) as Hnn.
  rewrite (proj1 (co_ref _ _ _ _ Hc p i Hi)).
  split; try done.
  - etrans; [apply length_insert|done].
  - apply (counts_change _ _ _ (refs held a)); [done|done|done| |lia].
    intros q. unfold refs, hold. destruct (decide (q = p)) as [->|]; lia.
  - intros q. unfold hold. specialize (Hh q). destruct (decide (q = p)); lia.
  - unfold hold. destruct (decide _); lia.
Qed.

(** To hold a page and unmap [n], or to map the page there: the references are the same. *)
Lemma unmap_hold held n p f a q :
  refs (hold p held) (Space (sp_free a) (sp_tables a) (delete n (sp_user a))) q =
  refs held (Space (sp_free a) (sp_tables a) (<[n := (p, f)]> (sp_user a))) q.
Proof.
  unfold refs, hold. cbn [sp_tables sp_user]. rewrite page_uses_insert. cbn [fst].
  destruct (decide (q = p)), (decide (p = q)); (congruence || lia).
Qed.

Lemma unmap_map held n p f a :
  sp_free (unmap (hold p held) n a) = sp_free (map_page held n p f a) /\
  sp_tables (map_page held n p f a) = sp_tables a /\
  sp_user (map_page held n p f a) = <[n := (p, f)]> (sp_user a) /\
  (forall q, refs (hold p held) (unmap (hold p held) n a) q = refs held (map_page held n p f a) q).
Proof.
  unfold unmap, map_page. destruct (sp_user a !! n) as [[q g]|] eqn:HU.
  - unfold give_back. rewrite (unmap_hold held n p f a q). destruct (_ =? 0); cbn; (split_and!; [done..|]);
      intros q'; apply (unmap_hold held n p f a q').
  - split_and!; [done..|]. intros q. rewrite <- (unmap_hold held n p f a q). by rewrite delete_id.
Qed.

(** The page is unmapped, if there is one. *)
Lemma when_present_run s held a va t : space_ok s D held a -> user_va va -> let n := va / PGSIZE in
  sp_tables a !! (n / 1024) = Some t ->
  exists s', (x ← ld (at_ (Z.of_nat t) (n mod 1024)); when (negb (Z.land x PTE_P =? 0)) (page_remove (kern_pgdir s) va)) s
      = Ok (tt, s') /\
    space_ok s' D held (unmap held n a) /\ npages s' = npages s /\ kern_pgdir s' = kern_pgdir s.
Proof.
  intros Hs Hva n HT. destruct (va_index va Hva) as (Hn & _). fold n in Hn.
  mstep (PTE_run s held a n t Hs Hn HT). pose proof (sk_tables _ _ _ _ Hs) as Ht.
  pose proof (to_pte _ _ _ _ _ _ Ht n t Hn HT) as He.
  destruct (sp_user a !! n) as [[q g]|] eqn:HU.
  - destruct (to_user _ _ _ _ _ _ Ht n q g HU) as (_ & Hq & Hg & _).
    pose proof (sk_fits _ _ _ _ Hs) as Hf. unfold fits in Hf.
    destruct (entry_flags q g ltac:(lia) Hg) as (_ & HP & _). rewrite He, (proj2 (Z.eqb_neq _ _) HP).
    by apply page_remove_run.
  - rewrite He. exists s. split; [done|]. unfold unmap. by rewrite HU.
Qed.

(** The new entry, and its permissions in the directory. *)
Lemma finish_insert s held p f a va t : space_ok s D (hold p held) (unmap (hold p held) (va / PGSIZE) a) ->
  user_va va -> let n := va / PGSIZE in sp_tables a !! (n / 1024) = Some t ->
  Z.of_nat p < npages s -> 0 <= f < PGSIZE -> (1 <= held (Z.to_nat D)) -> (forall q, 0 <= held q) ->
  let pde := w32 (kern_pgdir s + 4 * PDX va) in
  exists s', (sto (at_ (Z.of_nat t) (n mod 1024)) (Z.lor (Z.lor (page2pa p) f) PTE_P) ;;
              y ← ld pde; sto pde (Z.lor y f) ;; mret 0) s = Ok (0, s') /\
    space_ok s' D held (map_page held n p f a) /\ npages s' = npages s /\ kern_pgdir s' = kern_pgdir s.
Proof.
  intros [Hf Hl Hd Hc Ht _ _] Hva n HT Hp Hfl HD Hh pde. fold n in Hc, Ht.
  destruct (va_index va Hva) as (Hn & HPX & _). fold n in Hn, HPX. destruct (user_index n Hn) as [Hdr Hx].
  destruct (unmap_maps (hold p held) n a) as [HM1 HM2]. rewrite HM1, HM2 in Ht.
  destruct (unmap_map held n p f a) as (HF & HT' & HU' & HR).
  destruct (to_table _ _ _ _ _ _ Ht _ _ HT) as (_ & Htn & HtD).
  pose proof (to_dir _ _ _ _ _ _ Ht) as HDr. assert (0 <= n / 1024 < 1024) as Hd' by (change NTABLES with 955 in Hdr; lia).
  unfold fits in Hf. rewrite page2pa_page by lia. fold (entry_of p f).
  destruct (entry_flags p f ltac:(lia) Hfl) as (_ & _ & Hw).
  mstep (phys_sto_run s (Z.of_nat t) (n mod 1024) Hf ltac:(lia) Hx (entry_of p f)). rewrite Hw.
  set (s1 := set_pmem (set_pword (Z.of_nat t) (n mod 1024) (entry_of p f) (pmem s)) s).
  assert (tables_ok (npages s) (pmem s1) (tlb s) D (sp_tables a) (<[n := (p, f)]> (sp_user a))) as Ht1.
  { rewrite <- (tables_tlb _ _ _ _ _ _ Ht n) by (done || apply lookup_delete_eq).
    rewrite <- insert_delete_eq. by apply (tables_entry _ _ _ _ _ _ Ht n t _ (Some (p, f))). }
  unfold pde. rewrite HPX, Hd, (proj1 (at_index s D (n / 1024) Hf HDr Hd')).
  mstep (phys_ld_run s1 D (n / 1024) Hf HDr Hd').
  pose proof (to_pde _ _ _ _ _ _ Ht1 _ Hdr) as He. rewrite HT in He. destruct He as (g & He & Hg).
  rewrite He, entry_more. assert (0 <= Z.lor g f < PGSIZE) as Hgf by by apply lor_flags_bound.
  destruct (entry_flags t (Z.lor g f) ltac:(lia) Hgf) as (_ & _ & Hw2).
  mstep (phys_sto_run s1 D (n / 1024) Hf HDr Hd' (entry_of t (Z.lor g f))). rewrite Hw2.
  eexists. split; [done|]. split; [|done]. split; try done.
  - cbn. eapply counts_ext; [|rewrite <- HF; exact Hc]. intros q. by rewrite HR.
  - rewrite HT', HU'. cbn. by apply (tables_perm _ _ _ _ _ _ Ht1 _ t).
Qed.

Lemma page_insert_run s held p f a a1 va : space_ok s D held a -> user_va va ->
  with_table (va / PGSIZE) a = Some a1 -> Z.of_nat p < npages s -> p ∉ sp_free a -> 0 <= f < PGSIZE ->
  refs held a p + 1 < 2 ^ 16 ->
  exists s', page_insert (kern_pgdir s) p va f s = Ok (0, s') /\
    space_ok s' D held (map_page held (va / PGSIZE) p f a1) /\ npages s' = npages s /\ kern_pgdir s' = kern_pgdir s.
Proof.
  intros Hs Hva Ha1 Hp Hpf Hf Hb. set (n := va / PGSIZE) in *.
  destruct (with_table_some n a a1 Ha1) as (_ & HU & Hfree & Hrefs).
  destruct (walk_create s held a va a1 Hs Hva Ha1) as (t & s1 & R1 & HT & Hs1 & Hn1 & Hk1). fold n in R1, HT.
  destruct (va_index va Hva) as (Hn & _). fold n in Hn.
  destruct (page_info s1 held a1 p Hs1 ltac:(lia)) as (i & Hi & Hri).
  pose proof (set_ref_ok s1 held a1 p i Hs1 Hi (Hfree p Hpf) ltac:(rewrite Hrefs by done; lia)) as Hs2.
  set (s2 := set_pages _ s1) in Hs2.
  destruct (when_present_run s2 _ a1 va t Hs2 Hva HT) as (s3 & R3 & Hs3 & Hn3 & Hk3). fold n in R3, Hs3.
  change (kern_pgdir s2) with (kern_pgdir s1) in *. change (npages s2) with (npages s1) in *.
  destruct (finish_insert s3 held p f a1 va t Hs3 Hva HT ltac:(lia) Hf (sk_held_dir _ _ _ _ Hs) (sk_held _ _ _ _ Hs))
    as (s4 & R4 & Hs4 & Hn4 & Hk4). fold n in R4, Hs4.
  exists s4. split; [|split; [done|]; split; congruence].
  unfold page_insert. mstep R1. rewrite at_nonzero by (pose proof (user_index n Hn); lia).
  mstep (info_run s1 p i Hi). mstep (set_ref_run s1 p i (pp_ref i + 1) Hi). fold s2.
  rewrite Hk1 in R3. rewrite <- bind_bind, (bind_ok _ _ _ _ _ R3).
  by rewrite Hk3, Hk1 in R4.
Qed.

Lemma page_insert_full s held p f a va : space_ok s D held a -> user_va va ->
  with_table (va / PGSIZE) a = None -> page_insert (kern_pgdir s) p va f s = Ok (- E_NO_MEM, s).
Proof.
  intros Hs Hva Ha. unfold with_table in Ha.
  destruct (sp_tables a !! (va / PGSIZE / 1024)) as [t|] eqn:HT; [done|].
  destruct (sp_free a) as [|t L] eqn:HL; [|done].
  unfold page_insert. by mstep (pgdir_walk_none s held a va Hs Hva true HT (or_intror HL)).
Qed.
End Space.
