(* ===== verification/PmapProps.v ===== *)
(** * Properties of the memory management of JOS *)

From S2P Require Import Prelude Layout Pmap PmapSpec.

(** ** Initialisation *)

Section Init.
Context `{Kernel}.

(** The pages [page_init] frees, and the references of the others. *)
Definition usable (first : Z) (i : nat) : bool :=
  bool_decide (i <> 0%nat) &&
  ((Z.of_nat i <? IOPHYSMEM / PGSIZE) || (first <=? Z.of_nat i)).
Definition reserved (first : Z) (i : nat) : Z := if usable first i then 0 else 1.

(** The references when the loop is at the page [k]. *)
Definition reserved_below (first : Z) (k i : nat) : Z :=
  if (i <? k)%nat then reserved first i else 0.

Record init_inv (s : jos) (first : Z) (k : nat) (L : list nat) : Prop := InitInv {
  ii_next : nextfree s = KERNBASE + PGSIZE * first;
  ii_first : EXTPHYSMEM / PGSIZE <= first <= npages s;
  ii_fits : fits s;
  ii_base : npages_basemem s <= IOPHYSMEM / PGSIZE;
  ii_len : length (pages s) = Z.to_nat (npages s);
  ii_counts : counts_ok (pages s) (page_free_list s) L (reserved_below first k);
  ii_list : L = rev (filter (usable first) (seq 0 k))
}.

Lemma boot_alloc_peek s : nextfree s <> 0 -> boot_alloc 0 s = Ok (nextfree s, s).
Proof. intros Hn. unfold boot_alloc. mrun. by rewrite (proj2 (Z.eqb_neq _ _) Hn). Qed.

Lemma reserved_below_S first k i :
  reserved_below first (S k) i = if decide (i = k) then reserved first k else reserved_below first k i.
Proof.
  unfold reserved_below. destruct (decide (i = k)) as [->|Hne].
  - by rewrite (proj2 (Nat.ltb_lt _ _)) by lia.
  - destruct (Nat.ltb_spec i (S k)), (Nat.ltb_spec i k); (done || lia).
Qed.

Lemma not_listed first k : k ∉ rev (filter (usable first) (seq 0 k)).
Proof. rewrite list_elem_of_In, <- in_rev, <- list_elem_of_In, list_elem_of_filter, elem_of_seq. lia. Qed.

Lemma listed_S first k : rev (filter (usable first) (seq 0 (S k))) =
  if usable first k then k :: rev (filter (usable first) (seq 0 k)) else rev (filter (usable first) (seq 0 k)).
Proof.
  rewrite seq_S, filter_app, rev_app_distr. cbn [plus]. destruct (usable first k) eqn:Hu.
  - rewrite filter_cons_True by (cbn; by rewrite Hu). by rewrite filter_nil.
  - rewrite filter_cons_False by (cbn; rewrite Hu; by intros []). by rewrite filter_nil.
Qed.

(** What a round of the loop makes of a page. *)
Lemma free_here_run s first k L : init_inv s first k L -> (k < length (pages s))%nat -> usable first k = true ->
  exists s', free_here k s = Ok (tt, s') /\ init_inv s' first (S k) (k :: L) /\
    s' = set_pages (pages s') (set_page_free_list (page_free_list s') s).
Proof.
  intros [H1 H2 H3 H4 H5 Hc HL] Hk Hu. destruct (lookup_lt_is_Some_2 _ _ Hk) as [i Hi].
  assert (k ∉ L) as HkL.
  { rewrite HL. apply not_listed. }
  assert (reserved_below first k k = 0) as Hz by (unfold reserved_below; by rewrite Nat.ltb_irrefl).
  pose proof (counts_change _ _ _ _ k i (reserved_below first (S k)) 0 Hc Hi HkL) as Hc1.
  assert (reserved first k = 0) as Hr by (unfold reserved; by rewrite Hu).
  specialize (Hc1 ltac:(intros q; rewrite reserved_below_S; case_decide; by rewrite ?Hr) ltac:(done)).
  set (P1 := <[k := _]> (pages s)) in Hc1.
  assert (P1 !! k = Some (Page (pp_link i) (0 mod 2 ^ 16))) as Hi1 by by apply list_lookup_insert_eq.
  pose proof (counts_free _ _ _ _ k _ Hc1 Hi1 HkL) as Hc2. cbn [pp_ref] in Hc2.
  rewrite reserved_below_S, decide_True in Hc2 by done. specialize (Hc2 Hr).
  eexists. unfold free_here. mstep (set_ref_run s k i 0 Hi). fold P1.
  mstep (set_link_run (set_pages P1 s) k _ (page_free_list s) Hi1). split; [done|]. split; [|done].
  split; try done.
  - cbn. unfold P1. by rewrite !length_insert.
  - by rewrite listed_S, Hu, HL.
Qed.

Lemma set_used_run s first k L : init_inv s first k L -> (k < length (pages s))%nat -> usable first k = false ->
  exists s', set_ref k 1 s = Ok (tt, s') /\ init_inv s' first (S k) L /\
    s' = set_pages (pages s') (set_page_free_list (page_free_list s') s).
Proof.
  intros [H1 H2 H3 H4 H5 Hc HL] Hk Hu. destruct (lookup_lt_is_Some_2 _ _ Hk) as [i Hi].
  assert (k ∉ L) as HkL.
  { rewrite HL. apply not_listed. }
  eexists. split; [by apply set_ref_run|]. split; [|by destruct s]. split; try done.
  - cbn. by rewrite length_insert.
  - apply (counts_change _ _ _ _ k i _ 1 Hc Hi HkL); [|done].
    intros q. rewrite reserved_below_S. unfold reserved. by rewrite Hu.
  - by rewrite listed_S, Hu.
Qed.

(** The body of the loop. *)
Lemma init_step s first k L : init_inv s first k L -> (0 < k < length (pages s))%nat ->
  exists s' L', (base ← gets npages_basemem;
      if Z.of_nat k <? base then free_here k
      else if (IOPHYSMEM / PGSIZE <=? Z.of_nat k) && (Z.of_nat k <? EXTPHYSMEM / PGSIZE) then set_ref k 1
      else if EXTPHYSMEM / PGSIZE <=? Z.of_nat k then
        nf ← boot_alloc 0; pa ← PADDR nf;
        if Z.of_nat k <? pa / PGSIZE then set_ref k 1 else free_here k
      else free_here k) s = Ok (tt, s') /\ init_inv s' first (S k) L' /\
    s' = set_pages (pages s') (set_page_free_list (page_free_list s') s).
Proof.
  intros Hi [Hk0 Hk]. pose proof Hi as [H1 H2 H3 H4 H5 _ _]. mrun.
  change (IOPHYSMEM / PGSIZE) with 160 in *. change (EXTPHYSMEM / PGSIZE) with 256 in *.
  unfold fits in H3.
  assert (forall c, usable first k = c -> exists s' L',
    (if c then free_here k else set_ref k 1) s = Ok (tt, s') /\ init_inv s' first (S k) L' /\
    s' = set_pages (pages s') (set_page_free_list (page_free_list s') s)) as Hdo.
  { intros [] Hu; [destruct (free_here_run s first k L Hi Hk Hu) as (s' & ?); by exists s', (k :: L)|].
    destruct (set_used_run s first k L Hi Hk Hu) as (s' & ?). by exists s', L. }
  unfold usable in Hdo. rewrite bool_decide_true in Hdo by lia. change (IOPHYSMEM / PGSIZE) with 160 in Hdo.
  cbn [andb] in Hdo. destruct (Z.ltb_spec (Z.of_nat k) (npages_basemem s)).
  { apply (Hdo true). by rewrite (proj2 (Z.ltb_lt (Z.of_nat k) 160)) by lia. }
  destruct (Z.leb_spec 160 (Z.of_nat k)) as [Ha|Ha], (Z.ltb_spec (Z.of_nat k) 256) as [Hb|Hb]; cbn [andb].
  - apply (Hdo false). rewrite orb_false_iff. lia.
  - rewrite (proj2 (Z.leb_le 256 _)) by lia.
    mstep (boot_alloc_peek s ltac:(rewrite H1; unfold KERNBASE, PGSIZE; lia)). rewrite H1. unfold PADDR.
    destruct (Z.ltb_spec (KERNBASE + PGSIZE * first) KERNBASE); [unfold PGSIZE in *; lia|]. mrun.
    rewrite w32_small by (unfold PGSIZE; lia).
    replace (KERNBASE + PGSIZE * first - KERNBASE) with (first * PGSIZE) by lia. rewrite Z.div_mul by done.
    destruct (Z.ltb_spec (Z.of_nat k) first); [apply (Hdo false)|apply (Hdo true)];
      [rewrite orb_false_iff|rewrite orb_true_iff]; lia.
  - rewrite (proj2 (Z.leb_gt 256 _)) by lia. apply (Hdo true). rewrite orb_true_iff. lia.
  - lia.
Qed.

Lemma init_loop s first k n L : init_inv s first k L -> (0 < k)%nat -> (k + n)%nat = length (pages s) ->
  exists s' L', for_each (seq k n) (fun i =>
      base ← gets npages_basemem;
      if Z.of_nat i <? base then free_here i
      else if (IOPHYSMEM / PGSIZE <=? Z.of_nat i) && (Z.of_nat i <? EXTPHYSMEM / PGSIZE) then set_ref i 1
      else if EXTPHYSMEM / PGSIZE <=? Z.of_nat i then
        nf ← boot_alloc 0; pa ← PADDR nf;
        if Z.of_nat i <? pa / PGSIZE then set_ref i 1 else free_here i
      else free_here i) s = Ok (tt, s') /\ init_inv s' first (k + n) L' /\
    s' = set_pages (pages s') (set_page_free_list (page_free_list s') s).
Proof.
  revert s k L. induction n as [|n IH]; intros s k L Hi Hk Hl.
  - exists s, L. rewrite Nat.add_0_r. split; [done|]. split; [done|]. by destruct s.
  - destruct (init_step s first k L Hi ltac:(lia)) as (s1 & L1 & R1 & Hi1 & E1).
    assert ((S k + n)%nat = length (pages s1)) as Hl1.
    { rewrite (ii_len _ _ _ _ Hi1), E1. cbn. rewrite <- (ii_len _ _ _ _ Hi). lia. }
    destruct (IH s1 (S k) L1 Hi1 ltac:(lia) Hl1) as (s2 & L2 & R2 & Hi2 & E2).
    exists s2, L2. replace (k + S n)%nat with (S k + n)%nat by lia. split; [|split; [done|]].
    + cbn [seq for_each]. rewrite (bind_ok _ _ _ _ _ R1). apply R2.
    + rewrite E2, E1. done.
Qed.

(** The machine when [page_init] is called: the descriptors are cleared, [boot_alloc] has
    given away the memory below the page [first], and nothing is mapped below [UTOP] by the
    directory, which is in the page [D]. *)
Record booting (s : jos) (first D : Z) : Prop := Booting {
  bo_next : nextfree s = KERNBASE + PGSIZE * first;
  bo_first : EXTPHYSMEM / PGSIZE <= first <= npages s;
  bo_fits : fits s;
  bo_base : npages_basemem s <= IOPHYSMEM / PGSIZE;
  bo_pages : pages s = replicate (Z.to_nat (npages s)) (Page None 0);
  bo_list : page_free_list s = None;
  bo_dir : kern_pgdir s = at_ D 0;
  bo_dir_page : EXTPHYSMEM / PGSIZE <= D < first;
  bo_words : forall d, 0 <= d < NTABLES -> Z.land (pword (pmem s) D d) PTE_P = 0;
  bo_tlb : forall n, 0 <= n < NUSER -> tlb s !! n = None
}.

Lemma booting_inv s first D : booting s first D ->
  exists s1, set_ref 0 1 s = Ok (tt, s1) /\ init_inv s1 first 1 [] /\
    s1 = set_pages (pages s1) (set_page_free_list (page_free_list s1) s).
Proof.
  intros [H1 H2 H3 H4 H5 H6 _ _ _ _]. unfold fits in H3.
  assert (pages s !! 0%nat = Some (Page None 0)) as Hi by (rewrite H5; apply lookup_replicate_2; lia).
  eexists. split; [by apply set_ref_run|]. split; [|by destruct s; cbn in *; subst].
  assert (counts_ok (pages s) (page_free_list s) [] (fun _ => 0)) as Hc.
  { rewrite H6. split; [done|constructor|by intros ? ?%elem_of_nil| |]; intros p j; rewrite H5;
      intros [-> _]%lookup_replicate_1; done. }
  split; try done.
  - cbn. rewrite length_insert, H5. apply length_replicate.
  - apply (counts_change _ _ _ _ 0 _ _ 1 Hc Hi); [by intros ?%elem_of_nil| |done].
    intros q. unfold reserved_below. destruct (decide (q = 0%nat)) as [->|]; [done|].
    by destruct (Nat.ltb_spec q 1); [lia|].
Qed.

(** [page_init] puts just the pages into the free list that neither the BIOS, the devices nor
    the kernel use; from then on the free list and the reference counts describe an empty
    address space.  Nothing else of the machine changes. *)
Theorem page_init_frees_the_unused s first D : booting s first D ->
  exists s', page_init s = Ok (tt, s') /\
    space_ok s' D (reserved first) (Space (rev (filter (usable first) (seq 0 (Z.to_nat (npages s))))) ∅ ∅) /\
    s' = set_pages (pages s') (set_page_free_list (page_free_list s') s).
Proof.
  intros Hb. destruct (booting_inv s first D Hb) as (s1 & R1 & Hi1 & E1).
  destruct Hb as [H1 H2 H3 H4 H5 H6 H7 H8 H9 H10]. unfold fits in H3.
  pose proof (ii_len _ _ _ _ Hi1) as Hl. assert (npages s1 = npages s) as Hn1 by by rewrite E1.
  destruct (init_loop s1 first 1 (Z.to_nat (npages s) - 1) [] Hi1 ltac:(lia) ltac:(lia)) as (s2 & L & R2 & Hi2 & E2).
  replace (1 + (Z.to_nat (npages s) - 1))%nat with (Z.to_nat (npages s)) in Hi2 by lia.
  exists s2. split; [|split; [|by rewrite E2, E1]].
  { unfold page_init. mstep R1. rewrite Hn1. apply R2. }
  destruct Hi2 as [_ _ _ _ Hlen Hc HL]. rewrite <- HL.
  assert (npages s2 = npages s /\ kern_pgdir s2 = kern_pgdir s /\ pmem s2 = pmem s /\ tlb s2 = tlb s)
    as (Hn2 & Hk2 & Hm2 & Ht2) by by rewrite E2, E1.
  change (EXTPHYSMEM / PGSIZE) with 256 in *.
  split; [unfold fits; by rewrite Hn2|done|congruence| | |intros p; unfold reserved; by destruct (usable first p)|].
  - destruct Hc as [Hc1 Hc2 Hc3 Hc4 Hc5].
    assert (forall p i, pages s2 !! p = Some i ->
      refs (reserved first) (Space L ∅ ∅) p = reserved_below first (Z.to_nat (npages s)) p) as Hr.
    { intros p i Hi%lookup_lt_Some. unfold refs, reserved_below. cbn [sp_tables sp_user]. rewrite !uses_empty.
      rewrite (proj2 (Nat.ltb_lt _ _)) by lia. lia. }
    split; [done|done| |done|]; cbn [sp_free].
    + intros p Hp. destruct (chain_lookup _ _ _ _ Hc1 Hp) as [i Hi]. rewrite (Hr p i Hi). by apply Hc3.
    + intros p i Hi. rewrite (Hr p i Hi). by apply Hc5.
  - cbn. rewrite Hm2, Ht2, Hn2. split; try done.
    + lia.
    + intros n x Hn. by rewrite H10.
  - unfold reserved, usable. change (IOPHYSMEM / PGSIZE) with 160.
    rewrite (proj2 (Z.ltb_ge _ 160)), (proj2 (Z.leb_gt first _)) by lia. by rewrite andb_false_r.
Qed.
End Init.

(** ** Calls on an address space *)

Inductive call :=
  | Alloc (flags : Z) | Free (pp : nat)
  | Insert (pp : nat) (va perm : Z) | Remove (va : Z) | Lookup (va : Z) | Access (va : Z).
Inductive answer := Page_is (o : option nat) | Code (z : Z) | Done.

Definition run_call (c : call) : Jm answer :=
  pgdir ← gets kern_pgdir;
  match c with
  | Alloc flags => o ← page_alloc flags; mret (Page_is o)
  | Free pp => page_free pp ;; mret Done
  | Insert pp va perm => z ← page_insert pgdir pp va perm; mret (Code z)
  | Remove va => page_remove pgdir va ;; mret Done
  | Lookup va => o ← page_lookup pgdir va; mret (Page_is (fst <$> o))
  | Access va => o ← translate va; mret (Page_is o)
  end.

Fixpoint run_calls (l : list call) : Jm (list answer) :=
  match l with
  | [] => mret []
  | c :: l' => r ← run_call c; rs ← run_calls l'; mret (r :: rs)
  end.

(** What a call may be: a page that is freed or mapped is not in the free list, a page that
    is freed has no users, addresses are below [UTOP], and a count fits its 16 bits. *)
Definition allowed (np : Z) (held : nat -> Z) (a : space) (c : call) : Prop :=
  match c with
  | Alloc _ => True
  | Free pp => Z.of_nat pp < np /\ (pp ∉ sp_free a) /\ refs held a pp = 0
  | Insert pp va perm => Z.of_nat pp < np /\ (pp ∉ sp_free a) /\ user_va va /\ 0 <= perm < PGSIZE /\
      refs held a pp + 1 < 2 ^ 16
  | Remove va | Lookup va | Access va => user_va va
  end.

(** What it does. *)
Definition spec_call (held : nat -> Z) (c : call) (a : space) : answer * space :=
  match c with
  | Alloc _ =>
      match sp_free a with
      | [] => (Page_is None, a)
      | p :: L => (Page_is (Some p), Space L (sp_tables a) (sp_user a))
      end
  | Free pp => (Done, Space (pp :: sp_free a) (sp_tables a) (sp_user a))
  | Insert pp va perm =>
      match with_table (va / PGSIZE) a with
      | Some a1 => (Code 0, map_page held (va / PGSIZE) pp perm a1)
      | None => (Code (- E_NO_MEM), a)
      end
  | Remove va => (Done, unmap held (va / PGSIZE) a)
  | Lookup va | Access va => (Page_is (fst <$> (sp_user a !! (va / PGSIZE))), a)
  end.

Fixpoint spec_calls (np : Z) (held : nat -> Z) (l : list call) (a : space) (rs : list answer) (a' : space) : Prop :=
  match l, rs with
  | [], [] => a' = a
  | c :: l', r :: rs' => allowed np held a c /\ r = fst (spec_call held c a) /\
      spec_calls np held l' (snd (spec_call held c a)) rs' a'
  | _, _ => False
  end.

Lemma page_free_run s D held a p : space_ok s D held a -> Z.of_nat p < npages s -> p ∉ sp_free a ->
  refs held a p = 0 ->
  exists s', page_free p s = Ok (tt, s') /\
    space_ok s' D held (Space (p :: sp_free a) (sp_tables a) (sp_user a)) /\ npages s' = npages s.
Proof.
  intros Hs Hp Hpf Hr. destruct (page_info D s held a p Hs Hp) as (i & Hi & Hri).
  destruct Hs as [Hf Hl Hd Hc Ht Hh HD]. pose proof (co_used _ _ _ _ Hc p i Hi Hpf) as Hln.
  unfold page_free. mstep (info_run s p i Hi). rewrite Hri, Hr, Hln. cbn [negb Z.eqb].
  rewrite bool_decide_false by (by intros []). mrun.
  mstep (set_link_run s p i (page_free_list s) Hi). eexists. split; [done|]. split; [|done].
  split; try done.
  - etrans; [apply length_insert|done].
  - by apply (counts_free _ _ _ _ p i Hc Hi).
Qed.

Lemma translate_run s D held a va : space_ok s D held a -> user_va va ->
  exists s', translate va s = Ok (fst <$> (sp_user a !! (va / PGSIZE)), s') /\ space_ok s' D held a /\
    npages s' = npages s.
Proof.
  intros Hs Hva. destruct (va_index va Hva) as (Hn & _). unfold translate. mrun. rewrite PGNUM_div.
  set (n := va / PGSIZE) in *. pose proof Hs as [Hf Hl Hd Hc Ht Hh HD]. unfold fits in Hf.
  destruct (tlb s !! n) as [x|] eqn:Hx.
  { destruct (to_tlb _ _ _ _ _ _ Ht n x Hn Hx) as (p & f & HU & ->).
    destruct (to_user _ _ _ _ _ _ Ht n p f HU) as (_ & Hp & Hfl & _).
    rewrite (proj1 (entry_flags p f ltac:(lia) Hfl)), PGNUM_page, Nat2Z.id, HU. by exists s. }
  mrun. destruct (sp_user a !! n) as [[p f]|] eqn:HU.
  - destruct (lookup_some D s held a va p f Hs Hva HU) as (t & HT & R). fold n in R, HT. mstep R.
    mstep (PTE_run D s held a n t Hs Hn HT).
    pose proof (to_pte _ _ _ _ _ _ Ht n t Hn HT) as He. rewrite HU in He. rewrite He.
    eexists. split; [done|]. split; [|done]. split; try done. cbn.
    destruct Ht as [H1 H2 H3 H4 H5 H6 H7]. split; try done.
    intros k x Hk. rewrite lookup_insert_Some. intros [[<- <-]|[_ ?]]; eauto.
  - exists s. split; [|done]. by mstep (lookup_none D s held a va Hs Hva HU).
Qed.

Lemma run_call_spec s D held a c : space_ok s D held a -> allowed (npages s) held a c ->
  exists s', run_call c s = Ok (fst (spec_call held c a), s') /\
    space_ok s' D held (snd (spec_call held c a)) /\ npages s' = npages s.
Proof.
  intros Hs Hc. unfold run_call. mrun. destruct c as [flags|p|p va f|va|va|va]; cbn [allowed spec_call] in *.
  - destruct a as [[|p L] T U]; cbn.
    + pose proof (co_chain _ _ _ _ (sk_counts _ _ _ _ Hs)) as Hl. cbn in Hl.
      exists s. split; [|done]. by mstep (page_alloc_empty flags s Hl).
    + destruct (page_alloc_ok D flags s held p L T U Hs) as (s' & R & Hs' & Hn & _).
      exists s'. split; [|done]. by mstep R.
  - destruct Hc as (Hp & Hpf & Hr). destruct (page_free_run s D held a p Hs Hp Hpf Hr) as (s' & R & ?).
    exists s'. split; [|done]. by mstep R.
  - destruct Hc as (Hp & Hpf & Hva & Hf & Hb). destruct (with_table (va / PGSIZE) a) as [a1|] eqn:Ha1.
    + destruct (page_insert_run D s held p f a a1 va Hs Hva Ha1 Hp Hpf Hf Hb) as (s' & R & Hs' & Hn & _).
      exists s'. split; [|done]. by mstep R.
    + exists s. split; [|done]. by mstep (page_insert_full D s held p f a va Hs Hva Ha1).
  - destruct (page_remove_run D s held a va Hs Hc) as (s' & R & Hs' & Hn & _).
    exists s'. split; [|done]. by mstep R.
  - exists s. split; [|done]. destruct (sp_user a !! (va / PGSIZE)) as [[p f]|] eqn:HU.
    + destruct (lookup_some D s held a va p f Hs Hc HU) as (t & _ & R). by mstep R.
    + by mstep (lookup_none D s held a va Hs Hc HU).
  - destruct (translate_run s D held a va Hs Hc) as (s' & R & ?). exists s'. split; [|done]. by mstep R.
Qed.

(** C24. Whatever pages are allocated, freed, mapped and unmapped in whatever order, the memory
    management answers as a map of the address space with a list of free pages does: a page
    is freed when the last place where it is mapped goes away, page tables are allocated on
    demand, a call without memory for one changes nothing, and no call panics.  The
    reference counts, the tables in memory and the TLB stay in step with the map. *)
Theorem address_space_is_a_map l s D held a rs a' :
  space_ok s D held a -> spec_calls (npages s) held l a rs a' ->
  exists s', run_calls l s = Ok (rs, s') /\ space_ok s' D held a'.
Proof.
  revert s a rs. induction l as [|c l IH]; intros s a rs Hs; cbn [spec_calls run_calls].
  - destruct rs; [|done]. intros ->. by exists s.
  - destruct rs as [|r rs]; [done|]. intros (Hc & -> & Hl).
    destruct (run_call_spec s D held a c Hs Hc) as (s1 & R1 & Hs1 & Hn1). rewrite <- Hn1 in Hl.
    destruct (IH s1 _ rs Hs1 Hl) as (s2 & R2 & Hs2).
    exists s2. split; [|done]. mstep R1. by mstep R2.
Qed.

(** ** Examples *)

(** Five pages: the first is reserved, the second is the directory. *)
Definition five_pages : jos :=
  Jos 5 0 (at_ 1 0) [Page None 1; Page None 1; Page None 0; Page (Some 2%nat) 0; Page (Some 3%nat) 0]
    (Some 4%nat) false (at_ 2 0) ∅ ∅.
Definition five_held (p : nat) : Z := if (p <? 2)%nat then 1 else 0.
Definition five_space : space := Space [4; 3; 2]%nat ∅ ∅.

Lemma five_ok : space_ok five_pages 1 five_held five_space.
Proof.
  split; [done|done|done| | |intros p; unfold five_held; by destruct (p <? 2)%nat|done].
  - split.
    + cbn. repeat (split; [done|]; eexists; split; [done|]). done.
    + apply (bool_decide_unpack _). by vm_compute.
    + intros p Hp. repeat (apply elem_of_cons in Hp as [->|Hp]; [done|]). by apply elem_of_nil in Hp.
    + intros [|[|[|[|[|p]]]]] i; cbn; try (by intros [= <-]); intros [= <-] Hp; [|];
        exfalso; apply Hp; set_solver.
    + intros [|[|[|[|[|p]]]]] i; cbn; try done; intros [= <-]; done.
  - by split.
Qed.

Definition five_calls : list call :=
  [Alloc 0; Insert 4 0x1000 PTE_W; Insert 4 0x1000 PTE_U; Access 0x1000; Insert 4 0x400000 PTE_W;
   Insert 4 0x800000 PTE_W; Remove 0x1000; Access 0x1000; Lookup 0x400000; Remove 0x400000; Alloc 1].
Definition five_answers : list answer :=
  [Page_is (Some 4%nat); Code 0; Code 0; Page_is (Some 4%nat); Code 0; Code (-4); Done; Page_is None;
   Page_is (Some 4%nat); Done; Page_is (Some 4%nat)].

Lemma address_space_is_a_map_witness :
  exists a' s', run_calls five_calls five_pages = Ok (five_answers, s') /\ space_ok s' 1 five_held a'.
Proof.
  eexists. apply (address_space_is_a_map five_calls five_pages 1 five_held five_space five_answers).
  - apply five_ok.
  - unfold five_calls, five_answers. cbn [spec_calls].
    repeat (split; [first [exact I | by vm_compute | unfold allowed, user_va; split_and!; try (by vm_compute);
      apply (bool_decide_unpack _); by vm_compute]|split; [by vm_compute|]]).
    reflexivity.
Defined.

(** A machine of 300 pages, the first 258 of which are in use apart from the base memory. *)
Definition three_hundred : jos :=
  Jos 300 160 (at_ 256 0) (replicate 300 (Page None 0)) None false (KERNBASE + PGSIZE * 258) ∅ ∅.
#[export] Instance image : Kernel := {| kernel_end := 0xF0100A00; bootstack := 0xF0100000 |}.

Lemma page_init_frees_the_unused_witness :
  booting three_hundred 258 256 /\
  exists s', page_init three_hundred = Ok (tt, s') /\
    space_ok s' 256 (reserved 258) (Space (rev (filter (usable 258) (seq 0 300))) ∅ ∅).
Proof.
  assert (booting three_hundred 258 256) as Hb by by split.
  split; [exact Hb|]. destruct (page_init_frees_the_unused three_hundred 258 256 Hb) as (s' & R & Hs & _).
  exists s'. exact (conj R Hs).
Defined.
