(* ===== verification/JosBoot.v ===== *)
(** * The start of the memory management of JOS

    [mem_init] of [lab-3/kern/pmap.c] with the checks it runs.  The messages are not printed;
    the control registers, which only switch paging on, are left out. *)

From S2P Require Import Prelude Layout Pmap.

(** The real-time clock, whose memory holds the sizes, and the register [cr4]. *)
Class Hardware := { mc146818_read : Z -> Z; rcr4 : Z }.

Definition MC_NVRAM_START : Z := 0xe.
Definition NVRAM_BASELO : Z := MC_NVRAM_START + 7.
Definition NVRAM_EXTLO : Z := MC_NVRAM_START + 9.
Definition NVRAM_EXT16LO : Z := MC_NVRAM_START + 38.
Definition sizeof_PageInfo : Z := 8.

Section Boot.
Context `{Kernel} `{Hardware}.

Definition nvram_read (r : Z) : Z := Z.lor (mc146818_read r) (Z.shiftl (mc146818_read (r + 1)) 8).

Definition i386_detect_memory : Jm unit :=
  let basemem := nvram_read NVRAM_BASELO in
  let extmem := nvram_read NVRAM_EXTLO in
  let ext16mem := w32 (nvram_read NVRAM_EXT16LO * 64) in
  let totalmem :=
    if negb (ext16mem =? 0) then w32 (16 * 1024 + ext16mem)
    else if negb (extmem =? 0) then 1 * 1024 + extmem
    else basemem in
  when (negb (Z.land rcr4 CR4_PSE =? 0)) (modify (set_fourMB true)) ;;
  modify (set_npages (totalmem / (PGSIZE / 1024))) ;;
  modify (set_npages_basemem (basemem / (PGSIZE / 1024))).

(** ** Checks *)

Definition assert_ (b : bool) (x : string) : Jm unit :=
  if b then mret tt else panic ("assertion failed: " ++ x).

Definition is_page (o : option nat) (what : string) : Jm nat :=
  match o with Some pp => mret pp | None => panic ("assertion failed: " ++ what) end.

(** A loop over the list from [l] on, with a local variable. *)
Fixpoint walk_list {A} (fuel : nat) (l : option nat) (a : A) (body : A -> nat -> Jm A) : Jm A :=
  match l with
  | None => mret a
  | Some pp =>
      match fuel with
      | O => diverge
      | S fuel' => a' ← body a pp; i ← info pp; walk_list fuel' (pp_link i) a' body
      end
  end.

Definition list_fuel : Jm nat := s ← get; mret (length (pages s)).

(** The loop that puts the low pages first: [t1] and [t2] are the links at which the two
    lists end ([None]: the local variables [pp1] and [pp2]). *)
Fixpoint split_list (fuel : nat) (l : option nat) (pdx_limit : Z) (pp1 pp2 t1 t2 : option nat)
    : Jm (option nat * option nat * option nat * option nat) :=
  match l with
  | None => mret (pp1, pp2, t1, t2)
  | Some pp =>
      match fuel with
      | O => diverge
      | S fuel' =>
          if pdx_limit <=? PDX (page2pa pp) then
            match t2 with Some q => set_link q (Some pp) | None => mret tt end ;;
            i ← info pp;
            split_list fuel' (pp_link i) pdx_limit pp1 (match t2 with None => Some pp | _ => pp2 end) t1 (Some pp)
          else
            match t1 with Some q => set_link q (Some pp) | None => mret tt end ;;
            i ← info pp;
            split_list fuel' (pp_link i) pdx_limit (match t1 with None => Some pp | _ => pp1 end) pp2 (Some pp) t2
      end
  end.

Definition low_pages_first (pdx_limit : Z) : Jm unit :=
  fuel ← list_fuel;
  l ← gets page_free_list;
  r ← split_list fuel l pdx_limit None None None None;
  let '(pp1, pp2, t1, t2) := r in
  match t2 with Some q => set_link q None | None => mret tt end ;;
  match t1 with
  | Some q => set_link q pp2 ;; modify (set_page_free_list pp1)
  | None => modify (set_page_free_list pp2)
  end.

Definition check_page_free_list (only_low_memory : bool) : Jm unit :=
  let pdx_limit := if only_low_memory then 1 else NPDENTRIES in
  l ← gets page_free_list;
  (if bool_decide (l = None) then panic "'page_free_list' is a null pointer!" else mret tt) ;;
  when only_low_memory (low_pages_first pdx_limit) ;;
  fuel ← list_fuel;
  l ← gets page_free_list;
  walk_list fuel l tt (fun _ pp =>
    when (PDX (page2pa pp) <? pdx_limit) (v ← page2kva pp; memset_page v 0x97 128)) ;;
  first_free_page ← boot_alloc 0;
  n ← walk_list fuel l (0, 0) (fun n pp =>
    s ← get;
    assert_ (pp <? length (pages s))%nat "pp < pages + npages" ;;
    let pa := page2pa pp in
    assert_ (negb (pa =? 0)) "page2pa(pp) != 0" ;;
    assert_ (negb (pa =? IOPHYSMEM)) "page2pa(pp) != IOPHYSMEM" ;;
    assert_ (negb (pa =? EXTPHYSMEM - PGSIZE)) "page2pa(pp) != EXTPHYSMEM - PGSIZE" ;;
    assert_ (negb (pa =? EXTPHYSMEM)) "page2pa(pp) != EXTPHYSMEM" ;;
    (if pa <? EXTPHYSMEM then mret tt
     else v ← page2kva pp; assert_ (first_free_page <=? v) "page2kva(pp) >= first_free_page") ;;
    mret (if pa <? EXTPHYSMEM then (n.1 + 1, n.2) else (n.1, n.2 + 1)));
  assert_ (0 <? n.1) "nfree_basemem > 0" ;;
  assert_ (0 <? n.2) "nfree_extmem > 0".

(** The number of pages in the free list. *)
Definition count_free : Jm Z :=
  fuel ← list_fuel;
  l ← gets page_free_list;
  walk_list fuel l 0 (fun n _ => mret (n + 1)).

(** Three pages, which are not the same. *)
Definition alloc_three : Jm (nat * nat * nat) :=
  pp0 ← (o ← page_alloc 0; is_page o "pp0 = page_alloc(0)");
  pp1 ← (o ← page_alloc 0; is_page o "pp1 = page_alloc(0)");
  pp2 ← (o ← page_alloc 0; is_page o "pp2 = page_alloc(0)");
  assert_ (bool_decide (pp1 <> pp0)) "pp1 && pp1 != pp0" ;;
  assert_ (bool_decide (pp2 <> pp1 /\ pp2 <> pp0)) "pp2 && pp2 != pp1 && pp2 != pp0" ;;
  mret (pp0, pp1, pp2).

Definition no_free_page : Jm unit :=
  o ← page_alloc 0; assert_ (bool_decide (o = None)) "!page_alloc(0)".

Definition check_page_alloc : Jm unit :=
  nfree ← count_free;
  r ← alloc_three;
  let '(pp0, pp1, pp2) := r in
  np ← gets npages;
  assert_ (page2pa pp0 <? w32 (np * PGSIZE)) "page2pa(pp0) < npages*PGSIZE" ;;
  assert_ (page2pa pp1 <? w32 (np * PGSIZE)) "page2pa(pp1) < npages*PGSIZE" ;;
  assert_ (page2pa pp2 <? w32 (np * PGSIZE)) "page2pa(pp2) < npages*PGSIZE" ;;
  fl ← gets page_free_list;
  modify (set_page_free_list None) ;;
  no_free_page ;;
  page_free pp0 ;; page_free pp1 ;; page_free pp2 ;;
  r ← alloc_three;
  let '(pp0, pp1, pp2) := r in
  no_free_page ;;
  (v ← page2kva pp0; memset_page v 1 PGSIZE) ;;
  page_free pp0 ;;
  pp ← (o ← page_alloc ALLOC_ZERO; is_page o "pp = page_alloc(ALLOC_ZERO)");
  assert_ (bool_decide (pp0 = pp)) "pp && pp0 == pp" ;;
  c ← page2kva pp;
  for_each (seqZ 0 1024) (fun i => x ← ld (w32 (c + 4 * i)); assert_ (x =? 0) "c[i] == 0") ;;
  modify (set_page_free_list fl) ;;
  page_free pp0 ;; page_free pp1 ;; page_free pp2 ;;
  n ← count_free;
  assert_ (nfree - n =? 0) "nfree == 0".

(** The value of a counter, the address of a page, and calls with their results. *)
Definition refs_are (pp : nat) (r : Z) : Jm unit := i ← info pp; assert_ (pp_ref i =? r) "pp_ref".
Definition va_is (pgdir va pa : Z) : Jm unit := x ← check_va2pa pgdir va; assert_ (x =? pa) "check_va2pa".
Definition inserts (pgdir : Z) (pp : nat) (va perm r : Z) : Jm unit :=
  x ← page_insert pgdir pp va perm; assert_ (x =? r) "page_insert".
Definition gets_page (pp : nat) : Jm unit :=
  o ← page_alloc 0; assert_ (bool_decide (o = Some pp)) "(pp = page_alloc(0)) && pp == ...".
Definition entry_has (pgdir va flag : Z) (b : bool) : Jm unit :=
  p ← pgdir_walk pgdir va false; x ← ld p;
  assert_ (Bool.eqb (negb (Z.land x flag =? 0)) b) "*pgdir_walk(kern_pgdir, PGSIZE, 0) & flag".

(** The first part of [check_page]: mapping, until both addresses have [pp1]. *)
Definition check_page_map (kern : Z) (pp0 pp1 pp2 : nat) : Jm unit :=
  no_free_page ;;
  o ← page_lookup kern 0;
  assert_ (bool_decide (o = None)) "page_lookup(kern_pgdir, 0, &ptep) == NULL" ;;
  inserts kern pp1 0 PTE_W (- E_NO_MEM) ;;
  page_free pp0 ;;
  inserts kern pp1 0 PTE_W 0 ;;
  x ← ld kern;
  assert_ (PTE_ADDR x =? page2pa pp0) "PTE_ADDR(kern_pgdir[0]) == page2pa(pp0)" ;;
  va_is kern 0 (page2pa pp1) ;; refs_are pp1 1 ;; refs_are pp0 1 ;;
  inserts kern pp2 PGSIZE PTE_W 0 ;;
  va_is kern PGSIZE (page2pa pp2) ;; refs_are pp2 1 ;;
  no_free_page ;;
  inserts kern pp2 PGSIZE PTE_W 0 ;;
  va_is kern PGSIZE (page2pa pp2) ;; refs_are pp2 1 ;;
  no_free_page ;;
  ptep ← (x ← ld (w32 (kern + 4 * PDX PGSIZE)); KADDR (PTE_ADDR x));
  p ← pgdir_walk kern PGSIZE false;
  assert_ (p =? w32 (ptep + 4 * PTX PGSIZE)) "pgdir_walk(kern_pgdir, PGSIZE, 0) == ptep+PTX(PGSIZE)" ;;
  inserts kern pp2 PGSIZE (Z.lor PTE_W PTE_U) 0 ;;
  va_is kern PGSIZE (page2pa pp2) ;; refs_are pp2 1 ;;
  entry_has kern PGSIZE PTE_U true ;;
  x ← ld kern;
  assert_ (negb (Z.land x PTE_U =? 0)) "kern_pgdir[0] & PTE_U" ;;
  inserts kern pp2 PGSIZE PTE_W 0 ;;
  entry_has kern PGSIZE PTE_W true ;;
  entry_has kern PGSIZE PTE_U false ;;
  inserts kern pp0 PTSIZE PTE_W (- E_NO_MEM) ;;
  inserts kern pp1 PGSIZE PTE_W 0 ;;
  entry_has kern PGSIZE PTE_U false ;;
  va_is kern 0 (page2pa pp1) ;; va_is kern PGSIZE (page2pa pp1) ;;
  refs_are pp1 2 ;; refs_are pp2 0 ;;
  gets_page pp2.

(** The second part: unmapping, and new tables. *)
Definition check_page_unmap (kern : Z) (pp0 pp1 pp2 : nat) : Jm unit :=
  page_remove kern 0 ;;
  va_is kern 0 (w32 (-1)) ;; va_is kern PGSIZE (page2pa pp1) ;;
  refs_are pp1 1 ;; refs_are pp2 0 ;;
  inserts kern pp1 PGSIZE 0 0 ;;
  i ← info pp1;
  assert_ (negb (pp_ref i =? 0)) "pp1->pp_ref" ;;
  assert_ (bool_decide (pp_link i = None)) "pp1->pp_link == NULL" ;;
  page_remove kern PGSIZE ;;
  va_is kern 0 (w32 (-1)) ;; va_is kern PGSIZE (w32 (-1)) ;;
  refs_are pp1 0 ;; refs_are pp2 0 ;;
  gets_page pp1 ;;
  no_free_page ;;
  x ← ld kern;
  assert_ (PTE_ADDR x =? page2pa pp0) "PTE_ADDR(kern_pgdir[0]) == page2pa(pp0)" ;;
  sto kern 0 ;;
  refs_are pp0 1 ;; set_ref pp0 0 ;;
  page_free pp0 ;;
  let va := PGSIZE * NPDENTRIES + PGSIZE in
  ptep ← pgdir_walk kern va true;
  ptep1 ← (x ← ld (w32 (kern + 4 * PDX va)); KADDR (PTE_ADDR x));
  assert_ (ptep =? w32 (ptep1 + 4 * PTX va)) "ptep == ptep1 + PTX(va)" ;;
  sto (w32 (kern + 4 * PDX va)) 0 ;; set_ref pp0 0 ;;
  (v ← page2kva pp0; memset_page v 0xFF PGSIZE) ;;
  page_free pp0 ;;
  pgdir_walk kern 0 true ;;
  ptep ← page2kva pp0;
  for_each (seqZ 0 1024) (fun i =>
    x ← ld (w32 (ptep + 4 * i)); assert_ (Z.land x PTE_P =? 0) "(ptep[i] & PTE_P) == 0") ;;
  sto kern 0 ;; set_ref pp0 0.

Definition check_page : Jm unit :=
  r ← alloc_three;
  let '(pp0, pp1, pp2) := r in
  fl ← gets page_free_list;
  modify (set_page_free_list None) ;;
  kern ← gets kern_pgdir;
  check_page_map kern pp0 pp1 pp2 ;;
  check_page_unmap kern pp0 pp1 pp2 ;;
  modify (set_page_free_list fl) ;;
  page_free pp0 ;; page_free pp1 ;; page_free pp2.

(** The kernel address of a word of linear memory, as the processor finds it. *)
Definition linear (va : Z) : Jm Z :=
  o ← translate va;
  match o with
  | Some pp => v ← page2kva pp; mret (w32 (v + va mod PGSIZE))
  | None => fault "page fault"
  end.
Definition reads (va x : Z) : Jm unit := v ← linear va; y ← ld v; assert_ (y =? x) "*(uint32_t* )va == x".

Definition check_page_installed_pgdir : Jm unit :=
  pp0 ← (o ← page_alloc 0; is_page o "pp0 = page_alloc(0)");
  pp1 ← (o ← page_alloc 0; is_page o "pp1 = page_alloc(0)");
  pp2 ← (o ← page_alloc 0; is_page o "pp2 = page_alloc(0)");
  page_free pp0 ;;
  (v ← page2kva pp1; memset_page v 1 PGSIZE) ;;
  (v ← page2kva pp2; memset_page v 2 PGSIZE) ;;
  kern ← gets kern_pgdir;
  page_insert kern pp1 PGSIZE PTE_W ;;
  refs_are pp1 1 ;;
  reads PGSIZE 0x01010101 ;;
  page_insert kern pp2 PGSIZE PTE_W ;;
  reads PGSIZE 0x02020202 ;;
  refs_are pp2 1 ;; refs_are pp1 0 ;;
  (v ← linear PGSIZE; sto v 0x03030303) ;;
  x ← (v ← page2kva pp2; ld v);
  assert_ (x =? 0x03030303) "*(uint32_t* )page2kva(pp2) == 0x03030303U" ;;
  page_remove kern PGSIZE ;;
  refs_are pp2 0 ;;
  x ← ld kern;
  assert_ (PTE_ADDR x =? page2pa pp0) "PTE_ADDR(kern_pgdir[0]) == page2pa(pp0)" ;;
  sto kern 0 ;;
  refs_are pp0 1 ;; set_ref pp0 0 ;;
  page_free pp0.

(** [pages_va] is the address of the array [pages]. *)
Definition check_kern_pgdir (pages_va : Z) : Jm unit :=
  s ← get;
  let pgdir := kern_pgdir s in
  let n := ROUNDUP (w32 (npages s * sizeof_PageInfo)) PGSIZE in
  base ← PADDR pages_va;
  for_each (seqZ 0 (n / PGSIZE)) (fun i => va_is pgdir (w32 (UPAGES + i * PGSIZE)) (w32 (base + i * PGSIZE))) ;;
  for_each (seqZ 0 (npages s)) (fun i => va_is pgdir (w32 (KERNBASE + i * PGSIZE)) (i * PGSIZE)) ;;
  stack ← PADDR bootstack;
  for_each (seqZ 0 (KSTKSIZE / PGSIZE)) (fun i =>
    va_is pgdir (w32 (KSTACKTOP - KSTKSIZE + i * PGSIZE)) (w32 (stack + i * PGSIZE))) ;;
  va_is pgdir (KSTACKTOP - PTSIZE) (w32 (-1)) ;;
  for_each (seqZ 0 NPDENTRIES) (fun i =>
    x ← ld (w32 (pgdir + 4 * i));
    if (i =? PDX UVPT) || (i =? PDX (KSTACKTOP - 1)) || (i =? PDX UPAGES)
    then assert_ (negb (Z.land x PTE_P =? 0)) "pgdir[i] & PTE_P"
    else if PDX KERNBASE <=? i
    then assert_ (negb (Z.land x PTE_P =? 0)) "pgdir[i] & PTE_P" ;;
         assert_ (negb (Z.land x PTE_W =? 0)) "pgdir[i] & PTE_W"
    else assert_ (x =? 0) "pgdir[i] == 0").

(** ** mem_init *)

Definition mem_init : Jm unit :=
  i386_detect_memory ;;
  kern ← boot_alloc PGSIZE;
  modify (set_kern_pgdir kern) ;;
  memset_page kern 0 PGSIZE ;;
  (pa ← PADDR kern; sto (w32 (kern + 4 * PDX UVPT)) (Z.lor (Z.lor pa PTE_U) PTE_P)) ;;
  np ← gets npages;
  pages_va ← boot_alloc (w32 (np * sizeof_PageInfo));
  modify (set_pages (replicate (Z.to_nat np) (Page None 0))) ;;
  page_init ;;
  check_page_free_list true ;;
  check_page_alloc ;;
  check_page ;;
  (pa ← PADDR pages_va; boot_map_region kern UPAGES (w32 (np * sizeof_PageInfo)) pa (Z.lor PTE_U PTE_P)) ;;
  (pa ← PADDR bootstack; boot_map_region kern (KSTACKTOP - KSTKSIZE) KSTKSIZE pa (Z.lor PTE_W PTE_P)) ;;
  boot_map_region kern KERNBASE (0xffffffff - KERNBASE) 0 (Z.lor PTE_W PTE_P) ;;
  check_kern_pgdir pages_va ;;
  modify (set_tlb ∅) ;;
  check_page_free_list false ;;
  check_page_installed_pgdir.
End Boot.

(** ** A machine *)

#[export] Instance small_kernel : Kernel := {| kernel_end := 0xF0118A00; bootstack := 0xF0110000 |}.
Definition off_machine : jos := Jos 0 0 0 [] None false 0 ∅ ∅.

(** 640 KB of base memory and [kb] of extended memory. *)
Definition with_memory (kb : Z) : Hardware :=
  {| mc146818_read := fun r =>
       if r =? NVRAM_BASELO then 640 mod 256 else if r =? NVRAM_BASELO + 1 then 640 / 256
       else if r =? NVRAM_EXTLO then kb mod 256 else if r =? NVRAM_EXTLO + 1 then kb / 256 else 0;
     rcr4 := 0 |}.

(** The checks of the kernel pass on a machine of 300 pages. *)
Definition fresh_machine : jos :=
  Jos 300 160 (KERNBASE + PGSIZE * 256) (replicate 300 (Page None 0)) None false (KERNBASE + PGSIZE * 258) ∅ ∅.
Example checks_pass :
  match (page_init ;; check_page_free_list true ;; check_page_alloc ;; check_page) fresh_machine with
  | Ok _ => True
  | _ => False
  end.
Proof. by vm_compute. Qed.
