(* ===== verification/Umalloc.v ===== *)
(** * The allocator of user programs

    [lab-2/umalloc.c]: the allocator of Kernighan and Ritchie, a circular list of free blocks
    in the order of their addresses.  A header is two words, the address of the next block
    and the size in headers; [base] is the static header with which the list begins. *)

From S2P Require Import Prelude.

(** The variable [freep], the end of the memory of the process, and its words by their
    address (a word that is not listed is 0). *)
Record heap := Heap { freep : Z; brk : Z; um : gmap Z Z }.

Definition set_freep v s := Heap v (brk s) (um s).
Definition set_brk v s := Heap (freep s) v (um s).
Definition set_um v s := Heap (freep s) (brk s) v.

Abbreviation Hm := (M heap).

(** The address of [base], and whether the kernel lets the process grow from a size by a
    number of bytes. *)
Class Process := { base : Z; grows : Z -> Z -> bool }.

Definition HEADER : Z := 8.

Definition rd (m : gmap Z Z) (a : Z) : Z := default 0 (m !! a).

(** A word of the memory of the process. *)
Definition valid (s : heap) (a : Z) : bool := (0 <? a) && (a mod 4 =? 0) && (a + 4 <=? brk s).
Definition ld (a : Z) : Hm Z := s ← get; if valid s a then mret (rd (um s) a) else fault "address".
Definition sto (a x : Z) : Hm unit :=
  s ← get; if valid s a then modify (set_um (<[a := x]> (um s))) else fault "address".

(** The fields of a header. *)
Definition s_ptr (p : Z) : Hm Z := ld p.
Definition s_size (p : Z) : Hm Z := ld (p + 4).
Definition set_s_ptr (p x : Z) : Hm unit := sto p (w32 x).
Definition set_s_size (p x : Z) : Hm unit := sto (p + 4) (w32 x).

Section Umalloc.
Context `{Process}.

(** The system call: its argument is an [int]. *)
Definition sbrk (n : Z) : Hm Z :=
  s ← get;
  let n := i32 n in
  if grows (brk s) n then modify (set_brk (brk s + n)) ;; mret (brk s) else mret (w32 (-1)).

(** The loop of [free], which looks for the place of the block. *)
Fixpoint free_loop (fuel : nat) (bp p : Z) : Hm Z :=
  match fuel with
  | O => diverge
  | S fuel' =>
      n ← s_ptr p;
      if (p <? bp) && (bp <? n) then mret p
      else if (n <=? p) && ((p <? bp) || (bp <? n)) then mret p
      else free_loop fuel' bp n
  end.

(** More rounds than there are headers in the memory. *)
Definition fuel_of (s : heap) : nat := S (S (Z.to_nat (brk s / HEADER))).

Definition free (ap : Z) : Hm unit :=
  let bp := w32 (ap - HEADER) in
  s ← get;
  p ← free_loop (fuel_of s) bp (freep s);
  bs ← s_size bp;
  n ← s_ptr p;
  (if w32 (bp + HEADER * bs) =? n then
     ns ← s_size n;
     set_s_size bp (bs + ns) ;;
     nn ← s_ptr n;
     set_s_ptr bp nn
   else set_s_ptr bp n) ;;
  ps ← s_size p;
  (if w32 (p + HEADER * ps) =? bp then
     bs ← s_size bp;
     set_s_size p (ps + bs) ;;
     bn ← s_ptr bp;
     set_s_ptr p bn
   else set_s_ptr p bp) ;;
  modify (set_freep p).

Definition morecore (nu : Z) : Hm Z :=
  let nu := if nu <? 4096 then 4096 else nu in
  p ← sbrk (w32 (nu * HEADER));
  if p =? w32 (-1) then mret 0
  else
    set_s_size p nu ;;
    free (w32 (p + HEADER)) ;;
    gets freep.

(** The loop of [malloc], with the block [p] and the one before it. *)
Fixpoint malloc_loop (fuel : nat) (nunits prevp p : Z) : Hm Z :=
  match fuel with
  | O => diverge
  | S fuel' =>
      z ← s_size p;
      if nunits <=? z then
        q ← (if z =? nunits then
               n ← s_ptr p; set_s_ptr prevp n ;; mret p
             else
               set_s_size p (z - nunits) ;;
               z' ← s_size p;
               let q := w32 (p + HEADER * z') in
               set_s_size q nunits ;;
               mret q);
        modify (set_freep prevp) ;;
        mret (w32 (q + HEADER))
      else
        f ← gets freep;
        if p =? f then
          p' ← morecore nunits;
          if p' =? 0 then mret 0
          else n ← s_ptr p'; malloc_loop fuel' nunits p' n
        else n ← s_ptr p; malloc_loop fuel' nunits p n
  end.

Definition malloc (nbytes : Z) : Hm Z :=
  let nunits := w32 (w32 (nbytes + HEADER - 1) / HEADER + 1) in
  f ← gets freep;
  when (f =? 0)
    (modify (set_freep base) ;; set_s_ptr base base ;; set_s_size base 0) ;;
  s ← get;
  n ← s_ptr (freep s);
  malloc_loop (2 * fuel_of s + 2) nunits (freep s) n.
End Umalloc.
