(* ===== verification/UmallocSpec.v ===== *)
(** * The heap as lists of blocks

    The free blocks in the order of their addresses, and the blocks that are in use. *)

From S2P Require Import Prelude Umalloc.

(** ** Words *)

Lemma rd_eq m a x : rd (<[a := x]> m) a = x.
Proof. unfold rd. by rewrite lookup_insert_eq. Qed.
Lemma rd_ne m a b x : a <> b -> rd (<[b := x]> m) a = rd m a.
Proof. intros. unfold rd. by rewrite lookup_insert_ne by congruence. Qed.

(** ** The circular list *)

(** The list from the address [x] on has the headers [l] and goes on at [y]. *)
Fixpoint lseg (m : gmap Z Z) (x : Z) (l : list Z) (y : Z) : Prop :=
  match l with
  | [] => x = y
  | a :: l' => x = a /\ lseg m (rd m a) l' y
  end.

Lemma lseg_app m x l1 l2 y : lseg m x (l1 ++ l2) y <-> exists z, lseg m x l1 z /\ lseg m z l2 y.
Proof.
  revert x. induction l1 as [|a l1 IH]; intros x; cbn.
  - split; [by exists x|]. by intros (z & -> & ?).
  - rewrite IH. naive_solver.
Qed.

Lemma lseg_frame m m' x l y : (forall a, a ∈ l -> rd m' a = rd m a) -> lseg m x l y -> lseg m' x l y.
Proof.
  revert x. induction l as [|a l IH]; intros x Hm; [done|]. intros [-> Hl]. split; [done|].
  rewrite Hm by left. apply IH; [|done]. intros b Hb. apply Hm. by right.
Qed.

Lemma lseg_insert m x l y a v : a ∉ l -> lseg m x l y -> lseg (<[a := v]> m) x l y.
Proof. intros Ha. apply lseg_frame. intros b Hb. apply rd_ne. by intros ->. Qed.

(** The address after a list of headers in a ring that begins and ends at [b]. *)
Definition head_or (b : Z) (l : list Z) : Z := default b (head l).

Lemma lseg_head m x l y b : lseg m x (b :: l) y -> lseg m (rd m b) l y /\ x = b.
Proof. by intros [-> ?]. Qed.

Lemma lseg_next m x l1 a l2 y : lseg m x (l1 ++ a :: l2) y -> rd m a = head_or y l2.
Proof.
  rewrite lseg_app. intros (z & _ & -> & H). destruct l2 as [|b l2]; [done|]. by destruct H as [-> _].
Qed.

(** ** Free blocks *)

(** Blocks in the order of their addresses between [lo] and [hi], with a gap after each. *)
Fixpoint spaced (lo : Z) (F : list (Z * Z)) (hi : Z) : Prop :=
  match F with
  | [] => True
  | (a, z) :: F' => lo <= a /\ a mod 4 = 0 /\ 1 <= z /\ a + 8 * z <= hi /\ spaced (a + 8 * z + 1) F' hi
  end.

Lemma spaced_lo lo lo' F hi : lo' <= lo -> spaced lo F hi -> spaced lo' F hi.
Proof. destruct F as [|[a z] F]; cbn; [done|]. intros ? (? & ?). split; [lia|done]. Qed.

Lemma spaced_hi lo F hi hi' : hi <= hi' -> spaced lo F hi -> spaced lo F hi'.
Proof.
  revert lo. induction F as [|[a z] F IH]; intros lo Hle; cbn; [done|].
  intros (? & ? & ? & ? & ?). do 3 (split; [done|]). split; [lia|]. by apply IH.
Qed.

Lemma spaced_in lo F hi a z : spaced lo F hi -> (a, z) ∈ F ->
  lo <= a /\ a mod 4 = 0 /\ 1 <= z /\ a + 8 * z <= hi.
Proof.
  revert lo. induction F as [|[b w] F IH]; intros lo; cbn; [by intros _ ?%elem_of_nil|].
  intros (? & ? & ? & ? & Hs) [[= -> ->]|Hin]%elem_of_cons; [done|].
  destruct (IH _ Hs Hin) as (? & ? & ? & ?). lia.
Qed.

Lemma spaced_app lo F1 F2 hi : spaced lo (F1 ++ F2) hi ->
  spaced lo F1 hi /\ exists lo', spaced lo' F2 hi /\ lo <= lo' /\
    forall a z, (a, z) ∈ F1 -> a + 8 * z + 1 <= lo'.
Proof.
  revert lo. induction F1 as [|[b w] F1 IH]; intros lo; cbn.
  - intros Hs. split; [done|]. exists lo. split; [done|]. split; [done|]. by intros ? ? ?%elem_of_nil.
  - intros (? & ? & ? & ? & Hs). destruct (IH _ Hs) as (Hs1 & lo' & Hs2 & Hlo & Hin). split; [done|].
    exists lo'. split; [done|]. split; [lia|]. intros a z [[= -> ->]|Hz]%elem_of_cons; [lia|]. eauto.
Qed.

Lemma spaced_join lo F1 lo' F2 hi : spaced lo F1 hi -> spaced lo' F2 hi -> lo <= lo' ->
  (forall a z, (a, z) ∈ F1 -> a + 8 * z + 1 <= lo') -> spaced lo (F1 ++ F2) hi.
Proof.
  revert lo. induction F1 as [|[b w] F1 IH]; intros lo; cbn.
  - intros _ H2 Hle _. by eapply spaced_lo.
  - intros (? & ? & ? & ? & Hs) Hs2 Hle Hin. do 4 (split; [done|]). apply IH; [done|done| |].
    + apply (Hin b w). by left.
    + intros a z Hz. apply Hin. by right.
Qed.

(** The headers are different, and not more than there is room for. *)
Lemma spaced_addrs lo F hi a : spaced lo F hi -> a ∈ F.*1 -> lo <= a < hi.
Proof.
  intros Hs ((b & z) & -> & Hin)%list_elem_of_fmap. destruct (spaced_in _ _ _ _ _ Hs Hin) as (? & ? & ? & ?).
  cbn. lia.
Qed.

Lemma spaced_length lo F hi : spaced lo F hi -> lo <= hi -> 8 * Z.of_nat (length F) <= hi - lo + 8.
Proof.
  revert lo. induction F as [|[a z] F IH]; intros lo; cbn [spaced length]; [lia|].
  intros (? & ? & ? & ? & Hs) Hle. destruct F as [|b F]; [cbn; lia|].
  destruct (decide (a + 8 * z + 1 <= hi)).
  - specialize (IH _ Hs ltac:(lia)). lia.
  - destruct b as [b w]. destruct Hs as (? & ? & ? & ? & _). lia.
Qed.

Lemma spaced_nodup lo F hi : spaced lo F hi -> NoDup F.*1.
Proof.
  revert lo. induction F as [|[a z] F IH]; intros lo; cbn [spaced fmap list_fmap]; [constructor|].
  intros (? & ? & ? & ? & Hs). constructor; [|by eapply IH].
  intros Hin. pose proof (spaced_addrs _ _ _ _ Hs Hin). cbn in *. lia.
Qed.

(** Where the memory that [sbrk] gives begins. *)
Class HeapStart := heap_start : Z.

(** ** The invariant *)

Section Heap.
Context `{Process, HeapStart}.

(** The units of a list of blocks. *)
Definition units (F : list (Z * Z)) : Z := foldr (fun b n => b.2 + n) 0 F.

(** The free blocks [F] and the blocks in use [A], by address and with their size. *)
Record heap_ok (s : heap) (F : list (Z * Z)) (A : gmap Z Z) : Prop := HeapOk {
  hk_base : 0 < base /\ base mod 4 = 0 /\ base + 8 <= brk s;
  hk_start : base + 8 <= heap_start <= brk s;
  hk_brk : brk s mod 4 = 0 /\ brk s < 2 ^ 31;
  hk_spaced : spaced heap_start F (brk s);
  hk_ring : lseg (um s) base (base :: F.*1) base;
  hk_base_size : rd (um s) (base + 4) = 0;
  hk_sizes : forall a z, (a, z) ∈ F -> rd (um s) (a + 4) = z;
  hk_freep : freep s ∈ base :: F.*1;
  hk_live : forall a z, A !! a = Some z ->
    base + 8 <= a /\ a mod 4 = 0 /\ 1 <= z /\ a + 8 * z <= brk s /\ rd (um s) (a + 4) = z;
  hk_live_start : forall a z, A !! a = Some z -> heap_start <= a;
  hk_free : forall a z b w, A !! a = Some z -> (b, w) ∈ F -> a + 8 * z <= b \/ b + 8 * w <= a;
  hk_apart : forall a z b w, A !! a = Some z -> A !! b = Some w -> a <> b -> a + 8 * z <= b \/ b + 8 * w <= a
}.

(** The contents of the blocks in use are the same. *)
Definition kept (A : gmap Z Z) (m m' : gmap Z Z) : Prop :=
  forall b w x, A !! b = Some w -> b <= x < b + 8 * w -> rd m' x = rd m x.

Lemma word_ld_run s a : 0 < a -> a mod 4 = 0 -> a + 4 <= brk s -> ld a s = Ok (rd (um s) a, s).
Proof.
  intros H1 H2 H3. unfold ld, valid. mrun. rewrite H2.
  by rewrite (proj2 (Z.ltb_lt 0 a) H1), (proj2 (Z.leb_le _ _) H3).
Qed.

Lemma word_sto_run s a x : 0 < a -> a mod 4 = 0 -> a + 4 <= brk s ->
  sto a x s = Ok (tt, set_um (<[a := x]> (um s)) s).
Proof.
  intros H1 H2 H3. unfold sto, valid. mrun. rewrite H2.
  by rewrite (proj2 (Z.ltb_lt 0 a) H1), (proj2 (Z.leb_le _ _) H3).
Qed.

Lemma mod4_add a k : a mod 4 = 0 -> (a + 4 * k) mod 4 = 0.
Proof. intros. rewrite Z.mul_comm, Z.mod_add by lia. done. Qed.

(** The headers of the memory: aligned, and two words long. *)
Definition header (s : heap) (a : Z) : Prop := base <= a /\ 0 < a /\ a mod 4 = 0 /\ a + 8 <= brk s.

Section Header.
Context (s : heap) (a : Z).
Hypothesis Ha : header s a.

Lemma header_valid4 : 0 < a + 4 /\ (a + 4) mod 4 = 0 /\ a + 4 + 4 <= brk s.
Proof using Ha. destruct Ha as (? & ? & ? & ?). split; [lia|]. split; [by apply (mod4_add a 1)|lia]. Qed.

Lemma s_ptr_run : s_ptr a s = Ok (rd (um s) a, s).
Proof using Ha. destruct Ha as (? & ? & ? & ?). apply word_ld_run; lia. Qed.
Lemma s_size_run : s_size a s = Ok (rd (um s) (a + 4), s).
Proof using Ha. destruct header_valid4 as (? & ? & ?). by apply word_ld_run. Qed.
Lemma set_s_ptr_run x : 0 <= x < 2 ^ 32 -> set_s_ptr a x s = Ok (tt, set_um (<[a := x]> (um s)) s).
Proof using Ha.
  intros Hx. destruct Ha as (? & ? & ? & ?). unfold set_s_ptr. rewrite w32_small by done. apply word_sto_run; lia.
Qed.
Lemma set_s_size_run x : 0 <= x < 2 ^ 32 -> set_s_size a x s = Ok (tt, set_um (<[a + 4 := x]> (um s)) s).
Proof using Ha.
  intros Hx. destruct header_valid4 as (? & ? & ?). unfold set_s_size. rewrite w32_small by done. by apply word_sto_run.
Qed.
End Header.

Section Facts.
Context (s : heap) (F : list (Z * Z)) (A : gmap Z Z).
Hypothesis Hs : heap_ok s F A.

Lemma free_header a z : (a, z) ∈ F -> header s a /\ base + 8 <= a /\ 1 <= z /\ a + 8 * z <= brk s.
Proof using Hs.
  intros Hin. destruct (hk_base _ _ _ Hs) as (? & ? & ?). pose proof (hk_start _ _ _ Hs).
  destruct (spaced_in _ _ _ _ _ (hk_spaced _ _ _ Hs) Hin) as (? & ? & ? & ?).
  split; [|lia]. repeat split; (done || lia).
Qed.

Lemma ring_header a : a ∈ base :: F.*1 -> header s a.
Proof using Hs.
  destruct (hk_base _ _ _ Hs) as (? & ? & ?). pose proof (hk_start _ _ _ Hs).
  intros [->|((b & z) & -> & Hin)%list_elem_of_fmap]%elem_of_cons; [repeat split; (done || lia)|].
  by apply (free_header b z).
Qed.

Lemma live_header a z : A !! a = Some z -> header s a.
Proof using Hs.
  intros Ha. destruct (hk_base _ _ _ Hs) as (? & ? & ?). pose proof (hk_start _ _ _ Hs).
  destruct (hk_live _ _ _ Hs a z Ha) as (? & ? & ? & ? & ?). repeat split; (done || lia).
Qed.

Lemma header_small a : header s a -> 0 <= a < 2 ^ 31.
Proof using Hs. intros (? & ? & ? & ?). destruct (hk_brk _ _ _ Hs). lia. Qed.

Lemma ring_nodup : NoDup (base :: F.*1).
Proof using Hs.
  constructor; [|by eapply spaced_nodup, Hs]. intros Hin.
  pose proof (spaced_addrs _ _ _ _ (hk_spaced _ _ _ Hs) Hin). pose proof (hk_start _ _ _ Hs). lia.
Qed.

Lemma heap_ring_length : (length (base :: F.*1) <= S (Z.to_nat (brk s / 8)))%nat.
Proof using Hs.
  destruct (hk_base _ _ _ Hs) as (? & ? & ?). pose proof (hk_start _ _ _ Hs).
  pose proof (spaced_length _ _ _ (hk_spaced _ _ _ Hs) ltac:(lia)) as Hl.
  cbn [length]. rewrite length_fmap. assert (Z.of_nat (length F) <= brk s / 8); [|lia].
  apply Z.div_le_lower_bound; lia.
Qed.
End Facts.

(** ** Walking around the ring *)

(** From a header of the ring to another. *)
Lemma ring_path m R b p q : lseg m b R b -> NoDup R -> p ∈ R -> (q ∈ R) ->
  exists l, lseg m p l q /\ (q ∉ l) /\ (forall a, a ∈ l -> a ∈ R) /\ (length l <= length R)%nat.
Proof.
  intros Hr Hnd Hp Hq. destruct (decide (p = q)) as [->|Hne].
  { exists []. split; [done|]. split; [by intros ?%elem_of_nil|]. split; [by intros ? ?%elem_of_nil|cbn; lia]. }
  apply list_elem_of_split in Hp as (l1 & l2 & ->). apply NoDup_app in Hnd as (Hn1 & Hn12 & Hn2).
  apply NoDup_cons in Hn2 as [Hpn Hn2].
  apply elem_of_app in Hq as [Hq|[->|Hq]%elem_of_cons]; [|done|].
  - apply list_elem_of_split in Hq as (l3 & l4 & ->).
    apply lseg_app in Hr as (y & H1 & [-> H2]). apply lseg_app in H1 as (x & H3 & [-> H4]).
    exists (p :: l2 ++ l3). split; [split; [done|]; apply lseg_app; by exists b|]. split_and!.
    + rewrite not_elem_of_cons, not_elem_of_app. split; [done|]. split.
      * intros Hin. apply (Hn12 q); [set_solver|by right].
      * apply NoDup_app in Hn1 as (_ & Hd & _). intros Hin. apply (Hd q Hin). by left.
    + intros a. set_solver.
    + rewrite !length_app. cbn. rewrite !length_app. lia.
  - apply list_elem_of_split in Hq as (l3 & l4 & ->).
    apply lseg_app in Hr as (y & H1 & [-> H2]). apply lseg_app in H2 as (x & H3 & [-> H4]).
    exists (p :: l3). split; [done|]. split_and!.
    + rewrite not_elem_of_cons. split; [done|]. apply NoDup_app in Hn2 as (_ & Hd & _).
      intros Hin. apply (Hd q Hin). by left.
    + intros a. set_solver.
    + rewrite !length_app. cbn. rewrite !length_app. lia.
Qed.

(** All around from the header after [f] to [f]. *)
Lemma ring_around m b l1 f l2 : lseg m b (l1 ++ f :: l2) b -> lseg m (rd m f) (l2 ++ l1) f.
Proof.
  intros Hr. apply lseg_app in Hr as (y & H1 & [-> H2]). apply lseg_app. by exists b.
Qed.

(** ** The loop of free *)

Definition stops (bp p n : Z) : bool :=
  ((p <? bp) && (bp <? n)) || ((n <=? p) && ((p <? bp) || (bp <? n))).

Lemma free_loop_step s bp p fuel : header s p ->
  free_loop (S fuel) bp p s =
    if stops bp p (rd (um s) p) then Ok (p, s) else free_loop fuel bp (rd (um s) p) s.
Proof.
  intros Hp. cbn [free_loop]. mstep (s_ptr_run s p Hp). unfold stops.
  destruct ((p <? bp) && (bp <? rd (um s) p)); [done|]. by destruct (_ && _).
Qed.

Lemma free_loop_skip s bp l p q fuel : lseg (um s) p l q ->
  (forall a, a ∈ l -> header s a /\ stops bp a (rd (um s) a) = false) ->
  free_loop (length l + fuel) bp p s = free_loop fuel bp q s.
Proof.
  revert p. induction l as [|a l IH]; intros p; [by intros ->|]. intros [-> Hl] Hst.
  destruct (Hst a ltac:(by left)) as [Ha Hno]. cbn [length Nat.add]. rewrite free_loop_step, Hno by done.
  apply IH; [done|]. intros b Hb. apply Hst. by right.
Qed.
End Heap.

(** ** Taking a block *)

Section Ops.
Context `{Process, HeapStart}.

(** ** Where a block belongs *)

Lemma split_free lo F hi bp sz : spaced lo F hi -> 1 <= sz ->
  (forall b w, (b, w) ∈ F -> bp + 8 * sz <= b \/ b + 8 * w <= bp) ->
  exists F1 F2, F = F1 ++ F2 /\ (forall a z, (a, z) ∈ F1 -> a + 8 * z <= bp) /\
    (forall b w, (b, w) ∈ F2 -> bp + 8 * sz <= b).
Proof.
  intros Hs Hsz. revert lo Hs. induction F as [|[a z] F IH]; intros lo Hs Hd.
  { exists [], []. split; [done|]. split; by intros ? ? ?%elem_of_nil. }
  destruct Hs as (Ha & Ham & Hz & Hhi & Hs). destruct (Hd a z ltac:(by left)) as [Hle|Hle].
  - exists [], ((a, z) :: F). split; [done|]. split; [by intros ? ? ?%elem_of_nil|].
    intros b w [[= -> ->]|Hin]%elem_of_cons; [done|].
    destruct (spaced_in _ _ _ _ _ Hs Hin) as (? & _). lia.
  - destruct (IH _ Hs) as (F1 & F2 & -> & Hb & Ha').
    { intros b w Hin. apply Hd. by right. }
    exists ((a, z) :: F1), F2. split; [done|]. split; [|done].
    intros b w [[= -> ->]|Hin]%elem_of_cons; [done|]. eauto.
Qed.

(** The header before the block: the last one below it. *)
Definition pred (F1 : list (Z * Z)) : Z := default base (last F1.*1).

Lemma pred_split F1 : exists l, base :: F1.*1 = l ++ [pred F1] /\ pred F1 ∈ base :: F1.*1 /\
  (forall a, a ∈ l -> a ∈ base :: F1.*1).
Proof.
  unfold pred. destruct F1 as [|b F1 _] using rev_ind.
  - exists []. split; [done|]. split; [by left|by intros ? ?%elem_of_nil].
  - rewrite fmap_app. change ([b].*1) with [b.1]. rewrite last_snoc. cbn. exists (base :: F1.*1). set_solver.
Qed.

Lemma pred_cases F1 : (F1 = [] /\ pred F1 = base) \/ exists G z, F1 = G ++ [(pred F1, z)].
Proof.
  unfold pred. destruct F1 as [|[a z] G _] using rev_ind; [by left|right].
  exists G, z. rewrite fmap_app. change ([(a, z)].*1) with [a]. by rewrite last_snoc.
Qed.

Section Place.
Context (s : heap) (A : gmap Z Z) (F1 F2 : list (Z * Z)) (bp : Z).
Hypothesis Hs : heap_ok s (F1 ++ F2) A.
Hypothesis Hbase : base < bp.
Hypothesis Hbelow : forall a z, (a, z) ∈ F1 -> a + 8 * z <= bp.
Hypothesis Habove : forall b w, (b, w) ∈ F2 -> bp < b.

Lemma below a : a ∈ base :: F1.*1 -> a < bp.
Proof using All.
  intros [->|((b & z) & -> & Hin)%list_elem_of_fmap]%elem_of_cons; [done|].
  specialize (Hbelow b z Hin). destruct (free_header s _ A Hs b z) as (_ & _ & ? & _); [set_solver|]. cbn. lia.
Qed.

Lemma above a : a ∈ F2.*1 -> bp < a.
Proof using Habove. intros ((b & w) & -> & Hin)%list_elem_of_fmap. by apply (Habove b w). Qed.

(** The address of the header after the place. *)
Definition succ : Z := head_or base F2.*1.

Lemma ring_split l : base :: F1.*1 = l ++ [pred F1] -> base :: (F1 ++ F2).*1 = l ++ pred F1 :: F2.*1.
Proof using Type. intros He. rewrite fmap_app, app_comm_cons, He, <- app_assoc. done. Qed.

Lemma pred_next : rd (um s) (pred F1) = succ.
Proof using Hs.
  destruct (pred_split F1) as (l & Hl & _). pose proof (hk_ring _ _ _ Hs) as Hr.
  rewrite (ring_split l Hl) in Hr. by apply lseg_next in Hr.
Qed.

(** A sorted list: what comes after a header of the ring. *)
Lemma next_above l1 a l2 : (F1 ++ F2).*1 = l1 ++ a :: l2 -> head_or base l2 = base \/ a < head_or base l2.
Proof using Hs.
  intros He. destruct l2 as [|b l2]; [by left|]. right. cbn.
  apply fmap_app_inv in He as (G1 & G2 & -> & He2 & HG). destruct G2 as [|[a' z] [|[b' w] G2]]; try done.
  cbn in He2. injection He2 as -> -> _.
  pose proof (hk_spaced _ _ _ Hs) as Hsp. rewrite HG in Hsp.
  apply spaced_app in Hsp as (_ & lo & (? & ? & ? & ? & (? & _)) & _). lia.
Qed.

(** The loop does not stop elsewhere ... *)
Lemma not_here a : a ∈ base :: (F1 ++ F2).*1 -> a <> pred F1 -> stops bp a (rd (um s) a) = false.
Proof using All.
  intros Ha Hne. destruct (pred_split F1) as (l & Hl & _ & Hin).
  pose proof (hk_ring _ _ _ Hs) as Hr. rewrite (ring_split l Hl) in Ha.
  assert (rd (um s) a <= a \/ a < rd (um s) a) as Hcmp by lia.
  apply elem_of_app in Ha as [Ha|[->|Ha]%elem_of_cons]; [|done|].
  - (* below the place *)
    apply list_elem_of_split in Ha as (l1 & l2 & ->).
    rewrite (ring_split _ Hl), <- app_assoc in Hr. cbn in Hr. pose proof (lseg_next _ _ _ _ _ _ Hr) as Hn.
    assert (rd (um s) a ∈ base :: F1.*1) as Hn1.
    { rewrite Hl, Hn. destruct l2 as [|b l2]; cbn; set_solver. }
    assert (a < bp) as Hab by (apply below; rewrite Hl; set_solver).
    pose proof (below _ Hn1) as Hnb.
    assert (a < rd (um s) a) as Hlt.
    { destruct l1 as [|c l1].
      - cbn in Hl. injection Hl as <- Hl.
        assert (rd (um s) base ∈ F1.*1) as Hn2.
        { rewrite Hl, Hn. destruct l2 as [|b l2]; cbn; set_solver. }
        assert (rd (um s) base ∈ (F1 ++ F2).*1) as Hn3 by (rewrite fmap_app; set_solver).
        pose proof (spaced_addrs _ _ _ _ (hk_spaced _ _ _ Hs) Hn3). pose proof (hk_start _ _ _ Hs). lia.
      - cbn in Hl. injection Hl as <- Hl.
        destruct (next_above l1 a (l2 ++ pred F1 :: F2.*1)) as [He|He].
        + rewrite fmap_app, Hl, <- !app_assoc. done.
        + exfalso. rewrite <- app_assoc in Hl. cbn in Hl.
          assert (head_or base (l2 ++ pred F1 :: F2.*1) ∈ F1.*1) as Hh.
          { rewrite Hl. destruct l2 as [|b l2]; cbn; set_solver. }
          rewrite He in Hh. pose proof (ring_nodup s _ A Hs) as Hnd. rewrite fmap_app in Hnd.
          apply NoDup_cons in Hnd as [Hnb' _]. set_solver.
        + by rewrite Hn. }
    unfold stops. rewrite (proj2 (Z.ltb_ge bp _)), (proj2 (Z.leb_gt _ a)) by lia. by rewrite andb_false_r.
  - (* above it *)
    pose proof (above a Ha) as Hab. apply list_elem_of_split in Ha as (l1 & l2 & He).
    rewrite (ring_split l Hl), He, app_comm_cons, app_assoc in Hr. pose proof (lseg_next _ _ _ _ _ _ Hr) as Hn.
    destruct (next_above (F1.*1 ++ l1) a l2) as [Hb|Hb].
    { by rewrite fmap_app, He, <- app_assoc. }
    + unfold stops. rewrite Hn, Hb. rewrite !(proj2 (Z.ltb_ge a bp)), (proj2 (Z.ltb_ge bp base)) by lia.
      cbn. by rewrite andb_false_r.
    + unfold stops. rewrite Hn. rewrite !(proj2 (Z.ltb_ge a bp)), (proj2 (Z.leb_gt _ a)) by lia. done.
Qed.

(** ... and stops at the place. *)
Lemma here : stops bp (pred F1) (rd (um s) (pred F1)) = true.
Proof using All.
  rewrite pred_next. destruct (pred_split F1) as (l & _ & Hp & _). pose proof (below _ Hp) as Hlt.
  unfold stops. rewrite !(proj2 (Z.ltb_lt (pred F1) bp)) by done. unfold succ.
  destruct F2 as [|[b w] F]; cbn.
  - assert (base <= pred F1); [|by rewrite (proj2 (Z.leb_le base _)), orb_true_r].
    destruct (ring_header s (F1 ++ []) A Hs (pred F1)) as (? & _); [by rewrite app_nil_r|done].
  - rewrite (proj2 (Z.ltb_lt bp b)); [done|]. apply (Habove b w). by left.
Qed.

Lemma place_run p fuel : p ∈ base :: (F1 ++ F2).*1 -> (length (base :: (F1 ++ F2).*1) < fuel)%nat ->
  free_loop fuel bp p s = Ok (pred F1, s).
Proof using All.
  intros Hp Hfuel. destruct (pred_split F1) as (l0 & _ & Hpin & _).
  assert (pred F1 ∈ base :: (F1 ++ F2).*1) as Hq by (rewrite fmap_app; set_solver).
  destruct (ring_path _ _ _ p (pred F1) (hk_ring _ _ _ Hs) (ring_nodup s _ A Hs) Hp Hq)
    as (l & Hl & Hnin & Hin & Hlen).
  replace fuel with (length l + S (fuel - length l - 1))%nat by lia.
  rewrite (free_loop_skip s bp l p (pred F1)).
  - by rewrite free_loop_step, here by by apply (ring_header s (F1 ++ F2) A).
  - done.
  - intros a Ha. split; [by apply (ring_header s (F1 ++ F2) A); auto|].
    apply not_here; [by apply Hin|]. by intros ->.
Qed.
End Place.
(** ** Taking a block *)

Lemma elem_of_middle {B} (x y : B) l1 l2 : x ∈ l1 ++ y :: l2 <-> (x ∈ l1 ++ l2) \/ x = y.
Proof. rewrite !elem_of_app, elem_of_cons. tauto. Qed.

Lemma in_ring (F : list (Z * Z)) a w : (a, w) ∈ F -> a ∈ base :: F.*1.
Proof. intros Hin. right. by apply (list_elem_of_fmap_2' fst F (a, w)). Qed.

Lemma units_app F1 F2 : units (F1 ++ F2) = units F1 + units F2.
Proof. unfold units. induction F1 as [|b F1 IH]; cbn; [done|lia]. Qed.

Lemma units_cons a z F : units ((a, z) :: F) = z + units F.
Proof. done. Qed.

(** The headers of the ring and of the blocks in use are all different. *)
Lemma word_apart s F A b w a x : heap_ok s F A -> A !! b = Some w -> a ∈ base :: F.*1 ->
  b <= x < b + 8 * w -> x <> a /\ x <> a + 4.
Proof.
  intros Hs Hb Ha Hx. destruct (hk_live _ _ _ Hs b w Hb) as (? & ? & ? & ? & _).
  apply elem_of_cons in Ha as [->|((c & z) & -> & Hin)%list_elem_of_fmap]; [lia|].
  destruct (free_header s F A Hs c z Hin) as (_ & ? & ? & ?). cbn.
  destruct (hk_free _ _ _ Hs b w c z Hb Hin); lia.
Qed.

Section Take.
Context (s : heap) (A : gmap Z Z) (F1 F2 : list (Z * Z)) (p z nu : Z).
Hypothesis Hs : heap_ok s (F1 ++ (p, z) :: F2) A.
Hypothesis Hnu : 1 <= nu <= z.

Let F := F1 ++ (p, z) :: F2.
Let q := p + 8 * (z - nu).

Lemma take_room : header s p /\ base + 8 <= p /\ p + 8 * z <= brk s /\ header s q.
Proof using All.
  destruct (free_header s F A Hs p z) as ((Hb & Hp0 & Hpm & Hpb) & Hp & Hz & Hpe); [set_solver|].
  split; [done|]. split; [done|]. split; [done|]. unfold q. repeat split; try lia.
  replace (p + 8 * (z - nu)) with (p + 4 * (2 * (z - nu))) by lia. by apply mod4_add.
Qed.

(** The block that is taken is apart from all others. *)
Lemma take_apart : A !! q = None /\
  (forall a w, (a, w) ∈ F1 ++ F2 -> q + 8 * nu <= a \/ a + 8 * w <= q) /\
  (forall a w, A !! a = Some w -> q + 8 * nu <= a \/ a + 8 * w <= q).
Proof using All.
  assert (forall a w, A !! a = Some w -> 1 <= w /\ (q + 8 * nu <= a \/ a + 8 * w <= q)) as Hlive.
  { intros a w Ha. destruct (hk_live _ _ _ Hs a w Ha) as (_ & _ & ? & _). split; [done|].
    destruct (hk_free _ _ _ Hs a w p z Ha) as [|]; [set_solver| |]; unfold q; lia. }
  split; [|split].
  - destruct (A !! q) as [w|] eqn:Hq; [|done]. destruct (Hlive q w Hq). lia.
  - pose proof (hk_spaced _ _ _ Hs) as Hsp.
    apply spaced_app in Hsp as (_ & lo & (Hlo & _ & _ & _ & Hs2) & _ & Hs1).
    intros a w [Hin|Hin]%elem_of_app; unfold q.
    + specialize (Hs1 a w Hin). lia.
    + destruct (spaced_in _ _ _ _ _ Hs2 Hin) as (? & _). lia.
  - intros a w Ha. apply (Hlive a w Ha).
Qed.

(** What has to be shown of the heap after the block is taken. *)
Lemma take_ok s' F' : brk s' = brk s -> spaced heap_start F' (brk s) ->
  lseg (um s') base (base :: F'.*1) base -> rd (um s') (base + 4) = 0 ->
  (forall a w, (a, w) ∈ F' -> rd (um s') (a + 4) = w) -> freep s' ∈ base :: F'.*1 ->
  rd (um s') (q + 4) = nu -> kept A (um s) (um s') ->
  (forall b, b ∈ F' -> b ∈ F1 ++ F2 \/ b = (p, z - nu)) -> heap_ok s' F' (<[q := nu]> A).
Proof using All.
  intros Hb Hsp Hr Hb0 Hsz Hf Hq Hk HF. destruct take_room as (Hp & Hbp & Hpe & Hqh).
  destruct take_apart as (_ & Haf & Hal).
  split; rewrite ?Hb; try done; [apply (hk_base _ _ _ Hs)|apply (hk_start _ _ _ Hs)|apply (hk_brk _ _ _ Hs)| | | |].
  - intros a w. rewrite lookup_insert_Some. intros [[<- <-]|[Hne Ha]].
    + destruct Hqh as (? & ? & ? & ?). unfold q in *. repeat split; (done || lia).
    + destruct (hk_live _ _ _ Hs a w Ha) as (? & ? & ? & ? & Hw). do 4 (split; [done|]).
      rewrite <- Hw. apply (Hk a w); [done|]. lia.
  - intros a w. rewrite lookup_insert_Some. intros [[<- <-]|[_ Ha]]; [|by apply (hk_live_start _ _ _ Hs a w)].
    destruct (spaced_in _ _ _ p z (hk_spaced _ _ _ Hs)) as (? & _); [set_solver|]. unfold q. lia.
  - intros a w b v. rewrite lookup_insert_Some. intros [[<- <-]|[Hne Ha]] Hin.
    + destruct (HF _ Hin) as [Hin'|[= -> ->]]; [|unfold q; lia].
      destruct (Haf b v Hin'); lia.
    + destruct (HF _ Hin) as [Hin'|[= -> ->]].
      * apply (hk_free _ _ _ Hs a w b v Ha). unfold F in *. set_solver.
      * destruct (hk_free _ _ _ Hs a w p z Ha) as [|]; [set_solver|lia|lia].
  - intros a w b v. rewrite !lookup_insert_Some.
    intros [[<- <-]|[Hne Ha]] [[<- <-]|[Hne' Hb']] Hab; [done| | |by apply (hk_apart _ _ _ Hs)].
    + by apply Hal.
    + destruct (Hal a w Ha); lia.
Qed.
End Take.

(** Two headers of the ring are not closer than a header is long. *)
Lemma ring_far s F A a b : heap_ok s F A -> a ∈ base :: F.*1 -> b ∈ base :: F.*1 -> a <> b ->
  a + 8 <= b \/ b + 8 <= a.
Proof.
  intros Hs. pose proof (hk_spaced _ _ _ Hs) as Hsp.
  assert (forall c w, (c, w) ∈ F -> base + 8 <= c) as Hb.
  { intros c w Hin. destruct (spaced_in _ _ _ _ _ Hsp Hin). pose proof (hk_start _ _ _ Hs). lia. }
  intros [->|((c & w) & -> & Hc)%list_elem_of_fmap]%elem_of_cons
         [->|((d & v) & -> & Hd)%list_elem_of_fmap]%elem_of_cons Hne; cbn in *; [done|left; eauto|right; eauto|].
  apply list_elem_of_split in Hc as (G1 & G2 & ->).
  apply spaced_app in Hsp as (Hs1 & lo & (Hlo & _ & Hw & _ & Hs2) & _ & Hin1).
  apply elem_of_app in Hd as [Hd|[[= -> ->]|Hd]%elem_of_cons]; [|done|].
  - specialize (Hin1 d v Hd). destruct (spaced_in _ _ _ _ _ Hs1 Hd) as (_ & _ & ? & _). lia.
  - destruct (spaced_in _ _ _ _ _ Hs2 Hd) as (? & _). lia.
Qed.

Lemma ring_next_in s F A a : heap_ok s F A -> a ∈ base :: F.*1 -> rd (um s) a ∈ base :: F.*1.
Proof.
  intros Hs Ha. pose proof (hk_ring _ _ _ Hs) as Hr. apply list_elem_of_split in Ha as (l1 & l2 & He).
  rewrite He in Hr. rewrite (lseg_next _ _ _ _ _ _ Hr). destruct l2 as [|b l2]; [by left|].
  rewrite He. cbn. set_solver.
Qed.

Lemma ring_size_word s F A a b : heap_ok s F A -> a ∈ base :: F.*1 -> b ∈ base :: F.*1 -> a + 4 <> b.
Proof.
  intros Hs Ha Hb He. destruct (decide (a = b)) as [|Hne]; [lia|]. destruct (ring_far s F A a b Hs Ha Hb Hne); lia.
Qed.

(** ** Editing the ring *)

Lemma lseg_unlink m x l1 q p l2 y : NoDup (l1 ++ q :: p :: l2) -> lseg m x (l1 ++ q :: p :: l2) y ->
  lseg (<[q := rd m p]> m) x (l1 ++ q :: l2) y.
Proof.
  intros Hnd (z & H1 & [-> [Hp H2]])%lseg_app. apply NoDup_app in Hnd as (_ & Hd & Hnd).
  apply NoDup_cons in Hnd as [Hq _]. apply lseg_app. exists q. split; [|split; [done|]].
  - apply lseg_insert; [|done]. intros Hin. apply (Hd q Hin). by left.
  - rewrite rd_eq. apply lseg_insert; [set_solver|done].
Qed.

Lemma lseg_link m x l1 q p l2 y : NoDup (l1 ++ q :: p :: l2) -> lseg m x (l1 ++ q :: l2) y ->
  rd m p = head_or y l2 -> lseg (<[q := p]> m) x (l1 ++ q :: p :: l2) y.
Proof.
  intros Hnd (z & H1 & [-> H2])%lseg_app Hp. apply NoDup_app in Hnd as (_ & Hd & Hnd).
  apply NoDup_cons in Hnd as [Hq Hnd]. apply lseg_app. exists q. split; [|split; [done|]].
  - apply lseg_insert; [|done]. intros Hin. apply (Hd q Hin). by left.
  - rewrite rd_eq. split; [done|]. rewrite rd_ne by set_solver. rewrite Hp.
    assert (rd m q = head_or y l2) as Hh by (destruct l2; [done|by destruct H2 as [-> _]]).
    rewrite <- Hh. apply lseg_insert; [set_solver|done].
Qed.

(** ** malloc *)

(** What the loop does with a block that is large enough. *)
Definition take_block (nunits prevp p z : Z) : Hm Z :=
  q ← (if z =? nunits then n ← s_ptr p; set_s_ptr prevp n ;; mret p
       else set_s_size p (z - nunits) ;; z' ← s_size p; let q := w32 (p + HEADER * z') in
            set_s_size q nunits ;; mret q);
  modify (set_freep prevp) ;;
  mret (w32 (q + HEADER)).

(** The whole block is taken. *)
Lemma take_exact s A F1 F2 p z : heap_ok s (F1 ++ (p, z) :: F2) A ->
  exists s', take_block z (pred F1) p z s = Ok (p + 8, s') /\
    heap_ok s' (F1 ++ F2) (<[p := z]> A) /\ brk s' = brk s /\ kept A (um s) (um s').
Proof.
  intros Hs. assert (1 <= z) as Hz by (destruct (free_header s _ A Hs p z) as (_ & _ & ? & _); [set_solver|done]).
  destruct (take_room s A F1 F2 p z z Hs ltac:(lia)) as (Hp & Hbp & Hpe & _).
  destruct (pred_split F1) as (l & Hl & Hpr & _).
  assert (pred F1 ∈ base :: (F1 ++ (p, z) :: F2).*1) as Hprin by (rewrite fmap_app; set_solver).
  pose proof (ring_header s _ A Hs _ Hprin) as Hprh.
  assert (p ∈ base :: (F1 ++ (p, z) :: F2).*1) as Hpin by (rewrite fmap_app; set_solver).
  pose proof (hk_ring _ _ _ Hs) as Hr. pose proof (ring_nodup s _ A Hs) as Hnd.
  rewrite (ring_split F1 _ l Hl) in Hr, Hnd. cbn in Hr, Hnd.
  assert (rd (um s) p ∈ base :: (F1 ++ (p, z) :: F2).*1) as Hnin.
  { by apply (ring_next_in s _ A). }
  pose proof (header_small s _ A Hs _ (ring_header s _ A Hs _ Hnin)) as Hsm.
  unfold take_block. rewrite Z.eqb_refl, bind_bind. mstep (s_ptr_run s p Hp).
  mstep (set_s_ptr_run s _ Hprh (rd (um s) p) ltac:(lia)).
  unfold HEADER. rewrite w32_small by (destruct (header_small s _ A Hs p Hp); lia).
  eexists. split; [done|].
  assert (forall x, x <> pred F1 -> rd (<[pred F1 := rd (um s) p]> (um s)) x = rd (um s) x) as Hm by (intros; by apply rd_ne).
  assert (kept A (um s) (<[pred F1 := rd (um s) p]> (um s))) as Hk.
  { intros b w x Hb Hx. apply Hm. by destruct (word_apart s _ A b w _ x Hs Hb Hprin Hx). }
  split; [|done]. replace (p) with (p + 8 * (z - z)) at 2 by lia.
  apply (take_ok s A F1 F2 p z z Hs ltac:(lia)); cbn [um set_um set_freep brk freep];
    [done| | | | | | |done|by left].
  - destruct (spaced_app _ _ _ _ (hk_spaced _ _ _ Hs)) as (H1 & lo & (? & ? & ? & ? & H2) & Hlo & Hin).
    eapply spaced_join; [done|exact H2|lia|]. intros a w Ha. specialize (Hin a w Ha). lia.
  - rewrite (ring_split F1 _ l Hl). by apply lseg_unlink.
  - rewrite Hm; [by apply Hs|]. apply (ring_size_word s _ A base _ Hs); [by left|done].
  - intros a w Hin. assert (a ∈ base :: (F1 ++ (p, z) :: F2).*1) as Ha by (apply (in_ring _ _ w); set_solver).
    rewrite Hm by by apply (ring_size_word s _ A a _ Hs). apply (hk_sizes _ _ _ Hs). set_solver.
  - rewrite fmap_app. set_solver.
  - replace (p + 8 * (z - z) + 4) with (p + 4) by lia.
    rewrite Hm by by apply (ring_size_word s _ A p _ Hs). apply (hk_sizes _ _ _ Hs). set_solver.
Qed.
(** The end of the block is taken: the two sizes that are written. *)
Section Part.
Context (s : heap) (A : gmap Z Z) (F1 F2 : list (Z * Z)) (p z nu : Z).
Hypothesis Hs : heap_ok s (F1 ++ (p, z) :: F2) A.
Hypothesis Hnu : 1 <= nu < z.
Let q := p + 8 * (z - nu).
Let m := <[q + 4 := nu]> (<[p + 4 := z - nu]> (um s)).

Lemma part_word x : x <> p + 4 -> x <> q + 4 -> rd m x = rd (um s) x.
Proof using Type. intros Hx1 Hx2. unfold m. by rewrite !rd_ne. Qed.

Lemma part_unique w : (p, w) ∈ F1 ++ F2 -> False.
Proof using Hs.
  pose proof (spaced_nodup _ _ _ (hk_spaced _ _ _ Hs)) as Hnd. rewrite fmap_app in Hnd. cbn in Hnd.
  apply NoDup_app in Hnd as (_ & Hd & Hnd). apply NoDup_cons in Hnd as [Hd2 _].
  intros [Hin|Hin]%elem_of_app.
  - apply (Hd p); [by apply (list_elem_of_fmap_2' fst F1 (p, w))|by left].
  - apply Hd2. by apply (list_elem_of_fmap_2' fst F2 (p, w)).
Qed.

Lemma part_far a w : (a, w) ∈ F1 ++ F2 -> a <> p /\ a <> q /\ a <> q + 4 /\ a + 4 <> q + 4.
Proof using All.
  intros Hin. destruct (take_apart s A F1 F2 p z nu Hs ltac:(lia)) as (_ & Haf & _). fold q in Haf.
  assert (a <> p) by (intros ->; by apply (part_unique w)).
  destruct (free_header s _ A Hs a w) as (_ & _ & ? & _); [set_solver|]. destruct (Haf a w Hin); lia.
Qed.

Lemma part_ring a : a ∈ base :: (F1 ++ (p, z) :: F2).*1 -> rd m a = rd (um s) a.
Proof using All.
  intros Ha. destruct (take_room s A F1 F2 p z nu Hs ltac:(lia)) as (_ & ? & _).
  assert (p ∈ base :: (F1 ++ (p, z) :: F2).*1) as Hpin by (apply (in_ring _ _ z); set_solver).
  apply part_word.
  - intros ->. by apply (ring_size_word s _ A p (p + 4) Hs Hpin Ha).
  - intros ->. apply elem_of_cons in Ha as [He|((c & w) & He & Hin)%list_elem_of_fmap]; [unfold q in He; lia|].
    cbn in He. apply elem_of_middle in Hin as [Hc|[= -> ->]]; [|unfold q in He; lia].
    destruct (part_far c w Hc). lia.
Qed.

Lemma part_sizes a w : (a, w) ∈ F1 ++ (p, z - nu) :: F2 -> rd m (a + 4) = w.
Proof using All.
  intros [Ha|[= -> ->]]%elem_of_middle.
  - destruct (part_far a w Ha) as (? & ? & ? & ?). rewrite part_word by lia. apply (hk_sizes _ _ _ Hs). set_solver.
  - unfold m. rewrite rd_ne by (unfold q; lia). apply rd_eq.
Qed.

Lemma part_kept : kept A (um s) m.
Proof using All.
  intros b w x Hb Hx. destruct (take_apart s A F1 F2 p z nu Hs ltac:(lia)) as (_ & _ & Hal). fold q in Hal.
  assert (p ∈ base :: (F1 ++ (p, z) :: F2).*1) as Hpin by (apply (in_ring _ _ z); set_solver).
  destruct (word_apart s _ A b w p x Hs Hb Hpin Hx) as [_ ?]. apply part_word; [done|]. destruct (Hal b w Hb); lia.
Qed.

Lemma part_spaced : spaced heap_start (F1 ++ (p, z - nu) :: F2) (brk s).
Proof using All.
  destruct (spaced_app _ _ _ _ (hk_spaced _ _ _ Hs)) as (Hs1 & lo & (? & ? & ? & ? & Hs2) & Hlo & Hin).
  eapply spaced_join; [done| |done|done]. cbn. do 2 (split; [done|]). split; [lia|]. split; [lia|].
  eapply spaced_lo; [|exact Hs2]. lia.
Qed.

Lemma take_part : exists s', take_block nu (pred F1) p z s = Ok (q + 8, s') /\
  heap_ok s' (F1 ++ (p, z - nu) :: F2) (<[q := nu]> A) /\ brk s' = brk s /\ kept A (um s) (um s').
Proof using All.
  destruct (take_room s A F1 F2 p z nu Hs ltac:(lia)) as (Hp & Hbp & Hpe & Hq). fold q in Hq.
  destruct (hk_brk _ _ _ Hs) as [_ Hb31]. destruct Hp as (? & ? & ? & ?). destruct Hq as (? & ? & ? & ?).
  unfold take_block. rewrite (proj2 (Z.eqb_neq z nu)), bind_bind by lia.
  mstep (set_s_size_run s p ltac:(done) (z - nu) ltac:(lia)).
  set (s1 := set_um (<[p + 4 := z - nu]> (um s)) s).
  mstep (s_size_run s1 p ltac:(done)). cbn [um s1 set_um]. rewrite rd_eq.
  unfold HEADER. rewrite (w32_small (p + 8 * (z - nu))) by lia. fold q.
  mstep (set_s_size_run s1 q ltac:(done) nu ltac:(lia)). rewrite w32_small by lia.
  eexists. split; [done|]. cbn [um set_um set_freep s1]. fold m. split; [|split; [done|apply part_kept]].
  assert ((F1 ++ (p, z - nu) :: F2).*1 = (F1 ++ (p, z) :: F2).*1) as Hring by by rewrite !fmap_app.
  apply (take_ok s A F1 F2 p z nu Hs ltac:(lia)); rewrite ?Hring; cbn [um set_um set_freep brk freep]; try done.
  - apply part_spaced.
  - eapply lseg_frame; [|apply (hk_ring _ _ _ Hs)]. apply part_ring.
  - rewrite part_word; [by apply Hs|lia|lia].
  - apply part_sizes.
  - destruct (pred_split F1) as (_ & _ & Hpr & _). rewrite fmap_app. set_solver.
  - fold q. unfold m. apply rd_eq.
  - apply part_kept.
  - intros b. set_solver.
Qed.
End Part.

(** A block that is large enough. *)
Lemma take_run s A F1 F2 p z nu : heap_ok s (F1 ++ (p, z) :: F2) A -> 1 <= nu <= z ->
  exists s' q F', take_block nu (pred F1) p z s = Ok (q + 8, s') /\ A !! q = None /\
    heap_ok s' F' (<[q := nu]> A) /\ brk s' = brk s /\ kept A (um s) (um s') /\
    units F' + nu = units (F1 ++ (p, z) :: F2).
Proof.
  intros Hs Hnu. destruct (take_apart s A F1 F2 p z nu Hs Hnu) as (Hq & _). rewrite units_app.
  destruct (decide (z = nu)) as [->|Hne].
  - destruct (take_exact s A F1 F2 p nu Hs) as (s' & R & Hs' & Hb & Hk). exists s', p, (F1 ++ F2).
    replace (p + 8 * (nu - nu)) with p in Hq by lia. rewrite units_app. split_and!; try done. rewrite units_cons. lia.
  - destruct (take_part s A F1 F2 p z nu Hs ltac:(lia)) as (s' & R & Hs' & Hb & Hk).
    eexists s', _, _. split; [exact R|]. split; [done|]. split; [exact Hs'|]. rewrite units_app, !units_cons.
    split_and!; try done. lia.
Qed.
End Ops.
