(* ===== verification/UmallocFree.v ===== *)
(** * Giving a block back to the heap *)

From S2P Require Import Prelude Umalloc UmallocSpec.

Section Free.
Context `{Process, HeapStart}.

(** The two halves of [free] after the place is found. *)
Definition join_next (bp p : Z) : Hm unit :=
  bs ← s_size bp;
  n ← s_ptr p;
  if w32 (bp + HEADER * bs) =? n then
    ns ← s_size n;
    set_s_size bp (bs + ns) ;;
    nn ← s_ptr n;
    set_s_ptr bp nn
  else set_s_ptr bp n.

Definition join_prev (bp p : Z) : Hm unit :=
  ps ← s_size p;
  if w32 (p + HEADER * ps) =? bp then
    bs ← s_size bp;
    set_s_size p (ps + bs) ;;
    bn ← s_ptr bp;
    set_s_ptr p bn
  else set_s_ptr p bp.

Lemma free_halves ap s : free ap s =
  (p ← free_loop (fuel_of s) (w32 (ap - HEADER)) (freep s);
   join_next (w32 (ap - HEADER)) p ;; join_prev (w32 (ap - HEADER)) p ;; modify (set_freep p)) s.
Proof.
  unfold free, join_next, join_prev. rewrite bind_get. apply bind_ext. intros p s1.
  rewrite bind_bind. apply bind_ext. intros bs s2. rewrite bind_bind. apply bind_ext. intros n s3.
  apply bind_ext. intros [] s4. by rewrite bind_bind.
Qed.

Section Give.
Context (s : heap) (A : gmap Z Z) (F1 F2 : list (Z * Z)) (bp sz : Z).
Hypothesis Hs : heap_ok s (F1 ++ F2) A.
Hypothesis Hbp : A !! bp = Some sz.
Hypothesis Hbelow : forall a z, (a, z) ∈ F1 -> a + 8 * z <= bp.
Hypothesis Habove : forall b w, (b, w) ∈ F2 -> bp + 8 * sz <= b.

(** A region that no other block in use touches. *)
Definition avoids (b v : Z) : Prop :=
  forall a w, A !! a = Some w -> a <> bp -> a + 8 * w <= b \/ b + 8 * v <= a.

Lemma avoids_free b v : (b, v) ∈ F1 ++ F2 -> avoids b v.
Proof using Hs. intros Hin a w Ha _. by apply (hk_free _ _ _ Hs a w b v). Qed.

Lemma avoids_block : avoids bp sz.
Proof using Hs Hbp. intros a w Ha Hne. by apply (hk_apart _ _ _ Hs a w bp sz). Qed.

Lemma avoids_join b v v' : 1 <= v -> 1 <= v' -> avoids b v -> avoids (b + 8 * v) v' -> avoids b (v + v').
Proof using Hs.
  intros Hv Hv' H1 H2 a w Ha Hne. destruct (hk_live _ _ _ Hs a w Ha) as (_ & _ & ? & _).
  destruct (H1 a w Ha Hne), (H2 a w Ha Hne); lia.
Qed.

(** What has to be shown of the heap after the block is given back. *)
Lemma give_ok s' F' : brk s' = brk s -> spaced heap_start F' (brk s) ->
  lseg (um s') base (base :: F'.*1) base -> rd (um s') (base + 4) = 0 ->
  (forall a w, (a, w) ∈ F' -> rd (um s') (a + 4) = w) -> freep s' ∈ base :: F'.*1 ->
  kept (delete bp A) (um s) (um s') -> (forall b v, (b, v) ∈ F' -> avoids b v) ->
  heap_ok s' F' (delete bp A).
Proof using Hs.
  intros Hb Hsp Hr Hb0 Hsz Hf Hk Hav.
  split; rewrite ?Hb; try done; [apply (hk_base _ _ _ Hs)|apply (hk_start _ _ _ Hs)|apply (hk_brk _ _ _ Hs)| | | |].
  - intros a w Ha. pose proof Ha as [Hne Ha']%lookup_delete_Some.
    destruct (hk_live _ _ _ Hs a w Ha') as (? & ? & ? & ? & Hw). do 4 (split; [done|]).
    rewrite <- Hw. apply (Hk a w); [done|]. lia.
  - intros a w [_ Ha]%lookup_delete_Some. by apply (hk_live_start _ _ _ Hs a w).
  - intros a w b v [Hne Ha]%lookup_delete_Some Hin. by apply Hav.
  - intros a w b v [_ Ha]%lookup_delete_Some [_ Hb']%lookup_delete_Some. by apply (hk_apart _ _ _ Hs).
Qed.

Lemma block_header : header s bp /\ base + 8 <= bp /\ 1 <= sz /\ bp + 8 * sz <= brk s /\ brk s < 2 ^ 31 /\
  rd (um s) (bp + 4) = sz.
Proof using Hs Hbp.
  destruct (hk_live _ _ _ Hs bp sz Hbp) as (? & ? & ? & ? & ?). destruct (hk_brk _ _ _ Hs) as [_ ?].
  split; [by apply (live_header s (F1 ++ F2) A Hs bp sz)|]. repeat split; done.
Qed.

(** The words of the block are no headers of the ring. *)
Lemma block_apart a : a ∈ base :: (F1 ++ F2).*1 -> a <> bp /\ a <> bp + 4 /\ a + 4 <> bp /\ a + 4 <> bp + 4.
Proof using All.
  destruct block_header as (_ & ? & ? & _).
  intros [->|((b & v) & -> & Hin)%list_elem_of_fmap]%elem_of_cons; cbn; [lia|].
  destruct (free_header s _ A Hs b v Hin) as (_ & _ & ? & _).
  apply elem_of_app in Hin as [Hin|Hin]; [specialize (Hbelow b v Hin)|specialize (Habove b v Hin)]; lia.
Qed.

Lemma pred_in : pred F1 ∈ base :: (F1 ++ F2).*1.
Proof using All. destruct (pred_split F1) as (_ & _ & Hp & _). rewrite fmap_app. set_solver. Qed.

(** The memory after the first half: the block [bp] has the size [zs], and the list goes on
    with [rest] after it. *)
Record joined (m : gmap Z Z) (zs : Z) (rest : list (Z * Z)) : Prop := Joined {
  jd_ptr : rd m bp = succ rest;
  jd_size : rd m (bp + 4) = zs;
  jd_else : forall x, x <> bp -> x <> bp + 4 -> rd m x = rd (um s) x;
  jd_rest : lseg m (succ rest) rest.*1 base;
  jd_spaced : spaced (bp + 8 * zs + 1) rest (brk s);
  jd_end : bp + 8 * zs <= brk s;
  jd_sub : forall b, b ∈ rest -> b ∈ F2;
  jd_big : sz <= zs;
  jd_units : units rest + zs = units F2 + sz;
  jd_avoids : avoids bp zs
}.

Lemma tail_segment : lseg (um s) (succ F2) F2.*1 base.
Proof using All.
  destruct (pred_split F1) as (l & Hl & _). pose proof (hk_ring _ _ _ Hs) as Hr.
  rewrite (ring_split F1 F2 l Hl), cons_middle, app_assoc in Hr. apply lseg_app in Hr as (y & H1 & H2).
  replace (succ F2) with y; [done|]. unfold succ. destruct F2 as [|[b w] G]; [done|by destruct H2 as [-> _]].
Qed.

(** What the words of the block have to be for the rest of the list not to change. *)
Lemma joined_intro m zs rest : rd m bp = succ rest -> rd m (bp + 4) = zs ->
  (forall x, x <> bp -> x <> bp + 4 -> rd m x = rd (um s) x) ->
  lseg (um s) (succ rest) rest.*1 base -> spaced (bp + 8 * zs + 1) rest (brk s) -> bp + 8 * zs <= brk s ->
  (forall b, b ∈ rest -> b ∈ F2) -> sz <= zs -> units rest + zs = units F2 + sz -> avoids bp zs -> joined m zs rest.
Proof using All.
  intros H1 H2 H3 H4 H5 H6 H7 H8 H9 H10. split; try done. eapply lseg_frame; [|exact H4].
  intros a ((b & v) & -> & Hin)%list_elem_of_fmap. cbn.
  destruct (block_apart b) as (? & ? & _); [|by apply H3]. apply (in_ring _ _ v). apply elem_of_app. auto.
Qed.

Lemma succ_in G : (forall b, b ∈ G -> b ∈ F2) -> succ G ∈ base :: (F1 ++ F2).*1.
Proof using All.
  intros Hin. unfold succ. destruct G as [|[b w] G]; [by left|]. cbn. apply (in_ring _ _ w).
  apply elem_of_app. right. apply Hin. by left.
Qed.

(** The spacing of the blocks after the place. *)
Lemma above_spaced : exists lo, spaced lo F2 (brk s).
Proof using Hs. destruct (spaced_app _ _ _ _ (hk_spaced _ _ _ Hs)) as (_ & lo & Hs2 & _). by exists lo. Qed.

(** The block that begins where this one ends. *)
Lemma next_block : bp + 8 * sz = succ F2 -> exists n zn G, F2 = (n, zn) :: G /\ succ F2 = n.
Proof using All.
  destruct block_header as (_ & ? & ? & _). unfold succ.
  destruct F2 as [|[n zn] G]; cbn; [lia|]. intros _. by exists n, zn, G.
Qed.

Lemma not_next lo : spaced lo F2 (brk s) -> bp + 8 * sz <> succ F2 -> spaced (bp + 8 * sz + 1) F2 (brk s).
Proof using All.
  unfold succ. destruct F2 as [|[n zn] G]; [done|]. cbn. intros (_ & ? & ? & ? & ?) Hne.
  pose proof (Habove n zn ltac:(by left)). repeat split; (done || lia).
Qed.

Lemma join_next_run : exists m zs rest,
  join_next bp (pred F1) s = Ok (tt, set_um m s) /\ joined m zs rest.
Proof using All.
  destruct block_header as (Hh & Hb8 & Hsz & Hend & H31 & Hw). pose proof pred_in as Hp.
  destruct (hk_base _ _ _ Hs) as (Hb0 & _ & _).
  pose proof (ring_header s _ A Hs _ Hp) as Hph. pose proof tail_segment as Htail.
  assert (forall G, (forall b, b ∈ G -> b ∈ F2) -> 0 <= succ G < 2 ^ 31) as Hsucc.
  { intros G HG. by apply (header_small s _ A Hs), (ring_header s _ A Hs), succ_in. }
  pose proof (Hsucc F2 ltac:(done)) as Hn. destruct above_spaced as (lo & Hsp).
  unfold join_next. mstep (s_size_run s bp Hh). rewrite Hw. mstep (s_ptr_run s _ Hph).
  rewrite (pred_next s A F1 F2 Hs). unfold HEADER. rewrite w32_small by lia.
  destruct (Z.eqb_spec (bp + 8 * sz) (succ F2)) as [He|Hne].
  - destruct (next_block He) as (n & zn & G & HF & Hnn). rewrite HF in Hsp, Htail. rewrite Hnn in *.
    destruct Hsp as (_ & _ & Hzn & Hnend & HG). pose proof (Hsucc G ltac:(rewrite HF; set_solver)) as HnG.
    assert ((n, zn) ∈ F1 ++ F2) as Hnin by (rewrite HF; set_solver).
    pose proof (in_ring _ _ _ Hnin) as Hnr. pose proof (ring_header s _ A Hs n Hnr) as Hnh.
    destruct (block_apart n Hnr) as (Hx1 & Hx2 & Hx3 & Hx4).
    mstep (s_size_run s n Hnh). rewrite (hk_sizes _ _ _ Hs n zn Hnin).
    mstep (set_s_size_run s bp Hh (sz + zn) ltac:(lia)).
    set (s1 := set_um (<[bp + 4 := sz + zn]> (um s)) s).
    mstep (s_ptr_run s1 n Hnh). cbn [um s1 set_um]. rewrite rd_ne by done.
    destruct Htail as [_ HtG]. change (lseg (um s) (rd (um s) n) G.*1 base) in HtG. assert (rd (um s) n = succ G) as Hng.
    { unfold succ. destruct G as [|[c w] G']; [done|by destruct HtG as [-> _]]. }
    rewrite Hng. rewrite (set_s_ptr_run s1 bp Hh (succ G)) by lia.
    eexists _, (sz + zn), G. split; [done|]. cbn [um s1 set_um].
    apply joined_intro; [apply rd_eq|rewrite rd_ne by lia; apply rd_eq| | | |lia|rewrite HF; set_solver|lia| |].
    + intros x ? ?. by rewrite !rd_ne.
    + by rewrite <- Hng.
    + replace (bp + 8 * (sz + zn)) with (n + 8 * zn) by lia. done.
    + rewrite HF, units_cons. lia.
    + apply avoids_join; [done|done|apply avoids_block|]. rewrite He. by apply avoids_free.
  - rewrite (set_s_ptr_run s bp Hh (succ F2)) by lia. eexists _, sz, F2. split; [done|].
    apply joined_intro; [apply rd_eq|by rewrite rd_ne by lia| |done| |done|done|lia|done|apply avoids_block].
    + intros x ? ?. by rewrite rd_ne.
    + by apply (not_next lo).
Qed.
(** ** The second half *)

Section Prev.
Context (m : gmap Z Z) (zs : Z) (rest : list (Z * Z)).
Hypothesis Hj : joined m zs rest.

Lemma rest_in b w : (b, w) ∈ rest -> (b, w) ∈ F1 ++ F2.
Proof using Hj. intros Hin. apply elem_of_app. right. by apply (jd_sub _ _ _ Hj). Qed.

Lemma rest_addr a : a ∈ rest.*1 -> a ∈ base :: (F1 ++ F2).*1.
Proof using Hj. intros ((b & w) & -> & Hin)%list_elem_of_fmap. by apply (in_ring _ _ w), rest_in. Qed.

Lemma rest_length : (length rest <= length F2)%nat.
Proof using Hj.
  rewrite <- (length_fmap fst rest), <- (length_fmap fst F2). apply submseteq_length, NoDup_submseteq.
  - apply (spaced_nodup _ _ _ (jd_spaced _ _ _ Hj)).
  - intros a (b & -> & Hin)%list_elem_of_fmap. apply list_elem_of_fmap_2. by apply (jd_sub _ _ _ Hj).
Qed.

(** The list up to the place. *)
Lemma front l : base :: F1.*1 = l ++ [pred F1] -> lseg m base l (pred F1) /\ (pred F1 ∉ l) /\ (pred F1 ∉ rest.*1).
Proof using All.
  intros Hl. pose proof (hk_ring _ _ _ Hs) as Hr. pose proof (ring_nodup s _ A Hs) as Hnd.
  rewrite (ring_split F1 F2 l Hl) in Hr, Hnd. apply lseg_app in Hr as (y & H1 & [-> _]).
  apply NoDup_app in Hnd as (_ & Hd & Hnd). apply NoDup_cons in Hnd as [Hn2 _]. split_and!.
  - eapply lseg_frame; [|exact H1]. intros a Ha.
    destruct (block_apart a) as (? & ? & _); [|by apply (jd_else _ _ _ Hj)].
    rewrite (ring_split F1 F2 l Hl). apply elem_of_app. by left.
  - intros Hin. apply (Hd _ Hin). by left.
  - intros ((b & w) & He & Hin)%list_elem_of_fmap. apply Hn2. rewrite He.
    apply (list_elem_of_fmap_2 fst F2). by apply (jd_sub _ _ _ Hj).
Qed.

(** The size word of a header of the ring, after words of the block and of the header before
    it are written. *)
Lemma size_word m' a : (forall x, x <> pred F1 -> x <> pred F1 + 4 -> rd m' x = rd m x) ->
  a ∈ base :: (F1 ++ F2).*1 -> a <> pred F1 -> rd m' (a + 4) = rd (um s) (a + 4).
Proof using All.
  intros Hm Ha Hne. destruct (block_apart a Ha) as (_ & _ & ? & ?).
  rewrite Hm; [by apply (jd_else _ _ _ Hj)| |lia]. by apply (ring_size_word s _ A a _ Hs Ha pred_in).
Qed.

Lemma prev_kept m' : (forall x, x <> pred F1 -> x <> pred F1 + 4 -> rd m' x = rd m x) ->
  kept (delete bp A) (um s) m'.
Proof using All.
  intros Hm b w x [Hne Hb]%lookup_delete_Some Hx.
  destruct (word_apart s _ A b w _ x Hs Hb pred_in Hx) as [? ?]. rewrite Hm by done.
  destruct block_header as (_ & _ & ? & _). apply (jd_else _ _ _ Hj);
    destruct (hk_apart _ _ _ Hs b w bp sz Hb Hbp ltac:(done)); lia.
Qed.

(** The blocks before the place end before it. *)
Lemma front_gap : pred F1 + 8 * rd (um s) (pred F1 + 4) <> bp ->
  forall a z, (a, z) ∈ F1 -> a + 8 * z + 1 <= bp.
Proof using All.
  intros Hne a z Hin. destruct (pred_cases F1) as [[-> _]|(G & w & HG)]; [by apply elem_of_nil in Hin|].
  pose proof (Hbelow a z Hin). assert ((pred F1, w) ∈ F1) as Hq by (rewrite HG at 2; set_solver).
  rewrite (hk_sizes _ _ _ Hs _ w) in Hne by (apply elem_of_app; by left).
  rewrite HG in Hin. apply elem_of_app in Hin as [Hin|[= -> ->]%list_elem_of_singleton]; [|lia].
  destruct (spaced_app _ _ _ _ (hk_spaced _ _ _ Hs)) as (Hs1 & _). rewrite HG in Hs1.
  apply spaced_app in Hs1 as (_ & lo & (Hlo & _ & Hv & _) & _ & Hall).
  specialize (Hall a z Hin). specialize (Hbelow _ w Hq). lia.
Qed.

(** The block is a block of its own. *)
Lemma prev_link : let s1 := set_um m s in rd m (pred F1 + 4) = rd (um s) (pred F1 + 4) ->
  heap_ok (set_freep (pred F1) (set_um (<[pred F1 := bp]> m) s)) (F1 ++ (bp, zs) :: rest) (delete bp A) \/
  pred F1 + 8 * rd (um s) (pred F1 + 4) = bp.
Proof using All.
  intros s1 Hps. destruct (decide (pred F1 + 8 * rd (um s) (pred F1 + 4) = bp)) as [|Hne]; [by right|left].
  destruct (pred_split F1) as (l & Hl & Hp1 & _). destruct (front l Hl) as (Hr1 & Hnl & Hnr).
  destruct block_header as (Hh & Hb8 & Hsz & Hend & H31 & Hw).
  destruct (block_apart _ pred_in) as (Hx1 & Hx2 & Hx3 & Hx4). pose proof (jd_big _ _ _ Hj) as Hbig.
  assert (forall x, x <> pred F1 -> x <> pred F1 + 4 -> rd (<[pred F1 := bp]> m) x = rd m x) as Hm.
  { intros x ? _. by apply rd_ne. }
  assert (forall a, a ∈ base :: (F1 ++ F2).*1 -> rd (<[pred F1 := bp]> m) (a + 4) = rd (um s) (a + 4)) as Hsw.
  { intros a Ha. destruct (decide (a = pred F1)) as [->|]; [rewrite rd_ne by lia; done|by apply size_word]. }
  apply give_ok; cbn [um set_um set_freep brk freep]; [done| | | | | |by apply prev_kept|].
  - destruct (spaced_app _ _ _ _ (hk_spaced _ _ _ Hs)) as (Hs1 & _).
    eapply (spaced_join _ _ bp); [done| |by apply (hk_live_start _ _ _ Hs bp sz)|].
    + cbn. split; [lia|]. split; [by apply Hh|]. split; [lia|].
      split; [apply (jd_end _ _ _ Hj)|apply (jd_spaced _ _ _ Hj)].
    + by apply front_gap.
  - rewrite (ring_split F1 _ l Hl). apply lseg_app. exists (pred F1). split; [by apply lseg_insert|].
    split; [done|]. rewrite rd_eq. cbn. split; [done|]. rewrite rd_ne by lia. rewrite (jd_ptr _ _ _ Hj).
    apply lseg_insert; [done|]. apply (jd_rest _ _ _ Hj).
  - rewrite Hsw by by left. apply (hk_base_size _ _ _ Hs).
  - intros a w [Hin|[= -> ->]]%elem_of_middle.
    + assert ((a, w) ∈ F1 ++ F2) as Hin2.
      { apply elem_of_app in Hin as [Hin|Hin]; [apply elem_of_app; by left|by apply rest_in]. }
      rewrite Hsw by by apply (in_ring _ _ w). by apply (hk_sizes _ _ _ Hs).
    + rewrite rd_ne by lia. apply (jd_size _ _ _ Hj).
  - rewrite fmap_app. set_solver.
  - intros b v [Hin|[= -> ->]]%elem_of_middle; [|apply (jd_avoids _ _ _ Hj)].
    apply avoids_free. apply elem_of_app in Hin as [Hin|Hin]; [apply elem_of_app; by left|by apply rest_in].
Qed.
(** The block is joined to the one before it. *)
Lemma prev_merge G zq : F1 = G ++ [(pred F1, zq)] -> pred F1 + 8 * zq = bp ->
  heap_ok (set_freep (pred F1) (set_um (<[pred F1 := succ rest]> (<[pred F1 + 4 := zq + zs]> m)) s))
    (G ++ (pred F1, zq + zs) :: rest) (delete bp A).
Proof using All.
  intros HG He. set (q := pred F1) in *. set (m' := <[q := succ rest]> _).
  destruct (pred_split F1) as (l & Hl & Hp1 & _). fold q in Hl, Hp1.
  destruct (front l Hl) as (Hr1 & Hnl & Hnr). fold q in Hr1, Hnl, Hnr.
  destruct block_header as (Hh & Hb8 & Hsz & Hend & H31 & Hw). pose proof pred_in as Hpin. fold q in Hpin.
  destruct (block_apart _ Hpin) as (Hx1 & Hx2 & Hx3 & Hx4). pose proof (jd_big _ _ _ Hj) as Hbig.
  assert ((q, zq) ∈ F1 ++ F2) as Hqin by (rewrite HG; set_solver).
  destruct (free_header s _ A Hs q zq Hqin) as (_ & Hq8 & Hzq & _).
  assert (forall x, x <> q -> x <> q + 4 -> rd m' x = rd m x) as Hm.
  { intros x ? ?. unfold m'. by rewrite !rd_ne. }
  assert (base :: (G ++ (q, zq + zs) :: rest).*1 = l ++ q :: rest.*1) as Hring.
  { pose proof (ring_split F1 rest l Hl) as E. fold q in E. rewrite <- E, HG, <- app_assoc. by rewrite !fmap_app. }
  assert (forall b w, (b, w) ∈ G ++ rest -> (b, w) ∈ F1 ++ F2 /\ b <> q) as HGr.
  { intros b w Hin. split.
    - apply elem_of_app in Hin as [Hin|Hin]; [rewrite HG; set_solver|by apply rest_in].
    - intros ->. apply elem_of_app in Hin as [Hin|Hin].
      + pose proof (ring_nodup s _ A Hs) as Hnd. rewrite HG, !fmap_app in Hnd. apply NoDup_cons in Hnd as [_ Hnd].
        apply NoDup_app in Hnd as (Hnd & _ & _). apply NoDup_app in Hnd as (_ & Hd & _).
        apply (Hd q); [by apply (list_elem_of_fmap_2' fst G (q, w))|by left].
      + apply Hnr. by apply (list_elem_of_fmap_2' fst rest (q, w)). }
  apply give_ok; cbn [um set_um set_freep brk freep]; rewrite ?Hring; [done| | | | | |by apply prev_kept|].
  - destruct (spaced_app _ _ _ _ (hk_spaced _ _ _ Hs)) as (Hs1 & _). rewrite HG in Hs1.
    apply spaced_app in Hs1 as (Hs0 & lo & (Hlo & Hqm & _) & Hle & Hall).
    eapply (spaced_join _ _ lo); [done| |done|done].
    cbn. split; [done|]. split; [done|]. split; [lia|].
    replace (q + 8 * (zq + zs)) with (bp + 8 * zs) by lia.
    split; [apply (jd_end _ _ _ Hj)|apply (jd_spaced _ _ _ Hj)].
  - apply lseg_app. exists q. split.
    { eapply lseg_frame; [|exact Hr1]. intros a Ha. apply Hm; [by intros ->|].
      intros ->. apply (ring_size_word s _ A q (q + 4) Hs Hpin); [|done].
      rewrite (ring_split F1 F2 l Hl). apply elem_of_app. by left. }
    split; [done|]. replace (rd m' q) with (succ rest) by (symmetry; apply rd_eq). eapply lseg_frame; [|apply (jd_rest _ _ _ Hj)].
    intros a Ha. apply Hm; [by intros ->|]. intros ->.
    apply (ring_size_word s _ A q (q + 4) Hs Hpin); [by apply rest_addr|done].
  - unfold q in Hq8. rewrite size_word; [apply (hk_base_size _ _ _ Hs)|done|by left|]. lia.
  - intros a w [Hin|[= -> ->]]%elem_of_middle.
    + destruct (HGr a w Hin) as [Hin2 Hne].
      rewrite size_word; [by apply (hk_sizes _ _ _ Hs)|done|by apply (in_ring _ _ w)|done].
    + unfold m'. rewrite rd_ne by lia. apply rd_eq.
  - set_solver.
  - intros b v [Hin|[= -> ->]]%elem_of_middle; [by apply avoids_free, HGr|].
    apply avoids_join; [done|lia|by apply avoids_free|]. rewrite He. apply (jd_avoids _ _ _ Hj).
Qed.

Lemma join_prev_run : exists m' F',
  join_prev bp (pred F1) (set_um m s) = Ok (tt, set_um m' s) /\
  heap_ok (set_freep (pred F1) (set_um m' s)) F' (delete bp A) /\ kept (delete bp A) (um s) m' /\
  units F' = units F1 + units rest + zs /\ (exists a z, (a, z) ∈ F' /\ zs <= z) /\
  (length F' <= S (length (F1 ++ F2)))%nat.
Proof using All.
  pose proof rest_length as Hlen. rewrite length_app.
  destruct block_header as (Hh & Hb8 & Hsz & Hend & H31 & Hw). pose proof (jd_big _ _ _ Hj) as Hbig.
  pose proof (ring_header s _ A Hs _ pred_in) as Hph. pose proof (jd_end _ _ _ Hj) as Hze.
  assert (rd m (pred F1 + 4) = rd (um s) (pred F1 + 4)) as Hps.
  { destruct (block_apart _ pred_in) as (? & ? & ? & ?). by apply (jd_else _ _ _ Hj). }
  assert (0 <= succ rest < 2 ^ 32) as Hsr.
  { pose proof (header_small s _ A Hs _ (ring_header s _ A Hs _ (succ_in rest (jd_sub _ _ _ Hj)))). lia. }
  assert (forall x, x <> pred F1 -> x <> pred F1 + 4 -> rd (<[pred F1 := bp]> m) x = rd m x) as Hm1.
  { intros x ? _. by apply rd_ne. }
  assert (0 <= rd (um s) (pred F1 + 4) /\ pred F1 + 8 * rd (um s) (pred F1 + 4) <= bp) as [Hz0 Hzb].
  { destruct (pred_cases F1) as [[_ ->]|(G & w & HG)]; [rewrite (hk_base_size _ _ _ Hs); lia|].
    assert ((pred F1, w) ∈ F1) as Hq by (rewrite HG at 2; set_solver).
    assert ((pred F1, w) ∈ F1 ++ F2) as Hq2 by (apply elem_of_app; by left).
    rewrite (hk_sizes _ _ _ Hs _ w Hq2). destruct (free_header s _ A Hs _ w Hq2) as (_ & _ & ? & _).
    split; [lia|by apply Hbelow]. }
  destruct (header_small s _ A Hs _ Hph) as [Hp0 _].
  unfold join_prev. mstep (s_size_run (set_um m s) _ Hph). cbn [um set_um]. rewrite Hps. unfold HEADER.
  rewrite (w32_small (pred F1 + _)) by lia.
  destruct (Z.eqb_spec (pred F1 + 8 * rd (um s) (pred F1 + 4)) bp) as [He|Hne].
  - destruct (pred_cases F1) as [[_ Hpb]|(G & w & HG)].
    { rewrite Hpb, (hk_base_size _ _ _ Hs) in He. lia. }
    assert ((pred F1, w) ∈ F1 ++ F2) as Hq2 by (apply elem_of_app; left; rewrite HG at 2; set_solver).
    rewrite (hk_sizes _ _ _ Hs _ w Hq2) in *.
    mstep (s_size_run (set_um m s) bp Hh). cbn [um set_um]. rewrite (jd_size _ _ _ Hj).
    mstep (set_s_size_run (set_um m s) _ Hph (w + zs) ltac:(lia)).
    set (s2 := set_um (<[pred F1 + 4 := w + zs]> m) s).
    change (set_um _ (set_um m s)) with s2. mstep (s_ptr_run s2 bp Hh). cbn [um s2 set_um].
    destruct (block_apart _ pred_in) as (? & ? & ? & ?).
    rewrite rd_ne, (jd_ptr _ _ _ Hj) by lia. rewrite (set_s_ptr_run s2 _ Hph (succ rest) Hsr).
    eexists _, _. split; [done|]. split; [by apply prev_merge|]. split_and!.
    + apply prev_kept. intros x ? ?. cbn [um s2 set_um]. by rewrite !rd_ne.
    + rewrite HG at 2. rewrite !units_app, !units_cons. cbn. lia.
    + exists (pred F1), (w + zs). split; [set_solver|]. pose proof (free_header s _ A Hs _ w Hq2). lia.
    + rewrite HG, !length_app. cbn [length]. lia.
  - rewrite (set_s_ptr_run (set_um m s) _ Hph bp) by (destruct (header_small s _ A Hs bp Hh); lia).
    eexists _, (F1 ++ (bp, zs) :: rest). split; [done|]. split; [by destruct (prev_link Hps)|].
    split; [by apply prev_kept|]. split; [rewrite units_app, units_cons; lia|].
    split; [exists bp, zs; split; [set_solver|done]|]. rewrite length_app. cbn [length]. lia.
Qed.
End Prev.
End Give.

(** A block in use is given back: it is joined to the free blocks beside it. *)
Lemma free_run s F A bp sz : heap_ok s F A -> A !! bp = Some sz ->
  exists s' F', free (bp + 8) s = Ok (tt, s') /\ heap_ok s' F' (delete bp A) /\ brk s' = brk s /\
    kept (delete bp A) (um s) (um s') /\ units F' = units F + sz /\ (exists a z, (a, z) ∈ F' /\ sz <= z) /\
    (length F' <= S (length F))%nat.
Proof.
  intros Hs Hbp. destruct (hk_live _ _ _ Hs bp sz Hbp) as (? & ? & ? & ? & _).
  destruct (hk_brk _ _ _ Hs) as [_ ?]. destruct (hk_base _ _ _ Hs) as (? & _).
  destruct (split_free heap_start F (brk s) bp sz (hk_spaced _ _ _ Hs) ltac:(done)) as (F1 & F2 & -> & Hbelow & Habove).
  { intros b w Hin. by apply (hk_free _ _ _ Hs bp sz). }
  rewrite free_halves. unfold HEADER. replace (bp + 8 - 8) with bp by lia. rewrite w32_small by lia.
  assert (forall b w, (b, w) ∈ F2 -> bp < b) as Hgt by (intros b w Hin; specialize (Habove b w Hin); lia).
  assert (length (base :: (F1 ++ F2).*1) < fuel_of s)%nat as Hfuel.
  { pose proof (heap_ring_length s _ A Hs). unfold fuel_of, HEADER. lia. }
  mstep (place_run s A F1 F2 bp Hs ltac:(lia) Hbelow Hgt (freep s) (fuel_of s) (hk_freep _ _ _ Hs) Hfuel).
  destruct (join_next_run s A F1 F2 bp sz Hs Hbp Hbelow Habove) as (m & zs & rest & R1 & Hj). mstep R1.
  destruct (join_prev_run s A F1 F2 bp sz Hs Hbp Hbelow Habove m zs rest Hj)
    as (m' & F' & R2 & Hs' & Hk & Hu & (a & z & Hin & Hz) & Hlen).
  mstep R2. pose proof (jd_units _ _ _ _ _ _ _ _ Hj). pose proof (jd_big _ _ _ _ _ _ _ _ Hj).
  eexists _, F'. split; [done|]. split; [exact Hs'|]. split; [done|]. split; [exact Hk|]. rewrite units_app.
  split; [lia|]. split; [exists a, z; split; [done|lia]|done].
Qed.
End Free.

(** ** Asking the heap for a block *)

Section Alloc.
Context `{Process, HeapStart}.

(** ** The order of the ring *)

(** No two headers of the ring have the same successor. *)
Lemma next_differs m b l1 x l2 y l3 : lseg m b (l1 ++ x :: l2 ++ y :: l3) b ->
  NoDup (l1 ++ x :: l2 ++ y :: l3) -> rd m x <> rd m y.
Proof.
  intros Hr Hnd. rewrite (lseg_next _ _ _ _ _ _ Hr).
  assert (head (l1 ++ x :: l2 ++ y :: l3) = Some b) as Hb.
  { destruct l1 as [|c l1]; cbn in Hr |- *; by destruct Hr as [-> _]. }
  pose proof Hr as Hr2. rewrite app_comm_cons, app_assoc in Hr2. rewrite (lseg_next _ _ _ _ _ _ Hr2).
  assert (head_or b (l2 ++ y :: l3) ∈ l2 ++ [y]) as Hx by (destruct l2; cbn; set_solver).
  rewrite app_comm_cons, app_assoc in Hnd. apply NoDup_app in Hnd as (Hn1 & Hd & Hn2).
  destruct l3 as [|c l3]; cbn.
  - intros He. rewrite He in Hx. assert (b ∈ l1 ++ [x]) as Hbx by (destruct l1; cbn in Hb; injection Hb as ->; set_solver).
    rewrite (cons_middle x), app_assoc in Hn1. clear Hn2.
    apply elem_of_app in Hx as [Hx| ->%list_elem_of_singleton].
    + apply NoDup_app in Hn1 as (_ & Hd1 & _). by apply (Hd1 b).
    + apply (Hd y); [|by left]. rewrite (cons_middle x), app_assoc. apply elem_of_app. by left.
  - intros He. rewrite He in Hx. apply elem_of_app in Hx as [Hx| ->%list_elem_of_singleton].
    + apply (Hd c); set_solver.
    + apply NoDup_cons in Hn2 as [Hn2 _]. apply Hn2. by left.
Qed.

Lemma next_inj s F A x y : heap_ok s F A -> x ∈ base :: F.*1 -> (y ∈ base :: F.*1) ->
  rd (um s) x = rd (um s) y -> x = y.
Proof.
  intros Hs Hx Hy He. destruct (decide (x = y)) as [|Hne]; [done|exfalso].
  pose proof (hk_ring _ _ _ Hs) as Hr. pose proof (ring_nodup s F A Hs) as Hnd.
  apply list_elem_of_split in Hx as (l1 & l2 & HR). rewrite HR in *.
  apply elem_of_app in Hy as [Hy|[?|Hy]%elem_of_cons]; [|by subst|];
    apply list_elem_of_split in Hy as (l3 & l4 & ->).
  - rewrite <- app_assoc in Hr, Hnd. cbn in Hr, Hnd. by apply (next_differs _ _ _ _ _ _ _ Hr Hnd).
  - by apply (next_differs _ _ _ _ _ _ _ Hr Hnd).
Qed.

(** ** The loop of malloc *)

Lemma malloc_loop_step s nu prevp p fuel : header s p ->
  malloc_loop (S fuel) nu prevp p s =
    if nu <=? rd (um s) (p + 4) then take_block nu prevp p (rd (um s) (p + 4)) s
    else if p =? freep s then
      (p' ← morecore nu; if p' =? 0 then mret 0 else n ← s_ptr p'; malloc_loop fuel nu p' n) s
    else malloc_loop fuel nu p (rd (um s) p) s.
Proof.
  intros Hp. cbn [malloc_loop]. mstep (s_size_run s p Hp). destruct (nu <=? _); [done|].
  rewrite bind_gets. destruct (p =? freep s); [done|]. by mstep (s_ptr_run s p Hp).
Qed.

(** Blocks that are too small are passed. *)
Lemma malloc_loop_skip s nu prevp l p q fuel : lseg (um s) p l q ->
  (forall a, a ∈ l -> header s a /\ rd (um s) (a + 4) < nu /\ a <> freep s) ->
  malloc_loop (length l + fuel) nu prevp p s = malloc_loop fuel nu (default prevp (last l)) q s.
Proof.
  revert prevp p. induction l as [|a l IH]; intros prevp p; [by intros ->|]. intros [-> Hl] Hst.
  destruct (Hst a ltac:(by left)) as (Ha & Hz & Hne). cbn [length Nat.add]. rewrite malloc_loop_step by done.
  rewrite (proj2 (Z.leb_gt nu _)), (proj2 (Z.eqb_neq a _)) by done.
  rewrite (IH a); [|done|intros b Hb; apply Hst; by right]. destruct l as [|b l]; [done|].
  f_equal. rewrite last_cons_cons. by destruct (last_is_Some (b :: l)) as [_ [x ->]].
Qed.

(** Either all of a list is too small or there is a first block that fits. *)
Lemma first_fit (f : Z -> Z) (nu : Z) l : (forall a, a ∈ l -> f a < nu) \/
  exists l1 p l2, l = l1 ++ p :: l2 /\ (forall a, a ∈ l1 -> f a < nu) /\ nu <= f p.
Proof.
  induction l as [|a l IH]; [left; by intros ? ?%elem_of_nil|]. destruct (decide (f a < nu)) as [Ha|Ha].
  - destruct IH as [IH|(l1 & p & l2 & -> & Hl1 & Hp)].
    + left. intros b [->|Hb]%elem_of_cons; auto.
    + right. exists (a :: l1), p, l2. split; [done|]. split; [|done]. intros b [->|Hb]%elem_of_cons; auto.
  - right. exists [], a, l. split; [done|]. split; [by intros ? ?%elem_of_nil|lia].
Qed.

Section Search.
Context (s : heap) (F : list (Z * Z)) (A : gmap Z Z) (nu : Z).
Hypothesis Hs : heap_ok s F A.
Hypothesis Hnu : 1 <= nu.

(** The headers in the order in which the loop looks at them. *)
Lemma ring_order : exists l, lseg (um s) (rd (um s) (freep s)) l (freep s) /\ NoDup (l ++ [freep s]) /\
  (forall a, a ∈ l ++ [freep s] <-> a ∈ base :: F.*1) /\ (length l < length (base :: F.*1))%nat.
Proof using All.
  pose proof (hk_ring _ _ _ Hs) as Hr. pose proof (ring_nodup s F A Hs) as Hnd.
  destruct (list_elem_of_split _ _ (hk_freep _ _ _ Hs)) as (l1 & l2 & HR). rewrite HR in *.
  exists (l2 ++ l1). split; [by eapply ring_around|]. split; [|split].
  - rewrite <- app_assoc, (Permutation_app_comm l2), <- app_assoc. done.
  - intros a. set_solver.
  - rewrite !length_app. cbn [length]. lia.
Qed.

Lemma fitting_block p : p ∈ base :: F.*1 -> nu <= rd (um s) (p + 4) ->
  exists F1 F2, F = F1 ++ (p, rd (um s) (p + 4)) :: F2.
Proof using Hs Hnu.
  intros [->|((a & z) & -> & Hin)%list_elem_of_fmap]%elem_of_cons Hz.
  - rewrite (hk_base_size _ _ _ Hs) in Hz. lia.
  - cbn. rewrite (hk_sizes _ _ _ Hs a z Hin). by apply list_elem_of_split.
Qed.

Lemma search : (exists F1 p z F2 k, F = F1 ++ (p, z) :: F2 /\ nu <= z /\ (k < length (base :: F.*1))%nat /\
    forall fuel, malloc_loop (k + S fuel) nu (freep s) (rd (um s) (freep s)) s = take_block nu (pred F1) p z s) \/
  ((forall a z, (a, z) ∈ F -> z < nu) /\ exists k, (k < length (base :: F.*1))%nat /\
    forall fuel, malloc_loop (k + S fuel) nu (freep s) (rd (um s) (freep s)) s =
      (p' ← morecore nu; if p' =? 0 then mret 0 else n ← s_ptr p'; malloc_loop fuel nu p' n) s).
Proof using All.
  destruct ring_order as (l & Hl & Hnd & Hin & Hlen). set (f := freep s) in *.
  destruct (first_fit (fun a => rd (um s) (a + 4)) nu (l ++ [f])) as [Hall|(la & p & lb & Hsp & Hla & Hp)].
  - right. split.
    { intros a z Ha. rewrite <- (hk_sizes _ _ _ Hs a z Ha). by apply Hall, Hin, (in_ring _ _ z). }
    exists (length l). split; [done|]. intros fuel. rewrite (malloc_loop_skip s nu f l _ f); [|done|].
    + assert (f ∈ l ++ [f]) as Hf by set_solver. rewrite malloc_loop_step.
      * rewrite (proj2 (Z.leb_gt nu _)) by by apply Hall. by rewrite Z.eqb_refl.
      * by apply (ring_header s F A Hs), Hin.
    + intros a Ha. assert (a ∈ l ++ [f]) as Ha2 by set_solver.
      split; [by apply (ring_header s F A Hs), Hin|]. split; [by apply Hall|].
      intros ->. apply NoDup_app in Hnd as (_ & Hd & _). apply (Hd f Ha). by left.
  - left. assert (p ∈ base :: F.*1) as HpR by (apply Hin; rewrite Hsp; set_solver).
    destruct (fitting_block p HpR Hp) as (F1 & F2 & HF). set (z := rd (um s) (p + 4)) in *.
    exists F1, p, z, F2, (length la). split; [done|]. split; [done|].
    assert (length la <= length l)%nat as Hle.
    { pose proof (f_equal length Hsp) as Hl2. rewrite !length_app in Hl2. cbn in Hl2. lia. }
    split; [lia|]. intros fuel.
    assert (lseg (um s) (rd (um s) f) (l ++ [f]) (rd (um s) f)) as Hr by (apply lseg_app; by exists f).
    rewrite Hsp in Hr. pose proof Hr as (y & Hr1 & [-> _])%lseg_app.
    rewrite (malloc_loop_skip s nu f la _ p); [|done|].
    2:{ intros a Ha. assert (a ∈ l ++ [f]) as Ha2 by (rewrite Hsp; set_solver).
        split; [by apply (ring_header s F A Hs), Hin|]. split; [by apply Hla|]. intros ->.
        rewrite Hsp in Hnd. apply NoDup_app in Hnd as (_ & Hd & _). apply (Hd f Ha).
        assert (last (p :: lb) = Some f) as Hlast by (by rewrite <- (last_app_cons la), <- Hsp, last_snoc).
        by apply last_Some_elem_of. }
    rewrite malloc_loop_step by by apply (ring_header s F A Hs). fold z. rewrite (proj2 (Z.leb_le nu z)) by done.
    f_equal. symmetry. apply (next_inj s F A); [done| | |].
    + rewrite HF, fmap_app. destruct (pred_split F1) as (_ & _ & Hpr & _). set_solver.
    + apply Hin. destruct (last la) as [x|] eqn:Hx; cbn; [|set_solver].
      apply last_Some_elem_of in Hx. rewrite Hsp. set_solver.
    + rewrite HF in Hs. rewrite (pred_next s A F1 ((p, z) :: F2) Hs). cbn.
      destruct la as [|x la _] using rev_ind; cbn; [by destruct Hr|].
      rewrite last_snoc. cbn. rewrite <- app_assoc in Hr. cbn in Hr. by rewrite (lseg_next _ _ _ _ _ _ Hr).
Qed.
End Search.

(** ** More memory *)

(** The new memory as a block in use. *)
Lemma grow_ok s F A nu : heap_ok s F A -> 1 <= nu -> brk s + 8 * nu < 2 ^ 31 ->
  heap_ok (set_um (<[brk s + 4 := nu]> (um s)) (set_brk (brk s + 8 * nu) s)) F (<[brk s := nu]> A) /\
  A !! brk s = None /\ kept A (um s) (<[brk s + 4 := nu]> (um s)).
Proof.
  intros Hs Hnu H31. destruct (hk_base _ _ _ Hs) as (? & ? & ?). pose proof (hk_start _ _ _ Hs) as Hst.
  destruct (hk_brk _ _ _ Hs) as [Hm _].
  assert (forall x, x < brk s + 4 -> rd (<[brk s + 4 := nu]> (um s)) x = rd (um s) x) as Hrd.
  { intros x Hx. apply rd_ne. lia. }
  assert (forall a, a ∈ base :: F.*1 -> a + 8 <= brk s) as Hin by (intros a Ha; by apply (ring_header s F A Hs)).
  assert (forall a w, A !! a = Some w -> a + 8 <= a + 8 * w <= brk s) as HA.
  { intros a w Ha. destruct (hk_live _ _ _ Hs a w Ha) as (? & ? & ? & ? & ?). lia. }
  split; [|split].
  - split; cbn [um brk freep set_um set_brk].
    + split; [done|]. split; [done|lia].
    + lia.
    + split; [|done]. rewrite <- Z.mul_comm. replace (nu * 8) with (4 * (2 * nu)) by lia. by apply mod4_add.
    + eapply spaced_hi; [|apply (hk_spaced _ _ _ Hs)]. lia.
    + eapply lseg_frame; [|apply (hk_ring _ _ _ Hs)]. intros a Ha. apply Hrd. specialize (Hin a Ha). lia.
    + rewrite Hrd by lia. apply (hk_base_size _ _ _ Hs).
    + intros a z Ha. rewrite Hrd; [by apply (hk_sizes _ _ _ Hs)|]. specialize (Hin a (in_ring _ _ _ Ha)). lia.
    + apply (hk_freep _ _ _ Hs).
    + intros a z [[<- <-]|[Hne Ha]]%lookup_insert_Some; [rewrite rd_eq; repeat split; (done || lia)|].
      destruct (hk_live _ _ _ Hs a z Ha) as (? & ? & ? & ? & ?). rewrite Hrd by lia. repeat split; (done || lia).
    + intros a z [[<- <-]|[Hne Ha]]%lookup_insert_Some; [lia|]. by apply (hk_live_start _ _ _ Hs a z).
    + intros a z b w [[<- <-]|[Hne Ha]]%lookup_insert_Some Hb; [|by apply (hk_free _ _ _ Hs a z b w)].
      destruct (free_header s F A Hs b w Hb). lia.
    + intros a z b w [[<- <-]|[_ Ha]]%lookup_insert_Some [[<- <-]|[_ Hb]]%lookup_insert_Some Hab; [done| | |].
      * specialize (HA b w Hb). lia.
      * specialize (HA a z Ha). lia.
      * by apply (hk_apart _ _ _ Hs).
  - destruct (A !! brk s) as [w|] eqn:Hb; [|done]. specialize (HA _ w Hb). lia.
  - intros b w x Hb Hx. apply Hrd. specialize (HA b w Hb). lia.
Qed.

(** The kernel gives a process no memory at the addresses of the kernel. *)
Hypothesis grows_user : forall b n, grows b n = true -> b + n < 2 ^ 31.

Definition chunk (nu : Z) : Z := if nu <? 4096 then 4096 else nu.

Lemma chunk_bound nu : 1 <= nu -> 8 * nu < 2 ^ 31 -> nu <= chunk nu /\ 4096 <= chunk nu /\ 8 * chunk nu < 2 ^ 31.
Proof using Type. intros. unfold chunk. destruct (Z.ltb_spec nu 4096); lia. Qed.

Lemma sbrk_run s n : 0 <= n < 2 ^ 31 ->
  sbrk n s = if grows (brk s) n then Ok (brk s, set_brk (brk s + n) s) else Ok (w32 (-1), s).
Proof using Type.
  intros Hn. unfold sbrk. rewrite bind_get, i32_small by lia. by destruct (grows (brk s) n).
Qed.

Lemma morecore_run s F A nu : heap_ok s F A -> 1 <= nu -> 8 * nu < 2 ^ 31 ->
  if grows (brk s) (8 * chunk nu) then
    exists s' F', morecore nu s = Ok (freep s', s') /\ heap_ok s' F' A /\ brk s' = brk s + 8 * chunk nu /\
      kept A (um s) (um s') /\ units F' = units F + chunk nu /\
      (exists a z, (a, z) ∈ F' /\ chunk nu <= z) /\ (length F' <= S (length F))%nat
  else morecore nu s = Ok (0, s).
Proof using grows_user.
  intros Hs Hnu H31. destruct (chunk_bound nu Hnu H31) as (Hc1 & Hc2 & Hc3). unfold morecore. fold (chunk nu).
  unfold HEADER. rewrite (w32_small (chunk nu * 8)) by lia. replace (chunk nu * 8) with (8 * chunk nu) by lia.
  pose proof (sbrk_run s (8 * chunk nu) ltac:(lia)) as Hsb.
  destruct (grows (brk s) (8 * chunk nu)) eqn:Hg; [|by mstep Hsb].
  pose proof (grows_user _ _ Hg) as Hu. destruct (hk_base _ _ _ Hs) as (? & ? & ?).
  destruct (hk_brk _ _ _ Hs) as [Hm4 _]. mstep Hsb.
  rewrite (proj2 (Z.eqb_neq (brk s) _)) by (change (w32 (-1)) with (2 ^ 32 - 1); lia).
  set (s1 := set_brk _ s). assert (header s1 (brk s)) as Hh by (repeat split; cbn; (done || lia)).
  mstep (set_s_size_run s1 _ Hh (chunk nu) ltac:(lia)). rewrite w32_small by lia.
  destruct (grow_ok s F A (chunk nu) Hs ltac:(lia) Hu) as (Hs2 & HA & Hk1).
  destruct (free_run _ _ _ (brk s) (chunk nu) Hs2) as (s' & F' & R & Hs' & Hb & Hk & Hun & Hbig & Hlen).
  { apply lookup_insert_eq. }
  rewrite delete_insert_id in Hs', Hk by done. mstep R. exists s', F'. split; [by rewrite bind_gets || done|].
  split; [done|]. split; [done|]. split; [|done].
  intros b w x Hw Hx. rewrite (Hk b w x Hw Hx). by apply (Hk1 b w x).
Qed.
End Alloc.
