(* ===== verification/UmallocProps.v ===== *)
(** * The allocator of user programs: its properties

    A program that asks for blocks, writes in those it has and gives them back: the blocks stay
    apart and keep their contents, and no memory is lost. *)

From S2P Require Import Prelude Umalloc UmallocSpec UmallocFree.

(** ** Counting units *)

(** The units of the blocks in use. *)
Definition used (A : gmap Z Z) : Z := map_fold (fun _ z n => z + n) 0 A.

Lemma in_use_insert A a z : A !! a = None -> used (<[a := z]> A) = z + used A.
Proof. intros Ha. unfold used. rewrite map_fold_insert_L; [done|lia|done]. Qed.

Lemma in_use_delete A a z : A !! a = Some z -> used A = z + used (delete a A).
Proof. intros Ha. rewrite <- (in_use_insert (delete a A) a z) by apply lookup_delete_eq. by rewrite insert_delete_id. Qed.

(** Blocks with gaps between them that fill the memory are one block. *)
Lemma spaced_units lo F hi : spaced lo F hi -> lo <= hi ->
  8 * units F + Z.of_nat (length F) <= hi - lo + 1.
Proof.
  revert lo. induction F as [|[a z] F IH]; intros lo; cbn [spaced length]; [cbn; lia|].
  intros (? & ? & ? & ? & Hs) Hle. rewrite units_cons. destruct F as [|[b w] F]; [cbn; lia|].
  assert (a + 8 * z + 1 <= hi) as Hle2 by (destruct Hs; lia). specialize (IH _ Hs Hle2). lia.
Qed.

Lemma spaced_full lo F hi : spaced lo F hi -> lo < hi -> 8 * units F = hi - lo ->
  exists z, F = [(lo, z)] /\ 8 * z = hi - lo.
Proof.
  intros Hs Hlt Hu. pose proof (spaced_units _ _ _ Hs ltac:(lia)) as Hl.
  destruct F as [|[a z] [|b F]]; cbn [length] in Hl; [cbn in Hu; lia| |lia].
  exists z. cbn in Hs, Hu. destruct Hs as (? & ? & ? & ? & _). split; [|lia]. do 2 f_equal. lia.
Qed.

Section Props.
Context `{Process, HeapStart}.
Hypothesis grows_user : forall b n, grows b n = true -> b + n < 2 ^ 31.

(** ** malloc *)

(** The units of a request, with the header. *)
Definition size_of (n : Z) : Z := (n + 7) / 8 + 1.

Lemma size_of_bounds n : 0 <= n -> n + 15 < 2 ^ 31 -> 1 <= size_of n /\ 8 * size_of n < 2 ^ 31 /\ n + 8 <= 8 * size_of n.
Proof using Type. intros. unfold size_of. pose proof (Z.div_mod (n + 7) 8). pose proof (Z.mod_pos_bound (n + 7) 8). lia. Qed.

(** A block that fits is there. *)
Lemma take_first s F A nu fuel : heap_ok s F A -> 1 <= nu -> (exists a z, (a, z) ∈ F /\ nu <= z) ->
  (length (base :: F.*1) <= fuel)%nat ->
  exists s' q F', malloc_loop fuel nu (freep s) (rd (um s) (freep s)) s = Ok (q + 8, s') /\ A !! q = None /\
    heap_ok s' F' (<[q := nu]> A) /\ brk s' = brk s /\ kept A (um s) (um s') /\ units F' + nu = units F.
Proof using Type.
  intros Hs Hnu (a & z & Hin & Hz) Hfuel.
  destruct (search s F A nu Hs Hnu) as [(F1 & p & y & F2 & k & -> & Hy & Hk & R)|[Hsmall _]].
  - replace fuel with (k + S (fuel - k - 1))%nat by lia. rewrite R. apply take_run; [done|lia].
  - specialize (Hsmall a z Hin). lia.
Qed.

Lemma malloc_body n s F A : heap_ok s F A -> 0 <= n -> n + 15 < 2 ^ 31 ->
  malloc n s = malloc_loop (2 * fuel_of s + 2) (size_of n) (freep s) (rd (um s) (freep s)) s.
Proof using Type.
  intros Hs Hn H31. pose proof (size_of_bounds n Hn H31) as (? & ? & ?). unfold size_of in *.
  pose proof (Z.div_mod (n + 7) 8). pose proof (Z.mod_pos_bound (n + 7) 8).
  pose proof (ring_header s F A Hs _ (hk_freep _ _ _ Hs)) as Hf. pose proof Hf as (_ & Hf0 & _).
  unfold malloc. rewrite bind_gets. rewrite (proj2 (Z.eqb_neq (freep s) 0)), bind_when_false by lia.
  rewrite bind_get. mstep (s_ptr_run s _ Hf). unfold HEADER. replace (n + 8 - 1) with (n + 7) by lia.
  rewrite (w32_small (n + 7)), w32_small by lia. done.
Qed.

(** What [malloc] does: it takes a block, or the kernel gives no more memory. *)
Lemma malloc_run n s F A : heap_ok s F A -> 0 <= n -> n + 15 < 2 ^ 31 ->
  (malloc n s = Ok (0, s) /\ grows (brk s) (8 * chunk (size_of n)) = false) \/
  exists s' q F', malloc n s = Ok (q + 8, s') /\ A !! q = None /\ heap_ok s' F' (<[q := size_of n]> A) /\
    kept A (um s) (um s') /\ 8 * (units F' + size_of n) = 8 * units F + (brk s' - brk s).
Proof using grows_user.
  intros Hs Hn H31. rewrite (malloc_body n s F A Hs Hn H31).
  destruct (size_of_bounds n Hn H31) as (Hnu & Hnu31 & _). pose proof (heap_ring_length s F A Hs) as Hlen.
  assert (fuel_of s = S (S (Z.to_nat (brk s / 8)))) as Hfu by done.
  destruct (search s F A (size_of n) Hs Hnu) as [(F1 & p & y & F2 & k & -> & Hy & Hk & R)|(Hsmall & k & Hk & R)].
  - right. replace (2 * fuel_of s + 2)%nat with (k + S (2 * fuel_of s + 1 - k))%nat by lia. rewrite R.
    destruct (take_run s A F1 F2 p y _ Hs ltac:(split; [exact Hnu|exact Hy])) as (s' & q & F' & R' & Hq & Hs' & Hb & Hkp & Hu).
    exists s', q, F'. split_and!; try done. lia.
  - set (fl := (2 * fuel_of s + 1 - k)%nat) in *.
    replace (2 * fuel_of s + 2)%nat with (k + S fl)%nat by lia. rewrite R.
    pose proof (morecore_run grows_user s F A (size_of n) Hs Hnu Hnu31) as Hmc.
    destruct (grows _ _); [right|left; by mstep Hmc].
    destruct Hmc as (s1 & F1 & R1 & Hs1 & Hb1 & Hk1 & Hu1 & (a & z & Hin & Hz) & Hl1). mstep R1.
    pose proof (ring_header s1 F1 A Hs1 _ (hk_freep _ _ _ Hs1)) as Hf. pose proof Hf as (_ & Hf0 & _).
    rewrite (proj2 (Z.eqb_neq (freep s1) 0)) by lia. mstep (s_ptr_run s1 _ Hf).
    destruct (chunk_bound (size_of n) Hnu Hnu31) as (Hch & _).
    destruct (take_first s1 F1 A (size_of n) fl Hs1 Hnu) as (s' & q & F' & R' & Hq & Hs' & Hb & Hkp & Hu).
    { exists a, z. split; [done|lia]. }
    { cbn [length] in *. rewrite length_fmap in *. unfold fl. lia. }
    exists s', q, F'. split; [done|]. split; [done|]. split; [done|]. split; [|lia].
    intros b w x Hw Hx. rewrite (Hkp b w x Hw Hx). by apply (Hk1 b w x).
Qed.

(** ** Programs *)

(** The blocks that a program has, by their address and with the bytes it asked for: it has
    none at the start, it asks for one, gives one back, or writes a word in one. *)
Inductive reach : heap -> gmap Z Z -> Prop :=
| reach_start s : freep s = 0 -> 0 < base -> base mod 4 = 0 -> base + 8 <= heap_start ->
    brk s = heap_start -> heap_start mod 4 = 0 -> heap_start < 2 ^ 31 -> reach s ∅
| reach_malloc s L n r s' : reach s L -> 0 <= n -> n + 15 < 2 ^ 31 -> malloc n s = Ok (r, s') ->
    reach s' (if r =? 0 then L else <[r := n]> L)
| reach_free s L p n s' : reach s L -> L !! p = Some n -> free p s = Ok (tt, s') -> reach s' (delete p L)
| reach_write s L p n x v s' : reach s L -> L !! p = Some n -> p <= x -> x + 4 <= p + n -> x mod 4 = 0 ->
    sto x v s = Ok (tt, s') -> reach s' L.

(** The blocks of the program are the blocks in use. *)
Record holds (L A : gmap Z Z) : Prop := Holds {
  ho_live : forall p n, L !! p = Some n -> A !! (p - 8) = Some (size_of n) /\ 0 <= n < 2 ^ 31 - 15;
  ho_all : forall a z, A !! a = Some z -> is_Some (L !! (a + 8))
}.

Lemma holds_insert L A q n : holds L A -> 0 <= n -> n + 15 < 2 ^ 31 -> holds (<[q + 8 := n]> L) (<[q := size_of n]> A).
Proof using Type.
  intros [Hl Ha] Hn H31. split.
  - intros p k [[<- <-]|[Hne Hp]]%lookup_insert_Some.
    + replace (q + 8 - 8) with q by lia. rewrite lookup_insert_eq. split; [done|lia].
    + rewrite lookup_insert_ne by lia. by apply Hl.
  - intros a z [[<- <-]|[Hne Hz]]%lookup_insert_Some; [by rewrite lookup_insert_eq|].
    rewrite lookup_insert_ne by lia. by apply (Ha a z).
Qed.

Lemma holds_delete L A p : holds L A -> holds (delete p L) (delete (p - 8) A).
Proof using Type.
  intros [Hl Ha]. split.
  - intros q k [Hne Hq]%lookup_delete_Some. rewrite lookup_delete_ne by lia. by apply Hl.
  - intros a z [Hne Hz]%lookup_delete_Some. rewrite lookup_delete_ne by lia. by apply (Ha a z).
Qed.

(** The heap of a program: it has not asked for a block yet, or the heap is well formed and no
    unit of the memory that the kernel gave is lost. *)
Definition fresh (s : heap) : Prop :=
  freep s = 0 /\ (0 < base /\ base mod 4 = 0 /\ base + 8 <= heap_start) /\
  brk s = heap_start /\ heap_start mod 4 = 0 /\ heap_start < 2 ^ 31.

Definition in_use (s : heap) (L : gmap Z Z) : Prop :=
  exists F A, heap_ok s F A /\ holds L A /\ 8 * (units F + used A) = brk s - heap_start.

(** The list that [malloc] makes when it is called for the first time. *)
Definition first_list (s : heap) : heap := Heap base (brk s) (<[base + 4 := 0]> (<[base := base]> (um s))).

Lemma first_list_ok s : fresh s -> in_use (first_list s) ∅.
Proof using Type.
  intros (Hf & (Hb & Hb4 & Hbs) & Hbrk & Hs4 & Hs31). exists [], ∅.
  assert (forall z a, (∅ : gmap Z Z) !! a = Some z -> False) as Hno by (intros z a Ha; by rewrite lookup_empty in Ha).
  split; [|split].
  - split; cbn [um brk freep first_list fmap list_fmap]; rewrite ?Hbrk; try done; try lia.
    + split; [done|]. rewrite rd_ne, rd_eq by lia. done.
    + apply rd_eq.
    + by intros a z ?%elem_of_nil.
    + by left.
  - split; by intros ? ? ?%Hno.
  - unfold used. rewrite map_fold_empty. cbn. lia.
Qed.

Lemma malloc_first s n : fresh s -> malloc n s = malloc n (first_list s).
Proof using Type.
  intros (Hf & (Hb & Hb4 & Hbs) & Hbrk & Hs4 & Hs31). unfold malloc.
  rewrite !bind_gets, Hf. cbn [freep first_list]. rewrite (proj2 (Z.eqb_neq base 0)) by lia.
  change (0 =? 0) with true. rewrite bind_when_true, bind_when_false, !bind_bind, bind_modify.
  assert (header (set_freep base s) base) as Hh by (repeat split; cbn; lia || done).
  assert (0 <= base < 2 ^ 32) as Hsm by lia.
  rewrite bind_bind. mstep (set_s_ptr_run _ _ Hh base Hsm).
  set (s1 := set_um _ _). by mstep (set_s_size_run s1 base Hh 0 ltac:(lia)).
Qed.

(** ** What a program sees *)

(** The bytes of the blocks hold the same. *)
Definition same_contents (L : gmap Z Z) (s s' : heap) : Prop :=
  forall p n x, L !! p = Some n -> p <= x < p + n -> rd (um s') x = rd (um s) x.

Lemma kept_contents L A s s' : holds L A -> kept A (um s) (um s') -> same_contents L s s'.
Proof using Type.
  intros HL Hk p n x Hp Hx. destruct (ho_live _ _ HL p n Hp) as [Ha Hn].
  apply (Hk _ _ x Ha). pose proof (size_of_bounds n ltac:(lia) ltac:(lia)). lia.
Qed.

(** A call of [malloc]. *)
Definition malloc_ok (L : gmap Z Z) (n : Z) (s : heap) (r : Z) (s' : heap) : Prop :=
  in_use s' (if r =? 0 then L else <[r := n]> L) /\ same_contents L s s' /\
  (r = 0 -> grows (brk s) (8 * chunk (size_of n)) = false) /\ (r <> 0 -> L !! r = None).

Lemma malloc_in_use s L n : in_use s L -> 0 <= n -> n + 15 < 2 ^ 31 ->
  exists r s', malloc n s = Ok (r, s') /\ malloc_ok L n s r s'.
Proof using grows_user.
  intros (F & A & Hs & HL & Hu) Hn H31.
  destruct (malloc_run n s F A Hs Hn H31) as [[R Hg]|(s' & q & F' & R & Hq & Hs' & Hk & Hu')].
  - exists 0, s. split; [done|]. split; [by exists F, A|]. done.
  - exists (q + 8), s'. split; [done|].
    destruct (hk_live _ _ _ Hs' q (size_of n)) as (? & _); [apply lookup_insert_eq|].
    destruct (hk_base _ _ _ Hs) as (? & _). split; [|split; [by apply (kept_contents L A)|split; [lia|]]].
    + rewrite (proj2 (Z.eqb_neq (q + 8) 0)) by lia. exists F', (<[q := size_of n]> A).
      split; [done|]. split; [by apply holds_insert|]. rewrite in_use_insert by done. lia.
    + intros _. destruct (L !! (q + 8)) as [k|] eqn:Hk'; [|done].
      destruct (ho_live _ _ HL _ _ Hk') as [Ha _]. replace (q + 8 - 8) with q in Ha by lia. congruence.
Qed.

Lemma malloc_fresh s n : fresh s -> 0 <= n -> n + 15 < 2 ^ 31 ->
  exists r s', malloc n s = Ok (r, s') /\ malloc_ok ∅ n s r s'.
Proof using grows_user.
  intros Hf Hn H31. destruct (malloc_in_use _ ∅ n (first_list_ok s Hf) Hn H31) as (r & s' & R & Hu & Hc & Hg & Hr).
  exists r, s'. split; [by rewrite malloc_first|]. split; [done|]. split; [|done].
  intros p k x Hp. by rewrite lookup_empty in Hp.
Qed.

Lemma free_in_use s L p n : in_use s L -> L !! p = Some n ->
  exists s', free p s = Ok (tt, s') /\ in_use s' (delete p L) /\ same_contents (delete p L) s s'.
Proof using Type.
  intros (F & A & Hs & HL & Hu) Hp. destruct (ho_live _ _ HL p n Hp) as [Ha Hn].
  destruct (free_run s F A (p - 8) _ Hs Ha) as (s' & F' & R & Hs' & Hb & Hk & Hu' & _).
  replace (p - 8 + 8) with p in R by lia. pose proof (holds_delete L A p HL) as HL'.
  exists s'. split; [done|]. split; [|by apply (kept_contents _ (delete (p - 8) A))].
  exists F', (delete (p - 8) A). split; [done|]. split; [done|].
  rewrite (in_use_delete A (p - 8) _ Ha) in Hu. rewrite Hb. lia.
Qed.

(** A word of a block is no word of the list and no size. *)
Lemma write_in_use s L p n x v s' : in_use s L -> L !! p = Some n -> p <= x -> x + 4 <= p + n ->
  sto x v s = Ok (tt, s') -> in_use s' L.
Proof using Type.
  intros (F & A & Hs & HL & Hu) Hp Hx Hx4 R. destruct (ho_live _ _ HL p n Hp) as [Ha Hn].
  assert (s' = set_um (<[x := v]> (um s)) s) as ->.
  { unfold sto in R. rewrite bind_get in R. destruct (valid s x); [|done].
    unfold modify in R. by injection R. }
  pose proof (size_of_bounds n ltac:(lia) ltac:(lia)) as (Hz & _ & Hzn).
  assert (forall a, a ∈ base :: F.*1 -> a <> x /\ a + 4 <> x) as Hring.
  { intros a Hin. destruct (word_apart s F A _ _ a x Hs Ha Hin); [lia|]. split; congruence. }
  assert (forall a, a <> x -> rd (<[x := v]> (um s)) a = rd (um s) a) as Hrd by (intros; by apply rd_ne).
  exists F, A. split; [|split; [done|done]]. destruct Hs as [H1 H2 H3 H4 H5 H6 H7 H8 H9 H10 H11 H12].
  split; try done; cbn [um set_um].
  - eapply lseg_frame; [|done]. intros a Hin. by apply Hrd, Hring.
  - rewrite Hrd; [done|]. apply Hring. by left.
  - intros a z Hin. rewrite Hrd; [by apply H7|]. by apply Hring, (in_ring _ _ z).
  - intros a z Hz'. destruct (H9 a z Hz') as (? & ? & ? & ? & Hsz). do 4 (split; [done|]).
    rewrite Hrd; [done|]. destruct (decide (a = p - 8)) as [->|Hne]; [lia|].
    destruct (H12 a z (p - 8) _ Hz' Ha Hne); lia.
Qed.

Lemma reach_inv s L : reach s L -> (fresh s /\ L = ∅) \/ in_use s L.
Proof using grows_user.
  induction 1 as [s|s L n r s' Hr IH Hn H31 R|s L p n s' Hr IH Hp R|s L p n x v s' Hr IH Hp Hx Hx4 Hm R].
  - left. split; [|done]. unfold fresh. split_and!; done.
  - right. destruct IH as [[Hf ->]|Hu].
    + destruct (malloc_fresh s n Hf Hn H31) as (r' & s1 & R' & Hok). rewrite R in R'.
      injection R' as <- <-. apply Hok.
    + destruct (malloc_in_use s L n Hu Hn H31) as (r' & s1 & R' & Hok). rewrite R in R'.
      injection R' as <- <-. apply Hok.
  - right. destruct IH as [[Hf ->]|Hu]; [by rewrite lookup_empty in Hp|].
    destruct (free_in_use s L p n Hu Hp) as (s1 & R' & Hok & _). rewrite R in R'. by injection R' as <-.
  - right. destruct IH as [[Hf ->]|Hu]; [by rewrite lookup_empty in Hp|].
    by apply (write_in_use s L p n x v s').
Qed.

(** ** The properties *)

(** The blocks lie in the memory that the kernel gave, aligned and apart from each other. *)
Definition apart (L : gmap Z Z) (hi : Z) : Prop :=
  (forall p n, L !! p = Some n -> heap_start + 8 <= p /\ p mod 4 = 0 /\ p + n <= hi) /\
  forall p n q k, L !! p = Some n -> L !! q = Some k -> p <> q -> p + n + 8 <= q \/ q + k + 8 <= p.

Lemma in_use_apart s L : in_use s L -> apart L (brk s).
Proof using Type.
  intros (F & A & Hs & HL & _). split.
  - intros p n Hp. destruct (ho_live _ _ HL p n Hp) as [Ha Hn].
    pose proof (size_of_bounds n ltac:(lia) ltac:(lia)) as (? & _ & ?).
    pose proof (hk_live_start _ _ _ Hs _ _ Ha). destruct (hk_live _ _ _ Hs _ _ Ha) as (? & Hm & ? & ? & _).
    split; [lia|]. split; [|lia]. replace p with (p - 8 + 4 * 2) by lia. by apply mod4_add.
  - intros p n q k Hp Hq Hne. destruct (ho_live _ _ HL p n Hp) as [Ha Hn], (ho_live _ _ HL q k Hq) as [Hb Hk].
    pose proof (size_of_bounds n ltac:(lia) ltac:(lia)). pose proof (size_of_bounds k ltac:(lia) ltac:(lia)).
    destruct (hk_apart _ _ _ Hs _ _ _ _ Ha Hb ltac:(lia)); lia.
Qed.

(** *** Requests that are too large *)

(** The number of units wraps around: the last seven requests are served as one of 0 bytes. *)
Lemma malloc_wraps n s : 2 ^ 32 - 7 <= n < 2 ^ 32 -> malloc n s = malloc 0 s.
Proof using Type.
  intros Hn. unfold malloc, HEADER.
  replace (w32 (w32 (n + 8 - 1) / 8 + 1)) with (w32 (w32 (0 + 8 - 1) / 8 + 1)); [done|].
  assert (w32 (n + 8 - 1) / 8 = 0) as ->; [|done].
  unfold w32. rewrite (Z.mod_eq _ (2 ^ 32)) by lia.
  assert ((n + 8 - 1) / 2 ^ 32 = 1) as -> by (symmetry; apply (Z.div_unique _ _ _ (n + 7 - 2 ^ 32)); lia).
  apply Z.div_small. lia.
Qed.

(** The bytes that [morecore] asks for are an [int] for [sbrk]: from [2 ^ 31] bytes on the
    process shrinks. *)
Lemma large_request_shrinks nu s : 2 ^ 28 <= nu < 2 ^ 29 -> grows (brk s) (8 * nu - 2 ^ 32) = true ->
  exists s', sbrk (w32 (nu * HEADER)) s = Ok (brk s, s') /\ brk s' < brk s.
Proof using Type.
  intros Hn Hg. assert (i32 (w32 (nu * HEADER)) = 8 * nu - 2 ^ 32) as Hi.
  { unfold HEADER. rewrite w32_small by lia. unfold i32.
    rewrite <- (Z.mod_unique (nu * 8 + 2 ^ 31) (2 ^ 32) 1 (nu * 8 - 2 ^ 31)); lia. }
  eexists. unfold sbrk. mrun. rewrite Hi, Hg. mrun. split; [reflexivity|]. cbn. lia.
Qed.

(** C22. Whatever a program did with its blocks before, they are in the memory of the process and
    apart, [malloc] returns, a new block or 0 when the kernel refuses to let the process grow,
    [free] of one of its blocks returns, and neither changes a byte of the other blocks.  This
    is so for requests below [2 ^ 31 - 15] bytes, now and before ([reach]).  It fails for
    larger ones: [malloc] serves the last seven numbers below [2 ^ 32] as 0, with a block
    without a single byte, and from [2 ^ 31] bytes on [morecore] asks [sbrk] for a negative
    number ([large_request_shrinks]). *)
Theorem blocks_stay_apart s L : reach s L ->
  apart L (brk s) /\
  (forall n, 0 <= n -> n + 15 < 2 ^ 31 -> exists r s', malloc n s = Ok (r, s') /\ same_contents L s s' /\
    if r =? 0 then grows (brk s) (8 * chunk (size_of n)) = false
    else L !! r = None /\ apart (<[r := n]> L) (brk s')) /\
  (forall p n, L !! p = Some n -> exists s', free p s = Ok (tt, s') /\ same_contents (delete p L) s s') /\
  (forall n, 2 ^ 32 - 7 <= n < 2 ^ 32 -> malloc n s = malloc 0 s).
Proof using grows_user.
  intros Hr. assert (forall n, 0 <= n -> n + 15 < 2 ^ 31 ->
    exists r s', malloc n s = Ok (r, s') /\ malloc_ok L n s r s') as Hm.
  { intros n Hn H31. destruct (reach_inv s L Hr) as [[Hf ->]|Hu]; [by apply malloc_fresh|by apply malloc_in_use]. }
  split_and!; [| | |intros n; apply malloc_wraps].
  - destruct (reach_inv s L Hr) as [[_ ->]|Hu]; [|by apply in_use_apart].
    split; [intros p n Hp|intros p n q k Hp]; by rewrite lookup_empty in Hp.
  - intros n Hn H31. destruct (Hm n Hn H31) as (r & s' & R & Hu & Hc & Hg & Hnew).
    exists r, s'. split; [done|]. split; [done|]. destruct (Z.eqb_spec r 0); [auto|].
    split; [auto|by apply in_use_apart].
  - intros p n Hp. destruct (reach_inv s L Hr) as [[_ ->]|Hu]; [by rewrite lookup_empty in Hp|].
    destruct (free_in_use s L p n Hu Hp) as (s' & R & _ & Hc). eauto.
Qed.

(** C23. When a program, whose requests were below [2 ^ 31 - 15] bytes, has given everything back, the free list is a single block with all the
    memory that the kernel gave: no unit is lost, and blocks side by side are always joined. *)
Theorem free_blocks_are_joined s : reach s ∅ -> heap_start < brk s ->
  rd (um s) base = heap_start /\ rd (um s) heap_start = base /\
  8 * rd (um s) (heap_start + 4) = brk s - heap_start.
Proof using grows_user.
  intros Hr Hlt. destruct (reach_inv s ∅ Hr) as [[Hf _]|(F & A & Hs & HL & Hu)].
  { destruct Hf as (_ & _ & ? & _). lia. }
  assert (A = ∅) as ->.
  { apply map_empty. intros a. destruct (A !! a) as [z|] eqn:Ha; [|done].
    destruct (ho_all _ _ HL a z Ha) as [n Hn]. by rewrite lookup_empty in Hn. }
  unfold used in Hu. rewrite map_fold_empty in Hu.
  destruct (spaced_full _ _ _ (hk_spaced _ _ _ Hs) Hlt ltac:(lia)) as (z & -> & Hz).
  destruct (hk_ring _ _ _ Hs) as (_ & H2 & H3). cbn in H2, H3. split; [done|]. rewrite <- H2 in H3.
  split; [congruence|]. rewrite (hk_sizes _ _ _ Hs heap_start z); [done|by left].
Qed.
End Props.

(** ** A process *)

Module Example.
#[local] Instance process : Process := { base := 1024; grows := fun b n => (0 <=? n) && (b + n <? 2 ^ 20) }.
#[local] Instance start : HeapStart := 4096.

Definition s0 : heap := Heap 0 4096 ∅.
Definition state_of {B} (r : res (B * heap)) : heap := match r with Ok (_, s) => s | _ => s0 end.
Definition s1 : heap := state_of (malloc 10 s0).
Definition s2 : heap := state_of (malloc 100 s1).
Definition s3 : heap := state_of (sto 36848 7 s2).
Definition s4 : heap := state_of (free 36848 s3).
Definition s5 : heap := state_of (free 36736 s4).

Lemma grows_small b n : grows b n = true -> b + n < 2 ^ 31.
Proof. cbn. intros [_ ?%Z.ltb_lt]%andb_true_iff. lia. Qed.

Lemma reach_two : reach s2 (<[36736 := 100]> (<[36848 := 10]> ∅)).
Proof.
  apply (reach_malloc s1 (<[36848 := 10]> ∅) 100 36736 s2); [|lia|lia|by vm_compute].
  apply (reach_malloc s0 ∅ 10 36848 s1); [|lia|lia|by vm_compute]. by apply reach_start.
Qed.

Lemma reach_none : reach s5 ∅.
Proof.
  assert (delete 36736 (delete 36848 (<[36736 := 100]> (<[36848 := 10]> ∅))) = (∅ : gmap Z Z)) as <- by by vm_compute.
  apply (reach_free s4 _ 36736 100); [|by vm_compute|by vm_compute].
  apply (reach_free s3 _ 36848 10); [|by vm_compute|by vm_compute].
  apply (reach_write s2 _ 36848 10 36848 7); [exact reach_two|by vm_compute|lia|lia|done|by vm_compute].
Qed.
End Example.

Lemma blocks_stay_apart_witness :
  rd (um Example.s3) 36848 = 7 /\
  (exists s', free 36736 Example.s2 = Ok (tt, s') /\
    same_contents (delete 36736 (<[36736 := 100]> (<[36848 := 10]> ∅))) Example.s2 s') /\
  exists r s', @malloc Example.process 2000000 Example.s2 = Ok (r, s') /\ r = 0.
Proof.
  split; [by vm_compute|]. split.
  - pose proof (@blocks_stay_apart Example.process Example.start Example.grows_small _ _ Example.reach_two) as (_ & _ & Hf & _).
    by apply (Hf 36736 100).
  - eexists _, _. split; [by vm_compute|done].
Defined.

Lemma free_blocks_are_joined_witness : brk Example.s5 = 36864 /\ rd (um Example.s5) 1024 = 4096 /\
  rd (um Example.s5) 4096 = 1024 /\ 8 * rd (um Example.s5) 4100 = 36864 - 4096.
Proof.
  split; [by vm_compute|].
  exact (@free_blocks_are_joined Example.process Example.start Example.grows_small _ Example.reach_none eq_refl).
Defined.
