(* ===== verification/Kdebug.v ===== *)
(** * The debugging information of JOS

    [lab-1/jos/kern/kdebug.c]: the search of the symbol table for an address.  The table is a
    list, an access outside it is a [Fault]. *)

From S2P Require Import Prelude.

(** [struct Stab]. *)
Record stab := Stab { n_strx : Z; n_type : Z; n_other : Z; n_desc : Z; n_value : Z }.

Definition N_FUN : Z := 0x24.
Definition N_SLINE : Z := 0x44.
Definition N_SO : Z := 0x64.
Definition N_SOL : Z := 0x84.
Definition N_PSYM : Z := 0xa0.

Definition stab_at (stabs : list stab) (i : Z) : res stab :=
  match zlookup stabs i with Some x => Ok x | None => Fault "stabs" end.

(** [while (m >= l && stabs[m].n_type != type) m--]. *)
Fixpoint back_to_type (fuel : nat) (stabs : list stab) (type l m : Z) : res Z :=
  match fuel with
  | O => Diverge
  | S fuel' =>
      if l <=? m then
        x ← stab_at stabs m;
        if n_type x =? type then Ok m else back_to_type fuel' stabs type l (m - 1)
      else Ok m
  end.

(** The variables of the loop: [l], [r], the region and whether anything has matched. *)
Record bounds := Bounds { b_l : Z; b_r : Z; region_left : Z; region_right : Z; any_matches : bool }.

Fixpoint binary_loop (fuel : nat) (stabs : list stab) (type addr : Z) (v : bounds) : res bounds :=
  match fuel with
  | O => Diverge
  | S fuel' =>
      if b_l v <=? b_r v then
        let true_m := Z.quot (b_l v + b_r v) 2 in
        m ← back_to_type (S (length stabs)) stabs type (b_l v) true_m;
        if m <? b_l v then
          binary_loop fuel' stabs type addr
            (Bounds (true_m + 1) (b_r v) (region_left v) (region_right v) (any_matches v))
        else
          x ← stab_at stabs m;
          if n_value x <? addr then
            binary_loop fuel' stabs type addr (Bounds (true_m + 1) (b_r v) m (region_right v) true)
          else if addr <? n_value x then
            binary_loop fuel' stabs type addr (Bounds (b_l v) (m - 1) (region_left v) (m - 1) true)
          else
            binary_loop fuel' stabs type (w32 (addr + 1)) (Bounds m (b_r v) m (region_right v) true)
      else Ok v
  end.

(** The loop [for (l = right; l > left && stabs[l].n_type != type; l--)]. *)
Fixpoint rightmost (fuel : nat) (stabs : list stab) (type left l : Z) : res Z :=
  match fuel with
  | O => Diverge
  | S fuel' =>
      if left <? l then
        x ← stab_at stabs l;
        if n_type x =? type then Ok l else rightmost fuel' stabs type left (l - 1)
      else Ok l
  end.

(** The new region. *)
Definition stab_binsearch (stabs : list stab) (left right type addr : Z) : res (Z * Z) :=
  v ← binary_loop (2 * length stabs + 4) stabs type addr (Bounds left right left right false);
  if any_matches v then
    l ← rightmost (S (length stabs)) stabs type (region_left v) (region_right v);
    Ok (l, region_right v)
  else Ok (region_left v, region_left v - 1).

(** A string of the table by its offset, or the string "<unknown>". *)
Inductive name := Unknown | At (off : Z).

(** [struct Eipdebuginfo]. *)
Record eipinfo := EipInfo {
  eip_file : name;
  eip_line : Z;
  eip_fn_name : name;
  eip_fn_namelen : Z;
  eip_fn_addr : Z;
  eip_fn_narg : Z
}.

Definition ULIM_ : Z := 0xef800000.

(** [strfind(s, c) - s]: the distance to the first [c] or to the end of the string. *)
Fixpoint strfind (s : list Z) (c : Z) : option Z :=
  match s with
  | [] => None
  | x :: s' => if (x =? 0) || (x =? c) then Some 0 else d ← strfind s' c; Some (d + 1)
  end.

Definition name_length (stabstr : list Z) (n : name) : res Z :=
  match n with
  | Unknown => Ok 9
  | At off => match strfind (drop (Z.to_nat off) stabstr) 0x3a with Some d => Ok d | None => Fault "stabstr" end
  end.

(** The walk back to the file name. *)
Fixpoint find_file (fuel : nat) (stabs : list stab) (lfile lline : Z) : res Z :=
  match fuel with
  | O => Diverge
  | S fuel' =>
      if lfile <=? lline then
        x ← stab_at stabs lline;
        if negb (n_type x =? N_SOL) && (negb (n_type x =? N_SO) || (n_value x =? 0))
        then find_file fuel' stabs lfile (lline - 1)
        else Ok lline
      else Ok lline
  end.

(** The count of the parameters. *)
Fixpoint count_args (fuel : nat) (stabs : list stab) (rfun lline n : Z) : res Z :=
  match fuel with
  | O => Diverge
  | S fuel' =>
      if lline <? rfun then
        x ← stab_at stabs lline;
        if n_type x =? N_PSYM then count_args fuel' stabs rfun (lline + 1) (n + 1) else Ok n
      else Ok n
  end.

(** The name and the address of the function, the address to look for in it, and the region of
    its lines. *)
Definition find_function (stabs : list stab) (stabstr : list Z) (addr lfile rfile lfun rfun : Z) :
    res (name * Z * Z * Z * Z) :=
  if lfun <=? rfun then
    x ← stab_at stabs lfun;
    Ok (if n_strx x <? Z.of_nat (length stabstr) then At (n_strx x) else Unknown, n_value x,
        w32 (addr - n_value x), lfun, rfun)
  else Ok (Unknown, addr, addr, lfile, rfile).

Definition debuginfo_eip (stabs : list stab) (stabstr : list Z) (addr : Z) : res (Z * eipinfo) :=
  let info := EipInfo Unknown 0 Unknown 9 addr 0 in
  if addr <? ULIM_ then Panic "User address"
  else if (length stabstr =? 0)%nat || negb (default 0 (last stabstr) =? 0) then Ok (-1, info)
  else
    f ← stab_binsearch stabs 0 (Z.of_nat (length stabs) - 1) N_SO addr;
    let '(lfile, rfile) := f in
    if lfile =? 0 then Ok (-1, info)
    else
      g ← stab_binsearch stabs lfile rfile N_FUN addr;
      let '(lfun, rfun) := g in
      h ← find_function stabs stabstr addr lfile rfile lfun rfun;
      let '(fn, fn_addr, addr, lline, rline) := h in
      len ← name_length stabstr fn;
      k ← stab_binsearch stabs lline rline N_SLINE addr;
      let '(lline, rline) := k in
      if lline <=? rline then
        x ← stab_at stabs lline;
        let line := n_desc x in
        lline ← find_file (S (length stabs)) stabs lfile lline;
        file ← (if lfile <=? lline then
                  y ← stab_at stabs lline;
                  Ok (if n_strx y <? Z.of_nat (length stabstr) then At (n_strx y) else Unknown)
                else Ok Unknown);
        narg ← (if lfun <? rfun then count_args (S (length stabs)) stabs rfun (lfun + 1) 0 else Ok 0);
        Ok (0, EipInfo file line fn len fn_addr narg)
      else Ok (-1, EipInfo Unknown 0 fn len fn_addr 0).
