(* ===== verification/KdebugProps.v ===== *)
(** * The search of the symbol table: its properties *)

From S2P Require Import Prelude Kdebug.

Section Search.
Context (stabs : list stab) (type : Z).

(** The stabs of the type, and their addresses. *)
Definition typed (i : Z) : bool := match zlookup stabs i with Some x => n_type x =? type | None => false end.
Definition value (i : Z) : Z := match zlookup stabs i with Some x => n_value x | None => 0 end.
Definition size : Z := Z.of_nat (length stabs).

Lemma stab_at_run i : 0 <= i < size ->
  exists x, stab_at stabs i = Ok x /\ typed i = (n_type x =? type) /\ value i = n_value x.
Proof.
  unfold size. intros Hi. unfold stab_at, typed, value.
  destruct (zlookup stabs i) as [x|] eqn:Hx; [by exists x|].
  unfold zlookup in Hx. destruct (Z.ltb_spec i 0); [lia|]. apply lookup_ge_None in Hx. lia.
Qed.

(** The nearest stab of the type at [m] or before, down to [l]. *)
Lemma back_to_type_run l m fuel : 0 <= l -> m < size -> (Z.to_nat (m - l + 1) < fuel)%nat ->
  exists k, back_to_type fuel stabs type l m = Ok k /\ k <= m /\ (forall i, k < i <= m -> typed i = false) /\
    (l <= k -> typed k = true).
Proof.
  revert m. induction fuel as [|fuel IH]; intros m Hl Hm Hf; [lia|]. cbn [back_to_type].
  destruct (Z.leb_spec l m) as [Hle|Hlt].
  - destruct (stab_at_run m ltac:(lia)) as (x & -> & Ht & _). cbn. rewrite <- Ht.
    destruct (typed m) eqn:Hty.
    + exists m. split; [done|]. split; [lia|]. split; [intros; lia|done].
    + destruct (IH (m - 1) Hl ltac:(lia) ltac:(lia)) as (k & R & Hk & Hno & Hyes). exists k. split; [done|].
      split; [lia|]. split; [|done]. intros i Hi. destruct (decide (i = m)) as [->|]; [done|]. apply Hno. lia.
  - exists m. split; [done|]. split; [lia|]. split; intros; lia.
Qed.

Lemma rightmost_run left l fuel : -1 <= left -> l < size -> (Z.to_nat (l - left) < fuel)%nat ->
  exists k, rightmost fuel stabs type left l = Ok k /\ k <= l /\ Z.min left l <= k /\
    (left < k -> typed k = true) /\ (forall i, k < i <= l -> typed i = false).
Proof.
  revert l. induction fuel as [|fuel IH]; intros l Hl Hm Hf; [lia|]. cbn [rightmost].
  destruct (Z.ltb_spec left l) as [Hlt|Hge].
  - destruct (stab_at_run l ltac:(lia)) as (x & -> & Ht & _). cbn. rewrite <- Ht.
    destruct (typed l) eqn:Hty.
    + exists l. split; [done|]. split; [lia|]. split; [lia|]. split; [done|]. intros; lia.
    + destruct (IH (l - 1) Hl ltac:(lia) ltac:(lia)) as (k & R & Hk & Hmin & Hyes & Hno). exists k. split; [done|].
      split; [lia|]. split; [lia|]. split; [done|]. intros i Hi.
      destruct (decide (i = l)) as [->|]; [done|]. apply Hno. lia.
  - exists l. split; [done|]. split; [lia|]. split; [lia|]. split; intros; lia.
Qed.

(** ** The loop on any table *)

Section Loop.
Context (L R : Z).
Hypothesis HL : 0 <= L.
Hypothesis HR : L <= R + 1.
Hypothesis HRs : R < size.

(** What holds of the variables whatever the addresses are. *)
Record shape (v : bounds) : Prop := Shape {
  sh_l : L <= b_l v <= b_r v + 1;
  sh_r : b_r v = region_right v /\ b_r v <= R;
  sh_left : (region_left v = L /\ forall i, L <= i < b_l v -> typed i = false) \/
            (L <= region_left v <= R /\ typed (region_left v) = true /\ any_matches v = true);
  sh_right : b_r v = R \/ (L <= b_r v + 1 <= R /\ typed (b_r v + 1) = true /\ any_matches v = true);
  sh_any : any_matches v = true -> L <= R /\ (typed (region_left v) = true \/ b_r v < R)
}.

Lemma shape_start : shape (Bounds L R L R false).
Proof using HR. split; cbn; [lia|lia| |by left|done]. left. split; [done|]. intros; lia. Qed.

(** A bound of the rounds that are left: a round that moves no bound finds the stab at [b_l]
    and changes the address. *)
Definition rounds (addr : Z) (v : bounds) : Z :=
  2 * (b_r v - b_l v + 1) + (if typed (b_l v) && negb (value (b_l v) =? addr) then 0 else 1).

(** One round of the loop. *)
Inductive round (addr : Z) (v : bounds) : Z -> bounds -> Prop :=
| round_none t : b_l v <= t <= b_r v -> (forall i, b_l v <= i <= t -> typed i = false) ->
    round addr v addr (Bounds (t + 1) (b_r v) (region_left v) (region_right v) (any_matches v))
| round_below m t : b_l v <= m <= t -> t <= b_r v -> typed m = true -> (forall i, m < i <= t -> typed i = false) ->
    value m < addr -> round addr v addr (Bounds (t + 1) (b_r v) m (region_right v) true)
| round_above m : b_l v <= m <= b_r v -> typed m = true -> addr < value m ->
    round addr v addr (Bounds (b_l v) (m - 1) (region_left v) (m - 1) true)
| round_here m : b_l v <= m <= b_r v -> typed m = true -> value m = addr ->
    round addr v (w32 (addr + 1)) (Bounds m (b_r v) m (region_right v) true).

Lemma binary_loop_round fuel addr v : shape v -> b_l v <= b_r v ->
  exists addr' v', round addr v addr' v' /\
    binary_loop (S fuel) stabs type addr v = binary_loop fuel stabs type addr' v'.
Proof using All.
  intros [Hl [Hr HrR] _ _ _] Hlr. cbn [binary_loop]. rewrite (proj2 (Z.leb_le _ _)) by done.
  rewrite Z.quot_div_nonneg by lia. set (t := (b_l v + b_r v) / 2).
  assert (b_l v <= t <= b_r v) as Ht by (unfold t; pose proof (Z.div_mod (b_l v + b_r v) 2); pose proof (Z.mod_pos_bound (b_l v + b_r v) 2); lia).
  destruct (back_to_type_run (b_l v) t (S (length stabs)) ltac:(lia) ltac:(lia)) as (m & Rm & Hm & Hno & Hyes).
  { unfold size in HRs. lia. }
  cbv zeta. rewrite Rm. cbn [mbind res_bind]. destruct (Z.ltb_spec m (b_l v)) as [Hml|Hml].
  - eexists _, _. split; [|reflexivity]. apply round_none; [done|]. intros i Hi. apply Hno. lia.
  - destruct (stab_at_run m ltac:(lia)) as (x & -> & _ & Hv). cbn [mbind res_bind]. rewrite <- Hv. specialize (Hyes Hml).
    destruct (Z.ltb_spec (value m) addr) as [Hlt|Hge].
    + eexists _, _. split; [|reflexivity]. by apply round_below; try lia.
    + destruct (Z.ltb_spec addr (value m)) as [Hgt|Hle].
      * eexists _, _. split; [|reflexivity]. apply round_above; [lia|done|done].
      * eexists _, _. split; [|reflexivity]. apply round_here; [lia|done|lia].
Qed.

Lemma round_shape addr v addr' v' : shape v -> round addr v addr' v' -> shape v'.
Proof using All.
  intros [Hl [Hr HrR] Hleft Hright Hany] [t Ht Hno|m t Hm Ht Hty Hno Hv|m Hm Hty Hv|m Hm Hty Hv];
    split; cbn [b_l b_r region_left region_right any_matches]; try lia; try done.
  - destruct Hleft as [[-> Hno']|?]; [left|by right]. split; [done|]. intros i Hi.
    destruct (decide (i < b_l v)); [by apply Hno'; lia|apply Hno; lia].
  - right. split; [lia|done].
  - destruct Hright as [?|(? & ? & ?)]; [by left|by right].
  - intros _. split; [lia|by left].
  - destruct Hleft as [?|(? & ? & ?)]; [by left|by right].
  - right. replace (m - 1 + 1) with m by lia. split; [lia|done].
  - right. split; [lia|done].
  - destruct Hright as [?|(? & ? & ?)]; [by left|by right].
  - intros _. split; [lia|by left].
Qed.

Lemma round_fewer addr v addr' v' : round addr v addr' v' -> rounds addr' v' < rounds addr v.
Proof using Type.
  assert (forall a w, 0 <= (if typed (b_l w) && negb (value (b_l w) =? a) then 0 else 1) <= 1) as Hf.
  { intros a w. destruct (_ && _); lia. }
  unfold rounds. intros [t Ht Hno|m t Hm Ht Hty Hno Hv|m Hm Hty Hv|m Hm Hty Hv]; cbn [b_l b_r].
  - pose proof (Hf addr v). pose proof (Hf addr (Bounds (t + 1) 0 0 0 false)). cbn in *. lia.
  - pose proof (Hf addr v). pose proof (Hf addr (Bounds (t + 1) 0 0 0 false)). cbn in *. lia.
  - lia.
  - destruct (decide (m = b_l v)) as [->|Hne].
    + rewrite Hty, Hv, Z.eqb_refl. cbn. destruct (Z.eqb_spec addr (w32 (addr + 1))) as [He|_]; cbn; [|lia].
      exfalso. unfold w32 in He. pose proof (Z.div_mod (addr + 1) (2 ^ 32) ltac:(lia)). nia.
    + pose proof (Hf addr v). pose proof (Hf (w32 (addr + 1)) (Bounds m 0 0 0 false)). cbn in *. lia.
Qed.

(** The loop ends; an invariant of its rounds holds then. *)
Lemma binary_loop_run (I : Z -> bounds -> Prop) fuel addr v :
  (forall a w a' w', shape w -> I a w -> round a w a' w' -> I a' w') ->
  shape v -> I addr v -> rounds addr v < Z.of_nat fuel ->
  exists addr' v', binary_loop fuel stabs type addr v = Ok v' /\ shape v' /\ I addr' v' /\ b_r v' < b_l v'.
Proof using All.
  intros Hpres. revert addr v. induction fuel as [|fuel IH]; intros addr v Hs HI Hf.
  { assert (0 <= rounds addr v); [|lia]. unfold rounds. destruct (sh_l v Hs). destruct (_ && _); lia. }
  destruct (decide (b_l v <= b_r v)) as [Hlr|Hlr].
  - destruct (binary_loop_round fuel addr v Hs Hlr) as (addr' & v' & Hr & ->). pose proof (round_fewer _ _ _ _ Hr).
    apply (IH addr' v'); [by eapply round_shape|by eapply Hpres|lia].
  - exists addr, v. split; [|split; [done|split; [done|lia]]]. cbn [binary_loop].
    by rewrite (proj2 (Z.leb_gt _ _)) by lia.
Qed.

(** On any table the search ends and its result is in the region, or just before it. *)
Lemma stab_binsearch_range addr :
  exists l r, stab_binsearch stabs L R type addr = Ok (l, r) /\ L - 1 <= l <= Z.max L R /\ r <= R /\
    (l = L - 1 -> typed L = true) /\ (l <= r -> l <= R) /\ l <= r + 1.
Proof using All.
  unfold stab_binsearch.
  destruct (binary_loop_run (fun _ _ => True) (2 * length stabs + 4) addr (Bounds L R L R false))
    as (addr' & v & -> & Hs & _ & Hlr); [done|apply shape_start|done| |].
  { unfold rounds. cbn. unfold size in HRs. destruct (_ && _); lia. }
  cbn [mbind res_bind]. destruct Hs as [Hl [Hr HrR] Hleft Hright Hany]. destruct (any_matches v) eqn:Ha.
  - assert (L <= region_left v <= R) as HlR.
    { destruct (Hany eq_refl). destruct Hleft as [[-> _]|(? & _)]; lia. }
    destruct (rightmost_run (region_left v) (region_right v) (S (length stabs))) as (k & Rk & Hk & Hmin & _); [lia|lia| |].
    { unfold size in HRs. lia. }
    rewrite Rk. cbn [mbind res_bind]. exists k, (region_right v). split; [done|]. split; [lia|]. split; [lia|].
    split; [|lia]. intros He. assert (b_r v + 1 = L) by lia. destruct Hright as [?|(_ & Ht & _)]; [lia|].
    by replace L with (b_r v + 1) by lia.
  - exists (region_left v), (region_left v - 1). split; [done|]. destruct Hleft as [[-> _]|(? & ? & ?)]; [|done].
    split; [lia|]. split; [lia|]. split; lia.
Qed.

(** ** The loop on an ordered table *)

(** What the search for [addr] finds when it ends with the address [a]: the last stab of the
    type before [a], up to the next one; or there is none of the type, or all are behind the
    address. *)
Inductive found (addr a : Z) : Z -> Z -> Prop :=
| found_stab l r : L <= l <= r -> r <= R -> typed l = true -> value l < a ->
    (forall i, l < i <= r -> typed i = false) ->
    (r = R \/ typed (r + 1) = true /\ addr < value (r + 1) /\ a <= value (r + 1) + 1) -> found addr a l r
| found_none : (forall i, L <= i <= R -> typed i = false) -> found addr a L (L - 1)
| found_behind k : L <= k <= R -> typed k = true -> (forall i, L <= i < k -> typed i = false) ->
    addr < value k -> found addr a (Z.min L (k - 1)) (k - 1).

(** Every address from [addr] to before [a] is that of a stab of the type. *)
Definition all_exact (addr a : Z) : Prop :=
  addr <= a /\ forall x, addr <= x < a -> exists i, L <= i <= R /\ typed i = true /\ value i = x.

Lemma all_exact_next addr a m : all_exact addr a -> L <= m <= R -> typed m = true -> value m = a ->
  all_exact addr (a + 1).
Proof using Type.
  intros [Ha Hx] Hm Ht Hv. split; [lia|]. intros x Hax.
  destruct (decide (x = a)) as [->|]; [by exists m|apply Hx; lia].
Qed.

Section Sorted.
Context (addr : Z).
Hypothesis Haddr : 0 <= addr.
Hypothesis Hsorted : forall i j, L <= i <= j -> j <= R -> typed i = true -> typed j = true -> value i <= value j.
Hypothesis Hvalue : forall i, L <= i <= R -> typed i = true -> value i < 2 ^ 32 - 1.

(** What the loop knows about the addresses. *)
Record knows (a : Z) (v : bounds) : Prop := Knows {
  kn_addr : all_exact addr a;
  kn_low : forall i, L <= i < b_l v -> typed i = true -> value i < a;
  kn_high : forall i, b_r v < i <= R -> typed i = true -> addr < value i /\ a <= value i + 1;
  kn_left : (region_left v = L /\ forall i, L <= i < b_l v -> typed i = false) \/
            (L <= region_left v <= b_l v /\ region_left v <= b_r v /\ typed (region_left v) = true /\
             value (region_left v) < a);
  kn_last : forall i, region_left v < i < b_l v -> typed i = false;
  kn_none : any_matches v = false ->
    region_left v = L /\ b_r v = R /\ forall i, L <= i < b_l v -> typed i = false
}.

Lemma knows_start : knows addr (Bounds L R L R false).
Proof using All. split; cbn; try done; [split; [lia|intros; lia]|intros; lia|intros; lia| |intros; lia|].
  - left. split; [done|intros; lia].
  - intros _. split; [done|]. split; [done|intros; lia].
Qed.

Lemma round_knows a v a' v' : shape v -> knows a v -> round a v a' v' -> knows a' v'.
Proof using All.
  intros [Hl [Hr HrR] _ _ _] [Ha Hlow Hhigh Hkl Hlast Hnone]
    [t Ht Hno|m t Hm Ht Hty Hno Hv|m Hm Hty Hv|m Hm Hty Hv];
    try (assert (w32 (a + 1) = a + 1) as -> by
      (apply w32_small; pose proof (Hvalue m ltac:(lia) Hty); destruct Ha; lia));
    split; cbn [b_l b_r region_left region_right any_matches]; try done.
  - intros i Hi Hti. destruct (decide (i < b_l v)); [apply Hlow; [lia|done]|]. by rewrite Hno in Hti by lia.
  - destruct Hkl as [[He Hno']|(? & ? & ? & ?)]; [left|right; split; [lia|done]]. split; [done|].
    intros i Hi. destruct (decide (i < b_l v)); [by apply Hno'; lia|apply Hno; lia].
  - intros i Hi. destruct (decide (i < b_l v)); [apply Hlast; lia|apply Hno; lia].
  - intros Hm. destruct (Hnone Hm) as (? & ? & Hn). split; [done|]. split; [done|]. intros i Hi.
    destruct (decide (i < b_l v)); [apply Hn; lia|apply Hno; lia].
  - intros i Hi Hti. apply (Z.le_lt_trans _ (value m)); [|done].
    destruct (decide (i <= m)); [apply Hsorted; (done || lia)|]. by rewrite Hno in Hti by lia.
  - right. split; [lia|]. split; [lia|]. split; [done|lia].
  - intros i Hi. apply Hno. lia.
  - intros i Hi Hti. assert (value m <= value i) by (apply Hsorted; (done || lia)). destruct Ha. lia.
  - destruct Hkl as [?|(? & ? & ? & Hlt)]; [by left|right]. split; [lia|]. split; [|done].
    destruct (decide (region_left v = m)) as [He|]; [rewrite He in Hlt; lia|lia].
  - by apply (all_exact_next addr a m); [|lia|..].
  - intros i Hi Hti. assert (value i <= value m) by (apply Hsorted; (done || lia)). lia.
  - intros i Hi Hti. assert (value m <= value i) by (apply Hsorted; (done || lia)). destruct (Hhigh i Hi Hti). lia.
  - right. split; [lia|]. split; [lia|]. split; [done|lia].
  - intros; lia.
Qed.

Lemma no_next a : all_exact addr a ->
  (forall i, L <= i <= R -> typed i = true -> value i <> addr + 1) -> a <= addr + 1.
Proof using Type.
  intros [Ha Hx] Hno. destruct (decide (a <= addr + 1)); [done|].
  destruct (Hx (addr + 1) ltac:(lia)) as (i & Hi & Ht & Hv). by destruct (Hno i Hi Ht).
Qed.

(** C37. In a table whose addresses of the type do not decrease and are below [2 ^ 32 - 1] the
    search brackets an address: it ends, with the last stab of the type before [a] and the end
    of its region, or with what the code leaves when there is none of the type, or when all
    are behind the address.  Here [a] is the address itself or one that it can be raised to by
    matches on every address in between: if no stab of the type has the address just behind the
    one looked for, the stab is the last at or before this one; with such a stab, it may be
    this stab instead ([exact_match_overshoots]).  If all stabs of the type are behind the
    address the region left is not empty when it did not begin with one of them, though
    the code's comment says that it is ([nothing_before_the_first]). *)
Theorem stab_binsearch_brackets_the_address : exists l r a,
  stab_binsearch stabs L R type addr = Ok (l, r) /\ found addr a l r /\ all_exact addr a /\
  ((forall i, L <= i <= R -> typed i = true -> value i <> addr + 1) -> a <= addr + 1).
Proof using All.
  unfold stab_binsearch.
  destruct (binary_loop_run knows (2 * length stabs + 4) addr (Bounds L R L R false))
    as (addr' & v & -> & Hs & Hk & Hlr); [intros ? ? ? ?; apply round_knows|apply shape_start|apply knows_start| |].
  { unfold rounds. cbn. unfold size in HRs. destruct (_ && _); lia. }
  cbn [mbind res_bind]. destruct Hs as [Hl [Hr HrR] _ Hright Hany], Hk as [Hex Hlow Hhigh Hleft Hlast Hnone].
  destruct (any_matches v) eqn:Ha.
  - destruct (Hany eq_refl) as [HLR Hsome].
    assert (-1 <= region_left v) as Hge by (destruct Hleft as [[-> _]|(? & _)]; lia).
    destruct (rightmost_run (region_left v) (region_right v) (S (length stabs)) Hge) as (k & Rk & Hkr & Hmin & Hkt & Hkn);
      [lia|unfold size in HRs; lia|].
    rewrite Rk. cbn [mbind res_bind]. exists k, (region_right v), addr'. split; [done|].
    split; [|split; [done|by apply no_next]]. rewrite <- Hr in *.
    destruct Hleft as [[He Hno]|(Hll & HlR & Hlt & Hlv)].
    + destruct Hright as [He2|(H1 & H2 & _)].
      { destruct Hsome as [Ht|]; [|lia]. rewrite He, Hno in Ht by lia. done. }
      assert (k = Z.min L (b_r v)) as ->.
      { destruct (decide (region_left v < k)) as [Hlt|]; [|lia]. specialize (Hkt Hlt). rewrite Hno in Hkt by lia. done. }
      replace (b_r v) with (b_r v + 1 - 1) by lia. apply found_behind; [done|done|intros; apply Hno; lia|].
      apply Hhigh; [lia|done].
    + assert (k = region_left v) as ->.
      { destruct (decide (region_left v < k)) as [Hlt2|]; [|lia]. specialize (Hkt Hlt2). rewrite Hlast in Hkt by lia. done. }
      apply found_stab; [lia|lia|done|done|done|]. destruct Hright as [?|(? & Ht & _)]; [by left|right].
      split; [done|]. apply Hhigh; [lia|done].
  - destruct (Hnone eq_refl) as (He1 & He2 & Hno). exists (region_left v), (region_left v - 1), addr'. split; [done|].
    split; [|split; [done|by apply no_next]]. rewrite He1. apply found_none. intros i Hi. apply Hno. lia.
Qed.
End Sorted.
End Loop.
End Search.

(** ** debuginfo_eip *)

Section Info.
Context (stabs : list stab) (stabstr : list Z).

(** The table begins with a header and refers to the string table by unsigned offsets. *)
Hypothesis Hhead : forall x, stabs !! 0%nat = Some x ->
  n_type x <> N_SO /\ n_type x <> N_FUN /\ n_type x <> N_SLINE.
Hypothesis Hstrx : forall i x, stabs !! i = Some x -> 0 <= n_strx x.

Lemma stab_in i : 0 <= i < size stabs -> exists x, stab_at stabs i = Ok x /\ 0 <= n_strx x.
Proof using Hstrx.
  unfold size, stab_at. intros Hi. destruct (zlookup stabs i) as [x|] eqn:Hx.
  - exists x. split; [done|]. unfold zlookup in Hx. destruct (i <? 0); [done|]. by apply (Hstrx _ _ Hx).
  - unfold zlookup in Hx. destruct (Z.ltb_spec i 0); [lia|]. apply lookup_ge_None in Hx. lia.
Qed.

(** A search that begins at 0 or later does not end before 0. *)
Lemma search_in L R ty addr : 0 <= L -> L <= R + 1 -> R < size stabs -> ty = N_SO \/ ty = N_FUN \/ ty = N_SLINE ->
  exists l r, stab_binsearch stabs L R ty addr = Ok (l, r) /\ 0 <= l <= r + 1 /\ r <= R.
Proof using Hhead.
  intros HL HR HRs Hty. destruct (stab_binsearch_range stabs ty L R HL HR HRs addr) as (l & r & Rn & Hl & Hr & Hb & _ & Hlr).
  exists l, r. split; [done|]. split; [|done]. split; [|done]. destruct (decide (l = L - 1)) as [He|]; [|lia].
  specialize (Hb He). destruct (decide (0 <= l)); [done|]. assert (L = 0) as -> by lia. exfalso.
  unfold typed in Hb. destruct (zlookup stabs 0) as [x|] eqn:Hx; [|done]. apply Z.eqb_eq in Hb.
  destruct (Hhead x) as (? & ? & ?); [done|]. naive_solver.
Qed.

Lemma find_file_run lfile lline fuel : 0 <= lfile -> lline < size stabs -> (Z.to_nat (lline - lfile + 1) < fuel)%nat ->
  exists k, find_file fuel stabs lfile lline = Ok k /\ k <= lline.
Proof using Hstrx.
  revert lline. induction fuel as [|fuel IH]; intros lline Hl Hm Hf; [lia|]. cbn [find_file].
  destruct (Z.leb_spec lfile lline) as [Hle|Hlt]; [|exists lline; split; [done|lia]].
  destruct (stab_in lline ltac:(lia)) as (x & -> & _). cbn. destruct (_ && _); [|exists lline; split; [done|lia]].
  destruct (IH (lline - 1) Hl ltac:(lia) ltac:(lia)) as (k & R & Hk). exists k. split; [done|lia].
Qed.

Lemma count_args_run rfun lline n fuel : 0 <= lline -> rfun < size stabs -> (Z.to_nat (rfun - lline) < fuel)%nat ->
  exists k, count_args fuel stabs rfun lline n = Ok k.
Proof using Hstrx.
  revert lline n. induction fuel as [|fuel IH]; intros lline n Hl Hm Hf; [lia|]. cbn [count_args].
  destruct (Z.ltb_spec lline rfun) as [Hlt|Hge]; [|by eexists].
  destruct (stab_in lline ltac:(lia)) as (x & -> & _). cbn. destruct (n_type x =? N_PSYM); [|by eexists].
  apply IH; lia.
Qed.

Lemma strfind_ends s c : last s = Some 0 -> exists d, strfind s c = Some d.
Proof using Type.
  induction s as [|x s IH]; [done|]. cbn [strfind]. destruct s as [|y s].
  - cbn. intros [= ->]. by exists 0.
  - rewrite last_cons_cons. intros Hl. destruct (IH Hl) as [d Hd]. destruct (_ || _); [by eexists|].
    rewrite Hd. by eexists.
Qed.

Lemma name_length_run nm : last stabstr = Some 0 -> (forall off, nm = At off -> 0 <= off < Z.of_nat (length stabstr)) ->
  exists d, name_length stabstr nm = Ok d.
Proof using Type.
  intros Hl Hn. destruct nm as [|off]; [by eexists|]. specialize (Hn off eq_refl). cbn [name_length].
  destruct (strfind_ends (drop (Z.to_nat off) stabstr) 0x3a) as [d ->]; [|by eexists].
  rewrite last_lookup, lookup_drop, length_drop. rewrite last_lookup in Hl. rewrite <- Hl. f_equal. lia.
Qed.

Lemma find_function_run addr lfile rfile lfun rfun : 0 <= lfun -> lfun <= rfun -> rfun < size stabs ->
  exists nm fa a, find_function stabs stabstr addr lfile rfile lfun rfun = Ok (nm, fa, a, lfun, rfun) /\
    forall off, nm = At off -> 0 <= off < Z.of_nat (length stabstr).
Proof using Hstrx.
  intros H1 H2 H3. unfold find_function. rewrite (proj2 (Z.leb_le _ _)) by done.
  destruct (stab_in lfun ltac:(lia)) as (x & -> & Hx). cbn [mbind res_bind]. eexists _, _, _. split; [reflexivity|].
  intros off. destruct (Z.ltb_spec (n_strx x) (Z.of_nat (length stabstr))); [intros [= <-]; lia|done].
Qed.

(** The last part, once the lines are searched. *)
Lemma lines_run addr lfile lfun rfun l r : 0 < lfile -> 0 <= lfun -> rfun < size stabs -> 0 <= l -> l <= r + 1 -> r < size stabs ->
  exists k, stab_binsearch stabs l r N_SLINE addr = Ok k /\ (k.1 <= k.2 ->
    (exists x, stab_at stabs k.1 = Ok x) /\ (exists k', find_file (S (length stabs)) stabs lfile k.1 = Ok k' /\
      (lfile <= k' -> exists y, stab_at stabs k' = Ok y)) /\
    exists n, (if lfun <? rfun then count_args (S (length stabs)) stabs rfun (lfun + 1) 0 else Ok 0) = Ok n).
Proof using Hhead Hstrx.
  intros H1 H2 H3 H4 H5 H6. destruct (search_in l r N_SLINE addr H4 H5 H6) as (k1 & k2 & R & Hk & Hk2); [auto|].
  exists (k1, k2). split; [done|]. cbn [fst snd]. intros Hk12.
  destruct (stab_in k1 ltac:(lia)) as (x & Hx & _). split; [by exists x|]. unfold size in *.
  destruct (find_file_run lfile k1 (S (length stabs))) as (k' & Rk & Hk'); [lia|unfold size; lia|lia|].
  split.
  - exists k'. split; [done|]. intros Hlk. destruct (stab_in k' ltac:(unfold size; lia)) as (y & Hy & _). by exists y.
  - destruct (Z.ltb_spec lfun rfun); [|by eexists].
    destruct (count_args_run rfun (lfun + 1) 0 (S (length stabs))) as [n Hn]; [lia|unfold size; lia|lia|by exists n].
Qed.

(** Whatever is in the table, in whatever order: [debuginfo_eip] ends for an address of the
    kernel, and reads nothing outside the symbol table and the string table. *)
Theorem debuginfo_reads_inside addr : ULIM_ <= addr -> exists r info, debuginfo_eip stabs stabstr addr = Ok (r, info).
Proof using Hhead Hstrx.
  intros Haddr. unfold debuginfo_eip. rewrite (proj2 (Z.ltb_ge _ _)) by done.
  destruct ((length stabstr =? 0)%nat || negb (default 0 (last stabstr) =? 0)) eqn:Hstr; [by eexists _, _|].
  apply orb_false_iff in Hstr as [Hne%Nat.eqb_neq Hlast%negb_false_iff%Z.eqb_eq].
  assert (last stabstr = Some 0) as Hl.
  { destruct (last stabstr) as [z|] eqn:He; [by cbn in Hlast; subst|]. apply last_None in He as ->. done. }
  destruct (search_in 0 (Z.of_nat (length stabs) - 1) N_SO addr) as (lfile & rfile & R1 & H1 & H2);
    [lia|lia|unfold size; lia|auto|].
  rewrite R1. cbn [mbind res_bind]. destruct (Z.eqb_spec lfile 0); [by eexists _, _|].
  destruct (search_in lfile rfile N_FUN addr) as (lfun & rfun & R2 & H3 & H4); [lia|lia|unfold size; lia|auto|].
  rewrite R2. cbn [mbind res_bind].
  assert (exists nm fa a l r, find_function stabs stabstr addr lfile rfile lfun rfun = Ok (nm, fa, a, l, r) /\
    (forall off, nm = At off -> 0 <= off < Z.of_nat (length stabstr)) /\ 0 <= l /\ l <= r + 1 /\ r < size stabs)
    as (nm & fa & a & l & r & R3 & Hnm & Hl0 & Hlr & Hrs).
  { destruct (decide (lfun <= rfun)) as [Hle|Hle].
    - destruct (find_function_run addr lfile rfile lfun rfun ltac:(lia) Hle) as (nm & fa & a & R3 & Hnm); [unfold size; lia|].
      exists nm, fa, a, lfun, rfun. split; [done|]. split; [done|]. unfold size. lia.
    - exists Unknown, addr, addr, lfile, rfile. unfold find_function. rewrite (proj2 (Z.leb_gt _ _)) by lia.
      split; [done|]. split; [done|]. unfold size. lia. }
  rewrite R3. cbn [mbind res_bind]. destruct (name_length_run nm Hl Hnm) as [len ->]. cbn [mbind res_bind].
  destruct (lines_run a lfile lfun rfun l r) as ([k1 k2] & -> & Hk); [lia|lia|unfold size; lia|done|done|done|].
  cbn [mbind res_bind]. destruct (Z.leb_spec k1 k2) as [Hk12|_]; [|by eexists _, _].
  destruct (Hk Hk12) as ([x Hx] & (k' & Hk' & Hy) & n0 & Hn). cbn [fst snd] in *.
  rewrite Hx. cbn [mbind res_bind]. rewrite Hk'. cbn [mbind res_bind]. destruct (Z.leb_spec lfile k') as [Hlk|_].
  - destruct (Hy Hlk) as [y ->]. cbn [mbind res_bind]. rewrite Hn. by eexists _, _.
  - cbn [mbind res_bind]. rewrite Hn. by eexists _, _.
Qed.
End Info.

(** ** Examples *)

Module Example.
Definition fn (a : Z) : stab := Stab 1 N_FUN 0 0 a.
Definition line (n a : Z) : stab := Stab 0 N_SLINE 0 n a.

(** A header, a file with two functions and their lines. *)
Definition table : list stab :=
  [Stab 0 0 0 0 0; Stab 4 N_SO 0 0 0xf0100000; fn 0xf0100010; line 10 0; line 12 6; Stab 0 N_PSYM 0 0 8;
   fn 0xf0100040; line 20 0; line 21 4; Stab 0 N_SO 0 0 0xf0200000].
Definition strings : list Z := [0; 102; 58; 0; 99; 0].
End Example.

Lemma stab_binsearch_brackets_the_address_witness :
  stab_binsearch Example.table 1 8 N_FUN 0xf0100020 = Ok (2, 5) /\
  exists a, found Example.table N_FUN 1 8 0xf0100020 a 2 5 /\ 0xf0100020 <= a <= 0xf0100021.
Proof.
  assert (stab_binsearch Example.table 1 8 N_FUN 0xf0100020 = Ok (2, 5)) as Hrun by (by vm_compute).
  split; [done|].
  assert (forall i, 1 <= i <= 8 -> typed Example.table N_FUN i = true -> i = 2 \/ i = 6) as Ht.
  { intros i Hi. assert (i = 1 \/ i = 2 \/ i = 3 \/ i = 4 \/ i = 5 \/ i = 6 \/ i = 7 \/ i = 8) as Hc by lia.
    destruct Hc as [->|[->|[->|[->|[->|[->|[->| ->]]]]]]]; vm_compute; intros; (done || auto). }
  destruct (stab_binsearch_brackets_the_address Example.table N_FUN 1 8) with (addr := 0xf0100020)
    as (l & r & a & R & Hf & [Ha _] & Hn); [lia|lia|by vm_compute|lia| | |].
  - intros i j Hij Hj Hti Htj Hle. destruct (Ht i ltac:(lia) Hti) as [->| ->], (Ht j ltac:(lia) Htj) as [->| ->]; first [lia|by vm_compute].
  - intros i Hi Hti. destruct (Ht i Hi Hti) as [->| ->]; by vm_compute.
  - rewrite Hrun in R. injection R as <- <-. exists a. split; [exact Hf|]. split; [done|]. apply Hn.
    intros i Hi Hti. destruct (Ht i Hi Hti) as [->| ->]; by vm_compute.
Defined.

(** The stab at the next address is found instead of the one at the address itself. *)
Example exact_match_overshoots :
  stab_binsearch [Example.line 10 0; Example.line 11 1] 0 1 N_SLINE 0 = Ok (1, 1).
Proof. by vm_compute. Qed.

(** An address before the first function: the region is not empty, and its left end is no
    function. *)
Example nothing_before_the_first : stab_binsearch Example.table 1 8 N_FUN 0xf0100008 = Ok (1, 1).
Proof. by vm_compute. Qed.

Lemma debuginfo_reads_inside_witness :
  (exists r info, debuginfo_eip Example.table Example.strings 0xf0100047 = Ok (r, info)) /\
  debuginfo_eip Example.table Example.strings 0xf0100047 = Ok (0, EipInfo (At 4) 21 (At 1) 1 0xf0100040 0).
Proof.
  split; [|by vm_compute]. apply debuginfo_reads_inside; [|..].
  - by intros x [= <-].
  - intros i x Hx. assert (Forall (fun x => 0 <= n_strx x) Example.table) as Hall by (repeat constructor; by vm_compute).
    rewrite Forall_forall in Hall. apply Hall. by eapply list_elem_of_lookup_2.
  - by vm_compute.
Defined.
