(* ===== verification/Printfmt.v ===== *)
(** * Formatted output of JOS

    [lab-1/jos/lib/printfmt.c] over any [putch], and [vcprintf] of [kern/printf.c].  A
    function that prints a character is a step of a state [B]. *)

From Stdlib Require Import Ascii.
From S2P Require Import Prelude.

(** The characters of a literal. *)
Definition chars (s : string) : list Z := map (fun a => Z.of_N (N_of_ascii a)) (String.list_ascii_of_string s).
Definition literal (s : string) : list Z := chars s ++ [0].

(** [char] is signed. *)
Definition schar (c : Z) : Z := if c <? 128 then c else c - 256.
Definition i64 (x : Z) : Z := (x + 2 ^ 63) mod 2 ^ 64 - 2 ^ 63.
Definition w64 (x : Z) : Z := x mod 2 ^ 64.

(** ** inc/error.h *)

Definition E_INVAL : Z := 3.
Definition MAXERROR : Z := 7.
Definition error_string (err : Z) : option (list Z) :=
  if err =? 1 then Some (literal "unspecified error")
  else if err =? 2 then Some (literal "bad environment")
  else if err =? 3 then Some (literal "invalid parameter")
  else if err =? 4 then Some (literal "out of memory")
  else if err =? 5 then Some (literal "out of environments")
  else if err =? 6 then Some (literal "segmentation fault")
  else None.

(** ** Arguments *)

(** A string: what is at an address, or a literal. *)
Inductive text := At (a : Z) | Lit (l : list Z).

(** A list of arguments: words of 32 bits, and pointers to literals. *)
Inductive va := Word (w : Z) | Str (l : list Z).

Section Fmt.
(** The memory that the strings are in, and the function that takes the characters. *)
Context (mem : Z -> option Z) {B : Type} (putch : Z -> M B unit).

(** [*p++]. *)
Definition next (p : text) : M B (Z * text) :=
  match p with
  | At a => c ← lift_opt "p" (mem a); mret (c, At (w32 (a + 1)))
  | Lit (c :: l) => mret (c, Lit l)
  | Lit [] => fault "p"
  end.

Definition va_word (ap : list va) : M B (Z * list va) :=
  match ap with Word w :: ap' => mret (w, ap') | _ => fault "va_arg" end.
Definition va_text (ap : list va) : M B (option text * list va) :=
  match ap with
  | Word w :: ap' => mret (if w =? 0 then None else Some (At w), ap')
  | Str l :: ap' => mret (Some (Lit l), ap')
  | [] => fault "va_arg"
  end.

(** [getuint] and [getint] as unsigned values of 64 bits. *)
Definition getuint (ap : list va) (lflag : Z) : M B (Z * list va) :=
  if 2 <=? lflag then
    '(lo, ap) ← va_word ap; '(hi, ap) ← va_word ap; mret (lo + 2 ^ 32 * hi, ap)
  else va_word ap.
Definition getint (ap : list va) (lflag : Z) : M B (Z * list va) :=
  if 2 <=? lflag then
    '(lo, ap) ← va_word ap; '(hi, ap) ← va_word ap; mret (lo + 2 ^ 32 * hi, ap)
  else '(w, ap) ← va_word ap; mret (w64 (i32 w), ap).

(** [putch(c)] n times. *)
Fixpoint put_many (n : nat) (c : Z) : M B unit :=
  match n with O => mret tt | S n' => putch c ;; put_many n' c end.

Definition digit_char (d : Z) : Z := default 0 (chars "0123456789abcdef" !! Z.to_nat d).

(** A value has at most 64 digits. *)
Fixpoint printnum (fuel : nat) (num base width padc : Z) : M B unit :=
  match fuel with
  | O => diverge
  | S fuel' =>
      (if base <=? num then printnum fuel' (num / base) base (width - 1) padc
       else put_many (Z.to_nat (width - 1)) padc) ;;
      putch (digit_char (num mod base))
  end.

(** [strnlen] of [lib/string.c]; a negative [size] is a large one. *)
Fixpoint strnlen (fuel : nat) (s : text) (size n : Z) : M B Z :=
  match fuel with
  | O => diverge
  | S fuel' =>
      if size =? 0 then mret n
      else
        '(c, s) ← next s;
        if c =? 0 then mret n else strnlen fuel' s (size - 1) (n + 1)
  end.

(** The loop over the characters of a string: the width that is left. *)
Fixpoint put_string (fuel : nat) (p : text) (width precision : Z) (altflag : bool) : M B Z :=
  match fuel with
  | O => diverge
  | S fuel' =>
      '(c, p) ← next p;
      if c =? 0 then mret width
      else
        let ch := schar c in
        let precision' := if precision <? 0 then precision else precision - 1 in
        if (precision <? 0) || (0 <=? precision') then
          putch (if altflag && ((ch <? 32) || (126 <? ch)) then 63 else ch) ;;
          put_string fuel' p (width - 1) precision' altflag
        else mret width
  end.

(** ** The specification after a percent sign *)

Record spec := Spec { padc : Z; width : Z; precision : Z; lflag : Z; altflag : bool }.

Definition set_padc v s := Spec v (width s) (precision s) (lflag s) (altflag s).
Definition set_width v s := Spec (padc s) v (precision s) (lflag s) (altflag s).
Definition set_precision v s := Spec (padc s) (width s) v (lflag s) (altflag s).
Definition set_lflag v s := Spec (padc s) (width s) (precision s) v (altflag s).
Definition set_altflag v s := Spec (padc s) (width s) (precision s) (lflag s) v.

Definition fetch (fmt : list Z) (pos : nat) : M B Z := lift_opt "fmt" (fmt !! pos).

(** The loop over the digits of a width or a precision, with the digit [ch] before [pos]. *)
Fixpoint digits (fuel : nat) (fmt : list Z) (pos : nat) (ch prec : Z) : M B (Z * nat) :=
  match fuel with
  | O => diverge
  | S fuel' =>
      let prec := i32 (prec * 10 + ch - 48) in
      ch ← fetch fmt pos;
      if (ch <? 48) || (57 <? ch) then mret (prec, pos) else digits fuel' fmt (S pos) ch prec
  end.

Definition process_precision (v : spec) : spec :=
  if width v <? 0 then set_precision (-1) (set_width (precision v) v) else v.

(** [reswitch]: the conversion character, the position behind it, the arguments. *)
Fixpoint reswitch (fuel : nat) (fmt : list Z) (pos : nat) (ap : list va) (v : spec)
    : M B (Z * nat * list va * spec) :=
  match fuel with
  | O => diverge
  | S fuel' =>
      ch ← fetch fmt pos;
      let pos := S pos in
      if ch =? 45 then reswitch fuel' fmt pos ap (set_padc 45 v)
      else if ch =? 48 then reswitch fuel' fmt pos ap (set_padc 48 v)
      else if (49 <=? ch) && (ch <=? 57) then
        '(prec, pos) ← digits (length fmt) fmt pos ch 0;
        reswitch fuel' fmt pos ap (process_precision (set_precision prec v))
      else if ch =? 42 then
        '(w, ap) ← va_word ap;
        reswitch fuel' fmt pos ap (process_precision (set_precision (i32 w) v))
      else if ch =? 46 then reswitch fuel' fmt pos ap (if width v <? 0 then set_width 0 v else v)
      else if ch =? 35 then reswitch fuel' fmt pos ap (set_altflag true v)
      else if ch =? 108 then reswitch fuel' fmt pos ap (set_lflag (lflag v + 1) v)
      else mret (ch, pos, ap, v)
  end.

(** [for (fmt--; fmt[-1] != '%'; fmt--)], from the position that [fmt--] gives. *)
Fixpoint back_to_percent (fmt : list Z) (pos : nat) : M B nat :=
  match pos with
  | O => fault "fmt"
  | S p => c ← fetch fmt p; if c =? 37 then mret pos else back_to_percent fmt p
  end.

(** ** vprintfmt *)

(** The number conversions, from [number] on. *)
Definition print_signed (ap : list va) (v : spec) : M B (list va) :=
  '(num, ap) ← getint ap (lflag v);
  num ← (if i64 num <? 0 then putch 45 ;; mret (w64 (- i64 num)) else mret num);
  printnum 64 num 10 (width v) (padc v) ;;
  mret ap.
Definition print_unsigned (base : Z) (ap : list va) (v : spec) : M B (list va) :=
  '(num, ap) ← getuint ap (lflag v);
  printnum 64 num base (width v) (padc v) ;;
  mret ap.
Definition print_pointer (ap : list va) (v : spec) : M B (list va) :=
  '(num, ap) ← va_word ap;
  putch 48 ;; putch 120 ;;
  printnum 64 num 16 (width v) (padc v) ;;
  mret ap.

(** The string conversion; [sfuel] bounds the length of a string. *)
Definition print_string (sfuel : nat) (ap : list va) (v : spec) : M B (list va) :=
  '(p, ap) ← va_text ap;
  let p := default (Lit (literal "(null)")) p in
  width ← (if (0 <? width v) && negb (padc v =? 45) then
             n ← strnlen sfuel p (precision v) 0;
             let w := width v - n in
             put_many (Z.to_nat w) (padc v) ;;
             mret (if 0 <? w then 0 else w)
           else mret (width v));
  width ← put_string sfuel p width (precision v) (altflag v);
  put_many (Z.to_nat width) 32 ;;
  mret ap.

(** [vprintfmt] from the position [pos] of the format on. *)
Fixpoint vprintfmt (fuel sfuel : nat) (fmt : list Z) (pos : nat) (ap : list va) : M B unit :=
  match fuel with
  | O => diverge
  | S fuel' =>
      ch ← fetch fmt pos;
      let pos := S pos in
      if negb (ch =? 37) then
        if ch =? 0 then mret tt else putch ch ;; vprintfmt fuel' sfuel fmt pos ap
      else
        '(ch, pos, ap, v) ← reswitch (length fmt) fmt pos ap (Spec 32 (-1) (-1) 0 false);
        if ch =? 99 then
          '(w, ap) ← va_word ap; putch (i32 w) ;; vprintfmt fuel' sfuel fmt pos ap
        else if ch =? 101 then
          '(w, ap) ← va_word ap;
          let err := if i32 w <? 0 then i32 (- i32 w) else i32 w in
          (if err <? MAXERROR then
             if err <? 0 then fault "error_string"
             else
               match error_string err with
               | Some p => vprintfmt fuel' sfuel (literal "%s") 0 [Str p]
               | None => vprintfmt fuel' sfuel (literal "error %d") 0 [Word (w32 err)]
               end
           else vprintfmt fuel' sfuel (literal "error %d") 0 [Word (w32 err)]) ;;
          vprintfmt fuel' sfuel fmt pos ap
        else if ch =? 115 then ap ← print_string sfuel ap v; vprintfmt fuel' sfuel fmt pos ap
        else if ch =? 100 then ap ← print_signed ap v; vprintfmt fuel' sfuel fmt pos ap
        else if ch =? 117 then ap ← print_unsigned 10 ap v; vprintfmt fuel' sfuel fmt pos ap
        else if ch =? 111 then ap ← print_unsigned 8 ap v; vprintfmt fuel' sfuel fmt pos ap
        else if ch =? 112 then ap ← print_pointer ap v; vprintfmt fuel' sfuel fmt pos ap
        else if ch =? 120 then ap ← print_unsigned 16 ap v; vprintfmt fuel' sfuel fmt pos ap
        else if ch =? 37 then putch 37 ;; vprintfmt fuel' sfuel fmt pos ap
        else
          putch 37 ;;
          pos ← back_to_percent fmt (pos - 1);
          vprintfmt fuel' sfuel fmt pos ap
  end.
End Fmt.

(** ** vsnprintf *)

(** The buffer, where [buf] and [ebuf] point into it, and the count. *)
Record sprintbuf := Sprintbuf { sp_mem : list Z; sp_buf : Z; sp_ebuf : Z; sp_cnt : Z }.

Definition sprintputch (ch : Z) : M sprintbuf unit :=
  b ← get;
  let cnt := i32 (sp_cnt b + 1) in
  if sp_buf b <? sp_ebuf b then
    m ← lift_opt "buf" (zinsert (sp_buf b) (w8 ch) (sp_mem b));
    put (Sprintbuf m (sp_buf b + 1) (sp_ebuf b) cnt)
  else put (Sprintbuf (sp_mem b) (sp_buf b) (sp_ebuf b) cnt).

(** [vsnprintf(buf, n, fmt, ap)] returns its result and the buffer; [None] is a null pointer. *)
Definition vsnprintf (mem : Z -> option Z) (fuel sfuel : nat) (buf : option (list Z)) (n : Z)
    (fmt : list Z) (ap : list va) : res (Z * list Z) :=
  match buf with
  | None => Ok (- E_INVAL, [])
  | Some l =>
      if n <? 1 then Ok (- E_INVAL, l)
      else
        match vprintfmt mem sprintputch fuel sfuel fmt 0 ap (Sprintbuf l 0 (n - 1) 0) with
        | Ok (_, b) =>
            match zinsert (sp_buf b) 0 (sp_mem b) with
            | Some l' => Ok (sp_cnt b, l')
            | None => Fault "buf"
            end
        | Panic m => Panic m
        | Fault w => Fault w
        | Diverge => Diverge
        end
  end.

(** ** vcprintf *)

(** [putch] of [kern/printf.c]: the characters on the console, and the count, which
    [*cnt++] does not change: it moves the pointer. *)
Definition cons_putch (ch : Z) : M (list Z * Z) unit := modify (fun '(out, cnt) => (out ++ [ch], cnt)).

Definition vcprintf (mem : Z -> option Z) (fuel sfuel : nat) (fmt : list Z) (ap : list va) : M (list Z) Z :=
  fun out =>
    match vprintfmt mem cons_putch fuel sfuel fmt 0 ap (out, 0) with
    | Ok (_, (out', cnt)) => Ok (cnt, out')
    | Panic m => Panic m
    | Fault w => Fault w
    | Diverge => Diverge
    end.
