(* ===== verification/PrintfmtProps.v ===== *)
(** * Properties of the formatted output of JOS

    What a format prints, whatever takes the characters; and how [vsnprintf] cuts it. *)

From Stdlib Require Import Ascii.
From S2P Require Import Prelude Bytes CString Printfmt.

(** ** Two functions that take the characters *)

Section Sim.
Context {B1 B2 : Type} (R : B1 -> B2 -> Prop).
Context (put1 : Z -> M B1 unit) (put2 : Z -> M B2 unit).

(** The same result in related states, or the same failure. *)
Definition same_res {A} (r1 : res (A * B1)) (r2 : res (A * B2)) : Prop :=
  match r1, r2 with
  | Ok (a, s1), Ok (b, s2) => a = b /\ R s1 s2
  | Panic m, Panic m' => m = m'
  | Fault w, Fault w' => w = w'
  | Diverge, Diverge => True
  | _, _ => False
  end.

Definition sim {A} (m1 : M B1 A) (m2 : M B2 A) : Prop := forall s1 s2, R s1 s2 -> same_res (m1 s1) (m2 s2).

Lemma sim_ret {A} (a : A) : sim (mret a) (mret a).
Proof. by intros s1 s2 Hs. Qed.
Lemma sim_fault {A} w : sim (fault w : M B1 A) (fault w).
Proof. by intros s1 s2 Hs. Qed.
Lemma sim_diverge {A} : sim (diverge : M B1 A) diverge.
Proof. by intros s1 s2 Hs. Qed.
Lemma sim_lift {A} w (o : option A) : sim (lift_opt w o) (lift_opt w o).
Proof. by destruct o; intros s1 s2 Hs. Qed.
Lemma sim_bind {A C} (m1 : M B1 A) m2 (k1 : A -> M B1 C) k2 :
  sim m1 m2 -> (forall a, sim (k1 a) (k2 a)) -> sim (m1 ≫= k1) (m2 ≫= k2).
Proof.
  intros Hm Hk s1 s2 Hs. specialize (Hm s1 s2 Hs). unfold mbind, M_bind.
  destruct (m1 s1) as [[a t1]| | |], (m2 s2) as [[b t2]| | |]; cbn in Hm; try done.
  destruct Hm as [<- Ht]. by apply Hk.
Qed.
End Sim.

Create HintDb sim.
#[export] Hint Resolve sim_ret sim_fault sim_diverge sim_lift : sim.
Ltac sim_tac := repeat first
  [ progress eauto with sim
  | apply sim_bind; [|intros ?]
  | match goal with |- sim _ (match ?x with _ => _ end) _ => destruct x end ].

Section Related.
Context (mem : Z -> option Z) {B1 B2 : Type} (R : B1 -> B2 -> Prop).
Context (put1 : Z -> M B1 unit) (put2 : Z -> M B2 unit).
Hypothesis Hput : forall c, sim R (put1 c) (put2 c).
#[local] Hint Resolve Hput : sim.

Lemma sim_next p : sim R (next mem p) (next mem p).
Proof. destruct p as [a|[|c l]]; cbn [next]; sim_tac. Qed.
Lemma sim_va_word ap : sim R (va_word ap) (va_word ap).
Proof. unfold va_word. destruct ap as [|[w|l] ap]; sim_tac. Qed.
Lemma sim_va_text ap : sim R (va_text ap) (va_text ap).
Proof. unfold va_text. destruct ap as [|[w|l] ap]; sim_tac. Qed.
#[local] Hint Resolve sim_next sim_va_word sim_va_text : sim.
Lemma sim_getuint ap l : sim R (getuint ap l) (getuint ap l).
Proof. unfold getuint. sim_tac. Qed.
Lemma sim_getint ap l : sim R (getint ap l) (getint ap l).
Proof. unfold getint. sim_tac. Qed.
Lemma sim_put_many n c : sim R (put_many put1 n c) (put_many put2 n c).
Proof. induction n; cbn [put_many]; sim_tac. Qed.
#[local] Hint Resolve sim_getuint sim_getint sim_put_many : sim.
Lemma sim_printnum fuel num base w pc : sim R (printnum put1 fuel num base w pc) (printnum put2 fuel num base w pc).
Proof. revert num w. induction fuel; intros num w; cbn [printnum]; sim_tac. Qed.
Lemma sim_strnlen fuel p size n : sim R (strnlen mem fuel p size n) (strnlen mem fuel p size n).
Proof. revert p size n. induction fuel; intros p size n; cbn [strnlen]; sim_tac. Qed.
Lemma sim_put_string fuel p w pr alt :
  sim R (put_string mem put1 fuel p w pr alt) (put_string mem put2 fuel p w pr alt).
Proof. revert p w pr. induction fuel; intros p w pr; cbn [put_string]; sim_tac. Qed.
Lemma sim_fetch fmt pos : sim R (fetch fmt pos) (fetch fmt pos).
Proof. apply sim_lift. Qed.
#[local] Hint Resolve sim_printnum sim_strnlen sim_put_string sim_fetch : sim.
Lemma sim_digits fuel fmt pos ch prec : sim R (digits fuel fmt pos ch prec) (digits fuel fmt pos ch prec).
Proof. revert pos ch prec. induction fuel; intros pos ch prec; cbn [digits]; sim_tac. Qed.
#[local] Hint Resolve sim_digits : sim.
Lemma sim_reswitch fuel fmt pos ap v : sim R (reswitch fuel fmt pos ap v) (reswitch fuel fmt pos ap v).
Proof. revert pos ap v. induction fuel; intros pos ap v; cbn [reswitch]; sim_tac. Qed.
Lemma sim_back fmt pos : sim R (back_to_percent fmt pos) (back_to_percent fmt pos).
Proof. induction pos; cbn [back_to_percent]; sim_tac. Qed.
#[local] Hint Resolve sim_reswitch sim_back : sim.

Lemma sim_vprintfmt fuel sfuel fmt pos ap :
  sim R (vprintfmt mem put1 fuel sfuel fmt pos ap) (vprintfmt mem put2 fuel sfuel fmt pos ap).
Proof.
  revert fmt pos ap. induction fuel as [|fuel IH]; intros fmt pos ap; [apply sim_diverge|].
  cbn [vprintfmt]. unfold print_string, print_signed, print_unsigned, print_pointer. sim_tac.
Qed.
End Related.

(** ** vsnprintf *)

(** The characters as a list. *)
Definition record (ch : Z) : M (list Z) unit := modify (fun out => out ++ [ch]).

(** The buffer [l] of [n + 1] bytes or more after the characters [out]. *)
Record cut (n : nat) (l : list Z) (b : sprintbuf) (out : list Z) : Prop := Cut {
  cut_mem : sp_mem b = splice 0 (map w8 (take n out)) l;
  cut_buf : sp_buf b = Z.of_nat (length (take n out));
  cut_end : sp_ebuf b = Z.of_nat n;
  cut_cnt : sp_cnt b = i32 (Z.of_nat (length out))
}.

Lemma i32_succ x : i32 (i32 x + 1) = i32 (x + 1).
Proof. unfold i32. Z.div_mod_to_equations. lia. Qed.

(** One more character. *)
Lemma sim_cut n l ch : (n < length l)%nat -> sim (cut n l) (sprintputch ch) (record ch).
Proof.
  intros Hn b out [Hm Hb He Hc]. unfold sprintputch. rewrite bind_get, Hb, He, Hc.
  destruct (Nat.lt_ge_cases (length out) n) as [Hlt|Hge].
  - rewrite (proj2 (Z.ltb_lt _ _)) by (rewrite length_take; lia). rewrite take_ge in * by lia.
    assert (length (sp_mem b) = length l) as Hl.
    { rewrite Hm. apply splice_length. rewrite length_map. lia. }
    rewrite zinsert_nat by lia. cbn. split; [done|]. split; cbn; rewrite ?(take_ge (out ++ [ch])) by (rewrite length_app; cbn; lia).
    + rewrite Hm, map_app, <- splice_one by (rewrite splice_length by (rewrite length_map; lia); lia).
      rewrite <- (length_map w8 out), <- (Nat.add_0_l (length _)), splice_app; [done|]. rewrite length_map. cbn. lia.
    + rewrite length_app. cbn. lia.
    + done.
    + rewrite i32_succ, length_app. f_equal. cbn. lia.
  - rewrite (proj2 (Z.ltb_ge _ _)) by (rewrite length_take; lia). cbn. split; [done|].
    split; cbn; rewrite ?take_app_le by done; try done. rewrite i32_succ, length_app. f_equal. cbn. lia.
Qed.

(** C39. [vsnprintf] puts the characters that the format prints into the buffer, cut to [n - 1]
    and ended by a zero, and nothing behind them, and returns how many there are without
    the cut; when the format reads an argument or a string that is not there it does that
    as well; and without room for the zero it does not touch the buffer. *)
Theorem vsnprintf_cuts_the_output mem fuel sfuel l n fmt ap :
  n <= Z.of_nat (length l) ->
  vsnprintf mem fuel sfuel (Some l) n fmt ap =
    if n <? 1 then Ok (- E_INVAL, l)
    else
      match vprintfmt mem record fuel sfuel fmt 0 ap [] with
      | Ok (_, out) => Ok (i32 (Z.of_nat (length out)), splice 0 (map w8 (take (Z.to_nat (n - 1)) out) ++ [0]) l)
      | Panic m => Panic m
      | Fault w => Fault w
      | Diverge => Diverge
      end.
Proof.
  intros Hn. unfold vsnprintf. destruct (Z.ltb_spec n 1); [done|]. set (k := Z.to_nat (n - 1)).
  assert (k < length l)%nat as Hk by (unfold k; lia).
  assert (cut k l (Sprintbuf l 0 (n - 1) 0) []) as Hc.
  { split; cbn; rewrite ?take_nil; cbn; rewrite ?splice_nil; [done|done|unfold k; lia|done]. }
  pose proof (sim_vprintfmt mem (cut k l) sprintputch record (fun c => sim_cut k l c Hk) fuel sfuel fmt 0 ap _ _ Hc) as Hs.
  destruct (vprintfmt mem sprintputch _ _ _ _ _ _) as [[[] b]| | |], (vprintfmt mem record _ _ _ _ _ _) as [[[] out]| | |];
    cbn in Hs; try done; try congruence.
  destruct Hs as [_ [Hm Hb _ Hcnt]]. set (o := take k out) in *.
  assert (length o <= k)%nat as Ho by (unfold o; rewrite length_take; lia).
  assert (length (sp_mem b) = length l) as Hl by (rewrite Hm; apply splice_length; rewrite length_map; lia).
  rewrite Hb, Hcnt, zinsert_nat by lia. do 2 f_equal. rewrite <- splice_one, Hm by lia.
  rewrite <- (length_map w8 o), <- (Nat.add_0_l (length _)), splice_app; [done|]. rewrite length_map. cbn. lia.
Qed.

(** ** The specification after a percent sign *)

Section Parse.
Context {B : Type}.

(** [reswitch] goes from one position to another. *)
Definition skips (fmt : list Z) (p1 : nat) (a1 : list va) (v1 : spec) (p2 : nat) (a2 : list va) (v2 : spec) : Prop :=
  exists k, (p1 + k <= p2)%nat /\ forall fuel (s : B),
    reswitch (k + fuel) fmt p1 a1 v1 s = reswitch fuel fmt p2 a2 v2 s.

Lemma skips_refl fmt p a v : skips fmt p a v p a v.
Proof. exists O. split; [lia|done]. Qed.

Lemma skips_trans fmt p1 a1 v1 p2 a2 v2 p3 a3 v3 :
  skips fmt p1 a1 v1 p2 a2 v2 -> skips fmt p2 a2 v2 p3 a3 v3 -> skips fmt p1 a1 v1 p3 a3 v3.
Proof.
  intros (k1 & L1 & H1) (k2 & L2 & H2). exists (k1 + k2)%nat. split; [lia|]. intros fuel s.
  by rewrite <- Nat.add_assoc, H1, H2.
Qed.

Lemma fetch_run fmt p c (s : B) : fmt !! p = Some c -> fetch fmt p s = Ok (c, s).
Proof. intros Hc. unfold fetch. by rewrite Hc. Qed.

(** A flag of one character. *)
Lemma skip_flag fmt p a v c v' : fmt !! p = Some c ->
  (c = 45 /\ v' = set_padc 45 v) \/ (c = 48 /\ v' = set_padc 48 v) \/
  (c = 46 /\ v' = if width v <? 0 then set_width 0 v else v) \/
  (c = 35 /\ v' = set_altflag true v) \/ (c = 108 /\ v' = set_lflag (lflag v + 1) v) ->
  skips fmt p a v (S p) a v'.
Proof.
  intros Hc Hv. exists 1%nat. split; [lia|]. intros fuel s. cbn [Nat.add reswitch].
  rewrite (bind_ok _ _ _ _ _ (fetch_run fmt p c s Hc)).
  destruct Hv as [[-> ->]|[[-> ->]|[[-> ->]|[[-> ->]|[-> ->]]]]]; done.
Qed.

(** The [n] letters of a long conversion. *)
Lemma skip_longs fmt p a v n : (forall i, (i < n)%nat -> fmt !! (p + i)%nat = Some 108) ->
  skips fmt p a v (p + n) a (set_lflag (lflag v + Z.of_nat n) v).
Proof.
  revert p v. induction n as [|n IH]; intros p v Hl.
  - rewrite Nat.add_0_r. replace (set_lflag (lflag v + Z.of_nat 0) v) with v; [apply skips_refl|].
    destruct v. unfold set_lflag. cbn. f_equal. lia.
  - eapply skips_trans; [eapply skip_flag; [|do 4 right; by split]|].
    + rewrite <- (Nat.add_0_r p) at 1. apply Hl. lia.
    + replace (p + S n)%nat with (S p + n)%nat by lia.
      replace (set_lflag (lflag v + Z.of_nat (S n)) v) with
        (set_lflag (lflag (set_lflag (lflag v + 1) v) + Z.of_nat n) (set_lflag (lflag v + 1) v)).
      * apply IH. intros i Hi. replace (S p + i)%nat with (p + S i)%nat by lia. apply Hl. lia.
      * destruct v. unfold set_lflag. cbn. f_equal. lia.
Qed.

Definition is_digit (c : Z) : Prop := 48 <= c <= 57.

(** The value of decimal digits. *)
Definition decimal (ds : list Z) : Z := foldl (fun v d => v * 10 + (d - 48)) 0 ds.

Lemma decimal_nonneg ds v : Forall is_digit ds -> 0 <= v -> v <= foldl (fun v d => v * 10 + (d - 48)) v ds.
Proof.
  revert v. induction ds as [|d ds IH]; intros v Hd Hv; [done|]. apply Forall_cons in Hd as [Hd1 Hd].
  unfold is_digit in Hd1. cbn. etransitivity; [|apply IH; [done|lia]]. lia.
Qed.

Lemma digits_run fuel fmt p ch prec ds c (s : B) :
  (length ds < fuel)%nat -> is_digit ch -> Forall is_digit ds ->
  (forall i, (i < length ds)%nat -> fmt !! (p + i)%nat = ds !! i) ->
  fmt !! (p + length ds)%nat = Some c -> ~ is_digit c -> 0 <= prec ->
  foldl (fun v d => v * 10 + (d - 48)) prec (ch :: ds) < 2 ^ 31 ->
  digits fuel fmt p ch prec s = Ok ((foldl (fun v d => v * 10 + (d - 48)) prec (ch :: ds), (p + length ds)%nat), s).
Proof.
  revert p ch prec ds. induction fuel as [|fuel IH]; intros p ch prec ds Hf Hch Hds Hat Hc Hnc Hp Hb; [lia|].
  cbn [digits]. cbn [foldl] in *. pose proof (decimal_nonneg ds (prec * 10 + (ch - 48)) Hds) as Hm. unfold is_digit in *.
  rewrite (i32_small (prec * 10 + ch - 48)) by lia. replace (prec * 10 + ch - 48) with (prec * 10 + (ch - 48)) by lia.
  destruct ds as [|d ds].
  - cbn [length] in *. rewrite Nat.add_0_r in *. rewrite (bind_ok _ _ _ _ _ (fetch_run fmt p c s Hc)).
    destruct (Z.ltb_spec c 48), (Z.ltb_spec 57 c); cbn [orb]; done || lia.
  - pose proof (Hat 0%nat ltac:(cbn; lia)) as H0. rewrite Nat.add_0_r in H0. cbn in H0.
    rewrite (bind_ok _ _ _ _ _ (fetch_run fmt p d s H0)). apply Forall_cons in Hds as [Hd Hds].
    destruct (Z.ltb_spec d 48), (Z.ltb_spec 57 d); cbn [orb]; try lia. cbn [length] in *.
    replace (p + S (length ds))%nat with (S p + length ds)%nat in * by lia.
    apply (IH (S p) d (prec * 10 + (ch - 48)) ds); try done; try lia.
    intros i Hi. specialize (Hat (S i) ltac:(lia)). by rewrite <- Nat.add_succ_comm in Hat.
Qed.

Lemma skip_number fmt p a v d ds c :
  49 <= d <= 57 -> Forall is_digit ds -> fmt !! p = Some d ->
  (forall i, (i < length ds)%nat -> fmt !! (S p + i)%nat = ds !! i) ->
  fmt !! (S p + length ds)%nat = Some c -> ~ is_digit c -> decimal (d :: ds) < 2 ^ 31 ->
  skips fmt p a v (S p + length ds) a (process_precision (set_precision (decimal (d :: ds)) v)).
Proof.
  intros Hd Hds Hp Hat Hc Hnc Hb. exists 1%nat. split; [lia|]. intros fuel s. cbn [Nat.add reswitch].
  rewrite (bind_ok _ _ _ _ _ (fetch_run fmt p d s Hp)).
  destruct (Z.eqb_spec d 45), (Z.eqb_spec d 48); try lia.
  rewrite (proj2 (Z.leb_le 49 d)), (proj2 (Z.leb_le d 57)) by lia. cbn [andb].
  assert (length ds < length fmt)%nat as Hl by (apply lookup_lt_Some in Hc; lia).
  assert (is_digit d) as Hdd by (unfold is_digit; lia).
  by rewrite (bind_ok _ _ _ _ _ (digits_run (length fmt) fmt (S p) d 0 ds c s Hl Hdd Hds Hat Hc Hnc (Z.le_refl 0) Hb)).
Qed.

(** [seg] is read, whatever comes before, and after it something that is not a digit. *)
Definition takes (seg : list Z) (v v' : spec) : Prop := forall pre c rest a, ~ is_digit c ->
  skips (pre ++ seg ++ c :: rest) (length pre) a v (length pre + length seg) a v'.

Lemma takes_nil v : takes [] v v.
Proof. intros pre c rest a _. cbn. rewrite Nat.add_0_r. apply skips_refl. Qed.

(** Two of them; the second begins with something that is not a digit, or the first is a
    flag, which does not look at what follows. *)
Lemma takes_app s1 s2 v1 v2 v3 :
  takes s1 v1 v2 -> takes s2 v2 v3 -> match s2 with [] => True | c :: _ => ~ is_digit c end -> takes (s1 ++ s2) v1 v3.
Proof.
  intros H1 H2 Hh pre c rest a Hc. eapply skips_trans.
  - rewrite <- app_assoc. destruct s2 as [|c2 s2]; [exact (H1 pre c rest a Hc)|]. cbn [app].
    exact (H1 pre c2 (s2 ++ c :: rest) a Hh).
  - rewrite <- app_assoc, app_assoc. specialize (H2 (pre ++ s1) c rest a Hc).
    rewrite !length_app in *. by rewrite Nat.add_assoc.
Qed.

Lemma takes_flag c s v v' v2 :
  (c = 45 /\ v' = set_padc 45 v) \/ (c = 48 /\ v' = set_padc 48 v) \/
  (c = 46 /\ v' = if width v <? 0 then set_width 0 v else v) \/
  (c = 35 /\ v' = set_altflag true v) \/ (c = 108 /\ v' = set_lflag (lflag v + 1) v) ->
  takes s v' v2 -> takes (c :: s) v v2.
Proof.
  intros Hf Hs pre d rest a Hd. eapply skips_trans.
  - eapply skip_flag; [|exact Hf]. by apply list_lookup_middle.
  - specialize (Hs (pre ++ [c]) d rest a Hd). rewrite <- app_assoc, length_app in Hs. cbn in *.
    rewrite Nat.add_1_r in Hs. by rewrite <- Nat.add_succ_comm.
Qed.

Lemma takes_number d ds v : 49 <= d <= 57 -> Forall is_digit ds -> decimal (d :: ds) < 2 ^ 31 ->
  takes (d :: ds) v (process_precision (set_precision (decimal (d :: ds)) v)).
Proof.
  intros Hd Hds Hb pre c rest a Hc. cbn [length]. rewrite <- Nat.add_succ_comm.
  apply (skip_number _ (length pre) a v d ds c); [done|done|by apply list_lookup_middle| | |done|done].
  - intros i Hi. rewrite lookup_app_r by lia. replace (S (length pre) + i - length pre)%nat with (S i) by lia.
    by rewrite lookup_app_l by (cbn; lia).
  - rewrite lookup_app_r by lia. replace (S (length pre) + length ds - length pre)%nat with (S (length ds)) by lia.
    rewrite lookup_app_r by (cbn; lia). cbn. by rewrite Nat.sub_diag.
Qed.

Lemma takes_longs n v : takes (replicate n 108) v (set_lflag (lflag v + Z.of_nat n) v).
Proof.
  intros pre c rest a Hc. rewrite length_replicate. apply skip_longs. intros i Hi.
  rewrite lookup_app_r, Nat.add_comm, Nat.add_sub by lia. rewrite lookup_app_l by (by rewrite length_replicate).
  by apply lookup_replicate_2.
Qed.
End Parse.

(** ** Formats written from their parts *)

(** Flags, width and precision of a conversion; a width or a precision is its digits. *)
Record fspec := Fspec { f_left : bool; f_zero : bool; f_width : list Z; f_prec : list Z; f_alt : bool; f_long : nat }.

Definition good_number (ds : list Z) : Prop :=
  match ds with [] => True | d :: ds => 49 <= d <= 57 /\ Forall is_digit ds /\ decimal (d :: ds) < 2 ^ 31 end.

Record good_spec (f : fspec) : Prop := GoodSpec { gs_width : good_number (f_width f); gs_prec : good_number (f_prec f) }.

Definition written (f : fspec) : list Z :=
  (if f_left f then [45] else []) ++ (if f_zero f then [48] else []) ++ f_width f ++
  match f_prec f with [] => [] | ds => 46 :: ds end ++ (if f_alt f then [35] else []) ++ replicate (f_long f) 108.

(** What is meant: a width without a precision, a precision alone has the width 0. *)
Definition meant (f : fspec) : spec :=
  Spec (if f_zero f then 48 else if f_left f then 45 else 32)
    (match f_width f, f_prec f with [], [] => -1 | [], _ => 0 | ds, _ => decimal ds end)
    (match f_prec f with [] => -1 | ds => decimal ds end)
    (Z.of_nat (f_long f)) (f_alt f).

Lemma takes_written {B} f : good_spec f -> takes (B := B) (written f) (Spec 32 (-1) (-1) 0 false) (meant f).
Proof.
  intros [Hw Hp]. destruct f as [lft zero wd pr alt lng]. unfold written, meant. cbn [f_left f_zero f_width f_prec f_alt f_long] in *.
  set (pc := if zero then 48 else if lft then 45 else 32).
  assert (forall seg v2, takes (B := B) seg (Spec pc (-1) (-1) 0 false) v2 ->
    takes (B := B) ((if lft then [45] else []) ++ (if zero then [48] else []) ++ seg) (Spec 32 (-1) (-1) 0 false) v2) as Hflags.
  { intros seg v2 Hs. unfold pc in Hs. destruct lft, zero; cbn [app] in *; try done.
    - eapply takes_flag; [by left|]. eapply takes_flag; [by right; left|]. exact Hs.
    - eapply takes_flag; [by left|]. exact Hs.
    - eapply takes_flag; [by right; left|]. exact Hs. }
  apply Hflags. clear Hflags.
  assert (forall pd w p, takes (B := B) ((if alt then [35] else []) ++ replicate lng 108) (Spec pd w p 0 false)
    (Spec pd w p (Z.of_nat lng) alt)) as Hend.
  { intros pd w p. pose proof (takes_longs (B := B) lng (Spec pd w p 0 alt)) as Hl. unfold set_lflag in Hl. cbn in Hl.
    destruct alt; [|exact Hl]. eapply takes_flag; [by do 3 right; left|]. exact Hl. }
  assert (match (if alt then [35] else []) ++ replicate lng 108 with [] => True | c :: _ => ~ is_digit c end) as Hnd.
  { unfold is_digit. destruct alt; [cbn; lia|]. destruct lng; [done|]. cbn. lia. }
  assert (forall w, (pr = [] -> w = w) -> takes (B := B) (match pr with [] => [] | ds => 46 :: ds end ++ (if alt then [35] else []) ++ replicate lng 108)
    (Spec pc w (-1) 0 false)
    (Spec pc (match pr with [] => w | _ => if w <? 0 then 0 else w end) (match pr with [] => -1 | ds => decimal ds end) (Z.of_nat lng) alt)) as Hprec.
  { intros w _. destruct pr as [|d ds]; [apply Hend|]. destruct Hp as (Hd & Hds & Hb). cbn [app].
    eapply takes_flag; [by right; right; left|]. cbn [width].
    set (w' := if w <? 0 then 0 else w). assert (0 <= w') as Hw' by (unfold w'; destruct (Z.ltb_spec w 0); lia).
    replace (if w <? 0 then set_width 0 (Spec pc w (-1) 0 false) else Spec pc w (-1) 0 false) with (Spec pc w' (-1) 0 false)
      by (unfold w', set_width; by destruct (w <? 0)).
    apply (takes_app (d :: ds)) with (v2 := Spec pc w' (decimal (d :: ds)) 0 false); [|apply Hend|exact Hnd].
    pose proof (takes_number (B := B) d ds (Spec pc w' (-1) 0 false) Hd Hds Hb) as Hn.
    unfold process_precision, set_precision in Hn. cbn in Hn. by rewrite (proj2 (Z.ltb_ge _ _)) in Hn. }
  destruct wd as [|d ds].
  - cbn [app]. specialize (Hprec (-1) ltac:(done)). by destruct pr.
  - destruct Hw as (Hd & Hds & Hb).
    pose proof (decimal_nonneg (d :: ds) 0 ltac:(constructor; [unfold is_digit; lia|done]) (Z.le_refl 0)) as Hpos. fold (decimal (d :: ds)) in Hpos.
    apply (takes_app (d :: ds)) with (v2 := Spec pc (decimal (d :: ds)) (-1) 0 false).
    + pose proof (takes_number (B := B) d ds (Spec pc (-1) (-1) 0 false) Hd Hds Hb) as Hn. exact Hn.
    + specialize (Hprec (decimal (d :: ds)) ltac:(done)). rewrite (proj2 (Z.ltb_ge _ _) Hpos) in Hprec. by destruct pr.
    + destruct pr; [exact Hnd|]. unfold is_digit. cbn. lia.
Qed.

(** ** Numbers *)

Definition digit_of (d : Z) : Z := if d <? 58 then d - 48 else d - 87.

(** Digits without a zero in front, from which the number can be read. *)
Record numeral (base num : Z) (ds : list Z) : Prop := Numeral {
  nu_some : ds <> [];
  nu_value : foldl (fun v d => v * base + digit_of d) 0 ds = num;
  nu_digits : Forall (fun d => (48 <= d <= 57 \/ 97 <= d <= 102) /\ 0 <= digit_of d < base) ds;
  nu_zero : head ds = Some 48 -> ds = [48]
}.

Lemma digit_char_cases d : 0 <= d < 16 ->
  digit_of (digit_char d) = d /\ (48 <= digit_char d <= 57 \/ 97 <= digit_char d <= 102) /\ (digit_char d = 48 -> d = 0).
Proof.
  intros Hd. assert (d = 0 \/ d = 1 \/ d = 2 \/ d = 3 \/ d = 4 \/ d = 5 \/ d = 6 \/ d = 7 \/ d = 8 \/ d = 9 \/
    d = 10 \/ d = 11 \/ d = 12 \/ d = 13 \/ d = 14 \/ d = 15) as Hc by lia.
  repeat destruct Hc as [->|Hc]; try subst d; (split; [reflexivity|split; [first [left; vm_compute; split; discriminate|right; vm_compute; split; discriminate]|by vm_compute]]).
Qed.

Lemma record_run c out : record c out = Ok (tt, out ++ [c]).
Proof. done. Qed.

Lemma put_many_run n c out : put_many record n c out = Ok (tt, out ++ replicate n c).
Proof.
  revert out. induction n as [|n IH]; intros out; cbn [put_many replicate]; [by rewrite app_nil_r|].
  by rewrite (bind_ok _ _ _ _ _ (record_run _ _)), IH, <- app_assoc.
Qed.

Lemma printnum_run fuel k num base w pc out : 2 <= base <= 16 -> 0 <= num < base ^ Z.of_nat k -> (0 < k <= fuel)%nat ->
  exists ds, numeral base num ds /\
    printnum record fuel num base w pc out =
      Ok (tt, out ++ replicate (Z.to_nat (w - Z.of_nat (length ds))) pc ++ ds).
Proof.
  intros Hb. revert num fuel w out. induction k as [|k IH]; intros num fuel w out Hx Hf; [lia|].
  destruct fuel as [|fuel]; [lia|]. cbn [printnum].
  assert (0 <= num mod base < base) as Hm by (apply Z.mod_pos_bound; lia).
  destruct (digit_char_cases (num mod base) ltac:(lia)) as (Hv & Hr & Hz).
  destruct (Z.leb_spec base num) as [Hle|Hlt].
  - assert (0 <= num / base < base ^ Z.of_nat k) as Hxd.
    { rewrite Nat2Z.inj_succ, Z.pow_succ_r in Hx by lia.
      split; [apply Z.div_pos; lia|apply Z.div_lt_upper_bound; lia]. }
    assert (1 <= num / base) by (apply Z.div_le_lower_bound; lia).
    destruct k as [|k]; [cbn in Hxd; lia|].
    destruct (IH (num / base) fuel (w - 1) out Hxd ltac:(lia)) as (ds & [Hn Hval Hds Hzero] & R).
    exists (ds ++ [digit_char (num mod base)]). split.
    + split; [by destruct ds| | |].
      * rewrite foldl_app. cbn. rewrite Hval, Hv. pose proof (Z.div_mod num base ltac:(lia)). lia.
      * apply Forall_app_2; [done|]. apply Forall_cons_2; [lia|constructor].
      * destruct ds as [|d ds]; [done|]. cbn. intros [= ->]. specialize (Hzero eq_refl). injection Hzero as ->.
        cbn in Hval. lia.
    + rewrite (bind_ok _ _ _ _ _ R), record_run, <- !app_assoc, length_app. cbn [length]. do 5 f_equal. lia.
  - exists [digit_char (num mod base)]. split.
    + rewrite Z.mod_small in * by lia. split; [done| |apply Forall_cons_2; [lia|constructor]|].
      * cbn. lia.
      * cbn. by intros [= ->].
    + by rewrite (bind_ok _ _ _ _ _ (put_many_run _ _ _)), record_run, <- app_assoc.
Qed.

Lemma print64_run num base w pc out : base = 8 \/ base = 10 \/ base = 16 -> 0 <= num < 2 ^ 64 ->
  exists ds, numeral base num ds /\
    printnum record 64 num base w pc out = Ok (tt, out ++ replicate (Z.to_nat (w - Z.of_nat (length ds))) pc ++ ds).
Proof.
  intros Hb Hn. apply (printnum_run 64 64); [lia| |lia].
  assert (2 ^ 64 <= base ^ Z.of_nat 64) by (apply Z.pow_le_mono_l; lia). lia.
Qed.

(** ** Strings *)

Section Strings.
Context (mem : Z -> option Z).

Definition peek (p : text) : option (Z * text) :=
  match p with
  | At a => match mem a with Some c => Some (c, At (w32 (a + 1))) | None => None end
  | Lit (c :: l) => Some (c, Lit l)
  | Lit [] => None
  end.

Lemma next_run {B} p c q (s : B) : peek p = Some (c, q) -> next mem p s = Ok ((c, q), s).
Proof.
  destruct p as [a|[|x l]]; cbn; [|done|by intros [= -> ->]]. destruct (mem a) as [x|]; [|done]. by intros [= -> ->].
Qed.

(** The string that a pointer points to. *)
Fixpoint spells (p : text) (str : list Z) : Prop :=
  match str with
  | [] => exists q, peek p = Some (0, q)
  | c :: str' => c <> 0 /\ exists q, peek p = Some (c, q) /\ spells q str'
  end.

Lemma spells_literal str : Forall (fun c => c <> 0) str -> spells (Lit (str ++ [0])) str.
Proof. induction 1 as [|c str Hc Hs IH]; cbn; [by eexists|]. split; [done|]. by eexists. Qed.

(** What of a string is printed. *)
Definition visible (prec : Z) (str : list Z) : list Z := if prec <? 0 then str else take (Z.to_nat prec) str.

Lemma strnlen_run {B} fuel p str size n (s : B) : spells p str -> (length str < fuel)%nat ->
  strnlen mem fuel p size n s = Ok (n + Z.of_nat (length (visible size str)), s).
Proof.
  revert p str size n. induction fuel as [|fuel IH]; intros p str size n Hsp Hf; [lia|]. cbn [strnlen].
  destruct (Z.eqb_spec size 0) as [->|Hs].
  { unfold visible, mret, M_ret. cbn. by rewrite Z.add_0_r. }
  destruct str as [|c str]; cbn [spells] in Hsp.
  - destruct Hsp as [q Hq]. rewrite (bind_ok _ _ _ _ _ (next_run p 0 q s Hq)). cbn.
    unfold visible. rewrite take_nil. destruct (size <? 0); cbn; unfold mret, M_ret; do 2 f_equal; lia.
  - destruct Hsp as (Hc & q & Hq & Hsp). rewrite (bind_ok _ _ _ _ _ (next_run p c q s Hq)).
    rewrite (proj2 (Z.eqb_neq _ _) Hc), (IH q str) by (done || (cbn in Hf; lia)). do 2 f_equal.
    unfold visible. destruct (Z.ltb_spec size 0), (Z.ltb_spec (size - 1) 0); cbn [length]; try lia.
    replace (Z.to_nat size) with (S (Z.to_nat (size - 1))) by lia. cbn [take firstn length]. lia.
Qed.

Definition shown (alt : bool) (c : Z) : Z := if alt && ((schar c <? 32) || (126 <? schar c)) then 63 else schar c.

Lemma put_string_run fuel p str w prec alt out : spells p str -> (length str < fuel)%nat ->
  put_string mem record fuel p w prec alt out =
    Ok (w - Z.of_nat (length (visible prec str)), out ++ map (shown alt) (visible prec str)).
Proof.
  revert p str w prec out. induction fuel as [|fuel IH]; intros p str w prec out Hsp Hf; [lia|]. cbn [put_string].
  destruct str as [|c str]; cbn [spells] in Hsp.
  - destruct Hsp as [q Hq]. rewrite (bind_ok _ _ _ _ _ (next_run p 0 q out Hq)). cbn.
    unfold visible. rewrite take_nil. destruct (prec <? 0); cbn; rewrite app_nil_r; unfold mret, M_ret; do 2 f_equal; lia.
  - destruct Hsp as (Hc & q & Hq & Hsp). rewrite (bind_ok _ _ _ _ _ (next_run p c q out Hq)).
    rewrite (proj2 (Z.eqb_neq _ _) Hc). unfold visible. destruct (Z.ltb_spec prec 0) as [Hp|Hp]; cbn [orb].
    + fold (shown alt c). rewrite (bind_ok _ _ _ _ _ (record_run _ _)), (IH q str) by (done || (cbn in Hf; lia)).
      unfold visible. rewrite (proj2 (Z.ltb_lt _ _) Hp), <- app_assoc. cbn [length map app]. do 2 f_equal. lia.
    + destruct (Z.leb_spec 0 (prec - 1)) as [Hp1|Hp1].
      * fold (shown alt c). rewrite (bind_ok _ _ _ _ _ (record_run _ _)), (IH q str) by (done || (cbn in Hf; lia)).
        unfold visible. rewrite (proj2 (Z.ltb_ge (prec - 1) 0)) by lia.
        replace (Z.to_nat prec) with (S (Z.to_nat (prec - 1))) by lia. rewrite <- app_assoc.
        cbn [take firstn length map app]. do 2 f_equal. lia.
      * replace (Z.to_nat prec) with 0%nat by lia. cbn. rewrite app_nil_r. unfold mret, M_ret. do 2 f_equal. lia.
Qed.
End Strings.

(** ** Conversions *)

Section Items.
Context (mem : Z -> option Z).

(** The string that an argument is. *)
Definition points (p : va) (str : list Z) : Prop :=
  match p with
  | Word w => if w =? 0 then str = chars "(null)" else spells mem (At w) str
  | Str l => spells mem (Lit l) str
  end.

Definition string_out (v : spec) (str : list Z) : list Z :=
  let l := map (shown (altflag v)) (visible (precision v) str) in
  let pad := Z.to_nat (width v - Z.of_nat (length l)) in
  if padc v =? 45 then l ++ replicate pad 32 else replicate pad (padc v) ++ l.

Definition number_out (v : spec) (ds : list Z) : list Z :=
  replicate (Z.to_nat (width v - Z.of_nat (length ds))) (padc v) ++ ds.

(** The argument of an integer conversion with [l] long flags. *)
Definition int_args (l : nat) (n : Z) : list va :=
  if (2 <=? l)%nat then [Word (w64 n mod 2 ^ 32); Word (w64 n / 2 ^ 32)] else [Word (w32 n)].
Definition signed_in (l : nat) (n : Z) : Prop :=
  if (2 <=? l)%nat then - 2 ^ 63 <= n < 2 ^ 63 else - 2 ^ 31 <= n < 2 ^ 31.
Definition unsigned_in (l : nat) (n : Z) : Prop := 0 <= n < 2 ^ (if (2 <=? l)%nat then 64 else 32).

Inductive ubase := Decimal | Octal | Hexadecimal.
Definition base_of (b : ubase) : Z := match b with Decimal => 10 | Octal => 8 | Hexadecimal => 16 end.
Definition letter_of (b : ubase) : Z := match b with Decimal => 117 | Octal => 111 | Hexadecimal => 120 end.

(** A part of a format with its arguments. *)
Inductive item :=
  | Char (c : Z)
  | Percent (f : fspec)
  | Signed (f : fspec) (n : Z)
  | Unsigned (b : ubase) (f : fspec) (n : Z)
  | Pointer (f : fspec) (a : Z)
  | Character (f : fspec) (c : Z)
  | String (f : fspec) (p : va) (str : list Z)
  | Error (f : fspec) (err : Z).

Definition item_text (it : item) : list Z :=
  match it with
  | Char c => [c]
  | Percent f => 37 :: written f ++ [37]
  | Signed f _ => 37 :: written f ++ [100]
  | Unsigned b f _ => 37 :: written f ++ [letter_of b]
  | Pointer f _ => 37 :: written f ++ [112]
  | Character f _ => 37 :: written f ++ [99]
  | String f _ _ => 37 :: written f ++ [115]
  | Error f _ => 37 :: written f ++ [101]
  end.

Definition item_args (it : item) : list va :=
  match it with
  | Char _ | Percent _ => []
  | Signed f n | Unsigned _ f n => int_args (f_long f) n
  | Pointer _ a => [Word a]
  | Character _ c => [Word (w32 c)]
  | String _ p _ => [p]
  | Error _ err => [Word (w32 err)]
  end.

Definition good_item (sfuel : nat) (it : item) : Prop :=
  match it with
  | Char c => c <> 37 /\ c <> 0
  | Percent f => good_spec f
  | Signed f n => good_spec f /\ signed_in (f_long f) n
  | Unsigned b f n => good_spec f /\ unsigned_in (f_long f) n
  | Pointer f a => good_spec f /\ 0 <= a < 2 ^ 32
  | Character f c => good_spec f /\ - 2 ^ 31 <= c < 2 ^ 31
  | String f p str => good_spec f /\ points p str /\ (length str < sfuel)%nat
  | Error f err => good_spec f /\ - 2 ^ 31 < err < 2 ^ 31 /\ (20 < sfuel)%nat
  end.

(** What it prints. *)
Definition prints (it : item) (out : list Z) : Prop :=
  match it with
  | Char c => out = [c]
  | Percent _ => out = [37]
  | Signed f n => exists ds, numeral 10 (Z.abs n) ds /\ out = (if n <? 0 then [45] else []) ++ number_out (meant f) ds
  | Unsigned b f n => exists ds, numeral (base_of b) n ds /\ out = number_out (meant f) ds
  | Pointer f a => exists ds, numeral 16 a ds /\ out = [48; 120] ++ number_out (meant f) ds
  | Character _ c => out = [c]
  | String f _ str => out = string_out (meant f) str
  | Error _ err =>
      match error_string (Z.abs err) with
      | Some s => exists str, s = str ++ [0] /\ out = str
      | None => exists ds, numeral 10 (Z.abs err) ds /\ out = chars "error " ++ ds
      end
  end.

Lemma print_string_run sfuel p str ap v out : points p str -> (length str < sfuel)%nat ->
  print_string mem record sfuel (p :: ap) v out = Ok (ap, out ++ string_out v str).
Proof.
  intros Hp Hl. unfold print_string.
  assert (exists o, va_text (p :: ap) out = Ok ((o, ap), out) /\ spells mem (default (Lit (literal "(null)")) o) str) as (o & R & Hsp).
  { destruct p as [w|l]; cbn [points] in Hp.
    - cbn. destruct (w =? 0); eexists; (split; [reflexivity|]); [|exact Hp]. subst str.
      apply (spells_literal mem (chars "(null)")). by repeat constructor.
    - by eexists. }
  rewrite (bind_ok _ _ _ _ _ R). cbn zeta. set (q := default _ o) in *.
  pose proof (put_string_run mem sfuel q str) as Hput. unfold string_out.
  set (vis := visible (precision v) str) in *. rewrite length_map.
  destruct (Z.eqb_spec (padc v) 45) as [Hpc|Hpc]; cbn [negb]; [rewrite andb_false_r|rewrite andb_true_r].
  - rewrite bind_ret, (bind_ok _ _ _ _ _ (Hput _ _ _ _ Hsp Hl)). fold vis.
    rewrite (bind_ok _ _ _ _ _ (put_many_run _ _ _)), <- app_assoc. done.
  - destruct (Z.ltb_spec 0 (width v)) as [Hw|Hw].
    + rewrite bind_bind, (bind_ok _ _ _ _ _ (strnlen_run mem sfuel q str (precision v) 0 out Hsp Hl)).
      rewrite Z.add_0_l. fold vis. cbn zeta. rewrite bind_bind, (bind_ok _ _ _ _ _ (put_many_run _ _ _)), bind_ret.
      rewrite (bind_ok _ _ _ _ _ (Hput _ _ _ _ Hsp Hl)). fold vis. rewrite (bind_ok _ _ _ _ _ (put_many_run _ _ _)).
      replace (Z.to_nat ((if 0 <? width v - Z.of_nat (length vis) then 0 else width v - Z.of_nat (length vis)) -
        Z.of_nat (length vis))) with 0%nat by (destruct (Z.ltb_spec 0 (width v - Z.of_nat (length vis))); lia).
      cbn [replicate]. by rewrite app_nil_r, <- app_assoc.
    + rewrite bind_ret, (bind_ok _ _ _ _ _ (Hput _ _ _ _ Hsp Hl)). fold vis.
      rewrite (bind_ok _ _ _ _ _ (put_many_run _ _ _)).
      replace (Z.to_nat (width v - Z.of_nat (length vis))) with 0%nat by lia. cbn. by rewrite app_nil_r.
Qed.

Lemma getuint_run l n ap (s : list Z) : unsigned_in l n ->
  getuint (int_args l n ++ ap) (Z.of_nat l) s = Ok ((n, ap), s).
Proof.
  unfold unsigned_in, int_args, getuint. intros Hn. destruct (Nat.leb_spec 2 l) as [Hl|Hl].
  - rewrite (proj2 (Z.leb_le 2 _)) by lia. unfold w64. rewrite (Z.mod_small n (2 ^ 64)) by done. cbn [app].
    unfold va_word. rewrite !bind_ret. unfold mret, M_ret. do 3 f_equal. rewrite Z.add_comm, <- Z.div_mod; lia.
  - rewrite (proj2 (Z.leb_gt 2 _)) by lia. rewrite w32_small by done. done.
Qed.

Lemma getint_run l n ap (s : list Z) : signed_in l n ->
  getint (int_args l n ++ ap) (Z.of_nat l) s = Ok ((w64 n, ap), s).
Proof.
  unfold signed_in, int_args, getint. intros Hn. destruct (Nat.leb_spec 2 l) as [Hl|Hl].
  - rewrite (proj2 (Z.leb_le 2 _)) by lia. cbn [app]. unfold va_word. rewrite !bind_ret. unfold mret, M_ret.
    do 3 f_equal. rewrite Z.add_comm, <- Z.div_mod; lia.
  - rewrite (proj2 (Z.leb_gt 2 _)) by lia. cbn [app]. unfold va_word. rewrite bind_ret. unfold mret, M_ret. do 3 f_equal.
    f_equal. unfold i32, w32. Z.div_mod_to_equations. lia.
Qed.

Lemma print_signed_run f n ap out : signed_in (f_long f) n ->
  exists o, (exists ds, numeral 10 (Z.abs n) ds /\ o = (if n <? 0 then [45] else []) ++ number_out (meant f) ds) /\
    print_signed record (int_args (f_long f) n ++ ap) (meant f) out = Ok (ap, out ++ o).
Proof.
  intros Hn. assert (- 2 ^ 63 <= n < 2 ^ 63) as Hn64 by (unfold signed_in in Hn; destruct (2 <=? f_long f)%nat; lia).
  unfold print_signed. change (lflag (meant f)) with (Z.of_nat (f_long f)).
  rewrite (bind_ok _ _ _ _ _ (getint_run (f_long f) n ap out Hn)).
  assert (i64 (w64 n) = n) as -> by (unfold i64, w64; Z.div_mod_to_equations; lia).
  destruct (print64_run (Z.abs n) 10 (width (meant f)) (padc (meant f)) (out ++ (if n <? 0 then [45] else []))
    ltac:(by right; left) ltac:(lia)) as (ds & Hds & R).
  eexists. split; [exists ds; by split|]. rewrite app_assoc. destruct (Z.ltb_spec n 0) as [Hneg|Hpos].
  - rewrite bind_bind, (bind_ok _ _ _ _ _ (record_run _ _)), bind_ret.
    assert (w64 (- n) = Z.abs n) as -> by (unfold w64; rewrite Z.mod_small; lia).
    by rewrite (bind_ok _ _ _ _ _ R).
  - rewrite bind_ret. rewrite app_nil_r in *.
    assert (w64 n = Z.abs n) as -> by (unfold w64; rewrite Z.mod_small; lia).
    by rewrite (bind_ok _ _ _ _ _ R).
Qed.

Lemma print_unsigned_run b f n ap out : unsigned_in (f_long f) n ->
  exists o, (exists ds, numeral (base_of b) n ds /\ o = number_out (meant f) ds) /\
    print_unsigned record (base_of b) (int_args (f_long f) n ++ ap) (meant f) out = Ok (ap, out ++ o).
Proof.
  intros Hn. assert (0 <= n < 2 ^ 64) as Hn64 by (unfold unsigned_in in Hn; destruct (2 <=? f_long f)%nat; lia).
  unfold print_unsigned. change (lflag (meant f)) with (Z.of_nat (f_long f)).
  rewrite (bind_ok _ _ _ _ _ (getuint_run (f_long f) n ap out Hn)).
  destruct (print64_run n (base_of b) (width (meant f)) (padc (meant f)) out ltac:(destruct b; cbn; lia) Hn64) as (ds & Hds & R).
  eexists. split; [exists ds; by split|]. by rewrite (bind_ok _ _ _ _ _ R).
Qed.

Lemma print_pointer_run f a ap out : 0 <= a < 2 ^ 32 ->
  exists o, (exists ds, numeral 16 a ds /\ o = [48; 120] ++ number_out (meant f) ds) /\
    print_pointer record (Word a :: ap) (meant f) out = Ok (ap, out ++ o).
Proof.
  intros Ha. unfold print_pointer, va_word. rewrite bind_ret.
  rewrite (bind_ok _ _ _ _ _ (record_run _ _)), (bind_ok _ _ _ _ _ (record_run _ _)).
  destruct (print64_run a 16 (width (meant f)) (padc (meant f)) ((out ++ [48]) ++ [120]) ltac:(by right; right) ltac:(lia)) as (ds & Hds & R).
  eexists. split; [exists ds; by split|]. rewrite (bind_ok _ _ _ _ _ R). by rewrite <- !app_assoc.
Qed.

(** The letter of a conversion. *)
Definition letter (c : Z) : Prop := c ∈ [37; 99; 100; 101; 111; 112; 115; 117; 120].

Lemma reswitch_run pre f c rest ap (s : list Z) : good_spec f -> letter c ->
  reswitch (length (pre ++ written f ++ c :: rest)) (pre ++ written f ++ c :: rest) (length pre) ap (Spec 32 (-1) (-1) 0 false) s =
    Ok ((c, S (length pre + length (written f)), ap, meant f), s).
Proof.
  intros Hf Hc. assert (~ is_digit c) as Hnd.
  { unfold letter in Hc. unfold is_digit. rewrite !elem_of_cons in Hc. rewrite elem_of_nil in Hc. lia. }
  destruct (takes_written (B := list Z) f Hf pre c rest ap Hnd) as (k & Hk & Hrun).
  set (fmt := pre ++ written f ++ c :: rest) in *.
  assert (fmt !! (length pre + length (written f))%nat = Some c) as Hat.
  { unfold fmt. rewrite app_assoc, <- length_app. by apply list_lookup_middle. }
  pose proof (lookup_lt_Some _ _ _ Hat) as Hlt. replace (length fmt) with (k + S (length fmt - k - 1))%nat by lia.
  rewrite Hrun. cbn [reswitch]. rewrite (bind_ok _ _ _ _ _ (fetch_run fmt _ c s Hat)).
  unfold letter in Hc. rewrite !elem_of_cons in Hc. rewrite elem_of_nil in Hc.
  repeat destruct Hc as [->|Hc]; done.
Qed.

Lemma conv_start pre f c rest ap (s : list Z) : good_spec f -> letter c ->
  let fmt := pre ++ (37 :: written f ++ [c]) ++ rest in
  fmt !! length pre = Some 37 /\
  reswitch (length fmt) fmt (S (length pre)) ap (Spec 32 (-1) (-1) 0 false) s =
    Ok ((c, length (pre ++ 37 :: written f ++ [c]), ap, meant f), s).
Proof.
  intros Hf Hc fmt. split; [by apply list_lookup_middle|].
  pose proof (reswitch_run (pre ++ [37]) f c rest ap s Hf Hc) as R.
  replace ((pre ++ [37]) ++ written f ++ c :: rest) with fmt in R.
  - replace (length (pre ++ [37])) with (S (length pre)) in R by (rewrite length_app; cbn; lia). rewrite R.
    do 4 f_equal. rewrite !length_app. cbn [length]. rewrite length_app. cbn. do 3 f_equal. lia.
  - unfold fmt. rewrite <- !app_assoc. cbn. by rewrite <- app_assoc.
Qed.

(** The round of a conversion up to what is printed. *)
Ltac convert_tac H1 H2 :=
  cbn [vprintfmt]; rewrite (bind_ok _ _ _ _ _ (fetch_run _ _ _ _ H1)); change (37 =? 37) with true; cbn [negb];
  rewrite (bind_ok _ _ _ _ _ H2); cbn [Z.eqb Pos.eqb].

(** One round of [vprintfmt] on a part that is not an error. *)
Lemma round_run fuel sfuel pre it rest ap out : good_item sfuel it -> (forall f e, it <> Error f e) ->
  let fmt := pre ++ item_text it ++ rest in
  exists o, prints it o /\
    vprintfmt mem record (S fuel) sfuel fmt (length pre) (item_args it ++ ap) out =
      vprintfmt mem record fuel sfuel fmt (length (pre ++ item_text it)) ap (out ++ o).
Proof.
  intros Hg Hne fmt. destruct it as [c|f|f n|b f n|f a|f c|f p str|f e]; cbn [item_text item_args good_item prints] in *;
    [|..|by destruct (Hne f e)]; subst fmt.
  { destruct Hg as [H37 H0]. exists [c]. split; [done|]. cbn [vprintfmt].
    rewrite (bind_ok _ _ _ _ _ (fetch_run (pre ++ [c] ++ rest) (length pre) c out (list_lookup_middle _ _ _ _ eq_refl))).
    rewrite (proj2 (Z.eqb_neq _ _) H37), (proj2 (Z.eqb_neq _ _) H0). cbn [negb].
    rewrite (bind_ok _ _ _ _ _ (record_run _ _)), length_app. cbn [length]. by rewrite Nat.add_1_r. }
  - destruct (conv_start pre f 37 rest ap out Hg) as [H1 H2]; [by repeat constructor|].
    exists [37]. split; [done|]. change ([] ++ ap) with ap. convert_tac H1 H2. by rewrite (bind_ok _ _ _ _ _ (record_run _ _)).
  - destruct Hg as [Hg Hn]. destruct (conv_start pre f 100 rest (int_args (f_long f) n ++ ap) out Hg) as [H1 H2]; [by repeat constructor|].
    destruct (print_signed_run f n ap out Hn) as (o & Ho & R). exists o. split; [done|].
    convert_tac H1 H2. by rewrite (bind_ok _ _ _ _ _ R).
  - destruct Hg as [Hg Hn]. destruct (conv_start pre f (letter_of b) rest (int_args (f_long f) n ++ ap) out Hg) as [H1 H2];
      [destruct b; by repeat constructor|].
    destruct (print_unsigned_run b f n ap out Hn) as (o & Ho & R). exists o. split; [done|].
    destruct b; cbn [base_of letter_of] in *; convert_tac H1 H2; by rewrite (bind_ok _ _ _ _ _ R).
  - destruct Hg as [Hg Hn]. destruct (conv_start pre f 112 rest ([Word a] ++ ap) out Hg) as [H1 H2]; [by repeat constructor|].
    destruct (print_pointer_run f a ap out Hn) as (o & Ho & R). exists o. split; [done|].
    convert_tac H1 H2. by rewrite (bind_ok _ _ _ _ _ R).
  - destruct Hg as [Hg Hn]. destruct (conv_start pre f 99 rest ([Word (w32 c)] ++ ap) out Hg) as [H1 H2]; [by repeat constructor|].
    exists [c]. split; [done|].
    convert_tac H1 H2. cbn [app]. unfold va_word. rewrite bind_ret.
    assert (i32 (w32 c) = c) as -> by (unfold i32, w32; Z.div_mod_to_equations; lia).
    by rewrite (bind_ok _ _ _ _ _ (record_run _ _)).
  - destruct Hg as (Hg & Hp & Hl). destruct (conv_start pre f 115 rest ([p] ++ ap) out Hg) as [H1 H2]; [by repeat constructor|].
    exists (string_out (meant f) str). split; [done|].
    convert_tac H1 H2. by rewrite (bind_ok _ _ _ _ _ (print_string_run sfuel p str ap (meant f) out Hp Hl)).
Qed.

Definition format_text (its : list item) : list Z := concat (map item_text its).
Definition format_args (its : list item) : list va := concat (map item_args its).

Lemma end_run fuel sfuel pre t ap out : vprintfmt mem record (S fuel) sfuel (pre ++ 0 :: t) (length pre) ap out = Ok (tt, out).
Proof.
  cbn [vprintfmt]. rewrite (bind_ok _ _ _ _ _ (fetch_run (pre ++ 0 :: t) (length pre) 0 out (list_lookup_middle _ _ _ _ eq_refl))).
  done.
Qed.

(** A format without errors. *)
Lemma plain_run fuel sfuel pre its t ap out :
  Forall (good_item sfuel) its -> Forall (fun it => forall f e, it <> Error f e) its -> (length its < fuel)%nat ->
  exists os, Forall2 prints its os /\
    vprintfmt mem record fuel sfuel (pre ++ format_text its ++ 0 :: t) (length pre) (format_args its ++ ap) out =
      Ok (tt, out ++ concat os).
Proof.
  intros Hg Hne. revert fuel pre out. induction its as [|it its IH]; intros fuel pre out Hf.
  - exists []. split; [done|]. destruct fuel as [|fuel]; [cbn in Hf; lia|]. cbn [format_text format_args map concat app].
    by rewrite app_nil_r, end_run.
  - apply Forall_cons in Hg as [Hg1 Hg], Hne as [Hn1 Hne]. destruct fuel as [|fuel]; [cbn in Hf; lia|].
    unfold format_text, format_args. cbn [map concat]. fold (format_text its) (format_args its). rewrite <- !app_assoc.
    destruct (round_run fuel sfuel pre it (format_text its ++ 0 :: t) (format_args its ++ ap) out Hg1 Hn1) as (o & Ho & R).
    cbn zeta in R. rewrite R.
    destruct (IH Hg Hne fuel (pre ++ item_text it) (out ++ o)) as (os & Hos & R2); [cbn in Hf; lia|].
    rewrite <- app_assoc in R2. exists (o :: os). split; [by constructor|]. rewrite R2. cbn [concat]. by rewrite <- app_assoc.
Qed.

Lemma prints_chars l os : Forall2 prints (map Char l) os -> concat os = l.
Proof.
  revert os. induction l as [|c l IH]; intros os Hos; [by apply Forall2_nil_inv_l in Hos as ->|].
  cbn [map] in Hos. apply Forall2_cons_inv_l in Hos as (o & os' & Ho & Hos & ->). cbn in Ho. subst o. cbn. f_equal. by apply IH.
Qed.

Definition plain : fspec := Fspec false false [] [] false 0.
Lemma plain_good : good_spec plain.
Proof. done. Qed.

(** "error %d". *)
Lemma error_number_run fuel sfuel e out : 0 <= e < 2 ^ 31 -> (10 < fuel)%nat ->
  exists ds, numeral 10 e ds /\
    vprintfmt mem record fuel sfuel (literal "error %d") 0 [Word (w32 e)] out = Ok (tt, out ++ chars "error " ++ ds).
Proof.
  intros He Hf. set (its := map Char (chars "error ") ++ [Signed plain e]).
  destruct (plain_run fuel sfuel [] its [] [] out) as (os & Hos & R).
  - apply Forall_app_2; [by repeat constructor|]. repeat constructor; cbn; lia.
  - apply Forall_app_2; by repeat constructor.
  - cbn. lia.
  - apply Forall2_app_inv_l in Hos as (o1 & o2 & H1 & H2 & ->). apply prints_chars in H1.
    apply Forall2_cons_inv_l in H2 as (o & o3 & (ds & Hds & Ho) & Hn & ->). apply Forall2_nil_inv_l in Hn as ->.
    rewrite (proj2 (Z.ltb_ge e 0)) in Ho by lia. rewrite Z.abs_eq in Hds by lia.
    exists ds. split; [done|]. refine (eq_trans R _). rewrite concat_app, H1. cbn [concat]. rewrite app_nil_r, Ho. cbn [app].
    unfold number_out. replace (Z.to_nat (width (meant plain) - Z.of_nat (length ds))) with 0%nat by (cbn; lia). done.
Qed.

(** "%s" of a literal. *)
Lemma error_text_run fuel sfuel str out : Forall (fun c => 0 < c < 128) str -> (length str < sfuel)%nat -> (10 < fuel)%nat ->
  vprintfmt mem record fuel sfuel (literal "%s") 0 [Str (str ++ [0])] out = Ok (tt, out ++ str).
Proof.
  intros Hs Hl Hf. destruct (plain_run fuel sfuel [] [String plain (Str (str ++ [0])) str] [] [] out) as (os & Hos & R).
  - repeat constructor; [|done]. apply spells_literal. eapply Forall_impl; [exact Hs|]. intros c Hc. cbn in Hc. lia.
  - by repeat constructor.
  - cbn. lia.
  - apply Forall2_cons_inv_l in Hos as (o & o3 & Ho & Hn & ->). apply Forall2_nil_inv_l in Hn as ->.
    refine (eq_trans R _). cbn [concat]. rewrite app_nil_r. do 3 f_equal. cbn in Ho. subst o. unfold string_out. cbn -[shown].
    rewrite length_map. replace (Z.to_nat (-1 - Z.of_nat (length str))) with 0%nat by lia. cbn -[shown].
    rewrite <- (map_id str) at 2. apply map_ext_in. intros c Hc%list_elem_of_In. rewrite Forall_forall in Hs.
    specialize (Hs c Hc). unfold shown. cbn [andb]. unfold schar. rewrite (proj2 (Z.ltb_lt _ _)) by lia. done.
Qed.

Lemma error_string_some e s : error_string e = Some s ->
  exists str, s = str ++ [0] /\ Forall (fun c => 0 < c < 128) str /\ (length str <= 19)%nat.
Proof.
  intros He. unfold error_string in He.
  repeat match type of He with (if ?b then _ else _) = _ => destruct b end; try done;
    injection He as <-; (eexists; split; [reflexivity|split; [repeat constructor|vm_compute; lia]]).
Qed.

Lemma error_string_bound e : error_string e <> None -> 1 <= e <= 6.
Proof. unfold error_string. intros He. repeat (case_match; [lia|]). done. Qed.

(** A round on any part. *)
Lemma any_round_run fuel sfuel pre it rest ap out : good_item sfuel it -> (10 < fuel)%nat ->
  let fmt := pre ++ item_text it ++ rest in
  exists o, prints it o /\
    vprintfmt mem record (S fuel) sfuel fmt (length pre) (item_args it ++ ap) out =
      vprintfmt mem record fuel sfuel fmt (length (pre ++ item_text it)) ap (out ++ o).
Proof.
  intros Hg Hf fmt.
  assert ((exists f e, it = Error f e) \/ (forall f e, it <> Error f e)) as [(f & e & ->)|Hne]; [|subst fmt|by apply round_run].
  { destruct it; try (by right); left; by eexists _, _. }
  destruct Hg as (Hg & He & Hsf). cbn [item_text item_args prints] in *.
  destruct (conv_start pre f 101 rest ([Word (w32 e)] ++ ap) out Hg) as [H1 H2]; [by repeat constructor|].
  set (k := vprintfmt mem record fuel sfuel (pre ++ (37 :: written f ++ [101]) ++ rest) (length (pre ++ 37 :: written f ++ [101])) ap).
  assert (exists o, match error_string (Z.abs e) with
      | Some s => exists str, s = str ++ [0] /\ o = str
      | None => exists ds, numeral 10 (Z.abs e) ds /\ o = chars "error " ++ ds
      end /\
    match error_string (Z.abs e) with
    | Some p => vprintfmt mem record fuel sfuel (literal "%s") 0 [Str p]
    | None => vprintfmt mem record fuel sfuel (literal "error %d") 0 [Word (w32 (Z.abs e))]
    end out = Ok (tt, out ++ o)) as (o & Ho & R).
  { destruct (error_string (Z.abs e)) as [s|] eqn:Hs.
    - destruct (error_string_some _ _ Hs) as (str & -> & Hc & Hl). exists str. split; [by exists str|].
      apply error_text_run; [done|lia|done].
    - destruct (error_number_run fuel sfuel (Z.abs e) out ltac:(lia) Hf) as (ds & Hds & R).
      exists (chars "error " ++ ds). split; [by exists ds|exact R]. }
  exists o. split; [exact Ho|]. convert_tac H1 H2. cbn [app]. unfold va_word. rewrite bind_ret. fold k.
  assert (i32 (w32 e) = e) as -> by (unfold i32, w32; Z.div_mod_to_equations; lia).
  assert ((if e <? 0 then i32 (- e) else e) = Z.abs e) as ->.
  { destruct (Z.ltb_spec e 0); [rewrite i32_small|]; lia. }
  cbn zeta. destruct (Z.ltb_spec (Z.abs e) MAXERROR) as [Hlt|Hge].
  - rewrite (proj2 (Z.ltb_ge (Z.abs e) 0)) by lia. by rewrite (bind_ok _ _ _ _ _ R).
  - destruct (error_string (Z.abs e)) eqn:Hs.
    + pose proof (error_string_bound (Z.abs e)) as Hb. rewrite Hs in Hb. specialize (Hb ltac:(done)).
      unfold MAXERROR in Hge. lia.
    + by rewrite (bind_ok _ _ _ _ _ R).
Qed.

Lemma parts_run fuel sfuel pre its t ap out :
  Forall (good_item sfuel) its -> (length its + 10 < fuel)%nat ->
  exists os, Forall2 prints its os /\
    vprintfmt mem record fuel sfuel (pre ++ format_text its ++ 0 :: t) (length pre) (format_args its ++ ap) out =
      Ok (tt, out ++ concat os).
Proof.
  intros Hg. revert fuel pre out. induction its as [|it its IH]; intros fuel pre out Hf.
  - exists []. split; [done|]. destruct fuel as [|fuel]; [cbn in Hf; lia|]. cbn [format_text format_args map concat app].
    by rewrite app_nil_r, end_run.
  - apply Forall_cons in Hg as [Hg1 Hg]. destruct fuel as [|fuel]; [cbn in Hf; lia|].
    unfold format_text, format_args. cbn [map concat]. fold (format_text its) (format_args its). rewrite <- !app_assoc.
    destruct (any_round_run fuel sfuel pre it (format_text its ++ 0 :: t) (format_args its ++ ap) out Hg1 ltac:(cbn in Hf; lia))
      as (o & Ho & R). cbn zeta in R. rewrite R.
    destruct (IH Hg fuel (pre ++ item_text it) (out ++ o)) as (os & Hos & R2); [cbn in Hf; lia|].
    rewrite <- app_assoc in R2. exists (o :: os). split; [by constructor|]. rewrite R2. cbn [concat]. by rewrite <- app_assoc.
Qed.
End Items.

(** C38. [vprintfmt] prints the parts of a format one after the other: characters as they are,
    numbers as numerals in their base filled up to the width, after a sign that the width
    does not count; strings cut to the precision and filled up on the side that the flag
    says; errors by name.  It uses the arguments of the parts in order. *)
Theorem vprintfmt_prints_the_parts mem fuel sfuel its t :
  Forall (good_item mem sfuel) its -> (length its + 10 < fuel)%nat ->
  exists os, Forall2 prints its os /\
    vprintfmt mem record fuel sfuel (format_text its ++ 0 :: t) 0 (format_args its) [] = Ok (tt, concat os).
Proof.
  intros Hg Hf. destruct (parts_run mem fuel sfuel [] its t [] [] Hg Hf) as (os & Hos & R).
  rewrite app_nil_r in R. by exists os.
Qed.

(** "%-5s|%08lx|%d%%: %e" with "ab", 0xbeef, -7 and -3. *)
Definition small_items : list item :=
  [String (Fspec true false [53] [] false 0) (Str (literal "ab")) (chars "ab"); Char 124;
   Unsigned Hexadecimal (Fspec false true [56] [] false 1) 0xbeef; Char 124; Signed plain (-7); Percent plain;
   Char 58; Char 32; Error plain (-3)].

Lemma vprintfmt_prints_the_parts_witness :
  format_text small_items = chars "%-5s|%08lx|%d%%: %e" /\
  exists os, Forall2 prints small_items os /\
    vprintfmt (fun _ => None) record 20 21 (format_text small_items ++ [0]) 0 (format_args small_items) [] =
      Ok (tt, concat os) /\ concat os = chars "ab   |0000beef|-7%: invalid parameter".
Proof.
  split; [reflexivity|].
  destruct (vprintfmt_prints_the_parts (fun _ => None) 20 21 small_items []) as (os & Hos & R).
  - apply Forall_cons_2; [split; [by repeat constructor|]; split; [|cbn; lia]|].
    { apply (spells_literal _ (chars "ab")). by repeat constructor. }
    repeat apply Forall_cons_2; try apply Forall_nil_2; cbn; unfold signed_in, unsigned_in; cbn;
      repeat split; cbn; try done; try lia; try constructor.
  - cbn. lia.
  - exists os. split; [exact Hos|]. split; [exact R|].
    assert (vprintfmt (fun _ => None) record 20 21 (format_text small_items ++ [0]) 0 (format_args small_items) [] =
      Ok (tt, chars "ab   |0000beef|-7%: invalid parameter")) as R2 by (vm_compute; reflexivity).
    rewrite R in R2. by injection R2.
Defined.

Lemma vsnprintf_cuts_the_output_witness :
  vsnprintf (fun _ => None) 20 21 (Some (replicate 12 1)) 10 (literal "%s %05d") [Str (literal "ab"); Word (w32 (-7))] =
    Ok (9, chars "ab -00007" ++ [0; 1; 1]).
Proof. rewrite (vsnprintf_cuts_the_output (fun _ => None) 20 21 (replicate 12 1) 10); vm_compute; [reflexivity|discriminate]. Defined.

(** [cprintf] prints what the format says, and returns 0 whatever it prints. *)
Lemma vcprintf_prints mem fuel sfuel fmt ap out :
  vcprintf mem fuel sfuel fmt ap out =
    match vprintfmt mem record fuel sfuel fmt 0 ap out with
    | Ok (_, out') => Ok (0, out')
    | Panic m => Panic m
    | Fault w => Fault w
    | Diverge => Diverge
    end.
Proof.
  unfold vcprintf.
  pose proof (sim_vprintfmt mem (fun (s : list Z * Z) o => s = (o, 0)) cons_putch record) as Hs.
  assert (forall c, sim (fun (s : list Z * Z) o => s = (o, 0)) (cons_putch c) (record c)) as Hp by (by intros c [o n] ? [= -> ->]).
  specialize (Hs Hp fuel sfuel fmt 0%nat ap (out, 0) out eq_refl).
  destruct (vprintfmt mem cons_putch _ _ _ _ _ _) as [[[] [o n]]| | |], (vprintfmt mem record _ _ _ _ _ _) as [[[] out']| | |];
    cbn in Hs; try done; try congruence.
  by destruct Hs as [_ [= -> ->]].
Qed.
