(* ===== verification/JosString.v ===== *)
(** * The string functions of JOS

    [lab-1/jos/lib/string.c] over a memory of bytes, as in [CString]: an address is an index,
    an access outside the memory is a [Fault].  The loops that only a zero byte ends have
    fuel. *)

From S2P Require Import Prelude Bytes CString Printfmt.

Abbreviation Str := (M (list Z)).

(** ** Strings *)

Fixpoint strlen_loop (fuel : nat) (s : nat) (n : Z) : Str Z :=
  match fuel with
  | O => diverge
  | S fuel' => c ← load s; if c =? 0 then mret n else strlen_loop fuel' (S s) (n + 1)
  end.
Definition strlen (fuel s : nat) : Str Z := strlen_loop fuel s 0.

(** The loop copies up to the zero byte. *)
Fixpoint strcpy (fuel : nat) (dst src : nat) : Str unit :=
  match fuel with
  | O => diverge
  | S fuel' =>
      c ← load src;
      store dst c ;;
      if c =? 0 then mret tt else strcpy fuel' (S dst) (S src)
  end.

Definition strcat (fuel : nat) (dst src : nat) : Str unit :=
  len ← strlen fuel dst;
  strcpy fuel (dst + Z.to_nat len) src.

Fixpoint strncpy (dst src : nat) (size : nat) : Str unit :=
  match size with
  | O => mret tt
  | S size' =>
      c ← load src;
      store dst c ;;
      c ← load src;
      strncpy (S dst) (if c =? 0 then src else S src) size'
  end.

(** The loop of [strlcpy], for [size] more bytes: where the zero goes. *)
Fixpoint strlcpy_loop (size : nat) (dst src : nat) : Str nat :=
  match size with
  | O => mret dst
  | S size' =>
      c ← load src;
      if c =? 0 then mret dst else store dst c ;; strlcpy_loop size' (S dst) (S src)
  end.

Definition strlcpy (dst src size : nat) : Str Z :=
  match size with
  | O => mret 0
  | S size' =>
      d ← strlcpy_loop size' dst src;
      store d 0 ;;
      mret (Z.of_nat d - Z.of_nat dst)
  end.

Fixpoint strcmp (fuel : nat) (p q : nat) : Str Z :=
  match fuel with
  | O => diverge
  | S fuel' =>
      a ← load p;
      if a =? 0 then b ← load q; mret (a - b)
      else b ← load q; if a =? b then strcmp fuel' (S p) (S q) else mret (a - b)
  end.

Fixpoint strncmp (p q n : nat) : Str Z :=
  match n with
  | O => mret 0
  | S n' =>
      a ← load p;
      if a =? 0 then b ← load q; mret (a - b)
      else b ← load q; if a =? b then strncmp (S p) (S q) n' else mret (a - b)
  end.

(** [None] for a null pointer. *)
Fixpoint strchr (fuel : nat) (s : nat) (c : Z) : Str (option nat) :=
  match fuel with
  | O => diverge
  | S fuel' =>
      x ← load s;
      if x =? 0 then mret None else if x =? c then mret (Some s) else strchr fuel' (S s) c
  end.

(** ** Memory *)

Definition memset (v : nat) (c : Z) (n : nat) : Str unit :=
  match n with
  | O => mret tt
  | _ =>
      if ((v mod 4 =? 0) && (n mod 4 =? 0))%nat%bool then
        let c := Z.land c 0xFF in
        stosl v (w32 (Z.lor (Z.lor (Z.lor (Z.shiftl c 24) (Z.shiftl c 16)) (Z.shiftl c 8)) c)) (n / 4)
      else stosb v c n
  end.

(** The string instructions; with the direction flag set the addresses are those of the
    byte or the word behind the last one. *)
Definition load_word (a : nat) : Str (list Z) :=
  b0 ← load a; b1 ← load (a + 1); b2 ← load (a + 2); b3 ← load (a + 3); mret [b0; b1; b2; b3].
Fixpoint store_bytes (a : nat) (l : list Z) : Str unit :=
  match l with [] => mret tt | c :: l' => store a c ;; store_bytes (S a) l' end.

Fixpoint movsb (d s n : nat) : Str unit :=
  match n with O => mret tt | S n' => c ← load s; store d c ;; movsb (S d) (S s) n' end.
Fixpoint movsl (d s n : nat) : Str unit :=
  match n with O => mret tt | S n' => w ← load_word s; store_bytes d w ;; movsl (d + 4) (s + 4) n' end.
Fixpoint movsb_back (d s n : nat) : Str unit :=
  match n with O => mret tt | S n' => c ← load (s - 1); store (d - 1) c ;; movsb_back (d - 1) (s - 1) n' end.
Fixpoint movsl_back (d s n : nat) : Str unit :=
  match n with
  | O => mret tt
  | S n' => w ← load_word (s - 4); store_bytes (d - 4) w ;; movsl_back (d - 4) (s - 4) n'
  end.

Definition memmove (dst src n : nat) : Str unit :=
  if ((src <? dst) && (dst <? src + n))%nat%bool then
    let s := (src + n)%nat in
    let d := (dst + n)%nat in
    if ((s mod 4 =? 0) && (d mod 4 =? 0) && (n mod 4 =? 0))%nat%bool
    then movsl_back d s (n / 4) else movsb_back d s n
  else
    if ((src mod 4 =? 0) && (dst mod 4 =? 0) && (n mod 4 =? 0))%nat%bool
    then movsl dst src (n / 4) else movsb dst src n.

Definition memcpy (dst src n : nat) : Str unit := memmove dst src n.

Fixpoint memcmp (s1 s2 n : nat) : Str Z :=
  match n with
  | O => mret 0
  | S n' => a ← load s1; b ← load s2; if negb (a =? b) then mret (a - b) else memcmp (S s1) (S s2) n'
  end.

Fixpoint memfind (s : nat) (c : Z) (n : nat) : Str nat :=
  match n with
  | O => mret s
  | S n' => x ← load s; if x =? w8 c then mret s else memfind (S s) c n'
  end.

(** ** strtol *)

Fixpoint skip_blanks (fuel : nat) (s : nat) : Str nat :=
  match fuel with
  | O => diverge
  | S fuel' => c ← load s; if (c =? 32) || (c =? 9) then skip_blanks fuel' (S s) else mret s
  end.

(** The value of a character as a digit. *)
Definition digit_val (c : Z) : option Z :=
  if (48 <=? c) && (c <=? 57) then Some (c - 48)
  else if (97 <=? c) && (c <=? 122) then Some (c - 97 + 10)
  else if (65 <=? c) && (c <=? 90) then Some (c - 65 + 10)
  else None.

Fixpoint digits_val (fuel : nat) (s : nat) (base val : Z) : Str (Z * nat) :=
  match fuel with
  | O => diverge
  | S fuel' =>
      c ← load s;
      match digit_val c with
      | None => mret (val, s)
      | Some dig => if base <=? dig then mret (val, s) else digits_val fuel' (S s) base (i32 (val * base + dig))
      end
  end.

(** [strtol] from the prefix of the base on: the value, and [*endptr]. *)
Definition strtol_digits (fuel : nat) (s : nat) (base : Z) (neg : bool) : Str (Z * nat) :=
  c ← load s;
  x ← (if ((base =? 0) || (base =? 16)) && (c =? 48) then x ← load (S s); mret (x =? 120) else mret false);
  let '(s, base) :=
    if (x : bool) then (S (S s), 16)
    else if (base =? 0) && (c =? 48) then (S s, 8)
    else if base =? 0 then (s, 10)
    else (s, base) in
  '(val, s) ← digits_val fuel s base 0;
  mret (if neg then i32 (- val) else val, s).

Definition strtol (fuel : nat) (s : nat) (base : Z) : Str (Z * nat) :=
  s ← skip_blanks fuel s;
  c ← load s;
  if c =? 43 then strtol_digits fuel (S s) base false
  else if c =? 45 then strtol_digits fuel (S s) base true
  else strtol_digits fuel s base false.

(** ** readline *)

Definition BUFLEN : nat := 1024.

(** The loop of [lib/readline.c] on the characters that [getchar] returns: the error [c] or
    the length of the line, the buffer, the characters echoed and those not read; a line that
    is not ended is waited for. *)
Fixpoint readline_loop (echoing : bool) (typed : list Z) (buf : list Z) (i : nat) (echo : list Z)
    : res ((Z + nat) * list Z * list Z * list Z) :=
  match typed with
  | [] => Diverge
  | c :: typed' =>
      if c <? 0 then Ok (inl c, buf, echo, typed')
      else if ((c =? 8) || (c =? 127)) && (0 <? i)%nat then
        readline_loop echoing typed' buf (i - 1) (if echoing then echo ++ [8] else echo)
      else if (32 <=? c) && (i <? BUFLEN - 1)%nat then
        match zinsert (Z.of_nat i) (w8 c) buf with
        | Some buf => readline_loop echoing typed' buf (S i) (if echoing then echo ++ [c] else echo)
        | None => Fault "buf"
        end
      else if (c =? 10) || (c =? 13) then
        match zinsert (Z.of_nat i) 0 buf with
        | Some buf => Ok (inr i, buf, if echoing then echo ++ [10] else echo, typed')
        | None => Fault "buf"
        end
      else readline_loop echoing typed' buf i echo
  end.
Definition readline (echoing : bool) (typed : list Z) (buf : list Z) := readline_loop echoing typed buf 0 [].

(** ** runcmd of kern/monitor.c *)

Definition MONITOR_MAXARGS : nat := 16.
Definition WHITESPACE : list Z := [9; 13; 10; 32].
Definition is_white (c : Z) : bool := existsb (Z.eqb c) WHITESPACE.

(** White space is overwritten with zeros. *)
Fixpoint gobble (fuel : nat) (buf : nat) : Str nat :=
  match fuel with
  | O => diverge
  | S fuel' =>
      c ← load buf;
      if negb (c =? 0) && is_white c then store buf 0 ;; gobble fuel' (S buf) else mret buf
  end.

Fixpoint scan_past (fuel : nat) (buf : nat) : Str nat :=
  match fuel with
  | O => diverge
  | S fuel' =>
      c ← load buf;
      if negb (c =? 0) && negb (is_white c) then scan_past fuel' (S buf) else mret buf
  end.

(** The addresses of the words; [None] for too many. *)
Fixpoint split_args (fuel fuel2 : nat) (buf : nat) (argv : list nat) : Str (option (list nat)) :=
  match fuel with
  | O => diverge
  | S fuel' =>
      buf ← gobble fuel2 buf;
      c ← load buf;
      if c =? 0 then mret (Some argv)
      else if (length argv =? MONITOR_MAXARGS - 1)%nat then mret None
      else
        let argv := argv ++ [buf] in
        buf ← scan_past fuel2 buf;
        split_args fuel' fuel2 buf argv
  end.

(** What [runcmd] does with a line: nothing, one of its two messages, or the command of
    this number with its arguments. *)
Inductive command := Nothing | TooMany | Unknown (name : nat) | Invoke (n : nat) (argv : list nat).

(** The name at [p] against the literal [name]. *)
Fixpoint is_name (p : nat) (name : list Z) : Str bool :=
  c ← load p;
  match name with
  | [] => mret (c =? 0)
  | x :: name' => if c =? x then is_name (S p) name' else mret false
  end.

Fixpoint lookup_command (names : list (list Z)) (k p : nat) : Str (option nat) :=
  match names with
  | [] => mret None
  | name :: names' => b ← is_name p name; if (b : bool) then mret (Some k) else lookup_command names' (S k) p
  end.

Definition runcmd (fuel : nat) (names : list (list Z)) (buf : nat) : Str command :=
  r ← split_args fuel fuel buf [];
  match r with
  | None => mret TooMany
  | Some [] => mret Nothing
  | Some (p :: argv) =>
      k ← lookup_command names 0 p;
      mret (match k with Some k => Invoke k (p :: argv) | None => Unknown p end)
  end.

Definition commands : list (list Z) :=
  [chars "help"; chars "kerninfo"; chars "backtrace"; chars "showmappings"; chars "setperm"; chars "dump"].
