(* ===== verification/JosStringProps.v ===== *)
(** * Properties of the string functions of JOS

    [strtol] on numerals, the line editor [readline], and how [runcmd] of the monitor splits
    a line. *)

From S2P Require Import Prelude Bytes CString Printfmt PrintfmtProps JosString.

Lemma load_run m a c : m !! a = Some c -> load a m = Ok (c, m).
Proof. intros Hc. unfold load. mrun. by rewrite Hc. Qed.

Lemma load_drop m a c t : drop a m = c :: t -> load a m = Ok (c, m).
Proof. intros Hd. apply load_run. by rewrite <- (Nat.add_0_r a), <- lookup_drop, Hd. Qed.

Lemma load_here pre c post : load (length pre) (pre ++ c :: post) = Ok (c, pre ++ c :: post).
Proof. apply load_run. by apply list_lookup_middle. Qed.

Lemma store_here pre c v post : 0 <= v < 256 -> CString.store (length pre) v (pre ++ c :: post) = Ok (tt, pre ++ v :: post).
Proof.
  intros Hv. unfold CString.store. rewrite bind_get, length_app. cbn [length].
  rewrite (proj2 (Nat.ltb_lt _ _)) by lia. unfold put. do 2 f_equal.
  rewrite <- (Nat.add_0_r (length pre)), insert_app_r. cbn. unfold w8. by rewrite Z.mod_small.
Qed.

(** ** The words of a line *)

(** The longest runs without white space; [cur] is the run so far. *)
Fixpoint words_from (cur l : list Z) : list (list Z) :=
  match l with
  | [] => match cur with [] => [] | _ => [cur] end
  | c :: l' =>
      if is_white c then match cur with [] => words_from [] l' | _ => cur :: words_from [] l' end
      else words_from (cur ++ [c]) l'
  end.
Definition words (l : list Z) : list (list Z) := words_from [] l.

(** Where they begin, from the offset [off] on. *)
Fixpoint starts (off : nat) (inside : bool) (l : list Z) : list nat :=
  match l with
  | [] => []
  | c :: l' =>
      if is_white c then starts (S off) false l'
      else if inside then starts (S off) true l' else off :: starts (S off) true l'
  end.

(** The line with zeros for its white space. *)
Definition blanked (l : list Z) : list Z := map (fun c => if is_white c then 0 else c) l.

Lemma is_white_zero c : is_white c = true -> c <> 0.
Proof. unfold is_white. cbn. intros H ->. done. Qed.

Lemma words_run cur u r : Forall (fun c => is_white c = false) u -> cur ++ u <> [] ->
  match r with [] => True | c :: _ => is_white c = true end -> words_from cur (u ++ r) = (cur ++ u) :: words r.
Proof.
  revert cur. induction u as [|c u IH]; intros cur Hu Hne Hr.
  - rewrite app_nil_r in *. cbn [app]. unfold words. destruct r as [|c r]; cbn [words_from]; [by destruct cur|].
    rewrite Hr. by destruct cur.
  - apply Forall_cons in Hu as [Hc Hu]. cbn [app words_from]. rewrite Hc, IH; [by rewrite <- app_assoc|done| |done].
    by destruct cur.
Qed.

Lemma starts_run off u r : Forall (fun c => is_white c = false) u ->
  match r with [] => True | c :: _ => is_white c = true end ->
  starts off true (u ++ r) = starts (off + length u) false r.
Proof.
  revert off. induction u as [|c u IH]; intros off Hu Hr.
  - rewrite Nat.add_0_r. cbn [app]. destruct r as [|c r]; [done|]. cbn [starts]. by rewrite Hr.
  - apply Forall_cons in Hu as [Hc Hu]. cbn [app starts length]. rewrite Hc, IH by done. f_equal. lia.
Qed.

Lemma white_skipped w l off : Forall (fun c => is_white c = true) w ->
  words (w ++ l) = words l /\ starts off false (w ++ l) = starts (off + length w) false l.
Proof.
  revert off. induction w as [|c w IH]; intros off Hw; [by rewrite Nat.add_0_r|].
  apply Forall_cons in Hw as [Hc Hw]. destruct (IH (S off) Hw) as [H1 H2]. unfold words in *. cbn [app words_from starts length].
  rewrite Hc. split; [exact H1|]. rewrite H2. f_equal. lia.
Qed.

(** A line is white space, or begins, after it, with a word. *)
Lemma split_white P l : exists w r, l = w ++ r /\ Forall (fun c => is_white c = P) w /\
  match r with [] => True | c :: _ => is_white c = negb P end.
Proof.
  induction l as [|c l (w & r & -> & Hw & Hr)]; [by exists [], []|].
  destruct (is_white c) eqn:Hc; destruct P.
  - exists (c :: w), r. split; [done|]. split; [by constructor|done].
  - exists [], (c :: w ++ r). split; [done|]. split; [constructor|done].
  - exists [], (c :: w ++ r). split; [done|]. split; [constructor|done].
  - exists (c :: w), r. split; [done|]. split; [by constructor|done].
Qed.

(** ** The scanners of runcmd *)

Lemma gobble_run fuel pre w r post : Forall (fun c => is_white c = true) w ->
  match r with [] => True | c :: _ => is_white c = false end -> (length w < fuel)%nat ->
  gobble fuel (length pre) (pre ++ w ++ r ++ 0 :: post) =
    Ok ((length pre + length w)%nat, pre ++ replicate (length w) 0 ++ r ++ 0 :: post).
Proof.
  revert fuel pre. induction w as [|c w IH]; intros fuel pre Hw Hr Hf; (destruct fuel as [|fuel]; [cbn in Hf; lia|]); cbn [gobble].
  - cbn [app replicate length]. rewrite Nat.add_0_r.
    assert (exists c m, r ++ 0 :: post = c :: m /\ (negb (c =? 0) && is_white c) = false) as (c & m & -> & Hc).
    { destruct r as [|c r]; [by exists 0, post|]. exists c, (r ++ 0 :: post). split; [done|]. by rewrite Hr, andb_false_r. }
    by rewrite (bind_ok _ _ _ _ _ (load_here _ _ _)), Hc.
  - apply Forall_cons in Hw as [Hc Hw]. cbn [app]. rewrite (bind_ok _ _ _ _ _ (load_here _ _ _)), Hc.
    rewrite (proj2 (Z.eqb_neq _ _) (is_white_zero _ Hc)). cbn [negb andb].
    rewrite (bind_ok _ _ _ _ _ (store_here pre c 0 _ ltac:(lia))).
    specialize (IH fuel (pre ++ [0]) Hw Hr ltac:(cbn in Hf; lia)). rewrite length_app, <- !app_assoc in IH. cbn [length app] in *.
    rewrite Nat.add_1_r in IH. rewrite IH. cbn [replicate app]. do 2 f_equal. lia.
Qed.

Lemma scan_past_run fuel pre u r post : Forall (fun c => is_white c = false) u -> Forall (fun c => c <> 0) u ->
  match r with [] => True | c :: _ => is_white c = true end -> (length u < fuel)%nat ->
  scan_past fuel (length pre) (pre ++ u ++ r ++ 0 :: post) =
    Ok ((length pre + length u)%nat, pre ++ u ++ r ++ 0 :: post).
Proof.
  revert fuel pre. induction u as [|c u IH]; intros fuel pre Hu Hz Hr Hf; (destruct fuel as [|fuel]; [cbn in Hf; lia|]); cbn [scan_past].
  - cbn [app length]. rewrite Nat.add_0_r.
    assert (exists c m, r ++ 0 :: post = c :: m /\ (negb (c =? 0) && negb (is_white c)) = false) as (c & m & -> & Hc).
    { destruct r as [|c r]; [by exists 0, post|]. exists c, (r ++ 0 :: post). split; [done|]. by rewrite Hr, andb_false_r. }
    by rewrite (bind_ok _ _ _ _ _ (load_here _ _ _)), Hc.
  - apply Forall_cons in Hu as [Hc Hu], Hz as [Hz0 Hz]. cbn [app]. rewrite (bind_ok _ _ _ _ _ (load_here _ _ _)), Hc.
    rewrite (proj2 (Z.eqb_neq _ _) Hz0). cbn [negb andb].
    specialize (IH fuel (pre ++ [c]) Hu Hz Hr ltac:(cbn in Hf; lia)). rewrite length_app, <- !app_assoc in IH. cbn [length app] in *.
    rewrite Nat.add_1_r in IH. rewrite IH. do 2 f_equal. lia.
Qed.

Lemma blanked_white w : Forall (fun c => is_white c = true) w -> blanked w = replicate (length w) 0.
Proof. induction 1 as [|c w Hc _ IH]; [done|]. unfold blanked in *. cbn [map length replicate]. by rewrite Hc, IH. Qed.
Lemma blanked_black u : Forall (fun c => is_white c = false) u -> blanked u = u.
Proof. induction 1 as [|c u Hc _ IH]; [done|]. unfold blanked in *. cbn [map]. by rewrite Hc, IH. Qed.
Lemma blanked_app a b : blanked (a ++ b) = blanked a ++ blanked b.
Proof. apply map_app. Qed.

Lemma split_args_run fuel fuel2 pre l post argv :
  Forall (fun c => c <> 0) l -> (length l < fuel)%nat -> (length l < fuel2)%nat -> (length argv <= 15)%nat ->
  exists m', split_args fuel fuel2 (length pre) argv (pre ++ l ++ 0 :: post) =
      Ok (if (length argv + length (words l) <=? 15)%nat then Some (argv ++ starts (length pre) false l) else None, m') /\
    ((length argv + length (words l) <= 15)%nat -> m' = pre ++ blanked l ++ 0 :: post).
Proof.
  revert fuel pre l argv. induction fuel as [|fuel IH]; intros pre l argv Hl Hf Hf2 Ha; [lia|]. cbn [split_args].
  destruct (split_white true l) as (w & r & -> & Hw & Hr). rewrite length_app in *. apply Forall_app in Hl as [_ Hz].
  rewrite <- app_assoc, (bind_ok _ _ _ _ _ (gobble_run fuel2 pre w r post Hw Hr ltac:(lia))).
  destruct (white_skipped w r (length pre) Hw) as [Hwords Hstarts]. rewrite Hwords, Hstarts, blanked_app, blanked_white by done.
  set (pre1 := pre ++ replicate (length w) 0). assert (length pre1 = (length pre + length w)%nat) as Hl1.
  { unfold pre1. by rewrite length_app, length_replicate. }
  rewrite app_assoc. fold pre1. rewrite <- Hl1. destruct r as [|c r].
  - cbn [app]. rewrite (bind_ok _ _ _ _ _ (load_here _ _ _)). cbn [words words_from starts]. rewrite app_nil_r.
    exists (pre1 ++ 0 :: post). rewrite Nat.add_0_r, (proj2 (Nat.leb_le _ _) Ha). split; [done|]. intros _.
    unfold pre1. cbn. by rewrite app_nil_r, <- app_assoc.
  - cbn [app]. rewrite (bind_ok _ _ _ _ _ (load_here _ _ _)). apply Forall_cons in Hz as [Hc Hz].
    rewrite (proj2 (Z.eqb_neq _ _) Hc).
    destruct (split_white false r) as (u & r' & -> & Hu & Hr'). cbn [negb] in *. apply Forall_app in Hz as [Hzu Hzr].
    assert (words (c :: u ++ r') = (c :: u) :: words r') as Hwd.
    { apply (words_run [] (c :: u) r'); [by constructor|done|done]. }
    rewrite Hwd. cbn [length]. change (MONITOR_MAXARGS - 1)%nat with 15%nat.
    destruct (Nat.eqb_spec (length argv) 15) as [He|He].
    { rewrite (proj2 (Nat.leb_gt _ _)) by lia. eexists. split; [reflexivity|lia]. }
    change (pre1 ++ c :: (u ++ r') ++ 0 :: post) with (pre1 ++ (c :: u ++ r') ++ 0 :: post).
    change (c :: u ++ r') with ((c :: u) ++ r'). rewrite <- app_assoc.
    rewrite (bind_ok _ _ _ _ _ (scan_past_run fuel2 pre1 (c :: u) r' post ltac:(by constructor) ltac:(by constructor) Hr'
      ltac:(cbn in *; rewrite length_app in Hf2; lia))).
    cbn [length] in *. rewrite length_app in *.
    destruct (IH (pre1 ++ c :: u) r' (argv ++ [length pre1]) Hzr) as (m' & R & Hm); [lia|lia|rewrite length_app; cbn; lia|].
    rewrite !length_app in R. cbn [length] in R. rewrite <- !app_assoc in R.
    exists m'. rewrite length_app in Hm. cbn [length] in Hm.
    replace (length argv + S (length (words r')))%nat with (length argv + 1 + length (words r'))%nat by lia.
    split.
    + assert (starts (length pre1) false ((c :: u) ++ r') = length pre1 :: starts (length pre1 + S (length u)) false r') as ->.
      { cbn [app starts]. rewrite Hr. f_equal. rewrite (starts_run (S (length pre1)) u r' Hu Hr'). f_equal. lia. }
      exact R.
    + intros Hle. rewrite (Hm Hle). change (c :: u ++ r') with ((c :: u) ++ r').
      rewrite blanked_app, (blanked_black (c :: u)) by (by constructor).
      unfold pre1. by rewrite <- !app_assoc.
Qed.

(** A string in the memory. *)
Definition string_in (m : list Z) (a : nat) (str : list Z) : Prop :=
  Forall (fun c => c <> 0) str /\ exists rest, drop a m = str ++ 0 :: rest.

Lemma starts_words n pre l post : (length l <= n)%nat -> Forall (fun c => c <> 0) l ->
  Forall2 (string_in (pre ++ blanked l ++ 0 :: post)) (starts (length pre) false l) (words l).
Proof.
  revert pre l. induction n as [|n IH]; intros pre l Hn Hl.
  { destruct l; [constructor|cbn in Hn; lia]. }
  destruct (split_white true l) as (w & r & -> & Hw & Hr). rewrite length_app in Hn. apply Forall_app in Hl as [_ Hz].
  destruct (white_skipped w r (length pre) Hw) as [-> ->]. rewrite blanked_app, blanked_white by done.
  set (pre1 := pre ++ replicate (length w) 0).
  replace (pre ++ (replicate (length w) 0 ++ blanked r) ++ 0 :: post) with (pre1 ++ blanked r ++ 0 :: post)
    by (unfold pre1; by rewrite <- !app_assoc).
  replace (length pre + length w)%nat with (length pre1) by (unfold pre1; by rewrite length_app, length_replicate).
  destruct r as [|c r]; [constructor|]. destruct (split_white false r) as (u & r' & -> & Hu & Hr'). cbn [negb] in *.
  apply Forall_cons in Hz as [Hc Hz]. apply Forall_app in Hz as [Hzu Hzr].
  assert (words (c :: u ++ r') = (c :: u) :: words r') as ->.
  { apply (words_run [] (c :: u) r'); [by constructor|done|done]. }
  cbn [starts]. rewrite Hr, (starts_run (S (length pre1)) u r' Hu Hr').
  change (c :: u ++ r') with ((c :: u) ++ r'). rewrite blanked_app, (blanked_black (c :: u)) by (by constructor).
  constructor.
  - split; [by constructor|]. rewrite drop_app_length. destruct r' as [|x r'].
    { exists post. unfold blanked. cbn [map]. by rewrite app_nil_r. }
    exists (blanked r' ++ 0 :: post). unfold blanked. cbn [map]. by rewrite Hr', <- app_assoc.
  - specialize (IH (pre1 ++ c :: u) r' ltac:(cbn in Hn; rewrite length_app in Hn; lia) Hzr).
    rewrite length_app, <- !app_assoc in IH. cbn [length] in IH. rewrite <- app_assoc.
    by replace (S (length pre1) + length u)%nat with (length pre1 + S (length u))%nat by lia.
Qed.

Lemma is_name_run m a str name : string_in m a str -> Forall (fun c => c <> 0) name ->
  is_name a name m = Ok (bool_decide (str = name), m).
Proof.
  revert a str. induction name as [|x name IH]; intros a str [Hs [rest Hd]] Hn.
  - cbn [is_name]. destruct str as [|c str]; cbn [app] in Hd;
      rewrite (bind_ok _ _ _ _ _ (load_drop _ _ _ _ Hd)).
    + done.
    + apply Forall_cons in Hs as [Hc _]. by rewrite (proj2 (Z.eqb_neq _ _) Hc).
  - apply Forall_cons in Hn as [Hx Hn]. cbn [is_name]. destruct str as [|c str]; cbn [app] in Hd;
      rewrite (bind_ok _ _ _ _ _ (load_drop _ _ _ _ Hd)).
    + rewrite (proj2 (Z.eqb_neq 0 x)) by done. done.
    + apply Forall_cons in Hs as [Hc Hs]. destruct (Z.eqb_spec c x) as [->|Hne].
      * rewrite (IH (S a) str); [| |done].
        -- do 2 f_equal. apply bool_decide_ext. split; [by intros ->|by intros [= ->]].
        -- split; [done|]. exists rest. replace (S a) with (a + 1)%nat by lia. by rewrite <- drop_drop, Hd.
      * rewrite bool_decide_false; [done|]. by intros [= ->].
Qed.

Lemma lookup_command_run names k a m str : string_in m a str -> Forall (Forall (fun c => c <> 0)) names ->
  lookup_command names k a m = Ok (match list_find (eq str) names with Some (i, _) => Some (k + i)%nat | None => None end, m).
Proof.
  intros Hs. revert k. induction names as [|name names IH]; intros k Hn; [done|]. apply Forall_cons in Hn as [Hn1 Hn].
  cbn [lookup_command list_find]. rewrite (bind_ok _ _ _ _ _ (is_name_run m a str name Hs Hn1)).
  destruct (decide (str = name)) as [->|Hne].
  - rewrite bool_decide_true by done. cbn. by rewrite Nat.add_0_r.
  - rewrite bool_decide_false, IH by done. destruct (list_find (eq str) names) as [[i x]|]; [|done]. cbn.
    by rewrite Nat.add_succ_r.
Qed.

(** C40. [runcmd] splits a line at its white space, whatever there is of it: the arguments are
    the words of the line, ended in the buffer, and nothing else is changed; the command is
    the first one with the name of the first word.  With sixteen words it does nothing but
    say so. *)
Theorem runcmd_splits_the_line fuel names pre l post :
  Forall (fun c => c <> 0) l -> Forall (Forall (fun c => c <> 0)) names -> (length l < fuel)%nat ->
  exists r m', runcmd fuel names (length pre) (pre ++ l ++ 0 :: post) = Ok (r, m') /\
    if (length (words l) <=? 15)%nat then
      m' = pre ++ blanked l ++ 0 :: post /\
      exists argv, Forall2 (string_in m') argv (words l) /\
        r = match words l, argv with
            | w :: _, a :: _ => match list_find (eq w) names with Some (k, _) => Invoke k argv | None => Unknown a end
            | _, _ => Nothing
            end
    else r = TooMany.
Proof.
  intros Hl Hn Hf. unfold runcmd. destruct (split_args_run fuel fuel pre l post [] Hl Hf Hf ltac:(cbn; lia)) as (m' & R & Hm).
  rewrite (bind_ok _ _ _ _ _ R). cbn [length Nat.add app] in *.
  destruct (Nat.leb_spec (length (words l)) 15) as [Hle|Hgt]; [|by exists TooMany, m'].
  pose proof (starts_words (length l) pre l post ltac:(lia) Hl) as Hst. rewrite <- (Hm Hle) in Hst.
  specialize (Hm Hle). destruct (starts (length pre) false l) as [|a argv], (words l) as [|w ws]; [|by inversion Hst..|].
  - exists Nothing, m'. split; [done|]. split; [done|]. by exists [].
  - pose proof Hst as [Hw _]%Forall2_cons. rewrite (bind_ok _ _ _ _ _ (lookup_command_run names 0 a m' w Hw Hn)).
    eexists _, m'. split; [reflexivity|]. split; [done|]. exists (a :: argv). split; [done|].
    by destruct (list_find (eq w) names) as [[i x]|].
Qed.

Lemma runcmd_splits_the_line_witness :
  exists r m', runcmd 40 commands 2 ([1; 2] ++ chars " setperm  0xf0000000 4 " ++ 0 :: [7]) = Ok (r, m') /\
    r = Invoke 4 [3; 12; 23]%nat /\ m' = [1; 2] ++ blanked (chars " setperm  0xf0000000 4 ") ++ 0 :: [7].
Proof.
  destruct (runcmd_splits_the_line 40 commands [1; 2] (chars " setperm  0xf0000000 4 ") [7]) as (r & m' & R & H).
  - by repeat constructor.
  - by repeat constructor.
  - vm_compute. lia.
  - exists r, m'. split; [exact R|]. destruct H as [Hm _]. split; [|exact Hm].
    assert (runcmd 40 commands 2 ([1; 2] ++ chars " setperm  0xf0000000 4 " ++ 0 :: [7]) =
      Ok (Invoke 4 [3; 12; 23]%nat, m')) as R2 by (rewrite Hm; vm_compute; reflexivity).
    cbn [length] in R. rewrite R in R2. by injection R2.
Defined.

(** ** strtol *)

(** What [strtol] takes as a base with a prefix. *)
Inductive prefixed : Z -> list Z -> Z -> Z -> Prop :=
  | plain_base b n : 2 <= b <= 16 -> prefixed b [] b n
  | hex_base n : prefixed 16 [48; 120] 16 n
  | any_hex n : prefixed 0 [48; 120] 16 n
  | any_octal n : prefixed 0 [48] 8 n
  | any_decimal n : n <> 0 -> prefixed 0 [] 10 n.

Lemma skip_blanks_run fuel pre bl c post : Forall (fun c => c = 32 \/ c = 9) bl -> c <> 32 -> c <> 9 -> (length bl < fuel)%nat ->
  skip_blanks fuel (length pre) (pre ++ bl ++ c :: post) = Ok ((length pre + length bl)%nat, pre ++ bl ++ c :: post).
Proof.
  revert fuel pre. induction bl as [|x bl IH]; intros fuel pre Hb H1 H2 Hf; (destruct fuel as [|fuel]; [cbn in Hf; lia|]); cbn [skip_blanks].
  - cbn [app length]. rewrite Nat.add_0_r, (bind_ok _ _ _ _ _ (load_here _ _ _)).
    by rewrite (proj2 (Z.eqb_neq _ _) H1), (proj2 (Z.eqb_neq _ _) H2).
  - apply Forall_cons in Hb as [Hx Hb]. cbn [app]. rewrite (bind_ok _ _ _ _ _ (load_here _ _ _)).
    assert ((x =? 32) || (x =? 9) = true) as -> by (destruct Hx as [->| ->]; done).
    specialize (IH fuel (pre ++ [x]) Hb H1 H2 ltac:(cbn in Hf; lia)). rewrite length_app, <- !app_assoc in IH. cbn [length app] in *.
    rewrite Nat.add_1_r in IH. rewrite IH. do 2 f_equal. lia.
Qed.

Lemma digit_val_of base d : 2 <= base <= 16 -> (48 <= d <= 57 \/ 97 <= d <= 102) -> 0 <= digit_of d < base ->
  digit_val d = Some (digit_of d).
Proof.
  intros Hb Hd Hv. unfold digit_val, digit_of in *. destruct (Z.ltb_spec d 58).
  - rewrite (proj2 (Z.leb_le 48 d)), (proj2 (Z.leb_le d 57)) by lia. done.
  - rewrite (proj2 (Z.leb_gt d 57)), andb_false_r by lia.
    rewrite (proj2 (Z.leb_le 97 d)), (proj2 (Z.leb_le d 122)) by lia. cbn. f_equal. lia.
Qed.

Definition ends_number (base c : Z) : Prop := match digit_val c with None => True | Some d => base <= d end.

Lemma value_mono base ds v : 2 <= base -> Forall (fun d => 0 <= digit_of d) ds -> 0 <= v ->
  v <= foldl (fun v d => v * base + digit_of d) v ds.
Proof.
  intros Hb. revert v. induction ds as [|d ds IH]; intros v Hd Hv; [done|]. apply Forall_cons in Hd as [Hd1 Hd]. cbn.
  etransitivity; [|apply IH; [done|]]; nia.
Qed.

Lemma digits_val_run fuel pre ds c post base val : 2 <= base <= 16 ->
  Forall (fun d => (48 <= d <= 57 \/ 97 <= d <= 102) /\ 0 <= digit_of d < base) ds -> ends_number base c -> 0 <= val ->
  foldl (fun v d => v * base + digit_of d) val ds < 2 ^ 31 -> (length ds < fuel)%nat ->
  digits_val fuel (length pre) base val (pre ++ ds ++ c :: post) =
    Ok ((foldl (fun v d => v * base + digit_of d) val ds, (length pre + length ds)%nat), pre ++ ds ++ c :: post).
Proof.
  intros Hb. revert fuel pre val. induction ds as [|d ds IH]; intros fuel pre val Hd Hc Hv Hlt Hf;
    (destruct fuel as [|fuel]; [cbn in Hf; lia|]); cbn [digits_val].
  - cbn [app length foldl]. rewrite Nat.add_0_r, (bind_ok _ _ _ _ _ (load_here _ _ _)). unfold ends_number in Hc.
    destruct (digit_val c) as [x|]; [|done]. by rewrite (proj2 (Z.leb_le _ _) Hc).
  - apply Forall_cons in Hd as [[Hd1 Hd2] Hd]. cbn [app foldl] in *. rewrite (bind_ok _ _ _ _ _ (load_here _ _ _)).
    rewrite (digit_val_of base d Hb Hd1 Hd2), (proj2 (Z.leb_gt _ _)) by lia.
    pose proof (value_mono base ds (val * base + digit_of d) ltac:(lia)) as Hm.
    rewrite i32_small; last first.
    { assert (0 <= val * base + digit_of d) by nia. split; [lia|]. eapply Z.le_lt_trans; [apply Hm|exact Hlt]; [|done].
      eapply Forall_impl; [exact Hd|]. cbn. tauto. }
    specialize (IH fuel (pre ++ [d]) (val * base + digit_of d) Hd Hc ltac:(nia) Hlt ltac:(cbn in Hf; lia)).
    rewrite length_app, <- !app_assoc in IH. cbn [length app] in *.
    rewrite Nat.add_1_r in IH. rewrite IH. do 2 f_equal. f_equal. lia.
Qed.

Lemma strtol_digits_run fuel pre prefix ds c post base0 base n neg :
  2 <= base <= 16 -> prefixed base0 prefix base n -> numeral base n ds -> n < 2 ^ 31 -> ends_number base c -> c <> 120 ->
  (length ds < fuel)%nat ->
  strtol_digits fuel (length pre) base0 neg (pre ++ prefix ++ ds ++ c :: post) =
    Ok ((if neg then - n else n, (length pre + length prefix + length ds)%nat), pre ++ prefix ++ ds ++ c :: post).
Proof.
  intros Hb Hp [Hne Hval Hds Hzero] Hn Hc Hcx Hf.
  assert (0 <= n) as Hn0.
  { rewrite <- Hval. apply value_mono; [lia| |done]. eapply Forall_impl; [exact Hds|]. cbn. tauto. }
  assert (digits_val fuel (length (pre ++ prefix)) base 0 (pre ++ prefix ++ ds ++ c :: post) =
    Ok ((n, (length pre + length prefix + length ds)%nat), pre ++ prefix ++ ds ++ c :: post)) as Rd.
  { pose proof (digits_val_run fuel (pre ++ prefix) ds c post base 0 Hb Hds Hc ltac:(lia) ltac:(by rewrite Hval) Hf) as R.
    rewrite Hval, length_app, <- app_assoc in R. by rewrite length_app. }
  assert ((if neg then i32 (- n) else n) = (if neg then - n else n)) as Hneg.
  { destruct neg; [|done]. apply i32_small. lia. }
  destruct ds as [|d ds]; [done|]. pose proof Hds as [[Hd1 Hd2] _]%Forall_cons.
  assert (d <> 120) as Hd120 by lia.
  assert (d = 48 -> exists y m, ds ++ c :: post = y :: m /\ y <> 120) as Hd48.
  { intros ->. specialize (Hzero eq_refl). injection Hzero as ->. by exists c, post. }
  assert (forall y m, load (S (length pre)) (pre ++ 48 :: y :: m) = Ok (y, pre ++ 48 :: y :: m)) as Lnext.
  { intros y m. pose proof (load_here (pre ++ [48]) y m) as L. rewrite length_app, <- app_assoc in L.
    by rewrite Nat.add_1_r in L. }
  unfold strtol_digits. inversion Hp; subst; cbn [app length] in *; rewrite ?app_nil_r, ?length_app in *; cbn [length] in *;
    rewrite (bind_ok _ _ _ _ _ (load_here _ _ _)); cbn [Z.eqb Pos.eqb orb andb].
  - (* a base, no prefix *)
    rewrite (proj2 (Z.eqb_neq base 0)) by lia. cbn [orb andb].
    assert (exists b, (if (base =? 16) && (d =? 48) then x ← load (S (length pre)); mret (x =? 120) else mret false)
      (pre ++ d :: ds ++ c :: post) = Ok (b, pre ++ d :: ds ++ c :: post) /\ b = false) as (b & R & ->).
    { destruct (Z.eqb_spec base 16), (Z.eqb_spec d 48); cbn [andb]; try (by eexists).
      subst d. destruct (Hd48 eq_refl) as (y & m & -> & Hy).
      rewrite (bind_ok _ _ _ _ _ (Lnext y m)). eexists. split; [reflexivity|]. by apply Z.eqb_neq. }
    by rewrite (bind_ok _ _ _ _ _ R), (bind_ok _ _ _ _ _ Rd), Hneg.
  - rewrite bind_bind, (bind_ok _ _ _ _ _ (Lnext 120 _)), bind_ret. cbn [Z.eqb Pos.eqb].
    replace (S (S (length pre))) with (length pre + 2)%nat by lia. by rewrite (bind_ok _ _ _ _ _ Rd), Hneg.
  - rewrite bind_bind, (bind_ok _ _ _ _ _ (Lnext 120 _)), bind_ret. cbn [Z.eqb Pos.eqb].
    replace (S (S (length pre))) with (length pre + 2)%nat by lia. by rewrite (bind_ok _ _ _ _ _ Rd), Hneg.
  - rewrite bind_bind, (bind_ok _ _ _ _ _ (Lnext d _)), bind_ret, (proj2 (Z.eqb_neq _ _) Hd120). cbn [Z.eqb Pos.eqb andb].
    replace (S (length pre)) with (length pre + 1)%nat by lia. by rewrite (bind_ok _ _ _ _ _ Rd), Hneg.
  - assert (d <> 48) as Hd48'. { intros ->. specialize (Hzero eq_refl). injection Hzero as ->. cbn in Hn0. done. }
    rewrite (proj2 (Z.eqb_neq _ _) Hd48'). cbn [andb]. by rewrite bind_ret, (bind_ok _ _ _ _ _ Rd), Hneg.
Qed.

(** [strtol] reads back a numeral, with the blanks, the sign and the prefix that its base
    allows in front of it, and stops behind it. *)
Theorem strtol_reads_a_numeral fuel pre blanks sign prefix ds c post base0 base n :
  Forall (fun c => c = 32 \/ c = 9) blanks -> sign = [] \/ sign = [43] \/ sign = [45] ->
  2 <= base <= 16 -> prefixed base0 prefix base n -> numeral base n ds -> n < 2 ^ 31 -> ends_number base c -> c <> 120 ->
  (length blanks + length ds < fuel)%nat ->
  strtol fuel (length pre) base0 (pre ++ blanks ++ sign ++ prefix ++ ds ++ c :: post) =
    Ok ((if bool_decide (sign = [45]) then - n else n, (length pre + length (blanks ++ sign ++ prefix ++ ds))%nat),
      pre ++ blanks ++ sign ++ prefix ++ ds ++ c :: post).
Proof.
  intros Hbl Hsign Hb Hp Hn Hlt Hc Hcx Hf.
  assert (exists y m, prefix ++ ds ++ c :: post = y :: m /\ 48 <= y) as (y & m & Hy & Hy48).
  { destruct Hn as [Hne _ Hds _]. destruct ds as [|d ds]; [done|]. apply Forall_cons in Hds as [[Hd _] _].
    inversion Hp; subst; by eexists _, _; (split; [reflexivity|lia]). }
  pose proof (strtol_digits_run fuel (pre ++ blanks ++ sign) prefix ds c post base0 base n (bool_decide (sign = [45]))
    Hb Hp Hn Hlt Hc Hcx ltac:(lia)) as R.
  rewrite <- !app_assoc in R.
  replace (length pre + length (blanks ++ sign ++ prefix ++ ds))%nat with
    (length (pre ++ blanks ++ sign) + length prefix + length ds)%nat by (rewrite !length_app; lia).
  rewrite <- R, Hy. clear R. unfold strtol.
  assert (forall z t, z <> 32 -> z <> 9 -> skip_blanks fuel (length pre) (pre ++ blanks ++ z :: t) =
    Ok ((length pre + length blanks)%nat, pre ++ blanks ++ z :: t)) as Rs by (intros; apply skip_blanks_run; done || lia).
  assert (forall z t, load (length pre + length blanks) (pre ++ blanks ++ z :: t) = Ok (z, pre ++ blanks ++ z :: t)) as Rl.
  { intros z t. rewrite app_assoc, <- length_app. apply load_here. }
  destruct Hsign as [->|[->| ->]]; cbn [app].
  - rewrite (bind_ok _ _ _ _ _ (Rs y m ltac:(lia) ltac:(lia))), (bind_ok _ _ _ _ _ (Rl y m)).
    rewrite (proj2 (Z.eqb_neq y 43)), (proj2 (Z.eqb_neq y 45)) by lia. rewrite app_nil_r, length_app. done.
  - rewrite (bind_ok _ _ _ _ _ (Rs 43 (y :: m) ltac:(lia) ltac:(lia))), (bind_ok _ _ _ _ _ (Rl 43 (y :: m))).
    rewrite !length_app, Nat.add_assoc, Nat.add_1_r. done.
  - rewrite (bind_ok _ _ _ _ _ (Rs 45 (y :: m) ltac:(lia) ltac:(lia))), (bind_ok _ _ _ _ _ (Rl 45 (y :: m))).
    rewrite !length_app, Nat.add_assoc, Nat.add_1_r. done.
Qed.

Lemma strtol_reads_a_numeral_witness :
  strtol 10 0 0 (chars "  -0x1f;") = Ok ((-31, 7%nat), chars "  -0x1f;").
Proof.
  apply (strtol_reads_a_numeral 10 [] (chars "  ") [45] (chars "0x") (chars "1f") 59 [] 0 16 31).
  - repeat constructor; by left.
  - by right; right.
  - lia.
  - apply any_hex.
  - split; [done|reflexivity| |done].
    change (chars "1f") with [49; 102]. apply Forall_cons_2; [|apply Forall_cons_2; [|constructor]];
      (split; [lia|vm_compute; split; [discriminate|reflexivity]]).
  - lia.
  - exact I.
  - done.
  - vm_compute. lia.
Defined.
