(* ===== verification/Monitor.v ===== *)
(** * The monitor of JOS

    [lab-3/kern/monitor.c]: the commands over the memory management of [Pmap], the line
    being read and the characters printed.  The command line itself is in [JosString]. *)

From S2P Require Import Prelude Layout Bytes CString Pmap PmapSpec Kdebug Printfmt PrintfmtProps JosString.

(** What the linker and the processor give: the address of the line buffer, the symbols of
    the image, the symbol table, and the base pointer of [mon_backtrace]. *)
Class Image := {
  buf_addr : Z;
  img_start : Z; img_entry : Z; img_etext : Z; img_edata : Z; img_end : Z;
  img_stabs : list stab;
  img_stabstr : list Z;
  read_ebp : Z
}.

Record mon := Mon { mon_vm : jos; mon_line : list Z; mon_out : list Z }.

Abbreviation Mm := (M mon).

(** The characters of a string literal, with the escapes for tabs and newlines. *)
Fixpoint unescape (l : list Z) : list Z :=
  match l with
  | 92 :: 110 :: l' => 10 :: unescape l'
  | 92 :: 116 :: l' => 9 :: unescape l'
  | c :: l' => c :: unescape l'
  | [] => []
  end.
Definition quoted (s : string) : list Z := unescape (chars s) ++ [0].

Definition on_vm {A} (m : Jm A) : Mm A := fun s =>
  match m (mon_vm s) with
  | Ok (a, v) => Ok (a, Mon v (mon_line s) (mon_out s))
  | Panic w => Panic w
  | Fault w => Fault w
  | Diverge => Diverge
  end.
Definition on_line {A} (m : M (list Z) A) : Mm A := fun s =>
  match m (mon_line s) with
  | Ok (a, l) => Ok (a, Mon (mon_vm s) l (mon_out s))
  | Panic w => Panic w
  | Fault w => Fault w
  | Diverge => Diverge
  end.

Section Monitor.
Context `{Image}.

(** [cprintf]: every conversion ends a round, and a format of its own takes ten more; a
    string is not longer than the line or than the table of names. *)
Definition line_byte (l : list Z) (a : Z) : option Z := zlookup l (a - buf_addr).
Definition cprintf (fmt : string) (args : list va) : Mm unit := fun s =>
  match vcprintf (line_byte (mon_line s)) (String.length fmt + 12)
          (length (mon_line s) + length img_stabstr + 100) (quoted fmt) args (mon_out s) with
  | Ok (_, out) => Ok (tt, Mon (mon_vm s) (mon_line s) out)
  | Panic w => Panic w
  | Fault w => Fault w
  | Diverge => Diverge
  end.

(** [strtol(argv[i], NULL, 16)]. *)
Definition arg_hex (argv : list nat) (i : nat) : Mm Z :=
  p ← lift_opt "argv" (argv !! i);
  l ← gets mon_line;
  '(v, _) ← on_line (strtol (S (length l)) p 16);
  mret v.

(** ** Help and symbols *)

Definition descriptions : list string :=
  ["Display this list of commands"; "Display information about the kernel"; "Display stack backtrace";
   "Show mappings between two addresses"; "Explicitly set, clear, or change the permissions of an addresses";
   "Dump the contents of a range of memory given either a virtual or physical address range"]%string.

Definition mon_help : Mm Z :=
  for_each (zip commands descriptions) (fun c =>
    cprintf "%s - %s\n" [Printfmt.Str (fst c ++ [0]); Printfmt.Str (literal (snd c))]) ;;
  mret 0.

Definition mon_kerninfo : Mm Z :=
  let phys a := Word (w32 (a - KERNBASE)) in
  cprintf "Special kernel symbols:\n" [] ;;
  cprintf "  _start                  %08x (phys)\n" [Word img_start] ;;
  cprintf "  entry  %08x (virt)  %08x (phys)\n" [Word img_entry; phys img_entry] ;;
  cprintf "  etext  %08x (virt)  %08x (phys)\n" [Word img_etext; phys img_etext] ;;
  cprintf "  edata  %08x (virt)  %08x (phys)\n" [Word img_edata; phys img_edata] ;;
  cprintf "  end    %08x (virt)  %08x (phys)\n" [Word img_end; phys img_end] ;;
  cprintf "Kernel executable memory footprint: %dKB\n"
    [Word (w32 (Z.quot (i32 (ROUNDUP (w32 (img_end - img_entry)) 1024)) 1024))] ;;
  mret 0.

(** ** The call stack *)

(** [debuginfo_eip] of lab-3, which does not look for the line: the result is thrown away. *)
Definition debuginfo_eip_lab3 (addr : Z) : res eipinfo :=
  let info := EipInfo Kdebug.Unknown 0 Kdebug.Unknown 9 addr 0 in
  if addr <? ULIM_ then Panic "User address"
  else if (length img_stabstr =? 0)%nat || negb (default 0 (last img_stabstr) =? 0) then Ok info
  else
    f ← stab_binsearch img_stabs 0 (Z.of_nat (length img_stabs) - 1) N_SO addr;
    let '(lfile, rfile) := f in
    if lfile =? 0 then Ok info
    else
      g ← stab_binsearch img_stabs lfile rfile N_FUN addr;
      let '(lfun, rfun) := g in
      h ← find_function img_stabs img_stabstr addr lfile rfile lfun rfun;
      let '(fn, fn_addr, _, lline, _) := h in
      len ← name_length img_stabstr fn;
      lline ← find_file (S (length img_stabs)) img_stabs lfile lline;
      file ← (if lfile <=? lline then
                y ← stab_at img_stabs lline;
                Ok (if n_strx y <? Z.of_nat (length img_stabstr) then Kdebug.At (n_strx y) else Kdebug.Unknown)
              else Ok Kdebug.Unknown);
      narg ← (if lfun <? rfun then count_args (S (length img_stabs)) img_stabs rfun (lfun + 1) 0 else Ok 0);
      Ok (EipInfo file 0 fn len fn_addr narg).

Definition name_arg (n : name) : va :=
  Printfmt.Str (match n with Kdebug.At off => drop (Z.to_nat off) img_stabstr | Kdebug.Unknown => literal "<unknown>" end).

Definition lift_res {A} (r : res A) : Mm A := fun s =>
  match r with Ok a => Ok (a, s) | Panic w => Panic w | Fault w => Fault w | Diverge => Diverge end.

(** The frames, as far as [fuel]. *)
Fixpoint backtrace_loop (fuel : nat) (ebp : Z) : Mm unit :=
  match fuel with
  | O => diverge
  | S fuel' =>
      if ebp =? 0 then mret tt
      else
        let word k := on_vm (ld (w32 (ebp + 4 * k))) in
        cprintf "\n" [] ;;
        w1 ← word 1; w2 ← word 2; w3 ← word 3; w4 ← word 4; w5 ← word 5; w6 ← word 6;
        cprintf "ebp %08x eip %08x args %08x %08x %08x %08x %08x"
          [Word ebp; Word w1; Word w2; Word w3; Word w4; Word w5; Word w6] ;;
        info ← lift_res (debuginfo_eip_lab3 w1);
        cprintf "\n\t" [] ;;
        cprintf " %s:%d: %.*s+%d\n"
          [name_arg (eip_file info); Word (eip_line info); Word (eip_fn_namelen info);
           name_arg (eip_fn_name info); Word (w32 (w1 - eip_fn_addr info))] ;;
        next ← word 0;
        backtrace_loop fuel' next
  end.

Definition mon_backtrace (fuel : nat) : Mm Z :=
  cprintf "Stack backtrace:" [] ;;
  backtrace_loop fuel read_ebp ;;
  cprintf "\n" [] ;;
  mret 0.

(** ** Page tables *)

Definition PTE_PWT : Z := 0x008.
Definition PTE_PCD : Z := 0x010.
Definition PTE_A : Z := 0x020.
Definition PTE_D : Z := 0x040.
Definition PTE_G : Z := 0x100.

(** The array [permissions] of strings, with letters for the flags that are set. *)
Definition flag (pte bit c : Z) : Z := if Z.land pte bit =? 0 then 45 else c.
Definition permissions (pte : Z) : list (list Z) :=
  [[flag pte PTE_U 85]; [flag pte PTE_W 87]; [flag pte PTE_P 80];
   [flag pte PTE_PWT 80; flag pte PTE_PCD 67; flag pte PTE_PCD 68];
   [flag pte PTE_A 65]; [flag pte PTE_D 68]; [flag pte PTE_PS 80; flag pte PTE_PS 83];
   [flag pte PTE_G 71]; []; []].
Definition print_permissions (pte : Z) : Mm unit :=
  for_each (permissions pte) (fun row =>
    for_each row (fun c => cprintf "%c" [Word c]) ;; cprintf " " []) ;;
  cprintf "\n" [].

Definition walk (va : Z) : Mm Z := d ← gets (fun s => kern_pgdir (mon_vm s)); on_vm (pgdir_walk d (w32 va) false).

Fixpoint mappings_loop (fuel : nat) (i stop : Z) : Mm unit :=
  match fuel with
  | O => diverge
  | S fuel' =>
      if i <=? stop then
        pte ← walk i;
        (if pte =? 0 then cprintf "%08x\t\tUnmapped\t\t-\n" [Word (w32 i)]
         else
           x ← on_vm (ld pte);
           cprintf "%08x\t\t%08x\t\t" [Word (w32 i); Word (PTE_ADDR x)] ;;
           print_permissions x) ;;
        mappings_loop fuel' (i32 (i + PGSIZE)) stop
      else mret tt
  end.

Definition mon_showmappings (fuel : nat) (argv : list nat) : Mm Z :=
  if negb (length argv =? 3)%nat then cprintf "Usage: showmappings <start_address> <end_address>\n" [] ;; mret 0
  else
    start ← arg_hex argv 1;
    stop ← arg_hex argv 2;
    when (stop <? start) (cprintf "Warning: End Address Should be Greater Than Start Address\n" []) ;;
    let '(start, stop) := if stop <? start then (stop, start) else (start, stop) in
    cprintf "Virtual Address\t\tPhysical Address\t\tPermissions\n" [] ;;
    mappings_loop fuel start stop ;;
    cprintf "\n" [] ;;
    mret 0.

Definition mon_setperm (argv : list nat) : Mm Z :=
  if negb (length argv =? 3)%nat then cprintf "Usage: setperm <start_address> <Permission-bit>\n" [] ;; mret 0
  else
    start ← arg_hex argv 1;
    new_prem ← arg_hex argv 2;
    if 0x100 <? new_prem then cprintf "Invalid Permission\n" [] ;; mret 0
    else
      pte ← walk start;
      if pte =? 0 then cprintf "Warning: Address %08x is not mapped\n" [Word (w32 start)] ;; mret 0
      else
        cprintf "Virtual Address: %08x\n" [Word (w32 start)] ;;
        x ← on_vm (ld pte);
        cprintf "Old Permissions:\n" [] ;;
        print_permissions x ;;
        x ← on_vm (ld pte);
        on_vm (sto pte (Z.lor x (w32 new_prem))) ;;
        cprintf "Permissions Set Successful\n" [] ;;
        x ← on_vm (ld pte);
        cprintf "New Permissions:\n" [] ;;
        print_permissions x ;;
        mret 0.

(** The loop of [mon_dump]; [None] for the return on a wrong type. *)
Fixpoint dump_loop (fuel : nat) (type start stop : Z) : Mm (option unit) :=
  match fuel with
  | O => diverge
  | S fuel' =>
      if start <=? stop then
        if (type =? 86) || (type =? 118) then
          pte ← walk start;
          x ← (if pte =? 0 then mret 0 else on_vm (ld pte));
          if (pte =? 0) || (Z.land x PTE_P =? 0) then
            cprintf "Warning: Address %08x is not mapped\n" [Word start] ;;
            dump_loop fuel' type (w32 (ROUNDUP start PGSIZE + 4)) stop
          else
            p_start ← on_vm (KADDR (Z.lor (PTE_ADDR x) (start mod PGSIZE)));
            _ ← on_vm (KADDR (Z.lor (PTE_ADDR x) (stop mod PGSIZE)));
            w ← on_vm (ld p_start);
            cprintf "%08x\t\t%08x\n" [Word p_start; Word w] ;;
            dump_loop fuel' type (w32 (start + 4)) stop
        else if (type =? 80) || (type =? 112) then
          w ← on_vm (ld start);
          cprintf "%08x\t\t%08x\n" [Word start; Word w] ;;
          dump_loop fuel' type (w32 (start + 4)) stop
        else cprintf "Warning: Invalid Address Type\n" [] ;; mret None
      else mret (Some tt)
  end.

Definition mon_dump (fuel : nat) (argv : list nat) : Mm Z :=
  if negb (length argv =? 4)%nat then
    cprintf "Usage: dump <virtual(V)/physical(P)> <start_address> <end_address>" [] ;; mret 0
  else
    p ← lift_opt "argv" (argv !! 1%nat);
    type ← on_line (load p);
    start ← arg_hex argv 2;
    stop ← arg_hex argv 3;
    let '(start, stop) := (w32 start, w32 stop) in
    when (stop <? start) (cprintf "Warning: End Address Should be Greater Than Start Address\n" []) ;;
    let '(start, stop) := if stop <? start then (stop, start) else (start, stop) in
    cprintf "Address:\t\tMemory Content:\n" [] ;;
    _ ← dump_loop fuel type start stop;
    mret 0.

(** ** The command interpreter *)

(** [commands[i].func(argc, argv, tf)]. *)
Definition invoke (fuel k : nat) (argv : list nat) : Mm Z :=
  match k with
  | 0%nat => mon_help
  | 1%nat => mon_kerninfo
  | 2%nat => mon_backtrace fuel
  | 3%nat => mon_showmappings fuel argv
  | 4%nat => mon_setperm argv
  | _ => mon_dump fuel argv
  end.

(** What [runcmd] does with the line after it has been split. *)
Definition mon_runcmd (fuel : nat) : Mm Z :=
  l ← gets mon_line;
  c ← on_line (runcmd (S (length l)) commands 0);
  match c with
  | Nothing => mret 0
  | TooMany => cprintf "Too many arguments (max %d)\n" [Word (Z.of_nat MONITOR_MAXARGS)] ;; mret 0
  | JosString.Unknown p => cprintf "Unknown command '%s'\n" [Word (w32 (buf_addr + Z.of_nat p))] ;; mret 0
  | Invoke k argv => invoke fuel k argv
  end.

(** The loop of [monitor] over the characters typed, for [n] lines at most. *)
Fixpoint monitor_loop (n fuel : nat) (typed : list Z) : Mm unit :=
  match n with
  | O => diverge
  | S n' =>
      cprintf "%s" [Printfmt.Str (literal "K> ")] ;;
      s ← get;
      '(r, buf, echo, typed) ← lift_res (readline true typed (mon_line s));
      put (Mon (mon_vm s) buf (mon_out s ++ echo)) ;;
      match r with
      | inr _ => x ← mon_runcmd fuel; if x <? 0 then mret tt else monitor_loop n' fuel typed
      | inl e => cprintf "read error: %e\n" [Word (w32 e)] ;; monitor_loop n' fuel typed
      end
  end.

Definition monitor (n fuel : nat) (typed : list Z) : Mm unit :=
  cprintf "Welcome to the JOS kernel monitor!\n" [] ;;
  cprintf "Type 'help' for a list of commands.\n" [] ;;
  monitor_loop n fuel typed.
End Monitor.

(** ** Printing *)

Section Says.
Context `{Image}.

(** [m] only prints, and always returns. *)
Definition says (m : Mm unit) : Prop := forall s, exists o, m s = Ok (tt, Mon (mon_vm s) (mon_line s) (mon_out s ++ o)).

Lemma says_ret : says (mret tt).
Proof. intros [v l out]. exists []. by rewrite app_nil_r. Qed.

Lemma says_seq m1 m2 : says m1 -> says m2 -> says (m1 ;; m2).
Proof.
  intros H1 H2 s. destruct (H1 s) as [o1 R1]. destruct (H2 (Mon (mon_vm s) (mon_line s) (mon_out s ++ o1))) as [o2 R2].
  exists (o1 ++ o2). rewrite (bind_ok _ _ _ _ _ R1), R2. cbn. by rewrite app_assoc.
Qed.

Lemma says_each {I} (l : list I) body : Forall (fun i => says (body i)) l -> says (for_each l body).
Proof. induction 1; cbn [for_each]; [apply says_ret|by apply says_seq]. Qed.

(** A format of characters and numbers. *)
Lemma says_cprintf fmt args its : quoted fmt = format_text its ++ [0] -> args = format_args its ->
  Forall (good_item (fun _ => None) 0) its -> (length its <= String.length fmt)%nat -> says (cprintf fmt args).
Proof.
  intros Hf -> Hg Hl s. unfold cprintf. rewrite vcprintf_prints, Hf.
  set (mem := line_byte (mon_line s)). set (k := (length (mon_line s) + length img_stabstr + 100)%nat).
  assert (Forall (good_item mem k) its) as Hg'.
  { eapply Forall_impl; [exact Hg|]. intros [] Hi; try done; cbn in Hi; destruct Hi as (? & ? & ?); lia. }
  destruct (parts_run mem (String.length fmt + 12) k [] its [] [] (mon_out s) Hg' ltac:(lia)) as (os & _ & R).
  rewrite app_nil_r in R. cbn [app length] in R. rewrite R. by exists (concat os).
Qed.

(** The hexadecimal number that [%08x] prints. *)
Definition hex8 (n : Z) : item := Unsigned Hexadecimal (Fspec false true [56] [] false 0) n.
Lemma hex8_good n : 0 <= n < 2 ^ 32 -> good_item (fun _ => None) 0 (hex8 n).
Proof. intros Hn. split; [|exact Hn]. split; [|done]. cbn. split_and!; [lia|lia|by apply Forall_nil|done]. Qed.

Lemma says_char c : 0 <= c < 256 -> says (cprintf "%c" [Word c]).
Proof.
  intros Hc. apply (says_cprintf _ _ [Character plain c]); [done| | |by vm_compute; lia].
  - cbn. by rewrite w32_small by lia.
  - apply Forall_singleton. split; [apply plain_good|lia].
Qed.

Lemma says_address n : says (cprintf "Virtual Address: %08x\n" [Word (w32 n)]).
Proof.
  apply (says_cprintf _ _ (map Char (chars "Virtual Address: ") ++ [hex8 (w32 n); Char 10])); [reflexivity| | |cbn; lia].
  { cbn. by rewrite (w32_small (w32 n)) by apply w32_bounds. }
  apply Forall_app_2; [by repeat constructor|]. apply Forall_cons_2; [apply hex8_good, w32_bounds|by repeat constructor].
Qed.

Lemma format_chars l : format_text (map Char l) = l /\ format_args (map Char l) = [].
Proof.
  induction l as [|c l [IH1 IH2]]; [done|]. unfold format_text, format_args in *. cbn. by rewrite IH1, IH2.
Qed.

(** A format without conversions. *)
Lemma says_words fmt : forallb (fun c => negb (c =? 37) && negb (c =? 0)) (unescape (chars fmt)) = true ->
  (length (unescape (chars fmt)) <= String.length fmt)%nat -> says (cprintf fmt []).
Proof.
  intros Hc Hl. apply (says_cprintf _ _ (map Char (unescape (chars fmt)))).
  - unfold quoted. by rewrite (proj1 (format_chars _)).
  - by rewrite (proj2 (format_chars _)).
  - apply Forall_map, Forall_forall. intros c Hin. rewrite forallb_forall in Hc.
    specialize (Hc c (proj1 (list_elem_of_In _ _) Hin)). cbn. apply andb_prop in Hc as [?%negb_true_iff%Z.eqb_neq ?%negb_true_iff%Z.eqb_neq].
    done.
  - by rewrite length_map.
Qed.

Lemma flag_char pte bit c : 0 <= c < 256 -> 0 <= flag pte bit c < 256.
Proof. unfold flag. case_match; lia. Qed.

Lemma says_permissions pte : says (print_permissions pte).
Proof.
  assert (says (cprintf " " [])) as Hb by (by apply (says_cprintf _ _ [Char 32]); repeat constructor).
  apply says_seq; [|by apply (says_cprintf _ _ [Char 10]); repeat constructor].
  apply says_each. unfold permissions.
  repeat (apply Forall_cons; split; [apply says_seq; [|exact Hb]; apply says_each;
    repeat (apply Forall_cons; split; [apply says_char, flag_char; lia|]); by apply Forall_nil|]).
  by apply Forall_nil.
Qed.
End Says.

(** ** setperm *)

Section SetPerm.
Context `{Image}.

(** The word of the line at [p] is read as the number [n] in base 16. *)
Definition reads_hex (l : list Z) (p : nat) (n : Z) : Prop := exists e, strtol (S (length l)) p 16 l = Ok ((n, e), l).

Lemma arg_hex_run argv i p n s : argv !! i = Some p -> reads_hex (mon_line s) p n -> arg_hex argv i s = Ok (n, s).
Proof.
  intros Hp [e He]. unfold arg_hex. rewrite Hp, bind_lift_Some, bind_gets. unfold on_line at 1.
  unfold mbind, M_bind. rewrite He. by destruct s.
Qed.

Lemma on_vm_run {A} (m : Jm A) s (a : A) v : m (mon_vm s) = Ok (a, v) -> on_vm m s = Ok (a, Mon v (mon_line s) (mon_out s)).
Proof. unfold on_vm. by intros ->. Qed.

(** Runs a step that only prints. *)
Ltac says_step H := match goal with |- context [(_ ≫= _) ?s] =>
  let o := fresh "o" in let R := fresh "R" in
  destruct (H s) as [o R]; rewrite (bind_ok _ _ _ _ _ R); cbn [mon_vm mon_line mon_out]; clear R end.

(** [setperm] changes one word of memory, the entry of the address in its page table: the
    bits of its argument are added, and none is taken away.  The translation that the
    processor may have kept is not invalidated. *)
Theorem setperm_only_adds D held a s x y z n perm t :
  space_ok (mon_vm s) D held a -> reads_hex (mon_line s) y n -> reads_hex (mon_line s) z perm -> perm <= 0x100 ->
  user_va (w32 n) -> sp_tables a !! (w32 n / PGSIZE / 1024) = Some t ->
  let i := w32 n / PGSIZE mod 1024 in
  let vm := mon_vm s in
  exists o, mon_setperm [x; y; z] s =
    Ok (0, Mon (set_pmem (set_pword (Z.of_nat t) i (w32 (Z.lor (pword (pmem vm) (Z.of_nat t) i) (w32 perm))) (pmem vm)) vm)
             (mon_line s) (mon_out s ++ o)).
Proof.
  intros Hs Hy Hz Hp Hva HT i vm. pose proof (w32_bounds n) as Hn.
  destruct (va_index (w32 n) Hva) as (Hnu & _). destruct (user_index _ Hnu) as [_ Hi]. fold i in Hi.
  pose proof (sk_fits _ _ _ _ Hs) as Hf. destruct (to_table _ _ _ _ _ _ (sk_tables _ _ _ _ Hs) _ _ HT) as (_ & Ht & _).
  change (fits vm) in Hf. change (Z.of_nat t < npages vm) in Ht.
  unfold mon_setperm. cbn [length Nat.eqb negb]. rewrite (bind_ok _ _ _ _ _ (arg_hex_run [x; y; z] 1 y n s eq_refl Hy)).
  rewrite (bind_ok _ _ _ _ _ (arg_hex_run [x; y; z] 2 z perm s eq_refl Hz)), (proj2 (Z.ltb_ge _ _) Hp).
  assert (walk n s = Ok (at_ (Z.of_nat t) i, s)) as Hw.
  { unfold walk. rewrite bind_gets. rewrite (on_vm_run _ s _ _ (walk_there D (mon_vm s) held a (w32 n) Hs Hva t false HT)).
    by destruct s. }
  assert (forall v l o, fits v -> npages v = npages vm ->
    on_vm (ld (at_ (Z.of_nat t) i)) (Mon v l o) = Ok (pword (pmem v) (Z.of_nat t) i, Mon v l o)) as Hld.
  { intros v l o Hfv Hnv. apply (on_vm_run (ld (at_ (Z.of_nat t) i)) (Mon v l o)).
    apply phys_ld_run; [done|cbn [mon_vm]; lia|done]. }
  rewrite (bind_ok _ _ _ _ _ Hw), (proj2 (Z.eqb_neq _ _) (proj2 (at_index vm (Z.of_nat t) i Hf ltac:(lia) Hi))).
  says_step (says_address n). rewrite (bind_ok _ _ _ _ _ (Hld vm _ _ Hf eq_refl)).
  says_step (says_words "Old Permissions:\n" eq_refl ltac:(vm_compute; lia)). says_step (says_permissions (pword (pmem vm) (Z.of_nat t) i)).
  rewrite (bind_ok _ _ _ _ _ (Hld vm _ _ Hf eq_refl)).
  rewrite (bind_ok _ _ _ _ _ (on_vm_run _ (Mon vm _ _) _ _ (phys_sto_run vm (Z.of_nat t) i Hf ltac:(lia) Hi _))).
  cbn [mon_vm mon_line mon_out]. set (vm' := set_pmem _ vm).
  says_step (says_words "Permissions Set Successful\n" eq_refl ltac:(vm_compute; lia)). rewrite (bind_ok _ _ _ _ _ (Hld vm' _ _ Hf eq_refl)).
  says_step (says_words "New Permissions:\n" eq_refl ltac:(vm_compute; lia)). says_step (says_permissions (pword (pmem vm') (Z.of_nat t) i)).
  eexists. rewrite ret_run, <- !app_assoc. reflexivity.
Qed.
End SetPerm.
